(* ===== verification/_CoqProject ===== *)
-Q . S2P
Prelude.v
Ints.v
GoStrings.v
Runes.v
Errors.v
Entities.v
Paths.v
Mounts.v
Permission.v
Tables.v
Db.v
Auditing.v
Repos.v
MetaRepos.v
Acl.v
AclSpec.v
AclService.v
Journal.v
Users.v
Auth.v
MetaTree.v
MetaTreeSpec.v
MetaTreeProps.v
AclTree.v
Tags.v
Notifications.v
NotificationProps.v
Storage.v
Files.v
Walks.v
DiskProps.v
WalkProps.v
Uploads.v
UploadProps.v
UploadRoundtrip.v
Commits.v
CommitProps.v
MountSync.v
MountProps.v
RssRules.v
RssRuleProps.v
Tasks.v
Rss.v
RssProps.v
RssSubs.v
RssPreviews.v
RssSubProps.v
TaskService.v
TaskProps.v
TaskImports.v
Shares.v
ShareProps.v
MetaSync.v
MetaSyncProps.v
MetaSyncRefresh.v
FileService.v
Trash.v
FileProps.v
FileEffects.v
