(* ===== verification/Prelude.v ===== *)
(** * Yunxia backend: a verification development

    Yunxia is a self-hosted file service.  Its backend (Go, under
    src/backend) is layered: HTTP handlers and middleware call application
    services (internal/application/service), which work on entities
    (internal/domain/entity) through repositories
    (internal/infrastructure/persistence/gorm) over PostgreSQL, and reach
    files through storage drivers.  This library models the services that
    decide who may do what, and the state they keep, as executable
    definitions that follow the source function by function, and proves
    what makes them correct.

    ** How the model is built

    A Go function that can fail is a computation [M E S A]: from a state to
    a result or an error, and a new state (this file).  The state of a
    service is a [World] (Db): a database, a clock and the number of times
    it was read.  [x <-! m ;; k] is [x, err := m; if err != nil { return
    err }; k]; [x <-! m or e => h ;; k] handles the error as the source does.
    A [context.Context] is a [Ctx] (Auditing): the identity and the request
    data it carries.  Integers of Go's [int] wrap at 64 bits where overflow
    can matter (Ints); strings are byte strings (GoStrings); times are
    nanoseconds, and the zero time is 0.

    gorm and PostgreSQL are not under src: [Db.Database] is the interface of
    the statements the repositories issue, [Db.DatabaseLaws] what they do to
    the tables, and [Db.Mem] an in-memory instance of both, with a schedule
    of faults, for concrete runs.  Any statement may fail at any point; the
    theorems hold for every database with these laws.  A statement, or a
    transaction, is atomic; the interleaving of requests is an interleaving
    of statements.  bcrypt, the JWT library, UUIDs, the storage drivers, the
    webhook sender, [url.Parse], the engine of package regexp, time
    formatting and JSON decoding are classes with documented laws and
    concrete instances.  Logging and
    metrics are left out: they change no state the model has.

    ** The files

    - Prelude (this file): results, errors, record updates, the monad and
      its weakest preconditions.
    - Ints, GoStrings: machine integers and [paginateItems]; the functions
      of package strings the source uses.  Case mapping is that of ASCII.
    - Runes, Errors: UTF-8, and the functions of package strings that go by
      runes, parts and sets; the texts of errors.
    - Entities, Tables: domain/entity; the tables of gorm/models.go, their
      unique indexes and the columns gorm fills in.
    - Paths: the virtual paths of vfs_path.go and local_storage_helpers.go,
      with [path.Clean].  Normalisation yields exactly the canonical paths,
      the subpath test is the prefix order on them, splitting and joining
      are inverse.
    - Mounts: vfs_registry.go and vfs_conflict.go.  A path resolves to the
      mount with the longest covering path; the virtual directories shown
      are exactly those that lead to mounts; a new name never hides one.
    - Permission: domain/permission.  Roles form a hierarchy of
      capabilities; no one can assign a role beyond their own.
    - Db, Auditing, Repos: the database interface and its rules; request
      identities and the audit log (application/audit, audit_helpers.go),
      with the relation [frames] that says which tables a step may change;
      the repositories.
    - Acl, AclSpec, AclService: acl_authorizer.go against the interface
      [MetadataReader] of the metadata tree; its specification [granted] (of
      the rules of highest priority that match, one allows and none denies)
      and the proof that the authorizer decides it, caches and all;
      acl_service.go, which only ever stores rules the authorizer can
      decide by.
    - Journal: vfs_operation_journal_service.go and its repository.
      Operations move by a step relation in which success is final; leases
      are exclusive; payloads are redacted and bounded.
    - Users: user_service.go.  An active super admin always remains; an
      update changes what it says and nothing else.
    - Auth: setup_service.go, the token services and auth_middleware.go.
      Refresh tokens are good for one use, revoked tokens get no request
      through and no refresh, the first start happens once, a login
      authenticates.
    - MetaRepos: the repositories of nodes, storage objects and tags
      (vfs_metadata_repo_impl.go).  The LIKE patterns select subtrees.
    - MetaTree, MetaTreeSpec, MetaTreeProps: metadata_vfs_service.go, the
      implementation of [MetadataReader].  The live nodes form a tree whose
      paths spell the chain of parents, and every operation keeps it;
      renames and moves relocate a whole subtree or nothing.  Object
      locators are compared as the JSON text that is stored.
    - AclTree: the authorizer with this service as its reader.  As long as
      reading does not fail it answers from the live nodes, so a decision is
      the one [granted] calls for.
    - Tags: vfs_tag_service.go.  Users never see or change each other's
      tags.
    - Notifications, NotificationProps: notification_service.go and its
      repository.  Events settle after a bounded number of attempts, and
      move only from open to final states.
    - Storage: files on a storage source (local_storage_helpers.go, the
      entries of domain/storage/driver.go), with the physical paths of local
      sources, which never leave their directory.
    - Files: the local disk, a tree of nodes with the system calls the
      source makes; any call may fail, some having done a part of their
      work.  The helpers of local_storage_helpers.go that read and write it.
      A [Host] is a world with a disk.
    - Walks, DiskProps, WalkProps: directories, [filepath.WalkDir] and the
      helpers that walk; what system calls and walks do to the tree of a
      disk, on disks that fail and on disks that do not.  Copying a
      directory copies its whole subtree.
    - Uploads, UploadProps, UploadRoundtrip: upload_service.go and its
      repository.  Sessions stay well formed and apart from each other,
      whatever fails; uploads write only in the directories of sessions and
      of local sources; a file that is finished is the file that was sent.
      Requests are sequential here, and what two pieces that arrive at once
      can do is shown by an example.
    - Commits, CommitProps: metadata_vfs_commit_service.go and the look-up
      of objects by locator.  A commit puts one file and the directories
      above it into the tree, keeps it a tree, and changes no other path; it
      implements the interface the uploads commit through.
    - MountSync, MountProps: metadata_vfs_mount_service.go and the table of
      mounts.  A source has at most one mount that is on; none is taken from
      another source; the tree stays a tree.
    - RssRules, RssRuleProps: the functions of rss_service.go without state:
      the rules of a subscription and their preview, titles, templates,
      links, keys, when a source is due and what an error means.  Where a
      download goes lies below the target of its subscription, whatever the
      title says.
    - Tasks, TaskService: task_repo_impl.go and task_service.go, with the
      router of download_router.go.  The downloaders, the sources that
      download by themselves and the observer of finished tasks are
      interfaces.
    - TaskProps, TaskImports: a task that is over stays as it is; one user's
      requests leave the tasks of others alone; a task is completed only
      once its result is in the tree (over the commit service of Commits,
      which is shown to give one); an import puts the file where it belongs
      and overwrites nothing.
    - Rss, RssProps: rss_repo_impl.go, and of rss_service.go the requests on
      sources and items, the refresh that stores the entries of a feed, the
      run of a subscription over what is stored, and the worker that follows
      the download tasks and retries.  Creating a
      task, notices, fetching and the locks are interfaces.  An item keeps
      its identity and completes for good; an attempt asks for at most one
      task, for the owner of the subscription and below its target.
    - RssSubs, RssPreviews, RssSubProps: the requests of rss_service.go on
      subscriptions, previews, batches, export and import.  A preview shows
      what a run would take, and why it would not.  What is stored passed the
      checks of its rules, templates and target; an import accounts for
      every entry it was given.
    - Shares, ShareProps: share_service.go and its repository, over an
      interface to the files it reads.  A link opens only while it is valid,
      and only on what has the virtual path of its target, or one below.
    - MetaSync, MetaSyncProps, MetaSyncRefresh:
      metadata_vfs_sync_service.go.  A refresh that succeeds leaves a
      directory as its source lists it, keeps the tree and changes nothing
      but the directory and its children; it is the [MetadataRefresher] of
      the shares.
    - FileService, Trash: file_service.go and trash_service.go with its
      repository, on the disk of the host for local sources and against the
      interface of the drivers for the others.
    - FileProps, FileEffects: whatever fails, these requests write only
      below the directories of local sources; on a disk that does not fail,
      each does to its tree what it is for, or nothing but what is said;
      what went to the trash comes back as it was.

    ** How to read the theorems

    Every property is a theorem whose doc comment begins with its number.
    Operations are specified on every branch: what a success changed, and
    that a failure changed nothing but what is said; invariants are stated
    over arbitrary sequences of operations, failing ones included.  A
    theorem with hypotheses is followed, at the end of its file, by a
    witness: a concrete run on [Mem] in which they hold.  Theorems without
    a number record where the code does something other than what it seems
    to mean.

    Fuel occurs in [GoStrings.trim_left_fuel], [Auth.Sha256.blocks], the
    trims and fields of Runes and the loops over titles in RssRules, and is
    the length of the input, of which each step consumes at least one byte
    or element (RssRuleProps proves that the loops over titles end within
    it); [Files.create_temp] tries 10000 names, as [os.CreateTemp] does;
    [RssSubs.free_copy] tries as many names as are taken, and one more; a
    walk goes as deep as paths may be long (the parameter
    [Walks.path_limit]), and fails with the error of the system below that;
    every other recursion is structural.

    ** Not modelled

    The requests on storage sources, the services that compose the metadata
    tree with the files of sources (vfs_service.go), and the queries of the
    audit log.
    Storage clients, downloaders and the HTTP layer are network input and
    output, as tickers and start-up are wiring, and stay outside. *)
From stdpp Require Import base list strings gmap sorting.
From Stdlib Require Import ZArith Lia Ascii.

(** ** Record updates

    [{ r with f := v; g ::= h }] is [r] with field [f] set to [v] and field
    [g] mapped by [h].  A record declares its eta expansion once; setters
    are found from it, and simplify to records of projections. *)
Class Eta (R : Type) : Type := eta : R -> R.
Class Setter {R E : Type} (get : R -> E) : Type := setter : (E -> E) -> R -> R.
#[global] Arguments setter {R E} get {_} _ _ /.
Ltac find_setter R get :=
  let i := constr:(_ : Eta R) in
  let t := eval hnf in i in
  lazymatch eval pattern get in t with
  | ?h _ => let b := eval cbv beta in (fun u => h (fun r => u (get r))) in exact b
  end.
#[global] Hint Extern 1 (@Setter ?R _ ?get) => find_setter R get : typeclass_instances.

Declare Custom Entry field_setting.
Notation "f := v" := (setter f (fun _ => v))
  (in custom field_setting at level 1, f constr at level 1, v constr at level 99).
Notation "f ::= h" := (setter f h)
  (in custom field_setting at level 1, f constr at level 1, h constr at level 99).
Notation "{ x 'with' u }" := (u x)
  (at level 0, x at level 99, u custom field_setting at level 1).
Notation "{ x 'with' u ; .. ; v ; w }" := (w (v .. (u x) ..))
  (at level 0, x at level 99, u custom field_setting at level 1,
   v custom field_setting at level 1, w custom field_setting at level 1).

(** ** Results and errors

    Go functions of the backend return [(value, error)]; every one that
    can fail is modelled by a function into [result]. *)
Inductive result (E A : Type) : Type :=
| Ok (a : A)
| Err (e : E).
Arguments Ok {E A} _.
Arguments Err {E A} _.

Definition is_ok {E A} (r : result E A) : bool :=
  match r with Ok _ => true | Err _ => false end.

(** The sentinel errors of [storage_errors.go], [setup_service.go],
    [notification_service.go], [domain/storage/errors.go] and [domain/repository/errors.go], errors
    with a free text, [fmt.Errorf] with [%w], and [errors.Join]; a run-time
    panic, which also unwinds to the caller, is [ErrPanic]. *)
Inductive GoErr : Type :=
| ErrNotFound
| ErrConflict
| ErrConstraintViolation
| ErrSourceDriverUnsupported
| ErrConfigInvalid
| ErrSourceOperationUnsupported
| ErrPathInvalid
| ErrNoBackingStorage
| ErrNameConflict
| ErrVFSSyncConflict
| ErrMetadataVFSCommitFailed
| ErrMetadataVFSMountSyncFailed
| ErrMetadataVFSMutationSyncFailed
| ErrFileNotFound
| ErrFileAlreadyExists
| ErrFileNameInvalid
| ErrUploadSessionNotFound
| ErrUploadChunkConflict
| ErrUploadFinishIncomplete
| ErrUploadHashMismatch
| ErrUploadInvalidState
| ErrUploadTooLarge
| ErrDownloadLinkUnsupported
| ErrUserNameConflict
| ErrUserRoleInvalid
| ErrUserStatusInvalid
| ErrRoleAssignmentForbidden
| ErrLastSuperAdminForbidden
| ErrACLSubjectTypeInvalid
| ErrACLEffectInvalid
| ErrACLPermissionsInvalid
| ErrACLDenied
| ErrPermissionDenied
| ErrSetupAlreadyCompleted
| ErrInvalidCredentials
| ErrRefreshTokenInvalid
| ErrAccountLocked
| ErrSourceNameConflict
| ErrSourceMountPathConflict
| ErrSourceConnectionFailed
| ErrSourceReadOnly
| ErrSourceInUse
| ErrFileIsDirectory
| ErrFileMoveConflict
| ErrFileCopyConflict
| ErrCloudAuthFailed
| ErrCloudTokenInvalid
| ErrCloudCaptchaRequired
| ErrCloudCaptchaExpired
| ErrCloudRateLimited
| ErrCloudRegionBlocked
| ErrCloudProviderUnavailable
| ErrTaskInvalidState
| ErrDownloaderUnavailable
| ErrDownloaderAuthFailed
| ErrShareExpired
| ErrSharePasswordRequired
| ErrSharePasswordInvalid
| ErrTagInvalid
| ErrTagForbidden
| ErrTagBindingNotFound
| ErrRSSRegexInvalid
| ErrNotificationChannelUnsupported
| ErrNotificationDeliveryFailed
| ErrPanic (msg : string)
| ErrText (msg : string)
| ErrWrap (msg : string) (e : GoErr)
| ErrJoin (e1 e2 : GoErr).

#[export] Instance GoErr_eq_dec : EqDecision GoErr.
Proof. solve_decision. Defined.

(** [errors.Is]: the error itself or, for a joined error, one of its
    parts, a wrapped one the error it wraps. *)
Fixpoint err_is (e target : GoErr) : bool :=
  bool_decide (e = target) ||
  match e with
  | ErrWrap _ a => err_is a target
  | ErrJoin a b => err_is a target || err_is b target
  | _ => false
  end.

Lemma err_is_refl e : err_is e e = true.
Proof. destruct e; cbn; rewrite bool_decide_eq_true_2 by done; done. Qed.

(** A decidable closed goal, decided by evaluation. *)
Ltac by_decide := apply (bool_decide_unpack _); vm_compute; exact I.

(** Lemmas [auto with go] may use. *)
Create HintDb go.
#[export] Hint Resolve err_is_refl : go.

(** [sort.SliceStable]: each element goes before the first one it is not
    greater than. *)
Fixpoint stable_insert {A} (less : A -> A -> bool) (x : A) (l : list A) : list A :=
  match l with
  | [] => [x]
  | y :: l' => if less y x then y :: stable_insert less x l' else x :: l
  end.
Definition stable_sort {A} (less : A -> A -> bool) (l : list A) : list A := fold_right (stable_insert less) [] l.

Lemma stable_insert_perm {A} (less : A -> A -> bool) x l : stable_insert less x l ≡ₚ x :: l.
Proof. induction l as [|y l IH]; cbn; [done|]. destruct (less y x); [|done]. rewrite IH. apply Permutation_swap. Qed.
Lemma stable_sort_perm {A} (less : A -> A -> bool) l : stable_sort less l ≡ₚ l.
Proof. induction l as [|x l IH]; cbn; [done|]. by rewrite stable_insert_perm, IH. Qed.

(** Its result is sorted where [less] is a weak order. *)
Lemma stable_sort_sorted {A} (less : A -> A -> bool) (P : A -> Prop) l : Forall P l ->
  (forall a b, P a -> P b -> less a b = true -> less b a = false) ->
  (forall a b c, P a -> P b -> P c -> less b a = false -> less c b = false -> less c a = false) ->
  StronglySorted (fun a b => less b a = false) (stable_sort less l).
Proof.
  intros HP Hasym Htrans.
  assert (forall x m, P x -> Forall P m -> StronglySorted (fun a b => less b a = false) m ->
            StronglySorted (fun a b => less b a = false) (stable_insert less x m)) as Hins.
  { intros x m Hx. induction m as [|y m IH]; intros Hm Hs; cbn; [repeat constructor|].
    apply Forall_cons in Hm as [Hy Hm]. inversion_clear Hs as [|? ? Hs' Hy'].
    destruct (less y x) eqn:E.
    - constructor; [by apply IH|]. rewrite stable_insert_perm. constructor; [by apply Hasym|done].
    - constructor; [by constructor|]. constructor; [done|]. rewrite Forall_forall in Hy', Hm |- *.
      intros z Hz. apply (Htrans x y z); auto. }
  induction HP as [|x l Hx Hl IH]; cbn; [constructor|]. apply Hins; [done| |done].
  fold (stable_sort less l). by rewrite stable_sort_perm.
Qed.

(** ** A state and error monad *)
Definition M (E S A : Type) : Type := S -> result E A * S.

Section Monad.
Context {E S : Type}.

Definition ret {A} (a : A) : M E S A := fun s => (Ok a, s).
Definition throw {A} (e : E) : M E S A := fun s => (Err e, s).
Definition bind {A B} (m : M E S A) (k : A -> M E S B) : M E S B :=
  fun s => match m s with
           | (Ok a, s') => k a s'
           | (Err e, s') => (Err e, s')
           end.
(** [x, err := m; if err != nil { return h(err) }; return k(x)]. *)
Definition bind_or {E' A B} (m : M E' S A) (h : E' -> M E S B) (k : A -> M E S B) : M E S B :=
  fun s => match m s with
           | (Ok a, s') => k a s'
           | (Err e, s') => h e s'
           end.
Definition gets {A} (f : S -> A) : M E S A := fun s => (Ok (f s), s).
Definition modify (f : S -> S) : M E S unit := fun s => (Ok tt, f s).
Definition lift_result {A} (r : result E A) : M E S A := fun s => (r, s).
End Monad.

Definition map_err {E E' S A} (f : E -> E') (m : M E S A) : M E' S A :=
  fun s => match m s with
           | (Ok a, s') => (Ok a, s')
           | (Err e, s') => (Err (f e), s')
           end.

(** Run a computation on a part of a larger state. *)
Definition zoom {E S W A} (get : W -> S) (put : S -> W -> W) (m : M E S A) : M E W A :=
  fun w => let '(r, s') := m (get w) in (r, put s' w).

Declare Scope go_scope.
Delimit Scope go_scope with go.
Notation "x <-! m ;; k" := (bind m (fun x => k))
  (at level 100, m at next level, right associativity) : go_scope.
Notation "'do!' m ;; k" := (bind m (fun _ => k))
  (at level 100, m at next level, right associativity) : go_scope.
Notation "x <-! m 'or' e => h ;; k" := (bind_or m (fun e => h) (fun x => k))
  (at level 100, m at next level, e name, h at next level, right associativity) : go_scope.

(** ** Weakest preconditions *)
Definition wp {E S A} (m : M E S A) (Q : result E A -> S -> Prop) (s : S) : Prop :=
  Q (fst (m s)) (snd (m s)).

Section Wp.
Context {E S : Type}.

Lemma wp_ret {A} (a : A) (Q : result E A -> S -> Prop) s : Q (Ok a) s -> wp (ret a) Q s.
Proof. done. Qed.
Lemma wp_throw {A} e (Q : result E A -> S -> Prop) s : Q (Err e) s -> wp (throw e) Q s.
Proof. done. Qed.
Lemma wp_gets {A} (f : S -> A) (Q : result E A -> S -> Prop) s : Q (Ok (f s)) s -> wp (gets f) Q s.
Proof. done. Qed.
Lemma wp_modify f (Q : result E unit -> S -> Prop) s : Q (Ok tt) (f s) -> wp (modify f) Q s.
Proof. done. Qed.
Lemma wp_lift_result {A} (r : result E A) (Q : result E A -> S -> Prop) s :
  Q r s -> wp (lift_result r) Q s.
Proof. done. Qed.

Lemma wp_mono {A} (m : M E S A) (Q Q' : result E A -> S -> Prop) s :
  wp m Q s -> (forall r s', Q r s' -> Q' r s') -> wp m Q' s.
Proof. unfold wp; auto. Qed.

Lemma wp_conj {A} (m : M E S A) (Q Q' : result E A -> S -> Prop) s :
  wp m Q s -> wp m Q' s -> wp m (fun r s' => Q r s' /\ Q' r s') s.
Proof. unfold wp; auto. Qed.

Lemma wp_bind {A B} (m : M E S A) (k : A -> M E S B) Q s :
  wp m (fun r s' => match r with Ok a => wp (k a) Q s' | Err e => Q (Err e) s' end) s ->
  wp (bind m k) Q s.
Proof. unfold wp, bind. destruct (m s) as [[a|e] s']; done. Qed.

Lemma wp_bind_or {E' A B} (m : M E' S A) (h : E' -> M E S B) (k : A -> M E S B) Q s :
  wp m (fun r s' => match r with Ok a => wp (k a) Q s' | Err e => wp (h e) Q s' end) s ->
  wp (bind_or m h k) Q s.
Proof. unfold wp, bind_or. destruct (m s) as [[a|e] s']; done. Qed.

Lemma wp_map_err {E' A} (f : E' -> E) (m : M E' S A) (Q : result E A -> S -> Prop) s :
  wp m (fun r s' => match r with Ok a => Q (Ok a) s' | Err e => Q (Err (f e)) s' end) s ->
  wp (map_err f m) Q s.
Proof. unfold wp, map_err. destruct (m s) as [[a|e] s']; done. Qed.

Lemma wp_zoom {W A} (get : W -> S) (put : S -> W -> W) (m : M E S A) (Q : result E A -> W -> Prop) w :
  wp m (fun r s' => Q r (put s' w)) (get w) -> wp (zoom get put m) Q w.
Proof. unfold wp, zoom. destruct (m (get w)); done. Qed.

Lemma run_wp {A} (m : M E S A) (Q : result E A -> S -> Prop) s :
  wp m Q s -> let '(r, s') := m s in Q r s'.
Proof. unfold wp. by destruct (m s). Qed.

(** From a [wp] to what a run that returned says. *)
Lemma wp_run {A} (m : M E S A) (Q : result E A -> S -> Prop) s r s' :
  wp m Q s -> m s = (r, s') -> Q r s'.
Proof. unfold wp; intros H Hm; by rewrite Hm in H. Qed.
End Wp.

(** ** What a result satisfies, in any state *)
Definition returns {E S A} (m : M E S A) (P : A -> Prop) : Prop :=
  forall s, wp m (fun r _ => match r with Ok a => P a | Err _ => True end) s.

Section Returns.
Context {E S : Type}.

Lemma returns_ret {A} (a : A) (P : A -> Prop) : P a -> returns (ret a : M E S A) P.
Proof. by intros HP s. Qed.
Lemma returns_throw {A} e (P : A -> Prop) : returns (throw e : M E S A) P.
Proof. by intros s. Qed.
Lemma returns_lift {A} (r : result E A) (P : A -> Prop) : (forall a, r = Ok a -> P a) -> returns (lift_result r : M E S A) P.
Proof. intros HP s. apply wp_lift_result. destruct r; auto. Qed.
Lemma returns_bind {A B} (m : M E S A) (k : A -> M E S B) (P : A -> Prop) (Q : B -> Prop) :
  returns m P -> (forall a, P a -> returns (k a) Q) -> returns (bind m k) Q.
Proof. intros Hm Hk s. apply wp_bind. eapply wp_mono; [apply Hm|]. intros [a|e] s' HP; [by apply Hk|done]. Qed.
Lemma returns_bind_or {E' A B} (m : M E' S A) (h : E' -> M E S B) (k : A -> M E S B) (P : A -> Prop) (Q : B -> Prop) :
  returns m P -> (forall e, returns (h e) Q) -> (forall a, P a -> returns (k a) Q) -> returns (bind_or m h k) Q.
Proof. intros Hm Hh Hk s. apply wp_bind_or. eapply wp_mono; [apply Hm|]. intros [a|e] s' HP; [by apply Hk|apply Hh]. Qed.
Lemma returns_map_err {E' A} (f : E' -> E) (m : M E' S A) (P : A -> Prop) : returns m P -> returns (map_err f m) P.
Proof. intros Hm s. apply wp_map_err. eapply wp_mono; [apply Hm|]. by intros [a|e]. Qed.
Lemma returns_any {A} (m : M E S A) : returns m (fun _ => True).
Proof. intros s. unfold wp. by destruct (fst (m s)). Qed.
Lemma returns_mono {A} (m : M E S A) (P Q : A -> Prop) : returns m P -> (forall a, P a -> Q a) -> returns m Q.
Proof. intros Hm HQ s. eapply wp_mono; [apply Hm|]. intros [a|e] s'; auto. Qed.
End Returns.

(** ** What a step does to the state

    [steps R m]: from any state to a related one, for a preorder [R]; an
    invariant [I] is kept where [R s s'] is [I s -> I s']. *)
Definition steps {E S A} (R : S -> S -> Prop) (m : M E S A) : Prop := forall s, wp m (fun _ s' => R s s') s.
Definition keeping {S} (I : S -> Prop) (s s' : S) : Prop := I s -> I s'.
#[export] Instance keeping_preorder {S} (I : S -> Prop) : PreOrder (keeping I).
Proof. split; unfold keeping; [by intros s|intros s s' s''; auto]. Qed.

Section Steps.
Context {S : Type} (R : S -> S -> Prop) `{!PreOrder R}.

Lemma steps_pure {E A} (m : M E S A) : (forall s, snd (m s) = s) -> steps R m.
Proof using Type*. intros Hm s. unfold wp. rewrite Hm. reflexivity. Qed.
Lemma steps_ret {E A} (a : A) : steps R (ret a : M E S A).
Proof using Type*. by apply steps_pure. Qed.
Lemma steps_throw {E A} e : steps R (throw e : M E S A).
Proof using Type*. by apply steps_pure. Qed.
Lemma steps_lift {E A} (r : result E A) : steps R (lift_result r : M E S A).
Proof using Type*. by apply steps_pure. Qed.
Lemma steps_gets {E A} (f : S -> A) : steps R (gets f : M E S A).
Proof using Type*. by apply steps_pure. Qed.
Lemma steps_modify {E} (f : S -> S) : (forall s, R s (f s)) -> steps R (modify f : M E S unit).
Proof using Type*. intros Hf s. apply wp_modify, Hf. Qed.
Lemma steps_bind {E A B} (m : M E S A) (k : A -> M E S B) : steps R m -> (forall a, steps R (k a)) -> steps R (bind m k).
Proof using Type*.
  intros Hm Hk s. apply wp_bind. eapply wp_mono; [apply Hm|]. intros [a|e] s' H'; [|done].
  eapply wp_mono; [apply Hk|]. intros r s'' H''. by transitivity s'.
Qed.
Lemma steps_bind_lift {E A B} (r : result E A) (k : A -> M E S B) : (forall a, r = Ok a -> steps R (k a)) -> steps R (bind (lift_result r) k).
Proof using Type*. intros Hk. destruct r as [a|e]; [exact (Hk a eq_refl)|by apply steps_pure]. Qed.
Lemma steps_bind_or {E E' A B} (m : M E S A) (h : E -> M E' S B) (k : A -> M E' S B) :
  steps R m -> (forall e, steps R (h e)) -> (forall a, steps R (k a)) -> steps R (bind_or m h k).
Proof using Type*.
  intros Hm Hh Hk s. apply wp_bind_or. eapply wp_mono; [apply Hm|].
  intros [a|e] s' H'; (eapply wp_mono; [apply Hk || apply Hh|]; intros r s'' H''; by transitivity s').
Qed.
Lemma steps_map_err {E E' A} (f : E -> E') (m : M E S A) : steps R m -> steps R (map_err f m).
Proof using Type*. intros Hm s. apply wp_map_err. eapply wp_mono; [apply Hm|]. by intros [a|e]. Qed.
Lemma steps_zoom {E W A} (R' : W -> W -> Prop) (get : W -> S) (put : S -> W -> W) (m : M E S A) :
  (forall w s', R (get w) s' -> R' w (put s' w)) -> steps R m -> steps R' (zoom get put m).
Proof using Type. intros HR Hm w. apply wp_zoom. eapply wp_mono; [apply Hm|]. intros r s' Hs. by apply HR. Qed.
Lemma steps_mono {E A} (R' : S -> S -> Prop) (m : M E S A) : (forall s s', R s s' -> R' s s') -> steps R m -> steps R' m.
Proof using Type. intros HR Hm s. eapply wp_mono; [apply Hm|]. auto. Qed.
End Steps.

(** [steps R m], by the shape of [m]. *)
Ltac steps_step :=
  lazymatch goal with
  | |- forall _, _ => intros ?
  | |- steps _ (let _ := _ in _) => cbv zeta
  | |- steps _ (bind (lift_result _) _) => apply (steps_bind_lift _); intros ? ?
  | |- steps _ (bind _ _) => apply (steps_bind _)
  | |- steps _ (bind_or _ _ _) => apply (steps_bind_or _)
  | |- steps _ (map_err _ _) => apply (steps_map_err _)
  | |- steps _ (ret _) => apply (steps_ret _)
  | |- steps _ (throw _) => apply (steps_throw _)
  | |- steps _ (lift_result _) => apply (steps_lift _)
  | |- steps _ (gets _) => apply (steps_gets _)
  | |- steps _ (if ?b then _ else _) => destruct b eqn:?
  | |- steps _ (match ?x with _ => _ end) => destruct x eqn:?
  end.
Ltac steps_tac := repeat steps_step.

(** [yields I m Q]: [m] keeps the invariant [I], and what it returns
    satisfies [Q]. *)
Definition anything {A} (_ : A) : Prop := True.
Definition yields {E S A} (I : S -> Prop) (m : M E S A) (Q : A -> Prop) : Prop :=
  forall s, I s -> wp m (fun r s' => I s' /\ match r with Ok a => Q a | Err _ => True end) s.
Section Yields.
Context {S : Type} (I : S -> Prop).

Lemma yields_ret {E A} (a : A) (Q : A -> Prop) : Q a -> yields I (ret a : M E S A) Q.
Proof. by intros HQ s HI. Qed.
Lemma yields_throw {E A} e (Q : A -> Prop) : yields I (throw e : M E S A) Q.
Proof. by intros s HI. Qed.
Lemma yields_lift {E A} (r : result E A) (Q : A -> Prop) : (forall a, r = Ok a -> Q a) -> yields I (lift_result r : M E S A) Q.
Proof. intros HQ s HI. apply wp_lift_result. split; [done|]. destruct r; auto. Qed.
Lemma yields_bind {E A B} (m : M E S A) (k : A -> M E S B) (P : A -> Prop) (Q : B -> Prop) :
  yields I m P -> (forall a, P a -> yields I (k a) Q) -> yields I (bind m k) Q.
Proof. intros Hm Hk s HI. apply wp_bind. eapply wp_mono; [by apply Hm|]. intros [a|e] s' [HI' HP]; [by apply Hk|done]. Qed.
Lemma yields_bind_or {E E' A B} (m : M E S A) (f : E -> M E' S B) (k : A -> M E' S B) (P : A -> Prop) (Q : B -> Prop) :
  yields I m P -> (forall e, yields I (f e) Q) -> (forall a, P a -> yields I (k a) Q) -> yields I (bind_or m f k) Q.
Proof.
  intros Hm Hf Hk s HI. apply wp_bind_or. eapply wp_mono; [by apply Hm|]. intros [a|e] s' [HI' HP]; [by apply Hk|by apply Hf].
Qed.
Lemma yields_map_err {E E' A} (f : E -> E') (m : M E S A) (Q : A -> Prop) : yields I m Q -> yields I (map_err f m) Q.
Proof. intros Hm s HI. apply wp_map_err. eapply wp_mono; [by apply Hm|]. by intros [a|e]. Qed.
Lemma yields_steps {E A} (m : M E S A) : steps (keeping I) m -> yields I m anything.
Proof. intros Hm s HI. eapply wp_mono; [apply Hm|]. intros r s' HI'. split; [by apply HI'|by destruct r]. Qed.
Lemma steps_yields {E A} (m : M E S A) (Q : A -> Prop) : yields I m Q -> steps (keeping I) m.
Proof.
  intros Hm s. unfold wp, keeping. intros HI. exact (proj1 (Hm s HI)).
Qed.
Lemma yields_mono {E A} (m : M E S A) (P Q : A -> Prop) : yields I m P -> (forall a, P a -> Q a) -> yields I m Q.
Proof. intros Hm HQ s HI. eapply wp_mono; [by apply Hm|]. intros [a|e] s' [HI' HP]; auto. Qed.
End Yields.

(** One step of a goal [wp m Q s], by the shape of [m]. *)
Ltac wp_step :=
  lazymatch goal with
  | |- wp (bind _ _) _ _ => apply wp_bind
  | |- wp (bind_or _ _ _) _ _ => apply wp_bind_or
  | |- wp (ret _) _ _ => apply wp_ret
  | |- wp (throw _) _ _ => apply wp_throw
  | |- wp (lift_result _) _ _ => apply wp_lift_result
  | |- wp (gets _) _ _ => apply wp_gets
  | |- wp (modify _) _ _ => apply wp_modify
  | |- wp (map_err _ _) _ _ => apply wp_map_err
  | |- wp (if ?b then _ else _) _ _ => destruct b eqn:?
  | |- wp (match ?x with _ => _ end) _ _ => destruct x eqn:?
  end.
Ltac wp_steps := repeat (wp_step; cbn beta iota).
