(* ===== verification/Ints.v ===== *)
(** * Machine integers, and pages of a list

    Go's 64-bit [int] with its wrap-around, and [paginateItems] of
    [local_storage_helpers.go], the one place where a request's integers
    are multiplied unchecked. *)
From S2P Require Import Prelude.
From stdpp Require Import base list strings.
From Stdlib Require Import ZArith Lia.

Local Open Scope string_scope.
Local Open Scope list_scope.
Local Open Scope Z_scope.

Definition max_int : Z := 2 ^ 63 - 1.
Definition wrap64 (z : Z) : Z := (z + 2 ^ 63) mod 2 ^ 64 - 2 ^ 63.
Definition int_add (a b : Z) : Z := wrap64 (a + b).
Definition int_sub (a b : Z) : Z := wrap64 (a - b).
Definition int_mul (a b : Z) : Z := wrap64 (a * b).
(** An [int] value. *)
Definition is_int (z : Z) : Prop := - 2 ^ 63 <= z <= max_int.

Lemma wrap64_id z : is_int z -> wrap64 z = z.
Proof. unfold is_int, max_int, wrap64. intros Hz. rewrite Z.mod_small; lia. Qed.
Lemma wrap64_int z : is_int (wrap64 z).
Proof.
  unfold is_int, max_int, wrap64. pose proof (Z.mod_pos_bound (z + 2 ^ 63) (2 ^ 64) ltac:(lia)). lia.
Qed.
Lemma int_succ_ne z : int_add z 1 <> z.
Proof.
  unfold int_add, wrap64. intros E.
  pose proof (Z.div_mod (z + 1 + 2 ^ 63) (2 ^ 64) ltac:(lia)).
  assert (2 ^ 64 * ((z + 1 + 2 ^ 63) / 2 ^ 64) = 1) by lia. lia.
Qed.
Lemma wrap64_succ z k : int_add (wrap64 (z + k)) 1 = wrap64 (z + (k + 1)).
Proof.
  unfold int_add, wrap64. f_equal. replace ((z + k + 2 ^ 63) mod 2 ^ 64 - 2 ^ 63 + 1 + 2 ^ 63) with ((z + k + 2 ^ 63) mod 2 ^ 64 + 1) by lia.
  rewrite Zplus_mod_idemp_l. f_equal. lia.
Qed.
(** Counting up comes back after all values. *)
Lemma wrap64_ne z k : 0 < k < 2 ^ 64 -> wrap64 (z + k) <> z.
Proof.
  unfold wrap64. intros Hk E. pose proof (Z.div_mod (z + k + 2 ^ 63) (2 ^ 64) ltac:(lia)).
  assert (2 ^ 64 * ((z + k + 2 ^ 63) / 2 ^ 64) = k) by lia. nia.
Qed.

(** ** [paginateItems] *)
Definition paginateItems {A} (items : list A) (page pageSize : Z) : result GoErr (list A * Z * Z) :=
  let page := if page <=? 0 then 1 else page in
  let pageSize := if pageSize <=? 0 then 200 else pageSize in
  let total := Z.of_nat (length items) in
  let totalPages := if 0 <? total then Z.quot (int_sub (int_add total pageSize) 1) pageSize else 0 in
  let start := int_mul (int_sub page 1) pageSize in
  if total <=? start then Ok ([], total, totalPages)
  else
    let end_ := int_add start pageSize in
    let end_ := if total <? end_ then total else end_ in
    if (0 <=? start) && (start <=? end_)
    then Ok (take (Z.to_nat (end_ - start)) (drop (Z.to_nat start) items), total, totalPages)
    else Err (ErrPanic "slice bounds out of range").

(** The pages and sizes [paginateItems] uses after its defaults. *)
Definition eff_page (page : Z) : Z := if page <=? 0 then 1 else page.
Definition eff_size (pageSize : Z) : Z := if pageSize <=? 0 then 200 else pageSize.

Lemma take_drop_all {A} (l : list A) (n k : nat) : (length l <= n)%nat -> take k (drop n l) = [].
Proof. intros Hn. rewrite drop_ge by done. by rewrite take_nil. Qed.

Lemma paginate_spec {A} (items : list A) page pageSize :
  let p := eff_page page in let n := eff_size pageSize in
  p * n <= max_int -> Z.of_nat (length items) + n <= max_int ->
  paginateItems items page pageSize =
    Ok (take (Z.to_nat n) (drop (Z.to_nat ((p - 1) * n)) items), Z.of_nat (length items),
        (Z.of_nat (length items) + n - 1) / n).
Proof.
  intros p n Hpn Hlen. unfold paginateItems. fold (eff_page page) (eff_size pageSize). fold p n.
  assert (1 <= p) as Hp by (unfold p, eff_page; destruct (Z.leb_spec page 0); lia).
  assert (1 <= n) as Hn by (unfold n, eff_size; destruct (Z.leb_spec pageSize 0); lia).
  clearbody p n. set (total := Z.of_nat (length items)) in *. assert (0 <= total) by lia.
  assert (p <= max_int) by nia. unfold max_int in *.
  assert (int_sub p 1 = p - 1) as -> by (apply wrap64_id; unfold is_int, max_int; lia).
  assert (int_mul (p - 1) n = (p - 1) * n) as -> by (apply wrap64_id; unfold is_int, max_int; nia).
  assert (int_add total n = total + n) as -> by (apply wrap64_id; unfold is_int, max_int; lia).
  assert (int_sub (total + n) 1 = total + n - 1) as -> by (apply wrap64_id; unfold is_int, max_int; lia).
  assert ((if 0 <? total then (total + n - 1) ÷ n else 0) = (total + n - 1) / n) as ->.
  { destruct (Z.ltb_spec 0 total); [apply Z.quot_div_nonneg; lia|].
    assert (total = 0) as -> by lia. symmetry. apply Z.div_small. lia. }
  assert (int_add ((p - 1) * n) n = p * n) as -> by (unfold int_add; rewrite wrap64_id; unfold is_int, max_int; nia).
  set (s := (p - 1) * n) in *. assert (0 <= s) by (unfold s; nia). assert (p * n = s + n) as -> by (unfold s; lia).
  destruct (Z.leb_spec total s).
  { f_equal. f_equal. f_equal. symmetry. apply take_drop_all. lia. }
  destruct (Z.ltb_spec total (s + n)).
  - destruct (Z.leb_spec 0 s), (Z.leb_spec s total); cbn [andb]; try lia.
    f_equal. f_equal. f_equal. rewrite !take_ge by (rewrite length_drop; lia). done.
  - destruct (Z.leb_spec 0 s), (Z.leb_spec s (s + n)); cbn [andb]; try lia.
    f_equal. f_equal. f_equal. f_equal. lia.
Qed.

Lemma chunks_concat {A} (n k : nat) (l : list A) : (length l <= k * n)%nat ->
  concat (map (fun i => take n (drop (i * n)%nat l)) (seq 0 k)) = l.
Proof.
  revert l; induction k as [|k IH]; intros l Hl; cbn.
  - destruct l; [done|cbn in Hl; lia].
  - rewrite drop_0. transitivity (take n l ++ drop n l); [|apply take_drop]. f_equal.
    rewrite <- (IH (drop n l)) by (rewrite length_drop; lia).
    rewrite <- seq_shift, map_map. f_equal. apply map_ext. intros i. by rewrite drop_drop.
Qed.

(** C39: without overflow, the pages 1 to [totalPages] of a list put
    together are the list, no page is longer than the page size, pages
    beyond the last are empty, and a page number or size of zero or less
    means page 1 and size 200.  A page number whose offset overflows is
    not caught: the slice expression then panics. *)
Theorem paginate_partition {A} (items : list A) (pageSize : Z)
    (Hbound : Z.of_nat (length items) + eff_size pageSize <= max_int) :
  let size := eff_size pageSize in
  let pages := (Z.of_nat (length items) + size - 1) / size in
  let nth_page i := match paginateItems items i pageSize with Ok (l, _, _) => l | Err _ => [] end in
  concat (map (fun i => nth_page (Z.of_nat i + 1)) (seq 0 (Z.to_nat pages))) = items /\
  (forall i, i * size <= max_int ->
     snd <$> (match paginateItems items i pageSize with Ok r => Some r | Err _ => None end) = Some pages /\
     Z.of_nat (length (nth_page i)) <= size /\ (pages < i -> nth_page i = [])) /\
  paginateItems items 0 pageSize = paginateItems items 1 pageSize /\
  paginateItems items 1 0 = paginateItems items 1 200 /\
  paginateItems [tt] (2 ^ 62) 4 = Err (ErrPanic "slice bounds out of range").
Proof.
  intros size pages nth_page. assert (1 <= size) as Hs by (unfold size, eff_size; destruct (Z.leb_spec pageSize 0); lia).
  assert (0 <= pages /\ pages * size <= Z.of_nat (length items) + size - 1 /\ Z.of_nat (length items) <= pages * size)
    as (Hp0 & Hp1 & Hp2).
  { unfold pages. pose proof (Z.div_mod (Z.of_nat (length items) + size - 1) size ltac:(lia)) as E.
    pose proof (Z.mod_pos_bound (Z.of_nat (length items) + size - 1) size ltac:(lia)).
    pose proof (Z.div_pos (Z.of_nat (length items) + size - 1) size ltac:(lia) ltac:(lia)). lia. }
  assert (forall i, i * size <= max_int -> paginateItems items i pageSize =
    Ok (take (Z.to_nat size) (drop (Z.to_nat ((eff_page i - 1) * size)) items), Z.of_nat (length items), pages)) as Hspec.
  { intros i Hi. apply paginate_spec; [|done]. fold size. unfold eff_page. destruct (Z.leb_spec i 0); lia. }
  split_and!; [|intros i Hi; split_and!| | |reflexivity].
  - etransitivity; [|apply (chunks_concat (Z.to_nat size) (Z.to_nat pages)); nia].
    f_equal. apply map_ext_in. intros i Hi%in_seq. unfold nth_page. rewrite Hspec by nia.
    unfold eff_page. destruct (Z.leb_spec (Z.of_nat i + 1) 0); [lia|]. do 2 f_equal. nia.
  - by rewrite Hspec.
  - unfold nth_page. rewrite Hspec by done. rewrite length_take. lia.
  - intros Hlt. unfold nth_page. rewrite Hspec by done. unfold eff_page. destruct (Z.leb_spec i 0); [lia|].
    apply take_drop_all. nia.
  - unfold paginateItems. done.
  - unfold paginateItems. done.
Qed.

Lemma paginate_partition_witness :
  paginateItems [1; 2; 3; 4; 5] 2 2 = Ok ([3; 4], 5, 3) /\
  paginateItems [1; 2; 3; 4; 5] 0 2 = paginateItems [1; 2; 3; 4; 5] 1 2.
Proof.
  split; [reflexivity|]. apply (paginate_partition [1; 2; 3; 4; 5] 2). vm_compute. discriminate.
Defined.
