(* ===== verification/GoStrings.v ===== *)
(** * Go strings

    A Go [string] is a byte string: here Stdlib's [string] of 8-bit
    [ascii].  The functions of package [strings] the backend calls. *)
From S2P Require Import Prelude.
From stdpp Require Import base list strings.
From Stdlib Require Import Ascii Lia.

Local Open Scope string_scope.
Local Open Scope list_scope.
#[global] Arguments String.append !_ _ / : simpl nomatch.

(** [strip_prefix p s]: [s] without the prefix [p], when it has it. *)
Fixpoint strip_prefix (p s : string) : option string :=
  match p, s with
  | EmptyString, _ => Some s
  | String a p', String b s' => if Ascii.eqb a b then strip_prefix p' s' else None
  | String _ _, EmptyString => None
  end.

(** [strings.HasPrefix] and [strings.TrimPrefix]. *)
Definition has_prefix (s p : string) : bool :=
  match strip_prefix p s with Some _ => true | None => false end.
Definition trim_prefix (s p : string) : string :=
  match strip_prefix p s with Some r => r | None => s end.

(** [strings.HasSuffix]. *)
Fixpoint has_suffix (s p : string) : bool :=
  String.eqb s p || match s with EmptyString => false | String _ s' => has_suffix s' p end.

(** [strings.Contains]. *)
Fixpoint contains (s p : string) : bool :=
  has_prefix s p || match s with EmptyString => false | String _ s' => contains s' p end.

(** [strings.Split] on a one-byte separator, and [strings.Join]. *)
Fixpoint split_on (c : ascii) (s : string) : list string :=
  match s with
  | EmptyString => [""]
  | String a s' =>
      if Ascii.eqb a c then "" :: split_on c s'
      else match split_on c s' with
           | w :: ws => String a w :: ws
           | [] => [String a ""]
           end
  end.

(** [strings.TrimRight(s, cutset)] for the one-byte cutset [c]. *)
Fixpoint trim_right_byte (c : ascii) (s : string) : string :=
  match s with
  | EmptyString => ""
  | String a s' =>
      match trim_right_byte c s' with
      | EmptyString => if Ascii.eqb a c then "" else String a ""
      | r => String a r
      end
  end.

(** [strings.TrimSuffix]. *)
Fixpoint trim_suffix (s p : string) : string :=
  if String.eqb s p then ""
  else match s with EmptyString => "" | String a s' => String a (trim_suffix s' p) end.

(** The UTF-8 encodings of the code points [unicode.IsSpace] accepts. *)
Definition bytes (l : list N) : string :=
  fold_right (fun n s => String (ascii_of_N n) s) "" l.
Definition space_runes : list string :=
  map bytes ([ [9]; [10]; [11]; [12]; [13]; [32]; [194; 133]; [194; 160]; [225; 154; 128];
    [226; 128; 128]; [226; 128; 129]; [226; 128; 130]; [226; 128; 131]; [226; 128; 132];
    [226; 128; 133]; [226; 128; 134]; [226; 128; 135]; [226; 128; 136]; [226; 128; 137];
    [226; 128; 138]; [226; 128; 168]; [226; 128; 169]; [226; 128; 175]; [226; 129; 159];
    [227; 128; 128] ])%N.

Fixpoint first_space (l : list string) (s : string) : option string :=
  match l with
  | [] => None
  | r :: l' => match strip_prefix r s with Some s' => Some s' | None => first_space l' s end
  end.

Fixpoint trim_left_fuel (n : nat) (s : string) : string :=
  match n with
  | O => s
  | S n' => match first_space space_runes s with Some s' => trim_left_fuel n' s' | None => s end
  end.
Definition trim_left (s : string) : string := trim_left_fuel (String.length s) s.

(** Whether all of [s] is white space; the right trim stops at the first
    position from which only white space follows. *)
Definition all_space (s : string) : bool :=
  match trim_left s with EmptyString => true | _ => false end.
Fixpoint trim_right (s : string) : string :=
  if all_space s then ""
  else match s with EmptyString => "" | String a s' => String a (trim_right s') end.

(** [strings.TrimSpace]. *)
Definition trim_space (s : string) : string := trim_right (trim_left s).

(** [strings.ToLower] on the ASCII letters; other bytes are kept. *)
Definition lower_byte (a : ascii) : ascii :=
  let n := N_of_ascii a in
  if ((65 <=? n) && (n <=? 90))%N then ascii_of_N (n + 32) else a.
Fixpoint to_lower (s : string) : string :=
  match s with EmptyString => "" | String a s' => String (lower_byte a) (to_lower s') end.
(** [strings.EqualFold] on ASCII. *)
Definition equal_fold (a b : string) : bool := String.eqb (to_lower a) (to_lower b).

(** ** Lemmas *)
Lemma append_nil_r s : s +:+ "" = s.
Proof. induction s as [|a s IH]; cbn; [done|]. by rewrite IH. Qed.
Lemma append_assoc a b c : (a +:+ b) +:+ c = a +:+ (b +:+ c).
Proof. induction a as [|x a IH]; cbn; [done|]. by rewrite IH. Qed.
Lemma length_append a b : String.length (a +:+ b) = String.length a + String.length b.
Proof. induction a as [|x a IH]; cbn; [done|]. by rewrite IH. Qed.
Lemma append_inj_l a b c : a +:+ b = a +:+ c -> b = c.
Proof. induction a as [|x a IH]; cbn; [done|]. intros H; simplify_eq; auto. Qed.
Lemma append_eq_nil a b : a +:+ b = "" -> a = "" /\ b = "".
Proof. destruct a; cbn; [done|discriminate]. Qed.
Lemma append_inj_r a b c : a +:+ c = b +:+ c -> a = b.
Proof.
  revert b; induction a as [|x a IH]; intros [|y b] H; [done|..].
  - apply (f_equal String.length) in H; rewrite !length_append in H; cbn in H; lia.
  - apply (f_equal String.length) in H; rewrite !length_append in H; cbn in H; lia.
  - cbn in H; simplify_eq. f_equal; auto.
Qed.

Lemma strip_prefix_Some p s r : strip_prefix p s = Some r <-> s = p +:+ r.
Proof.
  revert s; induction p as [|a p IH]; intros [|b s]; cbn.
  - split; intros; simplify_eq; done.
  - split; intros; simplify_eq; done.
  - split; discriminate.
  - destruct (Ascii.eqb_spec a b) as [->|Hne]; [rewrite IH|]; split; intros; simplify_eq; done.
Qed.

Lemma has_prefix_spec s p : has_prefix s p = true <-> exists r, s = p +:+ r.
Proof.
  unfold has_prefix. destruct (strip_prefix p s) as [r|] eqn:E.
  - apply strip_prefix_Some in E. split; eauto.
  - split; [done|]. intros [r Hr]. apply strip_prefix_Some in Hr. congruence.
Qed.

Lemma has_prefix_app p r : has_prefix (p +:+ r) p = true.
Proof. apply has_prefix_spec; eauto. Qed.
Lemma trim_prefix_app p r : trim_prefix (p +:+ r) p = r.
Proof.
  unfold trim_prefix. destruct (strip_prefix p (p +:+ r)) as [x|] eqn:E.
  - apply strip_prefix_Some in E. by apply append_inj_l in E.
  - pose proof (proj2 (strip_prefix_Some p (p +:+ r) r) eq_refl). congruence.
Qed.
Lemma trim_prefix_no s p : has_prefix s p = false -> trim_prefix s p = s.
Proof. unfold has_prefix, trim_prefix. destruct (strip_prefix p s); done. Qed.
Lemma has_prefix_trans s p q : has_prefix s p = true -> has_prefix p q = true -> has_prefix s q = true.
Proof.
  rewrite !has_prefix_spec. intros [r ->] [r' ->]. exists (r' +:+ r). by rewrite append_assoc.
Qed.

Lemma contains_spec s p : contains s p = true <-> exists a b, s = a +:+ p +:+ b.
Proof.
  induction s as [|x s IH].
  - cbn [contains]. rewrite orb_false_r, has_prefix_spec. split.
    + intros [r Hr]. exists "", r. done.
    + intros (a & b & H). symmetry in H. apply append_eq_nil in H as [-> H]. cbn in H. eauto.
  - cbn [contains]. rewrite orb_true_iff, IH, has_prefix_spec. split.
    + intros [[r Hr]|(a & b & ->)]; [exists "", r | exists (String x a), b]; done.
    + intros ([|y a] & b & H); cbn in H; [left; eauto|]. simplify_eq. right; eauto.
Qed.

(** A byte occurs in a string. *)
Definition has_byte (c : ascii) (s : string) : bool := contains s (String c "").
Lemma has_byte_nil c : has_byte c "" = false.
Proof. done. Qed.
Lemma has_byte_cons c a s : has_byte c (String a s) = Ascii.eqb c a || has_byte c s.
Proof. unfold has_byte. cbn. unfold has_prefix; cbn. by destruct (Ascii.eqb c a). Qed.
Lemma has_byte_app c s t : has_byte c (s +:+ t) = has_byte c s || has_byte c t.
Proof.
  induction s as [|a s IH]; [done|].
  change (String a s +:+ t) with (String a (s +:+ t)).
  by rewrite !has_byte_cons, IH, orb_assoc.
Qed.

(** ** Splitting *)
Lemma split_on_not_nil c s : split_on c s <> [].
Proof. destruct s as [|a s]; cbn; [done|]. destruct (Ascii.eqb a c); [done|]. by destruct (split_on c s). Qed.

Lemma split_on_no c s : has_byte c s = false -> split_on c s = [s].
Proof.
  induction s as [|a s IH]; [done|]. rewrite has_byte_cons. intros [Hne Hs]%orb_false_iff.
  cbn. rewrite Ascii.eqb_sym, Hne, IH by done. done.
Qed.

Lemma split_on_app c a s : has_byte c a = false ->
  split_on c (a +:+ String c s) = a :: split_on c s.
Proof.
  induction a as [|x a IH]; cbn [String.append split_on].
  - by rewrite Ascii.eqb_refl.
  - rewrite has_byte_cons. intros [Hne Hs]%orb_false_iff.
    rewrite Ascii.eqb_sym, Hne, IH by done. done.
Qed.

Lemma split_on_no_sep c s : Forall (fun w => has_byte c w = false) (split_on c s).
Proof.
  induction s as [|a s IH]; cbn; [repeat constructor|].
  destruct (Ascii.eqb a c) eqn:E; [constructor; done|].
  destruct (split_on c s) as [|w ws] eqn:Es; [by destruct (split_on_not_nil c s)|].
  inversion_clear IH. constructor; [|done]. rewrite has_byte_cons, Ascii.eqb_sym, E. done.
Qed.

(** ** Patterns across a separator *)
Lemma has_prefix_cons a s b p :
  has_prefix (String a s) (String b p) = Ascii.eqb b a && has_prefix s p.
Proof. unfold has_prefix; cbn. by destruct (Ascii.eqb b a). Qed.

Lemma has_prefix_sep c a b p : has_byte c p = false -> p <> "" ->
  has_prefix (a +:+ String c b) p = has_prefix a p.
Proof.
  revert a; induction p as [|x p IH]; intros a; [done|].
  rewrite has_byte_cons. intros [Hx Hp]%orb_false_iff _.
  destruct a as [|y a]; cbn [String.append].
  - rewrite has_prefix_cons, Ascii.eqb_sym, Hx. done.
  - rewrite !has_prefix_cons. destruct (Ascii.eqb x y); cbn; [|done].
    destruct p as [|z p]; [by destruct a|]. by apply IH.
Qed.

Lemma contains_sep c a b p : has_byte c p = false -> p <> "" ->
  contains (a +:+ String c b) p = contains a p || contains b p.
Proof.
  intros Hc Hp. induction a as [|x a IH].
  - cbn [String.append contains]. rewrite orb_false_r.
    rewrite (has_prefix_sep c "" b) by done. by destruct p.
  - change (String x a +:+ String c b) with (String x (a +:+ String c b)).
    cbn [contains]. rewrite IH.
    change (String x (a +:+ String c b)) with (String x a +:+ String c b).
    by rewrite has_prefix_sep, orb_assoc by done.
Qed.

Lemma contains_no_byte c s p : has_byte c s = false -> has_byte c p = true -> contains s p = false.
Proof.
  intros Hs Hp. apply not_true_is_false. intros (a & b & ->)%contains_spec.
  by rewrite !has_byte_app, Hp, orb_true_r in Hs.
Qed.
