(* ===== verification/Runes.v ===== *)
(** * Runes

    A [range] over a Go string yields its runes: here the chunks of bytes
    that encode them; and the functions of package [strings] that go by
    runes, substrings or sets of characters. *)
From stdpp Require Import base list strings sets.
From Stdlib Require Import Ascii NArith Lia.
From S2P Require Import Prelude GoStrings.

Local Open Scope string_scope.
Local Open Scope list_scope.

(** ** UTF-8 *)
(** [[]rune(s)]: the UTF-8 sequences of a string; a byte that starts none
    becomes U+FFFD. *)
Definition byte_between (lo hi : N) (a : ascii) : bool := let n := N_of_ascii a in ((lo <=? n) && (n <=? hi))%N.
Definition continuation : ascii -> bool := byte_between 128 191.
(** The length of the sequence a byte begins, and the range of the second
    byte. *)
Definition rune_head (a : ascii) : nat * (ascii -> bool) :=
  if byte_between 0 127 a then (1, continuation)
  else if byte_between 194 223 a then (2, continuation)
  else if byte_between 224 224 a then (3, byte_between 160 191)
  else if byte_between 237 237 a then (3, byte_between 128 159)
  else if byte_between 225 239 a then (3, continuation)
  else if byte_between 240 240 a then (4, byte_between 144 191)
  else if byte_between 241 243 a then (4, continuation)
  else if byte_between 244 244 a then (4, byte_between 128 143)
  else (0, continuation).
Definition replacement_rune : string := bytes [239; 191; 189]%N.
Fixpoint runes (s : string) : list string :=
  match s with
  | EmptyString => []
  | String a r1 =>
      let '(n, second) := rune_head a in
      match n, r1 with
      | 1, _ => String a "" :: runes r1
      | 2, String b r2 => if second b then String a (String b "") :: runes r2 else replacement_rune :: runes r1
      | 3, String b (String c r3) =>
          if second b && continuation c then String a (String b (String c "")) :: runes r3
          else replacement_rune :: runes r1
      | 4, String b (String c (String d r4)) =>
          if second b && continuation c && continuation d then String a (String b (String c (String d ""))) :: runes r4
          else replacement_rune :: runes r1
      | _, _ => replacement_rune :: runes r1
      end
  end.
Definition concat_runes (l : list string) : string := fold_right String.append "" l.

(** The first [n] bytes, and the rest. *)
Fixpoint take_bytes (n : nat) (s : string) : string :=
  match n, s with S n', String a s' => String a (take_bytes n' s') | _, _ => "" end.
Fixpoint drop_bytes (n : nat) (s : string) : string :=
  match n, s with S n', String _ s' => drop_bytes n' s' | _, _ => s end.

Example runes_ex : runes ("a" +:+ bytes [194; 133; 255; 228; 184; 173; 128]%N) =
  ["a"; bytes [194; 133]%N; replacement_rune; bytes [228; 184; 173]%N; replacement_rune].
Proof. vm_compute. reflexivity. Qed.

(** [unicode.IsControl]: U+0000 to U+001F and U+007F to U+009F. *)
Definition is_control (rune : string) : bool :=
  match rune with
  | String a EmptyString => byte_between 0 31 a || byte_between 127 127 a
  | String a (String b EmptyString) => N.eqb (N_of_ascii a) 194 && byte_between 128 159 b
  | _ => false
  end.

(** ** Searching *)
(** [strings.Index]: the text before the first [p], and from it on. *)
Fixpoint cut_at (p s : string) : option (string * string) :=
  if has_prefix s p then Some ("", s)
  else match s with
       | EmptyString => None
       | String a s' => match cut_at p s' with Some (before, found) => Some (String a before, found) | None => None end
       end.
(** [strings.LastIndex]. *)
Fixpoint cut_at_last (p s : string) : option (string * string) :=
  match s with
  | EmptyString => if has_prefix s p then Some ("", s) else None
  | String a s' =>
      match cut_at_last p s' with
      | Some (before, found) => Some (String a before, found)
      | None => if has_prefix s p then Some ("", s) else None
      end
  end.
(** [strings.ReplaceAll] of a text of two bytes. *)
Fixpoint replace_pair (a b : ascii) (new : string) (s : string) : string :=
  match s with
  | String x ((String y s') as s1) =>
      if Ascii.eqb x a && Ascii.eqb y b then new +:+ replace_pair a b new s'
      else String x (replace_pair a b new s1)
  | _ => s
  end.

(** [strings.Trim] with a set of characters. *)
Fixpoint trim_left_set (set : list string) (fuel : nat) (s : string) : string :=
  match fuel with
  | O => s
  | S fuel' => match first_space set s with Some s' => trim_left_set set fuel' s' | None => s end
  end.
Definition all_in_set (set : list string) (s : string) : bool :=
  match trim_left_set set (String.length s) s with EmptyString => true | _ => false end.
Fixpoint trim_right_set (set : list string) (s : string) : string :=
  if all_in_set set s then ""
  else match s with EmptyString => "" | String a s' => String a (trim_right_set set s') end.
Definition trim_set (set : list string) (s : string) : string :=
  trim_right_set set (trim_left_set set (String.length s) s).

(** [strings.TrimLeft] with one byte. *)
Fixpoint trim_left_byte (c : ascii) (s : string) : string :=
  match s with String a s' => if Ascii.eqb a c then trim_left_byte c s' else s | EmptyString => "" end.

(** [strings.Fields]: the words between white space. *)
Fixpoint fields_fuel (fuel : nat) (word s : string) : list string :=
  let emit rest := if String.eqb word "" then rest else word :: rest in
  match fuel with
  | O => emit []
  | S fuel' =>
      match s with
      | EmptyString => emit []
      | String a s' =>
          match first_space space_runes s with
          | Some rest => emit (fields_fuel fuel' "" rest)
          | None => fields_fuel fuel' (word +:+ String a "") s'
          end
      end
  end.
Definition fields (s : string) : list string := fields_fuel (S (String.length s)) "" s.
(** [strings.Join]. *)
Fixpoint join_with (sep : string) (l : list string) : string :=
  match l with [] => "" | [a] => a | a :: l' => a +:+ sep +:+ join_with sep l' end.

Example fields_ex : fields ("  a b" +:+ bytes [194; 160]%N +:+ "c ") = ["a"; "b"; "c"].
Proof. vm_compute. reflexivity. Qed.
Example trim_set_ex : trim_set [" "; "."] " .a. b. ." = "a. b".
Proof. vm_compute. reflexivity. Qed.

(** ** Lemmas *)
(** Every byte of a string. *)
Fixpoint every_byte (P : ascii -> bool) (s : string) : bool :=
  match s with EmptyString => true | String a s' => P a && every_byte P s' end.
Lemma every_byte_app P s t : every_byte P (s +:+ t) = every_byte P s && every_byte P t.
Proof. induction s as [|a s IH]; cbn; [done|]. by rewrite IH, andb_assoc. Qed.
Lemma every_byte_weaken P Q s : (forall a, P a = true -> Q a = true) -> every_byte P s = true -> every_byte Q s = true.
Proof. intros Hw. induction s as [|a s IH]; cbn; [done|]. intros [Ha Hs]%andb_true_iff. by rewrite Hw, IH. Qed.
Lemma every_byte_no c P s : P c = false -> every_byte P s = true -> has_byte c s = false.
Proof.
  intros Hc. induction s as [|a s IH]; [done|]. cbn [every_byte]. intros [Ha Hs]%andb_true_iff. rewrite has_byte_cons, IH, orb_false_r by done.
  destruct (Ascii.eqb_spec c a); congruence.
Qed.
Lemma every_byte_not c s : has_byte c s = false <-> every_byte (fun a => negb (Ascii.eqb c a)) s = true.
Proof.
  induction s as [|a s IH]; [done|]. rewrite has_byte_cons, orb_false_iff, IH. cbn [every_byte]. by rewrite andb_true_iff, negb_true_iff.
Qed.
Lemma every_byte_concat P l : Forall (fun s => every_byte P s = true) l -> every_byte P (concat_runes l) = true.
Proof. induction 1 as [|s l Hs Hl IH]; [done|]. change (every_byte P (s +:+ concat_runes l) = true). by rewrite every_byte_app, Hs, IH. Qed.
Lemma every_byte_part P s t : contains s t = true -> every_byte P s = true -> every_byte P t = true.
Proof. intros (a & b & ->)%contains_spec. rewrite !every_byte_app, !andb_true_iff. tauto. Qed.
Lemma every_byte_join P sep l : every_byte P sep = true -> Forall (fun s => every_byte P s = true) l ->
  every_byte P (join_with sep l) = true.
Proof.
  intros Hsep. induction 1 as [|s l Hs Hl IH]; [done|]. destruct l as [|s' l]; [done|].
  change (every_byte P (s +:+ sep +:+ join_with sep (s' :: l)) = true). by rewrite !every_byte_app, Hs, Hsep, IH.
Qed.

(** *** Parts of a string *)
Lemma contains_self s : contains s s = true.
Proof. apply contains_spec. exists "", "". cbn. by rewrite append_nil_r. Qed.
Lemma contains_suffix a b : contains (a +:+ b) b = true.
Proof. apply contains_spec. exists a, "". by rewrite append_nil_r. Qed.
Lemma contains_prefix a b : contains (a +:+ b) a = true.
Proof. apply contains_spec. by exists "", b. Qed.
Lemma contains_trans s t u : contains s t = true -> contains t u = true -> contains s u = true.
Proof.
  intros (a & b & ->)%contains_spec (a' & b' & ->)%contains_spec. apply contains_spec. exists (a +:+ a'), (b' +:+ b).
  by rewrite !append_assoc.
Qed.
Lemma part_lacks s t p : contains s t = true -> contains s p = false -> contains t p = false.
Proof. intros Hst Hs. apply not_true_is_false. intros Ht. rewrite (contains_trans _ _ _ Hst Ht) in Hs. done. Qed.

(** *** Trimming *)
Lemma first_space_Some set s s' : first_space set s = Some s' -> exists r, r ∈ set /\ s = r +:+ s'.
Proof.
  induction set as [|r set IH]; cbn; [done|]. destruct (strip_prefix r s) as [x|] eqn:E.
  - apply strip_prefix_Some in E. intros [= <-]. exists r. split; [set_solver|done].
  - intros (r' & Hr & ->)%IH. exists r'. split; [set_solver|done].
Qed.
Lemma first_space_None set s r : first_space set s = None -> r ∈ set -> has_prefix s r = false.
Proof.
  induction set as [|r' set IH]; cbn; [set_solver|]. unfold has_prefix. destruct (strip_prefix r' s) as [x|] eqn:E; [done|].
  intros Hn [->|Hr]%elem_of_cons; [by rewrite E | by apply IH].
Qed.
Lemma trim_left_set_suffix set fuel s : exists a, s = a +:+ trim_left_set set fuel s.
Proof.
  revert s; induction fuel as [|fuel IH]; intros s; cbn; [by exists ""|].
  destruct (first_space set s) as [s'|] eqn:E; [|by exists ""]. apply first_space_Some in E as (r & _ & ->).
  destruct (IH s') as [a Ha]. exists (r +:+ a). by rewrite append_assoc, <- Ha.
Qed.
Lemma trim_left_set_stops set fuel s : Forall (fun r => r <> "") set -> String.length s <= fuel ->
  first_space set (trim_left_set set fuel s) = None.
Proof.
  intros Hset. revert s; induction fuel as [|fuel IH]; intros s Hs; cbn.
  - destruct s; cbn in Hs; [|lia]. clear Hs. induction Hset as [|r set Hr Hset IH]; cbn; [done|]. by destruct r.
  - destruct (first_space set s) as [s'|] eqn:E; [|done]. apply IH.
    apply first_space_Some in E as (r & Hr & ->). rewrite Forall_forall in Hset. specialize (Hset _ Hr).
    rewrite length_append in Hs. destruct r; [done|]. cbn in Hs. lia.
Qed.
Lemma trim_right_set_prefix set s : exists b, s = trim_right_set set s +:+ b.
Proof.
  induction s as [|a s [b IH]]; cbn; [by exists ""|].
  case_match; [by exists (String a s) | exists b; cbn; by rewrite <- IH].
Qed.
Lemma trim_set_part set s : contains s (trim_set set s) = true.
Proof.
  unfold trim_set. destruct (trim_left_set_suffix set (String.length s) s) as [a Ha].
  destruct (trim_right_set_prefix set (trim_left_set set (String.length s) s)) as [b Hb].
  apply contains_spec. exists a, b. by rewrite <- Hb.
Qed.
(** A set of single bytes. *)
Definition of_bytes (set : list string) (r : string) : Prop := r ∈ set /\ exists a, r = String a "".
Lemma first_space_byte set a s : Forall (fun r => String.length r = 1) set -> String a "" ∈ set ->
  first_space set (String a s) = Some s.
Proof.
  induction 1 as [|r set Hr Hset IH]; [set_solver|]. intros Hin. cbn. destruct r as [|b [|c r]]; try done.
  cbn. destruct (Ascii.eqb_spec b a) as [->|Hne]; [done|]. apply IH. apply elem_of_cons in Hin as [[=]|?]; congruence.
Qed.
Lemma trim_right_set_nil set s : trim_right_set set s = "" -> all_in_set set s = true.
Proof. destruct s as [|a s]; [done|]. cbn [trim_right_set]. by destruct (all_in_set set (String a s)). Qed.
Lemma trim_right_set_end set c s : Forall (fun r => String.length r = 1) set -> String c "" ∈ set ->
  has_suffix (trim_right_set set s) (String c "") = false.
Proof.
  intros Hset Hc. induction s as [|a s IH]; [done|]. cbn [trim_right_set].
  destruct (all_in_set set (String a s)) eqn:E; [done|]. cbn [has_suffix]. rewrite IH, orb_false_r.
  apply not_true_is_false. intros [= -> Hs]%String.eqb_eq. apply trim_right_set_nil in Hs.
  unfold all_in_set in *. cbn [String.length trim_left_set] in E. by rewrite first_space_byte, Hs in E.
Qed.
Lemma trim_set_ends set c s : Forall (fun r => String.length r = 1) set -> String c "" ∈ set ->
  has_prefix (trim_set set s) (String c "") = false /\ has_suffix (trim_set set s) (String c "") = false.
Proof.
  intros Hset Hc. split; [|by apply trim_right_set_end]. unfold trim_set.
  assert (first_space set (trim_left_set set (String.length s) s) = None) as Hn.
  { apply trim_left_set_stops; [|lia]. eapply Forall_impl; [exact Hset|]. by intros [|? ?] ?. }
  pose proof (first_space_None _ _ _ Hn Hc) as Hp.
  destruct (trim_right_set_prefix set (trim_left_set set (String.length s) s)) as [b Hb].
  apply not_true_is_false. intros [r Hr]%has_prefix_spec. rewrite Hr, append_assoc in Hb. by rewrite Hb, has_prefix_app in Hp.
Qed.

(** *** White space *)
Definition spaces (s : string) : Prop := exists l, Forall (fun r => r ∈ space_runes) l /\ s = concat_runes l.
Lemma concat_runes_app l k : concat_runes (l ++ k) = concat_runes l +:+ concat_runes k.
Proof. induction l as [|r l IH]; [done|]. cbn. rewrite append_assoc. by f_equal. Qed.
Lemma spaces_app s t : spaces s -> spaces t -> spaces (s +:+ t).
Proof.
  intros (l & Hl & ->) (k & Hk & ->). exists (l ++ k). by rewrite concat_runes_app, Forall_app.
Qed.
Lemma append_comparable a b c d : a +:+ b = c +:+ d -> has_prefix a c = true \/ has_prefix c a = true.
Proof.
  revert c; induction a as [|x a IH]; intros [|y c] H; [by left..|by right|by left|]. cbn in H. injection H as -> H.
  destruct (IH _ H) as [[r ->]%has_prefix_spec|[r ->]%has_prefix_spec]; [left|right]; apply has_prefix_spec; by exists r.
Qed.
Lemma space_prefix_free r r' : r ∈ space_runes -> r' ∈ space_runes -> has_prefix r r' = true -> r = r'.
Proof.
  assert (forallb (fun r => forallb (fun r' => implb (has_prefix r r') (String.eqb r r')) space_runes) space_runes = true) as H
    by by vm_compute.
  intros Hr Hr' Hp. rewrite forallb_forall in H. apply list_elem_of_In in Hr, Hr'. specialize (H _ Hr).
  rewrite forallb_forall in H. specialize (H _ Hr'). rewrite Hp in H. by apply String.eqb_eq.
Qed.
Lemma first_space_cons r s : r ∈ space_runes -> first_space space_runes (r +:+ s) = Some s.
Proof.
  intros Hr. destruct (first_space space_runes (r +:+ s)) as [s'|] eqn:E.
  - apply first_space_Some in E as (r' & Hr' & E). assert (r = r') as <-.
    { destruct (append_comparable _ _ _ _ E); [|symmetry]; by apply space_prefix_free. }
    apply append_inj_l in E. by subst.
  - pose proof (first_space_None _ _ _ E Hr) as Hn. by rewrite has_prefix_app in Hn.
Qed.
Lemma space_nonempty r : r ∈ space_runes -> r <> "".
Proof. revert r. apply Forall_forall. by repeat constructor. Qed.
Lemma trim_left_fuel_split n s : exists w, s = w +:+ trim_left_fuel n s /\ spaces w.
Proof.
  revert s; induction n as [|n IH]; intros s; cbn [trim_left_fuel]; [by exists ""; split; [|exists []]|].
  destruct (first_space space_runes s) as [s'|] eqn:E; [|by exists ""; split; [|exists []]].
  apply first_space_Some in E as (r & Hr & ->). destruct (IH s') as (w & Hw & l & Hl & ->).
  exists (r +:+ concat_runes l). split; [by rewrite append_assoc, <- Hw|]. exists (r :: l). split; [by constructor|done].
Qed.
Lemma trim_left_fuel_stops n s : String.length s <= n -> first_space space_runes (trim_left_fuel n s) = None.
Proof.
  revert s; induction n as [|n IH]; intros s Hs; cbn [trim_left_fuel].
  - by destruct s; [|cbn in Hs; lia].
  - destruct (first_space space_runes s) as [s'|] eqn:E; [|done]. apply IH.
    apply first_space_Some in E as (r & Hr & ->). rewrite length_append in Hs.
    pose proof (space_nonempty r Hr). destruct r; [done|]. cbn in Hs. lia.
Qed.
Lemma all_space_spec s : all_space s = true <-> spaces s.
Proof.
  unfold all_space. split.
  - destruct (trim_left_fuel_split (String.length s) s) as (w & Hs & Hw). unfold trim_left. destruct (trim_left_fuel _ s); [|done].
    intros _. by rewrite Hs, append_nil_r.
  - intros (l & Hl & ->). unfold trim_left. generalize (Nat.le_refl (String.length (concat_runes l))).
    generalize (String.length (concat_runes l)) at 2 3. intros n. revert n; induction Hl as [|r l Hr Hl IH]; intros n Hn.
    + by destruct n.
    + change (concat_runes (r :: l)) with (r +:+ concat_runes l) in *. rewrite length_append in Hn.
      pose proof (space_nonempty r Hr) as Hne. destruct n as [|n]; [destruct r; [done|cbn in Hn; lia]|].
      cbn [trim_left_fuel]. rewrite first_space_cons by done. apply IH. destruct r; [done|]. cbn in Hn. lia.
Qed.
Lemma trim_right_split s : exists w, s = trim_right s +:+ w /\ spaces w.
Proof.
  induction s as [|a s (w & Hs & Hw)]; [exists ""; split; [done|by exists []]|]. cbn [trim_right].
  destruct (all_space (String a s)) eqn:E; [exists (String a s); split; [done|by apply all_space_spec]|].
  exists w. split; [|done]. cbn. by rewrite <- Hs.
Qed.
Lemma trim_right_twice s : trim_right (trim_right s) = trim_right s.
Proof.
  induction s as [|a s IH]; [done|]. cbn [trim_right]. destruct (all_space (String a s)) eqn:E; [done|]. cbn [trim_right].
  assert (all_space (String a (trim_right s)) = false) as ->; [|by rewrite IH].
  apply not_true_is_false. intros Ha%all_space_spec. destruct (trim_right_split s) as (w & Hs & Hw).
  assert (spaces (String a s)) as Hall by (rewrite Hs; by apply (spaces_app (String a (trim_right s)))).
  apply all_space_spec in Hall. congruence.
Qed.
Lemma trim_left_none s : first_space space_runes s = None -> trim_left s = s.
Proof. unfold trim_left. destruct s; [done|]. cbn [String.length trim_left_fuel]. by intros ->. Qed.
Lemma trim_space_twice s : trim_space (trim_space s) = trim_space s.
Proof.
  unfold trim_space at 1. rewrite trim_left_none; [apply trim_right_twice|]. unfold trim_space.
  pose proof (trim_left_fuel_stops (String.length s) s (le_n _)) as Hn. fold (trim_left s) in Hn.
  destruct (trim_right_split (trim_left s)) as (w & Hw & _).
  destruct (first_space space_runes (trim_right (trim_left s))) as [x|] eqn:E; [|done].
  apply first_space_Some in E as (r & Hr & E). rewrite E, append_assoc in Hw.
  rewrite Hw, first_space_cons in Hn by done. done.
Qed.
Lemma trim_space_part s : contains s (trim_space s) = true.
Proof.
  destruct (trim_left_fuel_split (String.length s) s) as (a & Ha & _). destruct (trim_right_split (trim_left s)) as (w & Hw & _).
  apply contains_spec. exists a, w. unfold trim_space. by rewrite <- Hw.
Qed.
(** White space keeps nothing together or apart. *)
Lemma spaces_every P s : Forall (fun r => every_byte P r = true) space_runes -> spaces s -> every_byte P s = true.
Proof.
  intros HP (l & Hl & ->). apply every_byte_concat. eapply Forall_impl; [exact Hl|]. intros r Hr.
  by eapply Forall_forall in HP.
Qed.
