(* ===== verification/Errors.v ===== *)
(** * The texts of errors ([storage_errors.go] and the other declarations)

    [err.Error()]: the text of a sentinel, of an error made from a text, of
    [fmt.Errorf("%w: %s", e, msg)] and of [errors.Join]. *)
From S2P Require Import Prelude GoStrings.
From stdpp Require Import base strings.
From Stdlib Require Import Ascii.

Local Open Scope string_scope.

Fixpoint err_text (e : GoErr) : string :=
  match e with
  | ErrNotFound => "resource not found"
  | ErrConflict => "resource conflict"
  | ErrConstraintViolation => "resource constraint violation"
  | ErrSourceDriverUnsupported => "source driver unsupported"
  | ErrConfigInvalid => "config invalid"
  | ErrSourceOperationUnsupported => "source operation unsupported"
  | ErrPathInvalid => "path invalid"
  | ErrNoBackingStorage => "no backing storage"
  | ErrNameConflict => "name conflict"
  | ErrVFSSyncConflict => "vfs sync conflict"
  | ErrMetadataVFSCommitFailed => "metadata vfs commit failed"
  | ErrMetadataVFSMountSyncFailed => "metadata vfs mount sync failed"
  | ErrMetadataVFSMutationSyncFailed => "metadata vfs mutation sync failed"
  | ErrFileNotFound => "file not found"
  | ErrFileAlreadyExists => "file already exists"
  | ErrFileNameInvalid => "file name invalid"
  | ErrUploadSessionNotFound => "upload session not found"
  | ErrUploadChunkConflict => "upload chunk conflict"
  | ErrUploadFinishIncomplete => "upload finish incomplete"
  | ErrUploadHashMismatch => "upload hash mismatch"
  | ErrUploadInvalidState => "upload invalid state"
  | ErrUploadTooLarge => "upload too large"
  | ErrDownloadLinkUnsupported => "download link unsupported"
  | ErrUserNameConflict => "user name conflict"
  | ErrUserRoleInvalid => "user role invalid"
  | ErrUserStatusInvalid => "user status invalid"
  | ErrRoleAssignmentForbidden => "role assignment forbidden"
  | ErrLastSuperAdminForbidden => "last super admin forbidden"
  | ErrACLSubjectTypeInvalid => "acl subject type invalid"
  | ErrACLEffectInvalid => "acl effect invalid"
  | ErrACLPermissionsInvalid => "acl permissions invalid"
  | ErrACLDenied => "acl denied"
  | ErrPermissionDenied => "permission denied"
  | ErrSetupAlreadyCompleted => "setup already completed"
  | ErrInvalidCredentials => "invalid credentials"
  | ErrRefreshTokenInvalid => "refresh token invalid"
  | ErrAccountLocked => "account locked"
  | ErrSourceNameConflict => "source name conflict"
  | ErrSourceMountPathConflict => "source mount path conflict"
  | ErrSourceConnectionFailed => "source connection failed"
  | ErrSourceReadOnly => "source read only"
  | ErrSourceInUse => "source in use"
  | ErrFileIsDirectory => "file is directory"
  | ErrFileMoveConflict => "file move conflict"
  | ErrFileCopyConflict => "file copy conflict"
  | ErrCloudAuthFailed => "cloud auth failed"
  | ErrCloudTokenInvalid => "cloud token invalid"
  | ErrCloudCaptchaRequired => "cloud captcha required"
  | ErrCloudCaptchaExpired => "cloud captcha expired"
  | ErrCloudRateLimited => "cloud rate limited"
  | ErrCloudRegionBlocked => "cloud region blocked"
  | ErrCloudProviderUnavailable => "cloud provider unavailable"
  | ErrTaskInvalidState => "task invalid state"
  | ErrDownloaderUnavailable => "downloader unavailable"
  | ErrDownloaderAuthFailed => "downloader auth failed"
  | ErrShareExpired => "share expired"
  | ErrSharePasswordRequired => "share password required"
  | ErrSharePasswordInvalid => "share password invalid"
  | ErrTagInvalid => "tag invalid"
  | ErrTagForbidden => "tag forbidden"
  | ErrTagBindingNotFound => "tag binding not found"
  | ErrRSSRegexInvalid => "rss regex invalid"
  | ErrNotificationChannelUnsupported => "notification channel unsupported"
  | ErrNotificationDeliveryFailed => "notification delivery failed"
  | ErrPanic msg => msg
  | ErrText msg => msg
  | ErrWrap msg a => err_text a +:+ ": " +:+ msg
  | ErrJoin a b => err_text a +:+ String "010" "" +:+ err_text b
  end.
