(* ===== verification/Entities.v ===== *)
(** * Entities

    The records of [internal/domain/entity].  A [uint] is an [N], an
    [int]/[int64] a [Z], a [time.Time] a [Z] (nanoseconds; [0] is Go's
    zero time), a pointer an [option].  Field names are the source's with
    a prefix per record. *)
From S2P Require Import Prelude.
From stdpp Require Import base strings.
Local Open Scope string_scope.
From Stdlib Require Import ZArith SpecFloat.

(** ** Storage sources *)
Record StorageSource := {
  src_ID : N; src_Name : string; src_DriverType : string; src_Status : string;
  src_IsEnabled : bool; src_IsWebDAVExposed : bool; src_WebDAVReadOnly : bool;
  src_WebDAVSlug : string; src_MountPath : string; src_RootPath : string;
  src_SortOrder : Z; src_ConfigJSON : string; src_LastCheckedAt : option Z;
  src_CreatedAt : Z; src_UpdatedAt : Z
}.
#[export] Instance eta_StorageSource : Eta StorageSource := fun r =>
  {| src_ID := src_ID r; src_Name := src_Name r; src_DriverType := src_DriverType r;
     src_Status := src_Status r; src_IsEnabled := src_IsEnabled r;
     src_IsWebDAVExposed := src_IsWebDAVExposed r; src_WebDAVReadOnly := src_WebDAVReadOnly r;
     src_WebDAVSlug := src_WebDAVSlug r; src_MountPath := src_MountPath r;
     src_RootPath := src_RootPath r; src_SortOrder := src_SortOrder r;
     src_ConfigJSON := src_ConfigJSON r; src_LastCheckedAt := src_LastCheckedAt r;
     src_CreatedAt := src_CreatedAt r; src_UpdatedAt := src_UpdatedAt r |}.

(** ** Users and refresh tokens *)
Record User := {
  u_ID : N; u_Username : string; u_Email : string; u_PasswordHash : string;
  u_RoleKey : string; u_Status : string; u_TokenVersion : Z;
  u_CreatedAt : Z; u_UpdatedAt : Z
}.
#[export] Instance eta_User : Eta User := fun r =>
  {| u_ID := u_ID r; u_Username := u_Username r; u_Email := u_Email r;
     u_PasswordHash := u_PasswordHash r; u_RoleKey := u_RoleKey r; u_Status := u_Status r;
     u_TokenVersion := u_TokenVersion r; u_CreatedAt := u_CreatedAt r;
     u_UpdatedAt := u_UpdatedAt r |}.

Record RefreshToken := {
  rt_ID : N; rt_UserID : N; rt_TokenHash : string; rt_ExpiresAt : Z;
  rt_RevokedAt : option Z; rt_CreatedAt : Z; rt_UpdatedAt : Z
}.
#[export] Instance eta_RefreshToken : Eta RefreshToken := fun r =>
  {| rt_ID := rt_ID r; rt_UserID := rt_UserID r; rt_TokenHash := rt_TokenHash r;
     rt_ExpiresAt := rt_ExpiresAt r; rt_RevokedAt := rt_RevokedAt r;
     rt_CreatedAt := rt_CreatedAt r; rt_UpdatedAt := rt_UpdatedAt r |}.

(** ** ACL rules *)
Record ACLRule := {
  acl_ID : N; acl_SourceID : N; acl_VFSNodeID : option N; acl_Path : string;
  acl_VirtualPath : string; acl_SubjectType : string; acl_SubjectID : N;
  acl_Effect : string; acl_Priority : Z; acl_Read : bool; acl_Write : bool;
  acl_Delete : bool; acl_Share : bool; acl_InheritToChildren : bool;
  acl_CreatedAt : Z; acl_UpdatedAt : Z
}.
#[export] Instance eta_ACLRule : Eta ACLRule := fun r =>
  {| acl_ID := acl_ID r; acl_SourceID := acl_SourceID r; acl_VFSNodeID := acl_VFSNodeID r;
     acl_Path := acl_Path r; acl_VirtualPath := acl_VirtualPath r;
     acl_SubjectType := acl_SubjectType r; acl_SubjectID := acl_SubjectID r;
     acl_Effect := acl_Effect r; acl_Priority := acl_Priority r; acl_Read := acl_Read r;
     acl_Write := acl_Write r; acl_Delete := acl_Delete r; acl_Share := acl_Share r;
     acl_InheritToChildren := acl_InheritToChildren r; acl_CreatedAt := acl_CreatedAt r;
     acl_UpdatedAt := acl_UpdatedAt r |}.

(** ** The metadata tree *)
Record VFSNode := {
  vn_ID : N; vn_ParentID : option N; vn_Name : string; vn_Path : string;
  vn_Kind : string; vn_MountID : option N; vn_ObjectID : option N;
  vn_SourceID : option N; vn_ProviderItemID : option string;
  vn_ProviderParentID : option string; vn_Size : Z; vn_MimeType : string;
  vn_ETag : string; vn_Checksum : string; vn_SyncState : string;
  vn_IsDeleted : bool; vn_CreatedBy : option N; vn_UpdatedBy : option N;
  vn_CreatedAt : Z; vn_UpdatedAt : Z; vn_IndexedAt : option Z; vn_LastSeenAt : option Z
}.
#[export] Instance eta_VFSNode : Eta VFSNode := fun r =>
  {| vn_ID := vn_ID r; vn_ParentID := vn_ParentID r; vn_Name := vn_Name r;
     vn_Path := vn_Path r; vn_Kind := vn_Kind r; vn_MountID := vn_MountID r;
     vn_ObjectID := vn_ObjectID r; vn_SourceID := vn_SourceID r;
     vn_ProviderItemID := vn_ProviderItemID r; vn_ProviderParentID := vn_ProviderParentID r;
     vn_Size := vn_Size r; vn_MimeType := vn_MimeType r; vn_ETag := vn_ETag r;
     vn_Checksum := vn_Checksum r; vn_SyncState := vn_SyncState r;
     vn_IsDeleted := vn_IsDeleted r; vn_CreatedBy := vn_CreatedBy r;
     vn_UpdatedBy := vn_UpdatedBy r; vn_CreatedAt := vn_CreatedAt r;
     vn_UpdatedAt := vn_UpdatedAt r; vn_IndexedAt := vn_IndexedAt r;
     vn_LastSeenAt := vn_LastSeenAt r |}.

Definition VFSNodeKindRoot := "root".
Definition VFSNodeKindVirtualDir := "virtual_dir".
Definition VFSNodeKindMount := "mount".
Definition VFSNodeKindDir := "dir".
Definition VFSNodeKindFile := "file".
Definition VFSNodeSyncStateIndexed := "indexed".
Definition VFSNodeSyncStatePending := "pending".
Definition VFSNodeSyncStateSyncing := "syncing".
Definition VFSNodeSyncStateStale := "stale".
Definition VFSNodeSyncStateMissing := "missing".
Definition VFSNodeSyncStateConflict := "conflict".
Definition VFSNodeSyncStateError := "error".

(** ** The operation journal *)
Record VFSOperation := {
  op_ID : N; op_OperationType : string; op_Status : string;
  op_SourceNodeID : option N; op_TargetParentNodeID : option N;
  op_ResultNodeID : option N; op_SourcePathSnapshot : string;
  op_TargetPathSnapshot : string; op_SourceIDSnapshot : option N;
  op_DriverTypeSnapshot : string; op_PayloadJSON : string; op_ErrorCode : string;
  op_ErrorMessage : string; op_RetryCount : Z; op_NextRetryAt : option Z;
  op_LockedBy : string; op_LockedUntil : option Z; op_CreatedBy : option N;
  op_CreatedAt : Z; op_UpdatedAt : Z
}.
#[export] Instance eta_VFSOperation : Eta VFSOperation := fun r =>
  {| op_ID := op_ID r; op_OperationType := op_OperationType r; op_Status := op_Status r;
     op_SourceNodeID := op_SourceNodeID r; op_TargetParentNodeID := op_TargetParentNodeID r;
     op_ResultNodeID := op_ResultNodeID r; op_SourcePathSnapshot := op_SourcePathSnapshot r;
     op_TargetPathSnapshot := op_TargetPathSnapshot r;
     op_SourceIDSnapshot := op_SourceIDSnapshot r;
     op_DriverTypeSnapshot := op_DriverTypeSnapshot r; op_PayloadJSON := op_PayloadJSON r;
     op_ErrorCode := op_ErrorCode r; op_ErrorMessage := op_ErrorMessage r;
     op_RetryCount := op_RetryCount r; op_NextRetryAt := op_NextRetryAt r;
     op_LockedBy := op_LockedBy r; op_LockedUntil := op_LockedUntil r;
     op_CreatedBy := op_CreatedBy r; op_CreatedAt := op_CreatedAt r;
     op_UpdatedAt := op_UpdatedAt r |}.

Definition VFSOperationStatusPending := "pending".
Definition VFSOperationStatusRunning := "running".
Definition VFSOperationStatusSucceeded := "succeeded".
Definition VFSOperationStatusFailed := "failed".
Definition VFSOperationStatusCompensating := "compensating".
Definition VFSOperationStatusCanceled := "canceled".

(** ** System configuration *)
Record SystemConfig := {
  cfg_ID : N; cfg_SiteName : string; cfg_MultiUserEnabled : bool;
  cfg_DefaultSourceID : option N; cfg_MaxUploadSize : Z; cfg_DefaultChunkSize : Z;
  cfg_WebDAVEnabled : bool; cfg_WebDAVPrefix : string; cfg_Theme : string;
  cfg_Language : string; cfg_TimeZone : string; cfg_CreatedAt : Z; cfg_UpdatedAt : Z
}.
#[export] Instance eta_SystemConfig : Eta SystemConfig := fun r =>
  {| cfg_ID := cfg_ID r; cfg_SiteName := cfg_SiteName r;
     cfg_MultiUserEnabled := cfg_MultiUserEnabled r;
     cfg_DefaultSourceID := cfg_DefaultSourceID r; cfg_MaxUploadSize := cfg_MaxUploadSize r;
     cfg_DefaultChunkSize := cfg_DefaultChunkSize r; cfg_WebDAVEnabled := cfg_WebDAVEnabled r;
     cfg_WebDAVPrefix := cfg_WebDAVPrefix r; cfg_Theme := cfg_Theme r;
     cfg_Language := cfg_Language r; cfg_TimeZone := cfg_TimeZone r;
     cfg_CreatedAt := cfg_CreatedAt r; cfg_UpdatedAt := cfg_UpdatedAt r |}.

(** ** Audit log rows *)
Record AuditLog := {
  al_ID : N; al_OccurredAt : Z; al_RequestID : string; al_EntryPoint : string;
  al_ActorUserID : option N; al_ActorUsername : string; al_ActorRoleKey : string;
  al_ClientIP : string; al_UserAgent : string; al_Method : string; al_Path : string;
  al_ResourceType : string; al_Action : string; al_Result : string;
  al_ErrorCode : string; al_ResourceID : string; al_SourceID : option N;
  al_VirtualPath : string; al_ResolvedSourceID : option N; al_ResolvedPath : string;
  al_BeforeJSON : string; al_AfterJSON : string; al_DetailJSON : string; al_CreatedAt : Z
}.
#[export] Instance eta_AuditLog : Eta AuditLog := fun r =>
  {| al_ID := al_ID r; al_OccurredAt := al_OccurredAt r; al_RequestID := al_RequestID r;
     al_EntryPoint := al_EntryPoint r; al_ActorUserID := al_ActorUserID r;
     al_ActorUsername := al_ActorUsername r; al_ActorRoleKey := al_ActorRoleKey r;
     al_ClientIP := al_ClientIP r; al_UserAgent := al_UserAgent r; al_Method := al_Method r;
     al_Path := al_Path r; al_ResourceType := al_ResourceType r; al_Action := al_Action r;
     al_Result := al_Result r; al_ErrorCode := al_ErrorCode r;
     al_ResourceID := al_ResourceID r; al_SourceID := al_SourceID r;
     al_VirtualPath := al_VirtualPath r; al_ResolvedSourceID := al_ResolvedSourceID r;
     al_ResolvedPath := al_ResolvedPath r; al_BeforeJSON := al_BeforeJSON r;
     al_AfterJSON := al_AfterJSON r; al_DetailJSON := al_DetailJSON r;
     al_CreatedAt := al_CreatedAt r |}.

(** ** Upload sessions *)
Record UploadSession := {
  us_UploadID : string; us_UserID : N; us_SourceID : N; us_Path : string;
  us_TargetVFSParentNodeID : N; us_TargetVirtualParentPath : string;
  us_ResolvedSourceID : N; us_ResolvedInnerParentPath : string; us_ResultVFSNodeID : N;
  us_Filename : string; us_FileSize : Z; us_FileHash : string; us_ChunkSize : Z;
  us_TotalChunks : Z; us_UploadedChunks : list Z; us_StorageDataJSON : string;
  us_Status : string; us_IsFastUpload : bool; us_ExpiresAt : Z;
  us_CreatedAt : Z; us_UpdatedAt : Z
}.
#[export] Instance eta_UploadSession : Eta UploadSession := fun r =>
  {| us_UploadID := us_UploadID r; us_UserID := us_UserID r; us_SourceID := us_SourceID r;
     us_Path := us_Path r; us_TargetVFSParentNodeID := us_TargetVFSParentNodeID r;
     us_TargetVirtualParentPath := us_TargetVirtualParentPath r;
     us_ResolvedSourceID := us_ResolvedSourceID r;
     us_ResolvedInnerParentPath := us_ResolvedInnerParentPath r;
     us_ResultVFSNodeID := us_ResultVFSNodeID r; us_Filename := us_Filename r;
     us_FileSize := us_FileSize r; us_FileHash := us_FileHash r;
     us_ChunkSize := us_ChunkSize r; us_TotalChunks := us_TotalChunks r;
     us_UploadedChunks := us_UploadedChunks r; us_StorageDataJSON := us_StorageDataJSON r;
     us_Status := us_Status r; us_IsFastUpload := us_IsFastUpload r;
     us_ExpiresAt := us_ExpiresAt r; us_CreatedAt := us_CreatedAt r;
     us_UpdatedAt := us_UpdatedAt r |}.

(** ** Storage objects *)
Record StorageObject := {
  so_ID : N; so_SourceID : N; so_DriverType : string; so_LocatorType : string;
  so_LocatorJSON : string; so_Size : Z; so_ETag : string; so_Checksum : string;
  so_MimeType : string; so_Status : string; so_CreatedAt : Z; so_UpdatedAt : Z
}.
#[export] Instance eta_StorageObject : Eta StorageObject := fun r =>
  {| so_ID := so_ID r; so_SourceID := so_SourceID r; so_DriverType := so_DriverType r;
     so_LocatorType := so_LocatorType r; so_LocatorJSON := so_LocatorJSON r;
     so_Size := so_Size r; so_ETag := so_ETag r; so_Checksum := so_Checksum r;
     so_MimeType := so_MimeType r; so_Status := so_Status r; so_CreatedAt := so_CreatedAt r;
     so_UpdatedAt := so_UpdatedAt r |}.

Definition StorageObjectStatusAvailable := "available".
Definition StorageObjectStatusPending := "pending".
Definition StorageObjectStatusUploading := "uploading".
Definition StorageObjectStatusImporting := "importing".
Definition StorageObjectStatusMissing := "missing".
Definition StorageObjectStatusDeleted := "deleted".
Definition StorageObjectStatusError := "error".

(** ** Mounts and tags of the metadata tree *)
Record VFSMount := {
  vm_ID : N; vm_SourceID : N; vm_NodeID : N; vm_MountPath : string; vm_RootLocatorJSON : string;
  vm_Mode : string; vm_IsEnabled : bool; vm_SortOrder : Z; vm_CreatedAt : Z; vm_UpdatedAt : Z
}.
#[export] Instance eta_VFSMount : Eta VFSMount := fun r =>
  {| vm_ID := vm_ID r; vm_SourceID := vm_SourceID r; vm_NodeID := vm_NodeID r;
     vm_MountPath := vm_MountPath r; vm_RootLocatorJSON := vm_RootLocatorJSON r;
     vm_Mode := vm_Mode r; vm_IsEnabled := vm_IsEnabled r; vm_SortOrder := vm_SortOrder r;
     vm_CreatedAt := vm_CreatedAt r; vm_UpdatedAt := vm_UpdatedAt r |}.

Record VFSTag := {
  tag_ID : N; tag_OwnerUserID : N; tag_Name : string; tag_Color : string;
  tag_CreatedAt : Z; tag_UpdatedAt : Z
}.
#[export] Instance eta_VFSTag : Eta VFSTag := fun r =>
  {| tag_ID := tag_ID r; tag_OwnerUserID := tag_OwnerUserID r; tag_Name := tag_Name r;
     tag_Color := tag_Color r; tag_CreatedAt := tag_CreatedAt r; tag_UpdatedAt := tag_UpdatedAt r |}.

Record VFSNodeTag := {
  nt_NodeID : N; nt_TagID : N; nt_CreatedBy : option N; nt_CreatedAt : Z
}.
#[export] Instance eta_VFSNodeTag : Eta VFSNodeTag := fun r =>
  {| nt_NodeID := nt_NodeID r; nt_TagID := nt_TagID r; nt_CreatedBy := nt_CreatedBy r;
     nt_CreatedAt := nt_CreatedAt r |}.

(** ** Notifications *)
Record NotificationChannelConfig := { ncc_WebhookURL : string; ncc_Secret : string }.
#[export] Instance eta_NotificationChannelConfig : Eta NotificationChannelConfig := fun r =>
  {| ncc_WebhookURL := ncc_WebhookURL r; ncc_Secret := ncc_Secret r |}.

Record NotificationChannel := {
  nc_ID : N; nc_Name : string; nc_Type : string; nc_IsEnabled : bool; nc_EventTypes : list string;
  nc_Config : NotificationChannelConfig; nc_CreatedAt : Z; nc_UpdatedAt : Z
}.
#[export] Instance eta_NotificationChannel : Eta NotificationChannel := fun r =>
  {| nc_ID := nc_ID r; nc_Name := nc_Name r; nc_Type := nc_Type r; nc_IsEnabled := nc_IsEnabled r;
     nc_EventTypes := nc_EventTypes r; nc_Config := nc_Config r; nc_CreatedAt := nc_CreatedAt r;
     nc_UpdatedAt := nc_UpdatedAt r |}.

Record NotificationEvent := {
  ne_ID : N; ne_UserID : N; ne_EventType : string; ne_Severity : string; ne_Title : string;
  ne_Message : string; ne_PayloadJSON : string; ne_Status : string; ne_Attempts : Z;
  ne_MaxAttempts : Z; ne_LastAttemptAt : option Z; ne_NextAttemptAt : option Z;
  ne_DeliveredAt : option Z; ne_LastError : option string; ne_CreatedAt : Z; ne_UpdatedAt : Z
}.
#[export] Instance eta_NotificationEvent : Eta NotificationEvent := fun r =>
  {| ne_ID := ne_ID r; ne_UserID := ne_UserID r; ne_EventType := ne_EventType r;
     ne_Severity := ne_Severity r; ne_Title := ne_Title r; ne_Message := ne_Message r;
     ne_PayloadJSON := ne_PayloadJSON r; ne_Status := ne_Status r; ne_Attempts := ne_Attempts r;
     ne_MaxAttempts := ne_MaxAttempts r; ne_LastAttemptAt := ne_LastAttemptAt r;
     ne_NextAttemptAt := ne_NextAttemptAt r; ne_DeliveredAt := ne_DeliveredAt r;
     ne_LastError := ne_LastError r; ne_CreatedAt := ne_CreatedAt r; ne_UpdatedAt := ne_UpdatedAt r |}.

(** ** Share links *)
Record ShareLink := {
  sl_ID : N; sl_UserID : N; sl_SourceID : N; sl_Path : string; sl_TargetVFSNodeID : N;
  sl_TargetVirtualPath : string; sl_ResolvedSourceID : N; sl_ResolvedInnerPath : string;
  sl_Name : string; sl_IsDir : bool; sl_Token : string; sl_PasswordHash : option string;
  sl_ExpiresAt : option Z; sl_CreatedAt : Z; sl_UpdatedAt : Z
}.
#[export] Instance eta_ShareLink : Eta ShareLink := fun r =>
  {| sl_ID := sl_ID r; sl_UserID := sl_UserID r; sl_SourceID := sl_SourceID r; sl_Path := sl_Path r;
     sl_TargetVFSNodeID := sl_TargetVFSNodeID r; sl_TargetVirtualPath := sl_TargetVirtualPath r;
     sl_ResolvedSourceID := sl_ResolvedSourceID r; sl_ResolvedInnerPath := sl_ResolvedInnerPath r;
     sl_Name := sl_Name r; sl_IsDir := sl_IsDir r; sl_Token := sl_Token r;
     sl_PasswordHash := sl_PasswordHash r; sl_ExpiresAt := sl_ExpiresAt r;
     sl_CreatedAt := sl_CreatedAt r; sl_UpdatedAt := sl_UpdatedAt r |}.

(** ** Trash *)
Record TrashItem := {
  ti_ID : N; ti_SourceID : N; ti_OriginalPath : string; ti_OriginalVirtualPath : string;
  ti_TrashPath : string; ti_Name : string; ti_IsDir : bool; ti_Size : Z; ti_DeletedAt : Z;
  ti_ExpiresAt : Z; ti_CreatedAt : Z; ti_UpdatedAt : Z
}.
#[export] Instance eta_TrashItem : Eta TrashItem := fun r =>
  {| ti_ID := ti_ID r; ti_SourceID := ti_SourceID r; ti_OriginalPath := ti_OriginalPath r;
     ti_OriginalVirtualPath := ti_OriginalVirtualPath r; ti_TrashPath := ti_TrashPath r;
     ti_Name := ti_Name r; ti_IsDir := ti_IsDir r; ti_Size := ti_Size r; ti_DeletedAt := ti_DeletedAt r;
     ti_ExpiresAt := ti_ExpiresAt r; ti_CreatedAt := ti_CreatedAt r; ti_UpdatedAt := ti_UpdatedAt r |}.

(** ** RSS *)
Record RSSSource := {
  rs_ID : N; rs_UserID : N; rs_Name : string; rs_URL : string; rs_IsEnabled : bool;
  rs_RefreshIntervalSeconds : Z; rs_LastRefreshedAt : option Z; rs_LastError : option string;
  rs_HealthStatus : string; rs_ConsecutiveFailures : Z; rs_LastSuccessAt : option Z;
  rs_NextRefreshAt : option Z; rs_LastRefreshStatus : string; rs_LastRefreshStatsJSON : string;
  rs_CreatedAt : Z; rs_UpdatedAt : Z
}.
#[export] Instance eta_RSSSource : Eta RSSSource := fun r =>
  {| rs_ID := rs_ID r; rs_UserID := rs_UserID r; rs_Name := rs_Name r; rs_URL := rs_URL r;
     rs_IsEnabled := rs_IsEnabled r; rs_RefreshIntervalSeconds := rs_RefreshIntervalSeconds r;
     rs_LastRefreshedAt := rs_LastRefreshedAt r; rs_LastError := rs_LastError r;
     rs_HealthStatus := rs_HealthStatus r; rs_ConsecutiveFailures := rs_ConsecutiveFailures r;
     rs_LastSuccessAt := rs_LastSuccessAt r; rs_NextRefreshAt := rs_NextRefreshAt r;
     rs_LastRefreshStatus := rs_LastRefreshStatus r;
     rs_LastRefreshStatsJSON := rs_LastRefreshStatsJSON r; rs_CreatedAt := rs_CreatedAt r;
     rs_UpdatedAt := rs_UpdatedAt r |}.

Record RSSSubscription := {
  rsub_ID : N; rsub_UserID : N; rsub_SourceID : N; rsub_Name : string; rsub_IsEnabled : bool;
  rsub_MustContain : list string; rsub_MustNotContain : list string; rsub_UseRegex : bool;
  rsub_CaseSensitive : bool; rsub_TargetVFSParentNodeID : N; rsub_TargetVirtualParentPath : string;
  rsub_DirectoryTemplate : string; rsub_FilenameTemplate : string; rsub_ResolvedSourceID : N;
  rsub_ResolvedInnerParentPath : string; rsub_CreatedAt : Z; rsub_UpdatedAt : Z
}.
#[export] Instance eta_RSSSubscription : Eta RSSSubscription := fun r =>
  {| rsub_ID := rsub_ID r; rsub_UserID := rsub_UserID r; rsub_SourceID := rsub_SourceID r;
     rsub_Name := rsub_Name r; rsub_IsEnabled := rsub_IsEnabled r;
     rsub_MustContain := rsub_MustContain r; rsub_MustNotContain := rsub_MustNotContain r;
     rsub_UseRegex := rsub_UseRegex r; rsub_CaseSensitive := rsub_CaseSensitive r;
     rsub_TargetVFSParentNodeID := rsub_TargetVFSParentNodeID r;
     rsub_TargetVirtualParentPath := rsub_TargetVirtualParentPath r;
     rsub_DirectoryTemplate := rsub_DirectoryTemplate r;
     rsub_FilenameTemplate := rsub_FilenameTemplate r;
     rsub_ResolvedSourceID := rsub_ResolvedSourceID r;
     rsub_ResolvedInnerParentPath := rsub_ResolvedInnerParentPath r;
     rsub_CreatedAt := rsub_CreatedAt r; rsub_UpdatedAt := rsub_UpdatedAt r |}.

Record RSSAnimeParsed := {
  rap_AnimeTitle : string; rap_Season : string; rap_Episode : string; rap_SubtitleGroup : string;
  rap_Resolution : string
}.
#[export] Instance eta_RSSAnimeParsed : Eta RSSAnimeParsed := fun r =>
  {| rap_AnimeTitle := rap_AnimeTitle r; rap_Season := rap_Season r; rap_Episode := rap_Episode r;
     rap_SubtitleGroup := rap_SubtitleGroup r; rap_Resolution := rap_Resolution r |}.

Record RSSItem := {
  rit_ID : N; rit_UserID : N; rit_SourceID : N; rit_Title : string; rit_Link : string;
  rit_PublishedAt : option Z; rit_GUID : string; rit_DedupKey : string; rit_DownloadURL : string;
  rit_LinkType : string; rit_Parsed : RSSAnimeParsed; rit_Status : string;
  rit_MatchedSubscriptionID : option N; rit_TaskID : option N; rit_ResultVFSNodeID : N;
  rit_ErrorMessage : option string; rit_RetryCount : Z; rit_MaxRetryCount : Z;
  rit_LastAttemptAt : option Z; rit_NextRetryAt : option Z; rit_RetryReason : option string;
  rit_CreatedAt : Z; rit_UpdatedAt : Z
}.
#[export] Instance eta_RSSItem : Eta RSSItem := fun r =>
  {| rit_ID := rit_ID r; rit_UserID := rit_UserID r; rit_SourceID := rit_SourceID r;
     rit_Title := rit_Title r; rit_Link := rit_Link r; rit_PublishedAt := rit_PublishedAt r;
     rit_GUID := rit_GUID r; rit_DedupKey := rit_DedupKey r; rit_DownloadURL := rit_DownloadURL r;
     rit_LinkType := rit_LinkType r; rit_Parsed := rit_Parsed r; rit_Status := rit_Status r;
     rit_MatchedSubscriptionID := rit_MatchedSubscriptionID r; rit_TaskID := rit_TaskID r;
     rit_ResultVFSNodeID := rit_ResultVFSNodeID r; rit_ErrorMessage := rit_ErrorMessage r;
     rit_RetryCount := rit_RetryCount r; rit_MaxRetryCount := rit_MaxRetryCount r;
     rit_LastAttemptAt := rit_LastAttemptAt r; rit_NextRetryAt := rit_NextRetryAt r;
     rit_RetryReason := rit_RetryReason r; rit_CreatedAt := rit_CreatedAt r;
     rit_UpdatedAt := rit_UpdatedAt r |}.

(** ** Download tasks

    [Progress] is a [float64]: its specification in the Standard Library. *)
Record DownloadTask := {
  dt_ID : N; dt_UserID : N; dt_Type : string; dt_DownloaderType : string; dt_Status : string;
  dt_SourceID : N; dt_SavePath : string; dt_TargetVFSParentNodeID : N;
  dt_TargetVirtualParentPath : string; dt_TargetFilename : string; dt_SaveVirtualPath : string;
  dt_ResolvedSourceID : N; dt_ResolvedInnerSavePath : string; dt_ResultVFSNodeID : N;
  dt_StagingDir : string; dt_DisplayName : string; dt_SourceURL : string; dt_ExternalID : string;
  dt_Progress : spec_float; dt_DownloadedBytes : Z; dt_TotalBytes : option Z; dt_SpeedBytes : Z;
  dt_ETASeconds : option Z; dt_ErrorMessage : option string; dt_FinishedAt : option Z;
  dt_CreatedAt : Z; dt_UpdatedAt : Z
}.
#[export] Instance eta_DownloadTask : Eta DownloadTask := fun r =>
  {| dt_ID := dt_ID r; dt_UserID := dt_UserID r; dt_Type := dt_Type r;
     dt_DownloaderType := dt_DownloaderType r; dt_Status := dt_Status r;
     dt_SourceID := dt_SourceID r; dt_SavePath := dt_SavePath r;
     dt_TargetVFSParentNodeID := dt_TargetVFSParentNodeID r;
     dt_TargetVirtualParentPath := dt_TargetVirtualParentPath r;
     dt_TargetFilename := dt_TargetFilename r; dt_SaveVirtualPath := dt_SaveVirtualPath r;
     dt_ResolvedSourceID := dt_ResolvedSourceID r;
     dt_ResolvedInnerSavePath := dt_ResolvedInnerSavePath r;
     dt_ResultVFSNodeID := dt_ResultVFSNodeID r; dt_StagingDir := dt_StagingDir r;
     dt_DisplayName := dt_DisplayName r; dt_SourceURL := dt_SourceURL r;
     dt_ExternalID := dt_ExternalID r; dt_Progress := dt_Progress r;
     dt_DownloadedBytes := dt_DownloadedBytes r; dt_TotalBytes := dt_TotalBytes r;
     dt_SpeedBytes := dt_SpeedBytes r; dt_ETASeconds := dt_ETASeconds r;
     dt_ErrorMessage := dt_ErrorMessage r; dt_FinishedAt := dt_FinishedAt r;
     dt_CreatedAt := dt_CreatedAt r; dt_UpdatedAt := dt_UpdatedAt r |}.
