(* ===== verification/Paths.v ===== *)
(** * Virtual paths

    [local_storage_helpers.go] (normalisation, file names) and
    [vfs_path.go] (splitting, joining, sub-paths), over the functions of
    Go's package [path] they call.  The abstract view of a canonical
    path is its list of segments: [render] and the lemmas on [canonical]
    paths relate the two. *)
From S2P Require Import Prelude GoStrings.
From stdpp Require Import base list strings.
From Stdlib Require Import Ascii Lia.

Local Open Scope string_scope.
Local Open Scope list_scope.
Local Open Scope go_scope.

Definition slash : ascii := "/"%char.

(** ** Package [path] *)

(** One element of [path.Clean]'s scan; the stack holds the elements kept
    so far, the last one first. *)
Definition clean_step (rooted : bool) (st : list string) (seg : string) : list string :=
  if String.eqb seg "" then st
  else if String.eqb seg "." then st
  else if String.eqb seg ".." then
    match st with
    | [] => if rooted then [] else [".."]
    | top :: rest => if negb rooted && String.eqb top ".." then ".." :: st else rest
    end
  else seg :: st.

Definition clean_segs (rooted : bool) (p : string) : list string :=
  rev (fold_left (clean_step rooted) (split_on slash p) []).

(** A rooted path with the given elements. *)
Fixpoint render_tail (l : list string) : string :=
  match l with [] => "" | a :: l' => "/" +:+ a +:+ render_tail l' end.
Definition render (l : list string) : string :=
  match l with [] => "/" | _ => render_tail l end.

(** [path.Clean]. *)
Definition path_clean (p : string) : string :=
  if String.eqb p "" then "."
  else if has_prefix p "/" then render (clean_segs true p)
  else match clean_segs false p with
       | [] => "."
       | a :: l => a +:+ render_tail l
       end.

(** The bytes up to and including the last slash ([path.Split]'s first
    result), and those after it. *)
Fixpoint split_last (p : string) : string * string :=
  match p with
  | EmptyString => ("", "")
  | String a p' =>
      let '(d, f) := split_last p' in
      if String.eqb d "" then
        if Ascii.eqb a slash then (String a "", f) else ("", String a f)
      else (String a d, f)
  end.

(** [path.Dir], [path.Base] and [path.Join] of two elements. *)
Definition path_dir (p : string) : string := path_clean (fst (split_last p)).
Definition path_base (p : string) : string :=
  if String.eqb p "" then "."
  else let b := snd (split_last (trim_right_byte slash p)) in
       if String.eqb b "" then "/" else b.
Definition path_join (a b : string) : string :=
  if String.eqb a "" then (if String.eqb b "" then "" else path_clean b)
  else if String.eqb b "" then path_clean a
  else path_clean (a +:+ "/" +:+ b).

(** ** [local_storage_helpers.go] *)
Definition normalizeVirtualPath (input : string) : result GoErr string :=
  let input := if String.eqb input "" then "/" else input in
  if negb (has_prefix input "/") then Err ErrPathInvalid
  else
    let cleaned := path_clean input in
    let cleaned := if negb (has_prefix cleaned "/") then "/" +:+ cleaned else cleaned in
    if contains cleaned ".." then Err ErrPathInvalid
    else Ok cleaned.

Definition validateFileName (name : string) : result GoErr unit :=
  if String.eqb name "" || contains name "/" || contains name "\" ||
     String.eqb name "." || String.eqb name ".."
  then Err ErrFileNameInvalid
  else Ok tt.

(** ** [vfs_path.go] *)
Definition normalizeMountPath (input : string) : result GoErr string :=
  normalizeVirtualPath input.

Definition splitParentName (input : string) : result GoErr (string * string) :=
  match normalizeVirtualPath input with
  | Err e => Err e
  | Ok normalizedPath =>
      if String.eqb normalizedPath "/" then Ok ("/", "")
      else Ok (path_dir normalizedPath, path_base normalizedPath)
  end.

Definition joinVirtualPath (parentPath name : string) : string :=
  if String.eqb parentPath "/" then "/" +:+ trim_prefix name "/"
  else parentPath +:+ "/" +:+ trim_prefix name "/".

Definition mergeMountAndInnerPath (mountPath innerPath : string) : string :=
  match normalizeMountPath mountPath with
  | Err _ => ""
  | Ok normalizedMountPath =>
      match normalizeVirtualPath innerPath with
      | Err _ => ""
      | Ok normalizedInnerPath =>
          if String.eqb normalizedInnerPath "/" then normalizedMountPath
          else if String.eqb normalizedMountPath "/" then normalizedInnerPath
          else normalizedMountPath +:+ normalizedInnerPath
      end
  end.

Definition isSubPath (base target : string) : bool :=
  match normalizeVirtualPath base with
  | Err _ => false
  | Ok normalizedBase =>
      match normalizeVirtualPath target with
      | Err _ => false
      | Ok normalizedTarget =>
          if String.eqb normalizedBase "/" then has_prefix normalizedTarget "/"
          else String.eqb normalizedTarget normalizedBase ||
               has_prefix normalizedTarget (normalizedBase +:+ "/")
      end
  end.

Example normalize_ex : normalizeVirtualPath "/a//b/./c/../d/" = Ok "/a/b/d".
Proof. reflexivity. Qed.
Example normalize_ex2 : normalizeVirtualPath "/../a" = Ok "/a".
Proof. reflexivity. Qed.
Example normalize_ex3 : normalizeVirtualPath "a/b" = Err ErrPathInvalid.
Proof. reflexivity. Qed.
Example split_ex : splitParentName "/a/b/c" = Ok ("/a/b", "c").
Proof. reflexivity. Qed.
Example join_ex : path_join "/a/b" "../c" = "/a/c".
Proof. reflexivity. Qed.

(** ** Canonical paths and their segments *)

(** An element [path.Clean] may keep in a rooted path. *)
Definition plain_seg (s : string) : bool :=
  negb (String.eqb s "") && negb (String.eqb s ".") && negb (String.eqb s "..") &&
  negb (has_byte slash s).
(** One that [normalizeVirtualPath] accepts. *)
Definition good_seg (s : string) : bool := plain_seg s && negb (contains s "..").
Definition good_segs (l : list string) : bool := forallb good_seg l.

(** The canonical form: what [normalizeVirtualPath] returns unchanged. *)
Definition canonical (p : string) : Prop := exists l, good_segs l = true /\ p = render l.

Lemma good_plain s : good_seg s = true -> plain_seg s = true.
Proof. unfold good_seg. by intros [? _]%andb_true_iff. Qed.

Lemma good_segs_plain l : good_segs l = true -> forallb plain_seg l = true.
Proof.
  unfold good_segs. rewrite !forallb_forall. intros H x Hx. by apply good_plain, H.
Qed.

Lemma plain_seg_spec s : plain_seg s = true <->
  s <> "" /\ s <> "." /\ s <> ".." /\ has_byte slash s = false.
Proof.
  unfold plain_seg. rewrite !andb_true_iff, !negb_true_iff, !String.eqb_neq. tauto.
Qed.

Lemma split_render_tail l : forallb plain_seg l = true ->
  split_on slash (render_tail l) = "" :: l \/ l = [].
Proof.
  destruct l as [|a l]; [auto|]. intros H; left. cbn.
  assert (forall x, In x (a :: l) -> has_byte slash x = false) as Hb.
  { intros x Hx. rewrite forallb_forall in H. apply H, plain_seg_spec in Hx; tauto. }
  f_equal. clear H. revert a Hb. induction l as [|b l IH]; intros a Hb.
  - cbn. rewrite append_nil_r. apply split_on_no, Hb. by left.
  - cbn [render_tail]. change ("/" +:+ (b +:+ render_tail l)) with (String slash (b +:+ render_tail l)).
    rewrite split_on_app by (apply Hb; by left). f_equal. apply IH. intros x Hx. apply Hb. by right.
Qed.

Lemma clean_fold_plain l st : forallb plain_seg l = true ->
  fold_left (clean_step true) l st = rev l ++ st.
Proof.
  revert st; induction l as [|a l IH]; intros st; [done|]. cbn [forallb fold_left].
  intros [Ha Hl]%andb_true_iff. rewrite IH by done.
  apply plain_seg_spec in Ha as (H1 & H2 & H3 & _).
  unfold clean_step. apply String.eqb_neq in H1, H2, H3. rewrite H1, H2, H3.
  cbn. by rewrite <- app_assoc.
Qed.

Lemma clean_segs_render l : forallb plain_seg l = true -> clean_segs true (render l) = l.
Proof.
  intros H. destruct l as [|b l']; [done|]. set (l := b :: l') in *.
  destruct (split_render_tail l H) as [Hs | ?]; [|done].
  unfold clean_segs. change (render l) with (render_tail l). rewrite Hs.
  cbn [fold_left]. change (clean_step true [] "") with (@nil string).
  rewrite clean_fold_plain, app_nil_r by done. by rewrite rev_involutive.
Qed.

(** The elements kept from any input are plain. *)
Lemma clean_step_plain st seg : forallb plain_seg st = true -> has_byte slash seg = false ->
  forallb plain_seg (clean_step true st seg) = true.
Proof.
  intros Hst Hseg. unfold clean_step.
  destruct (String.eqb_spec seg ""); [done|]. destruct (String.eqb_spec seg "."); [done|].
  destruct (String.eqb_spec seg "..").
  - destruct st as [|t st]; [done|]. cbn in *. by apply andb_true_iff in Hst as [_ ?].
  - cbn. rewrite Hst, andb_true_r. by apply plain_seg_spec.
Qed.

Lemma clean_segs_plain p : forallb plain_seg (clean_segs true p) = true.
Proof.
  unfold clean_segs. rewrite forallb_forall. intros x Hx%in_rev. revert x Hx.
  apply forallb_forall.
  assert (forall l st, Forall (fun w => has_byte slash w = false) l -> forallb plain_seg st = true ->
            forallb plain_seg (fold_left (clean_step true) l st) = true) as Hf.
  { induction l as [|a l IH]; intros st Hl Hst; [done|]. inversion_clear Hl.
    cbn. apply IH; [done|]. by apply clean_step_plain. }
  apply Hf; [apply split_on_no_sep | done].
Qed.

Lemma render_rooted l : has_prefix (render l) "/" = true.
Proof. by destruct l. Qed.

Lemma path_clean_rooted p : has_prefix p "/" = true -> path_clean p = render (clean_segs true p).
Proof. intros H. unfold path_clean. rewrite H. by destruct p. Qed.

Lemma contains_dots_head l a :
  contains (a +:+ render_tail l) ".." = contains a ".." || existsb (fun s => contains s "..") l.
Proof.
  revert a; induction l as [|b l IH]; intros a.
  - cbn [render_tail existsb]. by rewrite append_nil_r, orb_false_r.
  - cbn [render_tail existsb]. change ("/" +:+ (b +:+ render_tail l)) with (String slash (b +:+ render_tail l)).
    rewrite contains_sep by done. by rewrite IH.
Qed.

Lemma contains_dots_tail l : contains (render_tail l) ".." = existsb (fun s => contains s "..") l.
Proof. exact (contains_dots_head l ""). Qed.

Lemma contains_dots l : contains (render l) ".." = existsb (fun s => contains s "..") l.
Proof. destruct l; [done|]. apply contains_dots_tail. Qed.

Lemma good_segs_split l : good_segs l = forallb plain_seg l && negb (existsb (fun s => contains s "..") l).
Proof.
  induction l as [|a l IH]; [done|]. cbn. unfold good_segs in IH; cbn in IH. rewrite IH. unfold good_seg.
  destruct (plain_seg a), (contains a ".."), (forallb plain_seg l); done.
Qed.

(** What [normalizeVirtualPath] computes, for every input. *)
Lemma normalize_unfold input :
  normalizeVirtualPath input =
  if String.eqb input "" || has_prefix input "/" then
    if good_segs (clean_segs true input) then Ok (render (clean_segs true input))
    else Err ErrPathInvalid
  else Err ErrPathInvalid.
Proof.
  unfold normalizeVirtualPath. destruct (String.eqb_spec input "") as [->|Hne]; [done|].
  cbn [orb]. destruct (has_prefix input "/") eqn:Hp; [|done]. cbn [negb].
  rewrite path_clean_rooted by done. rewrite render_rooted. cbn [negb].
  rewrite contains_dots, good_segs_split, clean_segs_plain. cbn [andb].
  by destruct (existsb _ _).
Qed.

Lemma normalize_render l : good_segs l = true -> normalizeVirtualPath (render l) = Ok (render l).
Proof.
  intros H. rewrite normalize_unfold, render_rooted, orb_true_r.
  by rewrite clean_segs_render, H by by apply good_segs_plain.
Qed.

Lemma normalize_canonical input p : normalizeVirtualPath input = Ok p -> canonical p.
Proof.
  rewrite normalize_unfold. destruct (_ || _); [|discriminate].
  destruct (good_segs (clean_segs true input)) eqn:Hg; intros; simplify_eq.
  by exists (clean_segs true input).
Qed.

Lemma canonical_normalize p : canonical p -> normalizeVirtualPath p = Ok p.
Proof. intros (l & Hl & ->). by apply normalize_render. Qed.

Lemma normalize_err input e : normalizeVirtualPath input = Err e -> e = ErrPathInvalid.
Proof. rewrite normalize_unfold. repeat case_match; intros; simplify_eq; done. Qed.

Lemma render_inj l l' : forallb plain_seg l = true -> forallb plain_seg l' = true ->
  render l = render l' -> l = l'.
Proof. intros H H' E. rewrite <- (clean_segs_render l), E by done. by apply clean_segs_render. Qed.

Lemma render_tail_app l l' : render_tail (l ++ l') = render_tail l +:+ render_tail l'.
Proof. induction l as [|a l IH]; [done|]. cbn. by rewrite IH, append_assoc. Qed.

Lemma seg_sep_inj a b s t : has_byte slash a = false -> has_byte slash b = false ->
  a +:+ String slash s = b +:+ String slash t -> a = b /\ s = t.
Proof.
  revert b; induction a as [|x a IH]; intros [|y b]; rewrite ?has_byte_cons; cbn.
  - intros; simplify_eq; done.
  - intros _ [Hy _]%orb_false_iff H. simplify_eq.
  - intros [Hy _]%orb_false_iff _ H. simplify_eq.
  - intros [_ Ha]%orb_false_iff [_ Hb]%orb_false_iff H. simplify_eq.
    destruct (IH b) as [-> ->]; done.
Qed.

(** String prefix on canonical paths is list prefix on segments. *)
Lemma render_prefix l l' : forallb plain_seg l = true -> forallb plain_seg l' = true ->
  (exists r, render_tail l' = render_tail l +:+ String slash r) <-> exists x k, l' = l ++ x :: k.
Proof.
  revert l'; induction l as [|a l IH]; intros l' Hl Hl'.
  - cbn. split; [|intros (x & k & ->); cbn; eauto].
    destruct l' as [|x k]; [intros [r Hr]; discriminate|eauto].
  - cbn [forallb] in Hl. apply andb_true_iff in Hl as [Ha Hl]. apply plain_seg_spec in Ha as (_ & _ & _ & Ha).
    destruct l' as [|b l']; [split; [intros [r Hr]; discriminate Hr | intros (x & k & ?); discriminate]|].
    cbn [forallb] in Hl'. apply andb_true_iff in Hl' as [Hb Hl']. apply plain_seg_spec in Hb as (_ & _ & _ & Hb).
    split.
    + intros [r Hr]. cbn in Hr. injection Hr as Hr. rewrite append_assoc in Hr.
      assert (exists s, render_tail l +:+ String slash r = String slash s) as [s Es].
      { destruct l; cbn; eauto. }
      rewrite Es in Hr.
      destruct l' as [|c l'].
      { cbn in Hr. rewrite append_nil_r in Hr. subst b. by rewrite has_byte_app, has_byte_cons, orb_true_r in Hb. }
      cbn [render_tail] in Hr. change ("/" +:+ (c +:+ render_tail l')) with (String slash (c +:+ render_tail l')) in Hr.
      apply seg_sep_inj in Hr as [-> Hr]; [|done..].
      destruct (proj1 (IH (c :: l') Hl Hl')) as (x & k & ->).
      { exists r. rewrite Es, <- Hr. done. }
      by exists x, k.
    + intros (x & k & E). cbn in E. simplify_eq.
      destruct (proj2 (IH (l ++ x :: k) Hl Hl')) as [r Hr]; [eauto|].
      exists r. cbn. by rewrite Hr, !append_assoc.
Qed.

(** ** Directory and base name of a canonical path *)
Lemma split_last_no s : has_byte slash s = false -> split_last s = ("", s).
Proof.
  induction s as [|a s IH]; [done|]. rewrite has_byte_cons. intros [Ha Hs]%orb_false_iff.
  cbn. rewrite IH by done. cbn. by rewrite Ascii.eqb_sym, Ha.
Qed.

Lemma split_last_app a b : has_byte slash b = false ->
  split_last (a +:+ String slash b) = (a +:+ "/", b).
Proof.
  intros Hb. induction a as [|x a IH]; cbn [String.append split_last].
  - by rewrite split_last_no.
  - rewrite IH. by destruct a.
Qed.

Lemma trim_right_byte_id c a b : has_byte c b = false -> b <> "" ->
  trim_right_byte c (a +:+ b) = a +:+ b.
Proof.
  intros Hb Hne. assert (trim_right_byte c b = b) as Hid.
  { clear Hne a. induction b as [|x b IH]; [done|]. rewrite has_byte_cons in Hb.
    apply orb_false_iff in Hb as [Hx Hb]. cbn. rewrite IH by done.
    rewrite Ascii.eqb_sym, Hx. by destruct b. }
  induction a as [|x a IH]; [done|]. cbn [String.append trim_right_byte]. rewrite IH.
  destruct (a +:+ b) eqn:E; [|done]. by apply append_eq_nil in E as [_ ->].
Qed.

Lemma render_snoc l x : render (l ++ [x]) = render_tail l +:+ String slash x.
Proof.
  assert (render (l ++ [x]) = render_tail (l ++ [x])) as -> by by destruct l.
  rewrite render_tail_app. cbn. by rewrite append_nil_r.
Qed.

Lemma path_base_snoc l x : plain_seg x = true -> path_base (render (l ++ [x])) = x.
Proof.
  intros (Hne & _ & _ & Hx)%plain_seg_spec. rewrite render_snoc. unfold path_base.
  replace (render_tail l +:+ String slash x) with ((render_tail l +:+ "/") +:+ x) by (by rewrite append_assoc).
  rewrite trim_right_byte_id by done. rewrite append_assoc. cbn [String.append].
  change (String "/" x) with (String slash x). rewrite split_last_app by done. cbn [snd].
  apply String.eqb_neq in Hne as ->.
  by destruct (String.eqb_spec (render_tail l +:+ String slash x) "") as [[_ ?]%append_eq_nil|].
Qed.

Lemma clean_segs_slash l : forallb plain_seg l = true -> clean_segs true (render_tail l +:+ "/") = l.
Proof.
  intros H. destruct l as [|b l']; [done|]. set (l := b :: l') in *.
  unfold clean_segs.
  assert (forall w m, has_byte slash w = false -> forallb plain_seg m = true ->
            split_on slash (w +:+ (render_tail m +:+ "/")) = w :: m ++ [""]) as Hs.
  { clear. intros w m. revert w; induction m as [|x m IH]; intros w Hw Hm.
    - cbn [render_tail String.append]. change "/" with (String slash ""). by rewrite split_on_app.
    - cbn [forallb] in Hm. apply andb_true_iff in Hm as [Hx Hm].
      cbn [render_tail]. rewrite !append_assoc.
      change ("/" +:+ (x +:+ (render_tail m +:+ "/"))) with (String slash (x +:+ (render_tail m +:+ "/"))).
      rewrite split_on_app by done. rewrite IH; [done| |done].
      by apply plain_seg_spec in Hx as (_ & _ & _ & ?). }
  change (render_tail l +:+ "/") with ("" +:+ (render_tail l +:+ "/")). rewrite (Hs "" l) by done.
  cbn [fold_left]. change (clean_step true [] "") with (@nil string).
  rewrite fold_left_app, (clean_fold_plain l), app_nil_r by done. cbn [fold_left].
  change (clean_step true (rev l) "") with (rev l). by rewrite rev_involutive.
Qed.

Lemma path_dir_snoc l x : forallb plain_seg l = true -> plain_seg x = true ->
  path_dir (render (l ++ [x])) = render l.
Proof.
  intros Hl (_ & _ & _ & Hx)%plain_seg_spec. rewrite render_snoc. unfold path_dir.
  rewrite split_last_app by done. cbn [fst].
  rewrite path_clean_rooted by by destruct l. by rewrite clean_segs_slash.
Qed.

Lemma path_dir_root : path_dir "/" = "/".
Proof. done. Qed.

(** ** Joining *)
Lemma trim_prefix_slash x : has_byte slash x = false -> trim_prefix x "/" = x.
Proof.
  intros Hx. apply trim_prefix_no, not_true_is_false. intros [r ->]%has_prefix_spec.
  by rewrite has_byte_app in Hx.
Qed.

Lemma join_render l x : forallb plain_seg l = true -> has_byte slash x = false ->
  joinVirtualPath (render l) x = render (l ++ [x]).
Proof.
  intros Hl Hx. unfold joinVirtualPath. rewrite trim_prefix_slash by done.
  destruct (String.eqb_spec (render l) "/") as [E|E].
  - apply (render_inj l []) in E as ->; [|done..]. cbn. by rewrite append_nil_r.
  - rewrite render_snoc. destruct l; [done|]. done.
Qed.

Lemma validateFileName_ok name : validateFileName name = Ok tt ->
  plain_seg name = true /\ has_byte slash name = false.
Proof.
  unfold validateFileName. destruct (_ || _) eqn:E; [discriminate|]. intros _.
  rewrite !orb_false_iff, !String.eqb_neq in E. destruct E as [[[[H1 H2] _] H3] H4].
  split; [|done]. by apply plain_seg_spec.
Qed.

(** ** The sub-path relation *)
Lemma isSubPath_render lb lt : good_segs lb = true -> good_segs lt = true ->
  isSubPath (render lb) (render lt) = true <-> exists k, lt = lb ++ k.
Proof.
  intros Hb Ht. unfold isSubPath. rewrite !normalize_render by done.
  pose proof (good_segs_plain _ Hb) as Hb'. pose proof (good_segs_plain _ Ht) as Ht'.
  destruct (String.eqb_spec (render lb) "/") as [E|E].
  - apply (render_inj lb []) in E as ->; [|done..]. rewrite render_rooted. split; [by exists lt|done].
  - assert (lb <> []) by (by intros ->). rewrite orb_true_iff, String.eqb_eq, has_prefix_spec.
    assert (render lb = render_tail lb) as -> by by destruct lb.
    split.
    + intros [H1|[r Hr]].
      * assert (render lt = render lb) as Heq by (destruct lb; done).
        apply render_inj in Heq as ->; [|done..]. exists []. by rewrite app_nil_r.
      * destruct lt as [|a lt].
        { destruct lb as [|b lb]; [done|]. cbn in Hr. injection Hr as Hr.
          destruct (b +:+ _); discriminate. }
        rewrite append_assoc in Hr. change ("/" +:+ r) with (String slash r) in Hr.
        destruct (proj1 (render_prefix lb (a :: lt) Hb' Ht')) as (x & k & ->); [by exists r|]. by exists (x :: k).
    + intros [[|x k] ->]; [left; rewrite app_nil_r; by destruct lb|right].
      destruct (proj2 (render_prefix lb (lb ++ x :: k) Hb' Ht')) as [r Hr]; [eauto|].
      exists r. rewrite append_assoc. change ("/" +:+ r) with (String slash r). rewrite <- Hr. by destruct lb.
Qed.

(** The segments of any input, and sub-paths of any two inputs. *)
Definition segs (p : string) : list string := clean_segs true p.

Lemma normalize_Ok p q : normalizeVirtualPath p = Ok q -> q = render (segs p) /\ good_segs (segs p) = true.
Proof. rewrite normalize_unfold. unfold segs. repeat case_match; intros; simplify_eq; done. Qed.

Lemma isSubPath_spec b t : isSubPath b t = true <->
  is_ok (normalizeVirtualPath b) = true /\ is_ok (normalizeVirtualPath t) = true /\
  exists k, segs t = segs b ++ k.
Proof.
  destruct (normalizeVirtualPath b) as [nb|e] eqn:Eb.
  2:{ unfold isSubPath. rewrite Eb. split; [done | by intros [? _]]. }
  destruct (normalizeVirtualPath t) as [nt|e] eqn:Et.
  2:{ unfold isSubPath. rewrite Eb, Et. split; [done | by intros (_ & ? & _)]. }
  apply normalize_Ok in Eb as Hb. destruct Hb as [-> Hb]. apply normalize_Ok in Et as Ht. destruct Ht as [-> Ht].
  transitivity (isSubPath (render (segs b)) (render (segs t)) = true).
  - unfold isSubPath. by rewrite Eb, Et, !normalize_render.
  - rewrite isSubPath_render by done. naive_solver.
Qed.

Lemma isSubPath_refl p : canonical p -> isSubPath p p = true.
Proof. intros (l & Hl & ->). apply isSubPath_render; [done..|]. exists []. by rewrite app_nil_r. Qed.
Lemma isSubPath_trans a b c : isSubPath a b = true -> isSubPath b c = true -> isSubPath a c = true.
Proof.
  rewrite !isSubPath_spec. intros (? & ? & k & Hk) (_ & ? & k' & Hk'). repeat split; [done..|].
  exists (k ++ k'). by rewrite Hk', Hk, app_assoc.
Qed.
Lemma isSubPath_antisym a b : canonical a -> canonical b ->
  isSubPath a b = true -> isSubPath b a = true -> a = b.
Proof.
  intros (la & Ha & ->) (lb & Hb & ->). rewrite !isSubPath_render by done.
  intros [k ->] [k' E]. rewrite <- app_assoc in E. rewrite <- (app_nil_r la) in E at 1.
  apply app_inv_head in E. symmetry in E. apply app_eq_nil in E as [-> _]. by rewrite app_nil_r.
Qed.

(** ** Merging a mount path and an inner path *)
Lemma merge_render lm li : good_segs lm = true -> good_segs li = true ->
  mergeMountAndInnerPath (render lm) (render li) = render (lm ++ li).
Proof.
  intros Hm Hi. unfold mergeMountAndInnerPath, normalizeMountPath. rewrite !normalize_render by done.
  pose proof (good_segs_plain _ Hm). pose proof (good_segs_plain _ Hi).
  destruct (String.eqb_spec (render li) "/") as [E|E].
  - apply (render_inj li []) in E as ->; [|done..]. by rewrite app_nil_r.
  - destruct (String.eqb_spec (render lm) "/") as [E'|E'].
    + by apply (render_inj lm []) in E' as ->.
    + destruct lm as [|a lm]; [done|]. destruct li as [|b li]; [done|].
      change (render (a :: lm)) with (render_tail (a :: lm)). change (render (b :: li)) with (render_tail (b :: li)).
      by rewrite <- render_tail_app.
Qed.

Lemma good_segs_app l k : good_segs (l ++ k) = good_segs l && good_segs k.
Proof. apply forallb_app. Qed.

(** The inner path of a path below a mount: what the code obtains by
    trimming the mount path and putting the leading slash back. *)
Definition trim_mount (mount p : string) : string :=
  let inner := trim_prefix p mount in
  if String.eqb inner "" then "/"
  else if negb (has_prefix inner "/") then "/" +:+ inner else inner.

Lemma trim_mount_render lm k : good_segs lm = true -> good_segs k = true ->
  trim_mount (render lm) (render (lm ++ k)) = render k.
Proof.
  intros Hm Hk. unfold trim_mount. destruct lm as [|a lm].
  - destruct k as [|b k]; [done|]. cbn [app]. change (render (b :: k)) with ("/" +:+ (b +:+ render_tail k)).
    change (render []) with "/". rewrite trim_prefix_app.
    unfold good_segs in Hk. cbn [forallb] in Hk. apply andb_true_iff in Hk as [Hb _].
    apply good_plain, plain_seg_spec in Hb as (Hne & _ & _ & Hs).
    destruct b as [|c b]; [done|]. cbn [String.append String.eqb]. rewrite has_byte_cons in Hs.
    apply orb_false_iff in Hs as [Hc _]. rewrite has_prefix_cons. fold slash. by rewrite Hc.
  - change (render ((a :: lm) ++ k)) with (render_tail ((a :: lm) ++ k)). rewrite render_tail_app.
    change (render (a :: lm)) with (render_tail (a :: lm)). rewrite trim_prefix_app.
    by destruct k.
Qed.

(** ** Properties of virtual paths *)

Lemma snoc_or_nil {A} (l : list A) : l = [] \/ exists l' x, l = l' ++ [x].
Proof. destruct l as [|x l' _] using rev_ind; eauto. Qed.

Lemma normalize_snoc l x : good_segs l = true -> plain_seg x = true ->
  normalizeVirtualPath (render (l ++ [x])) =
  if contains x ".." then Err ErrPathInvalid else Ok (render (l ++ [x])).
Proof.
  intros Hl Hx. rewrite normalize_unfold, render_rooted, orb_true_r.
  rewrite clean_segs_render.
  - rewrite good_segs_app, Hl. unfold good_segs, good_seg. cbn. rewrite Hx. by destruct (contains x "..").
  - rewrite forallb_app, good_segs_plain by done. cbn. by rewrite Hx.
Qed.

(** C38: normalisation accepts the empty path and the absolute paths whose
    cleaned elements have no double dot; its result is the cleaned
    absolute path, contains no [".."], and is a fixed point; everything
    else is refused with [ErrPathInvalid]. *)
Theorem normalizeVirtualPath_spec input :
  match normalizeVirtualPath input with
  | Ok p => (input = "" \/ exists r, input = "/" +:+ r) /\
            p = render (segs input) /\ contains p ".." = false /\
            normalizeVirtualPath p = Ok p
  | Err e => e = ErrPathInvalid /\
             (input <> "" /\ has_prefix input "/" = false \/
              exists s, s ∈ segs input /\ contains s ".." = true)
  end.
Proof.
  destruct (normalizeVirtualPath input) as [p|e] eqn:E.
  - destruct (normalize_Ok _ _ E) as [-> Hg]. split_and!; [|done| |by apply normalize_render].
    + rewrite normalize_unfold in E. destruct (String.eqb_spec input "") as [Hi|_]; [auto|].
      destruct (has_prefix input "/") eqn:Hp; [|done]. right. by apply has_prefix_spec.
    + rewrite contains_dots. rewrite good_segs_split in Hg. apply andb_true_iff in Hg as [_ Hg].
      by apply negb_true_iff.
  - split; [by eapply normalize_err|]. rewrite normalize_unfold in E.
    destruct (String.eqb_spec input "") as [->|Hne]; [done|]. cbn in E.
    destruct (has_prefix input "/"); [|auto]. right.
    rewrite good_segs_split, clean_segs_plain in E. cbn in E.
    destruct (existsb _ _) eqn:Ex; [|done]. apply existsb_exists in Ex as (s & Hs & Hc).
    exists s. split; [by apply list_elem_of_In|done].
Qed.

(** the sub-path relation is "has the segments as a prefix": it holds
    only between valid paths, relates [/a] and [/a/b] and not [/a] and
    [/ab], and is a partial order on normalised paths. *)
Theorem isSubPath_order :
  (forall b t, isSubPath b t = true <->
     is_ok (normalizeVirtualPath b) = true /\ is_ok (normalizeVirtualPath t) = true /\
     exists k, segs t = segs b ++ k) /\
  (forall p q, normalizeVirtualPath p = Ok q -> isSubPath q q = true /\ isSubPath "/" q = true) /\
  (forall a b c, isSubPath a b = true -> isSubPath b c = true -> isSubPath a c = true) /\
  (forall a b na nb, normalizeVirtualPath a = Ok na -> normalizeVirtualPath b = Ok nb ->
     isSubPath a b = true -> isSubPath b a = true -> na = nb).
Proof.
  split_and!.
  - apply isSubPath_spec.
  - intros p q H. apply normalize_canonical in H. split; [by apply isSubPath_refl|].
    destruct H as (l & Hl & ->). apply (isSubPath_render []); [done..|eauto].
  - apply isSubPath_trans.
  - intros a b na nb Ha Hb. rewrite !isSubPath_spec. intros (_ & _ & k & H1) (_ & _ & k' & H2).
    apply normalize_Ok in Ha as [-> _], Hb as [-> _]. rewrite H1 in H2 |- *.
    rewrite <- app_assoc in H2. rewrite <- (app_nil_r (segs a)) in H2 at 1.
    apply app_inv_head in H2. symmetry in H2. apply app_eq_nil in H2 as [-> _]. by rewrite app_nil_r.
Qed.

(** Splitting a path into parent and name and joining them again gives
    the normalised path back, and joining a parent and a valid file name
    and splitting gives both back; a valid file name that contains [".."]
    (such as [a..b]) is the exception: its path is refused. *)
Theorem split_join_roundtrip :
  (forall p q d n, normalizeVirtualPath p = Ok q -> splitParentName p = Ok (d, n) ->
     if String.eqb q "/" then d = "/" /\ n = ""
     else joinVirtualPath d n = q /\ n <> "" /\ isSubPath d q = true /\ normalizeVirtualPath d = Ok d) /\
  (forall d n, normalizeVirtualPath d = Ok d -> validateFileName n = Ok tt ->
     splitParentName (joinVirtualPath d n) =
     if contains n ".." then Err ErrPathInvalid else Ok (d, n)).
Proof.
  split.
  - intros p q d n Hp. unfold splitParentName. rewrite Hp.
    destruct (String.eqb_spec q "/") as [->|Hq]; [by intros [= <- <-]|]. intros [= <- <-].
    apply normalize_canonical in Hp as (l & Hg & ->).
    destruct (snoc_or_nil l) as [->|(l' & x & ->)]; [done|].
    rewrite good_segs_app in Hg. apply andb_true_iff in Hg as [Hl Hx].
    assert (plain_seg x = true) as Hpx.
    { unfold good_segs in Hx. cbn in Hx. rewrite andb_true_r in Hx. by apply good_plain. }
    assert (forallb plain_seg l' = true) as Hpl by by apply good_segs_plain.
    rewrite path_dir_snoc, path_base_snoc by done.
    apply plain_seg_spec in Hpx as (Hn & _ & _ & Hs).
    split_and!; [by apply join_render|done| |by apply normalize_render].
    apply isSubPath_render; [done| |eauto]. by rewrite good_segs_app, Hl.
  - intros d n Hd Hn. apply normalize_canonical in Hd as (l & Hl & ->).
    apply validateFileName_ok in Hn as [Hx Hs]. assert (forallb plain_seg l = true) as Hpl by by apply good_segs_plain.
    rewrite join_render by done. unfold splitParentName. rewrite normalize_snoc by done.
    destruct (contains n ".."); [done|].
    destruct (String.eqb_spec (render (l ++ [n])) "/") as [E|_].
    { apply (render_inj _ []) in E; [by destruct l| |done]. rewrite forallb_app, Hpl. cbn. by rewrite Hx. }
    by rewrite path_dir_snoc, path_base_snoc.
Qed.
