(* ===== verification/Mounts.v ===== *)
(** * The mount table

    [vfs_path.go] (resolution by longest prefix), [vfs_conflict.go] and
    [vfs_registry.go].  The source repository and the existence check on
    a backing store are parameters: they are I/O. *)
From S2P Require Import Prelude GoStrings Entities Paths.
From stdpp Require Import base list strings gmap sorting.
From Stdlib Require Import Lia.

Local Open Scope string_scope.
Local Open Scope list_scope.
Local Open Scope go_scope.

(** ** [vfs_types.go] *)
Record MountEntry := { me_MountPath : string; me_Source : option StorageSource }.

Record ResolvedPath := {
  rp_VirtualPath : string; rp_MatchedMountPath : string; rp_InnerPath : string;
  rp_Source : option StorageSource; rp_IsRealMount : bool; rp_IsPureVirtual : bool
}.

Record ProjectedVirtualDir := { pd_Name : string; pd_Path : string; pd_IsMountPoint : bool }.

(** ** [resolveVirtualPathByLongestPrefix] *)

(** The first loop: the index and normalised path of the longest mount
    the path lies under. *)
Fixpoint longest_mount (normalizedPath : string) (index : nat) (mounts : list MountEntry)
    (best : option nat * string) : result GoErr (option nat * string) :=
  match mounts with
  | [] => Ok best
  | mount :: rest =>
      match normalizeMountPath (me_MountPath mount) with
      | Err e => Err e
      | Ok normalizedMountPath =>
          let best' :=
            if negb (isSubPath normalizedMountPath normalizedPath) then best
            else if Nat.ltb (String.length (snd best)) (String.length normalizedMountPath)
                 then (Some index, normalizedMountPath) else best in
          longest_mount normalizedPath (S index) rest best'
      end
  end.

(** The second loop: is some mount strictly below the path? *)
Fixpoint any_mount_below (normalizedPath : string) (mounts : list MountEntry) : result GoErr bool :=
  match mounts with
  | [] => Ok false
  | mount :: rest =>
      match normalizeMountPath (me_MountPath mount) with
      | Err e => Err e
      | Ok normalizedMountPath =>
          if negb (String.eqb normalizedMountPath normalizedPath) &&
             isSubPath normalizedPath normalizedMountPath
          then Ok true else any_mount_below normalizedPath rest
      end
  end.

Definition resolveVirtualPathByLongestPrefix (virtualPath : string) (mounts : list MountEntry)
    : result GoErr ResolvedPath :=
  match normalizeVirtualPath virtualPath with
  | Err e => Err e
  | Ok normalizedPath =>
      match longest_mount normalizedPath 0 mounts (None, "") with
      | Err e => Err e
      | Ok (Some bestIndex, bestMountPath) =>
          let InnerPath := trim_prefix normalizedPath bestMountPath in
          Ok {| rp_VirtualPath := normalizedPath;
                rp_MatchedMountPath := bestMountPath;
                rp_InnerPath :=
                  if String.eqb InnerPath "" then "/"
                  else if negb (has_prefix InnerPath "/") then "/" +:+ InnerPath else InnerPath;
                rp_Source := match mounts !! bestIndex with Some m => me_Source m | None => None end;
                rp_IsRealMount := true; rp_IsPureVirtual := false |}
      | Ok (None, _) =>
          match any_mount_below normalizedPath mounts with
          | Err e => Err e
          | Ok below =>
              Ok {| rp_VirtualPath := normalizedPath; rp_MatchedMountPath := ""; rp_InnerPath := "";
                    rp_Source := None; rp_IsRealMount := false; rp_IsPureVirtual := below |}
          end
      end
  end.

(** ** [vfs_conflict.go] *)
Fixpoint mount_name_conflict (normalizedTargetPath : string) (mounts : list MountEntry)
    : result GoErr bool :=
  match mounts with
  | [] => Ok false
  | mount :: rest =>
      match normalizeMountPath (me_MountPath mount) with
      | Err e => Err e
      | Ok normalizedMountPath =>
          if String.eqb normalizedMountPath normalizedTargetPath then Ok true
          else if isSubPath normalizedTargetPath normalizedMountPath then Ok true
          else mount_name_conflict normalizedTargetPath rest
      end
  end.

Definition hasMountNameConflict (targetPath : string) (mounts : list MountEntry) : result GoErr bool :=
  match normalizeVirtualPath targetPath with
  | Err e => Err e
  | Ok normalizedTargetPath =>
      if String.eqb normalizedTargetPath "/" then Ok false
      else mount_name_conflict normalizedTargetPath mounts
  end.

Section Writable.
(** [sourcePathExists]: a stat on the backing store. *)
Context {W : Type} (sourcePathExists : StorageSource -> string -> M GoErr W bool).

Definition ensureWritableNameAvailable (targetPath : string) (mounts : list MountEntry)
    : M GoErr W unit :=
  conflict <-! lift_result (hasMountNameConflict targetPath mounts) ;;
  if (conflict : bool) then throw ErrNameConflict
  else
    resolved <-! lift_result (resolveVirtualPathByLongestPrefix targetPath mounts) ;;
    match rp_IsRealMount resolved, rp_Source resolved with
    | true, Some source =>
        exists_ <-! sourcePathExists source (rp_InnerPath resolved) ;;
        if (exists_ : bool) then throw ErrNameConflict else ret tt
    | _, _ => ret tt
    end.
End Writable.

(** ** [vfs_registry.go] *)
Fixpoint buildMountEntries (sources : list StorageSource) : result GoErr (list MountEntry) :=
  match sources with
  | [] => Ok []
  | source :: rest =>
      let mountPath :=
        if String.eqb (src_MountPath source) "" && negb (String.eqb (src_WebDAVSlug source) "")
        then "/" +:+ src_WebDAVSlug source else src_MountPath source in
      if String.eqb mountPath "" then buildMountEntries rest
      else match normalizeMountPath mountPath with
           | Err e => Err e
           | Ok normalizedMountPath =>
               match buildMountEntries rest with
               | Err e => Err e
               | Ok items =>
                   Ok ({| me_MountPath := normalizedMountPath; me_Source := Some source |} :: items)
               end
           end
  end.

(** The directory one mount projects below [normalizedPrefix], if any. *)
Definition project_child (normalizedPrefix : string) (mount : MountEntry) : option ProjectedVirtualDir :=
  if String.eqb (me_MountPath mount) normalizedPrefix then None
  else if negb (isSubPath normalizedPrefix (me_MountPath mount)) then None
  else
    let relative := trim_prefix (trim_prefix (me_MountPath mount) normalizedPrefix) "/" in
    if String.eqb relative "" then None
    else
      let name := match split_on slash relative with w :: _ => w | [] => "" end in
      if String.eqb name "" then None
      else
        let childPath := joinVirtualPath normalizedPrefix name in
        Some {| pd_Name := name; pd_Path := childPath;
                pd_IsMountPoint := String.eqb childPath (me_MountPath mount) |}.

Definition project_step (normalizedPrefix : string) (children : gmap string ProjectedVirtualDir)
    (mount : MountEntry) : gmap string ProjectedVirtualDir :=
  match project_child normalizedPrefix mount with
  | None => children
  | Some d =>
      match children !! pd_Name d with
      | Some existing => if pd_IsMountPoint existing then children else <[pd_Name d := d]> children
      | None => <[pd_Name d := d]> children
      end
  end.

Definition dir_le (a b : ProjectedVirtualDir) : Prop := String.le (pd_Name a) (pd_Name b).
#[export] Instance dir_le_dec : RelDecision dir_le.
Proof. intros a b. unfold dir_le. apply _. Defined.

Definition projectVirtualDirsFromMounts (prefix : string) (mounts : list MountEntry)
    : result GoErr (list ProjectedVirtualDir) :=
  match normalizeVirtualPath prefix with
  | Err e => Err e
  | Ok normalizedPrefix =>
      let children := fold_left (project_step normalizedPrefix) mounts ∅ in
      Ok (merge_sort dir_le (map snd (map_to_list children)))
  end.

Section Registry.
Context {W : Type} (ListAll ListEnabled : M GoErr W (list StorageSource)).

Definition ListAllMounts : M GoErr W (list MountEntry) :=
  sources <-! ListAll ;; lift_result (buildMountEntries sources).
Definition ListEnabledMounts : M GoErr W (list MountEntry) :=
  sources <-! ListEnabled ;; lift_result (buildMountEntries sources).

Fixpoint mount_path_conflict (normalizedMountPath : string) (excludeID : N) (mounts : list MountEntry) : bool :=
  match mounts with
  | [] => false
  | mount :: rest =>
      if match me_Source mount with Some s => N.eqb (src_ID s) excludeID | None => false end
      then mount_path_conflict normalizedMountPath excludeID rest
      else if String.eqb (me_MountPath mount) normalizedMountPath then true
      else mount_path_conflict normalizedMountPath excludeID rest
  end.

Definition HasMountPathConflict (mountPath : string) (excludeID : N) : M GoErr W bool :=
  normalizedMountPath <-! lift_result (normalizeMountPath mountPath) ;;
  mounts <-! ListAllMounts ;;
  ret (mount_path_conflict normalizedMountPath excludeID mounts).

Definition ProjectVirtualDirs (prefix : string) : M GoErr W (list ProjectedVirtualDir) :=
  mounts <-! ListEnabledMounts ;; lift_result (projectVirtualDirsFromMounts prefix mounts).
Definition ProjectVirtualChildren (prefix : string) : M GoErr W (list string) :=
  projected <-! ProjectVirtualDirs prefix ;; ret (map pd_Name projected).
End Registry.

(** ** Resolution *)

(** [m] is a mount whose normalised path is [nm] and contains [p]. *)
Definition mount_covers (m : MountEntry) (nm p : string) : Prop :=
  normalizeMountPath (me_MountPath m) = Ok nm /\ isSubPath nm p = true.

Lemma longest_mount_spec p mounts idx best r :
  longest_mount p idx mounts best = Ok r ->
  String.length (snd best) <= String.length (snd r) /\
  (r = best \/ exists i m, mounts !! i = Some m /\ mount_covers m (snd r) p /\
                     fst r = Some (idx + i) /\ String.length (snd best) < String.length (snd r)) /\
  (forall m nm, m ∈ mounts -> mount_covers m nm p -> String.length nm <= String.length (snd r)).
Proof.
  revert idx best; induction mounts as [|m rest IH]; intros idx best H; cbn [longest_mount] in H.
  - simplify_eq. split_and!; [done|auto|]. intros m nm Hm. by apply elem_of_nil in Hm.
  - destruct (normalizeMountPath (me_MountPath m)) as [nm|e] eqn:En; [|done].
    set (best' := if negb (isSubPath nm p) then best else _) in H.
    assert (best' = best \/ best' = (Some idx, nm) /\ isSubPath nm p = true /\
              String.length (snd best) < String.length nm) as Hb.
    { subst best'. destruct (isSubPath nm p); cbn [negb]; [|auto]. 
      destruct (Nat.ltb_spec (String.length (snd best)) (String.length nm)); [right|left]; done. }
    assert (isSubPath nm p = true -> String.length nm <= String.length (snd best')) as Hle.
    { subst best'. intros ->; cbn [negb]. destruct (Nat.ltb_spec (String.length (snd best)) (String.length nm)); cbn; lia. }
    apply IH in H as (H1 & H2 & H3). clear IH. clearbody best'.
    split_and!.
    + destruct Hb as [->|(-> & _ & ?)]; cbn in *; lia.
    + destruct H2 as [->|(i & m' & Hi & Hc & Hf & Hl)].
      * destruct Hb as [->|(-> & Hs & Hlt)]; [auto|]. right. exists 0, m. cbn. rewrite Nat.add_0_r. done.
      * right. exists (S i), m'. cbn. split_and!; [done..| |].
        -- rewrite Hf. f_equal. lia.
        -- destruct Hb as [->|(-> & _ & ?)]; cbn in *; lia.
    + intros m' nm' [->|Hm]%elem_of_cons [Hn Hs].
      * rewrite Hn in En. simplify_eq. specialize (Hle Hs). lia.
      * by apply (H3 m').
Qed.

Lemma any_mount_below_spec p mounts b : any_mount_below p mounts = Ok b ->
  (b = true <-> exists m nm, m ∈ mounts /\ normalizeMountPath (me_MountPath m) = Ok nm /\
                       nm <> p /\ isSubPath p nm = true) \/
  exists m e, m ∈ mounts /\ normalizeMountPath (me_MountPath m) = Err e.
Proof.
  induction mounts as [|m rest IH]; cbn.
  - intros; simplify_eq. left. split; [done|]. intros (m & nm & Hm & _). by apply elem_of_nil in Hm.
  - destruct (normalizeMountPath (me_MountPath m)) as [nm|e] eqn:En; [|done].
    destruct (String.eqb_spec nm p) as [E|E]; cbn.
    + intros H. apply IH in H as [H|(m' & e & ? & ?)]; [left|right; exists m', e; set_solver].
      rewrite H. split; intros (m' & nm' & Hm & ? & ? & ?); [exists m', nm'; set_solver|].
      apply elem_of_cons in Hm as [->|Hm]; [congruence|]. by exists m', nm'.
    + destruct (isSubPath p nm) eqn:Es.
      * intros; simplify_eq. left. split; [|done]. intros _. exists m, nm. set_solver.
      * intros H. apply IH in H as [H|(m' & e & ? & ?)]; [left|right; exists m', e; set_solver].
        rewrite H. split; intros (m' & nm' & Hm & ? & ? & ?); [exists m', nm'; set_solver|].
        apply elem_of_cons in Hm as [->|Hm]; [congruence|]. by exists m', nm'.
Qed.

Lemma longest_mount_ok p mounts idx best r m :
  longest_mount p idx mounts best = Ok r -> m ∈ mounts -> is_ok (normalizeMountPath (me_MountPath m)) = true.
Proof.
  revert idx best; induction mounts as [|m' rest IH]; intros idx best H Hm; [by apply elem_of_nil in Hm|].
  cbn in H. destruct (normalizeMountPath (me_MountPath m')) eqn:E; [|done].
  apply elem_of_cons in Hm as [->|Hm]; [by rewrite E|eauto].
Qed.

Lemma canonical_nonempty p : canonical p -> 0 < String.length p.
Proof. intros (l & _ & ->). destruct l; cbn; lia. Qed.

Lemma merge_trim_mount nm p : canonical nm -> canonical p -> isSubPath nm p = true ->
  mergeMountAndInnerPath nm (trim_mount nm p) = p /\ canonical (trim_mount nm p).
Proof.
  intros (lm & Hm & ->) (lp & Hp & ->). rewrite isSubPath_render by done. intros [k ->].
  rewrite good_segs_app in Hp. apply andb_true_iff in Hp as [_ Hk].
  rewrite trim_mount_render, merge_render by done. split; [done|]. by exists k.
Qed.

(** What a successful resolution says about the chosen mount. *)
Definition resolved_well (mounts : list MountEntry) (r : ResolvedPath) : Prop :=
  if rp_IsRealMount r then
    rp_IsPureVirtual r = false /\
    (exists m, m ∈ mounts /\ mount_covers m (rp_MatchedMountPath r) (rp_VirtualPath r) /\
               rp_Source r = me_Source m) /\
    (forall m nm, m ∈ mounts -> mount_covers m nm (rp_VirtualPath r) ->
       isSubPath nm (rp_MatchedMountPath r) = true) /\
    canonical (rp_InnerPath r) /\
    mergeMountAndInnerPath (rp_MatchedMountPath r) (rp_InnerPath r) = rp_VirtualPath r
  else
    (forall m nm, m ∈ mounts -> ~ mount_covers m nm (rp_VirtualPath r)) /\
    rp_Source r = None /\
    (rp_IsPureVirtual r = true <->
     exists m nm, m ∈ mounts /\ normalizeMountPath (me_MountPath m) = Ok nm /\
            nm <> rp_VirtualPath r /\ isSubPath (rp_VirtualPath r) nm = true).

Lemma covers_canonical m nm p : mount_covers m nm p -> canonical nm.
Proof. intros [H _]. by eapply normalize_canonical. Qed.

(** Of two mounts above one path the shorter one is above the longer. *)
Lemma subpath_length a b p : canonical a -> canonical b -> canonical p ->
  isSubPath a p = true -> isSubPath b p = true -> String.length a <= String.length b ->
  isSubPath a b = true.
Proof.
  intros (la & Ha & ->) (lb & Hb & ->) (lp & Hp & ->). rewrite !isSubPath_render by done.
  intros [k ->] [k' E] Hlen. revert Hlen.
  destruct (decide (length la <= length lb)) as [Hl|Hl].
  - intros _. assert (la = take (length la) lb) as ->.
    { apply (f_equal (take (length la))) in E. rewrite take_app_length in E.
      rewrite take_app_le in E by lia. done. }
    exists (drop (length la) lb). by rewrite take_drop.
  - assert (lb = take (length lb) la) as E'.
    { apply (f_equal (take (length lb))) in E. rewrite take_app_length in E.
      rewrite take_app_le in E by lia. done. }
    assert (exists x d, la = lb ++ x :: d) as (x & d & ->).
    { destruct (drop (length lb) la) as [|x d] eqn:Ed.
      - apply (f_equal length) in Ed. rewrite length_drop in Ed. cbn in Ed. lia.
      - exists x, d. rewrite <- Ed. rewrite E' at 1. by rewrite take_drop. }
    intros Hlen. exfalso. revert Hlen.
    change (render (lb ++ x :: d)) with (render (lb ++ x :: d)).
    assert (forall l, String.length (render_tail l) <= String.length (render l)) as Hr by (intros [|]; cbn; lia).
    assert (render (lb ++ x :: d) = render_tail lb +:+ render_tail (x :: d)) as ->.
    { rewrite <- render_tail_app. by destruct lb. }
    assert (plain_seg x = true) as Hx.
    { apply good_segs_plain in Ha. rewrite forallb_app in Ha. apply andb_true_iff in Ha as [_ Ha].
      cbn in Ha. by apply andb_true_iff in Ha as [? _]. }
    apply plain_seg_spec in Hx as (Hx & _). rewrite length_append. destruct x as [|c x]; [done|].
    destruct lb; cbn; rewrite ?length_append; cbn; lia.
Qed.

Lemma resolve_well vp mounts r :
  resolveVirtualPathByLongestPrefix vp mounts = Ok r ->
  normalizeVirtualPath vp = Ok (rp_VirtualPath r) /\ resolved_well mounts r.
Proof.
  unfold resolveVirtualPathByLongestPrefix, resolved_well.
  destruct (normalizeVirtualPath vp) as [p|e] eqn:En; [|done].
  apply normalize_canonical in En as Hp.
  destruct (longest_mount p 0 mounts (None, "")) as [[[i|] nm]|e] eqn:El; [| |done].
  - intros; simplify_eq; cbn -[resolved_well]. split; [done|].
    destruct (longest_mount_spec _ _ _ _ _ El) as (_ & [H|(j & m & Hj & Hc & Hf & _)] & Hmax); [done|].
    cbn in *. simplify_eq. rewrite Hj.
    apply covers_canonical in Hc as Hcan.
    split_and!; [done| | | |].
    + exists m. split_and!; [by eapply list_elem_of_lookup_2|done..].
    + intros m' nm' Hm' Hc'. apply (subpath_length _ _ p); [by eapply covers_canonical|done..|apply Hc'|apply Hc|eauto].
    + apply merge_trim_mount; [done..|apply Hc].
    + apply (merge_trim_mount nm p); [done..|apply Hc].
  - destruct (any_mount_below p mounts) as [b|e] eqn:Eb; [|done]. intros; simplify_eq; cbn.
    destruct (longest_mount_spec _ _ _ _ _ El) as (_ & [H|(j & m & _ & _ & Hf & _)] & Hmax); [|done].
    simplify_eq. split; [done|]. split_and!; [|done|].
    + intros m nm Hm Hc. pose proof (Hmax m nm Hm Hc) as Hle. apply covers_canonical, canonical_nonempty in Hc. cbn in Hle. lia.
    + destruct (any_mount_below_spec _ _ _ Eb) as [?|(m & e & Hm & He)]; [done|].
      pose proof (longest_mount_ok _ _ _ _ _ _ El Hm). by rewrite He in *.
Qed.

(** ** Projection of virtual directories *)
Lemma project_child_spec lp lm src :
  good_segs lp = true -> good_segs lm = true ->
  project_child (render lp) {| me_MountPath := render lm; me_Source := src |} =
  match drop (length lp) lm with
  | x :: k => if decide (lm = lp ++ x :: k)
              then Some {| pd_Name := x; pd_Path := render (lp ++ [x]);
                           pd_IsMountPoint := bool_decide (k = []) |}
              else None
  | [] => None
  end.
Proof.
  intros Hp Hm. unfold project_child; cbn [me_MountPath].
  pose proof (good_segs_plain _ Hp) as Hpp. pose proof (good_segs_plain _ Hm) as Hmp.
  destruct (String.eqb_spec (render lm) (render lp)) as [E|E].
  { apply render_inj in E as ->; [|done..]. by rewrite drop_all. }
  destruct (isSubPath (render lp) (render lm)) eqn:Es; cbn [negb].
  - apply (isSubPath_render _ _ Hp Hm) in Es as [[|x k] ->]; [by rewrite app_nil_r in E|].
    rewrite drop_app_length. rewrite decide_True by done.
    assert (trim_prefix (trim_prefix (render (lp ++ x :: k)) (render lp)) "/" = x +:+ render_tail k) as Htrim.
    { assert (has_byte slash x = false) as Hx.
      { rewrite forallb_app in Hmp. apply andb_true_iff in Hmp as [_ Hmp]. cbn in Hmp.
        apply andb_true_iff in Hmp as [Hx _]. apply plain_seg_spec in Hx; tauto. }
      destruct lp as [|a lp].
      - cbn [app]. change (render (x :: k)) with ("/" +:+ (x +:+ render_tail k)).
        change (render []) with "/". rewrite trim_prefix_app. apply trim_prefix_no.
        apply not_true_is_false. intros [r Hr]%has_prefix_spec.
        destruct x as [|c x]; [|cbn in Hr; injection Hr as -> _; by rewrite has_byte_cons in Hx].
        rewrite forallb_app in Hmp. discriminate Hmp.
      - change (render ((a :: lp) ++ x :: k)) with (render_tail ((a :: lp) ++ x :: k)). rewrite render_tail_app.
        change (render (a :: lp)) with (render_tail (a :: lp)). by rewrite !trim_prefix_app. }
    rewrite Htrim. rewrite forallb_app in Hmp. apply andb_true_iff in Hmp as [_ Hmp].
    cbn [forallb] in Hmp. apply andb_true_iff in Hmp as [Hx Hk]. apply plain_seg_spec in Hx as (Hne & _ & _ & Hx).
    destruct (String.eqb_spec (x +:+ render_tail k) "") as [[? _]%append_eq_nil|_]; [done|].
    assert (match split_on slash (x +:+ render_tail k) with w :: _ => w | [] => "" end = x) as ->.
    { destruct k as [|y k]; cbn [render_tail].
      - by rewrite append_nil_r, split_on_no.
      - change ("/" +:+ (y +:+ render_tail k)) with (String slash (y +:+ render_tail k)).
        by rewrite split_on_app. }
    destruct (String.eqb_spec x ""); [done|]. rewrite join_render by done.
    f_equal. f_equal. apply Bool.eq_iff_eq_true. rewrite String.eqb_eq, bool_decide_eq_true.
    split; [|by intros ->]. intros Heq. apply render_inj in Heq.
    + by apply app_inv_head in Heq as [=].
    + rewrite forallb_app, Hpp. cbn. rewrite andb_true_r. apply plain_seg_spec.
      apply good_segs_plain in Hm. rewrite forallb_app in Hm. apply andb_true_iff in Hm as [_ Hm].
      cbn [forallb] in Hm. apply andb_true_iff in Hm as [Hm _]. by apply plain_seg_spec in Hm.
    + by apply good_segs_plain.
  - destruct (drop (length lp) lm) as [|x k] eqn:Ed; [done|]. destruct (decide _) as [->|]; [|done].
    exfalso. apply not_true_iff_false in Es. apply Es. apply isSubPath_render; [done..|]. by eexists.
Qed.

(** Some mount lies strictly below the prefix, in its child [x]. *)
Definition below_as (lp : list string) (mounts : list MountEntry) (x : string) : Prop :=
  exists m k, m ∈ mounts /\ me_MountPath m = render (lp ++ x :: k) /\ good_segs (lp ++ x :: k) = true.
Definition mounted_at (mounts : list MountEntry) (p : string) : bool :=
  existsb (fun m => String.eqb p (me_MountPath m)) mounts.
Definition canonical_mounts (mounts : list MountEntry) : Prop :=
  Forall (fun m => canonical (me_MountPath m)) mounts.

(** The entry of the [children] map for [x] after the mounts seen so far. *)
Definition child_ok (lp : list string) (seen : list MountEntry) (x : string)
    (c : option ProjectedVirtualDir) : Prop :=
  match c with
  | Some d => d = {| pd_Name := x; pd_Path := render (lp ++ [x]);
                     pd_IsMountPoint := mounted_at seen (render (lp ++ [x])) |} /\ below_as lp seen x
  | None => ~ below_as lp seen x
  end.
Definition children_ok (lp : list string) (seen : list MountEntry)
    (children : gmap string ProjectedVirtualDir) : Prop :=
  forall x, child_ok lp seen x (children !! x).

Lemma mounted_at_snoc a m p : mounted_at (a ++ [m]) p = mounted_at a p || String.eqb p (me_MountPath m).
Proof. unfold mounted_at. rewrite existsb_app. cbn. by rewrite orb_false_r. Qed.

Lemma below_as_snoc lp seen m lm x : me_MountPath m = render lm -> good_segs lm = true ->
  below_as lp (seen ++ [m]) x <-> below_as lp seen x \/ exists k, lm = lp ++ x :: k.
Proof.
  intros Em Hm. unfold below_as. split.
  - intros (m' & k & [Hin|Hin%list_elem_of_singleton]%elem_of_app & E & Hg); [left; eauto|right; subst m'].
    exists k. rewrite Em in E. by apply render_inj in E; [|apply good_segs_plain..].
  - intros [(m' & k & Hin & E)|[k ->]]; [exists m', k | exists m, k]; set_solver.
Qed.

Lemma good_snoc lp x k : good_segs (lp ++ x :: k) = true -> good_segs (lp ++ [x]) = true.
Proof.
  rewrite !good_segs_app. unfold good_segs. cbn. rewrite ?andb_true_r, !andb_true_iff. tauto.
Qed.

Lemma not_mounted_at lp lm m x : me_MountPath m = render lm -> good_segs lm = true ->
  good_segs (lp ++ [x]) = true -> lm <> lp ++ [x] -> String.eqb (render (lp ++ [x])) (me_MountPath m) = false.
Proof.
  intros -> Hm Hx Hne. apply String.eqb_neq. intros E. apply Hne. symmetry.
  by apply render_inj in E; [|apply good_segs_plain..].
Qed.

(** A mount outside child [x] leaves its entry right. *)
Lemma child_ok_other lp seen m lm x c :
  me_MountPath m = render lm -> good_segs lm = true -> (forall k, lm <> lp ++ x :: k) ->
  child_ok lp seen x c -> child_ok lp (seen ++ [m]) x c.
Proof.
  intros Em Hm Hno. destruct c as [d|]; cbn; rewrite (below_as_snoc _ _ _ _ _ Em Hm).
  - intros [-> Hb]. split; [|auto]. f_equal. destruct Hb as (m' & k & _ & _ & Hg).
    rewrite mounted_at_snoc, (not_mounted_at lp lm m x), orb_false_r; [done..| |by apply Hno].
    by eapply good_snoc.
  - intros Hn [?|[k ?]]; [done|by eapply Hno].
Qed.

(** A mount in child [x] sets or keeps its entry. *)
Lemma child_ok_hit lp seen m x k c :
  me_MountPath m = render (lp ++ x :: k) -> good_segs (lp ++ x :: k) = true -> child_ok lp seen x c ->
  let d := {| pd_Name := x; pd_Path := render (lp ++ [x]); pd_IsMountPoint := bool_decide (k = []) |} in
  child_ok lp (seen ++ [m]) x
    (match c with Some e => if pd_IsMountPoint e then Some e else Some d | None => Some d end).
Proof.
  intros Em Hg Hc d.
  assert (below_as lp (seen ++ [m]) x) as Hbelow by (apply (below_as_snoc _ _ _ _ _ Em Hg); eauto).
  assert (mounted_at (seen ++ [m]) (render (lp ++ [x])) =
          mounted_at seen (render (lp ++ [x])) || bool_decide (k = [])) as Hnow.
  { rewrite mounted_at_snoc. f_equal. destruct (decide (k = [])) as [->|Hk].
    - rewrite bool_decide_true by done. rewrite Em. apply String.eqb_refl.
    - rewrite bool_decide_false by done. eapply not_mounted_at; [done|done|by eapply good_snoc|].
      intros Heq%app_inv_head. congruence. }
  destruct c as [e|]; cbn in Hc.
  - destruct Hc as [-> _]. cbn [pd_IsMountPoint]. destruct (mounted_at seen (render (lp ++ [x])));
      unfold child_ok; by rewrite Hnow.
  - cbn. rewrite Hnow. split; [|done]. unfold d. f_equal.
    destruct (mounted_at seen (render (lp ++ [x]))) eqn:Es; [|done]. exfalso. apply Hc.
    apply existsb_exists in Es as (m' & Hin & He%String.eqb_eq). exists m', [].
    apply list_elem_of_In in Hin. split_and!; [done..|by eapply good_snoc].
Qed.

Lemma project_step_ok lp seen children m :
  good_segs lp = true -> canonical (me_MountPath m) -> children_ok lp seen children ->
  children_ok lp (seen ++ [m]) (project_step (render lp) children m).
Proof.
  intros Hp (lm & Hm & Em) Hc. unfold project_step.
  assert (m = {| me_MountPath := render lm; me_Source := me_Source m |}) as E by (destruct m; cbn in *; by subst).
  destruct (project_child (render lp) m) as [d|] eqn:Ed; rewrite E, project_child_spec in Ed by done.
  - destruct (drop (length lp) lm) as [|y k]; [done|]. destruct (decide _) as [->|] in Ed; [|done].
    injection Ed as <-. cbn [pd_Name]. pose proof (child_ok_hit _ _ _ _ _ _ Em Hm (Hc y)) as Hhit. cbn zeta in Hhit.
    assert (forall x c, x <> y -> child_ok lp seen x c -> child_ok lp (seen ++ [m]) x c) as Hother.
    { intros x c Hx. apply (child_ok_other _ _ _ _ _ _ Em Hm). intros k' [=]%app_inv_head. congruence. }
    intros x. specialize (Hc x). destruct (decide (x = y)) as [->|Hx].
    + destruct (children !! y) as [e|] eqn:Ey; [destruct (pd_IsMountPoint e) |]; rewrite ?Ey, ?lookup_insert_eq; done.
    + destruct (children !! y) as [e|]; [destruct (pd_IsMountPoint e)|]; rewrite ?lookup_insert_ne by done; auto.
  - intros x. specialize (Hc x). apply (child_ok_other _ _ _ _ _ _ Em Hm); [|done]. intros k ->.
    rewrite drop_app_length in Ed. by destruct (decide _).
Qed.

Lemma project_fold_ok lp seen mounts children :
  good_segs lp = true -> canonical_mounts mounts -> children_ok lp seen children ->
  children_ok lp (seen ++ mounts) (fold_left (project_step (render lp)) mounts children).
Proof.
  intros Hp. revert seen children; induction mounts as [|m mounts IH]; intros seen children Hm Hc.
  - by rewrite app_nil_r.
  - inversion_clear Hm. rewrite cons_middle, app_assoc. cbn. apply IH; [done|]. by apply project_step_ok.
Qed.

#[export] Instance dir_le_total : Total dir_le.
Proof. intros a b. unfold dir_le. apply String.le_total. Qed.
#[export] Instance dir_le_trans : Transitive dir_le.
Proof. intros a b c. unfold dir_le. intros H1 H2. by etrans. Qed.

(** ** What the registry produces *)
Lemma normalizeMountPath_canonical p nm : normalizeMountPath p = Ok nm -> canonical nm.
Proof. apply normalize_canonical. Qed.

Lemma buildMountEntries_canonical sources mounts :
  buildMountEntries sources = Ok mounts -> canonical_mounts mounts.
Proof.
  revert mounts; induction sources as [|s rest IH]; intros mounts; cbn.
  { intros [= <-]. constructor. }
  destruct (String.eqb _ ""); [apply IH|].
  destruct (normalizeMountPath _) as [nm|] eqn:En; [|done].
  destruct (buildMountEntries rest) as [items|]; [|done].
  intros [= <-]. constructor; [by eapply normalizeMountPath_canonical|by apply IH].
Qed.

Lemma mount_name_conflict_canonical p mounts : canonical p -> canonical_mounts mounts ->
  mount_name_conflict p mounts = Ok (existsb (fun m => isSubPath p (me_MountPath m)) mounts).
Proof.
  intros Hp. induction 1 as [|m rest Hm _ IH]; [done|]. cbn.
  change (normalizeMountPath (me_MountPath m)) with (normalizeVirtualPath (me_MountPath m)).
  rewrite (canonical_normalize _ Hm).
  destruct (String.eqb_spec (me_MountPath m) p) as [->|_]; [by rewrite isSubPath_refl|].
  destruct (isSubPath p (me_MountPath m)); [done|apply IH].
Qed.

Lemma mount_below_iff p mounts : canonical p -> canonical_mounts mounts ->
  existsb (fun m => isSubPath p (me_MountPath m)) mounts = true <->
  exists m, m ∈ mounts /\ isSubPath p (me_MountPath m) = true.
Proof.
  intros _ _. rewrite existsb_exists. split; intros (m & Hm & H); exists m; split; try done;
    by apply list_elem_of_In.
Qed.

Lemma canonical_mounts_ok mounts m :
  canonical_mounts mounts -> m ∈ mounts -> normalizeMountPath (me_MountPath m) = Ok (me_MountPath m).
Proof. intros Hc Hm. eapply Forall_forall in Hc; [|done]. by apply canonical_normalize. Qed.

Lemma longest_mount_total p idx mounts best : canonical_mounts mounts ->
  is_ok (longest_mount p idx mounts best) = true.
Proof.
  intros Hc; revert idx best; induction Hc as [|m rest Hm Hc IH]; intros idx best; [done|].
  cbn. unfold normalizeMountPath. rewrite (canonical_normalize _ Hm). apply IH.
Qed.

Lemma longest_mount_err p idx mounts best e : longest_mount p idx mounts best = Err e ->
  e = ErrPathInvalid /\ exists m, m ∈ mounts /\ normalizeMountPath (me_MountPath m) = Err e.
Proof.
  revert idx best; induction mounts as [|m rest IH]; intros idx best; [done|]; cbn.
  destruct (normalizeMountPath (me_MountPath m)) as [nm|e'] eqn:E.
  - intros H. apply IH in H as (-> & m' & ? & ?). split; [done|]. exists m'. set_solver.
  - intros [= ->]. split; [by eapply normalize_err|]. exists m. set_solver.
Qed.

Lemma any_mount_below_err p mounts e : any_mount_below p mounts = Err e ->
  e = ErrPathInvalid /\ exists m, m ∈ mounts /\ normalizeMountPath (me_MountPath m) = Err e.
Proof.
  induction mounts as [|m rest IH]; [done|]; cbn.
  destruct (normalizeMountPath (me_MountPath m)) as [nm|e'] eqn:E.
  - destruct (_ && _); [done|]. intros H. apply IH in H as (-> & m' & ? & ?). split; [done|]. exists m'. set_solver.
  - intros [= ->]. split; [by eapply normalize_err|]. exists m. set_solver.
Qed.

Lemma below_as_join lp mounts x : good_segs lp = true -> below_as lp mounts x ->
  joinVirtualPath (render lp) x = render (lp ++ [x]).
Proof.
  intros Hg (m & k & _ & _ & Hb). apply good_segs_plain in Hb. rewrite forallb_app in Hb.
  apply andb_true_iff in Hb as [_ [Hb _]%andb_true_iff]. apply plain_seg_spec in Hb as (? & _ & _ & ?).
  apply join_render; [by apply good_segs_plain|done..].
Qed.

(** C33: a virtual path resolves exactly when it and every mount path are
    valid.  A path under a mount goes to the deepest mount containing it,
    with that mount's source, and mount path and inner path join back to
    the virtual path; a path under no mount has no source, and is pure
    virtual exactly when a mount lies strictly below it. *)
Theorem resolve_longest_prefix vp mounts :
  match resolveVirtualPathByLongestPrefix vp mounts with
  | Ok r => normalizeVirtualPath vp = Ok (rp_VirtualPath r) /\
            (forall m, m ∈ mounts -> is_ok (normalizeMountPath (me_MountPath m)) = true) /\
            resolved_well mounts r
  | Err e => e = ErrPathInvalid /\
             (normalizeVirtualPath vp = Err e \/
              exists m, m ∈ mounts /\ normalizeMountPath (me_MountPath m) = Err e)
  end.
Proof.
  destruct (resolveVirtualPathByLongestPrefix vp mounts) as [r|e] eqn:E.
  - destruct (resolve_well _ _ _ E) as [H1 H2]. split_and!; [done| |done].
    intros m Hm. unfold resolveVirtualPathByLongestPrefix in E.
    destruct (normalizeVirtualPath vp) as [p|]; [|done].
    destruct (longest_mount p 0 mounts (None, "")) as [best|] eqn:El; [|done].
    by apply (longest_mount_ok _ _ _ _ _ _ El).
  - unfold resolveVirtualPathByLongestPrefix in E.
    destruct (normalizeVirtualPath vp) as [p|e'] eqn:En.
    + destruct (longest_mount p 0 mounts (None, "")) as [[[i|] nm]|e''] eqn:El; [done| |].
      * destruct (any_mount_below p mounts) eqn:Eb; [done|]. injection E as ->.
        apply any_mount_below_err in Eb as [-> ?]; auto.
      * injection E as ->. apply longest_mount_err in El as [-> ?]; auto.
    + injection E as ->. split; [by eapply normalize_err|auto].
Qed.

(** The directories projected below a prefix are the first path
    segments, below that prefix, of the mounts strictly under it: each
    name once, in increasing order, and marked as a mount point exactly
    when a mount has that very path. *)
Theorem projectVirtualDirs_spec sources mounts prefix p items
    (Hm : buildMountEntries sources = Ok mounts) (Hp : normalizeVirtualPath prefix = Ok p)
    (Hi : projectVirtualDirsFromMounts prefix mounts = Ok items) :
  Sorted dir_le items /\ NoDup (map pd_Name items) /\
  (forall d, d ∈ items <->
     d = {| pd_Name := pd_Name d; pd_Path := joinVirtualPath p (pd_Name d);
            pd_IsMountPoint := mounted_at mounts (joinVirtualPath p (pd_Name d)) |} /\
     below_as (segs p) mounts (pd_Name d)).
Proof.
  apply buildMountEntries_canonical in Hm. unfold projectVirtualDirsFromMounts in Hi. rewrite Hp in Hi.
  apply normalize_canonical, canonical_normalize, normalize_Ok in Hp as [Ep Hg].
  set (lp := segs p) in *. rewrite Ep in *. clearbody lp. clear Ep p.
  pose proof (project_fold_ok lp [] mounts ∅ Hg Hm) as Hc. cbn [app] in Hc.
  injection Hi as <-. set (ch := fold_left _ _ _) in *.
  assert (children_ok lp mounts ch) as Hok.
  { apply Hc. intros x. rewrite lookup_empty. intros (m & k & Hx & _). by apply elem_of_nil in Hx. }
  clear Hc. clearbody ch.
  pose proof (merge_sort_Permutation dir_le (map snd (map_to_list ch))) as Hperm.
  assert (forall x d, ch !! x = Some d -> pd_Name d = x) as Hname.
  { intros x d E. specialize (Hok x). rewrite E in Hok. cbn in Hok. by destruct Hok as [-> _]. }
  split_and!.
  - apply Sorted_merge_sort, _.
  - rewrite Hperm, map_map. replace (map _ (map_to_list ch)) with ((map_to_list ch).*1); [apply NoDup_fst_map_to_list|].
    apply map_ext_in. intros [x d] Hin. cbn. symmetry. apply Hname. by apply elem_of_map_to_list, list_elem_of_In.
  - intros d. rewrite Hperm. rewrite list_elem_of_fmap.
    split.
    + intros ([x d'] & -> & Hin%elem_of_map_to_list). cbn. specialize (Hok x) as Hx. rewrite Hin in Hx.
      cbn in Hx. destruct Hx as [-> Hb]. cbn. split; [|done]. by rewrite (below_as_join _ _ _ Hg Hb).
    + intros [E Hb]. exists (pd_Name d, d). split; [done|]. apply elem_of_map_to_list.
      specialize (Hok (pd_Name d)) as Hx. destruct (ch !! pd_Name d) as [d'|]; [|done].
      destruct Hx as [-> _]. f_equal. etrans; [|symmetry; exact E]. by rewrite (below_as_join _ _ _ Hg Hb).
Qed.

(** A write to a target path is admitted exactly when the path is
    valid, no mount is at or below it (the root excepted), and the mount
    it resolves to, if any, holds no entry at the inner path. *)
Theorem ensureWritable_spec {W} (sourcePathExists : StorageSource -> string -> M GoErr W bool)
    sources mounts target p w r w'
    (Hm : buildMountEntries sources = Ok mounts) (Hp : normalizeVirtualPath target = Ok p)
    (Hr : ensureWritableNameAvailable sourcePathExists target mounts w = (r, w')) :
  let shadowed := p <> "/" /\ exists m, m ∈ mounts /\ isSubPath p (me_MountPath m) = true in
  (shadowed -> r = Err ErrNameConflict /\ w' = w) /\
  (~ shadowed -> exists rp, resolveVirtualPathByLongestPrefix target mounts = Ok rp /\
     match rp_IsRealMount rp, rp_Source rp with
     | true, Some s => match sourcePathExists s (rp_InnerPath rp) w with
                       | (Ok true, w2) => r = Err ErrNameConflict /\ w' = w2
                       | (Ok false, w2) => r = Ok tt /\ w' = w2
                       | (Err e, w2) => r = Err e /\ w' = w2
                       end
     | _, _ => r = Ok tt /\ w' = w
     end).
Proof.
  apply buildMountEntries_canonical in Hm. pose proof (normalize_canonical _ _ Hp) as Hc. intros shadowed.
  assert (hasMountNameConflict target mounts =
    Ok (negb (String.eqb p "/") && existsb (fun m => isSubPath p (me_MountPath m)) mounts)) as Hconf.
  { unfold hasMountNameConflict. rewrite Hp. destruct (String.eqb p "/"); [done|]. by apply mount_name_conflict_canonical. }
  unfold ensureWritableNameAvailable, bind, lift_result in Hr. rewrite Hconf in Hr.
  assert (negb (String.eqb p "/") && existsb (fun m => isSubPath p (me_MountPath m)) mounts = true <-> shadowed) as Hs.
  { rewrite andb_true_iff, negb_true_iff, String.eqb_neq. by rewrite (mount_below_iff p mounts Hc Hm). }
  destruct (negb _ && _).
  { cbn in Hr. unfold throw in Hr. simplify_eq. split; [done|]. intros Hn. by destruct Hn; apply Hs. }
  split; [intros H; by apply Hs in H|intros _].
  destruct (resolveVirtualPathByLongestPrefix target mounts) as [rp|e] eqn:E.
  - exists rp. split; [done|]. cbn in Hr.
    destruct (rp_IsRealMount rp), (rp_Source rp) as [s|]; unfold ret in Hr; simplify_eq; try done.
    destruct (sourcePathExists s (rp_InnerPath rp) w) as [[[|]|e] w2]; unfold ret, throw in Hr; simplify_eq; done.
  - exfalso. unfold resolveVirtualPathByLongestPrefix in E. rewrite Hp in E.
    pose proof (longest_mount_total p 0 mounts (None, "") Hm) as Ht.
    destruct (longest_mount p 0 mounts (None, "")) as [[[i|] nm]|]; [done| |done].
    destruct (any_mount_below p mounts) as [b|e'] eqn:Eb; [done|].
    apply any_mount_below_err in Eb as (_ & m & Hm' & He). by rewrite (canonical_mounts_ok mounts) in He.
Qed.

(** A source list of the shape the repository returns, for the witnesses. *)
Definition example_source (id : N) (mount : string) : StorageSource :=
  {| src_ID := id; src_Name := "s"; src_DriverType := "local"; src_Status := "online";
     src_IsEnabled := true; src_IsWebDAVExposed := false; src_WebDAVReadOnly := true;
     src_WebDAVSlug := "s"; src_MountPath := mount; src_RootPath := "/"; src_SortOrder := 0;
     src_ConfigJSON := "{}"; src_LastCheckedAt := None; src_CreatedAt := 0; src_UpdatedAt := 0 |}.
Definition example_sources : list StorageSource :=
  [example_source 1 "/media/tv"; example_source 2 "/docs"; example_source 3 "/media"; example_source 4 "/media/tv/hd"].
Definition example_mounts : list MountEntry :=
  match buildMountEntries example_sources with Ok m => m | Err _ => [] end.

Lemma projectVirtualDirs_spec_witness :
  exists items, projectVirtualDirsFromMounts "/" example_mounts = Ok items /\
    map pd_Name items = ["docs"; "media"] /\ Sorted dir_le items.
Proof.
  eexists. split; [vm_compute; reflexivity|]. split; [reflexivity|].
  apply (projectVirtualDirs_spec example_sources example_mounts "/" "/"); vm_compute; reflexivity.
Defined.

Lemma ensureWritable_spec_witness :
  ensureWritableNameAvailable (fun _ _ => ret false) "/docs/a.txt" example_mounts tt = (Ok tt, tt) /\
  exists rp, resolveVirtualPathByLongestPrefix "/docs/a.txt" example_mounts = Ok rp.
Proof.
  split; [reflexivity|].
  destruct (ensureWritable_spec (fun _ _ => ret false) example_sources example_mounts "/docs/a.txt" "/docs/a.txt" tt
    (Ok tt) tt eq_refl eq_refl eq_refl) as [_ H].
  destruct H as (rp & H & _); [|by exists rp].
  intros [_ (m & Hm & Hs)]. repeat (apply elem_of_cons in Hm as [->|Hm]; [vm_compute in Hs; discriminate|]).
  by apply elem_of_nil in Hm.
Defined.
