(* ===== verification/Permission.v ===== *)
(** * Roles, statuses and capabilities

    Package [domain/permission]: the role keys, the capability list each
    role resolves to, and the checks on them. *)
From S2P Require Import Prelude GoStrings.
From stdpp Require Import base list strings.

Local Open Scope string_scope.
Local Open Scope list_scope.
Local Open Scope go_scope.

(** ** [roles.go], [status.go] *)
Definition RoleSuperAdmin := "super_admin".
Definition RoleAdmin := "admin".
Definition RoleOperator := "operator".
Definition RoleUser := "user".

Definition IsValidRole (roleKey : string) : bool :=
  String.eqb roleKey RoleSuperAdmin || String.eqb roleKey RoleAdmin ||
  String.eqb roleKey RoleOperator || String.eqb roleKey RoleUser.

Definition StatusActive := "active".
Definition StatusLocked := "locked".
Definition IsValidStatus (status : string) : bool :=
  String.eqb status StatusActive || String.eqb status StatusLocked.

(** ** [capabilities.go] *)
Definition CapabilitySystemStatsRead := "system.stats.read".
Definition CapabilitySystemConfigRead := "system.config.read".
Definition CapabilitySystemConfigWrite := "system.config.write".
Definition CapabilityUserRead := "user.read".
Definition CapabilityUserCreate := "user.create".
Definition CapabilityUserUpdate := "user.update".
Definition CapabilityUserLock := "user.lock".
Definition CapabilityUserPasswordReset := "user.password.reset".
Definition CapabilityUserTokensRevoke := "user.tokens.revoke".
Definition CapabilityUserRoleAssign := "user.role.assign".
Definition CapabilityACLRead := "acl.read".
Definition CapabilityACLManage := "acl.manage".
Definition CapabilitySourceRead := "source.read".
Definition CapabilitySourceTest := "source.test".
Definition CapabilitySourceCreate := "source.create".
Definition CapabilitySourceUpdate := "source.update".
Definition CapabilitySourceDelete := "source.delete".
Definition CapabilitySourceSecretRead := "source.secret.read".
Definition CapabilityTaskReadAll := "task.read_all".
Definition CapabilityTaskManageAll := "task.manage_all".
Definition CapabilityShareReadAll := "share.read_all".
Definition CapabilityShareManageAll := "share.manage_all".
Definition CapabilityRSSRead := "rss.read".
Definition CapabilityRSSManage := "rss.manage".
Definition CapabilityNotificationRead := "notification.read".
Definition CapabilityNotificationManage := "notification.manage".
Definition CapabilityAuditRead := "audit.read".
Definition CapabilityAuditReadSensitive := "audit.read_sensitive".

Definition allCapabilities : list string :=
  [CapabilitySystemStatsRead; CapabilitySystemConfigRead; CapabilitySystemConfigWrite;
   CapabilityUserRead; CapabilityUserCreate; CapabilityUserUpdate; CapabilityUserLock;
   CapabilityUserPasswordReset; CapabilityUserTokensRevoke; CapabilityUserRoleAssign;
   CapabilityACLRead; CapabilityACLManage; CapabilitySourceRead; CapabilitySourceTest;
   CapabilitySourceCreate; CapabilitySourceUpdate; CapabilitySourceDelete;
   CapabilitySourceSecretRead; CapabilityTaskReadAll; CapabilityTaskManageAll;
   CapabilityShareReadAll; CapabilityShareManageAll; CapabilityRSSRead; CapabilityRSSManage;
   CapabilityNotificationRead; CapabilityNotificationManage; CapabilityAuditRead;
   CapabilityAuditReadSensitive].
(** The copy [AllCapabilities] returns is fresh; lists are values here. *)
Definition AllCapabilities : list string := allCapabilities.

(** ** [resolver.go] *)
Definition adminCapabilities : list string :=
  [CapabilitySystemStatsRead; CapabilitySystemConfigRead; CapabilitySystemConfigWrite;
   CapabilityUserRead; CapabilityUserCreate; CapabilityUserUpdate; CapabilityUserLock;
   CapabilityUserPasswordReset; CapabilityUserTokensRevoke; CapabilityUserRoleAssign;
   CapabilityACLRead; CapabilityACLManage; CapabilitySourceRead; CapabilitySourceTest;
   CapabilitySourceCreate; CapabilitySourceUpdate; CapabilitySourceDelete;
   CapabilityTaskReadAll; CapabilityTaskManageAll; CapabilityShareReadAll;
   CapabilityShareManageAll; CapabilityRSSRead; CapabilityRSSManage;
   CapabilityNotificationRead; CapabilityNotificationManage; CapabilityAuditRead].
Definition operatorCapabilities : list string :=
  [CapabilitySystemStatsRead; CapabilitySourceRead; CapabilitySourceTest;
   CapabilityTaskReadAll; CapabilityTaskManageAll; CapabilityRSSRead;
   CapabilityNotificationRead].
Definition ResolveCapabilities (roleKey : string) : result GoErr (list string) :=
  if String.eqb roleKey RoleSuperAdmin then Ok AllCapabilities
  else if String.eqb roleKey RoleAdmin then Ok adminCapabilities
  else if String.eqb roleKey RoleOperator then Ok operatorCapabilities
  else if String.eqb roleKey RoleUser then Ok []
  else Err (ErrText ("invalid role_key: " +:+ roleKey)).

(** ** [checker.go] *)
Definition HasCapability (capabilities : list string) (target : string) : bool :=
  existsb (fun item => String.eqb item target) capabilities.

Definition CanAssignRole (actorRoleKey targetRoleKey : string) : bool :=
  if String.eqb actorRoleKey RoleSuperAdmin then IsValidRole targetRoleKey
  else if String.eqb actorRoleKey RoleAdmin then
    String.eqb targetRoleKey RoleOperator || String.eqb targetRoleKey RoleUser
  else false.

Definition CanManageTargetRole (actorRoleKey targetRoleKey : string) : bool :=
  if String.eqb actorRoleKey RoleSuperAdmin then IsValidRole targetRoleKey
  else if String.eqb actorRoleKey RoleAdmin then
    String.eqb targetRoleKey RoleOperator || String.eqb targetRoleKey RoleUser
  else false.

Definition CanReadTask (actorUserID ownerID : N) (capabilities : list string) : bool :=
  N.eqb actorUserID ownerID || HasCapability capabilities CapabilityTaskReadAll.
Definition CanManageTask (actorUserID ownerID : N) (capabilities : list string) : bool :=
  N.eqb actorUserID ownerID || HasCapability capabilities CapabilityTaskManageAll.
Definition CanReadShare (actorUserID ownerID : N) (capabilities : list string) : bool :=
  N.eqb actorUserID ownerID || HasCapability capabilities CapabilityShareReadAll.
Definition CanManageShare (actorUserID ownerID : N) (capabilities : list string) : bool :=
  N.eqb actorUserID ownerID || HasCapability capabilities CapabilityShareManageAll.

(** ** Lemmas *)
Lemma HasCapability_spec caps c : HasCapability caps c = true <-> c ∈ caps.
Proof.
  unfold HasCapability. rewrite existsb_exists. split.
  - intros (x & Hx & E%String.eqb_eq). subst. by apply list_elem_of_In.
  - intros H. exists c. split; [by apply list_elem_of_In|apply String.eqb_refl].
Qed.

Lemma IsValidRole_spec r : IsValidRole r = true <->
  r = RoleSuperAdmin \/ r = RoleAdmin \/ r = RoleOperator \/ r = RoleUser.
Proof. unfold IsValidRole. rewrite !orb_true_iff, !String.eqb_eq. tauto. Qed.

Lemma CanAssignRole_spec a t : CanAssignRole a t = true <->
  (a = RoleSuperAdmin /\ IsValidRole t = true) \/
  (a = RoleAdmin /\ (t = RoleOperator \/ t = RoleUser)).
Proof.
  unfold CanAssignRole. destruct (String.eqb_spec a RoleSuperAdmin) as [->|Ha].
  - split; [auto|]. by intros [[_ ?]|[? _]].
  - destruct (String.eqb_spec a RoleAdmin) as [->|Ha'].
    + rewrite orb_true_iff, !String.eqb_eq. split; [auto|]. by intros [[? _]|[_ ?]].
    + split; [done|]. by intros [[? _]|[? _]].
Qed.

Lemma CanManageTargetRole_CanAssignRole a t : CanManageTargetRole a t = CanAssignRole a t.
Proof. reflexivity. Qed.

(** The capabilities of a role, none for an invalid one. *)
Definition caps_of (roleKey : string) : list string :=
  match ResolveCapabilities roleKey with Ok c => c | Err _ => [] end.

(** The four roles form a chain: what a user may do an operator may,
    what an operator may an admin may, what an admin may a super admin
    may; a super admin has every capability, once each, and exactly the
    two secret-reading ones separate it from an admin; a role key
    resolves exactly when it is valid. *)
Theorem role_hierarchy :
  (forall r, is_ok (ResolveCapabilities r) = IsValidRole r) /\
  caps_of RoleUser ⊆ caps_of RoleOperator /\ caps_of RoleOperator ⊆ caps_of RoleAdmin /\
  caps_of RoleAdmin ⊆ caps_of RoleSuperAdmin /\
  (forall r, caps_of r ⊆ AllCapabilities /\ NoDup (caps_of r)) /\
  (forall c, c ∈ caps_of RoleSuperAdmin /\ c ∉ caps_of RoleAdmin <->
     c = CapabilitySourceSecretRead \/ c = CapabilityAuditReadSensitive).
Proof.
  split_and!.
  - intros r. unfold ResolveCapabilities, IsValidRole. by repeat case_match.
  - by_decide.
  - by_decide.
  - by_decide.
  - intros r. unfold caps_of, ResolveCapabilities.
    repeat case_match; simplify_eq; split; by_decide.
  - intros c. split.
    + intros [H1 H2]. assert (Forall (fun c => c ∈ adminCapabilities \/ c = CapabilitySourceSecretRead \/
        c = CapabilityAuditReadSensitive) AllCapabilities) as Hall by by_decide.
      rewrite Forall_forall in Hall. by destruct (Hall c H1).
    + intros [-> | ->]; by_decide.
Qed.

(** A role can be given or managed only by an actor who holds the
    role-assignment capability and every capability of that role; only a
    super admin gives a role as strong as its own. *)
Theorem assign_no_escalation actor target (H : CanAssignRole actor target = true) :
  CapabilityUserRoleAssign ∈ caps_of actor /\ IsValidRole target = true /\
  caps_of target ⊆ caps_of actor /\
  (actor <> RoleSuperAdmin -> CapabilityUserRoleAssign ∉ caps_of target) /\
  CanManageTargetRole actor target = true.
Proof.
  split_and!; [| | | |exact H];
    apply CanAssignRole_spec in H as [[-> Ht]|[-> [-> | ->]]];
    try (apply IsValidRole_spec in Ht as [-> | [-> | [-> | ->]]]); try done;
    try (intros _); by_decide.
Qed.

Lemma assign_no_escalation_witness : caps_of RoleOperator ⊆ caps_of RoleAdmin.
Proof. apply (assign_no_escalation RoleAdmin RoleOperator). reflexivity. Defined.
