(* ===== verification/Tables.v ===== *)
(** * The tables

    [persistence/gorm/models.go]: the tables the modelled services use,
    their unique indexes, and the columns gorm fills in by itself.  A row
    is the entity of [Entities]: the [...ModelFromEntity] functions copy
    field by field, and the repositories apply the JSON normalisation
    where those functions do. *)
From S2P Require Import Prelude GoStrings Entities.
From stdpp Require Import base list strings.
From Stdlib Require Import ZArith.

Local Open Scope string_scope.
Local Open Scope list_scope.

Inductive Table : Type :=
| TUser | TToken | TRule | TSource | TConfig | TNode | TObject | TOperation | TAudit | TUpload
| TMount | TTag | TNodeTag | TChannel | TNotification | TShare | TTrash
| TRssSource | TRssSubscription | TRssItem | TTask.

#[export] Instance Table_eq_dec : EqDecision Table.
Proof. solve_decision. Defined.

Definition row (t : Table) : Type :=
  match t with
  | TUser => User
  | TToken => RefreshToken
  | TRule => ACLRule
  | TSource => StorageSource
  | TConfig => SystemConfig
  | TNode => VFSNode
  | TObject => StorageObject
  | TOperation => VFSOperation
  | TAudit => AuditLog
  | TUpload => UploadSession
  | TMount => VFSMount
  | TTag => VFSTag
  | TNodeTag => VFSNodeTag
  | TChannel => NotificationChannel
  | TNotification => NotificationEvent
  | TShare => ShareLink
  | TTrash => TrashItem
  | TRssSource => RSSSource
  | TRssSubscription => RSSSubscription
  | TRssItem => RSSItem
  | TTask => DownloadTask
  end.

Definition opt_eqb (a b : option N) : bool :=
  match a, b with Some x, Some y => N.eqb x y | _, _ => false end.

(** Two rows that a primary key or a unique index keeps apart.  A NULL in
    an index column differs from everything. *)
Definition UserModel_conflict (a b : User) : bool :=
  N.eqb (u_ID a) (u_ID b) || String.eqb (u_Username a) (u_Username b).
Definition RefreshTokenModel_conflict (a b : RefreshToken) : bool :=
  N.eqb (rt_ID a) (rt_ID b) || String.eqb (rt_TokenHash a) (rt_TokenHash b).
Definition StorageSourceModel_conflict (a b : StorageSource) : bool :=
  N.eqb (src_ID a) (src_ID b) || String.eqb (src_Name a) (src_Name b) ||
  String.eqb (src_WebDAVSlug a) (src_WebDAVSlug b) || String.eqb (src_MountPath a) (src_MountPath b).
Definition VFSNodeModel_conflict (a b : VFSNode) : bool :=
  N.eqb (vn_ID a) (vn_ID b) ||
  negb (vn_IsDeleted a) && negb (vn_IsDeleted b) &&
  (String.eqb (vn_Path a) (vn_Path b) ||
   opt_eqb (vn_ParentID a) (vn_ParentID b) && String.eqb (vn_Name a) (vn_Name b)).
Definition StorageObjectModel_conflict (a b : StorageObject) : bool :=
  N.eqb (so_ID a) (so_ID b) ||
  N.eqb (so_SourceID a) (so_SourceID b) && String.eqb (so_DriverType a) (so_DriverType b) &&
  String.eqb (so_LocatorType a) (so_LocatorType b) && String.eqb (so_LocatorJSON a) (so_LocatorJSON b).
Definition VFSMountModel_conflict (a b : VFSMount) : bool :=
  N.eqb (vm_ID a) (vm_ID b) || N.eqb (vm_NodeID a) (vm_NodeID b) || String.eqb (vm_MountPath a) (vm_MountPath b).
Definition VFSTagModel_conflict (a b : VFSTag) : bool :=
  N.eqb (tag_ID a) (tag_ID b) ||
  N.eqb (tag_OwnerUserID a) (tag_OwnerUserID b) && String.eqb (tag_Name a) (tag_Name b).
Definition VFSNodeTagModel_conflict (a b : VFSNodeTag) : bool :=
  N.eqb (nt_NodeID a) (nt_NodeID b) && N.eqb (nt_TagID a) (nt_TagID b).
Definition ShareLinkModel_conflict (a b : ShareLink) : bool :=
  N.eqb (sl_ID a) (sl_ID b) || String.eqb (sl_Token a) (sl_Token b).
Definition RSSItemModel_conflict (a b : RSSItem) : bool :=
  N.eqb (rit_ID a) (rit_ID b) ||
  N.eqb (rit_SourceID a) (rit_SourceID b) && String.eqb (rit_DedupKey a) (rit_DedupKey b).

Definition conflict (t : Table) : row t -> row t -> bool :=
  match t with
  | TUser => UserModel_conflict
  | TToken => RefreshTokenModel_conflict
  | TRule => fun a b => N.eqb (acl_ID a) (acl_ID b)
  | TSource => StorageSourceModel_conflict
  | TConfig => fun a b => N.eqb (cfg_ID a) (cfg_ID b)
  | TNode => VFSNodeModel_conflict
  | TObject => StorageObjectModel_conflict
  | TOperation => fun a b => N.eqb (op_ID a) (op_ID b)
  | TAudit => fun a b => N.eqb (al_ID a) (al_ID b)
  | TUpload => fun a b => String.eqb (us_UploadID a) (us_UploadID b)
  | TMount => VFSMountModel_conflict
  | TTag => VFSTagModel_conflict
  | TNodeTag => VFSNodeTagModel_conflict
  | TChannel => fun a b => N.eqb (nc_ID a) (nc_ID b)
  | TNotification => fun a b => N.eqb (ne_ID a) (ne_ID b)
  | TShare => ShareLinkModel_conflict
  | TTrash => fun a b => N.eqb (ti_ID a) (ti_ID b)
  | TRssSource => fun a b => N.eqb (rs_ID a) (rs_ID b)
  | TRssSubscription => fun a b => N.eqb (rsub_ID a) (rsub_ID b)
  | TRssItem => RSSItemModel_conflict
  | TTask => fun a b => N.eqb (dt_ID a) (dt_ID b)
  end.

Definition or_zero_N (d v : N) : N := if N.eqb v 0 then d else v.
Definition or_zero_Z (d v : Z) : Z := if Z.eqb v 0 then d else v.

(** What gorm fills in on a create: a fresh primary key for the zero one,
    and the current time for the zero [CreatedAt] and [UpdatedAt]. *)
Definition stamp (t : Table) (id : N) (now : Z) : row t -> row t :=
  match t with
  | TUser => fun r => { r with u_ID ::= or_zero_N id; u_CreatedAt ::= or_zero_Z now; u_UpdatedAt ::= or_zero_Z now }
  | TToken => fun r => { r with rt_ID ::= or_zero_N id; rt_CreatedAt ::= or_zero_Z now; rt_UpdatedAt ::= or_zero_Z now }
  | TRule => fun r => { r with acl_ID ::= or_zero_N id; acl_CreatedAt ::= or_zero_Z now; acl_UpdatedAt ::= or_zero_Z now }
  | TSource => fun r => { r with src_ID ::= or_zero_N id; src_CreatedAt ::= or_zero_Z now; src_UpdatedAt ::= or_zero_Z now }
  | TConfig => fun r => { r with cfg_ID ::= or_zero_N id; cfg_CreatedAt ::= or_zero_Z now; cfg_UpdatedAt ::= or_zero_Z now }
  | TNode => fun r => { r with vn_ID ::= or_zero_N id; vn_CreatedAt ::= or_zero_Z now; vn_UpdatedAt ::= or_zero_Z now }
  | TObject => fun r => { r with so_ID ::= or_zero_N id; so_CreatedAt ::= or_zero_Z now; so_UpdatedAt ::= or_zero_Z now }
  | TOperation => fun r => { r with op_ID ::= or_zero_N id; op_CreatedAt ::= or_zero_Z now; op_UpdatedAt ::= or_zero_Z now }
  | TAudit => fun r => { r with al_ID ::= or_zero_N id; al_CreatedAt ::= or_zero_Z now }
  | TUpload => fun r => { r with us_CreatedAt ::= or_zero_Z now; us_UpdatedAt ::= or_zero_Z now }
  | TMount => fun r => { r with vm_ID ::= or_zero_N id; vm_CreatedAt ::= or_zero_Z now; vm_UpdatedAt ::= or_zero_Z now }
  | TTag => fun r => { r with tag_ID ::= or_zero_N id; tag_CreatedAt ::= or_zero_Z now; tag_UpdatedAt ::= or_zero_Z now }
  | TNodeTag => fun r => { r with nt_CreatedAt ::= or_zero_Z now }
  | TChannel => fun r => { r with nc_ID ::= or_zero_N id; nc_CreatedAt ::= or_zero_Z now; nc_UpdatedAt ::= or_zero_Z now }
  | TNotification => fun r => { r with ne_ID ::= or_zero_N id; ne_CreatedAt ::= or_zero_Z now; ne_UpdatedAt ::= or_zero_Z now }
  | TShare => fun r => { r with sl_ID ::= or_zero_N id; sl_CreatedAt ::= or_zero_Z now; sl_UpdatedAt ::= or_zero_Z now }
  | TTrash => fun r => { r with ti_ID ::= or_zero_N id; ti_CreatedAt ::= or_zero_Z now; ti_UpdatedAt ::= or_zero_Z now }
  | TRssSource => fun r => { r with rs_ID ::= or_zero_N id; rs_CreatedAt ::= or_zero_Z now; rs_UpdatedAt ::= or_zero_Z now }
  | TRssSubscription => fun r => { r with rsub_ID ::= or_zero_N id; rsub_CreatedAt ::= or_zero_Z now; rsub_UpdatedAt ::= or_zero_Z now }
  | TRssItem => fun r => { r with rit_ID ::= or_zero_N id; rit_CreatedAt ::= or_zero_Z now; rit_UpdatedAt ::= or_zero_Z now }
  | TTask => fun r => { r with dt_ID ::= or_zero_N id; dt_CreatedAt ::= or_zero_Z now; dt_UpdatedAt ::= or_zero_Z now }
  end.

(** The time gorm writes to [UpdatedAt] on an update. *)
Definition touch (t : Table) (now : Z) : row t -> row t :=
  match t with
  | TUser => fun r => { r with u_UpdatedAt := now }
  | TToken => fun r => { r with rt_UpdatedAt := now }
  | TRule => fun r => { r with acl_UpdatedAt := now }
  | TSource => fun r => { r with src_UpdatedAt := now }
  | TConfig => fun r => { r with cfg_UpdatedAt := now }
  | TNode => fun r => { r with vn_UpdatedAt := now }
  | TObject => fun r => { r with so_UpdatedAt := now }
  | TOperation => fun r => { r with op_UpdatedAt := now }
  | TAudit => fun r => r
  | TUpload => fun r => { r with us_UpdatedAt := now }
  | TMount => fun r => { r with vm_UpdatedAt := now }
  | TTag => fun r => { r with tag_UpdatedAt := now }
  | TNodeTag => fun r => r
  | TChannel => fun r => { r with nc_UpdatedAt := now }
  | TNotification => fun r => { r with ne_UpdatedAt := now }
  | TShare => fun r => { r with sl_UpdatedAt := now }
  | TTrash => fun r => { r with ti_UpdatedAt := now }
  | TRssSource => fun r => { r with rs_UpdatedAt := now }
  | TRssSubscription => fun r => { r with rsub_UpdatedAt := now }
  | TRssItem => fun r => { r with rit_UpdatedAt := now }
  | TTask => fun r => { r with dt_UpdatedAt := now }
  end.

(** Pairwise free of conflicts, and so a possible table content. *)
Fixpoint no_conflicts (t : Table) (l : list (row t)) : bool :=
  match l with
  | [] => true
  | r :: l' => forallb (fun x => negb (conflict t r x)) l' && no_conflicts t l'
  end.

Lemma opt_eqb_comm a b : opt_eqb a b = opt_eqb b a.
Proof. destruct a, b; cbn; [apply N.eqb_sym|done..]. Qed.
Lemma conflict_comm t a b : conflict t a b = conflict t b a.
Proof.
  destruct t; cbn; try apply N.eqb_sym; try apply String.eqb_sym.
  - unfold UserModel_conflict. by rewrite (N.eqb_sym (u_ID a)), (String.eqb_sym (u_Username a)).
  - unfold RefreshTokenModel_conflict. by rewrite (N.eqb_sym (rt_ID a)), (String.eqb_sym (rt_TokenHash a)).
  - unfold StorageSourceModel_conflict. by rewrite (N.eqb_sym (src_ID a)), (String.eqb_sym (src_Name a)),
      (String.eqb_sym (src_WebDAVSlug a)), (String.eqb_sym (src_MountPath a)).
  - unfold VFSNodeModel_conflict. rewrite (N.eqb_sym (vn_ID a)), (String.eqb_sym (vn_Path a)),
      (opt_eqb_comm (vn_ParentID a)), (String.eqb_sym (vn_Name a)).
    by destruct (vn_IsDeleted a), (vn_IsDeleted b).
  - unfold StorageObjectModel_conflict. by rewrite (N.eqb_sym (so_ID a)), (N.eqb_sym (so_SourceID a)),
      (String.eqb_sym (so_DriverType a)), (String.eqb_sym (so_LocatorType a)), (String.eqb_sym (so_LocatorJSON a)).
  - unfold VFSMountModel_conflict. by rewrite (N.eqb_sym (vm_ID a)), (N.eqb_sym (vm_NodeID a)),
      (String.eqb_sym (vm_MountPath a)).
  - unfold VFSTagModel_conflict. by rewrite (N.eqb_sym (tag_ID a)), (N.eqb_sym (tag_OwnerUserID a)),
      (String.eqb_sym (tag_Name a)).
  - unfold VFSNodeTagModel_conflict. by rewrite (N.eqb_sym (nt_NodeID a)), (N.eqb_sym (nt_TagID a)).
  - unfold ShareLinkModel_conflict. by rewrite (N.eqb_sym (sl_ID a)), (String.eqb_sym (sl_Token a)).
  - unfold RSSItemModel_conflict. by rewrite (N.eqb_sym (rit_ID a)), (N.eqb_sym (rit_SourceID a)),
      (String.eqb_sym (rit_DedupKey a)).
Qed.

Lemma no_conflicts_elem t l a b : no_conflicts t l = true -> a ∈ l -> b ∈ l ->
  a = b \/ conflict t a b = false.
Proof.
  induction l as [|r l IH]; cbn; [intros _ H; by apply elem_of_nil in H|].
  rewrite andb_true_iff, forallb_forall. intros [Hr Hl].
  intros [->|Ha]%elem_of_cons [->|Hb]%elem_of_cons; [by left|right|right|auto].
  - apply negb_true_iff, Hr. by apply list_elem_of_In.
  - rewrite conflict_comm. apply negb_true_iff, Hr. by apply list_elem_of_In.
Qed.

Lemma no_conflicts_snoc t l r : no_conflicts t (l ++ [r]) =
  no_conflicts t l && forallb (fun x => negb (conflict t x r)) l.
Proof.
  induction l as [|a l IH]; [done|]. cbn. rewrite forallb_app, IH. cbn.
  rewrite andb_true_r. destruct (conflict t a r), (forallb _ l), (no_conflicts t l); cbn; try done;
    by rewrite ?andb_false_r.
Qed.
