(* ===== verification/Db.v ===== *)
(** * The database

    gorm and PostgreSQL are the environment of the repositories: the class
    [Database] names the statements the repositories issue, over an
    abstract state; [DatabaseLaws] states what they rely on.  The tables,
    with their unique indexes and the columns gorm fills in, are those of
    [Tables].  Every statement may fail at any time with any error but
    gorm's record-not-found, and then changes nothing.  [Mem] is an
    in-memory instance with a schedule of faults.

    A statement is atomic: the interleaving of two requests is an
    interleaving of statements, or of whole transactions. *)
From S2P Require Import Prelude GoStrings Entities Tables.
From stdpp Require Import base list strings sets sorting.
From Stdlib Require Import ZArith Lia Ascii.

Local Open Scope string_scope.
Local Open Scope list_scope.
Local Open Scope go_scope.

(** ** Errors of a statement, and [errors.go] *)
Inductive DbErr : Type :=
| RecordNotFound
| DuplicatedKey
| ForeignKeyViolated
| PgCode (code : string)
| DbOther (msg : string).

Definition normalizeGormError (err : DbErr) : GoErr :=
  match err with
  | RecordNotFound => ErrNotFound
  | DuplicatedKey => ErrConflict
  | ForeignKeyViolated => ErrConstraintViolation
  | PgCode code =>
      if String.eqb code "23505" then ErrConflict
      else if String.eqb code "23502" || String.eqb code "23503" || String.eqb code "23514"
           then ErrConstraintViolation
           else ErrText code
  | DbOther msg => ErrText msg
  end.

Lemma normalizeGormError_not_found e : e <> RecordNotFound -> normalizeGormError e <> ErrNotFound.
Proof. destruct e; cbn; [done|done|done| |done]. intros _. by repeat case_match. Qed.

(** An error that is passed on as it is: none of the sentinels. *)
Definition rawGormError (err : DbErr) : GoErr :=
  match err with
  | RecordNotFound => ErrText "record not found"
  | DuplicatedKey => ErrText "duplicated key not allowed"
  | ForeignKeyViolated => ErrText "violates foreign key constraint"
  | PgCode code => ErrText code
  | DbOther msg => ErrText msg
  end.

(** An error a statement may return. *)
Definition db_error (e : GoErr) : Prop := exists d, d <> RecordNotFound /\ e = normalizeGormError d.

Lemma db_error_not_found e : db_error e -> e <> ErrNotFound.
Proof. intros (d & Hd & ->). by apply normalizeGormError_not_found. Qed.
Lemma raw_db_error d : db_error (rawGormError d).
Proof. destruct d as [| | |m|m]; [exists (DbOther "record not found")|exists (DbOther "duplicated key not allowed")
  |exists (DbOther "violates foreign key constraint")|exists (DbOther m)|exists (DbOther m)]; done. Qed.
(** Database errors are none of the services' own sentinels. *)
Lemma db_error_class e : db_error e -> e = ErrConflict \/ e = ErrConstraintViolation \/ exists m, e = ErrText m.
Proof. intros (d & Hd & ->). destruct d; cbn; [done|auto|auto| |eauto]. repeat case_match; eauto. Qed.
Lemma db_error_is_not_found e : db_error e -> err_is e ErrNotFound = false.
Proof. intros [->|[->|[m ->]]]%db_error_class; reflexivity. Qed.

(** ** [ORDER BY] *)
Record Order (R : Type) := {
  ord_le : R -> R -> bool;
  ord_total : forall a b, ord_le a b = true \/ ord_le b a = true;
  ord_trans : forall a b c, ord_le a b = true -> ord_le b c = true -> ord_le a c = true
}.
Arguments ord_le {R} _ _ _.

Definition ord_any {R} : Order R.
Proof. by refine {| ord_le := fun _ _ => true |}; auto. Defined.

Definition ord_asc {R} (f : R -> Z) : Order R.
Proof. refine {| ord_le := fun a b => Z.leb (f a) (f b) |}; intros; rewrite !Z.leb_le in *; lia. Defined.
Definition ord_desc {R} (f : R -> Z) : Order R.
Proof. refine {| ord_le := fun a b => Z.leb (f b) (f a) |}; intros; rewrite !Z.leb_le in *; lia. Defined.

(** [f asc NULLS FIRST]. *)
Definition le_nulls_first (x y : option Z) : bool :=
  match x, y with
  | None, _ => true
  | Some _, None => false
  | Some a, Some b => Z.leb a b
  end.
Definition ord_nulls_first {R} (f : R -> option Z) : Order R.
Proof.
  refine {| ord_le := fun a b => le_nulls_first (f a) (f b) |}; unfold le_nulls_first.
  - intros a b. destruct (f a), (f b); rewrite ?Z.leb_le; auto; lia.
  - intros a b c. destruct (f a), (f b), (f c); rewrite ?Z.leb_le; done || lia.
Defined.

(** The order of a mapped key, and the lexicographic order of two. *)
Definition ord_on {R K} (o : Order K) (f : R -> K) : Order R.
Proof.
  refine {| ord_le := fun a b => ord_le o (f a) (f b) |}; [intros; apply ord_total|intros ? ? ?; apply ord_trans].
Defined.
Definition ord_then {R} (o1 o2 : Order R) : Order R.
Proof.
  refine {| ord_le := fun a b => ord_le o1 a b && (negb (ord_le o1 b a) || ord_le o2 a b) |}.
  - intros a b. destruct (ord_total _ o1 a b) as [H|H], (ord_total _ o2 a b) as [H'|H']; rewrite H, H'; cbn;
      destruct (ord_le o1 a b), (ord_le o1 b a); cbn; rewrite ?orb_true_r; auto.
  - intros a b c. rewrite !andb_true_iff, !orb_true_iff, !negb_true_iff. intros [H1 H2] [H3 H4].
    split; [by eapply ord_trans|].
    destruct (ord_le o1 c a) eqn:Eca; [|auto]. right.
    assert (ord_le o1 b a = true) by (by eapply ord_trans).
    assert (ord_le o1 c b = true) by (by eapply ord_trans).
    destruct H2 as [?|H2], H4 as [?|H4]; try congruence. by eapply ord_trans.
Defined.

(** The rows a predicate selects, and the first ones of a limit. *)
Definition sel {A} (p : A -> bool) (l : list A) : list A := List.filter p l.
Definition limited {A} (limit : option nat) (l : list A) : list A :=
  match limit with Some n => take n l | None => l end.
Definition set_where {A} (p : A -> bool) (f : A -> A) (l : list A) : list A :=
  map (fun r => if p r then f r else r) l.

Lemma elem_of_sel {A} (p : A -> bool) l x : x ∈ sel p l <-> x ∈ l /\ p x = true.
Proof. unfold sel. by rewrite !list_elem_of_In, List.filter_In. Qed.
Lemma elem_of_set_where {A} (p : A -> bool) f l x :
  x ∈ set_where p f l <-> (exists y, y ∈ l /\ p y = true /\ x = f y) \/ (x ∈ l /\ p x = false).
Proof.
  unfold set_where. rewrite list_elem_of_fmap. split.
  - intros (y & -> & Hy). destruct (p y) eqn:E; [left; eauto|right; done].
  - intros [(y & Hy & Hp & ->)|[Hx Hp]]; [exists y|exists x]; by rewrite Hp.
Qed.
Lemma sel_ext {A} (p q : A -> bool) l : (forall x, x ∈ l -> p x = q x) -> sel p l = sel q l.
Proof.
  unfold sel. induction l as [|x l IH]; intros Hp; cbn; [done|]. rewrite Hp, IH by set_solver. done.
Qed.
Lemma limited_subset {A} n (l : list A) x : x ∈ limited n l -> x ∈ l.
Proof.
  destruct n as [n|]; cbn; [|done]. intros H. rewrite <- (take_drop n l). apply elem_of_app; auto.
Qed.

(** ** The interface *)
Class Database := {
  db : Type;
  rows : forall t : Table, db -> list (row t);
  (** [Create]: the row as stored. *)
  db_insert : forall t, row t -> M DbErr db (row t);
  (** [Create] with [OnConflict]: on a row the key predicate selects, the
      third argument combines the current time, the new and the old row. *)
  db_upsert : forall t, (row t -> bool) -> (Z -> row t -> row t -> row t) -> row t -> M DbErr db (row t);
  (** [Where(p).Updates(f)], with the current time, and
      [Where(p).Delete()]: [RowsAffected]. *)
  db_update_at : forall t, (row t -> bool) -> (Z -> row t -> row t) -> M DbErr db Z;
  db_delete : forall t, (row t -> bool) -> M DbErr db Z;
  db_select : forall t, (row t -> bool) -> Order (row t) -> option nat -> M DbErr db (list (row t));
  (** The end of a transaction; what a failed one leaves. *)
  db_commit : M DbErr db unit;
  db_rollback : db -> db -> db;
  (** The collation of text columns, and [LIKE]. *)
  db_collate : Order string;
  db_like : string -> string -> bool
}.
(** An update that leaves [UpdatedAt] to gorm. *)
Definition db_update `{Database} t (p : row t -> bool) (f : row t -> row t) : M DbErr db Z :=
  db_update_at t p (fun now r => touch t now (f r)).

(** The bytes with a meaning in a [LIKE] pattern. *)
Definition like_special (c : ascii) : bool := Ascii.eqb c "%" || Ascii.eqb c "_" || Ascii.eqb c "\".

Section Laws.
Context `{Database}.

(** A step that changes no table, and one that changes one. *)
Definition same_rows (s s' : db) : Prop := forall t, rows t s' = rows t s.
Definition new_rows (t : Table) (l : list (row t)) (s s' : db) : Prop :=
  rows t s' = l /\ (forall t', t' <> t -> rows t' s' = rows t' s).
Definition failed (e : DbErr) (s s' : db) : Prop := e <> RecordNotFound /\ same_rows s s'.
Definition absent t (r : row t) (l : list (row t)) : bool := forallb (fun x => negb (conflict t x r)) l.

Class DatabaseLaws : Prop := {
  insert_law : forall t r s,
    wp (db_insert t r) (fun res s' =>
      match res with
      | Err e => failed e s s'
      | Ok r' => exists id now, id <> 0%N /\ r' = stamp t id now r /\
          absent t r' (rows t s) = true /\ new_rows t (rows t s ++ [r']) s s'
      end) s;
  upsert_law : forall t key merge r s,
    wp (db_upsert t key merge r) (fun res s' =>
      match res with
      | Err e => failed e s s'
      | Ok r' => exists id now, id <> 0%N /\ r' = stamp t id now r /\
          if existsb key (rows t s)
          then exists now', let l := set_where key (merge now' r') (rows t s) in
               no_conflicts t l = true /\ new_rows t l s s'
          else absent t r' (rows t s) = true /\ new_rows t (rows t s ++ [r']) s s'
      end) s;
  update_law : forall t p f s,
    wp (db_update_at t p f) (fun res s' =>
      match res with
      | Err e => failed e s s'
      | Ok n => n = Z.of_nat (length (sel p (rows t s))) /\
          exists now, let l := set_where p (f now) (rows t s) in
          no_conflicts t l = true /\ new_rows t l s s'
      end) s;
  delete_law : forall t p s,
    wp (db_delete t p) (fun res s' =>
      match res with
      | Err e => failed e s s'
      | Ok n => n = Z.of_nat (length (sel p (rows t s))) /\
                new_rows t (sel (fun x => negb (p x)) (rows t s)) s s'
      end) s;
  select_law : forall t p o limit s,
    wp (db_select t p o limit) (fun res s' =>
      match res with
      | Err e => failed e s s'
      | Ok l => same_rows s s' /\ exists all, all ≡ₚ sel p (rows t s) /\
                  StronglySorted (fun a b => ord_le o a b = true) all /\ l = limited limit all
      end) s;
  commit_law : forall s,
    wp db_commit (fun res s' => match res with Err e => e <> RecordNotFound | Ok _ => same_rows s s' end) s;
  rollback_law : forall s0 s, same_rows s0 (db_rollback s0 s);
  (** [LIKE]: a byte that is not special stands for itself, and so does one
      after a backslash; a final percent sign matches anything. *)
  like_byte_law : forall c p s, like_special c = false ->
    db_like (String c p) s = match s with String d s' => Ascii.eqb c d && db_like p s' | EmptyString => false end;
  like_escape_law : forall c p s,
    db_like (String "\" (String c p)) s =
    match s with String d s' => Ascii.eqb c d && db_like p s' | EmptyString => false end;
  like_any_law : forall s, db_like "%" s = true
}.
End Laws.

(** ** An in-memory database *)
Module Mem.
Record mem := {
  m_rows : forall t : Table, list (row t);
  m_serial : N;
  m_time : Z;
  m_faults : list (option DbErr)
}.
#[global] Instance eta_mem : Eta mem := fun r =>
  {| m_rows := m_rows r; m_serial := m_serial r; m_time := m_time r; m_faults := m_faults r |}.

Definition set_rows (t : Table) (l : list (row t)) (s : mem) : mem :=
  { s with m_rows := fun t' =>
      match Table_eq_dec t t' with
      | left E => eq_rect t (fun t => list (row t)) l t' E
      | right _ => m_rows s t'
      end }.

(** The next scheduled fault, if any. *)
Definition attempt {A} (m : M DbErr mem A) : M DbErr mem A := fun s =>
  let s' := { s with m_faults ::= tl; m_time ::= Z.succ } in
  match m_faults s with
  | Some RecordNotFound :: _ => (Err (DbOther "unexpected"), s')
  | Some e :: _ => (Err e, s')
  | _ => m s'
  end.

Definition insert_row t (r' : row t) : M DbErr mem (row t) := fun s =>
  if absent t r' (m_rows s t)
  then (Ok r', { (set_rows t (m_rows s t ++ [r']) s) with m_serial ::= N.succ })
  else (Err DuplicatedKey, s).

Definition stamped t (r : row t) (s : mem) : row t := stamp t (N.succ (m_serial s)) (m_time s) r.
Definition insert t (r : row t) : M DbErr mem (row t) :=
  attempt (fun s => insert_row t (stamped t r s) s).

Definition update_rows {A} t (l : list (row t)) (a : A) : M DbErr mem A := fun s =>
  if no_conflicts t l then (Ok a, set_rows t l s) else (Err DuplicatedKey, s).

Definition upsert t key (merge : Z -> row t -> row t -> row t) (r : row t) : M DbErr mem (row t) :=
  attempt (fun s =>
    let r' := stamped t r s in
    if existsb key (m_rows s t)
    then update_rows t (set_where key (merge (m_time s) r') (m_rows s t)) r' s
    else insert_row t r' s).

Definition update t p (f : Z -> row t -> row t) : M DbErr mem Z :=
  attempt (fun s => update_rows t (set_where p (f (m_time s)) (m_rows s t))
                      (Z.of_nat (length (sel p (m_rows s t)))) s).

Definition delete t p : M DbErr mem Z :=
  attempt (fun s => (Ok (Z.of_nat (length (sel p (m_rows s t)))),
                     set_rows t (sel (fun x => negb (p x)) (m_rows s t)) s)).

Fixpoint insert_sorted {R} (o : Order R) (x : R) (l : list R) : list R :=
  match l with
  | [] => [x]
  | y :: l' => if ord_le o x y then x :: l else y :: insert_sorted o x l'
  end.
Definition sort_by {R} (o : Order R) (l : list R) : list R := fold_right (insert_sorted o) [] l.

Definition select t p (o : Order (row t)) limit : M DbErr mem (list (row t)) :=
  attempt (fun s => (Ok (limited limit (sort_by o (sel p (m_rows s t)))), s)).

Definition commit : M DbErr mem unit := attempt (ret tt).
Definition rollback (s0 s : mem) : mem := { s with m_rows := m_rows s0 }.

Definition ascii_order : Order string.
Proof.
  refine {| ord_le := fun a b => bool_decide (String.le a b) |}; intros *; rewrite ?bool_decide_eq_true.
  - apply String.le_total.
  - intros H1 H2. by etrans.
Defined.

(** [LIKE] on a pattern of bytes. *)
Fixpoint like_list (p s : list ascii) {struct p} : bool :=
  match p with
  | [] => match s with [] => true | _ => false end
  | c :: p' =>
      if Ascii.eqb c "%"
      then (fix any s := like_list p' s || match s with [] => false | _ :: s' => any s' end) s
      else if Ascii.eqb c "\"
      then match p', s with
           | c' :: p'', d :: s' => Ascii.eqb c' d && like_list p'' s'
           | _, _ => false
           end
      else match s with
           | [] => false
           | d :: s' => (Ascii.eqb c "_" || Ascii.eqb c d) && like_list p' s'
           end
  end.
Definition like (p s : string) : bool := like_list (String.list_ascii_of_string p) (String.list_ascii_of_string s).

Definition init : mem := {| m_rows := fun _ => []; m_serial := 0; m_time := 1; m_faults := [] |}.

#[export] Instance database : Database := {|
  db := mem; rows := fun t s => m_rows s t; db_insert := insert; db_upsert := upsert;
  db_update_at := update; db_delete := delete; db_select := select; db_commit := commit;
  db_rollback := rollback; db_collate := ascii_order; db_like := like |}.

Lemma set_rows_new t l s : new_rows t l s (set_rows t l s).
Proof.
  split; cbn.
  - destruct (Table_eq_dec t t) as [E|]; [|done].
    assert (E = eq_refl) as -> by apply proof_irrel. done.
  - intros t' Hne. by destruct (Table_eq_dec t t') as [->|].
Qed.

(** An attempt fails and changes nothing, or runs the statement. *)
Lemma wp_attempt {A} (m : M DbErr mem A) Q s :
  (forall e s', failed e s s' -> Q (Err e) s') ->
  (forall s', m_rows s' = m_rows s -> wp m Q s') -> wp (attempt m) Q s.
Proof.
  intros He Hm. unfold wp, attempt.
  destruct (m_faults s) as [|[[]|] f]; try (by apply Hm); apply He; by split.
Qed.

Lemma insert_row_spec t r' s0 s : m_rows s = m_rows s0 ->
  wp (insert_row t r') (fun res s' =>
    match res with
    | Err e => failed e s0 s'
    | Ok r'' => r'' = r' /\ absent t r' (m_rows s0 t) = true /\ new_rows t (m_rows s0 t ++ [r']) s0 s'
    end) s.
Proof.
  intros E. unfold insert_row, wp. rewrite E. destruct (absent t r' (m_rows s0 t)); cbn -[new_rows failed].
  - split_and!; [done..|]. destruct (set_rows_new t (m_rows s0 t ++ [r']) s) as [H1 H2].
    split; [exact H1|]. intros t' Ht. cbn in *. by rewrite H2, E.
  - split; [done|]. intros t'. cbn. by rewrite E.
Qed.

Lemma update_rows_spec {A} t l (a : A) s0 s : m_rows s = m_rows s0 ->
  wp (update_rows t l a) (fun res s' =>
    match res with
    | Err e => failed e s0 s'
    | Ok a' => a' = a /\ no_conflicts t l = true /\ new_rows t l s0 s'
    end) s.
Proof.
  intros E. unfold update_rows, wp. destruct (no_conflicts t l); cbn -[new_rows failed].
  - split_and!; [done..|]. destruct (set_rows_new t l s) as [H1 H2].
    split; [exact H1|]. intros t' Ht. cbn in *. by rewrite H2, E.
  - split; [done|]. intros t'. cbn. by rewrite E.
Qed.

Lemma insert_sorted_perm {R} (o : Order R) x l : insert_sorted o x l ≡ₚ x :: l.
Proof. induction l as [|y l IH]; cbn; [done|]. destruct (ord_le o x y); [done|]. rewrite IH. apply Permutation_swap. Qed.
Lemma sort_by_perm {R} (o : Order R) l : sort_by o l ≡ₚ l.
Proof. induction l as [|x l IH]; cbn; [done|]. by rewrite insert_sorted_perm, IH. Qed.
Lemma insert_sorted_sorted {R} (o : Order R) x l :
  StronglySorted (fun a b => ord_le o a b = true) l ->
  StronglySorted (fun a b => ord_le o a b = true) (insert_sorted o x l).
Proof.
  induction l as [|y l IH]; cbn; intros Hs; [repeat constructor|]. inversion_clear Hs as [|? ? Hl Hy].
  destruct (ord_le o x y) eqn:E.
  - constructor; [by constructor|]. constructor; [done|]. eapply Forall_impl; [exact Hy|].
    intros z. by apply ord_trans.
  - constructor; [auto|]. rewrite insert_sorted_perm. constructor; [|done].
    by destruct (ord_total _ o x y) as [?|?]; [congruence|].
Qed.
Lemma sort_by_sorted {R} (o : Order R) l : StronglySorted (fun a b => ord_le o a b = true) (sort_by o l).
Proof. induction l as [|x l IH]; cbn; [constructor|]. by apply insert_sorted_sorted. Qed.

Lemma like_any s : like "%" s = true.
Proof. unfold like. induction s as [|c s IH]; [done|]. cbn in *. done. Qed.

#[export] Instance laws : DatabaseLaws.
Proof.
  split; cbn -[failed new_rows same_rows absent]; intros.
  - apply wp_attempt; [done|]. intros s' E. unfold wp. cbn.
    pose proof (insert_row_spec t (stamped t r s') s s' E) as X. unfold wp in X.
    destruct (insert_row t (stamped t r s') s') as [[r'|e] s'']; [|done]. destruct X as (-> & H1 & H2).
    exists (N.succ (m_serial s')), (m_time s'). split_and!; [lia|done..].
  - apply wp_attempt; [done|]. intros s' E. unfold wp. cbn. rewrite E.
    set (r' := stamped t r s'). destruct (existsb key (m_rows s t)).
    + match goal with |- context [update_rows ?t ?l ?a ?s'] => pose proof (update_rows_spec t l a s s' E) as X end.
      unfold wp in X. destruct (update_rows _ _ _ _) as [[?|e] s'']; [|done]. destruct X as (-> & H1 & H2).
      exists (N.succ (m_serial s')), (m_time s'). split_and!; [lia|done|]. by exists (m_time s').
    + pose proof (insert_row_spec t r' s s' E) as X. unfold wp in X.
      destruct (insert_row t r' s') as [[?|e] s'']; [|done]. destruct X as (-> & H1 & H2).
      exists (N.succ (m_serial s')), (m_time s'). split_and!; [lia|done..].
  - apply wp_attempt; [done|]. intros s' E. unfold wp. cbn. rewrite E.
    match goal with |- context [update_rows ?t ?l ?a ?s'] => pose proof (update_rows_spec t l a s s' E) as X end.
    unfold wp in X. destruct (update_rows _ _ _ _) as [[?|e] s'']; [|done]. destruct X as (-> & H1 & H2).
    split; [done|]. by exists (m_time s').
  - apply wp_attempt; [done|]. intros s' E. unfold wp. cbn -[new_rows set_rows sel]. rewrite E. split; [done|].
    destruct (set_rows_new t (sel (fun x => negb (p x)) (m_rows s t)) s') as [H1 H2].
    split; [exact H1|]. intros t' Ht. cbn in *. by rewrite H2, E.
  - apply wp_attempt; [done|]. intros s' E. unfold wp. cbn -[same_rows]. rewrite E.
    split; [intros t'; cbn; by rewrite E|]. exists (sort_by o (sel p (m_rows s t))).
    split_and!; [apply sort_by_perm|apply sort_by_sorted|done].
  - apply wp_attempt; [by intros e s' [? _]|]. intros s' E. intros t'. cbn. by rewrite E.
  - done.
  - unfold like_special in *. rewrite !orb_false_iff in *. destruct_and!. unfold like. cbn.
    repeat match goal with E : Ascii.eqb c _ = false |- _ => rewrite E; clear E end. by destruct s.
  - by destruct s.
  - apply like_any.
Qed.
End Mem.

(** ** The world of a service *)
Section World.
Context `{Database}.

(** The database, and the readings of the clock: [time.Now] returns the
    next one. *)
Record World := { w_db : db; w_clock : nat -> Z; w_reads : nat }.
#[export] Instance eta_World : Eta World := fun r =>
  {| w_db := w_db r; w_clock := w_clock r; w_reads := w_reads r |}.

Definition tbl (t : Table) (w : World) : list (row t) := rows t (w_db w).
Definition the_time (w : World) : Z := w_clock w (w_reads w).
Definition time_now {E} : M E World Z := fun w => (Ok (the_time w), { w with w_reads ::= S }).

Definition on_db {E A} (m : M E db A) : M E World A := zoom w_db (fun d w => { w with w_db := d }) m.
(** A statement of a repository. *)
Definition stmt {A} (m : M DbErr db A) : M GoErr World A := map_err normalizeGormError (on_db m).

(** gorm's [First]: the first row in the given order. *)
Definition first (t : Table) (p : row t -> bool) (o : Order (row t)) : M GoErr World (row t) :=
  l <-! stmt (db_select t p o (Some 1)) ;;
  match l with
  | r :: _ => ret r
  | [] => throw (normalizeGormError RecordNotFound)
  end.

(** [if RowsAffected == 0 { return ErrNotFound }]. *)
Definition must_affect (m : M GoErr World Z) : M GoErr World unit :=
  n <-! m ;; if Z.eqb n 0 then throw ErrNotFound else ret tt.

(** gorm's [Transaction]: the callback's error, or the commit's, rolls
    every statement back. *)
Definition transaction {A} (commit_error : DbErr -> GoErr) (fn : M GoErr World A) : M GoErr World A := fun w0 =>
  match fn w0 with
  | (Ok a, w1) =>
      match map_err commit_error (on_db db_commit) w1 with
      | (Ok _, w2) => (Ok a, w2)
      | (Err e, w2) => (Err e, { w2 with w_db := db_rollback (w_db w0) (w_db w2) })
      end
  | (Err e, w1) => (Err e, { w1 with w_db := db_rollback (w_db w0) (w_db w1) })
  end.

(** [tx.go]: [Transactor.WithinTx]. *)
Definition WithinTx {A} (fn : M GoErr World A) : M GoErr World A := transaction normalizeGormError fn.
End World.

(** ** Rules for statements *)
Section Rules.
Context `{DatabaseLaws}.
Implicit Types w : World.

(** Steps of the world that leave the tables, and that change one. *)
Definition same w w' : Prop :=
  (forall t, tbl t w' = tbl t w) /\ w_clock w' = w_clock w /\ w_reads w' = w_reads w.
Definition put t l w w' : Prop :=
  tbl t w' = l /\ (forall t', t' <> t -> tbl t' w' = tbl t' w) /\
  w_clock w' = w_clock w /\ w_reads w' = w_reads w.
Definition valid w : Prop := forall t, no_conflicts t (tbl t w) = true.

Lemma same_refl w : same w w.
Proof. done. Qed.
Lemma same_trans w1 w2 w3 : same w1 w2 -> same w2 w3 -> same w1 w3.
Proof. intros (H1 & H2 & H3) (H4 & H5 & H6). split_and!; [intros; by rewrite H4|congruence..]. Qed.
Lemma same_valid w w' : same w w' -> valid w -> valid w'.
Proof. intros (Hs & _) Hv t. by rewrite Hs. Qed.
Lemma put_valid t l w w' : put t l w w' -> no_conflicts t l = true -> valid w -> valid w'.
Proof.
  intros (Hl & Ho & _) Hn Hv t'. destruct (decide (t' = t)) as [->|Hne]; [by rewrite Hl|by rewrite Ho].
Qed.
Lemma absent_no_conflicts t r l :
  no_conflicts t l = true -> absent t r l = true -> no_conflicts t (l ++ [r]) = true.
Proof. intros H1 H2. rewrite no_conflicts_snoc. apply andb_true_iff; done. Qed.
Lemma no_conflicts_sel t p l : no_conflicts t l = true -> no_conflicts t (sel p l) = true.
Proof.
  induction l as [|r l IH]; [done|]. cbn. rewrite andb_true_iff, forallb_forall. intros [Hr Hl].
  destruct (p r); cbn; fold (sel p l); [|auto]. rewrite IH by done. rewrite andb_true_r. apply forallb_forall.
  intros x Hx%list_elem_of_In%elem_of_sel. apply Hr. apply list_elem_of_In. apply Hx.
Qed.

Lemma wp_stmt {A} (m : M DbErr db A) Q w :
  wp m (fun res d => match res with
                     | Ok a => Q (Ok a) { w with w_db := d }
                     | Err e => Q (Err (normalizeGormError e)) { w with w_db := d }
                     end) (w_db w) -> wp (stmt m) Q w.
Proof. intros Hm. apply wp_map_err, wp_zoom. eapply wp_mono; [exact Hm|]. by intros [a|e] s'. Qed.

Lemma failed_same e w d : failed e (w_db w) d -> same w { w with w_db := d }.
Proof. intros [_ Hs]. split; [exact Hs|done]. Qed.

(** The failure branch shared by all rules. *)
Definition on_failure {A} w (Q : result GoErr A -> World -> Prop) : Prop :=
  forall e w', same w w' -> db_error e -> Q (Err e) w'.

Lemma failed_on_failure {A} w (Q : result GoErr A -> World -> Prop) e d :
  on_failure w Q -> failed e (w_db w) d -> Q (Err (normalizeGormError e)) { w with w_db := d }.
Proof.
  intros HQ Hf. apply HQ; [by eapply failed_same|]. exists e. split; [apply Hf|done].
Qed.

Lemma wp_insert t r (Q : result GoErr (row t) -> World -> Prop) w :
  on_failure w Q ->
  (forall id now w', let r' := stamp t id now r in
     id <> 0%N -> absent t r' (tbl t w) = true -> put t (tbl t w ++ [r']) w w' -> Q (Ok r') w') ->
  wp (stmt (db_insert t r)) Q w.
Proof.
  intros He Hk. apply wp_stmt. eapply wp_mono; [apply insert_law|]. intros [r'|e] d; cbn.
  - intros (id & now & Hid & -> & Ha & Hl & Ho). by apply Hk.
  - by apply failed_on_failure.
Qed.

Lemma wp_upsert t key merge r (Q : result GoErr (row t) -> World -> Prop) w :
  on_failure w Q ->
  (forall id now now' w', let r' := stamp t id now r in
     let l := set_where key (merge now' r') (tbl t w) in
     existsb key (tbl t w) = true -> no_conflicts t l = true -> put t l w w' -> Q (Ok r') w') ->
  (forall id now w', let r' := stamp t id now r in
     existsb key (tbl t w) = false -> id <> 0%N -> absent t r' (tbl t w) = true ->
     put t (tbl t w ++ [r']) w w' -> Q (Ok r') w') ->
  wp (stmt (db_upsert t key merge r)) Q w.
Proof.
  intros He Hu Hi. apply wp_stmt. eapply wp_mono; [apply upsert_law|]. intros [r'|e] d; cbn.
  - intros (id & now & Hid & -> & Hr). fold (tbl t w) in Hr. destruct (existsb key (tbl t w)) eqn:Ek.
    + destruct Hr as (now' & Hn & Hl & Ho). by eapply Hu.
    + destruct Hr as (Ha & Hl & Ho). by apply Hi.
  - by apply failed_on_failure.
Qed.

Lemma wp_update_at t p f (Q : result GoErr Z -> World -> Prop) w :
  on_failure w Q ->
  (forall now w', let l := set_where p (f now) (tbl t w) in
     no_conflicts t l = true -> put t l w w' -> Q (Ok (Z.of_nat (length (sel p (tbl t w))))) w') ->
  wp (stmt (db_update_at t p f)) Q w.
Proof.
  intros He Hk. apply wp_stmt. eapply wp_mono; [apply update_law|]. intros [n|e] d; cbn.
  - intros (-> & now & Hn & Hl & Ho). by eapply Hk.
  - by apply failed_on_failure.
Qed.

Lemma wp_update t p f (Q : result GoErr Z -> World -> Prop) w :
  on_failure w Q ->
  (forall now w', let l := set_where p (fun x => touch t now (f x)) (tbl t w) in
     no_conflicts t l = true -> put t l w w' -> Q (Ok (Z.of_nat (length (sel p (tbl t w))))) w') ->
  wp (stmt (db_update t p f)) Q w.
Proof. apply wp_update_at. Qed.

Lemma wp_delete t p (Q : result GoErr Z -> World -> Prop) w :
  on_failure w Q ->
  (forall w', put t (sel (fun x => negb (p x)) (tbl t w)) w w' ->
     Q (Ok (Z.of_nat (length (sel p (tbl t w))))) w') ->
  wp (stmt (db_delete t p)) Q w.
Proof.
  intros He Hk. apply wp_stmt. eapply wp_mono; [apply delete_law|]. intros [n|e] d; cbn.
  - intros (-> & Hl & Ho). by apply Hk.
  - by apply failed_on_failure.
Qed.

Lemma wp_select t p o limit (Q : result GoErr (list (row t)) -> World -> Prop) w :
  on_failure w Q ->
  (forall all w', same w w' -> all ≡ₚ sel p (tbl t w) ->
     StronglySorted (fun a b => ord_le o a b = true) all -> Q (Ok (limited limit all)) w') ->
  wp (stmt (db_select t p o limit)) Q w.
Proof.
  intros He Hk. apply wp_stmt. eapply wp_mono; [apply select_law|]. intros [l|e] d; cbn.
  - intros (Hs & all & Hp & Ho & ->). apply Hk; [|done..]. split; [exact Hs|done].
  - by apply failed_on_failure.
Qed.

Lemma wp_first t p o (Q : result GoErr (row t) -> World -> Prop) w :
  on_failure w Q ->
  (forall w', same w w' -> (forall r, r ∈ tbl t w -> p r = false) -> Q (Err ErrNotFound) w') ->
  (forall r w', same w w' -> r ∈ tbl t w -> p r = true ->
     (forall r', r' ∈ tbl t w -> p r' = true -> ord_le o r r' = true) -> Q (Ok r) w') ->
  wp (first t p o) Q w.
Proof.
  intros He Hn Hk. apply wp_bind, wp_select; [exact He|]. intros all w' Hs Hp Ho.
  destruct all as [|r all]; cbn.
  - apply wp_throw, Hn; [done|]. intros r Hr. apply not_true_is_false. intros Hpr.
    assert (r ∈ sel p (tbl t w)) as Hin by by apply elem_of_sel. rewrite <- Hp in Hin. by apply elem_of_nil in Hin.
  - apply wp_ret. assert (r ∈ sel p (tbl t w)) as [H1 H2]%elem_of_sel by (rewrite <- Hp; set_solver).
    apply Hk; [done..|]. intros r' Hr' Hp'.
    assert (r' ∈ r :: all) as Hin by by rewrite Hp, elem_of_sel.
    inversion_clear Ho as [|? ? _ Hall]. apply elem_of_cons in Hin as [->|Hin].
    + by destruct (ord_total _ o r r).
    + rewrite Forall_forall in Hall. auto.
Qed.

Lemma sel_nil {A} (p : A -> bool) l : length (sel p l) = 0 <-> forall x, x ∈ l -> p x = false.
Proof.
  split.
  - intros Hl x Hx. apply not_true_is_false. intros Hp.
    assert (x ∈ sel p l) as Hin by by apply elem_of_sel. destruct (sel p l); [by apply elem_of_nil in Hin|done].
  - intros Hl. destruct (sel p l) as [|x l'] eqn:E; [done|].
    assert (x ∈ sel p l) as [Hx Hp]%elem_of_sel by (rewrite E; set_solver). rewrite Hl in Hp; done.
Qed.

Lemma wp_must_affect (m : M GoErr World Z) (Q : result GoErr unit -> World -> Prop) w :
  wp m (fun res w' => match res with
                      | Ok n => if Z.eqb n 0 then Q (Err ErrNotFound) w' else Q (Ok tt) w'
                      | Err e => Q (Err e) w' end) w ->
  wp (must_affect m) Q w.
Proof.
  intros Hm. apply wp_bind. eapply wp_mono; [exact Hm|]. intros [n|e] w'; [|done]. by destruct (Z.eqb n 0).
Qed.

Lemma set_where_none {A} (p : A -> bool) f l : (forall x, x ∈ l -> p x = false) -> set_where p f l = l.
Proof.
  unfold set_where. induction l as [|x l IH]; intros Hp; cbn; [done|].
  rewrite Hp by set_solver. f_equal. apply IH. set_solver.
Qed.
Lemma sel_all {A} (p : A -> bool) l : (forall x, x ∈ l -> p x = true) -> sel p l = l.
Proof.
  unfold sel. induction l as [|x l IH]; intros Hp; cbn; [done|].
  rewrite Hp by set_solver. f_equal. apply IH. set_solver.
Qed.
Lemma put_same t w w' : put t (tbl t w) w w' -> same w w'.
Proof.
  intros (Hl & Ho & Hc). split; [|done]. intros t'. destruct (decide (t' = t)) as [->|]; auto.
Qed.
Lemma sel_length_pos {A} (p : A -> bool) l : length (sel p l) <> 0 -> exists x, x ∈ l /\ p x = true.
Proof.
  intros Hl. destruct (sel p l) as [|x l'] eqn:E; [done|]. exists x. apply elem_of_sel. rewrite E. set_solver.
Qed.

(** [Updates] and [Delete] that must affect a row. *)
Lemma wp_update_at_found t p f (Q : result GoErr unit -> World -> Prop) w :
  on_failure w Q ->
  (forall w', same w w' -> (forall r, r ∈ tbl t w -> p r = false) -> Q (Err ErrNotFound) w') ->
  (forall now w', let l := set_where p (f now) (tbl t w) in
     (exists r, r ∈ tbl t w /\ p r = true) -> no_conflicts t l = true -> put t l w w' -> Q (Ok tt) w') ->
  wp (must_affect (stmt (db_update_at t p f))) Q w.
Proof.
  intros He Hn Hk. apply wp_must_affect, wp_update_at; [by intros e w'; apply He|]. intros now w' l Hl Hp.
  destruct (Z.eqb_spec (Z.of_nat (length (sel p (tbl t w)))) 0) as [E|E].
  - assert (length (sel p (tbl t w)) = 0) as Hlen by lia. rewrite sel_nil in Hlen.
    apply Hn; [|done]. apply (put_same t). unfold l in Hp. by rewrite set_where_none in Hp.
  - eapply Hk; [|exact Hl|exact Hp]. apply sel_length_pos. lia.
Qed.

Lemma wp_update_found t p f (Q : result GoErr unit -> World -> Prop) w :
  on_failure w Q ->
  (forall w', same w w' -> (forall r, r ∈ tbl t w -> p r = false) -> Q (Err ErrNotFound) w') ->
  (forall now w', let l := set_where p (fun x => touch t now (f x)) (tbl t w) in
     (exists r, r ∈ tbl t w /\ p r = true) -> no_conflicts t l = true -> put t l w w' -> Q (Ok tt) w') ->
  wp (must_affect (stmt (db_update t p f))) Q w.
Proof. apply wp_update_at_found. Qed.

Lemma wp_delete_found t p (Q : result GoErr unit -> World -> Prop) w :
  on_failure w Q ->
  (forall w', same w w' -> (forall r, r ∈ tbl t w -> p r = false) -> Q (Err ErrNotFound) w') ->
  (forall w', (exists r, r ∈ tbl t w /\ p r = true) ->
     put t (sel (fun x => negb (p x)) (tbl t w)) w w' -> Q (Ok tt) w') ->
  wp (must_affect (stmt (db_delete t p))) Q w.
Proof.
  intros He Hn Hk. apply wp_must_affect, wp_delete; [by intros e w'; apply He|]. intros w' Hp.
  destruct (Z.eqb_spec (Z.of_nat (length (sel p (tbl t w)))) 0) as [E|E].
  - assert (length (sel p (tbl t w)) = 0) as Hlen by lia. rewrite sel_nil in Hlen.
    apply Hn; [|done]. apply (put_same t). rewrite sel_all in Hp; [done|]. intros x Hx. by rewrite Hlen.
  - apply Hk; [|exact Hp]. apply sel_length_pos. lia.
Qed.

Lemma wp_time_now {E} (Q : result E Z -> World -> Prop) w :
  Q (Ok (the_time w)) { w with w_reads ::= S } -> wp time_now Q w.
Proof. done. Qed.

(** A transaction keeps what its body did, or leaves every table as it
    found it. *)
Lemma wp_transaction {A} ce (fn : M GoErr World A) (Q : result GoErr A -> World -> Prop) w :
  (forall d, d <> RecordNotFound -> db_error (ce d)) ->
  wp fn (fun res w1 =>
    match res with
    | Ok a => (forall w2, same w1 w2 -> Q (Ok a) w2) /\
              (forall e w2, (forall t, tbl t w2 = tbl t w) -> w_clock w2 = w_clock w1 -> w_reads w2 = w_reads w1 ->
                 db_error e -> Q (Err e) w2)
    | Err e => forall w2, (forall t, tbl t w2 = tbl t w) -> w_clock w2 = w_clock w1 -> w_reads w2 = w_reads w1 ->
                 Q (Err e) w2
    end) w -> wp (transaction ce fn) Q w.
Proof.
  intros Hce. unfold wp, transaction. destruct (fn w) as [[a|e] w1]; cbn.
  - intros [Hok Herr]. unfold map_err, on_db, zoom. pose proof (commit_law (w_db w1)) as Hc. unfold wp in Hc.
    destruct (db_commit (w_db w1)) as [[[]|e] d]; cbn in *.
    + apply Hok. split; [exact Hc|done].
    + apply Herr; [|done..|by apply Hce]. intros t. apply rollback_law.
  - intros HQ. apply HQ; [|done..]. intros t. apply rollback_law.
Qed.
Lemma normalize_db_error d : d <> RecordNotFound -> db_error (normalizeGormError d).
Proof. by exists d. Qed.
End Rules.

(** A world over the in-memory database, for concrete runs. *)
Definition mem_world (m : Mem.mem) : @World Mem.database :=
  {| w_db := (m : @db Mem.database); w_clock := fun n => (1000 + Z.of_nat n)%Z; w_reads := 0 |}.
