(* ===== verification/Auditing.v ===== *)
(** * Request context and audit log

    [infrastructure/security/request_auth.go], [application/audit] and
    [application/service/audit_helpers.go]: the identity a request
    carries, audit events, and the recorder that writes them best-effort
    to the audit table.  Logging is not modelled. *)
From S2P Require Import Prelude GoStrings Entities Tables Db.
From stdpp Require Import base list strings sets pretty sorting.
From Stdlib Require Import ZArith Lia Ascii.

Local Open Scope string_scope.
Local Open Scope list_scope.
Local Open Scope go_scope.

(** ** JSON values, and [json.Marshal]

    A number that is no integer is given by its text. *)
Inductive Json : Type :=
| JNull
| JBool (b : bool)
| JNum (z : Z)
| JFloat (text : string)
| JStr (s : string)
| JArr (l : list Json)
| JObj (l : list (string * Json)).

Definition hex_digit (n : N) : ascii :=
  ascii_of_N (if (n <? 10)%N then 48 + n else 87 + n).

(** One byte of a string; bytes of multi-byte characters are kept. *)
Definition escape_byte (c : ascii) : string :=
  let n := N_of_ascii c in
  if (n =? 34)%N then String "\" (String c "")
  else if (n =? 92)%N then "\\"
  else if (n =? 10)%N then "\n"
  else if (n =? 13)%N then "\r"
  else if (n =? 9)%N then "\t"
  else if (n =? 8)%N then "\b"
  else if (n =? 12)%N then "\f"
  else if ((n <? 32) || (n =? 60) || (n =? 62) || (n =? 38))%N
  then "\u00" +:+ String (hex_digit (n / 16)) (String (hex_digit (n mod 16)) "")
  else String c "".
Fixpoint escape (s : string) : string :=
  match s with EmptyString => "" | String c s' => escape_byte c +:+ escape s' end.
Definition dquote : string := String (ascii_of_N 34) "".
Definition quote (s : string) : string := dquote +:+ escape s +:+ dquote.

Definition key_le (a b : string * string) : Prop := String.le (fst a) (fst b).
#[export] Instance key_le_dec : RelDecision key_le.
Proof. intros a b. unfold key_le. apply _. Defined.
Fixpoint join_comma (l : list string) : string :=
  match l with [] => "" | [a] => a | a :: l' => a +:+ "," +:+ join_comma l' end.

(** Object keys in increasing order, as [encoding/json] prints a map. *)
Fixpoint json_marshal (j : Json) : string :=
  match j with
  | JNull => "null"
  | JBool b => if b then "true" else "false"
  | JNum z => pretty z
  | JFloat text => text
  | JStr s => quote s
  | JArr l => "[" +:+ join_comma (map json_marshal l) +:+ "]"
  | JObj l => "{" +:+ join_comma (map (fun '(k, v) => quote k +:+ ":" +:+ v)
                (merge_sort key_le (map (fun '(k, v) => (k, json_marshal v)) l))) +:+ "}"
  end.

Example json_marshal_ex : json_marshal (JObj [("b", JArr [JNum (-3); JNull]); ("a", JBool true)]) =
  "{" +:+ quote "a" +:+ ":true," +:+ quote "b" +:+ ":[-3,null]}".
Proof. vm_compute. reflexivity. Qed.

Definition JUint (n : N) : Json := JNum (Z.of_N n).
Definition JOptUint (n : option N) : Json := match n with Some n => JUint n | None => JNull end.

(** ** [request_auth.go], [context.go] *)
Record RequestAuth := {
  ra_UserID : N; ra_Username : string; ra_RoleKey : string; ra_Status : string;
  ra_Capabilities : list string
}.
#[export] Instance eta_RequestAuth : Eta RequestAuth := fun r =>
  {| ra_UserID := ra_UserID r; ra_Username := ra_Username r; ra_RoleKey := ra_RoleKey r;
     ra_Status := ra_Status r; ra_Capabilities := ra_Capabilities r |}.
Record RequestContext := {
  rc_RequestID : string; rc_EntryPoint : string; rc_ClientIP : string; rc_UserAgent : string;
  rc_Method : string; rc_Path : string
}.
#[export] Instance eta_RequestContext : Eta RequestContext := fun r =>
  {| rc_RequestID := rc_RequestID r; rc_EntryPoint := rc_EntryPoint r;
     rc_ClientIP := rc_ClientIP r; rc_UserAgent := rc_UserAgent r; rc_Method := rc_Method r;
     rc_Path := rc_Path r |}.
(** The values a [context.Context] carries. *)
Record Ctx := { ctx_auth : option RequestAuth; ctx_request : option RequestContext }.
#[export] Instance eta_Ctx : Eta Ctx := fun r =>
  {| ctx_auth := ctx_auth r; ctx_request := ctx_request r |}.

Definition RequestAuthFromContext (ctx : Ctx) : option RequestAuth := ctx_auth ctx.
Definition RequestContextFromContext (ctx : Ctx) : option RequestContext := ctx_request ctx.
Definition WithRequestAuth (ctx : Ctx) (auth : RequestAuth) : Ctx := { ctx with ctx_auth := Some auth }.
Definition WithRequestContext (ctx : Ctx) (value : RequestContext) : Ctx := { ctx with ctx_request := Some value }.

Definition currentRequestAuth (ctx : Ctx) : result GoErr RequestAuth :=
  match RequestAuthFromContext ctx with
  | Some auth => Ok auth
  | None => Err ErrPermissionDenied
  end.

Record Snapshot := {
  sn_RequestID : string; sn_EntryPoint : string; sn_ActorUserID : option N;
  sn_ActorUsername : string; sn_ActorRoleKey : string; sn_ClientIP : string;
  sn_UserAgent : string; sn_Method : string; sn_Path : string
}.
#[export] Instance eta_Snapshot : Eta Snapshot := fun r =>
  {| sn_RequestID := sn_RequestID r; sn_EntryPoint := sn_EntryPoint r;
     sn_ActorUserID := sn_ActorUserID r; sn_ActorUsername := sn_ActorUsername r;
     sn_ActorRoleKey := sn_ActorRoleKey r; sn_ClientIP := sn_ClientIP r;
     sn_UserAgent := sn_UserAgent r; sn_Method := sn_Method r; sn_Path := sn_Path r |}.
Definition uintPointerFromValue (value : N) : option N := if N.eqb value 0 then None else Some value.

Definition SnapshotFromContext (ctx : Ctx) : Snapshot :=
  let snapshot := {| sn_RequestID := ""; sn_EntryPoint := ""; sn_ActorUserID := None;
    sn_ActorUsername := ""; sn_ActorRoleKey := ""; sn_ClientIP := ""; sn_UserAgent := "";
    sn_Method := ""; sn_Path := "" |} in
  let snapshot := match RequestContextFromContext ctx with
    | Some r => { snapshot with sn_RequestID := rc_RequestID r; sn_EntryPoint := rc_EntryPoint r;
        sn_ClientIP := rc_ClientIP r; sn_UserAgent := rc_UserAgent r; sn_Method := rc_Method r;
        sn_Path := rc_Path r }
    | None => snapshot
    end in
  match RequestAuthFromContext ctx with
  | Some auth => { snapshot with sn_ActorUserID := uintPointerFromValue (ra_UserID auth);
      sn_ActorUsername := ra_Username auth; sn_ActorRoleKey := ra_RoleKey auth }
  | None => snapshot
  end.

(** ** [event.go], [summary.go] *)
Definition ResultSuccess := "success".
Definition ResultFailed := "failed".
Definition ResultDenied := "denied".

Record Target := {
  tg_ResourceID : string; tg_SourceID : option N; tg_VirtualPath : string;
  tg_ResolvedSourceID : option N; tg_ResolvedPath : string
}.
#[export] Instance eta_Target : Eta Target := fun r =>
  {| tg_ResourceID := tg_ResourceID r; tg_SourceID := tg_SourceID r;
     tg_VirtualPath := tg_VirtualPath r; tg_ResolvedSourceID := tg_ResolvedSourceID r;
     tg_ResolvedPath := tg_ResolvedPath r |}.
(** A nil map and an empty one are the same to the recorder. *)
Record Event := {
  ev_ResourceType : string; ev_Action : string; ev_Result : string; ev_ErrorCode : string;
  ev_ResourceID : string; ev_SourceID : option N; ev_VirtualPath : string; ev_Target : Target;
  ev_Before : list (string * Json); ev_After : list (string * Json); ev_Detail : list (string * Json)
}.
#[export] Instance eta_Event : Eta Event := fun r =>
  {| ev_ResourceType := ev_ResourceType r; ev_Action := ev_Action r; ev_Result := ev_Result r;
     ev_ErrorCode := ev_ErrorCode r; ev_ResourceID := ev_ResourceID r;
     ev_SourceID := ev_SourceID r; ev_VirtualPath := ev_VirtualPath r;
     ev_Target := ev_Target r; ev_Before := ev_Before r; ev_After := ev_After r;
     ev_Detail := ev_Detail r |}.
Definition no_target : Target := {| tg_ResourceID := ""; tg_SourceID := None; tg_VirtualPath := "";
  tg_ResolvedSourceID := None; tg_ResolvedPath := "" |}.
(** An event with the fields every call sets; the others are zero. *)
Definition event (ResourceType Action Result ErrorCode ResourceID : string) : Event :=
  {| ev_ResourceType := ResourceType; ev_Action := Action; ev_Result := Result;
     ev_ErrorCode := ErrorCode; ev_ResourceID := ResourceID; ev_SourceID := None;
     ev_VirtualPath := ""; ev_Target := no_target; ev_Before := []; ev_After := []; ev_Detail := [] |}.

Definition Summary (event : Event) : string :=
  if String.eqb (ev_ResourceType event) "user" && String.eqb (ev_Action event) "create" &&
     String.eqb (ev_Result event) ResultSuccess then "创建用户"
  else if String.eqb (ev_ResourceType event) "storage_source" && String.eqb (ev_Action event) "update" &&
     String.eqb (ev_Result event) ResultSuccess then "更新存储源配置"
  else if String.eqb (ev_Result event) ResultDenied then "敏感操作被拒绝"
  else ev_ResourceType event +:+ "." +:+ ev_Action event +:+ "." +:+ ev_Result event.

(** ** [recorder.go] *)
Definition normalizeTarget (event : Event) : Target :=
  let target := ev_Target event in
  let target := if String.eqb (tg_ResourceID target) ""
                then { target with tg_ResourceID := ev_ResourceID event } else target in
  let target := match tg_SourceID target with
                | None => { target with tg_SourceID := ev_SourceID event } | Some _ => target end in
  if String.eqb (tg_VirtualPath target) ""
  then { target with tg_VirtualPath := ev_VirtualPath event } else target.

Definition encodeOptionalJSON (value : list (string * Json)) : string :=
  match value with [] => "" | _ => json_marshal (JObj value) end.

(** [model_helpers.go]: [normalizeJSON] returns [raw] whether or not it is
    valid JSON. *)
Definition normalizeJSON (raw fallback : string) : string :=
  let trimmed := trim_space raw in
  if String.eqb trimmed "" || equal_fold trimmed "null" then fallback else raw.
Definition jsonObject (raw : string) : string := normalizeJSON raw "{}".
Definition jsonArray (raw : string) : string := normalizeJSON raw "[]".
Definition nullableUint (value : N) : option N := if N.eqb value 0 then None else Some value.
Definition uintValue (value : option N) : N := match value with None => 0 | Some v => v end.

Section Recorder.
Context `{Database}.

Definition auditLogModelFromEntity (log : AuditLog) : M GoErr World AuditLog :=
  createdAt <-! (if Z.eqb (al_CreatedAt log) 0 then time_now else ret (al_CreatedAt log)) ;;
  let occurredAt := if Z.eqb (al_OccurredAt log) 0 then createdAt else al_OccurredAt log in
  ret { log with al_OccurredAt := occurredAt; al_BeforeJSON ::= jsonObject;
        al_AfterJSON ::= jsonObject; al_DetailJSON ::= jsonObject; al_CreatedAt := createdAt }.

Definition AuditLogRepository_Create (log : AuditLog) : M GoErr World AuditLog :=
  model <-! auditLogModelFromEntity log ;;
  stmt (db_insert TAudit model).

Definition Record_ (ctx : Ctx) (event : Event) : M GoErr World unit :=
  now <-! time_now ;;
  let snapshot := SnapshotFromContext ctx in
  let target := normalizeTarget event in
  do! AuditLogRepository_Create
    {| al_ID := 0; al_OccurredAt := now; al_RequestID := sn_RequestID snapshot;
       al_EntryPoint := sn_EntryPoint snapshot; al_ActorUserID := sn_ActorUserID snapshot;
       al_ActorUsername := sn_ActorUsername snapshot; al_ActorRoleKey := sn_ActorRoleKey snapshot;
       al_ClientIP := sn_ClientIP snapshot; al_UserAgent := sn_UserAgent snapshot;
       al_Method := sn_Method snapshot; al_Path := sn_Path snapshot;
       al_ResourceType := ev_ResourceType event; al_Action := ev_Action event;
       al_Result := ev_Result event; al_ErrorCode := ev_ErrorCode event;
       al_ResourceID := tg_ResourceID target; al_SourceID := tg_SourceID target;
       al_VirtualPath := tg_VirtualPath target; al_ResolvedSourceID := tg_ResolvedSourceID target;
       al_ResolvedPath := tg_ResolvedPath target;
       al_BeforeJSON := encodeOptionalJSON (ev_Before event);
       al_AfterJSON := encodeOptionalJSON (ev_After event);
       al_DetailJSON := encodeOptionalJSON (ev_Detail event); al_CreatedAt := now |} ;;
  ret tt.

(** A nil recorder records nothing; an error of [Record] is logged. *)
Definition RecordBestEffort (ctx : Ctx) (recorder : bool) (event : Event) : M GoErr World unit :=
  if recorder then u <-! Record_ ctx event or e => ret tt ;; ret tt else ret tt.
Definition recordServiceAudit := RecordBestEffort.

(** Record an event and return an error. *)
Definition refuse {A} (recorder : bool) (ctx : Ctx) (e : Event) (err : GoErr) : M GoErr World A :=
  do! recordServiceAudit ctx recorder e ;; throw err.
End Recorder.

(** ** [audit_helpers.go] *)
Definition encodeUintID (value : N) : string := if N.eqb value 0 then "" else pretty value.

Definition userAuditView (user : User) : list (string * Json) :=
  [("id", JUint (u_ID user)); ("username", JStr (u_Username user)); ("email", JStr (u_Email user));
   ("role_key", JStr (u_RoleKey user)); ("status", JStr (u_Status user))].

Definition systemConfigAuditView (cfg : SystemConfig) : list (string * Json) :=
  [("site_name", JStr (cfg_SiteName cfg)); ("multi_user_enabled", JBool (cfg_MultiUserEnabled cfg));
   ("default_source_id", JOptUint (cfg_DefaultSourceID cfg)); ("max_upload_size", JNum (cfg_MaxUploadSize cfg));
   ("default_chunk_size", JNum (cfg_DefaultChunkSize cfg)); ("webdav_enabled", JBool (cfg_WebDAVEnabled cfg));
   ("webdav_prefix", JStr (cfg_WebDAVPrefix cfg)); ("theme", JStr (cfg_Theme cfg));
   ("language", JStr (cfg_Language cfg)); ("time_zone", JStr (cfg_TimeZone cfg))].

Definition sourceAuditView (source : StorageSource) : list (string * Json) :=
  [("id", JUint (src_ID source)); ("name", JStr (src_Name source));
   ("driver_type", JStr (src_DriverType source)); ("is_enabled", JBool (src_IsEnabled source));
   ("is_webdav_exposed", JBool (src_IsWebDAVExposed source));
   ("webdav_read_only", JBool (src_WebDAVReadOnly source)); ("mount_path", JStr (src_MountPath source));
   ("root_path", JStr (src_RootPath source)); ("sort_order", JNum (src_SortOrder source));
   ("config", JObj [])].

Definition sourceTestDetail (source : StorageSource) (latencyMS : Z) (reachable : bool) : list (string * Json) :=
  [("name", JStr (src_Name source)); ("driver_type", JStr (src_DriverType source));
   ("reachable", JBool reachable); ("latency_ms", JNum latencyMS)].

Definition aclRuleAuditView (rule : ACLRule) : list (string * Json) :=
  [("id", JUint (acl_ID rule)); ("source_id", JUint (acl_SourceID rule));
   ("vfs_node_id", JOptUint (acl_VFSNodeID rule)); ("path", JStr (acl_Path rule));
   ("virtual_path", JStr (acl_VirtualPath rule)); ("subject_type", JStr (acl_SubjectType rule));
   ("subject_id", JUint (acl_SubjectID rule)); ("effect", JStr (acl_Effect rule));
   ("priority", JNum (acl_Priority rule)); ("inherit_to_children", JBool (acl_InheritToChildren rule));
   ("permissions", JObj [("read", JBool (acl_Read rule)); ("write", JBool (acl_Write rule));
                         ("delete", JBool (acl_Delete rule)); ("share", JBool (acl_Share rule))])].

Definition sourceErrorCode (err : GoErr) : string :=
  if err_is err ErrSourceDriverUnsupported then "SOURCE_DRIVER_UNSUPPORTED" else
  if err_is err ErrSourceOperationUnsupported then "SOURCE_OPERATION_UNSUPPORTED" else
  if err_is err ErrConfigInvalid then "CONFIG_INVALID" else
  if err_is err ErrCloudAuthFailed then "CLOUD_AUTH_FAILED" else
  if err_is err ErrCloudTokenInvalid then "CLOUD_TOKEN_INVALID" else
  if err_is err ErrCloudCaptchaRequired || err_is err ErrCloudCaptchaExpired then "CLOUD_CAPTCHA_REQUIRED" else
  if err_is err ErrCloudRateLimited then "CLOUD_RATE_LIMITED" else
  if err_is err ErrCloudRegionBlocked then "CLOUD_REGION_BLOCKED" else
  if err_is err ErrCloudProviderUnavailable then "CLOUD_PROVIDER_UNAVAILABLE" else
  if err_is err ErrSourceConnectionFailed then "SOURCE_CONNECTION_FAILED" else
  if err_is err ErrSourceNameConflict then "SOURCE_NAME_CONFLICT" else
  if err_is err ErrSourceMountPathConflict then "MOUNT_PATH_CONFLICT" else
  if err_is err ErrSourceInUse then "SOURCE_IN_USE" else
  if err_is err ErrMetadataVFSMountSyncFailed then "METADATA_VFS_MOUNT_SYNC_FAILED" else
  if err_is err ErrPathInvalid then "PATH_INVALID" else
  if err_is err ErrFileNotFound then "VFS_NODE_NOT_FOUND" else
  "INTERNAL_ERROR".

Definition aclErrorCode (err : GoErr) : string :=
  if err_is err ErrACLSubjectTypeInvalid then "ACL_SUBJECT_TYPE_INVALID" else
  if err_is err ErrACLEffectInvalid then "ACL_EFFECT_INVALID" else
  if err_is err ErrACLPermissionsInvalid then "ACL_PERMISSIONS_INVALID" else
  if err_is err ErrPathInvalid then "PATH_INVALID" else
  if err_is err ErrFileNotFound then "VFS_NODE_NOT_FOUND" else
  "INTERNAL_ERROR".

Definition mapFileErrorCode (err : GoErr) : string :=
  if err_is err ErrFileNotFound then "FILE_NOT_FOUND" else
  if err_is err ErrFileAlreadyExists then "FILE_ALREADY_EXISTS" else
  if err_is err ErrFileNameInvalid then "FILE_NAME_INVALID" else
  if err_is err ErrFileIsDirectory then "FILE_IS_DIRECTORY" else
  if err_is err ErrFileMoveConflict then "FILE_MOVE_CONFLICT" else
  if err_is err ErrFileCopyConflict then "FILE_COPY_CONFLICT" else
  if err_is err ErrUploadSessionNotFound then "UPLOAD_SESSION_NOT_FOUND" else
  if err_is err ErrUploadChunkConflict then "UPLOAD_CHUNK_CONFLICT" else
  if err_is err ErrUploadFinishIncomplete then "UPLOAD_FINISH_INCOMPLETE" else
  if err_is err ErrUploadHashMismatch then "UPLOAD_HASH_MISMATCH" else
  if err_is err ErrUploadInvalidState then "UPLOAD_INVALID_STATE" else
  if err_is err ErrUploadTooLarge then "UPLOAD_TOO_LARGE" else
  if err_is err ErrSourceDriverUnsupported then "SOURCE_DRIVER_UNSUPPORTED" else
  if err_is err ErrSourceOperationUnsupported then "SOURCE_OPERATION_UNSUPPORTED" else
  if err_is err ErrConfigInvalid then "CONFIG_INVALID" else
  if err_is err ErrCloudAuthFailed then "CLOUD_AUTH_FAILED" else
  if err_is err ErrCloudTokenInvalid then "CLOUD_TOKEN_INVALID" else
  if err_is err ErrCloudCaptchaRequired || err_is err ErrCloudCaptchaExpired then "CLOUD_CAPTCHA_REQUIRED" else
  if err_is err ErrCloudRateLimited then "CLOUD_RATE_LIMITED" else
  if err_is err ErrCloudRegionBlocked then "CLOUD_REGION_BLOCKED" else
  if err_is err ErrCloudProviderUnavailable then "CLOUD_PROVIDER_UNAVAILABLE" else
  if err_is err ErrSourceReadOnly then "SOURCE_READ_ONLY" else
  if err_is err ErrMetadataVFSMutationSyncFailed then "METADATA_VFS_MUTATION_SYNC_FAILED" else
  if err_is err ErrMetadataVFSCommitFailed then "METADATA_VFS_COMMIT_FAILED" else
  if err_is err ErrPathInvalid then "PATH_INVALID" else
  "INTERNAL_ERROR".

Definition taskErrorCode (err : GoErr) : string :=
  if err_is err ErrPermissionDenied then "PERMISSION_DENIED" else
  if err_is err ErrSourceDriverUnsupported then "SOURCE_DRIVER_UNSUPPORTED" else
  if err_is err ErrSourceOperationUnsupported then "SOURCE_OPERATION_UNSUPPORTED" else
  if err_is err ErrDownloaderAuthFailed then "DOWNLOADER_AUTH_FAILED" else
  if err_is err ErrDownloaderUnavailable then "DOWNLOADER_UNAVAILABLE" else
  if err_is err ErrDownloadLinkUnsupported then "DOWNLOAD_LINK_UNSUPPORTED" else
  if err_is err ErrCloudAuthFailed then "CLOUD_AUTH_FAILED" else
  if err_is err ErrCloudTokenInvalid then "CLOUD_TOKEN_INVALID" else
  if err_is err ErrCloudCaptchaRequired || err_is err ErrCloudCaptchaExpired then "CLOUD_CAPTCHA_REQUIRED" else
  if err_is err ErrCloudRateLimited then "CLOUD_RATE_LIMITED" else
  if err_is err ErrCloudRegionBlocked then "CLOUD_REGION_BLOCKED" else
  if err_is err ErrCloudProviderUnavailable then "CLOUD_PROVIDER_UNAVAILABLE" else
  if err_is err ErrTaskInvalidState then "TASK_INVALID_STATE" else
  if err_is err ErrNoBackingStorage then "NO_BACKING_STORAGE" else
  if err_is err ErrMetadataVFSCommitFailed then "METADATA_VFS_COMMIT_FAILED" else
  if err_is err ErrPathInvalid then "PATH_INVALID" else
  "INTERNAL_ERROR".

Definition shareErrorCode (err : GoErr) : string :=
  if err_is err ErrPermissionDenied then "PERMISSION_DENIED" else
  if err_is err ErrFileNotFound then "FILE_NOT_FOUND" else
  if err_is err ErrShareExpired then "SHARE_EXPIRED" else
  if err_is err ErrSharePasswordRequired then "SHARE_PASSWORD_REQUIRED" else
  if err_is err ErrSharePasswordInvalid then "SHARE_PASSWORD_INVALID" else
  if err_is err ErrSourceDriverUnsupported then "SOURCE_DRIVER_UNSUPPORTED" else
  if err_is err ErrSourceOperationUnsupported then "SOURCE_OPERATION_UNSUPPORTED" else
  if err_is err ErrPathInvalid then "PATH_INVALID" else
  "INTERNAL_ERROR".

(** ** The frame of an audited step *)
Section Frame.
Context `{DatabaseLaws}.

(** [frames ts w w']: only the tables [ts] may differ, the tables stay
    within their unique indexes, and the clock is only read. *)
Definition frames (ts : list Table) (w w' : World) : Prop :=
  (forall t, t ∉ ts -> tbl t w' = tbl t w) /\ (valid w -> valid w') /\
  w_clock w' = w_clock w /\ w_reads w <= w_reads w'.

Lemma frames_refl ts w : frames ts w w.
Proof. split_and!; auto. Qed.
Lemma frames_trans ts w1 w2 w3 : frames ts w1 w2 -> frames ts w2 w3 -> frames ts w1 w3.
Proof.
  intros (A1 & A2 & A3 & A4) (B1 & B2 & B3 & B4). split_and!; [|auto|congruence|lia].
  intros t Ht. by rewrite B1, A1.
Qed.
Lemma frames_mono ts ts' w w' : frames ts w w' -> ts ⊆ ts' -> frames ts' w w'.
Proof. intros (A1 & A2 & A3 & A4) Hs. split_and!; [|done..]. intros t Ht. apply A1. set_solver. Qed.
Lemma same_frames ts w w' : same w w' -> frames ts w w'.
Proof. intros Hs. split_and!; [intros; apply Hs|by apply same_valid|apply Hs|]. destruct Hs as (_ & _ & ->). done. Qed.
Lemma put_frames t l w w' : put t l w w' -> (valid w -> no_conflicts t l = true) -> frames [t] w w'.
Proof.
  intros Hp Hn. split_and!.
  - intros t' Ht. apply Hp. set_solver.
  - intros Hv. eapply put_valid; [done|auto|done].
  - apply Hp.
  - destruct Hp as (_ & _ & _ & ->). done.
Qed.
Lemma tick_frames ts w : frames ts w { w with w_reads ::= S }.
Proof. split_and!; [done|auto|done|cbn; lia]. Qed.

Lemma wp_insert_frames t r (Q : result GoErr (row t) -> World -> Prop) w :
  (forall res w', frames [t] w w' -> Q res w') -> wp (stmt (db_insert t r)) Q w.
Proof.
  intros HQ. apply wp_insert.
  - intros e w' Hs _. apply HQ. by apply same_frames.
  - intros id now w' r' _ Ha Hp. apply HQ. apply (put_frames _ _ _ _ Hp). intros Hv. by apply absent_no_conflicts.
Qed.

Lemma wp_audit_create log (Q : result GoErr AuditLog -> World -> Prop) w :
  (forall r w', frames [TAudit] w w' -> Q r w') -> wp (AuditLogRepository_Create log) Q w.
Proof.
  intros HQ. unfold AuditLogRepository_Create, auditLogModelFromEntity.
  apply wp_bind, wp_bind.
  assert (forall r w', frames [TAudit] w w' -> wp (stmt (db_insert TAudit r)) Q w') as Hk.
  { intros r w' Hf. apply (wp_insert_frames TAudit). intros res w'' Hf'. apply HQ. by eapply frames_trans. }
  destruct (Z.eqb _ 0); apply Hk; [apply tick_frames|apply frames_refl].
Qed.

Lemma wp_Record ctx event (Q : result GoErr unit -> World -> Prop) w :
  (forall r w', frames [TAudit] w w' -> Q r w') -> wp (Record_ ctx event) Q w.
Proof.
  intros HQ. unfold Record_. apply wp_bind, wp_time_now, wp_bind, wp_audit_create.
  intros [r|e] w' Hf; [apply wp_ret|]; apply HQ; (eapply frames_trans; [apply tick_frames|done]).
Qed.

(** Auditing never fails and writes only the audit table. *)
Lemma wp_audit ctx recorder event (Q : result GoErr unit -> World -> Prop) w :
  (forall w', frames [TAudit] w w' -> Q (Ok tt) w') -> wp (recordServiceAudit ctx recorder event) Q w.
Proof.
  intros HQ. unfold recordServiceAudit, RecordBestEffort. destruct recorder; [|apply wp_ret, HQ, frames_refl].
  apply wp_bind_or, wp_Record. intros [[]|e] w' Hf; apply wp_ret; auto.
Qed.

Lemma frames_same ts w0 w w' : frames ts w0 w -> same w w' -> frames ts w0 w'.
Proof. intros Hf Hs. eapply frames_trans; [done|by apply same_frames]. Qed.

Lemma frames_tbl ts w w' t : frames ts w w' -> t ∉ ts -> tbl t w' = tbl t w.
Proof. intros (Hf & _). apply Hf. Qed.

(** A write between two steps that only audit. *)
Lemma frames_put ts1 t ts2 ts l w0 w1 w2 w3 :
  frames ts1 w0 w1 -> put t l w1 w2 -> (valid w1 -> no_conflicts t l = true) -> frames ts2 w2 w3 ->
  ts1 ⊆ ts -> t ∈ ts -> ts2 ⊆ ts -> frames ts w0 w3.
Proof.
  intros H1 Hp Hn H2 S1 S2 S3. eapply frames_trans; [by eapply frames_mono|].
  eapply frames_trans; [eapply frames_mono; [by eapply put_frames|set_solver]|by eapply frames_mono].
Qed.

Lemma wp_refuse rec {A} ctx ev err (Q : result GoErr A -> World -> Prop) w0 w :
  frames [TAudit] w0 w -> (forall w', frames [TAudit] w0 w' -> Q (Err err) w') ->
  wp (refuse rec ctx ev err) Q w.
Proof. intros Hf HQ. apply wp_bind, wp_audit. intros w' Hw. apply wp_throw, HQ. by eapply frames_trans. Qed.

(** ** Computations that stay within some tables *)
Definition within {A} (ts : list Table) (m : M GoErr World A) : Prop := forall w, wp m (fun _ w' => frames ts w w') w.

Lemma within_mono {A} ts ts' (m : M GoErr World A) : within ts m -> ts ⊆ ts' -> within ts' m.
Proof. intros Hm Hs w. eapply wp_mono; [apply Hm|]. intros r w' Hf. exact (frames_mono _ _ _ _ Hf Hs). Qed.
(** What a step returns, and the tables it may change. *)
Lemma wp_step {A} ts (m : M GoErr World A) P (Q : result GoErr A -> World -> Prop) w0 w :
  frames ts w0 w -> within ts m -> returns m P ->
  (forall e w', frames ts w0 w' -> Q (Err e) w') -> (forall a w', frames ts w w' -> frames ts w0 w' -> P a -> Q (Ok a) w') ->
  wp m Q w.
Proof.
  intros Hf Hm HP He HQ. eapply wp_mono; [apply wp_conj; [apply Hm|apply HP]|].
  intros [a|e] w' [Hf' HPa]; [apply HQ; [done| |done]|apply He]; by eapply frames_trans.
Qed.

Lemma within_ret {A} ts (a : A) : within ts (ret a).
Proof. intros w. apply wp_ret, frames_refl. Qed.
Lemma within_throw {A} ts e : within ts (throw e : M GoErr World A).
Proof. intros w. apply wp_throw, frames_refl. Qed.
Lemma within_lift {A} ts (r : result GoErr A) : within ts (lift_result r).
Proof. intros w. apply wp_lift_result, frames_refl. Qed.
Lemma within_time ts : within ts time_now.
Proof. intros w. apply wp_time_now, tick_frames. Qed.
Lemma within_bind {A B} ts (m : M GoErr World A) (k : A -> M GoErr World B) :
  within ts m -> (forall a, within ts (k a)) -> within ts (bind m k).
Proof.
  intros Hm Hk w. apply wp_bind. eapply wp_mono; [apply Hm|]. intros [a|e] w' Hf; [|done].
  eapply wp_mono; [apply Hk|]. intros r w'' Hf'. by eapply frames_trans.
Qed.
Lemma within_bind_or {A B} ts (m : M GoErr World A) h (k : A -> M GoErr World B) :
  within ts m -> (forall e, within ts (h e)) -> (forall a, within ts (k a)) -> within ts (bind_or m h k).
Proof.
  intros Hm Hh Hk w. apply wp_bind_or. eapply wp_mono; [apply Hm|].
  intros [a|e] w' Hf; (eapply wp_mono; [apply Hk || apply Hh|]); intros r w'' Hf'; by eapply frames_trans.
Qed.
Lemma within_map_err {A} ts f (m : M GoErr World A) : within ts m -> within ts (map_err f m).
Proof. intros Hm w. apply wp_map_err. eapply wp_mono; [apply Hm|]. by intros [a|e]. Qed.
Lemma within_insert ts t r : t ∈ ts -> within ts (stmt (db_insert t r)).
Proof. intros Ht w. apply (wp_insert_frames t). intros r' w' Hf. eapply frames_mono; [exact Hf|set_solver]. Qed.
Lemma within_upsert ts t key merge r : t ∈ ts -> within ts (stmt (db_upsert t key merge r)).
Proof.
  intros Ht w. apply (wp_upsert t).
  - intros e w' Hs _. by apply same_frames.
  - intros id now now' w' r' l _ Hn Hp. eapply frames_mono; [by eapply put_frames|set_solver].
  - intros id now w' r' _ _ Ha Hp. eapply frames_mono; [eapply put_frames; [exact Hp|]|set_solver].
    intros Hv. by apply absent_no_conflicts.
Qed.
Lemma within_update_at ts t p f : t ∈ ts -> within ts (stmt (db_update_at t p f)).
Proof.
  intros Ht w. apply wp_update_at; [intros e w' Hs _; by apply same_frames|].
  intros now w' l Hn Hp. eapply frames_mono; [by eapply put_frames|set_solver].
Qed.
Lemma within_update ts t p f : t ∈ ts -> within ts (stmt (db_update t p f)).
Proof. apply within_update_at. Qed.
Lemma within_delete ts t p : t ∈ ts -> within ts (stmt (db_delete t p)).
Proof.
  intros Ht w. apply wp_delete; [intros e w' Hs _; by apply same_frames|].
  intros w' Hp. eapply frames_mono; [eapply put_frames; [exact Hp|]|set_solver]. intros Hv. by apply no_conflicts_sel.
Qed.
Lemma within_select ts t p o limit : within ts (stmt (db_select t p o limit)).
Proof. intros w. apply wp_select; [intros e w' Hs _|intros all w' Hs _ _]; by apply same_frames. Qed.
Lemma within_first ts t p o : within ts (first t p o).
Proof. intros w. apply wp_first; [intros e w' Hs _|intros w' Hs _|intros r w' Hs _ _ _]; by apply same_frames. Qed.
Lemma within_must_affect ts m : within ts m -> within ts (must_affect m).
Proof. intros Hm. apply within_bind; [done|]. intros n. destruct (Z.eqb n 0); [apply within_throw|apply within_ret]. Qed.
Lemma wp_transaction_frames {A} ts ce (fn : M GoErr World A) w : (forall d, d <> RecordNotFound -> db_error (ce d)) ->
  wp fn (fun _ w' => frames ts w w') w -> wp (transaction ce fn) (fun _ w' => frames ts w w') w.
Proof.
  intros Hce Hfn. apply wp_transaction; [done|]. eapply wp_mono; [apply Hfn|].
  assert (forall w1 w2, frames ts w w1 -> (forall t, tbl t w2 = tbl t w) -> w_clock w2 = w_clock w1 ->
            w_reads w2 = w_reads w1 -> frames ts w w2) as Hback.
  { intros w1 w2 (_ & _ & Ec & Er) Et E1 E2. split_and!; [done| |congruence|lia]. intros Hv t. by rewrite Et. }
  intros [a|e] w1 Hf; [split|]; intros; [by eapply frames_same|by eapply Hback..].
Qed.
Lemma within_transaction {A} ts ce (fn : M GoErr World A) :
  (forall d, d <> RecordNotFound -> db_error (ce d)) -> within ts fn -> within ts (transaction ce fn).
Proof. intros Hce Hfn w. by apply wp_transaction_frames. Qed.
Lemma within_audit ts ctx recorder event : TAudit ∈ ts -> within ts (recordServiceAudit ctx recorder event).
Proof. intros Ht w. apply wp_audit. intros w' Hf. eapply frames_mono; [exact Hf|set_solver]. Qed.
Lemma within_refuse ts rec {A} ctx ev err : TAudit ∈ ts -> within ts (refuse rec ctx ev err : M GoErr World A).
Proof. intros Ht. apply within_bind; [by apply within_audit|]. intros _. apply within_throw. Qed.
End Frame.

#[export] Hint Resolve frames_refl tick_frames same_frames same_refl : go.

(** [frames ts w w'] along the steps among the hypotheses that lead from
    [w] to [w']. *)
Ltac frames_sub := first [done | set_solver].
Ltac solve_frames :=
  solve [ auto with go
        | eassumption
        | match goal with
          | H : frames ?ts' ?v ?w' |- frames ?ts ?w ?w' =>
              apply (frames_trans ts w v w'); [solve_frames | apply (frames_mono ts' ts v w' H); frames_sub]
          | H : same ?v ?w' |- frames ?ts ?w ?w' => apply (frames_same ts w v w'); [solve_frames | exact H]
          | H : put ?t ?l ?v ?w' |- frames ?ts ?w ?w' =>
              apply (frames_trans ts w v w');
              [solve_frames
              | apply (frames_mono [t] ts v w'); [apply (put_frames t l v w' H); intros; auto using absent_no_conflicts, no_conflicts_sel | frames_sub]]
          | |- frames ?ts ?w { ?v with w_reads ::= S } =>
              apply (frames_trans ts w v); [solve_frames | apply tick_frames]
          | w1 := { ?v with w_reads ::= S } |- frames ?ts ?w ?w1 =>
              apply (frames_trans ts w v); [solve_frames | apply tick_frames]
          end ].

Create HintDb frame.
#[export] Hint Resolve within_ret within_throw within_lift within_time : frame.
#[export] Hint Extern 2 (within ?ts (stmt (db_select ?t ?p ?o ?l))) => apply (within_select ts t p o l) : frame.
#[export] Hint Extern 2 (within ?ts (first ?t ?p ?o)) => apply (within_first ts t p o) : frame.
#[export] Hint Extern 2 (within ?ts (stmt (db_insert ?t ?r))) => apply (within_insert ts t r); set_solver : frame.
#[export] Hint Extern 2 (within ?ts (stmt (db_upsert ?t ?k ?m ?r))) => apply (within_upsert ts t k m r); set_solver : frame.
#[export] Hint Extern 2 (within ?ts (stmt (db_update ?t ?p ?f))) => apply (within_update ts t p f); set_solver : frame.
#[export] Hint Extern 2 (within ?ts (stmt (db_update_at ?t ?p ?f))) => apply (within_update_at ts t p f); set_solver : frame.
#[export] Hint Extern 2 (within ?ts (stmt (db_delete ?t ?p))) => apply (within_delete ts t p); set_solver : frame.
#[export] Hint Extern 2 (within _ (recordServiceAudit _ _ _)) => apply within_audit; set_solver : frame.
#[export] Hint Extern 2 (within _ (refuse _ _ _ _)) => apply within_refuse; set_solver : frame.
(** [within ts m], by the shape of [m]. *)
Ltac frame_step :=
  lazymatch goal with
  | |- within _ (bind _ _) => apply within_bind; [|intros ?]
  | |- within _ (bind_or _ _ _) => apply within_bind_or; [|intros ?|intros ?]
  | |- within _ (if ?b then _ else _) => destruct b
  | |- within _ (match ?x with _ => _ end) => destruct x
  | |- within _ (map_err _ _) => apply within_map_err
  | |- within _ (must_affect _) => apply within_must_affect
  | |- within _ _ => solve [auto with frame]
  end.
Ltac frame_tac := repeat frame_step.
