(* ===== verification/Repos.v ===== *)
(** * Repositories

    [acl_rule_repo_impl.go], [source_repo_impl.go],
    [system_config_repo_impl.go], [refresh_token_repo_impl.go] and
    [user_repo_impl.go] over the database interface. *)
From S2P Require Import Prelude Ints GoStrings Entities Tables Db Auditing.
From stdpp Require Import base list strings sets sorting.
From Stdlib Require Import ZArith Lia.

Local Open Scope string_scope.
Local Open Scope list_scope.
Local Open Scope go_scope.

Section Repositories.
Context `{Database}.

(** ** ACL rules *)
Record ACLRuleFilter := {
  arf_SourceID : N; arf_Path : string; arf_VFSNodeID : option N;
  arf_IncludeGlobal : bool; arf_AnySource : bool
}.

Definition ACLRuleRepository_Create (rule : ACLRule) : M GoErr World ACLRule := stmt (db_insert TRule rule).

Definition ACLRuleRepository_FindByID (id : N) : M GoErr World ACLRule :=
  first TRule (fun r => N.eqb (acl_ID r) id) ord_any.

Definition acl_rule_filter (filter : ACLRuleFilter) (r : ACLRule) : bool :=
  (if arf_AnySource filter then true
   else if arf_IncludeGlobal filter && negb (N.eqb (arf_SourceID filter) 0)
   then N.eqb (acl_SourceID r) (arf_SourceID filter) || N.eqb (acl_SourceID r) 0
   else N.eqb (acl_SourceID r) (arf_SourceID filter)) &&
  (let path := trim_space (arf_Path filter) in String.eqb path "" || String.eqb (acl_Path r) path) &&
  match arf_VFSNodeID filter with None => true | Some id => opt_eqb (acl_VFSNodeID r) (Some id) end.

Definition acl_rule_order : Order ACLRule := ord_then (ord_desc acl_Priority) (ord_asc (fun r => Z.of_N (acl_ID r))).

Definition ACLRuleRepository_List (filter : ACLRuleFilter) : M GoErr World (list ACLRule) :=
  stmt (db_select TRule (acl_rule_filter filter) acl_rule_order None).

Definition ACLRuleRepository_Update (rule : ACLRule) : M GoErr World unit :=
  must_affect (stmt (db_update TRule (fun r => N.eqb (acl_ID r) (acl_ID rule))
    (fun r => { rule with acl_ID := acl_ID r; acl_CreatedAt := acl_CreatedAt r }))).

Definition ACLRuleRepository_Delete (id : N) : M GoErr World unit :=
  must_affect (stmt (db_delete TRule (fun r => N.eqb (acl_ID r) id))).

(** ** Storage sources *)
Definition sourceModelFromEntity (source : StorageSource) : StorageSource :=
  { source with src_ConfigJSON ::= jsonObject }.

Definition source_order : Order StorageSource :=
  ord_then (ord_asc src_SortOrder) (ord_asc (fun s => Z.of_N (src_ID s))).

Definition SourceRepository_Create (source : StorageSource) : M GoErr World StorageSource :=
  stmt (db_insert TSource (sourceModelFromEntity source)).

Definition SourceRepository_Update (source : StorageSource) : M GoErr World unit :=
  must_affect (stmt (db_update TSource (fun s => N.eqb (src_ID s) (src_ID source))
    (fun s => { (sourceModelFromEntity source) with src_ID := src_ID s; src_CreatedAt := src_CreatedAt s }))).

Definition SourceRepository_Delete (id : N) : M GoErr World unit :=
  must_affect (stmt (db_delete TSource (fun s => N.eqb (src_ID s) id))).

Definition SourceRepository_FindByID (id : N) : M GoErr World StorageSource :=
  first TSource (fun s => N.eqb (src_ID s) id) ord_any.

Definition SourceRepository_ListAll : M GoErr World (list StorageSource) :=
  stmt (db_select TSource (fun _ => true) source_order None).

Definition SourceRepository_ListEnabled : M GoErr World (list StorageSource) :=
  stmt (db_select TSource src_IsEnabled source_order None).

Definition SourceRepository_FindByName (name : string) : M GoErr World StorageSource :=
  first TSource (fun s => String.eqb (src_Name s) name) (ord_asc (fun s => Z.of_N (src_ID s))).

Definition SourceRepository_Count : M GoErr World Z :=
  l <-! stmt (db_select TSource (fun _ => true) ord_any None) ;; ret (Z.of_nat (length l)).

(** ** The system configuration *)
Definition SystemConfigRepository_Get : M GoErr World SystemConfig :=
  first TConfig (fun _ => true) (ord_asc (fun c => Z.of_N (cfg_ID c))).

(** [OnConflict{id, UpdateAll}]: every column but the key and the creation
    time. *)
Definition SystemConfigRepository_Upsert (cfg : SystemConfig) : M GoErr World SystemConfig :=
  let model := if N.eqb (cfg_ID cfg) 0 then { cfg with cfg_ID := 1%N } else cfg in
  model <-! stmt (db_upsert TConfig (fun c => N.eqb (cfg_ID c) (cfg_ID model))
    (fun now new old => { new with cfg_ID := cfg_ID old; cfg_CreatedAt := cfg_CreatedAt old; cfg_UpdatedAt := now }) model) ;;
  ret { cfg with cfg_ID := cfg_ID model; cfg_CreatedAt := cfg_CreatedAt model; cfg_UpdatedAt := cfg_UpdatedAt model }.

(** ** Refresh tokens *)
Definition RefreshTokenRepository_Create (token : RefreshToken) : M GoErr World RefreshToken :=
  stmt (db_insert TToken token).

Definition RefreshTokenRepository_FindByTokenHash (tokenHash : string) : M GoErr World RefreshToken :=
  first TToken (fun t => String.eqb (rt_TokenHash t) tokenHash) (ord_asc (fun t => Z.of_N (rt_ID t))).

Definition RefreshTokenRepository_RevokeByTokenHash (tokenHash : string) : M GoErr World unit :=
  now <-! time_now ;;
  must_affect (stmt (db_update TToken (fun t => String.eqb (rt_TokenHash t) tokenHash)
    (fun t => { t with rt_RevokedAt := Some now }))).

(** ** Users *)
Record UserListFilter := { ulf_Keyword : string; ulf_Status : string }.

Definition UserRepository_Create (user : User) : M GoErr World User := stmt (db_insert TUser user).

Definition UserRepository_FindByID (id : N) : M GoErr World User :=
  first TUser (fun u => N.eqb (u_ID u) id) ord_any.

Definition UserRepository_FindByUsername (username : string) : M GoErr World User :=
  first TUser (fun u => String.eqb (u_Username u) username) (ord_asc (fun u => Z.of_N (u_ID u))).

Definition user_filter (filter : UserListFilter) (u : User) : bool :=
  let keyword := trim_space (ulf_Keyword filter) in
  let like := "%" +:+ keyword +:+ "%" in
  let status := trim_space (ulf_Status filter) in
  (String.eqb keyword "" || db_like like (u_Username u) || db_like like (u_Email u)) &&
  (String.eqb status "" || String.eqb (u_Status u) status).

Definition UserRepository_List (filter : UserListFilter) : M GoErr World (list User) :=
  stmt (db_select TUser (user_filter filter)
          (ord_then (ord_desc u_CreatedAt) (ord_desc (fun u => Z.of_N (u_ID u)))) None).

Definition UserRepository_Count : M GoErr World Z :=
  l <-! stmt (db_select TUser (fun _ => true) ord_any None) ;; ret (Z.of_nat (length l)).

(** [Select("*").Omit("ID", "Username", "CreatedAt").Updates(model)]. *)
Definition user_columns (user u : User) : User :=
  { user with u_ID := u_ID u; u_Username := u_Username u; u_CreatedAt := u_CreatedAt u }.
Definition UserRepository_Update (user : User) : M GoErr World unit :=
  must_affect (stmt (db_update TUser (fun u => N.eqb (u_ID u) (u_ID user)) (user_columns user))).

Definition UserRepository_UpdateTokenVersion (id : N) (tokenVersion : Z) : M GoErr World unit :=
  must_affect (stmt (db_update TUser (fun u => N.eqb (u_ID u) id)
                       (fun u => { u with u_TokenVersion := tokenVersion }))).
End Repositories.

(** ** Rules *)
Section RepositoryRules.
Context `{DatabaseLaws}.

(** A look-up by key either fails with a database error, finds nothing, or
    finds the row. *)
Lemma wp_lookup t p o (Q : result GoErr (row t) -> World -> Prop) w :
  (forall e w', same w w' -> db_error e \/ (e = ErrNotFound /\ forall r, r ∈ tbl t w -> p r = false) -> Q (Err e) w') ->
  (forall r w', same w w' -> r ∈ tbl t w -> p r = true -> Q (Ok r) w') ->
  wp (first t p o) Q w.
Proof.
  intros He Hk. apply wp_first; [intros e w' Hs Hd; auto|intros w' Hs Hn; auto|intros r w' Hs Hr Hp _; auto].
Qed.

(** Rules come back by falling priority. *)
Lemma wp_list_rules filter (Q : result GoErr (list ACLRule) -> World -> Prop) w :
  (forall e w', same w w' -> db_error e -> Q (Err e) w') ->
  (forall l w', same w w' -> (forall r, r ∈ l <-> r ∈ tbl TRule w /\ acl_rule_filter filter r = true) ->
     StronglySorted (fun a b => (acl_Priority b <= acl_Priority a)%Z) l -> Q (Ok l) w') ->
  wp (ACLRuleRepository_List filter) Q w.
Proof.
  intros He Hk. apply (wp_select TRule); [exact He|]. intros all w' Hs Hp Ho. apply Hk; [done| |].
  - intros r. cbn [limited]. rewrite Hp. apply elem_of_sel.
  - cbn [limited]. clear -Ho. induction Ho as [|r l Hl IH Hr]; constructor; [done|].
    eapply Forall_impl; [exact Hr|]. intros x Hx. cbn in Hx. apply andb_true_iff in Hx as [Hx _]. by apply Z.leb_le.
Qed.
End RepositoryRules.
