(* ===== verification/MetaRepos.v ===== *)
(** * Repositories of the metadata tree

    [vfs_metadata_repo_impl.go]: the nodes of the virtual tree, the storage
    objects files refer to, tags and their bindings.  A subtree is selected
    by [LIKE] on the path; [like_subtree] shows that, for a canonical path
    without white space at its end, the pattern selects what [isSubPath]
    says.  The mounts, and the look-up of objects by their locator, come
    with the services that use them. *)
From S2P Require Import Prelude Ints GoStrings Entities Paths Tables Db Auditing Repos.
From stdpp Require Import base list strings sets sorting.
From Stdlib Require Import ZArith Lia Ascii.

Local Open Scope string_scope.
Local Open Scope list_scope.
Local Open Scope go_scope.

(** ** Path prefixes and [LIKE] patterns *)
Definition normalizeVFSPathPrefix (pathPrefix : string) : string :=
  let prefix := trim_right_byte slash (trim_space pathPrefix) in
  if String.eqb prefix "" then "/" else prefix.

(** [strings.NewReplacer] on three single bytes. *)
Fixpoint escapeLikePattern (value : string) : string :=
  match value with
  | EmptyString => ""
  | String c rest =>
      if like_special c then String "\" (String c (escapeLikePattern rest)) else String c (escapeLikePattern rest)
  end.

Definition pathChildrenLikePattern (path : string) : string :=
  let prefix := normalizeVFSPathPrefix path in
  if String.eqb prefix "/" then "/%" else escapeLikePattern prefix +:+ "/%".

Example escape_ex : escapeLikePattern "a_b%c\d" = "a\_b\%c\\d".
Proof. reflexivity. Qed.

Record VFSNodeListFilter := {
  nlf_Kind : string; nlf_MountID : option N; nlf_SourceID : option N; nlf_SyncState : string;
  nlf_IncludeDeleted : bool; nlf_Limit : Z
}.
(** [VFSNodeListFilter{}]. *)
Definition no_node_filter : VFSNodeListFilter :=
  {| nlf_Kind := ""; nlf_MountID := None; nlf_SourceID := None; nlf_SyncState := ""; nlf_IncludeDeleted := false;
     nlf_Limit := 0 |}.

Definition applyVFSNodeListFilter (filter : VFSNodeListFilter) (n : VFSNode) : bool :=
  (nlf_IncludeDeleted filter || negb (vn_IsDeleted n)) &&
  (String.eqb (nlf_Kind filter) "" || String.eqb (vn_Kind n) (nlf_Kind filter)) &&
  match nlf_MountID filter with None => true | Some id => opt_eqb (vn_MountID n) (Some id) end &&
  match nlf_SourceID filter with None => true | Some id => opt_eqb (vn_SourceID n) (Some id) end &&
  (String.eqb (nlf_SyncState filter) "" || String.eqb (vn_SyncState n) (nlf_SyncState filter)).
(** [if limit > 0 { query.Limit(limit) }]. *)
Definition row_limit (limit : Z) : option nat := if Z.ltb 0 limit then Some (Z.to_nat limit) else None.

Section Repositories.
Context `{Database}.

(** The condition on paths that selects a node and those below it. *)
Definition in_subtree (prefix pattern : string) (n : VFSNode) : bool :=
  String.eqb (vn_Path n) prefix || db_like pattern (vn_Path n).

(** ** Nodes *)
Definition node_by_id : Order VFSNode := ord_asc (fun n => Z.of_N (vn_ID n)).

Definition VFSNodeRepository_Create (node : VFSNode) : M GoErr World VFSNode := stmt (db_insert TNode node).

(** [Select("*").Omit("ID", "CreatedAt").Updates(model)]. *)
Definition node_columns (node n : VFSNode) : VFSNode :=
  { node with vn_ID := vn_ID n; vn_CreatedAt := vn_CreatedAt n }.
Definition VFSNodeRepository_Update (node : VFSNode) : M GoErr World unit :=
  must_affect (stmt (db_update TNode (fun n => N.eqb (vn_ID n) (vn_ID node)) (node_columns node))).

(** The update of a map that sets [updated_at] keeps that time. *)
Definition mark_deleted (now : Z) (n : VFSNode) : VFSNode :=
  { n with vn_IsDeleted := true; vn_UpdatedAt := now }.
Definition VFSNodeRepository_Delete (id : N) : M GoErr World unit :=
  transaction rawGormError (
    model <-! first TNode (fun n => N.eqb (vn_ID n) id && negb (vn_IsDeleted n)) node_by_id ;;
    let subtree := if String.eqb (vn_Path model) "/" then in_subtree "/" "/%"
                   else in_subtree (vn_Path model) (pathChildrenLikePattern (vn_Path model)) in
    now <-! time_now ;;
    must_affect (stmt (db_update_at TNode (fun n => negb (vn_IsDeleted n) && subtree n) (fun _ => mark_deleted now)))).

Definition VFSNodeRepository_FindByID (id : N) : M GoErr World VFSNode :=
  first TNode (fun n => N.eqb (vn_ID n) id) node_by_id.

Definition VFSNodeRepository_FindByPath (path : string) : M GoErr World VFSNode :=
  first TNode (fun n => String.eqb (vn_Path n) path && negb (vn_IsDeleted n)) node_by_id.

Definition VFSNodeRepository_ListChildren (parentID : option N) (filter : VFSNodeListFilter)
    : M GoErr World (list VFSNode) :=
  stmt (db_select TNode
    (fun n => match parentID with
              | None => match vn_ParentID n with None => true | Some _ => false end
              | Some id => opt_eqb (vn_ParentID n) (Some id)
              end && applyVFSNodeListFilter filter n)
    (ord_then (ord_on db_collate vn_Name) node_by_id) (row_limit (nlf_Limit filter))).

Definition VFSNodeRepository_ListByPathPrefix (pathPrefix : string) (filter : VFSNodeListFilter)
    : M GoErr World (list VFSNode) :=
  let prefix := normalizeVFSPathPrefix pathPrefix in
  stmt (db_select TNode
    (fun n => (String.eqb prefix "/" || in_subtree prefix (pathChildrenLikePattern prefix) n) &&
              applyVFSNodeListFilter filter n)
    (ord_then (ord_on db_collate vn_Path) node_by_id) (row_limit (nlf_Limit filter))).

Definition upsert_columns (new old : VFSNode) : VFSNode :=
  { new with vn_ID := vn_ID old; vn_Path := vn_Path old; vn_CreatedBy := vn_CreatedBy old;
    vn_CreatedAt := vn_CreatedAt old }.
Definition VFSNodeRepository_UpsertByPath (node : VFSNode) : M GoErr World VFSNode :=
  let node := { node with vn_IsDeleted := false } in
  do! stmt (db_upsert TNode (fun n => String.eqb (vn_Path n) (vn_Path node) && negb (vn_IsDeleted n))
              (fun _ => upsert_columns) node) ;;
  VFSNodeRepository_FindByPath (vn_Path node).

(** ** Storage objects *)
Definition storageObjectModelFromEntity (object : StorageObject) : StorageObject :=
  { object with so_LocatorJSON ::= jsonObject }.

Definition StorageObjectRepository_Create (object : StorageObject) : M GoErr World StorageObject :=
  stmt (db_insert TObject (storageObjectModelFromEntity object)).

Definition StorageObjectRepository_Update (object : StorageObject) : M GoErr World unit :=
  must_affect (stmt (db_update TObject (fun o => N.eqb (so_ID o) (so_ID object))
    (fun o => { (storageObjectModelFromEntity object) with so_ID := so_ID o; so_CreatedAt := so_CreatedAt o }))).

Definition StorageObjectRepository_Delete (id : N) : M GoErr World unit :=
  must_affect (stmt (db_delete TObject (fun o => N.eqb (so_ID o) id))).

Definition StorageObjectRepository_FindByID (id : N) : M GoErr World StorageObject :=
  first TObject (fun o => N.eqb (so_ID o) id) (ord_asc (fun o => Z.of_N (so_ID o))).

(** ** Tags *)
Record VFSTagListFilter := { tlf_OwnerUserID : N; tlf_Name : string; tlf_Limit : Z }.

Definition tag_by_id : Order VFSTag := ord_asc (fun t => Z.of_N (tag_ID t)).
Definition tag_order : Order VFSTag := ord_then (ord_on db_collate tag_Name) tag_by_id.

Definition VFSTagRepository_Create (tag : VFSTag) : M GoErr World VFSTag := stmt (db_insert TTag tag).

Definition VFSTagRepository_Update (tag : VFSTag) : M GoErr World unit :=
  must_affect (stmt (db_update TTag (fun t => N.eqb (tag_ID t) (tag_ID tag))
    (fun t => { tag with tag_ID := tag_ID t; tag_OwnerUserID := tag_OwnerUserID t; tag_CreatedAt := tag_CreatedAt t }))).

Definition VFSTagRepository_Delete (id : N) : M GoErr World unit :=
  transaction rawGormError (
    do! must_affect (stmt (db_delete TTag (fun t => N.eqb (tag_ID t) id))) ;;
    do! stmt (db_delete TNodeTag (fun b => N.eqb (nt_TagID b) id)) ;;
    ret tt).

Definition VFSTagRepository_FindByID (id : N) : M GoErr World VFSTag :=
  first TTag (fun t => N.eqb (tag_ID t) id) tag_by_id.

Definition VFSTagRepository_FindByOwnerAndName (ownerUserID : N) (name : string) : M GoErr World VFSTag :=
  first TTag (fun t => N.eqb (tag_OwnerUserID t) ownerUserID && String.eqb (tag_Name t) name) tag_by_id.

Definition VFSTagRepository_List (filter : VFSTagListFilter) : M GoErr World (list VFSTag) :=
  stmt (db_select TTag
    (fun t => N.eqb (tag_OwnerUserID t) (tlf_OwnerUserID filter) &&
              (String.eqb (tlf_Name filter) "" || String.eqb (tag_Name t) (tlf_Name filter)))
    tag_order (row_limit (tlf_Limit filter))).

Definition VFSTagRepository_UpsertByOwnerAndName (tag : VFSTag) : M GoErr World VFSTag :=
  do! stmt (db_upsert TTag
    (fun t => N.eqb (tag_OwnerUserID t) (tag_OwnerUserID tag) && String.eqb (tag_Name t) (tag_Name tag))
    (fun _ new old => { old with tag_Color := tag_Color new; tag_UpdatedAt := tag_UpdatedAt new }) tag) ;;
  VFSTagRepository_FindByOwnerAndName (tag_OwnerUserID tag) (tag_Name tag).

(** [OnConflict{DoNothing: true}]. *)
Definition VFSTagRepository_AttachToNode (binding : VFSNodeTag) : M GoErr World VFSNodeTag :=
  stmt (db_upsert TNodeTag (fun b => VFSNodeTagModel_conflict b binding) (fun _ _ old => old) binding).

Definition VFSTagRepository_DetachFromNode (nodeID tagID : N) : M GoErr World unit :=
  must_affect (stmt (db_delete TNodeTag (fun b => N.eqb (nt_NodeID b) nodeID && N.eqb (nt_TagID b) tagID))).

Definition VFSTagRepository_ListBindingsForNode (nodeID : N) : M GoErr World (list VFSNodeTag) :=
  stmt (db_select TNodeTag (fun b => N.eqb (nt_NodeID b) nodeID)
    (ord_then (ord_asc nt_CreatedAt) (ord_asc (fun b => Z.of_N (nt_TagID b)))) None).

Definition VFSTagRepository_ListTagsForNode (nodeID : N) : M GoErr World (list VFSTag) :=
  bindings <-! VFSTagRepository_ListBindingsForNode nodeID ;;
  match bindings with
  | [] => ret []
  | _ =>
      let tagIDs := map nt_TagID bindings in
      stmt (db_select TTag (fun t => existsb (N.eqb (tag_ID t)) tagIDs) tag_order None)
  end.

Definition VFSTagRepository_ListNodeIDsByTag (tagID : N) : M GoErr World (list N) :=
  models <-! stmt (db_select TNodeTag (fun b => N.eqb (nt_TagID b) tagID)
                     (ord_asc (fun b => Z.of_N (nt_NodeID b))) None) ;;
  ret (map nt_NodeID models).
End Repositories.

(** ** Subtrees *)
Section Subtrees.
Context `{DatabaseLaws}.

Lemma like_escaped p q s :
  db_like (escapeLikePattern p +:+ q) s = match GoStrings.strip_prefix p s with Some r => db_like q r | None => false end.
Proof.
  revert s. induction p as [|c p IH]; intros s; [done|]. cbn [escapeLikePattern].
  destruct (like_special c) eqn:E; cbn [String.append]; [rewrite like_escape_law|rewrite like_byte_law by done];
    (destruct s as [|d s]; [done|]); cbn; rewrite IH; by destruct (Ascii.eqb c d).
Qed.

Lemma like_children p s : db_like (escapeLikePattern p +:+ "/%") s = has_prefix s (p +:+ "/").
Proof.
  rewrite like_escaped. destruct (GoStrings.strip_prefix p s) as [r|] eqn:E.
  - apply strip_prefix_Some in E as ->. rewrite like_byte_law by done. destruct r as [|d r].
    + symmetry. apply not_true_is_false. intros [x Hx]%has_prefix_spec. rewrite append_assoc in Hx.
      by apply append_inj_l in Hx.
    + rewrite like_any_law, andb_true_r. destruct (Ascii.eqb_spec "/" d) as [<-|Hne]; symmetry.
      * apply has_prefix_spec. exists r. by rewrite append_assoc.
      * apply not_true_is_false. intros [x Hx]%has_prefix_spec. rewrite append_assoc in Hx.
        apply append_inj_l in Hx. cbn in Hx. congruence.
  - symmetry. apply not_true_is_false. intros [r ->]%has_prefix_spec. rewrite append_assoc in E.
    pose proof (proj2 (strip_prefix_Some p _ _) (eq_refl (p +:+ ("/" +:+ r)))). congruence.
Qed.

Lemma like_root s : db_like "/%" s = has_prefix s "/".
Proof. exact (like_children "" s). Qed.

(** The trimming of a prefix does nothing to a canonical path that does not
    end with white space. *)
Lemma prefix_id p : canonical p -> trim_space p = p -> normalizeVFSPathPrefix p = p.
Proof.
  intros (l & Hl & ->) Ht. unfold normalizeVFSPathPrefix. rewrite Ht.
  destruct (snoc_or_nil l) as [->|(l' & x & ->)]; [done|].
  rewrite good_segs_app in Hl. apply andb_true_iff in Hl as [_ Hx]. unfold good_segs in Hx. cbn in Hx.
  rewrite andb_true_r in Hx. apply good_plain, plain_seg_spec in Hx as (Hne & _ & _ & Hb).
  replace (render (l' ++ [x])) with ((render_tail l' +:+ "/") +:+ x) by (by rewrite render_snoc, append_assoc).
  rewrite trim_right_byte_id by done.
  destruct (String.eqb_spec ((render_tail l' +:+ "/") +:+ x) "") as [[_ ?]%append_eq_nil|]; done.
Qed.

(** The test of the repositories, on canonical paths. *)
Lemma subtree_sub p n : canonical p -> canonical (vn_Path n) ->
  (String.eqb p "/" || String.eqb (vn_Path n) p || has_prefix (vn_Path n) (p +:+ "/")) = isSubPath p (vn_Path n).
Proof.
  intros Hp Hn. unfold isSubPath. rewrite !canonical_normalize by done.
  destruct (String.eqb_spec p "/") as [->|Hne]; [|done]. symmetry. destruct Hn as (l & _ & ->). apply render_rooted.
Qed.

Lemma like_subtree p n : canonical p -> trim_space p = p -> canonical (vn_Path n) ->
  (String.eqb p "/" || in_subtree p (pathChildrenLikePattern p) n) = isSubPath p (vn_Path n).
Proof.
  intros Hp Ht Hn. rewrite <- subtree_sub by done. unfold in_subtree, pathChildrenLikePattern.
  rewrite prefix_id by done. destruct (String.eqb p "/"); [done|]. by rewrite like_children.
Qed.
End Subtrees.
