(* ===== verification/Acl.v ===== *)
(** * Access control: the authorizer

    [acl_authorizer.go]: the evaluator a request builds from the rules of a
    source, the matching of a rule with a target, and the decisions built
    on it.  The metadata tree is used through the interface
    [metadataVFSReader]; the evaluator's node cache is part of its state.

    The abstract specification is [permits]: a relation on the rule table
    that mentions neither the order of the rules nor the cache. *)
From S2P Require Import Prelude GoStrings Entities Paths Mounts Permission Tables Db Auditing Repos.
From stdpp Require Import base list strings gmap sets sorting.
From Stdlib Require Import ZArith Lia.

Local Open Scope string_scope.
Local Open Scope list_scope.
Local Open Scope go_scope.

(** ** The reader of the metadata tree *)
Class MetadataReader `{Database} := {
  ResolveNode : string -> M GoErr World (option VFSNode);
  ResolveNodeByID : N -> M GoErr World (option VFSNode)
}.

(** ** Actions *)
Inductive ACLAction : Type := ACLActionRead | ACLActionWrite | ACLActionDelete | ACLActionShare.

Definition ruleContainsAction (rule : ACLRule) (action : ACLAction) : bool :=
  match action with
  | ACLActionRead => acl_Read rule
  | ACLActionWrite => acl_Write rule
  | ACLActionDelete => acl_Delete rule
  | ACLActionShare => acl_Share rule
  end.

Definition aclActionsForRule (rule : ACLRule) : list ACLAction :=
  (if acl_Read rule then [ACLActionRead] else []) ++ (if acl_Write rule then [ACLActionWrite] else []) ++
  (if acl_Delete rule then [ACLActionDelete] else []) ++ (if acl_Share rule then [ACLActionShare] else []).

(** ** Matching a rule with a target *)
Definition ruleMatchesNode (rule : ACLRule) (ruleNode targetNode : VFSNode) : bool :=
  if N.eqb (vn_ID ruleNode) (vn_ID targetNode) then true
  else if negb (acl_InheritToChildren rule) then false
  else isSubPath (vn_Path ruleNode) (vn_Path targetNode).

Definition ruleMatchesNodePath (rule : ACLRule) (ruleNode : VFSNode) (targetVirtualPath : string) : bool :=
  if String.eqb (vn_Path ruleNode) targetVirtualPath then true
  else if negb (acl_InheritToChildren rule) then false
  else isSubPath (vn_Path ruleNode) targetVirtualPath.

Definition ruleMatchesPath (rule : ACLRule) (targetPath targetVirtualPath : string) : bool :=
  let vp := trim_space (acl_VirtualPath rule) in
  let '(rulePath, targetVirtualPath) :=
    if String.eqb vp "" then (trim_space (acl_Path rule), targetPath) else (vp, targetVirtualPath) in
  if String.eqb rulePath targetVirtualPath then true
  else if negb (acl_InheritToChildren rule) then false
  else if String.eqb rulePath "/" then has_prefix targetVirtualPath "/"
  else has_prefix targetVirtualPath (trim_suffix rulePath "/" +:+ "/").

(** ** The evaluator *)
Record aclEvaluator := {
  ev_bypass : bool; ev_userID : N; ev_sourceID : N; ev_rules : list ACLRule; ev_mountPath : string;
  ev_hasReader : bool
}.
Definition bypass_evaluator (bypass : bool) : aclEvaluator :=
  {| ev_bypass := bypass; ev_userID := 0; ev_sourceID := 0; ev_rules := []; ev_mountPath := "";
     ev_hasReader := false |}.

(** The dependencies an authorizer was built with. *)
Record ACLAuthorizer := {
  az_systemConfigRepo : bool; az_aclRepo : bool; az_sourceRepo : bool; az_metadataReader : bool
}.

Section Evaluator.
Context `{MR : MetadataReader}.

(** The state of an evaluation: the world and the node cache. *)
Record EvalState := { es_world : World; es_cache : gmap N (option VFSNode) }.
#[export] Instance eta_EvalState : Eta EvalState := fun r =>
  {| es_world := es_world r; es_cache := es_cache r |}.
Definition in_world {A} (m : M GoErr World A) : M GoErr EvalState A :=
  zoom es_world (fun w s => { s with es_world := w }) m.

(** A missing or deleted node is no node. *)
Definition live_node (node : option VFSNode) : option VFSNode :=
  match node with Some n => if vn_IsDeleted n then None else Some n | None => None end.

Definition remember (nodeID : N) (node : option VFSNode) : M GoErr EvalState (option VFSNode) :=
  do! modify (fun s => { s with es_cache ::= fun c => <[nodeID := node]> c }) ;; ret node.

Definition resolveRuleNode (e : aclEvaluator) (nodeID : N) : M GoErr EvalState (option VFSNode) :=
  if negb (ev_hasReader e) || N.eqb nodeID 0 then ret None
  else
    cached <-! gets (fun s => es_cache s !! nodeID) ;;
    match cached with
    | Some node => ret node
    | None =>
        node <-! in_world (ResolveNodeByID nodeID) or _e => remember nodeID None ;;
        remember nodeID (live_node node)
    end.

Definition resolveTargetNodeBestEffort (e : aclEvaluator) (virtualPath : string) (nodeID : N)
    : M GoErr EvalState (option VFSNode) :=
  if negb (ev_hasReader e) then ret None
  else if negb (N.eqb nodeID 0) then resolveRuleNode e nodeID
  else match normalizeVirtualPath virtualPath with
       | Err _ => ret None
       | Ok normalizedPath =>
           node <-! in_world (ResolveNode normalizedPath) or _e => ret None ;;
           ret (live_node node)
       end.

Definition ruleMatchesTarget (e : aclEvaluator) (rule : ACLRule) (targetPath targetVirtualPath : string)
    (targetNode : option VFSNode) : M GoErr EvalState bool :=
  match acl_VFSNodeID rule with
  | Some id =>
      if negb (ev_hasReader e) then ret (ruleMatchesPath rule targetPath targetVirtualPath)
      else
        ruleNode <-! resolveRuleNode e id ;;
        match ruleNode, targetNode with
        | None, _ => ret false
        | Some ruleNode, Some targetNode => ret (ruleMatchesNode rule ruleNode targetNode)
        | Some ruleNode, None => ret (ruleMatchesNodePath rule ruleNode targetVirtualPath)
        end
  | None => ret (ruleMatchesPath rule targetPath targetVirtualPath)
  end.

(** The loop of [allowTarget], with its two variables. *)
Fixpoint allow_rules (e : aclEvaluator) (targetPath targetVirtualPath : string) (targetNode : option VFSNode)
    (action : ACLAction) (rules : list ACLRule) (matchedPriority : option Z) (allowMatched : bool)
    : M GoErr EvalState bool :=
  match rules with
  | [] => ret allowMatched
  | rule :: rest =>
      let continue := allow_rules e targetPath targetVirtualPath targetNode action rest in
      if negb (String.eqb (acl_SubjectType rule) "user") || negb (N.eqb (acl_SubjectID rule) (ev_userID e))
      then continue matchedPriority allowMatched
      else
        matches <-! ruleMatchesTarget e rule targetPath targetVirtualPath targetNode ;;
        if negb matches then continue matchedPriority allowMatched
        else if negb (ruleContainsAction rule action) then continue matchedPriority allowMatched
        else if match matchedPriority with Some p => Z.ltb (acl_Priority rule) p | None => false end
        then ret allowMatched
        else
          let matchedPriority := match matchedPriority with Some p => p | None => acl_Priority rule end in
          if String.eqb (trim_space (acl_Effect rule)) "deny" then ret false
          else continue (Some matchedPriority)
                 (if String.eqb (trim_space (acl_Effect rule)) "allow" then true else allowMatched)
  end.

Definition allowTarget (e : aclEvaluator) (targetPath targetVirtualPath : string) (targetNode : option VFSNode)
    (action : ACLAction) : M GoErr EvalState bool :=
  allow_rules e targetPath targetVirtualPath targetNode action (ev_rules e) None false.

Definition allowPath (e : aclEvaluator) (pathValue : string) (action : ACLAction) : M GoErr EvalState bool :=
  if ev_bypass e then ret true
  else
    normalizedPath <-! lift_result (normalizeVirtualPath pathValue) or _e => throw ErrPathInvalid ;;
    let merged := mergeMountAndInnerPath (ev_mountPath e) normalizedPath in
    let targetVirtualPath := if String.eqb merged "" then normalizedPath else merged in
    targetNode <-! resolveTargetNodeBestEffort e targetVirtualPath 0 ;;
    allowTarget e normalizedPath targetVirtualPath targetNode action.

(** The inner path of a virtual path under the evaluator's mount, or
    nothing when it lies outside. *)
Definition inner_path (e : aclEvaluator) (normalizedVirtualPath : string) : option string :=
  match normalizeMountPath (ev_mountPath e) with
  | Ok normalizedMountPath =>
      if negb (String.eqb normalizedMountPath "/") then
        if negb (isSubPath normalizedMountPath normalizedVirtualPath) then None
        else
          let innerPath := trim_prefix normalizedVirtualPath normalizedMountPath in
          Some (if String.eqb innerPath "" then "/" else innerPath)
      else Some normalizedVirtualPath
  | Err _ => Some normalizedVirtualPath
  end.

Definition allowVirtualPathWithNodeID (e : aclEvaluator) (virtualPath : string) (nodeID : N) (action : ACLAction)
    : M GoErr EvalState bool :=
  if ev_bypass e then ret true
  else
    normalizedVirtualPath <-! lift_result (normalizeVirtualPath virtualPath) or _e => throw ErrPathInvalid ;;
    match inner_path e normalizedVirtualPath with
    | None => ret false
    | Some innerPath =>
        targetNode <-! resolveTargetNodeBestEffort e normalizedVirtualPath nodeID ;;
        allowTarget e innerPath normalizedVirtualPath targetNode action
    end.
Definition allowVirtualPath e virtualPath action := allowVirtualPathWithNodeID e virtualPath 0 action.

(** ** Exposure of a source in navigation *)
Definition currentRuleVirtualPath (e : aclEvaluator) (rule : ACLRule) : M GoErr EvalState string :=
  node <-! match acl_VFSNodeID rule with Some id => resolveRuleNode e id | None => ret None end ;;
  match node with
  | Some node => ret (vn_Path node)
  | None =>
      if negb (String.eqb (trim_space (acl_VirtualPath rule)) "") then ret (trim_space (acl_VirtualPath rule))
      else
        let rulePath := trim_space (acl_Path rule) in
        let merged := mergeMountAndInnerPath (ev_mountPath e) rulePath in
        if negb (N.eqb (acl_SourceID rule) 0) && N.eqb (acl_SourceID rule) (ev_sourceID e) &&
           negb (String.eqb merged "")
        then ret merged else ret rulePath
  end.

Definition sourceExposureVirtualPath (e : aclEvaluator) (rule : ACLRule) : M GoErr EvalState string :=
  rulePath <-! currentRuleVirtualPath e rule ;;
  if String.eqb rulePath "" then ret ""
  else
    let mountPath := if String.eqb (ev_mountPath e) "" then "/" else ev_mountPath e in
    if isSubPath rulePath mountPath then ret mountPath
    else if isSubPath mountPath rulePath then ret rulePath else ret "".

Definition ruleCanExposeSource (e : aclEvaluator) (rule : ACLRule) : M GoErr EvalState bool :=
  if negb (N.eqb (acl_SourceID rule) 0) && negb (N.eqb (acl_SourceID rule) (ev_sourceID e)) then ret false
  else p <-! sourceExposureVirtualPath e rule ;; ret (negb (String.eqb p "")).

Definition innerPathForVirtualPath (e : aclEvaluator) (virtualPath : string) : string :=
  match normalizeVirtualPath virtualPath with
  | Err _ => virtualPath
  | Ok normalizedPath =>
      match normalizeMountPath (ev_mountPath e) with
      | Ok normalizedMountPath =>
          if negb (String.eqb normalizedMountPath "/") && isSubPath normalizedMountPath normalizedPath then
            let innerPath := trim_prefix normalizedPath normalizedMountPath in
            if String.eqb innerPath "" then "/"
            else if negb (has_prefix innerPath "/") then "/" +:+ innerPath else innerPath
          else normalizedPath
      | Err _ => normalizedPath
      end
  end.

Fixpoint any_action_allowed (e : aclEvaluator) (targetPath exposurePath : string) (targetNode : option VFSNode)
    (actions : list ACLAction) : M GoErr EvalState bool :=
  match actions with
  | [] => ret false
  | action :: rest =>
      allowed <-! allowTarget e targetPath exposurePath targetNode action or _e =>
        any_action_allowed e targetPath exposurePath targetNode rest ;;
      if (allowed : bool) then ret true else any_action_allowed e targetPath exposurePath targetNode rest
  end.

Definition ruleEffectivelyAllowsSourceExposure (e : aclEvaluator) (rule : ACLRule) : M GoErr EvalState bool :=
  can <-! ruleCanExposeSource e rule ;;
  if negb can then ret false
  else
    exposurePath <-! sourceExposureVirtualPath e rule ;;
    if String.eqb exposurePath "" then ret false
    else
      let targetPath := innerPathForVirtualPath e exposurePath in
      targetNode <-! resolveTargetNodeBestEffort e exposurePath 0 ;;
      any_action_allowed e targetPath exposurePath targetNode (aclActionsForRule rule).

Fixpoint any_rule_exposes (e : aclEvaluator) (rules : list ACLRule) : M GoErr EvalState bool :=
  match rules with
  | [] => ret false
  | rule :: rest =>
      if negb (String.eqb (acl_SubjectType rule) "user") || negb (N.eqb (acl_SubjectID rule) (ev_userID e))
      then any_rule_exposes e rest
      else if negb (String.eqb (trim_space (acl_Effect rule)) "allow") then any_rule_exposes e rest
      else if negb (acl_Read rule || acl_Write rule || acl_Delete rule || acl_Share rule)
      then any_rule_exposes e rest
      else
        exposes <-! ruleEffectivelyAllowsSourceExposure e rule ;;
        if (exposes : bool) then ret true else any_rule_exposes e rest
  end.

(** ** The authorizer *)
Context (a : ACLAuthorizer).

Definition newEvaluator (ctx : Ctx) (sourceID : N) : M GoErr World aclEvaluator :=
  if negb (az_systemConfigRepo a) || negb (az_aclRepo a) then ret (bypass_evaluator true)
  else
  match RequestAuthFromContext ctx with
  | None => ret (bypass_evaluator true)
  | Some auth =>
      if String.eqb (ra_RoleKey auth) RoleSuperAdmin then ret (bypass_evaluator true)
      else
      rules <-! ACLRuleRepository_List {| arf_SourceID := sourceID; arf_Path := ""; arf_VFSNodeID := None;
                                         arf_IncludeGlobal := true; arf_AnySource := false |} ;;
      let no_rules := Nat.eqb (length rules) 0 in
      cfg <-! (cfg <-! SystemConfigRepository_Get or err =>
                 (if err_is err ErrNotFound then ret None else throw err) ;;
               ret (Some cfg)) ;;
      match cfg with
      | None => ret (bypass_evaluator no_rules)
      | Some cfg =>
          if negb (cfg_MultiUserEnabled cfg) && no_rules then ret (bypass_evaluator true)
          else
          mountPath <-! (if az_sourceRepo a && negb (N.eqb sourceID 0) then
                           source <-! SourceRepository_FindByID sourceID ;;
                           ret (if negb (String.eqb (src_MountPath source) "") then src_MountPath source else "/")
                         else ret "/") ;;
          ret {| ev_bypass := false; ev_userID := ra_UserID auth; ev_sourceID := sourceID; ev_rules := rules;
                 ev_mountPath := mountPath; ev_hasReader := az_metadataReader a |}
      end
  end.

(** Run an evaluation with a fresh node cache. *)
Definition evaluating {A} (m : M GoErr EvalState A) : M GoErr World A := fun w =>
  let '(r, s) := m {| es_world := w; es_cache := ∅ |} in (r, es_world s).

Definition AuthorizePath (ctx : Ctx) (sourceID : N) (pathValue : string) (action : ACLAction) : M GoErr World unit :=
  evaluator <-! newEvaluator ctx sourceID ;;
  allowed <-! evaluating (allowPath evaluator pathValue action) ;;
  if negb allowed then throw ErrACLDenied else ret tt.

Definition AuthorizeVirtualPath (ctx : Ctx) (sourceID : N) (virtualPath : string) (nodeID : N) (action : ACLAction)
    : M GoErr World unit :=
  evaluator <-! newEvaluator ctx sourceID ;;
  allowed <-! evaluating (allowVirtualPathWithNodeID evaluator virtualPath nodeID action) ;;
  if negb allowed then throw ErrACLDenied else ret tt.

(** ** Filtering of listings *)
Record FileItem := {
  fi_Name : string; fi_Path : string; fi_ParentPath : string; fi_SourceID : N; fi_IsDir : bool; fi_Size : Z;
  fi_MimeType : string; fi_Extension : string; fi_Etag : string; fi_ModifiedAt : string; fi_CreatedAt : string;
  fi_CanPreview : bool; fi_CanDownload : bool; fi_CanDelete : bool; fi_ThumbnailURL : option string
}.
#[export] Instance eta_FileItem : Eta FileItem := fun r =>
  {| fi_Name := fi_Name r; fi_Path := fi_Path r; fi_ParentPath := fi_ParentPath r; fi_SourceID := fi_SourceID r;
     fi_IsDir := fi_IsDir r; fi_Size := fi_Size r; fi_MimeType := fi_MimeType r; fi_Extension := fi_Extension r;
     fi_Etag := fi_Etag r; fi_ModifiedAt := fi_ModifiedAt r; fi_CreatedAt := fi_CreatedAt r;
     fi_CanPreview := fi_CanPreview r; fi_CanDownload := fi_CanDownload r; fi_CanDelete := fi_CanDelete r;
     fi_ThumbnailURL := fi_ThumbnailURL r |}.
Record VFSItem := {
  vi_ID : N; vi_Name : string; vi_Path : string; vi_ParentPath : string; vi_SourceID : option N;
  vi_EntryKind : string; vi_IsVirtual : bool; vi_IsMountPoint : bool; vi_SyncState : string; vi_Size : Z;
  vi_MimeType : string; vi_Extension : string; vi_ModifiedAt : string; vi_CreatedAt : string; vi_Etag : string;
  vi_CanPreview : bool; vi_CanDownload : bool; vi_CanDelete : bool
}.
#[export] Instance eta_VFSItem : Eta VFSItem := fun r =>
  {| vi_ID := vi_ID r; vi_Name := vi_Name r; vi_Path := vi_Path r; vi_ParentPath := vi_ParentPath r;
     vi_SourceID := vi_SourceID r; vi_EntryKind := vi_EntryKind r; vi_IsVirtual := vi_IsVirtual r;
     vi_IsMountPoint := vi_IsMountPoint r; vi_SyncState := vi_SyncState r; vi_Size := vi_Size r;
     vi_MimeType := vi_MimeType r; vi_Extension := vi_Extension r; vi_ModifiedAt := vi_ModifiedAt r;
     vi_CreatedAt := vi_CreatedAt r; vi_Etag := vi_Etag r; vi_CanPreview := vi_CanPreview r;
     vi_CanDownload := vi_CanDownload r; vi_CanDelete := vi_CanDelete r |}.
Definition VirtualEntryKindFile := "file".
Definition VirtualEntryKindDirectory := "directory".

Fixpoint filter_file_items (e : aclEvaluator) (items : list FileItem) : M GoErr EvalState (list FileItem) :=
  match items with
  | [] => ret []
  | item :: rest =>
      allowed <-! allowPath e (fi_Path item) ACLActionRead ;;
      if negb allowed then filter_file_items e rest
      else
        deleteAllowed <-! allowPath e (fi_Path item) ACLActionDelete ;;
        let item := { item with fi_CanDelete := fi_CanDelete item && deleteAllowed;
                      fi_CanDownload := fi_CanDownload item && negb (fi_IsDir item) } in
        filtered <-! filter_file_items e rest ;;
        ret (item :: filtered)
  end.
Definition FilterFileItems (ctx : Ctx) (sourceID : N) (items : list FileItem) : M GoErr World (list FileItem) :=
  evaluator <-! newEvaluator ctx sourceID ;;
  if ev_bypass evaluator then ret items else evaluating (filter_file_items evaluator items).

Fixpoint filter_vfs_items (e : aclEvaluator) (items : list VFSItem) : M GoErr EvalState (list VFSItem) :=
  match items with
  | [] => ret []
  | item :: rest =>
      allowed <-! allowVirtualPathWithNodeID e (vi_Path item) (vi_ID item) ACLActionRead ;;
      if negb allowed then filter_vfs_items e rest
      else
        deleteAllowed <-! allowVirtualPathWithNodeID e (vi_Path item) (vi_ID item) ACLActionDelete ;;
        let item := { item with vi_CanDelete := vi_CanDelete item && deleteAllowed;
                      vi_CanDownload := vi_CanDownload item && String.eqb (vi_EntryKind item) VirtualEntryKindFile } in
        filtered <-! filter_vfs_items e rest ;;
        ret (item :: filtered)
  end.
Definition FilterVFSItems (ctx : Ctx) (sourceID : N) (items : list VFSItem) : M GoErr World (list VFSItem) :=
  evaluator <-! newEvaluator ctx sourceID ;;
  if ev_bypass evaluator then ret items else evaluating (filter_vfs_items evaluator items).

Definition CanSeeSource (ctx : Ctx) (sourceID : N) : M GoErr World bool :=
  evaluator <-! newEvaluator ctx sourceID ;;
  if ev_bypass evaluator then ret true else evaluating (any_rule_exposes evaluator (ev_rules evaluator)).
End Evaluator.
