(* ===== verification/AclSpec.v ===== *)
(** * Access control: the specification

    [permits] states when the rules of a user allow an action on a target.
    The theorems show that the authorizer decides exactly that, whatever
    the node cache holds, for a metadata tree that answers consistently
    during the request. *)
From S2P Require Import Prelude GoStrings Entities Paths Mounts Permission Tables Db Auditing Repos Acl.
From stdpp Require Import base list strings gmap sets sorting.
From Stdlib Require Import ZArith Lia.

Local Open Scope string_scope.
Local Open Scope list_scope.
Local Open Scope go_scope.

(** ** Rules by priority *)
Definition is_deny (r : ACLRule) : bool := String.eqb (trim_space (acl_Effect r)) "deny".
Definition is_allow (r : ACLRule) : bool := String.eqb (trim_space (acl_Effect r)) "allow".

(** Among the relevant rules of highest priority one allows and none
    denies. *)
Definition permits (rules : ACLRule -> Prop) (relevant : ACLRule -> bool) : Prop :=
  exists r, rules r /\ relevant r = true /\ is_allow r = true /\
    forall r', rules r' -> relevant r' = true ->
      (acl_Priority r' <= acl_Priority r)%Z /\ (acl_Priority r' = acl_Priority r -> is_deny r' = false).

(** The loop of [allowTarget] on the relevant rules. *)
Fixpoint decide_rules (relevant : ACLRule -> bool) (rules : list ACLRule) (matched : option Z) (allowed : bool) : bool :=
  match rules with
  | [] => allowed
  | r :: rest =>
      if negb (relevant r) then decide_rules relevant rest matched allowed
      else if match matched with Some p => Z.ltb (acl_Priority r) p | None => false end then allowed
      else if is_deny r then false
      else decide_rules relevant rest (Some (match matched with Some p => p | None => acl_Priority r end))
             (if is_allow r then true else allowed)
  end.

Definition by_priority (l : list ACLRule) : Prop :=
  StronglySorted (fun a b => (acl_Priority b <= acl_Priority a)%Z) l.

Lemma deny_not_allow r : is_deny r = true -> is_allow r = false.
Proof. unfold is_deny, is_allow. by intros ->%String.eqb_eq. Qed.

Lemma decide_rules_some relevant l p allowed :
  by_priority l -> (forall r, r ∈ l -> (acl_Priority r <= p)%Z) ->
  decide_rules relevant l (Some p) allowed = true <->
  (forall r, r ∈ l -> relevant r = true -> acl_Priority r = p -> is_deny r = false) /\
  (allowed = true \/ exists r, r ∈ l /\ relevant r = true /\ acl_Priority r = p /\ is_allow r = true).
Proof.
  intros Hs. revert allowed. induction Hs as [|r l Hs IH Hr]; intros allowed Hp; cbn.
  { split; [intros ->; split; [|auto]; intros r Hr; by apply elem_of_nil in Hr|].
    intros [_ [?|(r & Hr & _)]]; [done|by apply elem_of_nil in Hr]. }
  rewrite Forall_forall in Hr.
  destruct (relevant r) eqn:Er; cbn.
  2:{ rewrite IH by set_solver. split.
      - intros [H1 H2]. split; [intros x [->|Hx]%elem_of_cons; [congruence|auto]|].
        destruct H2 as [?|(x & ? & ?)]; [auto|right; exists x; set_solver].
      - intros [H1 H2]. split; [intros x Hx; apply H1; set_solver|].
        destruct H2 as [?|(x & [->|Hx]%elem_of_cons & Hrel & ?)]; [auto|congruence|right; by exists x]. }
  destruct (Z.ltb_spec (acl_Priority r) p) as [Hlt|Hge].
  { split.
    - intros ->. split; [|auto]. intros x [->|Hx]%elem_of_cons _ Ex; [lia|]. specialize (Hr x Hx). lia.
    - intros [_ [?|(x & [->|Hx]%elem_of_cons & _ & Ex & _)]]; [done|lia|]. specialize (Hr x Hx). lia. }
  assert (acl_Priority r = p) as Ep by (pose proof (Hp r ltac:(set_solver)); lia).
  destruct (is_deny r) eqn:Ed.
  { split; [done|]. intros [H1 _]. specialize (H1 r ltac:(set_solver) Er Ep). congruence. }
  rewrite IH by set_solver. split.
  - intros [H1 H2]. split; [intros x [->|Hx]%elem_of_cons; auto|].
    destruct (is_allow r) eqn:Ea; [right; exists r; set_solver|].
    destruct H2 as [?|(x & ? & ?)]; [auto|right; exists x; set_solver].
  - intros [H1 H2]. split; [intros x Hx; apply H1; set_solver|].
    destruct (is_allow r) eqn:Ea; [auto|].
    destruct H2 as [?|(x & [->|Hx]%elem_of_cons & ? & ? & ?)]; [auto|congruence|right; by exists x].
Qed.

Lemma decide_rules_permits relevant l : by_priority l ->
  decide_rules relevant l None false = true <-> permits (fun r => r ∈ l) relevant.
Proof.
  induction 1 as [|r l Hs IH Hr]; cbn.
  { split; [done|]. intros (r & Hr & _). by apply elem_of_nil in Hr. }
  rewrite Forall_forall in Hr. destruct (relevant r) eqn:Er; cbn.
  2:{ rewrite IH. unfold permits. split; intros (x & Hx & Hrel & Ha & Hmax); exists x.
      - split_and!; [set_solver|done..|]. intros y [->|Hy]%elem_of_cons; [congruence|auto].
      - apply elem_of_cons in Hx as [->|Hx]; [congruence|]. split_and!; [done..|].
        intros y Hy. apply Hmax. set_solver. }
  destruct (is_deny r) eqn:Ed.
  { split; [done|]. intros (x & Hx & Hrel & Ha & Hmax). exfalso.
    destruct (Hmax r ltac:(set_solver) Er) as [H1 H2].
    apply elem_of_cons in Hx as [->|Hx]; [rewrite (deny_not_allow _ Ed) in Ha; done|].
    specialize (Hr x Hx). rewrite H2 in Ed by lia. done. }
  rewrite decide_rules_some by auto. split.
  - intros [H1 H2].
    assert (exists x, x ∈ r :: l /\ relevant x = true /\ acl_Priority x = acl_Priority r /\ is_allow x = true)
      as (x & Hx & Hrel & Ep & Ha).
    { destruct (is_allow r) eqn:Ea; [exists r; set_solver|]. destruct H2 as [?|(x & ? & ?)]; [done|exists x; set_solver]. }
    exists x. split_and!; [done..|]. intros y [->|Hy]%elem_of_cons Hy'; [split; [lia|done]|].
    split; [specialize (Hr y Hy); lia|]. intros E. apply H1; [done..|lia].
  - intros (x & Hx & Hrel & Ha & Hmax). destruct (Hmax r ltac:(set_solver) Er) as [H1 _].
    assert (acl_Priority x = acl_Priority r) as Ep.
    { apply elem_of_cons in Hx as [->|Hx]; [done|]. specialize (Hr x Hx). lia. }
    split; [intros y Hy Hy' E; apply Hmax; [set_solver|done|lia]|].
    apply elem_of_cons in Hx as [->|Hx]; [left; by rewrite Ha|right; eauto].
Qed.

(** Only the set of rules matters. *)
Lemma permits_ext (A B : ACLRule -> Prop) rel rel' :
  (forall r, A r <-> B r) -> (forall r, A r -> rel r = rel' r) -> permits A rel <-> permits B rel'.
Proof.
  intros HA Hrel. unfold permits. split; intros (r & Hr & H1 & H2 & H3); exists r.
  - split_and!; [by apply HA|by rewrite <- Hrel|done|]. intros r' Hr' Hrel'. apply HA in Hr'. apply H3; [done|by rewrite Hrel].
  - apply HA in Hr as Hr2. split_and!; [done|by rewrite Hrel|done|]. intros r' Hr' Hrel'.
    apply H3; [by apply HA|by rewrite <- Hrel].
Qed.

(** ** The evaluator *)
Section Evaluation.
Context `{DatabaseLaws} {MR : MetadataReader}.

(** The metadata tree answers every look-up of the request from one
    state: [node_of] and [path_of] give the live node of an identifier or
    path, if any, and no answer changes a table.  [I] holds in the worlds
    the request gets to, by statements and by look-ups. *)
Record reader_stable (I : World -> Prop) (w0 : World) (node_of : N -> option VFSNode) (path_of : string -> option VFSNode) : Prop := {
  stable_frames : forall w, I w -> frames [] w0 w;
  stable_reads : forall t p o limit w, I w -> wp (stmt (db_select t p o limit)) (fun _ w' => I w') w;
  stable_id : forall id w, I w -> wp (ResolveNodeByID id) (fun res w' => I w' /\
    match res with Ok n => live_node n = node_of id | Err _ => node_of id = None end) w;
  stable_path : forall p w, I w -> wp (ResolveNode p) (fun res w' => I w' /\
    match res with Ok n => live_node n = path_of p | Err _ => path_of p = None end) w
}.

Context (I : World -> Prop) (w0 : World) (node_of : N -> option VFSNode) (path_of : string -> option VFSNode)
  (stable : reader_stable I w0 node_of path_of).

(** What the evaluator maintains: unchanged tables and a cache that agrees
    with the tree. *)
Definition eval_ok (s : EvalState) : Prop :=
  I (es_world s) /\ forall id n, es_cache s !! id = Some n -> n = node_of id.

Definition returns {A} (a : A) (res : result GoErr A) (s : EvalState) : Prop := res = Ok a /\ eval_ok s.

Lemma wp_returns {A B} (m : M GoErr EvalState A) (k : A -> M GoErr EvalState B) a Q s :
  wp m (returns a) s -> (forall s', eval_ok s' -> wp (k a) Q s') -> wp (bind m k) Q s.
Proof. intros Hm Hk. apply wp_bind. eapply wp_mono; [exact Hm|]. intros r s' [-> Hs]. auto. Qed.

Definition rule_node (e : aclEvaluator) (id : N) : option VFSNode :=
  if negb (ev_hasReader e) || N.eqb id 0 then None else node_of id.

Lemma wp_remember id n s : eval_ok s -> n = node_of id -> wp (remember id n) (returns (node_of id)) s.
Proof.
  intros [Hf Hc] ->. split; [done|]. split; [exact Hf|]. cbn. intros id' n'.
  destruct (decide (id = id')) as [->|Hne]; [rewrite lookup_insert_eq; congruence|].
  rewrite lookup_insert_ne by done. apply Hc.
Qed.

Lemma wp_resolveRuleNode e id s : eval_ok s -> wp (resolveRuleNode e id) (returns (rule_node e id)) s.
Proof.
  intros Hs. unfold resolveRuleNode, rule_node. destruct (negb (ev_hasReader e) || N.eqb id 0); [done|].
  apply wp_bind, wp_gets. destruct (es_cache s !! id) as [n|] eqn:Ec.
  - apply wp_ret. split; [|done]. f_equal. by apply Hs.
  - apply wp_bind_or, wp_zoom. eapply wp_mono; [by apply (stable_id _ _ _ _ stable), Hs|].
    intros [n|err] w [Hf Hn]; (apply wp_remember; [split; [exact Hf|apply Hs]|congruence]).
Qed.

Definition target_node (e : aclEvaluator) (p : string) (id : N) : option VFSNode :=
  if negb (ev_hasReader e) then None
  else if negb (N.eqb id 0) then node_of id
  else match normalizeVirtualPath p with Ok q => path_of q | Err _ => None end.

Lemma wp_resolveTarget e p id s : eval_ok s ->
  wp (resolveTargetNodeBestEffort e p id) (returns (target_node e p id)) s.
Proof.
  intros Hs. unfold resolveTargetNodeBestEffort, target_node.
  destruct (ev_hasReader e) eqn:Er; cbn [negb]; [|done]. destruct (N.eqb_spec id 0) as [->|Hid]; cbn [negb].
  - destruct (normalizeVirtualPath p) as [q|err]; [|done]. apply wp_bind_or, wp_zoom.
    eapply wp_mono; [by apply (stable_path _ _ _ _ stable), Hs|].
    intros [n|err] w [Hf Hn]; apply wp_ret; (split; [by rewrite Hn|split; [done|apply Hs]]).
  - pose proof (wp_resolveRuleNode e id s Hs) as Hw. unfold rule_node in Hw. rewrite Er in Hw. cbn in Hw.
    destruct (N.eqb_spec id 0); done.
Qed.

(** A rule's match as a function of the tree. *)
Definition rule_matches (e : aclEvaluator) (tp tvp : string) (tn : option VFSNode) (rule : ACLRule) : bool :=
  match acl_VFSNodeID rule with
  | Some id =>
      if negb (ev_hasReader e) then ruleMatchesPath rule tp tvp
      else match rule_node e id, tn with
           | None, _ => false
           | Some n, Some t => ruleMatchesNode rule n t
           | Some n, None => ruleMatchesNodePath rule n tvp
           end
  | None => ruleMatchesPath rule tp tvp
  end.

Lemma wp_ruleMatchesTarget e rule tp tvp tn s : eval_ok s ->
  wp (ruleMatchesTarget e rule tp tvp tn) (returns (rule_matches e tp tvp tn rule)) s.
Proof.
  intros Hs. unfold ruleMatchesTarget, rule_matches. destruct (acl_VFSNodeID rule) as [id|]; [|done].
  destruct (negb (ev_hasReader e)); [done|]. eapply wp_returns; [by apply wp_resolveRuleNode|].
  intros s' Hs'. by destruct (rule_node e id), tn.
Qed.

(** The rules of the request's user that match the target and contain the
    action. *)
Definition relevant (e : aclEvaluator) (tp tvp : string) (tn : option VFSNode) (action : ACLAction) (rule : ACLRule) : bool :=
  String.eqb (acl_SubjectType rule) "user" && N.eqb (acl_SubjectID rule) (ev_userID e) &&
  rule_matches e tp tvp tn rule && ruleContainsAction rule action.

Lemma wp_allow_rules e tp tvp tn action rules matched allowed s : eval_ok s ->
  wp (allow_rules e tp tvp tn action rules matched allowed)
     (returns (decide_rules (relevant e tp tvp tn action) rules matched allowed)) s.
Proof.
  revert matched allowed s; induction rules as [|r rest IH]; intros matched allowed s Hs; [done|].
  cbn [allow_rules decide_rules]. unfold relevant at 1.
  destruct (String.eqb (acl_SubjectType r) "user"), (N.eqb (acl_SubjectID r) (ev_userID e)); cbn [negb orb andb];
    try by apply IH.
  eapply wp_returns; [by apply wp_ruleMatchesTarget|]. intros s' Hs'.
  destruct (rule_matches e tp tvp tn r); cbn [negb andb]; [|by apply IH].
  destruct (ruleContainsAction r action); cbn [negb]; [|by apply IH].
  destruct (match matched with Some p => Z.ltb (acl_Priority r) p | None => false end); [done|].
  unfold is_deny. destruct (String.eqb (trim_space (acl_Effect r)) "deny"); [done|]. by apply IH.
Qed.

Lemma wp_allowTarget e tp tvp tn action s : eval_ok s ->
  wp (allowTarget e tp tvp tn action)
     (returns (decide_rules (relevant e tp tvp tn action) (ev_rules e) None false)) s.
Proof. apply wp_allow_rules. Qed.

(** The decision on a virtual path, as a function of the tree. *)
Definition virtual_path_allowed (e : aclEvaluator) (virtualPath : string) (nodeID : N) (action : ACLAction) : result GoErr bool :=
  if ev_bypass e then Ok true
  else match normalizeVirtualPath virtualPath with
       | Err _ => Err ErrPathInvalid
       | Ok p =>
           match inner_path e p with
           | None => Ok false
           | Some inner =>
               Ok (decide_rules (relevant e inner p (target_node e p nodeID) action) (ev_rules e) None false)
           end
       end.

Lemma wp_allowVirtualPath e vp id action s : eval_ok s ->
  wp (allowVirtualPathWithNodeID e vp id action)
     (fun res s' => res = virtual_path_allowed e vp id action /\ eval_ok s') s.
Proof.
  intros Hs. unfold allowVirtualPathWithNodeID, virtual_path_allowed. destruct (ev_bypass e); [done|].
  apply wp_bind_or, wp_lift_result. destruct (normalizeVirtualPath vp) as [p|err]; [|done].
  destruct (inner_path e p) as [inner|]; [|done].
  eapply wp_returns; [by apply wp_resolveTarget|]. intros s' Hs'.
  eapply wp_mono; [by apply wp_allowTarget|]. by intros r s'' [-> ?].
Qed.

(** Filtering keeps, in order, the items the user may read, with the
    delete flag lowered where the user may not delete. *)
Definition shown_item (e : aclEvaluator) (item : VFSItem) : option VFSItem :=
  match virtual_path_allowed e (vi_Path item) (vi_ID item) ACLActionRead with
  | Ok true => Some { item with
      vi_CanDelete := vi_CanDelete item && match virtual_path_allowed e (vi_Path item) (vi_ID item) ACLActionDelete with
                                           | Ok b => b | Err _ => false end;
      vi_CanDownload := vi_CanDownload item && String.eqb (vi_EntryKind item) VirtualEntryKindFile }
  | _ => None
  end.

Lemma path_allowed_err e vp id action : is_ok (virtual_path_allowed e vp id action) =
  ev_bypass e || is_ok (normalizeVirtualPath vp).
Proof.
  unfold virtual_path_allowed. destruct (ev_bypass e); [done|]. destruct (normalizeVirtualPath vp) as [p|]; [|done].
  by destruct (inner_path e p).
Qed.

Lemma wp_filter_vfs_items e items s : eval_ok s ->
  wp (filter_vfs_items e items) (fun res s' => eval_ok s' /\
    res = if ev_bypass e || forallb (fun i => is_ok (normalizeVirtualPath (vi_Path i))) items
          then Ok (omap (shown_item e) items) else Err ErrPathInvalid) s.
Proof.
  revert s; induction items as [|item rest IH]; intros s Hs; [rewrite orb_true_r; done|].
  cbn [filter_vfs_items forallb]. apply wp_bind. eapply wp_mono; [by apply wp_allowVirtualPath|].
  intros res s1 [-> Hs1]. pose proof (path_allowed_err e (vi_Path item) (vi_ID item) ACLActionRead) as He.
  pose proof (path_allowed_err e (vi_Path item) (vi_ID item) ACLActionDelete) as He'.
  cbn [omap list_omap]. unfold shown_item at 1.
  destruct (virtual_path_allowed e (vi_Path item) (vi_ID item) ACLActionRead) as [b|err] eqn:Er.
  - assert (ev_bypass e || (is_ok (normalizeVirtualPath (vi_Path item)) && forallb (fun i => is_ok (normalizeVirtualPath (vi_Path i))) rest)
      = ev_bypass e || forallb (fun i => is_ok (normalizeVirtualPath (vi_Path i))) rest) as ->.
    { cbn in He. destruct (ev_bypass e); [done|]. cbn in He. by rewrite <- He. }
    destruct b; cbn [negb].
    + apply wp_bind. eapply wp_mono; [by apply wp_allowVirtualPath|]. intros res s2 [-> Hs2].
      rewrite <- He in He'. destruct (virtual_path_allowed e _ _ ACLActionDelete) as [d|]; [|done].
      apply wp_bind. eapply wp_mono; [by apply IH|]. intros res s3 [Hs3 ->].
      by destruct (ev_bypass e || _).
    + eapply wp_mono; [by apply IH|]. intros res s2 [Hs2 ->]. by destruct (ev_bypass e || _).
  - cbn in He. symmetry in He. apply orb_false_iff in He as [-> Hn]. rewrite Hn. cbn. split; [done|].
    unfold virtual_path_allowed in Er. destruct (ev_bypass e); [done|].
    destruct (normalizeVirtualPath (vi_Path item)) as [p|]; [by destruct (inner_path e p)|]. congruence.
Qed.
End Evaluation.

(** ** The evaluator a request gets *)
Section Requests.
Context `{DatabaseLaws} {MR : MetadataReader} (a : ACLAuthorizer).

Definition visible (sourceID : N) (r : ACLRule) : Prop := acl_SourceID r = sourceID \/ acl_SourceID r = 0%N.
Definition visible_rules (w : World) (sourceID : N) (r : ACLRule) : Prop := r ∈ tbl TRule w /\ visible sourceID r.

(** The configuration row in force. *)
Definition is_config (w : World) (c : SystemConfig) : Prop :=
  c ∈ tbl TConfig w /\ forall c', c' ∈ tbl TConfig w -> (cfg_ID c <= cfg_ID c')%N.

(** Requests the authorizer does not restrict. *)
Definition unrestricted (ctx : Ctx) (sourceID : N) (w : World) : Prop :=
  az_systemConfigRepo a = false \/ az_aclRepo a = false \/ ctx_auth ctx = None \/
  (exists auth, ctx_auth ctx = Some auth /\ ra_RoleKey auth = RoleSuperAdmin) \/
  (forall r, ~ visible_rules w sourceID r) /\ (forall c, is_config w c -> cfg_MultiUserEnabled c = false).

Definition mount_of (w : World) (sourceID : N) (m : string) : Prop :=
  if az_sourceRepo a && negb (N.eqb sourceID 0)
  then exists s, s ∈ tbl TSource w /\ src_ID s = sourceID /\
         m = (if negb (String.eqb (src_MountPath s) "") then src_MountPath s else "/")
  else m = "/".

Definition evaluator_for (auth : RequestAuth) (sourceID : N) (w : World) (e : aclEvaluator) : Prop :=
  ev_bypass e = false /\ ev_userID e = ra_UserID auth /\ ev_sourceID e = sourceID /\
  ev_hasReader e = az_metadataReader a /\ by_priority (ev_rules e) /\
  (forall r, r ∈ ev_rules e <-> visible_rules w sourceID r) /\ mount_of w sourceID (ev_mountPath e).

Lemma config_unique w c c' : valid w -> is_config w c -> is_config w c' -> c = c'.
Proof.
  intros Hv [Hc Hm] [Hc' Hm']. destruct (no_conflicts_elem TConfig _ c c' (Hv TConfig) Hc Hc') as [|Hn]; [done|].
  cbn in Hn. apply N.eqb_neq in Hn. specialize (Hm c' Hc'). specialize (Hm' c Hc). lia.
Qed.
Lemma mount_unique w sid m m' : valid w -> mount_of w sid m -> mount_of w sid m' -> m = m'.
Proof.
  intros Hv. unfold mount_of. destruct (az_sourceRepo a && _); [|congruence].
  intros (s & Hs & Es & ->) (s' & Hs' & Es' & ->).
  destruct (no_conflicts_elem TSource _ s s' (Hv TSource) Hs Hs') as [->|Hn]; [done|].
  cbn in Hn. unfold StorageSourceModel_conflict in Hn. by rewrite Es, Es', N.eqb_refl in Hn.
Qed.

(** Errors of a request that are not decisions. *)
Definition infra_error (sourceID : N) (w : World) (e : GoErr) : Prop :=
  db_error e \/ e = ErrNotFound /\ forall s, s ∈ tbl TSource w -> src_ID s <> sourceID.

Lemma list_filter_visible sid r :
  acl_rule_filter {| arf_SourceID := sid; arf_Path := ""; arf_VFSNodeID := None; arf_IncludeGlobal := true;
                     arf_AnySource := false |} r = true <-> visible sid r.
Proof.
  unfold acl_rule_filter, visible. cbn -[trim_space]. change (trim_space "") with "". rewrite !andb_true_r.
  destruct (N.eqb_spec sid 0) as [->|]; cbn; [rewrite N.eqb_eq; tauto|]. by rewrite orb_true_iff, !N.eqb_eq.
Qed.

Lemma wp_get_config (Q : result GoErr SystemConfig -> World -> Prop) w :
  (forall e w', same w w' -> db_error e \/ (e = ErrNotFound /\ forall c, ~ is_config w c) -> Q (Err e) w') ->
  (forall c w', same w w' -> is_config w c -> Q (Ok c) w') ->
  wp SystemConfigRepository_Get Q w.
Proof.
  intros He Hk. apply (wp_first TConfig).
  - intros e w' Hs Hd. auto.
  - intros w' Hs Hn. apply He; [done|]. right. split; [done|]. intros c [Hc _]. specialize (Hn c Hc). done.
  - intros c w' Hs Hc _ Hmin. apply Hk; [done|]. split; [done|]. intros c' Hc'.
    specialize (Hmin c' Hc' eq_refl). cbn in Hmin. apply Z.leb_le in Hmin. lia.
Qed.

Lemma frames_nil_same w0 w w' : frames [] w0 w -> same w w' -> frames [] w0 w'.
Proof. intros Hf Hs. eapply frames_trans; [done|by apply same_frames]. Qed.
Lemma frames_nil_tbl w0 w t : frames [] w0 w -> tbl t w = tbl t w0.
Proof. intros (Hf & _). apply Hf. set_solver. Qed.

Definition new_evaluator_post (ctx : Ctx) (sid : N) (w : World) (res : result GoErr aclEvaluator) : Prop :=
  match res with
  | Err e => infra_error sid w e
  | Ok e => (ev_bypass e = true /\ unrestricted ctx sid w) \/
            (~ unrestricted ctx sid w /\ e = bypass_evaluator false /\ forall c, ~ is_config w c) \/
            (~ unrestricted ctx sid w /\ (exists c, is_config w c) /\
             exists auth, ctx_auth ctx = Some auth /\ evaluator_for auth sid w e)
  end.

(** With its repositories and an ordinary user, a request is unrestricted
    only by the absence of rules. *)
Lemma unrestricted_ordinary ctx sid w auth rules :
  az_systemConfigRepo a = true -> az_aclRepo a = true -> ctx_auth ctx = Some auth ->
  ra_RoleKey auth <> RoleSuperAdmin -> (forall r, r ∈ rules <-> visible_rules w sid r) ->
  unrestricted ctx sid w <->
  Nat.eqb (length rules) 0 = true /\ forall c, is_config w c -> cfg_MultiUserEnabled c = false.
Proof.
  intros Ea Eb Ec Er Hvis.
  assert (Nat.eqb (length rules) 0 = true <-> forall r, ~ visible_rules w sid r) as ->.
  { rewrite Nat.eqb_eq. split.
    - intros Hl r Hr. apply Hvis in Hr. destruct rules; [by apply elem_of_nil in Hr|done].
    - intros Hn. destruct rules as [|r l]; [done|]. destruct (Hn r). apply Hvis. set_solver. }
  unfold unrestricted. rewrite Ea, Eb, Ec. split; [|tauto].
  intros [?|[?|[?|[(auth' & [= <-] & ?)|?]]]]; done.
Qed.

Definition evaluator_mount (sourceID : N) : M GoErr World string :=
  if az_sourceRepo a && negb (N.eqb sourceID 0) then
    source <-! SourceRepository_FindByID sourceID ;;
    ret (if negb (String.eqb (src_MountPath source) "") then src_MountPath source else "/")
  else ret "/".

Lemma wp_evaluator_mount sid w0 w (Q : result GoErr string -> World -> Prop) : frames [] w0 w ->
  (forall e w', frames [] w0 w' -> infra_error sid w0 e -> Q (Err e) w') ->
  (forall m w', frames [] w0 w' -> mount_of w0 sid m -> Q (Ok m) w') ->
  wp (evaluator_mount sid) Q w.
Proof.
  intros Hf He Hk. unfold evaluator_mount. unfold mount_of in Hk.
  destruct (az_sourceRepo a && negb (N.eqb sid 0)); [|apply wp_ret; by apply Hk].
  apply wp_bind, (wp_lookup TSource).
  - intros e w3 Hs3 Hd. apply He; [by eapply frames_nil_same|]. destruct Hd as [?|[-> Hno]]; [by left|right].
    split; [done|]. intros s Hin' E. rewrite <- (frames_nil_tbl _ _ TSource Hf) in Hin'. specialize (Hno s Hin').
    by rewrite E, N.eqb_refl in Hno.
  - intros s w3 Hs3 Hin' E%N.eqb_eq. apply wp_ret, Hk; [by eapply frames_nil_same|].
    exists s. by rewrite <- (frames_nil_tbl _ _ TSource Hf).
Qed.

Lemma wp_newEvaluator_auth ctx sid w auth : valid w ->
  az_systemConfigRepo a = true -> az_aclRepo a = true -> ctx_auth ctx = Some auth ->
  ra_RoleKey auth <> RoleSuperAdmin ->
  wp (newEvaluator a ctx sid) (fun res w' => frames [] w w' /\ new_evaluator_post ctx sid w res) w.
Proof.
  intros Hv Ea Eb Ec Er. unfold newEvaluator, RequestAuthFromContext. rewrite Ea, Eb, Ec. cbn [negb orb].
  destruct (String.eqb_spec (ra_RoleKey auth) RoleSuperAdmin) as [|_]; [done|]. apply wp_bind, wp_list_rules.
  { intros e w1 Hs He. split; [by apply same_frames|by left]. }
  intros rules w1 Hs1 Hin Hsorted. apply (same_frames []) in Hs1 as Hf1.
  assert (forall r, r ∈ rules <-> visible_rules w sid r) as Hvis by (intros r; by rewrite Hin, list_filter_visible).
  pose proof (unrestricted_ordinary ctx sid w auth rules Ea Eb Ec Er Hvis) as Hun.
  assert (forall c, is_config w1 c <-> is_config w c) as Hcfg.
  { intros c. unfold is_config. by rewrite (frames_nil_tbl _ _ TConfig Hf1). }
  apply wp_bind, wp_bind_or, wp_get_config.
  { intros e w2 Hs2 [Hd|[-> Hno]].
    - destruct (err_is e ErrNotFound) eqn:E; [|split; [by eapply frames_nil_same|by left]].
      exfalso. apply db_error_class in Hd as [-> | [-> | [m ->]]]; discriminate E.
    - cbn. apply wp_ret. split; [by eapply frames_nil_same|]. unfold new_evaluator_post.
      assert (forall c, ~ is_config w c) as Hno' by (intros c Hc; eapply Hno; by apply Hcfg).
      destruct (Nat.eqb (length rules) 0) eqn:El.
      + left. split; [done|]. apply Hun. split; [done|]. intros c Hc. by destruct (Hno' c).
      + right. left. split_and!; [|done|done]. rewrite Hun. by intros [? _]. }
  intros c w2 Hs2 Hc. apply Hcfg in Hc. pose proof (frames_nil_same _ _ _ Hf1 Hs2) as Hf2.
  apply wp_ret. destruct (negb (cfg_MultiUserEnabled c) && Nat.eqb (length rules) 0) eqn:Eu.
  { apply andb_true_iff in Eu as [Em%negb_true_iff El]. apply wp_ret. split; [done|]. left. split; [done|].
    apply Hun. split; [done|]. intros c' Hc'. by rewrite (config_unique w c' c Hv Hc' Hc). }
  apply wp_bind, (wp_evaluator_mount sid w); [done|by intros e w3 Hf3 He|]. intros m w3 Hf3 Hm.
  apply wp_ret. split; [done|]. right. right. split_and!; [|by exists c|exists auth; by split_and!].
  rewrite Hun. intros [El Hmu]. rewrite (Hmu c Hc), El in Eu. done.
Qed.

Lemma wp_newEvaluator ctx sid w : valid w ->
  wp (newEvaluator a ctx sid) (fun res w' => frames [] w w' /\ new_evaluator_post ctx sid w res) w.
Proof.
  intros Hv.
  assert (unrestricted ctx sid w ->
    wp (ret (bypass_evaluator true)) (fun res w' => frames [] w w' /\ new_evaluator_post ctx sid w res) w) as Hby.
  { intros Hu. apply wp_ret. split; [apply frames_refl|by left]. }
  destruct (az_systemConfigRepo a) eqn:Ea.
  2:{ unfold newEvaluator. rewrite Ea. apply Hby. by left. }
  destruct (az_aclRepo a) eqn:Eb.
  2:{ unfold newEvaluator. rewrite Ea, Eb. apply Hby. right; by left. }
  destruct (ctx_auth ctx) as [auth|] eqn:Ec.
  2:{ unfold newEvaluator, RequestAuthFromContext. rewrite Ea, Eb, Ec. apply Hby. unfold unrestricted. tauto. }
  destruct (String.eqb_spec (ra_RoleKey auth) RoleSuperAdmin) as [Er|Er].
  - unfold newEvaluator, RequestAuthFromContext. rewrite Ea, Eb, Ec, Er. apply Hby. do 3 right. left. by exists auth.
  - by eapply wp_newEvaluator_auth.
Qed.

(** What is made of statements that read keeps to the worlds they lead to,
    and fails as they do or with what it finds missing. *)
Section Reads.
Context (I : World -> Prop) (P : GoErr -> Prop) (missing : P ErrNotFound).
Definition keeps_to {A} (m : M GoErr World A) : Prop :=
  forall w, I w -> wp m (fun r w' => I w' /\ match r with Ok _ => True | Err e => P e end) w.
Context (reads : forall t p o limit, keeps_to (stmt (db_select t p o limit))).
Lemma keeps_to_bind {A B} (m : M GoErr World A) (k : A -> M GoErr World B) :
  keeps_to m -> (forall a, keeps_to (k a)) -> keeps_to (bind m k).
Proof. intros Hm Hk w Hw. apply wp_bind. eapply wp_mono; [by apply Hm|]. intros [b|e] w' [Hw' He]; [by apply Hk|done]. Qed.
Lemma keeps_to_or {A B} (m : M GoErr World A) h (k : A -> M GoErr World B) :
  keeps_to m -> (forall e, P e -> keeps_to (h e)) -> (forall a, keeps_to (k a)) -> keeps_to (bind_or m h k).
Proof. intros Hm Hh Hk w Hw. apply wp_bind_or. eapply wp_mono; [by apply Hm|]. intros [b|e] w' [Hw' He]; [by apply Hk|by apply Hh]. Qed.
Lemma keeps_to_ret {A} (x : A) : keeps_to (ret x).
Proof. by intros w Hw. Qed.
Lemma keeps_to_throw {A} e : P e -> keeps_to (throw e : M GoErr World A).
Proof. by intros He w Hw. Qed.
Lemma keeps_to_first t p o : keeps_to (first t p o).
Proof. apply keeps_to_bind; [apply reads|]. intros [|x l]; [by apply keeps_to_throw|apply keeps_to_ret]. Qed.
Lemma newEvaluator_keeps_to ctx sid : keeps_to (newEvaluator a ctx sid).
Proof.
  unfold newEvaluator. destruct (_ || _); [apply keeps_to_ret|]. destruct (RequestAuthFromContext ctx) as [auth|]; [|apply keeps_to_ret].
  destruct (String.eqb _ _); [apply keeps_to_ret|]. apply keeps_to_bind; [apply (reads TRule)|]. intros rules.
  apply keeps_to_bind.
  - apply keeps_to_or; [apply (keeps_to_first TConfig)|intros e He; destruct (err_is _ _); [apply keeps_to_ret|by apply keeps_to_throw]|intros; apply keeps_to_ret].
  - intros [cfg|]; [|apply keeps_to_ret]. destruct (_ && _); [apply keeps_to_ret|]. apply keeps_to_bind; [|intros; apply keeps_to_ret].
    destruct (_ && _); [|apply keeps_to_ret]. apply keeps_to_bind; [apply (keeps_to_first TSource)|intros; apply keeps_to_ret].
Qed.
End Reads.
Lemma stable_keeps I w0 node_of path_of : reader_stable I w0 node_of path_of -> forall ctx sid, keeps_to I (fun _ => True) (newEvaluator a ctx sid).
Proof.
  intros Hs ctx sid. apply newEvaluator_keeps_to; [done|]. intros t p o limit w Hw.
  eapply wp_mono; [by apply (stable_reads _ _ _ _ Hs)|]. by intros [l|e] w' Hw'.
Qed.

(** ** Decisions *)
Context (node_of : N -> option VFSNode) (path_of : string -> option VFSNode).

(** The user, source and mount of a request, without its rules. *)
Definition subject (auth : RequestAuth) (sid : N) (m : string) : aclEvaluator :=
  {| ev_bypass := false; ev_userID := ra_UserID auth; ev_sourceID := sid; ev_rules := []; ev_mountPath := m;
     ev_hasReader := az_metadataReader a |}.

(** The rules visible for the source permit the action on the path, seen
    from the source's mount. *)
Definition granted (ctx : Ctx) (sid : N) (w : World) (vp : string) (nid : N) (action : ACLAction) : Prop :=
  exists auth m p inner,
    ctx_auth ctx = Some auth /\ (exists c, is_config w c) /\ mount_of w sid m /\ normalizeVirtualPath vp = Ok p /\
    let e := subject auth sid m in
    inner_path e p = Some inner /\
    permits (visible_rules w sid) (relevant node_of e inner p (target_node node_of path_of e p nid) action).

Lemma relevant_subject auth sid w e inner p tn action : evaluator_for auth sid w e ->
  relevant node_of e inner p tn action = relevant node_of (subject auth sid (ev_mountPath e)) inner p tn action.
Proof. intros (E1 & E2 & E3 & E4 & _). destruct e; cbn in *; subst. reflexivity. Qed.
Lemma target_subject auth sid w e p nid : evaluator_for auth sid w e ->
  target_node node_of path_of e p nid = target_node node_of path_of (subject auth sid (ev_mountPath e)) p nid.
Proof. intros (E1 & E2 & E3 & E4 & _). destruct e; cbn in *; subst. reflexivity. Qed.

Lemma allowed_granted ctx sid w e auth vp nid action : valid w -> ctx_auth ctx = Some auth ->
  (exists c, is_config w c) -> evaluator_for auth sid w e ->
  match virtual_path_allowed node_of path_of e vp nid action with
  | Ok b => b = true <-> granted ctx sid w vp nid action
  | Err err => err = ErrPathInvalid /\ is_ok (normalizeVirtualPath vp) = false
  end.
Proof.
  intros Hv Ha Hc He. pose proof He as (Eb & _ & _ & _ & Hsort & Hr & Hm).
  unfold virtual_path_allowed. rewrite Eb. destruct (normalizeVirtualPath vp) as [p|] eqn:Ep; [|done].
  assert (forall inner, inner_path e p = Some inner <-> inner_path (subject auth sid (ev_mountPath e)) p = Some inner) as Hi by done.
  assert (forall auth' m p', ctx_auth ctx = Some auth' -> mount_of w sid m -> Ok (E := GoErr) p = Ok p' ->
    auth' = auth /\ m = ev_mountPath e /\ p' = p) as Huniq.
  { intros auth' m p' Ha' Hm' [= <-]. rewrite Ha in Ha'. injection Ha' as <-.
    split_and!; [done| |done]. by eapply mount_unique. }
  destruct (inner_path e p) as [inner|] eqn:Ei.
  - rewrite decide_rules_permits by done. rewrite (permits_ext _ (visible_rules w sid) _ _ Hr (fun _ _ => eq_refl)).
    rewrite (relevant_subject auth sid w e), (target_subject auth sid w e) by done. split.
    + intros Hp. exists auth, (ev_mountPath e), p, inner. split_and!; done.
    + intros (auth' & m & p' & inner' & Ha' & _ & Hm' & Hp' & Hi' & Hperm).
      rewrite Ep in Hp'. destruct (Huniq _ _ _ Ha' Hm' Hp') as (-> & -> & ->). apply Hi in Hi'. congruence.
  - split; [done|]. intros (auth' & m & p' & inner' & Ha' & _ & Hm' & Hp' & Hi' & _).
    rewrite Ep in Hp'. destruct (Huniq _ _ _ Ha' Hm' Hp') as (-> & -> & ->). apply Hi in Hi'. congruence.
Qed.

(** What an evaluator decides, whichever way it was made. *)
Definition decides (ctx : Ctx) (sid : N) (w : World) (e : aclEvaluator) : Prop :=
  forall vp nid action,
    match virtual_path_allowed node_of path_of e vp nid action with
    | Ok b => b = true <-> granted ctx sid w vp nid action
    | Err err => err = ErrPathInvalid /\ is_ok (normalizeVirtualPath vp) = false
    end.

Lemma evaluator_decides ctx sid w e : valid w -> new_evaluator_post ctx sid w (Ok e) ->
  if ev_bypass e then unrestricted ctx sid w else ~ unrestricted ctx sid w /\ decides ctx sid w e.
Proof.
  intros Hv [[-> Hu]|[(Hnu & -> & Hno)|(Hnu & Hc & auth & Ha & He)]]; [done| |].
  - split; [done|]. intros vp nid action. unfold virtual_path_allowed. cbn.
    destruct (normalizeVirtualPath vp); [|done]. split; [done|]. intros (? & ? & ? & ? & _ & [c Hc] & _).
    by destruct (Hno c).
  - assert (ev_bypass e = false) as -> by apply He. split; [done|]. intros vp nid action.
    by eapply allowed_granted.
Qed.

Lemma wp_evaluating {A} (I : World -> Prop) (m : M GoErr EvalState A) (Q : result GoErr A -> World -> Prop) w : I w ->
  (forall s, eval_ok I node_of s -> wp m (fun res s' => Q res (es_world s')) s) ->
  wp (evaluating m) Q w.
Proof.
  intros HI Hm. unfold wp, evaluating. specialize (Hm {| es_world := w; es_cache := ∅ |}).
  unfold wp in Hm. destruct (m _) as [r s]. apply Hm. split; [done|]. intros id n. cbn. by rewrite lookup_empty.
Qed.

(** A request on a virtual path, with any reader that answers from one
    state of the tree, is let through exactly if it is not restricted or is
    granted.  It changes no table; any other outcome is an invalid path, a
    database error or a missing source.  For the reader that the service of
    the metadata tree is, see [AclTree]. *)
Theorem authorize_virtual_path_spec ctx sid vp nid action w (I : World -> Prop) (Hvalid : valid w)
    (Hstable : reader_stable I w node_of path_of) (Hnow : I w) :
  let '(res, w') := AuthorizeVirtualPath a ctx sid vp nid action w in
  frames [] w w' /\
  match res with
  | Ok _ => unrestricted ctx sid w \/ granted ctx sid w vp nid action
  | Err e => infra_error sid w e \/
             e = ErrPathInvalid /\ is_ok (normalizeVirtualPath vp) = false \/
             e = ErrACLDenied /\ ~ unrestricted ctx sid w /\ ~ granted ctx sid w vp nid action
  end.
Proof.
  apply run_wp.
  unfold AuthorizeVirtualPath. apply wp_bind. eapply wp_mono; [apply wp_conj; [by apply wp_newEvaluator|by apply (stable_keeps I w _ _ Hstable)]|].
  intros [e|err] w1 [[Hf1 Hpost] [HI _]]; [|split; [done|by left]].
  apply wp_bind, (wp_evaluating I); [done|]. intros s Hs.
  eapply wp_mono; [by apply (wp_allowVirtualPath I w node_of path_of)|].
  intros res s' [-> [Hf'%(stable_frames _ _ _ _ Hstable) _]].
  apply evaluator_decides in Hpost; [|done]. destruct (ev_bypass e) eqn:Eb.
  - unfold virtual_path_allowed. rewrite Eb. split; [done|by left].
  - destruct Hpost as [Hnu Hg]. specialize (Hg vp nid action).
    destruct (virtual_path_allowed _ _ e vp nid action) as [[|]|err].
    + split; [done|]. right. by apply Hg.
    + split; [done|]. right. right. split_and!; [done|done|]. rewrite <- Hg. done.
    + destruct Hg as [-> Hn]. split; [done|]. right. by left.
Qed.

(** The items a filter shows: those with flags, with their flags lowered. *)
Definition lowered (flags : VFSItem -> option bool) (i : VFSItem) : option VFSItem :=
  (fun b => { i with vi_CanDelete := vi_CanDelete i && b;
                     vi_CanDownload := vi_CanDownload i && String.eqb (vi_EntryKind i) VirtualEntryKindFile }) <$> flags i.
Definition shown_flags (e : aclEvaluator) (i : VFSItem) : option bool :=
  match virtual_path_allowed node_of path_of e (vi_Path i) (vi_ID i) ACLActionRead with
  | Ok true => Some match virtual_path_allowed node_of path_of e (vi_Path i) (vi_ID i) ACLActionDelete with
                    | Ok b => b | Err _ => false end
  | _ => None
  end.
Lemma shown_item_lowered e (items : list VFSItem) :
  omap (shown_item node_of path_of e) items = omap (lowered (shown_flags e)) items.
Proof.
  induction items as [|i items IH]; [done|]. cbn [omap list_omap]. rewrite IH.
  assert (shown_item node_of path_of e i = lowered (shown_flags e) i) as ->; [|done].
  unfold shown_item, lowered, shown_flags. by destruct (virtual_path_allowed _ _ _ _ _ ACLActionRead) as [[]|].
Qed.
Lemma shown_flags_granted ctx sid w e i : decides ctx sid w e ->
  (granted ctx sid w (vi_Path i) (vi_ID i) ACLActionRead <-> is_Some (shown_flags e i)) /\
  (forall b, shown_flags e i = Some b -> b = true <-> granted ctx sid w (vi_Path i) (vi_ID i) ACLActionDelete).
Proof.
  intros Hd. pose proof (Hd (vi_Path i) (vi_ID i) ACLActionRead) as Hr.
  pose proof (Hd (vi_Path i) (vi_ID i) ACLActionDelete) as Hx. unfold shown_flags.
  assert (forall action, is_ok (normalizeVirtualPath (vi_Path i)) = false ->
    ~ granted ctx sid w (vi_Path i) (vi_ID i) action) as Hbad.
  { intros action Hn (? & ? & p & ? & _ & _ & _ & Hp & _). by rewrite Hp in Hn. }
  destruct (virtual_path_allowed _ _ e _ _ ACLActionRead) as [[]|].
  - split; [by rewrite <- Hr; split|]. intros b [= <-].
    destruct (virtual_path_allowed _ _ e _ _ ACLActionDelete); [done|]. split; [done|]. intros Hg.
    by apply Hbad in Hg; [|apply Hx].
  - split; [rewrite <- Hr; split; [done|by intros [? ?]]|done].
  - split; [|done]. split; [|by intros [? ?]]. intros Hg. by apply Hbad in Hg; [|apply Hr].
Qed.

(** Filtering a listing for an ordinary user keeps, in order, exactly
    the items whose read is granted, lowers the delete flag exactly where
    deleting is not granted, and lets only files be downloaded; without
    restriction the listing comes back as it was. *)
Theorem filter_vfs_items_spec ctx sid items w (I : World -> Prop) (Hvalid : valid w)
    (Hstable : reader_stable I w node_of path_of) (Hnow : I w) :
  let '(res, w') := FilterVFSItems a ctx sid items w in
  frames [] w w' /\
  match res with
  | Ok shown =>
      unrestricted ctx sid w /\ shown = items \/
      ~ unrestricted ctx sid w /\
      exists flags, shown = omap (lowered flags) items /\
        forall i, (granted ctx sid w (vi_Path i) (vi_ID i) ACLActionRead <-> is_Some (flags i)) /\
          forall b, flags i = Some b -> b = true <-> granted ctx sid w (vi_Path i) (vi_ID i) ACLActionDelete
  | Err e => infra_error sid w e \/
             e = ErrPathInvalid /\ forallb (fun i => is_ok (normalizeVirtualPath (vi_Path i))) items = false
  end.
Proof.
  apply run_wp. unfold FilterVFSItems. apply wp_bind. eapply wp_mono; [apply wp_conj; [by apply wp_newEvaluator|by apply (stable_keeps I w _ _ Hstable)]|].
  intros [e|err] w1 [[Hf1 Hpost] [HI _]]; [|split; [done|by left]].
  apply evaluator_decides in Hpost; [|done]. destruct (ev_bypass e) eqn:Eb.
  { apply wp_ret. split; [done|by left]. }
  destruct Hpost as [Hnu Hd]. apply (wp_evaluating I); [done|]. intros s Hs.
  eapply wp_mono; [by apply (wp_filter_vfs_items I w node_of path_of)|].
  intros res s' [[Hf'%(stable_frames _ _ _ _ Hstable) _] ->].
  split; [done|]. rewrite Eb. cbn [orb]. destruct (forallb _ items) eqn:Ei; [|by right].
  right. split; [done|]. exists (shown_flags e). split; [by rewrite shown_item_lowered|].
  intros i. by apply shown_flags_granted.
Qed.

End Requests.

(** ** A concrete system *)
#[local] Existing Instances Mem.database Mem.laws.
Module AclExample.
Definition node (id : N) (path name : string) : VFSNode :=
  {| vn_ID := id; vn_ParentID := None; vn_Name := name; vn_Path := path; vn_Kind := "directory"; vn_MountID := None;
     vn_ObjectID := None; vn_SourceID := None; vn_ProviderItemID := None; vn_ProviderParentID := None; vn_Size := 0;
     vn_MimeType := ""; vn_ETag := ""; vn_Checksum := ""; vn_SyncState := ""; vn_IsDeleted := false;
     vn_CreatedBy := None; vn_UpdatedBy := None; vn_CreatedAt := 1; vn_UpdatedAt := 1; vn_IndexedAt := None;
     vn_LastSeenAt := None |}.
Definition nodes : list VFSNode := [node 1 "/a" "a"; node 2 "/a/secret" "secret"].
Definition rule (id : N) (n : option N) (path effect : string) (priority : Z) : ACLRule :=
  {| acl_ID := id; acl_SourceID := 1; acl_VFSNodeID := n; acl_Path := path; acl_VirtualPath := path;
     acl_SubjectType := "user"; acl_SubjectID := 3; acl_Effect := effect; acl_Priority := priority; acl_Read := true;
     acl_Write := false; acl_Delete := false; acl_Share := false; acl_InheritToChildren := true;
     acl_CreatedAt := 1; acl_UpdatedAt := 1 |}.
Definition rules : list ACLRule := [rule 1 None "/a" "allow" 1; rule 2 (Some 2%N) "/a/secret" "deny" 5].
Definition config : SystemConfig :=
  {| cfg_ID := 1; cfg_SiteName := ""; cfg_MultiUserEnabled := true; cfg_DefaultSourceID := None;
     cfg_MaxUploadSize := 0; cfg_DefaultChunkSize := 0; cfg_WebDAVEnabled := false; cfg_WebDAVPrefix := "";
     cfg_Theme := ""; cfg_Language := ""; cfg_TimeZone := ""; cfg_CreatedAt := 1; cfg_UpdatedAt := 1 |}.
Definition source : StorageSource :=
  {| src_ID := 1; src_Name := "s"; src_DriverType := "local"; src_Status := "online"; src_IsEnabled := true;
     src_IsWebDAVExposed := false; src_WebDAVReadOnly := false; src_WebDAVSlug := "s"; src_MountPath := "/";
     src_RootPath := ""; src_SortOrder := 0; src_ConfigJSON := "{}"; src_LastCheckedAt := None;
     src_CreatedAt := 1; src_UpdatedAt := 1 |}.
Definition mem : Mem.mem :=
  Mem.set_rows TRule rules (Mem.set_rows TNode nodes (Mem.set_rows TConfig [config] (Mem.set_rows TSource [source] Mem.init))).
Definition world : World := mem_world mem.
Definition authorizer : ACLAuthorizer :=
  {| az_systemConfigRepo := true; az_aclRepo := true; az_sourceRepo := true; az_metadataReader := true |}.
Definition bob : Ctx :=
  {| ctx_auth := Some {| ra_UserID := 3; ra_Username := "bob"; ra_RoleKey := RoleUser; ra_Status := StatusActive;
                         ra_Capabilities := [] |};
     ctx_request := None |}.
Definition item (path : string) : VFSItem :=
  {| vi_ID := 0; vi_Name := ""; vi_Path := path; vi_ParentPath := ""; vi_SourceID := Some 1%N;
     vi_EntryKind := "directory"; vi_IsVirtual := false; vi_IsMountPoint := false; vi_SyncState := ""; vi_Size := 0;
     vi_MimeType := ""; vi_Extension := ""; vi_ModifiedAt := ""; vi_CreatedAt := ""; vi_Etag := "";
     vi_CanPreview := false; vi_CanDownload := true; vi_CanDelete := true |}.

(** A tree read without failures, and one read by statements. *)
Definition by_id (l : list VFSNode) (id : N) : option VFSNode := List.find (fun n => N.eqb (vn_ID n) id) l.
Definition by_path (l : list VFSNode) (p : string) : option VFSNode := List.find (fun n => String.eqb (vn_Path n) p) l.
Definition reader : MetadataReader := {|
  ResolveNode := fun p => gets (fun w => by_path (tbl TNode w) p);
  ResolveNodeByID := fun id => gets (fun w => by_id (tbl TNode w) id) |}.
Definition statements : MetadataReader := {|
  ResolveNode := fun p => n <-! first TNode (fun n => String.eqb (vn_Path n) p) ord_any ;; ret (Some n);
  ResolveNodeByID := fun id => n <-! first TNode (fun n => N.eqb (vn_ID n) id) ord_any ;; ret (Some n) |}.

Lemma acl_world_valid : valid world.
Proof. intros []; reflexivity. Qed.
Lemma reader_is_stable : @reader_stable _ reader (frames [] world) world (by_id nodes) (by_path nodes).
Proof.
  assert (forall n, live_node (List.find n nodes) = List.find n nodes) as Hl.
  { intros p. cbn. by repeat case_match. }
  split.
  - done.
  - intros t p o limit w Hf. eapply wp_mono; [exact (within_select [] t p o limit w)|]. intros r w' Hf'. by eapply frames_trans.
  - intros id w Hf. split; [done|]. cbn -[tbl]. rewrite (frames_nil_tbl _ _ TNode Hf). apply Hl.
  - intros p w Hf. split; [done|]. cbn -[tbl]. rewrite (frames_nil_tbl _ _ TNode Hf). apply Hl.
Qed.
End AclExample.

Lemma authorize_virtual_path_spec_witness :
  let run p := AuthorizeVirtualPath (MR := AclExample.reader) AclExample.authorizer AclExample.bob 1 p 0 ACLActionRead
                 AclExample.world in
  fst (run "/a/b") = Ok tt /\ fst (run "/a/secret/x") = Err ErrACLDenied /\
  granted AclExample.authorizer (AclExample.by_id AclExample.nodes)
    (AclExample.by_path AclExample.nodes) AclExample.bob 1 AclExample.world "/a/b" 0 ACLActionRead.
Proof.
  intros run. assert (fst (run "/a/b") = Ok tt) as Hok by (vm_compute; reflexivity).
  split; [exact Hok|]. split; [vm_compute; reflexivity|].
  pose proof (authorize_virtual_path_spec (MR := AclExample.reader) AclExample.authorizer _ _ AclExample.bob 1 "/a/b" 0
    ACLActionRead AclExample.world _ AclExample.acl_world_valid AclExample.reader_is_stable (frames_refl [] _)) as Hs.
  fold (run "/a/b") in Hs. destruct (run "/a/b") as [[[]|e] w']; [|discriminate Hok].
  destruct Hs as [_ [Hu|Hg]]; [|exact Hg]. exfalso. revert Hu. unfold unrestricted.
  intros [?|[?|[?|[(auth & E & Hr)|[Hn _]]]]]; try discriminate.
  - injection E as <-. discriminate Hr.
  - apply (Hn (AclExample.rule 1 None "/a" "allow" 1)). split; [left|by left].
Defined.

Lemma filter_vfs_items_spec_witness :
  let items := map AclExample.item ["/a"; "/b"; "/a/secret"; "/a/c"] in
  let run := FilterVFSItems (MR := AclExample.reader) AclExample.authorizer AclExample.bob 1 items AclExample.world in
  (match fst run with Ok l => map (fun i => (vi_Path i, vi_CanDelete i)) l | Err _ => [] end) =
    [("/a", false); ("/a/c", false)] /\ frames [] AclExample.world (snd run).
Proof.
  intros items run. split; [vm_compute; reflexivity|].
  pose proof (filter_vfs_items_spec (MR := AclExample.reader) AclExample.authorizer _ _ AclExample.bob 1 items
    AclExample.world _ AclExample.acl_world_valid AclExample.reader_is_stable (frames_refl [] _)) as Hs.
  fold run in Hs. destruct run as [res w']. apply Hs.
Defined.

(** A deny rule bound to a node no longer matches when reading its node
    fails, and a broader rule of lower priority then decides: the same
    request is denied, and let through when one statement fails. *)
Theorem deny_fails_open :
  let run faults := fst (AuthorizeVirtualPath (MR := AclExample.statements) AclExample.authorizer AclExample.bob 1
                      "/a/secret" 0 ACLActionRead (mem_world { AclExample.mem with Mem.m_faults := faults })) in
  run [] = Err ErrACLDenied /\ run [None; None; None; None; Some (DbOther "timeout")] = Ok tt.
Proof. intros run. split; vm_compute; reflexivity. Qed.

(** Without a configuration row the rules only switch the restriction on:
    an ordinary user is denied even what a rule allows. *)
Theorem rules_ignored_without_config :
  let run m := fst (AuthorizeVirtualPath (MR := AclExample.reader) AclExample.authorizer AclExample.bob 1 "/a/b" 0
                 ACLActionRead (mem_world m)) in
  run AclExample.mem = Ok tt /\ run (Mem.set_rows TConfig [] AclExample.mem) = Err ErrACLDenied.
Proof. intros run. split; vm_compute; reflexivity. Qed.

(** ** What a rule bound to a path matches *)
Lemma trim_suffix_id a b : b <> "" -> has_byte slash b = false -> trim_suffix (a +:+ b) "/" = a +:+ b.
Proof.
  intros Hne Hb. assert (forall s, s <> "" -> has_byte slash s = false -> trim_suffix s "/" = s) as Hid.
  { induction s as [|x s IH]; [done|]. intros _. rewrite has_byte_cons. intros [Hx Hs]%orb_false_iff. cbn [trim_suffix].
    destruct (String.eqb_spec (String x s) "/") as [[= -> ->]|_]; [done|].
    destruct s; [done|]. by rewrite IH. }
  induction a as [|x a IH]; [by apply Hid|]. cbn [String.append trim_suffix]. rewrite IH.
  destruct (String.eqb_spec (String x (a +:+ b)) "/") as [[= _ E]|_]; [|done].
  by apply append_eq_nil in E as [_ ?].
Qed.

Lemma trim_suffix_canonical p : canonical p -> p <> "/" -> trim_suffix p "/" = p.
Proof.
  intros (l & Hl & ->) Hp. destruct (snoc_or_nil l) as [->|(l' & x & ->)]; [done|].
  rewrite good_segs_app in Hl. apply andb_true_iff in Hl as [_ Hx]. cbn in Hx. rewrite andb_true_r in Hx.
  apply good_plain, plain_seg_spec in Hx as (Hne & _ & _ & Hb). rewrite render_snoc.
  replace (render_tail l' +:+ String slash x) with ((render_tail l' +:+ "/") +:+ x) by (by rewrite append_assoc).
  by apply trim_suffix_id.
Qed.

(** A path rule matches exactly its own virtual path and, when it is
    inherited, the paths below it - and not a sibling whose name merely
    begins with the same characters - provided that path neither begins
    nor ends with a space; whatever the inner path. *)
Theorem rule_matches_subtree rule targetPath vp (Hrule : canonical (acl_VirtualPath rule))
    (Htrim : trim_space (acl_VirtualPath rule) = acl_VirtualPath rule) (Hvp : canonical vp) :
  ruleMatchesPath rule targetPath vp = true <->
  vp = acl_VirtualPath rule \/ acl_InheritToChildren rule = true /\ isSubPath (acl_VirtualPath rule) vp = true.
Proof.
  unfold ruleMatchesPath. rewrite Htrim. set (p := acl_VirtualPath rule) in *.
  destruct (String.eqb_spec p "") as [E|_].
  { destruct Hrule as ([|a l] & _ & Hr); rewrite E in Hr; discriminate. }
  destruct (String.eqb_spec p vp) as [->|Hne]; [tauto|].
  unfold isSubPath. rewrite (canonical_normalize p), (canonical_normalize vp) by done.
  destruct (acl_InheritToChildren rule); cbn [negb]; [|split; [done|intros [->|[? _]]; done]].
  destruct (String.eqb_spec p "/") as [Ep|Ep]; [by split; [right|intros [->|[]]]|].
  rewrite trim_suffix_canonical by done. rewrite orb_true_iff, String.eqb_eq.
  split; [intros; right; auto|intros [->|[_ [->|?]]]; done].
Qed.

Lemma rule_matches_subtree_witness :
  let r := AclExample.rule 1 None "/a" "allow" 1 in
  ruleMatchesPath r "/x" "/a/b" = true /\ ruleMatchesPath r "/x" "/ab" = false.
Proof.
  intros r. assert (forall p, normalizeVirtualPath p = Ok p -> canonical p) as Hc by (intros p; apply normalize_canonical).
  split.
  - apply rule_matches_subtree; [apply Hc; reflexivity|reflexivity|apply Hc; reflexivity|].
    right. split; reflexivity.
  - vm_compute. reflexivity.
Defined.

(** A rule on a directory whose name ends with a space applies to another
    directory instead. *)
Theorem trailing_space_rule :
  let r := AclExample.rule 1 None "/a " "deny" 1 in
  normalizeVirtualPath "/a " = Ok "/a " /\ ruleMatchesPath r "/a " "/a " = false /\ ruleMatchesPath r "/a" "/a" = true.
Proof. split_and!; reflexivity. Qed.
