(* ===== verification/AclService.v ===== *)
(** * Administration of access rules

    [acl_service.go] with [acl_dto.go] and [metadata_vfs_snapshot.go]: how
    rules are listed, created, changed and deleted, and what a stored rule
    satisfies. *)
From S2P Require Import Prelude Ints GoStrings Entities Paths Mounts Permission Tables Db Auditing Repos Acl AclSpec.
From stdpp Require Import base list strings gmap sets sorting.
From Stdlib Require Import ZArith Lia.

Local Open Scope string_scope.
Local Open Scope list_scope.
Local Open Scope go_scope.

(** ** [acl_dto.go] *)
Record ACLPermissions := { ap_Read : bool; ap_Write : bool; ap_Delete : bool; ap_Share : bool }.
Record ACLRuleListQuery := { alq_SourceID : N; alq_VFSNodeID : option N; alq_Path : string }.
Record ACLRuleView := {
  arv_ID : N; arv_SourceID : N; arv_VFSNodeID : option N; arv_Path : string; arv_VirtualPath : string;
  arv_SubjectType : string; arv_SubjectID : N; arv_Effect : string; arv_Priority : Z;
  arv_Permissions : ACLPermissions; arv_InheritToChildren : bool
}.
(** [CreateACLRuleRequest], [UpdateACLRuleRequest] and [aclRuleBuildInput]
    have the same fields. *)
Record aclRuleBuildInput := {
  abi_SourceID : N; abi_VFSNodeID : option N; abi_Path : string; abi_SubjectType : string; abi_SubjectID : N;
  abi_Effect : string; abi_Priority : Z; abi_Permissions : ACLPermissions; abi_InheritToChildren : bool
}.
#[export] Instance eta_aclRuleBuildInput : Eta aclRuleBuildInput := fun r =>
  {| abi_SourceID := abi_SourceID r; abi_VFSNodeID := abi_VFSNodeID r; abi_Path := abi_Path r;
     abi_SubjectType := abi_SubjectType r; abi_SubjectID := abi_SubjectID r; abi_Effect := abi_Effect r;
     abi_Priority := abi_Priority r; abi_Permissions := abi_Permissions r;
     abi_InheritToChildren := abi_InheritToChildren r |}.
Definition CreateACLRuleRequest := aclRuleBuildInput.
Definition UpdateACLRuleRequest := aclRuleBuildInput.

Definition toACLRuleView (rule : ACLRule) : ACLRuleView :=
  {| arv_ID := acl_ID rule; arv_SourceID := acl_SourceID rule; arv_VFSNodeID := acl_VFSNodeID rule;
     arv_Path := acl_Path rule; arv_VirtualPath := acl_VirtualPath rule; arv_SubjectType := acl_SubjectType rule;
     arv_SubjectID := acl_SubjectID rule; arv_Effect := acl_Effect rule; arv_Priority := acl_Priority rule;
     arv_Permissions := {| ap_Read := acl_Read rule; ap_Write := acl_Write rule; ap_Delete := acl_Delete rule;
                           ap_Share := acl_Share rule |};
     arv_InheritToChildren := acl_InheritToChildren rule |}.

Definition aclInnerPathSnapshotForNode (node : VFSNode) (source : option StorageSource) : string :=
  match normalizeVirtualPath (vn_Path node) with
  | Err _ => vn_Path node
  | Ok normalizedNodePath =>
      match source with
      | None => normalizedNodePath
      | Some source =>
          match normalizeMountPath (src_MountPath source) with
          | Err _ => normalizedNodePath
          | Ok normalizedMountPath =>
              if negb (isSubPath normalizedMountPath normalizedNodePath) then normalizedNodePath
              else
                let innerPath := trim_prefix normalizedNodePath normalizedMountPath in
                if String.eqb innerPath "" then "/"
                else if negb (has_prefix innerPath "/") then "/" +:+ innerPath else innerPath
          end
      end
  end.

(** The rule an input describes, once its node, source and paths are
    known. *)
Definition built_rule (input : aclRuleBuildInput) (sourceID : N) (nodeID : option N) (path virtualPath : string) : ACLRule :=
  {| acl_ID := 0; acl_SourceID := sourceID; acl_VFSNodeID := nodeID; acl_Path := path; acl_VirtualPath := virtualPath;
     acl_SubjectType := "user"; acl_SubjectID := abi_SubjectID input; acl_Effect := trim_space (abi_Effect input);
     acl_Priority := abi_Priority input; acl_Read := ap_Read (abi_Permissions input);
     acl_Write := ap_Write (abi_Permissions input); acl_Delete := ap_Delete (abi_Permissions input);
     acl_Share := ap_Share (abi_Permissions input); acl_InheritToChildren := abi_InheritToChildren input;
     acl_CreatedAt := 0; acl_UpdatedAt := 0 |}.

Section ACLService.
Context `{MR : MetadataReader}.
(** Whether the service has a metadata reader and an audit recorder. *)
Context (metadataReader auditRecorder : bool).

(** ** [metadata_vfs_snapshot.go] *)
Definition resolveMetadataVFSNodeID (virtualPath : string) : M GoErr World N :=
  if String.eqb (trim_space virtualPath) "" then ret 0%N
  else match normalizeVirtualPath virtualPath with
       | Err _ => ret 0%N
       | Ok normalizedPath =>
           node <-! ResolveNode normalizedPath or _e => ret 0%N ;;
           ret (match node with Some node => vn_ID node | None => 0%N end)
       end.

Definition resolveACLRuleNode (nodeID : N) : M GoErr World VFSNode :=
  if N.eqb nodeID 0 || negb metadataReader then throw ErrFileNotFound
  else
    node <-! ResolveNodeByID nodeID ;;
    match node with
    | Some node => if vn_IsDeleted node then throw ErrFileNotFound else ret node
    | None => throw ErrFileNotFound
    end.

Definition resolveACLRuleNodeIDBestEffort (virtualPath : string) : M GoErr World (option N) :=
  if negb metadataReader || String.eqb (trim_space virtualPath) "" then ret None
  else nodeID <-! resolveMetadataVFSNodeID virtualPath ;; ret (if N.eqb nodeID 0 then None else Some nodeID).

(** The node a rule is bound to, and the source it then belongs to. *)
Definition rule_target (input : aclRuleBuildInput) : M GoErr World (option VFSNode * N) :=
  match abi_VFSNodeID input with
  | None => ret (None, abi_SourceID input)
  | Some id =>
      node <-! resolveACLRuleNode id ;;
      match vn_SourceID node with
      | None => ret (Some node, abi_SourceID input)
      | Some s =>
          if negb (N.eqb (abi_SourceID input) 0) && negb (N.eqb (abi_SourceID input) s) then throw ErrPathInvalid
          else ret (Some node, s)
      end
  end.

Definition buildRuleEntity (input : aclRuleBuildInput) : M GoErr World ACLRule :=
  if negb (String.eqb (trim_space (abi_SubjectType input)) "user") then throw ErrACLSubjectTypeInvalid
  else
  do! UserRepository_FindByID (abi_SubjectID input) ;;
  let effect := trim_space (abi_Effect input) in
  if negb (String.eqb effect "allow" || String.eqb effect "deny") then throw ErrACLEffectInvalid
  else
  let p := abi_Permissions input in
  if negb (ap_Read p) && negb (ap_Write p) && negb (ap_Delete p) && negb (ap_Share p) then throw ErrACLPermissionsInvalid
  else
  target <-! rule_target input ;;
  let '(node, sourceID) := target in
  source <-! (if negb (N.eqb sourceID 0) then s <-! SourceRepository_FindByID sourceID ;; ret (Some s)
              else match node with None => throw ErrPathInvalid | Some _ => ret None end) ;;
  match node with
  | Some node =>
      ret (built_rule input sourceID (abi_VFSNodeID input) (aclInnerPathSnapshotForNode node source) (vn_Path node))
  | None =>
      if String.eqb (trim_space (abi_Path input)) "" then throw ErrPathInvalid
      else
      normalizedPath <-! lift_result (normalizeVirtualPath (abi_Path input)) or _e => throw ErrPathInvalid ;;
      let virtualPath :=
        match source with
        | Some source =>
            let merged := mergeMountAndInnerPath (src_MountPath source) normalizedPath in
            if String.eqb merged "" then normalizedPath else merged
        | None => normalizedPath
        end in
      vfsNodeID <-! resolveACLRuleNodeIDBestEffort virtualPath ;;
      ret (built_rule input sourceID vfsNodeID normalizedPath virtualPath)
  end.

(** ** The operations *)
Definition ACLService_List (query : ACLRuleListQuery) : M GoErr World (list ACLRuleView) :=
  anySource <-! (if negb (N.eqb (alq_SourceID query) 0)
                 then do! SourceRepository_FindByID (alq_SourceID query) ;; ret false
                 else match alq_VFSNodeID query with Some _ => ret true | None => throw ErrPathInvalid end) ;;
  filterPath <-! (if negb (String.eqb (trim_space (alq_Path query)) "")
                  then p <-! lift_result (normalizeVirtualPath (alq_Path query)) or _e => throw ErrPathInvalid ;; ret p
                  else ret "") ;;
  items <-! ACLRuleRepository_List {| arf_SourceID := alq_SourceID query; arf_Path := filterPath;
                                     arf_VFSNodeID := alq_VFSNodeID query; arf_IncludeGlobal := false;
                                     arf_AnySource := anySource |} ;;
  ret (map toACLRuleView items).

Definition ACLService_Create (ctx : Ctx) (req : CreateACLRuleRequest) : M GoErr World ACLRuleView :=
  rule <-! buildRuleEntity req or err =>
    refuse auditRecorder ctx (event "acl_rule" "create" ResultFailed (aclErrorCode err) "") err ;;
  rule <-! ACLRuleRepository_Create rule or err =>
    refuse auditRecorder ctx (event "acl_rule" "create" ResultFailed "INTERNAL_ERROR" "") err ;;
  do! recordServiceAudit ctx auditRecorder
    { (event "acl_rule" "create" ResultSuccess "" (encodeUintID (acl_ID rule)))
      with ev_SourceID := Some (acl_SourceID rule); ev_VirtualPath := acl_VirtualPath rule;
           ev_After := aclRuleAuditView rule } ;;
  ret (toACLRuleView rule).

Definition ACLService_Update (ctx : Ctx) (id : N) (req : UpdateACLRuleRequest) : M GoErr World ACLRuleView :=
  current <-! ACLRuleRepository_FindByID id or err =>
    refuse auditRecorder ctx (event "acl_rule" "update" ResultFailed "ACL_RULE_NOT_FOUND" (encodeUintID id)) err ;;
  let before := aclRuleAuditView current in
  let sourceID := if negb (N.eqb (abi_SourceID req) 0) then abi_SourceID req else acl_SourceID current in
  rule <-! buildRuleEntity { req with abi_SourceID := sourceID } or err =>
    refuse auditRecorder ctx { (event "acl_rule" "update" ResultFailed (aclErrorCode err) (encodeUintID id))
                               with ev_Before := before } err ;;
  let rule := { rule with acl_ID := acl_ID current; acl_CreatedAt := acl_CreatedAt current } in
  do! (u <-! ACLRuleRepository_Update rule or err =>
         refuse auditRecorder ctx { (event "acl_rule" "update" ResultFailed "INTERNAL_ERROR" (encodeUintID id))
                                    with ev_Before := before } err ;;
       ret u) ;;
  do! recordServiceAudit ctx auditRecorder
    { (event "acl_rule" "update" ResultSuccess "" (encodeUintID id))
      with ev_SourceID := Some (acl_SourceID rule); ev_VirtualPath := acl_VirtualPath rule;
           ev_Before := before; ev_After := aclRuleAuditView rule } ;;
  ret (toACLRuleView rule).

Definition ACLService_Delete (ctx : Ctx) (id : N) : M GoErr World unit :=
  current <-! ACLRuleRepository_FindByID id or err =>
    refuse auditRecorder ctx (event "acl_rule" "delete" ResultFailed "ACL_RULE_NOT_FOUND" (encodeUintID id)) err ;;
  let before := aclRuleAuditView current in
  do! (u <-! ACLRuleRepository_Delete id or err =>
         refuse auditRecorder ctx { (event "acl_rule" "delete" ResultFailed "INTERNAL_ERROR" (encodeUintID id))
                                    with ev_Before := before } err ;;
       ret u) ;;
  recordServiceAudit ctx auditRecorder
    { (event "acl_rule" "delete" ResultSuccess "" (encodeUintID id))
      with ev_SourceID := Some (acl_SourceID current); ev_VirtualPath := acl_VirtualPath current; ev_Before := before }.
End ACLService.

(** ** Rules, and what a request describes *)
Class MetadataReaderLaws `{MR : MetadataReader} : Prop := {
  read_path_law : forall p w, wp (ResolveNode p) (fun _ w' => frames [] w w') w;
  read_id_law : forall id w, wp (ResolveNodeByID id) (fun _ w' => frames [] w w') w
}.

(** An authorization only reads. *)
Section Reads.
Context `{DatabaseLaws} {MR : MetadataReader} {ML : MetadataReaderLaws}.

Definition only_reads {A} (m : M GoErr EvalState A) : Prop :=
  forall s, wp m (fun _ s' => frames [] (es_world s) (es_world s')) s.
Lemma reads_ret {A} (a : A) : only_reads (ret a).
Proof. intros s. apply wp_ret, frames_refl. Qed.
Lemma reads_throw {A} e : only_reads (throw e : M GoErr EvalState A).
Proof. intros s. apply wp_throw, frames_refl. Qed.
Lemma reads_lift {A} (r : result GoErr A) : only_reads (lift_result r).
Proof. intros s. apply wp_lift_result, frames_refl. Qed.
Lemma reads_gets {A} (f : EvalState -> A) : only_reads (gets f).
Proof. intros s. apply wp_gets, frames_refl. Qed.
Lemma reads_bind {A B} (m : M GoErr EvalState A) (k : A -> M GoErr EvalState B) :
  only_reads m -> (forall a, only_reads (k a)) -> only_reads (bind m k).
Proof.
  intros Hm Hk s. apply wp_bind. eapply wp_mono; [apply Hm|]. intros [a|e] s' Hf; [|done].
  eapply wp_mono; [apply Hk|]. intros r s'' Hf'. by eapply frames_trans.
Qed.
Lemma reads_bind_or {A B} (m : M GoErr EvalState A) h (k : A -> M GoErr EvalState B) :
  only_reads m -> (forall e, only_reads (h e)) -> (forall a, only_reads (k a)) -> only_reads (bind_or m h k).
Proof.
  intros Hm Hh Hk s. apply wp_bind_or. eapply wp_mono; [apply Hm|].
  intros [a|e] s' Hf; (eapply wp_mono; [apply Hk || apply Hh|]); intros r s'' Hf'; by eapply frames_trans.
Qed.
Lemma reads_world {A} (m : M GoErr World A) : within [] m -> only_reads (in_world m).
Proof. intros Hm s. apply wp_zoom. eapply wp_mono; [apply Hm|]. by intros r w'. Qed.
Lemma reads_remember id n : only_reads (remember id n).
Proof. apply reads_bind; [|intros _; apply reads_ret]. intros s. apply wp_modify, frames_refl. Qed.
Lemma reads_node id : within [] (ResolveNodeByID id).
Proof. exact (read_id_law id). Qed.
Lemma reads_path p : within [] (ResolveNode p).
Proof. exact (read_path_law p). Qed.
#[local] Hint Resolve reads_ret reads_throw reads_lift reads_gets reads_world reads_remember reads_node reads_path : frame.
Ltac reads_tac := repeat first [solve [auto with frame] |
  lazymatch goal with
  | |- only_reads (bind _ _) => apply reads_bind; [|intros ?]
  | |- only_reads (bind_or _ _ _) => apply reads_bind_or; [|intros ?|intros ?]
  | |- only_reads (if ?b then _ else _) => destruct b
  | |- only_reads (match ?x with _ => _ end) => destruct x
  end].

Lemma reads_rule_node e id : only_reads (resolveRuleNode e id).
Proof. unfold resolveRuleNode. reads_tac. Qed.
#[local] Hint Resolve reads_rule_node : frame.
Lemma reads_target_node e vp id : only_reads (resolveTargetNodeBestEffort e vp id).
Proof. unfold resolveTargetNodeBestEffort. reads_tac. Qed.
Lemma reads_rules e p vp n action rules mp am : only_reads (allow_rules e p vp n action rules mp am).
Proof. revert mp am. induction rules as [|r rules IH]; intros mp am; cbn; unfold ruleMatchesTarget; reads_tac. Qed.
#[local] Hint Resolve reads_target_node reads_rules : frame.
Lemma reads_allow_path e p action : only_reads (allowPath e p action).
Proof. unfold allowPath, allowTarget. reads_tac. Qed.
Lemma reads_allow_virtual e vp id action : only_reads (allowVirtualPathWithNodeID e vp id action).
Proof. unfold allowVirtualPathWithNodeID, allowTarget. reads_tac. Qed.
Lemma evaluating_within {A} (m : M GoErr EvalState A) : only_reads m -> within [] (evaluating m).
Proof. intros Hm w. specialize (Hm {| es_world := w; es_cache := ∅ |}). unfold wp, evaluating in *. by destruct (m _). Qed.
Lemma evaluator_within a ctx sid : within [] (newEvaluator a ctx sid).
Proof.
  unfold newEvaluator, ACLRuleRepository_List, SystemConfigRepository_Get, SourceRepository_FindByID.
  repeat first [solve [auto with frame] | frame_step].
Qed.
Lemma authorize_path_within a ctx sid p action : within [] (AuthorizePath a ctx sid p action).
Proof.
  apply within_bind; [apply evaluator_within|]. intros e. apply within_bind; [apply evaluating_within, reads_allow_path|].
  intros b. frame_tac.
Qed.
Lemma authorize_virtual_within a ctx sid vp id action : within [] (AuthorizeVirtualPath a ctx sid vp id action).
Proof.
  apply within_bind; [apply evaluator_within|]. intros e. apply within_bind; [apply evaluating_within, reads_allow_virtual|].
  intros b. frame_tac.
Qed.
Lemma filter_items_within a ctx sid items : within [] (FilterFileItems a ctx sid items).
Proof.
  apply within_bind; [apply evaluator_within|]. intros e. destruct (ev_bypass e); [apply within_ret|]. apply evaluating_within.
  induction items as [|item rest IH]; cbn [filter_file_items]; [apply reads_ret|].
  apply reads_bind; [apply reads_allow_path|]. intros b. destruct (negb b); [exact IH|].
  apply reads_bind; [apply reads_allow_path|]. intros d. cbv zeta. apply reads_bind; [exact IH|]. intros l. apply reads_ret.
Qed.
End Reads.

Section Specification.
Context `{Database}.

(** A rule the evaluator can decide by: its effect and subject are of the
    known kinds, it has a permission, it belongs to a source or a node. *)
Definition rule_ok (r : ACLRule) : Prop :=
  acl_SubjectType r = "user" /\ (acl_Effect r = "allow" \/ acl_Effect r = "deny") /\
  acl_Read r || acl_Write r || acl_Delete r || acl_Share r = true /\
  (acl_SourceID r <> 0%N \/ acl_VFSNodeID r <> None) /\
  (acl_VFSNodeID r = None -> canonical (acl_Path r)).
(** Its user and its source exist. *)
Definition rule_refers (w : World) (r : ACLRule) : Prop :=
  (exists u, u ∈ tbl TUser w /\ u_ID u = acl_SubjectID r) /\
  (acl_SourceID r <> 0%N -> exists s, s ∈ tbl TSource w /\ src_ID s = acl_SourceID r).

(** The rule a request describes: a node names its own path and source, a
    path is normalised and seen through the mount of its source. *)
Definition describes (input : aclRuleBuildInput) (w : World) (r : ACLRule) : Prop :=
  acl_SubjectID r = abi_SubjectID input /\ acl_Effect r = trim_space (abi_Effect input) /\
  acl_Priority r = abi_Priority input /\ acl_InheritToChildren r = abi_InheritToChildren input /\
  abi_Permissions input = {| ap_Read := acl_Read r; ap_Write := acl_Write r; ap_Delete := acl_Delete r;
                             ap_Share := acl_Share r |} /\
  match abi_VFSNodeID input with
  | Some id => acl_VFSNodeID r = Some id /\ (abi_SourceID input <> 0%N -> acl_SourceID r = abi_SourceID input)
  | None =>
      acl_SourceID r = abi_SourceID input /\ normalizeVirtualPath (abi_Path input) = Ok (acl_Path r) /\
      exists s, s ∈ tbl TSource w /\ src_ID s = acl_SourceID r /\
        let merged := mergeMountAndInnerPath (src_MountPath s) (acl_Path r) in
        acl_VirtualPath r = if String.eqb merged "" then acl_Path r else merged
  end.
End Specification.

Section BuildRules.
Context `{DatabaseLaws} {MR : MetadataReader} {ML : MetadataReaderLaws} (metadataReader : bool).

Lemma wp_rule_target input (Q : result GoErr (option VFSNode * N) -> World -> Prop) w :
  (forall e w', frames [] w w' -> Q (Err e) w') ->
  (forall node sid w', frames [] w w' ->
     match abi_VFSNodeID input with
     | None => node = None /\ sid = abi_SourceID input
     | Some id => node <> None /\ (abi_SourceID input <> 0%N -> sid = abi_SourceID input)
     end -> Q (Ok (node, sid)) w') ->
  wp (rule_target metadataReader input) Q w.
Proof.
  intros He Hk. unfold rule_target. destruct (abi_VFSNodeID input) as [id|];
    [|apply wp_ret, Hk; [apply frames_refl|done]].
  apply wp_bind. unfold resolveACLRuleNode. destruct (_ || _); [apply He, frames_refl|].
  apply wp_bind. eapply wp_mono; [apply read_id_law|]. intros [[node|]|e] w1 Hf; cbn; [|by apply He..].
  destruct (vn_IsDeleted node); [by apply He|]. apply wp_ret.
  destruct (vn_SourceID node) as [s|]; [|apply wp_ret, Hk; done].
  destruct (N.eqb_spec (abi_SourceID input) 0) as [E|E]; cbn; [apply wp_ret, Hk; done|].
  destruct (N.eqb_spec (abi_SourceID input) s) as [E'|E']; cbn; [apply wp_ret, Hk; done|by apply He].
Qed.

Lemma wp_rule_node_id vp (Q : result GoErr (option N) -> World -> Prop) w :
  (forall n w', frames [] w w' -> Q (Ok n) w') -> wp (resolveACLRuleNodeIDBestEffort metadataReader vp) Q w.
Proof.
  intros Hk. unfold resolveACLRuleNodeIDBestEffort, resolveMetadataVFSNodeID.
  destruct (_ || _); [apply wp_ret, Hk, frames_refl|]. apply wp_bind.
  destruct (String.eqb _ _); [apply wp_ret, wp_ret, Hk, frames_refl|].
  destruct (normalizeVirtualPath vp); [|apply wp_ret, wp_ret, Hk, frames_refl].
  apply wp_bind_or. eapply wp_mono; [apply read_path_law|]. intros [n|e] w1 Hf; apply wp_ret, wp_ret, Hk, Hf.
Qed.

Lemma wp_rule_source (node : option VFSNode) sid (Q : result GoErr (option StorageSource) -> World -> Prop) w :
  (forall e w', frames [] w w' -> Q (Err e) w') ->
  (forall w', frames [] w w' -> sid = 0%N -> node <> None -> Q (Ok None) w') ->
  (forall s w', frames [] w w' -> sid <> 0%N -> s ∈ tbl TSource w -> src_ID s = sid -> Q (Ok (Some s)) w') ->
  wp (if negb (N.eqb sid 0) then s <-! SourceRepository_FindByID sid ;; ret (Some s)
      else match node with None => throw ErrPathInvalid | Some _ => ret None end) Q w.
Proof.
  intros He Hn Hs. destruct (N.eqb_spec sid 0) as [E|E]; cbn.
  - destruct node; [apply wp_ret, Hn; [apply frames_refl|done..]|apply He, frames_refl].
  - apply wp_bind, (wp_lookup TSource).
    + intros e w' Hsame _. apply He. by apply same_frames.
    + intros s w' Hsame Hin E'%N.eqb_eq. apply wp_ret, Hs; [by apply same_frames|done..].
Qed.

Lemma built_rule_ok input w u sid nid path vp : let r := built_rule input sid nid path vp in
  let p := abi_Permissions input in
  u ∈ tbl TUser w -> u_ID u = abi_SubjectID input ->
  trim_space (abi_Effect input) = "allow" \/ trim_space (abi_Effect input) = "deny" ->
  negb (ap_Read p) && negb (ap_Write p) && negb (ap_Delete p) && negb (ap_Share p) = false ->
  (sid <> 0%N -> exists s, s ∈ tbl TSource w /\ src_ID s = sid) -> sid <> 0%N \/ nid <> None ->
  (nid = None -> canonical path) -> rule_ok r /\ rule_refers w r.
Proof.
  intros r p Hu Eu Eeff Ep Hsrc Hor Hcan. split; [|split; [by exists u|done]]. split_and!; try done.
  revert Ep. subst p. cbn. by destruct (ap_Read _), (ap_Write _), (ap_Delete _), (ap_Share _).
Qed.

Lemma wp_buildRuleEntity input (Q : result GoErr ACLRule -> World -> Prop) w :
  (forall e w', frames [] w w' -> Q (Err e) w') ->
  (forall r w', frames [] w w' -> acl_ID r = 0%N -> acl_CreatedAt r = 0%Z -> acl_UpdatedAt r = 0%Z ->
     rule_ok r -> rule_refers w r -> describes input w r -> Q (Ok r) w') ->
  wp (buildRuleEntity metadataReader input) Q w.
Proof.
  intros He Hk. unfold buildRuleEntity. destruct (negb _); [apply He, frames_refl|].
  apply wp_bind, (wp_lookup TUser); [intros e w1 Hs _; apply He; by apply same_frames|].
  intros u w1 Hs1 Hu Eu%N.eqb_eq. apply (same_frames []) in Hs1.
  destruct (negb (_ || _)) eqn:Eeff; [by apply He|]. apply negb_false_iff, orb_true_iff in Eeff.
  rewrite !String.eqb_eq in Eeff. destruct (_ && _) eqn:Ep; [by apply He|].
  apply wp_bind, wp_rule_target; [intros e w2 Hf2; apply He; by eapply frames_trans|].
  intros node sid w2 Hf2 Htarget. pose proof (frames_trans _ _ _ _ Hs1 Hf2) as Hf.
  assert (forall t, tbl t w2 = tbl t w) as Et by (intros t; apply (frames_tbl _ _ _ _ Hf); set_solver).
  pose proof (fun nid path vp => built_rule_ok input w u sid nid path vp Hu Eu Eeff Ep) as acl_of.
  apply wp_bind, wp_rule_source; [intros e w3 Hf3; apply He; by eapply frames_trans| |].
  - intros w3 Hf3 -> Hnode. destruct node as [node|]; [|done]. pose proof (frames_trans _ _ _ _ Hf Hf3) as Hf'.
    destruct (abi_VFSNodeID input) as [id|] eqn:Ei; [|by destruct Htarget as [? _]].
    apply wp_ret. edestruct acl_of as [Hok Href]; [| | |apply Hk; [exact Hf'|done..|exact Hok|exact Href|]]; try done.
    { by right. }
    unfold describes. rewrite Ei. split_and!; try done; [cbn; by destruct (abi_Permissions input)|]. apply Htarget.
  - intros s w3 Hf3 Hsid Hs Es. rewrite Et in Hs. pose proof (frames_trans _ _ _ _ Hf Hf3) as Hf'.
    destruct node as [node|].
    + destruct (abi_VFSNodeID input) as [id|] eqn:Ei; [|by destruct Htarget as [? _]].
      apply wp_ret. edestruct acl_of as [Hok Href]; [| | |apply Hk; [exact Hf'|done..|exact Hok|exact Href|]]; try done.
      { by exists s. }
      { by left. }
      unfold describes. rewrite Ei. split_and!; try done; [cbn; by destruct (abi_Permissions input)|]. apply Htarget.
    + destruct (abi_VFSNodeID input) as [id|] eqn:Ei; [by destruct Htarget as [? _]|]. destruct Htarget as [_ ->].
      destruct (String.eqb (trim_space (abi_Path input)) ""); [by apply He|].
      apply wp_bind_or, wp_lift_result. destruct (normalizeVirtualPath (abi_Path input)) as [path|] eqn:En; [|by apply He].
      apply wp_bind, wp_rule_node_id. intros nid w4 Hf4. apply wp_ret.
      edestruct acl_of as [Hok Href]; [| | |apply Hk; [by eapply frames_trans|done..|exact Hok|exact Href|]].
      { intros _. by exists s. }
      { by left. }
      { intros _. by eapply normalize_canonical. }
      unfold describes. rewrite Ei, En. split_and!; try done; [cbn; by destruct (abi_Permissions input)|]. by exists s.
Qed.
End BuildRules.

(** ** The operations *)
Section OperationRules.
Context `{DatabaseLaws} {MR : MetadataReader} {ML : MetadataReaderLaws} (metadataReader rec : bool).

Definition rule_created (input : aclRuleBuildInput) (view : ACLRuleView) (w w' : World) : Prop :=
  exists r, tbl TRule w' = tbl TRule w ++ [r] /\ (forall r', r' ∈ tbl TRule w -> acl_ID r' <> acl_ID r) /\
    view = toACLRuleView r /\ rule_ok r /\ rule_refers w r /\ describes input w r.

(** The table with the rule [id] replaced, its creation time kept. *)
Definition with_rule (id : N) (rule : ACLRule) (now : Z) (l : list ACLRule) : list ACLRule :=
  set_where (fun r => N.eqb (acl_ID r) id)
    (fun r => { rule with acl_ID := id; acl_CreatedAt := acl_CreatedAt r; acl_UpdatedAt := now }) l.
Definition rule_updated (id : N) (input : aclRuleBuildInput) (view : ACLRuleView) (w w' : World) : Prop :=
  exists old rule now, old ∈ tbl TRule w /\ acl_ID old = id /\ tbl TRule w' = with_rule id rule now (tbl TRule w) /\
    view = toACLRuleView { rule with acl_ID := id } /\ rule_ok rule /\ rule_refers w rule /\
    describes { input with abi_SourceID := if N.eqb (abi_SourceID input) 0 then acl_SourceID old else abi_SourceID input } w rule.

Lemma frames_nil_audit (w w' : World) : frames [] w w' -> frames [TAudit] w w'.
Proof. intros Hf. eapply frames_mono; [done|set_solver]. Qed.

Lemma wp_ACLService_Create ctx req (Q : result GoErr ACLRuleView -> World -> Prop) w :
  (forall e w', frames [TAudit] w w' -> Q (Err e) w') ->
  (forall view w', rule_created req view w w' -> frames [TRule; TAudit] w w' -> Q (Ok view) w') ->
  wp (ACLService_Create metadataReader rec ctx req) Q w.
Proof.
  intros He Hk. apply wp_bind_or, wp_buildRuleEntity.
  { intros e w1 Hf. apply (wp_refuse _ _ _ _ _ w); [by apply frames_nil_audit|auto]. }
  intros rule w1 Hf1%frames_nil_audit Hid _ _ Hok Href Hd. apply wp_bind_or, (wp_insert TRule).
  { intros e w2 Hs2 _. apply (wp_refuse _ _ _ _ _ w); [by eapply frames_same|auto]. }
  intros id now w2 r Hid' Habs Hp. apply wp_bind, wp_audit. intros w3 Hf3. apply wp_ret, Hk.
  - exists r. rewrite (frames_tbl _ _ _ TRule Hf3), <- (frames_tbl _ _ _ TRule Hf1) by set_solver.
    split_and!; try done; [apply Hp|]. intros r' Hr'. unfold absent in Habs. rewrite forallb_forall in Habs.
    specialize (Habs r'). rewrite <- list_elem_of_In in Habs. specialize (Habs Hr').
    by apply negb_true_iff, N.eqb_neq in Habs.
  - eapply (frames_put [TAudit] TRule [TAudit]); [exact Hf1|exact Hp| |exact Hf3|set_solver..].
    intros Hv. by apply absent_no_conflicts.
Qed.

Lemma wp_find_rule id (Q : result GoErr ACLRule -> World -> Prop) w :
  (forall e w', frames [TAudit] w w' -> Q (Err e) w') ->
  (forall r w', frames [TAudit] w w' -> r ∈ tbl TRule w -> acl_ID r = id -> Q (Ok r) w') ->
  wp (ACLRuleRepository_FindByID id) Q w.
Proof.
  intros He Hk. apply (wp_lookup TRule).
  - intros e w1 Hs _. apply He. by apply same_frames.
  - intros r w1 Hs Hr E%N.eqb_eq. apply Hk; [by apply same_frames|done..].
Qed.

Lemma wp_ACLService_Update ctx id req (Q : result GoErr ACLRuleView -> World -> Prop) w :
  (forall e w', frames [TAudit] w w' -> Q (Err e) w') ->
  (forall view w', rule_updated id req view w w' -> frames [TRule; TAudit] w w' -> Q (Ok view) w') ->
  wp (ACLService_Update metadataReader rec ctx id req) Q w.
Proof.
  intros He Hk. apply wp_bind_or, wp_find_rule; [intros e w1 Hf; apply (wp_refuse _ _ _ _ _ w); auto|].
  intros old w1 Hf1 Hin Hid. apply wp_bind_or, wp_buildRuleEntity.
  { intros e w2 Hf2%frames_nil_audit. apply (wp_refuse _ _ _ _ _ w); [by eapply frames_trans|auto]. }
  intros rule w2 Hf2%frames_nil_audit _ _ _ Hok Href Hd. pose proof (frames_trans _ _ _ _ Hf1 Hf2) as Hf.
  assert (forall t, t <> TAudit -> tbl t w1 = tbl t w) as Et1 by (intros t Ht; apply (frames_tbl _ _ _ _ Hf1); set_solver).
  assert (tbl TRule w2 = tbl TRule w) as Et by (apply (frames_tbl _ _ _ _ Hf); set_solver).
  apply wp_bind, wp_bind_or, (wp_update_found TRule).
  { intros e w3 Hs3 _. apply (wp_refuse _ _ _ _ _ w); [by eapply frames_same|auto]. }
  { intros w3 Hs3 _. apply (wp_refuse _ _ _ _ _ w); [by eapply frames_same|auto]. }
  intros now w3 l _ Hn Hp. apply wp_ret, wp_bind, wp_audit. intros w4 Hf4. apply wp_ret, Hk.
  - exists old, rule, now. rewrite (frames_tbl _ _ _ TRule Hf4), <- Et by set_solver.
    unfold rule_refers, describes in *. rewrite !(Et1 TUser), !(Et1 TSource) in Href by done. rewrite (Et1 TSource) in Hd by done.
    rewrite <- Hid in *.
    split; [by rewrite Et|]. split; [done|]. split; [|split; [done|split; [done|split; [done|]]]].
    + destruct Hp as [-> _]. unfold l. rewrite Et. apply map_ext_in. intros r _. cbn.
      by destruct (N.eqb_spec (acl_ID r) (acl_ID old)) as [->|].
    + by destruct (N.eqb (abi_SourceID req) 0).
  - by eapply (frames_put [TAudit] TRule [TAudit]); [exact Hf|exact Hp| |exact Hf4|set_solver..].
Qed.

Lemma wp_ACLService_Delete ctx id (Q : result GoErr unit -> World -> Prop) w :
  (forall e w', frames [TAudit] w w' -> Q (Err e) w') ->
  (forall w', tbl TRule w' = sel (fun r => negb (N.eqb (acl_ID r) id)) (tbl TRule w) -> frames [TRule; TAudit] w w' ->
     Q (Ok tt) w') ->
  wp (ACLService_Delete rec ctx id) Q w.
Proof.
  intros He Hk. apply wp_bind_or, wp_find_rule; [intros e w1 Hf; apply (wp_refuse _ _ _ _ _ w); auto|].
  intros old w1 Hf1 Hin Hid. apply wp_bind, wp_bind_or, (wp_delete_found TRule).
  { intros e w2 Hs2 _. apply (wp_refuse _ _ _ _ _ w); [by eapply frames_same|auto]. }
  { intros w2 Hs2 _. apply (wp_refuse _ _ _ _ _ w); [by eapply frames_same|auto]. }
  intros w2 _ Hp. apply wp_ret, wp_audit. intros w3 Hf3. apply Hk.
  - rewrite (frames_tbl _ _ _ TRule Hf3), <- (frames_tbl _ _ _ TRule Hf1) by set_solver. apply Hp.
  - eapply (frames_put [TAudit] TRule [TAudit]); [exact Hf1|exact Hp| |exact Hf3|set_solver..].
    intros Hv. by apply no_conflicts_sel.
Qed.
End OperationRules.

(** ** Properties *)
Section Properties.
Context `{DatabaseLaws} {MR : MetadataReader} {ML : MetadataReaderLaws} (metadataReader rec : bool).

(** Creating a rule appends one rule, under an unused id and as the
    response shows it, which is what the request describes, well-formed,
    for an existing user and source; a failed creation leaves every rule
    as it was.  Nothing but the audit log changes besides. *)
Theorem acl_create_effect ctx req w :
  let '(res, w') := ACLService_Create metadataReader rec ctx req w in
  match res with
  | Ok view => rule_created req view w w' /\ frames [TRule; TAudit] w w'
  | Err e => frames [TAudit] w w'
  end.
Proof. apply run_wp. apply wp_ACLService_Create; auto. Qed.

(** An update replaces the rule with the given id by what the request
    describes, in its old source unless the request names another, keeps
    its creation time and leaves every other rule and the order of the
    rules; a failed update leaves every rule as it was. *)
Theorem acl_update_effect ctx id req w :
  let '(res, w') := ACLService_Update metadataReader rec ctx id req w in
  match res with
  | Ok view => rule_updated id req view w w' /\ frames [TRule; TAudit] w w'
  | Err e => frames [TAudit] w w'
  end.
Proof. apply run_wp. apply wp_ACLService_Update; auto. Qed.

Inductive AclOp : Type :=
| OpCreateRule (ctx : Ctx) (req : CreateACLRuleRequest)
| OpUpdateRule (ctx : Ctx) (id : N) (req : UpdateACLRuleRequest)
| OpDeleteRule (ctx : Ctx) (id : N).
Definition run_acl_op (w : World) (op : AclOp) : World :=
  match op with
  | OpCreateRule ctx req => snd (ACLService_Create metadataReader rec ctx req w)
  | OpUpdateRule ctx id req => snd (ACLService_Update metadataReader rec ctx id req w)
  | OpDeleteRule ctx id => snd (ACLService_Delete rec ctx id w)
  end.

Definition rules_ok (w : World) : Prop := forall r, r ∈ tbl TRule w -> rule_ok r /\ rule_refers w r.

Lemma rules_ok_frames w w' : frames [TRule; TAudit] w w' -> rules_ok w ->
  (forall r, r ∈ tbl TRule w' -> r ∈ tbl TRule w \/ rule_ok r /\ rule_refers w r) -> rules_ok w'.
Proof.
  intros Hf Hw Hr r Hin. unfold rule_refers in *.
  rewrite (frames_tbl _ _ _ TUser Hf), (frames_tbl _ _ _ TSource Hf) by set_solver.
  destruct (Hr r Hin) as [Hin'|?]; [|done]. by apply Hw.
Qed.

Lemma run_acl_op_ok w op : valid w -> rules_ok w -> valid (run_acl_op w op) /\ rules_ok (run_acl_op w op).
Proof.
  intros Hv Hw.
  assert (forall w', frames [TAudit] w w' -> valid w' /\ rules_ok w') as Herr.
  { intros w' Hf. split; [by apply Hf|]. apply (rules_ok_frames w); [eapply frames_mono; [done|set_solver]|done|].
    intros r. rewrite (frames_tbl _ _ _ TRule Hf) by set_solver. auto. }
  destruct op as [ctx req|ctx id req|ctx id]; unfold run_acl_op.
  - apply (wp_ACLService_Create metadataReader rec ctx req (fun _ w' => valid w' /\ rules_ok w')); [auto|].
    intros view w' (r & Ht & _ & _ & Hok & Href & _) Hf. split; [by apply Hf|]. apply (rules_ok_frames w); [done..|].
    rewrite Ht. intros r' [?|E%list_elem_of_singleton]%elem_of_app; [by left|right; by rewrite E].
  - apply (wp_ACLService_Update metadataReader rec ctx id req (fun _ w' => valid w' /\ rules_ok w')); [auto|].
    intros view w' (old & r & now & _ & _ & Ht & _ & Hok & Href & _) Hf. split; [by apply Hf|].
    apply (rules_ok_frames w); [done..|]. rewrite Ht.
    intros r' [(y & _ & _ & E)|[? _]]%elem_of_set_where; [right; by rewrite E|by left].
  - apply (wp_ACLService_Delete rec ctx id (fun _ w' => valid w' /\ rules_ok w')); [auto|].
    intros w' Ht Hf. split; [by apply Hf|]. apply (rules_ok_frames w); [done..|]. rewrite Ht.
    intros r [? _]%elem_of_sel. by left.
Qed.

(** C35: whatever rules are created, changed and deleted, and whether or not
    each operation succeeds, every stored rule keeps a known effect, a
    permission, an existing user and source, a source or a node to apply
    to, and a canonical path unless it is bound to a node. *)
Theorem acl_rules_wellformed ops w (Hvalid : valid w) (Hrules : rules_ok w) :
  rules_ok (fold_left run_acl_op ops w).
Proof.
  revert w Hvalid Hrules. induction ops as [|op ops IH]; intros w Hv Hr; [done|]. cbn.
  destruct (run_acl_op_ok w op Hv Hr). by apply IH.
Qed.
End Properties.

(** ** A concrete system *)
#[local] Existing Instances Mem.database Mem.laws AclExample.reader.
Module AclServiceExample.
#[export] Instance reader_laws : MetadataReaderLaws.
Proof. split; intros; apply frames_refl. Qed.

Definition bob : User :=
  {| u_ID := 3; u_Username := "bob"; u_Email := ""; u_PasswordHash := ""; u_RoleKey := RoleUser;
     u_Status := StatusActive; u_TokenVersion := 0; u_CreatedAt := 1; u_UpdatedAt := 1 |}.
Definition world : World := mem_world (Mem.set_rows TUser [bob] { AclExample.mem with Mem.m_serial := 10%N }).
Definition deny_docs : CreateACLRuleRequest :=
  {| abi_SourceID := 1; abi_VFSNodeID := None; abi_Path := "/docs//x/"; abi_SubjectType := "user"; abi_SubjectID := 3;
     abi_Effect := " deny"; abi_Priority := 7;
     abi_Permissions := {| ap_Read := true; ap_Write := false; ap_Delete := false; ap_Share := false |};
     abi_InheritToChildren := true |}.
Definition admin : Ctx := {| ctx_auth := None; ctx_request := None |}.
Lemma acls_world_valid : valid world.
Proof. intros []; reflexivity. Qed.
Lemma world_rules : rules_ok world.
Proof.
  assert (forall r, acl_SubjectID r = 3%N -> acl_SourceID r = 1%N -> rule_refers world r) as Href.
  { intros r E1 E2. split; [exists bob; split; [by left|done]|]. intros _. exists AclExample.source. split; [by left|done]. }
  assert (canonical "/a") as Hc by (by apply (normalize_canonical "/a")).
  intros r [->|[->|Hr%elem_of_nil]%elem_of_cons]%elem_of_cons; [| |done];
    (split; [split_and!|by apply Href]); try done; by (left + right).
Qed.
End AclServiceExample.
#[local] Existing Instance AclServiceExample.reader_laws.

Lemma acl_create_effect_witness :
  let run := ACLService_Create true true AclServiceExample.admin AclServiceExample.deny_docs AclServiceExample.world in
  is_ok (fst run) = true /\ exists r, tbl TRule (snd run) = AclExample.rules ++ [r] /\ acl_Effect r = "deny" /\
    normalizeVirtualPath "/docs//x/" = Ok (acl_Path r).
Proof.
  intros run. assert (is_ok (fst run) = true) as Hok by (vm_compute; reflexivity). split; [exact Hok|].
  pose proof (acl_create_effect true true AclServiceExample.admin AclServiceExample.deny_docs AclServiceExample.world) as Hs.
  fold run in Hs. destruct run as [[view|e] w']; [|discriminate Hok].
  destruct Hs as [(r & Ht & _ & _ & _ & _ & _ & He & _ & _ & _ & _ & Hp & _) _]. exists r. split_and!; assumption.
Defined.

Lemma acl_update_effect_witness :
  let run := ACLService_Update true true AclServiceExample.admin 1 AclServiceExample.deny_docs AclServiceExample.world in
  is_ok (fst run) = true /\ map acl_ID (tbl TRule (snd run)) = [1; 2]%N.
Proof.
  intros run. assert (is_ok (fst run) = true) as Hok by (vm_compute; reflexivity). split; [exact Hok|].
  pose proof (acl_update_effect true true AclServiceExample.admin 1 AclServiceExample.deny_docs AclServiceExample.world) as Hs.
  fold run in Hs. destruct run as [[view|e] w']; [|discriminate Hok].
  destruct Hs as [(old & r & now & _ & _ & Ht & _) _]. cbn [snd]. rewrite Ht. reflexivity.
Defined.

Lemma acl_rules_wellformed_witness :
  let w := fold_left (run_acl_op true true)
    [OpCreateRule AclServiceExample.admin AclServiceExample.deny_docs; OpDeleteRule AclServiceExample.admin 1]
    AclServiceExample.world in
  map acl_ID (tbl TRule w) = [2; 11]%N /\ rules_ok w.
Proof.
  split; [vm_compute; reflexivity|].
  apply (acl_rules_wellformed true true); [apply AclServiceExample.acls_world_valid|apply AclServiceExample.world_rules].
Defined.
