(* ===== verification/Journal.v ===== *)
(** * The journal of operations

    [vfs_operation_journal_service.go] and [vfs_operation_repo_impl.go]:
    operations that touched a storage provider and the metadata tree, their
    states, the leases workers take on them, retries, and what is kept of
    payloads and errors. *)
From S2P Require Import Prelude Ints GoStrings Runes Entities Tables Db Auditing Repos.
From stdpp Require Import base list strings sets sorting pretty relations.
From Stdlib Require Import ZArith Lia Ascii.

Local Open Scope string_scope.
Local Open Scope list_scope.
Local Open Scope go_scope.

(** ** Constants *)
Definition minute : Z := 60 * 1000000000.
Definition defaultVFSOperationLockDuration : Z := 5 * minute.
Definition vfsOperationPayloadMaxBytes : nat := 4096.
Definition vfsOperationRedactedValue : string := "[redacted]".

Definition VFSOperationStatusPending := "pending".
Definition VFSOperationStatusRunning := "running".
Definition VFSOperationStatusSucceeded := "succeeded".
Definition VFSOperationStatusFailed := "failed".
Definition VFSOperationStatusCompensating := "compensating".
Definition VFSOperationStatusCanceled := "canceled".

Definition VFSOperationTypes : list string :=
  ["mkdir"; "rename"; "move"; "copy"; "delete"; "import"; "upload_commit"; "task_commit"; "refresh"].
Definition isValidVFSOperationType (operationType : string) : bool :=
  existsb (String.eqb (trim_space operationType)) VFSOperationTypes.

Definition vfsOperationRetryBackoff (retryCount : Z) : Z :=
  if Z.leb retryCount 1 then minute
  else if Z.eqb retryCount 2 then 5 * minute
  else if Z.eqb retryCount 3 then 30 * minute
  else 120 * minute.

(** ** What is kept of texts *)
Definition is_letter (a : ascii) : bool :=
  let n := N_of_ascii a in ((65 <=? n) && (n <=? 90) || (97 <=? n) && (n <=? 122))%N.
Definition looksLikeWindowsPhysicalPath (value : string) : bool :=
  has_prefix value "\\" ||
  match value with
  | String drive (String b (String c _)) =>
      is_letter drive && Ascii.eqb b ":"%char && (Ascii.eqb c "\"%char || Ascii.eqb c "/"%char)
  | _ => false
  end.
Definition physicalPrefixes : list string :=
  ["/mnt/"; "/var/"; "/tmp/"; "/home/"; "/root/"; "/data/"; "/opt/"; "/etc/"; "/srv/"; "/usr/"; "/volumes/"; "/users/"].
Definition looksLikeUnixPhysicalPath (value : string) : bool :=
  existsb (has_prefix (to_lower value)) physicalPrefixes.

Definition sensitiveTextFragments : list string :=
  ["sql:"; "select "; "insert "; "update "; "delete "; "duplicate key"; "provider payload"; "provider-payload";
   "access_token"; "refresh_token"; "secret"; "password"; "credential"; "private_key"].
Definition containsSensitiveVFSOperationText (value : string) : bool :=
  let trimmed := trim_space value in
  if String.eqb trimmed "" then false
  else existsb (contains (to_lower trimmed)) sensitiveTextFragments ||
       looksLikeWindowsPhysicalPath trimmed || looksLikeUnixPhysicalPath trimmed.

Definition sensitiveKeyFragments : list string :=
  ["payload"; "provider"; "token"; "secret"; "password"; "credential"; "config"; "dsn"; "sql"; "query"; "locator";
   "path"; "file_id"; "object_key"; "oss"].
Definition isSensitiveVFSOperationPayloadKey (key : string) : bool :=
  existsb (contains (to_lower (trim_space key))) sensitiveKeyFragments.

Definition containsSensitiveVFSOperationSnapshot (value : string) : bool :=
  let lower := to_lower (trim_space value) in
  if String.eqb lower "" then false
  else looksLikeWindowsPhysicalPath value ||
       existsb (contains lower)
         ["sql:"; "duplicate key"; "provider payload"; "provider-payload"; "access_token"; "refresh_token"].

Definition maxSnapshotLen : nat := 1024.
Definition normalizeVFSOperationSnapshot (value : string) : string :=
  let trimmed := trim_space value in
  if containsSensitiveVFSOperationSnapshot trimmed then ""
  else
    let rs := runes trimmed in
    if Nat.leb (length rs) maxSnapshotLen then trimmed else concat_runes (take maxSnapshotLen rs).

(** ** Payloads

    The values of a [map[string]any]: nil, booleans and numbers, strings,
    lists, maps, and values of other types with the JSON they encode to, if
    any. *)
Inductive PayloadValue : Type :=
| PScalar (j : Json)
| PString (s : string)
| PList (l : list PayloadValue)
| PMap (m : list (string * PayloadValue))
| POther (encoded : option Json).

(** [json.Marshal], which fails on a value that has no encoding. *)
Definition all_some {A} (l : list (option A)) : option (list A) :=
  fold_right (fun x acc => match x, acc with Some a, Some l => Some (a :: l) | _, _ => None end) (Some []) l.
Fixpoint encode_value (v : PayloadValue) : option Json :=
  match v with
  | PScalar j => Some j
  | PString s => Some (JStr s)
  | PList l => JArr <$> all_some (map encode_value l)
  | PMap m => JObj <$> all_some (map (fun '(k, v) => pair k <$> encode_value v) m)
  | POther j => j
  end.

Fixpoint sanitizeVFSOperationPayloadValue (value : PayloadValue) : PayloadValue :=
  match value with
  | PScalar j => PScalar j
  | PString s => if containsSensitiveVFSOperationText s then PString vfsOperationRedactedValue else PString s
  | PList l => PList (map sanitizeVFSOperationPayloadValue l)
  | PMap m => PMap (map (fun '(k, v) =>
      (k, if isSensitiveVFSOperationPayloadKey k then PString vfsOperationRedactedValue
          else sanitizeVFSOperationPayloadValue v)) m)
  | POther None => PString vfsOperationRedactedValue
  | POther (Some j) =>
      if containsSensitiveVFSOperationText (json_marshal j) then PString vfsOperationRedactedValue else POther (Some j)
  end.
Definition sanitizeVFSOperationPayloadMap (payload : list (string * PayloadValue)) : list (string * PayloadValue) :=
  map (fun '(k, v) =>
      (k, if isSensitiveVFSOperationPayloadKey k then PString vfsOperationRedactedValue
          else sanitizeVFSOperationPayloadValue v)) payload.

(** [json.Valid] and [json.Unmarshal] into a map: the object a text
    denotes, if it denotes one. *)
Class JsonDecoder := json_object : string -> option (list (string * PayloadValue)).

Definition omitted_payload : string := "{" +:+ quote "omitted" +:+ ":true}".
Definition encode_payload (payload : list (string * PayloadValue)) : result GoErr string :=
  match encode_value (PMap (sanitizeVFSOperationPayloadMap payload)) with
  | None => Err (ErrText "json: unsupported value")
  | Some j =>
      let data := json_marshal j in
      if Nat.ltb vfsOperationPayloadMaxBytes (String.length data) then Ok omitted_payload else Ok data
  end.
Definition normalizeVFSOperationPayload `{JsonDecoder} (payload : option (list (string * PayloadValue))) (raw : string)
    : result GoErr string :=
  match payload with
  | Some payload => encode_payload payload
  | None =>
      let trimmed := trim_space raw in
      if String.eqb trimmed "" || equal_fold trimmed "null" then Ok "{}"
      else if Nat.ltb vfsOperationPayloadMaxBytes (String.length trimmed) then Ok omitted_payload
      else match json_object trimmed with
           | None => Ok "{}"
           | Some decoded => encode_payload decoded
           end
  end.

(** ** Errors *)
Definition stableVFSOperationErrorCode (preferred : string) (err : option GoErr) : string :=
  let code := trim_space preferred in
  if negb (String.eqb code "") then code
  else match err with
       | None => ""
       | Some err =>
           if err_is err ErrMetadataVFSMutationSyncFailed then "METADATA_VFS_MUTATION_SYNC_FAILED"
           else if err_is err ErrMetadataVFSCommitFailed then "METADATA_VFS_COMMIT_FAILED"
           else if err_is err ErrVFSSyncConflict then "VFS_SYNC_CONFLICT"
           else if err_is err ErrSourceOperationUnsupported || err_is err ErrSourceDriverUnsupported
           then "SOURCE_OPERATION_UNSUPPORTED"
           else "VFS_OPERATION_FAILED"
       end.

Definition sanitizeVFSOperationErrorMessage (errorCode : string) (err : option GoErr) : string :=
  match err with
  | None => ""
  | Some _ =>
      if String.eqb errorCode "METADATA_VFS_MUTATION_SYNC_FAILED" then "metadata vfs mutation sync failed"
      else if String.eqb errorCode "METADATA_VFS_COMMIT_FAILED" then "metadata vfs commit failed"
      else if String.eqb errorCode "VFS_SYNC_CONFLICT" then "vfs sync conflict"
      else if String.eqb errorCode "SOURCE_OPERATION_UNSUPPORTED" then "source operation unsupported"
      else "vfs operation failed"
  end.

Definition sanitizedVFSOperationReturnedError (err : GoErr) : GoErr :=
  ErrText (sanitizeVFSOperationErrorMessage (stableVFSOperationErrorCode "" (Some err)) (Some err)).

(** ** [vfs_operation_repo_impl.go] *)
Record VFSOperationDueFilter := {
  df_OperationType : string; df_Statuses : list string; df_DueBefore : Z; df_Limit : Z; df_IncludeLocked : bool
}.
Record VFSOperationLock := { lk_WorkerID : string; lk_LockedUntil : Z }.

Definition vfsOperationModelFromEntity (operation : VFSOperation) : VFSOperation :=
  { operation with op_PayloadJSON ::= jsonObject }.

Definition due_statuses (filter : VFSOperationDueFilter) : list string :=
  match df_Statuses filter with
  | [] => [VFSOperationStatusPending; VFSOperationStatusFailed; VFSOperationStatusRunning]
  | l => l
  end.
(** [column IS NULL OR column <= t]. *)
Definition null_or_before (c : option Z) (t : Z) : bool := match c with None => true | Some x => Z.leb x t end.
Definition due_filter (filter : VFSOperationDueFilter) (dueBefore : Z) (op : VFSOperation) : bool :=
  existsb (String.eqb (op_Status op)) (due_statuses filter) &&
  (String.eqb (df_OperationType filter) "" || String.eqb (op_OperationType op) (df_OperationType filter)) &&
  null_or_before (op_NextRetryAt op) dueBefore &&
  (df_IncludeLocked filter || null_or_before (op_LockedUntil op) dueBefore).
Definition due_limit (filter : VFSOperationDueFilter) : nat :=
  if Z.leb (df_Limit filter) 0 || Z.ltb 200 (df_Limit filter) then 100 else Z.to_nat (df_Limit filter).
Definition due_order : Order VFSOperation :=
  ord_then (ord_nulls_first op_NextRetryAt) (ord_asc (fun op => Z.of_N (op_ID op))).

Section Journal.
Context `{Database}.

(** [applyVFSOperationDueFilter], and [Find]. *)
Definition select_due (filter : VFSOperationDueFilter) : M GoErr World (list VFSOperation) :=
  dueBefore <-! (if Z.eqb (df_DueBefore filter) 0 then time_now else ret (df_DueBefore filter)) ;;
  stmt (db_select TOperation (due_filter filter dueBefore) due_order (Some (due_limit filter))).

Definition VFSOperationRepository_Create (operation : VFSOperation) : M GoErr World VFSOperation :=
  stmt (db_insert TOperation (vfsOperationModelFromEntity operation)).

Definition VFSOperationRepository_Update (operation : VFSOperation) : M GoErr World unit :=
  must_affect (stmt (db_update TOperation (fun r => N.eqb (op_ID r) (op_ID operation))
    (fun r => { (vfsOperationModelFromEntity operation) with op_ID := op_ID r; op_CreatedAt := op_CreatedAt r }))).

Definition VFSOperationRepository_FindByID (id : N) : M GoErr World VFSOperation :=
  first TOperation (fun r => N.eqb (op_ID r) id) ord_any.

Definition VFSOperationRepository_ListDue (filter : VFSOperationDueFilter) : M GoErr World (list VFSOperation) :=
  select_due filter.

(** Rows other transactions hold are skipped; a model transaction runs
    alone, and finds none. *)
Definition VFSOperationRepository_AcquireDue (filter : VFSOperationDueFilter) (lock : VFSOperationLock)
    : M GoErr World (list VFSOperation) :=
  let worker := if String.eqb (lk_WorkerID lock) "" then "vfs-operation-worker" else lk_WorkerID lock in
  lockedUntil <-! (if Z.eqb (lk_LockedUntil lock) 0 then now <-! time_now ;; ret (now + 5 * minute)%Z
                   else ret (lk_LockedUntil lock)) ;;
  transaction rawGormError (
    models <-! select_due filter ;;
    match models with
    | [] => ret []
    | _ =>
        let taken r := existsb (N.eqb (op_ID r)) (map op_ID models) in
        now <-! time_now ;;
        do! stmt (db_update TOperation taken (fun r =>
          { r with op_Status := VFSOperationStatusRunning; op_LockedBy := worker; op_LockedUntil := Some lockedUntil;
                   op_UpdatedAt := now })) ;;
        stmt (db_select TOperation taken due_order None)
    end).

(** ** [vfs_operation_journal_service.go] *)
Record VFSOperationRecordInput := {
  ri_OperationType : string; ri_SourceNodeID : option N; ri_TargetParentNodeID : option N; ri_ResultNodeID : option N;
  ri_SourcePathSnapshot : string; ri_TargetPathSnapshot : string; ri_SourceIDSnapshot : option N;
  ri_DriverTypeSnapshot : string; ri_Payload : option (list (string * PayloadValue)); ri_PayloadJSON : string;
  ri_ErrorCode : string; ri_Error : option GoErr; ri_CreatedBy : option N; ri_NextRetryAt : option Z
}.
#[export] Instance eta_VFSOperationRecordInput : Eta VFSOperationRecordInput := fun r =>
  {| ri_OperationType := ri_OperationType r; ri_SourceNodeID := ri_SourceNodeID r;
     ri_TargetParentNodeID := ri_TargetParentNodeID r; ri_ResultNodeID := ri_ResultNodeID r;
     ri_SourcePathSnapshot := ri_SourcePathSnapshot r; ri_TargetPathSnapshot := ri_TargetPathSnapshot r;
     ri_SourceIDSnapshot := ri_SourceIDSnapshot r; ri_DriverTypeSnapshot := ri_DriverTypeSnapshot r;
     ri_Payload := ri_Payload r; ri_PayloadJSON := ri_PayloadJSON r; ri_ErrorCode := ri_ErrorCode r;
     ri_Error := ri_Error r; ri_CreatedBy := ri_CreatedBy r; ri_NextRetryAt := ri_NextRetryAt r |}.

Context `{JsonDecoder}.
(** Whether the service has a repository, and the length of its leases. *)
Context (repo : bool) (lockDuration : Z).

Definition with_repo {A} (m : M GoErr World A) : M GoErr World A :=
  if repo then m else throw ErrSourceDriverUnsupported.

Definition record (input : VFSOperationRecordInput) (status : string) : M GoErr World VFSOperation :=
  with_repo (
  if negb (isValidVFSOperationType (ri_OperationType input)) then throw ErrConfigInvalid
  else
  now <-! time_now ;;
  payloadJSON <-! lift_result (normalizeVFSOperationPayload (ri_Payload input) (ri_PayloadJSON input)) ;;
  let errorCode := stableVFSOperationErrorCode (ri_ErrorCode input) (ri_Error input) in
  VFSOperationRepository_Create
    {| op_ID := 0; op_OperationType := ri_OperationType input; op_Status := status;
       op_SourceNodeID := ri_SourceNodeID input; op_TargetParentNodeID := ri_TargetParentNodeID input;
       op_ResultNodeID := ri_ResultNodeID input;
       op_SourcePathSnapshot := normalizeVFSOperationSnapshot (ri_SourcePathSnapshot input);
       op_TargetPathSnapshot := normalizeVFSOperationSnapshot (ri_TargetPathSnapshot input);
       op_SourceIDSnapshot := ri_SourceIDSnapshot input; op_DriverTypeSnapshot := trim_space (ri_DriverTypeSnapshot input);
       op_PayloadJSON := payloadJSON; op_ErrorCode := errorCode;
       op_ErrorMessage := sanitizeVFSOperationErrorMessage errorCode (ri_Error input); op_RetryCount := 0;
       op_NextRetryAt := ri_NextRetryAt input; op_LockedBy := ""; op_LockedUntil := None;
       op_CreatedBy := ri_CreatedBy input; op_CreatedAt := now; op_UpdatedAt := now |}).

Definition RecordPending (input : VFSOperationRecordInput) : M GoErr World VFSOperation :=
  record input VFSOperationStatusPending.

Definition RecordFailure (input : VFSOperationRecordInput) : M GoErr World VFSOperation :=
  input <-! match ri_NextRetryAt input with
            | None => now <-! time_now ;; ret { input with ri_NextRetryAt := Some (now + vfsOperationRetryBackoff 1)%Z }
            | Some _ => ret input
            end ;;
  record input VFSOperationStatusFailed.

Definition ended (op : VFSOperation) : bool :=
  String.eqb (op_Status op) VFSOperationStatusSucceeded || String.eqb (op_Status op) VFSOperationStatusCanceled.

(** The operation an update stores, and the one that is read back. *)
Definition store (operation : VFSOperation) : M GoErr World VFSOperation :=
  do! VFSOperationRepository_Update operation ;; VFSOperationRepository_FindByID (op_ID operation).

Definition MarkRunning (id : N) (workerID : string) : M GoErr World VFSOperation :=
  with_repo (
  let workerID := if String.eqb workerID "" then "vfs-operation-worker" else workerID in
  operation <-! VFSOperationRepository_FindByID id ;;
  if ended operation then ret operation
  else
  now <-! time_now ;;
  store { operation with op_Status := VFSOperationStatusRunning; op_LockedBy := workerID;
          op_LockedUntil := Some (now + lockDuration)%Z; op_UpdatedAt := now }).

Definition MarkSucceeded (id : N) : M GoErr World VFSOperation :=
  with_repo (
  operation <-! VFSOperationRepository_FindByID id ;;
  if String.eqb (op_Status operation) VFSOperationStatusSucceeded then ret operation
  else
  now <-! time_now ;;
  store { operation with op_Status := VFSOperationStatusSucceeded; op_ErrorCode := ""; op_ErrorMessage := "";
          op_NextRetryAt := None; op_LockedBy := ""; op_LockedUntil := None; op_UpdatedAt := now }).

Definition MarkFailed (id : N) (err : option GoErr) : M GoErr World VFSOperation :=
  with_repo (
  operation <-! VFSOperationRepository_FindByID id ;;
  if ended operation then ret operation
  else
  now <-! time_now ;;
  let retryCount := int_add (op_RetryCount operation) 1 in
  let errorCode := stableVFSOperationErrorCode "" err in
  store { operation with op_Status := VFSOperationStatusFailed; op_ErrorCode := errorCode;
          op_ErrorMessage := sanitizeVFSOperationErrorMessage errorCode err; op_RetryCount := retryCount;
          op_NextRetryAt := Some (now + vfsOperationRetryBackoff retryCount)%Z; op_LockedBy := "";
          op_LockedUntil := None; op_UpdatedAt := now }).

Definition due_at (now limit : Z) : VFSOperationDueFilter :=
  {| df_OperationType := ""; df_Statuses := []; df_DueBefore := now; df_Limit := limit; df_IncludeLocked := false |}.

Definition ListDue (limit : Z) : M GoErr World (list VFSOperation) :=
  with_repo (now <-! time_now ;; VFSOperationRepository_ListDue (due_at now limit)).

Definition AcquireDue (workerID : string) (limit : Z) : M GoErr World (list VFSOperation) :=
  with_repo (
  now <-! time_now ;;
  VFSOperationRepository_AcquireDue (due_at now limit)
    {| lk_WorkerID := workerID; lk_LockedUntil := (now + lockDuration)%Z |}).

(** [errors.Join] of what has been joined so far and an error. *)
Definition join_error (joined : option GoErr) (err : GoErr) : option GoErr :=
  Some match joined with None => err | Some j => ErrJoin j err end.

Definition VFSOperationProcessor : Type := VFSOperation -> M GoErr World unit.

(** What becomes of one acquired operation, with the errors so far. *)
Definition process_one (processor : VFSOperationProcessor) (operation : VFSOperation) (joined : option GoErr)
    : M GoErr World (option GoErr) :=
  _u <-! processor operation or processErr =>
    (let joined := join_error joined (sanitizedVFSOperationReturnedError processErr) in
     _o <-! MarkFailed (op_ID operation) (Some processErr) or markErr =>
       ret (join_error joined (sanitizedVFSOperationReturnedError markErr)) ;;
     ret joined) ;;
  _o <-! MarkSucceeded (op_ID operation) or markErr =>
    ret (join_error joined (sanitizedVFSOperationReturnedError markErr)) ;;
  ret joined.
Fixpoint process_all (processor : VFSOperationProcessor) (operations : list VFSOperation) (joined : option GoErr)
    : M GoErr World (option GoErr) :=
  match operations with
  | [] => ret joined
  | operation :: rest =>
      joined <-! process_one processor operation joined ;;
      process_all processor rest joined
  end.
(** The number of acquired operations, and the joined errors. *)
Definition ProcessDue (workerID : string) (limit : Z) (processor : option VFSOperationProcessor)
    : M GoErr World (Z * option GoErr) :=
  match processor with
  | None => throw ErrSourceOperationUnsupported
  | Some processor =>
      operations <-! AcquireDue workerID limit ;;
      joined <-! process_all processor operations None ;;
      ret (Z.of_nat (length operations), joined)
  end.
End Journal.

(** ** Payloads are redacted *)
#[local] Arguments isSensitiveVFSOperationPayloadKey : simpl never.
#[local] Arguments containsSensitiveVFSOperationText : simpl never.

Section PayloadInduction.
Context (P : PayloadValue -> Prop).
Context (HScalar : forall j, P (PScalar j)) (HString : forall s, P (PString s)) (HOther : forall j, P (POther j)).
Context (HList : forall l, Forall P l -> P (PList l)) (HMap : forall m, Forall (fun e => P (snd e)) m -> P (PMap m)).
Fixpoint payload_rect (v : PayloadValue) : P v :=
  match v with
  | PScalar j => HScalar j
  | PString s => HString s
  | PList l => HList l ((fix go l : Forall P l := match l with
      | [] => List.Forall_nil _ | v :: l => @List.Forall_cons _ _ _ _ (payload_rect v) (go l) end) l)
  | PMap m => HMap m ((fix go m : Forall (fun e => P (snd e)) m := match m with
      | [] => List.Forall_nil _ | e :: m => @List.Forall_cons _ _ _ _ (payload_rect (snd e)) (go m) end) m)
  | POther j => HOther j
  end.
End PayloadInduction.

(** No string looks sensitive, and the values under sensitive keys are
    the redaction mark. *)
Fixpoint clean (v : PayloadValue) : bool :=
  match v with
  | PScalar _ => true
  | PString s => negb (containsSensitiveVFSOperationText s)
  | PList l => forallb clean l
  | PMap m => forallb (fun '(k, v) =>
      if isSensitiveVFSOperationPayloadKey k
      then match v with PString s => String.eqb s vfsOperationRedactedValue | _ => false end
      else clean v) m
  | POther None => false
  | POther (Some j) => negb (containsSensitiveVFSOperationText (json_marshal j))
  end.

Lemma forallb_map_Forall {A B} (f : A -> B) (p : B -> bool) l :
  Forall (fun x => p (f x) = true) l -> forallb p (map f l) = true.
Proof. induction 1 as [|x l Hx _ IH]; [done|]. cbn. by rewrite Hx, IH. Qed.
Lemma map_id_Forall {A} (f : A -> A) l : Forall (fun x => f x = x) l -> map f l = l.
Proof. induction 1 as [|x l Hx _ IH]; [done|]. cbn. by rewrite Hx, IH. Qed.

Lemma sanitize_value_clean v : clean (sanitizeVFSOperationPayloadValue v) = true.
Proof.
  induction v as [j|s|[j|]|l IH|m IH] using payload_rect; try done; cbn [sanitizeVFSOperationPayloadValue].
  - destruct (containsSensitiveVFSOperationText s) eqn:E; [done|]. cbn. by rewrite E.
  - destruct (containsSensitiveVFSOperationText (json_marshal j)) eqn:E; [done|]. cbn [clean]. by rewrite E.
  - by apply forallb_map_Forall.
  - apply forallb_map_Forall. eapply Forall_impl; [exact IH|]. intros [k v] Hv.
    cbn in Hv |- *. by destruct (isSensitiveVFSOperationPayloadKey k).
Qed.

Lemma sanitize_clean_value v : clean v = true -> sanitizeVFSOperationPayloadValue v = v.
Proof.
  induction v as [j|s|[j|]|l IH|m IH] using payload_rect; intros Hc; try done; cbn [sanitizeVFSOperationPayloadValue].
  - cbn in Hc. by destruct (containsSensitiveVFSOperationText s).
  - cbn [clean] in Hc. by destruct (containsSensitiveVFSOperationText (json_marshal j)).
  - cbn in Hc. rewrite map_id_Forall; [done|]. rewrite forallb_forall in Hc. rewrite Forall_forall in IH |- *.
    intros x Hx. apply IH, Hc; [done|]. by apply list_elem_of_In.
  - cbn in Hc. rewrite map_id_Forall; [done|]. rewrite forallb_forall in Hc. rewrite Forall_forall in IH |- *.
    intros [k v] Hx. specialize (IH _ Hx). specialize (Hc (k, v)). cbn in Hc. rewrite <- list_elem_of_In in Hc.
    specialize (Hc Hx). destruct (isSensitiveVFSOperationPayloadKey k); [|cbn in IH; by rewrite IH].
    destruct v as [|s| | |]; try discriminate. by apply String.eqb_eq in Hc as ->.
Qed.

(** What the journal stores of a payload is at most 4096 bytes of JSON:
    the empty object, the omission mark, or an object in which no string
    looks like a credential, a statement or a physical path and whose
    sensitive keys hold only the redaction mark; redacting again changes
    nothing; and an encoding fails only when some value has no JSON. *)
Theorem payload_redacted `{JsonDecoder} payload raw :
  (forall v, clean (sanitizeVFSOperationPayloadValue v) = true /\
     sanitizeVFSOperationPayloadValue (sanitizeVFSOperationPayloadValue v) = sanitizeVFSOperationPayloadValue v) /\
  match normalizeVFSOperationPayload payload raw with
  | Ok text =>
      String.length text <= vfsOperationPayloadMaxBytes /\
      (text = "{}" \/ text = omitted_payload \/
       exists m j, clean (PMap m) = true /\ encode_value (PMap m) = Some j /\ text = json_marshal j)
  | Err _ => exists p, (payload = Some p \/ payload = None /\ json_object (trim_space raw) = Some p) /\
               encode_value (PMap (sanitizeVFSOperationPayloadMap p)) = None
  end.
Proof.
  split.
  { intros v. pose proof (sanitize_value_clean v) as Hc. split; [done|]. by apply sanitize_clean_value. }
  assert (forall p, match encode_payload p with
    | Ok text => String.length text <= vfsOperationPayloadMaxBytes /\
        (text = "{}" \/ text = omitted_payload \/
         exists m j, clean (PMap m) = true /\ encode_value (PMap m) = Some j /\ text = json_marshal j)
    | Err _ => encode_value (PMap (sanitizeVFSOperationPayloadMap p)) = None end) as Henc.
  { intros p. unfold encode_payload. destruct (encode_value _) as [j|] eqn:E; [|done].
    destruct (Nat.ltb_spec vfsOperationPayloadMaxBytes (String.length (json_marshal j))).
    - split; [vm_compute; lia|by right; left].
    - split; [done|]. right. right. exists (sanitizeVFSOperationPayloadMap p), j. split; [|done].
      apply (sanitize_value_clean (PMap p)). }
  assert (String.length "{}" <= vfsOperationPayloadMaxBytes) as He by (vm_compute; lia).
  unfold normalizeVFSOperationPayload. destruct payload as [p|].
  { specialize (Henc p). destruct (encode_payload p); [done|]. exists p. by split; [left|]. }
  destruct (_ || _); [by split; [|left]|].
  destruct (Nat.ltb _ _); [split; [vm_compute; lia|by right; left]|].
  destruct (json_object _) as [p|]; [|by split; [|left]].
  specialize (Henc p). destruct (encode_payload p); [done|]. exists p. by split; [right|].
Qed.

(** ** Steps of an operation *)

(** What no step changes. *)
Definition same_request (old new : VFSOperation) : Prop :=
  op_ID new = op_ID old /\ op_OperationType new = op_OperationType old /\
  op_SourcePathSnapshot new = op_SourcePathSnapshot old /\ op_TargetPathSnapshot new = op_TargetPathSnapshot old /\
  op_SourceIDSnapshot new = op_SourceIDSnapshot old /\ op_CreatedBy new = op_CreatedBy old /\
  op_CreatedAt new = op_CreatedAt old.
Definition leased (op : VFSOperation) (worker : string) (until : Z) : Prop :=
  op_Status op = VFSOperationStatusRunning /\ op_LockedBy op = worker /\ op_LockedUntil op = Some until.
Definition unleased (op : VFSOperation) : Prop := op_LockedBy op = "" /\ op_LockedUntil op = None.

Inductive op_step : VFSOperation -> VFSOperation -> Prop :=
| step_run old new worker until :
    ended old = false -> same_request old new -> op_RetryCount new = op_RetryCount old ->
    leased new worker until -> op_step old new
| step_succeed old new :
    op_Status old <> VFSOperationStatusSucceeded -> same_request old new -> op_RetryCount new = op_RetryCount old ->
    op_Status new = VFSOperationStatusSucceeded -> unleased new -> op_NextRetryAt new = None -> op_step old new
| step_fail old new at_ :
    ended old = false -> same_request old new -> op_RetryCount new = int_add (op_RetryCount old) 1 ->
    op_Status new = VFSOperationStatusFailed -> unleased new ->
    op_NextRetryAt new = Some (at_ + vfsOperationRetryBackoff (op_RetryCount new))%Z -> op_step old new.

Lemma op_step_not_succeeded old new : op_step old new -> op_Status old <> VFSOperationStatusSucceeded.
Proof. intros [o n ? ? H| |o n ? H] E; [|done|]; unfold ended in H; by rewrite E in H. Qed.

Section Rules.
Context `{DatabaseLaws} `{JsonDecoder} (repo : bool) (lockDuration : Z).
Implicit Types w : World.

(** Every operation is kept or makes one step. *)
Definition ops_step (w w' : World) : Prop :=
  Forall2 (fun old new => old = new \/ op_step old new) (tbl TOperation w) (tbl TOperation w').
Lemma ops_step_eq w w' : tbl TOperation w' = tbl TOperation w -> ops_step w w'.
Proof. intros E. unfold ops_step. rewrite E. apply Forall_Forall2_diag, Forall_forall. by left. Qed.
Lemma ops_step_where w w' p f : tbl TOperation w' = set_where p f (tbl TOperation w) ->
  (forall op, op ∈ tbl TOperation w -> p op = true -> op_step op (f op)) -> ops_step w w'.
Proof.
  intros E Hs. unfold ops_step. rewrite E. unfold set_where. apply Forall2_fmap_r, Forall_Forall2_diag, Forall_forall.
  intros op Hop. cbn. destruct (p op) eqn:Ep; [right; by apply Hs|by left].
Qed.

(** The table with one operation stored. *)
Definition with_op (op : VFSOperation) (now : Z) (l : list VFSOperation) : list VFSOperation :=
  set_where (fun r => N.eqb (op_ID r) (op_ID op))
    (fun r => { (vfsOperationModelFromEntity op) with op_ID := op_ID r; op_CreatedAt := op_CreatedAt r;
                op_UpdatedAt := now }) l.

Lemma wp_find_op id (Q : result GoErr VFSOperation -> World -> Prop) w :
  (forall e w', frames [] w w' -> Q (Err e) w') ->
  (forall op w', frames [] w w' -> op ∈ tbl TOperation w -> op_ID op = id -> Q (Ok op) w') ->
  wp (VFSOperationRepository_FindByID id) Q w.
Proof.
  intros He Hk. apply (wp_lookup TOperation); [intros e w1 Hs _; by apply He, same_frames|].
  intros op w1 Hs Hop E%N.eqb_eq. apply Hk; [by apply same_frames|done..].
Qed.

(** Storing an operation fails and changes nothing, or puts it in its
    place, even when reading it back fails. *)
Lemma wp_store op (Q : result GoErr VFSOperation -> World -> Prop) w :
  (forall e w', frames [] w w' -> Q (Err e) w') ->
  (forall now res w', frames [TOperation] w w' -> tbl TOperation w' = with_op op now (tbl TOperation w) ->
     match res with Ok op' => op' ∈ tbl TOperation w' /\ op_ID op' = op_ID op | Err _ => True end -> Q res w') ->
  wp (store op) Q w.
Proof.
  intros He Hk. apply wp_bind, (wp_update_found TOperation).
  { intros e w1 Hs _. by apply He, same_frames. }
  { intros w1 Hs _. by apply He, same_frames. }
  intros now w1 l _ Hn Hp. assert (frames [TOperation] w w1) as Hf1 by by eapply put_frames.
  assert (tbl TOperation w1 = with_op op now (tbl TOperation w)) as Et by apply Hp.
  apply wp_find_op.
  - intros e w2 Hf2. apply (Hk now); [|by rewrite (frames_tbl _ _ _ TOperation Hf2) by set_solver|done].
    eapply frames_trans; [done|]. eapply frames_mono; [done|set_solver].
  - intros op' w2 Hf2 Hin Hid. apply (Hk now).
    + eapply frames_trans; [done|]. eapply frames_mono; [done|set_solver].
    + by rewrite (frames_tbl _ _ _ TOperation Hf2) by set_solver.
    + by rewrite (frames_tbl _ _ _ TOperation Hf2) by set_solver.
Qed.

(** The shape of the [Mark...] methods. *)
Lemma wp_mark (stop : VFSOperation -> bool) (f : Z -> VFSOperation -> VFSOperation) id
    (Q : result GoErr VFSOperation -> World -> Prop) w :
  (forall now op, op_ID (f now op) = op_ID op) ->
  (forall e w', frames [] w w' -> Q (Err e) w') ->
  (forall op w', frames [] w w' -> op ∈ tbl TOperation w -> op_ID op = id -> stop op = true -> Q (Ok op) w') ->
  (forall op at_ now res w', frames [TOperation] w w' -> op ∈ tbl TOperation w -> op_ID op = id -> stop op = false ->
     tbl TOperation w' = with_op (f at_ op) now (tbl TOperation w) ->
     match res with Ok op' => op' ∈ tbl TOperation w' /\ op_ID op' = id | Err _ => True end -> Q res w') ->
  wp (with_repo repo (operation <-! VFSOperationRepository_FindByID id ;;
        if stop operation then ret operation
        else now <-! time_now ;; store (f now operation))) Q w.
Proof.
  intros Hf He Hstop Hk. unfold with_repo. destruct repo; [|apply He, frames_refl].
  apply wp_bind, wp_find_op; [done|]. intros op w1 Hf1 Hop Hid. destruct (stop op) eqn:Es; [by apply wp_ret, Hstop|].
  apply wp_bind, wp_time_now. set (w2 := { w1 with w_reads ::= S }).
  assert (frames [] w w2) as Hf2 by (eapply frames_trans; [done|apply tick_frames]).
  apply wp_store.
  - intros e w3 Hf3. apply He. by eapply frames_trans.
  - intros now res w3 Hf3 Et Hres. eapply (Hk op); try done.
    + eapply frames_trans; [eapply frames_mono; [exact Hf2|set_solver]|done].
    + rewrite Et. by rewrite (frames_tbl _ _ _ TOperation Hf2) by set_solver.
    + by rewrite Hf, Hid in Hres.
Qed.

Lemma same_op l a b : no_conflicts TOperation l = true -> a ∈ l -> b ∈ l -> op_ID a = op_ID b -> a = b.
Proof.
  intros Hn Ha Hb E. destruct (no_conflicts_elem _ _ _ _ Hn Ha Hb) as [|Hc]; [done|]. cbn in Hc.
  by rewrite E, N.eqb_refl in Hc.
Qed.

Lemma ops_step_with_op w w' op op' now : valid w -> op ∈ tbl TOperation w -> op_ID op' = op_ID op ->
  tbl TOperation w' = with_op op' now (tbl TOperation w) ->
  op_step op { (vfsOperationModelFromEntity op') with op_ID := op_ID op; op_CreatedAt := op_CreatedAt op;
               op_UpdatedAt := now } -> ops_step w w'.
Proof.
  intros Hv Hop Hid Et Hstep. eapply ops_step_where; [exact Et|]. intros r Hr E%N.eqb_eq. rewrite Hid in E.
  by rewrite (same_op _ r op (Hv TOperation) Hr Hop E).
Qed.

(** A [Mark...] method makes at most one step of its operation, which it
    returns; an ended operation is returned as it is. *)
Definition marked (stop : VFSOperation -> bool) (status : string) (id : N) (w : World) (res : result GoErr VFSOperation) (w' : World) : Prop :=
  frames [TOperation] w w' /\ ops_step w w' /\
  match res with
  | Ok op' => op' ∈ tbl TOperation w' /\ op_ID op' = id /\
      exists op, op ∈ tbl TOperation w /\ op_ID op = id /\
        if stop op then op' = op /\ tbl TOperation w' = tbl TOperation w else op_step op op' /\ op_Status op' = status
  | Err _ => True
  end.

Lemma wp_marked stop status f id w : valid w ->
  (forall now op, op_ID (f now op) = op_ID op) -> (forall now op, op_Status (f now op) = status) ->
  (forall op at_ now, stop op = false ->
     op_step op { (vfsOperationModelFromEntity (f at_ op)) with op_ID := op_ID op; op_CreatedAt := op_CreatedAt op;
                  op_UpdatedAt := now }) ->
  wp (with_repo repo (operation <-! VFSOperationRepository_FindByID id ;;
        if stop operation then ret operation
        else now <-! time_now ;; store (f now operation))) (marked stop status id w) w.
Proof.
  intros Hv Hf Hst Hstep. apply wp_mark; [done|..].
  - intros e w' Hfr. split; [eapply frames_mono; [done|set_solver]|]. split; [|done].
    apply ops_step_eq. apply (frames_tbl _ _ _ _ Hfr). set_solver.
  - intros op w' Hfr Hop Hid Hs. assert (tbl TOperation w' = tbl TOperation w) as Et
      by (apply (frames_tbl _ _ _ _ Hfr); set_solver).
    split; [eapply frames_mono; [done|set_solver]|]. split; [by apply ops_step_eq|]. rewrite Et.
    split_and!; try done. exists op. by rewrite Hs.
  - intros op at_ now res w' Hfr Hop Hid Hs Et Hres. split; [done|].
    split; [eapply (ops_step_with_op w w' op); [done|done|apply Hf|exact Et|by apply Hstep]|]. destruct res as [op'|]; [|done]. destruct Hres as [Hin Hid'].
    split; [done|]. split; [done|]. exists op. rewrite Hs. split; [done|]. split; [done|].
    assert (op' = { (vfsOperationModelFromEntity (f at_ op)) with op_ID := op_ID op; op_CreatedAt := op_CreatedAt op;
                    op_UpdatedAt := now }) as ->; [|split; [by apply Hstep|apply Hst]].
    rewrite Et in Hin. apply elem_of_set_where in Hin as [(r & Hr & Er%N.eqb_eq & ->)|[Hr Er%N.eqb_neq]].
    + rewrite Hf in Er. by rewrite (same_op _ r op (Hv TOperation) Hr Hop Er).
    + rewrite Hf in Er. congruence.
Qed.

Lemma wp_MarkRunning id worker w : valid w -> wp (MarkRunning repo lockDuration id worker) (marked ended VFSOperationStatusRunning id w) w.
Proof.
  intros Hv. set (worker' := if String.eqb worker "" then "vfs-operation-worker" else worker).
  apply (wp_marked ended VFSOperationStatusRunning (fun now operation => { operation with op_Status := VFSOperationStatusRunning; op_LockedBy := worker';
          op_LockedUntil := Some (now + lockDuration)%Z; op_UpdatedAt := now })); [done..|].
  intros op at_ now Hs. by eapply (step_run _ _ worker' (at_ + lockDuration)%Z).
Qed.
Lemma wp_MarkSucceeded id w : valid w -> wp (MarkSucceeded repo id)
  (marked (fun op => String.eqb (op_Status op) VFSOperationStatusSucceeded) VFSOperationStatusSucceeded id w) w.
Proof.
  intros Hv. apply (wp_marked (fun op => String.eqb (op_Status op) VFSOperationStatusSucceeded) VFSOperationStatusSucceeded
    (fun now operation => { operation with op_Status := VFSOperationStatusSucceeded; op_ErrorCode := ""; op_ErrorMessage := "";
          op_NextRetryAt := None; op_LockedBy := ""; op_LockedUntil := None; op_UpdatedAt := now })); [done..|].
  intros op at_ now Hs%String.eqb_neq. by apply step_succeed.
Qed.
Lemma wp_MarkFailed id err w : valid w -> wp (MarkFailed repo id err) (marked ended VFSOperationStatusFailed id w) w.
Proof.
  intros Hv. apply (wp_marked ended VFSOperationStatusFailed (fun now operation =>
    let retryCount := int_add (op_RetryCount operation) 1 in
    let errorCode := stableVFSOperationErrorCode "" err in
    { operation with op_Status := VFSOperationStatusFailed; op_ErrorCode := errorCode;
          op_ErrorMessage := sanitizeVFSOperationErrorMessage errorCode err; op_RetryCount := retryCount;
          op_NextRetryAt := Some (now + vfsOperationRetryBackoff retryCount)%Z; op_LockedBy := "";
          op_LockedUntil := None; op_UpdatedAt := now })); [done..|].
  intros op at_ now Hs. by apply (step_fail _ _ at_).
Qed.

(** ** Leases *)

(** The first operations of the due ones, by retry time. *)
Definition due_selection (limit due : Z) (l models : list VFSOperation) : Prop :=
  exists all, all ≡ₚ sel (due_filter (due_at due limit) due) l /\
    StronglySorted (fun a b => ord_le due_order a b = true) all /\ models = take (due_limit (due_at due limit)) all.
Definition taken (models : list VFSOperation) (op : VFSOperation) : bool :=
  existsb (N.eqb (op_ID op)) (map op_ID models).
Definition lease (worker : string) (until now : Z) (op : VFSOperation) : VFSOperation :=
  { op with op_Status := VFSOperationStatusRunning; op_LockedBy := worker; op_LockedUntil := Some until;
            op_UpdatedAt := now }.
Definition worker_name (workerID : string) : string :=
  if String.eqb workerID "" then "vfs-operation-worker" else workerID.

Definition acquired (workerID : string) (limit : Z) (l : list VFSOperation) (w w' : World) : Prop :=
  exists models now, due_selection limit (the_time w) (tbl TOperation w) models /\
    tbl TOperation w' = set_where (taken models) (lease (worker_name workerID) (the_time w + lockDuration)%Z now) (tbl TOperation w) /\
    l ≡ₚ sel (taken models) (tbl TOperation w').

Lemma elem_of_taken models op : taken models op = true <-> exists m, m ∈ models /\ op_ID m = op_ID op.
Proof.
  unfold taken. rewrite existsb_exists. split.
  - intros (x & Hx & E%N.eqb_eq). apply in_map_iff in Hx as (m & Em & Hm). exists m. rewrite list_elem_of_In. by rewrite Em.
  - intros (m & Hm & E). exists (op_ID m). rewrite in_map_iff, N.eqb_eq. split; [|done]. exists m. by rewrite <- list_elem_of_In.
Qed.
Lemma due_selection_elem limit due l models m : due_selection limit due l models -> m ∈ models ->
  m ∈ l /\ due_filter (due_at due limit) due m = true.
Proof.
  intros (all & Hp & _ & ->) Hm. apply elem_of_sel. rewrite <- Hp. by apply (limited_subset (Some _)) in Hm.
Qed.
Lemma due_not_ended due limit op : due_filter (due_at due limit) due op = true -> ended op = false.
Proof.
  unfold due_filter, ended. cbn -[String.eqb]. rewrite !andb_true_iff, !orb_true_iff, !String.eqb_eq.
  by intros ((([->|[->|[->|?]]] & _) & _) & _).
Qed.

Lemma wp_select_due now limit (Q : result GoErr (list VFSOperation) -> World -> Prop) w : now <> 0%Z ->
  on_failure w Q ->
  (forall models w', same w w' -> due_selection limit now (tbl TOperation w) models -> Q (Ok models) w') ->
  wp (select_due (due_at now limit)) Q w.
Proof.
  intros Hn He Hk. unfold select_due. cbn [df_DueBefore due_at]. destruct (Z.eqb_spec now 0) as [|_]; [done|].
  apply wp_bind, wp_ret, (wp_select TOperation); [done|]. intros all w' Hs Hp Ho. apply Hk; [done|]. by exists all.
Qed.

(** The body of the transaction. *)
Lemma wp_take_due (worker : string) until now limit (Q : result GoErr (list VFSOperation) -> World -> Prop) w : now <> 0%Z ->
  (forall e w', frames [TOperation] w w' -> Q (Err e) w') ->
  (forall l models t w', frames [TOperation] w w' -> due_selection limit now (tbl TOperation w) models ->
     tbl TOperation w' = set_where (taken models) (lease worker until t) (tbl TOperation w) ->
     l ≡ₚ sel (taken models) (tbl TOperation w') -> Q (Ok l) w') ->
  wp (models <-! select_due (due_at now limit) ;;
      match models with
      | [] => ret []
      | _ => now <-! time_now ;;
          do! stmt (db_update TOperation (taken models) (fun r =>
            { r with op_Status := VFSOperationStatusRunning; op_LockedBy := worker; op_LockedUntil := Some until;
                     op_UpdatedAt := now })) ;;
          stmt (db_select TOperation (taken models) due_order None)
      end) Q w.
Proof.
  intros Hn He Hk. apply wp_bind, wp_select_due; [done|intros e w' Hs _; by apply He, same_frames|].
  intros models w1 Hs1 Hsel. destruct models as [|m models'] eqn:Em.
  { apply wp_ret, (Hk [] [] 0%Z); [by apply same_frames|done| |].
    - rewrite set_where_none by done. apply Hs1.
    - induction (tbl TOperation w1); done. }
  rewrite <- Em in *. clear Em m models'. apply wp_bind, wp_time_now. set (w2 := { w1 with w_reads ::= S }).
  assert (frames [TOperation] w w2) as Hf2 by (eapply frames_trans; [by apply same_frames|apply tick_frames]).
  apply wp_bind, (wp_update TOperation); [intros e w3 Hs3 _; apply He; by eapply frames_same|].
  intros t w3 l Hnc Hp. assert (frames [TOperation] w w3) as Hf3 by (eapply frames_trans; [done|]; by eapply put_frames).
  apply (wp_select TOperation); [intros e w4 Hs4 _; apply He; by eapply frames_same|]. intros all w4 Hs4 Hperm _.
  assert (tbl TOperation w4 = set_where (taken models) (lease worker until t) (tbl TOperation w)) as Et.
  { destruct Hs4 as [-> _]. destruct Hp as [-> _]. unfold l. change (tbl TOperation w2) with (tbl TOperation w1).
    by destruct Hs1 as [-> _]. }
  apply (Hk _ models t); [by eapply frames_same|done|exact Et|]. cbn [limited]. rewrite Hperm. by destruct Hs4 as [-> _].
Qed.

Lemma wp_AcquireDue workerID limit (Q : result GoErr (list VFSOperation) -> World -> Prop) w :
  the_time w <> 0%Z -> (the_time w + lockDuration)%Z <> 0%Z ->
  (forall e w', frames [] w w' -> Q (Err e) w') ->
  (forall l w', frames [TOperation] w w' -> acquired workerID limit l w w' -> Q (Ok l) w') ->
  wp (AcquireDue repo lockDuration workerID limit) Q w.
Proof.
  intros Hn Hl He Hk. unfold AcquireDue, with_repo. destruct repo; [|apply He, frames_refl].
  apply wp_bind, wp_time_now. unfold VFSOperationRepository_AcquireDue. cbn [lk_LockedUntil lk_WorkerID].
  destruct (Z.eqb_spec (the_time w + lockDuration) 0) as [|_]; [done|]. apply wp_bind, wp_ret.
  set (w1 := { w with w_reads ::= S }). pose proof (tick_frames [] w : frames [] w w1) as Hf1.
  assert (forall w2 w3 : World, frames [TOperation] w1 w2 -> (forall t, tbl t w3 = tbl t w1) -> w_clock w3 = w_clock w2 ->
    w_reads w3 = w_reads w2 -> frames [] w w3) as Hback.
  { intros w2 w3 (_ & _ & Hc & Hr) Ht Hc' Hr'. split_and!; [intros; apply Ht|intros Hv t; rewrite Ht; apply Hv|by rewrite Hc', Hc|].
    rewrite Hr'. cbn in Hr. lia. }
  apply wp_transaction; [intros; apply raw_db_error|]. apply wp_take_due; [done|..].
  - intros e w2 Hf2 w3 Ht Hc Hr. apply He. by eapply Hback.
  - intros l models t w2 Hf2 Hsel Et Hl'. split.
    + intros w3 Hs3. apply Hk; [eapply frames_same; [eapply frames_trans; [|done]; apply tick_frames|done]|].
      exists models, t. destruct Hs3 as [-> _]. done.
    + intros e w3 Ht Hc Hr _. apply He. by eapply Hback.
Qed.

Lemma acquired_step workerID limit l w w' : valid w -> acquired workerID limit l w w' -> ops_step w w'.
Proof.
  intros Hv (models & now & Hsel & Et & _). eapply ops_step_where; [exact Et|]. intros op Hop (m & Hm & E)%elem_of_taken.
  destruct (due_selection_elem _ _ _ _ _ Hsel Hm) as [Hin Hdue].
  rewrite <- (same_op _ m op (Hv TOperation) Hin Hop E). apply due_not_ended in Hdue. by eapply step_run.
Qed.
End Rules.

(** ** Histories *)
Section Histories.
Context `{DatabaseLaws} `{JsonDecoder} (repo : bool) (lockDuration : Z) (Hlock : (0 < lockDuration)%Z).
Implicit Types w : World.

(** A world with a clock past the zero time. *)
Definition running w : Prop := valid w /\ forall n, (0 < w_clock w n)%Z.
(** Every operation evolves by steps, and new ones are appended. *)
Definition ops_advance w w' : Prop :=
  exists l more, tbl TOperation w' = l ++ more /\ Forall2 (rtc op_step) (tbl TOperation w) l.
Definition advances w w' : Prop := running w -> running w' /\ ops_advance w w'.
(** A processor that leaves the journal alone. *)
Definition quiet (p : VFSOperationProcessor) : Prop :=
  forall op w, wp (p op) (fun _ w' => exists ts, TOperation ∉ ts /\ frames ts w w') w.

Lemma running_frames ts w w' : frames ts w w' -> running w -> running w'.
Proof. intros (_ & Hv & Hc & _) [Hw Hn]. split; [auto|]. by rewrite Hc. Qed.
Lemma ops_advance_step w w' : ops_step w w' -> ops_advance w w'.
Proof.
  intros Hs. exists (tbl TOperation w'), []. rewrite app_nil_r. split; [done|]. eapply Forall2_impl; [exact Hs|].
  intros a b [->|Hab]; [apply rtc_refl|by apply rtc_once].
Qed.
Lemma ops_advance_eq w w' : tbl TOperation w' = tbl TOperation w -> ops_advance w w'.
Proof. intros E. by apply ops_advance_step, ops_step_eq. Qed.
Lemma ops_advance_trans w1 w2 w3 : ops_advance w1 w2 -> ops_advance w2 w3 -> ops_advance w1 w3.
Proof.
  intros (l & more & E & Hl) (l' & more' & E' & Hl'). rewrite E in Hl'.
  apply Forall2_app_inv_l in Hl' as (la & lb & Ha & Hb & ->). exists la, (lb ++ more'). rewrite E'.
  split; [by rewrite app_assoc|]. by etrans.
Qed.
Lemma advances_trans w1 w2 w3 : advances w1 w2 -> advances w2 w3 -> advances w1 w3.
Proof.
  intros H12 H23 Hr. destruct (H12 Hr) as [Hr2 Ha]. destruct (H23 Hr2) as [Hr3 Hb]. split; [done|]. by eapply ops_advance_trans.
Qed.
Lemma advances_frames ts w w' : frames ts w w' -> TOperation ∉ ts -> advances w w'.
Proof.
  intros Hf Ht Hr. split; [by eapply running_frames|]. apply ops_advance_eq. by apply (frames_tbl ts).
Qed.
Lemma advances_marked stop st id w res w' : (running w -> marked stop st id w res w') -> advances w w'.
Proof.
  intros Hm Hr. destruct (Hm Hr) as (Hf & Hs & _). split; [by eapply running_frames|by apply ops_advance_step].
Qed.

(** A succeeded operation stays as it is. *)
Lemma advance_succeeded w w' op : ops_advance w w' -> op ∈ tbl TOperation w ->
  op_Status op = VFSOperationStatusSucceeded -> op ∈ tbl TOperation w'.
Proof.
  intros (l & more & -> & Hl) Hop Hs. apply elem_of_app. left.
  apply list_elem_of_lookup in Hop as [i Hi]. destruct (Forall2_lookup_l _ _ _ _ _ Hl Hi) as (op' & Hi' & Hst).
  assert (op' = op) as ->; [|by eapply list_elem_of_lookup_2]. inversion Hst as [|? y ? Hxy]; [done|].
  by apply op_step_not_succeeded in Hxy.
Qed.

Lemma wp_record input status w : wp (record repo input status) (fun _ w' => advances w w') w.
Proof.
  assert (forall w', frames [] w w' -> advances w w') as Hf by (intros w' Hf; eapply advances_frames; [done|set_solver]).
  unfold record, with_repo. destruct repo; [|apply Hf, frames_refl]. destruct (negb _); [apply Hf, frames_refl|].
  apply wp_bind, wp_time_now. set (w1 := { w with w_reads ::= S }).
  assert (frames [] w w1) as Hf1 by apply tick_frames. apply wp_bind, wp_lift_result.
  destruct (normalizeVFSOperationPayload _ _); [|by apply Hf]. apply (wp_insert TOperation).
  { intros e w2 Hs _. apply Hf. by eapply frames_same. }
  intros id now w2 r _ Habs Hp Hr.
  assert (frames [TOperation] w1 w2) as Hf2 by (apply (put_frames _ _ _ _ Hp); intros Hv; by apply absent_no_conflicts).
  split.
  - apply (running_frames [TOperation] w); [|exact Hr]. eapply frames_trans; [|exact Hf2].
    eapply frames_mono; [exact Hf1|set_solver].
  - exists (tbl TOperation w), [r]. split; [by destruct Hp as [-> _]|]. apply Forall_Forall2_diag, Forall_forall.
    intros; apply rtc_refl.
Qed.

Lemma wp_AcquireDue_running workerID limit (Q : result GoErr (list VFSOperation) -> World -> Prop) w : running w ->
  (forall e w', frames [] w w' -> Q (Err e) w') ->
  (forall l w', frames [TOperation] w w' -> acquired lockDuration workerID limit l w w' -> Q (Ok l) w') ->
  wp (AcquireDue repo lockDuration workerID limit) Q w.
Proof.
  intros [_ Hc] He Hk. specialize (Hc (w_reads w)). unfold the_time.
  apply wp_AcquireDue; [unfold the_time; lia..|done|done].
Qed.

(** Processing one operation: it is marked, and without an error it has
    succeeded. *)
Lemma wp_process_one p op joined w : quiet p -> running w ->
  wp (process_one repo p op joined) (fun res w' => advances w w' /\ match res with
    | Ok None => joined = None /\ exists op', op' ∈ tbl TOperation w' /\ op_ID op' = op_ID op /\
                                   op_Status op' = VFSOperationStatusSucceeded
    | Ok (Some _) => True | Err _ => False end) w.
Proof.
  intros Hq Hr. unfold process_one. apply wp_bind_or. eapply wp_mono; [apply Hq|]. intros res w1 (ts & Hts & Hf).
  assert (advances w w1) as Hadv by by eapply advances_frames. pose proof (proj1 (Hadv Hr)) as Hr1. destruct res as [u|e].
  - apply wp_bind_or. eapply wp_mono; [apply (wp_MarkSucceeded repo (op_ID op) w1), Hr1|]. intros res w2 Hm.
    assert (advances w w2) as Hadv2 by (eapply advances_trans; [done|by eapply advances_marked]).
    destruct Hm as (_ & _ & Hres). destruct res as [op'|e]; apply wp_ret; (split; [done|]); [|done].
    destruct joined; [done|]. split; [done|]. destruct Hres as (Hin & Hid & old & _ & _ & Hst). exists op'.
    split_and!; [done|done|]. destruct (String.eqb_spec (op_Status old) VFSOperationStatusSucceeded) as [E|E];
      [by destruct Hst as [-> _]|apply Hst].
  - apply wp_bind_or. eapply wp_mono; [apply (wp_MarkFailed repo (op_ID op) (Some e) w1), Hr1|]. intros res w2 Hm.
    assert (advances w w2) as Hadv2 by (eapply advances_trans; [done|by eapply advances_marked]).
    by destruct res; apply wp_ret.
Qed.

Definition succeeded_in w (op : VFSOperation) : Prop :=
  exists op', op' ∈ tbl TOperation w /\ op_ID op' = op_ID op /\ op_Status op' = VFSOperationStatusSucceeded.

Lemma wp_process_all p ops joined w : quiet p -> running w ->
  wp (process_all repo p ops joined) (fun res w' => advances w w' /\ match res with
    | Ok None => joined = None /\ Forall (succeeded_in w') ops
    | Ok (Some _) => True | Err _ => False end) w.
Proof.
  intros Hq. revert joined w. induction ops as [|op ops IH]; intros joined w Hr.
  { apply wp_ret. split; [by apply (advances_frames []); [apply frames_refl|set_solver]|]. destruct joined; [done|]. by split. }
  apply wp_bind. eapply wp_mono; [by apply wp_process_one|]. intros [j|e] w1 [Hadv Hj]; [|done].
  pose proof (proj1 (Hadv Hr)) as Hr1. eapply wp_mono; [by apply IH|]. intros [[j'|]|e] w2 [Hadv2 Hj']; [| |done];
    (split; [by eapply advances_trans|]); [done|]. destruct Hj' as [-> Hall]. destruct Hj as [-> (op' & Hin & Hid & Hs)].
  split; [done|]. constructor; [|done]. exists op'. split_and!; [|done|done].
  by eapply advance_succeeded; [apply Hadv2|exact Hin|exact Hs].
Qed.

Inductive JournalEvent : Type :=
| EvPending (input : VFSOperationRecordInput)
| EvFailure (input : VFSOperationRecordInput)
| EvRunning (id : N) (worker : string)
| EvSucceeded (id : N)
| EvFailed (id : N) (err : option GoErr)
| EvAcquire (worker : string) (limit : Z)
| EvProcess (worker : string) (limit : Z) (processor : option VFSOperationProcessor).
Definition run_event w (ev : JournalEvent) : World :=
  match ev with
  | EvPending input => snd (RecordPending repo input w)
  | EvFailure input => snd (RecordFailure repo input w)
  | EvRunning id worker => snd (MarkRunning repo lockDuration id worker w)
  | EvSucceeded id => snd (MarkSucceeded repo id w)
  | EvFailed id err => snd (MarkFailed repo id err w)
  | EvAcquire worker limit => snd (AcquireDue repo lockDuration worker limit w)
  | EvProcess worker limit processor => snd (ProcessDue repo lockDuration worker limit processor w)
  end.
Definition event_quiet (ev : JournalEvent) : Prop :=
  match ev with EvProcess _ _ (Some p) => quiet p | _ => True end.

Lemma wp_AcquireDue_advances worker limit w : running w ->
  wp (AcquireDue repo lockDuration worker limit) (fun res w' => advances w w' /\ match res with
    | Ok l => acquired lockDuration worker limit l w w' | Err _ => True end) w.
Proof.
  intros Hr. apply wp_AcquireDue_running; [done|..].
  - intros e w' Hf. split; [|done]. eapply advances_frames; [done|set_solver].
  - intros l w' Hf Ha. split; [|done]. intros _. split; [by eapply running_frames|]. apply ops_advance_step.
    eapply acquired_step; [apply Hr|done].
Qed.

Lemma run_event_advances w ev : event_quiet ev -> running w -> running (run_event w ev) /\ ops_advance w (run_event w ev).
Proof.
  intros Hq Hr. destruct ev as [input|input|id worker|id|id err|worker limit|worker limit [p|]]; cbn.
  - by apply (wp_record input VFSOperationStatusPending w).
  - assert (wp (RecordFailure repo input) (fun _ w' => advances w w') w) as Hw; [|by apply Hw].
    unfold RecordFailure. apply wp_bind. destruct (ri_NextRetryAt input); [apply wp_ret, wp_record|].
    apply wp_bind, wp_time_now, wp_ret. eapply wp_mono; [apply wp_record|]. intros ? w2 Ha.
    eapply advances_trans; [|exact Ha]. eapply (advances_frames []); [apply tick_frames|set_solver].
  - exact (advances_marked _ _ _ w _ _ (fun _ => wp_MarkRunning repo lockDuration id worker w (proj1 Hr)) Hr).
  - exact (advances_marked _ _ _ w _ _ (fun _ => wp_MarkSucceeded repo id w (proj1 Hr)) Hr).
  - exact (advances_marked _ _ _ w _ _ (fun _ => wp_MarkFailed repo id err w (proj1 Hr)) Hr).
  - exact (proj1 (wp_AcquireDue_advances worker limit w Hr) Hr).
  - assert (wp (ProcessDue repo lockDuration worker limit (Some p)) (fun _ w' => advances w w') w) as Hw; [|by apply Hw].
    apply wp_bind. eapply wp_mono; [by apply wp_AcquireDue_advances|]. intros [l|e] w1 [Ha _]; [|done].
    apply wp_bind. eapply wp_mono; [apply wp_process_all; [done|by apply Ha]|].
    intros [j|e] w2 [Hb Hj]; [|done]. apply wp_ret. by eapply advances_trans.
  - split; [done|]. by apply ops_advance_eq.
Qed.

(** C34: through any sequence of recordings, acquisitions, marks and worker
    rounds, whether or not each of them fails half-way, every recorded
    operation stays in its place and evolves only by the steps run, succeed
    and fail - so its request, its creation and its place never change,
    retries are counted one by one, and once succeeded it is final. *)
Theorem journal_history evs w (Hrunning : running w) (Hquiet : Forall event_quiet evs) :
  ops_advance w (fold_left run_event evs w) /\
  forall op, op ∈ tbl TOperation w -> op_Status op = VFSOperationStatusSucceeded ->
    op ∈ tbl TOperation (fold_left run_event evs w).
Proof.
  assert (ops_advance w (fold_left run_event evs w)) as Ha.
  { revert w Hrunning. induction Hquiet as [|ev evs Hev _ IH]; intros w Hr; cbn; [by apply ops_advance_eq|].
    destruct (run_event_advances w ev Hev Hr) as [Hr1 Ha1]. eapply ops_advance_trans; [exact Ha1|]. by apply IH. }
  split; [done|]. intros op Hop Hs. by eapply advance_succeeded.
Qed.

(** A worker round counts the operations it acquired; without an error
    to report, every one of them has succeeded. *)
Theorem process_due_success worker limit p w (Hrunning : running w) (Hquiet : quiet p) :
  match ProcessDue repo lockDuration worker limit (Some p) w with
  | (Ok (n, joined), w') => exists ops w1,
      AcquireDue repo lockDuration worker limit w = (Ok ops, w1) /\ n = Z.of_nat (length ops) /\
      (joined = None -> forall op, op ∈ ops -> succeeded_in w' op)
  | (Err e, w') => tbl TOperation w' = tbl TOperation w
  end.
Proof.
  unfold ProcessDue, bind. assert (wp (AcquireDue repo lockDuration worker limit)
    (fun res w' => running w' /\ match res with Ok _ => True | Err _ => tbl TOperation w' = tbl TOperation w end) w) as Ha.
  { apply wp_AcquireDue_running; [done|..].
    - intros e w' Hf. split; [by eapply running_frames|]. apply (frames_tbl _ _ _ _ Hf). set_solver.
    - intros l w' Hf _. split; [by eapply running_frames|done]. }
  unfold wp in Ha. destruct (AcquireDue _ _ _ _ w) as [[ops|e] w1]; cbn in Ha; [|by apply Ha].
  pose proof (wp_process_all p ops None w1 Hquiet (proj1 Ha)) as Hp. unfold wp in Hp.
  destruct (process_all repo p ops None w1) as [[joined|e] w2]; cbn in Hp; [|by destruct Hp].
  unfold ret. exists ops, w1. split_and!; [done|done|]. intros ->. destruct Hp as (_ & _ & Hall).
  by apply Forall_forall.
Qed.

Lemma in_lease l models w w1 op worker : acquired lockDuration worker l models w w1 -> op ∈ models ->
  op_LockedUntil op = Some (the_time w + lockDuration)%Z.
Proof.
  intros (ms & now & _ & Et & Hl) Hop. rewrite Hl in Hop. apply elem_of_sel in Hop as [Hop Ht].
  rewrite Et in Hop. by apply elem_of_set_where in Hop as [(y & _ & _ & ->)|[_ Hn]]; [|congruence].
Qed.

(** C7: leases are exclusive: an operation a worker acquired is not
    acquired by any worker before the lease ends, as long as it has not
    been marked in the meantime, whatever else happened. *)
Theorem lease_exclusive worker1 limit1 worker2 limit2 w w2 (Hrunning : running w) (Hrunning2 : running w2) :
  match AcquireDue repo lockDuration worker1 limit1 w with
  | (Ok l1, w1) =>
      forall op, op ∈ l1 -> op ∈ tbl TOperation w2 -> (the_time w2 < the_time w + lockDuration)%Z ->
        match AcquireDue repo lockDuration worker2 limit2 w2 with
        | (Ok l2, _) => forall op2, op2 ∈ l2 -> op_ID op2 <> op_ID op
        | (Err _, _) => True
        end
  | (Err _, _) => True
  end.
Proof.
  pose proof (wp_AcquireDue_advances worker1 limit1 w Hrunning) as H1'. unfold wp in H1'.
  destruct (AcquireDue _ _ worker1 _ w) as [[l1|] w1]; [|done]. destruct H1' as [_ H1']. intros op Hop Hin Ht.
  pose proof (wp_AcquireDue_advances worker2 limit2 w2 Hrunning2) as H2'. unfold wp in H2'.
  destruct (AcquireDue _ _ worker2 _ w2) as [[l2|] w3]; [|done]. destruct H2' as [_ (ms & now & Hsel & Et & Hl)].
  intros op2 Hop2 E. cbn [fst snd] in *. rewrite Hl in Hop2. apply elem_of_sel in Hop2 as [_ (m & Hm & Em)%elem_of_taken].
  destruct (due_selection_elem _ _ _ _ _ Hsel Hm) as [Hm' Hdue].
  rewrite (same_op _ m op (proj1 Hrunning2 TOperation) Hm' Hin) in Hdue by congruence.
  unfold due_filter in Hdue. rewrite !andb_true_iff in Hdue. destruct Hdue as [_ Hdue].
  cbn [df_IncludeLocked due_at orb] in Hdue. rewrite (in_lease _ _ _ _ _ _ H1' Hop) in Hdue. cbn in Hdue. lia.
Qed.

(** An acquisition takes the first due operations by retry time, up to
    the limit (100 when it is out of range), puts them in the running state
    under the worker's lease, leaves every other operation and returns
    those it took; a failed one changes nothing. *)
Theorem acquire_due_spec worker limit w (Hrunning : running w) :
  match AcquireDue repo lockDuration worker limit w with
  | (Ok l, w') => frames [TOperation] w w' /\ acquired lockDuration worker limit l w w'
  | (Err e, w') => frames [] w w'
  end.
Proof.
  assert (wp (AcquireDue repo lockDuration worker limit) (fun res w' => match res with
    | Ok l => frames [TOperation] w w' /\ acquired lockDuration worker limit l w w' | Err _ => frames [] w w' end) w) as Ha
    by (apply wp_AcquireDue_running; auto).
  unfold wp in Ha. by destruct (AcquireDue _ _ _ _ w) as [[]].
Qed.
End Histories.

(** ** A concrete system *)
#[local] Existing Instances Mem.database Mem.laws.
Module JournalExample.
#[export] Instance decoder : JsonDecoder := fun s => if String.eqb s "{}" then Some [] else None.
Definition op (id : N) (status : string) (retry until : option Z) : VFSOperation :=
  {| op_ID := id; op_OperationType := "move"; op_Status := status; op_SourceNodeID := None;
     op_TargetParentNodeID := None; op_ResultNodeID := None; op_SourcePathSnapshot := "/a"; op_TargetPathSnapshot := "/b";
     op_SourceIDSnapshot := None; op_DriverTypeSnapshot := "local"; op_PayloadJSON := "{}"; op_ErrorCode := "";
     op_ErrorMessage := ""; op_RetryCount := 0; op_NextRetryAt := retry; op_LockedBy := ""; op_LockedUntil := until;
     op_CreatedBy := None; op_CreatedAt := 1; op_UpdatedAt := 1 |}.
Definition ops : list VFSOperation :=
  [op 1 "pending" None None; op 2 "failed" (Some 900%Z) None; op 3 "succeeded" None None; op 4 "running" None (Some 5000%Z);
   op 5 "failed" (Some 9000%Z) None; op 6 "canceled" None None].
Definition world : World := mem_world (Mem.set_rows TOperation ops { Mem.init with Mem.m_serial := 6%N }).
Definition ok_processor : VFSOperationProcessor := fun _ => ret tt.
Lemma journal_running : running world.
Proof. split; [intros []; reflexivity|]. intros n. cbn. lia. Qed.
Lemma ok_quiet : quiet ok_processor.
Proof. intros o w. exists []. split; [set_solver|apply frames_refl]. Qed.
Definition input : VFSOperationRecordInput :=
  {| ri_OperationType := "copy"; ri_SourceNodeID := None; ri_TargetParentNodeID := None; ri_ResultNodeID := None;
     ri_SourcePathSnapshot := " /a "; ri_TargetPathSnapshot := "C:\x"; ri_SourceIDSnapshot := None;
     ri_DriverTypeSnapshot := ""; ri_Payload := Some [("Token", PString "t"); ("n", PList [PScalar (JNum 1); PString "/etc/x"])];
     ri_PayloadJSON := ""; ri_ErrorCode := ""; ri_Error := Some ErrVFSSyncConflict; ri_CreatedBy := None;
     ri_NextRetryAt := None |}.
End JournalExample.
#[local] Existing Instance JournalExample.decoder.

Example record_failure_ex :
  let '(res, _) := RecordFailure true JournalExample.input JournalExample.world in
  match res with
  | Ok o => op_PayloadJSON o = "{" +:+ quote "Token" +:+ ":" +:+ quote "[redacted]" +:+ "," +:+ quote "n" +:+ ":[1," +:+
                               quote "[redacted]" +:+ "]}" /\
            op_TargetPathSnapshot o = "" /\ op_SourcePathSnapshot o = "/a" /\ op_ErrorCode o = "VFS_SYNC_CONFLICT" /\
            op_NextRetryAt o = Some (1000 + minute)%Z
  | Err _ => False
  end.
Proof. vm_compute. by split_and!. Qed.

Lemma acquire_due_spec_witness :
  let run := AcquireDue true 100 "w" 10 JournalExample.world in
  match fst run with Ok l => map op_ID l | Err _ => [] end = [1; 2]%N /\ frames [TOperation] JournalExample.world (snd run).
Proof.
  intros run. assert (match fst run with Ok l => map op_ID l | Err _ => [] end = [1; 2]%N) as E by (vm_compute; reflexivity).
  split; [exact E|].
  pose proof (acquire_due_spec true 100 eq_refl "w" 10 JournalExample.world JournalExample.journal_running) as Hs.
  fold run in Hs. destruct run as [[l|e] w']; [|discriminate E]. apply Hs.
Defined.

Lemma lease_exclusive_witness :
  let run1 := AcquireDue true 100 "a" 10 JournalExample.world in
  let w2 := snd run1 in
  is_ok (fst run1) = true /\ (the_time w2 < 1100)%Z /\
  match fst run1 with
  | Ok l1 => match AcquireDue true 100 "b" 10 w2 with
             | (Ok l2, _) => forall a, a ∈ l1 -> a ∈ tbl TOperation w2 -> forall b, b ∈ l2 -> op_ID b <> op_ID a
             | (Err _, _) => False end
  | Err _ => False end.
Proof.
  intros run1 w2. assert (is_ok (fst run1) = true) as Hok by (vm_compute; reflexivity).
  assert (the_time w2 < 1100)%Z as Ht by (vm_compute; reflexivity).
  assert (is_ok (fst (AcquireDue true 100 "b" 10 w2)) = true) as Hok2 by (vm_compute; reflexivity).
  split; [exact Hok|]. split; [exact Ht|].
  assert (running w2) as Hr2.
  { pose proof (acquire_due_spec true 100 eq_refl "a" 10 JournalExample.world JournalExample.journal_running) as Hs.
    fold run1 in Hs. subst w2. destruct run1 as [[l|e] w']; [|discriminate Hok].
    eapply running_frames; [apply Hs|apply JournalExample.journal_running]. }
  pose proof (lease_exclusive true 100 eq_refl "a" 10 "b" 10 JournalExample.world w2 JournalExample.journal_running Hr2) as Hs.
  fold run1 in Hs. change (the_time JournalExample.world + 100)%Z with 1100%Z in Hs.
  destruct run1 as [[l1|e] w1]; [|discriminate Hok]. cbn [fst snd] in *.
  destruct (AcquireDue true 100 "b" 10 w2) as [[l2|e] w3]; [|discriminate Hok2].
  intros a Ha Ha' b Hb. exact (Hs a Ha Ha' Ht b Hb).
Defined.

Lemma process_due_success_witness :
  let run := ProcessDue true 100 "w" 10 (Some JournalExample.ok_processor) JournalExample.world in
  fst run = Ok (2%Z, None) /\ exists ops, length ops = 2 /\ forall op, op ∈ ops -> succeeded_in (snd run) op.
Proof.
  intros run. assert (fst run = Ok (2%Z, None)) as E by (vm_compute; reflexivity). split; [exact E|].
  pose proof (process_due_success true 100 eq_refl "w" 10 JournalExample.ok_processor JournalExample.world
    JournalExample.journal_running JournalExample.ok_quiet) as Hs.
  fold run in Hs. destruct run as [[[n joined]|e] w']; [|discriminate E]. injection E as -> ->.
  destruct Hs as (ops & w1 & _ & En & Hall). exists ops. split; [lia|]. by apply Hall.
Defined.

Lemma journal_history_witness :
  let evs := [EvAcquire "w" 10; EvFailed 1 (Some ErrVFSSyncConflict); EvSucceeded 2; EvRunning 3 "x"; EvPending JournalExample.input;
              EvProcess "w" 10 (Some JournalExample.ok_processor)] in
  let w := fold_left (run_event true 100) evs JournalExample.world in
  map op_Status (tbl TOperation w) =
    ["failed"; "succeeded"; "succeeded"; "running"; "failed"; "canceled"; "succeeded"] /\
  ops_advance JournalExample.world w.
Proof.
  intros evs w. split; [vm_compute; reflexivity|].
  assert (Forall event_quiet evs) as Hq by (repeat constructor; apply JournalExample.ok_quiet).
  exact (proj1 (journal_history true 100 eq_refl evs JournalExample.world JournalExample.journal_running Hq)).
Defined.

(** A canceled operation can still be marked succeeded. *)
Theorem canceled_overridden :
  map op_Status (take 1 (drop 5 (tbl TOperation (snd (MarkSucceeded true 6 JournalExample.world))))) = ["succeeded"].
Proof. vm_compute. reflexivity. Qed.
