(* ===== verification/Users.v ===== *)
(** * User administration

    The whole of [user_service.go]: listing, creation, update, password reset and token
    revocation of users by an administrator. *)
From S2P Require Import Prelude Ints GoStrings Entities Permission Tables Db Auditing Repos.
From stdpp Require Import base list strings sets.
From Stdlib Require Import ZArith Lia.

Local Open Scope string_scope.
Local Open Scope list_scope.
Local Open Scope go_scope.

(** ** The password hasher and the time format

    bcrypt and [time.Format] are the environment's. *)
Class PasswordHasher `{Database} := {
  Hash : string -> M GoErr World string;
  Compare : string -> string -> bool
}.
Class PasswordHasherLaws `{PasswordHasher} : Prop := {
  hash_law : forall password w, wp (Hash password) (fun res w' => same w w' /\
    match res with Ok h => Compare h password = true | Err e => e <> ErrNotFound end) w
}.
Class TimeFormat := rfc3339 : Z -> string.

(** ** [dto/user_admin.go] *)
Record UserListQuery := { ulq_Page : Z; ulq_PageSize : Z; ulq_Keyword : string; ulq_Status : string }.
Record UserAdminView := {
  uv_ID : N; uv_Username : string; uv_Email : string; uv_RoleKey : string; uv_Status : string;
  uv_LastLoginAt : option string; uv_CreatedAt : string
}.
Record CreateUserRequest := { cu_Username : string; cu_Password : string; cu_Email : string; cu_RoleKey : string }.
Record UpdateUserRequest := { uu_Email : string; uu_RoleKey : string; uu_Status : string }.
Record ResetUserPasswordRequest := { rp_NewPassword : string }.
Record RevokeUserTokensResponse := { rv_ID : N; rv_Revoked : bool }.

(** ** [user_service.go] *)
Definition normalizeInputRoleKey (roleKey : string) : result GoErr string :=
  let roleKey := trim_space roleKey in
  if negb (IsValidRole roleKey) then Err ErrUserRoleInvalid else Ok roleKey.

Definition normalizeInputStatus (status : string) : result GoErr string :=
  let status := trim_space status in
  if negb (IsValidStatus status) then Err ErrUserStatusInvalid else Ok status.

Section UserService.
Context `{PasswordHasher} `{TimeFormat}.
(** Whether the service was built with an audit recorder. *)
Context (auditRecorder : bool).

Definition toUserAdminView (user : User) : UserAdminView :=
  {| uv_ID := u_ID user; uv_Username := u_Username user; uv_Email := u_Email user;
     uv_RoleKey := u_RoleKey user; uv_Status := u_Status user; uv_LastLoginAt := None;
     uv_CreatedAt := rfc3339 (u_CreatedAt user) |}.

Definition UserService_List (query : UserListQuery) : M GoErr World (list UserAdminView) :=
  if negb (String.eqb (ulq_Status query) "") && negb (IsValidStatus (trim_space (ulq_Status query)))
  then throw ErrUserStatusInvalid
  else
    items <-! UserRepository_List {| ulf_Keyword := trim_space (ulq_Keyword query);
                                    ulf_Status := trim_space (ulq_Status query) |} ;;
    r <-! lift_result (paginateItems (map toUserAdminView items) (ulq_Page query) (ulq_PageSize query)) ;;
    ret (fst (fst r)).

Definition UserService_Create (ctx : Ctx) (req : CreateUserRequest) : M GoErr World UserAdminView :=
  actor <-! lift_result (currentRequestAuth ctx) or _e => throw ErrPermissionDenied ;;
  roleKey <-! lift_result (normalizeInputRoleKey (cu_RoleKey req)) or err =>
    refuse auditRecorder ctx (event "user" "create" ResultFailed "USER_ROLE_INVALID" "") err ;;
  if negb (CanAssignRole (ra_RoleKey actor) roleKey) then
    refuse auditRecorder ctx { (event "user" "create" ResultDenied "ROLE_ASSIGNMENT_FORBIDDEN" "")
                 with ev_Detail := [("target_role_key", JStr roleKey)] } ErrRoleAssignmentForbidden
  else
  found <-! (u <-! UserRepository_FindByUsername (cu_Username req) or err =>
              (if err_is err ErrNotFound then ret false
               else refuse auditRecorder ctx (event "user" "create" ResultFailed "INTERNAL_ERROR" "") err) ;;
            ret true) ;;
  if (found : bool) then
    refuse auditRecorder ctx (event "user" "create" ResultFailed "USER_NAME_CONFLICT" "") ErrUserNameConflict
  else
  passwordHash <-! Hash (cu_Password req) or err =>
    refuse auditRecorder ctx (event "user" "create" ResultFailed "INTERNAL_ERROR" "") err ;;
  let user := {| u_ID := 0; u_Username := cu_Username req; u_Email := cu_Email req;
                 u_PasswordHash := passwordHash; u_RoleKey := roleKey; u_Status := StatusActive;
                 u_TokenVersion := 0; u_CreatedAt := 0; u_UpdatedAt := 0 |} in
  user <-! UserRepository_Create user or err =>
    refuse auditRecorder ctx (event "user" "create" ResultFailed "INTERNAL_ERROR" "") err ;;
  let view := toUserAdminView user in
  do! recordServiceAudit ctx auditRecorder
    { (event "user" "create" ResultSuccess "" (encodeUintID (u_ID user)))
      with ev_After := userAuditView user } ;;
  ret view.

Definition countActiveSuperAdmins : M GoErr World Z :=
  users <-! UserRepository_List {| ulf_Keyword := ""; ulf_Status := StatusActive |} ;;
  ret (Z.of_nat (length (sel (fun item => String.eqb (u_RoleKey item) RoleSuperAdmin) users))).

Definition UserService_Update (ctx : Ctx) (id : N) (req : UpdateUserRequest) : M GoErr World UserAdminView :=
  actor <-! lift_result (currentRequestAuth ctx) or _e => throw ErrPermissionDenied ;;
  user <-! UserRepository_FindByID id or err =>
    refuse auditRecorder ctx (event "user" "update" ResultFailed "USER_NOT_FOUND" (encodeUintID id)) err ;;
  let before := userAuditView user in
  nextRoleKey <-! lift_result (normalizeInputRoleKey (uu_RoleKey req)) or err =>
    refuse auditRecorder ctx { (event "user" "update" ResultFailed "USER_ROLE_INVALID" (encodeUintID id))
                 with ev_Before := before } err ;;
  nextStatus <-! lift_result (normalizeInputStatus (uu_Status req)) or err =>
    refuse auditRecorder ctx { (event "user" "update" ResultFailed "USER_STATUS_INVALID" (encodeUintID id))
                 with ev_Before := before } err ;;
  let detail := [("target_role_key", JStr nextRoleKey); ("target_status", JStr nextStatus)] in
  if negb (CanManageTargetRole (ra_RoleKey actor) (u_RoleKey user)) ||
     negb (CanAssignRole (ra_RoleKey actor) nextRoleKey) then
    refuse auditRecorder ctx { (event "user" "update" ResultDenied "ROLE_ASSIGNMENT_FORBIDDEN" (encodeUintID id))
                 with ev_Before := before; ev_Detail := detail } ErrRoleAssignmentForbidden
  else
  do! (if String.eqb (u_RoleKey user) RoleSuperAdmin &&
          (negb (String.eqb nextRoleKey RoleSuperAdmin) || String.eqb nextStatus StatusLocked)
       then
         activeSuperAdmins <-! countActiveSuperAdmins ;;
         if Z.eqb activeSuperAdmins 1 then
           refuse auditRecorder ctx { (event "user" "update" ResultDenied "LAST_SUPER_ADMIN_FORBIDDEN" (encodeUintID id))
                        with ev_Before := before; ev_Detail := detail } ErrLastSuperAdminForbidden
         else ret tt
       else ret tt) ;;
  let changedPrivilege := negb (String.eqb (u_RoleKey user) nextRoleKey) ||
                          negb (String.eqb (u_Status user) nextStatus) in
  let user := { user with u_Email := uu_Email req; u_RoleKey := nextRoleKey; u_Status := nextStatus;
                u_TokenVersion := if changedPrivilege then int_add (u_TokenVersion user) 1
                                  else u_TokenVersion user } in
  do! (u <-! UserRepository_Update user or err =>
         refuse auditRecorder ctx { (event "user" "update" ResultFailed "INTERNAL_ERROR" (encodeUintID id))
                      with ev_Before := before } err ;;
       ret u) ;;
  let view := toUserAdminView user in
  do! recordServiceAudit ctx auditRecorder
    { (event "user" "update" ResultSuccess "" (encodeUintID id))
      with ev_Before := before; ev_After := userAuditView user } ;;
  ret view.

Definition UserService_ResetPassword (ctx : Ctx) (id : N) (req : ResetUserPasswordRequest) : M GoErr World unit :=
  user <-! UserRepository_FindByID id or err =>
    refuse auditRecorder ctx (event "user" "reset_password" ResultFailed "USER_NOT_FOUND" (encodeUintID id)) err ;;
  passwordHash <-! Hash (rp_NewPassword req) or err =>
    refuse auditRecorder ctx (event "user" "reset_password" ResultFailed "INTERNAL_ERROR" (encodeUintID id)) err ;;
  let user := { user with u_PasswordHash := passwordHash } in
  do! (u <-! UserRepository_Update user or err =>
         refuse auditRecorder ctx (event "user" "reset_password" ResultFailed "INTERNAL_ERROR" (encodeUintID id)) err ;;
       ret u) ;;
  recordServiceAudit ctx auditRecorder
    { (event "user" "reset_password" ResultSuccess "" (encodeUintID id))
      with ev_Detail := [("target_user_id", JUint id); ("password_changed", JBool true)] }.

Definition UserService_RevokeTokens (ctx : Ctx) (id : N) : M GoErr World RevokeUserTokensResponse :=
  user <-! UserRepository_FindByID id or err =>
    refuse auditRecorder ctx (event "user" "revoke_tokens" ResultFailed "USER_NOT_FOUND" (encodeUintID id)) err ;;
  do! (u <-! UserRepository_UpdateTokenVersion id (int_add (u_TokenVersion user) 1) or err =>
         refuse auditRecorder ctx (event "user" "revoke_tokens" ResultFailed "INTERNAL_ERROR" (encodeUintID id)) err ;;
       ret u) ;;
  do! recordServiceAudit ctx auditRecorder
    { (event "user" "revoke_tokens" ResultSuccess "" (encodeUintID id))
      with ev_Detail := [("target_user_id", JUint id); ("revoked", JBool true)] } ;;
  ret {| rv_ID := id; rv_Revoked := true |}.
End UserService.

(** ** Rules for the repository *)
Section RepositoryRules.
Context `{DatabaseLaws}.

Lemma frames_users w w' : frames [TAudit] w w' -> tbl TUser w' = tbl TUser w.
Proof. intros (Hf & _). apply Hf. set_solver. Qed.

Lemma wp_find_user id (Q : result GoErr User -> World -> Prop) w :
  (forall e w', same w w' -> (e = ErrNotFound -> forall u, u ∈ tbl TUser w -> u_ID u <> id) -> Q (Err e) w') ->
  (forall u w', same w w' -> u ∈ tbl TUser w -> u_ID u = id -> Q (Ok u) w') ->
  wp (UserRepository_FindByID id) Q w.
Proof.
  intros He Hk. apply (wp_first TUser).
  - intros e w' Hs Hne%db_error_not_found. apply He; [done|]. by intros ->.
  - intros w' Hs Hn. apply He; [done|]. intros _ u Hu E. specialize (Hn u Hu). cbn in Hn.
    by rewrite E, N.eqb_refl in Hn.
  - intros u w' Hs Hu E%N.eqb_eq _. by apply Hk.
Qed.

(** The rows of a list with one user's editable columns replaced. *)
Definition with_user (user : User) (now : Z) (l : list User) : list User :=
  set_where (fun u => N.eqb (u_ID u) (u_ID user)) (fun u => touch TUser now (user_columns user u)) l.

Lemma wp_update_user user (Q : result GoErr unit -> World -> Prop) w :
  (forall e w', same w w' -> Q (Err e) w') ->
  (forall now w', no_conflicts TUser (with_user user now (tbl TUser w)) = true ->
     put TUser (with_user user now (tbl TUser w)) w w' -> Q (Ok tt) w') ->
  wp (UserRepository_Update user) Q w.
Proof.
  intros He Hk. apply (wp_update_found TUser).
  - intros e w' Hs _. by apply He.
  - intros w' Hs _. by apply He.
  - intros now w' l _ Hn Hp. by eapply Hk.
Qed.

Definition is_super (u : User) : bool := String.eqb (u_RoleKey u) RoleSuperAdmin.
Definition active_super (u : User) : bool := String.eqb (u_Status u) StatusActive && is_super u.
Definition active_supers (w : World) : nat := length (sel active_super (tbl TUser w)).

Lemma sel_sel {A} (p q : A -> bool) l : sel q (sel p l) = sel (fun x => p x && q x) l.
Proof.
  induction l as [|x l IH]; [done|]. cbn. destruct (p x) eqn:Ep; cbn; [|done].
  destruct (q x); [|done]. by f_equal.
Qed.
Lemma sel_perm {A} (p : A -> bool) l l' : l ≡ₚ l' -> sel p l ≡ₚ sel p l'.
Proof.
  induction 1 as [|x l l' _ IH|x y l|l1 l2 l3 _ IH1 _ IH2]; cbn; [done| | |by etrans].
  - destruct (p x); [by constructor|done].
  - destruct (p x), (p y); try done. apply Permutation_swap.
Qed.

Lemma wp_count_active (Q : result GoErr Z -> World -> Prop) w :
  (forall e w', same w w' -> Q (Err e) w') ->
  (forall w', same w w' -> Q (Ok (Z.of_nat (active_supers w))) w') ->
  wp countActiveSuperAdmins Q w.
Proof.
  intros He Hk. apply wp_bind, (wp_select TUser).
  - intros e w' Hs _. by apply He.
  - intros all w' Hs Hp _. apply wp_ret. cbn [limited].
    assert (length (sel is_super all) = active_supers w) as E; [|unfold is_super in E; rewrite E; by apply Hk].
    rewrite (sel_perm _ _ _ Hp), sel_sel. unfold active_supers. do 2 f_equal.
Qed.
End RepositoryRules.

(** ** What the operations do *)
Section OperationRules.
Context `{DatabaseLaws} {PH : PasswordHasher} `{TimeFormat} (rec : bool).

Definition requested_user (user : User) (req : UpdateUserRequest) (role status : string) : User :=
  { user with u_Email := uu_Email req; u_RoleKey := role; u_Status := status;
    u_TokenVersion := if negb (String.eqb (u_RoleKey user) role) || negb (String.eqb (u_Status user) status)
                      then int_add (u_TokenVersion user) 1 else u_TokenVersion user }.

(** The effect of a successful [Update]. *)
Definition updated ctx id req (view : UserAdminView) (w w' : World) : Prop :=
  exists actor user role status now,
    ctx_auth ctx = Some actor /\ user ∈ tbl TUser w /\ u_ID user = id /\
    normalizeInputRoleKey (uu_RoleKey req) = Ok role /\
    normalizeInputStatus (uu_Status req) = Ok status /\
    CanManageTargetRole (ra_RoleKey actor) (u_RoleKey user) = true /\
    CanAssignRole (ra_RoleKey actor) role = true /\
    (is_super user = true -> role <> RoleSuperAdmin \/ status = StatusLocked -> active_supers w <> 1) /\
    tbl TUser w' = with_user (requested_user user req role status) now (tbl TUser w) /\
    view = toUserAdminView (requested_user user req role status).

Lemma wp_UserService_Update ctx id req (Q : result GoErr UserAdminView -> World -> Prop) w :
  (forall e w', frames [TAudit] w w' -> Q (Err e) w') ->
  (forall view w', updated ctx id req view w w' -> frames [TUser; TAudit] w w' -> Q (Ok view) w') ->
  wp (UserService_Update rec ctx id req) Q w.
Proof.
  intros He Hk. unfold UserService_Update, currentRequestAuth, RequestAuthFromContext.
  destruct (ctx_auth ctx) as [actor|] eqn:Ea; [|apply He, frames_refl].
  apply wp_bind_or, wp_lift_result, wp_bind_or, wp_find_user.
  { intros e w1 Hs _. apply (wp_refuse _ _ _ _ _ w); [by apply same_frames|auto]. }
  intros user w1 Hs1 Hin Hid. apply (same_frames [TAudit]) in Hs1 as Hf1.
  apply wp_bind_or, wp_lift_result.
  destruct (normalizeInputRoleKey (uu_RoleKey req)) as [role|e] eqn:Er; [|by apply (wp_refuse _ _ _ _ _ w); auto].
  apply wp_bind_or, wp_lift_result.
  destruct (normalizeInputStatus (uu_Status req)) as [status|e] eqn:Es; [|by apply (wp_refuse _ _ _ _ _ w); auto].
  destruct (negb (CanManageTargetRole _ _) || _) eqn:Ec; [by apply (wp_refuse _ _ _ _ _ w); auto|].
  apply orb_false_iff in Ec as [Ecm%negb_false_iff Eca%negb_false_iff].
  apply wp_bind.
  assert (forall w2, frames [TAudit] w w2 ->
    (is_super user = true -> role <> RoleSuperAdmin \/ status = StatusLocked -> active_supers w <> 1) ->
    wp (do! (u <-! UserRepository_Update (requested_user user req role status) or err =>
               refuse rec ctx { (event "user" "update" ResultFailed "INTERNAL_ERROR" (encodeUintID id))
                      with ev_Before := userAuditView user } err ;; ret u) ;;
        do! recordServiceAudit ctx rec { (event "user" "update" ResultSuccess "" (encodeUintID id))
              with ev_Before := userAuditView user;
                   ev_After := userAuditView (requested_user user req role status) } ;;
        ret (toUserAdminView (requested_user user req role status))) Q w2) as Hcont.
  { intros w2 Hf2 Hguard. apply wp_bind, wp_bind_or, wp_update_user.
    { intros e w3 Hs3. apply (wp_refuse _ _ _ _ _ w); [by eapply frames_same|auto]. }
    intros now w3 Hn Hp. apply wp_ret, wp_bind, wp_audit. intros w4 Hf4. apply wp_ret, Hk.
    - exists actor, user, role, status, now. split_and!; try done.
      rewrite (frames_users _ _ Hf4), <- (frames_users _ _ Hf2). apply Hp.
    - by eapply (frames_put [TAudit] TUser [TAudit]); [exact Hf2|exact Hp| |exact Hf4|set_solver..]. }
  destruct (String.eqb (u_RoleKey user) RoleSuperAdmin && _) eqn:Eg.
  - apply wp_bind, wp_count_active.
    { intros e w2 Hs2. apply He. by eapply frames_same. }
    intros w2 Hs2. assert (active_supers w1 = active_supers w) as -> by (unfold active_supers; by rewrite (frames_users _ _ Hf1)).
    destruct (Z.eqb_spec (Z.of_nat (active_supers w)) 1) as [E|E].
    + apply (wp_refuse _ _ _ _ _ w); [by eapply frames_same|auto].
    + apply wp_ret, Hcont; [by eapply frames_same|]. intros _ _ E'. rewrite E' in E. done.
  - apply wp_ret, Hcont; [done|]. intros Hsup Hd. exfalso. apply not_true_iff_false in Eg. apply Eg.
    unfold is_super in Hsup. rewrite Hsup. cbn. apply orb_true_iff.
    destruct Hd as [Hd| ->]; [left|by right]. by apply negb_true_iff, String.eqb_neq.
Qed.

(** The effect of a successful [Create]. *)
Definition created ctx req (view : UserAdminView) (w w' : World) : Prop :=
  exists actor role hash id now, let user := stamp TUser id now
      {| u_ID := 0; u_Username := cu_Username req; u_Email := cu_Email req; u_PasswordHash := hash;
         u_RoleKey := role; u_Status := StatusActive; u_TokenVersion := 0;
         u_CreatedAt := 0; u_UpdatedAt := 0 |} in
    ctx_auth ctx = Some actor /\ normalizeInputRoleKey (cu_RoleKey req) = Ok role /\
    CanAssignRole (ra_RoleKey actor) role = true /\
    (forall u, u ∈ tbl TUser w -> u_Username u <> cu_Username req /\ u_ID u <> u_ID user) /\
    Compare hash (cu_Password req) = true /\
    tbl TUser w' = tbl TUser w ++ [user] /\ view = toUserAdminView user.

Lemma wp_find_username name (Q : result GoErr User -> World -> Prop) w :
  (forall e w', same w w' -> (e = ErrNotFound -> forall u, u ∈ tbl TUser w -> u_Username u <> name) -> Q (Err e) w') ->
  (forall u w', same w w' -> u ∈ tbl TUser w -> u_Username u = name -> Q (Ok u) w') ->
  wp (UserRepository_FindByUsername name) Q w.
Proof.
  intros He Hk. apply (wp_first TUser).
  - intros e w' Hs Hne%db_error_not_found. apply He; [done|]. by intros ->.
  - intros w' Hs Hn. apply He; [done|]. intros _ u Hu E. specialize (Hn u Hu). cbn in Hn.
    by rewrite E, String.eqb_refl in Hn.
  - intros u w' Hs Hu E%String.eqb_eq _. by apply Hk.
Qed.

Lemma wp_Hash {PL : PasswordHasherLaws} password (Q : result GoErr string -> World -> Prop) w :
  (forall e w', same w w' -> Q (Err e) w') ->
  (forall h w', same w w' -> Compare h password = true -> Q (Ok h) w') ->
  wp (Hash password) Q w.
Proof.
  intros He Hk. eapply wp_mono; [apply hash_law|]. intros [h|e] w' [Hs Hc]; auto.
Qed.

Lemma wp_UserService_Create {PL : PasswordHasherLaws} ctx req (Q : result GoErr UserAdminView -> World -> Prop) w :
  (forall e w', frames [TAudit] w w' -> Q (Err e) w') ->
  (forall view w', created ctx req view w w' -> frames [TUser; TAudit] w w' -> Q (Ok view) w') ->
  wp (UserService_Create rec ctx req) Q w.
Proof.
  intros He Hk. unfold UserService_Create, currentRequestAuth, RequestAuthFromContext.
  destruct (ctx_auth ctx) as [actor|] eqn:Ea; [|apply He, frames_refl].
  apply wp_bind_or, wp_lift_result, wp_bind_or, wp_lift_result.
  destruct (normalizeInputRoleKey (cu_RoleKey req)) as [role|e] eqn:Er;
    [|by apply (wp_refuse _ _ _ _ _ w); [apply frames_refl|auto]].
  destruct (negb (CanAssignRole _ _)) eqn:Ec; [by apply (wp_refuse _ _ _ _ _ w); [apply frames_refl|auto]|].
  apply negb_false_iff in Ec. apply wp_bind, wp_bind_or, wp_find_username.
  2:{ intros u w1 Hs1 _ _. apply wp_ret. apply (wp_refuse _ _ _ _ _ w); [by apply same_frames|auto]. }
  intros e w1 Hs1 Hfree. apply (same_frames [TAudit]) in Hs1 as Hf1. destruct (err_is e ErrNotFound) eqn:Ee.
  2:{ apply (wp_refuse _ _ _ _ _ w); auto. }
  apply wp_ret, wp_bind_or, wp_Hash.
  { intros e' w2 Hs2. apply (wp_refuse _ _ _ _ _ w); [by eapply frames_same|auto]. }
  intros h w2 Hs2 Hh. pose proof (frames_same _ _ _ _ Hf1 Hs2) as Hf2.
  apply wp_bind_or, (wp_insert TUser).
  { intros e' w3 Hs3 _. apply (wp_refuse _ _ _ _ _ w); [by eapply frames_same|auto]. }
  intros id now w3 user Hid Habs Hp. apply wp_bind, wp_audit. intros w4 Hf4. apply wp_ret, Hk.
  - exists actor, role, h, id, now. cbn zeta. split_and!; try done.
    + intros u Hu. rewrite (frames_users _ _ Hf2) in Habs. unfold absent in Habs.
      rewrite forallb_forall in Habs. specialize (Habs u). rewrite <- list_elem_of_In in Habs.
      specialize (Habs Hu). apply negb_true_iff, orb_false_iff in Habs as [Hi%N.eqb_neq Hn%String.eqb_neq].
      split; [exact Hn|exact Hi].
    + rewrite (frames_users _ _ Hf4), <- (frames_users _ _ Hf2). apply Hp.
  - eapply (frames_put [TAudit] TUser [TAudit]); [exact Hf2|exact Hp| |exact Hf4|set_solver..].
    intros Hv. by apply absent_no_conflicts.
Qed.

(** The rows with one user's password hash, or token version, replaced. *)
Definition with_password (user : User) (hash : string) (now : Z) (l : list User) : list User :=
  with_user { user with u_PasswordHash := hash } now l.
Definition with_token_version (id : N) (v : Z) (now : Z) (l : list User) : list User :=
  set_where (fun u => N.eqb (u_ID u) id) (fun u => touch TUser now { u with u_TokenVersion := v }) l.

Lemma wp_UserService_ResetPassword {PL : PasswordHasherLaws} ctx id req (Q : result GoErr unit -> World -> Prop) w :
  (forall e w', frames [TAudit] w w' -> Q (Err e) w') ->
  (forall user hash now w', user ∈ tbl TUser w -> u_ID user = id ->
     Compare hash (rp_NewPassword req) = true ->
     tbl TUser w' = with_password user hash now (tbl TUser w) -> frames [TUser; TAudit] w w' -> Q (Ok tt) w') ->
  wp (UserService_ResetPassword rec ctx id req) Q w.
Proof.
  intros He Hk. unfold UserService_ResetPassword. apply wp_bind_or, wp_find_user.
  { intros e w1 Hs _. apply (wp_refuse _ _ _ _ _ w); [by apply same_frames|auto]. }
  intros user w1 Hs1 Hin Hid. apply (same_frames [TAudit]) in Hs1 as Hf1. apply wp_bind_or, wp_Hash.
  { intros e' w2 Hs2. apply (wp_refuse _ _ _ _ _ w); [by eapply frames_same|auto]. }
  intros h w2 Hs2 Hh. pose proof (frames_same _ _ _ _ Hf1 Hs2) as Hf2.
  apply wp_bind, wp_bind_or, wp_update_user.
  { intros e w3 Hs3. apply (wp_refuse _ _ _ _ _ w); [by eapply frames_same|auto]. }
  intros now w3 Hn Hp. apply wp_ret, wp_audit. intros w4 Hf4. apply (Hk user h now); try done.
  - rewrite (frames_users _ _ Hf4), <- (frames_users _ _ Hf2). apply Hp.
  - by eapply (frames_put [TAudit] TUser [TAudit]); [exact Hf2|exact Hp| |exact Hf4|set_solver..].
Qed.

Lemma wp_UserService_RevokeTokens ctx id (Q : result GoErr RevokeUserTokensResponse -> World -> Prop) w :
  (forall e w', frames [TAudit] w w' -> Q (Err e) w') ->
  (forall user now w', user ∈ tbl TUser w -> u_ID user = id ->
     tbl TUser w' = with_token_version id (int_add (u_TokenVersion user) 1) now (tbl TUser w) ->
     frames [TUser; TAudit] w w' -> Q (Ok {| rv_ID := id; rv_Revoked := true |}) w') ->
  wp (UserService_RevokeTokens rec ctx id) Q w.
Proof.
  intros He Hk. unfold UserService_RevokeTokens. apply wp_bind_or, wp_find_user.
  { intros e w1 Hs _. apply (wp_refuse _ _ _ _ _ w); [by apply same_frames|auto]. }
  intros user w1 Hs1 Hin Hid. apply (same_frames [TAudit]) in Hs1 as Hf1.
  apply wp_bind, wp_bind_or, (wp_update_found TUser).
  { intros e w3 Hs3 _. apply (wp_refuse _ _ _ _ _ w); [by eapply frames_same|auto]. }
  { intros w3 Hs3 _. apply (wp_refuse _ _ _ _ _ w); [by eapply frames_same|auto]. }
  intros now w3 l _ Hn Hp. apply wp_ret, wp_bind, wp_audit. intros w4 Hf4. apply wp_ret, (Hk user now); try done.
  - rewrite (frames_users _ _ Hf4), <- (frames_users _ _ Hf1). apply Hp.
  - by eapply (frames_put [TAudit] TUser [TAudit]); [exact Hf1|exact Hp| |exact Hf4|set_solver..].
Qed.
End OperationRules.

(** ** Rows of one user *)

Lemma same_id_same_user l u v : no_conflicts TUser l = true -> u ∈ l -> v ∈ l -> u_ID u = u_ID v -> u = v.
Proof.
  intros Hn Hu Hv E. destruct (no_conflicts_elem TUser l u v Hn Hu Hv) as [|Hc]; [done|].
  cbn in Hc. unfold UserModel_conflict in Hc. by rewrite E, N.eqb_refl in Hc.
Qed.

(** Of two rows a predicate selects, one is another user's. *)
Lemma another_selected p l id : no_conflicts TUser l = true -> 2 <= length (sel p l) ->
  exists u, u ∈ l /\ p u = true /\ u_ID u <> id.
Proof.
  intros Hn Hl. pose proof (no_conflicts_sel TUser p l Hn) as Hs.
  destruct (sel p l) as [|a [|b k]] eqn:E; [cbn in Hl; lia..|].
  assert (forall u, u ∈ a :: b :: k -> u ∈ l /\ p u = true) as Hsel by (intros u; rewrite <- E; apply elem_of_sel).
  destruct (N.eq_dec (u_ID a) id) as [Ea|Ea]; [|exists a; split_and!; [apply Hsel; set_solver..|done]].
  exists b. split_and!; [apply Hsel; set_solver..|]. intros Eb.
  cbn in Hs. unfold UserModel_conflict in Hs. by rewrite Ea, Eb, N.eqb_refl in Hs.
Qed.

Lemma elem_of_with_user user now l u : u ∈ l -> u_ID u <> u_ID user -> u ∈ with_user user now l.
Proof. intros Hu Hne. apply elem_of_set_where. right. split; [done|]. by apply N.eqb_neq. Qed.
Lemma with_user_hit user now l u : u ∈ l -> u_ID u = u_ID user ->
  touch TUser now (user_columns user u) ∈ with_user user now l.
Proof. intros Hu E. apply elem_of_set_where. left. exists u. split_and!; [done|by apply N.eqb_eq|done]. Qed.

Lemma normalizeInputStatus_valid s s' : normalizeInputStatus s = Ok s' -> s' = StatusActive \/ s' = StatusLocked.
Proof.
  unfold normalizeInputStatus. destruct (negb _) eqn:E; [done|]. intros [= <-]. apply negb_false_iff in E.
  unfold IsValidStatus in E. by rewrite orb_true_iff, !String.eqb_eq in E.
Qed.

Section Properties.
Context `{DatabaseLaws} {PH : PasswordHasher} {PL : PasswordHasherLaws} `{TimeFormat} (rec : bool).

Lemma active_supers_pos w : 1 <= active_supers w <-> exists u, u ∈ tbl TUser w /\ active_super u = true.
Proof.
  unfold active_supers. destruct (sel active_super (tbl TUser w)) as [|u l] eqn:E; cbn.
  - split; [lia|]. intros (u & Hu). apply elem_of_sel in Hu. rewrite E in Hu. by apply elem_of_nil in Hu.
  - split; [|lia]. intros _. exists u. apply elem_of_sel. rewrite E. set_solver.
Qed.

(** The administrative operations, each with the context of its request. *)
Inductive UserOp : Type :=
| OpCreate (ctx : Ctx) (req : CreateUserRequest)
| OpUpdate (ctx : Ctx) (id : N) (req : UpdateUserRequest)
| OpResetPassword (ctx : Ctx) (id : N) (req : ResetUserPasswordRequest)
| OpRevokeTokens (ctx : Ctx) (id : N).

Definition run_user_op (w : World) (op : UserOp) : World :=
  match op with
  | OpCreate ctx req => snd (UserService_Create rec ctx req w)
  | OpUpdate ctx id req => snd (UserService_Update rec ctx id req w)
  | OpResetPassword ctx id req => snd (UserService_ResetPassword rec ctx id req w)
  | OpRevokeTokens ctx id => snd (UserService_RevokeTokens rec ctx id w)
  end.

Lemma update_keeps_super ctx id req view w w' : valid w -> 1 <= active_supers w ->
  updated ctx id req view w w' -> 1 <= active_supers w'.
Proof.
  intros Hv Hpos (actor & user & role & status & now & _ & Hin & Hid & _ & Hst & _ & _ & Hguard & Htbl & _).
  set (user' := requested_user user req role status) in *. assert (u_ID user' = u_ID user) as Hid' by done.
  assert (forall u, u ∈ tbl TUser w -> active_super u = true -> u_ID u <> u_ID user -> 1 <= active_supers w') as Hother.
  { intros u Hu Ha Hne. apply active_supers_pos. exists u. split; [|done]. rewrite Htbl. by apply elem_of_with_user. }
  destruct (is_super user) eqn:Es.
  - destruct (decide (role <> RoleSuperAdmin \/ status = StatusLocked)) as [Hd|Hd].
    + specialize (Hguard eq_refl Hd). destruct (another_selected active_super (tbl TUser w) (u_ID user) (Hv TUser)) as (u & ? & ? & ?);
        [change (2 <= active_supers w); lia|eauto].
    + apply active_supers_pos. exists (touch TUser now (user_columns user' user)).
      rewrite Htbl. split; [by apply with_user_hit|]. unfold active_super, is_super. cbn.
      assert (role = RoleSuperAdmin) as -> by (destruct (decide (role = RoleSuperAdmin)); tauto).
      destruct (normalizeInputStatus_valid _ _ Hst) as [-> | ->]; [done|tauto].
  - apply active_supers_pos in Hpos as (u & Hu & Ha). apply (Hother u); [done..|]. intros E.
    rewrite (same_id_same_user _ u user (Hv TUser)) in Ha by done.
    unfold active_super in Ha. rewrite Es, andb_false_r in Ha. done.
Qed.

Lemma kept_rows_keep_super w w' (f : User -> User) p : 1 <= active_supers w ->
  tbl TUser w' = set_where p f (tbl TUser w) ->
  (forall u, u ∈ tbl TUser w -> p u = true -> active_super u = true -> active_super (f u) = true) ->
  1 <= active_supers w'.
Proof.
  intros Hpos Htbl Hf. apply active_supers_pos in Hpos as (u & Hu & Ha). apply active_supers_pos.
  destruct (p u) eqn:Ep.
  - exists (f u). rewrite Htbl. split; [apply elem_of_set_where; eauto|auto].
  - exists u. rewrite Htbl. split; [apply elem_of_set_where; auto|done].
Qed.

Lemma run_user_op_keeps w op : valid w -> 1 <= active_supers w ->
  valid (run_user_op w op) /\ 1 <= active_supers (run_user_op w op).
Proof.
  intros Hv Hpos.
  assert (forall w', frames [TAudit] w w' -> valid w' /\ 1 <= active_supers w') as Herr.
  { intros w' Hf. split; [by apply Hf|]. unfold active_supers. by rewrite (frames_users _ _ Hf). }
  destruct op as [ctx req|ctx id req|ctx id req|ctx id]; unfold run_user_op.
  - apply (wp_UserService_Create rec ctx req (fun _ w' => valid w' /\ 1 <= active_supers w')); [auto|].
    intros view w' (actor & role & h & id & now & _ & _ & _ & _ & _ & Htbl & _) Hf. split; [by apply Hf|].
    apply active_supers_pos in Hpos as (u & Hu & Ha). apply active_supers_pos. exists u.
    rewrite Htbl. split; [|done]. apply elem_of_app. by left.
  - apply (wp_UserService_Update rec ctx id req (fun _ w' => valid w' /\ 1 <= active_supers w')); [auto|].
    intros view w' Hu Hf. split; [by apply Hf|]. by eapply update_keeps_super.
  - apply (wp_UserService_ResetPassword rec ctx id req (fun _ w' => valid w' /\ 1 <= active_supers w')); [auto|].
    intros user h now w' Hin Hid _ Htbl Hf. split; [by apply Hf|]. eapply kept_rows_keep_super; [done|exact Htbl|].
    intros u Hu E%N.eqb_eq Ha. by rewrite (same_id_same_user _ u user (Hv TUser)) in Ha |- *.
  - apply (wp_UserService_RevokeTokens rec ctx id (fun _ w' => valid w' /\ 1 <= active_supers w')); [auto|].
    intros user now w' Hin Hid Htbl Hf. split; [by apply Hf|]. eapply kept_rows_keep_super; [done|exact Htbl|].
    by intros u Hu _ Ha.
Qed.

(** C5: whatever administrators do, in whatever order and whether or not
    each operation succeeds, a system that has an active super admin keeps
    one. *)
Theorem last_super_admin_kept ops w (Hvalid : valid w) (Hsuper : 1 <= active_supers w) :
  1 <= active_supers (fold_left run_user_op ops w).
Proof.
  revert w Hvalid Hsuper. induction ops as [|op ops IH]; intros w Hv Hs; [done|]. cbn.
  destruct (run_user_op_keeps w op Hv Hs). by apply IH.
Qed.

(** An update that fails leaves every user as it was.  One that
    succeeds was asked by an authenticated actor entitled to manage both
    the user's old role and the new one, sets the user's email, role and
    status to the valid requested ones, changes the token version exactly
    when role or status changed, and leaves the user's name, password and
    creation time, and every other user, alone. *)
Theorem user_update_effect ctx id req w (Hvalid : valid w) :
  match UserService_Update rec ctx id req w with
  | (Err _, w') => tbl TUser w' = tbl TUser w
  | (Ok view, w') => exists actor old new,
      ctx_auth ctx = Some actor /\ old ∈ tbl TUser w /\ new ∈ tbl TUser w' /\ u_ID old = id /\ u_ID new = id /\
      CanManageTargetRole (ra_RoleKey actor) (u_RoleKey old) = true /\
      CanAssignRole (ra_RoleKey actor) (u_RoleKey new) = true /\
      u_Email new = uu_Email req /\ u_RoleKey new = trim_space (uu_RoleKey req) /\
      u_Status new = trim_space (uu_Status req) /\
      (u_TokenVersion new <> u_TokenVersion old <-> u_RoleKey new <> u_RoleKey old \/ u_Status new <> u_Status old) /\
      u_Username new = u_Username old /\ u_PasswordHash new = u_PasswordHash old /\
      u_CreatedAt new = u_CreatedAt old /\
      (forall u, u_ID u <> id -> u ∈ tbl TUser w' <-> u ∈ tbl TUser w)
  end.
Proof.
  destruct (UserService_Update rec ctx id req w) as [r w'] eqn:E. revert r w' E.
  assert (wp (UserService_Update rec ctx id req) (fun r w' => match r with
    | Err _ => tbl TUser w' = tbl TUser w | Ok view => updated ctx id req view w w' end) w) as Hwp.
  { apply wp_UserService_Update; [by intros e w' Hf; apply frames_users|done]. }
  intros [view|e] w' E; pose proof (wp_run _ _ _ _ _ Hwp E) as Hu; [|exact Hu]. clear Hwp E.
  destruct Hu as (actor & old & role & status & now & Ha & Hin & <- & Hr & Hs & Hm & Hc & _ & Htbl & _).
  unfold normalizeInputRoleKey in Hr. destruct (negb (IsValidRole _)); [done|]. injection Hr as <-.
  unfold normalizeInputStatus in Hs. destruct (negb (IsValidStatus _)); [done|]. injection Hs as <-.
  set (user' := requested_user _ _ _ _) in *. exists actor, old, (touch TUser now (user_columns user' old)).
  rewrite Htbl. split_and!; try done; [by apply with_user_hit| |].
  - cbn. set (role := trim_space (uu_RoleKey req)). set (status := trim_space (uu_Status req)).
    destruct (String.eqb_spec (u_RoleKey old) role) as [Er|Er], (String.eqb_spec (u_Status old) status) as [Es|Es];
      cbn; split; try (intros; (left; congruence) || (right; congruence)); try (by intros _; apply int_succ_ne);
      intros; try done; intuition congruence.
  - intros u Hne. unfold with_user. rewrite elem_of_set_where. split.
    + intros [(y & Hy & Ey%N.eqb_eq & ->)|[Hu _]]; [|done]. exfalso. apply Hne. cbn in *. congruence.
    + intros Hu. right. split; [done|]. by apply N.eqb_neq.
Qed.

(** A creation that fails leaves every user as it was.  One that
    succeeds was asked by an actor entitled to the new role, and adds one
    active user with a fresh identifier and name, the requested role and a
    hash of the requested password. *)
Theorem user_create_effect ctx req w :
  match UserService_Create rec ctx req w with
  | (Err _, w') => tbl TUser w' = tbl TUser w
  | (Ok view, w') => exists actor new,
      ctx_auth ctx = Some actor /\ tbl TUser w' = tbl TUser w ++ [new] /\
      CanAssignRole (ra_RoleKey actor) (u_RoleKey new) = true /\
      u_RoleKey new = trim_space (cu_RoleKey req) /\ u_Status new = StatusActive /\
      u_Username new = cu_Username req /\ u_Email new = cu_Email req /\ u_TokenVersion new = 0%Z /\
      Compare (u_PasswordHash new) (cu_Password req) = true /\
      (forall u, u ∈ tbl TUser w -> u_Username u <> u_Username new /\ u_ID u <> u_ID new) /\
      uv_ID view = u_ID new
  end.
Proof.
  destruct (UserService_Create rec ctx req w) as [r w'] eqn:E. revert r w' E.
  assert (wp (UserService_Create rec ctx req) (fun r w' => match r with
    | Err _ => tbl TUser w' = tbl TUser w | Ok view => created ctx req view w w' end) w) as Hwp.
  { apply wp_UserService_Create; [apply _|by intros e w' Hf; apply frames_users|done]. }
  intros [view|e] w' E; pose proof (wp_run _ _ _ _ _ Hwp E) as Hu; [|exact Hu]. clear Hwp E.
  destruct Hu as (actor & role & h & id & now & Ha & Hr & Hc & Hfree & Hh & Htbl & ->).
  unfold normalizeInputRoleKey in Hr. destruct (negb (IsValidRole _)); [done|]. injection Hr as <-.
  eexists actor, _. split_and!; [done|exact Htbl|done..|exact Hfree|done].
Qed.

(** Revoking a user's tokens, when it succeeds, changes that user's
    token version and nothing else of any user; when it fails no user
    changes, and it fails on an unknown user. *)
Theorem user_revoke_effect ctx id w (Hvalid : valid w) :
  match UserService_RevokeTokens rec ctx id w with
  | (Err _, w') => tbl TUser w' = tbl TUser w
  | (Ok resp, w') => resp = {| rv_ID := id; rv_Revoked := true |} /\
      (exists u, u ∈ tbl TUser w /\ u_ID u = id) /\
      exists now, tbl TUser w' =
        map (fun u => if N.eqb (u_ID u) id
                      then { u with u_TokenVersion := int_add (u_TokenVersion u) 1; u_UpdatedAt := now } else u)
            (tbl TUser w)
  end.
Proof.
  destruct (UserService_RevokeTokens rec ctx id w) as [r w'] eqn:E. revert r w' E.
  assert (wp (UserService_RevokeTokens rec ctx id) (fun r w' => match r with
    | Err _ => tbl TUser w' = tbl TUser w
    | Ok resp => resp = {| rv_ID := id; rv_Revoked := true |} /\ exists user now, user ∈ tbl TUser w /\ u_ID user = id /\
        tbl TUser w' = with_token_version id (int_add (u_TokenVersion user) 1) now (tbl TUser w) end) w) as Hwp.
  { apply wp_UserService_RevokeTokens; [by intros e w' Hf; apply frames_users|].
    intros user now w' ? ? ? _. split; [done|]. by exists user, now. }
  intros [view|e] w' E; pose proof (wp_run _ _ _ _ _ Hwp E) as Hu; [|exact Hu]. clear Hwp E.
  destruct Hu as (-> & user & now & Hin & Hid & Htbl). split_and!; [done|eauto|]. exists now. rewrite Htbl.
  unfold with_token_version, set_where. apply map_ext_in. intros u Hu%list_elem_of_In.
  destruct (N.eqb_spec (u_ID u) id) as [Eu|]; [|done].
  by rewrite (same_id_same_user _ u user (Hvalid TUser) Hu Hin) by (by rewrite Eu, Hid).
Qed.
End Properties.

(** ** Concrete runs *)
#[local] Existing Instances Mem.database Mem.laws.

Module UsersExample.
#[export] Instance hasher : @PasswordHasher Mem.database := {|
  Hash := fun p => ret ("h:" +:+ p); Compare := fun h p => String.eqb h ("h:" +:+ p) |}.
#[export] Instance hasher_laws : PasswordHasherLaws.
Proof. split. intros p w. split; [apply same_refl|]. apply String.eqb_refl. Qed.
#[export] Instance format : TimeFormat := fun z => pretty.pretty z.

Definition user (id : N) (name role status : string) : User :=
  {| u_ID := id; u_Username := name; u_Email := ""; u_PasswordHash := "h:" +:+ name; u_RoleKey := role;
     u_Status := status; u_TokenVersion := 0; u_CreatedAt := 1; u_UpdatedAt := 1 |}.
Definition users : list User :=
  [user 1 "root" RoleSuperAdmin StatusActive; user 2 "adm" RoleAdmin StatusActive;
   user 3 "bob" RoleUser StatusActive; user 4 "old" RoleSuperAdmin StatusLocked].
Definition world : World :=
  mem_world (Mem.set_rows TUser users { Mem.init with Mem.m_serial := 4%N }).
Definition as_role (id : N) (role : string) : Ctx :=
  {| ctx_auth := Some {| ra_UserID := id; ra_Username := "x"; ra_RoleKey := role; ra_Status := StatusActive;
                         ra_Capabilities := caps_of role |};
     ctx_request := None |}.

Lemma users_world_valid : valid world.
Proof. intros []; reflexivity. Qed.

Definition demote_root : UpdateUserRequest :=
  {| uu_Email := "e"; uu_RoleKey := RoleUser; uu_Status := StatusActive |}.
End UsersExample.
#[local] Existing Instances UsersExample.hasher UsersExample.hasher_laws UsersExample.format.

Lemma last_super_admin_kept_witness :
  1 <= active_supers (fold_left (run_user_op true)
    [OpUpdate (UsersExample.as_role 1 RoleSuperAdmin) 1 UsersExample.demote_root;
     OpRevokeTokens (UsersExample.as_role 1 RoleSuperAdmin) 3] UsersExample.world).
Proof. apply (last_super_admin_kept true); [apply UsersExample.users_world_valid|vm_compute; lia]. Defined.

Lemma user_update_effect_witness :
  let run := UserService_Update true (UsersExample.as_role 2 RoleAdmin) 3
    {| uu_Email := "e"; uu_RoleKey := " operator "; uu_Status := "locked" |} UsersExample.world in
  is_ok (fst run) = true /\
  exists old new, old ∈ tbl TUser UsersExample.world /\ new ∈ tbl TUser (snd run) /\ u_ID old = u_ID new /\
    u_RoleKey new = RoleOperator /\ u_TokenVersion new <> u_TokenVersion old.
Proof.
  intros run. assert (is_ok (fst run) = true) as Hok by (vm_compute; reflexivity). split; [exact Hok|].
  pose proof (user_update_effect true (UsersExample.as_role 2 RoleAdmin) 3
    {| uu_Email := "e"; uu_RoleKey := " operator "; uu_Status := "locked" |} UsersExample.world UsersExample.users_world_valid) as Hu.
  fold run in Hu. destruct run as [[view|e] w']; [|discriminate Hok].
  destruct Hu as (actor & old & new & _ & H1 & H2 & H3 & H4 & _ & _ & _ & Hr & _ & Ht & _).
  exists old, new. split_and!; [exact H1|exact H2|congruence|exact Hr|]. apply Ht. left. rewrite Hr. intros Heq.
  repeat (apply elem_of_cons in H1 as [->|H1]; [vm_compute in Heq, H3; discriminate|]). by apply elem_of_nil in H1.
Defined.

Lemma user_create_effect_witness :
  let req := {| cu_Username := "eve"; cu_Password := "secret"; cu_Email := ""; cu_RoleKey := "user" |} in
  let run := UserService_Create true (UsersExample.as_role 2 RoleAdmin) req UsersExample.world in
  is_ok (fst run) = true /\
  exists new, tbl TUser (snd run) = tbl TUser UsersExample.world ++ [new] /\ u_Username new = "eve" /\
    Compare (u_PasswordHash new) "secret" = true.
Proof.
  intros req run. assert (is_ok (fst run) = true) as Hok by (vm_compute; reflexivity). split; [exact Hok|].
  pose proof (user_create_effect true (UsersExample.as_role 2 RoleAdmin) req UsersExample.world) as Hu.
  fold run in Hu. destruct run as [[view|e] w']; [|discriminate Hok].
  destruct Hu as (actor & new & _ & H1 & _ & _ & _ & H2 & _ & _ & H3 & _). exists new. split_and!; assumption.
Defined.

Lemma user_revoke_effect_witness :
  let run := UserService_RevokeTokens true (UsersExample.as_role 2 RoleAdmin) 3 UsersExample.world in
  is_ok (fst run) = true /\ map u_TokenVersion (tbl TUser (snd run)) = [0; 0; 1; 0]%Z.
Proof.
  intros run. assert (is_ok (fst run) = true) as Hok by (vm_compute; reflexivity). split; [exact Hok|].
  pose proof (user_revoke_effect true (UsersExample.as_role 2 RoleAdmin) 3 UsersExample.world UsersExample.users_world_valid) as Hu.
  fold run in Hu. destruct run as [[view|e] w']; [|discriminate Hok].
  destruct Hu as (_ & _ & now & Ht). cbn [snd]. rewrite Ht. reflexivity.
Defined.

(** An administrator, who may not manage a super admin, resets a super
    admin's password all the same. *)
Theorem reset_password_no_role_check :
  let run := UserService_ResetPassword true (UsersExample.as_role 2 RoleAdmin) 1 {| rp_NewPassword := "mine" |}
               UsersExample.world in
  CanManageTargetRole RoleAdmin RoleSuperAdmin = false /\ is_ok (fst run) = true /\
  map (fun u => (u_ID u, u_RoleKey u, Compare (u_PasswordHash u) "mine")) (take 1 (tbl TUser (snd run))) =
    [(1%N, RoleSuperAdmin, true)].
Proof. intros run. split_and!; vm_compute; reflexivity. Qed.

(** A locked super admin cannot be demoted or stay locked on an update as
    long as exactly one other super admin is active, though the active one
    would remain. *)
Theorem locked_super_admin_stuck :
  let run := UserService_Update true (UsersExample.as_role 1 RoleSuperAdmin) 4 UsersExample.demote_root UsersExample.world in
  active_supers UsersExample.world = 1 /\ fst run = Err ErrLastSuperAdminForbidden /\
  map (fun u => (u_RoleKey u, u_Status u)) (drop 3 UsersExample.users) = [(RoleSuperAdmin, StatusLocked)].
Proof. intros run. split_and!; vm_compute; reflexivity. Qed.
