(* ===== verification/Auth.v ===== *)
(** * Authentication

    [setup_service.go], [jwt_token_service.go], [file_access_token_service.go],
    [auth_middleware.go] and [ensureDefaultLocalSource]: the first start,
    login, refresh and logout, the tokens, and the check of a request's
    bearer token.  The JWT library, bcrypt and UUIDs are the environment's;
    SHA-256 is written out. *)
From S2P Require Import Prelude Ints GoStrings Entities Paths Permission Tables Db Auditing Repos AclSpec Users.
From stdpp Require Import base list strings sets pretty countable.
From Stdlib Require Import ZArith Lia Ascii.

Local Open Scope string_scope.
Local Open Scope list_scope.
Local Open Scope go_scope.

(** ** SHA-256

    Words are 32-bit numbers. *)
Module Sha256.
Local Open Scope N_scope.
Definition w32 (x : N) : N := N.land x 4294967295.
Definition add32 (a b : N) : N := w32 (a + b).
Definition not32 (x : N) : N := N.lxor x 4294967295.
Definition rotr (x n : N) : N := w32 (N.lor (N.shiftr x n) (N.shiftl x (32 - n))).
Definition xor3 (a b c : N) : N := N.lxor (N.lxor a b) c.
Definition Sigma0 x := xor3 (rotr x 2) (rotr x 13) (rotr x 22).
Definition Sigma1 x := xor3 (rotr x 6) (rotr x 11) (rotr x 25).
Definition sigma0 x := xor3 (rotr x 7) (rotr x 18) (N.shiftr x 3).
Definition sigma1 x := xor3 (rotr x 17) (rotr x 19) (N.shiftr x 10).
Definition ch e f g := N.lxor (N.land e f) (N.land (not32 e) g).
Definition maj a b c := xor3 (N.land a b) (N.land a c) (N.land b c).

Definition K : list N :=
  [1116352408; 1899447441; 3049323471; 3921009573; 961987163; 1508970993; 2453635748; 2870763221;
   3624381080; 310598401; 607225278; 1426881987; 1925078388; 2162078206; 2614888103; 3248222580;
   3835390401; 4022224774; 264347078; 604807628; 770255983; 1249150122; 1555081692; 1996064986;
   2554220882; 2821834349; 2952996808; 3210313671; 3336571891; 3584528711; 113926993; 338241895;
   666307205; 773529912; 1294757372; 1396182291; 1695183700; 1986661051; 2177026350; 2456956037;
   2730485921; 2820302411; 3259730800; 3345764771; 3516065817; 3600352804; 4094571909; 275423344;
   430227734; 506948616; 659060556; 883997877; 958139571; 1322822218; 1537002063; 1747873779;
   1955562222; 2024104815; 2227730452; 2361852424; 2428436474; 2756734187; 3204031479; 3329325298].
Definition H0 : list N :=
  [1779033703; 3144134277; 1013904242; 2773480762; 1359893119; 2600822924; 528734635; 1541459225].

(** The message schedule, its last sixteen words first. *)
Fixpoint extend (n : nat) (ws : list N) : list N :=
  match n with
  | O => ws
  | S n => extend n (add32 (add32 (sigma1 (nth 1 ws 0)) (nth 6 ws 0)) (add32 (sigma0 (nth 14 ws 0)) (nth 15 ws 0)) :: ws)
  end.
Definition schedule (block : list N) : list N := rev (extend 48 (rev block)).

Definition round (st : list N) (kw : N * N) : list N :=
  match st with
  | [a; b; c; d; e; f; g; h] =>
      let t1 := add32 (add32 (add32 h (Sigma1 e)) (add32 (ch e f g) (fst kw))) (snd kw) in
      let t2 := add32 (Sigma0 a) (maj a b c) in
      [add32 t1 t2; a; b; c; add32 d t1; e; f; g]
  | _ => st
  end.
Definition compress (st block : list N) : list N :=
  map (fun p => add32 (fst p) (snd p)) (combine st (fold_left round (combine K (schedule block)) st)).

(** Big-endian bytes. *)
Fixpoint be_bytes (n : nat) (x : N) : list N :=
  match n with O => [] | S n => be_bytes n (x / 256) ++ [x mod 256] end.
Fixpoint words (l : list N) : list N :=
  match l with
  | a :: b :: c :: d :: l' => (((a * 256 + b) * 256 + c) * 256 + d) :: words l'
  | _ => []
  end.
Fixpoint blocks (fuel : nat) (ws : list N) : list (list N) :=
  match fuel, ws with
  | S fuel, _ :: _ => firstn 16 ws :: blocks fuel (skipn 16 ws)
  | _, _ => []
  end.
(** The message, a one bit, zeros up to 56 modulo 64, and its length in
    bits. *)
Definition padded (msg : list N) : list N :=
  let len := length msg in
  msg ++ [128] ++ repeat 0 ((119 - len mod 64) mod 64)%nat ++ be_bytes 8 (8 * N.of_nat len).
Definition sum (msg : list N) : list N :=
  let ws := words (padded msg) in
  concat (map (be_bytes 4) (fold_left compress (blocks (length ws) ws) H0)).
End Sha256.

Fixpoint hex_encode (l : list N) : string :=
  match l with [] => "" | b :: l' => String (hex_digit (b / 16)) (String (hex_digit (b mod 16)) (hex_encode l')) end.
Definition hashToken (raw : string) : string :=
  hex_encode (Sha256.sum (map N_of_ascii (String.list_ascii_of_string raw))).

Example hashToken_abc : hashToken "abc" = "ba7816bf8f01cfea414140de5dae2223b00361a396177a9cb410ff61f20015ad".
Proof. vm_compute. reflexivity. Qed.
Example hashToken_two_blocks : hashToken "abcdbcdecdefdefgefghfghighijhijkijkljklmklmnlmnomnopnopq" =
  "248d6a61d20638b8e5c026930c3e6039a33ce45964ff2167f6ecedd419db06c1".
Proof. vm_compute. reflexivity. Qed.

(** ** The JWT library

    [jwt.NewWithClaims(...).SignedString] and [jwt.ParseWithClaims] with
    HS256, and [uuid.NewString].  A parse checks the signature, and the
    expiry and the not-before time against the clock. *)
Inductive JwtErr : Type := JwtTokenExpired | JwtInvalid (msg : string).

(** [NewNumericDate]: whole seconds. *)
Definition second : Z := 1000000000.
Definition NumericDate (t : Z) : Z := (t / second)%Z.
Record RegisteredClaims := { rcl_ExpiresAt : Z; rcl_IssuedAt : Z; rcl_NotBefore : Z; rcl_Subject : string; rcl_ID : string }.

Class JwtLibrary (C : Type) := {
  SignedString : string -> C -> RegisteredClaims -> result GoErr string;
  ParseWithClaims : string -> Z -> string -> result JwtErr (C * RegisteredClaims)
}.
Class UuidLibrary `{Database} := NewString : M GoErr World string.

(** A signed token has no spaces and parses while it is valid, to the
    claims it was made of; an expired one does not. *)
Class JwtLaws `{JwtLibrary} : Prop := {
  parse_signed : forall secret c reg t now, SignedString secret c reg = Ok t ->
    (rcl_NotBefore reg * second <= now < rcl_ExpiresAt reg * second)%Z -> ParseWithClaims secret now t = Ok (c, reg);
  parse_expiry : forall secret now t c reg, ParseWithClaims secret now t = Ok (c, reg) ->
    (now < rcl_ExpiresAt reg * second)%Z;
  signed_trimmed : forall secret c reg t, SignedString secret c reg = Ok t -> trim_space t = t
}.
Class UuidLaws `{UuidLibrary} : Prop := uuid_law : forall w, wp NewString (fun _ w' => same w w') w.

(** ** [jwt_token_service.go] *)
Definition TokenTypeAccess := "access".
Definition TokenTypeRefresh := "refresh".
Record Claims := { cl_UserID : N; cl_RoleKey : string; cl_TokenVersion : Z; cl_TokenType : string }.
Record JWTTokenService := { jwt_secret : string; jwt_accessTTL : Z; jwt_refreshTTL : Z }.

Section Tokens.
Context `{Database} `{JL : JwtLibrary Claims} `{UL : UuidLibrary} (s : JWTTokenService).

Definition issueToken (userID : N) (roleKey : string) (tokenVersion : Z) (tokenType : string) (ttl : Z)
    : M GoErr World string :=
  now <-! time_now ;;
  id <-! NewString ;;
  lift_result (SignedString (jwt_secret s)
    {| cl_UserID := userID; cl_RoleKey := roleKey; cl_TokenVersion := tokenVersion; cl_TokenType := tokenType |}
    {| rcl_ExpiresAt := NumericDate (now + ttl); rcl_IssuedAt := NumericDate now; rcl_NotBefore := NumericDate now;
       rcl_Subject := pretty userID; rcl_ID := id |}).
Definition IssueAccessToken (userID : N) (roleKey : string) (tokenVersion : Z) : M GoErr World string :=
  issueToken userID roleKey tokenVersion TokenTypeAccess (jwt_accessTTL s).
Definition IssueRefreshToken (userID : N) (roleKey : string) (tokenVersion : Z) : M GoErr World string :=
  issueToken userID roleKey tokenVersion TokenTypeRefresh (jwt_refreshTTL s).

Definition validateToken (raw : string) (expected : string) : M JwtErr World Claims :=
  now <-! time_now ;;
  claims <-! lift_result (ParseWithClaims (jwt_secret s) now raw) ;;
  if negb (String.eqb (cl_TokenType (fst claims)) expected) then throw (JwtInvalid "unexpected token type")
  else ret (fst claims).
Definition ValidateAccessToken (token : string) : M JwtErr World Claims := validateToken token TokenTypeAccess.
Definition ValidateRefreshToken (token : string) : M JwtErr World Claims := validateToken token TokenTypeRefresh.
End Tokens.

(** ** [file_access_token_service.go] *)
Record FileAccessClaims := {
  fac_SourceID : N; fac_Path : string; fac_Purpose : string; fac_Disposition : string; fac_TokenType : string
}.
Section FileAccess.
Context `{Database} `{JL : JwtLibrary FileAccessClaims} `{UL : UuidLibrary} (secret : string).

Definition FileAccess_Issue (sourceID : N) (path purpose disposition : string) (ttl : Z) : M GoErr World (string * Z) :=
  now <-! time_now ;;
  let expiresAt := (now + ttl)%Z in
  id <-! NewString ;;
  signed <-! lift_result (SignedString secret
    {| fac_SourceID := sourceID; fac_Path := path; fac_Purpose := purpose; fac_Disposition := disposition;
       fac_TokenType := "file_access" |}
    {| rcl_ExpiresAt := NumericDate expiresAt; rcl_IssuedAt := NumericDate now; rcl_NotBefore := NumericDate now;
       rcl_Subject := ""; rcl_ID := id |}) ;;
  ret (signed, expiresAt).

Definition FileAccess_Validate (raw : string) : M JwtErr World FileAccessClaims :=
  now <-! time_now ;;
  claims <-! lift_result (ParseWithClaims secret now raw) ;;
  if negb (String.eqb (fac_TokenType (fst claims)) "file_access") then throw (JwtInvalid "invalid file access token")
  else ret (fst claims).
End FileAccess.

(** ** [auth_dto.go], [system_dto.go] *)
Record SetupStatusResponse := { ss_IsInitialized : bool; ss_SetupRequired : bool; ss_HasSuperAdmin : bool }.
Record SetupInitRequest := { si_Username : string; si_Password : string; si_Email : string }.
Record LoginRequest := { lr_Username : string; lr_Password : string }.
Record UserSummary := {
  sum_ID : N; sum_Username : string; sum_Email : string; sum_RoleKey : string; sum_Status : string; sum_CreatedAt : string
}.
Record TokenPair := {
  tp_AccessToken : string; tp_RefreshToken : string; tp_ExpiresIn : Z; tp_RefreshExpiresIn : Z; tp_TokenType : string
}.
Record LoginResponse := { lg_User : UserSummary; lg_Tokens : TokenPair }.
Record CurrentUserResponse := { cu_User : UserSummary; cu_Capabilities : list string }.
Record SystemConfigPublic := {
  scp_SiteName : string; scp_MultiUserEnabled : bool; scp_DefaultSourceID : option N; scp_MaxUploadSize : Z;
  scp_DefaultChunkSize : Z; scp_WebDAVEnabled : bool; scp_WebDAVPrefix : string; scp_Theme : string;
  scp_Language : string; scp_TimeZone : string
}.
(** [SystemOptions], less the directory for temporary files. *)
Record SystemOptions := { so_Config : SystemConfigPublic; so_StorageDataDir : string }.

Definition DefaultSystemOptions : SystemOptions :=
  {| so_Config := {| scp_SiteName := "云匣"; scp_MultiUserEnabled := false; scp_DefaultSourceID := None;
       scp_MaxUploadSize := 10 * 1024 * 1024 * 1024; scp_DefaultChunkSize := 5 * 1024 * 1024; scp_WebDAVEnabled := true;
       scp_WebDAVPrefix := "/dav"; scp_Theme := "system"; scp_Language := "zh-CN"; scp_TimeZone := "Asia/Shanghai" |};
     so_StorageDataDir := "./data/storage" |}.

Definition with_config (c : SystemConfigPublic) (cfg : SystemConfig) : SystemConfig :=
  { cfg with cfg_SiteName := scp_SiteName c; cfg_MultiUserEnabled := scp_MultiUserEnabled c;
    cfg_DefaultSourceID := scp_DefaultSourceID c; cfg_MaxUploadSize := scp_MaxUploadSize c;
    cfg_DefaultChunkSize := scp_DefaultChunkSize c; cfg_WebDAVEnabled := scp_WebDAVEnabled c;
    cfg_WebDAVPrefix := scp_WebDAVPrefix c; cfg_Theme := scp_Theme c; cfg_Language := scp_Language c;
    cfg_TimeZone := scp_TimeZone c }.
Definition defaultSystemConfigEntity (options : SystemOptions) : SystemConfig :=
  let c := so_Config options in
  {| cfg_ID := 1; cfg_SiteName := scp_SiteName c; cfg_MultiUserEnabled := scp_MultiUserEnabled c;
     cfg_DefaultSourceID := scp_DefaultSourceID c; cfg_MaxUploadSize := scp_MaxUploadSize c;
     cfg_DefaultChunkSize := scp_DefaultChunkSize c; cfg_WebDAVEnabled := scp_WebDAVEnabled c;
     cfg_WebDAVPrefix := scp_WebDAVPrefix c; cfg_Theme := scp_Theme c; cfg_Language := scp_Language c;
     cfg_TimeZone := scp_TimeZone c; cfg_CreatedAt := 0; cfg_UpdatedAt := 0 |}.
Definition toSystemConfigPublic (cfg : SystemConfig) : SystemConfigPublic :=
  {| scp_SiteName := cfg_SiteName cfg; scp_MultiUserEnabled := cfg_MultiUserEnabled cfg;
     scp_DefaultSourceID := cfg_DefaultSourceID cfg; scp_MaxUploadSize := cfg_MaxUploadSize cfg;
     scp_DefaultChunkSize := cfg_DefaultChunkSize cfg; scp_WebDAVEnabled := cfg_WebDAVEnabled cfg;
     scp_WebDAVPrefix := cfg_WebDAVPrefix cfg; scp_Theme := cfg_Theme cfg; scp_Language := cfg_Language cfg;
     scp_TimeZone := cfg_TimeZone cfg |}.

(** ** [setup_service.go] *)

(** What the first start needs from the file system and the metadata
    tree. *)
Class LocalFiles `{Database} := MkdirAll : string -> M GoErr World unit.
Class MetadataSourceMountSyncer `{Database} := {
  SyncSourceMount : StorageSource -> M GoErr World unit;
  DisableSourceMount : N -> M GoErr World unit
}.
Class MetadataSourceMountSyncerLaws `{MetadataSourceMountSyncer} : Prop := {
  sync_law : forall source w, wp (SyncSourceMount source) (fun _ w' => frames [TNode; TMount] w w') w;
  disable_law : forall sourceID w, wp (DisableSourceMount sourceID) (fun _ w' => frames [TNode; TMount] w w') w
}.

Section Services.
Context `{PH : PasswordHasher} `{TimeFormat} `{JL : JwtLibrary Claims} {UL : UuidLibrary} {LF : LocalFiles}
  {MS : MetadataSourceMountSyncer}.
Context (tokens : JWTTokenService) (options : SystemOptions) (auditRecorder mountSyncer : bool).

Definition toUserSummary (user : User) : UserSummary :=
  {| sum_ID := u_ID user; sum_Username := u_Username user; sum_Email := u_Email user; sum_RoleKey := u_RoleKey user;
     sum_Status := u_Status user; sum_CreatedAt := rfc3339 (u_CreatedAt user) |}.

Definition issueAndStoreTokenPair (user : User) : M GoErr World TokenPair :=
  accessToken <-! IssueAccessToken tokens (u_ID user) (u_RoleKey user) (u_TokenVersion user) ;;
  refreshToken <-! IssueRefreshToken tokens (u_ID user) (u_RoleKey user) (u_TokenVersion user) ;;
  now <-! time_now ;;
  do! RefreshTokenRepository_Create
    {| rt_ID := 0; rt_UserID := u_ID user; rt_TokenHash := hashToken refreshToken;
       rt_ExpiresAt := (now + jwt_refreshTTL tokens)%Z; rt_RevokedAt := None; rt_CreatedAt := 0; rt_UpdatedAt := 0 |} ;;
  ret {| tp_AccessToken := accessToken; tp_RefreshToken := refreshToken;
         tp_ExpiresIn := Z.quot (jwt_accessTTL tokens) second;
         tp_RefreshExpiresIn := Z.quot (jwt_refreshTTL tokens) second; tp_TokenType := "Bearer" |}.

(** [marshalLocalSourceConfig] *)
Definition marshalLocalSourceConfig (basePath : string) : string :=
  json_marshal (JObj [("base_path", JStr (path_clean basePath))]).

Definition ensureDefaultLocalSource : M GoErr World StorageSource :=
  enabled <-! SourceRepository_ListEnabled ;;
  match enabled with
  | source :: _ => ret source
  | [] =>
      let basePath := path_join (so_StorageDataDir options) "default" in
      do! MkdirAll basePath ;;
      now <-! time_now ;;
      SourceRepository_Create
        {| src_ID := 0; src_Name := "本地存储"; src_DriverType := "local"; src_Status := "online"; src_IsEnabled := true;
           src_IsWebDAVExposed := false; src_WebDAVReadOnly := true; src_WebDAVSlug := "local"; src_MountPath := "/local";
           src_RootPath := "/"; src_SortOrder := 0; src_ConfigJSON := marshalLocalSourceConfig basePath;
           src_LastCheckedAt := Some now; src_CreatedAt := 0; src_UpdatedAt := 0 |}
  end.

Definition SetupService_Status : M GoErr World SetupStatusResponse :=
  count <-! UserRepository_Count ;;
  let hasSuperAdmin := Z.ltb 0 count in
  ret {| ss_IsInitialized := hasSuperAdmin; ss_SetupRequired := negb hasSuperAdmin; ss_HasSuperAdmin := hasSuperAdmin |}.

Definition SetupService_Init (ctx : Ctx) (req : SetupInitRequest) : M GoErr World (UserSummary * TokenPair) :=
  count <-! UserRepository_Count ;;
  if Z.ltb 0 count then throw ErrSetupAlreadyCompleted
  else
  passwordHash <-! Hash (si_Password req) ;;
  user <-! UserRepository_Create
    {| u_ID := 0; u_Username := si_Username req; u_Email := si_Email req; u_PasswordHash := passwordHash;
       u_RoleKey := RoleSuperAdmin; u_Status := StatusActive; u_TokenVersion := 0; u_CreatedAt := 0; u_UpdatedAt := 0 |} ;;
  defaultSource <-! ensureDefaultLocalSource ;;
  do! (if mountSyncer
       then u <-! SyncSourceMount defaultSource or err => throw (ErrJoin ErrMetadataVFSMountSyncFailed err) ;; ret u
       else ret tt) ;;
  do! SystemConfigRepository_Upsert
    { (defaultSystemConfigEntity options) with cfg_DefaultSourceID := Some (src_ID defaultSource) } ;;
  tokenPair <-! issueAndStoreTokenPair user ;;
  do! recordServiceAudit ctx auditRecorder
    { (event "setup" "init" ResultSuccess "" (encodeUintID (u_ID user)))
      with ev_After := [("user", JObj (userAuditView user)); ("default_source_id", JUint (src_ID defaultSource))] } ;;
  ret (toUserSummary user, tokenPair).

Definition AuthService_Login (req : LoginRequest) : M GoErr World LoginResponse :=
  user <-! UserRepository_FindByUsername (lr_Username req) or err =>
    (if err_is err ErrNotFound then throw ErrInvalidCredentials else throw err) ;;
  if String.eqb (u_Status user) StatusLocked then throw ErrAccountLocked
  else if negb (Compare (u_PasswordHash user) (lr_Password req)) then throw ErrInvalidCredentials
  else
  tokenPair <-! issueAndStoreTokenPair user ;;
  ret {| lg_User := toUserSummary user; lg_Tokens := tokenPair |}.

Definition AuthService_Refresh (refreshToken : string) : M GoErr World TokenPair :=
  claims <-! ValidateRefreshToken tokens refreshToken or _e => throw ErrRefreshTokenInvalid ;;
  token <-! RefreshTokenRepository_FindByTokenHash (hashToken refreshToken) or err =>
    (if err_is err ErrNotFound then throw ErrRefreshTokenInvalid else throw err) ;;
  expired <-! match rt_RevokedAt token with
              | Some _ => ret true
              | None => now <-! time_now ;; ret (Z.ltb (rt_ExpiresAt token) now)
              end ;;
  if (expired : bool) then throw ErrRefreshTokenInvalid
  else
  user <-! UserRepository_FindByID (cl_UserID claims) ;;
  if String.eqb (u_Status user) StatusLocked || negb (Z.eqb (u_TokenVersion user) (cl_TokenVersion claims))
  then throw ErrRefreshTokenInvalid
  else
  do! RefreshTokenRepository_RevokeByTokenHash (hashToken refreshToken) ;;
  issueAndStoreTokenPair user.

Definition AuthService_Logout (refreshToken : string) : M GoErr World unit :=
  RefreshTokenRepository_RevokeByTokenHash (hashToken refreshToken).

Definition AuthService_Me (userID : N) : M GoErr World CurrentUserResponse :=
  user <-! UserRepository_FindByID userID ;;
  capabilities <-! lift_result (ResolveCapabilities (u_RoleKey user)) ;;
  ret {| cu_User := toUserSummary user; cu_Capabilities := capabilities |}.

Definition SystemService_GetConfig : M GoErr World SystemConfigPublic :=
  cfg <-! SystemConfigRepository_Get or err =>
    (if err_is err ErrNotFound then ret (toSystemConfigPublic (defaultSystemConfigEntity options)) else throw err) ;;
  ret (toSystemConfigPublic cfg).

Definition SystemService_UpdateConfig (ctx : Ctx) (req : SystemConfigPublic) : M GoErr World SystemConfigPublic :=
  current <-! (cfg <-! SystemConfigRepository_Get or err =>
                 (if err_is err ErrNotFound then ret (defaultSystemConfigEntity options)
                  else refuse auditRecorder ctx (event "system_config" "update" ResultFailed "INTERNAL_ERROR" "") err) ;;
               ret cfg) ;;
  let before := systemConfigAuditView current in
  current <-! SystemConfigRepository_Upsert (with_config req current) or err =>
    refuse auditRecorder ctx { (event "system_config" "update" ResultFailed "INTERNAL_ERROR" "") with ev_Before := before } err ;;
  do! recordServiceAudit ctx auditRecorder
    { (event "system_config" "update" ResultSuccess "" (encodeUintID (cfg_ID current)))
      with ev_Before := before; ev_After := systemConfigAuditView current } ;;
  ret (toSystemConfigPublic current).

(** ** [auth_middleware.go]

    The request goes on with an identity, or is answered with a status and
    a code. *)
Inductive AuthOutcome : Type :=
| Authenticated (auth : RequestAuth)
| Refused (status : Z) (code : string).

Definition RequireAuth (rawAuth : string) : M GoErr World AuthOutcome :=
  if String.eqb rawAuth "" || negb (has_prefix rawAuth "Bearer ") then ret (Refused 401 "AUTH_TOKEN_MISSING")
  else
  let token := trim_space (trim_prefix rawAuth "Bearer ") in
  claims <-! ValidateAccessToken tokens token or err =>
    ret (Refused 401 match err with JwtTokenExpired => "AUTH_TOKEN_EXPIRED" | JwtInvalid _ => "AUTH_TOKEN_INVALID" end) ;;
  user <-! UserRepository_FindByID (cl_UserID claims) or _e => ret (Refused 401 "AUTH_TOKEN_INVALID") ;;
  if negb (Z.eqb (u_TokenVersion user) (cl_TokenVersion claims)) then ret (Refused 401 "AUTH_TOKEN_INVALID")
  else if String.eqb (u_Status user) StatusLocked then ret (Refused 403 "AUTH_ACCOUNT_LOCKED")
  else match ResolveCapabilities (u_RoleKey user) with
       | Err _ => ret (Refused 401 "AUTH_TOKEN_INVALID")
       | Ok capabilities =>
           ret (Authenticated {| ra_UserID := u_ID user; ra_Username := u_Username user; ra_RoleKey := u_RoleKey user;
                                 ra_Status := u_Status user; ra_Capabilities := capabilities |})
       end.
End Services.

(** ** Rules *)
Section Rules.
Context `{DatabaseLaws} {PH : PasswordHasher} `{TimeFormat} `{JL : JwtLibrary Claims} {UL : UuidLibrary}
  {JLaws : JwtLaws} {ULaws : UuidLaws}.
Context (tokens : JWTTokenService).
Implicit Types w : World.

Lemma wp_validateToken raw expected (Q : result JwtErr Claims -> World -> Prop) w :
  (forall e w', frames [] w w' -> Q (Err e) w') ->
  (forall c reg w', frames [] w w' -> ParseWithClaims (jwt_secret tokens) (the_time w) raw = Ok (c, reg) ->
     cl_TokenType c = expected -> Q (Ok c) w') ->
  wp (validateToken tokens raw expected) Q w.
Proof.
  intros He Hk. apply wp_bind, wp_time_now, wp_bind, wp_lift_result. pose proof (tick_frames [] w) as Hf.
  destruct (ParseWithClaims _ _ _) as [[c reg]|e] eqn:E; [|by apply He]. cbn [fst].
  destruct (String.eqb_spec (cl_TokenType c) expected) as [Et|Et]; [by eapply Hk|by apply He].
Qed.

(** The token issued from the user's data at a time. *)
Definition issued (user : User) (tokenType : string) (ttl now : Z) (t : string) : Prop :=
  exists reg, SignedString (jwt_secret tokens)
      {| cl_UserID := u_ID user; cl_RoleKey := u_RoleKey user; cl_TokenVersion := u_TokenVersion user;
         cl_TokenType := tokenType |} reg = Ok t /\
    rcl_NotBefore reg = NumericDate now /\ rcl_ExpiresAt reg = NumericDate (now + ttl).

Lemma wp_issueToken user tokenType ttl (Q : result GoErr string -> World -> Prop) w :
  (forall e w', frames [] w w' -> Q (Err e) w') ->
  (forall t w', frames [] w w' -> issued user tokenType ttl (the_time w) t -> Q (Ok t) w') ->
  wp (issueToken tokens (u_ID user) (u_RoleKey user) (u_TokenVersion user) tokenType ttl) Q w.
Proof.
  intros He Hk. apply wp_bind, wp_time_now, wp_bind. eapply wp_mono; [apply uuid_law|].
  intros res w1 Hs. assert (frames [] w w1) as Hf by (eapply frames_same; [apply tick_frames|done]).
  destruct res as [id|e]; [|by apply He]. apply wp_lift_result.
  destruct (SignedString _ _ _) as [t|e] eqn:E; [|by apply He]. apply Hk; [done|]. eexists. by split_and!.
Qed.

(** The row a login or a refresh adds. *)
Definition stored (user : User) (pair : TokenPair) (new : RefreshToken) : Prop :=
  rt_UserID new = u_ID user /\ rt_TokenHash new = hashToken (tp_RefreshToken pair) /\ rt_RevokedAt new = None.

Lemma wp_issuePair user (Q : result GoErr TokenPair -> World -> Prop) w :
  (forall e w', frames [] w w' -> Q (Err e) w') ->
  (forall pair new w', frames [TToken] w w' -> tbl TToken w' = tbl TToken w ++ [new] -> stored user pair new ->
     issued user TokenTypeAccess (jwt_accessTTL tokens) (the_time w) (tp_AccessToken pair) -> Q (Ok pair) w') ->
  wp (issueAndStoreTokenPair tokens user) Q w.
Proof.
  intros He Hk. apply wp_bind, wp_issueToken; [done|]. intros access w1 Hf1 Ha.
  apply wp_bind, wp_issueToken; [intros e w2 Hf2; apply He; by eapply frames_trans|]. intros refresh w2 Hf2 _.
  pose proof (frames_trans _ _ _ _ Hf1 Hf2) as Hf. apply wp_bind, wp_time_now, wp_bind.
  set (w3 := { w2 with w_reads ::= S }). assert (frames [] w w3) as Hf3 by (eapply frames_trans; [done|apply tick_frames]).
  apply (wp_insert TToken); [intros e w4 Hs _; apply He; by eapply frames_same|].
  intros id now w4 new _ Habs Hp. apply wp_ret, (Hk _ new).
  - eapply frames_trans; [eapply frames_mono; [exact Hf3|set_solver]|]. apply (put_frames _ _ _ _ Hp).
    intros Hv. by apply absent_no_conflicts.
  - destruct Hp as [-> _]. by rewrite (frames_tbl _ _ _ TToken Hf3) by set_solver.
  - by split_and!.
  - done.
Qed.

Lemma wp_find_by_id id (Q : result GoErr User -> World -> Prop) w :
  (forall e w', frames [] w w' -> Q (Err e) w') ->
  (forall u w', frames [] w w' -> u ∈ tbl TUser w -> u_ID u = id -> Q (Ok u) w') ->
  wp (UserRepository_FindByID id) Q w.
Proof.
  intros He Hk. apply wp_find_user; [intros e w1 Hs _; by apply He, same_frames|].
  intros u w1 Hs Hu E. apply Hk; [by apply same_frames|done..].
Qed.

Definition has_hash (raw : string) (t : RefreshToken) : bool := String.eqb (rt_TokenHash t) (hashToken raw).
Definition revoke (raw : string) (at_ now : Z) (l : list RefreshToken) : list RefreshToken :=
  set_where (has_hash raw) (fun t => { t with rt_RevokedAt := Some at_; rt_UpdatedAt := now }) l.

Lemma wp_revoke raw (Q : result GoErr unit -> World -> Prop) w :
  (forall e w', frames [] w w' -> Q (Err e) w') ->
  (forall at_ now w', frames [TToken] w w' -> (exists t, t ∈ tbl TToken w /\ has_hash raw t = true) ->
     tbl TToken w' = revoke raw at_ now (tbl TToken w) -> Q (Ok tt) w') ->
  wp (RefreshTokenRepository_RevokeByTokenHash (hashToken raw)) Q w.
Proof.
  intros He Hk. apply wp_bind, wp_time_now. set (w1 := { w with w_reads ::= S }).
  assert (frames [] w w1) as Hf1 by apply tick_frames. apply (wp_update_found TToken).
  - intros e w2 Hs _. apply He. by eapply frames_same.
  - intros w2 Hs _. apply He. by eapply frames_same.
  - intros now w2 l Hex Hn Hp. eapply Hk; [|exact Hex|apply Hp].
    eapply frames_trans; [eapply frames_mono; [exact Hf1|set_solver]|]. by apply (put_frames _ _ _ _ Hp).
Qed.

(** ** Refreshing *)
Definition refreshed (raw : string) (pair : TokenPair) w w' : Prop :=
  exists claims reg token user at_ now new,
    ParseWithClaims (jwt_secret tokens) (the_time w) raw = Ok (claims, reg) /\ cl_TokenType claims = TokenTypeRefresh /\
    token ∈ tbl TToken w /\ rt_TokenHash token = hashToken raw /\ rt_RevokedAt token = None /\
    (exists n, w_reads w <= n /\ (w_clock w n <= rt_ExpiresAt token)%Z) /\
    user ∈ tbl TUser w /\ u_ID user = cl_UserID claims /\ u_TokenVersion user = cl_TokenVersion claims /\
    u_Status user <> StatusLocked /\
    tbl TToken w' = revoke raw at_ now (tbl TToken w) ++ [new] /\ stored user pair new.

Lemma wp_find_token raw (Q : result GoErr RefreshToken -> World -> Prop) w :
  (forall e w', frames [] w w' -> Q (Err e) w') ->
  (forall t w', frames [] w w' -> t ∈ tbl TToken w -> rt_TokenHash t = hashToken raw -> Q (Ok t) w') ->
  wp (RefreshTokenRepository_FindByTokenHash (hashToken raw)) Q w.
Proof.
  intros He Hk. apply (wp_lookup TToken); [intros e w1 Hs _; by apply He, same_frames|].
  intros t w1 Hs Ht E%String.eqb_eq. apply Hk; [by apply same_frames|done..].
Qed.

(** Whether a token is revoked or past its time. *)
Lemma wp_expired token (Q : result GoErr bool -> World -> Prop) w :
  (forall w', frames [] w w' -> Q (Ok true) w') ->
  (forall w', frames [] w w' -> rt_RevokedAt token = None -> (the_time w <= rt_ExpiresAt token)%Z -> Q (Ok false) w') ->
  wp (match rt_RevokedAt token with
      | Some _ => ret true
      | None => now <-! time_now ;; ret (Z.ltb (rt_ExpiresAt token) now)
      end) Q w.
Proof.
  intros Ht Hf. destruct (rt_RevokedAt token); [apply wp_ret, Ht, frames_refl|].
  apply wp_bind, wp_time_now, wp_ret. destruct (Z.ltb_spec (rt_ExpiresAt token) (the_time w));
    [apply Ht, tick_frames|apply Hf; [apply tick_frames|done|lia]].
Qed.

Lemma wp_Refresh raw (Q : result GoErr TokenPair -> World -> Prop) w :
  (forall e w', frames [] w w' -> Q (Err e) w') ->
  (forall e at_ now w', frames [TToken] w w' -> tbl TToken w' = revoke raw at_ now (tbl TToken w) -> Q (Err e) w') ->
  (forall pair w', frames [TToken] w w' -> refreshed raw pair w w' -> Q (Ok pair) w') ->
  wp (AuthService_Refresh tokens raw) Q w.
Proof.
  intros He Hr Hk. assert (forall e w1 w2, frames [] w w1 -> frames [] w1 w2 -> Q (Err e) w2) as He2
    by (intros e w1 w2 Ha Hb; apply He; by eapply frames_trans).
  apply wp_bind_or, wp_validateToken; [intros e w1 Hf1; by apply He|]. intros claims reg w1 Hf1 Hp Htype.
  apply wp_bind_or, wp_find_token; [intros e w2 Hf2; destruct (err_is e ErrNotFound); by eapply He2|].
  intros token w2 Hf2 Hin Hhash. pose proof (frames_trans _ _ _ _ Hf1 Hf2) as Hf02.
  apply wp_bind, wp_expired; [intros w3 Hf3; by eapply He2|]. intros w3 Hf3 Hnone Hexp.
  pose proof (frames_trans _ _ _ _ Hf02 Hf3) as Hf03.
  apply wp_bind, wp_find_by_id; [intros e w4 Hf4; by eapply He2|]. intros user w4 Hf4 Hu Huid.
  pose proof (frames_trans _ _ _ _ Hf03 Hf4) as Hf04.
  destruct (_ || _) eqn:Ec; [by apply He|]. apply orb_false_iff in Ec as [Hst%String.eqb_neq Hv%negb_false_iff%Z.eqb_eq].
  apply wp_bind, wp_revoke; [intros e w5 Hf5; by eapply He2|]. intros at_ now w5 Hf5 _ Et5.
  assert (frames [TToken] w w5) as Hf05 by (eapply frames_trans; [eapply frames_mono; [exact Hf04|set_solver]|done]).
  rewrite (frames_tbl _ _ _ TToken Hf04) in Et5 by set_solver.
  apply wp_issuePair.
  - intros e w6 Hf6. apply (Hr e at_ now).
    + eapply frames_trans; [done|]. eapply frames_mono; [done|set_solver].
    + by rewrite (frames_tbl _ _ _ TToken Hf6) by set_solver.
  - intros pair new w6 Hf6 Et6 Hst6 _. apply Hk; [by eapply frames_trans|].
    exists claims, reg, token, user, at_, now, new.
    rewrite (frames_tbl _ _ _ TToken Hf1) in Hin by set_solver. rewrite (frames_tbl _ _ _ TUser Hf03) in Hu by set_solver.
    split_and!; try done; [|by rewrite Et6, Et5].
    exists (w_reads w2). destruct Hf02 as (_ & _ & Hc & Hle). split; [done|]. unfold the_time in Hexp. by rewrite Hc in Hexp.
Qed.

(** A token that has been revoked, under its hash. *)
Definition revoked raw w : Prop :=
  exists t, t ∈ tbl TToken w /\ rt_TokenHash t = hashToken raw /\ rt_RevokedAt t <> None.

Lemma same_token l a b : no_conflicts TToken l = true -> a ∈ l -> b ∈ l -> rt_TokenHash a = rt_TokenHash b -> a = b.
Proof.
  intros Hn Ha Hb E. destruct (no_conflicts_elem _ _ _ _ Hn Ha Hb) as [|Hc]; [done|]. cbn in Hc.
  unfold RefreshTokenModel_conflict in Hc. by rewrite E, String.eqb_refl, orb_true_r in Hc.
Qed.

Lemma revoked_not_refreshed raw pair w w' : valid w -> revoked raw w -> ~ refreshed raw pair w w'.
Proof.
  intros Hv (t & Ht & Eh & Hr) (claims & reg & token & user & at_ & now & new & _ & _ & Hin & Eh' & Hn & _).
  apply Hr. by rewrite (same_token _ t token (Hv TToken) Ht Hin) by congruence.
Qed.

Lemma revoked_after raw raw' at_ now more w w' : tbl TToken w' = revoke raw' at_ now (tbl TToken w) ++ more ->
  revoked raw w -> revoked raw w'.
Proof.
  intros E (t & Ht & Eh & Hr). destruct (has_hash raw' t) eqn:Eh'.
  - exists { t with rt_RevokedAt := Some at_; rt_UpdatedAt := now }. rewrite E. split; [|done].
    apply elem_of_app. left. apply elem_of_set_where. left. by exists t.
  - exists t. rewrite E. split; [|done]. apply elem_of_app. left. apply elem_of_set_where. by right.
Qed.
Lemma revoke_revoked raw at_ now more w w' : tbl TToken w' = revoke raw at_ now (tbl TToken w) ++ more ->
  (exists t, t ∈ tbl TToken w /\ rt_TokenHash t = hashToken raw) -> revoked raw w'.
Proof.
  intros E (t & Ht & Eh). exists { t with rt_RevokedAt := Some at_; rt_UpdatedAt := now }. rewrite E. split; [|done].
  apply elem_of_app. left. apply elem_of_set_where. left. exists t. split_and!; [done|by apply String.eqb_eq|done].
Qed.
Lemma revoked_same raw w w' : tbl TToken w' = tbl TToken w -> revoked raw w -> revoked raw w'.
Proof. unfold revoked. by intros ->. Qed.

(** ** What the services do to the tokens *)
Inductive AuthOp : Type :=
| OpLogin (req : LoginRequest)
| OpRefresh (raw : string)
| OpLogout (raw : string)
| OpRequest (rawAuth : string).
Definition run_auth_op w (op : AuthOp) : World :=
  match op with
  | OpLogin req => snd (AuthService_Login tokens req w)
  | OpRefresh raw => snd (AuthService_Refresh tokens raw w)
  | OpLogout raw => snd (AuthService_Logout raw w)
  | OpRequest rawAuth => snd (RequireAuth tokens rawAuth w)
  end.

(** Operations other than refreshing keep the tokens but for additions
    and revocations. *)
Lemma wp_Login req (Q : result GoErr LoginResponse -> World -> Prop) w :
  (forall e w', frames [] w w' -> Q (Err e) w') ->
  (forall user pair new w', frames [TToken] w w' -> user ∈ tbl TUser w -> u_Username user = lr_Username req ->
     u_Status user <> StatusLocked -> Compare (u_PasswordHash user) (lr_Password req) = true ->
     tbl TToken w' = tbl TToken w ++ [new] -> stored user pair new ->
     (exists n, w_reads w <= n /\ issued user TokenTypeAccess (jwt_accessTTL tokens) (w_clock w n) (tp_AccessToken pair)) ->
     Q (Ok {| lg_User := toUserSummary user; lg_Tokens := pair |}) w') ->
  wp (AuthService_Login tokens req) Q w.
Proof.
  intros He Hk. apply wp_bind_or, wp_find_username.
  { intros e w1 Hs _. destruct (err_is e ErrNotFound); by apply He, same_frames. }
  intros user w1 Hs Hu En. apply (same_frames []) in Hs as Hf1.
  destruct (String.eqb_spec (u_Status user) StatusLocked) as [|Hst]; [by apply He|].
  destruct (Compare _ _) eqn:Ec; cbn [negb]; [|by apply He].
  apply wp_bind, wp_issuePair; [intros e w2 Hf2; apply He; by eapply frames_trans|].
  intros pair new w2 Hf2 Et Hst2 Ha. apply wp_ret, (Hk user pair new); try done.
  - eapply frames_trans; [eapply frames_mono; [exact Hf1|set_solver]|done].
  - by rewrite <- (frames_tbl _ _ _ TToken Hf1) by set_solver.
  - exists (w_reads w1). destruct Hf1 as (_ & _ & Hc & Hle). split; [done|]. unfold the_time in Ha. by rewrite Hc in Ha.
Qed.

(** A request's identity: the live user its valid access token names. *)
Definition identified (rawAuth : string) (auth : RequestAuth) w : Prop :=
  exists claims reg user,
    has_prefix rawAuth "Bearer " = true /\
    ParseWithClaims (jwt_secret tokens) (the_time w) (trim_space (trim_prefix rawAuth "Bearer ")) = Ok (claims, reg) /\
    cl_TokenType claims = TokenTypeAccess /\ user ∈ tbl TUser w /\ u_ID user = cl_UserID claims /\
    u_TokenVersion user = cl_TokenVersion claims /\ u_Status user <> StatusLocked /\
    ra_UserID auth = u_ID user /\ ra_Username auth = u_Username user /\ ra_RoleKey auth = u_RoleKey user /\
    ra_Status auth = u_Status user /\ ResolveCapabilities (u_RoleKey user) = Ok (ra_Capabilities auth).

Lemma wp_RequireAuth rawAuth (Q : result GoErr AuthOutcome -> World -> Prop) w :
  (forall status code w', frames [] w w' -> (status = 401 \/ status = 403)%Z -> Q (Ok (Refused status code)) w') ->
  (forall auth w', frames [] w w' -> identified rawAuth auth w -> Q (Ok (Authenticated auth)) w') ->
  wp (RequireAuth tokens rawAuth) Q w.
Proof.
  intros Hr Hk. unfold RequireAuth. destruct (_ || _) eqn:Eh; [apply wp_ret, Hr; [apply frames_refl|by left]|].
  apply orb_false_iff in Eh as [_ Eh%negb_false_iff].
  apply wp_bind_or, wp_validateToken; [intros e w1 Hf; apply wp_ret, Hr; [done|by left]|].
  intros claims reg w1 Hf1 Hp Htype. apply wp_bind_or, wp_find_by_id.
  { intros e w2 Hf2. apply wp_ret, Hr; [by eapply frames_trans|by left]. }
  intros user w2 Hf2 Hu Huid. pose proof (frames_trans _ _ _ _ Hf1 Hf2) as Hf.
  destruct (Z.eqb_spec (u_TokenVersion user) (cl_TokenVersion claims)) as [Ev|]; cbn [negb]; [|apply wp_ret, Hr; [done|by left]].
  destruct (String.eqb_spec (u_Status user) StatusLocked) as [|Hst]; [apply wp_ret, Hr; [done|by right]|].
  destruct (ResolveCapabilities (u_RoleKey user)) as [caps|] eqn:Ec; [|apply wp_ret, Hr; [done|by left]].
  apply wp_ret, Hk; [done|]. rewrite (frames_tbl _ _ _ TUser Hf1) in Hu by set_solver.
  exists claims, reg, user. by split_and!.
Qed.

Lemma run_auth_op_revoked raw w op : valid w -> revoked raw w ->
  valid (run_auth_op w op) /\ revoked raw (run_auth_op w op).
Proof.
  intros Hv Hr. set (P := fun w' : World => valid w' /\ revoked raw w').
  assert (forall w', frames [] w w' -> P w') as Hsame.
  { intros w' Hf. split; [by apply Hf|]. eapply revoked_same; [|done]. apply (frames_tbl _ _ _ _ Hf). set_solver. }
  assert (forall raw' at_ now more w', frames [TToken] w w' ->
    tbl TToken w' = revoke raw' at_ now (tbl TToken w) ++ more -> P w') as Hrev.
  { intros raw' at_ now more w' Hf E. split; [by apply Hf|]. by eapply revoked_after. }
  destruct op as [req|raw'|raw'|rawAuth]; unfold run_auth_op.
  - apply (wp_Login req (fun _ => P)); [auto|]. intros user pair new w' Hf _ _ _ _ E _ _. split; [by apply Hf|].
    destruct Hr as (t & Ht & Eh & Hn). exists t. rewrite E. split; [|done]. apply elem_of_app. by left.
  - apply (wp_Refresh raw' (fun _ => P)); [auto| |].
    + intros e at_ now w' Hf E. apply (Hrev raw' at_ now []); [done|]. by rewrite app_nil_r.
    + intros pair w' Hf (? & ? & ? & ? & at_ & now & new & _ & _ & _ & _ & _ & _ & _ & _ & _ & _ & E & _). by eapply Hrev.
  - apply (wp_revoke raw' (fun _ => P)); [auto|]. intros at_ now w' Hf _ E. apply (Hrev raw' at_ now []); [done|].
    by rewrite app_nil_r.
  - apply (wp_RequireAuth rawAuth (fun _ => P)); auto.
Qed.
Lemma run_auth_ops_revoked raw ops w : valid w -> revoked raw w ->
  valid (fold_left run_auth_op ops w) /\ revoked raw (fold_left run_auth_op ops w).
Proof.
  revert w; induction ops as [|op ops IH]; intros w Hv Hr; [done|]. cbn. destruct (run_auth_op_revoked raw w op Hv Hr). auto.
Qed.

Lemma revoked_refused raw w : valid w -> revoked raw w -> is_ok (fst (AuthService_Refresh tokens raw w)) = false.
Proof.
  intros Hv Hr. apply (wp_Refresh raw (fun res _ => is_ok res = false)); [done|done|].
  intros pair w' _ Hf. by apply (revoked_not_refreshed raw pair w w') in Hf.
Qed.
End Rules.

(** ** Properties *)
Section Properties.
Context `{DatabaseLaws} {PH : PasswordHasher} `{TimeFormat} `{JL : JwtLibrary Claims} {UL : UuidLibrary}
  {JLaws : JwtLaws} {ULaws : UuidLaws}.
Context (tokens : JWTTokenService).
Implicit Types w : World.

(** A refresh succeeds only with a valid refresh token that is stored,
    not revoked and not past its time, for a user who exists, is not locked
    and whose token version it carries; it then revokes that token, and
    that one alone, and stores one new token of the same user.  A refresh
    that fails stores nothing and at most revokes the token. *)
Theorem refresh_rotates raw w :
  let '(res, w') := AuthService_Refresh tokens raw w in
  match res with
  | Ok issued => frames [TToken] w w' /\ refreshed tokens raw issued w w'
  | Err e => frames [TToken] w w' /\
      (tbl TToken w' = tbl TToken w \/ exists at_ now, tbl TToken w' = revoke raw at_ now (tbl TToken w))
  end.
Proof.
  apply run_wp. apply wp_Refresh; [|eauto 6|done]. intros e w' Hf. split; [eapply frames_mono; [done|set_solver]|].
  left. apply (frames_tbl _ _ _ _ Hf). set_solver.
Qed.

(** C8: a refresh token is good for one refresh: after it was used, or
    after a logout with it, no refresh with it succeeds any more, whatever
    logins, refreshes, logouts and requests come in between. *)
Theorem refresh_single_use raw ops w (Hvalid : valid w) :
  (is_ok (fst (AuthService_Refresh tokens raw w)) = true ->
   is_ok (fst (AuthService_Refresh tokens raw
     (fold_left (run_auth_op tokens) ops (snd (AuthService_Refresh tokens raw w))))) = false) /\
  (is_ok (fst (AuthService_Logout raw w)) = true ->
   is_ok (fst (AuthService_Refresh tokens raw
     (fold_left (run_auth_op tokens) ops (snd (AuthService_Logout raw w))))) = false).
Proof.
  assert (forall w1, valid w1 /\ revoked raw w1 ->
    is_ok (fst (AuthService_Refresh tokens raw (fold_left (run_auth_op tokens) ops w1))) = false) as Hk.
  { intros w1 [Hv Hr]. destruct (run_auth_ops_revoked tokens raw ops w1 Hv Hr). by apply revoked_refused. }
  split.
  - apply (wp_Refresh tokens raw (fun res w1 => is_ok res = true ->
      is_ok (fst (AuthService_Refresh tokens raw (fold_left (run_auth_op tokens) ops w1))) = false)); [done|done|].
    intros pair w1 Hf (c & reg & t & u & at_ & now & new & _ & _ & Ht & Eh & _ & _ & _ & _ & _ & _ & E & _) _.
    apply Hk. split; [by apply Hf|]. eapply revoke_revoked; [exact E|]. by exists t.
  - apply (wp_revoke raw (fun res w1 => is_ok res = true ->
      is_ok (fst (AuthService_Refresh tokens raw (fold_left (run_auth_op tokens) ops w1))) = false)); [done|].
    intros at_ now w1 Hf (t & Ht & Eh%String.eqb_eq) E _. apply Hk. split; [by apply Hf|].
    eapply revoke_revoked; [|by exists t]. rewrite E. symmetry. apply app_nil_r.
Qed.

(** A login succeeds only for an existing user who is not locked, with
    the password of the stored hash, and stores one refresh token of that
    user; a login that fails changes nothing. *)
Theorem login_spec req w :
  let '(res, w') := AuthService_Login tokens req w in
  match res with
  | Ok resp => frames [TToken] w w' /\ exists user new,
      user ∈ tbl TUser w /\ u_Username user = lr_Username req /\ u_Status user <> StatusLocked /\
      Compare (u_PasswordHash user) (lr_Password req) = true /\ lg_User resp = toUserSummary user /\
      tbl TToken w' = tbl TToken w ++ [new] /\ stored user (lg_Tokens resp) new
  | Err e => frames [] w w'
  end.
Proof.
  apply run_wp. apply wp_Login; [done|]. intros user pair new w' Hf Hu En Hs Hc E Hst _. split; [done|].
  exists user, new. by split_and!.
Qed.

(** A request is authenticated only by a bearer header with a valid
    access token of a user who exists, is not locked and has that token
    version, and gets that user's identity and exactly the capabilities of
    the user's role; otherwise it is answered with 401 or 403.  Either way
    nothing changes. *)
Theorem require_auth_spec rawAuth w :
  let '(res, w') := RequireAuth tokens rawAuth w in
  frames [] w w' /\
  match res with
  | Ok (Authenticated auth) => identified tokens rawAuth auth w
  | Ok (Refused status _) => (status = 401 \/ status = 403)%Z
  | Err _ => False
  end.
Proof. apply run_wp. by apply wp_RequireAuth. Qed.

(** *** Revocation *)
(** Requests of the users and of the administrators. *)
Inductive SessionOp : Type :=
| BySession (op : AuthOp)
| ByAdministrator (op : UserOp).
Definition run_session_op (rec : bool) w (op : SessionOp) : World :=
  match op with
  | BySession op => run_auth_op tokens w op
  | ByAdministrator op => run_user_op rec w op
  end.

(** A user's row may get a new token version, the next one; a new user has
    a new ID. *)
Definition next_version (u u' : User) : Prop :=
  u_ID u' = u_ID u /\ (u_TokenVersion u' = u_TokenVersion u \/ u_TokenVersion u' = int_add (u_TokenVersion u) 1).
Definition versions_step w w' : Prop :=
  (forall u', u' ∈ tbl TUser w' -> (exists u, u ∈ tbl TUser w /\ next_version u u') \/ forall u, u ∈ tbl TUser w -> u_ID u <> u_ID u') /\
  forall u, u ∈ tbl TUser w -> exists u', u' ∈ tbl TUser w' /\ u_ID u' = u_ID u.
Lemma same_versions w w' : tbl TUser w' = tbl TUser w -> versions_step w w'.
Proof. intros E. split; rewrite E; [intros u Hu; left; exists u; by split; [|split; [|left]]|by intros u Hu; exists u]. Qed.
Lemma set_versions w w' p f : tbl TUser w' = set_where p f (tbl TUser w) ->
  (forall u, u ∈ tbl TUser w -> p u = true -> next_version u (f u)) -> versions_step w w'.
Proof.
  intros E Hf. split.
  - intros u'. rewrite E, elem_of_set_where. intros [(u & Hu & Hp & ->)|[Hu _]]; left; [by exists u; split; [|apply Hf]|].
    exists u'. by split; [|split; [|left]].
  - intros u Hu. rewrite E. destruct (p u) eqn:Ep.
    + exists (f u). split; [apply elem_of_set_where; left; by exists u|]. by apply Hf.
    + exists u. split; [|done]. apply elem_of_set_where. by right.
Qed.
Lemma user_op_versions {PL : PasswordHasherLaws} rec w op : valid w -> valid (run_user_op rec w op) /\ versions_step w (run_user_op rec w op).
Proof.
  intros Hv. set (P := fun w' : World => valid w' /\ versions_step w w').
  assert (forall w', frames [TAudit] w w' -> P w') as Herr.
  { intros w' Hf. split; [by apply Hf|]. by apply same_versions, (frames_users _ _ Hf). }
  destruct op as [ctx req|ctx id req|ctx id req|ctx id]; unfold run_user_op.
  - apply (wp_UserService_Create rec ctx req (fun _ => P)); [auto|].
    intros view w' (actor & role & h & id & now & _ & _ & _ & Hnew & _ & E & _) Hf. split; [by apply Hf|]. split; rewrite E.
    + intros u' [Hu'| ->%list_elem_of_singleton]%elem_of_app; [left; exists u'; by split; [|split; [|left]]|right].
      intros u Hu. by apply Hnew.
    + intros u Hu. exists u. split; [|done]. apply elem_of_app. by left.
  - apply (wp_UserService_Update rec ctx id req (fun _ => P)); [auto|].
    intros view w' (actor & user & role & status & now & _ & Hin & _ & _ & _ & _ & _ & _ & E & _) Hf. split; [by apply Hf|].
    eapply set_versions; [exact E|]. intros u Hu Ei%N.eqb_eq. rewrite (same_id_same_user _ u user (Hv TUser)) by done.
    split; [done|]. cbn. destruct (_ || _); [by right|by left].
  - apply (wp_UserService_ResetPassword rec ctx id req (fun _ => P)); [auto|].
    intros user h now w' Hin _ _ E Hf. split; [by apply Hf|]. eapply set_versions; [exact E|].
    intros u Hu Ei%N.eqb_eq. rewrite (same_id_same_user _ u user (Hv TUser)) by done. split; [done|by left].
  - apply (wp_UserService_RevokeTokens rec ctx id (fun _ => P)); [auto|].
    intros user now w' Hin Hid E Hf. split; [by apply Hf|]. eapply set_versions; [exact E|].
    intros u Hu Ei%N.eqb_eq. rewrite (same_id_same_user _ u user (Hv TUser)) by (congruence || done). split; [done|by right].
Qed.
Lemma auth_op_versions w op : valid w -> valid (run_auth_op tokens w op) /\ versions_step w (run_auth_op tokens w op).
Proof.
  intros Hv. set (P := fun w' : World => valid w' /\ versions_step w w').
  assert (forall ts w', frames ts w w' -> TUser ∉ ts -> P w') as Hk.
  { intros ts w' Hf Ht. split; [by apply Hf|]. by apply same_versions, (frames_tbl ts w w' TUser). }
  assert (forall w', frames [] w w' -> P w') as Hk0 by (intros w' Hf; apply (Hk [] w' Hf); set_solver).
  assert (forall w', frames [TToken] w w' -> P w') as Hk1 by (intros w' Hf; apply (Hk [TToken] w' Hf); set_solver).
  destruct op as [req|raw|raw|rawAuth]; unfold run_auth_op.
  - apply (wp_Login tokens req (fun _ => P)); auto.
  - apply (wp_Refresh tokens raw (fun _ => P)); auto.
  - apply (wp_revoke raw (fun _ => P)); auto.
  - apply (wp_RequireAuth tokens rawAuth (fun _ => P)); auto.
Qed.

(** The user's version was counted up, at least once and at most [n] times. *)
Definition counted_up (id : N) (v n : Z) w : Prop :=
  (exists u, u ∈ tbl TUser w /\ u_ID u = id) /\
  forall u, u ∈ tbl TUser w -> u_ID u = id -> exists k, (1 <= k <= n)%Z /\ u_TokenVersion u = wrap64 (v + k).
Lemma counted_up_step id v n w w' : counted_up id v n w -> versions_step w w' -> counted_up id v (n + 1) w'.
Proof.
  intros [(u0 & Hu0 & E0) Hc] [Hs Hx]. split.
  { destruct (Hx u0 Hu0) as (u' & Hu' & E). exists u'. split; [done|congruence]. }
  intros u' Hu' Ei. destruct (Hs u' Hu') as [(u & Hu & Eu & Ev)|Hn]; [|destruct (Hn u0 Hu0); congruence].
  destruct (Hc u Hu ltac:(congruence)) as (k & Hk & Ek). destruct Ev as [-> | ->].
  - exists k. split; [lia|done].
  - exists (k + 1)%Z. split; [lia|]. by rewrite Ek, wrap64_succ.
Qed.
Lemma counted_up_run {PL : PasswordHasherLaws} rec id v ops n w : valid w -> counted_up id v n w ->
  counted_up id v (n + Z.of_nat (length ops)) (fold_left (run_session_op rec) ops w).
Proof.
  revert n w. induction ops as [|op ops IH]; intros n w Hv Hc; [by rewrite Z.add_0_r|]. cbn [fold_left length].
  replace (n + Z.of_nat (S (length ops)))%Z with (n + 1 + Z.of_nat (length ops))%Z by lia.
  assert (valid (run_session_op rec w op) /\ versions_step w (run_session_op rec w op)) as [Hv' Hs].
  { destruct op; [by apply auth_op_versions|by apply user_op_versions]. }
  apply IH; [done|]. by eapply counted_up_step.
Qed.

(** C36: After an administrator revoked a user's tokens, and whatever
    logins, refreshes, logouts, requests and operations on users come in
    between (fewer than 2^64 - 1 of them, as the versions wrap around), an
    access token that carries the user's ID and the version of before the
    revocation gets no request through: it is answered with a refusal; and
    a refresh with a refresh token of that version fails. *)
Theorem revoked_tokens_refused {PL : PasswordHasherLaws} rec ctx id w (Hvalid : valid w) :
  is_ok (fst (UserService_RevokeTokens rec ctx id w)) = true ->
  exists user, user ∈ tbl TUser w /\ u_ID user = id /\
    forall ops, (Z.of_nat (length ops) < 2 ^ 64 - 1)%Z ->
    let w' := fold_left (run_session_op rec) ops (snd (UserService_RevokeTokens rec ctx id w)) in
    forall raw, (forall claims reg, ParseWithClaims (jwt_secret tokens) (the_time w') raw = Ok (claims, reg) ->
                   cl_UserID claims = id /\ cl_TokenVersion claims = u_TokenVersion user) ->
    (forall header, trim_space (trim_prefix header "Bearer ") = raw ->
       exists status code, fst (RequireAuth tokens header w') = Ok (Refused status code)) /\
    is_ok (fst (AuthService_Refresh tokens raw w')) = false.
Proof.
  assert (wp (UserService_RevokeTokens rec ctx id) (fun res w1 => is_ok res = true -> exists user now, user ∈ tbl TUser w /\ u_ID user = id /\
    tbl TUser w1 = with_token_version id (int_add (u_TokenVersion user) 1) now (tbl TUser w) /\ frames [TUser; TAudit] w w1) w) as Hr.
  { apply wp_UserService_RevokeTokens; [done|]. intros user now w1 Hu Hid Et Hf _. by exists user, now. }
  unfold wp in Hr. intros Hok. destruct (Hr Hok) as (user & now & Hu & Hid & Et & Hf). clear Hr.
  set (w1 := snd (UserService_RevokeTokens rec ctx id w)) in *.
  exists user. split; [done|]. split; [done|]. intros ops Hn w' raw Hraw.
  assert (counted_up id (u_TokenVersion user) 1 w1) as Hc.
  { split.
    - exists (touch TUser now { user with u_TokenVersion := int_add (u_TokenVersion user) 1 }). split; [|exact Hid]. rewrite Et.
      apply elem_of_set_where. left. exists user. split_and!; [done|by apply N.eqb_eq|done].
    - intros u. rewrite Et. intros [(y & _ & _ & ->)|[_ Hne%N.eqb_neq]]%elem_of_set_where Ei; [|done]. exists 1%Z. split; [lia|done]. }
  apply (counted_up_run rec id _ ops) in Hc as [_ Hc]; [|by apply Hf]. fold w' in Hc.
  assert (forall u c, u ∈ tbl TUser w' -> u_ID u = cl_UserID c -> u_TokenVersion u = cl_TokenVersion c ->
    (exists reg, ParseWithClaims (jwt_secret tokens) (the_time w') raw = Ok (c, reg)) -> False) as Hno.
  { intros u c Hin Eu Ev [reg Hp]. destruct (Hraw c reg Hp) as [Ec Ecv]. destruct (Hc u Hin) as (k & Hk & Ek); [congruence|].
    apply (wrap64_ne (u_TokenVersion user) k); [lia|congruence]. }
  split.
  - intros header Eh. apply (wp_RequireAuth tokens header (fun res _ => exists status code, res = Ok (Refused status code))); [eauto|].
    intros auth w2 _ (c & reg & u & _ & Hp & _ & Hin & Eu & Ev & _). rewrite Eh in Hp. destruct (Hno u c); eauto.
  - apply (wp_Refresh tokens raw (fun res _ => is_ok res = false)); [done|done|].
    intros pair w2 _ (c & reg & t & u & at_ & nw & new & Hp & _ & _ & _ & _ & _ & Hin & Eu & Ev & _). destruct (Hno u c); eauto.
Qed.

(** The access token of a login authenticates the user, with the
    role's capabilities, at any later time before its expiry at which the
    users are as they were and can be read. *)
Theorem login_authenticates req w :
  match AuthService_Login tokens req w with
  | (Ok resp, _) => exists user n, user ∈ tbl TUser w /\ lg_User resp = toUserSummary user /\ w_reads w <= n /\
      forall w2 caps, valid w2 -> tbl TUser w2 = tbl TUser w -> ResolveCapabilities (u_RoleKey user) = Ok caps ->
        (NumericDate (w_clock w n) * second <= the_time w2 < NumericDate (w_clock w n + jwt_accessTTL tokens) * second)%Z ->
        is_ok (fst (UserRepository_FindByID (u_ID user) { w2 with w_reads ::= S })) = true ->
        fst (RequireAuth tokens ("Bearer " +:+ tp_AccessToken (lg_Tokens resp)) w2) =
          Ok (Authenticated {| ra_UserID := u_ID user; ra_Username := u_Username user; ra_RoleKey := u_RoleKey user;
                               ra_Status := u_Status user; ra_Capabilities := caps |})
  | (Err _, _) => True
  end.
Proof.
  pose proof (wp_Login tokens req (fun res _ => match res with Ok resp => exists user n, user ∈ tbl TUser w /\
    lg_User resp = toUserSummary user /\ u_Status user <> StatusLocked /\ w_reads w <= n /\
    issued tokens user TokenTypeAccess (jwt_accessTTL tokens) (w_clock w n) (tp_AccessToken (lg_Tokens resp))
    | Err _ => True end) w) as Hl. unfold wp in Hl.
  destruct (AuthService_Login tokens req w) as [[resp|e] w1]; [|done]. cbn in Hl.
  destruct Hl as (user & n & Hu & Hs & Hst & Hn & reg & Hsign & Hnbf & Hexp); [done| |].
  { intros user tp new w' _ Hu _ Hst _ _ _ (n & Hn & Hi). by exists user, n. }
  exists user, n. split_and!; try done. intros w2 caps Hv Et Hcaps Ht Hok. unfold RequireAuth.
  rewrite has_prefix_app, trim_prefix_app. cbn [String.eqb String.append orb negb].
  rewrite (signed_trimmed _ _ _ _ Hsign). unfold bind_or at 1, ValidateAccessToken, validateToken, bind, time_now, lift_result.
  rewrite <- Hnbf, <- Hexp in Ht. rewrite (parse_signed _ _ _ _ _ Hsign Ht). cbn [fst cl_TokenType].
  rewrite String.eqb_refl. cbn [negb ret cl_UserID]. unfold bind_or, ret.
  pose proof (wp_find_by_id (u_ID user) (fun res _ => forall u, res = Ok u -> u = user) { w2 with w_reads ::= S }) as Hf.
  unfold wp in Hf. destruct (UserRepository_FindByID _ _) as [[u|] w3]; [|discriminate Hok]. cbn in Hf.
  rewrite (Hf ltac:(done)) with (u := u); [| |done].
  - cbn. rewrite Z.eqb_refl. cbn. apply String.eqb_neq in Hst as ->. by rewrite Hcaps.
  - intros u' w' _ Hu' Eid u'' [= <-]. change (tbl TUser { w2 with w_reads ::= S }) with (tbl TUser w2) in Hu'.
    rewrite <- Et in Hu. by apply (same_id_same_user (tbl TUser w2) u' user (Hv TUser)).
Qed.
End Properties.

(** ** The first start and the configuration *)
Section Setup.
Context `{DatabaseLaws} {PH : PasswordHasher} {PL : PasswordHasherLaws} `{TimeFormat} `{JL : JwtLibrary Claims}
  {UL : UuidLibrary} {JLaws : JwtLaws} {ULaws : UuidLaws} {LF : LocalFiles} {MS : MetadataSourceMountSyncer}.
Context (tokens : JWTTokenService) (options : SystemOptions) (rec mountSyncer : bool).
Implicit Types w : World.

Lemma wp_UserCount (Q : result GoErr Z -> World -> Prop) w :
  (forall e w', frames [] w w' -> db_error e -> Q (Err e) w') ->
  (forall w', frames [] w w' -> Q (Ok (Z.of_nat (length (tbl TUser w)))) w') -> wp UserRepository_Count Q w.
Proof.
  intros He Hk. apply wp_bind, (wp_select TUser); [intros e w' Hs Hd; apply He; [by apply same_frames|done]|].
  intros all w' Hs Hp _. apply wp_ret. cbn [limited]. rewrite Hp, sel_all by done. by apply Hk, same_frames.
Qed.

(** Storing a configuration under the smallest id makes it the current
    one. *)
Lemma config_updated cfg f w w' : tbl TConfig w' = set_where (fun c => N.eqb (cfg_ID c) (cfg_ID cfg)) f (tbl TConfig w) ->
  existsb (fun c => N.eqb (cfg_ID c) (cfg_ID cfg)) (tbl TConfig w) = true ->
  (forall c, cfg_ID (f c) = cfg_ID c /\ toSystemConfigPublic (f c) = toSystemConfigPublic cfg) ->
  (forall c, c ∈ tbl TConfig w -> (cfg_ID cfg <= cfg_ID c)%N) ->
  forall c, is_config w' c -> toSystemConfigPublic c = toSystemConfigPublic cfg.
Proof.
  intros E (x & Hx%list_elem_of_In & Ex)%existsb_exists Hf Hmin c [Hc Hleast]. rewrite E in Hc, Hleast.
  assert (cfg_ID c <= cfg_ID (f x))%N as Hle by (apply Hleast, elem_of_set_where; left; by exists x).
  destruct (Hf x) as [Ei _]. apply N.eqb_eq in Ex.
  apply elem_of_set_where in Hc as [(y & _ & _ & ->)|[Hc Hn%N.eqb_neq]]; [apply Hf|].
  specialize (Hmin c Hc). lia.
Qed.
Lemma config_inserted cfg r w w' : tbl TConfig w' = tbl TConfig w ++ [r] ->
  existsb (fun c => N.eqb (cfg_ID c) (cfg_ID cfg)) (tbl TConfig w) = false ->
  cfg_ID r = cfg_ID cfg -> toSystemConfigPublic r = toSystemConfigPublic cfg ->
  (forall c, c ∈ tbl TConfig w -> (cfg_ID cfg <= cfg_ID c)%N) ->
  forall c, is_config w' c -> toSystemConfigPublic c = toSystemConfigPublic cfg.
Proof.
  intros E Hex Ei Ep Hmin c [Hc Hleast]. rewrite E in Hc, Hleast.
  apply elem_of_app in Hc as [Hc|Hc%list_elem_of_singleton]; [|by rewrite Hc].
  assert (cfg_ID c <= cfg_ID r)%N as Hle by (apply Hleast, elem_of_app; right; by left). specialize (Hmin c Hc).
  exfalso. apply not_true_iff_false in Hex. apply Hex, existsb_exists. exists c. rewrite <- list_elem_of_In, N.eqb_eq.
  split; [done|lia].
Qed.

Lemma wp_upsert_config cfg (Q : result GoErr SystemConfig -> World -> Prop) w : cfg_ID cfg <> 0%N ->
  (forall c, c ∈ tbl TConfig w -> (cfg_ID cfg <= cfg_ID c)%N) ->
  (forall e w', frames [] w w' -> Q (Err e) w') ->
  (forall r w', frames [TConfig] w w' -> toSystemConfigPublic r = toSystemConfigPublic cfg ->
     tbl TConfig w' <> [] -> (forall c, is_config w' c -> toSystemConfigPublic c = toSystemConfigPublic cfg) ->
     Q (Ok r) w') ->
  wp (SystemConfigRepository_Upsert cfg) Q w.
Proof.
  intros Hid Hmin He Hk. unfold SystemConfigRepository_Upsert.
  destruct (N.eqb_spec (cfg_ID cfg) 0) as [|Hz]; [done|]. apply wp_bind, (wp_upsert TConfig).
  { intros e w' Hs _. by apply He, same_frames. }
  - intros id now now' w' r' l Hex Hn Hp. apply wp_ret, Hk; [by apply (put_frames _ _ _ _ Hp)|done| |].
    { destruct Hp as [-> _]. unfold l. by destruct (tbl TConfig w). }
    destruct Hp as [E _]. eapply config_updated; [exact E|done| |done]. by intros c.
  - intros id now w' r' Hex _ Ha Hp. apply wp_ret, Hk; [|done| |].
    + apply (put_frames _ _ _ _ Hp). intros Hv. by apply absent_no_conflicts.
    + destruct Hp as [-> _]. by destruct (tbl TConfig w).
    + destruct Hp as [E _]. eapply config_inserted; [exact E|done| |done|done]. cbn. unfold or_zero_N.
      by apply N.eqb_neq in Hid as ->.
Qed.

Lemma with_config_public req cfg : toSystemConfigPublic (with_config req cfg) = req.
Proof. by destruct req. Qed.

Lemma wp_config_row (Q : result GoErr SystemConfig -> World -> Prop) w :
  (forall e w', frames [] w w' -> db_error e \/ e = ErrNotFound /\ tbl TConfig w = [] -> Q (Err e) w') ->
  (forall c w', frames [] w w' -> is_config w c -> Q (Ok c) w') -> wp SystemConfigRepository_Get Q w.
Proof.
  intros He Hk. apply (wp_first TConfig).
  - intros e w' Hs Hd. apply He; [by apply same_frames|by left].
  - intros w' Hs Hn. apply He; [by apply same_frames|]. right. split; [done|].
    destruct (tbl TConfig w) as [|c l] eqn:E; [done|]. specialize (Hn c). by discriminate Hn; left.
  - intros c w' Hs Hc _ Hmin. apply Hk; [by apply same_frames|]. split; [done|]. intros c' Hc'.
    specialize (Hmin c' Hc' eq_refl). cbn in Hmin. apply Z.leb_le in Hmin. lia.
Qed.

Lemma wp_current_config ctx (Q : result GoErr SystemConfig -> World -> Prop) w :
  (forall c, c ∈ tbl TConfig w -> cfg_ID c <> 0%N) ->
  (forall e w', frames [TAudit] w w' -> Q (Err e) w') ->
  (forall c w', frames [] w w' -> cfg_ID c <> 0%N -> (forall c', c' ∈ tbl TConfig w -> (cfg_ID c <= cfg_ID c')%N) ->
     Q (Ok c) w') ->
  wp (cfg <-! SystemConfigRepository_Get or err =>
        (if err_is err ErrNotFound then ret (defaultSystemConfigEntity options)
         else refuse rec ctx (event "system_config" "update" ResultFailed "INTERNAL_ERROR" "") err) ;;
      ret cfg) Q w.
Proof.
  intros Hids He Hk. apply wp_bind_or, wp_config_row.
  - intros e w1 Hf1 Herr. destruct (err_is e ErrNotFound) eqn:Ee.
    + apply wp_ret, Hk; [done|done|]. destruct Herr as [Hd|[_ ->]]; [|intros c' Hc; by apply elem_of_nil in Hc].
      exfalso. apply db_error_class in Hd as [-> | [-> | [m ->]]]; discriminate Ee.
    + apply (wp_refuse _ _ _ _ _ w); [eapply frames_mono; [done|set_solver]|auto].
  - intros c w1 Hf1 [Hc Hmin]. apply wp_ret, Hk; auto.
Qed.

(** The configuration reads back as it was last written: a successful
    update answers with the requested configuration, and every read of it
    thereafter returns it or fails with a database error; a failed update
    leaves the configuration as it was. *)
Theorem config_roundtrip ctx req w (Hids : forall c, c ∈ tbl TConfig w -> cfg_ID c <> 0%N) :
  let '(res, w') := SystemService_UpdateConfig options rec ctx req w in
  match res with
  | Ok view => view = req /\ frames [TConfig; TAudit] w w' /\
      forall w2, tbl TConfig w2 = tbl TConfig w' ->
        match fst (SystemService_GetConfig options w2) with Ok c => c = req | Err e => db_error e end
  | Err e => frames [TAudit] w w'
  end.
Proof.
  apply run_wp. unfold SystemService_UpdateConfig. apply wp_bind, wp_current_config; [done|done|].
  intros cfg w1 Hf1 Hid Hmin. assert (tbl TConfig w1 = tbl TConfig w) as Et by (apply (frames_tbl _ _ _ _ Hf1); set_solver).
  apply wp_bind_or, wp_upsert_config; [done|by rewrite Et| |].
  { intros e w2 Hf2. apply (wp_refuse _ _ _ _ _ w); [|done]. eapply frames_mono; [by eapply frames_trans|set_solver]. }
  intros r w2 Hf2 Hr Hne Hcfg. rewrite with_config_public in Hr, Hcfg.
  apply wp_bind, wp_audit. intros w3 Hf3. apply wp_ret. split; [done|]. split.
  { eapply frames_trans; [eapply frames_mono; [exact Hf1|set_solver]|].
    eapply frames_trans; [eapply frames_mono; [exact Hf2|set_solver]|]. eapply frames_mono; [exact Hf3|set_solver]. }
  intros w4 E4. rewrite (frames_tbl _ _ _ TConfig Hf3) in E4 by set_solver.
  apply (wp_bind_or SystemConfigRepository_Get _ _ (fun res _ => match res with Ok c => c = req | Err e => db_error e end)).
  apply wp_config_row.
  - intros e w5 _ [Hd|[_ En]]; [|by rewrite E4 in En]. destruct (err_is e ErrNotFound) eqn:Ee; [|done].
    exfalso. apply db_error_class in Hd as [-> | [-> | [m ->]]]; discriminate Ee.
  - intros c w5 _ Hc. apply wp_ret, Hcfg. unfold is_config in *. by rewrite <- E4.
Qed.

(** What the first start relies on: directories are outside the database,
    and (above) the mount synchronisation only touches nodes and mounts. *)
Class SetupLaws : Prop := mkdir_law : forall p w, wp (MkdirAll p) (fun _ w' => frames [] w w') w.
Context {SL : SetupLaws} {ML : MetadataSourceMountSyncerLaws}.

Lemma wp_default_source (Q : result GoErr StorageSource -> World -> Prop) w :
  (forall e w', frames [TSource] w w' -> Q (Err e) w') ->
  (forall s w', frames [TSource] w w' -> s ∈ tbl TSource w' -> src_IsEnabled s = true -> Q (Ok s) w') ->
  wp (ensureDefaultLocalSource options) Q w.
Proof.
  intros He Hk. apply wp_bind, (wp_select TSource); [intros e w1 Hs _; by apply He, same_frames|].
  intros all w1 Hs Hp _. cbn [limited]. destruct all as [|s l].
  - apply wp_bind. eapply wp_mono; [apply mkdir_law|]. intros res w2 Hf2. cbn beta in Hf2.
    assert (frames [TSource] w w2) as Hf by (eapply frames_trans; [by apply same_frames|]; eapply frames_mono; [done|set_solver]).
    destruct res as [u|e]; [|by apply He]. apply wp_bind, wp_time_now. set (w3 := { w2 with w_reads ::= S }).
    assert (frames [TSource] w w3) as Hf3 by (eapply frames_trans; [done|apply tick_frames]).
    apply (wp_insert TSource); [intros e w4 Hs4 _; apply He; by eapply frames_same|].
    intros id now w4 r _ Ha Hp4. apply Hk; [|destruct Hp4 as [-> _]; apply elem_of_app; right; by left|done].
    eapply frames_trans; [exact Hf3|]. apply (put_frames _ _ _ _ Hp4). intros Hv. by apply absent_no_conflicts.
  - apply wp_ret. assert (s ∈ s :: l) as Hin by left. rewrite Hp in Hin. apply elem_of_sel in Hin as [Hin Hen].
    apply Hk; [by apply same_frames| |done]. by destruct Hs as [-> _].
Qed.

(** The tables the rest of the first start may change. *)
Definition setup_tables : list Table := [TSource; TNode; TMount; TConfig; TToken; TAudit].
Definition set_up (user : User) (summary : UserSummary) (tp : TokenPair) w' : Prop :=
  summary = toUserSummary user /\
  (exists s, s ∈ tbl TSource w' /\ src_IsEnabled s = true /\
     forall c, is_config w' c -> cfg_DefaultSourceID c = Some (src_ID s)) /\
  exists new, new ∈ tbl TToken w' /\ stored user tp new.

Lemma wp_setup_rest ctx user (Q : result GoErr (UserSummary * TokenPair) -> World -> Prop) w :
  (forall c, c ∈ tbl TConfig w -> cfg_ID c <> 0%N) ->
  (forall e w', frames setup_tables w w' -> Q (Err e) w') ->
  (forall summary tp w', frames setup_tables w w' -> set_up user summary tp w' -> Q (Ok (summary, tp)) w') ->
  wp (defaultSource <-! ensureDefaultLocalSource options ;;
      do! (if mountSyncer
           then u <-! SyncSourceMount defaultSource or err => throw (ErrJoin ErrMetadataVFSMountSyncFailed err) ;; ret u
           else ret tt) ;;
      do! SystemConfigRepository_Upsert
        { (defaultSystemConfigEntity options) with cfg_DefaultSourceID := Some (src_ID defaultSource) } ;;
      tokenPair <-! issueAndStoreTokenPair tokens user ;;
      do! recordServiceAudit ctx rec
        { (event "setup" "init" ResultSuccess "" (encodeUintID (u_ID user)))
          with ev_After := [("user", JObj (userAuditView user)); ("default_source_id", JUint (src_ID defaultSource))] } ;;
      ret (toUserSummary user, tokenPair)) Q w.
Proof.
  intros Hids He Hk. assert (forall ts w1 w2, ts ⊆ setup_tables -> frames setup_tables w w1 -> frames ts w1 w2 ->
    frames setup_tables w w2) as Htr.
  { intros ts w1 w2 Hsub Ha Hb. eapply frames_trans; [exact Ha|by eapply frames_mono]. }
  pose proof (frames_refl setup_tables w) as Hf0.
  apply wp_bind, wp_default_source; [intros e w1 Hf1; apply He; eapply Htr; [|done|done]; set_solver|].
  intros s w1 Hf1 Hs Hen. assert (frames setup_tables w w1) as Hg1 by (eapply Htr; [|done|done]; set_solver).
  assert (tbl TConfig w1 = tbl TConfig w) as Ec1 by (apply (frames_tbl _ _ _ _ Hf1); set_solver).
  apply wp_bind. assert (forall (w2 : World), frames [TNode; TMount] w1 w2 ->
    wp (do! SystemConfigRepository_Upsert { (defaultSystemConfigEntity options) with cfg_DefaultSourceID := Some (src_ID s) } ;;
        tokenPair <-! issueAndStoreTokenPair tokens user ;;
        do! recordServiceAudit ctx rec
          { (event "setup" "init" ResultSuccess "" (encodeUintID (u_ID user)))
            with ev_After := [("user", JObj (userAuditView user)); ("default_source_id", JUint (src_ID s))] } ;;
        ret (toUserSummary user, tokenPair)) Q w2) as Hrest.
  { intros w2 Hf2. assert (frames setup_tables w w2) as Hg2 by (eapply Htr; [|done|done]; set_solver).
    assert (tbl TConfig w2 = tbl TConfig w) as Ec2 by (rewrite <- Ec1; apply (frames_tbl _ _ _ _ Hf2); set_solver).
    apply wp_bind, wp_upsert_config; [done| | |].
    - intros c Hc. rewrite Ec2 in Hc. specialize (Hids c Hc). cbn. lia.
    - intros e w3 Hf3. apply He. eapply Htr; [|done|done]. set_solver.
    - intros r w3 Hf3 _ _ Hcfg. assert (frames setup_tables w w3) as Hg3 by (eapply Htr; [|done|done]; set_solver).
      apply wp_bind, wp_issuePair; [intros e w4 Hf4; apply He; eapply Htr; [|done|done]; set_solver|].
      intros tp new w4 Hf4 Et Hst _. assert (frames setup_tables w w4) as Hg4 by (eapply Htr; [|done|done]; set_solver).
      apply wp_bind, wp_audit. intros w5 Hf5. apply wp_ret, Hk; [eapply Htr; [|done|done]; set_solver|].
      split; [done|]. split.
      + exists s. rewrite (frames_tbl _ _ _ TSource Hf5), (frames_tbl _ _ _ TSource Hf4), (frames_tbl _ _ _ TSource Hf3),
          (frames_tbl _ _ _ TSource Hf2) by set_solver. split_and!; [done|done|]. intros c Hc.
        specialize (Hcfg c). unfold is_config in *.
        rewrite (frames_tbl _ _ _ TConfig Hf5), (frames_tbl _ _ _ TConfig Hf4) in Hc by set_solver.
        by injection (Hcfg Hc).
      + exists new. rewrite (frames_tbl _ _ _ TToken Hf5), Et by set_solver. split; [|done]. apply elem_of_app. right; by left. }
  destruct mountSyncer; [|by apply wp_ret, Hrest, frames_refl].
  apply wp_bind_or. eapply wp_mono; [apply sync_law|]. intros [u|e] w2 Hf2; cbn beta in Hf2; [by apply wp_ret, Hrest|].
  apply He. eapply Htr; [|done|done]. set_solver.
Qed.

(** the first start happens at most once: with a user in the system it
    is refused and changes nothing; it succeeds only on an empty system,
    and then the one user is an active super admin with the requested name,
    email and password, a default source exists and is the configured one,
    and the user is logged in. *)
Theorem setup_once ctx req w (Hids : forall c, c ∈ tbl TConfig w -> cfg_ID c <> 0%N) :
  let '(res, w') := SetupService_Init tokens options rec mountSyncer ctx req w in
  match res with
  | Ok (summary, tp) => tbl TUser w = [] /\ exists user, tbl TUser w' = [user] /\
      u_RoleKey user = RoleSuperAdmin /\ u_Status user = StatusActive /\ u_Username user = si_Username req /\
      u_Email user = si_Email req /\ Compare (u_PasswordHash user) (si_Password req) = true /\ set_up user summary tp w'
  | Err e => (tbl TUser w <> [] -> frames [] w w' /\ (e = ErrSetupAlreadyCompleted \/ db_error e)) /\
      length (tbl TUser w') <= max 1 (length (tbl TUser w))
  end.
Proof.
  apply run_wp. assert (forall w', frames [] w w' -> tbl TUser w' = tbl TUser w) as Hu.
  { intros w' Hf. apply (frames_tbl _ _ _ _ Hf). set_solver. }
  apply wp_bind, wp_UserCount; [intros e w1 Hf Hd; split; [auto|]; rewrite Hu by done; lia|].
  intros w1 Hf1. destruct (Z.ltb_spec 0 (Z.of_nat (length (tbl TUser w)))) as [Hpos|Hz].
  { split; [auto|]. rewrite Hu by done. lia. }
  assert (tbl TUser w = []) as En by (destruct (tbl TUser w); [done|cbn in Hz; lia]).
  apply wp_bind, wp_Hash; [intros e w2 Hs2; split; [by rewrite En|]; rewrite Hu by (by eapply frames_same); lia|].
  intros h w2 Hs2 Hh. assert (frames [] w w2) as Hf2 by by eapply frames_same.
  apply wp_bind, (wp_insert TUser); [intros e w3 Hs3 _; split; [by rewrite En|]; rewrite Hu by (by eapply frames_same); lia|].
  intros id now w3 user _ Habs Hp. assert (tbl TUser w3 = [user]) as Eu by (destruct Hp as [-> _]; by rewrite Hu, En by done).
  assert (tbl TConfig w3 = tbl TConfig w) as Ec.
  { destruct Hp as (_ & Ho & _). rewrite Ho by done. apply (frames_tbl _ _ _ _ Hf2). set_solver. }
  apply wp_setup_rest; [by rewrite Ec| |].
  - intros e w4 Hf4. split; [by rewrite En|]. rewrite (frames_tbl _ _ _ TUser Hf4), Eu by set_solver. cbn. lia.
  - intros summary tp w4 Hf4 Hset. split; [done|]. exists user. rewrite (frames_tbl _ _ _ TUser Hf4), Eu by set_solver.
    by split_and!.
Qed.
End Setup.

(** ** A concrete system *)
#[local] Existing Instances Mem.database Mem.laws UsersExample.hasher UsersExample.hasher_laws UsersExample.format.
Module AuthExample.
(** A token that spells its claims out in bits. *)
Fixpoint spell (p : positive) : string :=
  match p with xH => "" | xO p => String "0" (spell p) | xI p => String "1" (spell p) end.
Fixpoint unspell (s : string) : positive :=
  match s with EmptyString => xH | String c s => if Ascii.eqb c "0"%char then xO (unspell s) else xI (unspell s) end.
Lemma unspell_spell p : unspell (spell p) = p.
Proof. induction p as [p IH|p IH|]; cbn; by rewrite ?IH. Qed.
Definition code (secret : string) (c : Claims) (r : RegisteredClaims) : positive :=
  encode (secret, (cl_UserID c, cl_RoleKey c, cl_TokenVersion c, cl_TokenType c),
          (rcl_ExpiresAt r, rcl_IssuedAt r, rcl_NotBefore r, rcl_Subject r, rcl_ID r)).
Definition uncode (p : positive) : option (string * Claims * RegisteredClaims) :=
  match decode (A := string * (N * string * Z * string) * (Z * Z * Z * string * string)) p with
  | Some (secret, (u, r, v, t), (e, i, n, s, d)) =>
      Some (secret, {| cl_UserID := u; cl_RoleKey := r; cl_TokenVersion := v; cl_TokenType := t |},
            {| rcl_ExpiresAt := e; rcl_IssuedAt := i; rcl_NotBefore := n; rcl_Subject := s; rcl_ID := d |})
  | None => None
  end.
#[export] Instance jwt : JwtLibrary Claims := {|
  SignedString := fun secret c r => let t := spell (code secret c r) in
    if String.eqb (trim_space t) t then Ok t else Err (ErrText "unexpected");
  ParseWithClaims := fun secret now t =>
    match uncode (unspell t) with
    | Some (secret', c, r) =>
        if negb (String.eqb secret' secret) then Err (JwtInvalid "signature is invalid")
        else if negb (now <? rcl_ExpiresAt r * second)%Z then Err JwtTokenExpired
        else if (now <? rcl_NotBefore r * second)%Z then Err (JwtInvalid "token is not valid yet")
        else Ok (c, r)
    | None => Err (JwtInvalid "token is malformed")
    end |}.
#[export] Instance jwt_laws : JwtLaws.
Proof.
  split.
  - intros secret [] [] t now. cbn. destruct (String.eqb _ _); [|done]. intros [= <-] [Hn He].
    rewrite unspell_spell. unfold uncode, code. rewrite decode_encode. cbn. rewrite String.eqb_refl. cbn.
    apply Z.ltb_lt in He as ->. apply Z.ltb_ge in Hn as ->. done.
  - intros secret now t c r. cbn. destruct (uncode _) as [[[s' c'] r']|]; [|done]. destruct (negb (String.eqb s' secret)); [done|].
    destruct (Z.ltb_spec now (rcl_ExpiresAt r' * second)) as [Hlt|]; [|done]. cbn. destruct (Z.ltb _ _); [done|].
    by intros [= <- <-].
  - intros secret c r t. cbn. destruct (String.eqb_spec (trim_space (spell (code secret c r))) (spell (code secret c r))); [|done].
    by intros [= <-].
Qed.
#[export] Instance uuid : @UuidLibrary Mem.database := gets (fun w => pretty (w_reads w)).
#[export] Instance uuid_laws : UuidLaws.
Proof. intros w. apply same_refl. Qed.
#[export] Instance files : @LocalFiles Mem.database := fun _ => ret tt.
#[export] Instance syncer : @MetadataSourceMountSyncer Mem.database :=
  {| SyncSourceMount := fun _ => ret tt; DisableSourceMount := fun _ => ret tt |}.
#[export] Instance setup_laws : SetupLaws.
Proof. intros p w. apply frames_refl. Qed.
#[export] Instance syncer_laws : MetadataSourceMountSyncerLaws.
Proof. split; intros; apply frames_refl. Qed.

Definition tokens : JWTTokenService :=
  {| jwt_secret := "s"; jwt_accessTTL := 900 * second; jwt_refreshTTL := 86400 * second |}.
Definition login : LoginRequest := {| lr_Username := "bob"; lr_Password := "bob" |}.
Definition logged_in := AuthService_Login tokens login UsersExample.world.
Definition pair_of (r : result GoErr LoginResponse * World) : TokenPair :=
  match fst r with
  | Ok resp => lg_Tokens resp
  | Err _ => {| tp_AccessToken := ""; tp_RefreshToken := ""; tp_ExpiresIn := 0; tp_RefreshExpiresIn := 0; tp_TokenType := "" |}
  end.
Definition empty_world : World := mem_world Mem.init.
Definition setup : SetupInitRequest := {| si_Username := "root"; si_Password := "password"; si_Email := "" |}.
Definition nobody : Ctx := {| ctx_auth := None; ctx_request := None |}.
End AuthExample.
#[local] Existing Instances AuthExample.jwt AuthExample.jwt_laws AuthExample.uuid AuthExample.uuid_laws
  AuthExample.files AuthExample.syncer AuthExample.setup_laws AuthExample.syncer_laws.

Example login_refresh_ex :
  let raw := tp_RefreshToken (AuthExample.pair_of AuthExample.logged_in) in
  let run := AuthService_Refresh AuthExample.tokens raw (snd AuthExample.logged_in) in
  is_ok (fst run) = true /\ map (fun t => bool_decide (rt_RevokedAt t = None)) (tbl TToken (snd run)) = [false; true] /\
  fst (AuthService_Refresh AuthExample.tokens raw (snd run)) = Err ErrRefreshTokenInvalid.
Proof. vm_compute. by split_and!. Qed.

Lemma refresh_rotates_witness :
  let raw := tp_RefreshToken (AuthExample.pair_of AuthExample.logged_in) in
  let run := AuthService_Refresh AuthExample.tokens raw (snd AuthExample.logged_in) in
  is_ok (fst run) = true /\ frames [TToken] (snd AuthExample.logged_in) (snd run).
Proof.
  intros raw run. assert (is_ok (fst run) = true) as Hok by (vm_compute; reflexivity). split; [exact Hok|].
  pose proof (refresh_rotates AuthExample.tokens raw (snd AuthExample.logged_in)) as Hs.
  fold run in Hs. destruct run as [[tp|e] w']; [|discriminate Hok]. apply Hs.
Defined.

Lemma login_spec_witness :
  is_ok (fst AuthExample.logged_in) = true /\ frames [TToken] UsersExample.world (snd AuthExample.logged_in).
Proof.
  assert (is_ok (fst AuthExample.logged_in) = true) as Hok by (vm_compute; reflexivity). split; [exact Hok|].
  pose proof (login_spec AuthExample.tokens AuthExample.login UsersExample.world) as Hs.
  fold AuthExample.logged_in in Hs. destruct AuthExample.logged_in as [[r|e] w']; [|discriminate Hok]. apply Hs.
Defined.

Lemma refresh_single_use_witness :
  let raw := tp_RefreshToken (AuthExample.pair_of AuthExample.logged_in) in
  let w := snd AuthExample.logged_in in
  let run := AuthService_Logout raw w in
  is_ok (fst run) = true /\
  is_ok (fst (AuthService_Refresh AuthExample.tokens raw
    (fold_left (run_auth_op AuthExample.tokens) [OpLogin AuthExample.login; OpRefresh raw] (snd run)))) = false.
Proof.
  intros raw w run. assert (is_ok (fst run) = true) as Hok by (vm_compute; reflexivity). split; [exact Hok|].
  assert (valid w) as Hv.
  { assert (is_ok (fst AuthExample.logged_in) = true) as Hok' by (vm_compute; reflexivity).
    pose proof (login_spec AuthExample.tokens AuthExample.login UsersExample.world) as Hs.
    fold AuthExample.logged_in in Hs. subst w. destruct AuthExample.logged_in as [[r|e] w']; [|discriminate Hok'].
    apply Hs, UsersExample.users_world_valid. }
  exact (proj2 (refresh_single_use AuthExample.tokens raw [OpLogin AuthExample.login; OpRefresh raw] w Hv) Hok).
Defined.

Lemma require_auth_spec_witness :
  let header := "Bearer " +:+ tp_AccessToken (AuthExample.pair_of AuthExample.logged_in) in
  let run := RequireAuth AuthExample.tokens header (snd AuthExample.logged_in) in
  (exists auth, fst run = Ok (Authenticated auth) /\ identified AuthExample.tokens header auth (snd AuthExample.logged_in)) /\
  frames [] (snd AuthExample.logged_in) (snd run).
Proof.
  intros header run.
  assert (match fst run with Ok (Authenticated _) => true | _ => false end = true) as Hok by (vm_compute; reflexivity).
  pose proof (require_auth_spec AuthExample.tokens header (snd AuthExample.logged_in)) as Hs.
  fold run in Hs. destruct run as [[[auth|s c]|e] w']; [|discriminate Hok..]. destruct Hs as [Hf Hi].
  split; [exists auth; split; [reflexivity|exact Hi]|exact Hf].
Defined.

Lemma revoked_tokens_refused_witness :
  let w := snd AuthExample.logged_in in
  let pair := AuthExample.pair_of AuthExample.logged_in in
  let header := "Bearer " +:+ tp_AccessToken pair in
  let raw := trim_space (trim_prefix header "Bearer ") in
  let ops := [BySession (OpLogin AuthExample.login); ByAdministrator (OpRevokeTokens (UsersExample.as_role 2 RoleAdmin) 3);
              BySession (OpRequest header)] in
  let w' := fold_left (run_session_op AuthExample.tokens true) ops (snd (UserService_RevokeTokens true (UsersExample.as_role 2 RoleAdmin) 3 w)) in
  (exists auth, fst (RequireAuth AuthExample.tokens header w) = Ok (Authenticated auth)) /\
  exists status code, fst (RequireAuth AuthExample.tokens header w') = Ok (Refused status code).
Proof.
  intros w pair header raw ops w'. split; [eexists; vm_compute; reflexivity|].
  assert (is_ok (fst (UserService_RevokeTokens true (UsersExample.as_role 2 RoleAdmin) 3 w)) = true) as Hok by (vm_compute; reflexivity).
  assert (valid w) as Hv.
  { assert (is_ok (fst AuthExample.logged_in) = true) as Hok' by (vm_compute; reflexivity).
    pose proof (login_spec AuthExample.tokens AuthExample.login UsersExample.world) as Hs.
    fold AuthExample.logged_in in Hs. subst w. destruct AuthExample.logged_in as [[r|e] w1]; [|discriminate Hok'].
    apply Hs, UsersExample.users_world_valid. }
  destruct (revoked_tokens_refused AuthExample.tokens true (UsersExample.as_role 2 RoleAdmin) 3 w Hv Hok) as (user & Hin & Hid & Hs).
  assert (u_TokenVersion user = 0%Z) as E0.
  { assert (forallb (fun u => negb (N.eqb (u_ID u) 3) || Z.eqb (u_TokenVersion u) 0) (tbl TUser w) = true) as Hb by (vm_compute; reflexivity).
    rewrite forallb_forall in Hb. apply list_elem_of_In, Hb in Hin. rewrite Hid in Hin. by apply Z.eqb_eq. }
  refine (proj1 (Hs ops _ raw _) header _); [reflexivity| |reflexivity].
  fold w'. assert (match ParseWithClaims (jwt_secret AuthExample.tokens) (the_time w') raw with
    Ok (c, _) => (N.eqb (cl_UserID c) 3 && Z.eqb (cl_TokenVersion c) 0)%bool | Err _ => false end = true) as Hb by (vm_compute; reflexivity).
  intros c reg E. rewrite E in Hb. apply andb_true_iff in Hb as [Ec%N.eqb_eq Ev%Z.eqb_eq]. rewrite E0. by split.
Defined.

Lemma login_authenticates_witness :
  is_ok (fst AuthExample.logged_in) = true /\
  exists user, user ∈ tbl TUser UsersExample.world /\
    lg_Tokens <$> (match fst AuthExample.logged_in with Ok r => Some r | Err _ => None end) =
      Some (AuthExample.pair_of AuthExample.logged_in).
Proof.
  assert (is_ok (fst AuthExample.logged_in) = true) as Hok by (vm_compute; reflexivity). split; [exact Hok|].
  pose proof (login_authenticates AuthExample.tokens AuthExample.login UsersExample.world) as Hs.
  fold AuthExample.logged_in in Hs. unfold AuthExample.pair_of.
  destruct AuthExample.logged_in as [[r|e] w']; [|discriminate Hok]. destruct Hs as (user & n & Hin & _).
  exists user. split; [exact Hin|reflexivity].
Defined.

Lemma config_roundtrip_witness :
  let req := so_Config DefaultSystemOptions in
  let run := SystemService_UpdateConfig DefaultSystemOptions true AuthExample.nobody req AuthExample.empty_world in
  fst run = Ok req /\ fst (SystemService_GetConfig DefaultSystemOptions (snd run)) = Ok req /\
  frames [TConfig; TAudit] AuthExample.empty_world (snd run).
Proof.
  intros req run. assert (fst run = Ok req) as Hok by (vm_compute; reflexivity). split; [exact Hok|].
  split; [vm_compute; reflexivity|].
  pose proof (config_roundtrip DefaultSystemOptions true AuthExample.nobody req AuthExample.empty_world) as Hs.
  fold run in Hs. destruct run as [[v|e] w']; [|discriminate Hok].
  destruct Hs as (_ & Hf & _); [|exact Hf]. intros c Hc. by apply elem_of_nil in Hc.
Defined.

Lemma setup_once_witness :
  let run := SetupService_Init AuthExample.tokens DefaultSystemOptions true true AuthExample.nobody AuthExample.setup
               AuthExample.empty_world in
  is_ok (fst run) = true /\ exists user, tbl TUser (snd run) = [user] /\ u_RoleKey user = RoleSuperAdmin.
Proof.
  intros run. assert (is_ok (fst run) = true) as Hok by (vm_compute; reflexivity). split; [exact Hok|].
  pose proof (setup_once AuthExample.tokens DefaultSystemOptions true true AuthExample.nobody AuthExample.setup
    AuthExample.empty_world) as Hs.
  fold run in Hs. destruct run as [[[summary tp]|e] w']; [|discriminate Hok].
  destruct Hs as (_ & user & Hu & Hr & _); [intros c Hc; by apply elem_of_nil in Hc|].
  exists user. split; [exact Hu|exact Hr].
Defined.

(** A first start that fails after creating its user cannot be repeated:
    the system counts as initialised, without a configuration. *)
Theorem setup_partial_failure :
  let w := mem_world { Mem.init with Mem.m_faults := [None; None; Some (DbOther "connection lost")] } in
  let init := SetupService_Init AuthExample.tokens DefaultSystemOptions true true AuthExample.nobody AuthExample.setup in
  let w1 := snd (init w) in
  is_ok (fst (init w)) = false /\ fst (SetupService_Status w1) =
    Ok {| ss_IsInitialized := true; ss_SetupRequired := false; ss_HasSuperAdmin := true |} /\
  fst (init w1) = Err ErrSetupAlreadyCompleted /\ tbl TConfig w1 = [] /\ tbl TSource w1 = [].
Proof. vm_compute. by split_and!. Qed.
