(* ===== verification/MetaTree.v ===== *)
(** * The metadata tree: the service

    [metadata_vfs_service.go]: looking nodes up, listing and searching,
    making directories, renaming, moving and deleting subtrees, and binding
    tags.  The service implements the interface [MetadataReader] of access
    control.  MIME types by extension are a parameter.

    [MetaTreeSpec] says what the operations do to the tree. *)
From S2P Require Import Prelude Ints GoStrings Entities Paths Tables Db Auditing Repos MetaRepos Acl AclService Users.
From stdpp Require Import base list strings sets sorting.
From Stdlib Require Import ZArith Lia Ascii.

Local Open Scope string_scope.
Local Open Scope list_scope.
Local Open Scope go_scope.

(** [mime.TypeByExtension]. *)
Class MimeTypes := mime_type_by_extension : string -> string.

(** ** The dependencies of the service, requests and responses *)
Record MetadataVFSService := {
  mv_nodeRepo : bool; mv_objectRepo : bool; mv_sourceRepo : bool; mv_tagRepo : bool; mv_transactor : bool
}.
Record MetadataVFSMkdirRequest := { mk_ParentPath : string; mk_Name : string; mk_ActorID : option N }.
Record MetadataVFSRenameRequest := { rn_Path : string; rn_NewName : string; rn_ActorID : option N }.
Record MetadataVFSMoveRequest := { mo_Path : string; mo_TargetParentPath : string; mo_ActorID : option N }.
Record VFSListResponse := { vl_Items : list VFSItem; vl_CurrentPath : string }.
Record VFSSearchResponse := { vs_Items : list VFSItem; vs_PathPrefix : string; vs_Keyword : string }.

Definition normalizeMetadataVFSError (err : GoErr) : GoErr :=
  if err_is err ErrNotFound then ErrFileNotFound
  else if err_is err ErrConflict || err_is err ErrConstraintViolation then ErrNameConflict
  else err.

(** ** Nodes and items *)
Definition metadataVFSNodeIsDirectory (node : VFSNode) : bool :=
  String.eqb (vn_Kind node) VFSNodeKindRoot || String.eqb (vn_Kind node) VFSNodeKindVirtualDir ||
  String.eqb (vn_Kind node) VFSNodeKindMount || String.eqb (vn_Kind node) VFSNodeKindDir.

Definition metadataVFSNodeUnavailable (node : VFSNode) : bool :=
  String.eqb (vn_SyncState node) VFSNodeSyncStateMissing || String.eqb (vn_SyncState node) VFSNodeSyncStateError ||
  String.eqb (vn_SyncState node) VFSNodeSyncStatePending || String.eqb (vn_SyncState node) VFSNodeSyncStateSyncing ||
  String.eqb (vn_SyncState node) VFSNodeSyncStateConflict || vn_IsDeleted node.

Definition metadataVFSChildDirKind (parent : VFSNode) : string :=
  if String.eqb (vn_Kind parent) VFSNodeKindMount || bool_decide (vn_SourceID parent <> None) ||
     bool_decide (vn_MountID parent <> None)
  then VFSNodeKindDir else VFSNodeKindVirtualDir.

Definition metadataVFSNodeMatchesKeyword (node : VFSNode) (keyword : string) : bool :=
  contains (to_lower (vn_Name node)) keyword || contains (to_lower (vn_Path node)) keyword.

Definition sameUintPtr (left right : option N) : bool :=
  match left, right with
  | None, None => true
  | Some a, Some b => N.eqb a b
  | _, _ => false
  end.

(** [filepath.Ext]: from the last dot of the last element. *)
Fixpoint path_ext (s : string) : string :=
  match s with
  | EmptyString => ""
  | String c s' =>
      let r := path_ext s' in
      if negb (String.eqb r "") then r
      else if Ascii.eqb c "." && negb (has_byte slash s') then s else ""
  end.
Example path_ext_ex : map path_ext ["a.tar.gz"; "a"; "x.y/z"; "b."] = [".gz"; ""; ""; "."].
Proof. reflexivity. Qed.

Definition canPreviewMIME (mimeType : string) : bool :=
  has_prefix mimeType "image/" || has_prefix mimeType "video/" || has_prefix mimeType "audio/" ||
  has_prefix mimeType "text/" || String.eqb mimeType "application/pdf" || has_suffix mimeType "json".

(** The parent a path shows. *)
Definition shown_parent (path : string) : string :=
  let parentPath := path_dir path in if String.eqb parentPath "." then "/" else parentPath.

Definition metadataVFSItemFromNode `{TF : TimeFormat} `{MT : MimeTypes} (node : VFSNode) : VFSItem :=
  let directory := metadataVFSNodeIsDirectory node in
  let extension := if directory then "" else to_lower (path_ext (vn_Name node)) in
  let guessed := mime_type_by_extension extension in
  let mimeType :=
    if directory then "inode/directory"
    else if negb (String.eqb (vn_MimeType node) "") then vn_MimeType node
    else if String.eqb guessed "" then "application/octet-stream" else guessed in
  {| vi_ID := vn_ID node; vi_Name := vn_Name node; vi_Path := vn_Path node;
     vi_ParentPath := shown_parent (vn_Path node); vi_SourceID := vn_SourceID node;
     vi_EntryKind := if directory then VirtualEntryKindDirectory else VirtualEntryKindFile;
     vi_IsVirtual := String.eqb (vn_Kind node) VFSNodeKindRoot || String.eqb (vn_Kind node) VFSNodeKindVirtualDir ||
                     String.eqb (vn_Kind node) VFSNodeKindMount;
     vi_IsMountPoint := String.eqb (vn_Kind node) VFSNodeKindMount; vi_SyncState := vn_SyncState node;
     vi_Size := if directory then 0 else vn_Size node; vi_MimeType := mimeType; vi_Extension := extension;
     vi_ModifiedAt := rfc3339 (vn_UpdatedAt node); vi_CreatedAt := rfc3339 (vn_CreatedAt node);
     vi_Etag := vn_ETag node; vi_CanPreview := negb directory && canPreviewMIME mimeType;
     vi_CanDownload := negb directory && negb (metadataVFSNodeUnavailable node);
     vi_CanDelete := negb (String.eqb (vn_Kind node) VFSNodeKindRoot) && negb (String.eqb (vn_Kind node) VFSNodeKindMount) |}.

(** Directories first, then by name without regard to case. *)
Definition item_less (a b : VFSItem) : bool :=
  if negb (String.eqb (vi_EntryKind a) (vi_EntryKind b)) then String.eqb (vi_EntryKind a) VirtualEntryKindDirectory
  else String.ltb (to_lower (vi_Name a)) (to_lower (vi_Name b)).
Definition sortMetadataVFSItems (items : list VFSItem) : list VFSItem := stable_sort item_less items.

(** ** Rewriting paths *)
Definition rewriteMetadataSubtreePath (currentPath oldPrefix newPrefix : string) : string :=
  if String.eqb currentPath oldPrefix then newPrefix
  else
    let suffix := trim_prefix currentPath oldPrefix in
    if String.eqb suffix "" then newPrefix
    else newPrefix +:+ (if negb (has_prefix suffix "/") then "/" +:+ suffix else suffix).

(** ** Locators of [metadata_vfs_commit_service.go] *)
Definition metadataVFSObjectLocatorPathBased (object : StorageObject) : bool :=
  let t := trim_space (so_LocatorType object) in
  String.eqb t "local_path" || String.eqb t "driver_path" || String.eqb t "provider_path".

Fixpoint underscored (s : string) : string :=
  match s with
  | EmptyString => ""
  | String c s' => String (if Ascii.eqb c "-" || Ascii.eqb c " " then "_"%char else c) (underscored s')
  end.
Definition locator_key (key : string) : string := to_lower (underscored (trim_space key)).
Definition metadataCommitLocatorKeyIsSensitive (key : string) : bool :=
  let normalized := locator_key key in
  existsb (String.eqb normalized)
    ["access_token"; "refresh_token"; "id_token"; "auth_token"; "token"; "password"; "passwd"; "secret";
     "client_secret"; "secret_key"; "api_key"; "private_key"; "credential"; "credentials"; "authorization";
     "cookie"; "session"; "session_id"] ||
  has_suffix normalized "_secret" || has_suffix normalized "_token" || has_suffix normalized "_password".
Definition metadataCommitLocatorKeyIsPhysical (key : string) : bool :=
  let normalized := locator_key key in
  existsb (String.eqb normalized) ["physical_path"; "absolute_path"; "base_path"; "filesystem_path"; "fs_path"] ||
  has_suffix normalized "_physical_path" || has_suffix normalized "_absolute_path".
Fixpoint metadataCommitSanitizeLocatorValue (value : Json) : Json :=
  match value with
  | JObj l => JObj (map (fun '(key, child) =>
                (key, if metadataCommitLocatorKeyIsSensitive key || metadataCommitLocatorKeyIsPhysical key
                      then JStr "[redacted]" else metadataCommitSanitizeLocatorValue child)) l)
  | JArr l => JArr (map metadataCommitSanitizeLocatorValue l)
  | _ => value
  end.
Definition metadataCommitMarshalLocatorJSON (value : Json) : string :=
  json_marshal (metadataCommitSanitizeLocatorValue value).

(** ** The service *)
Section Service.
Context `{Database} `{TF : TimeFormat} `{MT : MimeTypes} (s : MetadataVFSService).

Definition normalized {A} (m : M GoErr World A) : M GoErr World A := map_err normalizeMetadataVFSError m.

Definition withinTx {A} (fn : M GoErr World A) : M GoErr World A :=
  if mv_transactor s then WithinTx fn else fn.

Definition MetadataVFSService_EnsureRoot : M GoErr World VFSNode :=
  if negb (mv_nodeRepo s) then throw ErrSourceDriverUnsupported
  else
    now <-! time_now ;;
    normalized (VFSNodeRepository_UpsertByPath
      {| vn_ID := 0; vn_ParentID := None; vn_Name := ""; vn_Path := "/"; vn_Kind := VFSNodeKindRoot;
         vn_MountID := None; vn_ObjectID := None; vn_SourceID := None; vn_ProviderItemID := None;
         vn_ProviderParentID := None; vn_Size := 0; vn_MimeType := ""; vn_ETag := ""; vn_Checksum := "";
         vn_SyncState := VFSNodeSyncStateIndexed; vn_IsDeleted := false; vn_CreatedBy := None;
         vn_UpdatedBy := None; vn_CreatedAt := now; vn_UpdatedAt := now; vn_IndexedAt := Some now;
         vn_LastSeenAt := None |}).

Definition MetadataVFSService_ResolveNode (virtualPath : string) : M GoErr World VFSNode :=
  if negb (mv_nodeRepo s) then throw ErrSourceDriverUnsupported
  else
    normalizedPath <-! lift_result (normalizeVirtualPath virtualPath) ;;
    normalized (VFSNodeRepository_FindByPath normalizedPath).

Definition MetadataVFSService_ResolveNodeByID (id : N) : M GoErr World VFSNode :=
  if negb (mv_nodeRepo s) then throw ErrSourceDriverUnsupported
  else
    node <-! normalized (VFSNodeRepository_FindByID id) ;;
    if vn_IsDeleted node then throw ErrFileNotFound else ret node.

Definition MetadataVFSService_ListChildren (currentPath : string) : M GoErr World VFSListResponse :=
  parent <-! MetadataVFSService_ResolveNode currentPath ;;
  if negb (metadataVFSNodeIsDirectory parent) then throw ErrPathInvalid
  else
    children <-! normalized (VFSNodeRepository_ListChildren (Some (vn_ID parent)) no_node_filter) ;;
    ret {| vl_Items := sortMetadataVFSItems (map metadataVFSItemFromNode children);
           vl_CurrentPath := vn_Path parent |}.

Definition MetadataVFSService_Search (pathPrefix keyword : string) : M GoErr World VFSSearchResponse :=
  normalizedPrefix <-! lift_result (normalizeVirtualPath pathPrefix) ;;
  let rawKeyword := trim_space keyword in
  let normalizedKeyword := to_lower rawKeyword in
  if String.eqb normalizedKeyword "" then throw ErrPathInvalid
  else
    prefixNode <-! MetadataVFSService_ResolveNode normalizedPrefix ;;
    nodes <-! normalized (VFSNodeRepository_ListByPathPrefix (vn_Path prefixNode) no_node_filter) ;;
    let found := sel (fun node => negb (N.eqb (vn_ID node) (vn_ID prefixNode)) &&
                                  metadataVFSNodeMatchesKeyword node normalizedKeyword) nodes in
    ret {| vs_Items := sortMetadataVFSItems (map metadataVFSItemFromNode found);
           vs_PathPrefix := vn_Path prefixNode; vs_Keyword := rawKeyword |}.

Definition ensureMetadataNameAvailable (targetPath : string) : M GoErr World unit :=
  normalizedPath <-! lift_result (normalizeVirtualPath targetPath) ;;
  if String.eqb normalizedPath "/" then throw ErrNameConflict
  else
    _n <-! VFSNodeRepository_FindByPath normalizedPath
      or e => (if negb (err_is e ErrNotFound) then throw (normalizeMetadataVFSError e) else ret tt) ;;
    throw ErrNameConflict.

Definition MetadataVFSService_Mkdir (req : MetadataVFSMkdirRequest) : M GoErr World VFSItem :=
  do! lift_result (validateFileName (mk_Name req)) ;;
  parent <-! MetadataVFSService_ResolveNode (mk_ParentPath req) ;;
  if negb (metadataVFSNodeIsDirectory parent) then throw ErrPathInvalid
  else
    let targetPath := joinVirtualPath (vn_Path parent) (mk_Name req) in
    do! ensureMetadataNameAvailable targetPath ;;
    now <-! time_now ;;
    node <-! normalized (VFSNodeRepository_Create
      {| vn_ID := 0; vn_ParentID := Some (vn_ID parent); vn_Name := mk_Name req; vn_Path := targetPath;
         vn_Kind := metadataVFSChildDirKind parent; vn_MountID := vn_MountID parent; vn_ObjectID := None;
         vn_SourceID := vn_SourceID parent; vn_ProviderItemID := None; vn_ProviderParentID := None; vn_Size := 0;
         vn_MimeType := ""; vn_ETag := ""; vn_Checksum := ""; vn_SyncState := VFSNodeSyncStateIndexed;
         vn_IsDeleted := false; vn_CreatedBy := mk_ActorID req; vn_UpdatedBy := mk_ActorID req;
         vn_CreatedAt := now; vn_UpdatedAt := now; vn_IndexedAt := Some now; vn_LastSeenAt := None |}) ;;
    ret (metadataVFSItemFromNode node).

(** ** Moving a subtree *)
Definition metadataNodeInnerPath (sourceID : N) (virtualPath : string) : M GoErr World string :=
  source <-! normalized (SourceRepository_FindByID sourceID) ;;
  if String.eqb (trim_space (src_MountPath source)) "" then lift_result (normalizeVirtualPath virtualPath)
  else
    mountPath <-! lift_result (normalizeMountPath (src_MountPath source)) ;;
    normalizedPath <-! lift_result (normalizeVirtualPath virtualPath) ;;
    if negb (isSubPath mountPath normalizedPath) then throw ErrPathInvalid
    else
      let inner := trim_prefix normalizedPath mountPath in
      let inner := if String.eqb inner "" then "/" else inner in
      let inner := if negb (has_prefix inner "/") then "/" +:+ inner else inner in
      lift_result (normalizeVirtualPath inner).

Definition syncPathBasedObjectLocator (node : VFSNode) (now : Z) : M GoErr World unit :=
  match vn_ObjectID node, vn_SourceID node with
  | Some objectID, Some sourceID =>
      if negb (mv_objectRepo s) || negb (mv_sourceRepo s) || negb (String.eqb (vn_Kind node) VFSNodeKindFile)
      then ret tt
      else
        object <-! StorageObjectRepository_FindByID objectID
          or e => (if err_is e ErrNotFound then ret tt else throw (normalizeMetadataVFSError e)) ;;
        if negb (metadataVFSObjectLocatorPathBased object) then ret tt
        else
          innerPath <-! metadataNodeInnerPath sourceID (vn_Path node) ;;
          let locatorJSON := metadataCommitMarshalLocatorJSON (JObj [("path", JStr innerPath)]) in
          normalized (StorageObjectRepository_Update
            { object with so_LocatorJSON := locatorJSON; so_UpdatedAt := now })
  | _, _ => ret tt
  end.

Fixpoint subtree_target_available (subtree : list VFSNode) (subtreeIDs : list N) (oldPrefix newPrefix : string)
    : M GoErr World unit :=
  match subtree with
  | [] => ret tt
  | item :: rest =>
      let continue := subtree_target_available rest subtreeIDs oldPrefix newPrefix in
      existing <-! VFSNodeRepository_FindByPath (rewriteMetadataSubtreePath (vn_Path item) oldPrefix newPrefix)
        or e => (if negb (err_is e ErrNotFound) then throw (normalizeMetadataVFSError e) else continue) ;;
      if existsb (N.eqb (vn_ID existing)) subtreeIDs then continue else throw ErrNameConflict
  end.
Definition ensureMetadataSubtreeTargetAvailable (subtree : list VFSNode) (oldPrefix newPrefix : string)
    : M GoErr World unit :=
  subtree_target_available subtree (map vn_ID subtree) oldPrefix newPrefix.

(** One item of the loop of [updateMetadataSubtreePath]. *)
Definition moved_item (node : VFSNode) (newParentID : N) (newName newPath : string) (actorID : option N) (now : Z)
    (item : VFSNode) : VFSNode :=
  let item :=
    if N.eqb (vn_ID item) (vn_ID node)
    then { item with vn_ParentID := Some newParentID; vn_Name := newName; vn_Path := newPath }
    else { item with vn_Path := rewriteMetadataSubtreePath (vn_Path item) (vn_Path node) newPath } in
  { item with vn_UpdatedBy := actorID; vn_UpdatedAt := now }.

Fixpoint update_items (move : VFSNode -> VFSNode) (now : Z) (subtree : list VFSNode) : M GoErr World unit :=
  match subtree with
  | [] => ret tt
  | item :: rest =>
      do! syncPathBasedObjectLocator (move item) now ;;
      do! normalized (VFSNodeRepository_Update (move item)) ;;
      update_items move now rest
  end.

Definition shorter_path (a b : VFSNode) : bool := Nat.ltb (String.length (vn_Path a)) (String.length (vn_Path b)).

Definition updateMetadataSubtreePath (node : VFSNode) (newParentID : N) (newName newPath : string)
    (actorID : option N) : M GoErr World unit :=
  withinTx (
    subtree <-! normalized (VFSNodeRepository_ListByPathPrefix (vn_Path node) no_node_filter) ;;
    match subtree with
    | [] => throw ErrFileNotFound
    | _ =>
        let subtree := stable_sort shorter_path subtree in
        do! ensureMetadataSubtreeTargetAvailable subtree (vn_Path node) newPath ;;
        now <-! time_now ;;
        update_items (moved_item node newParentID newName newPath actorID now) now subtree
    end).

(** Roots and mounts stay where they are. *)
Definition movable (node : VFSNode) : M GoErr World N :=
  match vn_ParentID node with
  | None => throw ErrPathInvalid
  | Some parentID =>
      if String.eqb (vn_Kind node) VFSNodeKindRoot then throw ErrPathInvalid
      else if String.eqb (vn_Kind node) VFSNodeKindMount then throw ErrSourceOperationUnsupported
      else ret parentID
  end.

(** The end of [Rename] and [Move]. *)
Definition relocate (node : VFSNode) (newParentID : N) (newName newPath : string) (actorID : option N)
    : M GoErr World (string * VFSItem) :=
  do! ensureMetadataNameAvailable newPath ;;
  do! updateMetadataSubtreePath node newParentID newName newPath actorID ;;
  updated <-! MetadataVFSService_ResolveNode newPath ;;
  ret (vn_Path node, metadataVFSItemFromNode updated).

Definition MetadataVFSService_Rename (req : MetadataVFSRenameRequest) : M GoErr World (string * VFSItem) :=
  do! lift_result (validateFileName (rn_NewName req)) ;;
  node <-! MetadataVFSService_ResolveNode (rn_Path req) ;;
  parentID <-! movable node ;;
  if String.eqb (vn_Name node) (rn_NewName req) then ret (vn_Path node, metadataVFSItemFromNode node)
  else
    let newPath := joinVirtualPath (shown_parent (vn_Path node)) (rn_NewName req) in
    relocate node parentID (rn_NewName req) newPath (rn_ActorID req).

Definition MetadataVFSService_Move (req : MetadataVFSMoveRequest) : M GoErr World (string * VFSItem) :=
  node <-! MetadataVFSService_ResolveNode (mo_Path req) ;;
  parentID <-! movable node ;;
  targetParent <-! MetadataVFSService_ResolveNode (mo_TargetParentPath req) ;;
  if negb (metadataVFSNodeIsDirectory targetParent) then throw ErrPathInvalid
  else if isSubPath (vn_Path node) (vn_Path targetParent) then throw ErrPathInvalid
  else if negb (sameUintPtr (vn_MountID node) (vn_MountID targetParent)) ||
          negb (sameUintPtr (vn_SourceID node) (vn_SourceID targetParent)) then throw ErrSourceOperationUnsupported
  else if N.eqb parentID (vn_ID targetParent) then ret (vn_Path node, metadataVFSItemFromNode node)
  else
    let newPath := joinVirtualPath (vn_Path targetParent) (vn_Name node) in
    relocate node (vn_ID targetParent) (vn_Name node) newPath (mo_ActorID req).

Definition MetadataVFSService_Delete (virtualPath : string) : M GoErr World Z :=
  node <-! MetadataVFSService_ResolveNode virtualPath ;;
  if String.eqb (vn_Kind node) VFSNodeKindRoot then throw ErrPathInvalid
  else if String.eqb (vn_Kind node) VFSNodeKindMount then throw ErrSourceOperationUnsupported
  else
    deletedAt <-! time_now ;;
    do! normalized (VFSNodeRepository_Delete (vn_ID node)) ;;
    ret deletedAt.

(** ** Tags of a node *)
Definition MetadataVFSService_AttachTag (virtualPath : string) (tagID : N) (actorID : option N) : M GoErr World unit :=
  if negb (mv_tagRepo s) then throw ErrSourceOperationUnsupported
  else
    node <-! MetadataVFSService_ResolveNode virtualPath ;;
    do! normalized (VFSTagRepository_FindByID tagID) ;;
    now <-! time_now ;;
    do! normalized (VFSTagRepository_AttachToNode
      {| nt_NodeID := vn_ID node; nt_TagID := tagID; nt_CreatedBy := actorID; nt_CreatedAt := now |}) ;;
    ret tt.

Definition MetadataVFSService_ListTags (virtualPath : string) : M GoErr World (list VFSTag) :=
  if negb (mv_tagRepo s) then throw ErrSourceOperationUnsupported
  else
    node <-! MetadataVFSService_ResolveNode virtualPath ;;
    normalized (VFSTagRepository_ListTagsForNode (vn_ID node)).

(** ** The interface of access control *)
Definition MetadataVFSService_reader : MetadataReader := {|
  ResolveNode := fun p => node <-! MetadataVFSService_ResolveNode p ;; ret (Some node);
  ResolveNodeByID := fun id => node <-! MetadataVFSService_ResolveNodeByID id ;; ret (Some node) |}.
End Service.
