(* ===== verification/MetaTreeSpec.v ===== *)
(** * The metadata tree: what the operations do

    The tree the node table holds ([tree]): every live node has a canonical
    path, its parent is a live directory, and its path is its parent's with
    its name.  A rename or a move rewrites the paths of a whole subtree
    ([relocated]); a failure changes nothing.  [tree_invariant]: every
    operation keeps the tree, whatever fails. *)
From S2P Require Import Prelude Ints GoStrings Entities Paths Tables Db Auditing Repos MetaRepos Acl AclService Users MetaTree.
From stdpp Require Import base list strings sets sorting.
From Stdlib Require Import ZArith Lia Ascii.

Local Open Scope string_scope.
Local Open Scope list_scope.
Local Open Scope go_scope.

(** ** Rewritten paths *)

(** The path [p] below [old], below [new] instead. *)
Definition rebase (old new p : string) : string := render (segs new ++ drop (length (segs old)) (segs p)).

Lemma segs_render l : good_segs l = true -> segs (render l) = l.
Proof. intros Hl. apply clean_segs_render. by apply good_segs_plain. Qed.

Lemma canonical_segs p : canonical p -> good_segs (segs p) = true /\ p = render (segs p).
Proof. intros (l & Hl & ->). by rewrite segs_render. Qed.

Lemma rebase_render lo ln k : good_segs (lo ++ k) = true -> good_segs ln = true ->
  rebase (render lo) (render ln) (render (lo ++ k)) = render (ln ++ k).
Proof.
  intros Hk Hn. pose proof Hk as Ho. rewrite good_segs_app in Ho. apply andb_true_iff in Ho as [Ho _].
  unfold rebase. by rewrite !segs_render, drop_app_length by done.
Qed.

(** Paths below a canonical one. *)
Lemma sub_segs p q : canonical p -> canonical q -> isSubPath p q = true ->
  exists k, segs q = segs p ++ k.
Proof. intros Hp Hq. rewrite isSubPath_spec. tauto. Qed.

Lemma rewrite_rebase old new p : canonical old -> canonical new -> canonical p ->
  old <> "/" -> new <> "/" -> isSubPath old p = true ->
  rewriteMetadataSubtreePath p old new = rebase old new p.
Proof.
  intros Ho Hn Hp Hor Hnr Hs. destruct (sub_segs _ _ Ho Hp Hs) as [k Ek].
  apply canonical_segs in Ho as [Go Eo], Hn as [Gn En], Hp as [Gp Ep].
  rewrite Ek in Gp. unfold rebase. rewrite Ek, drop_app_length. rewrite Ep, Ek. clear Ep Ek Hs p.
  rewrite Eo in Hor. rewrite En in Hnr. rewrite Eo at 2. rewrite En at 1. revert Go Gn Gp Hor Hnr. generalize (segs old), (segs new). clear. intros lo ln Go Gn Gp Hor Hnr.
  assert (lo <> [] /\ ln <> []) as [Hlo Hln]. { split; intros ->; [by apply Hor|by apply Hnr]. }
  unfold rewriteMetadataSubtreePath. assert (forall l, l <> [] -> render l = render_tail l) as Er by by intros [].
  destruct (String.eqb_spec (render (lo ++ k)) (render lo)) as [E|E].
  - apply render_inj in E; [|by apply good_segs_plain..]. rewrite <- (app_nil_r lo) in E at 2.
    apply app_inv_head in E as ->. by rewrite app_nil_r.
  - destruct k as [|a k]; [by rewrite app_nil_r in E|].
    rewrite !Er by (by destruct lo, ln). rewrite !render_tail_app, trim_prefix_app. done.
Qed.

(** ** Trees *)
Notation live n := (vn_IsDeleted n = false) (only parsing).

Definition is_root (n : VFSNode) : Prop :=
  vn_Path n = "/" /\ vn_ParentID n = None /\ vn_Kind n = VFSNodeKindRoot.

(** [p] is the parent of [n]. *)
Definition child_of (p n : VFSNode) : Prop :=
  vn_ParentID n = Some (vn_ID p) /\ plain_seg (vn_Name n) = true /\
  vn_Path n = joinVirtualPath (vn_Path p) (vn_Name n).

Definition tree (l : list VFSNode) : Prop :=
  forall n, n ∈ l -> live n -> canonical (vn_Path n) /\
    (is_root n \/
     vn_Kind n <> VFSNodeKindRoot /\
     exists p, p ∈ l /\ live p /\ metadataVFSNodeIsDirectory p = true /\ child_of p n).

(** No two live nodes share a path, no two nodes an id. *)
Definition distinct (l : list VFSNode) : Prop :=
  (forall a b, a ∈ l -> b ∈ l -> vn_ID a = vn_ID b -> a = b) /\
  (forall a b, a ∈ l -> b ∈ l -> live a -> live b -> vn_Path a = vn_Path b -> a = b).

Lemma valid_distinct l : no_conflicts TNode l = true -> distinct l.
Proof.
  intros Hl. split; intros a b Ha Hb *.
  - intros E. destruct (no_conflicts_elem TNode l a b Hl Ha Hb) as [?|Hc]; [done|].
    cbn in Hc. unfold VFSNodeModel_conflict in Hc. by rewrite E, N.eqb_refl in Hc.
  - intros La Lb E. destruct (no_conflicts_elem TNode l a b Hl Ha Hb) as [?|Hc]; [done|].
    cbn in Hc. unfold VFSNodeModel_conflict in Hc. by rewrite La, Lb, E, String.eqb_refl, orb_true_r in Hc.
Qed.

Lemma join_segs p x : canonical p -> plain_seg x = true -> joinVirtualPath p x = render (segs p ++ [x]).
Proof.
  intros [Hg E]%canonical_segs Hx. rewrite E at 1. apply join_render; [by apply good_segs_plain|].
  apply plain_seg_spec in Hx. tauto.
Qed.

(** A parent's path is the directory of its child's. *)
Lemma child_segs p n : canonical (vn_Path p) -> canonical (vn_Path n) -> child_of p n ->
  segs (vn_Path n) = segs (vn_Path p) ++ [vn_Name n].
Proof.
  intros Hp Hn (_ & Hx & E). rewrite join_segs in E by done.
  apply canonical_segs in Hn as [Hg En]. apply canonical_segs in Hp as [Hgp _].
  apply (render_inj (segs (vn_Path n))); [by apply good_segs_plain| |congruence].
  rewrite forallb_app, good_segs_plain by done. cbn. by rewrite Hx.
Qed.

Lemma child_shown_parent p n : canonical (vn_Path p) -> child_of p n -> shown_parent (vn_Path n) = vn_Path p.
Proof.
  intros Hp (_ & Hx & ->). rewrite join_segs by done. apply canonical_segs in Hp as [Hg E]. unfold shown_parent.
  rewrite path_dir_snoc by (done || by apply good_segs_plain). rewrite <- E.
  destruct (String.eqb_spec (vn_Path p) ".") as [E'|]; [|done].
  rewrite E in E'. pose proof (render_rooted (segs (vn_Path p))) as Hr. by rewrite E' in Hr.
Qed.

Lemma child_not_root p n : canonical (vn_Path p) -> child_of p n -> vn_Path n <> "/".
Proof.
  intros Hp (_ & Hx & ->). rewrite join_segs by done. apply canonical_segs in Hp as [Hg _]. intros E.
  apply (render_inj _ []) in E; [by destruct (segs (vn_Path p))| |done].
  rewrite forallb_app, good_segs_plain by done. cbn. by rewrite Hx.
Qed.

(** Being below a path, by segments. *)
Lemma isSubPath_segs p q : canonical p -> canonical q ->
  isSubPath p q = true <-> exists k, segs q = segs p ++ k.
Proof.
  intros Hp Hq. rewrite isSubPath_spec. apply canonical_normalize in Hp as ->, Hq as ->. cbn. tauto.
Qed.

Lemma parent_outside p n : canonical (vn_Path p) -> canonical (vn_Path n) -> child_of p n ->
  isSubPath (vn_Path n) (vn_Path p) = false.
Proof.
  intros Hp Hn Hc. apply not_true_is_false. rewrite isSubPath_segs by done.
  rewrite (child_segs p n) by done. intros [k Ek]. apply (f_equal length) in Ek. rewrite !length_app in Ek. cbn in Ek. lia.
Qed.

(** Below [top], the parent of a node other than [top] is below [top]. *)
Lemma parent_inside top p n : canonical (vn_Path top) -> canonical (vn_Path p) -> canonical (vn_Path n) ->
  child_of p n -> vn_Path n <> vn_Path top ->
  isSubPath (vn_Path top) (vn_Path p) = isSubPath (vn_Path top) (vn_Path n).
Proof.
  intros Ht Hp Hn Hc Hne. apply eq_true_iff_eq. rewrite !isSubPath_segs, (child_segs p n) by done. split.
  - intros [k ->]. exists (k ++ [vn_Name n]). by rewrite app_assoc.
  - intros [k Ek]. destruct (snoc_or_nil k) as [->|(k' & x & ->)].
    + rewrite app_nil_r, <- (child_segs p n) in Ek by done. apply canonical_segs in Hn as [_ En], Ht as [_ Et].
      congruence.
    + rewrite app_assoc in Ek. apply app_inj_tail in Ek as [Ek _]. by exists k'.
Qed.

Lemma rebase_segs old new p k : canonical old -> canonical new -> canonical p -> segs p = segs old ++ k ->
  rebase old new p = render (segs new ++ k) /\ canonical (rebase old new p) /\ segs (rebase old new p) = segs new ++ k.
Proof.
  intros [Go _]%canonical_segs [Gn _]%canonical_segs [Gp _]%canonical_segs E.
  assert (good_segs (segs new ++ k) = true) as Hg.
  { rewrite E in Gp. rewrite good_segs_app in Gp |- *. apply andb_true_iff in Gp as [_ ->]. by rewrite Gn. }
  unfold rebase. rewrite E, drop_app_length. split_and!; [done|by exists (segs new ++ k)|by apply segs_render].
Qed.

(** Above a live node, every path has a live node. *)
Lemma tree_above l p k : tree l -> canonical p -> forall m, m ∈ l -> live m -> segs (vn_Path m) = segs p ++ k ->
  exists a, a ∈ l /\ live a /\ vn_Path a = p.
Proof.
  intros Ht Hp. induction k as [|x k IH] using rev_ind; intros m Hm Lm Em; destruct (Ht m Hm Lm) as [Hc Hpar].
  - exists m. split_and!; [done..|]. rewrite app_nil_r in Em. apply canonical_segs in Hp as [_ ->], Hc as [_ ->]. congruence.
  - destruct Hpar as [(Er & _)|(_ & a & Ha & La & _ & Hch)].
    + rewrite Er in Em. symmetry in Em. apply app_eq_nil in Em as [_ Em]. by destruct k.
    + apply (IH a); [done..|]. destruct (Ht a Ha La) as [Hca _]. rewrite (child_segs a m) in Em by done.
      rewrite app_assoc in Em. by apply app_inj_tail in Em as [-> _].
Qed.

(** Nothing lies below a path that no live node has. *)
Lemma free_below l p : tree l -> canonical p -> (forall n, n ∈ l -> live n -> vn_Path n <> p) ->
  forall old m q, canonical old -> canonical q -> isSubPath old q = true -> m ∈ l -> live m -> vn_Path m <> rebase old p q.
Proof.
  intros Ht Hp Hfree old m q Ho Hq Hs Hm Lm E. destruct (sub_segs _ _ Ho Hq Hs) as [k Ek].
  destruct (rebase_segs old p q k) as (_ & _ & Es); [done..|]. rewrite <- E in Es.
  destruct (tree_above l p k Ht Hp m Hm Lm Es) as (a & Ha & La & Ea). by apply (Hfree a).
Qed.

(** ** Moving a subtree *)
Definition moving (node n : VFSNode) : bool := negb (vn_IsDeleted n) && isSubPath (vn_Path node) (vn_Path n).

Definition relocated_node (node parent : VFSNode) (newName : string) (actor : option N) (n : VFSNode) : VFSNode :=
  { (if N.eqb (vn_ID n) (vn_ID node)
     then { n with vn_ParentID := Some (vn_ID parent); vn_Name := newName } else n)
    with vn_Path := rebase (vn_Path node) (joinVirtualPath (vn_Path parent) newName) (vn_Path n); vn_UpdatedBy := actor }.

(** The rows of the subtree of [node] move below [parent], under a valid
    path no live node had; the others stay as they are. *)
Definition relocated (node parent : VFSNode) (newName : string) (actor : option N) (l l' : list VFSNode) : Prop :=
  canonical (joinVirtualPath (vn_Path parent) newName) /\
  (forall n, n ∈ l -> live n -> vn_Path n <> joinVirtualPath (vn_Path parent) newName) /\
  Forall2 (fun n n' => if moving node n
                       then exists t, n' = { (relocated_node node parent newName actor n) with vn_UpdatedAt := t }
                       else n' = n) l l'.

Lemma relocated_shape node parent newName actor t n :
  let n' := { (relocated_node node parent newName actor n) with vn_UpdatedAt := t } in
  vn_ID n' = vn_ID n /\ vn_IsDeleted n' = vn_IsDeleted n /\ vn_Kind n' = vn_Kind n /\
  metadataVFSNodeIsDirectory n' = metadataVFSNodeIsDirectory n /\ vn_CreatedAt n' = vn_CreatedAt n /\
  vn_Path n' = rebase (vn_Path node) (joinVirtualPath (vn_Path parent) newName) (vn_Path n).
Proof. unfold relocated_node. destruct (N.eqb _ _); done. Qed.

Lemma Forall2_in_r {A B} (R : A -> B -> Prop) l l' y : Forall2 R l l' -> y ∈ l' -> exists x, x ∈ l /\ R x y.
Proof. induction 1; intros Hy; [set_solver|]. apply elem_of_cons in Hy as [->|Hy]; set_solver. Qed.
Lemma Forall2_in_l {A B} (R : A -> B -> Prop) l l' x : Forall2 R l l' -> x ∈ l -> exists y, y ∈ l' /\ R x y.
Proof. induction 1; intros Hy; [set_solver|]. apply elem_of_cons in Hy as [->|Hy]; set_solver. Qed.

Lemma rebase_top old new : canonical old -> canonical new -> rebase old new old = new.
Proof.
  intros Ho Hn. destruct (rebase_segs old new old []) as (-> & _); [done..|by rewrite app_nil_r|].
  rewrite app_nil_r. apply canonical_segs in Hn as [_ Hn]. done.
Qed.

Lemma rebase_child old new p n : canonical old -> canonical new -> canonical (vn_Path p) -> canonical (vn_Path n) ->
  child_of p n -> isSubPath old (vn_Path p) = true ->
  rebase old new (vn_Path n) = joinVirtualPath (rebase old new (vn_Path p)) (vn_Name n).
Proof.
  intros Ho Hn Hp Hc Hch Hs. destruct (sub_segs _ _ Ho Hp Hs) as [k Ek].
  destruct (rebase_segs old new (vn_Path p) k) as (_ & Hcp & Es); [done..|].
  destruct (rebase_segs old new (vn_Path n) (k ++ [vn_Name n])) as (-> & _); [done..| |].
  { by rewrite (child_segs p n), Ek, app_assoc by done. }
  rewrite join_segs; [|done|apply Hch]. by rewrite Es, app_assoc.
Qed.

Lemma sub_root p : canonical p -> isSubPath p "/" = true -> p = "/".
Proof.
  intros Hp Hs. destruct (sub_segs p "/") as [k Ek]; [done|by exists []|done|].
  apply canonical_segs in Hp as [_ ->]. by destruct (segs p).
Qed.

Section RelocatedTree.
Context (node parent : VFSNode) (newName : string) (actor : option N) (l l' : list VFSNode).
Context (Hdist : distinct l) (Htree : tree l) (Hnode : node ∈ l) (Lnode : live node) (Hroot : vn_Path node <> "/").
Context (Hparent : parent ∈ l) (Lparent : live parent) (Dparent : metadataVFSNodeIsDirectory parent = true).
Context (Houtside : isSubPath (vn_Path node) (vn_Path parent) = false).
Context (Hname : plain_seg newName = true).
Context (Hrel : relocated node parent newName actor l l').

Lemma stays n : n ∈ l -> moving node n = false -> n ∈ l'.
Proof. intros Hn Hm. destruct (Forall2_in_l _ _ _ _ (proj2 (proj2 Hrel)) Hn) as (y & Hy & R). rewrite Hm in R. by subst. Qed.

Lemma moves n : n ∈ l -> moving node n = true -> exists t,
  { (relocated_node node parent newName actor n) with vn_UpdatedAt := t } ∈ l'.
Proof. intros Hn Hm. destruct (Forall2_in_l _ _ _ _ (proj2 (proj2 Hrel)) Hn) as (y & Hy & R). rewrite Hm in R. destruct R as [t ->]. by exists t. Qed.

Lemma node_path : canonical (vn_Path node).
Proof. by apply Htree. Qed.
Lemma new_path : canonical (joinVirtualPath (vn_Path parent) newName).
Proof. apply Hrel. Qed.

(** The moved node itself, a node below it, and any other node. *)
Lemma moved_top t : let n' := { (relocated_node node parent newName actor node) with vn_UpdatedAt := t } in
  canonical (vn_Path n') /\ vn_Kind n' <> VFSNodeKindRoot /\
  exists p, p ∈ l' /\ live p /\ metadataVFSNodeIsDirectory p = true /\ child_of p n'.
Proof.
  intros n'. pose proof node_path as Hc. pose proof new_path as Hnew. assert (vn_Path n' = joinVirtualPath (vn_Path parent) newName) as Hp.
  { destruct (relocated_shape node parent newName actor t node) as (_ & _ & _ & _ & _ & Sp).
    unfold n'. rewrite Sp. by apply rebase_top. }
  split; [by rewrite Hp|]. destruct (Htree node Hnode Lnode) as (_ & [(? & _)|(Hk & _)]); [done|].
  split. { destruct (relocated_shape node parent newName actor t node) as (_ & _ & Sk & _). unfold n'. by rewrite Sk. }
  exists parent. split_and!; [|done..|].
  - apply stays; [done|]. unfold moving. by rewrite Houtside, andb_false_r.
  - split_and!; [| |rewrite Hp]; unfold n', relocated_node; by rewrite N.eqb_refl.
Qed.

Lemma moved_below n t : n ∈ l -> moving node n = true -> n <> node ->
  let n' := { (relocated_node node parent newName actor n) with vn_UpdatedAt := t } in
  canonical (vn_Path n') /\ vn_Kind n' <> VFSNodeKindRoot /\
  exists p, p ∈ l' /\ live p /\ metadataVFSNodeIsDirectory p = true /\ child_of p n'.
Proof.
  intros Hn Hm Hne n'. pose proof node_path as Hc. pose proof new_path as Hnew. pose proof Hm as [Ln%negb_true_iff Hs]%andb_true_iff.
  destruct (relocated_shape node parent newName actor t n) as (_ & _ & Sk & _ & _ & Sp). fold n' in Sk, Sp.
  destruct (Htree n Hn Ln) as (Hcn & [(Er & _)|(Hk & p & Hp & Lp & Dp & Hch)]).
  { rewrite Er in Hs. apply sub_root in Hs; done. }
  destruct (Htree p Hp Lp) as (Hcp & _). destruct (sub_segs _ _ Hc Hcn Hs) as [k Ek].
  split; [rewrite Sp; by apply (rebase_segs _ _ _ k)|]. split; [by rewrite Sk|].
  assert (isSubPath (vn_Path node) (vn_Path p) = true) as Hsp.
  { rewrite (parent_inside node p n); [done..|]. intros E. by apply Hne, (proj2 Hdist). }
  destruct (moves p Hp) as [t' Hin]; [unfold moving; by rewrite Lp, Hsp|].
  destruct (relocated_shape node parent newName actor t' p) as (Pi & Pd & _ & Pdir & _ & Pp).
  eexists. split; [exact Hin|]. split; [exact (eq_trans Pd Lp)|]. split; [exact (eq_trans Pdir Dp)|].
  assert (vn_ID n <> vn_ID node) as Hid by (intros E; by apply Hne, (proj1 Hdist)).
  assert (vn_ParentID n' = vn_ParentID n /\ vn_Name n' = vn_Name n) as [Ep En].
  { unfold n', relocated_node. by rewrite (proj2 (N.eqb_neq _ _) Hid). }
  split_and!; rewrite ?En.
  - rewrite Ep, Pi. apply Hch.
  - apply Hch.
  - rewrite Sp, Pp. by apply rebase_child.
Qed.

Lemma unmoved n : n ∈ l -> live n -> moving node n = false -> ~ is_root n ->
  vn_Kind n <> VFSNodeKindRoot /\ exists p, p ∈ l' /\ live p /\ metadataVFSNodeIsDirectory p = true /\ child_of p n.
Proof.
  intros Hn Ln Hm Hr. pose proof node_path as Hc.
  destruct (Htree n Hn Ln) as (Hcn & [?|(Hk & p & Hp & Lp & Dp & Hch)]); [done|]. split; [done|].
  exists p. split_and!; [|done..]. apply stays; [done|]. destruct (Htree p Hp Lp) as (Hcp & _).
  unfold moving in Hm |- *. rewrite Ln in Hm. cbn in Hm. rewrite (parent_inside node p n), Hm by
    (done || (intros E; rewrite E, isSubPath_refl in Hm by done; done)). apply andb_false_r.
Qed.

Lemma relocated_tree : tree l'.
Proof.
  intros n' Hn' Ln'. destruct (Forall2_in_r _ _ _ _ (proj2 (proj2 Hrel)) Hn') as (n & Hn & R).
  destruct (moving node n) eqn:Hm.
  - destruct R as [t ->]. destruct (decide (vn_ID n = vn_ID node)) as [E|E].
    + assert (n = node) as -> by by apply (proj1 Hdist). destruct (moved_top t) as (? & ?). split; [done|by right].
    + destruct (moved_below n t) as (? & ?); [done|done|by intros ->|]. split; [done|by right].
  - subst. split; [by apply Htree|].
    destruct (decide (vn_Path n = "/")) as [E|E]; [left|right].
    + destruct (Htree n Hn Ln') as (_ & [?|(_ & p & Hp & Lp & _ & Hch)]); [done|].
      exfalso. eapply child_not_root; [by apply (Htree p)|exact Hch|done].
    + apply unmoved; [done..|]. by intros [? _].
Qed.
End RelocatedTree.

(** ** Helpers on rows *)
Lemma Forall2_set_where {A} (R R' : A -> A -> Prop) (p : A -> bool) f l l' :
  Forall2 R l l' -> (forall x y, x ∈ l -> R x y -> R' x (if p y then f y else y)) -> Forall2 R' l (set_where p f l').
Proof.
  unfold set_where. induction 1 as [|x y l l' Hxy _ IH]; intros HR; constructor; [apply HR; [set_solver|done]|].
  apply IH. intros; apply HR; set_solver.
Qed.

Lemma Forall2_diagonal {A} (R : A -> A -> Prop) l : (forall x, R x x) -> Forall2 R l l.
Proof. induction l; constructor; auto. Qed.

Lemma no_conflicts_ids l : no_conflicts TNode l = true -> NoDup (map vn_ID l).
Proof.
  induction l as [|n l IH]; intros Hl; [constructor|]. cbn in Hl. apply andb_true_iff in Hl as [Hn Hl].
  constructor; [|by apply IH]. intros (x & E & Hx)%list_elem_of_fmap. rewrite forallb_forall in Hn.
  apply list_elem_of_In, Hn in Hx. unfold VFSNodeModel_conflict in Hx. by rewrite E, N.eqb_refl in Hx.
Qed.

Lemma join_normalize p x q : canonical p -> plain_seg x = true -> normalizeVirtualPath (joinVirtualPath p x) = Ok q ->
  q = joinVirtualPath p x /\ canonical q.
Proof.
  intros Hp Hx. rewrite join_segs by done. apply canonical_segs in Hp as [Hg _].
  intros Hq. split; [|by eapply normalize_canonical]. rewrite normalize_snoc in Hq by done.
  by destruct (contains x ".."); simplify_eq.
Qed.

(** What the loop writes to a moving row. *)
Lemma moved_item_relocated node parent newName actor now t n l :
  let newPath := joinVirtualPath (vn_Path parent) newName in
  distinct l -> node ∈ l -> n ∈ l -> canonical (vn_Path node) -> canonical (vn_Path n) -> canonical newPath ->
  vn_Path node <> "/" -> newPath <> "/" -> moving node n = true ->
  { (moved_item node (vn_ID parent) newName newPath actor now n) with vn_UpdatedAt := t } =
  { (relocated_node node parent newName actor n) with vn_UpdatedAt := t }.
Proof.
  intros newPath Hd Hnode Hn Hc Hcn Hnew Hr Hnr [_ Hs]%andb_true_iff. unfold moved_item, relocated_node. fold newPath.
  destruct (N.eqb_spec (vn_ID n) (vn_ID node)) as [E|E].
  - assert (n = node) as -> by by apply (proj1 Hd). cbn. by rewrite rebase_top.
  - cbn. by rewrite rewrite_rebase.
Qed.

(** ** Rules for the steps of the service *)
Section Rules.
Context `{DatabaseLaws} {TF : TimeFormat} {MT : MimeTypes} (s : MetadataVFSService).
Implicit Types w : World.

Notation nodes w := (tbl TNode w).

Definition node_at w (p : string) (n : VFSNode) : Prop := n ∈ nodes w /\ live n /\ vn_Path n = p.
Definition unchanged w w' : Prop := forall t, tbl t w' = tbl t w.
(** An error of the database, as the service reports it; that of a commit
    is reported as it is. *)
Definition service_error (e : GoErr) : Prop := exists d, db_error d /\ (e = normalizeMetadataVFSError d \/ e = d).
Lemma service_error_normal d : db_error d -> service_error (normalizeMetadataVFSError d).
Proof. intros Hd. exists d. auto. Qed.
Lemma service_error_raw d : db_error d -> service_error d.
Proof. intros Hd. exists d. auto. Qed.

(** Why a path has no node, and why a path is not free. *)
Definition not_resolved w (p : string) (e : GoErr) : Prop :=
  service_error e \/ mv_nodeRepo s = false /\ e = ErrSourceDriverUnsupported \/ normalizeVirtualPath p = Err e \/
  e = ErrFileNotFound /\ (forall q n, normalizeVirtualPath p = Ok q -> ~ node_at w q n).
Definition not_free w (p : string) (e : GoErr) : Prop :=
  service_error e \/ normalizeVirtualPath p = Err e \/
  e = ErrNameConflict /\ exists q, normalizeVirtualPath p = Ok q /\ (q = "/" \/ exists n, node_at w q n).

Lemma wp_resolve p (Q : result GoErr VFSNode -> World -> Prop) w :
  (forall e w', same w w' -> not_resolved w p e -> Q (Err e) w') ->
  (forall q n w', same w w' -> mv_nodeRepo s = true -> normalizeVirtualPath p = Ok q -> node_at w q n -> Q (Ok n) w') ->
  wp (MetadataVFSService_ResolveNode s p) Q w.
Proof.
  intros He Hk. unfold MetadataVFSService_ResolveNode.
  destruct (mv_nodeRepo s) eqn:En; cbn; [|apply He; [done|right; by left]].
  apply wp_bind, wp_lift_result.
  destruct (normalizeVirtualPath p) as [q|e] eqn:Eq; [|apply He; [done|right; right; by left]].
  apply wp_map_err, (wp_first TNode).
  - intros e w' Hs Hd. apply He; [done|]. left. by apply service_error_normal.
  - intros w' Hs Hn. apply He; [done|]. right; right; right. split; [done|].
    intros q' n E (Hin & L & Hp). rewrite Eq in E. injection E as <-. specialize (Hn n Hin).
    cbn in Hn. by rewrite Hp, L, String.eqb_refl in Hn.
  - intros n w' Hs Hn Hp _. cbn in Hp. apply andb_true_iff in Hp as [Hp%String.eqb_eq L%negb_true_iff].
    by apply (Hk q n).
Qed.

Lemma wp_available p (Q : result GoErr unit -> World -> Prop) w :
  (forall e w', same w w' -> not_free w p e -> Q (Err e) w') ->
  (forall q w', same w w' -> normalizeVirtualPath p = Ok q -> q <> "/" ->
     (forall n, n ∈ nodes w -> live n -> vn_Path n <> q) -> Q (Ok tt) w') ->
  wp (ensureMetadataNameAvailable p) Q w.
Proof.
  intros He Hk. unfold ensureMetadataNameAvailable. apply wp_bind, wp_lift_result.
  destruct (normalizeVirtualPath p) as [q|e] eqn:Eq; [|apply He; [done|right; by left]].
  destruct (String.eqb_spec q "/") as [->|Hne]; [apply He; [done|right; right; split; [done|eauto]]|].
  apply wp_bind_or, (wp_first TNode).
  - intros e w' Hs Hd. rewrite db_error_is_not_found by done. apply He; [done|]. left. by apply service_error_normal.
  - intros w' Hs Hn. cbn. apply wp_ret, (Hk q); [done..|]. intros n Hin L Hp. specialize (Hn n Hin).
    cbn in Hn. by rewrite Hp, L, String.eqb_refl in Hn.
  - intros n w' Hs Hin Hp _. cbn in Hp. apply andb_true_iff in Hp as [Hp%String.eqb_eq L%negb_true_iff].
    apply He; [done|]. right; right. split; [done|]. exists q. split; [done|]. right. by exists n.
Qed.

(** Reading the subtree of a node. *)
Lemma wp_subtree node (Q : result GoErr (list VFSNode) -> World -> Prop) w :
  tree (nodes w) -> node ∈ nodes w -> live node -> trim_space (vn_Path node) = vn_Path node -> vn_Path node <> "/" ->
  (forall e w', same w w' -> db_error e -> Q (Err e) w') ->
  (forall l w', same w w' -> l ≡ₚ sel (moving node) (nodes w) -> Q (Ok l) w') ->
  wp (VFSNodeRepository_ListByPathPrefix (vn_Path node) no_node_filter) Q w.
Proof.
  intros Ht Hn Ln Htrim Hroot He Hk. unfold VFSNodeRepository_ListByPathPrefix.
  destruct (Ht node Hn Ln) as [Hc _]. rewrite prefix_id by done.
  apply (wp_select TNode); [by intros e w' Hs; apply He|]. intros all w' Hs Hp _. apply Hk; [done|].
  assert (limited (row_limit (nlf_Limit no_node_filter)) all = all) as -> by done. rewrite Hp.
  erewrite sel_ext; [reflexivity|].
  intros n Hin. unfold moving, applyVFSNodeListFilter. cbn. rewrite andb_comm, !andb_true_r.
  destruct (vn_IsDeleted n) eqn:L; [done|]. cbn. apply like_subtree; [done..|]. by apply Ht.
Qed.

Lemma wp_target_available subtree ids old new (Q : result GoErr unit -> World -> Prop) w :
  (forall n m, n ∈ subtree -> m ∈ nodes w -> live m -> vn_Path m <> rewriteMetadataSubtreePath (vn_Path n) old new) ->
  (forall e w', same w w' -> service_error e -> Q (Err e) w') -> (forall w', same w w' -> Q (Ok tt) w') ->
  wp (subtree_target_available subtree ids old new) Q w.
Proof.
  revert w. induction subtree as [|item rest IH]; intros w Hfree He Hk; [by apply Hk|]. cbn.
  apply wp_bind_or, (wp_first TNode).
  - intros e w' Hs Hd. rewrite db_error_is_not_found by done. apply He; [done|by apply service_error_normal].
  - intros w' Hs _. cbn. apply IH.
    + intros n m Hn Hm. rewrite (proj1 Hs) in Hm. apply Hfree; [by right|done].
    + intros e w'' Hs'. apply He. by eapply same_trans.
    + intros w'' Hs'. apply Hk. by eapply same_trans.
  - intros m w' Hs Hm Hp _. cbn in Hp. apply andb_true_iff in Hp as [Hp%String.eqb_eq L%negb_true_iff].
    exfalso. by apply (Hfree item m); [left|..].
Qed.

(** The locators of storage objects are in a table of their own. *)
Lemma wp_inner_path sourceID p (Q : result GoErr string -> World -> Prop) w :
  (forall e w', same w w' -> service_error e \/ e = ErrPathInvalid \/ e = ErrFileNotFound -> Q (Err e) w') ->
  (forall inner w', same w w' -> Q (Ok inner) w') -> wp (metadataNodeInnerPath sourceID p) Q w.
Proof.
  intros He Hk. unfold metadataNodeInnerPath.
  assert (forall x w', same w w' -> wp (lift_result (normalizeVirtualPath x)) Q w') as Hnorm.
  { intros x w' Hs. apply wp_lift_result. destruct (normalizeVirtualPath x) as [y|e] eqn:E; [by apply Hk|].
    apply normalize_err in E as ->. auto. }
  apply wp_bind, wp_map_err, (wp_first TSource); [intros e w' Hs Hd; apply He; [done|left; by apply service_error_normal]|intros w' Hs _; auto|].
  intros source w' Hs _ _ _. destruct (String.eqb _ _); [by apply Hnorm|].
  apply wp_bind, wp_lift_result. destruct (normalizeMountPath _) as [mount|e] eqn:E;
    [|apply normalize_err in E as ->; auto].
  apply wp_bind, wp_lift_result. destruct (normalizeVirtualPath p) as [q|e] eqn:E';
    [|apply normalize_err in E' as ->; auto].
  destruct (negb _); [by apply He; auto|by apply Hnorm].
Qed.

(** A file whose object cannot follow it: its source is gone, or does not
    cover the new path. *)
Definition locator_trouble (n : VFSNode) (e : GoErr) : Prop :=
  mv_objectRepo s = true /\ mv_sourceRepo s = true /\ vn_Kind n = VFSNodeKindFile /\ vn_ObjectID n <> None /\
  vn_SourceID n <> None /\ (e = ErrPathInvalid \/ e = ErrFileNotFound).

Lemma wp_sync_locator node now (Q : result GoErr unit -> World -> Prop) w :
  (forall e w', same w w' -> service_error e \/ locator_trouble node e -> Q (Err e) w') ->
  (forall w', frames [TObject] w w' -> Q (Ok tt) w') -> wp (syncPathBasedObjectLocator s node now) Q w.
Proof.
  intros He Hk. unfold syncPathBasedObjectLocator.
  destruct (vn_ObjectID node) as [oid|] eqn:Eo; [|by apply Hk, frames_refl].
  destruct (vn_SourceID node) as [sid|] eqn:Es; [|by apply Hk, frames_refl].
  destruct (_ || _) eqn:Ec; [by apply Hk, frames_refl|].
  rewrite !orb_false_iff, !negb_false_iff, String.eqb_eq in Ec. destruct Ec as [[E1 E2] E3].
  apply wp_bind_or, (wp_first TObject).
  - intros e w' Hs Hd. rewrite db_error_is_not_found by done. apply He; [done|]. left. by apply service_error_normal.
  - intros w' Hs _. by apply Hk, same_frames.
  - intros o w1 Hs Ho Hoid _. destruct (negb _); [by apply Hk, same_frames|]. apply N.eqb_eq in Hoid.
    assert (forall e, e = ErrPathInvalid \/ e = ErrFileNotFound -> locator_trouble node e) as Htr.
    { intros e Hd. by repeat split; rewrite ?Eo, ?Es. }
    apply wp_bind, wp_inner_path; [intros e w2 Hs2 Hd|intros inner w2 Hs2]; pose proof (same_trans _ _ _ Hs Hs2) as Hs'.
    { apply He; [done|]. naive_solver. }
    apply wp_map_err, (wp_update_found TObject).
    + intros e w3 Hs3 Hd. apply He; [by eapply same_trans|]. left. by apply service_error_normal.
    + intros w3 Hs3 Hn. specialize (Hn o). rewrite (proj1 Hs') in Hn. specialize (Hn Ho). cbn in Hn.
      by rewrite N.eqb_refl in Hn.
    + intros t w3 l _ Hn Hp. apply Hk. eapply frames_trans; [by apply same_frames|]. by apply (put_frames TObject l).
Qed.

(** The rows after some items of the loop were written. *)
Definition progress (move : VFSNode -> VFSNode) (written : list N) (n n' : VFSNode) : Prop :=
  if existsb (N.eqb (vn_ID n)) written then exists t, n' = { (move n) with vn_UpdatedAt := t } else n' = n.

Lemma progress_id move written n n' : (forall n, vn_ID (move n) = vn_ID n) ->
  progress move written n n' -> vn_ID n' = vn_ID n.
Proof. intros Hid. unfold progress. destruct (existsb _ _); [intros [t ->]; apply Hid|by intros ->]. Qed.

Lemma progress_step move written item l0 l now :
  distinct l0 -> (forall n, vn_ID (move n) = vn_ID n /\ vn_CreatedAt (move n) = vn_CreatedAt n) ->
  item ∈ l0 -> vn_ID item ∉ written -> Forall2 (progress move written) l0 l ->
  Forall2 (progress move (written ++ [vn_ID item])) l0
    (set_where (fun n => N.eqb (vn_ID n) (vn_ID (move item))) (fun n => touch TNode now (node_columns (move item) n)) l).
Proof.
  intros Hd Hm Hi Hnew HF. eapply Forall2_set_where; [exact HF|]. intros n n' Hn R.
  pose proof (progress_id move written n n' (fun n => proj1 (Hm n)) R) as Eid.
  rewrite Eid, (proj1 (Hm item)). unfold progress in R |- *. rewrite existsb_app. cbn. rewrite orb_false_r.
  destruct (N.eqb_spec (vn_ID n) (vn_ID item)) as [E|E]; [|by rewrite orb_false_r].
  assert (n = item) as -> by by apply (proj1 Hd). rewrite orb_true_r.
  assert (existsb (N.eqb (vn_ID item)) written = false) as Ex.
  { apply not_true_is_false. intros (x & Hx%list_elem_of_In & <-%N.eqb_eq)%existsb_exists. done. }
  rewrite Ex in R. subst n'. exists now. destruct (Hm item) as [E1 E2].
  destruct (move item) eqn:Em. cbn in *. unfold node_columns. cbn. by rewrite E1, E2.
Qed.

Lemma wp_update_items move now items written (Q : result GoErr unit -> World -> Prop) w0 w :
  distinct (nodes w0) -> (forall n, vn_ID (move n) = vn_ID n /\ vn_CreatedAt (move n) = vn_CreatedAt n) ->
  (forall n, n ∈ items -> n ∈ nodes w0 /\ vn_ID n ∉ written) -> NoDup (map vn_ID items) ->
  frames [TNode; TObject] w0 w -> Forall2 (progress move written) (nodes w0) (nodes w) ->
  (forall e w', frames [TNode; TObject] w0 w' ->
     service_error e \/ (exists n, n ∈ items /\ locator_trouble (move n) e) -> Q (Err e) w') ->
  (forall w', frames [TNode; TObject] w0 w' ->
     Forall2 (progress move (written ++ map vn_ID items)) (nodes w0) (nodes w') -> Q (Ok tt) w') ->
  wp (update_items s move now items) Q w.
Proof.
  intros Hd Hm. revert written w. induction items as [|item rest IH]; intros written w Hin Hnd Hf HF He Hk.
  - apply wp_ret, Hk; [done|]. by rewrite app_nil_r.
  - cbn. cbn in Hnd. apply NoDup_cons in Hnd as [Hi Hnd]. destruct (Hin item) as [Hi0 Hw]; [by left|].
    apply wp_bind, wp_sync_locator.
    { intros e w1 Hs1 Hde. apply He; [by eapply frames_same|]. destruct Hde as [?|Hde]; [by left|right].
      exists item. split; [by left|done]. }
    intros w1 Hf1. assert (frames [TNode; TObject] w0 w1) as Hf01.
    { eapply frames_trans; [exact Hf|]. eapply frames_mono; [exact Hf1|set_solver]. }
    assert (nodes w1 = nodes w) as E1 by (eapply (frames_tbl [TObject]); [done|set_solver]).
    apply wp_bind, wp_map_err, (wp_update_found TNode).
    + intros e w2 Hs2 Hde. apply He; [by eapply frames_same|]. left. by apply service_error_normal.
    + intros w2 Hs2 Hn. exfalso. destruct (Forall2_in_l _ _ _ _ HF Hi0) as (y & Hy & R).
      apply progress_id in R; [|apply Hm]. rewrite E1 in Hn. specialize (Hn y Hy). cbn in Hn.
      by rewrite R, (proj1 (Hm item)), N.eqb_refl in Hn.
    + intros t w2 l _ Hn Hp. assert (frames [TNode; TObject] w0 w2) as Hf2.
      { eapply frames_trans; [exact Hf01|]. eapply frames_mono; [by apply (put_frames TNode l)|set_solver]. }
      apply (IH (written ++ [vn_ID item])); [|done|done| | |].
      * intros n Hn'. destruct (Hin n) as [? ?]; [by right|]. split; [done|].
        rewrite elem_of_app, list_elem_of_singleton. intros [?|E]; [done|]. apply Hi. rewrite <- E. by apply list_elem_of_fmap_2.
      * destruct Hp as [-> _]. unfold l. rewrite E1. by apply progress_step.
      * intros e w3 Hf3 Hde. apply He; [done|]. destruct Hde as [?|(n & Hn' & Hde)]; [by left|right].
        exists n. split; [by right|done].
      * intros w3. rewrite <- app_assoc. apply Hk.
Qed.

Lemma rolled_back ts ts' w w1 w2 : frames ts w w1 -> (forall t, tbl t w2 = tbl t w) ->
  w_clock w2 = w_clock w1 -> w_reads w2 = w_reads w1 -> unchanged w w2 /\ frames ts' w w2.
Proof.
  intros (_ & _ & Hc & Hr) Ht E1 E2. split; [done|]. split_and!; [auto| |congruence|lia].
  intros Hv t. rewrite Ht. apply Hv.
Qed.

Lemma wp_update_subtree node parent newName actor (Q : result GoErr unit -> World -> Prop) w :
  let newPath := joinVirtualPath (vn_Path parent) newName in
  mv_transactor s = true -> valid w -> tree (nodes w) -> node ∈ nodes w -> live node -> vn_Path node <> "/" ->
  trim_space (vn_Path node) = vn_Path node -> canonical newPath -> newPath <> "/" ->
  (forall n, n ∈ nodes w -> live n -> vn_Path n <> newPath) ->
  (forall e w', unchanged w w' -> frames [TNode; TObject] w w' ->
     service_error e \/ (exists n, n ∈ nodes w /\ moving node n = true /\ locator_trouble n e) -> Q (Err e) w') ->
  (forall w', frames [TNode; TObject] w w' -> relocated node parent newName actor (nodes w) (nodes w') -> Q (Ok tt) w') ->
  wp (updateMetadataSubtreePath s node (vn_ID parent) newName newPath actor) Q w.
Proof.
  intros newPath Htx Hv Ht Hn Ln Hr Htrim Hc Hnr Hfree He Hk. pose proof (valid_distinct _ (Hv TNode)) as Hd.
  pose proof (proj1 (Ht node Hn Ln)) as Hcn.
  unfold updateMetadataSubtreePath, withinTx. rewrite Htx. apply wp_transaction; [apply normalize_db_error|].
  assert (forall e w1 w2, frames [TNode; TObject] w w1 ->
            service_error e \/ (exists n, n ∈ nodes w /\ moving node n = true /\ locator_trouble n e) ->
            (forall t, tbl t w2 = tbl t w) -> w_clock w2 = w_clock w1 -> w_reads w2 = w_reads w1 -> Q (Err e) w2) as Hback.
  { intros e w1 w2 Hf He' E1 E2 E3. destruct (rolled_back _ [TNode; TObject] _ _ _ Hf E1 E2 E3). by apply He. }
  apply wp_bind, wp_map_err, wp_subtree; [done..| |].
  { intros e w1 Hs Hde w2. apply (Hback _ w1); [by apply same_frames|]. left. by apply service_error_normal. }
  intros l w1 Hs1 Hl.
  assert (node ∈ l) as Hnl.
  { rewrite Hl, elem_of_sel. split; [done|]. unfold moving. by rewrite Ln, isSubPath_refl. }
  destruct l as [|a l']; [set_solver|].
  set (l := a :: l') in *. set (sorted := stable_sort shorter_path l).
  assert (forall n, n ∈ sorted <-> n ∈ nodes w /\ moving node n = true) as Hsorted.
  { intros n. unfold sorted. by rewrite stable_sort_perm, Hl, elem_of_sel. }
  apply wp_bind, wp_target_available.
  { intros n m [Hn' [Ln'%negb_true_iff Hs']%andb_true_iff]%Hsorted Hm Lm. rewrite (proj1 Hs1) in Hm.
    destruct (Ht n Hn' Ln') as [Hcn' _]. rewrite rewrite_rebase by done. by apply (free_below (nodes w)). }
  { intros e w1' Hs1' Hde w2. apply (Hback _ w1'); [by apply same_frames; eapply same_trans|by left]. }
  intros w1' Hs1'. pose proof (same_trans _ _ _ Hs1 Hs1') as Hs2.
  apply wp_bind, wp_time_now.
  set (move := moved_item node (vn_ID parent) newName newPath actor (the_time w1')).
  apply (wp_update_items move _ sorted [] _ w).
  - done.
  - intros n. unfold move, moved_item. by destruct (N.eqb _ _).
  - intros n Hin. split; [by apply Hsorted|set_solver].
  - unfold sorted. rewrite stable_sort_perm, Hl. apply no_conflicts_ids, no_conflicts_sel, Hv.
  - eapply frames_trans; [by apply same_frames|apply tick_frames].
  - replace (nodes { w1' with w_reads ::= S }) with (nodes w) by (symmetry; apply Hs2). by apply Forall2_diagonal.
  - intros e w2 Hf Hde w3. apply (Hback _ w2); [done|]. destruct Hde as [?|(n & Hn' & Hde)]; [by left|right].
    apply Hsorted in Hn' as [Hn' Hm]. exists n. split_and!; [done..|].
    unfold locator_trouble, move, moved_item in Hde. by destruct (N.eqb _ _).
  - intros w2 Hf HF. split; [|intros e w3 E1 E2 E3 Hde; apply (Hback _ w2); [done| |done..]].
    2:{ left. by apply service_error_raw. }
    intros w3 Hs3. apply Hk; [by eapply frames_same|]. rewrite (proj1 Hs3). split; [done|]. split; [done|].
    apply Forall2_same_length_lookup. apply Forall2_same_length_lookup in HF as [Hlen HF]. split; [done|].
    intros i n n' Hi Hi'. pose proof (HF i n n' Hi Hi') as R. apply list_elem_of_lookup_2 in Hi.
    unfold progress in R. cbn [app] in R.
    replace (existsb (N.eqb (vn_ID n)) (map vn_ID sorted)) with (moving node n) in R.
    + destruct (moving node n) eqn:Hm; [|done]. destruct R as [t ->]. exists t.
      assert (live n) as L by (by apply andb_true_iff in Hm as [L%negb_true_iff _]).
      apply (moved_item_relocated _ _ _ _ _ _ _ (nodes w)); try done. by apply Ht.
    + apply eq_true_iff_eq. rewrite existsb_exists. setoid_rewrite <- list_elem_of_In.
      setoid_rewrite list_elem_of_fmap. split.
      * intros Hm. exists (vn_ID n). rewrite N.eqb_refl. split; [|done]. exists n. split; [done|].
        by apply Hsorted.
      * intros (x & (m & -> & Hm) & E%N.eqb_eq). apply Hsorted in Hm as [Hm Hmm].
        by assert (n = m) as -> by by apply (proj1 Hd).
Qed.
End Rules.
