(* ===== verification/MetaTreeProps.v ===== *)
(** * The metadata tree: properties of the operations

    What a directory listing shows; what [Mkdir], [Rename], [Move] and
    [Delete] change, and why they refuse; and that every operation keeps
    the tree.  Paths that end with white space are the exception
    ([rename_trailing_space]): the repository trims them before it selects
    a subtree. *)
From S2P Require Import Prelude Ints GoStrings Entities Paths Tables Db Auditing Repos MetaRepos Acl AclService Users MetaTree MetaTreeSpec.
From stdpp Require Import base list strings sets sorting.
From Stdlib Require Import ZArith Lia Ascii.

Local Open Scope string_scope.
Local Open Scope list_scope.
Local Open Scope go_scope.

Notation live n := (vn_IsDeleted n = false) (only parsing).

Section Operations.
Context `{DatabaseLaws} {TF : TimeFormat} {MT : MimeTypes} (s : MetadataVFSService).
Implicit Types w : World.
Notation nodes w := (tbl TNode w).
Notation item_of := metadataVFSItemFromNode.

(** ** Renames and moves *)

(** [node] moves below [parent], under [newName]. *)
Definition moves_to w w' (node parent : VFSNode) (newName : string) (actor : option N) : Prop :=
  node ∈ nodes w /\ live node /\ vn_Kind node <> VFSNodeKindRoot /\ vn_Kind node <> VFSNodeKindMount /\
  parent ∈ nodes w /\ live parent /\ metadataVFSNodeIsDirectory parent = true /\
  isSubPath (vn_Path node) (vn_Path parent) = false /\ plain_seg newName = true /\
  relocated node parent newName actor (nodes w) (nodes w').

Lemma not_root_path w node : tree (nodes w) -> node ∈ nodes w -> live node -> vn_Kind node <> VFSNodeKindRoot ->
  vn_Path node <> "/".
Proof.
  intros Ht Hn Ln Hk. destruct (Ht node Hn Ln) as (_ & [(_ & _ & ?)|(_ & p & Hp & Lp & _ & Hch)]); [done|].
  eapply child_not_root; [by apply Ht|exact Hch].
Qed.

Lemma moves_to_tree w w' node parent newName actor : valid w -> tree (nodes w) ->
  moves_to w w' node parent newName actor -> tree (nodes w').
Proof.
  intros Hv Ht (Hn & Ln & Hk & _ & Hp & Lp & Dp & Ho & Hx & Hr).
  apply (relocated_tree node parent newName actor (nodes w)); try done; [by apply valid_distinct|by apply (not_root_path w)].
Qed.

(** Why a node stays: it is a root or a mount; its new path is not free; an
    error of the database; the object of a file cannot follow. *)
Definition not_movable (node : VFSNode) (e : GoErr) : Prop :=
  (vn_ParentID node = None \/ vn_Kind node = VFSNodeKindRoot) /\ e = ErrPathInvalid \/
  vn_Kind node = VFSNodeKindMount /\ e = ErrSourceOperationUnsupported.
Definition not_relocated w (node : VFSNode) (newPath : string) (e : GoErr) : Prop :=
  not_free w newPath e \/ service_error e \/
  exists n, n ∈ nodes w /\ moving node n = true /\ locator_trouble s n e.

Lemma wp_movable node (Q : result GoErr N -> World -> Prop) w :
  (forall e, not_movable node e -> Q (Err e) w) ->
  (forall id, vn_ParentID node = Some id -> vn_Kind node <> VFSNodeKindRoot -> vn_Kind node <> VFSNodeKindMount ->
     Q (Ok id) w) -> wp (movable node) Q w.
Proof.
  intros He Hk. unfold movable. destruct (vn_ParentID node) as [id|] eqn:Ep; [|apply He; left; auto].
  destruct (String.eqb_spec (vn_Kind node) VFSNodeKindRoot); [apply He; left; auto|].
  destruct (String.eqb_spec (vn_Kind node) VFSNodeKindMount); [apply He; right; auto|by apply Hk].
Qed.

Lemma wp_relocate node parent newName actor (Q : result GoErr (string * VFSItem) -> World -> Prop) w0 w :
  let newPath := joinVirtualPath (vn_Path parent) newName in
  mv_transactor s = true -> mv_nodeRepo s = true -> valid w0 -> tree (nodes w0) -> same w0 w ->
  trim_space (vn_Path node) = vn_Path node ->
  node ∈ nodes w0 -> live node -> vn_Kind node <> VFSNodeKindRoot -> vn_Kind node <> VFSNodeKindMount ->
  parent ∈ nodes w0 -> live parent -> metadataVFSNodeIsDirectory parent = true ->
  isSubPath (vn_Path node) (vn_Path parent) = false -> plain_seg newName = true ->
  (forall e w', frames [TNode; TObject] w0 w' -> unchanged w0 w' -> not_relocated w0 node newPath e -> Q (Err e) w') ->
  (forall e w', frames [TNode; TObject] w0 w' -> service_error e -> moves_to w0 w' node parent newName actor -> Q (Err e) w') ->
  (forall n' w', frames [TNode; TObject] w0 w' -> moves_to w0 w' node parent newName actor -> node_at w' newPath n' ->
     vn_ID n' = vn_ID node -> Q (Ok (vn_Path node, item_of n')) w') ->
  wp (relocate s node (vn_ID parent) newName newPath actor) Q w.
Proof.
  intros newPath Htx Hrepo Hv Ht Hs0 Htrim Hn Ln Hkr Hkm Hp Lp Dp Ho Hx He He2 Hk.
  pose proof (proj1 (Ht node Hn Ln)) as Hcn. pose proof (proj1 (Ht parent Hp Lp)) as Hcp.
  unfold relocate. apply wp_bind, wp_available.
  { intros e w1 Hs1 Hd. pose proof (same_trans _ _ _ Hs0 Hs1) as Hs. apply He; [by apply same_frames|exact (proj1 Hs)|].
    left. unfold not_free, node_at in *. by rewrite (proj1 Hs0) in Hd. }
  intros q w1 Hs1 Hq Hqr Hfree. pose proof (same_trans _ _ _ Hs0 Hs1) as Hs.
  destruct (join_normalize _ _ _ Hcp Hx Hq) as [-> Hc]. fold newPath in Hq, Hqr, Hfree, Hc.
  assert (nodes w1 = nodes w0) as En by apply Hs. rewrite (proj1 Hs0) in Hfree.
  apply wp_bind, wp_update_subtree; rewrite ?En; try done; [by eapply same_valid|by apply (not_root_path w0)| |].
  { intros e w2 Hu Hf Hd. apply He; [eapply frames_trans; [by apply same_frames|done]| |by right].
    intros t. rewrite Hu. apply Hs. }
  intros w2 Hf Hr. assert (frames [TNode; TObject] w0 w2) as Hf2 by (eapply frames_trans; [by apply same_frames|done]).
  assert (moves_to w0 w2 node parent newName actor) as Hm by done.
  assert (exists n', node_at w2 newPath n' /\ vn_ID n' = vn_ID node) as (n' & Hn' & Eid).
  { destruct (Forall2_in_l _ _ _ _ (proj2 (proj2 Hr)) Hn) as (y & Hy & R).
    assert (moving node node = true) as Hmv by (unfold moving; by rewrite Ln, isSubPath_refl).
    rewrite Hmv in R. destruct R as [t ->]. eexists.
    destruct (relocated_shape node parent newName actor t node) as (E1 & E2 & _ & _ & _ & E3).
    split; [|exact E1]. split_and!; [exact Hy|exact (eq_trans E2 Ln)|]. rewrite E3. by apply rebase_top. }
  assert (valid w2) as Hv2 by by apply Hf2.
  apply wp_bind, wp_resolve.
  - intros e w3 Hs3 Hd. destruct Hd as [Hd|[[? _]|[Hd|[_ Hd]]]]; [|congruence|congruence|by destruct (Hd newPath n')].
    apply He2; [by eapply frames_same|done|]. unfold moves_to. by rewrite (proj1 Hs3).
  - intros q n3 w3 Hs3 _ Hq3 Hn3. rewrite Hq in Hq3. injection Hq3 as <-.
    assert (n3 = n') as ->.
    { destruct Hn3 as (A1 & A2 & A3), Hn' as (B1 & B2 & B3).
      apply (proj2 (valid_distinct _ (Hv2 TNode))); [done..|congruence]. }
    apply wp_ret, Hk; [by eapply frames_same| | |done].
    + unfold moves_to. by rewrite (proj1 Hs3).
    + unfold node_at. by rewrite (proj1 Hs3).
Qed.

(** A directory and the node at a path. *)
Definition is_child w (parent node : VFSNode) : Prop :=
  parent ∈ nodes w /\ live parent /\ metadataVFSNodeIsDirectory parent = true /\ child_of parent node.

Lemma tree_parent w node : tree (nodes w) -> node ∈ nodes w -> live node -> vn_Kind node <> VFSNodeKindRoot ->
  exists parent, is_child w parent node.
Proof. intros Ht Hn Ln Hk. destruct (Ht node Hn Ln) as (_ & [(_ & _ & ?)|(_ & p & Hp)]); [done|]. by exists p. Qed.

(** A path that the repository does not trim. *)
Definition untrimmed (p : string) : Prop := forall q, normalizeVirtualPath p = Ok q -> trim_space q = q.

(** What [Rename] and [Move] do, given where the node goes. *)
Definition moved_post w w' (node parent : VFSNode) (newName : string) (actor : option N)
    (refused : GoErr -> Prop) (res : result GoErr (string * VFSItem)) : Prop :=
  match res with
  | Ok (old, item) =>
      old = vn_Path node /\ moves_to w w' node parent newName actor /\
      exists n', node_at w' (joinVirtualPath (vn_Path parent) newName) n' /\ vn_ID n' = vn_ID node /\ item = item_of n'
  | Err e => unchanged w w' /\ refused e \/ service_error e /\ moves_to w w' node parent newName actor
  end.

Definition rename_post w w' (req : MetadataVFSRenameRequest) (res : result GoErr (string * VFSItem)) : Prop :=
  match res with
  | Err e =>
      unchanged w w' /\ (validateFileName (rn_NewName req) = Err e \/ not_resolved s w (rn_Path req) e)
  | Ok _ => False
  end \/
  exists q node, normalizeVirtualPath (rn_Path req) = Ok q /\ node_at w q node /\
    (match res with
     | Err e => unchanged w w' /\ not_movable node e
     | Ok (old, item) =>
         vn_Name node = rn_NewName req /\ unchanged w w' /\ old = q /\ item = item_of node
     end \/
     vn_Name node <> rn_NewName req /\
     exists parent, is_child w parent node /\
       moved_post w w' node parent (rn_NewName req) (rn_ActorID req)
         (not_relocated w node (joinVirtualPath (vn_Path parent) (rn_NewName req))) res).

Lemma rename_ok req w : mv_transactor s = true -> valid w -> tree (nodes w) -> untrimmed (rn_Path req) ->
  wp (MetadataVFSService_Rename s req) (fun res w' => frames [TNode; TObject] w w' /\ rename_post w w' req res) w.
Proof.
  intros Htx Hv Ht Htrim. unfold MetadataVFSService_Rename. apply wp_bind, wp_lift_result.
  destruct (validateFileName (rn_NewName req)) as [[]|e] eqn:Ev.
  2:{ split; [apply frames_refl|]. left. split; [by intros t|by left]. }
  apply validateFileName_ok in Ev as [Hx _].
  apply wp_bind, wp_resolve.
  { intros e w1 Hs Hd. split; [by apply same_frames|]. left. split; [exact (proj1 Hs)|by right]. }
  intros q node w1 Hs Hrepo Hq Hn. pose proof Hn as (Hin & Ln & Ep).
  apply wp_bind, wp_movable.
  { intros e Hd. split; [by apply same_frames|]. right. exists q, node. split; [done|]. split; [done|].
    left. split; [exact (proj1 Hs)|done]. }
  intros id Hid Hkr Hkm. destruct (tree_parent w node Ht Hin Ln Hkr) as (parent & Hp & Lp & Dp & Hch).
  destruct (String.eqb_spec (vn_Name node) (rn_NewName req)) as [E|E].
  { apply wp_ret. split; [by apply same_frames|]. right. exists q, node. split; [done|]. split; [done|].
    left. split_and!; [done|exact (proj1 Hs)|done..]. }
  pose proof (proj1 (Ht node Hin Ln)) as Hcn. pose proof (proj1 (Ht parent Hp Lp)) as Hcp.
  rewrite (child_shown_parent parent) by done. replace id with (vn_ID parent) by (destruct Hch; congruence).
  assert (trim_space (vn_Path node) = vn_Path node) as Htn by (rewrite Ep; by apply Htrim).
  apply (wp_relocate _ _ _ _ _ w); try done; [by apply parent_outside|..].
  - intros e w2 Hf Hu Hd. split; [done|]. right. exists q, node. split; [done|]. split; [done|].
    right. split; [done|]. exists parent. split; [done|]. by left.
  - intros e w2 Hf Hd Hm. split; [done|]. right. exists q, node. split; [done|]. split; [done|].
    right. split; [done|]. exists parent. split; [done|]. by right.
  - intros n' w2 Hf Hm Hn' Hi. split; [done|]. right. exists q, node. split; [done|]. split; [done|].
    right. split; [done|]. exists parent. split; [done|]. split; [done|]. split; [done|]. by exists n'.
Qed.

(** ** Moves *)
Definition move_refused (node targetParent : VFSNode) (e : GoErr) : Prop :=
  e = ErrPathInvalid /\
  (metadataVFSNodeIsDirectory targetParent = false \/ isSubPath (vn_Path node) (vn_Path targetParent) = true) \/
  e = ErrSourceOperationUnsupported /\
  (vn_MountID node <> vn_MountID targetParent \/ vn_SourceID node <> vn_SourceID targetParent).

Definition move_post w w' (req : MetadataVFSMoveRequest) (res : result GoErr (string * VFSItem)) : Prop :=
  match res with
  | Err e => unchanged w w' /\ not_resolved s w (mo_Path req) e
  | Ok _ => False
  end \/
  exists q node, normalizeVirtualPath (mo_Path req) = Ok q /\ node_at w q node /\
    (match res with
     | Err e => unchanged w w' /\ (not_movable node e \/ not_resolved s w (mo_TargetParentPath req) e)
     | Ok _ => False
     end \/
     exists t parent, normalizeVirtualPath (mo_TargetParentPath req) = Ok t /\ node_at w t parent /\
       (match res with
        | Err e => unchanged w w' /\ move_refused node parent e
        | Ok (old, item) =>
            vn_ParentID node = Some (vn_ID parent) /\ unchanged w w' /\ old = q /\ item = item_of node
        end \/
        vn_MountID node = vn_MountID parent /\ vn_SourceID node = vn_SourceID parent /\
        vn_ParentID node <> Some (vn_ID parent) /\
        moved_post w w' node parent (vn_Name node) (mo_ActorID req)
          (not_relocated w node (joinVirtualPath (vn_Path parent) (vn_Name node))) res)).

Lemma sameUintPtr_spec a b : sameUintPtr a b = true <-> a = b.
Proof.
  destruct a as [a|], b as [b|]; cbn; rewrite ?N.eqb_eq; split; congruence.
Qed.

Lemma move_ok req w : mv_transactor s = true -> valid w -> tree (nodes w) -> untrimmed (mo_Path req) ->
  wp (MetadataVFSService_Move s req) (fun res w' => frames [TNode; TObject] w w' /\ move_post w w' req res) w.
Proof.
  intros Htx Hv Ht Htrim. unfold MetadataVFSService_Move. apply wp_bind, wp_resolve.
  { intros e w1 Hs Hd. split; [by apply same_frames|]. left. split; [exact (proj1 Hs)|done]. }
  intros q node w1 Hs1 Hrepo Hq Hn. pose proof Hn as (Hin & Ln & Ep).
  assert (forall res w2, frames [TNode; TObject] w w2 ->
            (match res with
             | Err e => unchanged w w2 /\ (not_movable node e \/ not_resolved s w (mo_TargetParentPath req) e)
             | Ok _ => False
             end) -> frames [TNode; TObject] w w2 /\ move_post w w2 req res) as Hearly.
  { intros res w2 Hf Hr. split; [done|]. right. exists q, node. split; [done|]. split; [done|]. by left. }
  apply wp_bind, wp_movable.
  { intros e Hd. apply (Hearly (Err e)); [by apply same_frames|]. split; [exact (proj1 Hs1)|by left]. }
  intros id Hid Hkr Hkm. apply wp_bind, wp_resolve.
  { intros e w2 Hs2 Hd. pose proof (same_trans _ _ _ Hs1 Hs2) as Hs. apply (Hearly (Err e)); [by apply same_frames|].
    split; [exact (proj1 Hs)|]. right. unfold not_resolved, node_at in *. by rewrite (proj1 Hs1) in Hd. }
  intros t parent w2 Hs2 _ Hq' Hp. pose proof (same_trans _ _ _ Hs1 Hs2) as Hs.
  assert (node_at w t parent) as Hpw by (unfold node_at in *; by rewrite (proj1 Hs1) in Hp). clear Hp.
  pose proof Hpw as (Hpin & Lp & Ept).
  assert (forall res w3, frames [TNode; TObject] w w3 ->
            (match res with
             | Err e => unchanged w w3 /\ move_refused node parent e
             | Ok (old, item) =>
                 vn_ParentID node = Some (vn_ID parent) /\ unchanged w w3 /\ old = q /\ item = item_of node
             end) -> frames [TNode; TObject] w w3 /\ move_post w w3 req res) as Hlate.
  { intros res w3 Hf Hr. split; [done|]. right. exists q, node. split; [done|]. split; [done|]. right.
    exists t, parent. split; [done|]. split; [done|]. by left. }
  destruct (metadataVFSNodeIsDirectory parent) eqn:Dp; cbn [negb].
  2:{ apply (Hlate (Err _)); [by apply same_frames|]. split; [exact (proj1 Hs)|left; auto]. }
  destruct (isSubPath (vn_Path node) (vn_Path parent)) eqn:Ho.
  { apply (Hlate (Err _)); [by apply same_frames|]. split; [exact (proj1 Hs)|left; auto]. }
  destruct (sameUintPtr (vn_MountID node) (vn_MountID parent)) eqn:Em; cbn [negb orb].
  2:{ apply (Hlate (Err _)); [by apply same_frames|]. split; [exact (proj1 Hs)|]. right. split; [done|]. left.
      rewrite <- sameUintPtr_spec. by rewrite Em. }
  destruct (sameUintPtr (vn_SourceID node) (vn_SourceID parent)) eqn:Es; cbn [negb].
  2:{ apply (Hlate (Err _)); [by apply same_frames|]. split; [exact (proj1 Hs)|]. right. split; [done|]. right.
      rewrite <- sameUintPtr_spec. by rewrite Es. }
  apply sameUintPtr_spec in Em, Es. destruct (N.eqb_spec id (vn_ID parent)) as [E|E].
  { apply wp_ret, (Hlate (Ok _)); [by apply same_frames|]. split_and!; [congruence|exact (proj1 Hs)|done..]. }
  destruct (tree_parent w node Ht Hin Ln Hkr) as (old & _ & _ & _ & Hch).
  assert (trim_space (vn_Path node) = vn_Path node) as Htn by (rewrite Ep; by apply Htrim).
  assert (forall res w3, frames [TNode; TObject] w w3 ->
            moved_post w w3 node parent (vn_Name node) (mo_ActorID req)
              (not_relocated w node (joinVirtualPath (vn_Path parent) (vn_Name node))) res ->
            frames [TNode; TObject] w w3 /\ move_post w w3 req res) as Hend.
  { intros res w3 Hf Hr. split; [done|]. right. exists q, node. split; [done|]. split; [done|]. right.
    exists t, parent. split; [done|]. split; [done|]. right. split_and!; [done|done|congruence|done]. }
  apply (wp_relocate _ _ _ _ _ w); try done; [apply Hch|..].
  - intros e w3 Hf Hu Hd. apply Hend; [done|]. by left.
  - intros e w3 Hf Hd Hm. apply Hend; [done|]. by right.
  - intros n' w3 Hf Hm Hn' Hi. apply Hend; [done|]. split; [done|]. split; [done|]. by exists n'.
Qed.

(** ** Directories made *)
Definition mkdir_post w w' (req : MetadataVFSMkdirRequest) (res : result GoErr VFSItem) : Prop :=
  match res with
  | Err e =>
      unchanged w w' /\
      (validateFileName (mk_Name req) = Err e \/ not_resolved s w (mk_ParentPath req) e \/
       exists q parent, normalizeVirtualPath (mk_ParentPath req) = Ok q /\ node_at w q parent /\
         (metadataVFSNodeIsDirectory parent = false /\ e = ErrPathInvalid \/
          not_free w (joinVirtualPath q (mk_Name req)) e \/ service_error e))
  | Ok item =>
      exists q parent n, normalizeVirtualPath (mk_ParentPath req) = Ok q /\ node_at w q parent /\
        metadataVFSNodeIsDirectory parent = true /\
        nodes w' = nodes w ++ [n] /\ live n /\ child_of parent n /\ canonical (vn_Path n) /\
        vn_Name n = mk_Name req /\ vn_Kind n = metadataVFSChildDirKind parent /\
        vn_MountID n = vn_MountID parent /\ vn_SourceID n = vn_SourceID parent /\
        vn_CreatedBy n = mk_ActorID req /\ item = item_of n /\
        (forall m, m ∈ nodes w -> live m -> vn_Path m <> vn_Path n)
  end.

Lemma mkdir_ok req w : tree (nodes w) ->
  wp (MetadataVFSService_Mkdir s req) (fun res w' => frames [TNode] w w' /\ mkdir_post w w' req res) w.
Proof.
  intros Ht. unfold MetadataVFSService_Mkdir. apply wp_bind, wp_lift_result.
  destruct (validateFileName (mk_Name req)) as [[]|e] eqn:Ev; [|by split; [apply frames_refl|split; [|left]]].
  apply validateFileName_ok in Ev as [Hx _]. apply wp_bind, wp_resolve.
  { intros e w1 Hs Hd. split; [by apply same_frames|]. split; [exact (proj1 Hs)|]. by right; left. }
  intros q parent w1 Hs Hrepo Hq Hp. pose proof Hp as (Hin & Lp & Ep).
  assert (forall e w2, same w w2 ->
            metadataVFSNodeIsDirectory parent = false /\ e = ErrPathInvalid \/
            not_free w (joinVirtualPath q (mk_Name req)) e \/ service_error e ->
            frames [TNode] w w2 /\ mkdir_post w w2 req (Err e)) as Hfail.
  { intros e w2 Hs2 Hd. split; [by apply same_frames|]. split; [exact (proj1 Hs2)|]. right; right. by exists q, parent. }
  destruct (metadataVFSNodeIsDirectory parent) eqn:Dp; cbn [negb]; [|apply Hfail; [done|by left]].
  pose proof (proj1 (Ht parent Hin Lp)) as Hcp. rewrite Ep.
  apply wp_bind, wp_available.
  { intros e w2 Hs2 Hd. apply Hfail; [by eapply same_trans|]. right; left.
    unfold not_free, node_at in *. by rewrite (proj1 Hs) in Hd. }
  intros q' w2 Hs2 Hq' _ Hfree. pose proof (same_trans _ _ _ Hs Hs2) as Hs'. rewrite (proj1 Hs) in Hfree.
  rewrite <- Ep in Hq' at 1. destruct (join_normalize _ _ _ Hcp Hx Hq') as [-> Hc].
  apply wp_bind, wp_time_now, wp_bind, wp_map_err, (wp_insert TNode).
  - intros e w3 Hs3 Hd.
    assert (frames [TNode] w w3) as Hf.
    { eapply frames_trans; [by apply same_frames|]. eapply frames_trans; [apply tick_frames|by apply same_frames]. }
    split; [done|]. split; [|right; right; exists q, parent; split; [done|]; split; [done|]; right; right;
                             by apply service_error_normal].
    intros t. rewrite (proj1 Hs3). apply Hs'.
  - intros id now w3 r' Hid Ha Hput. apply wp_ret. split.
    { eapply frames_trans; [by apply same_frames|]. eapply frames_trans; [apply tick_frames|].
      apply (put_frames _ _ _ _ Hput). intros Hv. by apply absent_no_conflicts. }
    exists q, parent, r'. split_and!; try done.
    + destruct Hput as [-> _]. f_equal. apply Hs'.
    + by split_and!; [..|cbn; rewrite Ep].
    + cbn. by rewrite <- Ep.
    + intros m Hm Lm. cbn. rewrite <- Ep. by apply Hfree.
Qed.

Lemma mkdir_tree w w' req item : tree (nodes w) -> mkdir_post w w' req (Ok item) -> tree (nodes w').
Proof.
  intros Ht (q & parent & n & _ & (Hp & Lp & _) & Dp & -> & Ln & Hch & Hc & _ & Hk & _) m Hm Lm.
  apply elem_of_app in Hm as [Hm|Hm%list_elem_of_singleton].
  - destruct (Ht m Hm Lm) as [Hcm [?|(Hkm & p & Hin & Hpar)]]; (split; [done|]); [by left|right].
    split; [done|]. exists p. split; [|done]. apply elem_of_app. by left.
  - subst m. split; [done|]. right. split.
    { rewrite Hk. unfold metadataVFSChildDirKind. by destruct (_ || _). }
    exists parent. split_and!; [apply elem_of_app; by left|done..].
Qed.

(** ** Subtrees deleted *)
Definition delete_post w w' (path : string) (res : result GoErr Z) : Prop :=
  match res with
  | Err e =>
      unchanged w w' /\
      (not_resolved s w path e \/
       exists q node, normalizeVirtualPath path = Ok q /\ node_at w q node /\
         (vn_Kind node = VFSNodeKindRoot /\ e = ErrPathInvalid \/
          vn_Kind node = VFSNodeKindMount /\ e = ErrSourceOperationUnsupported \/ service_error e))
  | Ok deletedAt =>
      exists q node t, normalizeVirtualPath path = Ok q /\ node_at w q node /\
        vn_Kind node <> VFSNodeKindRoot /\ vn_Kind node <> VFSNodeKindMount /\ deletedAt = the_time w /\
        nodes w' = set_where (moving node) (mark_deleted t) (nodes w)
  end.

Lemma wp_delete_node node (Q : result GoErr unit -> World -> Prop) w :
  valid w -> tree (nodes w) -> node ∈ nodes w -> live node -> vn_Path node <> "/" ->
  trim_space (vn_Path node) = vn_Path node ->
  (forall e w', frames [TNode] w w' -> unchanged w w' -> db_error e -> Q (Err e) w') ->
  (forall t w', frames [TNode] w w' -> nodes w' = set_where (moving node) (mark_deleted t) (nodes w) -> Q (Ok tt) w') ->
  wp (VFSNodeRepository_Delete (vn_ID node)) Q w.
Proof.
  intros Hv Ht Hn Ln Hr Htrim He Hk. pose proof (valid_distinct _ (Hv TNode)) as Hd.
  pose proof (proj1 (Ht node Hn Ln)) as Hc.
  assert (forall e w1 w2, frames [TNode] w w1 -> db_error e -> (forall t, tbl t w2 = tbl t w) ->
            w_clock w2 = w_clock w1 -> w_reads w2 = w_reads w1 -> Q (Err e) w2) as Hback.
  { intros e w1 w2 Hf Hde E1 E2 E3. destruct (rolled_back _ [TNode] _ _ _ Hf E1 E2 E3). by apply He. }
  unfold VFSNodeRepository_Delete. apply wp_transaction; [intros d _; apply raw_db_error|].
  apply wp_bind, (wp_first TNode).
  - intros e w1 Hs Hde w2. apply (Hback e w1); [by apply same_frames|done].
  - intros w1 Hs Hno. specialize (Hno node Hn). cbn in Hno. by rewrite N.eqb_refl, Ln in Hno.
  - intros model w1 Hs Hm Hp _. cbn in Hp. apply andb_true_iff in Hp as [Hp%N.eqb_eq _].
    assert (model = node) as -> by by apply (proj1 Hd).
    destruct (String.eqb_spec (vn_Path node) "/") as [|_]; [done|].
    apply wp_bind, wp_time_now. set (now := the_time w1).
    assert (nodes { w1 with w_reads ::= S } = nodes w) as En by apply Hs.
    assert (frames [TNode] w { w1 with w_reads ::= S }) as Hf1.
    { eapply frames_trans; [by apply same_frames|apply tick_frames]. }
    assert (forall n, n ∈ nodes w ->
              negb (vn_IsDeleted n) && in_subtree (vn_Path node) (pathChildrenLikePattern (vn_Path node)) n =
              moving node n) as Hsel.
    { intros n Hin. unfold moving. destruct (vn_IsDeleted n) eqn:L; [done|]. cbn.
      rewrite <- (like_subtree (vn_Path node) n) by (done || by apply Ht).
      by destruct (String.eqb_spec (vn_Path node) "/"). }
    apply (wp_update_at_found TNode).
    + intros e w2 Hs2 Hde w3. apply (Hback e w2); [by eapply frames_same|done].
    + intros w2 Hs2 Hno. rewrite En in Hno. specialize (Hno node Hn). cbn beta in Hno. rewrite Hsel in Hno by done.
      unfold moving in Hno. by rewrite Ln, isSubPath_refl in Hno.
    + intros t w2 l _ Hnc Hput. assert (frames [TNode] w w2) as Hf2.
      { eapply frames_trans; [exact Hf1|]. by apply (put_frames TNode l). }
      split; [|intros e w3 E1 E2 E3 Hde; by apply (Hback e w2)].
      intros w3 Hs3. apply (Hk now); [by eapply frames_same|]. rewrite (proj1 Hs3). destruct Hput as [-> _].
      unfold l. rewrite En. unfold set_where. apply map_ext_in. intros n Hin%list_elem_of_In. by rewrite Hsel.
Qed.

Lemma delete_ok path w : valid w -> tree (nodes w) -> untrimmed path ->
  wp (MetadataVFSService_Delete s path) (fun res w' => frames [TNode] w w' /\ delete_post w w' path res) w.
Proof.
  intros Hv Ht Htrim. unfold MetadataVFSService_Delete. apply wp_bind, wp_resolve.
  { intros e w1 Hs Hd. split; [by apply same_frames|]. split; [exact (proj1 Hs)|by left]. }
  intros q node w1 Hs Hrepo Hq Hn. pose proof Hn as (Hin & Ln & Ep).
  assert (forall e w2, frames [TNode] w w2 -> unchanged w w2 ->
            vn_Kind node = VFSNodeKindRoot /\ e = ErrPathInvalid \/
            vn_Kind node = VFSNodeKindMount /\ e = ErrSourceOperationUnsupported \/ service_error e ->
            frames [TNode] w w2 /\ delete_post w w2 path (Err e)) as Hfail.
  { intros e w2 Hf Hu Hd. split; [done|]. split; [done|]. right. by exists q, node. }
  destruct (String.eqb_spec (vn_Kind node) VFSNodeKindRoot) as [E|Hkr];
    [apply Hfail; [by apply same_frames|exact (proj1 Hs)|by left]|].
  destruct (String.eqb_spec (vn_Kind node) VFSNodeKindMount) as [E|Hkm];
    [apply Hfail; [by apply same_frames|exact (proj1 Hs)|by right; left]|].
  apply wp_bind, wp_time_now, wp_bind, wp_map_err.
  assert (frames [TNode] w { w1 with w_reads ::= S }) as Hf1.
  { eapply frames_trans; [by apply same_frames|apply tick_frames]. }
  assert (nodes { w1 with w_reads ::= S } = nodes w) as En by apply Hs.
  apply wp_delete_node; rewrite ?En; try done; [by apply Hf1|by apply (not_root_path w)|by rewrite Ep; apply Htrim|..].
  - intros e w2 Hf Hu Hd. apply Hfail; [by eapply frames_trans| |].
    + intros t. rewrite Hu. apply Hs.
    + right; right. by apply service_error_normal.
  - intros t w2 Hf E. apply wp_ret. split; [by eapply frames_trans|]. exists q, node, t.
    split_and!; try done. destruct Hs as (_ & Ec & Er). unfold the_time. by rewrite Ec, Er.
Qed.

Lemma delete_tree w w' node t : valid w -> tree (nodes w) -> node ∈ nodes w -> live node ->
  nodes w' = set_where (moving node) (mark_deleted t) (nodes w) -> tree (nodes w').
Proof.
  intros Hv Ht Hn Ln -> m Hm Lm. pose proof (valid_distinct _ (Hv TNode)) as Hd.
  apply elem_of_set_where in Hm as [(y & _ & _ & ->)|[Hm Hmv]]; [done|].
  destruct (Ht m Hm Lm) as [Hc [?|(Hk & p & Hp & Lp & Dp & Hch)]]; (split; [done|]); [by left|right].
  split; [done|]. exists p. split; [|done]. apply elem_of_set_where. right. split; [done|].
  pose proof (proj1 (Ht node Hn Ln)) as Hcn. pose proof (proj1 (Ht p Hp Lp)) as Hcp.
  unfold moving in Hmv |- *. rewrite Lm in Hmv. cbn in Hmv.
  rewrite (parent_inside node p m), Hmv by (done || (intros E; by rewrite E, isSubPath_refl in Hmv)).
  apply andb_false_r.
Qed.

(** ** The root *)
Lemma ensure_root_tree l r : tree l ->
  tree (set_where (fun n => String.eqb (vn_Path n) "/" && negb (vn_IsDeleted n))
          (upsert_columns { r with vn_ParentID := None; vn_Name := ""; vn_Kind := VFSNodeKindRoot; vn_IsDeleted := false }) l).
Proof.
  intros Ht m Hm Lm. assert (canonical "/") as Hroot by by exists [].
  apply elem_of_set_where in Hm as [(y & _ & [E%String.eqb_eq _]%andb_true_iff & ->)|[Hm _]].
  { cbn. rewrite E. split; [done|]. left. by split_and!; [rewrite <- E|..]. }
  destruct (Ht m Hm Lm) as [Hc [?|(Hk & p & Hp & Lp & Dp & Hch)]]; (split; [done|]); [by left|right]. split; [done|].
  destruct (String.eqb (vn_Path p) "/") eqn:E.
  - eexists. split; [apply elem_of_set_where; left; exists p; split; [done|]; split; [by rewrite E, Lp|reflexivity]|].
    split; [done|]. split; [done|]. destruct Hch as (? & ? & ?). by split_and!.
  - exists p. split; [|done]. apply elem_of_set_where. right. by rewrite E.
Qed.

Lemma ensure_root_ok w : valid w -> tree (nodes w) ->
  wp (MetadataVFSService_EnsureRoot s) (fun res w' => frames [TNode] w w' /\ tree (nodes w')) w.
Proof.
  intros Hv Ht. unfold MetadataVFSService_EnsureRoot. destruct (negb _); [split; [apply frames_refl|done]|].
  apply wp_bind, wp_time_now, wp_map_err. set (w0 := { w with w_reads ::= S }).
  assert (frames [TNode] w w0) as Hf0 by apply tick_frames.
  unfold VFSNodeRepository_UpsertByPath.
  assert (forall w1, frames [TNode] w w1 -> tree (nodes w1) ->
            wp (VFSNodeRepository_FindByPath "/") (fun res w' => frames [TNode] w w' /\ tree (nodes w')) w1) as Hread.
  { intros w1 Hf1 Ht1. apply (wp_lookup TNode).
    - intros e w2 Hs _. split; [by eapply frames_same|]. by rewrite (proj1 Hs).
    - intros r w2 Hs _ _. split; [by eapply frames_same|]. by rewrite (proj1 Hs). }
  apply wp_bind, (wp_upsert TNode).
  - intros e w1 Hs _. split; [by eapply frames_same|]. by rewrite (proj1 Hs).
  - intros id now now' w1 r' l _ Hn Hp. eapply wp_mono; [apply Hread|by intros [?|?] w'].
    + eapply frames_trans; [exact Hf0|]. by apply (put_frames TNode l).
    + destruct Hp as [-> _]. by apply (ensure_root_tree _ r').
  - intros id now w1 r' _ _ Ha Hp. cbn.
    assert (frames [TNode] w w1) as Hf1.
    { eapply frames_trans; [exact Hf0|]. apply (put_frames _ _ _ _ Hp). intros Hv'. by apply absent_no_conflicts. }
    assert (tree (nodes w1)) as Ht1.
    { destruct Hp as [-> _]. intros m Hm Lm. apply elem_of_app in Hm as [Hm|Hm%list_elem_of_singleton].
      - destruct (Ht m Hm Lm) as [Hcm [?|(Hkm & p & Hin & Hpar)]]; (split; [done|]); [by left|right].
        split; [done|]. exists p. split; [|done]. apply elem_of_app. by left.
      - subst m. split; [by exists []|by left]. }
    eapply wp_mono; [by apply Hread|by intros [?|?] w'].
Qed.

Lemma attach_tag_ok path tagID actor w :
  wp (MetadataVFSService_AttachTag s path tagID actor) (fun _ w' => frames [TNodeTag] w w') w.
Proof.
  unfold MetadataVFSService_AttachTag. destruct (negb _); [apply frames_refl|].
  apply wp_bind, wp_resolve; [by intros e w1 Hs _; apply same_frames|]. intros q n w1 Hs _ _ _.
  apply wp_bind, wp_map_err, (wp_lookup TTag).
  { intros e w2 Hs2 _. by apply same_frames; eapply same_trans. }
  intros tag w2 Hs2 _ _. pose proof (same_trans _ _ _ Hs Hs2) as Hs'. apply wp_bind, wp_time_now, wp_bind, wp_map_err.
  assert (frames [TNodeTag] w { w2 with w_reads ::= S }) as Hf.
  { eapply frames_trans; [by apply same_frames|apply tick_frames]. }
  apply (wp_upsert TNodeTag).
  - intros e w3 Hs3 _. by eapply frames_same.
  - intros id now now' w3 r' l _ Hn Hp. eapply frames_trans; [exact Hf|]. by apply (put_frames TNodeTag l).
  - intros id now w3 r' _ _ Ha Hp. eapply frames_trans; [exact Hf|].
    apply (put_frames _ _ _ _ Hp). intros Hv. by apply absent_no_conflicts.
Qed.

(** ** Sequences of operations *)
Inductive tree_op : Type :=
| OpEnsureRoot
| OpMkdir (req : MetadataVFSMkdirRequest)
| OpRename (req : MetadataVFSRenameRequest)
| OpMove (req : MetadataVFSMoveRequest)
| OpDelete (path : string)
| OpAttachTag (path : string) (tagID : N) (actor : option N).

Definition run_tree_op w (op : tree_op) : World :=
  match op with
  | OpEnsureRoot => snd (MetadataVFSService_EnsureRoot s w)
  | OpMkdir req => snd (MetadataVFSService_Mkdir s req w)
  | OpRename req => snd (MetadataVFSService_Rename s req w)
  | OpMove req => snd (MetadataVFSService_Move s req w)
  | OpDelete path => snd (MetadataVFSService_Delete s path w)
  | OpAttachTag path tagID actor => snd (MetadataVFSService_AttachTag s path tagID actor w)
  end.
(** The path whose subtree an operation moves or deletes. *)
Definition op_untrimmed (op : tree_op) : Prop :=
  match op with
  | OpRename req => untrimmed (rn_Path req)
  | OpMove req => untrimmed (mo_Path req)
  | OpDelete path => untrimmed path
  | _ => True
  end.

Lemma unchanged_nodes w w' : unchanged w w' -> nodes w' = nodes w.
Proof. intros Hu. apply Hu. Qed.

Lemma moved_tree w w' node parent newName actor refused res : valid w -> tree (nodes w) ->
  moved_post w w' node parent newName actor refused res -> tree (nodes w').
Proof.
  intros Hv Ht. destruct res as [[old item]|e]; cbn.
  - intros (_ & Hm & _). by eapply moves_to_tree.
  - intros [[Hu _]|[_ Hm]]; [by rewrite Hu|by eapply moves_to_tree].
Qed.

Lemma run_tree_op_ok w op : mv_transactor s = true -> op_untrimmed op -> valid w -> tree (nodes w) ->
  valid (run_tree_op w op) /\ tree (nodes (run_tree_op w op)).
Proof.
  intros Htx Hop Hv Ht. destruct op as [|req|req|req|path|path tagID actor]; cbn in *.
  - destruct (ensure_root_ok w Hv Ht) as [Hf ?]. split; [by apply Hf|done].
  - destruct (mkdir_ok req w Ht) as [Hf Hpost]. split; [by apply Hf|].
    destruct (fst (MetadataVFSService_Mkdir s req w)) as [item|e]; [by eapply mkdir_tree|].
    destruct Hpost as [Hu _]. by rewrite Hu.
  - destruct (rename_ok req w Htx Hv Ht Hop) as [Hf Hpost]. split; [by apply Hf|].
    destruct Hpost as [Hpost|(q & node & _ & _ & [Hpost|(_ & parent & _ & Hpost)])]; [| |by eapply moved_tree].
    + destruct (fst (MetadataVFSService_Rename s req w)); [done|]. destruct Hpost as [Hu _]. by rewrite Hu.
    + destruct (fst (MetadataVFSService_Rename s req w)) as [[old item]|e].
      * destruct Hpost as (_ & Hu & _). by rewrite Hu.
      * destruct Hpost as [Hu _]. by rewrite Hu.
  - destruct (move_ok req w Htx Hv Ht Hop) as [Hf Hpost]. split; [by apply Hf|].
    destruct Hpost as [Hpost|(q & node & _ & _ & [Hpost|(t & parent & _ & _ & [Hpost|(_ & _ & _ & Hpost)])])];
      [| | |by eapply moved_tree].
    + destruct (fst (MetadataVFSService_Move s req w)); [done|]. destruct Hpost as [Hu _]. by rewrite Hu.
    + destruct (fst (MetadataVFSService_Move s req w)); [done|]. destruct Hpost as [Hu _]. by rewrite Hu.
    + destruct (fst (MetadataVFSService_Move s req w)) as [[old item]|e].
      * destruct Hpost as (_ & Hu & _). by rewrite Hu.
      * destruct Hpost as [Hu _]. by rewrite Hu.
  - destruct (delete_ok path w Hv Ht Hop) as [Hf Hpost]. split; [by apply Hf|].
    destruct (fst (MetadataVFSService_Delete s path w)) as [t|e].
    + destruct Hpost as (q & node & t' & _ & (Hn & Ln & _) & _ & _ & _ & E). by eapply delete_tree.
    + destruct Hpost as [Hu _]. by rewrite Hu.
  - pose proof (attach_tag_ok path tagID actor w) as Hf. split; [by apply Hf|].
    replace (nodes _) with (nodes w); [done|]. symmetry. eapply (frames_tbl [TNodeTag]); [exact Hf|set_solver].
Qed.

(** ** Listings *)
Definition shown_under (q : string) (n : VFSNode) : bool :=
  negb (vn_IsDeleted n) && negb (String.eqb (vn_Path n) "/") && String.eqb (shown_parent (vn_Path n)) q.

(** Directories before files, and by name without regard to case. *)
Definition listed_before (a b : VFSItem) : Prop :=
  vi_EntryKind a = vi_EntryKind b /\ String.leb (to_lower (vi_Name a)) (to_lower (vi_Name b)) = true \/
  vi_EntryKind a = VirtualEntryKindDirectory /\ vi_EntryKind b = VirtualEntryKindFile.

Definition node_item (i : VFSItem) : Prop :=
  vi_EntryKind i = VirtualEntryKindDirectory \/ vi_EntryKind i = VirtualEntryKindFile.

Lemma ltb_leb a b : String.ltb b a = false <-> String.leb a b = true.
Proof.
  unfold String.ltb, String.leb. rewrite (String.compare_antisym a b). by destruct (String.compare b a).
Qed.
Lemma leb_trans a b c : String.leb a b = true -> String.leb b c = true -> String.leb a c = true.
Proof. rewrite <- !Is_true_true. apply (transitivity (R := String.le)). Qed.

Lemma item_less_spec a b : node_item a -> node_item b -> item_less b a = false <-> listed_before a b.
Proof.
  intros Ha Hb. unfold item_less, listed_before. rewrite <- ltb_leb.
  destruct Ha as [-> | ->], Hb as [-> | ->]; cbn; split; try done; try (by intros; left); try (by intros; right);
    by intros [[? ?]|[? ?]].
Qed.

Lemma listed_before_trans a b c : listed_before a b -> listed_before b c -> listed_before a c.
Proof.
  unfold listed_before. intros [[E1 L1]|[E1 E2]] [[E3 L2]|[E3 E4]].
  - left. split; [congruence|by eapply leb_trans].
  - right. split; congruence.
  - right. split; congruence.
  - right. done.
Qed.

Lemma items_sorted items : Forall node_item items -> StronglySorted listed_before (sortMetadataVFSItems items).
Proof.
  intros HP. assert (Forall node_item (sortMetadataVFSItems items)) as HP'.
  { unfold sortMetadataVFSItems. by rewrite stable_sort_perm. }
  assert (StronglySorted (fun a b => item_less b a = false) (sortMetadataVFSItems items)) as Hs.
  { apply (stable_sort_sorted _ node_item); [done|..].
    - intros a b Ha Hb Hl. apply item_less_spec; [done..|]. destruct (item_less b a) eqn:E; [|by apply item_less_spec in E].
      exfalso. unfold item_less in *. destruct Ha as [Ea|Ea], Hb as [Eb|Eb]; rewrite Ea, Eb in *; cbn in *; try done.
      + apply not_false_iff_true in E. apply E. apply ltb_leb. unfold String.ltb, String.leb in *. by destruct (String.compare _ _).
      + apply not_false_iff_true in E. apply E. apply ltb_leb. unfold String.ltb, String.leb in *. by destruct (String.compare _ _).
    - intros a b c Ha Hb Hc H1%item_less_spec H2%item_less_spec; [|done..]. apply item_less_spec; [done..|].
      by eapply listed_before_trans. }
  clear HP. induction Hs as [|a l Hl IH Ha]; [constructor|]. apply Forall_cons in HP' as [Pa Pl].
  constructor; [by apply IH|]. rewrite Forall_forall in Ha, Pl |- *. intros x Hx. apply item_less_spec; auto.
Qed.

Lemma item_of_kind n : node_item (item_of n).
Proof. unfold node_item. cbn. destruct (metadataVFSNodeIsDirectory n); auto. Qed.

(** In a tree, the children by id are the nodes one name below. *)
Lemma children_shown w parent n : valid w -> tree (nodes w) -> parent ∈ nodes w -> live parent -> n ∈ nodes w ->
  opt_eqb (vn_ParentID n) (Some (vn_ID parent)) && negb (vn_IsDeleted n) = shown_under (vn_Path parent) n.
Proof.
  intros Hv Ht Hp Lp Hn. pose proof (valid_distinct _ (Hv TNode)) as [Hid Hpath]. unfold shown_under.
  destruct (vn_IsDeleted n) eqn:L; [apply andb_false_r|]. rewrite andb_true_r. cbn.
  destruct (Ht n Hn L) as [Hc [(E1 & E2 & _)|(_ & p & Hpin & Lpp & Dp & Hch)]]; [by rewrite E1, E2|].
  pose proof (proj1 (Ht p Hpin Lpp)) as Hcp. rewrite (child_shown_parent p n) by done.
  pose proof (child_not_root p n Hcp Hch) as Hr. apply String.eqb_neq in Hr. rewrite Hr. cbn.
  destruct Hch as (-> & _). cbn. destruct (N.eqb_spec (vn_ID p) (vn_ID parent)) as [E|E].
  - symmetry. apply String.eqb_eq. f_equal. by apply Hid.
  - symmetry. apply String.eqb_neq. intros E'. apply E. f_equal. by apply Hpath.
Qed.
End Operations.

(** ** Properties *)
Section Properties.
Context `{DatabaseLaws} {TF : TimeFormat} {MT : MimeTypes} (s : MetadataVFSService).
Implicit Types w : World.
Notation nodes w := (tbl TNode w).

(** The service reads the tree for access control without changing it. *)
#[export] Instance MetadataVFSService_reader_laws : @MetadataReaderLaws _ (MetadataVFSService_reader s).
Proof.
  split.
  - intros p w. apply wp_bind, wp_resolve; [by intros e w' Hs _; apply same_frames|].
    by intros q n w' Hs _ _ _; apply same_frames.
  - intros id w. apply wp_bind. unfold MetadataVFSService_ResolveNodeByID.
    destruct (negb _); [apply frames_refl|]. apply wp_bind, wp_map_err, (wp_lookup TNode).
    + intros e w' Hs _. by apply same_frames.
    + intros n w' Hs _ _. destruct (vn_IsDeleted n); by apply same_frames.
Qed.

(** C6: whatever directories are made and whatever nodes are renamed,
    moved, deleted or tagged, and whether or not each operation succeeds,
    the live nodes stay a tree: every one has a canonical path, its parent
    is a live directory, and its path is its parent's path with its name.
    The operations run in transactions, and the paths they move or delete
    are not changed by trimming white space. *)
Theorem tree_invariant ops w (Htx : mv_transactor s = true) (Hops : Forall op_untrimmed ops)
    (Hvalid : valid w) (Htree : tree (nodes w)) :
  tree (nodes (fold_left (run_tree_op s) ops w)).
Proof.
  revert w Hvalid Htree. induction Hops as [|op ops Hop Hops IH]; intros w Hv Ht; [done|]. cbn.
  destruct (run_tree_op_ok s w op Htx Hop Hv Ht). by apply IH.
Qed.

(** C11: in a transaction, on a valid tree, and for a path that trimming
    white space does not change (for another one the prefix that is
    rewritten is the trimmed path, and can meet other nodes): a rename
    either changes nothing, and says why: an invalid name or
    path, no node, a root, a mount, a path that is taken, a locator that
    cannot follow, a database error; or it finds the node under its new
    name already; or it gives the new name to the node and rewrites the
    paths of its whole subtree, and of nothing else, in one step.  Only the
    final read can fail after that, with a database error. *)
Theorem rename_effect req w (Htx : mv_transactor s = true) (Hvalid : valid w) (Htree : tree (nodes w))
    (Htrim : untrimmed (rn_Path req)) :
  let r := MetadataVFSService_Rename s req w in
  frames [TNode; TObject] w (snd r) /\ rename_post s w (snd r) req (fst r).
Proof. by apply rename_ok. Qed.

(** C40: in a transaction, on a valid tree, and for a path that trimming
    white space does not change (for another one the prefix that is
    rewritten is the trimmed path, and can meet other nodes): a move either
    changes nothing, and says why, which includes a
    target inside the moved subtree, a target that is no directory, and one
    on another mount or source; or the node is under the target already; or
    it puts the node below the target under its own name, and rewrites the
    paths of its whole subtree, and of nothing else, in one step. *)
Theorem move_effect req w (Htx : mv_transactor s = true) (Hvalid : valid w) (Htree : tree (nodes w))
    (Htrim : untrimmed (mo_Path req)) :
  let r := MetadataVFSService_Move s req w in
  frames [TNode; TObject] w (snd r) /\ move_post s w (snd r) req (fst r).
Proof. by apply move_ok. Qed.

(** A deletion either changes nothing, and says why: no node, a root, a
    mount, a database error; or it marks the node and all nodes below it,
    and no others, as deleted. *)
Theorem delete_effect path w (Hvalid : valid w) (Htree : tree (nodes w)) (Htrim : untrimmed path) :
  let r := MetadataVFSService_Delete s path w in
  frames [TNode] w (snd r) /\ delete_post s w (snd r) path (fst r).
Proof. by apply delete_ok. Qed.

(** Making a directory either changes nothing, and says why, or adds one
    node: the child of the given name of the parent directory, on its mount
    and source, under a valid path that no live node had. *)
Theorem mkdir_effect req w (Htree : tree (nodes w)) :
  let r := MetadataVFSService_Mkdir s req w in
  frames [TNode] w (snd r) /\ mkdir_post s w (snd r) req (fst r).
Proof. by apply mkdir_ok. Qed.

(** A listing changes nothing.  It shows, each once, exactly the live
    nodes whose path is one name below the directory, directories before
    files and by name; it is refused for a path without a node, for a node
    that is no directory, and on a database error. *)
Theorem list_children_spec p w (Hvalid : valid w) (Htree : tree (nodes w)) :
  let r := MetadataVFSService_ListChildren s p w in
  unchanged w (snd r) /\
  match fst r with
  | Ok response =>
      exists q node, normalizeVirtualPath p = Ok q /\ node_at w q node /\
        metadataVFSNodeIsDirectory node = true /\ vl_CurrentPath response = q /\
        vl_Items response ≡ₚ map metadataVFSItemFromNode (sel (shown_under q) (nodes w)) /\
        StronglySorted listed_before (vl_Items response)
  | Err e =>
      not_resolved s w p e \/ service_error e \/
      e = ErrPathInvalid /\ exists q node, normalizeVirtualPath p = Ok q /\ node_at w q node /\
        metadataVFSNodeIsDirectory node = false
  end.
Proof.
  change (wp (MetadataVFSService_ListChildren s p) (fun res w' => unchanged w w' /\
    match res with
    | Ok response => exists q node, normalizeVirtualPath p = Ok q /\ node_at w q node /\
        metadataVFSNodeIsDirectory node = true /\ vl_CurrentPath response = q /\
        vl_Items response ≡ₚ map metadataVFSItemFromNode (sel (shown_under q) (nodes w)) /\
        StronglySorted listed_before (vl_Items response)
    | Err e => not_resolved s w p e \/ service_error e \/
        e = ErrPathInvalid /\ exists q node, normalizeVirtualPath p = Ok q /\ node_at w q node /\
          metadataVFSNodeIsDirectory node = false
    end) w).
  apply wp_bind, wp_resolve; [intros e w1 Hs Hd; split; [exact (proj1 Hs)|by left]|].
  intros q node w1 Hs _ Hq Hn. pose proof Hn as (Hin & Ln & Ep).
  destruct (metadataVFSNodeIsDirectory node) eqn:Dn; cbn [negb].
  2:{ apply wp_throw. split; [exact (proj1 Hs)|]. right; right. split; [done|]. by exists q, node. }
  apply wp_bind, wp_map_err, (wp_select TNode).
  - intros e w2 Hs2 Hd. split; [exact (proj1 (same_trans _ _ _ Hs Hs2))|]. right; left. by apply service_error_normal.
  - intros all w2 Hs2 Hp _. apply wp_ret. split; [exact (proj1 (same_trans _ _ _ Hs Hs2))|]. exists q, node.
    split_and!; [done..| |].
    + unfold vl_Items, sortMetadataVFSItems. rewrite stable_sort_perm, Hp.
      change (limited _ ?l) with l.
      match goal with |- map _ (sel ?f _) ≡ₚ _ => replace (sel f (nodes w1)) with (sel (shown_under q) (nodes w)); [done|] end.
      rewrite (proj1 Hs). apply sel_ext. intros n Hn'. rewrite <- Ep, <- (children_shown w) by done.
      unfold applyVFSNodeListFilter. cbn. by rewrite !andb_true_r.
    + apply items_sorted, Forall_forall. intros i (n & -> & _)%list_elem_of_fmap. apply item_of_kind.
Qed.
End Properties.

(** ** A concrete tree *)
#[local] Existing Instances Mem.database Mem.laws.
Module MetaTreeExample.
#[export] Instance format : TimeFormat := fun z => pretty.pretty z.
#[export] Instance mime_types : MimeTypes := fun ext => if String.eqb ext ".txt" then "text/plain" else "".

Definition svc : MetadataVFSService :=
  {| mv_nodeRepo := true; mv_objectRepo := true; mv_sourceRepo := true; mv_tagRepo := true; mv_transactor := true |}.
Definition mkdir (p n : string) : tree_op := OpMkdir {| mk_ParentPath := p; mk_Name := n; mk_ActorID := Some 1%N |}.
Definition setup : list tree_op :=
  [OpEnsureRoot; mkdir "/" "a"; mkdir "/" "B"; mkdir "/a" "x_y"; mkdir "/a/x_y" "z"; mkdir "/a" "x%"; mkdir "/" "a "].
Definition empty : World := mem_world Mem.init.
Definition world : World := fold_left (run_tree_op svc) setup empty.
Definition paths (w : World) : list (string * bool) := map (fun n => (vn_Path n, vn_IsDeleted n)) (tbl TNode w).

Lemma setup_ok ops w : Forall op_untrimmed ops -> valid w -> tree (tbl TNode w) ->
  valid (fold_left (run_tree_op svc) ops w) /\ tree (tbl TNode (fold_left (run_tree_op svc) ops w)).
Proof.
  intros Hops. revert w. induction Hops as [|op ops Hop Hops IH]; intros w Hv Ht; [done|].
  destruct (run_tree_op_ok svc w op eq_refl Hop Hv Ht). by apply IH.
Qed.
Lemma empty_ok : valid empty /\ tree (tbl TNode empty).
Proof. split; [by intros []|]. intros n Hn. by apply elem_of_nil in Hn. Qed.
Lemma world_ok : valid world /\ tree (tbl TNode world).
Proof. apply setup_ok; [repeat constructor|apply empty_ok..]. Qed.

Definition rename : MetadataVFSRenameRequest := {| rn_Path := "/a/x_y"; rn_NewName := "c"; rn_ActorID := Some 2%N |}.
Definition move : MetadataVFSMoveRequest := {| mo_Path := "/a"; mo_TargetParentPath := "/B/"; mo_ActorID := Some 2%N |}.
Definition make : MetadataVFSMkdirRequest := {| mk_ParentPath := "/B"; mk_Name := "new"; mk_ActorID := None |}.
Lemma is_untrimmed p q : normalizeVirtualPath p = Ok q -> trim_space q = q -> untrimmed p.
Proof. unfold untrimmed. congruence. Qed.

(** Renaming ["/a "] moves the other directory ["/a"] below the new path,
    where it has no parent, and reports that there is no such file. *)
Definition misnamed : MetadataVFSRenameRequest := {| rn_Path := "/a "; rn_NewName := "c"; rn_ActorID := None |}.
Theorem rename_trailing_space :
  let r := MetadataVFSService_Rename svc misnamed world in
  fst r = Err ErrFileNotFound /\
  paths (snd r) = [("/", false); ("/c/a", false); ("/B", false); ("/c/a/x_y", false); ("/c/a/x_y/z", false);
                   ("/c/a/x%", false); ("/a ", false)] /\
  ~ tree (tbl TNode (snd r)).
Proof.
  intros r. split; [vm_compute; reflexivity|]. split; [vm_compute; reflexivity|]. intros Ht.
  assert (Exists (fun n => vn_IsDeleted n = false /\ vn_Path n = "/c/a") (tbl TNode (snd r))) as Hex by by_decide.
  apply Exists_exists in Hex as (n & Hn & Ln & Ep).
  destruct (Ht n Hn Ln) as [Hc [(E & _)|(_ & p & Hp & Lp & _ & Hch)]]; [congruence|].
  pose proof (child_shown_parent p n (proj1 (Ht p Hp Lp)) Hch) as Es. rewrite Ep in Es.
  assert (forall m, m ∈ tbl TNode (snd r) -> vn_Path m <> "/c") as Hno.
  { apply Forall_forall. by_decide. }
  by apply (Hno p).
Qed.
End MetaTreeExample.
Import MetaTreeExample.

Lemma tree_invariant_witness :
  let ops := setup ++ [OpRename rename; OpMove move; OpDelete "/B/a/c"; mkdir "/B/a" "c"; OpRename rename] in
  let w' := fold_left (run_tree_op svc) ops empty in
  paths w' = [("/", false); ("/B/a", false); ("/B", false); ("/B/a/c", true); ("/B/a/c/z", true); ("/B/a/x%", false);
              ("/a ", false); ("/B/a/c", false)] /\
  tree (tbl TNode w').
Proof.
  split; [vm_compute; reflexivity|]. apply (tree_invariant svc); [done| |apply empty_ok..].
  repeat constructor; cbn; by eapply is_untrimmed.
Defined.

Lemma rename_effect_witness :
  let r := MetadataVFSService_Rename svc rename world in
  paths (snd r) = [("/", false); ("/a", false); ("/B", false); ("/a/c", false); ("/a/c/z", false); ("/a/x%", false);
                   ("/a ", false)] /\
  frames [TNode; TObject] world (snd r) /\ rename_post svc world (snd r) rename (fst r).
Proof.
  split; [vm_compute; reflexivity|].
  apply (rename_effect svc rename world); [done|apply world_ok|apply world_ok|by eapply is_untrimmed].
Defined.

Lemma move_effect_witness :
  let r := MetadataVFSService_Move svc move world in
  paths (snd r) = [("/", false); ("/B/a", false); ("/B", false); ("/B/a/x_y", false); ("/B/a/x_y/z", false);
                   ("/B/a/x%", false); ("/a ", false)] /\
  frames [TNode; TObject] world (snd r) /\ move_post svc world (snd r) move (fst r).
Proof.
  split; [vm_compute; reflexivity|].
  apply (move_effect svc move world); [done|apply world_ok|apply world_ok|by eapply is_untrimmed].
Defined.

Lemma delete_effect_witness :
  let r := MetadataVFSService_Delete svc "/a/x_y/" world in
  paths (snd r) = [("/", false); ("/a", false); ("/B", false); ("/a/x_y", true); ("/a/x_y/z", true); ("/a/x%", false);
                   ("/a ", false)] /\
  frames [TNode] world (snd r) /\ delete_post svc world (snd r) "/a/x_y/" (fst r).
Proof.
  split; [vm_compute; reflexivity|].
  apply (delete_effect svc "/a/x_y/" world); [apply world_ok|apply world_ok|by eapply is_untrimmed].
Defined.

Lemma mkdir_effect_witness :
  let r := MetadataVFSService_Mkdir svc make world in
  length (tbl TNode (snd r)) = 8 /\
  frames [TNode] world (snd r) /\ mkdir_post svc world (snd r) make (fst r).
Proof.
  split; [vm_compute; reflexivity|]. apply (mkdir_effect svc make world). apply world_ok.
Defined.

Lemma list_children_spec_witness :
  let r := MetadataVFSService_ListChildren svc "/a" world in
  unchanged world (snd r) /\
  match fst r with
  | Ok response => map vi_Name (vl_Items response) = ["x%"; "x_y"]
  | Err _ => False
  end /\
  match fst r with
  | Ok response => StronglySorted listed_before (vl_Items response)
  | Err _ => False
  end.
Proof.
  intros r. pose proof (list_children_spec svc "/a" world (proj1 world_ok) (proj2 world_ok)) as [Hu Hr].
  split; [exact Hu|]. fold r in Hr. split; [vm_compute; reflexivity|].
  destruct (fst r) as [response|e] eqn:E.
  - destruct Hr as (q & node & _ & _ & _ & _ & _ & Hs). exact Hs.
  - assert (is_ok (fst r) = true) as X by (vm_compute; reflexivity). by rewrite E in X.
Defined.
