(* ===== verification/AclTree.v ===== *)
(** * Access control over the metadata tree

    The authorizer with [MetadataVFSService] as its reader: as long as
    reading the database does not fail, the service answers from the live
    nodes ([tree_reader_stable]), so a decision is the one the rules and the
    tree call for ([path_requests_decided]). *)
From S2P Require Import Prelude GoStrings Entities Paths Mounts Permission Tables Db Auditing Repos MetaRepos Acl AclSpec MetaTree.
From stdpp Require Import base list strings gmap sets sorting.
From Stdlib Require Import ZArith Lia.

Local Open Scope string_scope.
Local Open Scope list_scope.
Local Open Scope go_scope.

(** ** The live nodes *)
Section Tree.
Context `{DatabaseLaws}.
Definition live_by_id (w : World) (id : N) : option VFSNode :=
  List.find (fun n => N.eqb (vn_ID n) id && negb (vn_IsDeleted n)) (tbl TNode w).
Definition live_by_path (w : World) (p : string) : option VFSNode :=
  match normalizeVirtualPath p with
  | Ok q => List.find (fun n => String.eqb (vn_Path n) q && negb (vn_IsDeleted n)) (tbl TNode w)
  | Err _ => None
  end.

(** While [I] holds, which reading does not end, reading does not fail and
    the tables are those of [w0]. *)
Record reads_answer (I : World -> Prop) (w0 : World) : Prop := {
  answer_now : I w0;
  answer_frames : forall w, I w -> frames [] w0 w;
  answer_ok : forall t p o limit w, I w -> wp (stmt (db_select t p o limit)) (fun r w' => I w' /\ is_ok r = true) w
}.

Lemma find_only {A} (p : A -> bool) l x : x ∈ l -> p x = true -> (forall y, y ∈ l -> p y = true -> y = x) -> List.find p l = Some x.
Proof.
  intros Hx Hp Hu. destruct (List.find p l) as [y|] eqn:E.
  - apply find_some in E as [Hy Hpy]. f_equal. apply Hu; [by apply list_elem_of_In|done].
  - apply list_elem_of_In in Hx. pose proof (find_none p l E x Hx). congruence.
Qed.
Lemma find_nothing {A} (p : A -> bool) l : (forall y, y ∈ l -> p y = false) -> List.find p l = None.
Proof.
  intros Hn. destruct (List.find p l) as [y|] eqn:E; [|done]. apply find_some in E as [Hy Hp].
  rewrite Hn in Hp by (by apply list_elem_of_In). done.
Qed.

Context (I : World -> Prop) (w0 : World) (Hans : reads_answer I w0) (Hvalid : valid w0).
Lemma first_answers p o w : I w ->
  wp (first TNode p o) (fun r w' => I w' /\ match r with
    | Ok n => n ∈ tbl TNode w0 /\ p n = true | Err _ => forall n, n ∈ tbl TNode w0 -> p n = false end) w.
Proof.
  intros Hw. pose proof (answer_ok _ _ Hans TNode p o (Some 1) w Hw) as Hsel.
  assert (tbl TNode w = tbl TNode w0) as E by (apply (frames_tbl [] w0 w TNode (answer_frames _ _ Hans w Hw)); set_solver).
  assert (wp (stmt (db_select TNode p o (Some 1))) (fun r _ => forall l, r = Ok l ->
    exists all, l = limited (Some 1) all /\ all ≡ₚ sel p (tbl TNode w)) w) as Hl.
  { apply (wp_select TNode); [done|]. intros all w' _ Hp _ l [= <-]. by exists all. }
  apply wp_bind. unfold wp in Hsel, Hl |- *. destruct (stmt _ w) as [[l|e] w']; cbn [fst snd] in *; [|by destruct Hsel].
  destruct Hsel as [Hw' _], (Hl l eq_refl) as (all & -> & Hp). destruct all as [|n all]; cbn.
  - split; [done|]. intros n Hn. apply Permutation_nil in Hp. destruct (p n) eqn:Ep; [|done]. exfalso.
    assert (n ∈ sel p (tbl TNode w)) as Hs by (apply elem_of_sel; by rewrite E). rewrite Hp in Hs. by apply elem_of_nil in Hs.
  - split; [done|]. rewrite <- E. apply elem_of_sel. rewrite <- Hp. by left.
Qed.

Lemma same_live n m : n ∈ tbl TNode w0 -> m ∈ tbl TNode w0 ->
  vn_ID m = vn_ID n \/ vn_Path m = vn_Path n /\ vn_IsDeleted m = false /\ vn_IsDeleted n = false -> m = n.
Proof.
  intros Hn Hm E. destruct (no_conflicts_elem TNode _ m n (Hvalid TNode) Hm Hn) as [|Hc]; [done|].
  cbn in Hc. unfold VFSNodeModel_conflict in Hc. destruct E as [E|(E & E1 & E2)].
  - by rewrite E, N.eqb_refl in Hc.
  - by rewrite E, E1, E2, String.eqb_refl, orb_true_r in Hc.
Qed.

Context `{TF : TimeFormat} `{MT : MimeTypes} (v : MetadataVFSService).
Lemma tree_reader_stable : mv_nodeRepo v = true ->
  @reader_stable _ (MetadataVFSService_reader v) I w0 (live_by_id w0) (live_by_path w0).
Proof.
  intros Hr. split.
  - exact (answer_frames _ _ Hans).
  - intros t p o limit w Hw. eapply wp_mono; [by apply (answer_ok _ _ Hans)|]. by intros r w' [Hw' _].
  - intros id w Hw. apply wp_bind. unfold MetadataVFSService_ResolveNodeByID. rewrite Hr. cbn [negb].
    apply wp_bind, wp_map_err. eapply wp_mono; [by apply first_answers|]. unfold live_by_id. intros [n|e] w' [Hw' Hn].
    + destruct Hn as [Hn Ei%N.eqb_eq]. destruct (vn_IsDeleted n) eqn:Ed.
      * apply wp_throw. split; [done|]. apply find_nothing. intros m Hm. destruct (N.eqb_spec (vn_ID m) id) as [Em|]; [|done].
        rewrite (same_live n m) by (done || left; congruence). by rewrite Ed.
      * apply wp_ret, wp_ret. split; [done|]. cbn. rewrite Ed. symmetry. apply find_only; [done|by rewrite Ei, N.eqb_refl, Ed|].
        intros m Hm [Em%N.eqb_eq _]%andb_true_iff. apply same_live; [done..|left; congruence].
    + split; [done|]. apply find_nothing. intros m Hm. by rewrite (Hn m Hm).
  - intros p w Hw. apply wp_bind. unfold MetadataVFSService_ResolveNode, live_by_path. rewrite Hr. cbn [negb].
    apply wp_bind, wp_lift_result. destruct (normalizeVirtualPath p) as [q|e]; [|done].
    apply wp_map_err. eapply wp_mono; [by apply first_answers|]. intros [n|e] w' [Hw' Hn].
    + destruct Hn as [Hn [Ep%String.eqb_eq Ed%negb_true_iff]%andb_true_iff]. apply wp_ret. split; [done|]. cbn. rewrite Ed.
      symmetry. apply find_only; [done|by rewrite Ep, Ed, String.eqb_refl|].
      intros m Hm [Em%String.eqb_eq Edm%negb_true_iff]%andb_true_iff. apply same_live; [done..|right; split_and!; congruence].
    + split; [done|]. by apply find_nothing.
Qed.
End Tree.

(** ** Decisions *)
Section Decisions.
Context `{DatabaseLaws} (v : MetadataVFSService) (a : ACLAuthorizer).

(** An error that is none of the database. *)
Lemma undisturbed I w (Hreads : reads_answer I w) {node_of path_of} :
  @reader_stable _ (MetadataVFSService_reader v) I w node_of path_of ->
  forall ctx sid vp nid action e, fst (AuthorizeVirtualPath (MR := MetadataVFSService_reader v) a ctx sid vp nid action w) = Err e ->
  ~ db_error e.
Proof.
  intros Hs ctx sid vp nid action.
  change (wp (AuthorizeVirtualPath (MR := MetadataVFSService_reader v) a ctx sid vp nid action) (fun r _ => forall e, r = Err e -> ~ db_error e) w).
  apply wp_bind. eapply wp_mono; [apply (newEvaluator_keeps_to a I (fun e => ~ db_error e)); [|
    intros t p o limit w1 Hw1; eapply wp_mono; [by apply (answer_ok _ _ Hreads)|by intros [l|e] w2 [Hw2 ?]]|exact (answer_now _ _ Hreads)]|].
  - intros Hd%db_error_is_not_found. done.
  - intros [e|err] w1 [Hw1 He]; [|by intros ? [= <-]].
    apply wp_bind, (wp_evaluating node_of I); [done|]. intros s Hok.
    eapply wp_mono; [by apply (wp_allowVirtualPath (MR := MetadataVFSService_reader v) I w node_of path_of)|].
    intros res s' [-> _]. destruct (virtual_path_allowed _ _ e vp nid action) as [b|err] eqn:Ev.
    + destruct b; cbn [negb]; [by apply wp_ret|]. apply wp_throw. intros ? [= <-] [?|[?|[m ?]]]%db_error_class; discriminate.
    + intros ? [= <-]. unfold virtual_path_allowed in Ev. destruct (ev_bypass e); [done|].
      destruct (normalizeVirtualPath vp); [by destruct (inner_path e _)|]. injection Ev as <-.
      intros [?|[?|[m ?]]]%db_error_class; discriminate.
Qed.

(** C1: A request on a virtual path, decided by the authorizer with the
    service of the metadata tree as its reader, on valid tables and while
    reading the database does not fail (where it fails a denying rule can
    be missed: [deny_fails_open]).  It is let through exactly if it is not
    restricted, or granted.  It is not restricted without the repositories
    of configuration or rules, without an identity, for a super admin, and
    where no rule is of the source or global and the configuration, if
    there is one, is not for several users.  It is granted if there is a
    configuration (without one even an allowing rule counts for nothing:
    [rules_ignored_without_config]), the path is at or below the mount path
    of the source, where that is another than the root, and, among the
    rules of the source and the global ones that are the user's, match the
    path or its live node and have the action, one of those of highest
    priority allows and none of them denies.  A request changes no table;
    one that is not let through is denied, or its path is invalid, or its
    source is missing. *)
Theorem path_requests_decided ctx sid vp nid action w (I : World -> Prop) (Hvalid : valid w) (Hrepo : mv_nodeRepo v = true)
    (Hreads : reads_answer I w) :
  let '(res, w') := AuthorizeVirtualPath (MR := MetadataVFSService_reader v) a ctx sid vp nid action w in
  frames [] w w' /\
  match res with
  | Ok _ => unrestricted a ctx sid w \/ granted a (live_by_id w) (live_by_path w) ctx sid w vp nid action
  | Err e => (e = ErrNotFound /\ forall s, s ∈ tbl TSource w -> src_ID s <> sid) \/
             e = ErrPathInvalid /\ is_ok (normalizeVirtualPath vp) = false \/
             e = ErrACLDenied /\ ~ unrestricted a ctx sid w /\
               ~ granted a (live_by_id w) (live_by_path w) ctx sid w vp nid action
  end.
Proof.
  pose proof (tree_reader_stable I w Hreads Hvalid v Hrepo) as Hs.
  pose proof (authorize_virtual_path_spec (MR := MetadataVFSService_reader v) a _ _ ctx sid vp nid action w I Hvalid Hs (answer_now _ _ Hreads)) as Hd.
  pose proof (undisturbed I w Hreads Hs ctx sid vp nid action) as Hu.
  destruct (AuthorizeVirtualPath a ctx sid vp nid action w) as [[u|e] w']; [exact Hd|].
  destruct Hd as [Hf [[He|He]|He]]; (split; [exact Hf|]); [by destruct (Hu e eq_refl)|by left|by right].
Qed.
End Decisions.

(** ** A concrete system *)
#[local] Existing Instances Mem.database Mem.laws.
Module AclTreeExample.
Import AclExample.
Definition tree_service : MetadataVFSService :=
  {| mv_nodeRepo := true; mv_objectRepo := true; mv_sourceRepo := true; mv_tagRepo := true; mv_transactor := true |}.
(** The tables of the start, and no fault to come. *)
Definition calm (w : World) : Prop := frames [] world w /\ Mem.m_faults (w_db w) = [].
Lemma start_reads : reads_answer calm world.
Proof.
  split; [split; [apply frames_refl|done]|by intros w []|]. intros t p o limit w [Hf Hn].
  pose proof (within_select [] t p o limit w) as Hs. revert Hs. unfold wp.
  change (stmt (db_select t p o limit) w) with (map_err normalizeGormError (on_db (Mem.select t p o limit)) w).
  unfold map_err, on_db, zoom, Mem.select, Mem.attempt. rewrite Hn. cbn [fst snd]. intros Hs. split; [|done].
  split; [by eapply frames_trans|]. cbn. by rewrite Hn.
Qed.
End AclTreeExample.
Import AclTreeExample.

Lemma path_requests_decided_witness :
  let run p := AuthorizeVirtualPath (MR := MetadataVFSService_reader tree_service) AclExample.authorizer AclExample.bob 1 p 0
                 ACLActionRead AclExample.world in
  fst (run "/a/b") = Ok tt /\ fst (run "/a/secret/x") = Err ErrACLDenied /\
  ~ granted AclExample.authorizer (live_by_id AclExample.world) (live_by_path AclExample.world) AclExample.bob 1
      AclExample.world "/a/secret/x" 0 ACLActionRead.
Proof.
  intros run. split; [vm_compute; reflexivity|]. assert (fst (run "/a/secret/x") = Err ErrACLDenied) as Hno by (vm_compute; reflexivity).
  split; [exact Hno|].
  pose proof (path_requests_decided tree_service AclExample.authorizer AclExample.bob 1 "/a/secret/x" 0 ACLActionRead
    AclExample.world calm AclExample.acl_world_valid eq_refl start_reads) as Hs.
  fold (run "/a/secret/x") in Hs. destruct (run "/a/secret/x") as [[[]|e] w']; [discriminate Hno|].
  destruct Hs as [_ [[-> _]|[[-> _]|(_ & _ & Hg)]]]; [discriminate Hno..|exact Hg].
Defined.
