(* ===== verification/Tags.v ===== *)
(** * Tags

    [vfs_tag_service.go] with [vfs_tag_dto.go]: each user's tags and their
    bindings to nodes of the metadata tree.  [tags_isolated]: what a user
    does with tags neither changes nor shows another user's. *)
From S2P Require Import Prelude Ints GoStrings Entities Paths Tables Db Auditing Repos MetaRepos Acl Users MetaTree MetaTreeSpec.
From stdpp Require Import base list strings sets sorting.
From Stdlib Require Import ZArith Lia Ascii.

Local Open Scope string_scope.
Local Open Scope list_scope.
Local Open Scope go_scope.

(** ** [vfs_tag_dto.go] *)
Record VFSTagView := {
  tv_ID : N; tv_Name : string; tv_Color : string; tv_CreatedAt : string; tv_UpdatedAt : string
}.
Record VFSTagUpsertRequest := { tu_Name : string; tu_Color : string }.
Record VFSNodeTagRequest := { nr_Path : string; nr_TagID : N }.
Record VFSNodeTagListResponse := { nl_Path : string; nl_Tags : list VFSTagView }.

(** [strings.ContainsAny(s, "\r\n\t")]. *)
Definition has_control (s : string) : bool :=
  has_byte (ascii_of_N 13) s || has_byte (ascii_of_N 10) s || has_byte (ascii_of_N 9) s.

Definition normalizeVFSTagInput (req : VFSTagUpsertRequest) : result GoErr (string * string) :=
  let name := trim_space (tu_Name req) in
  let color := trim_space (tu_Color req) in
  if String.eqb name "" || Nat.ltb 64 (String.length name) || has_control name then Err ErrTagInvalid
  else if Nat.ltb 32 (String.length color) || has_control color then Err ErrTagInvalid
  else Ok (name, color).

Definition vfsTagView `{TF : TimeFormat} (tag : VFSTag) : VFSTagView :=
  {| tv_ID := tag_ID tag; tv_Name := tag_Name tag; tv_Color := tag_Color tag;
     tv_CreatedAt := rfc3339 (tag_CreatedAt tag); tv_UpdatedAt := rfc3339 (tag_UpdatedAt tag) |}.
Definition vfsTagViews `{TF : TimeFormat} (tags : list VFSTag) : list VFSTagView := map vfsTagView tags.

(** ** The service *)
Section Service.
Context `{Database} `{TF : TimeFormat}.
(** Whether the service has its repositories. *)
Context (repositories : bool).

Definition ensureReady (ownerUserID : N) : result GoErr unit :=
  if negb repositories then Err ErrSourceDriverUnsupported
  else if N.eqb ownerUserID 0 then Err ErrPermissionDenied else Ok tt.

Definition requireOwnedTag (ownerUserID tagID : N) : M GoErr World VFSTag :=
  tag <-! VFSTagRepository_FindByID tagID
    or e => (if err_is e ErrNotFound then throw ErrNotFound else throw (normalizeMetadataVFSError e)) ;;
  if negb (N.eqb (tag_OwnerUserID tag) ownerUserID) then throw ErrTagForbidden else ret tag.

Definition tag_resolveNode (virtualPath : string) : M GoErr World VFSNode :=
  normalizedPath <-! lift_result (normalizeVirtualPath virtualPath) ;;
  normalized (VFSNodeRepository_FindByPath normalizedPath).

Definition VFSTagService_ListTags (ownerUserID : N) : M GoErr World (list VFSTagView) :=
  do! lift_result (ensureReady ownerUserID) ;;
  tags <-! normalized (VFSTagRepository_List {| tlf_OwnerUserID := ownerUserID; tlf_Name := ""; tlf_Limit := 0 |}) ;;
  ret (vfsTagViews tags).

Definition VFSTagService_CreateTag (ownerUserID : N) (req : VFSTagUpsertRequest) : M GoErr World VFSTagView :=
  do! lift_result (ensureReady ownerUserID) ;;
  input <-! lift_result (normalizeVFSTagInput req) ;;
  let '(name, color) := input in
  now <-! time_now ;;
  tag <-! normalized (VFSTagRepository_UpsertByOwnerAndName
    {| tag_ID := 0; tag_OwnerUserID := ownerUserID; tag_Name := name; tag_Color := color; tag_CreatedAt := now;
       tag_UpdatedAt := now |}) ;;
  ret (vfsTagView tag).

Definition VFSTagService_UpdateTag (ownerUserID tagID : N) (req : VFSTagUpsertRequest) : M GoErr World VFSTagView :=
  do! lift_result (ensureReady ownerUserID) ;;
  if N.eqb tagID 0 then throw ErrTagInvalid
  else
    input <-! lift_result (normalizeVFSTagInput req) ;;
    let '(name, color) := input in
    tag <-! requireOwnedTag ownerUserID tagID ;;
    now <-! time_now ;;
    let tag := { tag with tag_Name := name; tag_Color := color; tag_UpdatedAt := now } in
    do! normalized (VFSTagRepository_Update tag) ;;
    ret (vfsTagView tag).

Definition VFSTagService_DeleteTag (ownerUserID tagID : N) : M GoErr World unit :=
  do! lift_result (ensureReady ownerUserID) ;;
  if N.eqb tagID 0 then throw ErrTagInvalid
  else
    do! requireOwnedTag ownerUserID tagID ;;
    normalized (VFSTagRepository_Delete tagID).

Definition VFSTagService_ListNodeTags (ownerUserID : N) (virtualPath : string) : M GoErr World VFSNodeTagListResponse :=
  do! lift_result (ensureReady ownerUserID) ;;
  node <-! tag_resolveNode virtualPath ;;
  tags <-! normalized (VFSTagRepository_ListTagsForNode (vn_ID node)) ;;
  let owned := sel (fun tag => N.eqb (tag_OwnerUserID tag) ownerUserID) tags in
  ret {| nl_Path := vn_Path node; nl_Tags := vfsTagViews owned |}.

Definition VFSTagService_AttachTag (ownerUserID : N) (req : VFSNodeTagRequest) : M GoErr World VFSNodeTagListResponse :=
  do! lift_result (ensureReady ownerUserID) ;;
  if N.eqb (nr_TagID req) 0 then throw ErrTagInvalid
  else
    tag <-! requireOwnedTag ownerUserID (nr_TagID req) ;;
    node <-! tag_resolveNode (nr_Path req) ;;
    now <-! time_now ;;
    do! normalized (VFSTagRepository_AttachToNode
      {| nt_NodeID := vn_ID node; nt_TagID := tag_ID tag; nt_CreatedBy := Some ownerUserID; nt_CreatedAt := now |}) ;;
    VFSTagService_ListNodeTags ownerUserID (vn_Path node).

Definition VFSTagService_DetachTag (ownerUserID : N) (req : VFSNodeTagRequest) : M GoErr World VFSNodeTagListResponse :=
  do! lift_result (ensureReady ownerUserID) ;;
  if N.eqb (nr_TagID req) 0 then throw ErrTagInvalid
  else
    do! requireOwnedTag ownerUserID (nr_TagID req) ;;
    node <-! tag_resolveNode (nr_Path req) ;;
    _u <-! VFSTagRepository_DetachFromNode (vn_ID node) (nr_TagID req)
      or e => (if err_is e ErrNotFound then throw ErrTagBindingNotFound else throw (normalizeMetadataVFSError e)) ;;
    VFSTagService_ListNodeTags ownerUserID (vn_Path node).
End Service.

(** ** Whose tags an operation may touch *)
Section Isolation.
Context `{DatabaseLaws} {TF : TimeFormat} (repositories : bool) (u : N).
Implicit Types w : World.

Definition foreign (t : VFSTag) : bool := negb (N.eqb (tag_OwnerUserID t) u).
(** A binding of another user's tag. *)
Definition foreign_binding w (b : VFSNodeTag) : bool :=
  existsb (fun t => N.eqb (tag_ID t) (nt_TagID b) && foreign t) (tbl TTag w).

(** Other users' tags, and their bindings, are as before. *)
Definition isolated w w' : Prop :=
  frames [TTag; TNodeTag] w w' /\ sel foreign (tbl TTag w') = sel foreign (tbl TTag w) /\
  sel (foreign_binding w) (tbl TNodeTag w') = sel (foreign_binding w) (tbl TNodeTag w).

Lemma isolated_keep w w' : frames [] w w' -> isolated w w'.
Proof.
  intros Hf. split; [eapply frames_mono; [exact Hf|set_solver]|].
  by rewrite !(frames_tbl [] w w') by (done || set_solver).
Qed.
Lemma isolated_same w w1 w2 : isolated w w1 -> same w1 w2 -> isolated w w2.
Proof.
  intros (Hf & H1 & H2) Hs. split; [by eapply frames_same|]. by rewrite !(proj1 Hs).
Qed.
(** Reads before an isolated step. *)
Lemma isolated_after w w1 w2 : frames [] w w1 -> isolated w1 w2 -> isolated w w2.
Proof.
  intros Hf (Hf2 & H1 & H2). assert (forall t, tbl t w1 = tbl t w) as E by (intros t; apply (frames_tbl [] w w1); set_solver).
  split; [eapply frames_trans; [|exact Hf2]; eapply frames_mono; [exact Hf|set_solver]|].
  unfold foreign_binding in *. rewrite !E in *. done.
Qed.

Lemma sel_set_where {A} (q p : A -> bool) f l :
  (forall x, x ∈ l -> p x = true -> q x = false /\ q (f x) = false) -> sel q (set_where p f l) = sel q l.
Proof.
  unfold sel, set_where. induction l as [|x l IH]; intros Hq; [done|]. cbn. rewrite IH by set_solver.
  destruct (p x) eqn:E; [|done]. destruct (Hq x) as [-> ->]; [by left|done|done].
Qed.
Lemma sel_kept {A} (q p : A -> bool) l :
  (forall x, x ∈ l -> p x = false -> q x = false) -> sel q (sel p l) = sel q l.
Proof.
  unfold sel. induction l as [|x l IH]; intros Hq; [done|]. cbn. destruct (p x) eqn:E; cbn; rewrite IH by set_solver; [done|].
  by rewrite Hq by (done || by left).
Qed.
Lemma sel_snoc {A} (q : A -> bool) l x : q x = false -> sel q (l ++ [x]) = sel q l.
Proof. intros E. unfold sel. rewrite List.filter_app. cbn. by rewrite E, app_nil_r. Qed.

(** Tags have ids of their own. *)
Lemma own_tag_id w t x : valid w -> t ∈ tbl TTag w -> tag_OwnerUserID t = u -> x ∈ tbl TTag w -> tag_ID x = tag_ID t ->
  foreign x = false.
Proof.
  intros Hv Ht Ho Hx E. destruct (no_conflicts_elem TTag _ x t (Hv TTag) Hx Ht) as [->|Hc].
  - unfold foreign. by rewrite Ho, N.eqb_refl.
  - cbn in Hc. unfold VFSTagModel_conflict in Hc. by rewrite E, N.eqb_refl in Hc.
Qed.
Lemma own_binding w t b : valid w -> t ∈ tbl TTag w -> tag_OwnerUserID t = u -> nt_TagID b = tag_ID t ->
  foreign_binding w b = false.
Proof.
  intros Hv Ht Ho Eb. apply not_true_is_false. intros (x & Hx%list_elem_of_In & [E%N.eqb_eq Hf]%andb_true_iff)%existsb_exists.
  rewrite (own_tag_id w t x) in Hf; [done..|congruence].
Qed.

(** A change of one of the two tables. *)
Lemma isolated_tags w w1 w' l : frames [] w w1 -> put TTag l w1 w' -> (valid w1 -> no_conflicts TTag l = true) ->
  sel foreign l = sel foreign (tbl TTag w) -> isolated w w'.
Proof.
  intros Hf Hp Hn El. apply (isolated_after w w1); [done|]. split; [|split].
  - eapply frames_mono; [by eapply put_frames|set_solver].
  - destruct Hp as [-> _]. by rewrite (frames_tbl [] w w1) by (done || set_solver).
  - by rewrite (proj1 (proj2 Hp) TNodeTag).
Qed.
Lemma isolated_bindings w w1 w' l : frames [] w w1 -> put TNodeTag l w1 w' ->
  (valid w1 -> no_conflicts TNodeTag l = true) ->
  sel (foreign_binding w) l = sel (foreign_binding w) (tbl TNodeTag w) -> isolated w w'.
Proof.
  intros Hf Hp Hn El. split; [|split].
  - eapply frames_trans; [eapply frames_mono; [exact Hf|set_solver]|].
    eapply frames_mono; [by eapply put_frames|set_solver].
  - by rewrite (proj1 (proj2 Hp) TTag), (frames_tbl [] w w1) by (done || set_solver).
  - destruct Hp as [-> _]. exact El.
Qed.

(** ** Rules *)
Lemma wp_requireOwnedTag id (Q : result GoErr VFSTag -> World -> Prop) w :
  (forall e w', same w w' -> Q (Err e) w') ->
  (forall t w', same w w' -> t ∈ tbl TTag w -> tag_ID t = id -> tag_OwnerUserID t = u -> Q (Ok t) w') ->
  wp (requireOwnedTag u id) Q w.
Proof.
  intros He Hk. unfold requireOwnedTag. apply wp_bind_or, (wp_lookup TTag).
  - intros e w' Hs _. destruct (err_is _ _); by apply He.
  - intros t w' Hs Ht E%N.eqb_eq. destruct (N.eqb_spec (tag_OwnerUserID t) u); cbn; [by apply Hk|by apply He].
Qed.

Lemma wp_tag_node p (Q : result GoErr VFSNode -> World -> Prop) w :
  (forall res w', same w w' -> Q res w') -> wp (tag_resolveNode p) Q w.
Proof.
  intros HQ. unfold tag_resolveNode. apply wp_bind, wp_lift_result. destruct (normalizeVirtualPath p); [|by apply HQ].
  apply wp_map_err, (wp_lookup TNode); intros; by apply HQ.
Qed.

(** Every tag shown is one of the user's. *)
Definition shows_own w (views : list VFSTagView) : Prop :=
  forall v, v ∈ views -> exists t, t ∈ tbl TTag w /\ tag_OwnerUserID t = u /\ v = vfsTagView t.

Lemma wp_tags_for_node id (Q : result GoErr (list VFSTag) -> World -> Prop) w :
  (forall e w', same w w' -> Q (Err e) w') ->
  (forall l w', same w w' -> (forall t, t ∈ l -> t ∈ tbl TTag w) -> Q (Ok l) w') ->
  wp (VFSTagRepository_ListTagsForNode id) Q w.
Proof.
  intros He Hk. apply wp_bind, (wp_select TNodeTag); [by intros e w' Hs _; apply He|]. intros bs w1 Hs1 _ _. cbn [limited].
  destruct bs as [|b bs]; [apply wp_ret, Hk; [done|set_solver]|].
  apply (wp_select TTag); [by intros e w' Hs _; apply He; eapply same_trans|].
  intros l w2 Hs2 Hp _. apply Hk; [by eapply same_trans|]. intros t Ht. cbn [limited] in Ht. rewrite Hp in Ht.
  apply elem_of_sel in Ht as [Ht _]. by rewrite (proj1 Hs1) in Ht.
Qed.

Lemma wp_ListNodeTags p w0 w : isolated w0 w ->
  wp (VFSTagService_ListNodeTags repositories u p)
     (fun res w' => isolated w0 w' /\ match res with Ok r => shows_own w' (nl_Tags r) | Err _ => True end) w.
Proof.
  intros Hi. unfold VFSTagService_ListNodeTags. apply wp_bind, wp_lift_result. destruct (ensureReady _ _); [|done].
  apply wp_bind, wp_tag_node. intros [n|e] w1 Hs1; [|split; [by eapply isolated_same|done]].
  apply wp_bind, wp_map_err, wp_tags_for_node.
  - intros e w2 Hs2. split; [|done]. eapply isolated_same; [|exact Hs2]. by eapply isolated_same.
  - intros l w2 Hs2 Hl. apply wp_ret. split; [eapply isolated_same; [|exact Hs2]; by eapply isolated_same|].
    intros v (t & -> & [Ht Ho%N.eqb_eq]%elem_of_sel)%list_elem_of_fmap. exists t. split; [|done].
    rewrite (proj1 Hs2). by apply Hl.
Qed.

(** ** The operations *)
Inductive tag_op : Type :=
| OpListTags
| OpCreateTag (req : VFSTagUpsertRequest)
| OpUpdateTag (id : N) (req : VFSTagUpsertRequest)
| OpDeleteTag (id : N)
| OpListNodeTags (path : string)
| OpAttach (req : VFSNodeTagRequest)
| OpDetach (req : VFSNodeTagRequest).

(** An operation, with the tags its answer lists. *)
Definition run_tag_op (op : tag_op) : M GoErr World (list VFSTagView) :=
  match op with
  | OpListTags => VFSTagService_ListTags repositories u
  | OpCreateTag req => do! VFSTagService_CreateTag repositories u req ;; ret []
  | OpUpdateTag id req => do! VFSTagService_UpdateTag repositories u id req ;; ret []
  | OpDeleteTag id => do! VFSTagService_DeleteTag repositories u id ;; ret []
  | OpListNodeTags path => r <-! VFSTagService_ListNodeTags repositories u path ;; ret (nl_Tags r)
  | OpAttach req => r <-! VFSTagService_AttachTag repositories u req ;; ret (nl_Tags r)
  | OpDetach req => r <-! VFSTagService_DetachTag repositories u req ;; ret (nl_Tags r)
  end.

Definition tag_post w (res : result GoErr (list VFSTagView)) w' : Prop :=
  isolated w w' /\ match res with Ok views => shows_own w' views | Err _ => True end.

Lemma wp_quiet {A} (m : M GoErr World A) w :
  wp m (fun _ w' => isolated w w') w -> wp (do! m ;; ret []) (tag_post w) w.
Proof. intros Hm. apply wp_bind. eapply wp_mono; [exact Hm|]. intros [a|e] w' Hi; split; done || (intros v Hv; set_solver). Qed.
Lemma wp_shown m w :
  wp m (fun res w' => isolated w w' /\ match res with Ok r => shows_own w' (nl_Tags r) | Err _ => True end) w ->
  wp (r <-! m ;; ret (nl_Tags r)) (tag_post w) w.
Proof. intros Hm. apply wp_bind. eapply wp_mono; [exact Hm|]. by intros [r|e] w'. Qed.

Lemma list_tags_post w : wp (VFSTagService_ListTags repositories u) (tag_post w) w.
Proof.
  unfold VFSTagService_ListTags. apply wp_bind, wp_lift_result.
  destruct (ensureReady _ _); [|split; [apply isolated_keep, frames_refl|done]].
  apply wp_bind, wp_map_err, (wp_select TTag).
  - intros e w' Hs _. split; [by apply isolated_keep, same_frames|done].
  - intros l w' Hs Hp _. apply wp_ret. split; [by apply isolated_keep, same_frames|].
    intros v (t & -> & Ht)%list_elem_of_fmap. change (t ∈ l) in Ht. rewrite Hp in Ht.
    apply elem_of_sel in Ht as [Ht [Ho%N.eqb_eq _]%andb_true_iff]. exists t. by rewrite (proj1 Hs).
Qed.

Lemma create_tag_isolated req w : wp (VFSTagService_CreateTag repositories u req) (fun _ w' => isolated w w') w.
Proof.
  unfold VFSTagService_CreateTag. apply wp_bind, wp_lift_result.
  destruct (ensureReady _ _); [|apply isolated_keep, frames_refl].
  apply wp_bind, wp_lift_result. destruct (normalizeVFSTagInput req) as [[name color]|]; [|apply isolated_keep, frames_refl].
  apply wp_bind, wp_time_now, wp_bind, wp_map_err. set (w1 := { w with w_reads ::= S }).
  assert (frames [] w w1) as Hf by apply tick_frames.
  unfold VFSTagRepository_UpsertByOwnerAndName. apply wp_bind.
  assert (forall w2, isolated w w2 ->
            wp (VFSTagRepository_FindByOwnerAndName u name) (fun res w' => isolated w w') w2) as Hread.
  { intros w2 Hi. apply (wp_lookup TTag); intros; by eapply isolated_same. }
  apply (wp_upsert TTag).
  - intros e w2 Hs _. by apply isolated_keep; eapply frames_same.
  - intros id now now' w2 r' l _ Hn Hp. eapply wp_mono; [apply Hread|by intros [?|?] ?].
    apply (isolated_tags w w1 w2 l); [done..|]. apply sel_set_where.
    intros t _ [Ho%N.eqb_eq _]%andb_true_iff. unfold foreign. cbn in *. by rewrite Ho, N.eqb_refl.
  - intros id now w2 r' _ _ Ha Hp. eapply wp_mono; [apply Hread|by intros [?|?] ?].
    apply (isolated_tags w w1 w2 _ Hf Hp); [intros Hv; by apply absent_no_conflicts|].
    apply sel_snoc. unfold foreign. cbn. by rewrite N.eqb_refl.
Qed.

Lemma update_tag_isolated id req w : valid w ->
  wp (VFSTagService_UpdateTag repositories u id req) (fun _ w' => isolated w w') w.
Proof.
  intros Hv. unfold VFSTagService_UpdateTag. apply wp_bind, wp_lift_result.
  destruct (ensureReady _ _); [|apply isolated_keep, frames_refl]. destruct (N.eqb id 0); [apply isolated_keep, frames_refl|].
  apply wp_bind, wp_lift_result. destruct (normalizeVFSTagInput req) as [[name color]|]; [|apply isolated_keep, frames_refl].
  apply wp_bind, wp_requireOwnedTag; [by intros e w' Hs; apply isolated_keep, same_frames|].
  intros t w1 Hs Ht Ei Ho. apply wp_bind, wp_time_now, wp_bind, wp_map_err.
  assert (frames [] w { w1 with w_reads ::= S }) as Hf by (eapply frames_trans; [by apply same_frames|apply tick_frames]).
  apply (wp_update_found TTag).
  - intros e w2 Hs2 _. by apply isolated_keep; eapply frames_same.
  - intros w2 Hs2 _. by apply isolated_keep; eapply frames_same.
  - intros now w2 l _ Hn Hp. apply wp_ret, (isolated_tags w _ w2 l Hf Hp); [done|].
    unfold l. change (tbl TTag { w1 with w_reads ::= S }) with (tbl TTag w1). rewrite (proj1 Hs).
    apply sel_set_where. intros x Hx E%N.eqb_eq. rewrite (own_tag_id w t x) by done. split; [done|].
    apply (own_tag_id w t x) in E; [|done..]. exact E.
Qed.

Lemma delete_tag_isolated id w : valid w ->
  wp (VFSTagService_DeleteTag repositories u id) (fun _ w' => isolated w w') w.
Proof.
  intros Hv. unfold VFSTagService_DeleteTag. apply wp_bind, wp_lift_result.
  destruct (ensureReady _ _); [|apply isolated_keep, frames_refl]. destruct (N.eqb id 0); [apply isolated_keep, frames_refl|].
  apply wp_bind, wp_requireOwnedTag; [by intros e w' Hs; apply isolated_keep, same_frames|].
  intros t w1 Hs Ht Ei Ho. apply wp_map_err.
  assert (forall w2 w3, frames [TTag; TNodeTag] w1 w2 -> (forall t, tbl t w3 = tbl t w1) -> w_clock w3 = w_clock w2 ->
            w_reads w3 = w_reads w2 -> isolated w w3) as Hback.
  { intros w2 w3 Hf E1 E2 E3. apply isolated_keep. eapply frames_trans; [by apply same_frames|].
    by eapply (proj2 (rolled_back _ [] _ _ _ Hf E1 E2 E3)). }
  apply wp_transaction; [intros d _; apply raw_db_error|]. apply wp_bind, (wp_delete_found TTag).
  - intros e w2 Hs2 _ w3. apply (Hback w2). by apply same_frames.
  - intros w2 Hs2 _ w3. apply (Hback w2). by apply same_frames.
  - intros w2 _ Hp. assert (frames [TTag; TNodeTag] w1 w2) as Hf2.
    { eapply frames_mono; [eapply put_frames; [exact Hp|intros Hv1; by apply no_conflicts_sel]|set_solver]. }
    assert (isolated w w2) as Hi.
    { apply (isolated_tags w w1 w2 _ (same_frames _ _ _ Hs) Hp); [intros Hv1; by apply no_conflicts_sel|].
      rewrite (proj1 Hs). apply sel_kept. intros x Hx E%negb_false_iff%N.eqb_eq. apply (own_tag_id w t x); [done..|congruence]. }
    apply wp_bind, (wp_delete TNodeTag).
    + intros e w3 Hs3 _ w4. apply (Hback w3). by eapply frames_same.
    + intros w3 Hp3. assert (frames [TTag; TNodeTag] w1 w3) as Hf3.
      { eapply frames_trans; [exact Hf2|]. eapply frames_mono; [eapply put_frames; [exact Hp3|intros Hv1; by apply no_conflicts_sel]|set_solver]. }
      apply wp_ret. split; [|intros e w4 E1 E2 E3 _; by apply (Hback w3)].
      intros w4 Hs4. apply (isolated_same w w3); [|done]. destruct Hi as (Hfw & H1 & H2). split; [|split].
      * eapply frames_trans; [exact Hfw|]. eapply frames_mono; [eapply put_frames; [exact Hp3|intros Hv1; by apply no_conflicts_sel]|set_solver].
      * by rewrite (proj1 (proj2 Hp3) TTag).
      * destruct Hp3 as [-> _]. rewrite <- H2. apply sel_kept. intros b _ E%negb_false_iff%N.eqb_eq.
        apply (own_binding w t); [done..|congruence].
Qed.

Lemma attach_isolated req w : valid w ->
  wp (VFSTagService_AttachTag repositories u req)
     (fun res w' => isolated w w' /\ match res with Ok r => shows_own w' (nl_Tags r) | Err _ => True end) w.
Proof.
  intros Hv. unfold VFSTagService_AttachTag. apply wp_bind, wp_lift_result.
  destruct (ensureReady _ _); [|split; [apply isolated_keep, frames_refl|done]].
  destruct (N.eqb _ 0); [split; [apply isolated_keep, frames_refl|done]|].
  apply wp_bind, wp_requireOwnedTag; [by intros e w' Hs; split; [apply isolated_keep, same_frames|]|].
  intros t w1 Hs1 Ht Ei Ho. apply wp_bind, wp_tag_node.
  intros res w2 Hs2. pose proof (same_trans _ _ _ Hs1 Hs2) as Hs. destruct res as [node|e];
    [|by split; [apply isolated_keep, same_frames|]].
  apply wp_bind, wp_time_now, wp_bind, wp_map_err. set (w3 := { w2 with w_reads ::= S }).
  assert (frames [] w w3) as Hf by (eapply frames_trans; [by apply same_frames|apply tick_frames]).
  apply (wp_upsert TNodeTag).
  - intros e w4 Hs4 _. split; [|done]. by apply isolated_keep; eapply frames_same.
  - intros id now now' w4 r' l _ Hn Hp. apply wp_ListNodeTags, (isolated_bindings w w3 w4 l); [done..|].
    unfold l, set_where. f_equal. rewrite <- (map_id (tbl TNodeTag w)).
    replace (tbl TNodeTag w) with (tbl TNodeTag w3) by apply Hs. apply map_ext. intros b. by destruct (VFSNodeTagModel_conflict _ _).
  - intros id now w4 r' _ _ Ha Hp. apply wp_ListNodeTags, (isolated_bindings w w3 w4 _ Hf Hp).
    + intros Hv'. by apply absent_no_conflicts.
    + replace (tbl TNodeTag w3) with (tbl TNodeTag w) by (symmetry; apply Hs). apply sel_snoc. by apply (own_binding w t).
Qed.

Lemma detach_isolated req w : valid w ->
  wp (VFSTagService_DetachTag repositories u req)
     (fun res w' => isolated w w' /\ match res with Ok r => shows_own w' (nl_Tags r) | Err _ => True end) w.
Proof.
  intros Hv. unfold VFSTagService_DetachTag. apply wp_bind, wp_lift_result.
  destruct (ensureReady _ _); [|split; [apply isolated_keep, frames_refl|done]].
  destruct (N.eqb _ 0); [split; [apply isolated_keep, frames_refl|done]|].
  apply wp_bind, wp_requireOwnedTag; [by intros e w' Hs; split; [apply isolated_keep, same_frames|]|].
  intros t w1 Hs1 Ht Ei Ho. apply wp_bind, wp_tag_node.
  intros res w2 Hs2. pose proof (same_trans _ _ _ Hs1 Hs2) as Hs. destruct res as [node|e];
    [|by split; [apply isolated_keep, same_frames|]].
  apply wp_bind_or, (wp_delete_found TNodeTag).
  - intros e w3 Hs3 _. destruct (err_is _ _); (split; [by apply isolated_keep, same_frames; eapply same_trans|done]).
  - intros w3 Hs3 _. split; [by apply isolated_keep, same_frames; eapply same_trans|done].
  - intros w3 _ Hp. apply wp_ListNodeTags, (isolated_bindings w w2 w3 _ (same_frames _ _ _ Hs) Hp).
    + intros Hv'. by apply no_conflicts_sel.
    + rewrite (proj1 Hs). apply sel_kept. intros b _ [_ E%N.eqb_eq]%negb_false_iff%andb_true_iff.
      apply (own_binding w t); [done..|congruence].
Qed.

(** C31: whatever a user does with tags, and whether or not it succeeds, the
    tags of all other users and the bindings of those tags stay as they
    are, and the tags an answer lists are the user's own. *)
Theorem tags_isolated op w (Hvalid : valid w) :
  let r := run_tag_op op w in
  isolated w (snd r) /\ match fst r with Ok views => shows_own (snd r) views | Err _ => True end.
Proof.
  change (wp (run_tag_op op) (tag_post w) w). destruct op; cbn [run_tag_op].
  - apply list_tags_post.
  - apply wp_quiet, create_tag_isolated.
  - by apply wp_quiet, update_tag_isolated.
  - by apply wp_quiet, delete_tag_isolated.
  - apply wp_shown, wp_ListNodeTags, isolated_keep, frames_refl.
  - by apply wp_shown, attach_isolated.
  - by apply wp_shown, detach_isolated.
Qed.
End Isolation.

(** ** Concrete tags *)
#[local] Existing Instances Mem.database Mem.laws.
Module TagExample.
#[export] Instance format : TimeFormat := fun z => pretty.pretty z.

Definition tag (id owner : N) (name : string) : VFSTag :=
  {| tag_ID := id; tag_OwnerUserID := owner; tag_Name := name; tag_Color := "red"; tag_CreatedAt := 1; tag_UpdatedAt := 1 |}.
Definition node (id : N) (path : string) : VFSNode :=
  {| vn_ID := id; vn_ParentID := None; vn_Name := path; vn_Path := path; vn_Kind := VFSNodeKindFile; vn_MountID := None;
     vn_ObjectID := None; vn_SourceID := None; vn_ProviderItemID := None; vn_ProviderParentID := None; vn_Size := 0;
     vn_MimeType := ""; vn_ETag := ""; vn_Checksum := ""; vn_SyncState := VFSNodeSyncStateIndexed; vn_IsDeleted := false;
     vn_CreatedBy := None; vn_UpdatedBy := None; vn_CreatedAt := 1; vn_UpdatedAt := 1; vn_IndexedAt := None;
     vn_LastSeenAt := None |}.
Definition binding (n t : N) : VFSNodeTag := {| nt_NodeID := n; nt_TagID := t; nt_CreatedBy := None; nt_CreatedAt := 1 |}.
(** Users 1 and 2 both have tagged the node 7. *)
Definition world : World := mem_world
  (Mem.set_rows TNodeTag [binding 7 3; binding 7 5]
  (Mem.set_rows TTag [tag 3 1 "mine"; tag 4 1 "todo"; tag 5 2 "mine"]
  (Mem.set_rows TNode [node 7 "/a"] Mem.init))).
Lemma world_valid : valid world.
Proof. by intros []. Qed.
Definition tag_names (r : result GoErr (list VFSTagView)) : option (list string) :=
  match r with Ok l => Some (map tv_Name l) | Err _ => None end.
End TagExample.
Import TagExample.

Lemma tags_isolated_witness :
  let op := OpAttach {| nr_Path := "/a/"; nr_TagID := 4 |} in
  let r := run_tag_op true 1 op world in
  tag_names (fst r) = Some ["mine"; "todo"] /\ isolated 1 world (snd r) /\
  fst (run_tag_op true 1 (OpDeleteTag 5) world) = Err ErrTagForbidden.
Proof.
  split; [vm_compute; reflexivity|]. split; [|vm_compute; reflexivity].
  destruct (tags_isolated true 1 (OpAttach {| nr_Path := "/a/"; nr_TagID := 4 |}) world world_valid) as [Hi _].
  exact Hi.
Defined.
