(* ===== verification/Notifications.v ===== *)
(** * Notifications: the service

    [notification_service.go] and [notification_repo_impl.go]: channels,
    events, their delivery to every matching channel and the retries.  The
    webhook sender and [url.Parse] are parameters: a delivery is accepted
    or refused with a message, which may depend on everything that was sent
    before.

    [NotificationProps] says what becomes of an event. *)
From S2P Require Import Prelude Ints GoStrings Entities Tables Db Auditing Repos Journal Users Permission.
From stdpp Require Import base list strings sets sorting pretty.
From Stdlib Require Import ZArith Lia Ascii.

Local Open Scope string_scope.
Local Open Scope list_scope.
Local Open Scope go_scope.

(** ** Constants *)
Definition NotificationChannelTypeWebhook := "webhook".
Definition NotificationEventRSSSourceFailure := "rss.source_failure".
Definition NotificationEventRSSItemNeedsAttention := "rss.item_needs_attention".
Definition NotificationEventRSSDownloadCompleted := "rss.download_completed".
Definition NotificationEventTest := "notification.test".
Definition NotificationSeverityInfo := "info".
Definition NotificationSeverityWarning := "warning".
Definition NotificationSeverityError := "error".
Definition NotificationStatusPending := "pending".
Definition NotificationStatusDelivered := "delivered".
Definition NotificationStatusRetryPending := "retry_pending".
Definition NotificationStatusFailed := "failed".
Definition NotificationStatusSkipped := "skipped".
Definition defaultNotificationMaxAttempts : Z := 3.

Definition supportedNotificationEvents : list string :=
  [NotificationEventRSSSourceFailure; NotificationEventRSSItemNeedsAttention; NotificationEventRSSDownloadCompleted].
Definition supported (eventType : string) : bool := existsb (String.eqb eventType) supportedNotificationEvents.

Definition isValidNotificationStatus (status : string) : bool :=
  existsb (String.eqb status)
    [NotificationStatusPending; NotificationStatusDelivered; NotificationStatusRetryPending; NotificationStatusFailed;
     NotificationStatusSkipped].

(** ** Requests and views *)
Record NotificationWebhookConfigRequest := { wc_URL : string; wc_Secret : option string }.
Record NotificationChannelUpsertRequest := {
  cu_Name : string; cu_Type : string; cu_IsEnabled : option bool; cu_EventTypes : list string;
  cu_Config : NotificationWebhookConfigRequest
}.
Record NotificationChannelConfigView := { cw_URL : string; cw_SecretConfigured : bool }.
Record NotificationChannelView := {
  cv_ID : N; cv_Name : string; cv_Type : string; cv_IsEnabled : bool; cv_EventTypes : list string;
  cv_Config : NotificationChannelConfigView; cv_CreatedAt : string; cv_UpdatedAt : string
}.
Record NotificationEventView := {
  ev_ID : N; ev_UserID : N; ev_EventType : string; ev_Severity : string; ev_Title : string; ev_Message : string;
  ev_Payload : list (string * PayloadValue); ev_Status : string; ev_Attempts : Z; ev_MaxAttempts : Z;
  ev_LastAttemptAt : option string; ev_NextAttemptAt : option string; ev_DeliveredAt : option string;
  ev_LastError : option string; ev_CreatedAt : string; ev_UpdatedAt : string
}.
Record NotificationEventFilter := {
  nf_Status : string; nf_EventType : string; nf_DueBefore : option Z; nf_Limit : Z
}.
Record NotificationEventInput := {
  ni_UserID : N; ni_EventType : string; ni_Severity : string; ni_Title : string; ni_Message : string;
  ni_Payload : list (string * Json)
}.

(** ** The sender *)
Record NotificationWebhookEndpoint := { we_URL : string; we_Secret : string; we_Timeout : Z }.
Record NotificationWebhookPayload := {
  wp_EventID : N; wp_EventType : string; wp_Severity : string; wp_Title : string; wp_Message : string;
  wp_Payload : list (string * PayloadValue); wp_CreatedAt : string
}.
Definition Delivery : Type := NotificationWebhookEndpoint * NotificationWebhookPayload.
(** The error of a delivery, after those sent before it. *)
Class NotificationWebhookSender := Send : list Delivery -> Delivery -> option string.
(** [url.Parse]: the scheme and the host. *)
Class UrlParser := url_parse : string -> option (string * string).

(** ** Input *)
Definition validateNotificationWebhookURL `{UrlParser} (rawURL : string) : result GoErr unit :=
  match url_parse (trim_space rawURL) with
  | None => Err ErrConfigInvalid
  | Some (scheme, host) =>
      if String.eqb scheme "" || String.eqb host "" then Err ErrConfigInvalid
      else if negb (String.eqb scheme "http") && negb (String.eqb scheme "https") then Err ErrConfigInvalid
      else Ok tt
  end.

Fixpoint normalize_event_types (seen values : list string) : result GoErr (list string) :=
  match values with
  | [] => Ok []
  | value :: rest =>
      let trimmed := trim_space value in
      if String.eqb trimmed "" then normalize_event_types seen rest
      else if negb (supported trimmed) then Err ErrConfigInvalid
      else if existsb (String.eqb trimmed) seen then normalize_event_types seen rest
      else match normalize_event_types (trimmed :: seen) rest with
           | Ok out => Ok (trimmed :: out)
           | Err e => Err e
           end
  end.
Definition normalizeNotificationEventTypes (values : list string) : result GoErr (list string) :=
  normalize_event_types [] values.

Definition normalizeNotificationChannelInput `{UrlParser} (req : NotificationChannelUpsertRequest)
    (existing : option NotificationChannelConfig)
    : result GoErr (string * string * list string * NotificationChannelConfig) :=
  let name := trim_space (cu_Name req) in
  if String.eqb name "" then Err ErrConfigInvalid
  else
    let channelType := trim_space (cu_Type req) in
    if negb (String.eqb channelType NotificationChannelTypeWebhook) then Err ErrNotificationChannelUnsupported
    else
      match normalizeNotificationEventTypes (cu_EventTypes req) with
      | Err e => Err e
      | Ok eventTypes =>
          let config := match existing with Some c => c | None => {| ncc_WebhookURL := ""; ncc_Secret := "" |} end in
          let webhookURL := trim_space (wc_URL (cu_Config req)) in
          let webhookURL :=
            match existing with
            | Some c => if String.eqb webhookURL "" then ncc_WebhookURL c else webhookURL
            | None => webhookURL
            end in
          match validateNotificationWebhookURL webhookURL with
          | Err e => Err e
          | Ok _ =>
              let config := { config with ncc_WebhookURL := webhookURL } in
              let config := match wc_Secret (cu_Config req) with
                            | Some secret => { config with ncc_Secret := trim_space secret }
                            | None => config
                            end in
              Ok (name, channelType, eventTypes, config)
          end
      end.

Definition normalizeNotificationSeverity (value : string) : string :=
  let value := trim_space value in
  if existsb (String.eqb value) [NotificationSeverityInfo; NotificationSeverityWarning; NotificationSeverityError]
  then value else NotificationSeverityInfo.

Definition boolDefault (value : option bool) (fallback : bool) : bool :=
  match value with Some b => b | None => fallback end.

Definition notificationRetryBackoff (attempts : Z) : Z :=
  if Z.leb attempts 1 then 5 * minute
  else if Z.eqb attempts 2 then 30 * minute
  else 120 * minute.

Definition notificationChannelMatchesEvent (channel : NotificationChannel) (eventType : string) : bool :=
  nc_IsEnabled channel &&
  match nc_EventTypes channel with [] => true | l => existsb (fun item => String.eqb item eventType) l end.

Definition notificationWebhookEndpoint (channel : NotificationChannel) : NotificationWebhookEndpoint :=
  {| we_URL := ncc_WebhookURL (nc_Config channel); we_Secret := ncc_Secret (nc_Config channel);
     we_Timeout := 10 * 1000000000 |}.

Definition marshalNotificationPayload (payload : list (string * Json)) : string := json_marshal (JObj payload).
Definition decodeNotificationPayload `{JsonDecoder} (raw : string) : list (string * PayloadValue) :=
  if String.eqb (trim_space raw) "" then []
  else match json_object raw with Some payload => payload | None => [] end.

Section Views.
Context `{TF : TimeFormat} `{JD : JsonDecoder}.

Definition notificationWebhookPayloadFromEvent (event : NotificationEvent) : NotificationWebhookPayload :=
  {| wp_EventID := ne_ID event; wp_EventType := ne_EventType event; wp_Severity := ne_Severity event;
     wp_Title := ne_Title event; wp_Message := ne_Message event;
     wp_Payload := decodeNotificationPayload (ne_PayloadJSON event); wp_CreatedAt := rfc3339 (ne_CreatedAt event) |}.

Definition formatNotificationTime (value : option Z) : option string := option_map rfc3339 value.

Definition toNotificationChannelView (channel : NotificationChannel) : NotificationChannelView :=
  {| cv_ID := nc_ID channel; cv_Name := nc_Name channel; cv_Type := nc_Type channel;
     cv_IsEnabled := nc_IsEnabled channel; cv_EventTypes := nc_EventTypes channel;
     cv_Config := {| cw_URL := ncc_WebhookURL (nc_Config channel);
                     cw_SecretConfigured := negb (String.eqb (trim_space (ncc_Secret (nc_Config channel))) "") |};
     cv_CreatedAt := rfc3339 (nc_CreatedAt channel); cv_UpdatedAt := rfc3339 (nc_UpdatedAt channel) |}.

Definition toNotificationEventView (event : NotificationEvent) : NotificationEventView :=
  {| ev_ID := ne_ID event; ev_UserID := ne_UserID event; ev_EventType := ne_EventType event;
     ev_Severity := ne_Severity event; ev_Title := ne_Title event; ev_Message := ne_Message event;
     ev_Payload := decodeNotificationPayload (ne_PayloadJSON event); ev_Status := ne_Status event;
     ev_Attempts := ne_Attempts event; ev_MaxAttempts := ne_MaxAttempts event;
     ev_LastAttemptAt := formatNotificationTime (ne_LastAttemptAt event);
     ev_NextAttemptAt := formatNotificationTime (ne_NextAttemptAt event);
     ev_DeliveredAt := formatNotificationTime (ne_DeliveredAt event); ev_LastError := ne_LastError event;
     ev_CreatedAt := rfc3339 (ne_CreatedAt event); ev_UpdatedAt := rfc3339 (ne_UpdatedAt event) |}.
End Views.

(** ** The repository *)
Section Repository.
Context `{Database}.

Definition channel_by_id (id : N) (c : NotificationChannel) : bool := N.eqb (nc_ID c) id.
Definition event_by_id (id : N) (e : NotificationEvent) : bool := N.eqb (ne_ID e) id.

Definition NotificationRepository_CreateChannel (channel : NotificationChannel) : M GoErr World NotificationChannel :=
  stmt (db_insert TChannel channel).
Definition NotificationRepository_UpdateChannel (channel : NotificationChannel) : M GoErr World unit :=
  must_affect (stmt (db_update TChannel (channel_by_id (nc_ID channel))
    (fun c => { channel with nc_ID := nc_ID c; nc_CreatedAt := nc_CreatedAt c }))).
Definition NotificationRepository_DeleteChannel (id : N) : M GoErr World unit :=
  must_affect (stmt (db_delete TChannel (channel_by_id id))).
Definition NotificationRepository_FindChannelByID (id : N) : M GoErr World NotificationChannel :=
  first TChannel (channel_by_id id) (ord_asc (fun c => Z.of_N (nc_ID c))).
Definition NotificationRepository_ListChannels (enabled : option bool) : M GoErr World (list NotificationChannel) :=
  stmt (db_select TChannel (fun c => match enabled with None => true | Some b => Bool.eqb (nc_IsEnabled c) b end)
          (ord_then (ord_desc nc_CreatedAt) (ord_desc (fun c => Z.of_N (nc_ID c)))) None).

Definition notificationEventModelFromEntity (event : NotificationEvent) : NotificationEvent :=
  { event with ne_PayloadJSON ::= jsonObject }.
Definition NotificationRepository_CreateEvent (event : NotificationEvent) : M GoErr World NotificationEvent :=
  stmt (db_insert TNotification (notificationEventModelFromEntity event)).
Definition event_columns (event e : NotificationEvent) : NotificationEvent :=
  { (notificationEventModelFromEntity event) with ne_ID := ne_ID e; ne_CreatedAt := ne_CreatedAt e }.
Definition NotificationRepository_UpdateEvent (event : NotificationEvent) : M GoErr World unit :=
  must_affect (stmt (db_update TNotification (event_by_id (ne_ID event)) (event_columns event))).
Definition NotificationRepository_FindEventByID (id : N) : M GoErr World NotificationEvent :=
  first TNotification (event_by_id id) (ord_asc (fun e => Z.of_N (ne_ID e))).
Definition event_filter (filter : NotificationEventFilter) (e : NotificationEvent) : bool :=
  (String.eqb (nf_Status filter) "" || String.eqb (ne_Status e) (nf_Status filter)) &&
  (String.eqb (nf_EventType filter) "" || String.eqb (ne_EventType e) (nf_EventType filter)) &&
  match nf_DueBefore filter with None => true | Some t => null_or_before (ne_NextAttemptAt e) t end.
Definition event_limit (limit : Z) : nat :=
  Z.to_nat (if Z.leb limit 0 || Z.ltb 200 limit then 100 else limit).
Definition event_order : Order NotificationEvent :=
  ord_then (ord_desc ne_CreatedAt) (ord_desc (fun e => Z.of_N (ne_ID e))).
Definition NotificationRepository_ListEvents (filter : NotificationEventFilter) : M GoErr World (list NotificationEvent) :=
  stmt (db_select TNotification (event_filter filter) event_order (Some (event_limit (nf_Limit filter)))).
End Repository.

(** ** The service *)
Section Service.
Context `{Database} `{TF : TimeFormat} `{JD : JsonDecoder} `{UP : UrlParser} `{NS : NotificationWebhookSender}.
(** Whether the service has a webhook sender. *)
Context (webhookSender : bool).

(** The world, and the deliveries sent so far. *)
Record Outbox := { o_world : World; o_sent : list Delivery }.
#[export] Instance eta_Outbox : Eta Outbox := fun r => {| o_world := o_world r; o_sent := o_sent r |}.

Definition here {A} (m : M GoErr World A) : M GoErr Outbox A := zoom o_world (fun w s => { s with o_world := w }) m.

(** [Send], with the message of its error. *)
Definition send (d : Delivery) : M GoErr Outbox (option string) := fun s =>
  (Ok (Send (o_sent s) d), { s with o_sent := o_sent s ++ [d] }).

Definition currentNotificationAuth (ctx : Ctx) : result GoErr RequestAuth :=
  match RequestAuthFromContext ctx with
  | None => Err ErrPermissionDenied
  | Some auth =>
      if negb (String.eqb (ra_Status auth) "") && negb (String.eqb (ra_Status auth) StatusActive)
      then Err ErrPermissionDenied else Ok auth
  end.

Definition NotificationService_ListChannels (ctx : Ctx) : M GoErr Outbox (list NotificationChannelView) :=
  do! lift_result (currentNotificationAuth ctx) ;;
  channels <-! here (NotificationRepository_ListChannels None) ;;
  ret (map toNotificationChannelView channels).

Definition NotificationService_CreateChannel (ctx : Ctx) (req : NotificationChannelUpsertRequest)
    : M GoErr Outbox NotificationChannelView :=
  do! lift_result (currentNotificationAuth ctx) ;;
  input <-! lift_result (normalizeNotificationChannelInput req None) ;;
  let '(name, channelType, eventTypes, config) := input in
  now <-! here time_now ;;
  channel <-! here (NotificationRepository_CreateChannel
    {| nc_ID := 0; nc_Name := name; nc_Type := channelType; nc_IsEnabled := boolDefault (cu_IsEnabled req) true;
       nc_EventTypes := eventTypes; nc_Config := config; nc_CreatedAt := now; nc_UpdatedAt := now |}) ;;
  ret (toNotificationChannelView channel).

Definition NotificationService_UpdateChannel (ctx : Ctx) (id : N) (req : NotificationChannelUpsertRequest)
    : M GoErr Outbox NotificationChannelView :=
  do! lift_result (currentNotificationAuth ctx) ;;
  channel <-! here (NotificationRepository_FindChannelByID id) ;;
  input <-! lift_result (normalizeNotificationChannelInput req (Some (nc_Config channel))) ;;
  let '(name, channelType, eventTypes, config) := input in
  now <-! here time_now ;;
  let channel := { channel with nc_Name := name; nc_Type := channelType;
                   nc_IsEnabled ::= boolDefault (cu_IsEnabled req); nc_EventTypes := eventTypes; nc_Config := config;
                   nc_UpdatedAt := now } in
  do! here (NotificationRepository_UpdateChannel channel) ;;
  ret (toNotificationChannelView channel).

Definition NotificationService_DeleteChannel (ctx : Ctx) (id : N) : M GoErr Outbox unit :=
  do! lift_result (currentNotificationAuth ctx) ;;
  here (NotificationRepository_DeleteChannel id).

(** [fmt.Errorf("%w: %v", ErrNotificationDeliveryFailed, err)]. *)
Definition delivery_failed (message : string) : GoErr := ErrWrap message ErrNotificationDeliveryFailed.

Definition NotificationService_TestChannel (ctx : Ctx) (id : N) : M GoErr Outbox unit :=
  do! lift_result (currentNotificationAuth ctx) ;;
  channel <-! here (NotificationRepository_FindChannelByID id) ;;
  if negb (String.eqb (nc_Type channel) NotificationChannelTypeWebhook) || negb webhookSender
  then throw ErrNotificationChannelUnsupported
  else
    now <-! here time_now ;;
    sendErr <-! send (notificationWebhookEndpoint channel,
      {| wp_EventID := 0; wp_EventType := NotificationEventTest; wp_Severity := NotificationSeverityInfo;
         wp_Title := "Yunxia notification test"; wp_Message := "This is a test notification from Yunxia.";
         wp_Payload := [("channel_id", PScalar (JUint (nc_ID channel))); ("channel", PString (nc_Name channel))];
         wp_CreatedAt := rfc3339 now |}) ;;
    match sendErr with Some err => throw (delivery_failed err) | None => ret tt end.

Definition NotificationService_ListEvents (ctx : Ctx) (filter : NotificationEventFilter)
    : M GoErr Outbox (list NotificationEventView) :=
  do! lift_result (currentNotificationAuth ctx) ;;
  if negb (String.eqb (nf_Status filter) "") && negb (isValidNotificationStatus (nf_Status filter))
  then throw ErrConfigInvalid
  else if negb (String.eqb (nf_EventType filter) "") && negb (supported (nf_EventType filter))
  then throw ErrConfigInvalid
  else
    events <-! here (NotificationRepository_ListEvents filter) ;;
    ret (map toNotificationEventView events).

(** The text of [errors.Join]. *)
Definition join_text (joined : option string) (err : string) : option string :=
  Some match joined with None => err | Some j => j +:+ String (ascii_of_N 10) err end.

(** The loop over the matching channels. *)
Fixpoint deliver (matched : list NotificationChannel) (payload : NotificationWebhookPayload) (joined : option string)
    : M GoErr Outbox (option string) :=
  match matched with
  | [] => ret joined
  | channel :: rest =>
      if negb (String.eqb (nc_Type channel) NotificationChannelTypeWebhook) || negb webhookSender
      then deliver rest payload (join_text joined "notification channel unsupported")
      else
        sendErr <-! send (notificationWebhookEndpoint channel, payload) ;;
        deliver rest payload (match sendErr with Some err => join_text joined err | None => joined end)
  end.

(** The event after an attempt. *)
Definition attempted (event : NotificationEvent) (manual : bool) (joined : option string) (now : Z)
    : NotificationEvent :=
  let event := { event with ne_Attempts ::= (fun n => int_add n 1); ne_LastAttemptAt := Some now } in
  let event :=
    match joined with
    | None => { event with ne_Status := NotificationStatusDelivered; ne_DeliveredAt := Some now;
                ne_NextAttemptAt := None; ne_LastError := None }
    | Some message =>
        let event := { event with ne_LastError := Some message } in
        if Z.leb (ne_MaxAttempts event) (ne_Attempts event) && negb manual
        then { event with ne_Status := NotificationStatusFailed; ne_NextAttemptAt := None }
        else { event with ne_Status := NotificationStatusRetryPending;
               ne_NextAttemptAt := Some (now + notificationRetryBackoff (ne_Attempts event))%Z }
    end in
  { event with ne_UpdatedAt := now }.
Definition skipped (event : NotificationEvent) (now : Z) : NotificationEvent :=
  { event with ne_Status := NotificationStatusSkipped; ne_UpdatedAt := now; ne_NextAttemptAt := None }.

(** The event as the caller's pointer shows it afterwards, and the error. *)
Definition dispatchEvent (event : NotificationEvent) (manual : bool)
    : M GoErr Outbox (NotificationEvent * option GoErr) :=
  channels <-! here (NotificationRepository_ListChannels (Some true)) or err => ret (event, Some err) ;;
  let matched := sel (fun channel => notificationChannelMatchesEvent channel (ne_EventType event)) channels in
  now <-! here time_now ;;
  match matched with
  | [] =>
      let event := skipped event now in
      _u <-! here (NotificationRepository_UpdateEvent event) or err => ret (event, Some err) ;;
      ret (event, None)
  | _ =>
      joined <-! deliver matched (notificationWebhookPayloadFromEvent event) None ;;
      let event := attempted event manual joined now in
      _u <-! here (NotificationRepository_UpdateEvent event) or err => ret (event, Some err) ;;
      ret (event, option_map delivery_failed joined)
  end.

Definition NotificationService_RetryEvent (ctx : Ctx) (id : N) : M GoErr Outbox NotificationEventView :=
  do! lift_result (currentNotificationAuth ctx) ;;
  event <-! here (NotificationRepository_FindEventByID id) ;;
  if String.eqb (ne_Status event) NotificationStatusDelivered || String.eqb (ne_Status event) NotificationStatusSkipped
  then throw ErrTaskInvalidState
  else
    r <-! dispatchEvent event true ;;
    match snd r with
    | Some err => throw err
    | None => ret (toNotificationEventView (fst r))
    end.

(** The error of the dispatch is logged only. *)
Definition Notify (input : NotificationEventInput) : M GoErr Outbox NotificationEvent :=
  if negb (supported (ni_EventType input)) then throw ErrConfigInvalid
  else
    now <-! here time_now ;;
    let event :=
      {| ne_ID := 0; ne_UserID := ni_UserID input; ne_EventType := ni_EventType input;
         ne_Severity := normalizeNotificationSeverity (ni_Severity input); ne_Title := trim_space (ni_Title input);
         ne_Message := trim_space (ni_Message input); ne_PayloadJSON := marshalNotificationPayload (ni_Payload input);
         ne_Status := NotificationStatusPending; ne_Attempts := 0; ne_MaxAttempts := defaultNotificationMaxAttempts;
         ne_LastAttemptAt := None; ne_NextAttemptAt := None; ne_DeliveredAt := None; ne_LastError := None;
         ne_CreatedAt := now; ne_UpdatedAt := now |} in
    if String.eqb (ne_Title event) "" || String.eqb (ne_Message event) "" then throw ErrConfigInvalid
    else
      event <-! here (NotificationRepository_CreateEvent event) ;;
      r <-! dispatchEvent event false ;;
      ret (fst r).

(** The events of one status: how many were processed, and the errors. *)
Fixpoint process_events (limit : Z) (events : list NotificationEvent) (processed : Z) (joined : option GoErr)
    : M GoErr Outbox (Z * option GoErr) :=
  match events with
  | [] => ret (processed, joined)
  | event :: rest =>
      if Z.leb limit processed then ret (processed, joined)
      else
        r <-! dispatchEvent event false ;;
        process_events limit rest (processed + 1)
          (match snd r with Some err => join_error joined err | None => joined end)
  end.
Fixpoint process_statuses (limit now : Z) (statuses : list string) (processed : Z) (joined : option GoErr)
    : M GoErr Outbox (Z * option GoErr) :=
  match statuses with
  | [] => ret (processed, joined)
  | status :: rest =>
      if Z.leb limit processed then ret (processed, joined)
      else
        events <-! here (NotificationRepository_ListEvents
          {| nf_Status := status; nf_EventType := ""; nf_DueBefore := Some now; nf_Limit := (limit - processed)%Z |})
          or err => ret (processed, Some err) ;;
        r <-! process_events limit events processed joined ;;
        process_statuses limit now rest (fst r) (snd r)
  end.
Definition ProcessDueEvents (limit : Z) : M GoErr Outbox (Z * option GoErr) :=
  let limit := if Z.leb limit 0 then 20%Z else limit in
  now <-! here time_now ;;
  process_statuses limit now [NotificationStatusPending; NotificationStatusRetryPending] 0 None.
End Service.
