(* ===== verification/NotificationProps.v ===== *)
(** * Notifications: what becomes of an event

    A dispatch sends the event once to every channel that wants it and
    records the outcome; events move by the relation [event_step], whatever
    operations run; and the retry worker settles every event it may
    attempt ([event_settles]). *)
From S2P Require Import Prelude Ints GoStrings Entities Tables Db Auditing Repos Journal Users Permission Notifications.
From stdpp Require Import base list strings sets sorting pretty relations.
From Stdlib Require Import ZArith Lia Ascii.

Local Open Scope string_scope.
Local Open Scope list_scope.
Local Open Scope go_scope.

(** ** The life of an event *)
Definition final (e : NotificationEvent) : bool :=
  String.eqb (ne_Status e) NotificationStatusDelivered || String.eqb (ne_Status e) NotificationStatusSkipped.
(** What the worker looks for. *)
Definition open (e : NotificationEvent) : bool :=
  String.eqb (ne_Status e) NotificationStatusPending || String.eqb (ne_Status e) NotificationStatusRetryPending.
(** The row an update leaves. *)
Definition stored (e : NotificationEvent) (now : Z) : NotificationEvent :=
  { (notificationEventModelFromEntity e) with ne_UpdatedAt := now }.

Inductive event_step (manual : bool) : NotificationEvent -> NotificationEvent -> Prop :=
| step_skipped e now now' : (if manual then final e = false else open e = true) ->
    event_step manual e (stored (skipped e now) now')
| step_attempted e joined now now' : (if manual then final e = false else open e = true) ->
    event_step manual e (stored (attempted e manual joined now) now').

(** A step of an event; the events with an id in [retried] may be retried
    by hand. *)
Definition step_for (retried : N -> Prop) (e e' : NotificationEvent) : Prop :=
  event_step false e e' \/ retried (ne_ID e) /\ event_step true e e'.

(** An event as [Notify] makes it. *)
Definition fresh (e : NotificationEvent) : Prop :=
  ne_Status e = NotificationStatusPending /\ ne_Attempts e = 0%Z /\ ne_MaxAttempts e = defaultNotificationMaxAttempts /\
  ne_NextAttemptAt e = None /\ ne_DeliveredAt e = None.

(** Status and times agree. *)
Definition consistent (e : NotificationEvent) : Prop :=
  isValidNotificationStatus (ne_Status e) = true /\
  (ne_DeliveredAt e <> None <-> ne_Status e = NotificationStatusDelivered) /\
  (ne_NextAttemptAt e <> None <-> ne_Status e = NotificationStatusRetryPending) /\
  (ne_Status e = NotificationStatusDelivered -> ne_LastError e = None).

(** Attempts stay within their bound, and an event that is open has one
    left. *)
Definition bounded (e : NotificationEvent) : Prop :=
  (0 <= ne_Attempts e <= ne_MaxAttempts e)%Z /\ (ne_MaxAttempts e <= max_int)%Z /\
  (open e = true -> (ne_Attempts e < ne_MaxAttempts e)%Z).

Lemma event_step_id manual e e' : event_step manual e e' -> ne_ID e' = ne_ID e.
Proof. destruct 1 as [|e []]; cbn; try done. by destruct (_ && _). Qed.
Lemma event_step_not_final manual e e' : event_step manual e e' -> final e = false.
Proof.
  assert (open e = true -> final e = false) as Ho.
  { unfold open, final. intros [->%String.eqb_eq | ->%String.eqb_eq]%orb_true_iff; done. }
  destruct manual; destruct 1; auto.
Qed.
Lemma event_step_open e e' : event_step false e e' -> open e = true.
Proof. by destruct 1. Qed.

Lemma step_consistent manual e e' : event_step manual e e' -> consistent e -> consistent e'.
Proof.
  intros Hs (Hv & Hd & Hn & Hl). pose proof (event_step_not_final _ _ _ Hs) as Hf.
  apply orb_false_iff in Hf as [Hf1%String.eqb_neq Hf2%String.eqb_neq].
  assert (ne_DeliveredAt e = None) as Ed by (destruct (ne_DeliveredAt e); [|done]; by destruct Hf1; apply Hd).
  destruct Hs as [e now now' _|e [m|] now now' _]; unfold consistent, stored, attempted, skipped; cbn; rewrite ?Ed.
  - by split_and!.
  - destruct (_ && _); cbn; rewrite ?Ed; by split_and!.
  - by split_and!.
Qed.

Lemma int_succ n : (0 <= n < max_int)%Z -> int_add n 1 = (n + 1)%Z.
Proof. intros Hn. apply wrap64_id. unfold is_int, max_int in *. lia. Qed.

Lemma step_bounded e e' : event_step false e e' -> bounded e ->
  bounded e' /\ ne_MaxAttempts e' = ne_MaxAttempts e /\
  (open e' = true -> ne_Attempts e' = (ne_Attempts e + 1)%Z).
Proof.
  intros Hs (Hb & Hm & Ho). specialize (Ho (event_step_open _ _ Hs)).
  pose proof (int_succ (ne_Attempts e) ltac:(lia)) as Ei.
  destruct Hs as [e now now' _|e [m|] now now' _]; unfold bounded, stored, attempted, skipped; cbn; rewrite ?Ei.
  - split_and!; done || lia.
  - destruct (Z.leb_spec (ne_MaxAttempts e) (ne_Attempts e + 1)); cbn; rewrite ?Ei; split_and!; done || lia.
  - split_and!; done || lia.
Qed.

Lemma fresh_consistent e : fresh e -> consistent e.
Proof. intros (Es & _ & _ & En & Ed). unfold consistent. rewrite Es, En, Ed. by split_and!. Qed.
Lemma fresh_bounded e : fresh e -> bounded e.
Proof. intros (Es & Ea & Em & _). unfold bounded. rewrite Ea, Em. done. Qed.

Lemma step_for_mono (P Q : N -> Prop) e e' : (forall i, P i -> Q i) -> rtc (step_for P) e e' -> rtc (step_for Q) e e'.
Proof. intros HPQ. apply rtc_subrel. intros x y [Hs|[Hp Hs]]; [by left|right; auto]. Qed.
Lemma steps_id P e e' : rtc (step_for P) e e' -> ne_ID e' = ne_ID e.
Proof. induction 1 as [|x y z [Hs|[_ Hs]] _ IH]; [done|..]; rewrite IH; by eapply event_step_id. Qed.
Lemma steps_final P e e' : rtc (step_for P) e e' -> final e = true -> e' = e.
Proof. intros Hs Hf. inversion Hs as [|? y ? [H|[_ H]]]; subst; [done|..]; apply event_step_not_final in H; congruence. Qed.
Lemma steps_consistent P e e' : rtc (step_for P) e e' -> consistent e -> consistent e'.
Proof. induction 1 as [|x y z [Hs|[_ Hs]] _ IH]; [done|..]; intros Hc; by eapply IH, step_consistent. Qed.

(** Without a retry by hand, a failed event stays as it is, and attempts
    stay within their bound. *)
Lemma steps_auto (P : N -> Prop) e e' : rtc (step_for P) e e' -> ~ P (ne_ID e) -> rtc (event_step false) e e'.
Proof.
  induction 1 as [|x y z [Hs|[Hp Hs]] _ IH]; intros Hn; [done| |done].
  eapply rtc_l; [exact Hs|]. apply IH. by rewrite (event_step_id _ _ _ Hs).
Qed.
Lemma auto_closed e e' : rtc (event_step false) e e' -> open e = false -> e' = e.
Proof. intros Hs Ho. inversion Hs as [|? y ? H]; subst; [done|]. apply event_step_open in H. congruence. Qed.
Lemma auto_bounded e e' : rtc (event_step false) e e' -> bounded e -> bounded e' /\ ne_MaxAttempts e' = ne_MaxAttempts e.
Proof.
  induction 1 as [|x y z Hs _ IH]; intros Hb; [done|]. destruct (step_bounded _ _ Hs Hb) as (Hb' & Em & _).
  destruct (IH Hb') as [? ?]. split; [done|congruence].
Qed.
(** Attempts only grow while an event is open. *)
Lemma auto_progress e e' : rtc (event_step false) e e' -> bounded e -> open e' = true ->
  (ne_Attempts e <= ne_Attempts e')%Z.
Proof.
  induction 1 as [|x y z Hs Hr IH]; intros Hb Ho; [lia|]. destruct (step_bounded _ _ Hs Hb) as (Hb' & Em & Hy).
  specialize (IH Hb' Ho). destruct (open y) eqn:Ey; [specialize (Hy eq_refl); lia|].
  apply auto_closed in Hr; [|done]. congruence.
Qed.

(** ** A dispatch *)
Section Dispatch.
Context `{DatabaseLaws} {TF : TimeFormat} {JD : JsonDecoder} {UP : UrlParser} {NS : NotificationWebhookSender}.
Context (webhookSender : bool).
Implicit Types s : Outbox.
#[local] Notation dispatchEvent := (dispatchEvent webhookSender).
#[local] Notation deliver := (deliver webhookSender).

Definition evs s : list NotificationEvent := tbl TNotification (o_world s).
Definition chs s : list NotificationChannel := tbl TChannel (o_world s).
Definition sane s : Prop := valid (o_world s).

(** Steps that leave all tables, and that leave the events. *)
Definition quiet_step s s' : Prop := frames [] (o_world s) (o_world s').

Lemma wp_here {A} (m : M GoErr World A) (Q : result GoErr A -> Outbox -> Prop) s :
  wp m (fun r w => Q r { s with o_world := w }) (o_world s) -> wp (here m) Q s.
Proof. exact (wp_zoom o_world (fun w s => { s with o_world := w }) m Q s). Qed.

(** The answers to a sequence of deliveries. *)
Fixpoint answers (sent ds : list Delivery) : list (option string) :=
  match ds with [] => [] | d :: ds' => Send sent d :: answers (sent ++ [d]) ds' end.
Definition reachable (c : NotificationChannel) : bool :=
  String.eqb (nc_Type c) NotificationChannelTypeWebhook && webhookSender.
Definition deliveries (matched : list NotificationChannel) (payload : NotificationWebhookPayload) : list Delivery :=
  map (fun c => (notificationWebhookEndpoint c, payload)) (sel reachable matched).
(** Every channel can be reached and accepts. *)
Definition accepted (sent : list Delivery) matched payload : Prop :=
  Forall (fun c => reachable c = true) matched /\ Forall (eq None) (answers sent (deliveries matched payload)).

Lemma deliveries_cons c matched payload : deliveries (c :: matched) payload =
  if reachable c then (notificationWebhookEndpoint c, payload) :: deliveries matched payload else deliveries matched payload.
Proof. unfold deliveries, sel. cbn. by destruct (reachable c). Qed.
Lemma accepted_cons sent c matched payload : accepted sent (c :: matched) payload <->
  reachable c = true /\ Send sent (notificationWebhookEndpoint c, payload) = None /\
  accepted (sent ++ [(notificationWebhookEndpoint c, payload)]) matched payload.
Proof.
  unfold accepted. rewrite deliveries_cons, Forall_cons. destruct (reachable c) eqn:E; [|naive_solver].
  cbn. rewrite Forall_cons. naive_solver.
Qed.

Lemma wp_deliver matched payload joined (Q : result GoErr (option string) -> Outbox -> Prop) s :
  (forall j, (j = None <-> joined = None /\ accepted (o_sent s) matched payload) ->
     Q (Ok j) { s with o_sent := o_sent s ++ deliveries matched payload }) ->
  wp (deliver matched payload joined) Q s.
Proof.
  revert joined s. induction matched as [|c matched IH]; intros joined s HQ.
  - apply wp_ret. replace s with { s with o_sent := o_sent s ++ [] } by (destruct s; cbn; by rewrite app_nil_r).
    apply HQ. unfold accepted. cbn. rewrite !Forall_nil. naive_solver.
  - cbn [Notifications.deliver]. rewrite deliveries_cons in HQ.
    assert (negb (String.eqb (nc_Type c) NotificationChannelTypeWebhook) || negb webhookSender = negb (reachable c)) as ->
      by (unfold reachable; by rewrite negb_andb).
    destruct (reachable c) eqn:E; cbn [negb].
    + apply wp_bind. change (wp (send ?d) ?P s) with (P (Ok (Send (o_sent s) d)) { s with o_sent := o_sent s ++ [d] }).
      cbn beta iota. apply IH. intros j Hj. cbn in Hj |- *. rewrite <- app_assoc. apply HQ. rewrite Hj, accepted_cons, E.
      destruct (Send _ _) eqn:Es; naive_solver.
    + apply IH. intros j Hj. apply HQ. rewrite Hj, accepted_cons, E. naive_solver.
Qed.

(** What a stored dispatch did, and what a failed one leaves. *)
Definition wanted s (event : NotificationEvent) : list NotificationChannel :=
  sel (fun c => notificationChannelMatchesEvent c (ne_EventType event)) (chs s).
Definition outcome s (event : NotificationEvent) (manual : bool) matched (r : NotificationEvent * option GoErr) s' : Prop :=
  exists n, w_reads (o_world s) <= n /\ let now := w_clock (o_world s) n in
  match matched with
  | [] => r = (skipped event now, None) /\ o_sent s' = o_sent s
  | _ =>
      let payload := notificationWebhookPayloadFromEvent event in
      o_sent s' = o_sent s ++ deliveries matched payload /\
      exists joined, (joined = None <-> accepted (o_sent s) matched payload) /\
        r = (attempted event manual joined now, option_map delivery_failed joined)
  end.
Definition dispatched event manual s (r : NotificationEvent * option GoErr) s' : Prop :=
  (exists matched, matched ≡ₚ wanted s event /\ outcome s event manual matched r s') /\
  (exists e, e ∈ evs s /\ ne_ID e = ne_ID event) /\ frames [TNotification] (o_world s) (o_world s') /\
  exists now, evs s' = set_where (event_by_id (ne_ID event)) (fun e => touch TNotification now (event_columns (fst r) e)) (evs s).
Definition dispatch_error (e : GoErr) : Prop := db_error e \/ e = ErrNotFound.
Definition dispatch_lost s (r : NotificationEvent * option GoErr) s' : Prop :=
  quiet_step s s' /\ (exists ds, o_sent s' = o_sent s ++ ds) /\ (exists e, snd r = Some e /\ dispatch_error e).

Lemma fst_attempted_id event manual joined now : ne_ID (attempted event manual joined now) = ne_ID event.
Proof. unfold attempted. destruct joined; cbn; [|done]. by destruct (_ && _). Qed.

Lemma wp_UpdateEvent event (Q : result GoErr unit -> World -> Prop) w :
  (forall e w', frames [] w w' -> dispatch_error e -> Q (Err e) w') ->
  (forall now w', (exists e, e ∈ tbl TNotification w /\ ne_ID e = ne_ID event) -> frames [TNotification] w w' ->
     tbl TNotification w' = set_where (event_by_id (ne_ID event)) (fun e => touch TNotification now (event_columns event e))
       (tbl TNotification w) -> Q (Ok tt) w') ->
  wp (NotificationRepository_UpdateEvent event) Q w.
Proof.
  intros He Hk. apply (wp_update_found TNotification).
  - intros e w' Hs Hd. apply He; [by apply same_frames|by left].
  - intros w' Hs _. apply He; [by apply same_frames|by right].
  - intros now w' l (e & Hin & Hp%N.eqb_eq) Hn Hput. eapply Hk; [by exists e|by eapply put_frames|apply Hput].
Qed.

Lemma wp_dispatch event manual (Q : result GoErr (NotificationEvent * option GoErr) -> Outbox -> Prop) s :
  (forall r s', dispatch_lost s r s' -> Q (Ok r) s') ->
  (forall r s', dispatched event manual s r s' -> Q (Ok r) s') ->
  wp (dispatchEvent event manual) Q s.
Proof.
  intros Hlost Hdone. apply wp_bind_or, wp_here, (wp_select TChannel).
  { intros e w1 Hs Hd. apply wp_ret, Hlost. split; [by apply same_frames|]. split; [exists []; by rewrite app_nil_r|].
    exists e. split; [done|by left]. }
  intros all w1 Hs Hp _. apply wp_bind, wp_here, wp_time_now. set (w2 := { w1 with w_reads ::= S }).
  assert (frames [] (o_world s) w2) as Hf by (eapply frames_trans; [by apply same_frames|apply tick_frames]).
  cbn [limited]. set (matched := sel (fun c => notificationChannelMatchesEvent c (ne_EventType event)) all).
  assert (matched ≡ₚ wanted s event) as Hm.
  { unfold matched. rewrite (sel_perm _ _ _ Hp), sel_sel. unfold wanted, chs. apply reflexive_eq, sel_ext. intros c _.
    unfold notificationChannelMatchesEvent. by destruct (nc_IsEnabled c). }
  assert (w_reads (o_world s) <= w_reads w1 /\ w_clock w1 = w_clock (o_world s)) as [Er Ec]
    by (destruct Hs as (_ & -> & ->); done).
  set (s2 := { { s with o_world := w1 } with o_world := w2 }).
  assert (forall ev' r' sent, ne_ID ev' = ne_ID event -> outcome s event manual matched (ev', r') { s2 with o_sent := sent } ->
            (exists ds, sent = o_sent s ++ ds) ->
            wp (_u <-! here (NotificationRepository_UpdateEvent ev') or err => ret (ev', Some err) ;; ret (ev', r')) Q
               { s2 with o_sent := sent }) as Hstore.
  { intros ev' r' sent Eid Ho Hds. apply wp_bind_or, wp_here, wp_UpdateEvent.
    - intros e w3 Hf3 He. apply wp_ret, Hlost. split; [by eapply frames_trans|]. split; [done|by exists e].
    - intros now' w3 Hex Hf3 Hl. rewrite Eid in *. cbn [o_world s2 setter] in *.
      assert (tbl TNotification w2 = evs s) as E by (apply (frames_tbl [] _ _ TNotification Hf); set_solver).
      rewrite E in *. apply wp_ret, Hdone. split; [exists matched; by split|]. split; [done|].
      split; [eapply frames_trans; [eapply frames_mono; [exact Hf|set_solver]|done]|by exists now']. }
  clearbody matched. destruct matched as [|c l].
  - apply (Hstore (skipped event (the_time w1)) None (o_sent s)); [done|exists (w_reads w1); by split; [|rewrite <- Ec]|exists []; by rewrite app_nil_r].
  - apply wp_bind, wp_deliver. intros j Hj. apply Hstore; [apply fst_attempted_id| |by eexists].
    exists (w_reads w1). split; [done|]. rewrite <- Ec. split; [done|]. exists j. split; [|done]. rewrite Hj. naive_solver.
Qed.

(** ** Steps of the events *)
Definition due (t : Z) (e : NotificationEvent) : bool := open e && null_or_before (ne_NextAttemptAt e) t.
(** Every reading of the clock to come is [t] or later. *)
Definition clock_from t s : Prop := forall n, w_reads (o_world s) <= n -> (t <= w_clock (o_world s) n)%Z.

(** An event that a dispatch of the given ones touched, or left. *)
Definition moved manual (events : list NotificationEvent) s e e' : Prop :=
  e' = e \/ e ∈ events /\ event_step manual e e' /\ (forall t, clock_from t s -> due t e' = false).

Lemma same_event s e e' : sane s -> e ∈ evs s -> e' ∈ evs s -> ne_ID e = ne_ID e' -> e = e'.
Proof.
  intros Hv He He' E. destruct (no_conflicts_elem TNotification _ e e' (Hv TNotification) He He') as [?|Hc]; [done|].
  cbn in Hc. by rewrite E, N.eqb_refl in Hc.
Qed.

Lemma backoff_pos n : (0 < notificationRetryBackoff n)%Z.
Proof. unfold notificationRetryBackoff, minute. by repeat case_match. Qed.

Lemma attempted_not_due event manual joined n s t now' : w_reads (o_world s) <= n -> clock_from t s ->
  due t (stored (attempted event manual joined (w_clock (o_world s) n)) now') = false.
Proof.
  intros Hn Ht. specialize (Ht n Hn). unfold due, open, stored, attempted. destruct joined as [m|]; cbn; [|done].
  destruct (Z.leb _ _ && negb manual); [done|]. cbn. apply Z.leb_gt.
  pose proof (backoff_pos (int_add (ne_Attempts event) 1)). lia.
Qed.

Lemma dispatched_moved event manual s r s' : dispatched event manual s r s' -> sane s -> event ∈ evs s ->
  (if manual then final event = false else open event = true) ->
  exists e', event_step manual event e' /\ (forall t, clock_from t s -> due t e' = false) /\
    evs s' = map (fun e => if N.eqb (ne_ID e) (ne_ID event) then e' else e) (evs s).
Proof.
  intros ((matched & _ & n & Hn & Ho) & _ & _ & now' & El) Hv Hin Hg.
  exists (stored (fst r) now'). assert (ne_ID (fst r) = ne_ID event /\ ne_CreatedAt (fst r) = ne_CreatedAt event) as [Ei Ecr].
  { destruct matched; [destruct Ho as [-> _]; done|]. destruct Ho as (_ & joined & _ & ->). unfold attempted.
    destruct joined; cbn; [|done]. by destruct (_ && _). }
  split_and!.
  - destruct matched; [destruct Ho as [-> _]; by constructor|]. destruct Ho as (_ & joined & _ & ->). by constructor.
  - intros t Ht. destruct matched; [by destruct Ho as [-> _]|]. destruct Ho as (_ & joined & _ & ->).
    by apply attempted_not_due.
  - rewrite El. apply map_ext_in. intros e He%list_elem_of_In. unfold event_by_id.
    destruct (N.eqb_spec (ne_ID e) (ne_ID event)) as [E|]; [|done]. apply (same_event s) in E as ->; [|done..].
    cbn. unfold stored, notificationEventModelFromEntity. cbn. by rewrite Ei, Ecr.
Qed.

Lemma moved_list manual event e' events s l : event ∈ events -> event_step manual event e' ->
  (forall t, clock_from t s -> due t e' = false) ->
  (forall e, e ∈ l -> ne_ID e = ne_ID event -> e = event) ->
  Forall2 (moved manual events s) l (map (fun e => if N.eqb (ne_ID e) (ne_ID event) then e' else e) l).
Proof.
  intros Hin Hs Hd. induction l as [|x l IH]; intros Hl; [constructor|]. cbn. constructor; [|apply IH; set_solver].
  destruct (N.eqb_spec (ne_ID x) (ne_ID event)) as [E|]; [|by left]. right.
  apply Hl in E as ->; [done|by left].
Qed.

(** ** Steps of the whole state *)
Definition evolves (retried : N -> Prop) s s' : Prop :=
  (forall e, e ∈ evs s -> exists e', e' ∈ evs s' /\ rtc (step_for retried) e e') /\
  (forall e', e' ∈ evs s' -> exists e, (e ∈ evs s \/ fresh e) /\ rtc (step_for retried) e e').
Definition advances_events (retried : N -> Prop) s s' : Prop := sane s -> sane s' /\ evolves retried s s'.

Lemma evolves_eq R s s' : evs s' = evs s -> evolves R s s'.
Proof. intros E. split; rewrite E; intros e He; exists e; eauto using rtc_refl. Qed.
Lemma evolves_trans R s1 s2 s3 : evolves R s1 s2 -> evolves R s2 s3 -> evolves R s1 s3.
Proof.
  intros [F1 B1] [F2 B2]. split.
  - intros e He. destruct (F1 e He) as (e2 & He2 & Hr). destruct (F2 e2 He2) as (e3 & He3 & Hr2).
    exists e3. split; [done|by etrans].
  - intros e He. destruct (B2 e He) as (e2 & [He2|Hf] & Hr); [|by exists e2; auto].
    destruct (B1 e2 He2) as (e1 & Ho & Hr1). exists e1. split; [done|by etrans].
Qed.
Lemma advances_refl R s s' : evs s' = evs s -> (sane s -> sane s') -> advances_events R s s'.
Proof. intros E Hv Hs. split; [auto|by apply evolves_eq]. Qed.
Lemma advances_events_trans R s1 s2 s3 : advances_events R s1 s2 -> advances_events R s2 s3 -> advances_events R s1 s3.
Proof. intros H1 H2 Hs. destruct (H1 Hs) as [Hs2 E1]. destruct (H2 Hs2) as [Hs3 E2]. split; [done|by eapply evolves_trans]. Qed.
Lemma evolves_forall2 R manual events s s0 s' : (manual = true -> forall e, e ∈ events -> R (ne_ID e)) ->
  Forall2 (moved manual events s0) (evs s) (evs s') -> evolves R s s'.
Proof.
  intros HR HF.
  assert (forall e e', moved manual events s0 e e' -> rtc (step_for R) e e') as Hm.
  { intros e e' [->|(Hin & Hs & _)]; [done|]. apply rtc_once. destruct manual; [right|left]; auto. }
  split; intros e He.
  - apply list_elem_of_lookup in He as [i Hi]. destruct (Forall2_lookup_l _ _ _ _ _ HF Hi) as (e' & Hi' & Hm').
    exists e'. split; [by eapply list_elem_of_lookup_2|auto].
  - apply list_elem_of_lookup in He as [i Hi]. destruct (Forall2_lookup_r _ _ _ _ _ HF Hi) as (e0 & Hi' & Hm').
    exists e0. split; [left; by eapply list_elem_of_lookup_2|auto].
Qed.

Lemma quiet_evs s s' : quiet_step s s' -> evs s' = evs s.
Proof. intros Hq. apply (frames_tbl [] _ _ TNotification Hq). set_solver. Qed.
Lemma quiet_advances R s s' : quiet_step s s' -> advances_events R s s'.
Proof. intros Hq. apply advances_refl; [by apply quiet_evs|apply Hq]. Qed.
Lemma channel_advances R s s' : frames [TChannel] (o_world s) (o_world s') -> advances_events R s s'.
Proof. intros Hf. apply advances_refl; [apply (frames_tbl _ _ _ TNotification Hf); set_solver|apply Hf]. Qed.

Lemma dispatch_advances R event (manual : bool) s : sane s -> event ∈ evs s ->
  (if manual then final event = false else open event = true) -> (manual = true -> R (ne_ID event)) ->
  wp (dispatchEvent event manual) (fun (res : result GoErr _) s' => advances_events R s s' /\ is_ok res = true) s.
Proof.
  intros Hv Hin Hg HR. apply wp_dispatch.
  - intros r s' (Hq & _). split; [by apply quiet_advances|done].
  - intros r s' Hd. split; [|done]. intros _. destruct (dispatched_moved _ _ _ _ _ Hd Hv Hin Hg) as (e' & Hs & Hdue & El).
    destruct Hd as (_ & _ & Hf & _). split; [by apply Hf|].
    apply (evolves_forall2 R manual [event] s s s'); [set_solver|]. rewrite El. apply moved_list; [set_solver|done..|].
    intros x Hx E. by apply (same_event s).
Qed.

(** ** The worker *)

(** Errors that say only that a channel refused. *)
Fixpoint delivery_error (e : GoErr) : bool :=
  match e with
  | ErrWrap _ ErrNotificationDeliveryFailed => true
  | ErrJoin a b => delivery_error a && delivery_error b
  | _ => false
  end.
Definition only_deliveries (joined : option GoErr) : bool :=
  match joined with None => true | Some e => delivery_error e end.

Lemma dispatch_error_other e : dispatch_error e -> delivery_error e = false.
Proof. intros [Hd| ->]; [|done]. by apply db_error_class in Hd as [->|[->|[m ->]]]. Qed.
Lemma only_join joined e : only_deliveries (join_error joined e) = only_deliveries joined && delivery_error e.
Proof. by destruct joined. Qed.

(** What a dispatch by the worker does to an open event of the table. *)
Definition worked event s (r : NotificationEvent * option GoErr) s' : Prop :=
  sane s' /\ frames [TNotification] (o_world s) (o_world s') /\
  ((evs s' = evs s /\ only_deliveries (snd r) = false) \/
   only_deliveries (snd r) = true /\ exists e', event_step false event e' /\ (forall t, clock_from t s -> due t e' = false) /\
     evs s' = map (fun e => if N.eqb (ne_ID e) (ne_ID event) then e' else e) (evs s)).

Lemma wp_work event (Q : result GoErr (NotificationEvent * option GoErr) -> Outbox -> Prop) s :
  sane s -> event ∈ evs s -> open event = true -> (forall r s', worked event s r s' -> Q (Ok r) s') ->
  wp (dispatchEvent event false) Q s.
Proof.
  intros Hv Hin Ho HQ. apply wp_dispatch.
  - intros r s' (Hq & _ & e & Er & He). apply HQ. split; [by apply Hq|].
    split; [eapply frames_mono; [exact Hq|set_solver]|]. left. split; [by apply quiet_evs|].
    rewrite Er. by apply dispatch_error_other.
  - intros r s' Hd. apply HQ. pose proof Hd as ((matched & _ & n & _ & Hr) & _ & Hf & _).
    split; [by apply Hf|]. split; [done|]. right. split; [|by eapply (dispatched_moved event false)].
    destruct matched; [by destruct Hr as [-> _]|]. destruct Hr as (_ & [m|] & _ & ->); done.
Qed.

Lemma clock_later t s s' ts : frames ts (o_world s) (o_world s') -> clock_from t s -> clock_from t s'.
Proof. intros (_ & _ & Ec & Er) Ht n Hn. rewrite Ec. apply Ht. lia. Qed.

Lemma moved_trans event events s s1 s2 : ne_ID event ∉ map ne_ID events -> frames [TNotification] (o_world s) (o_world s1) ->
  Forall2 (moved false [event] s) (evs s) (evs s1) -> Forall2 (moved false events s1) (evs s1) (evs s2) ->
  Forall2 (moved false (event :: events) s) (evs s) (evs s2).
Proof.
  intros Hni Hf H1 H2. eapply Forall2_trans; [|exact H1|exact H2]. cbn. intros x y z.
  intros [->|(->%list_elem_of_singleton & Hs & Hd)] [->|(Hin & Hs' & Hd')].
  - by left.
  - right. split; [by right|]. split; [done|]. intros t Ht. apply Hd'. by eapply clock_later.
  - right. split; [by left|done].
  - apply event_step_id in Hs. destruct Hni. rewrite <- Hs. by apply list_elem_of_fmap_2.
Qed.

Definition all_moved (events : list NotificationEvent) s' : Prop :=
  forall e, e ∈ events -> exists e', e' ∈ evs s' /\ event_step false e e'.

Lemma wp_process_events limit events processed joined s
    (Q : result GoErr (Z * option GoErr) -> Outbox -> Prop) :
  sane s -> (forall e, e ∈ events -> e ∈ evs s /\ open e = true) -> NoDup (map ne_ID events) ->
  (forall k j s', sane s' -> frames [TNotification] (o_world s) (o_world s') ->
     Forall2 (moved false events s) (evs s) (evs s') ->
     ((processed + Z.of_nat (length events) <= limit)%Z -> k = (processed + Z.of_nat (length events))%Z) ->
     (only_deliveries j = true -> only_deliveries joined = true /\
       ((processed + Z.of_nat (length events) <= limit)%Z -> all_moved events s')) -> Q (Ok (k, j)) s') ->
  wp (process_events webhookSender limit events processed joined) Q s.
Proof.
  revert processed joined s. induction events as [|event events IH]; intros processed joined s Hv Hin Hnd HQ; cbn.
  { apply wp_ret, HQ; [done|apply frames_refl|by apply Forall_Forall2_diag, Forall_true; left|cbn; lia|].
    intros Hj. split; [done|]. intros _ e He. by apply not_elem_of_nil in He. }
  destruct (Z.leb_spec limit processed).
  { apply wp_ret, HQ; [done|apply frames_refl|by apply Forall_Forall2_diag, Forall_true; left|cbn; lia|].
    intros Hj. split; [done|]. cbn. lia. }
  apply NoDup_cons in Hnd as [Hni Hnd]. destruct (Hin event ltac:(by left)) as [Hev Ho].
  apply wp_bind, wp_work; [done..|]. intros r s1 (Hv1 & Hf1 & Hr).
  set (j1 := match snd r with Some err => join_error joined err | None => joined end).
  assert (only_deliveries j1 = only_deliveries joined && only_deliveries (snd r)) as Ej.
  { unfold j1. destruct (snd r) as [err|]; [apply only_join|by rewrite andb_true_r]. }
  assert (Forall2 (moved false [event] s) (evs s) (evs s1)) as HF1.
  { destruct Hr as [[-> _]|(_ & e' & Hs & Hd & ->)]; [by apply Forall_Forall2_diag, Forall_true; left|].
    apply moved_list; [set_solver|done..|]. intros x Hx E. by apply (same_event s). }
  apply IH; [done| |done|].
  - intros e He. destruct (Hin e ltac:(by right)) as [He' Ho']. split; [|done].
    destruct Hr as [[-> _]|(_ & e' & _ & _ & ->)]; [done|]. apply list_elem_of_fmap. exists e. split; [|done].
    destruct (N.eqb_spec (ne_ID e) (ne_ID event)) as [E|]; [|done]. destruct Hni. rewrite <- E. by apply list_elem_of_fmap_2.
  - intros k j s2 Hv2 Hf2 HF2 Hk Hj. apply HQ; [done|by eapply frames_trans|by eapply moved_trans|cbn in *; lia|].
    intros Hjo. destruct (Hj Hjo) as [Hj1 Hall]. rewrite Ej in Hj1. apply andb_true_iff in Hj1 as [Hjo1 Hro].
    split; [done|]. cbn [length]. intros Hl. destruct Hr as [[_ ?]|(_ & e' & Hs & Hd & El)]; [congruence|].
    intros e [->|He]%elem_of_cons; [|by apply Hall; [lia|]]. exists e'. split; [|done].
    assert (e' ∈ evs s1) as He1 by (rewrite El; apply list_elem_of_fmap; exists event; by rewrite N.eqb_refl).
    apply list_elem_of_lookup in He1 as [i Hi]. destruct (Forall2_lookup_l _ _ _ _ _ HF2 Hi) as (e2 & Hi2 & [->|(Hc & _)]).
    + by eapply list_elem_of_lookup_2.
    + destruct Hni. rewrite <- (event_step_id _ _ _ Hs). by apply list_elem_of_fmap_2.
Qed.

Definition due_in (status : string) (t : Z) (e : NotificationEvent) : bool :=
  String.eqb (ne_Status e) status && null_or_before (ne_NextAttemptAt e) t.
Definition due_events (t : Z) (status : string) (limit : Z) : NotificationEventFilter :=
  {| nf_Status := status; nf_EventType := ""; nf_DueBefore := Some t; nf_Limit := limit |}.

Lemma due_in_filter t status limit e : status <> "" -> event_filter (due_events t status limit) e = due_in status t e.
Proof. intros Hs%String.eqb_neq. unfold event_filter, due_in. cbn. by rewrite Hs, andb_true_r. Qed.
Lemma due_split t e : due t e = due_in NotificationStatusPending t e || due_in NotificationStatusRetryPending t e.
Proof. unfold due, due_in, open. by rewrite andb_orb_distrib_l. Qed.
Lemma due_lengths t l : length (sel (due t) l) =
  length (sel (due_in NotificationStatusPending t) l) + length (sel (due_in NotificationStatusRetryPending t) l).
Proof.
  unfold sel. induction l as [|e l IH]; [done|]. cbn. rewrite due_split.
  destruct (due_in NotificationStatusPending t e) eqn:E1, (due_in NotificationStatusRetryPending t e) eqn:E2; cbn;
    rewrite ?IH; try lia.
  unfold due_in in *. apply andb_true_iff in E1 as [E1%String.eqb_eq _]. rewrite E1 in E2. done.
Qed.

Lemma event_ids_nodup l : no_conflicts TNotification l = true -> NoDup (map ne_ID l).
Proof.
  induction l as [|n l IH]; intros Hl; [constructor|]. cbn in Hl. apply andb_true_iff in Hl as [Hn Hl].
  constructor; [|by apply IH]. intros (x & E & Hx)%list_elem_of_fmap. rewrite forallb_forall in Hn.
  apply list_elem_of_In, Hn in Hx. by rewrite E, N.eqb_refl in Hx.
Qed.

(** The events a status loop starts from. *)
Definition listed status t limit s (l : list NotificationEvent) : Prop :=
  (forall e, e ∈ l -> e ∈ evs s /\ due_in status t e = true) /\ NoDup (map ne_ID l) /\
  ((0 < limit <= 200)%Z -> (Z.of_nat (length (sel (due_in status t) (evs s))) <= limit)%Z ->
     length l = length (sel (due_in status t) (evs s)) /\ forall e, e ∈ evs s -> due_in status t e = true -> e ∈ l).

Lemma wp_list_due status t limit (Q : result GoErr (list NotificationEvent) -> Outbox -> Prop) s :
  sane s -> status <> "" ->
  (forall e s', quiet_step s s' -> db_error e -> Q (Err e) s') ->
  (forall l s', quiet_step s s' -> listed status t limit s l -> Q (Ok l) s') ->
  wp (here (NotificationRepository_ListEvents (due_events t status limit))) Q s.
Proof.
  intros Hv Hst He Hk. apply wp_here, (wp_select TNotification).
  - intros e w Hs Hd. apply He; [by apply same_frames|done].
  - intros all w Hs Hp _.
    assert (all ≡ₚ sel (due_in status t) (evs s)) as Hp'.
    { rewrite Hp. apply reflexive_eq, sel_ext. intros e _. by apply due_in_filter. }
    clear Hp. cbn [limited nf_Limit due_events]. apply Hk; [by apply same_frames|]. split_and!.
    + intros e Hin%(limited_subset (Some _)). rewrite Hp' in Hin. by apply elem_of_sel in Hin.
    + eapply sublist_NoDup; [|apply (fmap_sublist ne_ID), sublist_take]. change (NoDup (map ne_ID all)).
      rewrite Hp'. apply event_ids_nodup, no_conflicts_sel, Hv.
    + intros Hl Hc. unfold event_limit. rewrite (proj2 (Z.leb_gt limit 0)), (proj2 (Z.ltb_ge 200 limit)) by lia. cbn.
      rewrite take_ge by (rewrite Hp'; lia). rewrite Hp' at 1. split; [done|]. intros e Hin Hd. rewrite Hp'. by apply elem_of_sel.
Qed.

Lemma due_in_open status t e : status = NotificationStatusPending \/ status = NotificationStatusRetryPending ->
  due_in status t e = true -> open e = true.
Proof. intros Hs [E%String.eqb_eq _]%andb_true_iff. unfold open. rewrite E. by destruct Hs as [-> | ->]. Qed.

(** One status loop. *)
Definition never (_ : N) : Prop := False.
Definition stage status t limit processed joined s (k : Z) (j : option GoErr) s' : Prop :=
  sane s' /\ frames [TNotification] (o_world s) (o_world s') /\ evolves never s s' /\
  (only_deliveries j = true -> only_deliveries joined = true /\
     (clock_from t s -> (limit <= 200)%Z -> (0 <= processed)%Z ->
      (processed + Z.of_nat (length (sel (due_in status t) (evs s))) <= limit)%Z ->
      k = (processed + Z.of_nat (length (sel (due_in status t) (evs s))))%Z /\
      (forall e, e ∈ evs s -> due_in status t e = true -> exists e', e' ∈ evs s' /\ event_step false e e') /\
      (forall e, e ∈ evs s -> due_in status t e = false -> e ∈ evs s') /\
      length (sel (due_in NotificationStatusRetryPending t) (evs s')) <=
      length (sel (due_in NotificationStatusRetryPending t) (evs s)))).

Lemma due_in_due status t e : status = NotificationStatusPending \/ status = NotificationStatusRetryPending ->
  due_in status t e = true -> due t e = true.
Proof. intros Hs Hd. unfold due. rewrite (due_in_open status t e Hs Hd). unfold due_in in Hd. by apply andb_true_iff in Hd as [_ ->]. Qed.

Lemma moved_due_length events s t l l' p : clock_from t s ->
  (forall e, p e = true -> due t e = true) ->
  Forall2 (moved false events s) l l' -> length (sel p l') <= length (sel p l).
Proof.
  intros Ht Hp HF. unfold sel. induction HF as [|e e' l l' Hm HF IH]; [done|]. cbn.
  destruct Hm as [->|(_ & _ & Hd)]; [destruct (p e); cbn; lia|].
  destruct (p e') eqn:E; [apply Hp in E; by rewrite Hd in E|]. destruct (p e); cbn; lia.
Qed.

Lemma wp_stage status t limit processed joined rest s (Q : result GoErr (Z * option GoErr) -> Outbox -> Prop) :
  sane s -> status = NotificationStatusPending \/ status = NotificationStatusRetryPending ->
  (forall k j s', stage status t limit processed joined s k j s' -> (only_deliveries j = false \/ (limit <= k)%Z) ->
     Q (Ok (k, j)) s') ->
  (forall k j s', stage status t limit processed joined s k j s' ->
     wp (process_statuses webhookSender limit t rest k j) Q s') ->
  wp (process_statuses webhookSender limit t (status :: rest) processed joined) Q s.
Proof.
  intros Hv Hst Hstop Hgo. cbn [process_statuses]. destruct (Z.leb_spec limit processed) as [Hle|Hlt].
  { apply wp_ret, Hstop; [|by right]. split; [done|]. split; [apply frames_refl|]. split; [by apply evolves_eq|].
    intros Hj. split; [done|]. intros _ _ H0p Hc. assert (length (sel (due_in status t) (evs s)) = 0) as E by lia.
    rewrite E. rewrite sel_nil in E. split_and!; [lia| |done|done]. intros e He Hd. by rewrite E in Hd. }
  apply wp_bind_or, wp_list_due; [done|by destruct Hst as [-> | ->]|..].
  { intros e s' Hq He. apply wp_ret, Hstop; [|left; apply dispatch_error_other; by left].
    split; [by apply Hq|]. split; [eapply frames_mono; [exact Hq|set_solver]|].
    split; [by apply evolves_eq, quiet_evs|]. intros Hj. cbn in Hj. rewrite dispatch_error_other in Hj by by left. done. }
  intros l s1 Hq (Hin & Hnd & Hall). pose proof (quiet_evs _ _ Hq) as E1. apply wp_bind, wp_process_events.
  - by apply Hq.
  - intros e He. rewrite E1. destruct (Hin e He) as [? Hd]. split; [done|by eapply due_in_open].
  - done.
  - intros k j s2 Hv2 Hf2 HF Hk Hj. rewrite E1 in HF. cbn [fst snd]. apply Hgo. split; [done|].
    split; [eapply frames_trans; [eapply frames_mono; [exact Hq|set_solver]|done]|].
    split; [by eapply (evolves_forall2 _ false l s s1)|].
    intros Hjo. destruct (Hj Hjo) as [Hjo1 Hm]. split; [done|]. intros Ht Hl H0p Hc.
    destruct (Hall ltac:(lia) ltac:(lia)) as [Hlen Hcov]. rewrite <- Hlen in Hc |- *.
    assert (clock_from t s1) as Ht1 by (by eapply clock_later).
    split_and!; [by apply Hk| | |].
    + intros e He Hd. apply Hm; [done|by apply Hcov].
    + intros e He Hd. apply list_elem_of_lookup in He as [i Hi].
      destruct (Forall2_lookup_l _ _ _ _ _ HF Hi) as (e' & Hi' & [->|(Hin' & _)]); [by eapply list_elem_of_lookup_2|].
      destruct (Hin e Hin'). congruence.
    + eapply moved_due_length; [exact Ht1| |exact HF]. intros e. apply due_in_due. by right.
Qed.

(** ** A round of the worker *)
Definition effective (limit : Z) : Z := if Z.leb limit 0 then 20%Z else limit.
Definition round_post limit s (res : result GoErr (Z * option GoErr)) s' : Prop :=
  sane s' /\ frames [TNotification] (o_world s) (o_world s') /\ evolves never s s' /\
  match res with
  | Ok (k, j) =>
      let now := the_time (o_world s) in
      only_deliveries j = true -> clock_from now s -> (effective limit <= 200)%Z ->
      (Z.of_nat (length (sel (due now) (evs s))) <= effective limit)%Z ->
      forall e, e ∈ evs s -> due now e = true ->
      exists e1 e', e' ∈ evs s' /\ event_step false e e1 /\ rtc (event_step false) e1 e'
  | Err _ => False
  end.

Lemma never_auto e e' : rtc (step_for never) e e' -> rtc (event_step false) e e'.
Proof. intros Hr. apply (steps_auto never); [exact Hr|by intros []]. Qed.
Lemma evolves_forward s s' e : evolves never s s' -> e ∈ evs s -> exists e', e' ∈ evs s' /\ rtc (event_step false) e e'.
Proof. intros [Hf _] He. destruct (Hf e He) as (e' & He' & Hr). exists e'. split; [done|by apply never_auto]. Qed.

Lemma wp_round limit s : sane s -> wp (ProcessDueEvents webhookSender limit) (round_post limit s) s.
Proof.
  intros Hv. unfold ProcessDueEvents. fold (effective limit). apply wp_bind, wp_here, wp_time_now.
  set (now := the_time _). set (s0 := { s with o_world := _ }).
  assert (frames [TNotification] (o_world s) (o_world s0)) as Htick by apply tick_frames.
  assert (forall s', frames [TNotification] (o_world s0) (o_world s') -> evolves never s0 s' ->
            frames [TNotification] (o_world s) (o_world s') /\ evolves never s s') as Hback.
  { intros s' Hf He. split; [by eapply frames_trans|]. exact He. }
  apply wp_stage; [done|by left|..].
  - intros k j s1 (Hv1 & Hf1 & He1 & Hst) Hstop. destruct (Hback s1 Hf1 He1) as [Hf He]. split_and!; [done..|].
    cbn zeta. fold now. intros Hj Ht Hl Hc e Hin Hd. rewrite due_lengths in Hc.
    destruct (Hst Hj) as [_ Hst']. destruct (Hst' (clock_later _ s s0 _ Htick Ht) Hl ltac:(lia)) as (Hk & Hm & _);
      change (evs s0) with (evs s) in *; [lia|].
    destruct Hstop as [?|Hstop]; [congruence|].
    assert (length (sel (due_in NotificationStatusRetryPending now) (evs s)) = 0) as Hz by lia.
    rewrite sel_nil in Hz. rewrite due_split, (Hz e Hin), orb_false_r in Hd.
    destruct (Hm e Hin Hd) as (e' & He' & Hs). exists e', e'. split_and!; [done..|apply rtc_refl].
  - intros k1 j1 s1 (Hv1 & Hf1 & He1 & Hst1). destruct (Hback s1 Hf1 He1) as [Hf He].
    assert (forall k j s2, stage NotificationStatusRetryPending now (effective limit) k1 j1 s1 k j s2 ->
              round_post limit s (Ok (k, j)) s2) as Hend.
    { intros k j s2 (Hv2 & Hf2 & He2 & Hst2). split_and!; [done|by eapply frames_trans|by eapply evolves_trans|].
      cbn zeta. fold now. intros Hj Ht Hl Hc e Hin Hd. rewrite due_lengths in Hc. destruct (Hst2 Hj) as [Hj1 Hst2'].
      destruct (Hst1 Hj1) as [_ Hst1']. pose proof (clock_later _ s s0 _ Htick Ht) as Ht0.
      destruct (Hst1' Ht0 Hl ltac:(lia)) as (Hk1 & Hm1 & Hkeep & Hlen);
        change (evs s0) with (evs s) in *; [lia|].
      destruct (Hst2' (clock_later _ s0 s1 _ Hf1 Ht0) Hl ltac:(lia)) as (_ & Hm2 & _); [lia|].
      rewrite due_split in Hd. apply orb_true_iff in Hd as [Hd|Hd].
      - destruct (Hm1 e Hin Hd) as (e1 & He1' & Hs). destruct (evolves_forward s1 s2 e1 He2 He1') as (e2 & He2' & Hr).
        by exists e1, e2.
      - assert (due_in NotificationStatusPending now e = false) as Hnp.
        { unfold due_in in *. by apply andb_true_iff in Hd as [->%String.eqb_eq _]. }
        destruct (Hm2 e (Hkeep e Hin Hnp) Hd) as (e' & He' & Hs). exists e', e'. split_and!; [done..|apply rtc_refl]. }
    apply wp_stage; [done|by right|..]; [intros k j s2 Hst _; by apply Hend|].
    intros k j s2 Hst. by apply wp_ret, Hend.
Qed.

(** ** Operations that leave the events *)
Definition keeps {A} (m : M GoErr Outbox A) : Prop :=
  forall s, wp m (fun _ s' => frames [TChannel] (o_world s) (o_world s')) s.
Lemma keeps_here {A} (m : M GoErr World A) : within [TChannel] m -> keeps (here m).
Proof. intros Hm s. apply wp_here. exact (Hm (o_world s)). Qed.
Lemma keeps_result {A} (r : result GoErr A) : keeps (lift_result r).
Proof. intros s. apply wp_lift_result, frames_refl. Qed.
Lemma keeps_bind {A B} (m : M GoErr Outbox A) (k : A -> M GoErr Outbox B) :
  keeps m -> (forall a, keeps (k a)) -> keeps (bind m k).
Proof.
  intros Hm Hk s. apply wp_bind. eapply wp_mono; [apply Hm|]. intros [a|e] s' Hf; [|done].
  eapply wp_mono; [apply Hk|]. intros r s'' Hf'. by eapply frames_trans.
Qed.
Lemma keeps_send d : keeps (send d).
Proof. intros s. apply frames_refl. Qed.
Lemma keeps_ret {A} (a : A) : keeps (ret a).
Proof. intros s. apply wp_ret, frames_refl. Qed.
Lemma keeps_throw {A} e : keeps (throw e : M GoErr Outbox A).
Proof. intros s. apply wp_throw, frames_refl. Qed.
Ltac keeps_tac := repeat first
  [ apply keeps_result | apply keeps_send | apply keeps_ret | apply keeps_throw
  | apply keeps_here; solve [frame_tac] | apply keeps_bind; [|intros ?]
  | match goal with |- keeps (if ?b then _ else _) => destruct b | |- keeps (match ?x with _ => _ end) => destruct x end ].

Lemma ListChannels_keeps ctx : keeps (NotificationService_ListChannels ctx).
Proof. unfold NotificationService_ListChannels, NotificationRepository_ListChannels. keeps_tac. Qed.
Lemma CreateChannel_keeps ctx req : keeps (NotificationService_CreateChannel ctx req).
Proof. unfold NotificationService_CreateChannel, NotificationRepository_CreateChannel. keeps_tac. Qed.
Lemma UpdateChannel_keeps ctx id req : keeps (NotificationService_UpdateChannel ctx id req).
Proof.
  unfold NotificationService_UpdateChannel, NotificationRepository_FindChannelByID, NotificationRepository_UpdateChannel.
  keeps_tac.
Qed.
Lemma DeleteChannel_keeps ctx id : keeps (NotificationService_DeleteChannel ctx id).
Proof. unfold NotificationService_DeleteChannel, NotificationRepository_DeleteChannel. keeps_tac. Qed.
Lemma TestChannel_keeps ctx id : keeps (NotificationService_TestChannel webhookSender ctx id).
Proof. unfold NotificationService_TestChannel, NotificationRepository_FindChannelByID. keeps_tac. Qed.
Lemma ListEvents_keeps ctx f : keeps (NotificationService_ListEvents ctx f).
Proof. unfold NotificationService_ListEvents, NotificationRepository_ListEvents. keeps_tac. Qed.

Inductive notify_op : Type :=
| OpListChannels (ctx : Ctx)
| OpCreateChannel (ctx : Ctx) (req : NotificationChannelUpsertRequest)
| OpUpdateChannel (ctx : Ctx) (id : N) (req : NotificationChannelUpsertRequest)
| OpDeleteChannel (ctx : Ctx) (id : N)
| OpTestChannel (ctx : Ctx) (id : N)
| OpListEvents (ctx : Ctx) (filter : NotificationEventFilter)
| OpRetry (ctx : Ctx) (id : N)
| OpNotify (input : NotificationEventInput)
| OpProcess (limit : Z).

Definition run_notify_op s (op : notify_op) : Outbox :=
  match op with
  | OpListChannels ctx => snd (NotificationService_ListChannels ctx s)
  | OpCreateChannel ctx req => snd (NotificationService_CreateChannel ctx req s)
  | OpUpdateChannel ctx id req => snd (NotificationService_UpdateChannel ctx id req s)
  | OpDeleteChannel ctx id => snd (NotificationService_DeleteChannel ctx id s)
  | OpTestChannel ctx id => snd (NotificationService_TestChannel webhookSender ctx id s)
  | OpListEvents ctx filter => snd (NotificationService_ListEvents ctx filter s)
  | OpRetry ctx id => snd (NotificationService_RetryEvent webhookSender ctx id s)
  | OpNotify input => snd (Notify webhookSender input s)
  | OpProcess limit => snd (ProcessDueEvents webhookSender limit s)
  end.
Definition retries (op : notify_op) (id : N) : Prop := match op with OpRetry _ i => i = id | _ => False end.

Lemma retry_advances ctx id s : sane s ->
  wp (NotificationService_RetryEvent webhookSender ctx id) (fun _ s' => advances_events (eq id) s s') s.
Proof.
  intros Hv. unfold NotificationService_RetryEvent. apply wp_bind, wp_lift_result.
  destruct (currentNotificationAuth ctx); [|by apply advances_refl].
  apply wp_bind, wp_here, (wp_first TNotification);
    [intros e w Hs _; by apply quiet_advances, same_frames|intros w Hs _; by apply quiet_advances, same_frames|].
  intros event w Hs Hin Hid%N.eqb_eq _. set (s1 := { s with o_world := w }).
  assert (quiet_step s s1) as Hq by (by apply same_frames).
  destruct (String.eqb _ _ || _) eqn:Hfin; [by apply wp_throw, quiet_advances|].
  apply wp_bind. eapply wp_mono; [apply (dispatch_advances (eq id) event true s1)|].
  - by apply Hq.
  - by rewrite (quiet_evs _ _ Hq).
  - done.
  - by intros _.
  - intros [r|e] s2 [Ha Hok]; [|done].
    assert (advances_events (eq id) s s2) as Hall by (eapply advances_events_trans; [by apply quiet_advances|done]).
    destruct (snd r); [by apply wp_throw|by apply wp_ret].
Qed.

Lemma notify_advances input s : sane s -> wp (Notify webhookSender input) (fun _ s' => advances_events never s s') s.
Proof.
  intros Hv. unfold Notify. destruct (negb (supported _)); [by apply wp_throw, advances_refl|].
  apply wp_bind, wp_here, wp_time_now. set (s1 := { s with o_world := _ }).
  assert (quiet_step s s1) as Hq by apply tick_frames. cbn zeta.
  destruct (String.eqb _ "" || _); [by apply wp_throw, quiet_advances|].
  apply wp_bind, wp_here, (wp_insert TNotification).
  { intros e w Hs _. apply quiet_advances. by eapply frames_same. }
  intros id now w event Hid Ha Hp. set (s2 := { s1 with o_world := w }).
  assert (fresh event) as Hf by done.
  assert (advances_events never s s2) as Hadv.
  { intros _. split; [eapply put_valid; [exact Hp| |by apply Hq]; apply absent_no_conflicts; [by apply Hq|done]|].
    assert (evs s2 = evs s ++ [event]) as E by apply Hp. split; rewrite E; intros e He.
    - exists e. split; [set_solver|done].
    - exists e. split; [|done]. apply elem_of_app in He as [He|He%list_elem_of_singleton]; [by left|right; by rewrite He]. }
  apply wp_bind. eapply wp_mono; [apply (dispatch_advances never event false s2)|].
  - by apply Hadv.
  - unfold evs. cbn. rewrite (proj1 Hp). set_solver.
  - done.
  - done.
  - intros [r|e] s3 [Ha3 Hok]; [|done]. apply wp_ret. by eapply advances_events_trans.
Qed.

Lemma never_sub R s s' : advances_events never s s' -> advances_events R s s'.
Proof.
  intros Ha Hv. destruct (Ha Hv) as [Hv' [Hf Hb]]. split; [done|]. split.
  - intros e He. destruct (Hf e He) as (e' & He' & Hr). exists e'. split; [done|]. by eapply step_for_mono; [|exact Hr].
  - intros e He. destruct (Hb e He) as (e' & He' & Hr). exists e'. split; [done|]. by eapply step_for_mono; [|exact Hr].
Qed.

Lemma run_notify_advances s op : sane s -> advances_events (retries op) s (run_notify_op s op).
Proof.
  intros Hv. assert (forall A (m : M GoErr Outbox A), keeps m -> advances_events (retries op) s (snd (m s))) as Hk.
  { intros A m Hm. apply channel_advances. exact (Hm s). }
  destruct op; cbn [run_notify_op].
  - apply Hk, ListChannels_keeps.
  - apply Hk, CreateChannel_keeps.
  - apply Hk, UpdateChannel_keeps.
  - apply Hk, DeleteChannel_keeps.
  - apply Hk, TestChannel_keeps.
  - apply Hk, ListEvents_keeps.
  - intros _. destruct (retry_advances ctx id s Hv Hv) as [Hv' [Hf Hb]]. split; [done|].
    split; intros e He; [destruct (Hf e He) as (e' & He' & Hr)|destruct (Hb e He) as (e' & He' & Hr)]; exists e';
      (split; [done|]); by eapply step_for_mono; [|exact Hr].
  - apply never_sub. exact (notify_advances input s Hv).
  - apply never_sub. intros _. pose proof (wp_round limit s Hv) as (Hv' & _ & He & _). by split.
Qed.

Definition retried (ops : list notify_op) (id : N) : Prop := Exists (fun op => retries op id) ops.
Lemma run_history ops s : sane s -> advances_events (retried ops) s (fold_left run_notify_op ops s).
Proof.
  revert s. induction ops as [|op ops IH]; intros s Hv; [by apply advances_refl|]. cbn.
  destruct (run_notify_advances s op Hv Hv) as [Hv1 E1]. destruct (IH _ Hv1 Hv1) as [Hv2 E2]. intros _. split; [done|].
  assert (forall P Q s s', (forall i, P i -> Q i) -> evolves P s s' -> evolves Q s s') as Hm.
  { intros P Q x y HPQ [Hf Hb]. split; intros e He; [destruct (Hf e He) as (e' & ? & Hr)|destruct (Hb e He) as (e' & ? & Hr)];
      exists e'; (split; [done|]); by eapply step_for_mono; [|exact Hr]. }
  eapply evolves_trans; (eapply Hm; [|eassumption]); intros i Hi; [by left|by right].
Qed.

(** C32: whatever operations run, in whatever order and failing or not, the
    status of every notification event agrees with its times and its last
    error; an event that was delivered or skipped never changes again; and
    one that nobody retries by hand stays failed once it is, and is never
    attempted more often than its bound. *)
Theorem notification_history ops s (Hsane : sane s) (Hcons : forall e, e ∈ evs s -> consistent e) :
  let s' := fold_left run_notify_op ops s in
  sane s' /\ (forall e', e' ∈ evs s' -> consistent e') /\
  (forall e, e ∈ evs s -> exists e', e' ∈ evs s' /\ ne_ID e' = ne_ID e /\
     (final e = true -> e' = e) /\
     (~ retried ops (ne_ID e) -> ne_Status e = NotificationStatusFailed -> e' = e) /\
     (~ retried ops (ne_ID e) -> bounded e -> (ne_Attempts e' <= ne_MaxAttempts e)%Z)) /\
  (forall e', e' ∈ evs s' -> ~ retried ops (ne_ID e') ->
     (exists e, e ∈ evs s /\ ne_ID e = ne_ID e') \/ (ne_Attempts e' <= defaultNotificationMaxAttempts)%Z).
Proof.
  cbn zeta. destruct (run_history ops s Hsane Hsane) as [Hv [Hf Hb]]. split_and!; [done|..].
  - intros e' He'. destruct (Hb e' He') as (e & [He|He] & Hr); eapply steps_consistent; eauto using fresh_consistent.
  - intros e He. destruct (Hf e He) as (e' & He' & Hr). exists e'. split_and!; [done|by eapply steps_id|by eapply steps_final|..].
    + intros Hn Es. apply auto_closed; [by eapply steps_auto|]. unfold open. by rewrite Es.
    + intros Hn Hbd. destruct (auto_bounded e e') as [[Hb' _] Em]; [by eapply steps_auto|done|]. rewrite <- Em. apply Hb'.
  - intros e' He' Hn. destruct (Hb e' He') as (e & Ho & Hr). pose proof (steps_id _ _ _ Hr) as Ei.
    destruct Ho as [Ho|Ho]; [left; by exists e|right]. rewrite Ei in Hn.
    destruct (auto_bounded e e') as [[Hb' _] Em]; [by eapply steps_auto|by apply fresh_bounded|].
    destruct Ho as (_ & _ & Emax & _). rewrite <- Emax, <- Em. apply Hb'.
Qed.

(** Between two rounds time passes and other operations run, but no retry of
    the event by hand. *)
Definition meanwhile (id : N) s s' : Prop :=
  exists ops, ~ retried ops id /\ quiet_step (fold_left run_notify_op ops s) s'.
Lemma meanwhile_forward id s s' : meanwhile id s s' -> sane s ->
  sane s' /\ forall e, e ∈ evs s -> ne_ID e = id -> exists e', e' ∈ evs s' /\ rtc (event_step false) e e'.
Proof.
  intros (ops & Hn & Hq) Hv. destruct (run_history ops s Hv Hv) as [Hv1 [Hf _]]. split; [by apply Hq|].
  intros e He Ei. destruct (Hf e He) as (e' & He' & Hr). exists e'. rewrite (quiet_evs _ _ Hq). split; [done|].
  eapply steps_auto; [exact Hr|by rewrite Ei].
Qed.

(** Rounds of the worker in which an event was due whenever it was open,
    the due events fitted in the limit, and the database did not fail. *)
Inductive rounds (limit : Z) (id : N) : nat -> Outbox -> Outbox -> Prop :=
| rounds_none s : rounds limit id 0 s s
| rounds_more n s s1 s2 s3 k j :
    ProcessDueEvents webhookSender limit s = (Ok (k, j), s1) -> only_deliveries j = true ->
    clock_from (the_time (o_world s)) s ->
    (Z.of_nat (length (sel (due (the_time (o_world s))) (evs s))) <= effective limit)%Z ->
    (forall e, e ∈ evs s -> ne_ID e = id -> open e = true -> due (the_time (o_world s)) e = true) ->
    meanwhile id s1 s2 -> rounds limit id n s2 s3 -> rounds limit id (S n) s s3.

Lemma auto_id e e' : rtc (event_step false) e e' -> ne_ID e' = ne_ID e.
Proof. intros Hs. apply (steps_id never). eapply rtc_subrel; [|exact Hs]. by left. Qed.
Lemma rounds_forward limit id n s s' e : rounds limit id n s s' -> sane s -> e ∈ evs s -> ne_ID e = id ->
  exists e', e' ∈ evs s' /\ rtc (event_step false) e e'.
Proof.
  intros Hr. revert e. induction Hr as [s|n s s1 s2 s3 k j Hrun _ _ _ _ Hm Hr IH]; intros e Hv Hin Ei; [by exists e|].
  pose proof (wp_run _ _ _ _ _ (wp_round limit s Hv) Hrun) as (Hv1 & _ & He1 & _).
  destruct (evolves_forward _ _ e He1 Hin) as (e1 & Hin1 & Hs1).
  destruct (meanwhile_forward _ _ _ Hm Hv1) as [Hv2 Hf]. destruct (Hf e1 Hin1) as (e2 & Hin2 & Hs2); [by rewrite (auto_id _ _ Hs1)|].
  destruct (IH e2 Hv2 Hin2) as (e' & He' & Hs'); [by rewrite (auto_id _ _ Hs2), (auto_id _ _ Hs1)|].
  exists e'. split; [done|]. etrans; [exact Hs1|by etrans].
Qed.

(** C10: the retry worker settles an event whose turn comes: an event that
    was attempted no more often than its bound, and less often while it is
    open, is delivered, skipped or failed after as many rounds as it has
    attempts left, and still not attempted more often than its bound.  In
    each of these rounds the database does not fail, the clock does not go
    back behind the time the round began at, the events that are due are no
    more than the limit of the round (which is at most 200), and the event is
    due if it is still open; between them any operations run, failing or not,
    but no one retries the event by hand.  Nothing is said of an event that
    newer ones keep out of the limit. *)
Theorem event_settles limit n e s s' (Hsane : sane s) (Hin : e ∈ evs s) (Hbounded : bounded e)
    (Hlimit : (effective limit <= 200)%Z) (Hrounds : rounds limit (ne_ID e) n s s')
    (Hleft : (ne_MaxAttempts e - ne_Attempts e <= Z.of_nat n)%Z) :
  exists e', e' ∈ evs s' /\ rtc (event_step false) e e' /\ open e' = false /\
    (ne_Attempts e' <= ne_MaxAttempts e)%Z.
Proof.
  remember (ne_ID e) as id eqn:Eid.
  induction Hrounds as [s|n s s1 s2 s3 k j Hrun Hj Ht Hc Hdue Hm Hr IH] in e, Eid, Hsane, Hin, Hbounded, Hleft |- *.
  { exists e. split_and!; [done|apply rtc_refl| |apply Hbounded]. destruct Hbounded as (Hb & _ & Ho).
    destruct (open e); [specialize (Ho eq_refl); lia|done]. }
  pose proof (wp_run _ _ _ _ _ (wp_round limit s Hsane) Hrun) as (Hv1 & _ & He1 & Hlive). cbn zeta in Hlive.
  assert (exists e2, e2 ∈ evs s1 /\ rtc (event_step false) e e2 /\
            (open e2 = true -> (ne_Attempts e + 1 <= ne_Attempts e2)%Z)) as (e2 & Hin2 & Hs2 & Hmore).
  { destruct (open e) eqn:Ho.
    - destruct (Hlive Hj Ht Hlimit Hc e Hin (Hdue e Hin (eq_sym Eid) Ho)) as (e1 & e2 & Hin2 & Hs1 & Hs2).
      exists e2. split_and!; [done|by eapply rtc_l|]. intros Ho2. destruct (step_bounded _ _ Hs1 Hbounded) as (Hb1 & _ & Ha).
      destruct (open e1) eqn:Ho1; [|apply auto_closed in Hs2; [congruence|done]].
      rewrite <- Ha by done. by apply auto_progress.
    - destruct (evolves_forward _ _ e He1 Hin) as (e2 & Hin2 & Hs2). exists e2. split_and!; [done..|].
      apply auto_closed in Hs2 as ->; [congruence|done]. }
  destruct (auto_bounded _ _ Hs2 Hbounded) as [Hb2 Em].
  assert (ne_ID e2 = id) as Eid2 by (rewrite Eid; by apply auto_id).
  destruct (open e2) eqn:Ho2.
  - destruct (meanwhile_forward _ _ _ Hm Hv1) as [Hv2 Hf]. destruct (Hf e2 Hin2 Eid2) as (e3 & Hin3 & Hs3).
    destruct (auto_bounded _ _ Hs3 Hb2) as [Hb3 Em3].
    assert (open e3 = true -> (ne_Attempts e2 <= ne_Attempts e3)%Z) as Hgrow by (intros Ho3; by apply auto_progress).
    assert (ne_ID e3 = id) as Eid3 by (rewrite (auto_id _ _ Hs3); done).
    destruct (open e3) eqn:Ho3.
    + destruct (IH e3) as (e' & He' & Hs' & Ho' & Ha'); [done|done|done|done|specialize (Hmore eq_refl); specialize (Hgrow eq_refl); lia|].
      exists e'. split_and!; [done| |done|lia]. etrans; [exact Hs2|by etrans].
    + destruct (rounds_forward limit id n s2 s3 e3 Hr Hv2 Hin3 Eid3) as (e' & He' & Hs').
      apply auto_closed in Hs' as ->; [|done]. exists e3. split_and!; [done|by etrans|done|]. rewrite <- Em, <- Em3. apply Hb3.
  - destruct (meanwhile_forward _ _ _ Hm Hv1) as [Hv2 Hf]. destruct (Hf e2 Hin2 Eid2) as (e3 & Hin3 & Hs3).
    apply auto_closed in Hs3 as ->; [|done].
    destruct (rounds_forward limit id n s2 s3 e2 Hr Hv2 Hin3 Eid2) as (e' & He' & Hs').
    apply auto_closed in Hs' as ->; [|done]. exists e2. split_and!; [done..|]. rewrite <- Em. apply Hb2.
Qed.

(** A dispatch looks at the enabled channels that want the event.  If
    there are none it skips the event; else it sends its payload exactly
    once to each of them that can be reached, counts one attempt, and
    stores the event as delivered if and only if every channel was reached
    and accepted.  If the database fails, the event stays as it was and the
    error is reported. *)
Theorem dispatch_effect event manual s :
  let r := dispatchEvent event manual s in
  exists x, fst r = Ok x /\
    (dispatch_lost s x (snd r) \/
     dispatched event manual s x (snd r) /\
     exists matched, matched ≡ₚ wanted s event /\ outcome s event manual matched x (snd r) /\
       (ne_Status (fst x) = NotificationStatusDelivered <->
        matched <> [] /\ accepted (o_sent s) matched (notificationWebhookPayloadFromEvent event))).
Proof.
  change (wp (dispatchEvent event manual) (fun res s' => exists x, res = Ok x /\
    (dispatch_lost s x s' \/ dispatched event manual s x s' /\
     exists matched, matched ≡ₚ wanted s event /\ outcome s event manual matched x s' /\
       (ne_Status (fst x) = NotificationStatusDelivered <->
        matched <> [] /\ accepted (o_sent s) matched (notificationWebhookPayloadFromEvent event)))) s).
  apply wp_dispatch; intros x s' Hx; exists x; (split; [done|]); [by left|right].
  split; [done|]. destruct Hx as ((matched & Hm & n & Hn & Ho) & _). exists matched. split; [done|].
  split; [by exists n|]. destruct matched as [|c l]; [destruct Ho as [-> _]; split; naive_solver|].
  destruct Ho as (_ & joined & Hj & ->). rewrite <- Hj. unfold attempted. destruct joined; cbn; [|by split].
  split; [destruct (_ && _); done|by intros [_ ?]].
Qed.
End Dispatch.

(** ** A concrete queue *)
#[local] Existing Instances Mem.database Mem.laws.
Module NotifyExample.
#[export] Instance format : TimeFormat := fun z => pretty.pretty z.
#[export] Instance json : JsonDecoder := fun s => None.
#[export] Instance url : UrlParser := fun s => if has_prefix s "https://h" then Some ("https", "h") else None.
(** A receiver that refuses the first deliveries. *)
#[export] Instance receiver : NotificationWebhookSender := fun sent _ =>
  if Nat.ltb (length sent) 3 then Some "webhook status 503" else None.

Definition event (id : N) (status : string) (attempts : Z) : NotificationEvent :=
  {| ne_ID := id; ne_UserID := 1; ne_EventType := NotificationEventRSSSourceFailure; ne_Severity := "error";
     ne_Title := "t"; ne_Message := "m"; ne_PayloadJSON := "{}"; ne_Status := status; ne_Attempts := attempts;
     ne_MaxAttempts := 3; ne_LastAttemptAt := None; ne_NextAttemptAt := None; ne_DeliveredAt := None;
     ne_LastError := None; ne_CreatedAt := 1; ne_UpdatedAt := 1 |}.
Definition channel (id : N) (url : string) (types : list string) : NotificationChannel :=
  {| nc_ID := id; nc_Name := "c"; nc_Type := NotificationChannelTypeWebhook; nc_IsEnabled := true; nc_EventTypes := types;
     nc_Config := {| ncc_WebhookURL := url; ncc_Secret := "k" |}; nc_CreatedAt := 1; nc_UpdatedAt := 1 |}.
(** Eight hours pass between two readings. *)
Definition clk (n : nat) : Z := (Z.of_nat (S n) * 480 * minute)%Z.
Definition queue : Outbox := {|
  o_world := { (mem_world (Mem.set_rows TNotification [event 7 "pending" 0; event 8 "failed" 3]
    (Mem.set_rows TChannel [channel 1 "https://h/a" []; channel 2 "https://h/b" [NotificationEventRSSDownloadCompleted]]
       { Mem.init with Mem.m_serial := 8%N }))) with w_clock := clk };
  o_sent := [] |}.
Lemma queue_sane : sane queue.
Proof. by intros []. Qed.
Definition auth : Ctx := {| ctx_auth := Some {| ra_UserID := 1; ra_Username := "a"; ra_RoleKey := "admin";
  ra_Status := "active"; ra_Capabilities := [] |}; ctx_request := None |}.
Definition input : NotificationEventInput :=
  {| ni_UserID := 1; ni_EventType := NotificationEventRSSDownloadCompleted; ni_Severity := "loud"; ni_Title := " done ";
     ni_Message := "m"; ni_Payload := [] |}.
Definition summary (s : Outbox) : list (N * string * Z) := map (fun e => (ne_ID e, ne_Status e, ne_Attempts e)) (evs s).

Definition step (s : Outbox) : Outbox := snd (ProcessDueEvents true 20 s).
Lemma step_ok s : sane s -> w_clock (o_world s) = clk -> sane (step s) /\ w_clock (o_world (step s)) = clk.
Proof. intros Hv Hc. destruct (wp_round true 20 s Hv) as (Hv1 & (_ & _ & Ec & _) & _). split; [done|by rewrite <- Hc]. Qed.
Lemma round_ok id n s s' :
  w_clock (o_world s) = clk ->
  match fst (ProcessDueEvents true 20 s) with Ok (_, j) => only_deliveries j = true | Err _ => False end ->
  length (sel (due (the_time (o_world s))) (evs s)) <= 20 ->
  Forall (fun e => ne_ID e = id -> open e = true -> due (the_time (o_world s)) e = true) (evs s) ->
  rounds true 20 id n (step s) s' -> rounds true 20 id (S n) s s'.
Proof.
  intros Hc Hj Hl Hd Hr. destruct (ProcessDueEvents true 20 s) as [[[k j]|e] s1] eqn:E; [|done].
  eapply (rounds_more true 20 id n s s1 s1 s' k j); [done|done| |change (effective 20) with 20%Z; lia|by rewrite Forall_forall in Hd| |].
  - intros m Hm. unfold the_time. rewrite Hc. unfold clk, minute. lia.
  - exists []. split; [by intros ?%Exists_nil|apply frames_refl].
  - unfold step in Hr. by rewrite E in Hr.
Qed.
End NotifyExample.
Import NotifyExample.

Lemma notification_history_witness :
  let ops := [OpNotify input; OpProcess 0; OpRetry auth 8; OpProcess 0; OpRetry auth 7] in
  let s' := fold_left (run_notify_op true) ops queue in
  summary s' = [(7, "delivered", 2%Z); (8, "delivered", 4%Z); (9, "delivered", 2%Z)]%N /\
  sane s' /\ (forall e', e' ∈ evs s' -> consistent e').
Proof.
  intros ops s'. split; [vm_compute; reflexivity|].
  destruct (notification_history true ops queue queue_sane) as (Hs & Hc & _).
  - intros e [->|[->|He]%elem_of_cons]%elem_of_cons; [by split_and!..|by apply elem_of_nil in He].
  - by split.
Defined.

Lemma event_settles_witness :
  let s' := step (step (step queue)) in
  summary s' = [(7, "failed", 3%Z); (8, "failed", 3%Z)]%N /\
  exists e', e' ∈ evs s' /\ open e' = false.
Proof.
  intros s'. split; [vm_compute; reflexivity|].
  destruct (step_ok queue queue_sane eq_refl) as [Hv1 Hc1]. destruct (step_ok _ Hv1 Hc1) as [Hv2 Hc2].
  destruct (event_settles true 20 3 (event 7 "pending" 0) queue s') as (e' & He' & _ & Ho & _).
  - apply queue_sane.
  - by left.
  - by split_and!.
  - done.
  - apply round_ok; [done|vm_compute; reflexivity|by_decide|by_decide|].
    apply round_ok; [done|vm_compute; reflexivity|by_decide|by_decide|].
    apply round_ok; [done|vm_compute; reflexivity|by_decide|by_decide|]. apply rounds_none.
  - done.
  - exists e'. split; [exact He'|exact Ho].
Defined.

Lemma dispatch_effect_witness :
  let r := dispatchEvent true (event 7 "pending" 0) false queue in
  (exists x, fst r = Ok x) /\ length (o_sent (snd r)) = 1 /\ map (fun d => we_URL (fst d)) (o_sent (snd r)) = ["https://h/a"].
Proof.
  intros r. split; [|split; vm_compute; reflexivity].
  destruct (dispatch_effect true (event 7 "pending" 0) false queue) as (x & Hx & _). exists x. exact Hx.
Defined.
