(* ===== verification/Storage.v ===== *)
(** * Files on a storage source

    [domain/storage/driver.go] and the local part of
    [local_storage_helpers.go]: the entries drivers report, the local file
    system, the physical path of a file of a local source, and the items
    the services show.  Drivers of remote sources and the file system are
    parameters.

    [resolve_physical_confined]: a physical path never leaves the directory
    of its source. *)
From S2P Require Import Prelude Ints GoStrings Entities Paths Tables Db Auditing Repos Journal Acl AclService Users MetaTree.
From stdpp Require Import base list strings sets sorting.
From Stdlib Require Import ZArith Lia Ascii.

Local Open Scope string_scope.
Local Open Scope list_scope.
Local Open Scope go_scope.

(** ** Entries *)
Record StorageEntry := {
  se_Name : string; se_Path : string; se_IsDir : bool; se_Size : Z; se_ETag : string; se_Checksum : string;
  se_MimeType : string; se_ModifiedAt : Z; se_ProviderItemID : string; se_ProviderParentID : string;
  se_LocatorType : string; se_LocatorJSON : string
}.
(** [fs.FileInfo]. *)
Record FileInfo := { fsi_Name : string; fsi_IsDir : bool; fsi_Size : Z; fsi_ModTime : Z }.
Record StorageCapabilities := { sc_CanDownload : bool; sc_CanDelete : bool; sc_CanProviderTrash : bool }.

(** Errors of the file system and of drivers: those of package os, or
    another one that is passed on. *)
Inductive FileErr : Type := FileNotExist | FileExist | FileInvalid | FileErrOther (e : GoErr).
Definition file_error (e : FileErr) : GoErr :=
  match e with
  | FileNotExist => ErrText "file does not exist"
  | FileExist => ErrText "file already exists"
  | FileInvalid => ErrText "invalid argument"
  | FileErrOther e => e
  end.

Section Interfaces.
Context `{Database}.

(** [os.Stat], and [os.ReadDir] with the [Info] of its entries. *)
Class LocalFileSystem := {
  os_Stat : string -> M FileErr World FileInfo;
  os_ReadDir : string -> M FileErr World (list string);
  os_Info : string -> string -> M FileErr World FileInfo
}.
Class LocalFileSystemLaws `{LocalFileSystem} : Prop := {
  stat_law : forall p w, wp (os_Stat p) (fun _ w' => frames [] w w') w;
  read_dir_law : forall p w, wp (os_ReadDir p) (fun _ w' => frames [] w w') w;
  info_law : forall p n w, wp (os_Info p n) (fun _ w' => frames [] w w') w
}.

(** The drivers that are registered, by type. *)
Class FileDrivers := {
  drivers : string -> bool;
  drv_List : string -> StorageSource -> string -> M FileErr World (list StorageEntry);
  drv_Stat : string -> StorageSource -> string -> M FileErr World StorageEntry
}.
(** A driver may write back the configuration of its source. *)
Class FileDriversLaws `{FileDrivers} : Prop := {
  drv_list_law : forall t s p w, wp (drv_List t s p) (fun _ w' => frames [TSource] w w') w;
  drv_stat_law : forall t s p w, wp (drv_Stat t s p) (fun _ w' => frames [TSource] w w') w
}.
End Interfaces.

Section Helpers.
Context `{JD : JsonDecoder} `{TF : TimeFormat} `{MT : MimeTypes}.
(** [time.RFC3339Nano]. *)
Class TimeFormatNano := rfc3339nano : Z -> string.

(** ** Physical paths *)

(** [json.Unmarshal] into a struct with the one member [base_path]: member
    names match without regard to case, and the last one counts. *)
Fixpoint base_path_member (members : list (string * PayloadValue)) (path : string) : option string :=
  match members with
  | [] => Some path
  | (key, value) :: rest =>
      if negb (equal_fold key "base_path") then base_path_member rest path
      else match value with
           | PString s => base_path_member rest s
           | PScalar JNull => base_path_member rest path
           | _ => None
           end
  end.
Definition parseLocalSourceConfig (source : StorageSource) : result GoErr string :=
  match json_object (src_ConfigJSON source) with
  | None => Err (ErrText "json")
  | Some members =>
      match base_path_member members "" with
      | None => Err (ErrText "json")
      | Some path => if String.eqb path "" then Err ErrPathInvalid else Ok path
      end
  end.

(** The directory of the source, and the physical path below it.
    [filepath] is [path] on a Unix system. *)
Definition resolvePhysicalPath (source : StorageSource) (virtualPath : string) : result GoErr (string * string) :=
  match parseLocalSourceConfig source with
  | Err e => Err e
  | Ok basePath =>
      match normalizeVirtualPath (src_RootPath source) with
      | Err e => Err e
      | Ok normalizedRoot =>
          match normalizeVirtualPath virtualPath with
          | Err e => Err e
          | Ok normalizedPath =>
              let baseRoot := path_join (path_clean basePath) (trim_prefix normalizedRoot "/") in
              let target := path_join baseRoot (trim_prefix normalizedPath "/") in
              let cleanBase := path_clean baseRoot in
              let cleanTarget := path_clean target in
              if negb (has_prefix cleanTarget cleanBase) then Err ErrPathInvalid else Ok (cleanBase, cleanTarget)
          end
      end
  end.

(** ** Items *)
Definition mime_of (extension : string) : string :=
  let m := mime_type_by_extension extension in if String.eqb m "" then "application/octet-stream" else m.
Definition buildEtag `{TimeFormatNano} (info : FileInfo) : string := "mtime:" +:+ rfc3339nano (fsi_ModTime info).

Definition buildFileItem `{TimeFormatNano} (sourceID : N) (virtualPath : string) (entry : FileInfo) : FileItem :=
  let dir := fsi_IsDir entry in
  let extension := if dir then "" else to_lower (path_ext (fsi_Name entry)) in
  let mimeType := if dir then "inode/directory" else mime_of extension in
  {| fi_Name := fsi_Name entry; fi_Path := virtualPath; fi_ParentPath := shown_parent virtualPath;
     fi_SourceID := sourceID; fi_IsDir := dir; fi_Size := if dir then 0 else fsi_Size entry; fi_MimeType := mimeType;
     fi_Extension := extension; fi_Etag := if dir then "" else buildEtag entry;
     fi_ModifiedAt := rfc3339 (fsi_ModTime entry); fi_CreatedAt := rfc3339 (fsi_ModTime entry);
     fi_CanPreview := negb dir && canPreviewMIME mimeType; fi_CanDownload := negb dir; fi_CanDelete := true;
     fi_ThumbnailURL := None |}.

(** A zero modification time is shown as the start of 1970; both are 0
    here. *)
Definition buildStorageEntryItem (sourceID : N) (entry : StorageEntry) : FileItem :=
  let dir := se_IsDir entry in
  let extension := if dir then "" else to_lower (path_ext (se_Name entry)) in
  let given := trim_space (se_MimeType entry) in
  let mimeType := if dir then "inode/directory" else if String.eqb given "" then mime_of extension else given in
  {| fi_Name := se_Name entry; fi_Path := se_Path entry; fi_ParentPath := shown_parent (se_Path entry);
     fi_SourceID := sourceID; fi_IsDir := dir; fi_Size := if dir then 0 else se_Size entry; fi_MimeType := mimeType;
     fi_Extension := extension; fi_Etag := se_ETag entry; fi_ModifiedAt := rfc3339 (se_ModifiedAt entry);
     fi_CreatedAt := rfc3339 (se_ModifiedAt entry); fi_CanPreview := negb dir && canPreviewMIME mimeType;
     fi_CanDownload := negb dir; fi_CanDelete := true; fi_ThumbnailURL := None |}.

Definition applyFileItemCapabilities (item : FileItem) (capabilities : option StorageCapabilities) : FileItem :=
  match capabilities with
  | None => item
  | Some c => { item with fi_CanDownload ::= (fun b => b && sc_CanDownload c);
                fi_CanDelete ::= (fun b => b && sc_CanDelete c) }
  end.

Definition buildVFSItemFromFileItem (fileItem : FileItem) (isVirtual isMountPoint : bool) : VFSItem :=
  {| vi_ID := 0; vi_Name := fi_Name fileItem; vi_Path := fi_Path fileItem; vi_ParentPath := fi_ParentPath fileItem;
     vi_SourceID := Some (fi_SourceID fileItem);
     vi_EntryKind := if fi_IsDir fileItem then VirtualEntryKindDirectory else VirtualEntryKindFile;
     vi_IsVirtual := isVirtual; vi_IsMountPoint := isMountPoint; vi_SyncState := ""; vi_Size := fi_Size fileItem;
     vi_MimeType := fi_MimeType fileItem; vi_Extension := fi_Extension fileItem; vi_ModifiedAt := fi_ModifiedAt fileItem;
     vi_CreatedAt := fi_CreatedAt fileItem; vi_Etag := fi_Etag fileItem; vi_CanPreview := fi_CanPreview fileItem;
     vi_CanDownload := fi_CanDownload fileItem; vi_CanDelete := fi_CanDelete fileItem |}.
Definition buildVFSItemFromLocal `{TimeFormatNano} (sourceID : N) (virtualPath : string) (entry : FileInfo) : VFSItem :=
  buildVFSItemFromFileItem (buildFileItem sourceID virtualPath entry) false false.
Definition buildVFSItemFromStorageEntry (sourceID : N) (entry : StorageEntry) : VFSItem :=
  buildVFSItemFromFileItem (buildStorageEntryItem sourceID entry) false false.
Definition buildVirtualDirItem (pathValue : string) (isMountPoint : bool) : VFSItem :=
  {| vi_ID := 0; vi_Name := path_base pathValue; vi_Path := pathValue; vi_ParentPath := shown_parent pathValue;
     vi_SourceID := None; vi_EntryKind := VirtualEntryKindDirectory; vi_IsVirtual := true;
     vi_IsMountPoint := isMountPoint; vi_SyncState := ""; vi_Size := 0; vi_MimeType := "inode/directory";
     vi_Extension := ""; vi_ModifiedAt := ""; vi_CreatedAt := ""; vi_Etag := ""; vi_CanPreview := false;
     vi_CanDownload := false; vi_CanDelete := false |}.

(** ** Sorting; a descending order is the negation of the ascending one. *)
Definition file_item_less (sortBy : string) (desc : bool) (a b : FileItem) : bool :=
  if negb (Bool.eqb (fi_IsDir a) (fi_IsDir b)) then fi_IsDir a
  else
    let less :=
      if String.eqb sortBy "size" then Z.ltb (fi_Size a) (fi_Size b)
      else if String.eqb sortBy "name" then String.ltb (to_lower (fi_Name a)) (to_lower (fi_Name b))
      else String.ltb (fi_ModifiedAt a) (fi_ModifiedAt b) in
    if desc then negb less else less.
Definition sortFileItems (items : list FileItem) (sortBy sortOrder : string) : list FileItem :=
  let sortBy := if String.eqb sortBy "" then "modified_at" else sortBy in
  stable_sort (file_item_less sortBy (equal_fold sortOrder "desc")) items.

(** ** Hidden entries *)
Fixpoint trim_left_byte (c : ascii) (s : string) : string :=
  match s with
  | String d s' => if Ascii.eqb c d then trim_left_byte c s' else s
  | EmptyString => ""
  end.
Definition trim_byte (c : ascii) (s : string) : string := trim_right_byte c (trim_left_byte c s).
Definition hidden_name (name : string) : bool := has_prefix name ".trash" || has_prefix name ".system".
Definition isHiddenVirtualPath (virtualPath : string) : bool :=
  let trimmed := trim_byte slash (trim_space virtualPath) in
  negb (String.eqb trimmed "") && existsb hidden_name (split_on slash trimmed).
Definition isHiddenStorageEntry (entry : StorageEntry) : bool :=
  hidden_name (se_Name entry) || isHiddenVirtualPath (se_Path entry).

Definition pageValue (page : Z) : Z := if Z.leb page 0 then 1 else page.
Definition pageSizeValue (pageSize : Z) : Z := if Z.leb pageSize 0 then 200 else pageSize.
End Helpers.

(** ** Confinement *)
Section Confinement.
Context `{JD : JsonDecoder}.

Lemma clean_segs_render_any l : forallb plain_seg l = true -> path_clean (render l) = render l.
Proof. intros Hl. rewrite path_clean_rooted by apply render_rooted. by rewrite clean_segs_render. Qed.

Lemma trim_slash_render l : trim_prefix (render l) "/" = match l with [] => "" | x :: l' => x +:+ render_tail l' end.
Proof. destruct l as [|x l]; [done|]. cbn. unfold render. cbn. apply (trim_prefix_app "/"). Qed.

(** Joining clean paths. *)
Lemma join_clean l k : forallb plain_seg l = true -> forallb plain_seg k = true ->
  path_join (render l) (trim_prefix (render k) "/") = render (l ++ k).
Proof.
  intros Hl Hk. assert (render l <> "") as Hne by (destruct l; done).
  unfold path_join. rewrite (proj2 (String.eqb_neq _ _) Hne), trim_slash_render. destruct k as [|x k].
  - cbn. rewrite app_nil_r. by apply clean_segs_render_any.
  - assert (x +:+ render_tail k <> "") as Hx by (intros [-> _]%append_eq_nil; done).
    rewrite (proj2 (String.eqb_neq _ _) Hx). change ("/" +:+ x +:+ render_tail k) with (render (x :: k)).
    destruct l as [|y l].
    + rewrite path_clean_rooted by done. change ([] ++ x :: k) with (x :: k).
      replace (clean_segs true (render [] +:+ render (x :: k))) with (clean_segs true (render (x :: k))) by done.
      by rewrite clean_segs_render.
    + assert (render (y :: l) +:+ render (x :: k) = render ((y :: l) ++ x :: k)) as ->
        by (symmetry; exact (render_tail_app (y :: l) (x :: k))).
      apply clean_segs_render_any. by rewrite forallb_app, Hl, Hk.
Qed.

(** The physical path of a file of a local source lies in the
    directory of the source: with an absolute base path, its elements are
    those of the base, then those of the source's root, then those of the
    normalised virtual path.  It is refused only for a configuration or a
    path that is not valid. *)
Theorem resolve_physical_confined source virtualPath basePath
    (Hconfig : parseLocalSourceConfig source = Ok basePath) (Habs : has_prefix basePath "/" = true) :
  match resolvePhysicalPath source virtualPath with
  | Ok (base, target) =>
      exists root q, normalizeVirtualPath (src_RootPath source) = Ok root /\ normalizeVirtualPath virtualPath = Ok q /\
        base = render (segs basePath ++ segs root) /\ target = render (segs basePath ++ segs root ++ segs q)
  | Err e => e = ErrPathInvalid /\
      (normalizeVirtualPath (src_RootPath source) = Err e \/ normalizeVirtualPath virtualPath = Err e)
  end.
Proof.
  unfold resolvePhysicalPath. rewrite Hconfig.
  destruct (normalizeVirtualPath (src_RootPath source)) as [root|e] eqn:Er;
    [|apply normalize_err in Er as E; split; [done|by left]].
  destruct (normalizeVirtualPath virtualPath) as [q|e] eqn:Eq;
    [|apply normalize_err in Eq as E; split; [done|by right]].
  apply normalize_canonical in Er as (lr & Hr & ->). apply normalize_canonical in Eq as (lq & Hq & ->).
  apply good_segs_plain in Hr, Hq. rewrite (path_clean_rooted basePath) by done. fold (segs basePath).
  pose proof (clean_segs_plain basePath) as Hb. fold (segs basePath) in Hb.
  rewrite !join_clean by (rewrite ?forallb_app, ?Hb, ?Hr; done).
  rewrite !clean_segs_render_any by (rewrite ?forallb_app, ?Hb, ?Hr; done).
  destruct (has_prefix (render _) _) eqn:E; cbn [negb].
  - exists (render lr), (render lq).
    assert (segs (render lr) = lr /\ segs (render lq) = lq) as [-> ->] by (split; by apply clean_segs_render).
    do 2 (split; [reflexivity|]). by rewrite app_assoc.
  - exfalso. enough (has_prefix (render ((segs basePath ++ lr) ++ lq)) (render (segs basePath ++ lr)) = true) by congruence.
    apply has_prefix_spec. destruct (segs basePath ++ lr) as [|y l]; [by apply has_prefix_spec, render_rooted|].
    exists (render_tail lq). exact (render_tail_app (y :: l) lq).
Qed.
End Confinement.

Module StorageExample.
#[export] Instance decoder : JsonDecoder := fun _ => Some [("Base_Path", PString "/srv//data/")].
Definition source : StorageSource :=
  {| src_ID := 1; src_Name := "disk"; src_DriverType := "local"; src_Status := "online"; src_IsEnabled := true;
     src_IsWebDAVExposed := false; src_WebDAVReadOnly := true; src_WebDAVSlug := "disk"; src_MountPath := "/m";
     src_RootPath := "/pub"; src_SortOrder := 0; src_ConfigJSON := "{}"; src_LastCheckedAt := None;
     src_CreatedAt := 1; src_UpdatedAt := 1 |}.
End StorageExample.

Lemma resolve_physical_confined_witness :
  exists root q, @resolvePhysicalPath StorageExample.decoder StorageExample.source "/a/./b" =
    Ok (render (segs "/srv//data/" ++ segs root), render (segs "/srv//data/" ++ segs root ++ segs q)).
Proof.
  pose proof (@resolve_physical_confined StorageExample.decoder StorageExample.source "/a/./b" "/srv//data/"
                eq_refl eq_refl) as H.
  change (@resolvePhysicalPath StorageExample.decoder StorageExample.source "/a/./b")
    with (Ok ("/srv/data/pub", "/srv/data/pub/a/b") : result GoErr (string * string)) in H |- *.
  destruct H as (root & q & _ & _ & -> & ->). by exists root, q.
Defined.
