(* ===== verification/Files.v ===== *)
(** * The local disk

    What the services use of packages [os], [io] and [crypto/md5]: a tree
    of directories and files, the calls that read and write it, and the
    helpers of [local_storage_helpers.go] on top of them.

    A path names the node its elements lead to from the root, or from the
    working directory; there are no symbolic links.  Any call may fail at
    any time, as [dk_faults] says, and a failed write may have been done in
    part.  A directory's modification time is arbitrary.

    A [Host] is a world and a disk; the services that work on files are
    computations over it. *)
From S2P Require Import Prelude Ints GoStrings Entities Paths Tables Db Auditing Repos Journal Acl AclService Users Auth MetaTree Storage.
From stdpp Require Import base list strings sets gmap sorting pretty.
From Stdlib Require Import ZArith Lia Ascii.

Local Open Scope string_scope.
Local Open Scope list_scope.
Local Open Scope go_scope.

(** ** MD5 *)
Module Md5.
Local Open Scope N_scope.
Definition add32 (a b : N) : N := Sha256.add32 a b.
Definition rotl (x n : N) : N := Sha256.rotr x (32 - n).

Definition K : list N :=
  [3614090360; 3905402710; 606105819; 3250441966; 4118548399; 1200080426; 2821735955; 4249261313;
   1770035416; 2336552879; 4294925233; 2304563134; 1804603682; 4254626195; 2792965006; 1236535329;
   4129170786; 3225465664; 643717713; 3921069994; 3593408605; 38016083; 3634488961; 3889429448;
   568446438; 3275163606; 4107603335; 1163531501; 2850285829; 4243563512; 1735328473; 2368359562;
   4294588738; 2272392833; 1839030562; 4259657740; 2763975236; 1272893353; 4139469664; 3200236656;
   681279174; 3936430074; 3572445317; 76029189; 3654602809; 3873151461; 530742520; 3299628645;
   4096336452; 1126891415; 2878612391; 4237533241; 1700485571; 2399980690; 4293915773; 2240044497;
   1873313359; 4264355552; 2734768916; 1309151649; 4149444226; 3174756917; 718787259; 3951481745].
Definition H0 : list N := [1732584193; 4023233417; 2562383102; 271733878].

(** The function, the word and the shift of step [i]. *)
Definition mix (i b c d : N) : N :=
  match i / 16 with
  | 0 => N.lor (N.land b c) (N.land (Sha256.not32 b) d)
  | 1 => N.lor (N.land d b) (N.land (Sha256.not32 d) c)
  | 2 => Sha256.xor3 b c d
  | _ => N.lxor c (N.lor b (Sha256.not32 d))
  end.
Definition word_index (i : N) : N :=
  match i / 16 with
  | 0 => i
  | 1 => (5 * i + 1) mod 16
  | 2 => (3 * i + 5) mod 16
  | _ => (7 * i) mod 16
  end.
Definition shift (i : N) : N :=
  nth (N.to_nat (i mod 4))
    match i / 16 with 0 => [7; 12; 17; 22] | 1 => [5; 9; 14; 20] | 2 => [4; 11; 16; 23] | _ => [6; 10; 15; 21] end 0.

Definition round (block st : list N) (ik : N * N) : list N :=
  match st with
  | [a; b; c; d] =>
      let f := add32 (add32 (mix (fst ik) b c d) a) (add32 (snd ik) (nth (N.to_nat (word_index (fst ik))) block 0)) in
      [d; add32 b (rotl f (shift (fst ik))); b; c]
  | _ => st
  end.
Definition compress (st block : list N) : list N :=
  map (fun p => add32 (fst p) (snd p))
    (combine st (fold_left (round block) (combine (map N.of_nat (seq 0 64)) K) st)).

(** Little-endian bytes. *)
Definition le_bytes (n : nat) (x : N) : list N := rev (Sha256.be_bytes n x).
Fixpoint words (l : list N) : list N :=
  match l with
  | a :: b :: c :: d :: l' => (((d * 256 + c) * 256 + b) * 256 + a) :: words l'
  | _ => []
  end.
Definition padded (msg : list N) : list N :=
  let len := length msg in
  msg ++ [128] ++ repeat 0 ((119 - len mod 64) mod 64)%nat ++ le_bytes 8 (8 * N.of_nat len).
Definition sum (msg : list N) : list N :=
  let ws := words (padded msg) in
  concat (map (le_bytes 4) (fold_left compress (Sha256.blocks (length ws) ws) H0)).
End Md5.
Definition md5_hex (data : string) : string :=
  hex_encode (Md5.sum (map N_of_ascii (String.list_ascii_of_string data))).
Example md5_ex : map md5_hex [""; "abc"; "12345678901234567890123456789012345678901234567890123456789012345678901234567890"] =
  ["d41d8cd98f00b204e9800998ecf8427e"; "900150983cd24fb0d6963f7d28e17f72"; "57edf4a22be3c955ac49da2e2107b67a"].
Proof. vm_compute. reflexivity. Qed.

(** ** The tree of files *)

(** Errors of package [os], as [errors.Is] tells them apart, and the error
    a service passes on. *)
Inductive OsErr : Type := OsNotExist | OsExist | OsInvalid | OsPermission | OsText (msg : string).
Definition os_error (e : OsErr) : GoErr :=
  ErrText match e with
          | OsNotExist => "no such file or directory"
          | OsExist => "file exists"
          | OsInvalid => "invalid argument"
          | OsPermission => "permission denied"
          | OsText msg => msg
          end.
Definition not_a_directory : OsErr := OsText "not a directory".
Definition is_a_directory : OsErr := OsText "is a directory".

Inductive Node : Type := NDir | NFile (data : string) (mtime : Z).
Notation Tree := (@gmap (list string) list_eq_dec list_countable Node).

(** What a call that fails leaves done: how many bytes, or directories, and
    which nodes it did not come to remove. *)
Record DiskFault := { df_err : OsErr; df_done : nat; df_left : list string -> bool }.

(** The disk: its nodes, the working directory, what the clock, the faults
    and the random names are at each call, and the number of calls. *)
Record Disk := {
  dk_nodes : Tree; dk_dir : string; dk_clock : nat -> Z; dk_faults : nat -> option DiskFault;
  dk_random : nat -> N; dk_calls : nat
}.
#[export] Instance eta_Disk : Eta Disk := fun r =>
  {| dk_nodes := dk_nodes r; dk_dir := dk_dir r; dk_clock := dk_clock r; dk_faults := dk_faults r;
     dk_random := dk_random r; dk_calls := dk_calls r |}.

(** The elements of a path. *)
Definition walk (st : list string) (p : string) : list string := fold_left (clean_step true) (split_on slash p) st.
Definition locate (dir p : string) : list string :=
  rev (walk (if has_prefix p "/" then [] else walk [] dir) p).

Definition is_file (nodes : Tree) (k : list string) : bool :=
  match nodes !! k with Some (NFile _ _) => true | _ => false end.
Definition prefixes (k : list string) : list (list string) := map (fun i => take i k) (seq 0 (length k)).
Definition node_at (nodes : Tree) (k : list string) : result OsErr Node :=
  match nodes !! k with
  | Some node => Ok node
  | None => if existsb (is_file nodes) (prefixes k) then Err not_a_directory else Err OsNotExist
  end.

(** The directories a path needs, from the root on. *)
Fixpoint mkdirs (nodes : Tree) (at_ rest : list string) : result OsErr unit * Tree :=
  match rest with
  | [] => (Ok tt, nodes)
  | x :: rest =>
      let k := at_ ++ [x] in
      match nodes !! k with
      | Some NDir => mkdirs nodes k rest
      | Some (NFile _ _) => (Err not_a_directory, nodes)
      | None => mkdirs (<[k := NDir]> nodes) k rest
      end
  end.

(** An empty file, in a directory that exists. *)
Definition create_file (nodes : Tree) (k : list string) (now : Z) : result OsErr Tree :=
  match node_at nodes (removelast k) with
  | Err e => Err e
  | Ok (NFile _ _) => Err not_a_directory
  | Ok NDir =>
      match nodes !! k with
      | Some NDir => Err is_a_directory
      | _ => Ok (<[k := NFile "" now]> nodes)
      end
  end.
Definition append_data (nodes : Tree) (k : list string) (data : string) (now : Z) : Tree :=
  match nodes !! k with
  | Some (NFile old _) => <[k := NFile (old +:+ data) now]> nodes
  | _ => nodes
  end.

(** The nodes without those below [k], but for those that were left: a node
    is left only with the directories that lead to it. *)
Definition below (k k' : list string) : bool := bool_decide (k `prefix_of` k').
Definition remains (k : list string) (left : list string -> bool) (k' : list string) : bool :=
  negb (below k k') || forallb (fun p => negb (below k p) || left p) (prefixes k' ++ [k']).
Definition remove_below (nodes : Tree) (k : list string) (left : list string -> bool) : Tree :=
  filter (fun kv => remains k left kv.1 = true) nodes.

(** ** System calls *)

(** A call on a path: it fails as scheduled, having done what [partial]
    says, or runs. *)
Definition call {A : Type} (path : string) (partial : DiskFault -> list string -> Z -> Tree -> Tree)
    (m : list string -> Z -> Tree -> result OsErr A * Tree) : M OsErr Disk A := fun d =>
  let k := locate (dk_dir d) path in
  let now := dk_clock d (dk_calls d) in
  let '(r, nodes) :=
    if String.eqb path "" then (Err OsNotExist, dk_nodes d)
    else match dk_faults d (dk_calls d) with
         | Some f => (Err (df_err f), partial f k now (dk_nodes d))
         | None => m k now (dk_nodes d)
         end in
  (r, { d with dk_nodes := nodes; dk_calls ::= S }).
Definition undone : DiskFault -> list string -> Z -> Tree -> Tree := fun _ _ _ nodes => nodes.

Definition info_of (path : string) (node : Node) (now : Z) : FileInfo :=
  match node with
  | NDir => {| fsi_Name := path_base path; fsi_IsDir := true; fsi_Size := 0; fsi_ModTime := now |}
  | NFile data mtime =>
      {| fsi_Name := path_base path; fsi_IsDir := false; fsi_Size := Z.of_nat (String.length data); fsi_ModTime := mtime |}
  end.
Definition with_node {A : Type} (f : Node -> result OsErr A) (k : list string) (nodes : Tree) : result OsErr A * Tree :=
  (match node_at nodes k with Ok node => f node | Err e => Err e end, nodes).
Definition file_data (node : Node) : result OsErr string :=
  match node with NFile data _ => Ok data | NDir => Err is_a_directory end.

Definition Stat (path : string) : M OsErr Disk FileInfo :=
  call path undone (fun k now => with_node (fun node => Ok (info_of path node now)) k).
Definition ReadFile (path : string) : M OsErr Disk string :=
  call path undone (fun k _ => with_node file_data k).
Definition Open (path : string) : M OsErr Disk unit :=
  call path undone (fun k _ => with_node (fun _ => Ok tt) k).
(** What is read from an open file up to its end. *)
Definition ReadAll (path : string) : M OsErr Disk string :=
  call path undone (fun k _ => with_node file_data k).

Definition OsMkdirAll (path : string) : M OsErr Disk unit :=
  call path (fun f k _ nodes => snd (mkdirs nodes [] (take (df_done f) k))) (fun k _ nodes => mkdirs nodes [] k).

Definition Create (path : string) : M OsErr Disk unit :=
  call path undone (fun k now nodes =>
    match create_file nodes k now with Ok nodes' => (Ok tt, nodes') | Err e => (Err e, nodes) end).
(** Writing at the end of a file that was opened; closing it. *)
Definition Write (path data : string) : M OsErr Disk unit :=
  call path (fun f k now nodes => append_data nodes k (String.substring 0 (df_done f) data) now)
    (fun k now nodes => (Ok tt, append_data nodes k data now)).
Definition Close (path : string) : M OsErr Disk unit := call path undone (fun _ _ nodes => (Ok tt, nodes)).

(** A file is written from its start; of a write that fails, nothing, or
    the file with its first bytes is left. *)
Definition write_file (data : string) (k : list string) (now : Z) (nodes : Tree) : result OsErr unit * Tree :=
  match create_file nodes k now with
  | Ok nodes' => (Ok tt, append_data nodes' k data now)
  | Err e => (Err e, nodes)
  end.
Definition WriteFile (path data : string) : M OsErr Disk unit :=
  call path (fun f k now nodes =>
    match df_done f with
    | O => nodes
    | S n => snd (write_file (String.substring 0 n data) k now nodes)
    end) (write_file data).

Definition RemoveAll (path : string) : M OsErr Disk unit :=
  if String.eqb path "" then ret tt
  else call path (fun f k _ nodes => match k with [] => nodes | _ => remove_below nodes k (df_left f) end)
    (fun k _ nodes =>
      match k, node_at nodes k with
      | [], _ => (Err OsInvalid, nodes)
      | _, Err OsNotExist => (Ok tt, nodes)
      | _, Err e => (Err e, nodes)
      | _, Ok _ => (Ok tt, remove_below nodes k (fun _ => false))
      end).

Definition has_children (nodes : Tree) (k : list string) : bool :=
  existsb (fun k' => below k k' && negb (bool_decide (k' = k))) (map fst (map_to_list nodes)).
Definition Remove (path : string) : M OsErr Disk unit :=
  call path undone (fun k _ nodes =>
    match node_at nodes k with
    | Err e => (Err e, nodes)
    | Ok _ => if has_children nodes k || bool_decide (k = []) then (Err OsExist, nodes) else (Ok tt, delete k nodes)
    end).

Definition Chtimes (path : string) (mtime : Z) : M OsErr Disk unit :=
  call path undone (fun k _ nodes =>
    match node_at nodes k with
    | Err e => (Err e, nodes)
    | Ok NDir => (Ok tt, nodes)
    | Ok (NFile data _) => (Ok tt, <[k := NFile data mtime]> nodes)
    end).

(** [os.CreateTemp]: the first name of those tried that is not taken. *)
Fixpoint create_temp (tries : nat) (random : nat -> N) (k : list string) (prefix : string) (now : Z) (nodes : Tree)
    : result OsErr string * Tree :=
  match tries with
  | O => (Err OsExist, nodes)
  | S tries =>
      let name := prefix +:+ pretty (random tries) in
      match nodes !! (k ++ [name]) with
      | Some _ => create_temp tries random k prefix now nodes
      | None =>
          match create_file nodes (k ++ [name]) now with
          | Ok nodes' => (Ok name, nodes')
          | Err e => (Err e, nodes)
          end
      end
  end.
Definition CreateTemp (dir prefix : string) : M OsErr Disk string := fun d =>
  (name <-! call dir undone (fun k now => create_temp 10000 (fun i => dk_random d (dk_calls d + i)) k prefix now) ;;
   ret (path_join dir name))%go d.

(** [os.Rename]: a file replaces a file, nothing replaces a directory. *)
Definition moved (from to k : list string) : list string := if below from k then to ++ drop (length from) k else k.
Definition rename_node (from to : list string) (nodes : Tree) : result OsErr unit * Tree :=
  match node_at nodes from with
  | Err e => (Err e, nodes)
  | Ok node =>
      match node_at nodes (removelast to) with
      | Err e => (Err e, nodes)
      | Ok (NFile _ _) => (Err not_a_directory, nodes)
      | Ok NDir =>
          match node, nodes !! to with
          | _, Some NDir => (Err OsExist, nodes)
          | NFile _ _, _ => (Ok tt, <[to := node]> (delete from nodes))
          | NDir, Some (NFile _ _) => (Err not_a_directory, nodes)
          | NDir, None =>
              if below from to then (Err OsInvalid, nodes)
              else (Ok tt, list_to_map (map (fun kv => (moved from to kv.1, kv.2)) (map_to_list nodes)))
          end
      end
  end.
Definition OsRename (oldpath newpath : string) : M OsErr Disk unit := fun d =>
  call oldpath undone (fun k _ => rename_node k (locate (dk_dir d) newpath)) d.

(** [filepath.WalkDir]: the files at and below a path, as the elements that
    lead to them, in lexical order. *)
Fixpoint elements_less (a b : list string) : bool :=
  match a, b with
  | _, [] => false
  | [], _ => true
  | x :: a, y :: b => String.ltb x y || (String.eqb x y && elements_less a b)
  end.
Definition files_below (k : list string) (nodes : Tree) : list (list string) :=
  stable_sort elements_less (map (drop (length k)) (List.filter (fun k' => below k k' && is_file nodes k') (map fst (map_to_list nodes)))).
Definition WalkFiles (root : string) : M OsErr Disk (list (list string)) :=
  call root undone (fun k _ nodes => (match node_at nodes k with Ok _ => Ok (files_below k nodes) | Err e => Err e end, nodes)).

(** [io.Copy] from an open file to another. *)
Definition Copy (dst src : string) : M OsErr Disk unit :=
  data <-! ReadAll src ;; Write dst data.

(** ** [local_storage_helpers.go] *)
Definition hashFileMD5 (filePath : string) : M OsErr Disk string :=
  do! Open filePath ;;
  data <-! ReadAll filePath ;;
  ret (md5_hex data).

Definition probeLocalDirectoryWritable (dir : string) : M OsErr Disk bool :=
  name <-! CreateTemp dir ".yunxia-write-test-" or _e => ret false ;;
  _u <-! Close name or _e => (_u <-! Remove name or _e' => ret false ;; ret false) ;;
  _u <-! Remove name or _e => ret false ;;
  ret true.

Definition isLocalReadOnlyError (err : OsErr) : bool :=
  match err with
  | OsPermission => true
  | OsText msg =>
      let message := to_lower msg in
      contains message "read-only file system" || contains message "permission denied" ||
      contains message "access is denied" || contains message "operation not permitted"
  | _ => false
  end.
Definition normalizeLocalWriteError (err : OsErr) : GoErr :=
  if isLocalReadOnlyError err then ErrSourceReadOnly else os_error err.

(** The times of the copy are those of the original; failing to set them
    is no error. *)
Definition copyFile (srcPath dstPath : string) : M OsErr Disk unit :=
  do! Open srcPath ;;
  do! OsMkdirAll (path_dir dstPath) ;;
  do! Create dstPath ;;
  do! Copy dstPath srcPath ;;
  info <-! Stat srcPath or _e => ret tt ;;
  _u <-! Chtimes dstPath (fsi_ModTime info) or _e => ret tt ;;
  ret tt.

(** ** A world with a disk *)
Record Host `{Database} := { h_world : World; h_disk : Disk }.
#[export] Instance eta_Host `{Database} : Eta Host := fun r => {| h_world := h_world r; h_disk := h_disk r |}.

Section Host.
Context `{Database}.
Definition on_world {E A} (m : M E World A) : M E Host A := zoom h_world (fun w h => { h with h_world := w }) m.
Definition on_disk {E A} (m : M E Disk A) : M E Host A := zoom h_disk (fun d h => { h with h_disk := d }) m.
(** A call whose error is passed on. *)
Definition os {A} (m : M OsErr Disk A) : M GoErr Host A := map_err os_error (on_disk m).
End Host.

(** ** Paths to nodes *)
Lemma locate_rooted dir p : has_prefix p "/" = true -> locate dir p = segs p.
Proof. unfold locate. by intros ->. Qed.

(** Walking along a path is walking along its parts, and a cleaned path
    leads where the path does. *)
Lemma split_on_sep c a b : split_on c (a +:+ String c b) = split_on c a ++ split_on c b.
Proof.
  induction a as [|x a IH]; cbn; [by rewrite Ascii.eqb_refl|].
  fold (a +:+ String c b). rewrite IH. destruct (split_on c a) as [|y l] eqn:E; [by apply split_on_not_nil in E|].
  by destruct (Ascii.eqb x c).
Qed.
Lemma walk_sep st a b : walk st (a +:+ "/" +:+ b) = walk (walk st a) b.
Proof. unfold walk. change ("/" +:+ b) with (String slash b). by rewrite split_on_sep, fold_left_app. Qed.
Lemma split_segs a l : Forall (fun x => has_byte slash x = false) (a :: l) -> split_on slash (a +:+ render_tail l) = a :: l.
Proof.
  revert a. induction l as [|b l IH]; intros a; rewrite Forall_cons; intros [Ha Hl].
  - cbn. rewrite append_nil_r. by apply split_on_no.
  - cbn [render_tail]. change ("/" +:+ b +:+ render_tail l) with (String slash (b +:+ render_tail l)).
    rewrite split_on_sep, split_on_no by done. cbn [app]. f_equal. by apply IH.
Qed.

(** The elements [path.Clean] keeps of a relative path. *)
Definition kept (x : string) : Prop := x <> "" /\ x <> "." /\ has_byte slash x = false.
Lemma kept_step r st seg : Forall kept st -> has_byte slash seg = false -> Forall kept (clean_step r st seg).
Proof.
  intros Hst Hs. unfold clean_step.
  destruct (String.eqb_spec seg ""); [done|]. destruct (String.eqb_spec seg "."); [done|].
  destruct (String.eqb_spec seg "..") as [->|]; [|by constructor].
  assert (kept "..") as Hd by done.
  destruct st as [|top rest]; [destruct r; cbn; auto|].
  destruct (_ && _); [by constructor|]. by apply Forall_cons in Hst as [_ ?].
Qed.
Lemma kept_segs r p : Forall kept (clean_segs r p).
Proof.
  unfold clean_segs. apply Forall_rev. pose proof (split_on_no_sep slash p) as Hp. revert Hp.
  assert (Forall kept []) as Hst by constructor. revert Hst. generalize (@nil string) as st.
  induction (split_on slash p) as [|x l IH]; intros st Hst Hp; [done|]. apply Forall_cons in Hp as [Hx Hl].
  apply IH; [by apply kept_step|done].
Qed.
Lemma clean_step_push r st x : x <> "" -> x <> "." -> x <> ".." -> clean_step r st x = x :: st.
Proof. intros H1 H2 H3. apply String.eqb_neq in H1, H2, H3. unfold clean_step. by rewrite H1, H2, H3. Qed.
Lemma walk_segs st p : fold_left (clean_step true) (clean_segs false p) st = walk st p.
Proof.
  unfold clean_segs, walk. pose proof (split_on_no_sep slash p) as Hp. revert Hp.
  assert (Forall kept []) as Hst by constructor.
  change st with (fold_left (clean_step true) (rev []) st) at 2. revert Hst. generalize (@nil string) as st0.
  induction (split_on slash p) as [|x l IH]; intros st0 Hst Hp; [done|]. apply Forall_cons in Hp as [Hx Hl].
  cbn [fold_left]. rewrite (IH (clean_step false st0 x)) by (done || by apply kept_step). f_equal.
  unfold clean_step at 2. destruct (String.eqb_spec x "") as [->|]; [done|].
  destruct (String.eqb_spec x ".") as [->|]; [done|]. destruct (String.eqb_spec x "..") as [->|Hn].
  - destruct st0 as [|top rest]; [done|]. cbn [negb andb]. destruct (String.eqb_spec top "..") as [->|Ht].
    + change (rev (".." :: ".." :: rest)) with (rev (".." :: rest) ++ [".."]). by rewrite fold_left_app.
    + apply Forall_cons in Hst as [(H1 & H2 & _) _]. cbn [rev]. rewrite fold_left_app. cbn [fold_left].
      by rewrite (clean_step_push true _ top).
  - cbn [rev]. by rewrite fold_left_app.
Qed.

Lemma has_prefix_head x a : has_byte slash x = false -> x <> "" -> has_prefix (x +:+ a) "/" = false.
Proof.
  destruct x as [|c x]; [done|]. rewrite has_byte_cons. intros [Hc _]%orb_false_iff _.
  apply not_true_is_false. intros [r Hr]%has_prefix_spec. injection Hr as -> _. done.
Qed.
Lemma locate_clean dir p : p <> "" -> locate dir (path_clean p) = locate dir p.
Proof.
  intros Hp. destruct (has_prefix p "/") eqn:Hr.
  - rewrite path_clean_rooted, !locate_rooted by (done || apply render_rooted). apply clean_segs_render, clean_segs_plain.
  - unfold path_clean. rewrite Hr, (proj2 (String.eqb_neq _ _) Hp). unfold locate at 2. rewrite Hr.
    rewrite <- walk_segs. pose proof (kept_segs false p) as Hk. destruct (clean_segs false p) as [|a l]; [done|].
    assert (Forall (fun x => has_byte slash x = false) (a :: l)) as Hs by (eapply Forall_impl; [exact Hk|]; by intros ? (_ & _ & ?)).
    apply Forall_cons in Hk as [(H1 & H2 & H3) _]. unfold locate. rewrite has_prefix_head by done.
    unfold walk at 1. by rewrite split_segs.
Qed.

(** Joining and splitting physical paths. *)
Definition tail_of (q : list string) : string := match q with [] => "" | x :: l => x +:+ render_tail l end.
Lemma has_prefix_sep_any d y : has_prefix (d +:+ "/" +:+ y) "/" = has_prefix (d +:+ "/") "/".
Proof. destruct d as [|c d]; [done|]. cbn [String.append]. by rewrite !has_prefix_cons. Qed.
Lemma has_prefix_sep_left d y : d <> "" -> has_prefix (d +:+ "/" +:+ y) "/" = has_prefix d "/".
Proof. destruct d as [|c d]; [done|]. intros _. cbn [String.append]. by rewrite !has_prefix_cons. Qed.
Lemma fold_push r q st : forallb plain_seg q = true -> fold_left (clean_step r) q st = rev q ++ st.
Proof.
  revert st. induction q as [|x q IH]; intros st; [done|]. cbn [forallb fold_left].
  intros [(H1 & H2 & H3 & _)%plain_seg_spec Hq]%andb_true_iff. rewrite clean_step_push, IH by done.
  cbn. by rewrite <- app_assoc.
Qed.
Lemma split_tail q : q <> [] -> forallb plain_seg q = true -> split_on slash (tail_of q) = q.
Proof.
  destruct q as [|x l]; [done|]. intros _ Hq. apply split_segs. apply Forall_forall. intros y Hy.
  rewrite forallb_forall in Hq. apply list_elem_of_In, Hq, plain_seg_spec in Hy. tauto.
Qed.
Lemma tail_not_nil q : q <> [] -> forallb plain_seg q = true -> tail_of q <> "".
Proof. destruct q as [|x l]; [done|]. intros _ [(H & _)%plain_seg_spec _]%andb_true_iff [-> _]%append_eq_nil. done. Qed.

Lemma locate_sep dir d y : d <> "" -> locate dir (d +:+ "/" +:+ y) = rev (walk (rev (locate dir d)) y).
Proof. intros Hd. unfold locate. by rewrite has_prefix_sep_left, rev_involutive, walk_sep by done. Qed.
Lemma walk_tail st q : q <> [] -> forallb plain_seg q = true -> walk st (tail_of q) = rev q ++ st.
Proof. intros Hn Hq. unfold walk. by rewrite split_tail, fold_push. Qed.
Lemma locate_join dir a q : a <> "" -> forallb plain_seg q = true ->
  locate dir (path_join a (tail_of q)) = locate dir a ++ q.
Proof.
  intros Ha Hq. unfold path_join. rewrite (proj2 (String.eqb_neq _ _) Ha). destruct (decide (q = [])) as [->|Hn].
  - cbn [tail_of String.eqb]. by rewrite locate_clean, app_nil_r.
  - rewrite (proj2 (String.eqb_neq _ _)) by by apply tail_not_nil. rewrite locate_clean.
    + by rewrite locate_sep, walk_tail, rev_app_distr, !rev_involutive by done.
    + by intros [-> _]%append_eq_nil.
Qed.

(** A path whose last element is [x]. *)
Definition ends_in (p x : string) : Prop := exists d, p = d +:+ x /\ (d = "" \/ exists d', d = d' +:+ "/").
Lemma ends_in_sep d x : ends_in (d +:+ "/" +:+ x) x.
Proof. exists (d +:+ "/"). by rewrite append_assoc; eauto. Qed.
Lemma ends_in_app_sep d x : ends_in ((d +:+ "/") +:+ x) x.
Proof. rewrite append_assoc. apply ends_in_sep. Qed.
Lemma ends_in_tail l x : ends_in (tail_of (l ++ [x])) x.
Proof.
  destruct l as [|y k]; [exists ""; cbn; rewrite append_nil_r; auto|].
  cbn [app tail_of]. rewrite render_tail_app. cbn [render_tail]. rewrite append_nil_r, <- append_assoc. apply ends_in_sep.
Qed.
Lemma ends_in_app a p x : ends_in p x -> ends_in (a +:+ "/" +:+ p) x.
Proof.
  intros (d & -> & [->|[d' ->]]); [apply ends_in_sep|].
  rewrite (append_assoc d'), <- (append_assoc a), <- (append_assoc _ d'), <- append_assoc. apply ends_in_app_sep.
Qed.
Lemma ends_in_clean p x : ends_in p x -> plain_seg x = true -> ends_in (path_clean p) x.
Proof.
  intros (d & -> & Hd) Hx. apply plain_seg_spec in Hx as Hx'. destruct Hx' as (H1 & H2 & H3 & Hs).
  assert (exists l, forall r, clean_segs r (d +:+ x) = l r ++ [x]) as [l Hl].
  { destruct Hd as [->|[d' ->]].
    - exists (fun _ => []). intros r. unfold clean_segs. cbn [String.append]. rewrite split_on_no by done.
      cbn [fold_left]. by rewrite clean_step_push.
    - exists (fun r => clean_segs r d'). intros r. unfold clean_segs. rewrite append_assoc.
      change ("/" +:+ x) with (String slash x). rewrite split_on_sep, (split_on_no slash x), fold_left_app by done.
      cbn [fold_left]. by rewrite clean_step_push. }
  unfold path_clean. rewrite !Hl. destruct (String.eqb_spec (d +:+ x) "") as [[_ ->]%append_eq_nil|_]; [done|].
  destruct (has_prefix _ "/").
  - rewrite render_snoc. apply (ends_in_sep (render_tail (l true)) x).
  - destruct (l false) as [|y k]; cbn [app]; [exists ""; cbn; rewrite append_nil_r; auto|].
    rewrite render_tail_app. cbn [render_tail]. rewrite append_nil_r, <- append_assoc. apply ends_in_sep.
Qed.
Lemma join_ends a l x : a <> "" -> forallb plain_seg (l ++ [x]) = true -> ends_in (path_join a (tail_of (l ++ [x]))) x.
Proof.
  intros Ha Hq. assert (l ++ [x] <> []) as Hn by by destruct l.
  unfold path_join. rewrite (proj2 (String.eqb_neq _ _) Ha), (proj2 (String.eqb_neq _ "")) by by apply tail_not_nil.
  apply ends_in_clean; [apply ends_in_app, ends_in_tail|]. rewrite forallb_app in Hq. by apply andb_true_iff in Hq as [_ [? _]%andb_true_iff].
Qed.

(** The directory of a path is one element up. *)
Lemma locate_dir dir p x : ends_in p x -> plain_seg x = true -> locate dir p = locate dir (path_dir p) ++ [x].
Proof.
  intros (d & -> & Hd) Hx. apply plain_seg_spec in Hx as Hx'. destruct Hx' as (H1 & H2 & H3 & Hs).
  assert (forall st, walk st x = x :: st) as Hw
    by (intros st; unfold walk; rewrite split_on_no by done; by apply clean_step_push).
  unfold path_dir. destruct Hd as [->|[d' ->]].
  - cbn [String.append]. rewrite split_last_no by done. cbn [fst]. unfold locate.
    assert (has_prefix x "/" = false) as -> by (rewrite <- (append_nil_r x); by apply has_prefix_head).
    by rewrite Hw.
  - rewrite append_assoc. change ("/" +:+ x) with (String slash x). rewrite split_last_app by done. cbn [fst].
    rewrite locate_clean by by intros [_ ?]%append_eq_nil. unfold locate. change (String slash x) with ("/" +:+ x).
    rewrite has_prefix_sep_any, walk_sep, Hw.
    generalize (if has_prefix (d' +:+ "/") "/" then [] else walk [] dir) as st. intros st.
    change (d' +:+ "/") with (d' +:+ "/" +:+ ""). by rewrite walk_sep.
Qed.

(** The physical path of a file lies below the directory of its source,
    along the elements of its virtual path. *)
Lemma clean_not_nil p : path_clean p <> "".
Proof.
  unfold path_clean. destruct (String.eqb p ""); [done|]. destruct (has_prefix p "/"); [by destruct (clean_segs true p)|].
  pose proof (kept_segs false p) as Hk. destruct (clean_segs false p) as [|a l]; [done|].
  apply Forall_cons in Hk as [(H1 & _) _]. by intros [-> _]%append_eq_nil.
Qed.
Lemma join_not_nil a b : a <> "" -> path_join a b <> "".
Proof. intros Ha. unfold path_join. rewrite (proj2 (String.eqb_neq _ _) Ha). destruct (String.eqb b ""); apply clean_not_nil. Qed.
Lemma physical_nonempty `{JsonDecoder} source v b t : resolvePhysicalPath source v = Ok (b, t) -> t <> "".
Proof. unfold resolvePhysicalPath. repeat case_match; intros [= <- <-] || done. apply clean_not_nil. Qed.
Lemma trim_slash_tail l : trim_prefix (render l) "/" = tail_of l.
Proof. exact (trim_slash_render l). Qed.

Lemma resolve_physical_located `{JD : JsonDecoder} dir source virtualPath base target :
  resolvePhysicalPath source virtualPath = Ok (base, target) ->
  exists q, normalizeVirtualPath virtualPath = Ok (render q) /\ good_segs q = true /\ base <> "" /\ target <> "" /\
    locate dir target = locate dir base ++ q /\
    forall l x, q = l ++ [x] -> plain_seg x = true /\ ends_in target x.
Proof.
  unfold resolvePhysicalPath. destruct (parseLocalSourceConfig source) as [basePath|]; [|done].
  destruct (normalizeVirtualPath (src_RootPath source)) as [root|] eqn:Er; [|done].
  destruct (normalizeVirtualPath virtualPath) as [p|] eqn:Eq; [|done].
  apply normalize_canonical in Er as (lr & Hr & ->). apply normalize_canonical in Eq as (q & Hq & ->).
  apply good_segs_plain in Hr. pose proof (good_segs_plain _ Hq) as Hp. rewrite !trim_slash_tail.
  set (baseRoot := path_join (path_clean basePath) (tail_of lr)).
  assert (baseRoot <> "") as Hb by apply join_not_nil, clean_not_nil.
  destruct (negb _); intros [= <- <-]. exists q. split_and!; [done|done|apply clean_not_nil..| |].
  - by rewrite !locate_clean, locate_join by (done || by apply join_not_nil).
  - intros l x ->. assert (plain_seg x = true) as Hx by (rewrite forallb_app in Hp; by apply andb_true_iff in Hp as [_ [? _]%andb_true_iff]).
    split; [done|]. apply ends_in_clean; [|done]. by apply join_ends.
Qed.

Lemma locate_join1 dir a x : a <> "" -> plain_seg x = true -> locate dir (path_join a x) = locate dir a ++ [x].
Proof.
  intros Ha Hx. rewrite <- (locate_join dir a [x]) by (done || by cbn; rewrite Hx). cbn. by rewrite append_nil_r.
Qed.
Lemma join1_ends a x : a <> "" -> plain_seg x = true -> ends_in (path_join a x) x.
Proof.
  intros Ha Hx. pose proof (join_ends a [] x Ha) as Hj. cbn in Hj. rewrite append_nil_r, Hx in Hj. by apply Hj.
Qed.

(** ** Decimal numbers *)
Definition decimal (s : string) : N :=
  fold_left (fun v c => 10 * v + (N_of_ascii c - 48))%N (String.list_ascii_of_string s) 0%N.
Lemma pretty_go_ind (P : N -> string -> Prop) : (forall s, P 0%N s) ->
  (forall x s, (0 < x)%N -> P (x / 10)%N (String (pretty_N_char (x mod 10)) s) -> P x s) -> forall x s, P x s.
Proof.
  intros H0 Hs x. induction (N.lt_wf_0 x) as [x _ IH]. intros s. destruct (decide (0 < x)%N) as [Hx|Hx].
  - apply Hs; [done|]. apply IH. apply N.div_lt; lia.
  - assert (x = 0%N) as -> by lia. apply H0.
Qed.
Lemma pretty_char_digit x : (N_of_ascii (pretty_N_char (x mod 10)) - 48 = x mod 10)%N /\ pretty_N_char (x mod 10) <> slash.
Proof.
  pose proof (N.mod_lt x 10 ltac:(lia)) as Hx. revert Hx. generalize (x mod 10)%N. intros n Hn.
  assert (n ∈ [0; 1; 2; 3; 4; 5; 6; 7; 8; 9])%N as Hin by (rewrite !elem_of_cons; lia). revert Hin. clear.
  rewrite !elem_of_cons, elem_of_nil. intros H. repeat destruct H as [->|H]; done.
Qed.
Lemma decimal_pretty n : decimal (pretty n) = n.
Proof.
  unfold pretty, pretty_N. destruct (decide (n = 0%N)) as [->|Hn]; [done|].
  assert (forall x s, decimal (pretty_N_go x s) =
    fold_left (fun v c => 10 * v + (N_of_ascii c - 48))%N (String.list_ascii_of_string s) x) as Hg; [|exact (Hg n "")].
  apply (pretty_go_ind (fun x s => decimal (pretty_N_go x s) = fold_left _ (String.list_ascii_of_string s) x)); [done|].
  intros x s Hx IH. rewrite pretty_N_go_step, IH by done. cbn. f_equal.
  rewrite (proj1 (pretty_char_digit x)). symmetry. apply N.div_mod. lia.
Qed.
Lemma pretty_no_byte c (n : N) : (forall x, pretty_N_char (x mod 10) <> c) -> has_byte c (pretty n) = false.
Proof.
  intros Hc. unfold pretty, pretty_N. destruct (decide (n = 0%N)) as [->|Hn].
  { rewrite has_byte_cons, orb_false_r. apply Ascii.eqb_neq. intros E. by apply (Hc 0%N). }
  assert (forall x s, has_byte c s = false -> has_byte c (pretty_N_go x s) = false) as Hg; [|by apply Hg].
  apply (pretty_go_ind (fun x s => has_byte c s = false -> has_byte c (pretty_N_go x s) = false)); [done|].
  intros x s Hx IH Hs. rewrite pretty_N_go_step by done. apply IH. rewrite has_byte_cons, Hs, orb_false_r.
  apply Ascii.eqb_neq. intros E. by apply (Hc x).
Qed.
Lemma pretty_no_slash (n : N) : has_byte slash (pretty n) = false.
Proof. apply pretty_no_byte. intros x. apply pretty_char_digit. Qed.

(** ** Trees

    Every node but the root is in a directory. *)
Definition tree (nodes : Tree) : Prop :=
  nodes !! [] = Some NDir /\ forall k x, is_Some (nodes !! (k ++ [x])) -> nodes !! k = Some NDir.

(** Outside of [P], nodes are as they were, but for new directories on the
    way to it. *)
Definition keeps (P : list string -> Prop) (nodes nodes' : Tree) : Prop :=
  forall k, P k \/ nodes' !! k = nodes !! k \/
    (nodes !! k = None /\ nodes' !! k = Some NDir /\ exists k', k `prefix_of` k' /\ P k').

Lemma keeps_refl P nodes : keeps P nodes nodes.
Proof. intros k. auto. Qed.
Lemma keeps_trans P n1 n2 n3 : keeps P n1 n2 -> keeps P n2 n3 -> keeps P n1 n3.
Proof.
  intros H1 H2 k. destruct (H1 k) as [?|[E1|(E1 & D1 & X1)]]; [auto|..];
    (destruct (H2 k) as [?|[E2|(E2 & D2 & X2)]]; [auto|..]); rewrite ?E1, ?E2 in *; auto; congruence.
Qed.
Lemma keeps_mono (P P' : list string -> Prop) n n' : (forall k, P k -> P' k) -> keeps P n n' -> keeps P' n n'.
Proof. intros HP Hk k. destruct (Hk k) as [?|[?|(?&?&k'&?&?)]]; eauto 10. Qed.
Lemma keeps_insert (P : list string -> Prop) n k node : P k -> keeps P n (<[k := node]> n).
Proof. intros HP k'. destruct (decide (k' = k)) as [->|Hne]; [auto|]. right; left. by rewrite lookup_insert_ne. Qed.

Lemma tree_insert n k node : tree n -> k <> [] -> n !! removelast k = Some NDir ->
  (node = NDir \/ n !! k <> Some NDir) -> tree (<[k := node]> n).
Proof.
  intros [Hr Ht] Hk Hp Hn. split; [by rewrite lookup_insert_ne|]. intros k' x Hs.
  assert (n !! k' = Some NDir) as Hd.
  { destruct (decide (k' ++ [x] = k)) as [<-|Hne]; [by rewrite removelast_last in Hp|].
    rewrite lookup_insert_ne in Hs by done. by eapply Ht. }
  destruct (decide (k' = k)) as [->|Hne]; [|by rewrite lookup_insert_ne].
  destruct Hn as [->|Hn]; [by rewrite lookup_insert_eq|done].
Qed.

Lemma mkdirs_spec n a rest :
  let '(r, n') := mkdirs n a rest in
  (n !! a = Some NDir -> tree n -> tree n') /\ (n !! a = Some NDir -> r = Ok tt -> n' !! (a ++ rest) = Some NDir) /\
  forall k, n' !! k = n !! k \/ (n !! k = None /\ n' !! k = Some NDir /\ k `prefix_of` a ++ rest).
Proof.
  revert n a. induction rest as [|x rest IH]; intros n a; cbn [mkdirs].
  - split_and!; [done|by rewrite app_nil_r|auto].
  - assert (a ++ x :: rest = (a ++ [x]) ++ rest) as -> by by rewrite <- app_assoc.
    destruct (n !! (a ++ [x])) as [[|data t]|] eqn:E; [|by split_and!; auto|].
    { specialize (IH n (a ++ [x])). destruct (mkdirs _ _ _) as [r n']. naive_solver. }
    specialize (IH (<[a ++ [x] := NDir]> n) (a ++ [x])).
    destruct (mkdirs _ _ _) as [r n']. destruct IH as (Ht & Hok & Hk). rewrite lookup_insert_eq in *. split_and!.
    + intros Ha Htree. apply Ht, tree_insert; [done|done|by destruct a|by rewrite removelast_last|auto].
    + auto.
    + intros k. destruct (decide (k = a ++ [x])) as [->|Hne].
      * right. destruct (Hk (a ++ [x])) as [->|(H1 & _)]; rewrite lookup_insert_eq in *; [|done].
        split_and!; [done|done|by apply prefix_app_r].
      * destruct (Hk k) as [->|(H1 & H2)]; rewrite lookup_insert_ne in * by done; auto.
Qed.
Lemma tree_mkdirs n k : tree n -> tree (snd (mkdirs n [] k)).
Proof. intros Ht. pose proof (mkdirs_spec n [] k) as Hs. destruct (mkdirs n [] k). apply Hs; [apply Ht|done]. Qed.

Lemma create_spec n k now n' : create_file n k now = Ok n' ->
  n' = <[k := NFile "" now]> n /\ n !! k <> Some NDir /\ n !! removelast k = Some NDir.
Proof.
  unfold create_file, node_at. destruct (n !! removelast k) as [[|data t]|] eqn:Ep; [|done|by destruct (existsb _ _)].
  destruct (n !! k) as [[|data t]|] eqn:Ek; [done|..]; intros [= <-]; by split_and!.
Qed.
Lemma tree_create n k now n' : create_file n k now = Ok n' -> tree n -> tree n'.
Proof.
  intros (-> & Hk & Hp)%create_spec Ht. apply tree_insert; [done| |done|by right].
  intros ->. by apply Hk, Ht.
Qed.
Lemma tree_file n k data data' t t' : n !! k = Some (NFile data t) -> tree n -> tree (<[k := NFile data' t']> n).
Proof.
  intros Hk Ht. destruct (snoc_or_nil k) as [->|(k' & x & ->)]; [destruct Ht; congruence|].
  apply tree_insert; [done|by destruct k'| |right; congruence].
  rewrite removelast_last. eapply Ht. by rewrite Hk.
Qed.
Lemma append_spec n k data now :
  append_data n k data now = n \/
  exists old t, n !! k = Some (NFile old t) /\ append_data n k data now = <[k := NFile (old +:+ data) now]> n.
Proof. unfold append_data. destruct (n !! k) as [[|old t]|]; eauto. Qed.
Lemma tree_append n k data now : tree n -> tree (append_data n k data now).
Proof. destruct (append_spec n k data now) as [->|(old & t & Hk & ->)]; [done|]. by eapply tree_file. Qed.
Lemma keeps_append (P : list string -> Prop) n k data now : P k -> keeps P n (append_data n k data now).
Proof. intros HP. destruct (append_spec n k data now) as [->|(old & t & Hk & ->)]; [apply keeps_refl|by apply keeps_insert]. Qed.
Lemma write_file_spec data k now n : let '(r, n') := write_file data k now n in
  (tree n -> tree n') /\ (forall P : list string -> Prop, P k -> keeps P n n') /\
  (r = Ok tt -> n' !! k = Some (NFile data now)) /\ (r <> Ok tt -> n' = n).
Proof.
  unfold write_file. destruct (create_file n k now) as [n'|e] eqn:E; [|by split_and!; auto using keeps_refl].
  pose proof (create_spec _ _ _ _ E) as (-> & _ & _). split_and!; [| | |done].
  - intros Ht. by eapply tree_append, tree_create.
  - intros P HP. eapply keeps_trans; [by apply keeps_insert|by apply keeps_append].
  - intros _. unfold append_data. by rewrite !lookup_insert_eq.
Qed.

Lemma below_spec k k' : below k k' = true <-> k `prefix_of` k'.
Proof. unfold below. by rewrite bool_decide_eq_true. Qed.
Lemma elem_of_prefixes p k : p ∈ prefixes k <-> exists x l, k = p ++ x :: l.
Proof.
  unfold prefixes. rewrite list_elem_of_fmap. split.
  - intros (i & -> & Hi). rewrite elem_of_seq in Hi. destruct (drop i k) as [|x l] eqn:E.
    + apply (f_equal length) in E. rewrite length_drop in E. cbn in E. lia.
    + exists x, l. by rewrite <- E, take_drop.
  - intros (x & l & ->). exists (length p). rewrite elem_of_seq, length_app, take_app_length. cbn. split; [done|lia].
Qed.
Lemma remove_spec n k left k' :
  remove_below n k left !! k' = if remains k left k' then n !! k' else None.
Proof.
  unfold remove_below. destruct (n !! k') as [node|] eqn:E.
  - destruct (remains k left k') eqn:Er.
    + rewrite map_lookup_filter, E. cbn. rewrite Er. by rewrite option_guard_True.
    + rewrite map_lookup_filter, E. cbn. rewrite Er. by rewrite option_guard_False.
  - rewrite map_lookup_filter, E. cbn. by destruct (remains _ _ _).
Qed.
Lemma remains_parent k left k' x : remains k left (k' ++ [x]) = true -> remains k left k' = true.
Proof.
  unfold remains. rewrite !orb_true_iff, !negb_true_iff, !forallb_forall. intros [Hb|Hl].
  - left. apply not_true_is_false. rewrite below_spec. intros Hp. apply not_true_iff_false in Hb. apply Hb, below_spec.
    by apply prefix_app_r.
  - right. intros p Hp. apply Hl. rewrite <- list_elem_of_In in *. rewrite elem_of_app, elem_of_prefixes in *.
    left. destruct Hp as [(y & l & ->)| ->%list_elem_of_singleton]; [exists y, (l ++ [x]); by rewrite <- app_assoc|by exists x, []].
Qed.
Lemma tree_remove n k left : k <> [] -> tree n -> tree (remove_below n k left).
Proof.
  intros Hk [Hr Ht]. split.
  - rewrite remove_spec. unfold remains. destruct (below k []) eqn:E; [|done].
    apply below_spec, prefix_nil_inv in E. done.
  - intros k' x. rewrite !remove_spec. destruct (remains k left (k' ++ [x])) eqn:E; [|by intros [? ?]].
    rewrite (remains_parent _ _ _ _ E). apply Ht.
Qed.
Lemma keeps_remove (P : list string -> Prop) n k left : (forall k', k `prefix_of` k' -> P k') -> keeps P n (remove_below n k left).
Proof.
  intros HP k'. rewrite remove_spec. unfold remains. destruct (below k k') eqn:E; [left; by apply HP, below_spec|auto].
Qed.

(** ** What a step may change on the disk *)
Definition tree_step (P : list string -> Prop) (n n' : Tree) : Prop := keeps P n n' /\ (tree n -> tree n').
Definition dframe (P : list string -> Prop) (d d' : Disk) : Prop :=
  tree_step P (dk_nodes d) (dk_nodes d') /\ dk_dir d' = dk_dir d /\ dk_faults d' = dk_faults d.

Lemma tree_step_refl P n : tree_step P n n.
Proof. split; [apply keeps_refl|done]. Qed.
Lemma dframe_refl P d : dframe P d d.
Proof. split; [apply tree_step_refl|done]. Qed.
Lemma dframe_trans P d1 d2 d3 : dframe P d1 d2 -> dframe P d2 d3 -> dframe P d1 d3.
Proof.
  intros ((K1 & T1) & D1 & F1) ((K2 & T2) & D2 & F2). split_and!; [split; [by eapply keeps_trans|auto]|congruence..].
Qed.
Lemma dframe_mono (P P' : list string -> Prop) d d' : (forall k, P k -> P' k) -> dframe P d d' -> dframe P' d d'.
Proof. intros HP ((K & T) & HD). split; [split; [by eapply keeps_mono|done]|done]. Qed.

Definition dwithin {A} (dir : string) (P : list string -> Prop) (m : M OsErr Disk A) : Prop :=
  forall d, dk_dir d = dir -> wp m (fun _ d' => dframe P d d') d.

Section Calls.
Context (dir : string) (P : list string -> Prop).

Lemma dwithin_call {A : Type} (path : string) (partial : DiskFault -> list string -> Z -> Tree -> Tree) (m : list string -> Z -> Tree -> result OsErr A * Tree) :
  (forall f now n, tree_step P n (partial f (locate dir path) now n)) ->
  (forall now n, tree_step P n (snd (m (locate dir path) now n))) -> dwithin dir P (call path partial m).
Proof.
  intros Hp Hm d Hd. unfold wp, call. rewrite Hd. destruct (String.eqb path "").
  - split; [apply tree_step_refl|done].
  - destruct (dk_faults d (dk_calls d)) as [f|]; [split; [apply Hp|done]|].
    specialize (Hm (dk_clock d (dk_calls d)) (dk_nodes d)). destruct (m _ _ _) as [r n']. by split.
Qed.
Lemma dwithin_quiet {A : Type} (path : string) (m : list string -> Z -> Tree -> result OsErr A * Tree) :
  (forall k now n, snd (m k now n) = n) -> dwithin dir P (call path undone m).
Proof. intros Hm. apply dwithin_call; intros; [|rewrite Hm]; apply tree_step_refl. Qed.

Lemma dwithin_Stat path : dwithin dir P (Stat path).
Proof. by apply dwithin_quiet. Qed.
Lemma dwithin_ReadFile path : dwithin dir P (ReadFile path).
Proof. by apply dwithin_quiet. Qed.
Lemma dwithin_Open path : dwithin dir P (Open path).
Proof. by apply dwithin_quiet. Qed.
Lemma dwithin_ReadAll path : dwithin dir P (ReadAll path).
Proof. by apply dwithin_quiet. Qed.
Lemma dwithin_Close path : dwithin dir P (Close path).
Proof. by apply dwithin_quiet. Qed.

Lemma dwithin_MkdirAll path k : locate dir path `prefix_of` k -> P k -> dwithin dir P (OsMkdirAll path).
Proof.
  intros Hk HP. assert (forall rest n, rest `prefix_of` locate dir path -> tree_step P n (snd (mkdirs n [] rest))) as Hm.
  { intros rest n Hr. split; [|apply tree_mkdirs]. pose proof (mkdirs_spec n [] rest) as Hs.
    destruct (mkdirs n [] rest) as [r n']. intros k'. destruct (proj2 (proj2 Hs) k') as [?|(H1 & H2 & H3)]; [auto|].
    right; right. split_and!; [done|done|]. exists k. split; [by etrans; [etrans|]|done]. }
  apply dwithin_call; intros; apply Hm; [apply prefix_take|done].
Qed.
Lemma dwithin_Create path : P (locate dir path) -> dwithin dir P (Create path).
Proof.
  intros HP. apply dwithin_call; [intros; apply tree_step_refl|]. intros now n.
  destruct (create_file _ _ _) as [n'|e] eqn:E; [|apply tree_step_refl]. split; [|by eapply tree_create].
  apply create_spec in E as (-> & _). by apply keeps_insert.
Qed.
Lemma dwithin_Write path data : P (locate dir path) -> dwithin dir P (Write path data).
Proof. intros HP. apply dwithin_call; intros; split; cbn; auto using keeps_append, tree_append. Qed.
Lemma dwithin_WriteFile path data : P (locate dir path) -> dwithin dir P (WriteFile path data).
Proof.
  intros HP. assert (forall x now n, tree_step P n (snd (write_file x (locate dir path) now n))) as Hw.
  { intros x now n. pose proof (write_file_spec x (locate dir path) now n) as Hs. destruct (write_file _ _ _ _).
    split; [by apply Hs|apply Hs]. }
  apply dwithin_call; [intros f now n|intros; apply Hw]. destruct (df_done f); [apply tree_step_refl|apply Hw].
Qed.
Lemma dwithin_RemoveAll path : (forall k, locate dir path `prefix_of` k -> P k) -> dwithin dir P (RemoveAll path).
Proof.
  intros HP. unfold RemoveAll. destruct (String.eqb path ""); [intros d _; apply dframe_refl|].
  apply dwithin_call; intros; destruct (locate dir path) as [|x k] eqn:E; try apply tree_step_refl.
  - split; [by apply keeps_remove|by apply tree_remove].
  - destruct (node_at n (x :: k)) as [node|[]]; try apply tree_step_refl. split; [by apply keeps_remove|by apply tree_remove].
Qed.
Lemma dwithin_Remove path : P (locate dir path) -> dwithin dir P (Remove path).
Proof.
  intros HP. apply dwithin_call; intros; [apply tree_step_refl|]. set (k := locate dir path) in *.
  destruct (node_at n k); [|apply tree_step_refl]. destruct (has_children n k) eqn:Hc; [apply tree_step_refl|].
  destruct (decide (k = [])) as [Hn|Hn]; [rewrite bool_decide_true by done; apply tree_step_refl|].
  rewrite bool_decide_false by done. cbn [orb snd]. split.
  - intros k'. destruct (decide (k' = k)) as [->|]; [auto|]. right; left. by apply lookup_delete_ne.
  - intros [Hr Ht]. split; [by rewrite lookup_delete_ne|]. intros k' x Hs.
    destruct (decide (k' ++ [x] = k)) as [E|Hne]; [rewrite E, lookup_delete_eq in Hs; by destruct Hs|].
    rewrite lookup_delete_ne in Hs by done. destruct (decide (k' = k)) as [->|Hk]; [|rewrite lookup_delete_ne by done; by eapply Ht].
    exfalso. apply not_true_iff_false in Hc. apply Hc. destruct Hs as [node Hs]. unfold has_children.
    apply existsb_exists. exists (k ++ [x]). split.
    + apply list_elem_of_In, list_elem_of_fmap. exists (k ++ [x], node). split; [done|by apply elem_of_map_to_list].
    + rewrite andb_true_iff, negb_true_iff, bool_decide_eq_false, below_spec. split; [by apply prefix_app_r|].
      intros Hk%(f_equal length). rewrite length_app in Hk. cbn in Hk. lia.
Qed.
Lemma dwithin_Chtimes path t : P (locate dir path) -> dwithin dir P (Chtimes path t).
Proof.
  intros HP. apply dwithin_call; intros; [apply tree_step_refl|]. unfold node_at.
  destruct (n !! locate dir path) as [[|data t']|] eqn:E; [apply tree_step_refl| |destruct (existsb _ _); apply tree_step_refl].
  split; [by apply keeps_insert|by eapply tree_file].
Qed.

Lemma dwithin_ret {A} (a : A) : dwithin dir P (ret a).
Proof. intros d _. apply dframe_refl. Qed.
Lemma dwithin_bind {A B} (m : M OsErr Disk A) (k : A -> M OsErr Disk B) :
  dwithin dir P m -> (forall a, dwithin dir P (k a)) -> dwithin dir P (bind m k).
Proof.
  intros Hm Hk d Hd. apply wp_bind. eapply wp_mono; [by apply Hm|]. intros [a|e] d' Hf; [|done].
  eapply wp_mono; [apply Hk; by rewrite (proj1 (proj2 Hf))|]. intros r d'' Hf'. by eapply dframe_trans.
Qed.
Lemma dwithin_bind_or {A B} (m : M OsErr Disk A) (h : OsErr -> M OsErr Disk B) (k : A -> M OsErr Disk B) :
  dwithin dir P m -> (forall e, dwithin dir P (h e)) -> (forall a, dwithin dir P (k a)) -> dwithin dir P (bind_or m h k).
Proof.
  intros Hm Hh Hk d Hd. apply wp_bind_or. eapply wp_mono; [by apply Hm|].
  intros [a|e] d' Hf; (eapply wp_mono; [(apply Hk || apply Hh); by rewrite (proj1 (proj2 Hf))|]);
    intros r d'' Hf'; by eapply dframe_trans.
Qed.

#[local] Ltac dframe_step :=
  lazymatch goal with
  | |- forall _, _ => intros ?
  | |- dwithin _ _ (bind _ _) => apply dwithin_bind
  | |- dwithin _ _ (bind_or _ _ _) => apply dwithin_bind_or
  | |- dwithin _ _ (ret _) => apply dwithin_ret
  | |- dwithin _ _ (Open _) => apply dwithin_Open
  | |- dwithin _ _ (Stat _) => apply dwithin_Stat
  | |- dwithin _ _ (Close _) => apply dwithin_Close
  | |- dwithin _ _ (ReadAll _) => apply dwithin_ReadAll
  | |- dwithin _ _ (Create _) => apply dwithin_Create
  | |- dwithin _ _ (Write _ _) => apply dwithin_Write
  | |- dwithin _ _ (Chtimes _ _) => apply dwithin_Chtimes
  | |- dwithin _ _ (Remove _) => apply dwithin_Remove
  end.
Lemma dwithin_hash path : dwithin dir P (hashFileMD5 path).
Proof.
  apply dwithin_bind; [apply dwithin_Open|]. intros _. apply dwithin_bind; [by apply dwithin_quiet|].
  intros data. apply dwithin_ret.
Qed.
Lemma dwithin_copyFile src dst x : ends_in dst x -> plain_seg x = true -> P (locate dir dst) ->
  dwithin dir P (copyFile src dst).
Proof.
  intros Hd Hx HP. unfold copyFile, Copy.
  repeat (dframe_step; try exact HP).
  apply (dwithin_MkdirAll _ (locate dir dst)); [|done]. rewrite (locate_dir _ _ _ Hd Hx). by apply prefix_app_r.
Qed.

(** A temporary file has a plain name in its directory. *)
Definition temp_name (prefix : string) (name : string) : Prop := exists n : N, name = prefix +:+ pretty n.
Lemma create_temp_spec tries random k prefix now n :
  (forall name, temp_name prefix name -> P (k ++ [name])) ->
  let '(r, n') := create_temp tries random k prefix now n in
  tree_step P n n' /\ match r with Ok name => temp_name prefix name | Err _ => True end.
Proof.
  intros HP. induction tries as [|tries IH]; cbn [create_temp]; [split; [apply tree_step_refl|done]|].
  assert (temp_name prefix (prefix +:+ pretty (random tries))) as Ht by by eexists.
  destruct (n !! _) eqn:E; [exact IH|]. destruct (create_file _ _ _) as [n'|e] eqn:Ec; (split; [|done]).
  - split; [|by eapply tree_create]. apply create_spec in Ec as (-> & _). by apply keeps_insert, HP.
  - apply tree_step_refl.
Qed.
Lemma dwithin_probe path : path <> "" -> (forall k, locate dir path `prefix_of` k -> P k) ->
  dwithin dir P (probeLocalDirectoryWritable path).
Proof.
  intros Hn HP d Hd. unfold probeLocalDirectoryWritable. apply wp_bind_or.
  assert (forall name, temp_name ".yunxia-write-test-" name -> plain_seg name = true) as Hplain.
  { intros name [n ->]. apply plain_seg_spec. split_and!; [done..|]. rewrite has_byte_app, pretty_no_slash. done. }
  set (temp := CreateTemp path ".yunxia-write-test-").
  assert (wp temp (fun r d' => dframe P d d' /\
            match r with Ok p => exists name, temp_name ".yunxia-write-test-" name /\ p = path_join path name | Err _ => True end) d)
    as Htemp.
  { unfold temp, CreateTemp, wp, bind, call. rewrite Hd. destruct (String.eqb path ""); [split; [split; [apply tree_step_refl|done]|done]|].
    destruct (dk_faults d (dk_calls d)) as [f|]; [split; [split; [apply tree_step_refl|done]|done]|].
    pose proof (create_temp_spec 10000 (fun i => dk_random d (dk_calls d + i)) (locate dir path) ".yunxia-write-test-"
                  (dk_clock d (dk_calls d)) (dk_nodes d)) as Hs.
    destruct (create_temp _ _ _ _ _ _) as [[name|e] n']; destruct Hs as [Hs Hname]; try (intros; apply HP; by apply prefix_app_r);
      (split; [by split|]); [by exists name|done]. }
  eapply wp_mono; [exact Htemp|]. intros [p|e] d' [Hf Hp]; [|done]. destruct Hp as (name & Hname & ->).
  assert (dwithin dir P (
    _u <-! Close (path_join path name) or _e => (_u <-! Remove (path_join path name) or _e' => ret false ;; ret false) ;;
    _u <-! Remove (path_join path name) or _e => ret false ;; ret true)) as Hrest.
  { repeat dframe_step; apply HP; rewrite locate_join1 by auto; by apply prefix_app_r. }
  eapply wp_mono; [apply Hrest; by rewrite (proj1 (proj2 Hf))|]. intros r d'' Hf'. by eapply dframe_trans.
Qed.
End Calls.

(** ** What a step keeps in a host

    [hkeeps dir I P m]: from a world with the invariant [I], [m] keeps the
    invariant, and changes the disk, whose working directory is [dir],
    only within [P]. *)
Section HostFrames.
Context `{DatabaseLaws} (dir : string) (I : World -> Prop) (P : list string -> Prop).

Definition winv {A} (m : M GoErr World A) : Prop := forall w, I w -> wp m (fun _ w' => I w') w.
Definition hstep (h h' : Host) : Prop := I (h_world h') /\ dframe P (h_disk h) (h_disk h').
Definition hkeeps {E A} (m : M E Host A) : Prop :=
  forall h, dk_dir (h_disk h) = dir -> I (h_world h) -> wp m (fun _ h' => hstep h h') h.

Lemma winv_within {A} ts (m : M GoErr World A) :
  (forall w w', I w -> frames ts w w' -> I w') -> within ts m -> winv m.
Proof. intros HI Hm w Hw. eapply wp_mono; [apply Hm|]. intros r w' Hf. by eapply HI. Qed.

Lemma hkeeps_pure {E A} (m : M E Host A) : (forall h, snd (m h) = h) -> hkeeps m.
Proof. intros Hm h _ HI. unfold wp. rewrite Hm. split; [done|apply dframe_refl]. Qed.
Lemma hkeeps_ret {A} (a : A) : hkeeps (ret a : M GoErr Host A).
Proof. by apply hkeeps_pure. Qed.
Lemma hkeeps_throw {A} e : hkeeps (throw e : M GoErr Host A).
Proof. by apply hkeeps_pure. Qed.
Lemma hkeeps_lift {A} (r : result GoErr A) : hkeeps (lift_result r : M GoErr Host A).
Proof. by apply hkeeps_pure. Qed.
(** What the first computation returns may matter to the rest. *)
Lemma hkeeps_bind_post {E A B} (Q : A -> Prop) (m : M E Host A) (k : A -> M E Host B) :
  (forall h, dk_dir (h_disk h) = dir -> I (h_world h) ->
     wp m (fun r h' => hstep h h' /\ match r with Ok a => Q a | Err _ => True end) h) ->
  (forall a, Q a -> hkeeps (k a)) -> hkeeps (bind m k).
Proof.
  intros Hm Hk h Hd HI. apply wp_bind. eapply wp_mono; [by apply Hm|]. intros [a|e] h' [[HI' Hf] HQ]; [|done].
  eapply wp_mono; [apply Hk; [done| |done]; by rewrite (proj1 (proj2 Hf))|].
  intros r h'' [HI'' Hf']. split; [done|by eapply dframe_trans].
Qed.
Lemma hkeeps_bind {E A B} (m : M E Host A) (k : A -> M E Host B) :
  hkeeps m -> (forall a, hkeeps (k a)) -> hkeeps (bind m k).
Proof.
  intros Hm Hk. apply (hkeeps_bind_post (fun _ => True)); [|auto]. intros h Hd HI.
  eapply wp_mono; [by apply Hm|]. by intros [a|e].
Qed.
Lemma hkeeps_bind_lift {A B} (r : result GoErr A) (k : A -> M GoErr Host B) :
  (forall a, r = Ok a -> hkeeps (k a)) -> hkeeps (bind (lift_result r) k).
Proof.
  intros Hk. destruct r as [a|e]; [exact (Hk a eq_refl)|]. by apply hkeeps_pure.
Qed.
Lemma winv_bind_lift {A B} (r : result GoErr A) (k : A -> M GoErr World B) :
  (forall a, r = Ok a -> winv (k a)) -> winv (bind (lift_result r) k).
Proof. intros Hk. destruct r as [a|e]; [exact (Hk a eq_refl)|]. by intros w. Qed.
Lemma hkeeps_bind_or {E E' A B} (m : M E Host A) (f : E -> M E' Host B) (k : A -> M E' Host B) :
  hkeeps m -> (forall e, hkeeps (f e)) -> (forall a, hkeeps (k a)) -> hkeeps (bind_or m f k).
Proof.
  intros Hm Hf Hk h Hd HI. apply wp_bind_or. eapply wp_mono; [by apply Hm|].
  intros [a|e] h' [HI' Hh]; (eapply wp_mono; [(apply Hk || apply Hf); [by rewrite (proj1 (proj2 Hh))|done]|]);
    intros r h'' [HI'' Hh']; (split; [done|by eapply dframe_trans]).
Qed.
Lemma hkeeps_bind_or_post {E E' A B} (Q : A -> Prop) (m : M E Host A) (f : E -> M E' Host B) (k : A -> M E' Host B) :
  (forall h, dk_dir (h_disk h) = dir -> I (h_world h) ->
     wp m (fun r h' => hstep h h' /\ match r with Ok a => Q a | Err _ => True end) h) ->
  (forall e, hkeeps (f e)) -> (forall a, Q a -> hkeeps (k a)) -> hkeeps (bind_or m f k).
Proof.
  intros Hm Hf Hk h Hd HI. apply wp_bind_or. eapply wp_mono; [by apply Hm|].
  intros [a|e] h' [[HI' Hh] HQ]; (eapply wp_mono; [(apply (Hk a HQ) || apply Hf); [by rewrite (proj1 (proj2 Hh))|done]|]);
    intros r h'' [HI'' Hh']; (split; [done|by eapply dframe_trans]).
Qed.
Lemma hkeeps_bind_returns {E A B} (Q : A -> Prop) (m : M E Host A) (k : A -> M E Host B) :
  hkeeps m -> returns m Q -> (forall a, Q a -> hkeeps (k a)) -> hkeeps (bind m k).
Proof. intros Hm HQ. apply hkeeps_bind_post. intros h Hd HI. apply wp_conj; [by apply Hm|apply HQ]. Qed.
Lemma hkeeps_bind_or_returns {E E' A B} (Q : A -> Prop) (m : M E Host A) (f : E -> M E' Host B) (k : A -> M E' Host B) :
  hkeeps m -> returns m Q -> (forall e, hkeeps (f e)) -> (forall a, Q a -> hkeeps (k a)) -> hkeeps (bind_or m f k).
Proof. intros Hm HQ. apply hkeeps_bind_or_post. intros h Hd HI. apply wp_conj; [by apply Hm|apply HQ]. Qed.
Lemma hkeeps_map_err {A E E'} (f : E -> E') (m : M E Host A) : hkeeps m -> hkeeps (map_err f m).
Proof. intros Hm h Hd HI. apply wp_map_err. eapply wp_mono; [by apply Hm|]. by intros [a|e]. Qed.
Lemma hkeeps_world {A} (m : M GoErr World A) : winv m -> hkeeps (on_world m).
Proof.
  intros Hm h _ HI. apply wp_zoom. eapply wp_mono; [by apply Hm|]. intros r w Hw. split; [exact Hw|apply dframe_refl].
Qed.
Lemma hkeeps_disk {A} (m : M OsErr Disk A) : dwithin dir P m -> hkeeps (on_disk m).
Proof. intros Hm h Hd HI. apply wp_zoom. eapply wp_mono; [by apply Hm|]. intros r d Hf. by split. Qed.
Lemma hkeeps_os {A} (m : M OsErr Disk A) : dwithin dir P m -> hkeeps (os m).
Proof. intros Hm. by apply hkeeps_map_err, hkeeps_disk. Qed.

Lemma winv_ret {A} (a : A) : winv (ret a).
Proof. by intros w. Qed.
Lemma winv_throw {A} e : winv (throw e : M GoErr World A).
Proof. by intros w. Qed.
Lemma winv_lift {A} (r : result GoErr A) : winv (lift_result r).
Proof. by intros w. Qed.
Lemma winv_bind {A B} (m : M GoErr World A) (k : A -> M GoErr World B) : winv m -> (forall a, winv (k a)) -> winv (bind m k).
Proof.
  intros Hm Hk w HI. apply wp_bind. eapply wp_mono; [by apply Hm|]. intros [a|e] w' HI'; [by apply Hk|done].
Qed.
Lemma winv_bind_post {A B} (Q : A -> Prop) (m : M GoErr World A) (k : A -> M GoErr World B) :
  (forall w, I w -> wp m (fun r w' => I w' /\ match r with Ok a => Q a | Err _ => True end) w) ->
  (forall a, Q a -> winv (k a)) -> winv (bind m k).
Proof.
  intros Hm Hk w HI. apply wp_bind. eapply wp_mono; [by apply Hm|]. intros [a|e] w' [HI' HQ]; [by apply Hk|done].
Qed.
Lemma winv_bind_or {A B} (m : M GoErr World A) f (k : A -> M GoErr World B) :
  winv m -> (forall e, winv (f e)) -> (forall a, winv (k a)) -> winv (bind_or m f k).
Proof.
  intros Hm Hf Hk w HI. apply wp_bind_or. eapply wp_mono; [by apply Hm|]. intros [a|e] w' HI'; [by apply Hk|by apply Hf].
Qed.
End HostFrames.

(** [hkeeps dir I P m] and [winv I m], by the shape of [m]. *)
Ltac hframe_step :=
  lazymatch goal with
  | |- forall _, _ => intros ?
  | |- hkeeps _ _ _ (let _ := _ in _) => cbv zeta
  | |- winv _ (let _ := _ in _) => cbv zeta
  | |- hkeeps _ _ _ (bind (lift_result _) _) => apply hkeeps_bind_lift; intros ? ?
  | |- winv _ (bind (lift_result _) _) => apply winv_bind_lift; intros ? ?
  | |- hkeeps _ _ _ (bind _ _) => apply hkeeps_bind
  | |- hkeeps _ _ _ (bind_or _ _ _) => apply hkeeps_bind_or
  | |- hkeeps _ _ _ (map_err _ _) => apply hkeeps_map_err
  | |- hkeeps _ _ _ (if ?b then _ else _) => destruct b eqn:?
  | |- hkeeps _ _ _ (match ?x with _ => _ end) => destruct x eqn:?
  | |- hkeeps _ _ _ (ret _) => apply hkeeps_ret
  | |- hkeeps _ _ _ (throw _) => apply hkeeps_throw
  | |- hkeeps _ _ _ (lift_result _) => apply hkeeps_lift
  | |- hkeeps _ _ _ (on_world _) => apply hkeeps_world
  | |- hkeeps _ _ _ (on_disk _) => apply hkeeps_disk
  | |- hkeeps _ _ _ (os _) => apply hkeeps_os
  | |- dwithin _ _ (Stat _) => apply dwithin_Stat
  | |- dwithin _ _ (ReadFile _) => apply dwithin_ReadFile
  | |- dwithin _ _ (hashFileMD5 _) => apply dwithin_hash
  | |- dwithin _ _ (Close _) => apply dwithin_Close
  | |- winv _ (bind _ _) => apply winv_bind
  | |- winv _ (bind_or _ _ _) => apply winv_bind_or
  | |- winv _ (ret _) => apply winv_ret
  | |- winv _ (throw _) => apply winv_throw
  | |- winv _ (lift_result _) => apply winv_lift
  | |- winv _ (if ?b then _ else _) => destruct b eqn:?
  | |- winv _ (match ?x with _ => _ end) => destruct x eqn:?
  end.
Ltac hframe_tac := repeat hframe_step.

(** ** A disk that does not fail

    Its calls do what they are for. *)
Definition at_state (dir : string) (n : Tree) (d : Disk) : Prop :=
  (forall i, dk_faults d i = None) /\ dk_dir d = dir /\ dk_nodes d = n.
Lemma wp_call {A : Type} (dir : string) (n : Tree) (path : string) (partial : DiskFault -> list string -> Z -> Tree -> Tree)
    (m : list string -> Z -> Tree -> result OsErr A * Tree) (Q : result OsErr A -> Disk -> Prop) (d : Disk) :
  at_state dir n d -> path <> "" ->
  (forall d' now, at_state dir (snd (m (locate dir path) now n)) d' -> Q (fst (m (locate dir path) now n)) d') ->
  wp (call path partial m) Q d.
Proof.
  intros (Hf & Hd & Hn) Hp HQ. unfold wp, call. rewrite Hd, Hn, Hf, (proj2 (String.eqb_neq _ _) Hp).
  specialize (HQ { d with dk_nodes := snd (m (locate dir path) (dk_clock d (dk_calls d)) n); dk_calls ::= S } (dk_clock d (dk_calls d))).
  destruct (m _ _ _) as [r n']. by apply HQ.
Qed.
Lemma node_at_ok (n : Tree) (k : list string) node : node_at n k = Ok node <-> n !! k = Some node.
Proof. unfold node_at. destruct (n !! k); [|destruct (existsb _ _)]; naive_solver. Qed.
Lemma node_at_err (n : Tree) (k : list string) e : node_at n k = Err e -> n !! k = None.
Proof. unfold node_at. by destruct (n !! k). Qed.

Section Sound.
Context (dir : string) (n : Tree) (path : string) (Hp : path <> "").
Notation k := (locate dir path).

Lemma wp_Stat (Q : result OsErr FileInfo -> Disk -> Prop) (d : Disk) : at_state dir n d ->
  (forall e d', n !! k = None -> at_state dir n d' -> Q (Err e) d') ->
  (forall node now d', n !! k = Some node -> at_state dir n d' -> Q (Ok (info_of path node now)) d') -> wp (Stat path) Q d.
Proof.
  intros Hd He Hk. apply (wp_call dir n); [done..|]. intros d' now Hd'. unfold with_node in *. cbn in *.
  destruct (node_at n k) as [node|e] eqn:E; [apply Hk; [by apply node_at_ok|done]|by apply He; [eapply node_at_err|]].
Qed.
(** Reading what is there, whole. *)
Lemma wp_read (m := fun k (_ : Z) => with_node file_data k) (Q : result OsErr string -> Disk -> Prop) (d : Disk) : at_state dir n d ->
  (forall e d', (forall data t, n !! k <> Some (NFile data t)) -> at_state dir n d' -> Q (Err e) d') ->
  (forall data t d', n !! k = Some (NFile data t) -> at_state dir n d' -> Q (Ok data) d') -> wp (call path undone m) Q d.
Proof.
  intros Hd He Hk. apply (wp_call dir n); [done..|]. unfold m, with_node. intros d' now Hd'. cbn in *.
  destruct (node_at n k) as [[|data t]|e] eqn:E; cbn.
  - apply He; [|done]. apply node_at_ok in E. intros data t. by rewrite E.
  - apply node_at_ok in E. by eapply Hk.
  - apply He; [|done]. apply node_at_err in E. intros data t. by rewrite E.
Qed.
Lemma wp_Open (Q : result OsErr unit -> Disk -> Prop) (d : Disk) : at_state dir n d ->
  (forall r d', at_state dir n d' -> Q r d') -> wp (Open path) Q d.
Proof. intros Hd HQ. apply (wp_call dir n); [done..|]. intros d' now. apply HQ. Qed.
Lemma wp_Close (Q : result OsErr unit -> Disk -> Prop) (d : Disk) : at_state dir n d ->
  (forall d', at_state dir n d' -> Q (Ok tt) d') -> wp (Close path) Q d.
Proof. intros Hd HQ. apply (wp_call dir n); [done..|]. intros d' now. apply HQ. Qed.
(** New directories, and nothing else. *)
Definition grown (n' : Tree) : Prop :=
  (tree n -> tree n') /\
  forall k', n' !! k' = n !! k' \/ (n !! k' = None /\ n' !! k' = Some NDir /\ k' `prefix_of` k).
Lemma wp_MkdirAll (Q : result OsErr unit -> Disk -> Prop) (d : Disk) : at_state dir n d ->
  (forall r n' d', grown n' -> at_state dir n' d' -> Q r d') -> wp (OsMkdirAll path) Q d.
Proof.
  intros Hd HQ. apply (wp_call dir n); [done..|]. intros d' now Hd'. eapply HQ; [|exact Hd'].
  split; [intros Ht; by apply tree_mkdirs|]. pose proof (mkdirs_spec n [] k) as Hs. destruct (mkdirs n [] k). apply Hs.
Qed.
Lemma wp_create_ok (Q : result OsErr unit -> Disk -> Prop) (d : Disk) : at_state dir n d ->
  (forall e d', at_state dir n d' -> Q (Err e) d') ->
  (forall now d', n !! k <> Some NDir -> (tree n -> tree (<[k := NFile "" now]> n)) ->
     at_state dir (<[k := NFile "" now]> n) d' -> Q (Ok tt) d') ->
  wp (Create path) Q d.
Proof.
  intros Hd He Hk. apply (wp_call dir n); [done..|]. intros d' now. destruct (create_file n k now) as [n'|e] eqn:E; cbn; [|by auto].
  pose proof (tree_create _ _ _ _ E) as Ht. apply create_spec in E as (-> & Hn & _). eauto.
Qed.
Lemma wp_Write data (Q : result OsErr unit -> Disk -> Prop) (d : Disk) : at_state dir n d ->
  (forall now d', at_state dir (append_data n k data now) d' -> Q (Ok tt) d') -> wp (Write path data) Q d.
Proof. intros Hd HQ. apply (wp_call dir n); [done..|]. intros d' now. apply HQ. Qed.
Lemma wp_WriteFile data (Q : result OsErr unit -> Disk -> Prop) (d : Disk) : at_state dir n d ->
  (forall e d', at_state dir n d' -> Q (Err e) d') ->
  (forall now d', (tree n -> tree (<[k := NFile data now]> n)) -> at_state dir (<[k := NFile data now]> n) d' -> Q (Ok tt) d') ->
  wp (WriteFile path data) Q d.
Proof.
  intros Hd He Hk. apply (wp_call dir n); [done..|]. intros d' now. unfold write_file.
  destruct (create_file n k now) as [n'|e] eqn:E; cbn; [|by auto]. pose proof (tree_create _ _ _ _ E) as Ht.
  apply create_spec in E as (-> & _). intros Hd'.
  assert (append_data (<[k := NFile "" now]> n) k data now = <[k := NFile data now]> n) as Ea.
  { unfold append_data. rewrite lookup_insert_eq. cbn. by rewrite insert_insert_eq. }
  rewrite Ea in Hd'. eapply Hk; [|exact Hd']. intros Htree. rewrite <- Ea. by apply tree_append, Ht.
Qed.
Lemma wp_RemoveAll (Q : result OsErr unit -> Disk -> Prop) (d : Disk) : at_state dir n d ->
  (forall r n' d', (forall k', ~ k `prefix_of` k' -> n' !! k' = n !! k') -> (tree n -> tree n') ->
     (k <> [] -> is_Some (n !! k) -> forall k', k `prefix_of` k' -> n' !! k' = None) -> at_state dir n' d' -> Q r d') ->
  wp (RemoveAll path) Q d.
Proof.
  intros Hd HQ. unfold RemoveAll. rewrite (proj2 (String.eqb_neq _ _) Hp). apply (wp_call dir n); [done..|]. intros d' now Hd'.
  eapply HQ; [| | |exact Hd'].
  - intros k' Hk. destruct k as [|x l]; [by destruct Hk; apply prefix_nil|]. destruct (node_at _ _) as [|[]]; try done.
    cbn. rewrite remove_spec. unfold remains.
    assert (below (x :: l) k' = false) as ->; [|done]. apply not_true_is_false. by rewrite below_spec.
  - intros Ht. destruct k as [|x l]; [done|]. destruct (node_at _ _) as [|[]]; try done. by apply tree_remove.
  - intros Hne [node Hs] k' Hk. destruct k as [|x l]; [done|]. rewrite (proj2 (node_at_ok _ _ _) Hs). cbn.
    rewrite remove_spec. unfold remains. rewrite (proj2 (below_spec _ _) Hk). cbn.
    rewrite forallb_app. cbn. rewrite (proj2 (below_spec _ _) Hk). cbn. by rewrite andb_false_r.
Qed.
End Sound.
