(* ===== verification/Walks.v ===== *)
(** * Directories of the local disk

    Making and reading one directory, [filepath.WalkDir], and what
    [local_storage_helpers.go] and [file_service.go] do with walks: copying
    a directory and adding up its files.

    A walk reads each directory when it comes to it, so that it sees what
    it wrote itself.  The system refuses paths that are too long; here, a
    walk fails when it is [path_limit] directories deep.  [WalkProps] shows
    that copies to somewhere else do not come to that, when the tree is
    less deep. *)
From S2P Require Import Prelude GoStrings Paths Storage Files.
From stdpp Require Import base list strings gmap.
From Stdlib Require Import ZArith Lia Ascii.

Local Open Scope string_scope.
Local Open Scope list_scope.
Local Open Scope go_scope.

(** ** System calls *)
Definition OsMkdir (path : string) : M OsErr Disk unit :=
  call path undone (fun k _ nodes =>
    match node_at nodes (removelast k) with
    | Err e => (Err e, nodes)
    | Ok (NFile _ _) => (Err not_a_directory, nodes)
    | Ok NDir =>
        match nodes !! k with
        | Some _ => (Err OsExist, nodes)
        | None => (Ok tt, <[k := NDir]> nodes)
        end
    end).

(** The entries of a directory by name, and whether they are directories.
    No file is named otherwise than by an element of a path. *)
Definition is_dir (node : Node) : bool := match node with NDir => true | NFile _ _ => false end.
Definition child_name (k k' : list string) : option string :=
  if below k k' then match drop (length k) k' with [x] => if plain_seg x then Some x else None | _ => None end else None.
Definition entry_less (a b : string * bool) : bool := String.ltb (fst a) (fst b).
Definition children (k : list string) (nodes : Tree) : list (string * bool) :=
  stable_sort entry_less
    (omap (fun kv => option_map (fun x => (x, is_dir (snd kv))) (child_name k (fst kv))) (map_to_list nodes)).
Definition ReadDir (path : string) : M OsErr Disk (list (string * bool)) :=
  call path undone (fun k _ nodes =>
    (match node_at nodes k with
     | Err e => Err e
     | Ok (NFile _ _) => Err not_a_directory
     | Ok NDir => Ok (children k nodes)
     end, nodes)).

(** ** [filepath.WalkDir] *)
Class PathLimit := path_limit : nat.
Definition name_too_long : OsErr := OsText "file name too long".

(** What is visited: the path and its elements below the root of the walk,
    and whether it is a directory.  The visitor says whether to skip it. *)
Definition Visitor (A : Type) : Type := string -> list string -> bool -> A -> M OsErr Disk (A * bool).
Section Walk.
Context {A : Type} (visit : Visitor A).
Fixpoint walk_entries (walk : string -> list string -> bool -> A -> M OsErr Disk A) (current : string)
    (relative : list string) (entries : list (string * bool)) (a : A) : M OsErr Disk A :=
  match entries with
  | [] => ret a
  | (name, dir) :: rest =>
      a <-! walk (path_join current name) (relative ++ [name]) dir a ;;
      walk_entries walk current relative rest a
  end.
Fixpoint walk_dir (limit : nat) (current : string) (relative : list string) (dir : bool) (a : A) : M OsErr Disk A :=
  visited <-! visit current relative dir a ;;
  let '(a, skip) := visited in
  if negb dir || skip then ret a
  else
    match limit with
    | O => throw name_too_long
    | S limit =>
        entries <-! ReadDir current ;;
        walk_entries (walk_dir limit) current relative entries a
    end.
(** An error at a directory ends the walk. *)
Definition WalkDir `{PathLimit} (root : string) (a : A) : M OsErr Disk A :=
  info <-! Stat root ;;
  walk_dir path_limit root [] (fsi_IsDir info) a.
End Walk.

(** The path of what is visited, relative to the root of the walk. *)
Definition relative_path (relative : list string) : string := match relative with [] => "." | _ => tail_of relative end.

(** ** [local_storage_helpers.go] *)
Definition copy_entry (dstDir : string) : Visitor unit := fun current relative dir _ =>
  let target := path_join dstDir (relative_path relative) in
  do! (if dir then OsMkdirAll target else copyFile current target) ;;
  ret (tt, false).
Definition copyDirectory `{PathLimit} (srcDir dstDir : string) : M OsErr Disk unit := WalkDir (copy_entry dstDir) srcDir tt.

(** ** [file_service.go] *)
Definition add_size : Visitor Z := fun current _ dir total =>
  if dir then ret (total, false)
  else
    info <-! Stat current ;;
    ret ((total + fsi_Size info)%Z, false).
Definition localEntrySize `{PathLimit} (physicalPath : string) (info : FileInfo) : M OsErr Disk Z :=
  if negb (fsi_IsDir info) then ret (fsi_Size info) else WalkDir add_size physicalPath 0%Z.
