(* ===== verification/DiskProps.v ===== *)
(** * What calls do to the tree of a disk

    Rules for computations on a disk with a given schedule of faults, what
    renaming makes of a tree, and what the calls of [Files] and [Walks] do,
    on disks that fail and on disks that do not. *)
From S2P Require Import Prelude GoStrings Entities Paths Tables Db Auditing Storage Files Walks.
From stdpp Require Import base list strings gmap.
From Stdlib Require Import ZArith Lia Ascii.

Local Open Scope string_scope.
Local Open Scope list_scope.
Local Open Scope go_scope.

(** ** What a step does to the tree of a disk

    [tspec m n Q]: from a disk with the tree [n], [m] returns, and leaves a
    tree, as [Q] says; calls may fail. *)
Section TreeSpecs.
Context (dir : string) (faults : nat -> option DiskFault).
Definition holds (n : Tree) (d : Disk) : Prop := dk_faults d = faults /\ dk_dir d = dir /\ dk_nodes d = n.

Section Rules.
Context {S : Type} (disk : S -> Disk).
Definition tspec {E A} (m : M E S A) (n : Tree) (Q : result E A -> Tree -> Prop) : Prop :=
  forall s, holds n (disk s) -> wp m (fun r s' => exists n', holds n' (disk s') /\ Q r n') s.

Lemma tspec_ret {E A} (a : A) n (Q : result E A -> Tree -> Prop) : Q (Ok a) n -> tspec (ret a) n Q.
Proof. intros HQ s Hs. by exists n. Qed.
Lemma tspec_throw {E A} e n (Q : result E A -> Tree -> Prop) : Q (Err e) n -> tspec (throw e) n Q.
Proof. intros HQ s Hs. by exists n. Qed.
Lemma tspec_mono {E A} (m : M E S A) n (P Q : result E A -> Tree -> Prop) : tspec m n P -> (forall r n', P r n' -> Q r n') -> tspec m n Q.
Proof. intros Hm HQ s Hs. eapply wp_mono; [by apply Hm|]. intros r s' (n' & Hn & HP). exists n'. auto. Qed.
Lemma tspec_bind {E A B} (m : M E S A) (k : A -> M E S B) n (P : result E A -> Tree -> Prop) Q :
  tspec m n P -> (forall e n', P (Err e) n' -> Q (Err e) n') -> (forall a n', P (Ok a) n' -> tspec (k a) n' Q) -> tspec (bind m k) n Q.
Proof.
  intros Hm He Hk s Hs. apply wp_bind. eapply wp_mono; [by apply Hm|]. intros [a|e] s' (n' & Hn & HP); [by eapply Hk|].
  exists n'. auto.
Qed.
Lemma tspec_bind_or {E E' A B} (m : M E S A) (f : E -> M E' S B) (k : A -> M E' S B) n (P : result E A -> Tree -> Prop) Q :
  tspec m n P -> (forall e n', P (Err e) n' -> tspec (f e) n' Q) -> (forall a n', P (Ok a) n' -> tspec (k a) n' Q) ->
  tspec (bind_or m f k) n Q.
Proof.
  intros Hm Hf Hk s Hs. apply wp_bind_or. eapply wp_mono; [by apply Hm|]. intros [a|e] s' (n' & Hn & HP); [by eapply Hk|by eapply Hf].
Qed.
Lemma tspec_map_err {E E' A} (f : E -> E') (m : M E S A) n (P : result E A -> Tree -> Prop) (Q : result E' A -> Tree -> Prop) :
  tspec m n P -> (forall e n', P (Err e) n' -> Q (Err (f e)) n') -> (forall a n', P (Ok a) n' -> Q (Ok a) n') -> tspec (map_err f m) n Q.
Proof.
  intros Hm He Hk s Hs. apply wp_map_err. eapply wp_mono; [by apply Hm|]. intros [a|e] s' (n' & Hn & HP); exists n'; auto.
Qed.
End Rules.

Notation dspec m n Q := (tspec (fun d : Disk => d) m n Q).
Lemma tspec_call {A : Type} (path : string) (partial : DiskFault -> list string -> Z -> Tree -> Tree)
    (m : list string -> Z -> Tree -> result OsErr A * Tree) n (Q : result OsErr A -> Tree -> Prop) (k := locate dir path) :
  (path = "" -> Q (Err OsNotExist) n) ->
  (forall i f now, faults i = Some f -> Q (Err (df_err f)) (partial f k now n)) ->
  (forall now, Q (fst (m k now n)) (snd (m k now n))) -> dspec (call path partial m) n Q.
Proof.
  intros He Hf Hm d (Ef & Ed & En). unfold wp, call. rewrite Ed, Ef, En. destruct (String.eqb_spec path "") as [Ep|].
  - exists n. split; [by split_and!|auto].
  - destruct (faults _) as [f|] eqn:E; cbn; [eexists; split; [|by eapply Hf]; done|].
    specialize (Hm (dk_clock d (dk_calls d))). fold k. destruct (m k _ n) as [r n']. by exists n'.
Qed.
(** A call that only looks. *)
Lemma tspec_quiet {A : Type} (path : string) (m : list string -> Z -> Tree -> result OsErr A * Tree) n :
  (forall k now n, snd (m k now n) = n) -> dspec (call path undone m) n (fun _ n' => n' = n).
Proof. intros Hm. by apply tspec_call. Qed.
Lemma tspec_look {A : Type} (path : string) (f : Node -> result OsErr A) n :
  dspec (call path undone (fun k _ => with_node f k)) n (fun r n' => n' = n /\
    forall a, r = Ok a -> exists node, n !! locate dir path = Some node /\ f node = Ok a).
Proof.
  apply tspec_call; [by split|by split|]. intros now. split; [done|]. intros a. unfold with_node. cbn.
  destruct (node_at n _) as [node|e] eqn:E; [|done]. exists node. by rewrite <- node_at_ok.
Qed.

Context (Hhonest : forall i f, faults i = Some f -> df_err f <> OsNotExist).
(** [OsNotExist] is said of what does not exist. *)
Lemma tspec_Stat path n : path <> "" ->
  dspec (Stat path) n (fun r n' => n' = n /\ (r = Err OsNotExist -> n !! locate dir path = None)).
Proof.
  intros Hp. apply tspec_call; [done| |].
  - intros i f now Hf. split; [done|]. intros [= E]. by apply (Hhonest i f Hf) in E.
  - intros now. split; [done|]. unfold with_node. cbn. destruct (node_at n _) eqn:E; [done|]. by apply node_at_err in E.
Qed.
(** Nothing is lost: new directories. *)
Definition extended (n n' : Tree) : Prop := forall k node, n !! k = Some node -> n' !! k = Some node.
Lemma tspec_MkdirAll path n : dspec (OsMkdirAll path) n (fun _ n' => extended n n').
Proof.
  assert (forall rest, extended n (snd (mkdirs n [] rest))) as Hm.
  { intros rest k node Hk. pose proof (mkdirs_spec n [] rest) as Hs. destruct (mkdirs n [] rest) as [r n'].
    destruct Hs as (_ & _ & Hs). cbn. destruct (Hs k) as [->|(E & _)]; [done|congruence]. }
  apply tspec_call; intros; [by intros k node|apply Hm..].
Qed.
End TreeSpecs.

Section HostSpecs.
Context `{Database}.
Lemma tspec_disk dir faults {E A} (m : M E Disk A) n (Q : result E A -> Tree -> Prop) :
  tspec dir faults (fun d => d) m n Q -> tspec dir faults h_disk (on_disk m) n Q.
Proof. intros Hm h Hh. apply wp_zoom. eapply wp_mono; [by apply Hm|]. intros r d (n' & Hn & HQ). by exists n'. Qed.
Lemma tspec_os dir faults {A} (m : M OsErr Disk A) n (P : result OsErr A -> Tree -> Prop) (Q : result GoErr A -> Tree -> Prop) :
  tspec dir faults (fun d => d) m n P -> (forall e n', P (Err e) n' -> Q (Err (os_error e)) n') ->
  (forall a n', P (Ok a) n' -> Q (Ok a) n') -> tspec dir faults h_disk (os m) n Q.
Proof. intros Hm. apply (tspec_map_err _ _ _ _ _ _ P), tspec_disk, Hm. Qed.
End HostSpecs.

(** ** Below a node *)
Lemma dirs_above n k q : tree n -> is_Some (n !! (k ++ q)) -> q <> [] -> n !! k = Some NDir.
Proof.
  intros Ht. induction q as [|x q IH] using rev_ind; [done|]. intros Hs _. rewrite app_assoc in Hs. apply Ht in Hs.
  destruct (decide (q = [])) as [->|Hq]; [by rewrite app_nil_r in Hs|]. apply IH; [by eexists|done].
Qed.
Lemma tree_below_file n k q data t : tree n -> n !! k = Some (NFile data t) -> q <> [] -> n !! (k ++ q) = None.
Proof.
  intros Ht Hk Hq. apply eq_None_not_Some. intros Hs. pose proof (dirs_above n k q Ht Hs Hq). congruence.
Qed.
Lemma tree_below_none n k q : tree n -> n !! k = None -> n !! (k ++ q) = None.
Proof.
  intros Ht Hk. destruct (decide (q = [])) as [->|Hq]; [by rewrite app_nil_r|]. apply eq_None_not_Some. intros Hs.
  pose proof (dirs_above n k q Ht Hs Hq). congruence.
Qed.
Lemma drop_prefix (k q : list string) : drop (length k) (k ++ q) = q.
Proof. by rewrite drop_app_length. Qed.
Lemma below_false k k' : below k k' = false <-> ~ k `prefix_of` k'.
Proof. rewrite <- below_spec. by destruct (below k k'). Qed.
Lemma removelast_below (k to : list string) : k `prefix_of` to -> k <> to -> k `prefix_of` removelast to.
Proof.
  intros [q ->] Hne. destruct (snoc_or_nil q) as [->|(q' & x & ->)]; [by rewrite app_nil_r in Hne|].
  rewrite app_assoc, removelast_last. by apply prefix_app_r.
Qed.

(** ** Renaming

    What was below [from] is below [to]; everything else is as it was. *)
Definition relocated (n : Tree) (from to : list string) (n' : Tree) : Prop :=
  (forall q, n' !! (to ++ q) = n !! (from ++ q)) /\
  forall k, ~ to `prefix_of` k -> n' !! k = if below from k then None else n !! k.
(** A node that may go to [to]. *)
Definition renamable (n : Tree) (from to : list string) : Prop :=
  is_Some (n !! from) /\ n !! removelast to = Some NDir /\ n !! to <> Some NDir.

Section Rename.
Context (n : Tree) (from to : list string) (Ht : tree n).

Lemma rename_file data t : n !! from = Some (NFile data t) -> n !! to <> Some NDir ->
  relocated n from to (<[to := NFile data t]> (delete from n)).
Proof.
  intros Hf Hto.
  assert (forall k, k <> from -> from `prefix_of` k -> n !! k = None) as Hbelow.
  { intros k Hne [q ->]. eapply tree_below_file; [done..|]. intros ->. by rewrite app_nil_r in Hne. }
  assert (forall q, q <> [] -> n !! (to ++ q) = None) as Hto'.
  { intros q Hq. apply eq_None_not_Some. intros Hs. by pose proof (dirs_above n to q Ht Hs Hq). }
  split.
  - intros q. destruct (decide (q = [])) as [->|Hq]; [by rewrite !app_nil_r, lookup_insert_eq|].
    rewrite (Hbelow (from ++ q)) by (by apply prefix_app_r || (intros E%app_nil_inv_l; done) || (intros E; apply Hq, (app_inv_head from); by rewrite app_nil_r)).
    rewrite lookup_insert_ne by (intros E; apply Hq, (app_inv_head to); by rewrite app_nil_r).
    destruct (decide (from = to ++ q)) as [->|Hne]; [by rewrite lookup_delete_eq|]. rewrite lookup_delete_ne by done. by apply Hto'.
  - intros k Hk. rewrite lookup_insert_ne by (intros ->; by apply Hk). destruct (below from k) eqn:E.
    + apply below_spec in E. destruct (decide (k = from)) as [->|Hne]; [by rewrite lookup_delete_eq|].
      rewrite lookup_delete_ne by done. by apply Hbelow.
    + rewrite lookup_delete_ne; [done|]. intros ->. apply below_false in E. by apply E.
Qed.

Lemma moved_under q : moved from to (from ++ q) = to ++ q.
Proof. unfold moved. rewrite (proj2 (below_spec _ _)) by by apply prefix_app_r. by rewrite drop_prefix. Qed.
Lemma moved_apart k : ~ from `prefix_of` k -> moved from to k = k.
Proof. intros Hk. unfold moved. by rewrite (proj2 (below_false _ _)). Qed.
Lemma moved_inv k k' : moved from to k = k' -> ~ to `prefix_of` k -> ~ to `prefix_of` k' -> k = k' /\ ~ from `prefix_of` k.
Proof.
  intros <- Hk Hk'. destruct (decide (from `prefix_of` k)) as [[q ->]|Hn]; [|by rewrite moved_apart].
  destruct Hk'. rewrite moved_under. by apply prefix_app_r.
Qed.
Notation n' := (list_to_map (map (fun kv => (moved from to kv.1, kv.2)) (map_to_list n)) : Tree).
Lemma moved_lookup k v : n !! to = None -> n' !! k = Some v <-> exists k0, n !! k0 = Some v /\ moved from to k0 = k.
Proof.
  intros Hto.
  assert (forall k v, (k, v) ∈ map (fun kv => (moved from to kv.1, kv.2)) (map_to_list n) <-> exists k0, n !! k0 = Some v /\ moved from to k0 = k) as Hin.
  { intros k1 v1. rewrite list_elem_of_fmap. split.
    - intros ([k0 v0] & [= -> ->] & Hk%elem_of_map_to_list). by exists k0.
    - intros (k0 & Hk & <-). exists (k0, v1). by rewrite elem_of_map_to_list. }
  rewrite <- Hin. split; [apply elem_of_list_to_map_2|]. intros Hk. apply elem_of_list_to_map_1'; [|done].
  intros v' (k1 & H1 & E1)%Hin. apply Hin in Hk as (k0 & H0 & E0).
  assert (forall k1 v1, n !! k1 = Some v1 -> ~ to `prefix_of` k1) as Hno.
  { intros k2 v2 Hk2 [q ->]. by rewrite tree_below_none in Hk2. }
  assert (k0 = k1) as ->; [|congruence].
  destruct (decide (to `prefix_of` k)) as [[q ->]|Hk].
  - assert (forall k2 v2, n !! k2 = Some v2 -> moved from to k2 = to ++ q -> k2 = from ++ q) as Heq; [|by rewrite (Heq k0 v), (Heq k1 v')].
    intros k2 v2 H2 E2. destruct (decide (from `prefix_of` k2)) as [[q2 ->]|Hn].
    + rewrite moved_under in E2. by apply app_inv_head in E2 as ->.
    + rewrite moved_apart in E2 by done. subst k2. destruct (Hno _ _ H2). by apply prefix_app_r.
  - apply moved_inv in E0 as [-> _]; [|by eapply Hno|done]. by apply moved_inv in E1 as [-> _]; [|by eapply Hno|].
Qed.
Lemma rename_dir : n !! to = None -> relocated n from to n'.
Proof.
  intros Hto. assert (forall q, n !! (to ++ q) = None) as Hno by (intros q; by apply tree_below_none). split.
  - intros q. apply option_eq. intros v. rewrite moved_lookup by done. split; [|intros Hq; eexists; split; [exact Hq|apply moved_under]].
    intros (k0 & H0 & E0). destruct (decide (from `prefix_of` k0)) as [[q0 ->]|Hn].
    + rewrite moved_under in E0. by apply app_inv_head in E0 as ->.
    + rewrite moved_apart in E0 by done. subst k0. by rewrite Hno in H0.
  - intros k Hk. apply option_eq. intros v. rewrite moved_lookup by done. split.
    + intros (k0 & H0 & E0). apply moved_inv in E0 as [-> Hn]; [|by intros [q ->]; rewrite Hno in H0|done].
      by rewrite (proj2 (below_false _ _)).
    + destruct (below from k) eqn:E; [done|]. intros Hv. exists k. split; [done|]. by apply moved_apart, below_false.
Qed.
Lemma relocated_is_tree n2 : relocated n from to n2 -> n !! removelast to = Some NDir -> to <> [] ->
  ~ from `prefix_of` removelast to -> tree n2.
Proof.
  intros [Hin Hout] Hp Hne Hf. assert (from <> []) as Hfrom by (intros ->; apply Hf, prefix_nil). split.
  - rewrite Hout by (by intros ?%prefix_nil_inv). rewrite (proj2 (below_false _ _)) by (by intros ?%prefix_nil_inv). apply Ht.
  - intros k x. destruct (decide (to `prefix_of` k ++ [x])) as [[q E]|Hn].
    + destruct (snoc_or_nil q) as [->|(q' & y & ->)].
      * rewrite app_nil_r in E. subst to. intros _. rewrite removelast_last in *. rewrite Hout.
        -- by rewrite (proj2 (below_false _ _)).
        -- intros Hk%prefix_length. rewrite length_app in Hk. cbn in Hk. lia.
      * rewrite app_assoc in E. apply app_inj_tail in E as [-> ->]. rewrite <- app_assoc, !Hin, app_assoc. apply Ht.
    + rewrite Hout by done. destruct (below from (k ++ [x])) eqn:E; [by intros []|]. intros Hs. apply below_false in E. rewrite Hout.
      * rewrite (proj2 (below_false _ _)); [by eapply Ht|]. intros Hk. apply E. by apply prefix_app_r.
      * intros Hk. apply Hn. by apply prefix_app_r.
Qed.
(** Renaming succeeds with the tree relocated, or fails and changes
    nothing; no directory goes below itself. *)
Lemma rename_spec : let '(r, n2) := rename_node from to n in
  match r with
  | Ok _ => renamable n from to /\ relocated n from to n2 /\ tree n2 /\ (from `prefix_of` to -> from = to)
  | Err _ => n2 = n
  end.
Proof.
  unfold rename_node. destruct (node_at n from) as [node|] eqn:Ef; [|done]. apply node_at_ok in Ef.
  destruct (node_at n (removelast to)) as [[|]|] eqn:Ep; [|done..]. apply node_at_ok in Ep.
  assert (to <> [] \/ n !! to = Some NDir) as Hne by (destruct to; [right; apply Ht|by left]).
  destruct node as [|data t].
  - destruct (n !! to) as [[]|] eqn:Et; [done..|]. destruct (below from to) eqn:E; [done|]. apply below_false in E.
    pose proof (rename_dir Et) as Hr. split; [by split_and!; [eexists| |congruence]|]. split; [done|]. split; [|done].
    destruct Hne as [Hne|]; [|done]. apply relocated_is_tree; [done..|]. intros Hk. apply E. etrans; [exact Hk|].
    destruct (snoc_or_nil to) as [->|(l & x & ->)]; [done|]. rewrite removelast_last. by apply prefix_app_r.
  - assert (n !! to <> Some NDir -> match @Ok OsErr unit tt with Ok _ => renamable n from to /\
      relocated n from to (<[to:=NFile data t]> (delete from n)) /\ tree (<[to:=NFile data t]> (delete from n)) /\
      (from `prefix_of` to -> from = to) | Err _ => False end) as Hok.
    { intros Et. destruct Hne as [Hne|]; [|done].
      assert (~ from `prefix_of` removelast to) as Hup.
      { intros [q E]. rewrite E in Ep. destruct (decide (q = [])) as [->|Hq]; [rewrite app_nil_r in Ep; congruence|].
        by rewrite (tree_below_file n from q data t) in Ep. }
      pose proof (rename_file data t Ef Et) as Hr. split; [by split_and!; [eexists| |]|]. split; [done|]. split; [by apply relocated_is_tree|].
      intros Hk. destruct (decide (from = to)) as [->|]; [done|]. by destruct Hup; apply removelast_below. }
    destruct (n !! to) as [[]|] eqn:Et; [done|apply Hok; congruence..].
Qed.
Lemma renamable_apart : renamable n from to -> (from `prefix_of` to -> from = to) -> n !! to = None -> ~ from `prefix_of` to.
Proof. intros ([node Hs] & _) Hp Hnone Hk. rewrite <- (Hp Hk) in Hnone. congruence. Qed.
(** What succeeds. *)
Lemma rename_succeeds : is_Some (n !! from) -> n !! removelast to = Some NDir -> n !! to = None -> ~ from `prefix_of` to ->
  exists n2, rename_node from to n = (Ok tt, n2).
Proof.
  intros [node Hf] Hp Hnone Hk. unfold rename_node. rewrite (proj2 (node_at_ok _ _ _) Hf), (proj2 (node_at_ok _ _ _) Hp), Hnone.
  destruct node; [|by eexists]. rewrite (proj2 (below_false _ _)) by done. by eexists.
Qed.
End Rename.
