(* ===== verification/WalkProps.v ===== *)
(** * Calls that do not fail, and walks

    What system calls do to the tree of a disk on which no call fails; that
    copying a directory copies its whole subtree ([sspec_copyDirectory]),
    and that measuring it changes nothing; and, on any disk, where copies
    and renames write. *)
From S2P Require Import Prelude GoStrings Paths Storage Files Walks DiskProps.
From stdpp Require Import base list strings gmap pretty.
From Stdlib Require Import ZArith Lia Ascii.

Local Open Scope string_scope.
Local Open Scope list_scope.
Local Open Scope go_scope.

(** No call fails. *)
Definition sound : nat -> option DiskFault := fun _ => None.

(** ** Trees *)

(** A directory whose parents are there needs no other. *)
Lemma mkdirs_through n a l rest : tree n -> n !! (a ++ l) = Some NDir -> mkdirs n a (l ++ rest) = mkdirs n (a ++ l) rest.
Proof.
  intros Ht. revert a. induction l as [|x l IH]; intros a Hd; [by rewrite app_nil_r|]. cbn [app mkdirs].
  assert (a ++ x :: l = (a ++ [x]) ++ l) as E by by rewrite <- app_assoc. rewrite E in *.
  assert (n !! (a ++ [x]) = Some NDir) as Hx.
  { destruct (decide (l = [])) as [->|Hl]; [by rewrite app_nil_r in Hd|]. eapply dirs_above; [done|by eexists|done]. }
  rewrite Hx. by apply IH.
Qed.
Lemma mkdirs_there n k : tree n -> n !! k = Some NDir -> mkdirs n [] k = (Ok tt, n).
Proof. intros Ht Hk. rewrite <- (app_nil_r k) at 1. by rewrite (mkdirs_through n [] k []). Qed.
Lemma mkdirs_new n k x : tree n -> n !! k = Some NDir -> n !! (k ++ [x]) = None ->
  mkdirs n [] (k ++ [x]) = (Ok tt, <[k ++ [x] := NDir]> n).
Proof. intros Ht Hk Hx. rewrite (mkdirs_through n [] k [x]) by done. cbn. by rewrite Hx. Qed.
(** A failure comes before anything is made. *)
Lemma mkdirs_fresh n a rest : (forall q, n !! (a ++ q) = if decide (q = []) then Some NDir else None) ->
  fst (mkdirs n a rest) = Ok tt.
Proof.
  revert n a. induction rest as [|y l IH]; intros n a Hn; [done|]. cbn [mkdirs]. rewrite Hn. cbn. apply IH. intros q.
  destruct (decide (q = [])) as [->|Hq]; [by rewrite app_nil_r, lookup_insert_eq|].
  rewrite lookup_insert_ne, <- app_assoc, Hn; [done|]. intros E. apply Hq, (app_inv_head (a ++ [y])). by rewrite app_nil_r.
Qed.
Lemma mkdirs_failed n a rest : tree n -> n !! a = Some NDir -> let '(r, n') := mkdirs n a rest in
  match r with Ok _ => n' !! (a ++ rest) = Some NDir | Err _ => n' = n end.
Proof.
  intros Ht. revert a. induction rest as [|x rest IH]; intros a Ha; cbn [mkdirs]; [by rewrite app_nil_r|].
  assert (a ++ x :: rest = (a ++ [x]) ++ rest) as -> by by rewrite <- app_assoc.
  destruct (n !! (a ++ [x])) as [[]|] eqn:Ex; [by apply IH|done|]. clear IH Ha.
  assert (fst (mkdirs (<[a ++ [x] := NDir]> n) (a ++ [x]) rest) = Ok tt) as Hok.
  { apply mkdirs_fresh. intros q. destruct (decide (q = [])) as [->|Hq]; [by rewrite app_nil_r, lookup_insert_eq|].
    rewrite lookup_insert_ne by (intros E; apply Hq, (app_inv_head (a ++ [x])); by rewrite app_nil_r). by apply tree_below_none. }
  pose proof (mkdirs_spec (<[a ++ [x] := NDir]> n) (a ++ [x]) rest) as Hs.
  destruct (mkdirs _ _ rest) as [r n']. cbn in Hok. subst r. apply (proj1 (proj2 Hs)); [by rewrite lookup_insert_eq|done].
Qed.

(** ** Calls *)
Section Sound.
Context (dir : string).
Notation sspec m n Q := (tspec dir sound (fun d : Disk => d) m n Q).

Lemma sspec_call {A : Type} (path : string) partial (m : list string -> Z -> Tree -> result OsErr A * Tree) n
    (Q : result OsErr A -> Tree -> Prop) (k := locate dir path) :
  path <> "" -> (forall now, Q (fst (m k now n)) (snd (m k now n))) -> sspec (call path partial m) n Q.
Proof. intros Hp HQ. by apply tspec_call. Qed.

Lemma sspec_Stat path n (k := locate dir path) : path <> "" ->
  sspec (Stat path) n (fun r n' => n' = n /\
    match r with Ok info => exists node now, n !! k = Some node /\ info = info_of path node now | Err _ => n !! k = None end).
Proof.
  intros Hp. apply sspec_call; [done|]. intros now. split; [done|]. unfold with_node. cbn. fold k.
  destruct (node_at n k) as [node|e] eqn:E; [apply node_at_ok in E; by eexists _, _|by eapply node_at_err].
Qed.
Lemma sspec_ReadAll path n data t : path <> "" -> n !! locate dir path = Some (NFile data t) ->
  sspec (ReadAll path) n (fun r n' => r = Ok data /\ n' = n).
Proof. intros Hp Hk. apply sspec_call; [done|]. intros now. unfold with_node. by rewrite (proj2 (node_at_ok _ _ _) Hk). Qed.
Lemma sspec_Open path n node : path <> "" -> n !! locate dir path = Some node ->
  sspec (Open path) n (fun r n' => r = Ok tt /\ n' = n).
Proof. intros Hp Hk. apply sspec_call; [done|]. intros now. unfold with_node. by rewrite (proj2 (node_at_ok _ _ _) Hk). Qed.

(** New directories: all of them, or none. *)
Lemma sspec_MkdirAll path n (k := locate dir path) : path <> "" -> tree n ->
  sspec (OsMkdirAll path) n (fun r n' => match r with
    | Ok _ => n' !! k = Some NDir /\ tree n' /\ forall k', n' !! k' = n !! k' \/ n !! k' = None /\ n' !! k' = Some NDir /\ k' `prefix_of` k
    | Err _ => n' = n
    end).
Proof.
  intros Hp Ht. apply sspec_call; [done|]. intros now. fold k. pose proof (mkdirs_failed n [] k Ht (proj1 Ht)) as Hf.
  pose proof (mkdirs_spec n [] k) as Hs. destruct (mkdirs n [] k) as [[[]|e] n']; cbn in *; [|done].
  destruct Hs as (H1 & _ & H3). split; [done|]. split; [by apply H1; [apply Ht|]|done].
Qed.
Lemma sspec_Mkdir path n (k := locate dir path) : path <> "" -> tree n ->
  sspec (OsMkdir path) n (fun r n' => match r with
    | Ok _ => n !! removelast k = Some NDir /\ n !! k = None /\ n' = <[k := NDir]> n /\ tree n'
    | Err _ => n' = n
    end).
Proof.
  intros Hp Ht. apply sspec_call; [done|]. intros now. fold k. destruct (node_at n (removelast k)) as [[]|] eqn:Ed; [|done..].
  apply node_at_ok in Ed. destruct (n !! k) eqn:Ek; [done|]. cbn. split_and!; [done..|].
  apply tree_insert; [done| |done|by left]. intros E. rewrite E, (proj1 Ht) in Ek. done.
Qed.
Lemma sspec_rename_node old new n (from := locate dir old) (to := locate dir new) : old <> "" ->
  sspec (OsRename old new) n (fun r n' => (r, n') = rename_node from to n).
Proof.
  intros Hp d Hd. pose proof Hd as (_ & Ed & _).
  match goal with |- wp _ ?Q _ => change (wp (call old undone (fun k (_ : Z) => rename_node k (locate (dk_dir d) new))) Q d) end.
  rewrite Ed. clear Ed. revert d Hd. apply sspec_call; [done|]. intros now. by destruct (rename_node _ _ n).
Qed.
Lemma sspec_Rename old new n (from := locate dir old) (to := locate dir new) : old <> "" -> tree n ->
  sspec (OsRename old new) n (fun r n' => match r with
    | Ok _ => renamable n from to /\ relocated n from to n' /\ tree n' /\ (from `prefix_of` to -> from = to)
    | Err _ => n' = n
    end).
Proof.
  intros Hp Ht. eapply tspec_mono; [by apply sspec_rename_node|]. intros r n' E. pose proof (rename_spec n from to Ht) as Hr.
  fold from to in E. by rewrite <- E in Hr.
Qed.
(** All of a directory that is not the root. *)
Lemma sspec_RemoveAll path n (k := locate dir path) : path <> "" -> tree n ->
  sspec (RemoveAll path) n (fun r n' => match r with
    | Ok _ => k <> [] /\ tree n' /\ forall k', n' !! k' = if below k k' then None else n !! k'
    | Err _ => n' = n
    end).
Proof.
  intros Hp Ht. unfold RemoveAll. rewrite (proj2 (String.eqb_neq _ _) Hp). apply sspec_call; [done|]. intros now. fold k.
  destruct k as [|x l] eqn:Ek; [done|]. destruct (node_at n (x :: l)) as [node|e] eqn:En.
  - cbn [fst snd]. split; [done|]. split; [by apply tree_remove|]. intros k'. rewrite remove_spec. unfold remains.
    destruct (below (x :: l) k') eqn:Eb; [|done]. cbn [negb orb]. rewrite forallb_app. cbn. rewrite Eb. cbn. by rewrite andb_false_r.
  - apply node_at_err in En. assert (forall k', n !! k' = if below (x :: l) k' then None else n !! k') as Hsame.
    { intros k'. destruct (below (x :: l) k') eqn:Eb; [|done]. apply below_spec in Eb as [q ->]. by apply tree_below_none. }
    by destruct e.
Qed.
(** Whether a directory can be written to is tried out, and cleaned up. *)
Lemma create_temp_sound tries random k prefix now n : let '(r, n') := create_temp tries random k prefix now n in
  match r with
  | Ok name => temp_name prefix name /\ n !! (k ++ [name]) = None /\ n' = <[k ++ [name] := NFile "" now]> n /\ (tree n -> tree n')
  | Err _ => n' = n
  end.
Proof.
  induction tries as [|tries IH]; cbn [create_temp]; [done|]. destruct (n !! _) eqn:En; [exact IH|].
  destruct (create_file _ _ _) as [n'|e] eqn:Ec; [|done]. pose proof (tree_create _ _ _ _ Ec). apply create_spec in Ec as (-> & _).
  split_and!; [by eexists|done..].
Qed.
Lemma no_children n k data t : tree n -> n !! k = Some (NFile data t) -> has_children n k = false.
Proof.
  intros Ht Hk. apply not_true_is_false. unfold has_children. rewrite existsb_exists. intros (k' & Hin & [Hb Hne]%andb_true_iff).
  apply below_spec in Hb as [q ->]. apply negb_true_iff, bool_decide_eq_false in Hne. apply list_elem_of_In, list_elem_of_fmap in Hin.
  destruct Hin as ([k' node] & E & Hn%elem_of_map_to_list). cbn in E, Hn. subst k'. rewrite (tree_below_file n k q data t) in Hn; [done..|].
  intros ->. by rewrite app_nil_r in Hne.
Qed.
Lemma sspec_probe path n : path <> "" -> tree n -> sspec (probeLocalDirectoryWritable path) n (fun _ n' => n' = n).
Proof.
  intros Hp Ht. unfold probeLocalDirectoryWritable.
  eapply (tspec_bind_or _ _ _ _ _ _ _ (fun r n' => match r with
    | Ok p => exists name now, temp_name ".yunxia-write-test-" name /\ p = path_join path name /\
                n !! (locate dir path ++ [name]) = None /\ n' = <[locate dir path ++ [name] := NFile "" now]> n /\ tree n'
    | Err _ => n' = n end)).
  - intros d Hd. pose proof Hd as (_ & Ed & _). unfold CreateTemp.
    match goal with |- wp _ ?Q _ => change (wp (name <-! call path undone (fun k now =>
      create_temp 10000 (fun i => dk_random d (dk_calls d + i)) k ".yunxia-write-test-" now) ;; ret (path_join path name)) Q d) end.
    generalize (fun i => dk_random d (dk_calls d + i)) as random. intros random. revert d Hd Ed. intros d Hd _. revert d Hd.
    eapply (tspec_bind _ _ _ _ _ _ (fun r n' => match r with
      | Ok name => exists now, temp_name ".yunxia-write-test-" name /\ n !! (locate dir path ++ [name]) = None /\
                     n' = <[locate dir path ++ [name] := NFile "" now]> n /\ tree n'
      | Err _ => n' = n end)).
    + apply sspec_call; [done|]. intros now. pose proof (create_temp_sound 10000 random (locate dir path) ".yunxia-write-test-" now n) as Hs.
      destruct (create_temp _ _ _ _ _ _) as [[name|e] n']; [|done]. destruct Hs as (H1 & H2 & H3 & H4). exists now. auto.
    + done.
    + intros name n' (now & H1 & H2 & H3 & H4). apply tspec_ret. by exists name, now.
  - intros e n' ->. by apply tspec_ret.
  - intros p n' (name & now & [i ->] & -> & Hnone & -> & Ht'). set (name := ".yunxia-write-test-" +:+ pretty i) in *.
    assert (plain_seg name = true) as Hname.
    { apply plain_seg_spec. split_and!; [done..|]. unfold name. rewrite has_byte_app, pretty_no_slash. done. }
    assert (path_join path name <> "") as Hj by by apply join_not_nil.
    pose proof (locate_join1 dir path name Hp Hname) as Hl. set (k := locate dir path ++ [name]) in *.
    assert (<[k := NFile "" now]> n !! k = Some (NFile "" now)) as Hk by apply lookup_insert_eq.
    assert (delete k (<[k := NFile "" now]> n) = n) as Hback by by rewrite delete_insert_id.
    assert (sspec (Remove (path_join path name)) (<[k := NFile "" now]> n) (fun _ n' => n' = n)) as Hrm.
    { apply sspec_call; [done|]. intros now'. rewrite Hl, (proj2 (node_at_ok _ _ _) Hk), (no_children _ _ _ _ Ht' Hk).
      rewrite bool_decide_false by (unfold k; by destruct (locate dir path)). done. }
    assert (forall b, sspec (_u <-! Remove (path_join path name) or _e => ret false ;; (ret b : M OsErr Disk bool))
      (<[k := NFile "" now]> n) (fun _ n' => n' = n)) as Hrm'.
    { intros b. eapply tspec_bind_or; [exact Hrm|intros e n' ->; by apply tspec_ret|intros u n' ->; by apply tspec_ret]. }
    eapply tspec_bind_or; [by apply tspec_quiet|intros e n' ->; apply Hrm'|intros u n' ->; apply Hrm'].
Qed.

(** A copy of a file to a place in a directory: its data and its time. *)
Lemma sspec_copyFile src dst n data mtime x (S := locate dir src) (T := locate dir dst) :
  src <> "" -> dst <> "" -> ends_in dst x -> plain_seg x = true -> tree n ->
  n !! S = Some (NFile data mtime) -> n !! removelast T = Some NDir -> n !! T = None ->
  sspec (copyFile src dst) n (fun r n' => r = Ok tt /\ n' = <[T := NFile data mtime]> n /\ tree n').
Proof.
  intros Hs Hd He Hx Ht HS HT Hnone. pose proof (locate_dir dir dst x He Hx) as Hl. fold T in Hl.
  assert (T <> []) as Hne by (rewrite Hl; by destruct (locate dir (path_dir dst))).
  assert (S <> T) as HST by (intros E; rewrite E in HS; congruence).
  assert (forall text t, tree (<[T := NFile text t]> n)) as Hins by (intros; apply tree_insert; [done..|right; congruence]).
  unfold copyFile, Copy. eapply tspec_bind; [by eapply sspec_Open|by intros e n' []|]. intros _ n1 [_ ->].
  eapply (tspec_bind _ _ _ _ _ _ (fun r n' => r = Ok tt /\ n' = n)).
  { apply sspec_call; [apply clean_not_nil|]. intros now. rewrite Hl, removelast_last in HT. by rewrite mkdirs_there. }
  { by intros e n' []. }
  intros u n1 [_ ->].
  eapply (tspec_bind _ _ _ _ _ _ (fun r n' => r = Ok tt /\ exists now, n' = <[T := NFile "" now]> n)).
  { apply sspec_call; [done|]. intros now. fold T. unfold create_file. rewrite (proj2 (node_at_ok _ _ _) HT), Hnone. cbn. eauto. }
  { by intros e n' []. }
  intros u1 n1 [_ [now ->]].
  assert (forall text t, <[T := NFile text t]> n !! S = Some (NFile data mtime)) as HS1 by (intros; by rewrite lookup_insert_ne).
  eapply (tspec_bind _ _ _ _ _ _ (fun r n' => r = Ok tt /\ exists now, n' = <[T := NFile data now]> n)).
  { eapply tspec_bind; [by apply (sspec_ReadAll _ _ data mtime)|by intros e n' []|]. intros text n1 [[= ->] ->].
    apply sspec_call; [done|]. intros now'. fold T. unfold append_data. rewrite lookup_insert_eq, insert_insert_eq. cbn. eauto. }
  { by intros e n' []. }
  intros u2 n1 [_ [now' ->]].
  eapply tspec_bind_or; [by apply sspec_Stat| |].
  { intros e n1 [-> Hno]. by rewrite HS1 in Hno. }
  intros info n1 [-> (node & when & Hn & ->)]. rewrite HS1 in Hn. injection Hn as <-. cbn [info_of fsi_ModTime].
  eapply (tspec_bind_or _ _ _ _ _ _ _ (fun r n' => r = Ok tt /\ n' = <[T := NFile data mtime]> n)).
  { apply sspec_call; [done|]. intros now''. fold T.
    rewrite (proj2 (node_at_ok _ _ _) (lookup_insert_eq _ _ _)). cbn. by rewrite insert_insert_eq. }
  { by intros e n' []. }
  intros u3 n1 [_ ->]. by apply tspec_ret.
Qed.
End Sound.

(** ** The entries of a directory *)
Lemma child_name_spec k k' x : child_name k k' = Some x <-> k' = k ++ [x] /\ plain_seg x = true.
Proof.
  unfold child_name. destruct (below k k') eqn:E.
  - apply below_spec in E as [q ->]. rewrite drop_prefix. split.
    + destruct q as [|y [|]]; [done| |done]. destruct (plain_seg y) eqn:Ey; [|done]. by intros [= <-].
    + intros [->%app_inv_head Hx]. by rewrite Hx.
  - split; [done|]. intros [-> _]. by rewrite (proj2 (below_spec _ _) (prefix_app_r k k [x] (reflexivity k))) in E.
Qed.
Lemma elem_of_children k n x b :
  (x, b) ∈ children k n <-> plain_seg x = true /\ exists node, n !! (k ++ [x]) = Some node /\ b = is_dir node.
Proof.
  unfold children. rewrite stable_sort_perm, list_elem_of_omap. split.
  - intros ([k' node] & Hin%elem_of_map_to_list & E). cbn in E. destruct (child_name k k') as [y|] eqn:Ey; [|done].
    injection E as -> <-. apply child_name_spec in Ey as [-> Hx]. eauto.
  - intros (Hx & node & Hn & ->). exists (k ++ [x], node). rewrite elem_of_map_to_list. split; [done|]. cbn.
    by rewrite (proj2 (child_name_spec k (k ++ [x]) x)).
Qed.
Lemma entries_no_dup k n : NoDup (map fst (children k n)).
Proof.
  unfold children. rewrite stable_sort_perm. pose proof (NoDup_fst_map_to_list n) as Hn. induction (map_to_list n) as [|[k' node] l IH]; [constructor|].
  cbn in Hn. apply NoDup_cons in Hn as [Hk Hn]. cbn [omap list_omap fst snd]. destruct (child_name k k') as [x|] eqn:Ex; [|by apply IH].
  cbn [option_map map fst]. apply NoDup_cons. split; [|by apply IH]. apply child_name_spec in Ex as [-> _]. intros Hin. apply Hk.
  apply list_elem_of_fmap in Hin as ([y b] & -> & Hin). apply list_elem_of_omap in Hin as ([k' node'] & Hin & E). cbn in E.
  destruct (child_name k k') as [z|] eqn:Ez; [|done]. injection E as -> _. apply child_name_spec in Ez as [-> _].
  apply list_elem_of_fmap. by exists (k ++ [y], node').
Qed.
Lemma read_plain path : returns (ReadDir path) (Forall (fun e => plain_seg (fst e) = true)).
Proof.
  intros d. unfold wp, ReadDir, call. destruct (String.eqb path ""); [done|]. destruct (dk_faults d (dk_calls d)); [done|].
  destruct (node_at _ _) as [[]|]; cbn; [|done..]. apply Forall_forall. intros [x b] [Hx _]%elem_of_children. done.
Qed.

(** ** Any walk *)
Section WalkRules.
Context (dir : string) {A : Type} (visit : Visitor A).
(** A walk changes what its visits change. *)
Lemma dwithin_bind_returns {B C} (P : list string -> Prop) (Q : B -> Prop) (m : M OsErr Disk B) (k : B -> M OsErr Disk C) :
  dwithin dir P m -> returns m Q -> (forall b, Q b -> dwithin dir P (k b)) -> dwithin dir P (bind m k).
Proof.
  intros Hm HQ Hk d Hd. apply wp_bind. eapply wp_mono; [apply wp_conj; [by apply Hm|apply HQ]|]. intros [b|e] d' [Hf Hb]; [|done].
  eapply wp_mono; [apply Hk; [done|by rewrite (proj1 (proj2 Hf))]|]. intros r d'' Hf'. by eapply dframe_trans.
Qed.
Lemma dwithin_walk (P : list string -> Prop) limit current relative b a :
  (forall current relative b a, forallb plain_seg relative = true -> dwithin dir P (visit current relative b a)) ->
  forallb plain_seg relative = true -> dwithin dir P (walk_dir visit limit current relative b a).
Proof.
  intros Hv. revert current relative b a. induction limit as [|limit IH]; intros current relative b a Hr; cbn [walk_dir];
    (apply dwithin_bind; [by apply Hv|]); intros [a' skip]; (destruct (_ || _); [apply dwithin_ret|]).
  - intros d _. apply dframe_refl.
  - apply (dwithin_bind_returns _ (Forall (fun e => plain_seg (fst e) = true))); [by apply dwithin_quiet; intros ?? n; destruct (node_at _ _) as [[]|]|apply read_plain|].
    intros entries He. revert a'. induction He as [|[name b'] rest Hx _ IHr]; intros a'; cbn [walk_entries]; [apply dwithin_ret|].
    apply dwithin_bind; [|done]. apply IH. rewrite forallb_app, Hr. cbn in *. by rewrite Hx.
Qed.
Lemma dwithin_WalkDir `{PathLimit} (P : list string -> Prop) root a :
  (forall current relative b a, forallb plain_seg relative = true -> dwithin dir P (visit current relative b a)) ->
  dwithin dir P (WalkDir visit root a).
Proof. intros Hv. apply dwithin_bind; [apply dwithin_Stat|]. intros info. by apply dwithin_walk. Qed.
(** A walk whose visits change nothing changes nothing. *)
Lemma tspec_walk_quiet faults limit current relative b a n :
  (forall current relative b a, tspec dir faults (fun d : Disk => d) (visit current relative b a) n (fun _ n' => n' = n)) ->
  tspec dir faults (fun d : Disk => d) (walk_dir visit limit current relative b a) n (fun _ n' => n' = n).
Proof.
  intros Hv. revert current relative b a. induction limit as [|limit IH]; intros current relative b a; cbn [walk_dir];
    (eapply tspec_bind; [apply Hv|done|]); intros [a' skip] n1 ->; (destruct (_ || _); [by apply tspec_ret|]).
  - by apply tspec_throw.
  - eapply tspec_bind; [by apply tspec_quiet; intros ?? n1; destruct (node_at _ _) as [[]|]|done|]. intros entries n1 ->. revert a'.
    induction entries as [|[name b'] rest IHr]; intros a'; cbn [walk_entries]; [by apply tspec_ret|].
    eapply tspec_bind; [apply IH|done|]. by intros a1 n1 ->.
Qed.
End WalkRules.
Lemma tspec_entry_size `{PathLimit} dir faults path info n :
  tspec dir faults (fun d : Disk => d) (localEntrySize path info) n (fun _ n' => n' = n).
Proof.
  unfold localEntrySize, WalkDir. destruct (negb _); [by apply tspec_ret|].
  eapply tspec_bind; [by apply tspec_quiet|done|]. intros i n1 ->. apply tspec_walk_quiet. intros current relative b a. unfold add_size.
  destruct b; [by apply tspec_ret|]. eapply tspec_bind; [by apply tspec_quiet|done|]. intros i' n1 ->. by apply tspec_ret.
Qed.

(** ** Copying a directory *)
Lemma locate_relative dir a q : a <> "" -> forallb plain_seg q = true -> locate dir (path_join a (relative_path q)) = locate dir a ++ q.
Proof.
  intros Ha Hq. destruct q as [|x q]; [|by apply locate_join]. cbn [relative_path]. rewrite app_nil_r. unfold path_join.
  rewrite (proj2 (String.eqb_neq _ _) Ha). cbn [String.eqb]. rewrite locate_clean by by intros [-> _]%append_eq_nil.
  rewrite locate_sep by done. change (walk (rev (locate dir a)) ".") with (rev (locate dir a)). apply rev_involutive.
Qed.
Lemma clean_dot a : a <> "" -> path_clean (a +:+ "/" +:+ ".") = path_clean a.
Proof.
  intros Ha. assert (forall r, clean_segs r (a +:+ "/" +:+ ".") = clean_segs r a) as Hs.
  { intros r. unfold clean_segs. change ("/" +:+ ".") with (String slash "."). by rewrite split_on_sep, fold_left_app. }
  unfold path_clean. rewrite !Hs, has_prefix_sep_left, (proj2 (String.eqb_neq a "")) by done.
  rewrite (proj2 (String.eqb_neq _ "")); [done|]. by intros [-> _]%append_eq_nil.
Qed.
Lemma relative_ends dst x q : dst <> "" -> ends_in dst x -> plain_seg x = true -> forallb plain_seg q = true ->
  exists y, plain_seg y = true /\ ends_in (path_join dst (relative_path q)) y.
Proof.
  intros Hd He Hx Hq. destruct (snoc_or_nil q) as [->|(l & y & ->)].
  - exists x. split; [done|]. unfold path_join, relative_path. rewrite (proj2 (String.eqb_neq _ _) Hd). cbn [String.eqb].
    rewrite clean_dot by done. by apply ends_in_clean.
  - exists y. split; [rewrite forallb_app in Hq; by apply andb_true_iff in Hq as [_ [? _]%andb_true_iff]|].
    assert (relative_path (l ++ [y]) = tail_of (l ++ [y])) as -> by by destruct l. by apply join_ends.
Qed.
(** The directory of a path is above it, or, for "..", below it. *)
Lemma last_slash p : has_byte slash p = false \/ exists d x, p = d +:+ String slash x /\ has_byte slash x = false.
Proof.
  induction p as [|c p IH]; [by left|]. destruct IH as [IH|(d & x & -> & Hx)].
  - destruct (Ascii.eqb_spec c slash) as [->|Hc]; [right; by exists "", p|]. left. rewrite has_byte_cons, IH, orb_false_r. by apply Ascii.eqb_neq.
  - right. by exists (String c d), x.
Qed.
Lemma walk_step st x : has_byte slash x = false -> rev st `prefix_of` rev (walk st x) \/ rev (walk st x) `prefix_of` rev st.
Proof.
  intros Hx. unfold walk. rewrite split_on_no by done. cbn [fold_left]. unfold clean_step.
  destruct (String.eqb x ""); [by left|]. destruct (String.eqb x "."); [by left|]. destruct (String.eqb x "..").
  - destruct st as [|y st]; [by left|]. right. cbn [negb andb rev]. by apply prefix_app_r.
  - left. cbn [rev]. by apply prefix_app_r.
Qed.
Lemma locate_dir_near dir p : p <> "" ->
  locate dir (path_dir p) `prefix_of` locate dir p \/ locate dir p `prefix_of` locate dir (path_dir p).
Proof.
  intros Hp. unfold path_dir. destruct (last_slash p) as [Hs|(d & x & -> & Hx)].
  - rewrite split_last_no by done. cbn [fst]. change (path_clean "") with ".". unfold locate.
    assert (has_prefix p "/" = false) as -> by (rewrite <- (append_nil_r p); by apply has_prefix_head).
    change (walk (if has_prefix "." "/" then [] else walk [] dir) ".") with (walk [] dir). by apply walk_step.
  - rewrite split_last_app by done. cbn [fst]. change (String slash x) with ("/" +:+ x). rewrite locate_clean by by intros [_ ?]%append_eq_nil.
    unfold locate. rewrite has_prefix_sep_any, walk_sep. generalize (if has_prefix (d +:+ "/") "/" then [] else walk [] dir) as st. intros st.
    change (d +:+ "/") with (d +:+ "/" +:+ ""). rewrite walk_sep. change (walk (walk st d) "") with (walk st d). by apply walk_step.
Qed.
Lemma dwithin_MkdirAll_dir dir (P : list string -> Prop) path : path <> "" -> (forall k, locate dir path `prefix_of` k -> P k) ->
  dwithin dir P (OsMkdirAll (path_dir path)).
Proof.
  intros Hp HP. destruct (locate_dir_near dir path Hp) as [H|H]; [by apply (dwithin_MkdirAll _ _ _ (locate dir path)); [|apply HP]|].
  by apply (dwithin_MkdirAll _ _ _ (locate dir (path_dir path))); [|apply HP].
Qed.
Lemma dwithin_copyFile_below dir (P : list string -> Prop) src dst : dst <> "" -> (forall k, locate dir dst `prefix_of` k -> P k) ->
  dwithin dir P (copyFile src dst).
Proof.
  intros Hd HP. assert (P (locate dir dst)) as HT by by apply HP. unfold copyFile, Copy.
  apply dwithin_bind; [apply dwithin_Open|intros ?]. apply dwithin_bind; [by apply dwithin_MkdirAll_dir|intros ?].
  apply dwithin_bind; [by apply dwithin_Create|intros ?].
  apply dwithin_bind; [apply dwithin_bind; [apply dwithin_ReadAll|intros ?; by apply dwithin_Write]|intros ?].
  apply dwithin_bind_or; [apply dwithin_Stat|intros ?; apply dwithin_ret|intros ?].
  apply dwithin_bind_or; [by apply dwithin_Chtimes|intros ?; apply dwithin_ret..].
Qed.
Lemma dwithin_copyDirectory `{PathLimit} dir (P : list string -> Prop) src dst :
  dst <> "" -> (forall k, locate dir dst `prefix_of` k -> P k) -> dwithin dir P (copyDirectory src dst).
Proof.
  intros Hd HP. apply dwithin_WalkDir. intros current relative b a Hr. unfold copy_entry.
  assert (forall k, locate dir (path_join dst (relative_path relative)) `prefix_of` k -> P k) as Hin.
  { intros k Hk. apply HP. rewrite locate_relative in Hk by done. etrans; [|exact Hk]. by apply prefix_app_r. }
  apply dwithin_bind; [|intros u; apply dwithin_ret]. destruct b; [by eapply dwithin_MkdirAll; [|apply Hin]|].
  apply dwithin_copyFile_below; [by apply join_not_nil|done].
Qed.

(** What was at and below [s] in [n0] is at and below [t]; the rest is as
    it was in [n]. *)
Definition cloned (n0 : Tree) (s t : list string) (n n' : Tree) : Prop :=
  (forall q, n' !! (t ++ q) = n0 !! (s ++ q)) /\ forall k, ~ t `prefix_of` k -> n' !! k = n !! k.
(** Every name is one that an element of a path may have. *)
Definition named (n : Tree) : Prop := forall k node, n !! k = Some node -> forallb plain_seg k = true.

Lemma prefix_snoc_neq (t : list string) x y k : x <> y -> (t ++ [x]) `prefix_of` k -> ~ (t ++ [y]) `prefix_of` k.
Proof.
  intros Hne [q ->] [q' E]. rewrite <- !app_assoc in E. apply app_inv_head in E. cbn in E. congruence.
Qed.
Lemma prefix_snoc_self (t : list string) x : ~ (t ++ [x]) `prefix_of` t.
Proof. intros Hp%prefix_length. rewrite length_app in Hp. cbn in Hp. lia. Qed.

Section CopyWalk.
Context (dir : string) (n0 : Tree) (dst : string) (S0 : list string) (Ht0 : tree n0) (Hnamed : named n0) (Hdst : dst <> "").
Notation T0 := (locate dir dst).
Context (Hapart : ~ S0 `prefix_of` T0) (Hapart' : ~ T0 `prefix_of` S0).
Notation sspec m n Q := (tspec dir sound (fun d : Disk => d) m n Q).
Notation outside n := (forall k, ~ T0 `prefix_of` k -> n !! k = n0 !! k).

Lemma apart_below q : ~ T0 `prefix_of` S0 ++ q.
Proof. intros Hp. destruct (prefix_weak_total T0 S0 (S0 ++ q)); [done|by apply prefix_app_r|done..]. Qed.
Lemma cloned_outside n s t n' : outside n -> cloned n0 s t n n' -> T0 `prefix_of` t -> outside n'.
Proof. intros Hn [_ Hc] Ht k Hk. rewrite Hc; [by apply Hn|]. intros Hp. apply Hk. by etrans. Qed.

(** What [walk_dir] does at one entry. *)
Definition copies (limit : nat) : Prop := forall current q node n (s := S0 ++ q) (t := T0 ++ q),
  current <> "" -> locate dir current = s -> forallb plain_seg q = true -> n0 !! s = Some node ->
  q <> [] \/ node = NDir -> tree n -> outside n -> n !! removelast t = Some NDir -> n !! t = None ->
  (forall r, n0 !! (s ++ r) = Some NDir -> length r < limit) ->
  sspec (walk_dir (copy_entry dst) limit current q (is_dir node) tt) n (fun r n' => r = Ok tt /\ tree n' /\ cloned n0 s t n n').

Lemma sspec_copy_entries limit current q entries n (s := S0 ++ q) (t := T0 ++ q) :
  copies limit -> current <> "" -> locate dir current = s -> forallb plain_seg q = true ->
  NoDup (map fst entries) ->
  Forall (fun e => plain_seg (fst e) = true /\ exists node, n0 !! (s ++ [fst e]) = Some node /\ snd e = is_dir node) entries ->
  (forall x r, n0 !! (s ++ x :: r) = Some NDir -> length r < limit) ->
  tree n -> outside n -> n !! t = Some NDir -> (forall x, x ∈ map fst entries -> n !! (t ++ [x]) = None) ->
  sspec (walk_entries (walk_dir (copy_entry dst) limit) current q entries tt) n (fun r n' => r = Ok tt /\ tree n' /\
    (forall x r, x ∈ map fst entries -> n' !! (t ++ x :: r) = n0 !! (s ++ x :: r)) /\
    forall k, (forall x, x ∈ map fst entries -> ~ (t ++ [x]) `prefix_of` k) -> n' !! k = n !! k).
Proof.
  intros Hwalk Hc Hl Hq Hnd He Hlim. revert n Hnd. induction He as [|[x b] rest [Hx (node & Hnode & Hb)] _ IH];
    intros n Hnd Ht Hout Hdir Hfree; cbn [walk_entries].
  { apply tspec_ret. split_and!; [done..|by intros ?? ?%elem_of_nil|done]. }
  cbn [map fst snd] in *. subst b. apply NoDup_cons in Hnd as [Hxr Hnd].
  assert (S0 ++ q ++ [x] = s ++ [x] /\ T0 ++ q ++ [x] = t ++ [x]) as [Es Et] by (unfold s, t; by rewrite <- !app_assoc).
  eapply tspec_bind.
  { apply (Hwalk (path_join current x) (q ++ [x]) node n); rewrite ?Es, ?Et; try done.
    - by apply join_not_nil.
    - rewrite locate_join1, Hl by done. done.
    - rewrite forallb_app, Hq. cbn. by rewrite Hx.
    - left. by destruct q.
    - by rewrite removelast_last.
    - apply Hfree. by left.
    - intros r Hr. rewrite <- app_assoc in Hr. by eapply Hlim. }
  { by intros e n' []. }
  rewrite Es, Et. intros u n1 (_ & Ht1 & Hc1). destruct u. assert (outside n1) as Hout1.
  { eapply cloned_outside; [done..|]. unfold t. rewrite <- app_assoc. by apply prefix_app_r. }
  destruct Hc1 as [Hin1 Hsame1]. eapply tspec_mono; [apply IH; [done..| |]|].
  - rewrite Hsame1; [done|apply prefix_snoc_self].
  - intros y Hy. rewrite Hsame1; [apply Hfree; by right|]. apply (prefix_snoc_neq t y x); [by intros ->|done].
  - intros r n' (-> & Ht' & Hin & Hsame). split_and!; [done..| |].
    + intros y r [->|Hy]%elem_of_cons; [|by apply Hin]. rewrite Hsame.
      * by rewrite (cons_middle x t r), (cons_middle x s r), !app_assoc, Hin1.
      * intros y Hy. apply (prefix_snoc_neq t x y); [by intros ->|]. rewrite (cons_middle x t r), app_assoc. by apply prefix_app_r.
    + intros k Hk. rewrite Hsame; [apply Hsame1, Hk; by left|]. intros y Hy. apply Hk. by right.
Qed.

Section Ends.
Context (x : string) (Hends : ends_in dst x) (Hx : plain_seg x = true).
(** One entry: a directory, or the file. *)
Lemma sspec_copy_entry current q node n (s := S0 ++ q) (t := T0 ++ q) :
  current <> "" -> locate dir current = s -> forallb plain_seg q = true -> n !! s = Some node ->
  tree n -> n !! removelast t = Some NDir -> n !! t = None ->
  sspec (copy_entry dst current q (is_dir node) tt) n (fun r n' => r = Ok (tt, false) /\ n' = <[t := node]> n /\ tree n').
Proof.
  intros Hc Hl Hq Hs Ht Hup Hnone. pose proof (locate_relative dir dst q Hdst Hq) as Hloc. fold t in Hloc.
  assert (t <> []) as Hne by (intros E; rewrite E, (proj1 Ht) in Hnone; done).
  destruct (relative_ends dst x q) as (y & Hy & Hyends); [done..|]. unfold copy_entry.
  set (target := path_join dst (relative_path q)) in *. assert (target <> "") as Htarget by by apply join_not_nil.
  eapply (tspec_bind _ _ _ _ _ _ (fun r n' => r = Ok tt /\ n' = <[t := node]> n /\ tree n'));
    [|by intros e n' []|intros u n' (_ & -> & ?); by apply tspec_ret].
  destruct node as [|data mtime]; cbn [is_dir].
  - apply sspec_call; [done|]. intros now. rewrite Hloc. destruct (snoc_or_nil t) as [->|(l & z & E)]; [done|]. rewrite E in *.
    rewrite removelast_last in Hup. rewrite mkdirs_new by done. split_and!; [done..|].
    apply tree_insert; [done..|by rewrite removelast_last|by left].
  - rewrite <- Hloc. apply (sspec_copyFile dir current target n data mtime y); rewrite ?Hl, ?Hloc; done.
Qed.
Lemma cloned_file n s t data mtime : tree n -> n !! t = None -> n0 !! s = Some (NFile data mtime) ->
  cloned n0 s t n (<[t := NFile data mtime]> n).
Proof.
  intros Ht Hnone Hs. split; [|intros k Hk; rewrite lookup_insert_ne; [done|by intros ->]]. intros q.
  destruct (decide (q = [])) as [->|Hq]; [by rewrite !app_nil_r, lookup_insert_eq|].
  rewrite (tree_below_file n0 s q data mtime) by done. rewrite lookup_insert_ne; [by apply tree_below_none|].
  intros E. apply Hq, (app_inv_head t). by rewrite app_nil_r.
Qed.
(** A directory is copied once all of its entries are. *)
Lemma cloned_entries n n1 n' s t (names : list string) : tree n -> n !! t = None -> n0 !! s = Some NDir -> n1 = <[t := NDir]> n ->
  (forall x, x ∉ names -> n0 !! (s ++ [x]) = None) ->
  (forall x r, x ∈ names -> n' !! (t ++ x :: r) = n0 !! (s ++ x :: r)) ->
  (forall k, (forall x, x ∈ names -> ~ (t ++ [x]) `prefix_of` k) -> n' !! k = n1 !! k) ->
  cloned n0 s t n n'.
Proof.
  intros Ht Hnone Hs -> Habsent Hin Hsame. split.
  - intros [|y r].
    + rewrite !app_nil_r, Hsame by (intros; apply prefix_snoc_self). by rewrite lookup_insert_eq.
    + destruct (decide (y ∈ names)) as [Hy|Hy]; [by apply Hin|]. rewrite (cons_middle y s r), app_assoc, (tree_below_none n0) by auto.
      rewrite Hsame.
      * rewrite lookup_insert_ne; [by apply tree_below_none|]. intros E%(f_equal length). rewrite length_app in E. cbn in E. lia.
      * intros z Hz. apply (prefix_snoc_neq t y z); [by intros ->|]. rewrite (cons_middle y t r), app_assoc. by apply prefix_app_r.
  - intros k Hk. rewrite Hsame; [rewrite lookup_insert_ne; [done|by intros ->]|]. intros z Hz Hp. apply Hk. etrans; [|exact Hp]. by apply prefix_app_r.
Qed.
Lemma copies_all limit : copies limit.
Proof.
  induction limit as [|limit IH]; intros current q node n s t Hc Hl Hq Hnode Hroot Ht Hout Hup Hnone Hlim; cbn [walk_dir];
    assert (n !! s = Some node) as Hs by (rewrite Hout; [done|apply apart_below]);
    (eapply tspec_bind; [by apply sspec_copy_entry|by intros e n' []|]); intros [u skip] n1 ([= -> ->] & -> & Ht1);
    (destruct node as [|data mtime]; cbn [is_dir negb orb]; [|apply tspec_ret; split_and!; [done..|by apply cloned_file]]).
  { exfalso. specialize (Hlim []). rewrite app_nil_r in Hlim. specialize (Hlim Hnode). cbn in Hlim. lia. }
  fold s t in Ht1 |- *. set (n1 := <[t := NDir]> n) in *.
  assert (forall k, ~ T0 `prefix_of` k -> n1 !! k = n0 !! k) as Hout1.
  { intros k Hk. unfold n1. rewrite lookup_insert_ne; [by apply Hout|]. intros <-. apply Hk. by apply prefix_app_r. }
  assert (n1 !! s = Some NDir) as Hs1 by (rewrite Hout1; [done|apply apart_below]).
  eapply (tspec_bind _ _ _ _ _ _ (fun r n' => r = Ok (children s n1) /\ n' = n1)); [|by intros e n' []|].
  { apply sspec_call; [done|]. intros now. rewrite Hl. by rewrite (proj2 (node_at_ok _ _ _) Hs1). }
  intros entries n2 [[= ->] ->].
  assert (forall x, n1 !! (s ++ [x]) = n0 !! (s ++ [x])) as Hkids.
  { intros z. apply Hout1. unfold s. rewrite <- app_assoc. apply apart_below. }
  eapply tspec_mono; [apply sspec_copy_entries; try done; [apply entries_no_dup|..]|].
  - apply Forall_forall. intros [z b] (Hz & node & Hn & ->)%elem_of_children. split; [done|]. exists node. by rewrite <- Hkids.
  - intros z r Hr. specialize (Hlim (z :: r) Hr). cbn in Hlim. lia.
  - apply lookup_insert_eq.
  - intros z _. unfold n1. rewrite lookup_insert_ne; [by apply tree_below_none|]. intros E%(f_equal length). unfold t in E. rewrite !length_app in E. cbn in E. lia.
  - intros r n' (-> & Ht' & Hin & Hsame). split_and!; [done..|]. apply (cloned_entries n n1 n' s t (map fst (children s n1))); try done.
    intros z Hz. destruct (n0 !! (s ++ [z])) as [node|] eqn:En; [|done]. exfalso. apply Hz, list_elem_of_fmap.
    exists (z, is_dir node). split; [done|]. apply elem_of_children. rewrite Hkids. split; [|by eexists].
    apply Hnamed in En. rewrite forallb_app in En. by apply andb_true_iff in En as [_ [? _]%andb_true_iff].
Qed.
End Ends.
End CopyWalk.

(** Where the tree is less deep than the limit of walks. *)
Definition shallow `{PathLimit} (n : Tree) : Prop := forall k, n !! k = Some NDir -> length k < path_limit.
(** A directory is copied to a place that is neither in it nor above it:
    whole, and nothing else changes. *)
Lemma sspec_copyDirectory `{PathLimit} dir src dst x n (S := locate dir src) (T := locate dir dst) :
  src <> "" -> dst <> "" -> ends_in dst x -> plain_seg x = true -> tree n -> named n -> shallow n ->
  n !! S = Some NDir -> n !! removelast T = Some NDir -> n !! T = None -> ~ S `prefix_of` T ->
  tspec dir sound (fun d : Disk => d) (copyDirectory src dst) n (fun r n' => r = Ok tt /\ tree n' /\ cloned n S T n n').
Proof.
  intros Hs Hd He Hx Ht Hn Hsh HS Hup Hnone Hap. unfold copyDirectory, WalkDir.
  eapply tspec_bind; [by apply sspec_Stat|intros e n' [-> Hno]; fold S in Hno; congruence|].
  intros info n1 [-> (node & now & Hnode & ->)]. fold S in Hnode. rewrite HS in Hnode. injection Hnode as <-. cbn [fsi_IsDir info_of].
  assert (~ T `prefix_of` S) as Hap' by (intros [q E]; rewrite E, tree_below_none in HS; done).
  pose proof (copies_all dir n dst S Ht Hn Hd Hap Hap' x He Hx path_limit src [] NDir n) as Hc. cbn [is_dir] in Hc. rewrite !app_nil_r in Hc.
  apply Hc; try done; [by right|]. intros r Hr%Hsh. rewrite length_app in Hr. lia.
Qed.

(** ** Where calls write *)
Lemma keeps_rename (P : list string -> Prop) from to n :
  (forall k, from `prefix_of` k -> P k) -> (forall k, to `prefix_of` k -> P k) -> keeps P n (snd (rename_node from to n)).
Proof.
  intros Hf Hto k. destruct (decide (from `prefix_of` k)) as [|Hkf]; [by left; apply Hf|].
  destruct (decide (to `prefix_of` k)) as [|Hkt]; [by left; apply Hto|]. right; left. unfold rename_node.
  assert (forall node, <[to := node]> (delete from n) !! k = n !! k) as Hfile.
  { intros node. rewrite lookup_insert_ne by (intros ->; by apply Hkt). rewrite lookup_delete_ne; [done|]. intros ->. by apply Hkf. }
  assert ((list_to_map (map (fun kv => (moved from to kv.1, kv.2)) (map_to_list n)) : Tree) !! k = n !! k) as Hdir.
  { assert (forall v, (k, v) ∈ map (fun kv => (moved from to kv.1, kv.2)) (map_to_list n) <-> n !! k = Some v) as Hin.
    { intros v. rewrite <- elem_of_map_to_list, list_elem_of_fmap. split.
      - intros ([k0 v0] & [= -> ->] & Hin). cbn in *. destruct (decide (from `prefix_of` k0)) as [[q ->]|Hn].
        + destruct Hkt. rewrite moved_under. by apply prefix_app_r.
        + by rewrite moved_apart.
      - intros Hin. exists (k, v). cbn. by rewrite moved_apart. }
    apply option_eq. intros v. rewrite <- Hin. split; [apply elem_of_list_to_map_2|].
    intros Hk. apply elem_of_list_to_map_1'; [|done]. intros v' Hk'%Hin. apply Hin in Hk. congruence. }
  destruct (node_at n from) as [[|data t]|]; [| |done]; (destruct (node_at n (removelast to)) as [[]|]; [|done..]);
    destruct (n !! to) as [[]|]; cbn [snd]; auto. by destruct (below from to).
Qed.
Lemma dwithin_Rename dir (P : list string -> Prop) old new :
  (forall k, locate dir old `prefix_of` k -> P k) -> (forall k, locate dir new `prefix_of` k -> P k) ->
  dwithin dir P (OsRename old new).
Proof.
  intros Hold Hnew d Hd. unfold OsRename.
  match goal with |- wp _ ?Q _ => change (wp (call old undone (fun k (_ : Z) => rename_node k (locate (dk_dir d) new))) Q d) end.
  rewrite Hd. revert d Hd. apply dwithin_call; intros; [apply tree_step_refl|]. split; [by apply keeps_rename|].
  intros Ht. pose proof (rename_spec n (locate dir old) (locate dir new) Ht) as Hr.
  destruct (rename_node _ _ n) as [[]]; cbn; [apply Hr|by rewrite Hr].
Qed.
Lemma dwithin_Mkdir dir (P : list string -> Prop) path : P (locate dir path) -> dwithin dir P (OsMkdir path).
Proof.
  intros HP. apply dwithin_call; intros; [apply tree_step_refl|]. set (k := locate dir path) in *.
  destruct (node_at n (removelast k)) as [[]|] eqn:Ed; [|apply tree_step_refl..]. apply node_at_ok in Ed.
  destruct (n !! k) eqn:Ek; [apply tree_step_refl|]. cbn [snd]. split; [by apply keeps_insert|]. intros Ht.
  apply tree_insert; [done| |done|by left]. intros E. rewrite E, (proj1 Ht) in Ek. done.
Qed.
