(* ===== verification/Uploads.v ===== *)
(** * Uploads: the service

    [upload_service.go], [upload_session_repo_impl.go] and
    [upload_dto.go]: a client opens a session, sends a file in pieces and
    has it put together; remote sources take the pieces themselves, or the
    file as a whole.  The metadata tree is used through [MetadataReader]
    and [MetadataVFSCommitter], the drivers of remote sources through
    [UploadDrivers] and [ImportDrivers].

    [UploadProps] says what is stored, for whom, and where. *)
From S2P Require Import Prelude Ints GoStrings Entities Paths Mounts Tables Db Auditing Repos Journal Acl AclService Users Auth MetaTree Storage Files.
From stdpp Require Import base list strings sets gmap sorting pretty.
From Stdlib Require Import ZArith Lia Ascii.

Local Open Scope string_scope.
Local Open Scope list_scope.
Local Open Scope go_scope.

(** ** [upload_dto.go] *)
Record UploadSessionView := {
  uv_UploadID : string; uv_SourceID : N; uv_Path : string; uv_Filename : string; uv_FileSize : Z; uv_FileHash : string;
  uv_ChunkSize : Z; uv_TotalChunks : Z; uv_UploadedChunks : list Z; uv_Status : string; uv_IsFastUpload : bool;
  uv_ExpiresAt : string; uv_TargetVFSParentNodeID : N; uv_TargetVirtualParentPath : string; uv_ResolvedSourceID : N;
  uv_ResolvedInnerParentPath : string; uv_ResultVFSNodeID : N
}.
Record UploadTransport := { ut_Mode : string; ut_DriverType : string; ut_Concurrency : Z; ut_RetryLimit : Z }.
Record UploadPartInstruction := {
  ui_Index : Z; ui_Method : string; ui_URL : string; ui_Headers : list (string * string); ui_Start : Z; ui_End : Z;
  ui_ExpiresAt : string
}.
Record UploadInitRequest := {
  ir_SourceID : N; ir_Path : string; ir_TargetVirtualParentPath : string; ir_Filename : string; ir_FileSize : Z;
  ir_FileHash : string
}.
#[export] Instance eta_UploadInitRequest : Eta UploadInitRequest := fun r =>
  {| ir_SourceID := ir_SourceID r; ir_Path := ir_Path r; ir_TargetVirtualParentPath := ir_TargetVirtualParentPath r;
     ir_Filename := ir_Filename r; ir_FileSize := ir_FileSize r; ir_FileHash := ir_FileHash r |}.
Record UploadInitResponse := {
  ip_IsFastUpload : bool; ip_File : option FileItem; ip_Upload : option UploadSessionView; ip_ResultVFSNodeID : N;
  ip_Transport : option UploadTransport; ip_PartInstructions : list UploadPartInstruction
}.
Record UploadChunkResponse := { cp_UploadID : string; cp_Index : Z; cp_ReceivedBytes : Z; cp_AlreadyUploaded : bool }.
Record UploadPartETag := { pe_Index : Z; pe_ETag : string }.
Record UploadFinishRequest := { fr_UploadID : string; fr_Parts : list UploadPartETag }.
Record UploadFinishResponse := { fp_Completed : bool; fp_UploadID : string; fp_ResultVFSNodeID : N; fp_File : FileItem }.

(** ** [upload_session_repo_impl.go]

    [UploadedChunks] is stored as the JSON array of its elements, and 0
    for an ID as NULL. *)
Section Repository.
Context `{Database}.

Definition upload_by_id (uploadID : string) (r : UploadSession) : bool := String.eqb (us_UploadID r) uploadID.
Definition upload_id_order : Order UploadSession := ord_on db_collate us_UploadID.
Definition uploadSessionModelFromEntity (session : UploadSession) : UploadSession :=
  { session with us_StorageDataJSON ::= jsonObject }.

Definition UploadSessionRepository_Create (session : UploadSession) : M GoErr World UploadSession :=
  stmt (db_insert TUpload (uploadSessionModelFromEntity session)).

Definition upload_columns (session r : UploadSession) : UploadSession :=
  { (uploadSessionModelFromEntity session) with us_UploadID := us_UploadID r; us_CreatedAt := us_CreatedAt r }.
Definition UploadSessionRepository_Update (session : UploadSession) : M GoErr World unit :=
  must_affect (stmt (db_update TUpload (upload_by_id (us_UploadID session)) (upload_columns session))).

Definition UploadSessionRepository_Delete (uploadID : string) : M GoErr World unit :=
  must_affect (stmt (db_delete TUpload (upload_by_id uploadID))).

Definition UploadSessionRepository_FindByID (uploadID : string) : M GoErr World UploadSession :=
  first TUpload (upload_by_id uploadID) upload_id_order.

(** [First] orders by the key after the order that is asked for. *)
Definition upload_recent : Order UploadSession := ord_desc us_UpdatedAt.
Definition same_upload (userID sourceID : N) (path filename : string) (fileSize : Z) (fileHash : string) (now : Z)
    (r : UploadSession) : bool :=
  N.eqb (us_UserID r) userID && N.eqb (us_SourceID r) sourceID && String.eqb (us_Path r) path &&
  String.eqb (us_Filename r) filename && Z.eqb (us_FileSize r) fileSize && String.eqb (us_FileHash r) fileHash &&
  (String.eqb (us_Status r) "pending" || String.eqb (us_Status r) "uploading") && Z.ltb now (us_ExpiresAt r).
Definition UploadSessionRepository_FindActiveByIdentity (userID sourceID : N) (path filename : string) (fileSize : Z)
    (fileHash : string) : M GoErr World UploadSession :=
  now <-! time_now ;;
  first TUpload (same_upload userID sourceID path filename fileSize fileHash now) (ord_then upload_recent upload_id_order).

Definition upload_listed (userID : N) (sourceID : option N) (status : string) (now : Z) (r : UploadSession) : bool :=
  N.eqb (us_UserID r) userID && Z.ltb now (us_ExpiresAt r) &&
  match sourceID with Some id => N.eqb (us_SourceID r) id | None => true end &&
  (String.eqb status "" || String.eqb (us_Status r) status).
Definition UploadSessionRepository_ListByUser (userID : N) (sourceID : option N) (status : string)
    : M GoErr World (list UploadSession) :=
  now <-! time_now ;;
  stmt (db_select TUpload (upload_listed userID sourceID status now) upload_recent None).
End Repository.

(** ** Commits to the metadata tree *)
Record MetadataVFSFileObjectCommitRequest := {
  mc_Source : option StorageSource; mc_SourceID : N; mc_DriverType : string; mc_VirtualParentPath : string;
  mc_ResolvedInnerParentPath : string; mc_Filename : string; mc_ObjectPath : string; mc_LocatorType : string;
  mc_LocatorJSON : string; mc_Size : Z; mc_MimeType : string; mc_ETag : string; mc_Checksum : string;
  mc_ActorID : option N
}.
#[export] Instance eta_MetadataVFSFileObjectCommitRequest : Eta MetadataVFSFileObjectCommitRequest := fun r =>
  {| mc_Source := mc_Source r; mc_SourceID := mc_SourceID r; mc_DriverType := mc_DriverType r;
     mc_VirtualParentPath := mc_VirtualParentPath r; mc_ResolvedInnerParentPath := mc_ResolvedInnerParentPath r;
     mc_Filename := mc_Filename r; mc_ObjectPath := mc_ObjectPath r; mc_LocatorType := mc_LocatorType r;
     mc_LocatorJSON := mc_LocatorJSON r; mc_Size := mc_Size r; mc_MimeType := mc_MimeType r; mc_ETag := mc_ETag r;
     mc_Checksum := mc_Checksum r; mc_ActorID := mc_ActorID r |}.
Record MetadataVFSFileObjectCommitResult := { cr_Node : option VFSNode; cr_Object : option StorageObject }.

Class MetadataVFSCommitter `{Database} :=
  CommitFileObject : MetadataVFSFileObjectCommitRequest -> M GoErr World (option MetadataVFSFileObjectCommitResult).

(** ** Drivers and the resolver of targets *)
Record MultipartUploadRequest := {
  mu_VirtualPath : string; mu_Filename : string; mu_ContentType : string; mu_ContentHash : string; mu_FileSize : Z;
  mu_PartSize : Z; mu_TotalParts : Z; mu_ExpiresIn : Z
}.
Record MultipartUploadState := { mp_RemoteUploadID : string; mp_ObjectKey : string; mp_VirtualPath : string; mp_FileSize : Z }.
Record MultipartUploadPartInstruction := {
  mi_Index : Z; mi_Method : string; mi_URL : string; mi_Headers : list (string * string); mi_ByteStart : Z;
  mi_ByteEnd : Z; mi_ExpiresAt : Z
}.
Record MultipartUploadPlan := {
  pl_State : MultipartUploadState; pl_CompletedEntry : option StorageEntry;
  pl_PartInstructions : list MultipartUploadPartInstruction
}.
Record CompletedUploadPart := { cu_Index : Z; cu_ETag : string }.

(** The error of an import: one of package [os], or another one. *)
Inductive ImportErr : Type := ImportOs (e : OsErr) | ImportErr_ (e : GoErr).
Definition normalizeImportDriverError (err : ImportErr) : GoErr :=
  match err with
  | ImportOs OsExist => ErrFileAlreadyExists
  | ImportOs OsNotExist => ErrFileNotFound
  | ImportOs OsInvalid => ErrPathInvalid
  | ImportOs e => os_error e
  | ImportErr_ e => e
  end.

Section Drivers.
Context `{Database}.
(** The drivers that are registered, by type. *)
Class UploadDrivers := {
  uploadDrivers : string -> bool;
  InitMultipartUpload : string -> StorageSource -> MultipartUploadRequest -> M GoErr World MultipartUploadPlan;
  CompleteMultipartUpload : string -> StorageSource -> MultipartUploadState -> list CompletedUploadPart ->
    M GoErr World StorageEntry
}.
Class ImportDrivers := {
  importDrivers : string -> bool;
  ImportFile : string -> StorageSource -> string -> string -> M ImportErr Host unit
}.
Class WritableTargetResolver := ResolveWritableTarget : Ctx -> string -> M GoErr World ResolvedPath.
End Drivers.

(** ** State kept in [StorageDataJSON] *)

(** [json.Marshal] of a struct: its fields in order. *)
Definition json_struct (fields : list (string * Json)) : string :=
  "{" +:+ join_comma (map (fun '(k, v) => quote k +:+ ":" +:+ json_marshal v) fields) +:+ "}".
(** [json.Unmarshal] of one field: member names match without regard to
    case, the last one counts, null leaves the field as it is, and a value
    of another type is an error. *)
Fixpoint json_field {A} (decode : PayloadValue -> option A) (name : string) (members : list (string * PayloadValue))
    (value : A) : option A :=
  match members with
  | [] => Some value
  | (key, v) :: rest =>
      if negb (equal_fold key name) then json_field decode name rest value
      else match v with
           | PScalar JNull => json_field decode name rest value
           | _ => match decode v with Some value => json_field decode name rest value | None => None end
           end
  end.
Definition json_string (v : PayloadValue) : option string := match v with PString s => Some s | _ => None end.
Definition json_int64 (v : PayloadValue) : option Z :=
  match v with
  | PScalar (JNum z) => if Z.leb (- 2 ^ 63) z && Z.leb z max_int then Some z else None
  | _ => None
  end.

Definition uploadTransportModeServerChunkImport := "server_chunk_import".
Definition upload_import_state : string := json_struct [("transport_mode", JStr uploadTransportModeServerChunkImport)].
Definition marshal_multipart_state (state : MultipartUploadState) : string :=
  json_struct ([("remote_upload_id", JStr (mp_RemoteUploadID state)); ("object_key", JStr (mp_ObjectKey state));
                ("virtual_path", JStr (mp_VirtualPath state))] ++
               (if Z.eqb (mp_FileSize state) 0 then [] else [("file_size", JNum (mp_FileSize state))])).

(** ** The service *)

(** What the service was built with; [up_TempDir] is [TempDir] of its
    options. *)
Record UploadService := {
  up_options : SystemOptions; up_TempDir : string; up_aclAuthorizer : option ACLAuthorizer; up_vfsResolver : bool;
  up_metadataReader : bool; up_metadataCommitter : bool; up_operationJournal : bool; up_auditRecorder : bool
}.
Definition up_MaxUploadSize (s : UploadService) : Z := scp_MaxUploadSize (so_Config (up_options s)).
Definition up_DefaultChunkSize (s : UploadService) : Z := scp_DefaultChunkSize (so_Config (up_options s)).

Record resolvedUploadInitTarget := {
  ti_source : StorageSource; ti_path : string; ti_targetVFSParentNodeID : N; ti_targetVirtualParentPath : string;
  ti_resolvedSourceID : N; ti_resolvedInnerParentPath : string
}.

(** [strings.ReplaceAll(value, "-", "")]. *)
Fixpoint stringsNoDash (value : string) : string :=
  match value with
  | EmptyString => ""
  | String c rest => if Ascii.eqb c "-" then stringsNoDash rest else String c (stringsNoDash rest)
  end.
Definition optionalUintPtr (value : N) : option N := if N.eqb value 0 then None else Some value.
(** [%06d] of a number that is not negative. *)
Definition zeros (n : nat) : string := String.string_of_list_ascii (repeat "0"%char n).
Definition pad6 (n : N) : string := zeros (6 - String.length (pretty n)) +:+ pretty n.
Definition total_chunks (fileSize chunkSize : Z) : result GoErr Z :=
  if Z.eqb chunkSize 0 then Err (ErrPanic "integer divide by zero")
  else
    let totalChunks := wrap64 (Z.quot (int_sub (int_add fileSize chunkSize) 1) chunkSize) in
    Ok (if Z.leb totalChunks 0 then 1%Z else totalChunks).

Definition currentMetadataMutationActorID (ctx : Ctx) : option N :=
  match RequestAuthFromContext ctx with
  | Some auth => if N.eqb (ra_UserID auth) 0 then None else Some (ra_UserID auth)
  | None => None
  end.

Definition uploadSessionTargetVirtualPath (session : UploadSession) : string :=
  joinVirtualPath (us_Path session) (us_Filename session).
Definition respOrSessionPath (resp : option UploadFinishResponse) (session : UploadSession) : string :=
  match resp with
  | Some resp => if String.eqb (fi_Path (fp_File resp)) "" then uploadSessionTargetVirtualPath session
                 else fi_Path (fp_File resp)
  | None => uploadSessionTargetVirtualPath session
  end.

(** [targetVirtual] of [initLocal] and [finishLocal]. *)
Definition target_virtual (dir filename : string) : string :=
  if String.eqb dir "/" then "/" +:+ filename else path_join dir filename.

Definition applyStorageEntryLocatorToCommitRequest (req : MetadataVFSFileObjectCommitRequest) (entry : option StorageEntry)
    : MetadataVFSFileObjectCommitRequest :=
  match entry with
  | None => req
  | Some entry =>
      let blank v := String.eqb (trim_space v) "" in
      let req := if negb (blank (se_LocatorType entry)) && negb (blank (se_LocatorJSON entry))
                 then { req with mc_LocatorType := se_LocatorType entry; mc_LocatorJSON := se_LocatorJSON entry } else req in
      let req := if negb (blank (se_Checksum entry)) && blank (mc_Checksum req)
                 then { req with mc_Checksum := se_Checksum entry } else req in
      if negb (blank (se_MimeType entry)) && blank (mc_MimeType req)
      then { req with mc_MimeType := se_MimeType entry } else req
  end.

Section Service.
Context `{MR : MetadataReader} {MC : MetadataVFSCommitter} {UD : UploadDrivers} {ID : ImportDrivers}
  {WR : WritableTargetResolver} `{TF : TimeFormat} `{TN : TimeFormatNano} `{JD : JsonDecoder} `{MT : MimeTypes}
  {UL : UuidLibrary}.
Context (s : UploadService).

Definition sessionTempDir (uploadID : string) : string := path_join (up_TempDir s) uploadID.
Definition chunkFilePath (uploadID : string) (index : Z) : string :=
  path_join (sessionTempDir uploadID) ("chunk-" +:+ pad6 (Z.to_N index) +:+ ".part").

Definition toUploadSessionView (session : UploadSession) : UploadSessionView :=
  {| uv_UploadID := us_UploadID session; uv_SourceID := us_SourceID session; uv_Path := us_Path session;
     uv_Filename := us_Filename session; uv_FileSize := us_FileSize session; uv_FileHash := us_FileHash session;
     uv_ChunkSize := us_ChunkSize session; uv_TotalChunks := us_TotalChunks session;
     uv_UploadedChunks := us_UploadedChunks session; uv_Status := us_Status session;
     uv_IsFastUpload := us_IsFastUpload session; uv_ExpiresAt := rfc3339 (us_ExpiresAt session);
     uv_TargetVFSParentNodeID := us_TargetVFSParentNodeID session;
     uv_TargetVirtualParentPath := us_TargetVirtualParentPath session; uv_ResolvedSourceID := us_ResolvedSourceID session;
     uv_ResolvedInnerParentPath := us_ResolvedInnerParentPath session; uv_ResultVFSNodeID := us_ResultVFSNodeID session |}.

Definition toUploadPartInstructions (items : list MultipartUploadPartInstruction) : list UploadPartInstruction :=
  map (fun item =>
    {| ui_Index := mi_Index item; ui_Method := mi_Method item; ui_URL := mi_URL item; ui_Headers := mi_Headers item;
       ui_Start := mi_ByteStart item; ui_End := mi_ByteEnd item; ui_ExpiresAt := rfc3339 (mi_ExpiresAt item) |}) items.

Definition detectContentType (filename : string) : string := mime_of (to_lower (path_ext filename)).

Definition isUploadImportSession (session : UploadSession) : bool :=
  if String.eqb (us_StorageDataJSON session) "" then false
  else match json_object (us_StorageDataJSON session) with
       | None => false
       | Some members =>
           match json_field json_string "transport_mode" members "" with
           | None => false
           | Some mode => String.eqb mode uploadTransportModeServerChunkImport
           end
       end.

Definition unmarshal_multipart_state (text : string) : option MultipartUploadState :=
  match json_object text with
  | None => None
  | Some members =>
      match json_field json_string "remote_upload_id" members "", json_field json_string "object_key" members "",
            json_field json_string "virtual_path" members "", json_field json_int64 "file_size" members 0%Z with
      | Some remote, Some key, Some path, Some size =>
          Some {| mp_RemoteUploadID := remote; mp_ObjectKey := key; mp_VirtualPath := path; mp_FileSize := size |}
      | _, _, _, _ => None
      end
  end.

Definition getUploadDriver (driverType : string) : result GoErr unit :=
  if uploadDrivers driverType then Ok tt else Err ErrSourceDriverUnsupported.
Definition getImportDriver (driverType : string) : result GoErr unit :=
  if importDrivers driverType then Ok tt else Err ErrSourceDriverUnsupported.
(** [getImportDriver], with the error its callers return. *)
Definition require_import_driver (driverType : string) : M GoErr Host unit :=
  _u <-! lift_result (getImportDriver driverType)
    or err => throw (if err_is err ErrSourceDriverUnsupported then ErrSourceOperationUnsupported else err) ;;
  ret tt.

Definition uploads_authorizePath (ctx : Ctx) (sourceID : N) (pathValue : string) (action : ACLAction) : M GoErr World unit :=
  match up_aclAuthorizer s with
  | None => ret tt
  | Some a => AuthorizePath a ctx sourceID pathValue action
  end.
Definition authorizeUploadSession (ctx : Ctx) (session : UploadSession) : M GoErr World unit :=
  match RequestAuthFromContext ctx with
  | None => throw ErrPermissionDenied
  | Some auth =>
      if negb (N.eqb (ra_UserID auth) (us_UserID session)) then throw ErrPermissionDenied
      else uploads_authorizePath ctx (us_SourceID session) (us_Path session) ACLActionWrite
  end.

Definition upload_nodeID (virtualPath : string) : M GoErr World N :=
  if up_metadataReader s then resolveMetadataVFSNodeID virtualPath else ret 0%N.

Definition resolveInitTarget (ctx : Ctx) (req : UploadInitRequest) : M GoErr World resolvedUploadInitTarget :=
  if negb (String.eqb (trim_space (ir_TargetVirtualParentPath req)) "") then
    virtualParentPath <-! lift_result (normalizeVirtualPath (ir_TargetVirtualParentPath req)) ;;
    resolved <-! (if up_vfsResolver s
                  then ResolveWritableTarget ctx (joinVirtualPath virtualParentPath (ir_Filename req))
                  else throw ErrSourceDriverUnsupported) ;;
    split <-! lift_result (splitParentName (rp_InnerPath resolved)) ;;
    let '(resolvedInnerParentPath, _) := split in
    nodeID <-! upload_nodeID virtualParentPath ;;
    match rp_Source resolved with
    | None => throw (ErrPanic "nil pointer dereference")
    | Some source =>
        ret {| ti_source := source; ti_path := resolvedInnerParentPath; ti_targetVFSParentNodeID := nodeID;
               ti_targetVirtualParentPath := virtualParentPath; ti_resolvedSourceID := src_ID source;
               ti_resolvedInnerParentPath := resolvedInnerParentPath |}
    end
  else if N.eqb (ir_SourceID req) 0 then throw ErrPathInvalid
  else if String.eqb (trim_space (ir_Path req)) "" then throw ErrPathInvalid
  else
    source <-! SourceRepository_FindByID (ir_SourceID req) ;;
    normalizedPath <-! lift_result (normalizeVirtualPath (ir_Path req)) ;;
    nodeID <-! upload_nodeID (mergeMountAndInnerPath (src_MountPath source) normalizedPath) ;;
    ret {| ti_source := source; ti_path := normalizedPath; ti_targetVFSParentNodeID := nodeID;
           ti_targetVirtualParentPath := ""; ti_resolvedSourceID := src_ID source;
           ti_resolvedInnerParentPath := normalizedPath |}.

(** ** Committing a stored file to the tree *)
Definition recordUploadMetadataCommitFailure (source : StorageSource) (actorID : option N) (targetParentNodeID : N)
    (virtualParentPath objectPath filename : string) (err : GoErr) : M GoErr World unit :=
  if negb (up_operationJournal s) then ret tt
  else
    _op <-! RecordFailure true
      {| ri_OperationType := "upload_commit"; ri_SourceNodeID := None;
         ri_TargetParentNodeID := optionalUintPtr targetParentNodeID; ri_ResultNodeID := None;
         ri_SourcePathSnapshot := objectPath; ri_TargetPathSnapshot := joinVirtualPath virtualParentPath filename;
         ri_SourceIDSnapshot := Some (src_ID source); ri_DriverTypeSnapshot := src_DriverType source;
         ri_Payload := Some [("phase", PString "metadata_commit"); ("filename", PString filename)];
         ri_PayloadJSON := ""; ri_ErrorCode := "METADATA_VFS_COMMIT_FAILED"; ri_Error := Some err;
         ri_CreatedBy := actorID; ri_NextRetryAt := None |} or _e => ret tt ;;
    ret tt.

(** The commit, whose failure is recorded and masked; the node's ID. *)
Definition commit_file (source : StorageSource) (parentNodeID : M GoErr World N) (req : MetadataVFSFileObjectCommitRequest)
    : M GoErr World N :=
  let failed err :=
    nodeID <-! parentNodeID ;;
    do! recordUploadMetadataCommitFailure source (mc_ActorID req) nodeID (mc_VirtualParentPath req) (mc_ObjectPath req)
          (mc_Filename req) err ;;
    throw ErrMetadataVFSCommitFailed in
  result <-! CommitFileObject req or err => failed err ;;
  match result with
  | Some {| cr_Node := Some node |} => ret (vn_ID node)
  | _ => failed ErrMetadataVFSCommitFailed
  end.

Definition or_else (value default : string) : string := if String.eqb value "" then default else value.

Definition file_commit (source : StorageSource) (virtualParentPath innerParentPath filename checksum : string)
    (item : FileItem) (actorID : option N) : MetadataVFSFileObjectCommitRequest :=
  {| mc_Source := Some source; mc_SourceID := 0; mc_DriverType := ""; mc_VirtualParentPath := virtualParentPath;
     mc_ResolvedInnerParentPath := innerParentPath; mc_Filename := filename; mc_ObjectPath := fi_Path item;
     mc_LocatorType := ""; mc_LocatorJSON := ""; mc_Size := fi_Size item; mc_MimeType := fi_MimeType item;
     mc_ETag := fi_Etag item; mc_Checksum := checksum; mc_ActorID := actorID |}.

Definition commitUploadSessionMetadataFile (source : StorageSource) (session : UploadSession) (item : FileItem)
    (entry : option StorageEntry) : M GoErr World N :=
  if negb (up_metadataCommitter s) || fi_IsDir item then ret 0%N
  else
    let virtualParentPath := or_else (trim_space (us_TargetVirtualParentPath session))
                               (mergeMountAndInnerPath (src_MountPath source) (fi_ParentPath item)) in
    let innerParentPath := or_else (trim_space (us_ResolvedInnerParentPath session)) (fi_ParentPath item) in
    commit_file source (ret (us_TargetVFSParentNodeID session))
      (applyStorageEntryLocatorToCommitRequest
        (file_commit source virtualParentPath innerParentPath (or_else (fi_Name item) (us_Filename session))
           (us_FileHash session) item (Some (us_UserID session))) entry).

Definition commitUploadInitMetadataFile (userID : N) (target : resolvedUploadInitTarget) (filename checksum : string)
    (item : FileItem) (entry : option StorageEntry) : M GoErr World N :=
  if negb (up_metadataCommitter s) || fi_IsDir item then ret 0%N
  else
    let virtualParentPath := or_else (ti_targetVirtualParentPath target)
                               (mergeMountAndInnerPath (src_MountPath (ti_source target)) (fi_ParentPath item)) in
    let innerParentPath := or_else (ti_resolvedInnerParentPath target) (fi_ParentPath item) in
    commit_file (ti_source target) (ret (ti_targetVFSParentNodeID target))
      (applyStorageEntryLocatorToCommitRequest
        (file_commit (ti_source target) virtualParentPath innerParentPath (or_else (fi_Name item) filename) checksum item
           (Some userID)) entry).

Definition commitImportedFileMetadata (ctx : Ctx) (source : StorageSource) (parentPath filename : string) (item : FileItem)
    : M GoErr World unit :=
  if negb (up_metadataCommitter s) || fi_IsDir item then ret tt
  else
    let virtualParentPath := mergeMountAndInnerPath (src_MountPath source) parentPath in
    do! commit_file source (upload_nodeID virtualParentPath)
          (file_commit source virtualParentPath parentPath (or_else (fi_Name item) filename) "" item
             (currentMetadataMutationActorID ctx)) ;;
    ret tt.

(** ** Opening a session *)
Definition week : Z := 7 * 24 * 60 * minute.
Definition server_chunk (driverType : string) : UploadTransport :=
  {| ut_Mode := "server_chunk"; ut_DriverType := driverType; ut_Concurrency := 3; ut_RetryLimit := 3 |}.
Definition fast_upload (item : FileItem) (nodeID : N) : UploadInitResponse :=
  {| ip_IsFastUpload := true; ip_File := Some item; ip_Upload := None; ip_ResultVFSNodeID := nodeID;
     ip_Transport := None; ip_PartInstructions := [] |}.
Definition session_opened (session : UploadSession) (transport : UploadTransport) (parts : list UploadPartInstruction)
    : UploadInitResponse :=
  {| ip_IsFastUpload := false; ip_File := None; ip_Upload := Some (toUploadSessionView session);
     ip_ResultVFSNodeID := 0; ip_Transport := Some transport; ip_PartInstructions := parts |}.

(** The session the three kinds of upload open. *)
Definition new_session (userID : N) (target : resolvedUploadInitTarget) (req : UploadInitRequest) (uuid : string)
    (chunkSize totalChunks : Z) (storageData : string) (now : Z) : UploadSession :=
  {| us_UploadID := "upl_" +:+ stringsNoDash uuid; us_UserID := userID; us_SourceID := ir_SourceID req;
     us_Path := ti_path target; us_TargetVFSParentNodeID := ti_targetVFSParentNodeID target;
     us_TargetVirtualParentPath := ti_targetVirtualParentPath target; us_ResolvedSourceID := ti_resolvedSourceID target;
     us_ResolvedInnerParentPath := ti_resolvedInnerParentPath target; us_ResultVFSNodeID := 0;
     us_Filename := ir_Filename req; us_FileSize := ir_FileSize req; us_FileHash := ir_FileHash req;
     us_ChunkSize := chunkSize; us_TotalChunks := totalChunks; us_UploadedChunks := []; us_StorageDataJSON := storageData;
     us_Status := "uploading"; us_IsFastUpload := false; us_ExpiresAt := now + week; us_CreatedAt := now;
     us_UpdatedAt := now |}.
Definition open_session (userID : N) (target : resolvedUploadInitTarget) (req : UploadInitRequest)
    (chunkSize totalChunks : Z) (storageData : string) : M GoErr World UploadSession :=
  now <-! time_now ;;
  uuid <-! NewString ;;
  UploadSessionRepository_Create (new_session userID target req uuid chunkSize totalChunks storageData now).

Definition initLocal (userID : N) (target : resolvedUploadInitTarget) (req : UploadInitRequest)
    : M GoErr Host UploadInitResponse :=
  if Z.ltb (up_MaxUploadSize s) (ir_FileSize req) then throw ErrUploadTooLarge
  else
  let source := ti_source target in
  let targetVirtual := target_virtual (ti_path target) (ir_Filename req) in
  physical <-! lift_result (resolvePhysicalPath source targetVirtual) ;;
  let targetPhysical := snd physical in
  _info <-! on_disk (Stat targetPhysical) or _statErr => (
    existing <-! on_world (UploadSessionRepository_FindActiveByIdentity userID (ir_SourceID req) (ti_path target)
                   (ir_Filename req) (ir_FileSize req) (ir_FileHash req)) or err =>
      (if negb (err_is err ErrNotFound) then throw err
       else
         totalChunks <-! lift_result (total_chunks (ir_FileSize req) (up_DefaultChunkSize s)) ;;
         session <-! on_world (open_session userID target req (up_DefaultChunkSize s) totalChunks "") ;;
         do! os (OsMkdirAll (sessionTempDir (us_UploadID session))) ;;
         ret (session_opened session (server_chunk "local") [])) ;;
    ret (session_opened existing (server_chunk "local") [])) ;;
  hash <-! on_disk (hashFileMD5 targetPhysical) or _hashErr => throw ErrFileAlreadyExists ;;
  if negb (String.eqb hash (ir_FileHash req)) then throw ErrFileAlreadyExists
  else
    info <-! on_disk (Stat targetPhysical) or _err => throw (ErrPanic "nil pointer dereference") ;;
    let item := buildFileItem (src_ID source) targetVirtual info in
    nodeID <-! on_world (commitUploadInitMetadataFile userID target (ir_Filename req) (ir_FileHash req) item None) ;;
    ret (fast_upload item nodeID).

Definition initWithUploadDriver (userID : N) (target : resolvedUploadInitTarget) (req : UploadInitRequest)
    : M GoErr World UploadInitResponse :=
  let source := ti_source target in
  let driverType := src_DriverType source in
  do! lift_result (getUploadDriver driverType) ;;
  if Z.ltb (up_MaxUploadSize s) (ir_FileSize req) then throw ErrUploadTooLarge
  else
  let partSize := up_DefaultChunkSize s in
  totalChunks <-! lift_result (total_chunks (ir_FileSize req) partSize) ;;
  plan <-! InitMultipartUpload driverType source
    {| mu_VirtualPath := ti_path target; mu_Filename := ir_Filename req;
       mu_ContentType := detectContentType (ir_Filename req); mu_ContentHash := ir_FileHash req;
       mu_FileSize := ir_FileSize req; mu_PartSize := partSize; mu_TotalParts := totalChunks;
       mu_ExpiresIn := 15 * minute |} ;;
  match pl_CompletedEntry plan with
  | Some entry =>
      let item := buildStorageEntryItem (src_ID source) entry in
      nodeID <-! commitUploadInitMetadataFile userID target (ir_Filename req) (ir_FileHash req) item (Some entry) ;;
      ret (fast_upload item nodeID)
  | None =>
      match pl_PartInstructions plan with
      | [] => throw ErrSourceOperationUnsupported
      | parts =>
          session <-! open_session userID target req partSize (Z.of_nat (length parts))
                        (marshal_multipart_state (pl_State plan)) ;;
          ret (session_opened session
                 {| ut_Mode := "direct_parts"; ut_DriverType := driverType; ut_Concurrency := 3; ut_RetryLimit := 3 |}
                 (toUploadPartInstructions parts))
      end
  end.

Definition initWithImportDriver (userID : N) (target : resolvedUploadInitTarget) (req : UploadInitRequest)
    : M GoErr Host UploadInitResponse :=
  let driverType := src_DriverType (ti_source target) in
  do! require_import_driver driverType ;;
  if Z.ltb (up_MaxUploadSize s) (ir_FileSize req) then throw ErrUploadTooLarge
  else
  totalChunks <-! lift_result (total_chunks (ir_FileSize req) (up_DefaultChunkSize s)) ;;
  session <-! on_world (open_session userID target req (up_DefaultChunkSize s) totalChunks upload_import_state) ;;
  ret (session_opened session (server_chunk driverType) []).

Definition UploadService_Init (ctx : Ctx) (userID : N) (req : UploadInitRequest) : M GoErr Host UploadInitResponse :=
  do! lift_result (validateFileName (ir_Filename req)) ;;
  target <-! on_world (resolveInitTarget ctx req) ;;
  let source := ti_source target in
  let req := { req with ir_SourceID := src_ID source; ir_Path := ti_path target } in
  do! on_world (uploads_authorizePath ctx (src_ID source) (ti_path target) ACLActionWrite) ;;
  if String.eqb (src_DriverType source) "local" then initLocal userID target req
  else
    match getUploadDriver (src_DriverType source) with
    | Ok _ =>
        resp <-! on_world (initWithUploadDriver userID target req) or err =>
          (if err_is err ErrSourceOperationUnsupported then initWithImportDriver userID target req else throw err) ;;
        ret resp
    | Err err =>
        if err_is err ErrSourceDriverUnsupported then initWithImportDriver userID target req else throw err
    end.

(** ** Pieces *)
Definition add_chunk (index : Z) (chunks : list Z) : list Z :=
  if existsb (Z.eqb index) chunks then chunks else merge_sort Z.le (chunks ++ [index]).

Definition find_session (uploadID : string) : M GoErr Host UploadSession :=
  session <-! on_world (UploadSessionRepository_FindByID uploadID)
    or err => throw (if err_is err ErrNotFound then ErrUploadSessionNotFound else err) ;;
  ret session.

Definition chunk_response (uploadID : string) (index : Z) (data : string) (already : bool) : UploadChunkResponse :=
  {| cp_UploadID := uploadID; cp_Index := index; cp_ReceivedBytes := Z.of_nat (String.length data);
     cp_AlreadyUploaded := already |}.

Definition UploadService_UploadChunk (ctx : Ctx) (uploadID : string) (index : Z) (data : string)
    : M GoErr Host UploadChunkResponse :=
  session <-! find_session uploadID ;;
  do! on_world (authorizeUploadSession ctx session) ;;
  if Z.ltb index 0 || Z.leb (us_TotalChunks session) index then throw ErrUploadInvalidState
  else
  let chunkPath := chunkFilePath uploadID index in
  existing <-! on_disk (ReadFile chunkPath) or _readErr => (
    do! os (OsMkdirAll (path_dir chunkPath)) ;;
    do! os (WriteFile chunkPath data) ;;
    now <-! on_world time_now ;;
    do! on_world (UploadSessionRepository_Update
          { session with us_UploadedChunks ::= add_chunk index; us_UpdatedAt := now }) ;;
    ret (chunk_response uploadID index data false)) ;;
  if String.eqb existing data then ret (chunk_response uploadID index data true) else throw ErrUploadChunkConflict.

(** ** Putting the file together *)

(** The pieces from [index] on, [n] of them, appended to a file. *)
Fixpoint append_chunks (output uploadID : string) (index : Z) (n : nat) : M GoErr Host unit :=
  match n with
  | O => ret tt
  | S n =>
      data <-! on_disk (ReadFile (chunkFilePath uploadID index)) or _readErr => throw ErrUploadFinishIncomplete ;;
      do! os (Write output data) ;;
      append_chunks output uploadID (index + 1) n
  end.
(** A failed step closes the file too. *)
Definition assemble (output uploadID : string) (totalChunks : Z) : M GoErr Host unit :=
  do! os (Create output) ;;
  _u <-! append_chunks output uploadID 0 (Z.to_nat totalChunks) or err =>
    (_c <-! on_disk (Close output) or _e => throw err ;; throw err) ;;
  os (Close output).

Definition check_hash (filePath fileHash : string) : M GoErr Host unit :=
  hash <-! os (hashFileMD5 filePath) ;;
  if negb (String.eqb fileHash "") && negb (String.eqb hash fileHash) then throw ErrUploadHashMismatch else ret tt.

Definition clean_up (uploadID : string) : M GoErr Host unit :=
  _u <-! on_disk (RemoveAll (sessionTempDir uploadID)) or _e => ret tt ;; ret tt.
Definition forget_session (uploadID : string) : M GoErr Host unit :=
  _u <-! on_world (UploadSessionRepository_Delete uploadID) or _e => ret tt ;; ret tt.

Definition finished (session : UploadSession) (item : FileItem) (nodeID : N) : UploadFinishResponse :=
  {| fp_Completed := true; fp_UploadID := us_UploadID session; fp_ResultVFSNodeID := nodeID; fp_File := item |}.

Definition incomplete (session : UploadSession) : bool :=
  Z.ltb (Z.of_nat (length (us_UploadedChunks session))) (us_TotalChunks session).

Definition finishLocal (source : StorageSource) (session : UploadSession) : M GoErr Host UploadFinishResponse :=
  if incomplete session then throw ErrUploadFinishIncomplete
  else
  let targetVirtual := target_virtual (us_Path session) (us_Filename session) in
  physical <-! lift_result (resolvePhysicalPath source targetVirtual) ;;
  let targetPhysical := snd physical in
  _info <-! on_disk (Stat targetPhysical) or _statErr => (
    do! os (OsMkdirAll (path_dir targetPhysical)) ;;
    do! assemble targetPhysical (us_UploadID session) (us_TotalChunks session) ;;
    do! check_hash targetPhysical (us_FileHash session) ;;
    info <-! os (Stat targetPhysical) ;;
    let item := buildFileItem (src_ID source) targetVirtual info in
    nodeID <-! on_world (commitUploadSessionMetadataFile source session item None) ;;
    do! clean_up (us_UploadID session) ;;
    do! forget_session (us_UploadID session) ;;
    ret (finished session item nodeID)) ;;
  throw ErrFileAlreadyExists.

Definition finishWithUploadDriver (source : StorageSource) (session : UploadSession) (req : UploadFinishRequest)
    : M GoErr Host UploadFinishResponse :=
  if Z.ltb (Z.of_nat (length (fr_Parts req))) (us_TotalChunks session) then throw ErrUploadFinishIncomplete
  else
  do! lift_result (getUploadDriver (src_DriverType source)) ;;
  match unmarshal_multipart_state (us_StorageDataJSON session) with
  | None => throw ErrUploadInvalidState
  | Some state =>
      let completedParts := map (fun part => {| cu_Index := pe_Index part; cu_ETag := pe_ETag part |}) (fr_Parts req) in
      entry <-! on_world (CompleteMultipartUpload (src_DriverType source) source state completedParts) ;;
      let item := buildStorageEntryItem (src_ID source) entry in
      nodeID <-! on_world (commitUploadSessionMetadataFile source session item (Some entry)) ;;
      do! forget_session (us_UploadID session) ;;
      ret (finished session item nodeID)
  end.

(** A file that was handed to a driver, as an entry of the source. *)
Definition imported_entry (name path : string) (size now : Z) : StorageEntry :=
  {| se_Name := name; se_Path := path; se_IsDir := false; se_Size := size; se_ETag := ""; se_Checksum := "";
     se_MimeType := ""; se_ModifiedAt := now; se_ProviderItemID := ""; se_ProviderParentID := ""; se_LocatorType := "";
     se_LocatorJSON := "" |}.

Definition finishWithImportDriver (source : StorageSource) (session : UploadSession) : M GoErr Host UploadFinishResponse :=
  if incomplete session then throw ErrUploadFinishIncomplete
  else
  do! require_import_driver (src_DriverType source) ;;
  let stagedPath := path_join (sessionTempDir (us_UploadID session)) "assembled-upload" in
  do! assemble stagedPath (us_UploadID session) (us_TotalChunks session) ;;
  do! check_hash stagedPath (us_FileHash session) ;;
  let targetPath := joinVirtualPath (us_Path session) (us_Filename session) in
  do! map_err normalizeImportDriverError (ImportFile (src_DriverType source) source targetPath stagedPath) ;;
  now <-! on_world time_now ;;
  let item := buildStorageEntryItem (src_ID source)
                (imported_entry (us_Filename session) targetPath (us_FileSize session) now) in
  nodeID <-! on_world (commitUploadSessionMetadataFile source session item None) ;;
  do! clean_up (us_UploadID session) ;;
  do! forget_session (us_UploadID session) ;;
  ret (finished session item nodeID).

Definition upload_audit (ctx : Ctx) (e : Event) : M GoErr Host unit :=
  on_world (recordServiceAudit ctx (up_auditRecorder s) e).
Definition finish_event (result code uploadID : string) : Event := event "file" "upload_finish" result code uploadID.
Definition refuse_finish {A} (ctx : Ctx) (e : Event) (err : GoErr) : M GoErr Host A :=
  do! upload_audit ctx e ;; throw err.

Definition UploadService_Finish (ctx : Ctx) (req : UploadFinishRequest) : M GoErr Host UploadFinishResponse :=
  let uploadID := fr_UploadID req in
  session <-! on_world (UploadSessionRepository_FindByID uploadID) or err =>
    (if err_is err ErrNotFound
     then refuse_finish ctx (finish_event ResultFailed "UPLOAD_SESSION_NOT_FOUND" uploadID) ErrUploadSessionNotFound
     else refuse_finish ctx (finish_event ResultFailed "INTERNAL_ERROR" uploadID) err) ;;
  let of_session e := { e with ev_SourceID := Some (us_SourceID session);
                               ev_VirtualPath := uploadSessionTargetVirtualPath session } in
  _auth <-! on_world (authorizeUploadSession ctx session) or err =>
    refuse_finish ctx (of_session (finish_event ResultDenied "PERMISSION_DENIED" uploadID)) err ;;
  source <-! on_world (SourceRepository_FindByID (us_SourceID session)) or err =>
    refuse_finish ctx (of_session (finish_event ResultFailed "SOURCE_NOT_FOUND" uploadID)) err ;;
  let at_path e path := { e with ev_SourceID := Some (src_ID source);
                                 ev_VirtualPath := mergeMountAndInnerPath (src_MountPath source) path } in
  resp <-! (if String.eqb (src_DriverType source) "local" then finishLocal source session
            else if isUploadImportSession session then finishWithImportDriver source session
            else finishWithUploadDriver source session req) or err =>
    refuse_finish ctx (at_path (finish_event ResultFailed (mapFileErrorCode err) uploadID) (respOrSessionPath None session)) err ;;
  let item := fp_File resp in
  let done := at_path (finish_event ResultSuccess "" uploadID) (fi_Path item) in
  do! upload_audit ctx
    { done with ev_After := [("virtual_path", JStr (ev_VirtualPath done)); ("name", JStr (fi_Name item));
                             ("size", JNum (fi_Size item))] } ;;
  ret resp.

(** ** Listing and cancelling *)
Definition UploadService_ListSessions (userID : N) (sourceID : option N) (status : string)
    : M GoErr World (list UploadSessionView) :=
  items <-! UploadSessionRepository_ListByUser userID sourceID status ;;
  ret (map toUploadSessionView items).

Definition UploadService_Cancel (ctx : Ctx) (uploadID : string) : M GoErr Host unit :=
  session <-! find_session uploadID ;;
  do! on_world (authorizeUploadSession ctx session) ;;
  if String.eqb (us_Status session) "completed" then throw ErrUploadInvalidState
  else
  do! on_world (UploadSessionRepository_Delete uploadID) ;;
  clean_up uploadID.

(** ** Files that are on the local disk already *)
Definition importLocalFileIntoLocalSource (source : StorageSource) (parentPath targetPath localPath : string)
    : M GoErr Host FileItem :=
  parent <-! lift_result (resolvePhysicalPath source parentPath) ;;
  let parentPhysicalPath := snd parent in
  parentInfo <-! on_disk (Stat parentPhysicalPath) or err =>
    throw (match err with OsNotExist => ErrFileNotFound | _ => normalizeLocalWriteError err end) ;;
  if negb (fsi_IsDir parentInfo) then throw ErrPathInvalid
  else
  writable <-! os (probeLocalDirectoryWritable parentPhysicalPath) ;;
  if negb writable then throw ErrSourceReadOnly
  else
  target <-! lift_result (resolvePhysicalPath source targetPath) ;;
  let targetPhysicalPath := snd target in
  do! map_err normalizeLocalWriteError (on_disk (copyFile localPath targetPhysicalPath)) ;;
  info <-! map_err normalizeLocalWriteError (on_disk (Stat targetPhysicalPath)) ;;
  ret (buildFileItem (src_ID source) targetPath info).

Definition UploadService_ImportLocalFile (ctx : Ctx) (sourceID : N) (parentPath filename localPath : string)
    : M GoErr Host FileItem :=
  do! lift_result (validateFileName filename) ;;
  source <-! on_world (SourceRepository_FindByID sourceID) ;;
  parentPath <-! lift_result (normalizeVirtualPath parentPath) ;;
  do! on_world (uploads_authorizePath ctx (src_ID source) parentPath ACLActionWrite) ;;
  info <-! os (Stat localPath) ;;
  if fsi_IsDir info then throw ErrFileIsDirectory
  else
  let targetPath := joinVirtualPath parentPath filename in
  item <-! (if String.eqb (src_DriverType source) "local"
            then importLocalFileIntoLocalSource source parentPath targetPath localPath
            else
              do! require_import_driver (src_DriverType source) ;;
              do! map_err normalizeImportDriverError (ImportFile (src_DriverType source) source targetPath localPath) ;;
              now <-! on_world time_now ;;
              ret (buildStorageEntryItem (src_ID source) (imported_entry filename targetPath (fsi_Size info) now))) ;;
  do! on_world (commitImportedFileMetadata ctx source parentPath filename item) ;;
  ret item.
End Service.
