(* ===== verification/UploadProps.v ===== *)
(** * Uploads: what is stored

    Every operation keeps the sessions well formed and stays within the
    temporary directory of its session and the directory of its target's
    source; no one reaches another user's session; and a file that is put
    together is the file that was sent, whatever happened in between. *)
From S2P Require Import Prelude Ints GoStrings Entities Paths Mounts Permission Tables Db Auditing Repos Journal Acl AclService Users Auth MetaTree Storage Files Uploads.
From stdpp Require Import base list strings sets gmap sorting pretty.
From Stdlib Require Import ZArith Lia Ascii.

Local Open Scope string_scope.
Local Open Scope list_scope.
Local Open Scope go_scope.

(** ** What the interfaces promise *)

(** The sources on local disks are among those there were. *)
Definition is_local (source : StorageSource) : Prop := src_DriverType source = "local".
Definition local_kept `{Database} (w w' : World) : Prop :=
  forall r, r ∈ tbl TSource w' -> is_local r -> r ∈ tbl TSource w.

Section Laws.
Context `{DatabaseLaws}.
Class MetadataVFSCommitterLaws `{MetadataVFSCommitter} : Prop :=
  committer_law : forall req, within [TNode; TObject] (CommitFileObject req).
(** A driver may write back the configuration of its source. *)
Class UploadDriverLaws `{UploadDrivers} : Prop := {
  upload_init_law : forall t src req w,
    wp (InitMultipartUpload t src req) (fun _ w' => frames [TSource] w w' /\ local_kept w w') w;
  upload_complete_law : forall t src state parts w,
    wp (CompleteMultipartUpload t src state parts) (fun _ w' => frames [TSource] w w' /\ local_kept w w') w
}.
(** An import reads the local file, and changes nothing on the disk. *)
Class ImportDriverLaws `{ImportDrivers} : Prop :=
  import_law : forall t src target path h,
    wp (ImportFile t src target path) (fun _ h' =>
      frames [TSource] (h_world h) (h_world h') /\ local_kept (h_world h) (h_world h') /\
      dframe (fun _ => False) (h_disk h) (h_disk h')) h.
Class WritableTargetLaws `{WritableTargetResolver} : Prop :=
  resolver_law : forall ctx p, within [] (ResolveWritableTarget ctx p).
(** The text of a UUID has no slash. *)
Class UuidTextLaws `{UuidLibrary} : Prop := uuid_text_law : returns NewString (fun u => has_byte slash u = false).
End Laws.

(** ** Names and paths of a session *)
Lemma no_dash_no_slash u : has_byte slash u = false -> has_byte slash (stringsNoDash u) = false.
Proof.
  induction u as [|c u IH]; [done|]. rewrite has_byte_cons. intros [Hc Hu]%orb_false_iff. cbn [stringsNoDash].
  destruct (Ascii.eqb c "-"); [auto|]. by rewrite has_byte_cons, Hc, IH.
Qed.
Lemma upload_id_plain u : has_byte slash u = false -> plain_seg ("upl_" +:+ stringsNoDash u) = true.
Proof. intros Hu. apply plain_seg_spec. split_and!; [done..|]. by rewrite has_byte_app, no_dash_no_slash. Qed.

Lemma zeros_no_slash n : has_byte slash (zeros n) = false.
Proof. induction n as [|n IH]; [done|]. change (zeros (S n)) with (String "0" (zeros n)). by rewrite has_byte_cons, IH. Qed.
Lemma pad6_no_slash n : has_byte slash (pad6 n) = false.
Proof. unfold pad6. by rewrite has_byte_app, zeros_no_slash, pretty_no_slash. Qed.
Lemma decimal_zeros n t : decimal (zeros n +:+ t) = decimal t.
Proof. induction n as [|n IH]; [done|]. exact IH. Qed.
Lemma pad6_inj n m : pad6 n = pad6 m -> n = m.
Proof.
  intros E. apply (f_equal decimal) in E. unfold pad6 in E. by rewrite !decimal_zeros, !decimal_pretty in E.
Qed.

Definition chunk_name (index : Z) : string := "chunk-" +:+ pad6 (Z.to_N index) +:+ ".part".
Lemma chunk_name_plain i : plain_seg (chunk_name i) = true.
Proof. apply plain_seg_spec. split_and!; [done..|]. unfold chunk_name. by rewrite !has_byte_app, pad6_no_slash. Qed.
Lemma chunk_name_inj i j : (0 <= i)%Z -> (0 <= j)%Z -> chunk_name i = chunk_name j -> i = j.
Proof. intros Hi Hj E%append_inj_l%append_inj_r%pad6_inj. lia. Qed.

(** ** Well-formed sessions *)
Record session_ok (r : UploadSession) : Prop := {
  so_id : plain_seg (us_UploadID r) = true;
  so_total : (1 <= us_TotalChunks r)%Z;
  so_sorted : StronglySorted Z.lt (us_UploadedChunks r);
  so_range : Forall (fun i => 0 <= i < us_TotalChunks r)%Z (us_UploadedChunks r);
  so_name : validateFileName (us_Filename r) = Ok tt;
  so_path : canonical (us_Path r)
}.

Section Paths.
Context (s : UploadService) (dir : string) (Htemp : up_TempDir s <> "").

Definition temp_at (id : string) : list string := locate dir (up_TempDir s) ++ [id].
Definition chunk_at (id : string) (index : Z) : list string := temp_at id ++ [chunk_name index].

Lemma temp_dir_at id : plain_seg id = true -> locate dir (sessionTempDir s id) = temp_at id.
Proof. intros Hid. by apply locate_join1. Qed.
Lemma temp_not_nil id : sessionTempDir s id <> "".
Proof. by apply join_not_nil. Qed.
Lemma chunk_file_at id i : plain_seg id = true -> locate dir (chunkFilePath s id i) = chunk_at id i.
Proof.
  intros Hid. unfold chunkFilePath. fold (chunk_name i).
  rewrite locate_join1 by (apply temp_not_nil || apply chunk_name_plain). by rewrite temp_dir_at.
Qed.
Lemma chunk_dir_at id i : plain_seg id = true -> locate dir (path_dir (chunkFilePath s id i)) = temp_at id.
Proof.
  intros Hid. assert (ends_in (chunkFilePath s id i) (chunk_name i)) as He
    by (apply join1_ends; [apply temp_not_nil|apply chunk_name_plain]).
  pose proof (locate_dir dir _ _ He (chunk_name_plain i)) as Hl. rewrite chunk_file_at in Hl by done.
  by apply app_inj_tail in Hl as [<- _].
Qed.

(** Different sessions have different directories. *)
Lemma temp_apart id id' k : temp_at id `prefix_of` k -> temp_at id' `prefix_of` k -> id = id'.
Proof.
  unfold temp_at. intros [l ->] [l' E]. rewrite <- !app_assoc in E. apply app_inv_head in E. by injection E.
Qed.
End Paths.

Lemma target_virtual_located path filename q : canonical path -> validateFileName filename = Ok tt ->
  normalizeVirtualPath (target_virtual path filename) = Ok (render q) -> good_segs q = true ->
  exists l, path = render l /\ q = l ++ [filename].
Proof.
  intros (l & Hl & ->) Hn Hq Hg. apply validateFileName_ok in Hn as [Hn _].
  assert (target_virtual (render l) filename = render (l ++ [filename])) as E.
  { unfold target_virtual. destruct (String.eqb_spec (render l) "/") as [E|E].
    - apply (render_inj l []) in E as ->; [|by apply good_segs_plain|done]. cbn. by rewrite append_nil_r.
    - assert (forallb plain_seg [filename] = true) as Hf by (cbn; by rewrite Hn).
      rewrite <- (join_clean l [filename]) by (done || by apply good_segs_plain).
      rewrite trim_slash_tail. cbn [tail_of render_tail]. by rewrite append_nil_r. }
  rewrite E, normalize_snoc in Hq by done. destruct (contains filename ".."); [done|]. injection Hq as Hq.
  exists l. split; [done|]. symmetry. apply render_inj; [|by apply good_segs_plain|done].
  rewrite forallb_app, good_segs_plain by done. cbn. by rewrite Hn.
Qed.

(** ** What every operation keeps *)
Definition quiet_tables : list Table := [TAudit; TNode; TObject; TOperation].

Section Quiet.
Context `{DatabaseLaws} {MR : MetadataReader} {MRL : MetadataReaderLaws} {MC : MetadataVFSCommitter}
  {MCL : MetadataVFSCommitterLaws} `{JD : JsonDecoder} (s : UploadService).
Notation quiet m := (within quiet_tables m).

Lemma quiet_reads {A} (m : M GoErr World A) : within [] m -> quiet m.
Proof. intros Hm. apply (within_mono [] _ _ Hm). set_solver. Qed.
Lemma quiet_commit req : quiet (CommitFileObject req).
Proof. eapply within_mono; [apply committer_law|set_solver]. Qed.
Lemma quiet_record source actor parent vp op name err :
  quiet (recordUploadMetadataCommitFailure s source actor parent vp op name err).
Proof.
  unfold recordUploadMetadataCommitFailure, RecordFailure, record, with_repo, VFSOperationRepository_Create.
  frame_tac.
Qed.
Lemma quiet_node p : quiet (upload_nodeID s p).
Proof.
  unfold upload_nodeID, resolveMetadataVFSNodeID. destruct (up_metadataReader s); [|apply within_ret].
  destruct (String.eqb _ ""); [apply within_ret|]. destruct (normalizeVirtualPath p); [|apply within_ret].
  apply within_bind_or; [apply quiet_reads, reads_path|intros ?; apply within_ret..].
Qed.
Lemma quiet_commit_file source parent req : quiet parent -> quiet (commit_file s source parent req).
Proof.
  intros Hp. unfold commit_file. apply within_bind_or; [apply quiet_commit|..].
  - intros err. apply within_bind; [done|]. intros id. apply within_bind; [apply quiet_record|]. intros _. apply within_throw.
  - intros [[[node|] ?]|]; [apply within_ret|..]; (apply within_bind; [done|]; intros id;
      apply within_bind; [apply quiet_record|]; intros _; apply within_throw).
Qed.
Lemma quiet_commit_session source session item entry : quiet (commitUploadSessionMetadataFile s source session item entry).
Proof.
  unfold commitUploadSessionMetadataFile. destruct (_ || _); [apply within_ret|]. apply quiet_commit_file, within_ret.
Qed.
Lemma quiet_commit_init userID target name checksum item entry :
  quiet (commitUploadInitMetadataFile s userID target name checksum item entry).
Proof.
  unfold commitUploadInitMetadataFile. destruct (_ || _); [apply within_ret|]. apply quiet_commit_file, within_ret.
Qed.
Lemma quiet_commit_import ctx source parent name item : quiet (commitImportedFileMetadata s ctx source parent name item).
Proof.
  unfold commitImportedFileMetadata. destruct (_ || _); [apply within_ret|].
  apply within_bind; [apply quiet_commit_file, quiet_node|]. intros _. apply within_ret.
Qed.
Lemma quiet_authorize ctx sid p action : quiet (uploads_authorizePath s ctx sid p action).
Proof. unfold uploads_authorizePath. destruct (up_aclAuthorizer s); [apply quiet_reads, authorize_path_within|apply within_ret]. Qed.
Lemma quiet_authorize_session ctx session : quiet (authorizeUploadSession s ctx session).
Proof.
  unfold authorizeUploadSession. destruct (RequestAuthFromContext ctx); [|apply within_throw].
  destruct (negb _); [apply within_throw|apply quiet_authorize].
Qed.
Lemma quiet_audit ctx e : quiet (recordServiceAudit ctx (up_auditRecorder s) e).
Proof. apply within_audit. set_solver. Qed.
Lemma quiet_first t p o : quiet (first t p o).
Proof. apply within_first. Qed.
End Quiet.
#[export] Hint Extern 1 (within quiet_tables _) =>
  first [ apply quiet_commit_session | apply quiet_commit_init | apply quiet_commit_import | apply quiet_authorize_session
        | apply quiet_authorize | apply quiet_audit | apply quiet_node | apply quiet_first
        | apply quiet_reads, resolver_law ] : frame.

Section Kept.
Context `{DatabaseLaws} {MR : MetadataReader} {MRL : MetadataReaderLaws} {MC : MetadataVFSCommitter}
  {MCL : MetadataVFSCommitterLaws} {UD : UploadDrivers} {UDL : UploadDriverLaws} {ID : ImportDrivers}
  {IDL : ImportDriverLaws} {WR : WritableTargetResolver} {WRL : WritableTargetLaws} {TF : TimeFormat} {TN : TimeFormatNano}
  {JD : JsonDecoder} {MT : MimeTypes} {UL : UuidLibrary}.
Context (s : UploadService) (dir : string) (Htemp : up_TempDir s <> "").
(** An invariant of the world that only the tables of sources and sessions
    matter to, and drivers keep; and where the disk may change. *)
Context (I : World -> Prop) (P : list string -> Prop)
  (Iquiet : forall w w', I w -> frames quiet_tables w w' -> I w')
  (Idriver : forall w w', I w -> frames [TSource] w w' -> local_kept w w' -> I w').
Notation keeps_ m := (hkeeps dir I P m).

Lemma winv_quiet {A} (m : M GoErr World A) : within quiet_tables m -> winv I m.
Proof. apply winv_within. exact Iquiet. Qed.
Lemma winv_init t src req : winv I (InitMultipartUpload t src req).
Proof. intros w HI. eapply wp_mono; [apply upload_init_law|]. intros r w' [? ?]. by eapply Idriver. Qed.
Lemma winv_complete t src state parts : winv I (CompleteMultipartUpload t src state parts).
Proof. intros w HI. eapply wp_mono; [apply upload_complete_law|]. intros r w' [? ?]. by eapply Idriver. Qed.
Lemma keeps_import t src target path : keeps_ (ImportFile t src target path).
Proof.
  intros h _ HI. eapply wp_mono; [apply import_law|]. intros r h' (? & ? & ?). split; [by eapply Idriver|].
  by eapply dframe_mono; [|done].
Qed.
Lemma keeps_require t : keeps_ (require_import_driver t).
Proof. unfold require_import_driver. hframe_tac. Qed.

(** The session's directory may change, and a place in a local source. *)
Definition temp_in (id : string) : Prop := forall k, temp_at s dir id `prefix_of` k -> P k.
Definition source_in (source : StorageSource) : Prop :=
  forall v b t k, resolvePhysicalPath source v = Ok (b, t) -> locate dir b `prefix_of` k -> P k.

Lemma keeps_clean_up id : plain_seg id = true -> temp_in id -> keeps_ (clean_up s id).
Proof.
  intros Hid HP. unfold clean_up. hframe_tac. apply dwithin_RemoveAll. by rewrite temp_dir_at.
Qed.
Lemma keeps_make_temp id : plain_seg id = true -> temp_in id -> dwithin dir P (OsMkdirAll (sessionTempDir s id)).
Proof.
  intros Hid HP. apply (dwithin_MkdirAll _ _ _ (temp_at s dir id)); [by rewrite temp_dir_at|by apply HP].
Qed.

Lemma physical_named source v base target l x : source_in source ->
  resolvePhysicalPath source v = Ok (base, target) -> normalizeVirtualPath v = Ok (render (l ++ [x])) ->
  good_segs (l ++ [x]) = true -> ends_in target x /\ plain_seg x = true /\ P (locate dir target).
Proof.
  intros HP Hr Hv Hg. pose proof (resolve_physical_located dir _ _ _ _ Hr) as (q & Hq & Hg' & _ & _ & Hl & He).
  assert (q = l ++ [x]) as -> by (rewrite Hv in Hq; injection Hq as Hq; symmetry; by apply render_inj; [apply good_segs_plain..|]).
  destruct (He l x eq_refl) as [Hx Hend]. split_and!; [done..|].
  rewrite Hl. eapply HP; [exact Hr|]. by apply prefix_app_r.
Qed.

Section Session.
Context (session : UploadSession) (Hok : session_ok session) (HPt : temp_in (us_UploadID session)).
Notation id := (us_UploadID session).

Lemma in_chunk i : P (locate dir (chunkFilePath s id i)).
Proof. rewrite chunk_file_at by (done || apply Hok). apply HPt. by apply prefix_app_r. Qed.

Lemma keeps_chunk ctx index data :
  ((0 <= index < us_TotalChunks session)%Z -> forall now,
     winv I (UploadSessionRepository_Update { session with us_UploadedChunks ::= add_chunk index; us_UpdatedAt := now })) ->
  keeps_ (do! on_world (authorizeUploadSession s ctx session) ;;
    if Z.ltb index 0 || Z.leb (us_TotalChunks session) index then throw ErrUploadInvalidState
    else
    let chunkPath := chunkFilePath s id index in
    existing <-! on_disk (ReadFile chunkPath) or _readErr => (
      do! os (OsMkdirAll (path_dir chunkPath)) ;;
      do! os (WriteFile chunkPath data) ;;
      now <-! on_world time_now ;;
      do! on_world (UploadSessionRepository_Update
            { session with us_UploadedChunks ::= add_chunk index; us_UpdatedAt := now }) ;;
      ret (chunk_response id index data false)) ;;
    if String.eqb existing data then ret (chunk_response id index data true) else throw ErrUploadChunkConflict).
Proof.
  intros Hup. hframe_tac.
  - apply winv_quiet. auto with frame.
  - apply (dwithin_MkdirAll _ _ _ (temp_at s dir id)); [rewrite chunk_dir_at by (done || apply Hok); done|by apply HPt].
  - apply dwithin_WriteFile, in_chunk.
  - apply winv_quiet. auto with frame.
  - apply Hup. apply orb_false_iff in Heqb as [?%Z.ltb_ge ?%Z.leb_gt]. lia.
Qed.
Lemma keeps_append_chunks output i n : P (locate dir output) -> keeps_ (append_chunks s output id i n).
Proof.
  intros HP. revert i. induction n as [|n IH]; intros i; cbn [append_chunks]; hframe_tac; [by apply dwithin_Write|apply IH].
Qed.
Lemma keeps_assemble output n : P (locate dir output) -> keeps_ (assemble s output id n).
Proof.
  intros HP. unfold assemble. hframe_tac; [by apply dwithin_Create|by apply keeps_append_chunks].
Qed.
Lemma keeps_check path hash : keeps_ (check_hash path hash).
Proof. unfold check_hash. hframe_tac. Qed.
Lemma keeps_forget : winv I (UploadSessionRepository_Delete id) -> keeps_ (forget_session id).
Proof. intros Hd. unfold forget_session. hframe_tac. exact Hd. Qed.
Lemma keeps_clean : keeps_ (clean_up s id).
Proof. apply keeps_clean_up; [apply Hok|done]. Qed.

Lemma physical_in source base target : source_in source ->
  resolvePhysicalPath source (target_virtual (us_Path session) (us_Filename session)) = Ok (base, target) ->
  exists x, ends_in target x /\ plain_seg x = true /\ P (locate dir target).
Proof.
  intros HP Hr. pose proof (resolve_physical_located dir _ _ _ _ Hr) as (q & Hq & Hg & _).
  destruct (target_virtual_located _ _ _ (so_path _ Hok) (so_name _ Hok) Hq Hg) as (l & _ & ->).
  exists (us_Filename session). by eapply physical_named.
Qed.

Lemma keeps_finish_local source : source_in source -> winv I (UploadSessionRepository_Delete id) ->
  keeps_ (finishLocal s source session).
Proof.
  intros HP Hd. unfold finishLocal. destruct (incomplete session); [apply hkeeps_throw|]. cbv zeta.
  apply hkeeps_bind_lift. intros [base target] Er. destruct (physical_in _ _ _ HP Er) as (x & He & Hx & Hin).
  cbn [snd]. hframe_tac.
  - apply (dwithin_MkdirAll _ _ _ (locate dir target)); [|done]. rewrite (locate_dir _ _ _ He Hx). by apply prefix_app_r.
  - by apply keeps_assemble.
  - apply keeps_check.
  - apply winv_quiet. auto with frame.
  - apply keeps_clean.
  - by apply keeps_forget.
Qed.
Lemma keeps_finish_import source : winv I (UploadSessionRepository_Delete id) -> keeps_ (finishWithImportDriver s source session).
Proof.
  intros Hd. unfold finishWithImportDriver. hframe_tac.
  - apply keeps_require.
  - apply keeps_assemble. rewrite locate_join1, temp_dir_at by (done || apply Hok || by apply temp_not_nil).
    apply HPt. by apply prefix_app_r.
  - apply keeps_check.
  - apply keeps_import.
  - apply winv_quiet. auto with frame.
  - apply winv_quiet. auto with frame.
  - apply keeps_clean.
  - by apply keeps_forget.
Qed.
Lemma keeps_finish_upload source req : winv I (UploadSessionRepository_Delete id) -> keeps_ (finishWithUploadDriver s source session req).
Proof.
  intros Hd. unfold finishWithUploadDriver. hframe_tac.
  - apply winv_complete.
  - apply winv_quiet. auto with frame.
  - by apply keeps_forget.
Qed.
Lemma keeps_cancel ctx : winv I (UploadSessionRepository_Delete id) ->
  keeps_ (do! on_world (authorizeUploadSession s ctx session) ;;
    if String.eqb (us_Status session) "completed" then throw ErrUploadInvalidState
    else do! on_world (UploadSessionRepository_Delete id) ;; clean_up s id).
Proof.
  intros Hd. hframe_tac; [apply winv_quiet; auto with frame|exact Hd|apply keeps_clean].
Qed.
End Session.

(** ** Opening a session *)
Section Opening.
(** A session that is stored keeps the invariant, and has a directory
    of its own. *)
Definition opens (session : UploadSession) : Prop :=
  plain_seg (us_UploadID session) = true /\ temp_in (us_UploadID session).
Context (Hopen : forall userID target req chunkSize totalChunks data w,
  validateFileName (ir_Filename req) = Ok tt -> canonical (ti_path target) -> (1 <= totalChunks)%Z -> I w ->
  wp (open_session userID target req chunkSize totalChunks data)
     (fun r w' => I w' /\ match r with Ok session => opens session | Err _ => True end) w).

Lemma total_chunks_pos size chunk n : total_chunks size chunk = Ok n -> (1 <= n)%Z.
Proof.
  unfold total_chunks. destruct (Z.eqb chunk 0); [done|]. intros [= <-].
  destruct (Z.leb_spec (wrap64 (Z.quot (int_sub (int_add size chunk) 1) chunk)) 0); lia.
Qed.

Section Target.
Context (userID : N) (target : resolvedUploadInitTarget) (req : UploadInitRequest)
  (Hname : validateFileName (ir_Filename req) = Ok tt) (Hpath : canonical (ti_path target)).

Lemma keeps_open {B} chunkSize totalChunks data (k : UploadSession -> M GoErr Host B) :
  (1 <= totalChunks)%Z -> (forall session, opens session -> keeps_ (k session)) ->
  keeps_ (session <-! on_world (open_session userID target req chunkSize totalChunks data) ;; k session).
Proof.
  intros Ht Hk. apply (hkeeps_bind_post _ _ _ opens); [|done]. intros h _ HI. apply wp_zoom.
  eapply wp_mono; [by apply Hopen|]. intros r w' [HI' Hr]. split; [|done]. split; [exact HI'|apply dframe_refl].
Qed.
Lemma winv_open {B} chunkSize totalChunks data (k : UploadSession -> M GoErr World B) :
  (1 <= totalChunks)%Z -> (forall session, winv I (k session)) ->
  winv I (session <-! open_session userID target req chunkSize totalChunks data ;; k session).
Proof.
  intros Ht Hk w HI. apply wp_bind. eapply wp_mono; [by apply Hopen|]. intros [session|e] w' [HI' _]; [by apply Hk|done].
Qed.

#[local] Ltac open_step :=
  lazymatch goal with
  | |- hkeeps _ _ _ (bind (on_world (open_session _ _ _ _ _ _)) _) =>
      apply keeps_open; [by eapply total_chunks_pos|intros ? []]
  | |- winv _ (bind (open_session _ _ _ _ _ _) _) => apply winv_open; [|intros ?]
  | |- winv _ (stmt _) => fail
  | |- _ => hframe_step
  end.
Lemma keeps_init_local : keeps_ (initLocal s userID target req).
Proof.
  unfold initLocal. repeat open_step.
  - apply winv_quiet. unfold UploadSessionRepository_FindActiveByIdentity. frame_tac.
  - by apply keeps_make_temp.
  - apply winv_quiet. auto with frame.
Qed.
Lemma winv_init_upload : winv I (initWithUploadDriver s userID target req).
Proof.
  unfold initWithUploadDriver. repeat open_step.
  - apply winv_init.
  - apply winv_quiet. auto with frame.
  - cbn [length]. lia.
Qed.
Lemma keeps_init_import : keeps_ (initWithImportDriver s userID target req).
Proof. unfold initWithImportDriver. repeat open_step. apply keeps_require. Qed.
End Target.

(** The target of an upload lies at a canonical path. *)
Lemma target_canonical ctx req : returns (resolveInitTarget s ctx req) (fun t => canonical (ti_path t)).
Proof.
  unfold resolveInitTarget. destruct (negb _).
  - eapply returns_bind; [apply returns_any|]. intros vp _. eapply returns_bind; [apply returns_any|]. intros resolved _.
    eapply (returns_bind _ _ (fun split => canonical (fst split))).
    + apply returns_lift. intros [parent name] Hs. unfold splitParentName in Hs. cbn.
      destruct (normalizeVirtualPath (rp_InnerPath resolved)) as [p|] eqn:Ep; [|done].
      apply normalize_canonical in Ep as (l & Hl & ->).
      destruct (String.eqb_spec (render l) "/"); injection Hs as <- <-; [by exists []|].
      destruct (snoc_or_nil l) as [->|(l' & x & ->)]; [by exists []|]. rewrite good_segs_app in Hl.
      apply andb_true_iff in Hl as [Hl Hx]. cbn in Hx. rewrite andb_true_r in Hx.
      rewrite path_dir_snoc by (by apply good_segs_plain || by apply good_plain). by exists l'.
    + intros [parent name] Hc. eapply returns_bind; [apply returns_any|]. intros nodeID _.
      destruct (rp_Source resolved); [by apply returns_ret|apply returns_throw].
  - destruct (N.eqb _ 0); [apply returns_throw|]. destruct (String.eqb _ ""); [apply returns_throw|].
    eapply returns_bind; [apply returns_any|]. intros source _.
    eapply returns_bind; [apply returns_lift; intros p Hp; exact (normalize_canonical _ _ Hp)|]. intros p Hp.
    eapply returns_bind; [apply returns_any|]. intros nodeID _. by apply returns_ret.
Qed.
Lemma quiet_target ctx req : within quiet_tables (resolveInitTarget s ctx req).
Proof.
  unfold resolveInitTarget, SourceRepository_FindByID. frame_tac.
Qed.

Lemma keeps_init ctx userID req : keeps_ (UploadService_Init s ctx userID req).
Proof.
  unfold UploadService_Init. apply hkeeps_bind_lift. intros [] Hname.
  apply (hkeeps_bind_post _ _ _ (fun t => canonical (ti_path t))).
  { intros h _ HI. apply wp_zoom. eapply wp_mono; [apply wp_conj; [apply (quiet_target ctx req)|apply target_canonical]|].
    intros r w' [Hf Hr]. split; [|done]. split; [by eapply Iquiet|apply dframe_refl]. }
  intros target Hpath. cbv zeta. hframe_tac.
  - apply winv_quiet. auto with frame.
  - by apply keeps_init_local.
  - by apply winv_init_upload.
  - by apply keeps_init_import.
  - by apply keeps_init_import.
Qed.
End Opening.

(** ** Sessions that are found *)
Definition owns (ctx : Ctx) (session : UploadSession) : bool :=
  match RequestAuthFromContext ctx with
  | Some auth => N.eqb (ra_UserID auth) (us_UserID session)
  | None => false
  end.
Lemma authorize_others ctx session : owns ctx session = false ->
  authorizeUploadSession s ctx session = throw ErrPermissionDenied.
Proof.
  unfold owns, authorizeUploadSession. destruct (RequestAuthFromContext ctx) as [auth|]; [|done]. by intros ->.
Qed.

Lemma keeps_denied {A B} e (k : A -> M GoErr Host B) : keeps_ (bind (on_world (throw e)) k).
Proof. apply hkeeps_pure. by intros [w d]. Qed.
Lemma keeps_denied_or {A B} e f (k : A -> M GoErr Host B) :
  (forall e, keeps_ (f e)) -> keeps_ (bind_or (on_world (throw e : M GoErr World A)) f k).
Proof. intros Hf [w d] Hd HI. by apply Hf. Qed.

Section Found.
Context (ctx : Ctx) (uploadID : string).
Definition found (session : UploadSession) : Prop :=
  us_UploadID session = uploadID /\ exists w, I w /\ session ∈ tbl TUpload w.
(** What a session must allow for its owner to work on it. *)
Definition usable (session : UploadSession) : Prop :=
  session_ok session /\ temp_in (us_UploadID session) /\ winv I (UploadSessionRepository_Delete (us_UploadID session)).
Context (Husable : forall session, found session -> owns ctx session = true -> usable session).

Lemma found_first h : dk_dir (h_disk h) = dir -> I (h_world h) ->
  wp (on_world (UploadSessionRepository_FindByID uploadID))
     (fun r h' => hstep I P h h' /\ match r with Ok session => found session | Err _ => True end) h.
Proof.
  intros _ HI. apply wp_zoom. apply (wp_first TUpload); unfold hstep; cbn [h_world h_disk].
  - intros e w' Hs _. split; [|done]. split; [|apply dframe_refl]. eapply Iquiet; [exact HI|by apply same_frames].
  - intros w' Hs _. split; [|done]. split; [|apply dframe_refl]. eapply Iquiet; [exact HI|by apply same_frames].
  - intros r w' Hs Hr Hp _. apply String.eqb_eq in Hp. split.
    + split; [|apply dframe_refl]. eapply Iquiet; [exact HI|by apply same_frames].
    + split; [done|]. by exists (h_world h).
Qed.
Lemma keeps_find {B} (k : UploadSession -> M GoErr Host B) :
  (forall session, found session -> keeps_ (k session)) -> keeps_ (session <-! find_session uploadID ;; k session).
Proof.
  intros Hk. apply (hkeeps_bind_post _ _ _ found); [|done]. intros h Hd HI. unfold find_session. apply wp_bind_or.
  eapply wp_mono; [by apply found_first|]. intros [session|e] h' [Hs Hf]; [by apply wp_ret|by apply wp_throw].
Qed.

Lemma keeps_UploadChunk index data :
  (forall session now, found session -> owns ctx session = true -> (0 <= index < us_TotalChunks session)%Z ->
     winv I (UploadSessionRepository_Update { session with us_UploadedChunks ::= add_chunk index; us_UpdatedAt := now })) ->
  keeps_ (UploadService_UploadChunk s ctx uploadID index data).
Proof.
  intros Hup. apply keeps_find. intros session Hf. destruct (owns ctx session) eqn:Ho.
  - destruct (Husable _ Hf Ho) as (Hok & HP & _). destruct Hf as [Hid Hex].
    rewrite <- Hid. apply keeps_chunk; [done..|]. intros Hi now. by apply Hup.
  - rewrite authorize_others by done. apply keeps_denied.
Qed.
Lemma keeps_Cancel : keeps_ (UploadService_Cancel s ctx uploadID).
Proof.
  apply keeps_find. intros session Hf. destruct (owns ctx session) eqn:Ho.
  - destruct (Husable _ Hf Ho) as (Hok & HP & Hd). destruct Hf as [<- _]. by apply keeps_cancel.
  - rewrite authorize_others by done. apply keeps_denied.
Qed.

Context (Hsource : forall source, (exists w, I w /\ source ∈ tbl TSource w) -> is_local source -> source_in source).

Lemma source_first id h : dk_dir (h_disk h) = dir -> I (h_world h) ->
  wp (on_world (SourceRepository_FindByID id))
     (fun r h' => hstep I P h h' /\ match r with Ok source => is_local source -> source_in source | Err _ => True end) h.
Proof.
  intros _ HI. apply wp_zoom. apply (wp_first TSource); unfold hstep; cbn [h_world h_disk].
  - intros e w' Hs _. split; [|done]. split; [|apply dframe_refl]. eapply Iquiet; [exact HI|by apply same_frames].
  - intros w' Hs _. split; [|done]. split; [|apply dframe_refl]. eapply Iquiet; [exact HI|by apply same_frames].
  - intros r w' Hs Hr _ _. split.
    + split; [|apply dframe_refl]. eapply Iquiet; [exact HI|by apply same_frames].
    + intros Hl. apply Hsource; [|done]. by exists (h_world h).
Qed.
Lemma keeps_refuse {A} e err : keeps_ (refuse_finish s ctx e err : M GoErr Host A).
Proof. unfold refuse_finish, upload_audit. hframe_tac. apply winv_quiet. auto with frame. Qed.
End Found.

Lemma keeps_Finish ctx req :
  (forall session, found (fr_UploadID req) session -> owns ctx session = true -> usable session) ->
  (forall source, (exists w, I w /\ source ∈ tbl TSource w) -> is_local source -> source_in source) ->
  keeps_ (UploadService_Finish s ctx req).
Proof.
  intros Husable Hsource. unfold UploadService_Finish. cbv zeta.
  apply (hkeeps_bind_or_post _ _ _ (found (fr_UploadID req))); [by apply found_first|..].
  { intros e. destruct (err_is e ErrNotFound); apply keeps_refuse. }
  intros session Hf. destruct (owns ctx session) eqn:Ho.
  2:{ rewrite authorize_others by done. apply keeps_denied_or. intros e. apply keeps_refuse. }
  destruct (Husable _ Hf Ho) as (Hok & HP & Hd).
  apply hkeeps_bind_or; [apply hkeeps_world, winv_quiet; auto with frame|intros e; apply keeps_refuse|intros _].
  eapply hkeeps_bind_or_post; [apply source_first, Hsource|intros e; apply keeps_refuse|].
  intros source HPs. apply hkeeps_bind_or; [|intros e; apply keeps_refuse|].
  - destruct (String.eqb_spec (src_DriverType source) "local") as [E|_]; [apply keeps_finish_local; auto|].
    destruct (isUploadImportSession session); [by apply keeps_finish_import|by apply keeps_finish_upload].
  - intros resp. unfold upload_audit. hframe_tac. apply winv_quiet. auto with frame.
Qed.

Lemma keeps_import_local source parentPath filename localPath :
  canonical parentPath -> validateFileName filename = Ok tt -> source_in source ->
  keeps_ (importLocalFileIntoLocalSource source parentPath (joinVirtualPath parentPath filename) localPath).
Proof.
  intros Hc Hn HP. unfold importLocalFileIntoLocalSource. apply hkeeps_bind_lift. intros [base parent] Hr. cbv zeta. cbn [snd].
  pose proof (resolve_physical_located dir _ _ _ _ Hr) as (q & Hq & Hg & _ & Hne & Hl & _).
  hframe_tac.
  - apply dwithin_probe; [done|]. intros k Hk. eapply HP; [exact Hr|]. rewrite Hl in Hk. etrans; [|exact Hk]. by apply prefix_app_r.
  - destruct a1 as [base' target]. cbn [snd]. destruct Hc as (l & Hlg & ->). apply validateFileName_ok in Hn as [Hx Hs].
    rewrite join_render in H1 by (done || by apply good_segs_plain).
    pose proof (resolve_physical_located dir _ _ _ _ H1) as (q' & Hq' & Hg' & _). rewrite normalize_snoc in Hq' by done.
    destruct (contains filename ".."); [done|]. injection Hq' as Hq'.
    assert (good_segs (l ++ [filename]) = true) as Hgl.
    { enough (l ++ [filename] = q') as -> by done. apply render_inj; [|by apply good_segs_plain|done].
      rewrite forallb_app, good_segs_plain by done. cbn. by rewrite Hx. }
    destruct (physical_named _ _ _ _ _ _ HP H1 (normalize_render _ Hgl) Hgl) as (He & Hp & Hin).
    by eapply dwithin_copyFile.
Qed.
Lemma keeps_ImportLocalFile ctx sourceID parentPath filename localPath :
  (forall source, (exists w, I w /\ source ∈ tbl TSource w) -> is_local source -> source_in source) ->
  keeps_ (UploadService_ImportLocalFile s ctx sourceID parentPath filename localPath).
Proof.
  intros Hsource. unfold UploadService_ImportLocalFile. apply hkeeps_bind_lift. intros [] Hn.
  eapply hkeeps_bind_post; [apply source_first, Hsource|]. intros source HP.
  apply hkeeps_bind_lift. intros parent Hp%normalize_canonical. hframe_tac.
  - apply winv_quiet. auto with frame.
  - apply keeps_import_local; [done..|]. apply HP. by apply String.eqb_eq.
  - apply keeps_require.
  - apply keeps_import.
  - apply winv_quiet. auto with frame.
  - apply winv_quiet. auto with frame.
Qed.
End Kept.

(** ** The pieces of a session *)
Lemma elem_of_add_chunk i x l : x ∈ add_chunk i l <-> x = i \/ x ∈ l.
Proof.
  unfold add_chunk. destruct (existsb (Z.eqb i) l) eqn:E.
  - apply existsb_exists in E as (y & Hy & <-%Z.eqb_eq). apply list_elem_of_In in Hy. set_solver.
  - rewrite merge_sort_Permutation, elem_of_app, list_elem_of_singleton. tauto.
Qed.
Lemma add_chunk_sorted i l : StronglySorted Z.lt l -> StronglySorted Z.lt (add_chunk i l).
Proof.
  intros Hl. unfold add_chunk. destruct (existsb (Z.eqb i) l) eqn:E; [done|].
  assert (i ∉ l) as Hi.
  { intros Hi. apply not_true_iff_false in E. apply E, existsb_exists. exists i. rewrite Z.eqb_refl.
    split; [by apply list_elem_of_In|done]. }
  assert (NoDup (merge_sort Z.le (l ++ [i]))) as Hn.
  { rewrite merge_sort_Permutation. apply NoDup_app. split_and!; [|set_solver|apply NoDup_singleton].
    clear -Hl. induction Hl as [|x l Hl IH Hx]; constructor; [|done]. intros Hin. rewrite Forall_forall in Hx.
    specialize (Hx x Hin). lia. }
  pose proof (StronglySorted_merge_sort Z.le (l ++ [i])) as Hs. revert Hs Hn. generalize (merge_sort Z.le (l ++ [i])).
  clear. intros l Hs. induction Hs as [|x l Hs IH Hx]; intros [Hxl Hn]%NoDup_cons || intros _; constructor; [by apply IH|].
  rewrite Forall_forall in Hx |- *. intros y Hy. specialize (Hx y Hy). assert (x <> y) by by intros ->. lia.
Qed.

(** A session is complete when every piece has been recorded. *)
Lemma sorted_nodup l : StronglySorted Z.lt l -> NoDup l.
Proof.
  intros Hl. induction Hl as [|x l Hl IH Hx]; constructor; [|done]. intros Hin. rewrite Forall_forall in Hx.
  specialize (Hx x Hin). lia.
Qed.
Lemma complete_spec r : session_ok r ->
  incomplete r = false <-> forall i, (0 <= i < us_TotalChunks r)%Z -> i ∈ us_UploadedChunks r.
Proof.
  intros []. unfold incomplete. rewrite Z.ltb_ge. rewrite Forall_forall in so_range0.
  apply sorted_nodup, NoDup_ListNoDup in so_sorted0. split.
  - intros Hlen i Hi. apply list_elem_of_In.
    apply (List.NoDup_length_incl (l' := seqZ 0 (us_TotalChunks r)) so_sorted0); [rewrite length_seqZ; lia| |].
    + intros x Hx%list_elem_of_In%so_range0. apply list_elem_of_In, elem_of_seqZ. lia.
    + apply list_elem_of_In, elem_of_seqZ. lia.
  - intros Hall. rewrite <- (Z2Nat.id (us_TotalChunks r)), <- (length_seqZ 0 (us_TotalChunks r)) by lia.
    apply Nat2Z.inj_le, List.NoDup_incl_length; [apply NoDup_ListNoDup, NoDup_seqZ|].
    intros x Hx%list_elem_of_In%elem_of_seqZ. apply list_elem_of_In, Hall. lia.
Qed.

Lemma same_session l a b : no_conflicts TUpload l = true -> a ∈ l -> b ∈ l -> us_UploadID a = us_UploadID b -> a = b.
Proof.
  intros Hn Ha Hb E. destruct (no_conflicts_elem _ _ _ _ Hn Ha Hb) as [|Hc]; [done|]. cbn in Hc.
  by rewrite E, String.eqb_refl in Hc.
Qed.

(** ** Requests *)
Inductive UploadEvent : Type :=
| EvInit (ctx : Ctx) (userID : N) (req : UploadInitRequest)
| EvChunk (ctx : Ctx) (uploadID : string) (index : Z) (data : string)
| EvFinish (ctx : Ctx) (req : UploadFinishRequest)
| EvCancel (ctx : Ctx) (uploadID : string)
| EvImport (ctx : Ctx) (sourceID : N) (parentPath filename localPath : string).

Section Runs.
Context `{DatabaseLaws} {MR : MetadataReader} {MRL : MetadataReaderLaws} {MC : MetadataVFSCommitter}
  {MCL : MetadataVFSCommitterLaws} {UD : UploadDrivers} {UDL : UploadDriverLaws} {ID : ImportDrivers}
  {IDL : ImportDriverLaws} {WR : WritableTargetResolver} {WRL : WritableTargetLaws} {TF : TimeFormat} {TN : TimeFormatNano}
  {JD : JsonDecoder} {MT : MimeTypes} {UL : UuidLibrary} {ULs : UuidLaws} {UTs : UuidTextLaws}.
Context (s : UploadService).

Definition run_upload (e : UploadEvent) (h : Host) : Host :=
  match e with
  | EvInit ctx userID req => snd (UploadService_Init s ctx userID req h)
  | EvChunk ctx id index data => snd (UploadService_UploadChunk s ctx id index data h)
  | EvFinish ctx req => snd (UploadService_Finish s ctx req h)
  | EvCancel ctx id => snd (UploadService_Cancel s ctx id h)
  | EvImport ctx source parent name path => snd (UploadService_ImportLocalFile s ctx source parent name path h)
  end.
Definition run_uploads (es : list UploadEvent) (h : Host) : Host := fold_left (fun h e => run_upload e h) es h.

(** ** The table of sessions *)
Definition uploads_ok (w : World) : Prop := forall r, r ∈ tbl TUpload w -> session_ok r.

Lemma uploads_ok_frames ts w w' : TUpload ∉ ts -> frames ts w w' -> uploads_ok w -> uploads_ok w'.
Proof. intros Ht Hf Hu r. rewrite (frames_tbl ts w w' TUpload Hf Ht). apply Hu. Qed.

(** Opening a session stores one that is new. *)
Definition stored_session userID target req chunkSize totalChunks data (r : UploadSession) : Prop :=
  exists uuid now id now', has_byte slash uuid = false /\
    r = stamp TUpload id now' (uploadSessionModelFromEntity (new_session userID target req uuid chunkSize totalChunks data now)).
Lemma wp_open_session userID target req chunkSize totalChunks data (Q : result GoErr UploadSession -> World -> Prop) w :
  (forall e w', frames [] w w' -> Q (Err e) w') ->
  (forall w' r, stored_session userID target req chunkSize totalChunks data r -> absent TUpload r (tbl TUpload w) = true ->
     frames [TUpload] w w' -> tbl TUpload w' = tbl TUpload w ++ [r] -> Q (Ok r) w') ->
  wp (open_session userID target req chunkSize totalChunks data) Q w.
Proof.
  intros He Hk. unfold open_session. apply wp_bind, wp_time_now, wp_bind. set (w1 := { w with w_reads ::= S }).
  assert (frames [] w w1) as Hf1 by apply tick_frames.
  eapply wp_mono; [apply wp_conj; [apply uuid_law|apply uuid_text_law]|]. intros [uuid|e] w2 [Hs Hu].
  2:{ apply He. by eapply frames_same. }
  assert (frames [] w w2) as Hf2 by by eapply frames_same.
  assert (tbl TUpload w2 = tbl TUpload w) as Et by (apply (frames_tbl [] _ _ _ Hf2); set_solver).
  apply (wp_insert TUpload).
  - intros e w' Hs' _. apply He. by eapply frames_same.
  - intros id now w' r' _ Ha Hp. rewrite Et in Ha, Hp. apply Hk; [by exists uuid, (the_time w), id, now|done| |apply Hp].
    eapply frames_trans; [exact (frames_mono _ [TUpload] _ _ Hf2 ltac:(set_solver))|].
    apply (put_frames _ _ _ _ Hp). intros Hv. apply absent_no_conflicts; [|done]. specialize (Hv TUpload). by rewrite Et in Hv.
Qed.
Lemma stored_session_ok userID target req chunkSize totalChunks data r :
  validateFileName (ir_Filename req) = Ok tt -> canonical (ti_path target) -> (1 <= totalChunks)%Z ->
  stored_session userID target req chunkSize totalChunks data r -> session_ok r.
Proof.
  intros Hn Hc Ht (uuid & now & id & now' & Hu & ->). constructor; cbn; [by apply upload_id_plain|done| | |done..]; constructor.
Qed.

(** *** An invariant of the sessions, and where the disk may change *)
Section Invariant.
Context (dir : string) (Htemp : up_TempDir s <> "") (w0 : World) (G : list UploadSession -> Prop)
  (P : list string -> Prop).
Definition inv (w : World) : Prop := valid w /\ uploads_ok w /\ local_kept w0 w /\ G (tbl TUpload w).

Lemma inv_frames ts w w' : TUpload ∉ ts -> TSource ∉ ts -> inv w -> frames ts w w' -> inv w'.
Proof.
  intros Hu Hs (Hv & Hok & Hl & HG) Hf. unfold inv, local_kept. rewrite (frames_tbl ts w w' TUpload Hf Hu).
  rewrite (frames_tbl ts w w' TSource Hf Hs). split_and!; [by apply Hf|by eapply uploads_ok_frames|done..].
Qed.
Lemma inv_quiet w w' : inv w -> frames quiet_tables w w' -> inv w'.
Proof. apply inv_frames; set_solver. Qed.
Lemma inv_driver w w' : inv w -> frames [TSource] w w' -> local_kept w w' -> inv w'.
Proof.
  intros (Hv & Hok & Hl & HG) Hf Hk. unfold inv. rewrite (frames_tbl [TSource] w w' TUpload Hf) by set_solver.
  split_and!; [by apply Hf|by eapply (uploads_ok_frames [TSource]); [set_solver|..]| |done].
  intros r Hr Hloc. apply Hl; [|done]. by apply Hk.
Qed.

Lemma winv_delete id : (forall l, G l -> G (sel (fun r => negb (upload_by_id id r)) l)) -> winv inv (UploadSessionRepository_Delete id).
Proof.
  intros HG w HI. apply (wp_delete_found TUpload).
  - intros e w' Hs _. eapply inv_quiet; [exact HI|by apply same_frames].
  - intros w' Hs _. eapply inv_quiet; [exact HI|by apply same_frames].
  - intros w' _ Hp. destruct HI as (Hv & Hok & Hl & HGw). destruct Hp as (Ht & Ho & Hc) eqn:E. unfold inv, local_kept.
    rewrite Ht, Ho by done. split_and!; [|..|by apply HG].
    + eapply put_valid; [exact Hp|by apply no_conflicts_sel, Hv|done].
    + intros r. rewrite Ht, elem_of_sel. intros [Hr _]. by apply Hok.
    + exact Hl.
Qed.
Lemma winv_update session : session_ok session ->
  (forall l f, G l -> G (set_where (upload_by_id (us_UploadID session)) f l)) -> winv inv (UploadSessionRepository_Update session).
Proof.
  intros Hses HG w HI. apply (wp_update_found TUpload).
  - intros e w' Hs _. eapply inv_quiet; [exact HI|by apply same_frames].
  - intros w' Hs _. eapply inv_quiet; [exact HI|by apply same_frames].
  - intros now w' l _ Hn Hp. destruct HI as (Hv & Hok & Hl & HGw). pose proof Hp as (Ht & Ho & Hc). unfold inv, local_kept.
    rewrite Ht, Ho by done. split_and!; [|..|by apply HG].
    + by eapply put_valid.
    + intros r. rewrite Ht. intros [(x & Hx & Hid & ->)|[Hr _]]%elem_of_set_where; [|by apply Hok].
      apply String.eqb_eq in Hid. destruct Hses. constructor; cbn; try done. by rewrite Hid.
    + exact Hl.
Qed.

Lemma add_chunk_ok session index now : session_ok session -> (0 <= index < us_TotalChunks session)%Z ->
  session_ok { session with us_UploadedChunks ::= add_chunk index; us_UpdatedAt := now }.
Proof.
  intros [] Hi. constructor; cbn; [done..| | |done|done].
  - by apply add_chunk_sorted.
  - apply Forall_forall. intros x [->|Hx]%elem_of_add_chunk; [done|]. rewrite Forall_forall in so_range0. by apply so_range0.
Qed.

(** *** Every request keeps it *)
Definition step_kept (ctx : Ctx) (id : string) : Prop := forall r, session_ok r -> us_UploadID r = id -> owns ctx r = true ->
  (exists w, inv w /\ r ∈ tbl TUpload w) ->
  temp_in s dir P id /\ (forall l, G l -> G (sel (fun r => negb (upload_by_id id r)) l)) /\
  (forall l f, G l -> G (set_where (upload_by_id id) f l)).
Definition event_kept (e : UploadEvent) : Prop :=
  match e with
  | EvChunk ctx id _ _ | EvCancel ctx id => step_kept ctx id
  | EvFinish ctx req => step_kept ctx (fr_UploadID req)
  | EvInit _ _ _ | EvImport _ _ _ _ _ => True
  end.
Context (HGopen : forall l r, G l -> plain_seg (us_UploadID r) = true -> absent TUpload r l = true ->
           G (l ++ [r]) /\ temp_in s dir P (us_UploadID r))
  (HPsource : forall source, source ∈ tbl TSource w0 -> is_local source -> source_in dir P source).

Lemma run_keeps e h : event_kept e -> dk_dir (h_disk h) = dir -> inv (h_world h) ->
  hstep inv P h (run_upload e h).
Proof.
  intros He Hd HI.
  assert (forall source, (exists w, inv w /\ source ∈ tbl TSource w) -> is_local source -> source_in dir P source) as Hsrc.
  { intros source (w & (_ & _ & Hl & _) & Hin) Hloc. apply HPsource; [by apply Hl|done]. }
  assert (forall ctx id session, step_kept ctx id -> found inv id session -> owns ctx session = true ->
            usable s dir inv P session) as Huse.
  { intros ctx id session Hk [<- Hw] Ho. destruct Hw as (w & Hw & Hin). pose proof (proj1 (proj2 Hw) _ Hin) as Hok.
    destruct (Hk session Hok eq_refl Ho) as (Ht & Hdel & _); [by exists w|]. split_and!; [done..|by apply winv_delete]. }
  enough (forall A (m : M GoErr Host A), hkeeps dir inv P m -> hstep inv P h (snd (m h))) as Hgo.
  { destruct e; cbn [run_upload event_kept] in *; apply Hgo.
    - apply keeps_init; [exact Htemp|exact inv_quiet|exact inv_driver|]. intros u target q cs tc data w Hn Hc Ht Hw.
      apply wp_open_session.
      + intros e w' Hf. split; [|done]. by eapply (inv_frames []); [set_solver..| |].
      + intros w' r Hst Ha Hf Et. pose proof (stored_session_ok _ _ _ _ _ _ _ Hn Hc Ht Hst) as Hr.
        destruct Hw as (Hv & Hok & Hl & HG). destruct (HGopen _ _ HG (so_id _ Hr) Ha) as [HG' Htin].
        split; [|split; [apply Hr|done]]. unfold inv, local_kept. rewrite Et, (frames_tbl [TUpload] w w' TSource Hf) by set_solver.
        split_and!; [by apply Hf| |done|done]. intros x. rewrite Et, elem_of_app, list_elem_of_singleton. intros [Hx| ->]; auto.
    - apply keeps_UploadChunk; [exact Htemp|exact inv_quiet|exact (fun session => Huse _ _ session He)|]. intros session now [<- Hw] Ho Hi.
      destruct Hw as (w & Hw & Hin). pose proof (proj1 (proj2 Hw) _ Hin) as Hok.
      apply winv_update; [by apply add_chunk_ok|]. apply (He session Hok eq_refl Ho). by exists w.
    - apply keeps_Finish; [exact Htemp|exact inv_quiet|exact inv_driver|exact (fun session => Huse _ _ session He)|exact Hsrc].
    - apply keeps_Cancel; [exact Htemp|exact inv_quiet|exact (fun session => Huse _ _ session He)].
    - apply keeps_ImportLocalFile; [exact inv_quiet|exact inv_driver|exact Hsrc]. }
  intros A m Hm. exact (Hm h Hd HI).
Qed.

Lemma runs_keep es h : Forall event_kept es -> dk_dir (h_disk h) = dir -> inv (h_world h) ->
  hstep inv P h (run_uploads es h).
Proof.
  unfold run_uploads. revert h. induction es as [|e es IH]; intros h Hes Hd HI; cbn [fold_left].
  - split; [done|apply dframe_refl].
  - apply Forall_cons in Hes as [He Hes]. destruct (run_keeps e h He Hd HI) as [HI' Hf].
    destruct (IH (run_upload e h) Hes) as [HI'' Hf']; [by rewrite (proj1 (proj2 Hf))|done|].
    split; [done|]. by eapply dframe_trans.
Qed.
End Invariant.

(** ** Properties of any sequence of requests *)

(** Where uploads may write: below the directory of a session, or below
    that of a local source. *)
Definition upload_area (h : Host) (k : list string) : Prop :=
  (exists id, plain_seg id = true /\ temp_at s (dk_dir (h_disk h)) id `prefix_of` k) \/
  (exists source v b t, source ∈ tbl TSource (h_world h) /\ is_local source /\
     resolvePhysicalPath source v = Ok (b, t) /\ locate (dk_dir (h_disk h)) b `prefix_of` k).

Lemma runs_area es h : up_TempDir s <> "" -> valid (h_world h) -> uploads_ok (h_world h) ->
  hstep (inv (h_world h) (fun _ => True)) (upload_area h) h (run_uploads es h).
Proof.
  intros Htemp Hv Hok. set (dir := dk_dir (h_disk h)).
  assert (forall id, plain_seg id = true -> temp_in s dir (upload_area h) id) as Ht.
  { intros id Hid k Hk. left. by exists id. }
  apply (runs_keep dir Htemp); [| | |done|split_and!; [done|done|by intros ?|done]].
  - intros l r _ Hid _. split; [done|by apply Ht].
  - intros source Hin Hloc v b t k Hr Hk. right. by exists source, v, b, t.
  - apply Forall_forall. intros e _. destruct e; cbn [event_kept]; try done;
      (intros r Hr <- _ _; split; [by apply Ht, Hr|done]).
Qed.

(** C37: whatever requests come, and whatever fails, sessions stay well
    formed: the pieces recorded are strictly increasing indices below the
    total, the ID is a plain file name, name and path of the target are
    valid; so a session counts as complete exactly when every piece has
    been recorded.  The disk stays a tree. *)
Theorem uploads_well_formed es h (Htemp : up_TempDir s <> "") (Hv : valid (h_world h))
    (Hok : uploads_ok (h_world h)) (Ht : tree (dk_nodes (h_disk h))) :
  let h' := run_uploads es h in
  valid (h_world h') /\ uploads_ok (h_world h') /\ tree (dk_nodes (h_disk h')) /\
  forall r, r ∈ tbl TUpload (h_world h') ->
    (incomplete r = false <-> forall i, (0 <= i < us_TotalChunks r)%Z -> i ∈ us_UploadedChunks r).
Proof.
  intros h'. destruct (runs_area es h Htemp Hv Hok) as [(Hv' & Hok' & _) ((_ & Ht') & _)].
  split_and!; [done|done|by apply Ht'|]. intros r Hr. by apply complete_spec, Hok'.
Qed.

(** C13: whatever requests come, and whatever fails, uploads change the disk
    only below the directories of sessions in the temporary directory and
    below those of local sources, and create the directories that lead
    there. *)
Theorem uploads_confined es h k (Htemp : up_TempDir s <> "") (Hv : valid (h_world h)) (Hok : uploads_ok (h_world h))
    (Hk : ~ upload_area h k) :
  let node := dk_nodes (h_disk h) !! k in
  let node' := dk_nodes (h_disk (run_uploads es h)) !! k in
  node' = node \/ (node = None /\ node' = Some NDir /\ exists k', k `prefix_of` k' /\ upload_area h k').
Proof.
  cbv zeta. destruct (runs_area es h Htemp Hv Hok) as [_ ((Hkeep & _) & _)]. destruct (Hkeep k); [done|auto].
Qed.

(** A directory that is neither above nor below those of local sources. *)
Definition apart (h : Host) (k : list string) : Prop :=
  forall source v b t, source ∈ tbl TSource (h_world h) -> is_local source -> resolvePhysicalPath source v = Ok (b, t) ->
    let base := locate (dk_dir (h_disk h)) b in ~ base `prefix_of` k /\ ~ k `prefix_of` base.

Definition event_owned (e : UploadEvent) (r : UploadSession) : bool :=
  match e with
  | EvChunk ctx id _ _ | EvCancel ctx id => String.eqb id (us_UploadID r) && owns ctx r
  | EvFinish ctx req => String.eqb (fr_UploadID req) (us_UploadID r) && owns ctx r
  | EvInit _ _ _ | EvImport _ _ _ _ _ => false
  end.

Lemma runs_beside es h r : up_TempDir s <> "" -> valid (h_world h) -> uploads_ok (h_world h) ->
  r ∈ tbl TUpload (h_world h) -> apart h (temp_at s (dk_dir (h_disk h)) (us_UploadID r)) ->
  Forall (fun e => event_owned e r = false) es ->
  hstep (inv (h_world h) (fun l => r ∈ l)) (fun k => ~ temp_at s (dk_dir (h_disk h)) (us_UploadID r) `prefix_of` k)
    h (run_uploads es h).
Proof.
  intros Htemp Hv Hok Hr Hapart Hes. set (dir := dk_dir (h_disk h)) in *. set (id := us_UploadID r) in *.
  assert (forall id', id' <> id -> temp_in s dir (fun k => ~ temp_at s dir id `prefix_of` k) id') as Ht.
  { intros id' Hne k Hk Hk'. apply Hne. by eapply temp_apart. }
  apply (runs_keep dir Htemp); [| | |done|split_and!; [done|done|by intros ?|done]].
  - intros l x Hin _ Ha. split; [set_solver|]. apply Ht. intros E. unfold absent in Ha. rewrite forallb_forall in Ha.
    specialize (Ha r). rewrite list_elem_of_In in Hin. specialize (Ha Hin). cbn in Ha. fold id in Ha.
    by rewrite E, String.eqb_refl in Ha.
  - intros source Hin Hloc v b t k Hp Hk Hk'. destruct (Hapart source v b t Hin Hloc Hp) as [H1 H2].
    destruct (prefix_weak_total _ _ _ Hk Hk'); [by apply H1|by apply H2].
  - eapply Forall_impl; [exact Hes|]. intros e He.
    assert (forall ctx id', String.eqb id' id && owns ctx r = false ->
              step_kept dir (h_world h) (fun l => r ∈ l) (fun k => ~ temp_at s dir id `prefix_of` k) ctx id') as Hstep.
    { intros ctx id' Ho x Hx Hid Hox (w & (Hvw & _ & _ & Hrw) & Hxw).
      assert (id' <> id) as Hne.
      { intros E. rewrite E, String.eqb_refl in Ho. cbn in Ho.
        assert (x = r) as -> by (eapply same_session; [apply (Hvw TUpload)|done|done|]; unfold id in E; congruence).
        congruence. }
      split_and!; [by apply Ht|..].
      - intros l Hl. apply elem_of_sel. split; [done|]. apply negb_true_iff, String.eqb_neq. by intros E.
      - intros l f Hl. apply elem_of_set_where. right. split; [done|]. apply String.eqb_neq. by intros E. }
    destruct e; cbn [event_kept event_owned] in *; auto.
Qed.

(** C14: among upload requests no one but its owner reaches a session.  The
    tables are valid, their sessions well formed, and the session's directory
    of pieces is neither above nor below the directory of a local source:
    then whatever uploads others start, send pieces for, finish, cancel or
    import, whatever the owner does with other sessions, and whatever fails,
    the session and everything in its directory stay as they were. *)
Theorem uploads_isolated es h r (Htemp : up_TempDir s <> "") (Hv : valid (h_world h)) (Hok : uploads_ok (h_world h))
    (Hr : r ∈ tbl TUpload (h_world h)) (Hapart : apart h (temp_at s (dk_dir (h_disk h)) (us_UploadID r)))
    (Hes : Forall (fun e => event_owned e r = false) es) :
  let h' := run_uploads es h in
  r ∈ tbl TUpload (h_world h') /\
  forall k, temp_at s (dk_dir (h_disk h)) (us_UploadID r) `prefix_of` k ->
    dk_nodes (h_disk h') !! k = dk_nodes (h_disk h) !! k.
Proof.
  intros h'. destruct (runs_beside es h r Htemp Hv Hok Hr Hapart Hes) as [(_ & _ & _ & Hin) ((Hkeep & _) & _)].
  split; [done|]. intros k Hk. destruct (Hkeep k) as [Hn|[?|(_ & _ & k' & Hkk & Hn)]]; [done|done|].
  exfalso. apply Hn. by etrans.
Qed.
End Runs.

(** ** A concrete system *)
#[local] Existing Instances Mem.database Mem.laws UsersExample.format AuthExample.uuid AuthExample.uuid_laws
  StorageExample.decoder.
Module UploadExample.
#[export] Instance mime_types : MimeTypes := fun _ => "text/plain".
#[export] Instance nano : TimeFormatNano := fun z => pretty z.
#[export] Instance uuid_text : UuidTextLaws.
Proof. intros w. apply pretty_no_slash. Qed.
#[export] Instance reader : MetadataReader := {| ResolveNode := fun _ => ret None; ResolveNodeByID := fun _ => ret None |}.
#[export] Instance reader_laws : MetadataReaderLaws.
Proof. split; intros; apply frames_refl. Qed.
#[export] Instance committer : MetadataVFSCommitter := fun _ => ret None.
#[export] Instance committer_laws : MetadataVFSCommitterLaws.
Proof. intros req w. apply frames_refl. Qed.
#[export] Instance no_uploads : UploadDrivers := {|
  uploadDrivers := fun _ => false; InitMultipartUpload := fun _ _ _ => throw ErrNotFound;
  CompleteMultipartUpload := fun _ _ _ _ => throw ErrNotFound |}.
#[export] Instance no_uploads_laws : UploadDriverLaws.
Proof. split; intros; (split; [apply frames_refl|by intros r]). Qed.
#[export] Instance no_imports : ImportDrivers := {|
  importDrivers := fun _ => false; ImportFile := fun _ _ _ _ => throw (ImportOs OsNotExist) |}.
#[export] Instance no_imports_laws : ImportDriverLaws.
Proof. intros t src target path h. split; [apply frames_refl|split; [by intros r|apply dframe_refl]]. Qed.
#[export] Instance resolver : WritableTargetResolver := fun _ _ => throw ErrNotFound.
#[export] Instance resolver_laws : WritableTargetLaws.
Proof. intros ctx p w. apply frames_refl. Qed.

Definition service : UploadService :=
  {| up_options := {| so_Config := {| scp_SiteName := "s"; scp_MultiUserEnabled := true; scp_DefaultSourceID := None;
       scp_MaxUploadSize := 100; scp_DefaultChunkSize := 3; scp_WebDAVEnabled := true; scp_WebDAVPrefix := "/dav";
       scp_Theme := "system"; scp_Language := "en"; scp_TimeZone := "UTC" |}; so_StorageDataDir := "./data/storage" |};
     up_TempDir := "tmp/up"; up_aclAuthorizer := None; up_vfsResolver := true; up_metadataReader := true;
     up_metadataCommitter := false; up_operationJournal := true; up_auditRecorder := true |}.
Definition session (id : string) (user : N) : UploadSession :=
  {| us_UploadID := id; us_UserID := user; us_SourceID := 1; us_Path := "/"; us_TargetVFSParentNodeID := 0;
     us_TargetVirtualParentPath := ""; us_ResolvedSourceID := 1; us_ResolvedInnerParentPath := "/"; us_ResultVFSNodeID := 0;
     us_Filename := "f.txt"; us_FileSize := 5; us_FileHash := md5_hex "hello"; us_ChunkSize := 3; us_TotalChunks := 2;
     us_UploadedChunks := []; us_StorageDataJSON := ""; us_Status := "uploading"; us_IsFastUpload := false;
     us_ExpiresAt := 100; us_CreatedAt := 1; us_UpdatedAt := 1 |}.
Definition sessions : list UploadSession := [session "upl_b" 3; session "upl_e" 4].
Definition world : World :=
  mem_world (Mem.set_rows TUpload sessions (Mem.set_rows TSource [StorageExample.source] { Mem.init with Mem.m_serial := 9%N })).
Definition disk : Disk :=
  {| dk_nodes := <[["srv"; "data"; "pub"] := NDir]> (<[["srv"; "data"] := NDir]> (<[["srv"] := NDir]> {[[] := NDir]}));
     dk_dir := "/var/app"; dk_clock := Z.of_nat; dk_faults := fun _ => None; dk_random := N.of_nat; dk_calls := 0 |}.
Definition host : Host := {| h_world := world; h_disk := disk |}.
Definition bob : Ctx := UsersExample.as_role 3 RoleUser.
Definition eve : Ctx := UsersExample.as_role 4 RoleUser.

Lemma upload_world_valid : valid world.
Proof. intros []; reflexivity. Qed.
Lemma stored_sessions : tbl TUpload world = sessions.
Proof. vm_compute. reflexivity. Qed.
Lemma stored_sources : tbl TSource world = [StorageExample.source].
Proof. vm_compute. reflexivity. Qed.
Lemma sessions_ok : uploads_ok world.
Proof.
  intros r. rewrite stored_sessions. unfold sessions. rewrite !elem_of_cons, elem_of_nil.
  intros [->|[->|[]]]; (constructor; cbn; [reflexivity|lia|constructor|constructor|reflexivity|by exists []]).
Qed.
Lemma disk_tree : tree (dk_nodes disk).
Proof.
  unfold disk; cbn [dk_nodes]. do 3 (apply tree_insert; [|done|reflexivity|by left]). split; [reflexivity|].
  intros k x [node Hn]. apply lookup_singleton_Some in Hn as [Hn _]. by destruct k.
Qed.
Lemma example_base source v b t : source ∈ tbl TSource world -> resolvePhysicalPath source v = Ok (b, t) -> b = "/srv/data/pub".
Proof.
  rewrite stored_sources. intros ->%list_elem_of_singleton Hr. unfold resolvePhysicalPath in Hr.
  destruct (normalizeVirtualPath v) as [p|e] eqn:Ep; [|by destruct (parseLocalSourceConfig _), (normalizeVirtualPath _)].
  change (parseLocalSourceConfig StorageExample.source) with (Ok "/srv//data/" : result GoErr string) in Hr.
  change (normalizeVirtualPath (src_RootPath StorageExample.source)) with (Ok "/pub" : result GoErr string) in Hr.
  cbv beta iota zeta in Hr. destruct (negb _); [discriminate Hr|]. injection Hr as <- _. reflexivity.
Qed.
(** The temporary directory is apart from the source's. *)
Lemma disk_apart id : apart host (temp_at service (dk_dir disk) id).
Proof.
  intros source v b t Hin _ Hr. rewrite (example_base source v b t Hin Hr). cbv zeta.
  change (temp_at service (dk_dir disk) id) with ["var"; "app"; "tmp"; "up"; id].
  change (locate (dk_dir (h_disk host)) "/srv/data/pub") with ["srv"; "data"; "pub"].
  split; intros [l E]; discriminate E.
Qed.

Definition open_request : UploadInitRequest :=
  {| ir_SourceID := 1; ir_Path := "/"; ir_TargetVirtualParentPath := ""; ir_Filename := "g.txt"; ir_FileSize := 4;
     ir_FileHash := "" |}.
Definition finish_request (id : string) : UploadFinishRequest := {| fr_UploadID := id; fr_Parts := [] |}.
(** Pieces in reverse order and twice, and the requests of another user. *)
Definition requests : list UploadEvent :=
  [EvChunk bob "upl_b" 1 "lo"; EvInit eve 4 open_request; EvChunk eve "upl_b" 0 "evil"; EvFinish eve (finish_request "upl_b");
   EvChunk bob "upl_b" 0 "hel"; EvCancel eve "upl_b"; EvChunk bob "upl_b" 1 "lo"; EvChunk eve "upl_e" 0 "xyz"].
Notation run_all := (run_uploads service requests host) (only parsing).
Lemma requests_stored : map us_UploadedChunks (tbl TUpload (h_world run_all)) = [[0; 1]; [0]; []]%Z.
Proof. vm_compute. reflexivity. Qed.
End UploadExample.
Import UploadExample.

Lemma uploads_well_formed_witness :
  map us_UploadedChunks (tbl TUpload (h_world run_all)) = [[0; 1]; [0]; []]%Z /\ uploads_ok (h_world run_all) /\
  tree (dk_nodes (h_disk run_all)).
Proof.
  split; [exact requests_stored|].
  destruct (uploads_well_formed service requests host ltac:(discriminate) upload_world_valid sessions_ok disk_tree) as (_ & Hok & Ht & _).
  split; [exact Hok|exact Ht].
Defined.

Lemma uploads_confined_witness : dk_nodes (h_disk run_all) !! ["etc"; "passwd"] = None.
Proof.
  destruct (uploads_confined service requests host ["etc"; "passwd"] ltac:(discriminate) upload_world_valid sessions_ok)
    as [E|(_ & _ & k' & [l ->] & Ha)].
  - intros [(id & _ & [l E])|(source & v & b & t & Hin & _ & Hr & [l E])]; [discriminate E|].
    rewrite (example_base source v b t Hin Hr) in E. discriminate E.
  - rewrite E. reflexivity.
  - exfalso. destruct Ha as [(id & _ & [l' E])|(source & v & b & t & Hin & _ & Hr & [l' E])]; [discriminate E|].
    rewrite (example_base source v b t Hin Hr) in E. discriminate E.
Defined.

Lemma uploads_isolated_witness :
  let others := [EvChunk bob "upl_e" 0 "evil"; EvFinish bob (finish_request "upl_e"); EvCancel bob "upl_e";
                 EvChunk bob "upl_b" 0 "hel"] in
  session "upl_e" 4 ∈ tbl TUpload (h_world (run_uploads service others host)).
Proof.
  intros others. apply (uploads_isolated service others host (session "upl_e" 4)).
  - discriminate.
  - exact upload_world_valid.
  - exact sessions_ok.
  - cbn [h_world host]. rewrite stored_sessions. right. left.
  - exact (disk_apart "upl_e").
  - repeat constructor.
Defined.
