(* ===== verification/UploadRoundtrip.v ===== *)
(** * Uploads: a file that is put together is the file that was sent

    On a disk that does not fail, pieces come in any order, more than once,
    and among the requests of other users; the database may fail at any
    time.  When [Finish] succeeds, the pieces have been joined in order. *)
From S2P Require Import Prelude Ints GoStrings Entities Paths Mounts Permission Tables Db Auditing Repos Journal Acl AclService Users Auth MetaTree Storage Files Uploads UploadProps.
From stdpp Require Import base list strings sets gmap sorting pretty.
From Stdlib Require Import ZArith Lia Ascii.

Local Open Scope string_scope.
Local Open Scope list_scope.
Local Open Scope go_scope.

Definition joined (pieces : list string) : string := foldr String.append "" pieces.
Lemma joined_length pieces : String.length (joined pieces) = sum_list_with String.length pieces.
Proof. induction pieces as [|p ps IH]; [done|]. cbn. rewrite <- IH. clear. induction p; cbn; [done|by f_equal]. Qed.

Lemma not_prefix_snoc {A} (k : list A) x : ~ (k ++ [x]) `prefix_of` k.
Proof. intros [m E]. apply (f_equal length) in E. rewrite !length_app in E. cbn in E. lia. Qed.

(** ** Calls from a host *)
Section HostCalls.
Context `{DatabaseLaws}.
Lemma wp_os {A} (m : M OsErr Disk A) (Q : result GoErr A -> Host -> Prop) h :
  wp m (fun r d => Q (match r with Ok a => Ok a | Err e => Err (os_error e) end) { h with h_disk := d }) (h_disk h) ->
  wp (os m) Q h.
Proof.
  intros Hm. apply wp_map_err, wp_zoom. eapply wp_mono; [exact Hm|]. by intros [a|e] d.
Qed.
(** What the database does does not matter to the disk. *)
Lemma wp_world_any {A} (m : M GoErr World A) (Q : result GoErr A -> Host -> Prop) h :
  (forall r w, Q r { h with h_world := w }) -> wp (on_world m) Q h.
Proof. intros HQ. apply wp_zoom. unfold wp. destruct (m (h_world h)). apply HQ. Qed.

(** Only what a computation that succeeds leaves matters. *)
Definition on_ok {A} (R : A -> Host -> Prop) (r : result GoErr A) (h : Host) : Prop :=
  match r with Ok a => R a h | Err _ => True end.
Lemma wp_ok_bind {A B} (m : M GoErr Host A) (k : A -> M GoErr Host B) (R1 : A -> Host -> Prop) R h :
  wp m (on_ok R1) h -> (forall a h', R1 a h' -> wp (k a) (on_ok R) h') -> wp (bind m k) (on_ok R) h.
Proof. intros Hm Hk. apply wp_bind. eapply wp_mono; [exact Hm|]. intros [a|e] h' Hr; [by apply Hk|done]. Qed.
Lemma wp_ok_err {A} (m : M GoErr Host A) (R : A -> Host -> Prop) h : (forall h, exists e, fst (m h) = Err e) -> wp m (on_ok R) h.
Proof. intros Hm. unfold wp. destruct (Hm h) as [e He]. destruct (m h) as [r h']. cbn in He. by subst. Qed.
End HostCalls.

Section Assembled.
Context `{DatabaseLaws} (s : UploadService) (dir : string) (Htemp : up_TempDir s <> "").
Context (id : string) (Hid : plain_seg id = true).
Notation chunk i := (chunk_at s dir id i).
Notation at_ n h := (at_state dir n (h_disk h)).

Lemma chunk_not_nil i : chunkFilePath s id i <> "".
Proof. apply join_not_nil, temp_not_nil, Htemp. Qed.

(** The file [output], to which the pieces from [i] on are appended. *)
Lemma wp_append_chunks output (Ho : output <> "") (k : nat) : forall (i : Z) (old : string) (t : Z) (n : Tree) (h : Host),
  (forall j, chunk j <> locate dir output) -> at_ (<[locate dir output := NFile old t]> n) h ->
  wp (append_chunks s output id i k)
     (on_ok (fun _ h' => exists datas t', length datas = k /\
        (forall j data, datas !! j = Some data -> exists t, n !! chunk (i + Z.of_nat j) = Some (NFile data t)) /\
        at_ (<[locate dir output := NFile (old +:+ joined datas) t']> n) h')) h.
Proof.
  induction k as [|k IH]; intros i old t n h Hc Hat; cbn [append_chunks].
  - apply wp_ret. exists [], t. cbn. by rewrite append_nil_r.
  - apply wp_bind_or, wp_zoom, (wp_read dir _ _ (chunk_not_nil i)) with (1 := Hat).
    + intros e d' _ _. by apply wp_throw.
    + intros data t1 d' Hn Hd'. rewrite chunk_file_at, lookup_insert_ne in Hn by done.
      apply wp_bind, wp_os, (wp_Write dir _ _ Ho) with (1 := Hd'). intros now d'' Hd''.
      assert (append_data (<[locate dir output := NFile old t]> n) (locate dir output) data now =
              <[locate dir output := NFile (old +:+ data) now]> n) as Ea.
      { unfold append_data. by rewrite lookup_insert_eq, insert_insert_eq. }
      rewrite Ea in Hd''. eapply wp_mono; [apply (IH _ (old +:+ data) now n); [done|exact Hd'']|].
      intros [[]|e] h' Hr; [|done]. destruct Hr as (datas & t' & Hl & Hds & Hat'). exists (data :: datas), t'. split_and!.
      * cbn. by rewrite Hl.
      * intros [|j] data' Hj; cbn in Hj; [injection Hj as <-; rewrite Z.add_0_r; eauto|].
        destruct (Hds j data' Hj) as [t2 Ht2]. exists t2. rewrite <- Ht2. f_equal. f_equal. lia.
      * cbn [joined foldr]. fold (joined datas). by rewrite <- append_assoc.
Qed.
Lemma wp_assemble output (total : Z) (n : Tree) (h : Host) : output <> "" -> (forall j, chunk j <> locate dir output) -> at_ n h ->
  wp (assemble s output id total)
     (on_ok (fun _ h' => exists datas t', length datas = Z.to_nat total /\
        (forall j data, datas !! j = Some data -> exists t, n !! chunk (Z.of_nat j) = Some (NFile data t)) /\
        (tree n -> tree (<[locate dir output := NFile (joined datas) t']> n)) /\
        at_ (<[locate dir output := NFile (joined datas) t']> n) h')) h.
Proof.
  intros Ho Hc Hat. apply wp_bind, wp_os, (wp_create_ok dir n _ Ho) with (1 := Hat); [done|].
  intros now d' _ Htree Hd'. apply wp_bind_or. eapply wp_mono; [eapply wp_append_chunks; [exact Ho|exact Hc|exact Hd']|].
  intros [[]|e] h' Hr.
  - destruct Hr as (datas & t' & Hl & Hds & Hat'). cbn in Hat'. apply wp_os, (wp_Close dir _ _ Ho) with (1 := Hat').
    intros d'' Hd''. exists datas, t'. split_and!; [done|done| |done].
    intros Ht%Htree. rewrite <- (insert_insert_eq n _ (NFile (joined datas) t') (NFile "" now)).
    eapply tree_file; [apply lookup_insert_eq|done].
  - apply wp_bind_or. unfold wp. destruct (on_disk _ h') as [[[]|e'] h'']; done.
Qed.
Lemma wp_check path hash data (t : Z) (n : Tree) (h : Host) : path <> "" -> n !! locate dir path = Some (NFile data t) -> at_ n h ->
  wp (check_hash path hash) (on_ok (fun _ h' => (hash = "" \/ md5_hex data = hash) /\ at_ n h')) h.
Proof.
  intros Hp Hn Hat. apply wp_bind, wp_os. unfold hashFileMD5.
  apply wp_bind, (wp_Open dir n _ Hp) with (1 := Hat). intros [[]|e] d' Hd'; [|done].
  apply wp_bind, (wp_read dir n _ Hp) with (1 := Hd'); [done|]. intros data' t' d'' Hn' Hd''. rewrite Hn in Hn'.
  injection Hn' as <- <-. apply wp_ret. destruct (String.eqb_spec hash "") as [->|_]; cbn [negb andb].
  - apply wp_ret. split; [by left|done].
  - destruct (String.eqb_spec (md5_hex data) hash) as [<-|_]; cbn [negb]; [|done]. apply wp_ret. split; [by right|done].
Qed.
Lemma wp_clean (n : Tree) (h : Host) R : at_ n h ->
  (forall n' h', (forall k, ~ temp_at s dir id `prefix_of` k -> n' !! k = n !! k) ->
     (temp_at s dir id <> [] -> is_Some (n !! temp_at s dir id) -> forall k, temp_at s dir id `prefix_of` k -> n' !! k = None) ->
     h_world h' = h_world h -> at_ n' h' -> R tt h') ->
  wp (clean_up s id) (on_ok R) h.
Proof.
  intros Hat HR. apply wp_bind_or, wp_zoom, (wp_RemoveAll dir n _ (temp_not_nil s Htemp id)) with (1 := Hat).
  rewrite temp_dir_at by done. intros r n' d' Hout _ Hin Hd'.
  destruct r as [[]|e]; apply wp_ret; by eapply HR.
Qed.

(** ** Finishing *)

(** The pieces on the disk are pieces of the file. *)
Definition sent (pieces : list string) (n : Tree) : Prop :=
  forall i, (0 <= i < Z.of_nat (length pieces))%Z ->
    n !! chunk i = None \/ exists p t, n !! chunk i = Some (NFile p t) /\ pieces !! Z.to_nat i = Some p.
Lemma sent_joined pieces (n : Tree) datas : sent pieces n -> length datas = length pieces ->
  (forall j data, datas !! j = Some data -> exists t, n !! chunk (Z.of_nat j) = Some (NFile data t)) -> datas = pieces.
Proof.
  intros Hs Hl Hd. apply list_eq_same_length with (length pieces); [done|done|]. intros j x y Hj Hx Hy.
  destruct (Hd j x Hx) as [t Ht]. destruct (Hs (Z.of_nat j) ltac:(lia)) as [Hn|(p & t' & Hn & Hp)]; rewrite Ht in Hn; [done|].
  rewrite Nat2Z.id in Hp. congruence.
Qed.

Section Finishing.
Context {MR : MetadataReader} {MC : MetadataVFSCommitter} {UD : UploadDrivers} {ID : ImportDrivers}
  {TF : TimeFormat} {TN : TimeFormatNano} {JD : JsonDecoder} {MT : MimeTypes}.

(** The target is outside of the session's directory. *)
Definition beside (source : StorageSource) : Prop := forall v b t, resolvePhysicalPath source v = Ok (b, t) ->
  ~ locate dir b `prefix_of` temp_at s dir id /\ ~ temp_at s dir id `prefix_of` locate dir b.
Lemma beside_target source v b t : beside source -> resolvePhysicalPath source v = Ok (b, t) ->
  ~ temp_at s dir id `prefix_of` locate dir t.
Proof.
  intros Hb Hr Hp. destruct (Hb v b t Hr) as [H1 H2].
  destruct (resolve_physical_located dir _ _ _ _ Hr) as (q & _ & _ & _ & _ & Hl & _). rewrite Hl in Hp.
  destruct (prefix_weak_total _ _ _ Hp (prefix_app_r _ _ q (reflexivity _))); auto.
Qed.
Lemma in_temp i : temp_at s dir id `prefix_of` chunk i.
Proof. by apply prefix_app_r. Qed.
Lemma temp_at_not_nil : temp_at s dir id <> [].
Proof. unfold temp_at. by destruct (locate dir (up_TempDir s)). Qed.

(** What [Finish] leaves of a session whose pieces were [pieces]. *)
Definition stored (source : StorageSource) (session : UploadSession) (pieces : list string) (n n' : Tree)
    (resp : UploadFinishResponse) : Prop :=
  exists base target, resolvePhysicalPath source (target_virtual (us_Path session) (us_Filename session)) = Ok (base, target) /\
    n !! locate dir target = None /\
    (exists t, n' !! locate dir target = Some (NFile (joined pieces) t)) /\
    (us_FileHash session = "" \/ md5_hex (joined pieces) = us_FileHash session) /\
    fi_Size (fp_File resp) = Z.of_nat (String.length (joined pieces)) /\
    forall k, temp_at s dir id `prefix_of` k -> n' !! k = None.

Lemma grown_same target (n n' : Tree) k : grown dir n target n' -> ~ k `prefix_of` locate dir target -> n' !! k = n !! k.
Proof. intros [_ Hg] Hk. by destruct (Hg k) as [?|(_ & _ & ?)]. Qed.

Lemma wp_finish_local source session pieces (n : Tree) h :
  us_UploadID session = id -> session_ok session -> beside source -> us_TotalChunks session = Z.of_nat (length pieces) ->
  sent pieces n -> tree n -> at_ n h ->
  wp (finishLocal s source session)
     (on_ok (fun resp h' => exists n', stored source session pieces n n' resp /\ at_ n' h')) h.
Proof.
  intros Hsid Hok Hb Htot Hsent Htree Hat. unfold finishLocal. rewrite Hsid. destruct (incomplete session); [done|].
  apply wp_bind, wp_lift_result. destruct (resolvePhysicalPath _ _) as [[base target]|e] eqn:Er; [|done]. cbn [snd].
  pose proof (resolve_physical_located dir _ _ _ _ Er) as (q & Hq & Hg & _ & Hne & Hl & Hend).
  destruct (target_virtual_located _ _ _ (so_path _ Hok) (so_name _ Hok) Hq Hg) as (l & _ & ->).
  destruct (Hend l _ eq_refl) as [Hx He]. pose proof (locate_dir dir _ _ He Hx) as Hdir.
  pose proof (beside_target _ _ _ _ Hb Er) as Hout.
  assert (forall j, chunk j <> locate dir target) as Hc by (intros j E; apply Hout; rewrite <- E; apply in_temp).
  apply wp_bind_or, wp_zoom, (wp_Stat dir n _ Hne) with (1 := Hat); [|by intros].
  intros e d' Hnone Hd'. eapply wp_mono; [|intros r h' Hr; exact Hr].
  apply wp_bind, wp_os, (wp_MkdirAll dir n _ (clean_not_nil _)) with (1 := Hd').
  intros [[]|e'] n1 d1 Hgrown Hd1; [|done].
  assert (forall k, ~ k `prefix_of` locate dir (path_dir target) -> n1 !! k = n !! k) as Hsame
    by (intros k; by eapply grown_same).
  assert (forall j, n1 !! chunk j = n !! chunk j) as Hchunks.
  { intros j. apply Hsame. intros Hp. apply Hout. etrans; [apply (in_temp j)|]. etrans; [exact Hp|]. rewrite Hdir.
    by apply prefix_app_r. }
  assert (n1 !! locate dir target = None) as Hnone1.
  { rewrite Hsame; [done|]. rewrite Hdir. apply not_prefix_snoc. }
  assert (sent pieces n1) as Hsent1 by (intros j Hj; rewrite Hchunks; by apply Hsent).
  eapply wp_ok_bind; [by eapply wp_assemble|]. intros [] h2 (datas & t2 & Hlen & Hds & Htree2 & Hat2).
  assert (datas = pieces) as ->.
  { eapply sent_joined; [exact Hsent1|rewrite Hlen, Htot; apply Nat2Z.id|exact Hds]. }
  eapply wp_ok_bind; [eapply wp_check; [done|apply lookup_insert_eq|exact Hat2]|]. intros [] h3 [Hhash Hat3].
  apply wp_bind, wp_os, (wp_Stat dir _ _ Hne) with (1 := Hat3); [done|]. intros node now d4 Hnode Hd4.
  rewrite lookup_insert_eq in Hnode. injection Hnode as <-.
  apply wp_bind, wp_world_any. intros [nodeID|e4] w4; [|done].
  set (n4 := <[locate dir target := NFile (joined pieces) t2]> n1) in *.
  eapply (wp_ok_bind _ _ (fun _ h5 => exists n5, (forall k, ~ temp_at s dir id `prefix_of` k -> n5 !! k = n4 !! k) /\
    (forall k, temp_at s dir id `prefix_of` k -> n5 !! k = None) /\ at_ n5 h5)).
  { apply (wp_clean n4); [exact Hd4|]. intros n5 h5 Hout5 Hin5 _ Hat5. exists n5. split_and!; [done| |done].
    apply Hin5; [apply temp_at_not_nil|]. pose proof (so_total _ Hok) as Hpos.
    destruct pieces as [|p0 ps]; [cbn in Htot; lia|]. destruct (Hds 0%nat p0 eq_refl) as [t0 Ht0].
    exists NDir. destruct (Htree2 (proj1 Hgrown Htree)) as [_ Hpar]. apply (Hpar _ (chunk_name (Z.of_nat 0))).
    fold (chunk_at s dir id (Z.of_nat 0)). unfold n4. rewrite lookup_insert_ne by (intros E; by destruct (Hc (Z.of_nat 0))).
    by rewrite Ht0. }
  intros _ h5 (n5 & Hout5 & Hin5 & Hat5). apply wp_bind, wp_bind_or, wp_world_any. intros r w6.
  assert (stored source session pieces n n5
    (finished session (buildFileItem (src_ID source) (target_virtual (us_Path session) (us_Filename session))
       (info_of target (NFile (joined pieces) t2) now)) nodeID)) as Hst.
  { exists base, target. split_and!; [done|done| |done|done|done]. exists t2. rewrite Hout5 by done. apply lookup_insert_eq. }
  destruct r as [[]|e6]; apply wp_ret; apply wp_ret; by exists n5.
Qed.

(** The session [r], with other pieces recorded. *)
Definition same_target (r r' : UploadSession) : Prop :=
  us_UploadID r' = us_UploadID r /\ us_UserID r' = us_UserID r /\ us_TotalChunks r' = us_TotalChunks r /\
  us_SourceID r' = us_SourceID r /\ us_Path r' = us_Path r /\ us_Filename r' = us_Filename r /\ us_FileHash r' = us_FileHash r.
Definition going (r : UploadSession) (w : World) : Prop := exists r', r' ∈ tbl TUpload w /\ same_target r r'.

(** A piece that is sent is stored, and none is changed. *)
Lemma sent_write pieces (n : Tree) i data now : sent pieces n -> pieces !! Z.to_nat i = Some data -> (0 <= i)%Z ->
  sent pieces (<[chunk i := NFile data now]> n).
Proof.
  intros Hs Hp Hi j Hj. destruct (decide (j = i)) as [->|Hne]; [right; exists data, now; by rewrite lookup_insert_eq|].
  rewrite lookup_insert_ne; [by apply Hs|]. intros E. apply app_inj_tail in E as [_ E]. apply chunk_name_inj in E; lia.
Qed.
Lemma sent_grown pieces (n n' : Tree) path : sent pieces n -> grown dir n path n' -> locate dir path = temp_at s dir id ->
  sent pieces n'.
Proof.
  intros Hs Hg Hl j Hj. rewrite (grown_same path n n' _ Hg); [by apply Hs|]. rewrite Hl. apply not_prefix_snoc.
Qed.
Lemma going_frames ts r w w' : TUpload ∉ ts -> frames ts w w' -> going r w -> going r w'.
Proof. intros Ht Hf (r' & Hr & Hs). exists r'. by rewrite (frames_tbl ts w w' TUpload Hf Ht). Qed.
Lemma going_update r w (Q : result GoErr unit -> World -> Prop) r' index now :
  same_target r r' -> us_UploadID r = id -> going r w -> (forall x w', going r w' -> Q x w') ->
  wp (UploadSessionRepository_Update { r' with us_UploadedChunks ::= add_chunk index; us_UpdatedAt := now }) Q w.
Proof.
  intros Hsame Hid' Hg HQ. apply (wp_update_found TUpload).
  - intros e w' Hs _. apply HQ. by eapply (going_frames []); [set_solver|apply same_frames|].
  - intros w' Hs _. apply HQ. by eapply (going_frames []); [set_solver|apply same_frames|].
  - intros now' w' l _ _ [Ht _]. apply HQ. destruct Hg as (x & Hx & Hsx). unfold going. rewrite Ht.
    eexists. split; [apply elem_of_set_where; left; exists x; split_and!; [done| |reflexivity]|].
    + apply String.eqb_eq. cbn. destruct Hsame as [-> _], Hsx as [-> _]. done.
    + destruct Hsame as (? & ? & ? & ? & ? & ? & ?), Hsx as (? & _). by split_and!; cbn.
Qed.

Lemma wp_chunk_sent {MRL : MetadataReaderLaws} {MCL : MetadataVFSCommitterLaws} r pieces ctx i data (n : Tree) h :
  valid (h_world h) -> uploads_ok (h_world h) -> us_UploadID r = id -> going r (h_world h) ->
  us_TotalChunks r = Z.of_nat (length pieces) -> ((0 <= i)%Z -> pieces !! Z.to_nat i = Some data) ->
  sent pieces n -> at_ n h ->
  wp (UploadService_UploadChunk s ctx id i data)
     (fun _ h' => going r (h_world h') /\ exists n', sent pieces n' /\ at_ n' h') h.
Proof.
  intros Hv Hok Hrid Hgo Htot Hp Hs Hat.
  assert (forall h', going r (h_world h') -> at_ n h' -> going r (h_world h') /\ exists n', sent pieces n' /\ at_ n' h') as Hsame by eauto.
  apply wp_bind. unfold find_session. apply wp_bind_or, wp_zoom. apply (wp_first TUpload).
  - intros e w' Hsm _. apply wp_throw, Hsame; [|done]. by eapply (going_frames []); [set_solver|apply same_frames|].
  - intros w' Hsm _. apply wp_throw, Hsame; [|done]. by eapply (going_frames []); [set_solver|apply same_frames|].
  - intros r' w' Hsm Hin Hid'%String.eqb_eq _. apply wp_ret.
    assert (same_target r r') as Hst.
    { destruct Hgo as (x & Hx & Hsx). assert (r' = x) as ->; [|done].
      eapply same_session; [apply (Hv TUpload)|done|done|]. destruct Hsx as [-> _]. congruence. }
    assert (going r w') as Hgo' by (by eapply (going_frames []); [set_solver|apply same_frames|]).
    apply wp_bind, wp_zoom. eapply wp_mono; [exact (quiet_authorize_session s ctx r' _)|]. intros [[]|e] w2 Hf2; cbn [h_world h_disk] in Hf2.
    2:{ apply Hsame; [|done]. by eapply (going_frames quiet_tables); [set_solver|..]. }
    assert (going r w2) as Hgo2 by (by eapply (going_frames quiet_tables); [set_solver|..]).
    destruct (Z.ltb_spec i 0) as [|Hi]; cbn [orb]; [by apply wp_throw, Hsame|].
    destruct (Z.leb_spec (us_TotalChunks r') i) as [|Hi2]; [by apply wp_throw, Hsame|]. specialize (Hp Hi).
    apply wp_bind_or, wp_zoom, (wp_read dir n _ (chunk_not_nil i)) with (1 := Hat).
    + intros e d3 _ Hd3.
      apply wp_bind, wp_os, (wp_MkdirAll dir n _ (clean_not_nil _)) with (1 := Hd3). intros r4 n4 d4 Hg Hd4.
      assert (sent pieces n4) as Hs4 by (eapply sent_grown; [exact Hs|exact Hg|by apply (chunk_dir_at s dir)]).
      destruct r4 as [[]|e4]; [|split; [done|by exists n4]].
      apply wp_bind, wp_os, (wp_WriteFile dir n4 _ (chunk_not_nil i)) with (1 := Hd4);
        [intros e5 d5 Hd5; split; [done|by exists n4]|]. intros now d5 _ Hd5. rewrite chunk_file_at in Hd5 by done.
      assert (sent pieces (<[chunk i := NFile data now]> n4)) as Hs5 by by apply sent_write.
      apply wp_bind, wp_zoom, wp_time_now, wp_bind, wp_zoom. apply (going_update r); [done|done| |].
      * by eapply (going_frames []); [set_solver|apply tick_frames|].
      * intros x w6 Hgo6. destruct x as [[]|e6]; (split; [done|by eexists]).
    + intros data' t' d3 _ Hd3. destruct (String.eqb data' data); by apply Hsame.
Qed.

Lemma wp_refuse_finish {A} ctx e err (R : A -> Host -> Prop) h : wp (refuse_finish s ctx e err) (on_ok R) h.
Proof. apply wp_bind, wp_world_any. by intros [[]|e'] w. Qed.
Lemma wp_trivial {A} (m : M GoErr Host A) (R : A -> Host -> Prop) h : (forall a h', R a h') -> wp m (on_ok R) h.
Proof. intros HR. unfold wp. destruct (m h) as [[a|e] h']; [apply HR|done]. Qed.
Lemma stored_same source r r' pieces n n' resp : same_target r r' -> stored source r' pieces n n' resp -> stored source r pieces n n' resp.
Proof. intros (_ & _ & _ & _ & Hp & Hf & Hh). unfold stored. by rewrite Hp, Hf, Hh. Qed.
Lemma wp_finish_stored {MRL : MetadataReaderLaws} {MCL : MetadataVFSCommitterLaws} r pieces ctx req (n : Tree) h :
  valid (h_world h) -> uploads_ok (h_world h) -> us_UploadID r = id -> fr_UploadID req = id -> going r (h_world h) ->
  us_TotalChunks r = Z.of_nat (length pieces) -> (forall source, source ∈ tbl TSource (h_world h) -> is_local source -> beside source) ->
  sent pieces n -> tree n -> at_ n h ->
  wp (UploadService_Finish s ctx req)
     (on_ok (fun resp h' => exists source, source ∈ tbl TSource (h_world h) /\ src_ID source = us_SourceID r /\
        (is_local source -> exists n', stored source r pieces n n' resp /\ at_ n' h'))) h.
Proof.
  intros Hv Hok Hrid Hreq Hgo Htot Hb Hs Htree Hat. unfold UploadService_Finish. cbv zeta. rewrite Hreq.
  apply wp_bind_or, wp_zoom. apply (wp_first TUpload).
  - intros e w' _ _. destruct (err_is _ _); apply wp_refuse_finish.
  - intros w' _ _. apply wp_refuse_finish.
  - intros r' w' Hsm Hin Hid'%String.eqb_eq _.
    assert (same_target r r') as Hst.
    { destruct Hgo as (x & Hx & Hsx). assert (r' = x) as ->; [|done].
      eapply same_session; [apply (Hv TUpload)|done|done|]. destruct Hsx as [-> _]. congruence. }
    apply wp_bind_or, wp_zoom. eapply wp_mono; [exact (quiet_authorize_session s ctx r' _)|].
    intros [[]|e] w2 Hf2; cbn [h_world h_disk] in Hf2; [|apply wp_refuse_finish].
    assert (tbl TSource w2 = tbl TSource (h_world h)) as Hsrc.
    { rewrite (frames_tbl _ _ _ TSource Hf2) by set_solver. apply (frames_tbl [] _ _ TSource (same_frames [] _ _ Hsm)). set_solver. }
    apply wp_bind_or, wp_zoom. apply (wp_first TSource).
    + intros e w3 _ _. apply wp_refuse_finish.
    + intros w3 _ _. apply wp_refuse_finish.
    + intros source w3 Hsm3 Hsin Hsid%N.eqb_eq _. change (source ∈ tbl TSource w2) in Hsin. rewrite Hsrc in Hsin.
      pose proof Hst as (_ & _ & Ht' & Hs' & _). rewrite Hs' in Hsid.
      set (R := fun resp h' => is_local source -> exists n', stored source r pieces n n' resp /\ at_ n' h').
      apply wp_bind_or. eapply (wp_mono _ (on_ok R)).
      { destruct (String.eqb_spec (src_DriverType source) "local") as [E|Hn].
        - eapply wp_mono; [apply (wp_finish_local source r' pieces n)|];
            [done|by apply Hok|by apply Hb|by rewrite Ht'|done..|]. intros [resp|e] h'; [|done]. intros (n' & Hst' & Hat') _.
          exists n'. split; [by eapply stored_same|done].
        - destruct (isUploadImportSession r'); apply wp_trivial; intros a h' El; by destruct Hn. }
      intros [resp|e] h' HR; [|apply wp_refuse_finish]. apply wp_bind, wp_world_any. intros [[]|e'] w4; [|done].
      apply wp_ret. exists source. split_and!; [done..|]. intros El. destruct (HR El) as (n' & ? & ?). by exists n'.
Qed.
End Finishing.
End Assembled.

(** ** From the first piece to the last *)
Section Roundtrip.
Context `{DatabaseLaws} {MR : MetadataReader} {MRL : MetadataReaderLaws} {MC : MetadataVFSCommitter}
  {MCL : MetadataVFSCommitterLaws} {UD : UploadDrivers} {UDL : UploadDriverLaws} {ID : ImportDrivers}
  {IDL : ImportDriverLaws} {WR : WritableTargetResolver} {WRL : WritableTargetLaws} {TF : TimeFormat} {TN : TimeFormatNano}
  {JD : JsonDecoder} {MT : MimeTypes} {UL : UuidLibrary} {ULs : UuidLaws} {UTs : UuidTextLaws}.
Context (s : UploadService) (Htemp : up_TempDir s <> "").
Context (h0 : Host) (r : UploadSession) (pieces : list string).
Notation dir := (dk_dir (h_disk h0)).
Notation id := (us_UploadID r).
Context (Hid : plain_seg id = true) (Htot : us_TotalChunks r = Z.of_nat (length pieces))
  (Hapart : apart h0 (temp_at s dir id)).

(** A request that is not the owner's to this session, or one that sends a
    piece of the file. *)
Definition sends (e : UploadEvent) : Prop :=
  event_owned e r = false \/
  exists ctx i data, e = EvChunk ctx id i data /\ ((0 <= i)%Z -> pieces !! Z.to_nat i = Some data).

Record progress (h : Host) : Prop := {
  pg_valid : valid (h_world h);
  pg_ok : uploads_ok (h_world h);
  pg_local : local_kept (h_world h0) (h_world h);
  pg_going : going r (h_world h);
  pg_sent : sent s dir id pieces (dk_nodes (h_disk h));
  pg_tree : tree (dk_nodes (h_disk h));
  pg_dir : dk_dir (h_disk h) = dir;
  pg_sound : forall i, dk_faults (h_disk h) i = None
}.

Lemma progress_apart h : progress h -> apart h (temp_at s dir id).
Proof.
  intros Hp source v b t Hin Hl Hr. cbv zeta. rewrite (pg_dir _ Hp). apply (Hapart source v b t); [|done|done].
  by apply (pg_local _ Hp).
Qed.
Lemma owned_same e r' : same_target r r' -> event_owned e r' = event_owned e r.
Proof. intros (Hi & Hu & _). unfold event_owned, owns. by rewrite Hi, Hu. Qed.

Lemma sends_progress e h : sends e -> progress h -> progress (run_upload s e h).
Proof.
  intros He Hp. pose proof Hp as [Hv Hok Hl Hgo Hs Ht Hd Hf].
  destruct (runs_area s [e] h Htemp Hv Hok) as [(Hv' & Hok' & Hl' & _) ((_ & Ht') & Hd' & Hf')].
  cbn [run_uploads fold_left] in *. unfold run_uploads in *. cbn [fold_left] in *.
  assert (going r (h_world (run_upload s e h)) /\ sent s dir id pieces (dk_nodes (h_disk (run_upload s e h)))) as [Hgo' Hs'].
  2:{ constructor; [done|done| |done|done|by apply Ht'|congruence|intros i; by rewrite Hf'].
      intros x Hx Hxl. apply Hl; [|done]. by apply Hl'. }
  destruct He as [He|(ctx & i & data & -> & Hdata)].
  - destruct Hgo as (r' & Hr' & Hsame). pose proof Hsame as [Hid' _].
    destruct (runs_beside s [e] h r' Htemp Hv Hok Hr') as [(_ & _ & _ & Hin) ((Hkeep & _) & _)].
    + rewrite Hid', Hd. by apply progress_apart.
    + constructor; [|constructor]. by rewrite (owned_same _ _ Hsame).
    + unfold run_uploads in *. cbn [fold_left] in *. rewrite Hid', Hd in Hkeep. split; [by exists r'|]. intros j Hj.
      destruct (Hkeep (chunk_at s dir id j)) as [Hn|[->|(_ & _ & k' & Hk & Hn)]]; [|by apply Hs|].
      * destruct Hn. apply in_temp.
      * destruct Hn. etrans; [apply in_temp|exact Hk].
  - assert (at_state dir (dk_nodes (h_disk h)) (h_disk h)) as Hat by done.
    pose proof (run_wp _ _ _ (wp_chunk_sent s dir Htemp id Hid r pieces ctx i data _ h Hv Hok eq_refl Hgo Htot Hdata Hs Hat)) as Hrun.
    cbn [run_upload]. destruct (UploadService_UploadChunk _ _ _ _ _ _) as [x h']. cbn [snd].
    destruct Hrun as [Hg (n' & Hs' & _ & _ & ->)]. done.
Qed.
Lemma progress_run es : Forall sends es -> forall h, progress h -> progress (run_uploads s es h).
Proof.
  unfold run_uploads. induction 1 as [|e es He _ IH]; intros h Hp; [done|]. cbn [fold_left]. by apply IH, sends_progress.
Qed.
End Roundtrip.

Section Theorems.
Context `{DatabaseLaws} {MR : MetadataReader} {MRL : MetadataReaderLaws} {MC : MetadataVFSCommitter}
  {MCL : MetadataVFSCommitterLaws} {UD : UploadDrivers} {UDL : UploadDriverLaws} {ID : ImportDrivers}
  {IDL : ImportDriverLaws} {WR : WritableTargetResolver} {WRL : WritableTargetLaws} {TF : TimeFormat} {TN : TimeFormatNano}
  {JD : JsonDecoder} {MT : MimeTypes} {UL : UuidLibrary} {ULs : UuidLaws} {UTs : UuidTextLaws}.

(** C3: a file that is uploaded is the file that was sent.  The session is
    in valid tables and has no piece on the disk yet; its directory of pieces
    is neither above nor below the directory of a local source; the disk does
    not fail.  The pieces may come in any order and more than once, mixed
    with upload requests of other users and to other sessions, and the
    database may fail at any time; when [Finish] succeeds for a session in a
    local source, the target did not exist before, now holds the pieces
    joined in order, has the hash that was announced and the size that is
    returned, and the directory of the session is gone. *)
Theorem upload_roundtrip s es h r pieces ctx req resp h2 (Htemp : up_TempDir s <> "") (Hv : valid (h_world h))
    (Hok : uploads_ok (h_world h)) (Ht : tree (dk_nodes (h_disk h))) (Hsound : forall i, dk_faults (h_disk h) i = None)
    (Hr : r ∈ tbl TUpload (h_world h)) (Hapart : apart h (temp_at s (dk_dir (h_disk h)) (us_UploadID r)))
    (Hfresh : forall i, dk_nodes (h_disk h) !! chunk_at s (dk_dir (h_disk h)) (us_UploadID r) i = None)
    (Htot : us_TotalChunks r = Z.of_nat (length pieces)) (Hes : Forall (sends r pieces) es)
    (Hreq : fr_UploadID req = us_UploadID r)
    (Hfin : UploadService_Finish s ctx req (run_uploads s es h) = (Ok resp, h2)) :
  exists source, source ∈ tbl TSource (h_world (run_uploads s es h)) /\ src_ID source = us_SourceID r /\
    (is_local source ->
       stored s (dk_dir (h_disk h)) (us_UploadID r) source r pieces
         (dk_nodes (h_disk (run_uploads s es h))) (dk_nodes (h_disk h2)) resp).
Proof.
  pose proof (so_id _ (Hok r Hr)) as Hid.
  assert (progress s h r pieces h) as Hp0.
  { constructor; [done|done|by intros ?|by exists r|by left|done..]. }
  destruct (progress_run s Htemp h r pieces Hid Htot Hapart es Hes h Hp0) as [Hv1 Hok1 Hl1 Hg1 Hs1 Ht1 Hd1 Hf1].
  set (h1 := run_uploads s es h) in *.
  assert (at_state (dk_dir (h_disk h)) (dk_nodes (h_disk h1)) (h_disk h1)) as Hat by done.
  assert (forall source, source ∈ tbl TSource (h_world h1) -> is_local source ->
            beside s (dk_dir (h_disk h)) (us_UploadID r) source) as Hb.
  { intros source Hin Hloc v b t Hres. apply (Hapart source v b t); [by apply Hl1|done|done]. }
  pose proof (run_wp _ _ _ (wp_finish_stored s _ Htemp _ Hid r pieces ctx req _ h1 Hv1 Hok1 eq_refl Hreq Hg1 Htot Hb Hs1 Ht1 Hat)) as Hrun.
  rewrite Hfin in Hrun. destruct Hrun as (source & Hin & Hsid & Hst). exists source. split_and!; [done..|].
  intros Hloc. destruct (Hst Hloc) as (n' & Hst' & _ & _ & ->). done.
Qed.
End Theorems.

(** ** A concrete upload *)
#[local] Existing Instances Mem.database Mem.laws UsersExample.format AuthExample.uuid AuthExample.uuid_laws
  StorageExample.decoder.
Import UploadExample.
Notation finish_run := (UploadService_Finish service bob (finish_request "upl_b") run_all) (only parsing).
Lemma finish_succeeds : exists resp, fst finish_run = Ok resp /\ fi_Size (fp_File resp) = 5%Z.
Proof. eexists. split; [vm_compute; reflexivity|reflexivity]. Qed.
Lemma finish_sources : tbl TSource (h_world run_all) = [StorageExample.source].
Proof. vm_compute. reflexivity. Qed.

Lemma disk_fresh i : dk_nodes (h_disk host) !! chunk_at service (dk_dir (h_disk host)) "upl_b" i = None.
Proof.
  change (chunk_at service (dk_dir (h_disk host)) "upl_b" i) with ["var"; "app"; "tmp"; "up"; "upl_b"; chunk_name i].
  cbn [h_disk host disk dk_nodes]. by rewrite !lookup_insert_ne, lookup_singleton_ne.
Qed.

Lemma upload_roundtrip_witness :
  exists t, dk_nodes (h_disk (snd finish_run)) !! ["srv"; "data"; "pub"; "f.txt"] = Some (NFile "hello" t).
Proof.
  destruct finish_succeeds as (resp & Hok & _). set (run := finish_run) in *.
  assert (finish_run = (Ok resp, snd run)) as E by (fold run; rewrite <- Hok; apply surjective_pairing).
  clearbody run.
  destruct (upload_roundtrip service requests host (session "upl_b" 3) ["hel"; "lo"] bob (finish_request "upl_b") resp (snd run))
    as (source & Hin & _ & Hst); [discriminate|exact upload_world_valid|exact sessions_ok|exact disk_tree|reflexivity| |
      exact (disk_apart "upl_b")|exact disk_fresh|reflexivity| |reflexivity|exact E|].
  - cbn [h_world host]. rewrite stored_sessions. left.
  - assert (forall i data, (i = 0 /\ data = "hel" \/ i = 1 /\ data = "lo")%Z ->
      sends (session "upl_b" 3) ["hel"; "lo"] (EvChunk bob "upl_b" i data)) as Hs.
    { intros i data Hi. right. exists bob, i, data. split; [reflexivity|]. intros _. by destruct Hi as [[-> ->]|[-> ->]]. }
    unfold requests. repeat (apply Forall_cons_2; [first [left; reflexivity|apply Hs; auto]|]). apply Forall_nil_2.
  - rewrite finish_sources in Hin. apply list_elem_of_singleton in Hin as ->.
    destruct (Hst eq_refl) as (base & target & Hr & _ & [t Ht] & _). exists t.
    injection Hr as <- <-. exact Ht.
Defined.

(** ** What a failure leaves behind *)
Definition failing (faults : list (option DbErr)) : Host :=
  {| h_world := mem_world { w_db world with Mem.m_faults := faults }; h_disk := disk |}.
Definition owner_requests (data : string) : list UploadEvent := [EvChunk bob "upl_b" 0 data; EvChunk bob "upl_b" 1 "lo"].

(** A piece is on the disk before it is recorded: when recording fails, the
    client that sends it again is told that it is there already, but it is
    never recorded, and the upload can not be finished. *)
Theorem piece_never_recorded :
  let h1 := run_upload service (EvChunk bob "upl_b" 0 "hel") (failing [None; Some (DbOther "locked")]) in
  fst (UploadService_UploadChunk service bob "upl_b" 0 "hel" h1) = Ok (chunk_response "upl_b" 0 "hel" true) /\
  fst (UploadService_Finish service bob (finish_request "upl_b") (run_uploads service (owner_requests "hel") h1)) =
    Err ErrUploadFinishIncomplete.
Proof. vm_compute. split; reflexivity. Qed.

(** A file whose hash is wrong stays at the target: the upload can neither
    be finished nor be started again. *)
Theorem mismatch_left_at_target :
  let '(r1, h1) := UploadService_Finish service bob (finish_request "upl_b") (run_uploads service (owner_requests "HEL") host) in
  r1 = Err ErrUploadHashMismatch /\
  fst (UploadService_Finish service bob (finish_request "upl_b") h1) = Err ErrFileAlreadyExists /\
  fst (UploadService_Init service bob 3 { open_request with ir_Filename := "f.txt"; ir_FileHash := md5_hex "hello" } h1) =
    Err ErrFileAlreadyExists.
Proof. vm_compute. split; [|split]; reflexivity. Qed.

(** A piece that was written in part is in the way of the whole one. *)
Theorem partial_piece_conflicts :
  let fault i := if Nat.eqb i 2 then Some {| df_err := OsText "no space left on device"; df_done := 2; df_left := fun _ => false |} else None in
  let h1 := run_upload service (EvChunk bob "upl_b" 0 "hel") { host with h_disk := { disk with dk_faults := fault } } in
  fst (UploadService_UploadChunk service bob "upl_b" 0 "hel" h1) = Err ErrUploadChunkConflict.
Proof. vm_compute. reflexivity. Qed.

(** Two pieces that arrive at once read the session before either is
    recorded: the record of the first is overwritten by the second, although
    clients are told to send three pieces at a time. *)
Theorem concurrent_piece_lost :
  let read := session "upl_b" 3 in
  let record index := UploadSessionRepository_Update { read with us_UploadedChunks ::= add_chunk index } in
  map us_UploadedChunks (tbl TUpload (snd (record 1%Z (snd (record 0%Z world))))) = [[1]; []]%Z /\
  ut_Concurrency (server_chunk "local") = 3%Z.
Proof. vm_compute. split; reflexivity. Qed.
