(* ===== verification/Commits.v ===== *)
(** * Commits to the metadata tree ([metadata_vfs_commit_service.go])

    A file that was stored is committed: the directories that lead to it are
    made or put right, its object is created or updated by its locator, and
    its node by its path, in one transaction.  This implements the interface
    [MetadataVFSCommitter] that uploads use. *)
From S2P Require Import Prelude Ints GoStrings Entities Paths Mounts Tables Db Auditing Repos MetaRepos Journal Acl AclService MetaTree Storage Files Uploads.
From stdpp Require Import base list strings.
From Stdlib Require Import ZArith Lia Ascii.

Local Open Scope string_scope.
Local Open Scope list_scope.
Local Open Scope go_scope.

(** ** [StorageObjectRepository.UpsertByLocator] of [vfs_metadata_repo_impl.go] *)
Section Repository.
Context `{Database}.
Definition at_locator (sourceID : N) (driverType locatorType locatorJSON : string) (o : StorageObject) : bool :=
  N.eqb (so_SourceID o) sourceID && String.eqb (so_DriverType o) driverType &&
  String.eqb (so_LocatorType o) locatorType && String.eqb (so_LocatorJSON o) locatorJSON.
Definition StorageObjectRepository_FindByLocator (sourceID : N) (driverType locatorType locatorJSON : string)
    : M GoErr World StorageObject :=
  first TObject (at_locator sourceID driverType locatorType (jsonObject locatorJSON)) (ord_asc (fun o => Z.of_N (so_ID o))).
Definition object_columns (new old : StorageObject) : StorageObject :=
  { old with so_Size := so_Size new; so_ETag := so_ETag new; so_Checksum := so_Checksum new;
             so_MimeType := so_MimeType new; so_Status := so_Status new; so_UpdatedAt := so_UpdatedAt new }.
Definition StorageObjectRepository_UpsertByLocator (object : StorageObject) : M GoErr World StorageObject :=
  let object := { object with so_LocatorJSON ::= jsonObject } in
  do! stmt (db_upsert TObject
        (at_locator (so_SourceID object) (so_DriverType object) (so_LocatorType object) (so_LocatorJSON object))
        (fun _ => object_columns) (storageObjectModelFromEntity object)) ;;
  StorageObjectRepository_FindByLocator (so_SourceID object) (so_DriverType object) (so_LocatorType object)
    (so_LocatorJSON object).
End Repository.

(** ** The service *)
Record MetadataVFSCommitService := { cs_nodeRepo : bool; cs_objectRepo : bool; cs_transactor : bool }.

(** A JSON decoder that keeps numbers as they are written: the one value a
    text denotes, if it is the text of one value. *)
Class JsonValueDecoder := json_value : string -> option Json.

Definition uintPtr (value : N) : option N := if N.eqb value 0 then None else Some value.

(** The zero value of the struct. *)
Definition zero_node : VFSNode :=
  {| vn_ID := 0; vn_ParentID := None; vn_Name := ""; vn_Path := ""; vn_Kind := ""; vn_MountID := None;
     vn_ObjectID := None; vn_SourceID := None; vn_ProviderItemID := None; vn_ProviderParentID := None; vn_Size := 0;
     vn_MimeType := ""; vn_ETag := ""; vn_Checksum := ""; vn_SyncState := ""; vn_IsDeleted := false;
     vn_CreatedBy := None; vn_UpdatedBy := None; vn_CreatedAt := 0; vn_UpdatedAt := 0; vn_IndexedAt := None;
     vn_LastSeenAt := None |}.

(** *** What a request asks for *)
Definition blank (s : string) : bool := String.eqb (trim_space s) "".

Definition metadataCommitSourceSnapshot (req : MetadataVFSFileObjectCommitRequest) : result GoErr (N * string) :=
  let sourceID := mc_SourceID req in
  let driverType := trim_space (mc_DriverType req) in
  let '(sourceID, driverType) :=
    match mc_Source req with
    | Some source => (if N.eqb sourceID 0 then src_ID source else sourceID,
                      if String.eqb driverType "" then src_DriverType source else driverType)
    | None => (sourceID, driverType)
    end in
  if N.eqb sourceID 0 || String.eqb driverType "" then Err ErrPathInvalid else Ok (sourceID, driverType).

Definition metadataCommitVirtualParentPath (req : MetadataVFSFileObjectCommitRequest) : result GoErr string :=
  if negb (blank (mc_VirtualParentPath req)) then normalizeVirtualPath (mc_VirtualParentPath req)
  else
    match mc_Source req with
    | None => Err ErrPathInvalid
    | Some source =>
        let merged := mergeMountAndInnerPath (src_MountPath source) (mc_ResolvedInnerParentPath req) in
        if negb (blank (mc_ResolvedInnerParentPath req)) && negb (String.eqb merged "") then Ok merged
        else if negb (blank (mc_ObjectPath req)) then
          match splitParentName (mc_ObjectPath req) with
          | Err e => Err e
          | Ok (parentPath, _) =>
              let merged := mergeMountAndInnerPath (src_MountPath source) parentPath in
              if negb (String.eqb merged "") then Ok merged else Err ErrPathInvalid
          end
        else Err ErrPathInvalid
    end.

Definition metadataCommitInnerParentPath (req : MetadataVFSFileObjectCommitRequest) (virtualParentPath : string)
    : result GoErr string :=
  if negb (blank (mc_ResolvedInnerParentPath req)) then normalizeVirtualPath (mc_ResolvedInnerParentPath req)
  else
    let fallback := normalizeVirtualPath virtualParentPath in
    match mc_Source req with
    | Some source =>
        if negb (blank (src_MountPath source)) then
          match normalizeMountPath (src_MountPath source) with
          | Ok mountPath =>
              if isSubPath mountPath virtualParentPath then
                let inner := trim_prefix virtualParentPath mountPath in
                if String.eqb inner "" then Ok "/"
                else normalizeVirtualPath (if negb (has_prefix inner "/") then "/" +:+ inner else inner)
              else fallback
          | Err _ => fallback
          end
        else fallback
    | None => fallback
    end.

Definition metadataCommitObjectPath (req : MetadataVFSFileObjectCommitRequest) (innerParentPath : string) : result GoErr string :=
  if negb (blank (mc_ObjectPath req)) then normalizeVirtualPath (mc_ObjectPath req)
  else normalizeVirtualPath (joinVirtualPath innerParentPath (mc_Filename req)).

Definition metadataCommitCanonicalLocatorJSON `{JsonValueDecoder} (input : string) : result GoErr string :=
  match json_value input with
  | Some (JObj members) => Ok (metadataCommitMarshalLocatorJSON (JObj members))
  | _ => Err ErrPathInvalid
  end.
Definition metadataCommitLocator `{JsonValueDecoder} (req : MetadataVFSFileObjectCommitRequest) (driverType objectPath : string)
    : result GoErr (string * string) :=
  let locatorType := trim_space (mc_LocatorType req) in
  let locatorJSON := trim_space (mc_LocatorJSON req) in
  if negb (String.eqb locatorType "") && negb (String.eqb locatorJSON "") then
    match metadataCommitCanonicalLocatorJSON locatorJSON with
    | Ok canonicalLocatorJSON => Ok (locatorType, canonicalLocatorJSON)
    | Err e => Err e
    end
  else
    let locatorType :=
      if String.eqb locatorType "" then (if String.eqb driverType "local" then "local_path" else "driver_path")
      else locatorType in
    Ok (locatorType, metadataCommitMarshalLocatorJSON (JObj [("path", JStr objectPath)])).

Definition metadataCommitSize (size : Z) : Z := if Z.ltb size 0 then 0%Z else size.
Definition metadataCommitMimeType `{MimeTypes} (filename mimeType : string) : string :=
  if negb (blank mimeType) then trim_space mimeType
  else
    let detected := mime_type_by_extension (to_lower (path_ext filename)) in
    if negb (String.eqb detected "") then detected else "application/octet-stream".

(** *** Directories *)
Definition metadataCommitDirectoryKind (source : option StorageSource) (currentPath : string) : string :=
  match source with
  | None => VFSNodeKindDir
  | Some source =>
      if blank (src_MountPath source) then VFSNodeKindDir
      else match normalizeMountPath (src_MountPath source) with
           | Err _ => VFSNodeKindVirtualDir
           | Ok mountPath =>
               if String.eqb currentPath mountPath then VFSNodeKindMount
               else if isSubPath mountPath currentPath then VFSNodeKindDir else VFSNodeKindVirtualDir
           end
  end.
Definition metadataCommitDirectorySourceID (source : option StorageSource) (sourceID : N) (currentPath : string) : option N :=
  if N.eqb sourceID 0 then None
  else
    match source with
    | None => uintPtr sourceID
    | Some source =>
        if blank (src_MountPath source) then uintPtr sourceID
        else match normalizeMountPath (src_MountPath source) with
             | Err _ => None
             | Ok mountPath => if isSubPath mountPath currentPath then uintPtr sourceID else None
             end
    end.
Definition metadataCommitDirectoryNeedsUpdate (existing : VFSNode) (parentID : N) (name kind : string)
    (sourceID : option N) : bool :=
  match vn_ParentID existing with None => true | Some id => negb (N.eqb id parentID) end ||
  negb (String.eqb (vn_Name existing) name) || negb (String.eqb (vn_Kind existing) kind) ||
  negb (sameUintPtr (vn_SourceID existing) sourceID) ||
  negb (String.eqb (vn_SyncState existing) VFSNodeSyncStateIndexed).

Section Service.
Context `{Database} `{JV : JsonValueDecoder} `{MT : MimeTypes} (s : MetadataVFSCommitService).

Definition withinCommitTx {A} (fn : M GoErr World A) : M GoErr World A :=
  if cs_transactor s then WithinTx fn else fn.

Definition ensureCommitRoot (now : Z) : M GoErr World VFSNode :=
  normalized (VFSNodeRepository_UpsertByPath
    { zero_node with vn_Path := "/"; vn_Kind := VFSNodeKindRoot; vn_SyncState := VFSNodeSyncStateIndexed;
      vn_CreatedAt := now; vn_UpdatedAt := now; vn_IndexedAt := Some now }).

(** The directory [segment] of [current], made or put right. *)
Definition put_right (existing current : VFSNode) (segment kind : string) (sourceID actorID : option N) (now : Z) : VFSNode :=
  { existing with vn_ParentID := Some (vn_ID current); vn_Name := segment; vn_Kind := kind; vn_SourceID := sourceID;
    vn_UpdatedBy := actorID; vn_UpdatedAt := now; vn_SyncState := VFSNodeSyncStateIndexed;
    vn_IndexedAt ::= fun at_ => match at_ with None => Some now | Some t => Some t end }.
Definition new_directory (current : VFSNode) (segment path kind : string) (sourceID actorID : option N) (now : Z) : VFSNode :=
  { zero_node with vn_ParentID := Some (vn_ID current); vn_Name := segment; vn_Path := path; vn_Kind := kind;
    vn_MountID := vn_MountID current; vn_SourceID := sourceID; vn_MimeType := "inode/directory";
    vn_SyncState := VFSNodeSyncStateIndexed; vn_CreatedBy := actorID; vn_UpdatedBy := actorID; vn_CreatedAt := now;
    vn_UpdatedAt := now; vn_IndexedAt := Some now; vn_LastSeenAt := Some now }.
Definition ensure_directory (source : option StorageSource) (sourceID : N) (now : Z) (actorID : option N)
    (current : VFSNode) (segment : string) : M GoErr World VFSNode :=
  let currentPath := joinVirtualPath (vn_Path current) segment in
  let desiredKind := metadataCommitDirectoryKind source currentPath in
  let desiredSourceID := metadataCommitDirectorySourceID source sourceID currentPath in
  existing <-! VFSNodeRepository_FindByPath currentPath or err =>
    (if negb (err_is err ErrNotFound) then throw (normalizeMetadataVFSError err)
     else normalized (VFSNodeRepository_UpsertByPath
            (new_directory current segment currentPath desiredKind desiredSourceID actorID now))) ;;
  if negb (metadataVFSNodeIsDirectory existing) then throw ErrNameConflict
  else if match vn_SourceID existing, desiredSourceID with
          | Some a, Some b => negb (N.eqb a b)
          | _, _ => false
          end then throw ErrNameConflict
  else if metadataCommitDirectoryNeedsUpdate existing (vn_ID current) segment desiredKind desiredSourceID then
    let existing := put_right existing current segment desiredKind desiredSourceID actorID now in
    do! normalized (VFSNodeRepository_Update existing) ;;
    ret existing
  else ret existing.
Fixpoint ensure_directories (source : option StorageSource) (sourceID : N) (now : Z) (actorID : option N)
    (current : VFSNode) (segments : list string) : M GoErr World VFSNode :=
  match segments with
  | [] => ret current
  | segment :: rest =>
      if String.eqb segment "" then ensure_directories source sourceID now actorID current rest
      else
        current <-! ensure_directory source sourceID now actorID current segment ;;
        ensure_directories source sourceID now actorID current rest
  end.
Definition ensureCommitParentPath (source : option StorageSource) (sourceID : N) (virtualParentPath : string) (now : Z)
    (actorID : option N) : M GoErr World VFSNode :=
  root <-! ensureCommitRoot now ;;
  if String.eqb virtualParentPath "/" then ret root
  else ensure_directories source sourceID now actorID root (split_on slash (trim_prefix virtualParentPath "/")).

(** The object and the node of a file. *)
Definition commit_object (req : MetadataVFSFileObjectCommitRequest) (sourceID : N)
    (driverType locatorType locatorJSON : string) (now : Z) : StorageObject :=
  {| so_ID := 0; so_SourceID := sourceID; so_DriverType := driverType; so_LocatorType := locatorType;
     so_LocatorJSON := locatorJSON; so_Size := metadataCommitSize (mc_Size req); so_ETag := mc_ETag req;
     so_Checksum := mc_Checksum req; so_MimeType := metadataCommitMimeType (mc_Filename req) (mc_MimeType req);
     so_Status := StorageObjectStatusAvailable; so_CreatedAt := now; so_UpdatedAt := now |}.
Definition commit_node (req : MetadataVFSFileObjectCommitRequest) (sourceID : N) (parent : VFSNode) (filePath : string)
    (object : StorageObject) (existing : option VFSNode) (now : Z) : VFSNode :=
  let node :=
    { zero_node with vn_ParentID := Some (vn_ID parent); vn_Name := mc_Filename req; vn_Path := filePath;
      vn_Kind := VFSNodeKindFile; vn_MountID := vn_MountID parent; vn_ObjectID := Some (so_ID object);
      vn_SourceID := uintPtr sourceID; vn_Size := so_Size object; vn_MimeType := so_MimeType object;
      vn_ETag := mc_ETag req; vn_Checksum := mc_Checksum req; vn_SyncState := VFSNodeSyncStateIndexed;
      vn_CreatedBy := mc_ActorID req; vn_UpdatedBy := mc_ActorID req; vn_CreatedAt := now; vn_UpdatedAt := now;
      vn_IndexedAt := Some now; vn_LastSeenAt := Some now } in
  match existing with
  | None => node
  | Some existing =>
      { node with vn_ID := vn_ID existing; vn_CreatedAt := vn_CreatedAt existing; vn_CreatedBy := vn_CreatedBy existing }
  end.

Definition MetadataVFSCommitService_CommitFileObject (req : MetadataVFSFileObjectCommitRequest)
    : M GoErr World (option MetadataVFSFileObjectCommitResult) :=
  if negb (cs_nodeRepo s) || negb (cs_objectRepo s) then throw ErrSourceDriverUnsupported
  else
  do! lift_result (validateFileName (mc_Filename req)) ;;
  snapshot <-! lift_result (metadataCommitSourceSnapshot req) ;;
  let '(sourceID, driverType) := snapshot in
  virtualParentPath <-! lift_result (metadataCommitVirtualParentPath req) ;;
  innerParentPath <-! lift_result (metadataCommitInnerParentPath req virtualParentPath) ;;
  objectPath <-! lift_result (metadataCommitObjectPath req innerParentPath) ;;
  locator <-! lift_result (metadataCommitLocator req driverType objectPath) ;;
  let '(locatorType, locatorJSON) := locator in
  result <-! withinCommitTx (
    now <-! time_now ;;
    parent <-! ensureCommitParentPath (mc_Source req) sourceID virtualParentPath now (mc_ActorID req) ;;
    let filePath := joinVirtualPath (vn_Path parent) (mc_Filename req) in
    let store existing :=
      object <-! normalized (StorageObjectRepository_UpsertByLocator
                               (commit_object req sourceID driverType locatorType locatorJSON now)) ;;
      node <-! normalized (VFSNodeRepository_UpsertByPath
                             (commit_node req sourceID parent filePath object existing now)) ;;
      ret {| cr_Node := Some node; cr_Object := Some object |} in
    existing <-! VFSNodeRepository_FindByPath filePath or err =>
      (if negb (err_is err ErrNotFound) then throw (normalizeMetadataVFSError err) else store None) ;;
    if negb (String.eqb (vn_Kind existing) VFSNodeKindFile) then throw ErrNameConflict
    else store (Some existing)) ;;
  ret (Some result).
End Service.
