(* ===== verification/CommitProps.v ===== *)
(** * Commits: what the tree holds afterwards

    A commit keeps the tree of nodes, changes only the path to its file, and
    changes nothing when it fails; committing a file again keeps its node and
    its object.  The service satisfies the laws uploads rely on. *)
From S2P Require Import Prelude Ints GoStrings Entities Paths Mounts Tables Db Auditing Repos MetaRepos Journal Acl AclService MetaTree MetaTreeSpec Storage Files Uploads UploadProps Commits.
From stdpp Require Import base list strings sets.
From Stdlib Require Import ZArith Lia Ascii.

Local Open Scope string_scope.
Local Open Scope list_scope.
Local Open Scope go_scope.

Notation live n := (vn_IsDeleted n = false) (only parsing).
#[local] Notation tree := MetaTreeSpec.tree.
#[local] Notation nodes w := (tbl TNode w).
#[local] Notation objects w := (tbl TObject w).

(** ** Tables that change at one path *)
Definition at_path (p : string) (n : VFSNode) : Prop := live n /\ vn_Path n = p.
(** [l'] is [l] with the node [x] for the live one at its path, if any. *)
Definition put_node (x : VFSNode) (l l' : list VFSNode) : Prop :=
  x ∈ l' /\ (forall n, n ∈ l' -> n = x \/ (n ∈ l /\ ~ at_path (vn_Path x) n)) /\
  (forall n, n ∈ l -> ~ at_path (vn_Path x) n -> n ∈ l').
(** Only live nodes at paths in [P] come and go. *)
Definition changed (P : string -> Prop) (l l' : list VFSNode) : Prop :=
  (forall n, n ∈ l' -> n ∈ l \/ (live n /\ P (vn_Path n))) /\
  (forall n, n ∈ l -> n ∈ l' \/ (live n /\ P (vn_Path n))).

Lemma changed_refl P l : changed P l l.
Proof. split; auto. Qed.
Lemma changed_trans P l1 l2 l3 : changed P l1 l2 -> changed P l2 l3 -> changed P l1 l3.
Proof.
  intros [A1 B1] [A2 B2]. split; intros n Hn.
  - destruct (A2 n Hn) as [?|?]; auto.
  - destruct (B1 n Hn) as [?|?]; auto.
Qed.
Lemma changed_mono (P P' : string -> Prop) l l' : (forall p, P p -> P' p) -> changed P l l' -> changed P' l l'.
Proof. intros HP [A B]. split; intros n Hn; [destruct (A n Hn) as [?|[]]|destruct (B n Hn) as [?|[]]]; auto. Qed.
Lemma at_path_dec p n : at_path p n \/ ~ at_path p n.
Proof. unfold at_path. destruct (vn_IsDeleted n), (decide (vn_Path n = p)); naive_solver. Qed.
Lemma put_changed x l l' : live x -> put_node x l l' -> changed (fun p => p = vn_Path x) l l'.
Proof.
  intros Lx (Hx & H1 & H2). split; intros n Hn.
  - destruct (H1 n Hn) as [->|[? _]]; auto.
  - destruct (at_path_dec (vn_Path x) n) as [[]|]; auto.
Qed.

Lemma put_where x l key f : live x -> (exists y, y ∈ l /\ at_path (vn_Path x) y) ->
  (forall n, n ∈ l -> key n = true <-> at_path (vn_Path x) n) -> (forall n, n ∈ l -> key n = true -> f n = x) ->
  put_node x l (set_where key f l).
Proof.
  intros Lx (y & Hy & Hp) Hk Hf. split_and!.
  - apply elem_of_set_where. left. exists y. pose proof (proj2 (Hk y Hy) Hp) as Hky. split_and!; [done..|]. by rewrite Hf.
  - intros n [(z & Hz & Hkz & ->)|[Hn Hkn]]%elem_of_set_where; [left; by apply Hf|right].
    split; [done|]. rewrite <- Hk by done. by rewrite Hkn.
  - intros n Hn Ha. apply elem_of_set_where. right. split; [done|]. apply not_true_is_false. by rewrite Hk.
Qed.
Lemma put_snoc x l : (forall n, n ∈ l -> ~ at_path (vn_Path x) n) -> put_node x l (l ++ [x]).
Proof.
  intros Ha. split_and!.
  - apply elem_of_app. right. by apply list_elem_of_singleton.
  - intros n [?| ->%list_elem_of_singleton]%elem_of_app; auto.
  - intros n Hn _. apply elem_of_app. by left.
Qed.

(** Nothing lies in a node. *)
Definition leaf (l : list VFSNode) (y : VFSNode) : Prop := forall n, n ∈ l -> live n -> vn_ParentID n <> Some (vn_ID y).
(** A directory stays one, unless it is empty. *)
Definition stays_dir (l : list VFSNode) (y x : VFSNode) : Prop :=
  metadataVFSNodeIsDirectory y = true -> metadataVFSNodeIsDirectory x = true \/ leaf l y.
(** A node is put in a directory, or is the root; what it replaces keeps its
    ID, and stays a directory if it was one. *)
Definition fits (l : list VFSNode) (x : VFSNode) : Prop :=
  is_root x \/
  vn_Kind x <> VFSNodeKindRoot /\ exists p, p ∈ l /\ live p /\ metadataVFSNodeIsDirectory p = true /\ child_of p x.
Definition replaces (l : list VFSNode) (x : VFSNode) : Prop :=
  forall y, y ∈ l -> at_path (vn_Path x) y ->
    vn_ID y = vn_ID x /\ stays_dir l y x.
Lemma child_path_longer p n : canonical (vn_Path p) -> child_of p n -> vn_Path p <> vn_Path n.
Proof.
  intros Hp (_ & Hx & E) E'. rewrite E, join_segs in E' by done. apply canonical_segs in Hp as [Hg Ep].
  rewrite Ep in E' at 1. apply render_inj in E'; [|by apply good_segs_plain|rewrite forallb_app, good_segs_plain by done; cbn; by rewrite Hx].
  apply (f_equal length) in E'. rewrite length_app in E'. cbn in E'. lia.
Qed.
Lemma tree_put x l l' : tree l -> put_node x l l' -> canonical (vn_Path x) -> live x -> fits l x -> replaces l x -> tree l'.
Proof.
  intros Ht (Hx & H1 & H2) Hc Lx Hf Hr n Hn Ln.
  assert (forall q m, q ∈ l -> live q -> metadataVFSNodeIsDirectory q = true -> child_of q m ->
            (~ at_path (vn_Path x) q \/ m ∈ l /\ live m) ->
            exists p, p ∈ l' /\ live p /\ metadataVFSNodeIsDirectory p = true /\ child_of p m) as Hpar.
  { intros q m Hq Lq Dq Hch Hm. destruct (at_path_dec (vn_Path x) q) as [Ha|Ha]; [|exists q; auto].
    destruct Hm as [?|[Hm Lm]]; [done|]. exists x. destruct (Hr q Hq Ha) as [Ei Hd]. destruct Hch as (Ep & Hp & Epath), Ha as [_ Ea].
    destruct (Hd Dq) as [Dx|Hleaf]; [|by destruct (Hleaf m Hm Lm)].
    split_and!; [done|done|done|]. split_and!; [by rewrite Ep, Ei|done|by rewrite Epath, Ea]. }
  destruct (H1 n Hn) as [->|[Hl _]].
  - split; [done|]. destruct Hf as [?|(Hk & p & Hp & Lp & Dp & Hch)]; [by left|right]. split; [done|]. apply (Hpar p); [done..|].
    left. intros [_ Ea]. by apply (child_path_longer p x); [apply (Ht p)|..].
  - destruct (Ht n Hl Ln) as [Hcn [?|(Hk & p & Hp & Lp & Dp & Hch)]]; (split; [done|]); [by left|right].
    split; [done|]. apply (Hpar p); [done..|]. by right.
Qed.

(** A directory that is in the table, as it was read. *)
Definition stands (c : VFSNode) (l : list VFSNode) : Prop :=
  exists p, p ∈ l /\ live p /\ metadataVFSNodeIsDirectory p = true /\ vn_ID p = vn_ID c /\ vn_Path p = vn_Path c.

(** ** Writing a node *)
Section Steps.
Context `{DatabaseLaws}.

(** The row a node was written as. *)
Definition row_of (node x : VFSNode) : Prop :=
  x = { node with vn_IsDeleted := false; vn_ID := vn_ID x; vn_CreatedBy := vn_CreatedBy x; vn_CreatedAt := vn_CreatedAt x;
        vn_UpdatedAt := vn_UpdatedAt x }.
Definition wrote (node x : VFSNode) (w w' : World) : Prop :=
  frames [TNode] w w' /\ row_of node x /\ put_node x (nodes w) (nodes w') /\
  forall y, y ∈ nodes w -> at_path (vn_Path x) y -> vn_ID y = vn_ID x.
Definition may_write (node : VFSNode) (w w' : World) : Prop :=
  same w w' \/ exists x, wrote node x w w'.

Lemma at_path_unique w p a b : valid w -> a ∈ nodes w -> b ∈ nodes w -> at_path p a -> at_path p b -> a = b.
Proof.
  intros Hv Ha Hb [La Ea] [Lb Eb]. destruct (valid_distinct _ (Hv TNode)) as [_ Hd]. apply Hd; [done..|congruence].
Qed.
Lemma at_path_bool p n : String.eqb (vn_Path n) p && negb (vn_IsDeleted n) = true <-> at_path p n.
Proof. rewrite andb_true_iff, String.eqb_eq, negb_true_iff. unfold at_path. tauto. Qed.

(** Reading by path. *)
Lemma wp_find_path p (Q : result GoErr VFSNode -> World -> Prop) w :
  (forall e w', same w w' -> db_error e -> Q (Err e) w') ->
  (forall w', same w w' -> (forall n, n ∈ nodes w -> ~ at_path p n) -> Q (Err ErrNotFound) w') ->
  (forall n w', same w w' -> n ∈ nodes w -> at_path p n -> Q (Ok n) w') -> wp (VFSNodeRepository_FindByPath p) Q w.
Proof.
  intros He Hn Hk. apply (wp_first TNode); [exact He|..].
  - intros w' Hs Hno. apply Hn; [done|]. intros n Hin Ha%at_path_bool. by rewrite (Hno n Hin) in Ha.
  - intros n w' Hs Hin Ha%at_path_bool _. by apply Hk.
Qed.

Lemma wp_upsert_node node (Q : result GoErr VFSNode -> World -> Prop) w : valid w ->
  (forall e w', may_write node w w' -> Q (Err e) w') -> (forall x w', wrote node x w w' -> Q (Ok x) w') ->
  wp (VFSNodeRepository_UpsertByPath node) Q w.
Proof.
  intros Hv He Hk. unfold VFSNodeRepository_UpsertByPath. cbv zeta.
  set (node0 := { node with vn_IsDeleted := false }).
  assert (forall x w1, wrote node x w w1 -> vn_Path x = vn_Path node -> live x ->
            wp (VFSNodeRepository_FindByPath (vn_Path node)) Q w1) as Hread.
  { intros x w1 Hw Ep Lx. pose proof Hw as (Hf & Hx & Hput & Hid).
    assert (forall w2, same w1 w2 -> wrote node x w w2) as Hw2.
    { intros w2 Hs. split_and!; [by eapply frames_same|done| |done]. by rewrite (proj1 Hs). }
    apply wp_find_path.
    - intros e w2 Hs _. apply He. right. exists x. by apply Hw2.
    - intros w2 _ Hno. destruct (Hno x); [exact (proj1 Hput)|done].
    - intros n w2 Hs Hn Ha. assert (n = x) as ->; [|by apply Hk, Hw2].
      apply (at_path_unique w1 (vn_Path node)); [by apply Hf|done|exact (proj1 Hput)|done|done]. }
  apply wp_bind, (wp_upsert TNode).
  - intros e w1 Hs _. apply He. by left.
  - intros id now now' w1 r' l Hex Hn Hp.
    apply existsb_exists in Hex as (y & Hy%list_elem_of_In & Hay%at_path_bool).
    set (x := upsert_columns r' y). destruct Hay as [Ly Ey].
    assert (vn_Path x = vn_Path node /\ live x) as [Ep Lx] by (split; [exact Ey|reflexivity]).
    apply (Hread x); [|done..]. split_and!.
    + by apply (put_frames TNode l).
    + unfold row_of. transitivity { x with vn_Path := vn_Path node }; [|reflexivity]. by rewrite <- Ep.
    + rewrite (proj1 Hp). apply put_where; [done|by exists y; rewrite Ep|..].
      * intros n Hin. rewrite Ep. apply at_path_bool.
      * intros n Hin Ha%at_path_bool. by rewrite (at_path_unique w (vn_Path node) n y).
    + intros z Hz Ha. rewrite Ep in Ha. by rewrite (at_path_unique w (vn_Path node) z y).
  - intros id now w1 r' Hno _ Ha Hp.
    assert (forall n, n ∈ nodes w -> ~ at_path (vn_Path node) n) as Hfree.
    { intros n Hin Hat. apply not_true_iff_false in Hno. apply Hno, existsb_exists. exists n.
      split; [by apply list_elem_of_In|by apply at_path_bool]. }
    apply (Hread r'); [|done..]. split_and!.
    + apply (put_frames _ _ _ _ Hp). intros Hv'. by apply absent_no_conflicts.
    + reflexivity.
    + rewrite (proj1 Hp). by apply put_snoc.
    + intros y Hy Hat. by destruct (Hfree y).
Qed.

Lemma wp_update_node node y (Q : result GoErr unit -> World -> Prop) w : valid w ->
  y ∈ nodes w -> live y -> live node -> vn_ID node = vn_ID y -> vn_Path node = vn_Path y ->
  (forall e w', same w w' -> Q (Err e) w') -> (forall x w', wrote node x w w' -> Q (Ok tt) w') ->
  wp (VFSNodeRepository_Update node) Q w.
Proof.
  intros Hv Hy Ly Ln Ei Ep He Hk. apply (wp_update_found TNode).
  - intros e w' Hs _. by apply He.
  - intros w' Hs _. by apply He.
  - intros now w' l _ Hn Hp. set (x := touch TNode now (node_columns node y)).
    destruct (valid_distinct _ (Hv TNode)) as [Hids _].
    assert (forall n, n ∈ nodes w -> N.eqb (vn_ID n) (vn_ID node) = true -> n = y) as Hone.
    { intros n Hin E%N.eqb_eq. apply Hids; [done..|congruence]. }
    assert (vn_Path x = vn_Path y) as Ex by exact Ep.
    apply (Hk x). split_and!.
    + by apply (put_frames TNode l).
    + unfold row_of, x. cbn. unfold node_columns. destruct node; cbn in *. by subst.
    + rewrite (proj1 Hp). apply put_where; [exact Ln|by exists y; rewrite Ex|..].
      * intros n Hin. rewrite Ex. split; [intros E; by rewrite (Hone n Hin E)|].
        intros Ha. rewrite (at_path_unique w (vn_Path y) n y) by done. by apply N.eqb_eq.
      * intros n Hin E. by rewrite (Hone n Hin E).
    + intros z Hz Ha. rewrite Ex in Ha. by rewrite (at_path_unique w (vn_Path y) z y).
Qed.
End Steps.

(** ** Directories *)
Lemma directory_kind_is source p :
  String.eqb (metadataCommitDirectoryKind source p) VFSNodeKindRoot = false /\
  forall n, vn_Kind n = metadataCommitDirectoryKind source p -> metadataVFSNodeIsDirectory n = true.
Proof.
  unfold metadataCommitDirectoryKind, metadataVFSNodeIsDirectory.
  destruct source as [source|]; [|by split; [|intros n ->]].
  destruct (blank _); [by split; [|intros n ->]|]. destruct (normalizeMountPath _) as [m|]; [|by split; [|intros n ->]].
  destruct (String.eqb p m); [by split; [|intros n ->]|]. destruct (isSubPath m p); by split; [|intros n ->].
Qed.

Section Commits.
Context `{DatabaseLaws} `{JV : JsonValueDecoder} `{MT : MimeTypes} (s : MetadataVFSCommitService).

(** A step that keeps the tree and changes it only at paths in [P]. *)
Definition kept (P : string -> Prop) (w w' : World) : Prop :=
  frames [TNode] w w' /\ tree (nodes w') /\ changed P (nodes w) (nodes w').
Lemma kept_same P w w' : tree (nodes w) -> same w w' -> kept P w w'.
Proof. intros Ht Hs. split; [by apply same_frames|]. rewrite (proj1 Hs). split; [done|apply changed_refl]. Qed.
Lemma kept_trans P w1 w2 w3 : kept P w1 w2 -> kept P w2 w3 -> kept P w1 w3.
Proof.
  intros (F1 & _ & C1) (F2 & T2 & C2). split_and!; [by eapply frames_trans|done|by eapply changed_trans].
Qed.
Lemma kept_mono (P P' : string -> Prop) w w' : (forall p, P p -> P' p) -> kept P w w' -> kept P' w w'.
Proof. intros HP (F & T & C). split_and!; [done..|]. by eapply changed_mono. Qed.
Lemma kept_wrote P w w' node x : tree (nodes w) -> canonical (vn_Path x) -> fits (nodes w) x ->
  replaces (nodes w) x -> P (vn_Path x) -> wrote node x w w' -> kept P w w'.
Proof.
  intros Ht Hc Hfit Hrep HP (Hf & Hrow & Hput & Hid). assert (live x) as Lx by by rewrite Hrow.
  split_and!; [done|by eapply tree_put|]. eapply changed_mono; [|by apply put_changed]. by intros p ->.
Qed.

(** Reading and writing where a directory is to be. *)
Lemma kept_write_leaf P w w' node x : tree (nodes w) -> canonical (vn_Path node) -> P (vn_Path node) ->
  (vn_Path node = "/" /\ vn_ParentID node = None /\ vn_Kind node = VFSNodeKindRoot \/
   vn_Kind node <> VFSNodeKindRoot /\ exists p, p ∈ nodes w /\ live p /\ metadataVFSNodeIsDirectory p = true /\ child_of p node) ->
  (forall y, y ∈ nodes w -> at_path (vn_Path node) y -> stays_dir (nodes w) y node) ->
  wrote node x w w' -> kept P w w' /\ x ∈ nodes w' /\ live x /\ vn_Path x = vn_Path node.
Proof.
  intros Ht Hc HP Hfit Hdir Hw. pose proof Hw as (Hf & Hrow & Hput & Hid).
  assert (vn_Path x = vn_Path node /\ vn_ParentID x = vn_ParentID node /\ vn_Name x = vn_Name node /\
          vn_Kind x = vn_Kind node /\ live x) as (Ep & Epar & En & Ek & Lx) by by rewrite Hrow.
  split; [|split; [exact (proj1 Hput)|done]]. eapply kept_wrote; [done|by rewrite Ep| | |by rewrite Ep|done].
  - unfold fits, is_root, child_of. rewrite Ep, Epar, En, Ek. exact Hfit.
  - intros y Hy Ha. split; [by apply Hid|]. unfold stays_dir. unfold metadataVFSNodeIsDirectory at 2. rewrite Ek. rewrite Ep in Ha. by apply Hdir.
Qed.
Lemma kept_write P w w' node x : tree (nodes w) -> canonical (vn_Path node) -> P (vn_Path node) ->
  (vn_Path node = "/" /\ vn_ParentID node = None /\ vn_Kind node = VFSNodeKindRoot \/
   vn_Kind node <> VFSNodeKindRoot /\ exists p, p ∈ nodes w /\ live p /\ metadataVFSNodeIsDirectory p = true /\ child_of p node) ->
  (forall y, y ∈ nodes w -> at_path (vn_Path node) y -> metadataVFSNodeIsDirectory y = true -> metadataVFSNodeIsDirectory node = true) ->
  wrote node x w w' -> kept P w w' /\ x ∈ nodes w' /\ live x /\ vn_Path x = vn_Path node.
Proof. intros Ht Hc HP Hfit Hdir. apply kept_write_leaf; [done..|]. intros y Hy Ha Hd. left. by apply (Hdir y). Qed.

Lemma wp_ensure_root now (Q : result GoErr VFSNode -> World -> Prop) w : valid w -> tree (nodes w) ->
  (forall e w', kept (fun p => p = "/") w w' -> Q (Err e) w') ->
  (forall r w', kept (fun p => p = "/") w w' -> stands r (nodes w') -> vn_Path r = "/" -> Q (Ok r) w') ->
  wp (ensureCommitRoot now) Q w.
Proof.
  intros Hv Ht He Hk. unfold ensureCommitRoot. match goal with |- context [VFSNodeRepository_UpsertByPath ?n] => set (root := n) end.
  assert (forall x w', wrote root x w w' -> kept (fun p => p = "/") w w' /\ x ∈ nodes w' /\ live x /\ vn_Path x = vn_Path root) as Hstep.
  { intros x w' Hw. eapply kept_write; [done|by exists []|done|by left|done|done]. }
  apply wp_map_err, wp_upsert_node; [done|..].
  - intros e w' [Hs|[x Hw]]; apply He; [by apply kept_same|by apply (Hstep x)].
  - intros x w' Hw. pose proof Hw as (_ & Hrow & _). destruct (Hstep x w' Hw) as (Hkept & Hx & Lx & Ep).
    apply Hk; [done| |done]. exists x. split_and!; [done|done|by rewrite Hrow|done|done].
Qed.

(** One directory below another. *)
Lemma wp_ensure_directory source sourceID now actor current segment (Q : result GoErr VFSNode -> World -> Prop) w :
  let path := joinVirtualPath (vn_Path current) segment in
  valid w -> tree (nodes w) -> stands current (nodes w) -> good_seg segment = true ->
  (forall e w', kept (fun p => p = path) w w' -> Q (Err e) w') ->
  (forall r w', kept (fun p => p = path) w w' -> stands r (nodes w') -> vn_Path r = path -> Q (Ok r) w') ->
  wp (ensure_directory source sourceID now actor current segment) Q w.
Proof.
  intros path Hv Ht (c & Hc & Lc & Dc & Eid & Epath) Hseg He Hk. pose proof (good_plain _ Hseg) as Hplain.
  destruct (directory_kind_is source path) as [Hnr Hdir]. apply String.eqb_neq in Hnr.
  assert (canonical (vn_Path c)) as Hcc by by apply (Ht c).
  assert (canonical path) as Hcp.
  { unfold path. rewrite <- Epath. apply canonical_segs in Hcc as [Hg E]. rewrite join_segs by (done || by exists (segs (vn_Path c))).
    exists (segs (vn_Path c) ++ [segment]). split; [|done]. rewrite good_segs_app, Hg. cbn. by rewrite Hseg. }
  assert (forall node, vn_ParentID node = Some (vn_ID current) -> vn_Name node = segment -> vn_Path node = path ->
            vn_Kind node = metadataCommitDirectoryKind source path -> forall x w1 w', same w w1 -> wrote node x w1 w' ->
            kept (fun p => p = path) w w' /\ x ∈ nodes w' /\ live x /\ vn_Path x = path) as Hstep.
  { intros node Epar En Ep Ek x w1 w' Hs Hw. rewrite <- Ep.
    destruct (kept_write (fun p => p = vn_Path node) w1 w' node x) as (Hkept & ?);
      [by rewrite (proj1 Hs)|by rewrite Ep|done| | |done|].
    - right. split; [by rewrite Ek|]. exists c. rewrite (proj1 Hs). split_and!; [done..|].
      unfold child_of. rewrite Epar, En, Ep, Eid. unfold path. by rewrite Epath.
    - intros y _ _ _. by apply Hdir.
    - split; [|done]. eapply kept_trans; [by apply kept_same|done]. }
  apply wp_bind_or, wp_find_path.
  - intros e w1 Hs Hd. destruct (negb _) eqn:En; [apply wp_throw, He; by apply kept_same|].
    by rewrite (db_error_is_not_found _ Hd) in En.
  - intros w1 Hs _. cbn [err_is negb].
    match goal with |- context [VFSNodeRepository_UpsertByPath ?n] => set (node := n) end.
    apply wp_map_err, wp_upsert_node; [by eapply same_valid|..].
    + intros e w' [Hs'|[x Hw]]; apply He; [apply kept_same; [done|by eapply same_trans]|].
      by apply (Hstep node eq_refl eq_refl eq_refl eq_refl x w1).
    + intros x w' Hw. destruct (Hstep node eq_refl eq_refl eq_refl eq_refl x w1 w' Hs Hw) as (Hkept & Hx & Lx & Ep).
      apply Hk; [done| |done]. exists x. split_and!; [done..| |done|done]. pose proof Hw as (_ & Hrow & _).
      apply Hdir. by rewrite Hrow.
  - intros y w1 Hs Hy [Ly Ey]. destruct (metadataVFSNodeIsDirectory y) eqn:Dy; cbn [negb]; [|apply wp_throw, He; by apply kept_same].
    match goal with |- context [if ?b then throw ErrNameConflict else _] => destruct b end; [apply wp_throw, He; by apply kept_same|].
    destruct (metadataCommitDirectoryNeedsUpdate _ _ _ _ _).
    + set (node := put_right _ _ _ _ _ _ _). apply wp_bind, wp_map_err, (wp_update_node node y); [by eapply same_valid|by rewrite (proj1 Hs)|done|done|done|done|..].
      * intros e w' Hs'. apply He. apply kept_same; [done|by eapply same_trans].
      * intros x w' Hw. destruct (Hstep node eq_refl eq_refl Ey eq_refl x w1 w' Hs Hw) as (Hkept & Hx & Lx & Ep).
        apply wp_ret, Hk; [done| |done]. pose proof Hw as (_ & Hrow & _ & Hid). exists x. split_and!; [done|done| |..].
        -- apply Hdir. by rewrite Hrow.
        -- rewrite <- (Hid y); [done|by rewrite (proj1 Hs)|by rewrite Ep].
        -- by rewrite Ep.
    + apply wp_ret, Hk; [by apply kept_same| |done]. exists y. rewrite (proj1 Hs). by split_and!.
Qed.

(** The directories of a path, from one that stands. *)
Lemma wp_ensure_directories source sourceID now actor P segments : forall current lc (Q : result GoErr VFSNode -> World -> Prop) w,
  valid w -> tree (nodes w) -> stands current (nodes w) -> vn_Path current = render lc -> good_segs (lc ++ segments) = true ->
  (forall l1 l2, segments = l1 ++ l2 -> P (render (lc ++ l1))) ->
  (forall e w', kept P w w' -> Q (Err e) w') ->
  (forall r w', kept P w w' -> stands r (nodes w') -> vn_Path r = render (lc ++ segments) -> Q (Ok r) w') ->
  wp (ensure_directories source sourceID now actor current segments) Q w.
Proof.
  induction segments as [|x rest IH]; intros current lc Q w Hv Ht Hs Hp Hg HP He Hk; cbn [ensure_directories].
  - apply wp_ret, Hk; [apply kept_same; [done|apply same_refl]|done|by rewrite app_nil_r].
  - assert (lc ++ x :: rest = (lc ++ [x]) ++ rest) as Eapp by by rewrite <- app_assoc. rewrite Eapp in *.
    pose proof Hg as Hg'. rewrite !good_segs_app in Hg'. apply andb_true_iff in Hg' as [[Hlc Hx]%andb_true_iff Hrest].
    cbn in Hx. rewrite andb_true_r in Hx. pose proof (good_plain _ Hx) as Hplain. apply plain_seg_spec in Hplain as (Hne & _ & _ & Hsl).
    apply String.eqb_neq in Hne. rewrite Hne. apply String.eqb_neq in Hne.
    assert (joinVirtualPath (vn_Path current) x = render (lc ++ [x])) as Ej by (rewrite Hp; apply join_render; [by apply good_segs_plain|done]).
    assert (forall w', kept (fun p => p = joinVirtualPath (vn_Path current) x) w w' -> kept P w w') as Hin.
    { intros w'. apply kept_mono. intros p ->. rewrite Ej. by apply (HP [x] rest). }
    apply wp_bind, wp_ensure_directory; [done..| |].
    + intros e w' Hkept. by apply He, Hin.
    + intros r w' Hkept%Hin Hr Er. pose proof Hkept as ((_ & Hv' & _) & Ht' & _). rewrite Ej in Er.
      apply (IH r (lc ++ [x])); [by apply Hv'|done|done|done|done|..].
      * intros l1 l2 ->. rewrite <- app_assoc. by apply (HP (x :: l1) l2).
      * intros e w'' Hk2. apply He. by eapply kept_trans.
      * intros r' w'' Hk2. apply Hk. by eapply kept_trans.
Qed.
Lemma wp_parent_path source sourceID now actor parent (Q : result GoErr VFSNode -> World -> Prop) w :
  let P p := isSubPath p parent = true in
  valid w -> tree (nodes w) -> canonical parent ->
  (forall e w', kept P w w' -> Q (Err e) w') ->
  (forall r w', kept P w w' -> stands r (nodes w') -> vn_Path r = parent -> Q (Ok r) w') ->
  wp (ensureCommitParentPath source sourceID parent now actor) Q w.
Proof.
  intros P Hv Ht (l & Hl & Ep) He Hk.
  assert (forall l1 l2, l = l1 ++ l2 -> P (render l1)) as HP.
  { intros l1 l2 ->. unfold P. rewrite Ep. pose proof Hl as Hl1. rewrite good_segs_app in Hl1. apply andb_true_iff in Hl1 as [Hl1 _].
    apply isSubPath_render; [done..|]. by exists l2. }
  apply wp_bind, wp_ensure_root; [done..| |].
  - intros e w' Hkept. apply He. eapply kept_mono; [|exact Hkept]. intros p ->. by apply (HP [] l).
  - intros root w' Hkept Hr Er. pose proof Hkept as ((_ & Hv' & _) & Ht' & _).
    assert (kept P w w') as Hkept' by (eapply kept_mono; [|exact Hkept]; intros p ->; by apply (HP [] l)).
    rewrite Ep. destruct (String.eqb_spec (render l) "/") as [E|E]; [apply wp_ret, Hk; [done..|congruence]|].
    assert (l <> []) as Hne by by intros ->. rewrite trim_slash_tail, split_tail by (done || by apply good_segs_plain).
    apply (wp_ensure_directories source sourceID now actor P l root []); [by apply Hv'|done|done|done|done|..].
    + exact HP.
    + intros e w'' Hk2. apply He. by eapply kept_trans.
    + intros r w'' Hk2 Hr' Er'. apply Hk; [by eapply kept_trans|done|]. by rewrite Er'.
Qed.

(** ** Objects *)
Definition same_locator (a b : StorageObject) : bool :=
  at_locator (so_SourceID a) (so_DriverType a) (so_LocatorType a) (so_LocatorJSON a) b.
(** The row an object was written as. *)
Definition stored_object (object o : StorageObject) (w w' : World) : Prop :=
  frames [TObject] w w' /\
  o = { object with so_LocatorJSON := jsonObject (so_LocatorJSON object); so_ID := so_ID o; so_CreatedAt := so_CreatedAt o;
        so_UpdatedAt := so_UpdatedAt o } /\
  o ∈ objects w' /\ (forall o', o' ∈ objects w -> same_locator o o' = true -> so_ID o' = so_ID o) /\
  forall o', o' ∈ objects w -> same_locator o o' = false -> o' ∈ objects w'.
Lemma json_object_twice t : jsonObject (jsonObject t) = jsonObject t.
Proof.
  unfold jsonObject, normalizeJSON.
  destruct (String.eqb (trim_space t) "" || equal_fold (trim_space t) "null") eqn:E; [reflexivity|by rewrite E].
Qed.
Lemma at_locator_spec sid d t j o : at_locator sid d t j o = true <->
  so_SourceID o = sid /\ so_DriverType o = d /\ so_LocatorType o = t /\ so_LocatorJSON o = j.
Proof. unfold at_locator. rewrite !andb_true_iff, N.eqb_eq, !String.eqb_eq. tauto. Qed.
Lemma at_locator_unique w sid d t j a b : valid w -> a ∈ objects w -> b ∈ objects w ->
  at_locator sid d t j a = true -> at_locator sid d t j b = true -> a = b.
Proof.
  intros Hv Ha Hb (A1 & A2 & A3 & A4)%at_locator_spec (B1 & B2 & B3 & B4)%at_locator_spec.
  destruct (no_conflicts_elem TObject _ a b (Hv TObject) Ha Hb) as [|Hc]; [done|]. cbn in Hc. unfold StorageObjectModel_conflict in Hc.
  rewrite A1, A2, A3, A4, B1, B2, B3, B4, N.eqb_refl, !String.eqb_refl, orb_true_r in Hc. done.
Qed.
Lemma wp_upsert_object object (Q : result GoErr StorageObject -> World -> Prop) w : valid w ->
  (forall e w', (same w w' \/ exists o, stored_object object o w w') -> Q (Err e) w') ->
  (forall o w', stored_object object o w w' -> Q (Ok o) w') ->
  wp (StorageObjectRepository_UpsertByLocator object) Q w.
Proof.
  intros Hv He Hk. unfold StorageObjectRepository_UpsertByLocator. cbv zeta.
  set (object0 := { object with so_LocatorJSON ::= jsonObject }).
  set (key := at_locator (so_SourceID object0) (so_DriverType object0) (so_LocatorType object0) (so_LocatorJSON object0)).
  assert (forall o w1, stored_object object o w w1 ->
            wp (StorageObjectRepository_FindByLocator (so_SourceID object0) (so_DriverType object0) (so_LocatorType object0)
                  (so_LocatorJSON object0)) Q w1) as Hread.
  { intros o w1 Hst. pose proof Hst as (Hf & Ho & Hin & Hids & Hrest).
    assert (forall w2, same w1 w2 -> stored_object object o w w2) as Hst2.
    { intros w2 Hs. unfold stored_object. rewrite (proj1 Hs). split; [by eapply frames_same|done]. }
    assert (at_locator (so_SourceID object0) (so_DriverType object0) (so_LocatorType object0)
              (jsonObject (so_LocatorJSON object0)) o = true) as Hat.
    { apply at_locator_spec. rewrite Ho. cbn. by rewrite json_object_twice. }
    apply (wp_first TObject).
    - intros e w2 Hs _. apply He. right. exists o. apply Hst2, Hs.
    - intros w2 _ Hno. by rewrite (Hno o Hin) in Hat.
    - intros r w2 Hs Hr Hp _. rewrite (at_locator_unique w1 _ _ _ _ r o) by first [by apply Hf|done|exact Hp|exact Hat]. by apply Hk, Hst2. }
  apply wp_bind, (wp_upsert TObject).
  - intros e w1 Hs _. apply He. by left.
  - intros id now now' w1 r' l Hex Hn Hp. fold key in Hex.
    apply existsb_exists in Hex as (y & Hy%list_elem_of_In & Hky). apply (Hread (object_columns r' y)).
    pose proof Hky as (E1 & E2 & E3 & E4)%at_locator_spec.
    assert (forall o', same_locator (object_columns r' y) o' = key o') as Hsame.
    { intros o'. unfold same_locator, key. cbn -[object0]. by rewrite E1, E2, E3, E4. }
    split_and!.
    + by apply (put_frames TObject l).
    + clear -E1 E2 E3 E4. destruct y. cbn in *. by subst.
    + rewrite (proj1 Hp). apply elem_of_set_where. left. exists y. by split_and!.
    + intros o' Ho' Hko. rewrite Hsame in Hko. by rewrite (at_locator_unique w _ _ _ _ o' y Hv Ho' Hy Hko Hky).
    + intros o' Ho' Hko. rewrite Hsame in Hko. rewrite (proj1 Hp). apply elem_of_set_where. by right.
  - intros id now w1 r' Hno _ Ha Hp. fold key in Hno. apply (Hread r').
    assert (forall o', same_locator r' o' = key o') as Hsame.
    { intros o'. unfold same_locator, key. cbn. by rewrite json_object_twice. }
    split_and!.
    + apply (put_frames _ _ _ _ Hp). intros Hv'. by apply absent_no_conflicts.
    + unfold r'. cbn. by rewrite json_object_twice.
    + rewrite (proj1 Hp). apply elem_of_app. right. by apply list_elem_of_singleton.
    + intros o' Ho' Hko. rewrite Hsame in Hko. apply not_true_iff_false in Hno. destruct Hno. apply existsb_exists.
      exists o'. split; [by apply list_elem_of_In|done].
    + intros o' Ho' _. rewrite (proj1 Hp). apply elem_of_app. by left.
Qed.

(** ** The commit *)
Lemma merge_canonical mount inner : mergeMountAndInnerPath mount inner = "" \/ canonical (mergeMountAndInnerPath mount inner).
Proof.
  unfold mergeMountAndInnerPath. destruct (normalizeMountPath mount) as [m|] eqn:Em; [|by left].
  destruct (normalizeVirtualPath inner) as [i|] eqn:Ei; [|by left]. right.
  apply normalizeMountPath_canonical in Em. apply normalize_canonical in Ei.
  destruct (String.eqb_spec i "/"); [done|]. destruct (String.eqb_spec m "/"); [done|].
  destruct Em as (lm & Hm & ->), Ei as (li & Hi & ->). exists (lm ++ li). split; [by rewrite good_segs_app, Hm, Hi|].
  destruct lm as [|a lm]; [done|]. destruct li as [|b li]; [done|].
  change (render ((a :: lm) ++ b :: li)) with (render_tail ((a :: lm) ++ b :: li)). by rewrite render_tail_app.
Qed.
Lemma virtual_parent_canonical req p : metadataCommitVirtualParentPath req = Ok p -> canonical p.
Proof.
  unfold metadataCommitVirtualParentPath. destruct (negb _); [apply normalize_canonical|].
  destruct (mc_Source req) as [source|]; [|done]. cbv zeta.
  assert (forall inner, String.eqb (mergeMountAndInnerPath (src_MountPath source) inner) "" = false ->
            canonical (mergeMountAndInnerPath (src_MountPath source) inner)) as Hm.
  { intros inner E. destruct (merge_canonical (src_MountPath source) inner) as [Hn|?]; [|done]. by rewrite Hn in E. }
  destruct (negb (blank _) && _) eqn:E1.
  { apply andb_true_iff in E1 as [_ E1%negb_true_iff]. intros [= <-]. by apply Hm. }
  destruct (negb (blank (mc_ObjectPath req))); [|done]. destruct (splitParentName _) as [[parent name]|]; [|done].
  destruct (String.eqb (mergeMountAndInnerPath (src_MountPath source) parent) "") eqn:E2; [done|].
  intros [= <-]. by apply Hm.
Qed.

(** What a commit leaves: a live file node below a directory that stands,
    with its object; where there were a node or an object, their IDs. *)
Definition committed (req : MetadataVFSFileObjectCommitRequest) (sourceID : N) (driverType parent locatorType locatorJSON : string)
    (w w' : World) (node : VFSNode) (o : StorageObject) : Prop :=
  vn_Path node = joinVirtualPath parent (mc_Filename req) /\ live node /\ vn_Kind node = VFSNodeKindFile /\
  vn_ObjectID node = Some (so_ID o) /\ vn_SourceID node = Some sourceID /\ vn_Size node = so_Size o /\
  so_SourceID o = sourceID /\ so_DriverType o = driverType /\ so_LocatorType o = locatorType /\
  so_LocatorJSON o = jsonObject locatorJSON /\ so_Size o = Z.max 0 (mc_Size req) /\
  node ∈ nodes w' /\ o ∈ objects w' /\
  (forall y, y ∈ nodes w -> at_path (vn_Path node) y -> vn_ID y = vn_ID node) /\
  (forall o', o' ∈ objects w -> same_locator o o' = true -> so_ID o' = so_ID o) /\
  changed (fun p => isSubPath p (vn_Path node) = true) (nodes w) (nodes w') /\
  (forall o', o' ∈ objects w -> same_locator o o' = false -> o' ∈ objects w').

(** The transaction of a commit. *)
Section Body.
Context (req : MetadataVFSFileObjectCommitRequest) (sourceID : N) (driverType parent locatorType locatorJSON : string).
Context (Hname : good_seg (mc_Filename req) = true) (Hparent : canonical parent) (Hsource : sourceID <> 0%N).

Lemma file_path_spec : let path := joinVirtualPath parent (mc_Filename req) in
  canonical path /\ path <> "/" /\ isSubPath path parent = false /\
  forall p, isSubPath p parent = true -> isSubPath p path = true.
Proof.
  cbv zeta. pose proof (good_plain _ Hname) as Hp. rewrite join_segs by done.
  pose proof Hparent as [Hg E]%canonical_segs.
  assert (good_segs (segs parent ++ [mc_Filename req]) = true) as Hgp by (rewrite good_segs_app, Hg; cbn; by rewrite Hname).
  assert (canonical (render (segs parent ++ [mc_Filename req]))) as Hc by by exists (segs parent ++ [mc_Filename req]).
  split_and!.
  - done.
  - intros Ep. apply (render_inj _ []) in Ep; [by destruct (segs parent)|by apply good_segs_plain|done].
  - apply not_true_is_false. rewrite E at 2. rewrite isSubPath_render by done. intros [k Ek].
    apply (f_equal length) in Ek. rewrite !length_app in Ek. cbn in Ek. lia.
  - intros p Hs. eapply isSubPath_trans; [exact Hs|]. rewrite E at 1. apply isSubPath_render; [done..|]. by eexists.
Qed.

Lemma wp_store_file now p existing w0 w : valid w -> tree (nodes w) -> stands p (nodes w) -> vn_Path p = parent ->
  frames [TNode] w0 w -> changed (fun q => isSubPath q parent = true) (nodes w0) (nodes w) -> objects w = objects w0 ->
  (forall y, existing = Some y -> vn_Kind y = VFSNodeKindFile) ->
  (forall y, y ∈ nodes w -> at_path (joinVirtualPath (vn_Path p) (mc_Filename req)) y ->
     metadataVFSNodeIsDirectory y = true -> False) ->
  wp (object <-! normalized (StorageObjectRepository_UpsertByLocator
                               (commit_object req sourceID driverType locatorType locatorJSON now)) ;;
      node <-! normalized (VFSNodeRepository_UpsertByPath
                             (commit_node req sourceID p (joinVirtualPath (vn_Path p) (mc_Filename req)) object existing now)) ;;
      ret {| cr_Node := Some node; cr_Object := Some object |})
     (fun res w' => frames [TNode; TObject] w0 w' /\ tree (nodes w') /\
        match res with
        | Ok r => exists node o, r = {| cr_Node := Some node; cr_Object := Some o |} /\
            committed req sourceID driverType parent locatorType locatorJSON w0 w' node o
        | Err _ => True
        end) w.
Proof.
  intros Hv Ht Hst Ep Hf Hch Hobj Hex Hfile. rewrite Ep in Hfile |- *.
  destruct file_path_spec as (Hc & Hnr & Hout & Hin). set (path := joinVirtualPath parent (mc_Filename req)) in *.
  assert (forall w', frames [TNode] w0 w' -> frames [TNode; TObject] w0 w') as Hwide by (intros w' F; eapply frames_mono; [exact F|set_solver]).
  assert (forall w', frames [TObject] w w' -> frames [TNode; TObject] w0 w' /\ tbl TNode w' = tbl TNode w) as Hobjf.
  { intros w' F. split; [eapply frames_trans; [by apply Hwide|eapply frames_mono; [exact F|set_solver]]|apply (frames_tbl _ _ _ _ F); set_solver]. }
  apply wp_bind, wp_map_err, wp_upsert_object; [done|..].
  { intros e w1 Hor. assert (frames [TObject] w w1) as F by (destruct Hor as [Hs|(o & F & _)]; [by apply same_frames|exact F]).
    destruct (Hobjf w1 F) as [? ->]. by split. }
  intros o w1 (F1 & Ho & Hoin & Hoid & Horest). destruct (Hobjf w1 F1) as [F01 Et1].
  set (node := commit_node req sourceID p path o existing now).
  assert (vn_Path node = path /\ vn_Kind node = VFSNodeKindFile /\ vn_ParentID node = Some (vn_ID p) /\ vn_Name node = mc_Filename req /\
          vn_ObjectID node = Some (so_ID o) /\ vn_SourceID node = Some sourceID /\ vn_Size node = so_Size o) as (Hpa & Hki & Hpar & Hna & Hob & Hso & Hsz).
  { unfold node, commit_node, uintPtr. apply N.eqb_neq in Hsource. destruct existing; cbn; by rewrite Hsource. }
  assert (forall x w', wrote node x w1 w' -> kept (fun q => q = path) w1 w' /\ x ∈ nodes w' /\ live x /\ vn_Path x = vn_Path node) as Hstep.
  { intros x w' Hw. apply (kept_write (fun q => q = path)); [by rewrite Et1|by rewrite Hpa|done| | |done].
    - right. split; [by rewrite Hki|]. destruct Hst as (c & Hcin & Lc & Dc & Eid & Ec). exists c. rewrite Et1. split_and!; [done..|].
      unfold child_of. rewrite Hpar, Hna, Hpa, Eid, Ec, Ep. split_and!; [done|by apply good_plain|done].
    - intros y Hy Ha Hd. rewrite Et1 in Hy. rewrite Hpa in Ha. exfalso. by apply (Hfile y). }
  assert (forall w', frames [TNode] w1 w' -> frames [TNode; TObject] w0 w') as Hlast.
  { intros w' F. eapply frames_trans; [exact F01|]. eapply frames_mono; [exact F|set_solver]. }
  apply wp_bind, wp_map_err, wp_upsert_node; [by apply F1|..].
  - intros e w2 [Hs|[x Hw]]; (split; [|split]); [apply Hlast; by apply same_frames|by rewrite (proj1 Hs), Et1|done|..|done].
    + apply Hlast, Hw.
    + by apply (Hstep x).
  - intros x w2 Hw. destruct (Hstep x w2 Hw) as ((F2 & T2 & C2) & Hx & Lx & Epx). pose proof Hw as (_ & Hrow & _ & Hid).
    apply wp_ret. split; [by apply Hlast|]. split; [done|]. exists x, o. split; [done|].
    assert (objects w2 = objects w1) as Eo by (apply (frames_tbl _ _ _ _ F2); set_solver).
    rewrite Hpa in Epx. unfold committed. rewrite Epx, Eo, <- Hobj.
    assert (forall y, y ∈ nodes w0 -> at_path path y -> y ∈ nodes w) as Hback.
    { intros y Hy [Ly Ey]. destruct (proj2 Hch y Hy) as [?|[_ Hbad]]; [done|]. by rewrite Ey, Hout in Hbad. }
    split_and!; [done|done|by rewrite Hrow|by rewrite Hrow|by rewrite Hrow|by rewrite Hrow|by rewrite Ho..| |done|done| |done| |done].
    + rewrite Ho. cbn. unfold metadataCommitSize. destruct (Z.ltb_spec (mc_Size req) 0); lia.
    + intros y Hy Ha. rewrite <- (Hid y); [done|rewrite Et1; by apply Hback|by rewrite Epx].
    + eapply changed_trans; [eapply changed_mono; [|exact Hch]; exact Hin|]. rewrite <- Et1.
      eapply changed_mono; [|exact C2]. intros q ->. by apply isSubPath_refl.
Qed.

(** What a commit may do: nothing that is seen, when it fails within a
    transaction. *)
Definition commit_post (w : World) (res : result GoErr MetadataVFSFileObjectCommitResult) (w' : World) : Prop :=
  frames [TNode; TObject] w w' /\ tree (nodes w') /\
  match res with
  | Ok r => exists node o, r = {| cr_Node := Some node; cr_Object := Some o |} /\
      committed req sourceID driverType parent locatorType locatorJSON w w' node o
  | Err _ => True
  end.
Lemma wp_commit_body w : valid w -> tree (nodes w) ->
  wp (now <-! time_now ;;
      p <-! ensureCommitParentPath (mc_Source req) sourceID parent now (mc_ActorID req) ;;
      let filePath := joinVirtualPath (vn_Path p) (mc_Filename req) in
      let store existing :=
        object <-! normalized (StorageObjectRepository_UpsertByLocator
                                 (commit_object req sourceID driverType locatorType locatorJSON now)) ;;
        node <-! normalized (VFSNodeRepository_UpsertByPath (commit_node req sourceID p filePath object existing now)) ;;
        ret {| cr_Node := Some node; cr_Object := Some object |} in
      existing <-! VFSNodeRepository_FindByPath filePath or err =>
        (if negb (err_is err ErrNotFound) then throw (normalizeMetadataVFSError err) else store None) ;;
      if negb (String.eqb (vn_Kind existing) VFSNodeKindFile) then throw ErrNameConflict
      else store (Some existing)) (commit_post w) w.
Proof.
  intros Hv Ht. apply wp_bind, wp_time_now. set (w0 := { w with w_reads ::= S }).
  assert (frames [] w w0) as F0 by apply tick_frames.
  assert (forall w1, frames [TNode] w0 w1 -> frames [TNode] w w1) as Hfrom.
  { intros w1 F. eapply frames_trans; [eapply frames_mono; [exact F0|set_solver]|exact F]. }
  assert (forall w1 (e : GoErr), frames [TNode] w0 w1 -> tree (nodes w1) -> commit_post w (Err e) w1) as Hfail.
  { intros w1 e F T. split; [eapply frames_mono; [by apply Hfrom|set_solver]|by split]. }
  apply wp_bind, wp_parent_path; [by apply F0|done|done| |].
  - intros e w1 (F & T & _). by apply Hfail.
  - intros p w1 (F & T & C) Hst Ep. cbv zeta. assert (valid w1) as Hv1 by by apply F, F0.
    assert (forall w2 existing, same w1 w2 -> (forall y, existing = Some y -> vn_Kind y = VFSNodeKindFile) ->
              (forall y, y ∈ nodes w1 -> at_path (joinVirtualPath (vn_Path p) (mc_Filename req)) y -> Some y = existing) ->
              wp (object <-! normalized (StorageObjectRepository_UpsertByLocator
                               (commit_object req sourceID driverType locatorType locatorJSON (the_time w))) ;;
                  node <-! normalized (VFSNodeRepository_UpsertByPath
                             (commit_node req sourceID p (joinVirtualPath (vn_Path p) (mc_Filename req)) object existing (the_time w))) ;;
                  ret {| cr_Node := Some node; cr_Object := Some object |}) (commit_post w) w2) as Hstore.
    { intros w2 existing Hs Hk Hone. assert (nodes w2 = nodes w1) as En by apply Hs.
      assert (frames [TNode] w w2) as F2 by (apply Hfrom; by eapply frames_same).
      apply wp_store_file; rewrite ?En; [by eapply same_valid|done|done|done|done|done| |done|].
      - apply (frames_tbl _ _ _ _ F2). set_solver.
      - intros y Hy Ha Hd. specialize (Hk y (eq_sym (Hone y Hy Ha))). unfold metadataVFSNodeIsDirectory in Hd. by rewrite Hk in Hd. }
    apply wp_bind_or, wp_find_path.
    + intros e w2 Hs Hd. rewrite (db_error_is_not_found _ Hd). apply wp_throw, Hfail; [by eapply frames_same|by rewrite (proj1 Hs)].
    + intros w2 Hs Hno. apply Hstore; [done|done|]. intros y Hy Ha. by destruct (Hno y).
    + intros y w2 Hs Hy Ha. destruct (String.eqb_spec (vn_Kind y) VFSNodeKindFile) as [Ek|Ek]; cbn [negb].
      * apply Hstore; [done|by intros ? [= <-]|]. intros z Hz Haz. f_equal. by eapply at_path_unique.
      * apply wp_throw, Hfail; [by eapply frames_same|by rewrite (proj1 Hs)].
Qed.
End Body.

Lemma snapshot_source req sourceID driverType : metadataCommitSourceSnapshot req = Ok (sourceID, driverType) -> sourceID <> 0%N.
Proof.
  unfold metadataCommitSourceSnapshot. cbv zeta.
  lazymatch goal with |- context [let '(_, _) := ?x in _] => destruct x as [a b] end.
  destruct (N.eqb_spec a 0) as [|Ha]; cbn [orb]; [done|]. destruct (String.eqb b ""); [done|]. by intros [= <- <-].
Qed.
Lemma wp_commit_tx {A} (fn : M GoErr World A) (Q : result GoErr A -> World -> Prop) w : valid w -> tree (nodes w) ->
  wp fn (fun res w1 => frames [TNode; TObject] w w1 /\ tree (nodes w1) /\
    match res with
    | Ok a => forall w2, same w1 w2 -> Q (Ok a) w2
    | Err e => cs_transactor s = false -> Q (Err e) w1
    end) w ->
  (forall e w2, cs_transactor s = true -> (forall t, tbl t w2 = tbl t w) -> Q (Err e) w2) ->
  wp (withinCommitTx s fn) Q w.
Proof.
  intros Hv Ht Hfn Hback. unfold withinCommitTx. destruct (cs_transactor s) eqn:Etx.
  - apply wp_transaction; [apply normalize_db_error|]. eapply wp_mono; [exact Hfn|].
    intros [a|e] w1 (_ & _ & Hq); [|intros w2 E _ _; by apply Hback]. split; [exact Hq|]. intros e w2 E _ _ _. by apply Hback.
  - eapply wp_mono; [exact Hfn|]. intros [a|e] w1 (_ & _ & Hq); [by apply Hq, same_refl|by apply Hq].
Qed.
Lemma committed_same req sourceID driverType parent locatorType locatorJSON w w1 w2 node o : same w1 w2 ->
  committed req sourceID driverType parent locatorType locatorJSON w w1 node o ->
  committed req sourceID driverType parent locatorType locatorJSON w w2 node o.
Proof. intros Hs. unfold committed. by rewrite !(proj1 Hs). Qed.

(** C15: a commit of a file whose name is that of an element of a path (no
    separator and no ".." in it) either fails, and within a transaction
    changes nothing, or leaves what was asked for: the tree holds, at the
    path of the file, a live file node with the object at its locator, of the
    size and source that were given.  Only nodes at that path and at the
    paths above it have changed, and no other object; a node or an object
    that was there keeps its ID.  Whatever happens, the nodes form a tree. *)
Theorem commit_effect req w (Hv : valid w) (Ht : tree (nodes w)) (Hname : good_seg (mc_Filename req) = true) :
  let '(res, w') := MetadataVFSCommitService_CommitFileObject s req w in
  valid w' /\ tree (nodes w') /\
  match res with
  | Err _ => cs_transactor s = true -> nodes w' = nodes w /\ objects w' = objects w
  | Ok res => exists node o sourceID driverType parent inner path locatorType locatorJSON,
      res = Some {| cr_Node := Some node; cr_Object := Some o |} /\
      metadataCommitSourceSnapshot req = Ok (sourceID, driverType) /\ metadataCommitVirtualParentPath req = Ok parent /\
      metadataCommitInnerParentPath req parent = Ok inner /\ metadataCommitObjectPath req inner = Ok path /\
      metadataCommitLocator req driverType path = Ok (locatorType, locatorJSON) /\
      committed req sourceID driverType parent locatorType locatorJSON w w' node o
  end.
Proof.
  apply run_wp. unfold MetadataVFSCommitService_CommitFileObject. destruct (_ || _); [by split_and!|].
  apply wp_bind, wp_lift_result. destruct (validateFileName _) as [[]|e]; [|by split_and!].
  apply wp_bind, wp_lift_result. destruct (metadataCommitSourceSnapshot req) as [[sourceID driverType]|e] eqn:Es; [|by split_and!].
  apply wp_bind, wp_lift_result. destruct (metadataCommitVirtualParentPath req) as [parent|e] eqn:Ep; [|by split_and!].
  apply wp_bind, wp_lift_result. destruct (metadataCommitInnerParentPath req parent) as [inner|e] eqn:Ei; [|by split_and!].
  apply wp_bind, wp_lift_result. destruct (metadataCommitObjectPath req inner) as [path|e] eqn:Eo; [|by split_and!].
  apply wp_bind, wp_lift_result. destruct (metadataCommitLocator req driverType path) as [[locatorType locatorJSON]|e] eqn:El; [|by split_and!].
  apply wp_bind, wp_commit_tx; [done|done|eapply wp_mono|].
  - apply (wp_commit_body req sourceID driverType parent locatorType locatorJSON Hname);
      [by eapply virtual_parent_canonical|by eapply snapshot_source|done|done].
  - intros res w1 (Hf & Ht1 & Hr). split; [done|]. split; [done|]. destruct res as [r|e].
    + intros w2 Hs. destruct Hr as (node & o & -> & Hc). apply wp_ret. split; [by eapply same_valid; [|apply Hf]|].
      split; [by rewrite (proj1 Hs)|]. exists node, o, sourceID, driverType, parent, inner, path, locatorType, locatorJSON.
      split_and!; [done..|]. by eapply committed_same.
    + intros Htx. split; [by apply Hf|]. split; [done|]. by rewrite Htx.
  - intros e w2 _ E. split; [intros t; rewrite E; apply Hv|]. split; [by rewrite E|]. intros _. by rewrite !E.
Qed.

(** ** The laws uploads rely on *)
#[local] Arguments VFSNodeRepository_FindByPath : simpl never.
Lemma within_upsert_path ts node : TNode ∈ ts -> within ts (VFSNodeRepository_UpsertByPath node).
Proof. intros Ht. unfold VFSNodeRepository_UpsertByPath, VFSNodeRepository_FindByPath. frame_tac. Qed.
Lemma within_ensure_directories source sourceID now actor segments : forall current,
  within [TNode; TObject] (ensure_directories source sourceID now actor current segments).
Proof.
  induction segments as [|x rest IH]; intros current; cbn [ensure_directories]; [apply within_ret|].
  destruct (String.eqb x ""); [apply IH|]. apply within_bind; [|intros ?; apply IH].
  unfold ensure_directory, normalized, VFSNodeRepository_FindByPath, VFSNodeRepository_Update. cbv zeta.
  frame_tac. apply within_upsert_path. set_solver.
Qed.
Lemma within_commit req : within [TNode; TObject] (MetadataVFSCommitService_CommitFileObject s req).
Proof.
  unfold MetadataVFSCommitService_CommitFileObject. cbv zeta.
  assert (forall existing sid dt lt lj now p path, within [TNode; TObject]
    (object <-! normalized (StorageObjectRepository_UpsertByLocator (commit_object req sid dt lt lj now)) ;;
     node <-! normalized (VFSNodeRepository_UpsertByPath (commit_node req sid p path object existing now)) ;;
     ret {| cr_Node := Some node; cr_Object := Some object |})) as Hstore.
  { intros. unfold normalized, StorageObjectRepository_UpsertByLocator, StorageObjectRepository_FindByLocator. cbv zeta.
    frame_tac. apply within_upsert_path. set_solver. }
  repeat frame_step.
  match goal with |- within _ (withinCommitTx s ?m) => assert (within [TNode; TObject] m) as Hm end.
  { repeat first [apply Hstore | frame_step]; unfold ensureCommitParentPath, ensureCommitRoot, VFSNodeRepository_FindByPath, normalized.
    all: repeat first [apply within_ensure_directories | apply within_upsert_path; set_solver | frame_step]. }
  unfold withinCommitTx. destruct (cs_transactor s); [by apply within_transaction; [apply normalize_db_error|]|exact Hm].
Qed.
End Commits.

(** The service as what uploads commit through. *)
#[export] Instance MetadataVFSCommitService_committer `{Database} `{JV : JsonValueDecoder} `{MT : MimeTypes}
    (s : MetadataVFSCommitService) : MetadataVFSCommitter := MetadataVFSCommitService_CommitFileObject s.
#[export] Instance MetadataVFSCommitService_laws `{DatabaseLaws} `{JV : JsonValueDecoder} `{MT : MimeTypes}
    (s : MetadataVFSCommitService) : @MetadataVFSCommitterLaws _ (MetadataVFSCommitService_committer s).
Proof. intros req. apply within_commit. Qed.

(** ** A concrete commit *)
#[local] Existing Instances Mem.database Mem.laws UploadExample.mime_types.
Module CommitExample.
#[export] Instance values : JsonValueDecoder := fun _ => None.
Definition service : MetadataVFSCommitService := {| cs_nodeRepo := true; cs_objectRepo := true; cs_transactor := true |}.
Definition node (id parent : N) (name path kind : string) (source : option N) : VFSNode :=
  { zero_node with vn_ID := id; vn_ParentID := nullableUint parent; vn_Name := name; vn_Path := path; vn_Kind := kind;
    vn_SourceID := source; vn_SyncState := VFSNodeSyncStateIndexed }.
(** One source is mounted at ["/m"], another below it at ["/m/in"]. *)
Definition mounted : list VFSNode :=
  [node 1 0 "" "/" VFSNodeKindRoot None; node 2 1 "m" "/m" VFSNodeKindMount (Some 1%N)].
Definition world : World := mem_world (Mem.set_rows TNode mounted { Mem.init with Mem.m_serial := 9%N }).
Definition inner : StorageSource := { StorageExample.source with src_ID := 2%N; src_MountPath := "/m/in" }.
Definition request (source : StorageSource) : MetadataVFSFileObjectCommitRequest :=
  {| mc_Source := Some source; mc_SourceID := 0; mc_DriverType := ""; mc_VirtualParentPath := src_MountPath source +:+ "/d";
     mc_ResolvedInnerParentPath := ""; mc_Filename := "f.txt"; mc_ObjectPath := ""; mc_LocatorType := ""; mc_LocatorJSON := "";
     mc_Size := 5; mc_MimeType := ""; mc_ETag := "e"; mc_Checksum := ""; mc_ActorID := Some 3%N |}.
Notation commit_run source := (MetadataVFSCommitService_CommitFileObject service (request source) world) (only parsing).

Lemma mounted_valid : valid world.
Proof. intros []; reflexivity. Qed.
Lemma mounted_nodes : tbl TNode world = mounted.
Proof. vm_compute. reflexivity. Qed.
Lemma mounted_tree : tree (tbl TNode world).
Proof.
  rewrite mounted_nodes. intros n Hn _. unfold mounted in Hn. rewrite !elem_of_cons, elem_of_nil in Hn.
  destruct Hn as [->|[->|[]]].
  - split; [by exists []|]. left. by split_and!.
  - split; [by exists ["m"]|]. right. split; [done|]. exists (node 1 0 "" "/" VFSNodeKindRoot None).
    split; [left|]. by split_and!.
Qed.
Definition listing (w : World) : list (string * string * option N) :=
  map (fun n => (vn_Path n, vn_Kind n, vn_SourceID n)) (tbl TNode w).
End CommitExample.
Import CommitExample.

Lemma commit_effect_witness :
  is_ok (fst (commit_run StorageExample.source)) = true /\
  exists node o, node ∈ tbl TNode (snd (commit_run StorageExample.source)) /\ vn_Path node = "/m/d/f.txt" /\
    o ∈ tbl TObject (snd (commit_run StorageExample.source)) /\ so_LocatorJSON o = jsonObject ("{" +:+ quote "path" +:+ ":" +:+ quote "/d/f.txt" +:+ "}").
Proof.
  assert (is_ok (fst (commit_run StorageExample.source)) = true) as Hok by (vm_compute; reflexivity). split; [exact Hok|].
  pose proof (commit_effect service (request StorageExample.source) world mounted_valid mounted_tree eq_refl) as H.
  destruct (commit_run StorageExample.source) as [[res|e] w']; [|discriminate Hok]. destruct H as (_ & _ & H).
  destruct H as (n & o & sid & dt & parent & inn & path & lt & lj & _ & Es & Ep & Ei & Eo & El & Hc).
  injection Ep as <-. injection Ei as <-. injection Eo as <-. injection Es as <- <-. injection El as <- <-.
  destruct Hc as (Epath & _ & _ & _ & _ & _ & _ & _ & _ & Ej & _ & Hn & Ho & _).
  exists n, o. split; [exact Hn|]. split; [exact Epath|]. split; [exact Ho|exact Ej].
Defined.

(** A commit to a source that is mounted below another one takes the node of
    the outer mount for a directory on the way, and makes it one that
    belongs to no source. *)
Theorem nested_commit_unmounts :
  listing world = [("/", VFSNodeKindRoot, None); ("/m", VFSNodeKindMount, Some 1%N)] /\
  listing (snd (commit_run inner)) =
    [("/", VFSNodeKindRoot, None); ("/m", VFSNodeKindVirtualDir, None); ("/m/in", VFSNodeKindMount, Some 2%N);
     ("/m/in/d", VFSNodeKindDir, Some 2%N); ("/m/in/d/f.txt", VFSNodeKindFile, Some 2%N)].
Proof. split; vm_compute; reflexivity. Qed.
