(* ===== verification/MountSync.v ===== *)
(** * Mounts in the metadata tree ([metadata_vfs_mount_service.go])

    The mount of a storage source is a row of the table of mounts and a node
    of the metadata tree, with directories that lead to it.  The service
    makes them agree with the source, one transaction per source, and
    switches off the mounts the source had before. *)
From S2P Require Import Prelude Ints GoStrings Entities Paths Mounts Tables Db Auditing Repos MetaRepos MetaTree Commits.
From stdpp Require Import base list strings.
From Stdlib Require Import ZArith Lia Ascii.

Local Open Scope string_scope.
Local Open Scope list_scope.
Local Open Scope go_scope.

(** ** [VFSMountRepository] of [vfs_metadata_repo_impl.go] *)
Record VFSMountListFilter := {
  mlf_SourceID : N; mlf_Enabled : option bool; mlf_Mode : string; mlf_PathPrefix : string; mlf_IncludeHidden : bool
}.

Section Repository.
Context `{Database}.
Definition vfsMountModelFromEntity (mount : VFSMount) : VFSMount := { mount with vm_RootLocatorJSON ::= jsonObject }.
Definition mount_by_id : Order VFSMount := ord_asc (fun m => Z.of_N (vm_ID m)).

Definition VFSMountRepository_Create (mount : VFSMount) : M GoErr World VFSMount :=
  stmt (db_insert TMount (vfsMountModelFromEntity mount)).

(** [Select("*").Omit("ID", "CreatedAt").Updates(model)]. *)
Definition mount_columns (mount m : VFSMount) : VFSMount :=
  { (vfsMountModelFromEntity mount) with vm_ID := vm_ID m; vm_CreatedAt := vm_CreatedAt m }.
Definition VFSMountRepository_Update (mount : VFSMount) : M GoErr World unit :=
  must_affect (stmt (db_update TMount (fun m => N.eqb (vm_ID m) (vm_ID mount)) (mount_columns mount))).

Definition VFSMountRepository_Delete (id : N) : M GoErr World unit :=
  must_affect (stmt (db_delete TMount (fun m => N.eqb (vm_ID m) id))).

Definition VFSMountRepository_FindByID (id : N) : M GoErr World VFSMount :=
  first TMount (fun m => N.eqb (vm_ID m) id) mount_by_id.
Definition VFSMountRepository_FindByNodeID (nodeID : N) : M GoErr World VFSMount :=
  first TMount (fun m => N.eqb (vm_NodeID m) nodeID) mount_by_id.
Definition VFSMountRepository_FindByMountPath (mountPath : string) : M GoErr World VFSMount :=
  first TMount (fun m => String.eqb (vm_MountPath m) mountPath) mount_by_id.

Definition mount_filter (filter : VFSMountListFilter) (m : VFSMount) : bool :=
  (N.eqb (mlf_SourceID filter) 0 || N.eqb (vm_SourceID m) (mlf_SourceID filter)) &&
  match mlf_Enabled filter with None => true | Some enabled => Bool.eqb (vm_IsEnabled m) enabled end &&
  (String.eqb (mlf_Mode filter) "" || String.eqb (vm_Mode m) (mlf_Mode filter)) &&
  (String.eqb (mlf_PathPrefix filter) "" ||
   (let prefix := normalizeVFSPathPrefix (mlf_PathPrefix filter) in
    String.eqb (vm_MountPath m) prefix || db_like (pathChildrenLikePattern prefix) (vm_MountPath m))) &&
  (mlf_IncludeHidden filter || negb (String.eqb (vm_MountPath m) "")).
Definition VFSMountRepository_List (filter : VFSMountListFilter) : M GoErr World (list VFSMount) :=
  stmt (db_select TMount (mount_filter filter) (ord_then (ord_asc vm_SortOrder) mount_by_id) None).

Definition mount_upsert_columns (new old : VFSMount) : VFSMount :=
  { new with vm_ID := vm_ID old; vm_MountPath := vm_MountPath old; vm_CreatedAt := vm_CreatedAt old }.
Definition VFSMountRepository_UpsertByMountPath (mount : VFSMount) : M GoErr World VFSMount :=
  do! stmt (db_upsert TMount (fun m => String.eqb (vm_MountPath m) (vm_MountPath mount))
        (fun _ => mount_upsert_columns) (vfsMountModelFromEntity mount)) ;;
  VFSMountRepository_FindByMountPath (vm_MountPath mount).
End Repository.

(** ** The service *)
Definition VFSMountModeMirror := "mirror".

Record MetadataVFSMountService := { ms_nodeRepo : bool; ms_mountRepo : bool; ms_sourceRepo : bool; ms_transactor : bool }.

Record MetadataVFSMountSyncResult := {
  msr_SourceID : N; msr_MountPath : string; msr_Node : VFSNode; msr_Mount : VFSMount; msr_DisabledMountIDs : list N
}.
(** The error is kept as it is, and not as its text. *)
Record MetadataVFSMountSyncAllError := { mse_SourceID : N; mse_MountPath : string; mse_Error : GoErr }.
Record MetadataVFSMountSyncAllResult := { msa_Synced : Z; msa_Failed : Z; msa_Errors : list MetadataVFSMountSyncAllError }.
#[export] Instance eta_MetadataVFSMountSyncAllResult : Eta MetadataVFSMountSyncAllResult := fun r =>
  {| msa_Synced := msa_Synced r; msa_Failed := msa_Failed r; msa_Errors := msa_Errors r |}.

(** [json.Unmarshal] into a map: the members, with distinct keys, of the
    object a text denotes; none for null. *)
Class JsonMapDecoder := json_map : string -> option (list (string * Json)).

(** *** The locator of the root of a source *)
Definition metadataVFSMountConfigRootKey (key : string) : bool :=
  let normalized := locator_key key in
  existsb (String.eqb normalized)
    ["root"; "root_path"; "root_id"; "root_folder_id"; "root_folder_name"; "folder_id"; "parent_id"; "bucket";
     "base_prefix"; "prefix"; "base_path"] ||
  contains normalized "root" || has_suffix normalized "_prefix".
Definition config_root_member (member : string * Json) : list (string * Json) :=
  let '(key, value) := member in
  if metadataCommitLocatorKeyIsSensitive key || negb (metadataVFSMountConfigRootKey key) then []
  else if metadataCommitLocatorKeyIsPhysical key then [(key, JStr "[redacted]")]
  else [(key, metadataCommitSanitizeLocatorValue value)].
Definition metadataVFSMountConfigRootSnapshot `{JsonMapDecoder} (rawConfigJSON : string) : list (string * Json) :=
  match json_map (trim_space rawConfigJSON) with
  | None => []
  | Some config => flat_map config_root_member config
  end.
Definition metadataVFSMountRootLocatorJSON `{JsonMapDecoder} (source : StorageSource) (mountPath rootPath : string) : string :=
  let configRoot := metadataVFSMountConfigRootSnapshot (src_ConfigJSON source) in
  metadataCommitMarshalLocatorJSON (JObj
    ([("source_id", JUint (src_ID source)); ("driver_type", JStr (src_DriverType source));
      ("mount_path", JStr mountPath); ("source_root_path", JStr rootPath)] ++
     match configRoot with [] => [] | _ => [("config_root", JObj configRoot)] end)).

Definition metadataVFSMountNodeNeedsUpdate (existing : VFSNode) (parentID : N) (name kind : string)
    (sourceID : option N) : bool :=
  match vn_ParentID existing with None => true | Some id => negb (N.eqb id parentID) end ||
  negb (String.eqb (vn_Name existing) name) || negb (String.eqb (vn_Kind existing) kind) ||
  negb (sameUintPtr (vn_SourceID existing) sourceID) ||
  negb (String.eqb (vn_SyncState existing) VFSNodeSyncStateIndexed).

Section Service.
Context `{Database} `{JM : JsonMapDecoder} (s : MetadataVFSMountService).

Definition withinMountTx {A} (fn : M GoErr World A) : M GoErr World A :=
  if ms_transactor s then WithinTx fn else fn.

(** *** Nodes *)
Definition mount_root (now : Z) : VFSNode :=
  { zero_node with vn_Path := "/"; vn_Kind := VFSNodeKindRoot; vn_SyncState := VFSNodeSyncStateIndexed;
    vn_CreatedAt := now; vn_UpdatedAt := now; vn_IndexedAt := Some now }.
Definition ensureMountRoot (now : Z) : M GoErr World VFSNode :=
  existing <-! VFSNodeRepository_FindByPath "/" or err =>
    (if negb (err_is err ErrNotFound) then throw (normalizeMetadataVFSError err)
     else normalized (VFSNodeRepository_UpsertByPath (mount_root now))) ;;
  ret existing.

Definition ensureMountPathReusable (sourceID : N) (mountPath : string) : M GoErr World unit :=
  existing <-! VFSMountRepository_FindByMountPath mountPath or err =>
    (if err_is err ErrNotFound then ret tt else throw (normalizeMetadataVFSError err)) ;;
  if negb (N.eqb (vm_SourceID existing) sourceID) && vm_IsEnabled existing then throw ErrSourceMountPathConflict
  else ret tt.

Definition mountNodeReusableForSource (nodeID sourceID : N) : M GoErr World bool :=
  if negb (ms_mountRepo s) || N.eqb nodeID 0 then ret true
  else
    mount <-! VFSMountRepository_FindByNodeID nodeID or err =>
      (if err_is err ErrNotFound then ret true else throw (normalizeMetadataVFSError err)) ;;
    ret (N.eqb (vm_SourceID mount) sourceID || negb (vm_IsEnabled mount)).

Definition indexed (now : Z) (node : VFSNode) : VFSNode :=
  { node with vn_SyncState := VFSNodeSyncStateIndexed; vn_UpdatedAt := now;
    vn_IndexedAt ::= fun at_ => match at_ with None => Some now | Some t => Some t end }.

(** The node [segment] of [current] on the way to the mount of a source:
    the mount itself, if [desiredSourceID] is given. *)
Definition desired_kind (desiredSourceID : option N) : string :=
  match desiredSourceID with Some _ => VFSNodeKindMount | None => VFSNodeKindVirtualDir end.
Definition mount_put_right (existing current : VFSNode) (segment : string) (desiredSourceID : option N) (now : Z) : VFSNode :=
  indexed now { existing with vn_ParentID := Some (vn_ID current); vn_Name := segment; vn_Kind := desired_kind desiredSourceID;
    vn_SourceID := desiredSourceID; vn_MimeType := "inode/directory" }.
Definition mount_new_node (current : VFSNode) (segment path : string) (desiredSourceID : option N) (now : Z) : VFSNode :=
  { zero_node with vn_ParentID := Some (vn_ID current); vn_Name := segment; vn_Path := path;
    vn_Kind := desired_kind desiredSourceID; vn_SourceID := desiredSourceID; vn_MimeType := "inode/directory";
    vn_SyncState := VFSNodeSyncStateIndexed; vn_CreatedAt := now; vn_UpdatedAt := now; vn_IndexedAt := Some now;
    vn_LastSeenAt := Some now }.
(** Whether another source holds the node. *)
Definition held (existing : VFSNode) (desiredSourceID : option N) : M GoErr World bool :=
  match vn_SourceID existing, desiredSourceID with
  | Some have, Some want =>
      if String.eqb (vn_Kind existing) VFSNodeKindMount && negb (N.eqb have want) then
        reusable <-! mountNodeReusableForSource (vn_ID existing) want ;;
        ret (negb reusable)
      else ret false
  | _, _ => ret false
  end.
Definition ensure_mount_node (desiredSourceID : option N) (now : Z) (current : VFSNode) (segment : string)
    : M GoErr World VFSNode :=
  let currentPath := joinVirtualPath (vn_Path current) segment in
  existing <-! VFSNodeRepository_FindByPath currentPath or err =>
    (if negb (err_is err ErrNotFound) then throw (normalizeMetadataVFSError err)
     else normalized (VFSNodeRepository_Create (mount_new_node current segment currentPath desiredSourceID now))) ;;
  if negb (metadataVFSNodeIsDirectory existing) then throw ErrNameConflict
  else
    taken <-! held existing desiredSourceID ;;
    if taken then throw ErrSourceMountPathConflict
    else if metadataVFSMountNodeNeedsUpdate existing (vn_ID current) segment (desired_kind desiredSourceID) desiredSourceID then
      let existing := mount_put_right existing current segment desiredSourceID now in
      do! normalized (VFSNodeRepository_Update existing) ;;
      ret existing
    else ret existing.
(** The loop over the segments; the last one is the mount. *)
Fixpoint ensure_mount_nodes (sourceID : N) (now : Z) (current : VFSNode) (segments : list string) : M GoErr World VFSNode :=
  match segments with
  | [] => ret current
  | segment :: rest =>
      if String.eqb segment "" then ensure_mount_nodes sourceID now current rest
      else
        current <-! ensure_mount_node (match rest with [] => Some sourceID | _ => None end) now current segment ;;
        ensure_mount_nodes sourceID now current rest
  end.
Definition ensureSourceMountNode (source : StorageSource) (mountPath : string) (now : Z) : M GoErr World VFSNode :=
  root <-! ensureMountRoot now ;;
  if String.eqb mountPath "/" then
    let root := indexed now { root with vn_SourceID := Some (src_ID source) } in
    do! normalized (VFSNodeRepository_Update root) ;;
    ret root
  else ensure_mount_nodes (src_ID source) now root (split_on slash (trim_prefix mountPath "/")).

(** *** Mounts *)
Definition markMountNodeStale (nodeID : N) (now : Z) : M GoErr World unit :=
  if negb (ms_nodeRepo s) || N.eqb nodeID 0 then ret tt
  else
    node <-! VFSNodeRepository_FindByID nodeID or err =>
      (if err_is err ErrNotFound then ret tt else throw (normalizeMetadataVFSError err)) ;;
    if vn_IsDeleted node then ret tt
    else normalized (VFSNodeRepository_Update
           { node with vn_SyncState := VFSNodeSyncStateStale; vn_UpdatedAt := now }).

(** The loop of [disableOtherSourceMounts]. *)
Fixpoint disable_mounts (keepMountPath : string) (now : Z) (mounts : list VFSMount) : M GoErr World (list N) :=
  match mounts with
  | [] => ret []
  | mount :: rest =>
      if String.eqb (vm_MountPath mount) keepMountPath then disable_mounts keepMountPath now rest
      else
        disabled <-! (if vm_IsEnabled mount then
                        do! normalized (VFSMountRepository_Update
                              { mount with vm_IsEnabled := false; vm_UpdatedAt := now }) ;;
                        ret [vm_ID mount]
                      else ret []) ;;
        do! markMountNodeStale (vm_NodeID mount) now ;;
        more <-! disable_mounts keepMountPath now rest ;;
        ret (disabled ++ more)
  end.
Definition disableOtherSourceMounts (sourceID : N) (keepMountPath : string) (now : Z) : M GoErr World (list N) :=
  mounts <-! normalized (VFSMountRepository_List
    {| mlf_SourceID := sourceID; mlf_Enabled := None; mlf_Mode := ""; mlf_PathPrefix := ""; mlf_IncludeHidden := true |}) ;;
  disable_mounts keepMountPath now mounts.

(** The row of a mount, and what its node then says. *)
Definition new_mount (source : StorageSource) (mountNode : VFSNode) (mountPath rootLocatorJSON : string) (now : Z) : VFSMount :=
  {| vm_ID := 0; vm_SourceID := src_ID source; vm_NodeID := vn_ID mountNode; vm_MountPath := mountPath;
     vm_RootLocatorJSON := rootLocatorJSON; vm_Mode := VFSMountModeMirror; vm_IsEnabled := src_IsEnabled source;
     vm_SortOrder := src_SortOrder source; vm_CreatedAt := now; vm_UpdatedAt := now |}.
Definition attach_mount (mountNode : VFSNode) (mount : VFSMount) (now : Z) : M GoErr World VFSNode :=
  if negb (sameUintPtr (vn_MountID mountNode) (Some (vm_ID mount))) ||
     negb (String.eqb (vn_SyncState mountNode) VFSNodeSyncStateIndexed) then
    let mountNode := indexed now { mountNode with vn_MountID := Some (vm_ID mount) } in
    do! normalized (VFSNodeRepository_Update mountNode) ;;
    ret mountNode
  else ret mountNode.

(** The transaction of [SyncSourceMount]. *)
Definition sync_mount (source : StorageSource) (mountPath rootPath : string) : M GoErr World MetadataVFSMountSyncResult :=
  now <-! time_now ;;
  do! ensureMountPathReusable (src_ID source) mountPath ;;
  mountNode <-! ensureSourceMountNode source mountPath now ;;
  let rootLocatorJSON := metadataVFSMountRootLocatorJSON source mountPath rootPath in
  mount <-! normalized (VFSMountRepository_UpsertByMountPath (new_mount source mountNode mountPath rootLocatorJSON now)) ;;
  mountNode <-! attach_mount mountNode mount now ;;
  disabled <-! disableOtherSourceMounts (src_ID source) mountPath now ;;
  ret {| msr_SourceID := src_ID source; msr_MountPath := mountPath; msr_Node := mountNode; msr_Mount := mount;
         msr_DisabledMountIDs := disabled |}.
Definition MetadataVFSMountService_SyncSourceMount (source : option StorageSource) : M GoErr World MetadataVFSMountSyncResult :=
  if negb (ms_nodeRepo s) || negb (ms_mountRepo s) then throw ErrSourceDriverUnsupported
  else match source with
  | None => throw ErrPathInvalid
  | Some source =>
      if N.eqb (src_ID source) 0 then throw ErrPathInvalid
      else
        mountPath <-! lift_result (normalizeMountPath (src_MountPath source)) ;;
        rootPath <-! lift_result (normalizeVirtualPath (src_RootPath source)) ;;
        withinMountTx (sync_mount source mountPath rootPath)
  end.

Definition MetadataVFSMountService_DisableSourceMount (sourceID : N) : M GoErr World unit :=
  if negb (ms_mountRepo s) then throw ErrSourceDriverUnsupported
  else if N.eqb sourceID 0 then throw ErrPathInvalid
  else withinMountTx (
    now <-! time_now ;;
    do! disableOtherSourceMounts sourceID "" now ;;
    ret tt).

(** A source that fails is recorded, and the others go on. *)
Fixpoint sync_all (sources : list StorageSource) (result : MetadataVFSMountSyncAllResult)
    : M GoErr World MetadataVFSMountSyncAllResult :=
  match sources with
  | [] => ret result
  | source :: rest =>
      _done <-! MetadataVFSMountService_SyncSourceMount (Some source) or err =>
        sync_all rest { result with msa_Failed ::= Z.succ;
          msa_Errors ::= fun l => l ++ [{| mse_SourceID := src_ID source; mse_MountPath := src_MountPath source; mse_Error := err |}] } ;;
      sync_all rest { result with msa_Synced ::= Z.succ }
  end.
Definition MetadataVFSMountService_SyncAllSourceMounts : M GoErr World MetadataVFSMountSyncAllResult :=
  if negb (ms_sourceRepo s) then throw ErrSourceDriverUnsupported
  else
    sources <-! SourceRepository_ListAll ;;
    sync_all sources {| msa_Synced := 0; msa_Failed := 0; msa_Errors := [] |}.
End Service.
