(* ===== verification/MountProps.v ===== *)
(** * Mounts: one per source, and none taken from another

    Making the mount of a source right keeps the tree, leaves the mounts of
    other sources that are switched on, and leaves the source with one mount
    that is on, at its mount path. *)
From S2P Require Import Prelude Ints GoStrings Entities Paths Mounts Tables Db Auditing Repos MetaRepos Acl MetaTree MetaTreeSpec Storage Files Uploads Auth Commits CommitProps MountSync.
From stdpp Require Import base list strings sets.
From Stdlib Require Import ZArith Lia Ascii.

Local Open Scope string_scope.
Local Open Scope list_scope.
Local Open Scope go_scope.

Notation live n := (vn_IsDeleted n = false) (only parsing).
#[local] Notation tree := MetaTreeSpec.tree.
#[local] Notation nodes w := (tbl TNode w).
#[local] Notation mounts w := (tbl TMount w).

(** ** Nodes on the way to a mount *)
(** [x] is the row of [r], but for what only the table knows. *)
Definition is_row (r x : VFSNode) : Prop :=
  live x /\ x = { r with vn_CreatedBy := vn_CreatedBy x; vn_CreatedAt := vn_CreatedAt x; vn_UpdatedAt := vn_UpdatedAt x }.
Definition held_as (r : VFSNode) (l : list VFSNode) : Prop := exists x, x ∈ l /\ is_row r x.
Definition mounted_at (sourceID : N) (path : string) (r : VFSNode) : Prop :=
  vn_Path r = path /\ vn_SourceID r = Some sourceID /\ vn_SyncState r = VFSNodeSyncStateIndexed /\
  (path <> "/" -> vn_Kind r = VFSNodeKindMount).

Lemma is_row_refl x : live x -> is_row x x.
Proof. intros Lx. split; [done|by destruct x]. Qed.
Lemma is_row_fields r x : is_row r x ->
  vn_ID x = vn_ID r /\ vn_ParentID x = vn_ParentID r /\ vn_Name x = vn_Name r /\ vn_Path x = vn_Path r /\
  vn_Kind x = vn_Kind r /\ vn_MountID x = vn_MountID r /\ vn_SourceID x = vn_SourceID r /\
  vn_SyncState x = vn_SyncState r /\ live r.
Proof. intros (Lx & E). rewrite E in Lx. destruct x, r; cbn in *. injection E as ->. by split_and!. Qed.
Lemma is_row_wrote node x : vn_ID node = vn_ID x -> live node -> row_of node x -> is_row node x.
Proof.
  intros Ei Ln Hr. split; [by rewrite Hr|]. unfold row_of in Hr. etransitivity; [exact Hr|].
  destruct node; cbn in *. by subst.
Qed.
Lemma held_stands r l : metadataVFSNodeIsDirectory r = true -> held_as r l -> stands r l.
Proof.
  intros Hd (x & Hx & Hr). pose proof Hr as [Lx _]. apply is_row_fields in Hr as (Ei & _ & _ & Ep & Ek & _).
  exists x. split_and!; [done..| |done|done]. unfold metadataVFSNodeIsDirectory in *. by rewrite Ek.
Qed.

Lemma root_is_root l n : tree l -> n ∈ l -> live n -> vn_Path n = "/" -> is_root n.
Proof.
  intros Ht Hn Ln Ep. destruct (Ht n Hn Ln) as [_ [?|(_ & p & Hp & Lp & _ & Hch)]]; [done|].
  exfalso. by apply (child_not_root p n); [apply (Ht p)|..].
Qed.
Lemma root_directory n : is_root n -> metadataVFSNodeIsDirectory n = true.
Proof. intros (_ & _ & Hk). unfold metadataVFSNodeIsDirectory. by rewrite Hk. Qed.
Lemma desired_directory desired n : vn_Kind n = desired_kind desired -> metadataVFSNodeIsDirectory n = true.
Proof. unfold metadataVFSNodeIsDirectory. intros ->. by destruct desired. Qed.
Lemma desired_not_root desired : desired_kind desired <> VFSNodeKindRoot.
Proof. by destruct desired. Qed.

Section Nodes.
Context `{DatabaseLaws} (s : MetadataVFSMountService).

Lemma wp_create_node node (Q : result GoErr VFSNode -> World -> Prop) w : valid w -> live node ->
  (forall e w', same w w' -> Q (Err e) w') -> (forall x w', wrote node x w w' -> is_row x x -> Q (Ok x) w') ->
  wp (VFSNodeRepository_Create node) Q w.
Proof.
  intros Hv Ln He Hk. apply (wp_insert TNode); [by intros e w' Hs _; apply He|].
  intros id now w' r' _ Ha Hp. apply Hk; [|by apply is_row_refl].
  assert (forall n, n ∈ nodes w -> ~ at_path (vn_Path r') n) as Hfree.
  { intros n Hn [L E]. apply forallb_forall with (x := n) in Ha; [|by apply list_elem_of_In]. cbn in Ha.
    unfold VFSNodeModel_conflict in Ha. apply negb_true_iff, orb_false_iff in Ha as [_ Ha]. rewrite L in Ha. cbn in Ha, E.
    by rewrite Ln, E, String.eqb_refl in Ha. }
  split_and!.
  - apply (put_frames _ _ _ _ Hp). intros Hv'. by apply absent_no_conflicts.
  - unfold row_of, r'. destruct node; cbn in *. by subst.
  - rewrite (proj1 Hp). by apply put_snoc.
  - intros y Hy Ha'. by destruct (Hfree y).
Qed.

Lemma wp_ensure_mount_root now (Q : result GoErr VFSNode -> World -> Prop) w : valid w -> tree (nodes w) ->
  (forall e w', kept (fun p => p = "/") w w' -> Q (Err e) w') ->
  (forall r w', kept (fun p => p = "/") w w' -> r ∈ nodes w' -> live r -> is_root r -> Q (Ok r) w') ->
  wp (ensureMountRoot now) Q w.
Proof.
  intros Hv Ht He Hk. apply wp_bind_or, wp_find_path.
  - intros e w1 Hs Hd. rewrite (db_error_is_not_found _ Hd). by apply wp_throw, He, kept_same.
  - intros w1 Hs _. cbn [err_is negb].
    assert (forall x w', wrote (mount_root now) x w1 w' ->
              kept (fun p => p = "/") w w' /\ x ∈ nodes w' /\ live x /\ is_root x) as Hstep.
    { intros x w' Hw. destruct (kept_write (fun p => p = "/") w1 w' (mount_root now) x) as (Hkept & Hx & Lx & Ep);
        [by rewrite (proj1 Hs)|by exists []|done|by left|done|done|]. pose proof Hw as (_ & Hrow & _).
      split; [eapply kept_trans; [by apply kept_same|done]|]. split; [done|]. split; [done|].
      rewrite Hrow. exact (conj eq_refl (conj eq_refl eq_refl)). }
    apply wp_map_err, wp_upsert_node; [by eapply same_valid|..].
    + intros e w' [Hs'|[x Hw]]; apply He; [apply kept_same; [done|by eapply same_trans]|by apply (Hstep x)].
    + intros x w' Hw. destruct (Hstep x w' Hw) as (? & ? & ? & ?). by apply Hk.
  - intros y w1 Hs Hy [Ly Ey]. apply wp_ret, Hk; [by apply kept_same|by rewrite (proj1 Hs)|done|by apply (root_is_root (nodes w))].
Qed.

(** The update of a row that stays where it is. *)
Lemma wp_update_row_leaf node y P (Q : result GoErr unit -> World -> Prop) w : valid w -> tree (nodes w) -> P (vn_Path y) ->
  y ∈ nodes w -> live y -> vn_IsDeleted node = vn_IsDeleted y -> vn_ID node = vn_ID y -> vn_Path node = vn_Path y ->
  (vn_Path node = "/" /\ vn_ParentID node = None /\ vn_Kind node = VFSNodeKindRoot \/
   vn_Kind node <> VFSNodeKindRoot /\ exists p, p ∈ nodes w /\ live p /\ metadataVFSNodeIsDirectory p = true /\ child_of p node) ->
  stays_dir (nodes w) y node ->
  (forall e w', same w w' -> Q (Err e) w') ->
  (forall w', kept P w w' -> held_as node (nodes w') -> Q (Ok tt) w') ->
  wp (VFSNodeRepository_Update node) Q w.
Proof.
  intros Hv Ht HP Hy Ly Ed Ei Ep Hfit Hdir He Hk. apply (wp_update_node node y); [done..|congruence|done|done|done|].
  intros x w' Hw. pose proof Hw as (_ & Hrow & _ & Hid).
  destruct (kept_write_leaf P w w' node x) as (Hkept & Hx & Lx & Epx); [done| | |done| |done|].
  - rewrite Ep. by apply (Ht y).
  - by rewrite Ep.
  - intros z Hz Ha. rewrite Ep in Ha. by rewrite (at_path_unique w (vn_Path y) z y).
  - apply Hk; [done|]. exists x. split; [done|]. apply is_row_wrote; [|congruence|done].
    rewrite Ei. apply Hid; [done|]. split; [done|congruence].
Qed.
Lemma wp_update_row node y P (Q : result GoErr unit -> World -> Prop) w : valid w -> tree (nodes w) -> P (vn_Path y) ->
  y ∈ nodes w -> live y -> vn_IsDeleted node = vn_IsDeleted y -> vn_ID node = vn_ID y -> vn_Path node = vn_Path y ->
  (vn_Path node = "/" /\ vn_ParentID node = None /\ vn_Kind node = VFSNodeKindRoot \/
   vn_Kind node <> VFSNodeKindRoot /\ exists p, p ∈ nodes w /\ live p /\ metadataVFSNodeIsDirectory p = true /\ child_of p node) ->
  (metadataVFSNodeIsDirectory y = true -> metadataVFSNodeIsDirectory node = true) ->
  (forall e w', same w w' -> Q (Err e) w') ->
  (forall w', kept P w w' -> held_as node (nodes w') -> Q (Ok tt) w') ->
  wp (VFSNodeRepository_Update node) Q w.
Proof. intros. apply (wp_update_row_leaf node y P); [done..| |done|done]. intros ?. auto. Qed.

Lemma kept_valid P w w' : kept P w w' -> valid w -> valid w'.
Proof. intros (F & _). apply F. Qed.

(** One node on the way. *)
Lemma wp_held existing desired (Q : result GoErr bool -> World -> Prop) w :
  (forall res w', same w w' -> Q res w') -> wp (held s existing desired) Q w.
Proof.
  intros HQ. unfold held. destruct (vn_SourceID existing), desired; try (by apply wp_ret, HQ, same_refl).
  destruct (_ && _); [|by apply wp_ret, HQ, same_refl]. apply wp_bind. unfold mountNodeReusableForSource.
  destruct (_ || _); [by apply wp_ret, wp_ret, HQ, same_refl|]. apply wp_bind_or, (wp_first TMount).
  - intros e w' Hs Hd. rewrite (db_error_is_not_found _ Hd). by apply wp_throw, HQ.
  - intros w' Hs _. by apply wp_ret, wp_ret, HQ.
  - intros r w' Hs _ _ _. by apply wp_ret, wp_ret, HQ.
Qed.

(** What the loop has in hand after a node. *)
Definition node_ready (desired : option N) (path : string) (r : VFSNode) : Prop :=
  vn_Path r = path /\ vn_Kind r = desired_kind desired /\ vn_SourceID r = desired /\
  vn_SyncState r = VFSNodeSyncStateIndexed.
Lemma no_update_needed y parentID name desired :
  metadataVFSMountNodeNeedsUpdate y parentID name (desired_kind desired) desired = false ->
  vn_Kind y = desired_kind desired /\ vn_SourceID y = desired /\ vn_SyncState y = VFSNodeSyncStateIndexed.
Proof.
  unfold metadataVFSMountNodeNeedsUpdate. rewrite !orb_false_iff, !negb_false_iff, !String.eqb_eq.
  intros ((((_ & _) & Ek) & Es) & Ey). split_and!; [done| |done]. clear -Es. unfold sameUintPtr in Es.
  destruct (vn_SourceID y), desired; try done. apply N.eqb_eq in Es. by subst.
Qed.

Lemma wp_ensure_mount_node desired now current segment (Q : result GoErr VFSNode -> World -> Prop) w :
  let path := joinVirtualPath (vn_Path current) segment in
  valid w -> tree (nodes w) -> stands current (nodes w) -> good_seg segment = true ->
  (forall e w', kept (fun p => p = path) w w' -> Q (Err e) w') ->
  (forall r w', kept (fun p => p = path) w w' -> held_as r (nodes w') -> node_ready desired path r -> Q (Ok r) w') ->
  wp (ensure_mount_node s desired now current segment) Q w.
Proof.
  intros path Hv Ht (c & Hc & Lc & Dc & Eid & Epath) Hseg He Hk. pose proof (good_plain _ Hseg) as Hplain.
  assert (canonical (vn_Path c)) as Hcc by by apply (Ht c).
  assert (canonical path) as Hcp.
  { unfold path. rewrite <- Epath. apply canonical_segs in Hcc as [Hg E]. rewrite join_segs by (done || by exists (segs (vn_Path c))).
    exists (segs (vn_Path c) ++ [segment]). split; [|done]. rewrite good_segs_app, Hg. cbn. by rewrite Hseg. }
  assert (forall node, vn_ParentID node = Some (vn_ID current) -> vn_Name node = segment -> vn_Path node = path -> child_of c node) as Hchild.
  { intros node Epar En Ep. unfold child_of. rewrite Epar, En, Ep, Eid. unfold path. by rewrite Epath. }
  assert (forall w1 w', same w w1 -> kept (fun p => p = path) w1 w' -> kept (fun p => p = path) w w') as Hfrom.
  { intros w1 w' Hs Hkept. eapply kept_trans; [by apply kept_same|done]. }
  apply wp_bind_or, wp_find_path.
  - intros e w1 Hs Hd. rewrite (db_error_is_not_found _ Hd). by apply wp_throw, He, kept_same.
  - intros w1 Hs _. cbn [err_is negb]. set (node := mount_new_node _ _ _ _ _).
    apply wp_map_err, wp_create_node; [by eapply same_valid|done|..].
    + intros e w' Hs'. apply He, kept_same; [done|by eapply same_trans].
    + intros x w' Hw Hx. destruct (kept_write (fun p => p = path) w1 w' node x) as (Hkept & Hin & Lx & Ep);
        [by rewrite (proj1 Hs)|done|done| | |done|].
      * right. split; [apply desired_not_root|]. exists c. rewrite (proj1 Hs). split_and!; [done..|]. by apply Hchild.
      * intros y _ _ _. by apply (desired_directory desired).
      * apply Hk; [by apply (Hfrom w1)|by exists x|]. pose proof Hw as (_ & Hrow & _). unfold node_ready.
        split; [done|]. by rewrite Hrow.
  - intros y w1 Hs Hy [Ly Ey]. destruct (metadataVFSNodeIsDirectory y) eqn:Dy; cbn [negb]; [|by apply wp_throw, He, kept_same].
    apply wp_bind, wp_held. intros [taken|e] w2 Hs2; [|apply He, kept_same; [done|by eapply same_trans]].
    assert (same w w2) as Hs' by by eapply same_trans.
    destruct taken; [by apply wp_throw, He, kept_same|].
    destruct (metadataVFSMountNodeNeedsUpdate _ _ _ _ _) eqn:En.
    + set (node := mount_put_right _ _ _ _ _). apply wp_bind, wp_map_err, (wp_update_row node y (fun p => p = path));
        [by eapply same_valid|by rewrite (proj1 Hs')|done|by rewrite (proj1 Hs')|done|done|done|done|..].
      * right. split; [apply desired_not_root|]. exists c. rewrite (proj1 Hs'). split_and!; [done..|]. by apply Hchild.
      * intros _. by apply (desired_directory desired).
      * intros e w' Hs3. apply He, kept_same; [done|by eapply same_trans].
      * intros w' Hkept Hheld. apply wp_ret, Hk; [by apply (Hfrom w2)|done|by split_and!].
    + apply wp_ret, Hk; [by apply kept_same| |split; [done|by eapply no_update_needed]].
      exists y. rewrite (proj1 Hs'). split; [done|by apply is_row_refl].
Qed.

(** The loop, and the whole way. *)
Lemma wp_ensure_mount_nodes sourceID now P segments : forall current lc (Q : result GoErr VFSNode -> World -> Prop) w,
  segments <> [] -> valid w -> tree (nodes w) -> stands current (nodes w) -> vn_Path current = render lc ->
  good_segs (lc ++ segments) = true -> (forall l1 l2, segments = l1 ++ l2 -> P (render (lc ++ l1))) ->
  (forall e w', kept P w w' -> Q (Err e) w') ->
  (forall r w', kept P w w' -> held_as r (nodes w') -> node_ready (Some sourceID) (render (lc ++ segments)) r -> Q (Ok r) w') ->
  wp (ensure_mount_nodes s sourceID now current segments) Q w.
Proof.
  induction segments as [|x rest IH]; intros current lc Q w Hne0 Hv Ht Hs Hp Hg HP He Hk; cbn [ensure_mount_nodes]; [done|].
  assert (lc ++ x :: rest = (lc ++ [x]) ++ rest) as Eapp by by rewrite <- app_assoc. rewrite Eapp in *.
  pose proof Hg as Hg'. rewrite !good_segs_app in Hg'. apply andb_true_iff in Hg' as [[Hlc Hx]%andb_true_iff Hrest].
  cbn in Hx. rewrite andb_true_r in Hx. pose proof (good_plain _ Hx) as Hplain. apply plain_seg_spec in Hplain as (Hne & _ & _ & Hsl).
  apply String.eqb_neq in Hne. rewrite Hne. apply String.eqb_neq in Hne.
  assert (joinVirtualPath (vn_Path current) x = render (lc ++ [x])) as Ej by (rewrite Hp; apply join_render; [by apply good_segs_plain|done]).
  assert (forall w', kept (fun p => p = joinVirtualPath (vn_Path current) x) w w' -> kept P w w') as Hin.
  { intros w'. apply kept_mono. intros p ->. rewrite Ej. by apply (HP [x] rest). }
  apply wp_bind, wp_ensure_mount_node; [done..| |].
  - intros e w' Hkept. by apply He, Hin.
  - intros r w' Hkept%Hin Hr Hready. destruct rest as [|y rest].
    + cbn [ensure_mount_nodes]. apply wp_ret, Hk; [done|done|]. rewrite app_nil_r, <- Ej. exact Hready.
    + pose proof Hkept as ((_ & Hv' & _) & Ht' & _). destruct Hready as (Er & Ekr & _). rewrite Ej in Er.
      apply (IH r (lc ++ [x])); [done|by apply Hv'|done| |done|done|..].
      * apply held_stands; [by apply (desired_directory None)|done].
      * intros l1 l2 E. rewrite <- app_assoc. apply (HP (x :: l1) l2). by rewrite E.
      * intros e w'' Hk2. apply He. by eapply kept_trans.
      * intros r' w'' Hk2. apply Hk. by eapply kept_trans.
Qed.

Lemma wp_source_node source mountPath now (Q : result GoErr VFSNode -> World -> Prop) w :
  let P p := isSubPath p mountPath = true in
  valid w -> tree (nodes w) -> canonical mountPath ->
  (forall e w', kept P w w' -> Q (Err e) w') ->
  (forall r w', kept P w w' -> held_as r (nodes w') -> mounted_at (src_ID source) mountPath r -> Q (Ok r) w') ->
  wp (ensureSourceMountNode s source mountPath now) Q w.
Proof.
  intros P Hv Ht (l & Hl & Ep) He Hk.
  assert (forall l1 l2, l = l1 ++ l2 -> P (render l1)) as HP.
  { intros l1 l2 ->. unfold P. rewrite Ep. pose proof Hl as Hl1. rewrite good_segs_app in Hl1. apply andb_true_iff in Hl1 as [Hl1 _].
    apply isSubPath_render; [done..|]. by exists l2. }
  assert (forall w', kept (fun p => p = "/") w w' -> kept P w w') as Hroot.
  { intros w'. apply kept_mono. intros p ->. by apply (HP [] l). }
  apply wp_bind, wp_ensure_mount_root; [done..|intros e w' Hkept; by apply He, Hroot|].
  intros root w1 Hkept%Hroot Hr Lr Hir. pose proof Hkept as ((_ & Hv' & _) & Ht' & _). specialize (Hv' Hv).
  pose proof Hir as (Er & Eparent & Ekind). rewrite Ep. destruct (String.eqb_spec (render l) "/") as [E|E].
  - set (node := indexed _ _). apply wp_bind, wp_map_err, (wp_update_row node root P); [done|done| |done|done|done|done|done|by left|..].
    + rewrite Er. by apply (HP [] l).
    + intros _. by apply root_directory.
    + intros e w' Hs. apply He. eapply kept_trans; [done|by apply kept_same].
    + intros w' Hkept2 Hheld. apply wp_ret, Hk; [by eapply kept_trans|done|]. rewrite Ep, E. by split_and!.
  - assert (l <> []) as Hne by by intros ->. rewrite trim_slash_tail, split_tail by (done || by apply good_segs_plain).
    apply (wp_ensure_mount_nodes (src_ID source) now P l root []); [done|done|done| |done|done|exact HP|..].
    + exists root. split_and!; [done|done|by apply root_directory|done|done].
    + intros e w' Hk2. apply He. by eapply kept_trans.
    + intros r w' Hk2 Hheld (Epr & Ekr & Esr & Eyr). apply Hk; [by eapply kept_trans|done|]. rewrite Ep. by split_and!.
Qed.
End Nodes.

(** ** The table of mounts *)
(** [l'] is [l] with the mount [m] for the one at its path, if any. *)
Definition put_mount (m : VFSMount) (l l' : list VFSMount) : Prop :=
  m ∈ l' /\ (forall a, a ∈ l' -> a = m \/ (a ∈ l /\ vm_MountPath a <> vm_MountPath m)) /\
  (forall a, a ∈ l -> vm_MountPath a <> vm_MountPath m -> a ∈ l').
Definition mount_row (mount m : VFSMount) : Prop :=
  m = { (vfsMountModelFromEntity mount) with vm_ID := vm_ID m; vm_CreatedAt := vm_CreatedAt m; vm_UpdatedAt := vm_UpdatedAt m }.

(** What switching off the mounts of a source, but for the one at [keep],
    does to a mount and to a node. *)
Definition switched (sourceID : N) (keep : string) (a a' : VFSMount) : Prop :=
  a' = a \/
  vm_SourceID a = sourceID /\ vm_MountPath a <> keep /\ vm_IsEnabled a' = false /\
  vm_ID a' = vm_ID a /\ vm_SourceID a' = vm_SourceID a /\ vm_NodeID a' = vm_NodeID a /\ vm_MountPath a' = vm_MountPath a.
Definition marked (I : N -> Prop) (n n' : VFSNode) : Prop :=
  n' = n \/
  I (vn_ID n) /\ n' = { n with vn_SyncState := VFSNodeSyncStateStale; vn_UpdatedAt := vn_UpdatedAt n' }.

Lemma switched_fields sourceID keep a a' : switched sourceID keep a a' ->
  vm_ID a' = vm_ID a /\ vm_SourceID a' = vm_SourceID a /\ vm_NodeID a' = vm_NodeID a /\ vm_MountPath a' = vm_MountPath a /\
  (vm_IsEnabled a = false -> vm_IsEnabled a' = false).
Proof. intros [->|(_ & _ & E & ? & ? & ? & ?)]; by split_and!. Qed.
Lemma switched_trans sourceID keep a b c : switched sourceID keep a b -> switched sourceID keep b c -> switched sourceID keep a c.
Proof.
  intros H1 H2. pose proof (switched_fields _ _ _ _ H1) as (? & Es & ? & Ep & ?). destruct H2 as [->|(? & ? & ? & ? & ? & ? & ?)]; [done|].
  right. split_and!; congruence.
Qed.
Lemma marked_fields I n n' : marked I n n' ->
  vn_IsDeleted n' = vn_IsDeleted n /\ vn_ID n' = vn_ID n /\ vn_ParentID n' = vn_ParentID n /\ vn_Name n' = vn_Name n /\
  vn_Path n' = vn_Path n /\ vn_Kind n' = vn_Kind n.
Proof. intros [->|[_ ->]]; by split_and!. Qed.
Lemma marked_trans I a b c : marked I a b -> marked I b c -> marked I a c.
Proof.
  intros H1 H2. pose proof (marked_fields _ _ _ H1) as (_ & Ei & _). destruct H2 as [->|[Hi Ec]]; [done|]. rewrite Ei in Hi.
  right. split; [done|]. rewrite Ec. destruct H1 as [->|[_ ->]]; reflexivity.
Qed.
Lemma Forall2_trans {A} (R : A -> A -> Prop) l1 l2 l3 : (forall a b c, R a b -> R b c -> R a c) ->
  Forall2 R l1 l2 -> Forall2 R l2 l3 -> Forall2 R l1 l3.
Proof.
  intros HR H. revert l3. induction H as [|a b l1 l2 Hab _ IH]; intros l3 H3; inversion H3; subst; constructor; [by eapply HR|auto].
Qed.
Lemma Forall2_where {A} (R : A -> A -> Prop) (p : A -> bool) f l : (forall x, R x x) ->
  (forall x, x ∈ l -> p x = true -> R x (f x)) -> Forall2 R l (set_where p f l).
Proof.
  intros Hr Hf. unfold set_where. induction l as [|x l IH]; cbn; constructor.
  - destruct (p x) eqn:E; [|done]. apply Hf; [set_solver|done].
  - apply IH. intros y Hy. apply Hf. set_solver.
Qed.
Lemma tree_marked I l l' : Forall2 (marked I) l l' -> tree l -> tree l'.
Proof.
  intros HF Ht n' Hn' Ln'. destruct (Forall2_in_r _ _ _ _ HF Hn') as (n & Hn & Hm).
  apply marked_fields in Hm as (Ed & Ei & Epa & En & Ep & Ek). rewrite Ed in Ln'.
  destruct (Ht n Hn Ln') as [Hc Hcase]. rewrite Ep. split; [done|]. destruct Hcase as [(A & B & C)|(Hk & p & Hp & Lp & Dp & Hch)].
  - left. unfold is_root. by rewrite Ep, Epa, Ek.
  - right. rewrite Ek. split; [done|]. destruct (Forall2_in_l _ _ _ _ HF Hp) as (p' & Hp' & Hmp).
    apply marked_fields in Hmp as (Edp & Eip & _ & _ & Epp & Ekp). exists p'. split; [done|]. rewrite Edp. split; [done|].
    split; [unfold metadataVFSNodeIsDirectory in *; by rewrite Ekp|]. unfold child_of in *. by rewrite Epa, En, Ep, Eip, Epp.
Qed.

Section Table.
Context `{DatabaseLaws} (s : MetadataVFSMountService).

Lemma mount_row_unique w a b : valid w -> a ∈ mounts w -> b ∈ mounts w ->
  vm_ID a = vm_ID b \/ vm_NodeID a = vm_NodeID b \/ vm_MountPath a = vm_MountPath b -> a = b.
Proof.
  intros Hv Ha Hb E. destruct (no_conflicts_elem TMount _ a b (Hv TMount) Ha Hb) as [|Hc]; [done|]. exfalso.
  cbn in Hc. unfold VFSMountModel_conflict in Hc. apply orb_false_iff in Hc as [[H1%N.eqb_neq H2%N.eqb_neq]%orb_false_iff H3%String.eqb_neq].
  naive_solver.
Qed.

Lemma wp_upsert_mount mount (Q : result GoErr VFSMount -> World -> Prop) w : valid w ->
  (forall e w', frames [TMount] w w' -> Q (Err e) w') ->
  (forall m w', frames [TMount] w w' -> mount_row mount m -> put_mount m (mounts w) (mounts w') -> Q (Ok m) w') ->
  wp (VFSMountRepository_UpsertByMountPath mount) Q w.
Proof.
  intros Hv He Hk. unfold VFSMountRepository_UpsertByMountPath.
  assert (forall m w1, frames [TMount] w w1 -> mount_row mount m -> put_mount m (mounts w) (mounts w1) ->
            wp (VFSMountRepository_FindByMountPath (vm_MountPath mount)) Q w1) as Hread.
  { intros m w1 F Hrow Hput. assert (vm_MountPath m = vm_MountPath mount) as Ep by by rewrite Hrow.
    apply (wp_first TMount).
    - intros e w2 Hs _. apply He. by eapply frames_same.
    - intros w2 _ Hno. pose proof (Hno m (proj1 Hput)) as Hf. cbn in Hf. by rewrite Ep, String.eqb_refl in Hf.
    - intros r w2 Hs Hr Er%String.eqb_eq _. rewrite (mount_row_unique w1 r m); [|by apply F|done|exact (proj1 Hput)|right; right; congruence].
      apply Hk; [by eapply frames_same|done|by rewrite (proj1 Hs)]. }
  apply wp_bind, (wp_upsert TMount).
  - intros e w1 Hs _. apply He. by apply same_frames.
  - intros id now now' w1 r' l Hex Hn Hp. apply existsb_exists in Hex as (y & Hy%list_elem_of_In & Ey%String.eqb_eq).
    apply (Hread (mount_upsert_columns r' y)); [by apply (put_frames TMount l)| |].
    + unfold mount_row, mount_upsert_columns, r'. rewrite Ey. destruct y; reflexivity.
    + unfold put_mount. rewrite (proj1 Hp). unfold l.
      assert (forall a, a ∈ mounts w -> String.eqb (vm_MountPath a) (vm_MountPath mount) = true -> a = y) as Hone.
      { intros a Ha Ea%String.eqb_eq. apply (mount_row_unique w); [done..|]. right. right. congruence. }
      assert (vm_MountPath (mount_upsert_columns r' y) = vm_MountPath mount) as Em by exact Ey.
      rewrite Em. split_and!.
      * apply elem_of_set_where. left. exists y. split_and!; [done|by apply String.eqb_eq|done].
      * intros a [(z & Hz & Ez & ->)|[Ha Ea]]%elem_of_set_where; [left; by rewrite (Hone z)|right].
        split; [done|]. by apply String.eqb_neq.
      * intros a Ha Ea. apply elem_of_set_where. right. split; [done|]. by apply String.eqb_neq.
  - intros id now w1 r' Hno _ Ha Hp. apply (Hread r'); [|reflexivity|].
    + apply (put_frames _ _ _ _ Hp). intros Hv'. by apply absent_no_conflicts.
    + unfold put_mount. rewrite (proj1 Hp). split_and!; [set_solver| |set_solver].
      intros a [Ha'| ->%list_elem_of_singleton]%elem_of_app; [right; split; [done|]|by left].
      apply not_true_iff_false in Hno. intros E. apply Hno, existsb_exists. exists a. split; [by apply list_elem_of_In|].
      by apply String.eqb_eq.
Qed.

(** *** Switching off *)
Definition swept (I : N -> Prop) (sourceID : N) (keep : string) (w w' : World) : Prop :=
  frames [TNode; TMount] w w' /\ Forall2 (switched sourceID keep) (mounts w) (mounts w') /\
  Forall2 (marked I) (nodes w) (nodes w').
Lemma swept_same I sourceID keep w w' : same w w' -> swept I sourceID keep w w'.
Proof.
  intros Hs. split; [by apply same_frames|]. rewrite !(proj1 Hs). split; apply Forall2_diagonal; intros; by left.
Qed.
Lemma swept_trans I sourceID keep w1 w2 w3 : swept I sourceID keep w1 w2 -> swept I sourceID keep w2 w3 -> swept I sourceID keep w1 w3.
Proof.
  intros (F1 & M1 & N1) (F2 & M2 & N2). split_and!; [by eapply frames_trans|eapply Forall2_trans; [apply switched_trans|done..]|].
  eapply Forall2_trans; [apply marked_trans|done..].
Qed.

Lemma wp_mark_stale I sourceID keep nodeID now (Q : result GoErr unit -> World -> Prop) w : valid w -> I nodeID ->
  (forall res w', swept I sourceID keep w w' -> mounts w' = mounts w -> Q res w') ->
  wp (markMountNodeStale s nodeID now) Q w.
Proof.
  intros Hv Hi HQ. unfold markMountNodeStale.
  assert (forall res w', same w w' -> Q res w') as Hsame.
  { intros res w' Hs. apply HQ; [by apply swept_same|apply Hs]. }
  destruct (_ || _); [apply wp_ret, Hsame, same_refl|]. apply wp_bind_or, (wp_first TNode).
  - intros e w1 Hs Hd. rewrite (db_error_is_not_found _ Hd). by apply wp_throw, Hsame.
  - intros w1 Hs _. by apply wp_ret, Hsame.
  - intros n w1 Hs Hn En%N.eqb_eq _. destruct (vn_IsDeleted n) eqn:Ln; [by apply wp_ret, Hsame|].
    set (node := { n with vn_SyncState := _; vn_UpdatedAt := _ }). apply wp_map_err, (wp_update_found TNode).
    + intros e w2 Hs2 _. apply Hsame. by eapply same_trans.
    + intros w2 Hs2 _. apply Hsame. by eapply same_trans.
    + intros t w2 l _ Hno Hp. assert (mounts w2 = mounts w) as Em by (rewrite (proj1 (proj2 Hp)) by done; apply Hs).
      apply HQ; [|done]. split; [|split].
      * eapply frames_trans; [by apply same_frames|]. eapply frames_mono; [by apply (put_frames TNode l)|set_solver].
      * rewrite Em. apply Forall2_diagonal. intros; by left.
      * rewrite (proj1 Hp). unfold l. rewrite (proj1 Hs). apply Forall2_where; [intros; by left|].
        intros y Hy Ey%N.eqb_eq. right. cbn in Ey. split; [congruence|].
        assert (y = n) as ->; [|destruct n; reflexivity].
        destruct (valid_distinct _ (Hv TNode)) as [Hids _]. by apply Hids.
Qed.

(** [a] is now the row that was read as [m]. *)
Definition read_as (m a : VFSMount) : Prop :=
  vm_ID a = vm_ID m /\ vm_SourceID a = vm_SourceID m /\ vm_NodeID a = vm_NodeID m /\ vm_MountPath a = vm_MountPath m /\
  (vm_IsEnabled m = false -> vm_IsEnabled a = false).
Lemma read_as_switched sourceID keep m a a' : read_as m a -> switched sourceID keep a a' -> read_as m a'.
Proof.
  intros (E1 & E2 & E3 & E4 & E5) (F1 & F2 & F3 & F4 & F5)%switched_fields. unfold read_as.
  split_and!; [congruence..|]. intros Hm. by apply F5, E5.
Qed.
Definition off (m : VFSMount) (w : World) : Prop := forall a, a ∈ mounts w -> vm_ID a = vm_ID m -> vm_IsEnabled a = false.
Lemma off_swept I sourceID keep m w w' : swept I sourceID keep w w' -> off m w -> off m w'.
Proof.
  intros (_ & HF & _) Ho a' Ha' Ei. destruct (Forall2_in_r _ _ _ _ HF Ha') as (a & Ha & Hs).
  apply switched_fields in Hs as (E & _ & _ & _ & Hoff). apply Hoff, Ho; [done|congruence].
Qed.

Lemma wp_switch_off I keep now m a (Q : result GoErr (list N) -> World -> Prop) w : valid w -> vm_MountPath m <> keep ->
  a ∈ mounts w -> read_as m a ->
  (forall e w', swept I (vm_SourceID m) keep w w' -> Q (Err e) w') ->
  (forall ids w', swept I (vm_SourceID m) keep w w' -> off m w' -> Q (Ok ids) w') ->
  wp (if vm_IsEnabled m then
        do! normalized (VFSMountRepository_Update { m with vm_IsEnabled := false; vm_UpdatedAt := now }) ;;
        ret [vm_ID m]
      else ret []) Q w.
Proof.
  intros Hv Hkeep Ha Hread He Hk. pose proof Hread as (Ei & Es & En & Ep & Eoff).
  assert (forall b, b ∈ mounts w -> vm_ID b = vm_ID m -> b = a) as Hone.
  { intros b Hb Eb. apply (mount_row_unique w); [done..|]. left. congruence. }
  destruct (vm_IsEnabled m) eqn:Em.
  - apply wp_bind, wp_map_err, (wp_update_found TMount).
    + intros e w1 Hs _. by apply He, swept_same.
    + intros w1 Hs _. by apply He, swept_same.
    + intros t w1 l _ Hno Hp. apply wp_ret, Hk; [split; [|split]|].
      * eapply frames_mono; [by apply (put_frames TMount l)|set_solver].
      * rewrite (proj1 Hp). apply Forall2_where; [intros; by left|]. intros b Hb Eb%N.eqb_eq. cbn in Eb.
        rewrite (Hone b Hb Eb). right. cbn. by split_and!; congruence.
      * rewrite (proj1 (proj2 Hp)) by done. apply Forall2_diagonal. intros; by left.
      * intros b Hb Eb. rewrite (proj1 Hp) in Hb. apply elem_of_set_where in Hb as [(y & _ & _ & ->)|[_ Hf]]; [done|].
        cbn in Hf. by rewrite Eb, N.eqb_refl in Hf.
  - apply wp_ret, Hk; [by apply swept_same, same_refl|]. intros b Hb Eb. rewrite (Hone b Hb Eb). by apply Eoff.
Qed.

Lemma wp_disable_mounts I sourceID keep now ms : forall (Q : result GoErr (list N) -> World -> Prop) w, valid w ->
  (forall m, m ∈ ms -> vm_SourceID m = sourceID /\ (vm_MountPath m <> keep -> I (vm_NodeID m)) /\
     exists a, a ∈ mounts w /\ read_as m a) ->
  (forall e w', swept I sourceID keep w w' -> Q (Err e) w') ->
  (forall ids w', swept I sourceID keep w w' -> (forall m, m ∈ ms -> vm_MountPath m <> keep -> off m w') -> Q (Ok ids) w') ->
  wp (disable_mounts s keep now ms) Q w.
Proof.
  induction ms as [|m rest IH]; intros Q w Hv Hms He Hk; cbn [disable_mounts].
  - apply wp_ret, Hk; [by apply swept_same, same_refl|]. by intros m ?%elem_of_nil.
  - destruct (Hms m) as (Es & HI & a & Ha & Hread); [set_solver|]. destruct (String.eqb_spec (vm_MountPath m) keep) as [Ek|Ek].
    + apply IH; [done|intros x Hx; apply Hms; set_solver|done|]. intros ids w' Hsw Hoff. apply Hk; [done|].
      intros x [->|Hx]%elem_of_cons Hx'; [done|by apply Hoff].
    + apply wp_bind, (wp_switch_off I keep now m a); rewrite ?Es; [done..|]. intros ids w1 Hsw1 Hoff1.
      apply wp_bind, (wp_mark_stale I sourceID keep); [by apply Hsw1|by apply HI|]. intros res w2 Hsw2 Em2.
      assert (swept I sourceID keep w w2) as Hsw by by eapply swept_trans. destruct res as [[]|e]; [|by apply He].
      apply wp_bind, IH.
      * apply Hsw, Hv.
      * intros x Hx. destruct (Hms x) as (Esx & HIx & b & Hb & Hrb); [set_solver|]. split_and!; [done..|].
        destruct Hsw as (_ & HF & _). destruct (Forall2_in_l _ _ _ _ HF Hb) as (b' & Hb' & Hsb). exists b'.
        split; [done|by eapply read_as_switched].
      * intros e w' Hsw'. apply He. by eapply swept_trans.
      * intros ids' w' Hsw' Hoff'. apply wp_ret, Hk; [by eapply swept_trans|].
        intros x [->|Hx]%elem_of_cons Hx'; [|by apply Hoff']. eapply off_swept; [exact Hsw'|]. exact (off_swept _ _ _ _ _ _ Hsw2 Hoff1).
Qed.

(** The mounts of a source, but for the one it keeps. *)
Definition other_mount_node (sourceID : N) (keep : string) (l : list VFSMount) (id : N) : Prop :=
  exists m, m ∈ l /\ vm_SourceID m = sourceID /\ vm_MountPath m <> keep /\ vm_NodeID m = id.
Lemma wp_disable_other sourceID keep now (Q : result GoErr (list N) -> World -> Prop) w : valid w -> sourceID <> 0%N ->
  let I := other_mount_node sourceID keep (mounts w) in
  (forall e w', swept I sourceID keep w w' -> Q (Err e) w') ->
  (forall ids w', swept I sourceID keep w w' ->
     (forall a, a ∈ mounts w' -> vm_SourceID a = sourceID -> vm_MountPath a <> keep -> vm_IsEnabled a = false) -> Q (Ok ids) w') ->
  wp (disableOtherSourceMounts s sourceID keep now) Q w.
Proof.
  intros Hv Hid I He Hk. apply wp_bind, wp_map_err, (wp_select TMount).
  - intros e w1 Hs _. by apply He, swept_same.
  - intros all w1 Hs Hperm _. cbn [limited].
    assert (forall m, m ∈ all <-> m ∈ mounts w /\ vm_SourceID m = sourceID) as Hall.
    { intros m. rewrite Hperm, elem_of_sel. unfold mount_filter. cbn. apply N.eqb_neq in Hid.
      rewrite Hid, !andb_true_r. cbn. by rewrite N.eqb_eq. }
    assert (forall w', swept I sourceID keep w1 w' -> swept I sourceID keep w w') as Hfrom.
    { intros w' Hsw. eapply swept_trans; [by apply swept_same|done]. }
    apply (wp_disable_mounts I sourceID).
    + by eapply same_valid.
    + intros m [Hm Es]%Hall. split; [done|]. split; [intros Hne; by exists m|]. exists m. rewrite (proj1 Hs). by split_and!.
    + intros e w' Hsw. by apply He, Hfrom.
    + intros ids w' Hsw Hoff. apply Hk; [by apply Hfrom|]. intros a' Ha' Es' Ep'.
      destruct Hsw as (_ & HF & _). destruct (Forall2_in_r _ _ _ _ HF Ha') as (a & Ha & Hsa). rewrite (proj1 Hs) in Ha.
      apply switched_fields in Hsa as (E1 & E2 & _ & E4 & _). apply (Hoff a); [apply Hall; split; [done|congruence]|congruence|done|done].
Qed.
End Table.

(** ** The service *)
(** The row of the mount of a source, and its node. *)
Definition mount_made `{Database} `{JsonMapDecoder} (source : StorageSource) (mountPath rootPath : string) (m : VFSMount) (n : VFSNode)
    (w' : World) : Prop :=
  m ∈ mounts w' /\ vm_SourceID m = src_ID source /\ vm_MountPath m = mountPath /\ vm_IsEnabled m = src_IsEnabled source /\
  vm_SortOrder m = src_SortOrder source /\
  vm_RootLocatorJSON m = jsonObject (metadataVFSMountRootLocatorJSON source mountPath rootPath) /\ vm_NodeID m = vn_ID n /\
  n ∈ nodes w' /\ live n /\ vn_MountID n = Some (vm_ID m) /\ mounted_at (src_ID source) mountPath n.
(** What happened to the mounts of other sources: those that are on are
    still there, and nothing was added. *)
Definition others_stand `{Database} (sourceID : N) (w w' : World) : Prop :=
  (forall a, a ∈ mounts w -> vm_SourceID a <> sourceID -> vm_IsEnabled a = true -> a ∈ mounts w') /\
  (forall a, a ∈ mounts w' -> vm_SourceID a <> sourceID -> a ∈ mounts w).

Section Sync.
Context `{DatabaseLaws} `{JM : JsonMapDecoder} (s : MetadataVFSMountService).

Lemma wp_reusable sourceID mountPath (Q : result GoErr unit -> World -> Prop) w :
  (forall e w', same w w' -> Q (Err e) w') ->
  (forall w', same w w' ->
     (forall a, a ∈ mounts w -> vm_MountPath a = mountPath -> vm_SourceID a = sourceID \/ vm_IsEnabled a = false) -> Q (Ok tt) w') ->
  valid w -> wp (ensureMountPathReusable sourceID mountPath) Q w.
Proof.
  intros He Hk Hv. apply wp_bind_or, (wp_first TMount).
  - intros e w1 Hs Hd. rewrite (db_error_is_not_found _ Hd). by apply wp_throw, He.
  - intros w1 Hs Hno. apply wp_ret, Hk; [done|]. intros a Ha Ep. specialize (Hno a Ha). cbn in Hno. by rewrite Ep, String.eqb_refl in Hno.
  - intros r w1 Hs Hr Er%String.eqb_eq _. destruct (negb _ && _) eqn:E; [by apply wp_throw, He|]. apply wp_ret, Hk; [done|].
    intros a Ha Ep. assert (a = r) as -> by (apply (mount_row_unique w); [done..|]; right; right; congruence).
    apply andb_false_iff in E as [E%negb_false_iff%N.eqb_eq|E]; auto.
Qed.

Lemma fits_same l y node : tree l -> y ∈ l -> live y -> vn_Path node = vn_Path y -> vn_ParentID node = vn_ParentID y ->
  vn_Name node = vn_Name y -> vn_Kind node = vn_Kind y ->
  vn_Path node = "/" /\ vn_ParentID node = None /\ vn_Kind node = VFSNodeKindRoot \/
  vn_Kind node <> VFSNodeKindRoot /\ exists p, p ∈ l /\ live p /\ metadataVFSNodeIsDirectory p = true /\ child_of p node.
Proof.
  intros Ht Hy Ly Ep Epa En Ek. destruct (Ht y Hy Ly) as [_ [(A & B & C)|(Hk & p & Hp & Lp & Dp & Hch)]]; [left; split_and!; congruence|].
  right. split; [congruence|]. exists p. split_and!; [done..|]. unfold child_of in *. by rewrite Ep, Epa, En.
Qed.

Lemma wp_attach source mountPath P node mount now (Q : result GoErr VFSNode -> World -> Prop) w : valid w -> tree (nodes w) ->
  P mountPath -> held_as node (nodes w) -> mounted_at (src_ID source) mountPath node ->
  (forall e w', kept P w w' -> Q (Err e) w') ->
  (forall r n w', kept P w w' -> n ∈ nodes w' -> is_row r n -> vn_ID n = vn_ID node -> vn_MountID n = Some (vm_ID mount) ->
     mounted_at (src_ID source) mountPath n -> Q (Ok r) w') ->
  wp (attach_mount node mount now) Q w.
Proof.
  intros Hv Ht HP (x & Hx & Hrow) (Ep & Es & Ey & Ek) He Hk. pose proof Hrow as [Lx _].
  pose proof (is_row_fields _ _ Hrow) as (Ri & Rpa & Rn & Rp & Rk & Rm & Rs & Ry & Ln). unfold attach_mount.
  destruct (_ || _) eqn:E.
  - set (node' := indexed _ _). apply wp_bind, wp_map_err, (wp_update_row node' x P); [done|done|by rewrite Rp, Ep|done|done|..].
    + change (vn_IsDeleted node = vn_IsDeleted x). congruence.
    + by symmetry.
    + by symmetry.
    + by apply (fits_same (nodes w) x).
    + unfold metadataVFSNodeIsDirectory. by rewrite Rk.
    + intros e w' Hs. by apply He, kept_same.
    + intros w' Hkept (n & Hn & Hr). pose proof (is_row_fields _ _ Hr) as (Ni & _ & _ & Np & Nk & Nm & Ns & Ny & _).
      apply wp_ret, (Hk node' n); [done..|]. split_and!; [by rewrite Np|by rewrite Ns|by rewrite Ny|by rewrite Nk].
  - apply orb_false_iff in E as [E%negb_false_iff _].
    assert (vn_MountID node = Some (vm_ID mount)) as Em.
    { unfold sameUintPtr in E. destruct (vn_MountID node); [|done]. by apply N.eqb_eq in E as ->. }
    apply wp_ret, (Hk node x); [by apply kept_same, same_refl|done|done|done|congruence|].
    split_and!; [congruence|congruence|congruence|]. by rewrite Rk.
Qed.

(** The nodes: on the way to the mount first, then those of the mounts that
    were switched off. *)
Definition nodes_synced (sourceID : N) (mountPath : string) (w w' : World) : Prop :=
  exists l ms, changed (fun p => isSubPath p mountPath = true) (nodes w) l /\
    Forall2 (marked (other_mount_node sourceID mountPath ms)) l (nodes w') /\
    forall a, a ∈ ms -> vm_MountPath a <> mountPath -> a ∈ mounts w.
Definition synced (source : StorageSource) (mountPath rootPath : string) (r : MetadataVFSMountSyncResult) (w w' : World) : Prop :=
  exists n, is_row (msr_Node r) n /\ mount_made source mountPath rootPath (msr_Mount r) n w' /\
    (forall a, a ∈ mounts w' -> vm_SourceID a = src_ID source -> vm_IsEnabled a = true -> a = msr_Mount r) /\
    others_stand (src_ID source) w w' /\ nodes_synced (src_ID source) mountPath w w'.

Lemma wp_sync_mount source mountPath rootPath w : valid w -> tree (nodes w) -> canonical mountPath -> src_ID source <> 0%N ->
  wp (sync_mount s source mountPath rootPath) (fun res w' => frames [TNode; TMount] w w' /\ tree (nodes w') /\
    match res with Ok r => synced source mountPath rootPath r w w' | Err _ => True end) w.
Proof.
  intros Hv Ht Hc Hid. set (P p := isSubPath p mountPath = true).
  assert (forall w1 w', frames [TNode] w1 w' -> frames [TNode; TMount] w1 w') as Hwide by (intros w1 w' F; eapply frames_mono; [exact F|set_solver]).
  apply wp_bind, wp_time_now. set (w0 := { w with w_reads ::= S }).
  assert (forall t, tbl t w0 = tbl t w) as E0 by done. assert (frames [TNode; TMount] w w0) as F0 by (split_and!; [done..|cbn; lia]).
  assert (valid w0) as Hv0 by by apply F0.
  apply wp_bind, wp_reusable; [|intros w1 Hs Hfree|done].
  { intros e w1 Hs. split; [by eapply frames_same|]. by rewrite (proj1 Hs), E0. }
  rewrite E0 in Hfree. assert (frames [TNode; TMount] w w1) as F1 by by eapply frames_same.
  assert (forall t, tbl t w1 = tbl t w) as E1 by (intros t; by rewrite (proj1 Hs)).
  apply wp_bind, wp_source_node; [by apply F1|by rewrite E1|done|..].
  { intros e w2 (F2 & T2 & _). split; [eapply frames_trans; [exact F1|by apply Hwide]|done]. }
  intros node w2 (F2 & T2 & C2) Hheld Hat. assert (frames [TNode; TMount] w w2) as F02 by (eapply frames_trans; [exact F1|by apply Hwide]).
  assert (mounts w2 = mounts w) as Em2 by (rewrite (frames_tbl _ _ _ TMount F2) by set_solver; apply E1). rewrite E1 in C2.
  apply wp_bind, wp_map_err, wp_upsert_mount; [by apply F02|..].
  { intros e w3 F3. split; [eapply frames_trans; [exact F02|eapply frames_mono; [exact F3|set_solver]]|].
    by rewrite (frames_tbl _ _ _ TNode F3) by set_solver. }
  intros m w3 F3 Hrow Hput. assert (frames [TNode; TMount] w w3) as F03 by (eapply frames_trans; [exact F02|eapply frames_mono; [exact F3|set_solver]]).
  assert (nodes w3 = nodes w2) as En3 by (apply (frames_tbl _ _ _ TNode F3); set_solver). rewrite Em2 in Hput.
  assert (vm_MountPath m = mountPath /\ vm_SourceID m = src_ID source /\ vm_NodeID m = vn_ID node) as (Emp & Ems & Emn) by by rewrite Hrow.
  apply wp_bind, (wp_attach source mountPath P); [by apply F03|by rewrite En3|by apply isSubPath_refl|by rewrite En3|done|..].
  { intros e w4 (F4 & T4 & _). split; [eapply frames_trans; [exact F03|by apply Hwide]|done]. }
  intros r n w4 (F4 & T4 & C4) Hn Hr Ein Emid Hnat. assert (frames [TNode; TMount] w w4) as F04 by (eapply frames_trans; [exact F03|by apply Hwide]).
  assert (mounts w4 = mounts w3) as Em4 by (apply (frames_tbl _ _ _ TMount F4); set_solver).
  apply wp_bind, wp_disable_other; [by apply F04|done|..].
  { intros e w5 (F5 & _ & N5). split; [by eapply frames_trans|split; [by eapply tree_marked|done]]. }
  intros ids w5 (F5 & M5 & N5) Hoff. assert (frames [TNode; TMount] w w5) as F05 by by eapply frames_trans.
  apply wp_ret. split; [done|]. split; [by eapply tree_marked|]. rewrite Em4 in M5, N5.
  assert (valid w3) as Hv3 by by apply F03. assert (valid w5) as Hv5 by by apply F05.
  assert (forall a, a ∈ mounts w3 -> (vm_SourceID a <> src_ID source \/ vm_MountPath a = mountPath) -> a ∈ mounts w5) as Hstay.
  { intros a Ha Hcase. destruct (Forall2_in_l _ _ _ _ M5 Ha) as (a' & Ha' & [->|(? & ? & _)]); [done|naive_solver]. }
  exists n. cbn [msr_Node msr_Mount]. split; [done|]. split; [|split; [|split; [split|]]].
  - unfold mount_made. split_and!; try (by rewrite Hrow); try exact Emp; try exact Ems; try (exact (proj1 Hr)); try done.
    + apply Hstay; [exact (proj1 Hput)|by right].
    + destruct (Forall2_in_l _ _ _ _ N5 Hn) as (n' & Hn' & [->|((m' & Hm' & _ & Hp' & Ei') & _)]); [done|]. exfalso. apply Hp'.
      rewrite (mount_row_unique w3 m' m); [exact Emp|done|done|exact (proj1 Hput)|right; left; congruence].
  - intros a Ha Ea Eon. assert (vm_MountPath a = mountPath) as Epa.
    { destruct (decide (vm_MountPath a = mountPath)) as [|Hne]; [done|]. by rewrite (Hoff a Ha Ea Hne) in Eon. }
    apply (mount_row_unique w5); [done|done|apply Hstay; [exact (proj1 Hput)|by right]|right; right; congruence].
  - intros a Ha Ea Eon. apply Hstay; [|by left]. apply Hput; [done|]. intros Epa. rewrite Emp in Epa.
    destruct (Hfree a Ha Epa) as [?|Hf]; [done|]. by rewrite Hf in Eon.
  - intros a Ha Ea. destruct (Forall2_in_r _ _ _ _ M5 Ha) as (a0 & Ha0 & Hsw). pose proof (switched_fields _ _ _ _ Hsw) as (_ & Es0 & _).
    destruct Hsw as [->|(? & _)]; [|congruence]. destruct (proj1 (proj2 Hput) a0 Ha0) as [->|[? _]]; [congruence|done].
  - exists (nodes w4), (mounts w3). split; [|split; [done|]].
    + eapply changed_trans; [exact C2|]. by rewrite <- En3.
    + intros a Ha Hp. destruct (proj1 (proj2 Hput) a Ha) as [->|[? _]]; [congruence|done].
Qed.
End Sync.

Section Operations.
Context `{DatabaseLaws} `{JM : JsonMapDecoder} (s : MetadataVFSMountService).

Lemma wp_mount_tx {A} (fn : M GoErr World A) (Q : result GoErr A -> World -> Prop) w :
  wp fn (fun res w1 =>
    match res with
    | Ok a => forall w2, same w1 w2 -> Q (Ok a) w2
    | Err e => ms_transactor s = false -> Q (Err e) w1
    end) w ->
  (forall e w2, ms_transactor s = true -> (forall t, tbl t w2 = tbl t w) -> Q (Err e) w2) ->
  wp (withinMountTx s fn) Q w.
Proof.
  intros Hfn Hback. unfold withinMountTx. destruct (ms_transactor s) eqn:Etx.
  - apply wp_transaction; [apply normalize_db_error|]. eapply wp_mono; [exact Hfn|].
    intros [a|e] w1 Hq; [|intros w2 E _ _; by apply Hback]. split; [exact Hq|]. intros e w2 E _ _ _. by apply Hback.
  - eapply wp_mono; [exact Hfn|]. intros [a|e] w1 Hq; [by apply Hq, same_refl|by apply Hq].
Qed.

(** What holds after any operation of the service. *)
Definition mount_step {A} (w : World) (res : result GoErr A) (w' : World) : Prop :=
  valid w' /\ tree (nodes w') /\ (forall t, t <> TNode -> t <> TMount -> tbl t w' = tbl t w) /\
  match res with Err _ => ms_transactor s = true -> forall t, tbl t w' = tbl t w | Ok _ => True end.
Lemma step_frames {A} w w' (a : A) : valid w -> frames [TNode; TMount] w w' -> tree (nodes w') -> mount_step w (Ok a) w'.
Proof.
  intros Hv F Ht. split; [by apply F|]. split; [done|]. split; [|done]. intros t Hn Hm. apply (frames_tbl _ _ _ t F). set_solver.
Qed.
Lemma step_failed {A} w w' e : valid w -> frames [TNode; TMount] w w' -> tree (nodes w') -> ms_transactor s = false ->
  mount_step w (Err e : result GoErr A) w'.
Proof. intros Hv F Ht Etx. destruct (step_frames w w' tt Hv F Ht) as (? & ? & ? & _). split_and!; [done..|]. by rewrite Etx. Qed.
Lemma step_back {A} w w' e : valid w -> tree (nodes w) -> (forall t, tbl t w' = tbl t w) -> mount_step w (Err e : result GoErr A) w'.
Proof. intros Hv Ht E. split; [intros t; rewrite E; apply Hv|]. rewrite (E TNode). by split_and!. Qed.

Lemma synced_same source mountPath rootPath r w w1 w2 : same w1 w2 ->
  synced source mountPath rootPath r w w1 -> synced source mountPath rootPath r w w2.
Proof. intros Hs. unfold synced, mount_made, others_stand, nodes_synced. by rewrite !(proj1 Hs). Qed.

Definition sync_post source w (res : result GoErr MetadataVFSMountSyncResult) (w' : World) : Prop :=
  mount_step w res w' /\
  match res with
  | Err _ => True
  | Ok r => exists mountPath rootPath,
      normalizeMountPath (src_MountPath source) = Ok mountPath /\ normalizeVirtualPath (src_RootPath source) = Ok rootPath /\
      synced source mountPath rootPath r w w'
  end.
Lemma mount_sync_effect_core source w : valid w -> tree (nodes w) ->
  wp (MetadataVFSMountService_SyncSourceMount s (Some source)) (sync_post source w) w.
Proof.
  intros Hv Ht. assert (forall e, sync_post source w (Err e) w) as Hrefuse by (split; [by apply step_back|done]).
  unfold MetadataVFSMountService_SyncSourceMount. destruct (_ || _); [by apply wp_throw|].
  destruct (N.eqb_spec (src_ID source) 0) as [|Hid]; [by apply wp_throw|].
  apply wp_bind, wp_lift_result. destruct (normalizeMountPath _) as [mountPath|] eqn:Em; [|done].
  apply wp_bind, wp_lift_result. destruct (normalizeVirtualPath _) as [rootPath|] eqn:Er; [|done].
  apply wp_mount_tx; [|intros e w2 _ E; split; [by apply step_back|done]].
  eapply wp_mono; [apply wp_sync_mount; [done|done|by eapply normalizeMountPath_canonical|done]|].
  intros [r|e] w1 (F & T & Hr); [intros w2 Hs|by split; [apply step_failed|]].
  split; [apply step_frames; [done|by eapply frames_same|by rewrite (proj1 Hs)]|]. exists mountPath, rootPath.
  split_and!; [done..|by eapply synced_same].
Qed.

(** C17: synchronising the mount of a source either fails, and within a
    transaction changes nothing, or leaves the source with one mount that can
    be on, the one at its mount path, with the settings of the source and a
    live mount node there that names the source and the mount.  Every mount
    of another source that is on is still as it was; the tree changes only on
    the way to the mount path, and where nodes of mounts that were switched
    off are marked stale.  Whatever happens, the nodes form a tree and no
    other table changes. *)
Theorem mount_sync_effect source w (Hv : valid w) (Ht : tree (nodes w)) :
  let '(res, w') := MetadataVFSMountService_SyncSourceMount s (Some source) w in
  mount_step w res w' /\
  match res with
  | Err _ => True
  | Ok r => exists mountPath rootPath,
      normalizeMountPath (src_MountPath source) = Ok mountPath /\ normalizeVirtualPath (src_RootPath source) = Ok rootPath /\
      synced source mountPath rootPath r w w'
  end.
Proof.
  apply run_wp, mount_sync_effect_core; done.
Qed.

Definition switched_off (sourceID : N) (w w' : World) : Prop :=
  (forall a, a ∈ mounts w' -> vm_SourceID a = sourceID -> vm_MountPath a <> "" -> vm_IsEnabled a = false) /\
  (forall a, vm_SourceID a <> sourceID -> a ∈ mounts w <-> a ∈ mounts w') /\
  Forall2 (marked (other_mount_node sourceID "" (mounts w))) (nodes w) (nodes w').
Lemma wp_disable_source sourceID (Q : result GoErr unit -> World -> Prop) w : valid w -> tree (nodes w) ->
  (forall e w', mount_step w (Err e : result GoErr unit) w' -> Q (Err e) w') ->
  (forall w', mount_step w (Ok tt) w' -> switched_off sourceID w w' -> Q (Ok tt) w') ->
  wp (MetadataVFSMountService_DisableSourceMount s sourceID) Q w.
Proof.
  intros Hv Ht He Hk. unfold MetadataVFSMountService_DisableSourceMount.
  destruct (negb _); [by apply wp_throw, He, step_back|]. destruct (N.eqb_spec sourceID 0) as [|Hid]; [by apply wp_throw, He, step_back|].
  apply wp_mount_tx; [|intros e w2 _ E; by apply He, step_back]. apply wp_bind, wp_time_now.
  set (w0 := { w with w_reads ::= S }). assert (frames [TNode; TMount] w w0) as F0 by (split_and!; [done..|cbn; lia]).
  apply wp_bind, wp_disable_other; [by apply F0|done|..].
  - intros e w1 (F & _ & N1) Etx. apply He, step_failed; [done|by eapply frames_trans|by eapply tree_marked|done].
  - intros ids w1 (F & M1 & N1) Hoff. apply wp_ret. intros w2 Hs. apply Hk.
    + apply step_frames; [done|eapply frames_same; [by eapply frames_trans|done]|]. rewrite (proj1 Hs). by eapply tree_marked.
    + unfold switched_off. rewrite !(proj1 Hs). split_and!; [done| |done]. intros a Ha. split; intros Hin.
      * destruct (Forall2_in_l _ _ _ _ M1 Hin) as (a' & Ha' & [->|(? & _)]); done.
      * destruct (Forall2_in_r _ _ _ _ M1 Hin) as (a0 & Ha0 & Hsw). pose proof (switched_fields _ _ _ _ Hsw) as (_ & Es & _).
        destruct Hsw as [->|(? & _)]; [done|congruence].
Qed.

(** ** Any sequence of operations *)
Inductive mount_op :=
| OpSync (source : option StorageSource)
| OpDisable (sourceID : N)
| OpSyncAll.
Definition run_mount_op (op : mount_op) (w : World) : World :=
  match op with
  | OpSync source => snd (MetadataVFSMountService_SyncSourceMount s source w)
  | OpDisable sourceID => snd (MetadataVFSMountService_DisableSourceMount s sourceID w)
  | OpSyncAll => snd (MetadataVFSMountService_SyncAllSourceMounts s w)
  end.
(** Whether an operation is about a source. *)
Definition about_source (sourceID : N) (op : mount_op) : Prop :=
  match op with
  | OpSync source => src_ID <$> source = Some sourceID
  | OpDisable id => id = sourceID
  | OpSyncAll => True
  end.
Definition exclusive (l : list VFSMount) : Prop :=
  forall a b, a ∈ l -> b ∈ l -> vm_IsEnabled a = true -> vm_IsEnabled b = true -> vm_SourceID a = vm_SourceID b -> a = b.

Definition sound (w : World) : Prop := valid w /\ tree (nodes w) /\ exclusive (mounts w).
Lemma sound_same w w' : (forall t, tbl t w' = tbl t w) -> sound w -> sound w'.
Proof. intros E (Hv & Ht & He). split; [intros t; rewrite E; apply Hv|]. by rewrite !E. Qed.

Context (Htx : ms_transactor s = true).

Definition keeps_others (P : N -> Prop) (w w' : World) : Prop :=
  forall a, a ∈ mounts w -> vm_IsEnabled a = true -> ~ P (vm_SourceID a) -> a ∈ mounts w'.
Lemma sync_sound source w : sound w ->
  let w' := snd (MetadataVFSMountService_SyncSourceMount s (Some source) w) in
  sound w' /\ keeps_others (fun id => id = src_ID source) w w'.
Proof.
  intros (Hv & Ht & Hx). pose proof (mount_sync_effect_core source w Hv Ht) as Hm. cbv zeta.
  unfold wp, sync_post in Hm.
  destruct (MetadataVFSMountService_SyncSourceMount s (Some source) w) as [[r|e] w']; cbn [snd]; destruct Hm as ((Hv' & Ht' & _ & Hback) & Hr).
  - destruct Hr as (mountPath & rootPath & _ & _ & n & _ & _ & Hown & [Hothers Hold] & _).
    split; [split_and!; [done|done|]|].
    + intros a b Ha Hb Ea Eb Es. destruct (decide (vm_SourceID a = src_ID source)) as [E|E].
      * rewrite (Hown a), (Hown b); [done|done|congruence|done|done|done|done].
      * apply Hx; [by apply Hold|apply Hold; [done|congruence]|done..].
    + intros a Ha Ea Hne. by apply Hothers.
  - specialize (Hback Htx). split; [by apply (sound_same w)|]. intros a Ha _ _. by rewrite Hback.
Qed.
Lemma disable_sound sourceID w : sound w ->
  let w' := snd (MetadataVFSMountService_DisableSourceMount s sourceID w) in
  sound w' /\ keeps_others (fun id => id = sourceID) w w'.
Proof.
  intros (Hv & Ht & Hx). cbv zeta.
  pose proof (wp_disable_source sourceID (fun res w' => mount_step w res w' /\ (res = Ok tt -> switched_off sourceID w w')) w Hv Ht) as Hm.
  unfold wp in Hm. destruct (MetadataVFSMountService_DisableSourceMount s sourceID w) as [res w']; cbn [snd].
  destruct Hm as ((Hv' & Ht' & _ & Hback) & Hoff); [by intros; split|by intros; split|]. destruct res as [[]|e].
  - destruct (Hoff eq_refl) as (Hown & Hother & _). split; [split_and!; [done|done|]|].
    + intros a b Ha Hb Ea Eb Es. destruct (decide (vm_SourceID a = sourceID)) as [E|E].
      * assert (forall m, m ∈ mounts w' -> vm_IsEnabled m = true -> vm_SourceID m = sourceID -> vm_MountPath m = "") as Hp.
        { intros m Hm Em Esm. destruct (decide (vm_MountPath m = "")) as [|Hne]; [done|]. by rewrite (Hown m Hm Esm Hne) in Em. }
        apply (mount_row_unique w'); [done..|]. right. right. rewrite (Hp a Ha Ea E). symmetry. apply Hp; [done|done|congruence].
      * apply Hx; [by apply Hother|apply Hother; [congruence|done]|done..].
    + intros a Ha Ea Hne. by apply Hother.
  - specialize (Hback Htx). split; [by apply (sound_same w)|]. intros a Ha _ _. by rewrite Hback.
Qed.
Lemma sync_all_sound sources : forall acc w, sound w -> sound (snd (sync_all s sources acc w)).
Proof.
  induction sources as [|source rest IH]; intros acc w Hs; [done|]. cbn [sync_all].
  pose proof (proj1 (sync_sound source w Hs)) as Hw. unfold bind_or.
  destruct (MetadataVFSMountService_SyncSourceMount s (Some source) w) as [[r|e] w']; by apply IH.
Qed.
Lemma all_sources_sound w : sound w -> sound (snd (MetadataVFSMountService_SyncAllSourceMounts s w)).
Proof.
  intros Hs. unfold MetadataVFSMountService_SyncAllSourceMounts. destruct (negb _); [done|].
  pose proof (wp_select TSource (fun _ => true) source_order None (fun _ w' => same w w') w) as Hl.
  unfold bind, SourceRepository_ListAll. unfold wp in Hl. destruct (stmt _ w) as [[sources|e] w']; cbn [snd].
  - apply sync_all_sound, (sound_same w); [|done]. apply Hl; [by intros ??|done].
  - apply (sound_same w); [|done]. apply Hl; [by intros ??|done].
Qed.

(** C16: for a service whose operations run in transactions, whatever is
    synchronised and switched off, and whatever fails: the nodes
    form a tree, each source has at most one mount that is on, and a mount
    that is on stays exactly as it is until its own source is synchronised
    or switched off. *)
Theorem mounts_exclusive ops w (Hv : valid w) (Ht : tree (nodes w)) (Hx : exclusive (mounts w)) :
  let w' := fold_left (fun w op => run_mount_op op w) ops w in
  valid w' /\ tree (nodes w') /\ exclusive (mounts w') /\
  forall a, a ∈ mounts w -> vm_IsEnabled a = true -> Forall (fun op => ~ about_source (vm_SourceID a) op) ops -> a ∈ mounts w'.
Proof.
  assert (sound w) as Hs by by split_and!. clear Hv Ht Hx. revert w Hs.
  induction ops as [|op ops IH]; intros w Hs; cbn [fold_left]; [split; [apply Hs|by split_and!; try apply Hs]|].
  assert (sound (run_mount_op op w) /\ keeps_others (fun id => about_source id op) w (run_mount_op op w)) as [Hs1 Hk].
  { destruct op as [[source|]|sourceID|]; cbn [run_mount_op].
    - destruct (sync_sound source w Hs) as [H1 H2]. split; [done|]. intros a Ha Ea Hne. apply H2; [done..|]. intros E. apply Hne. by cbn; rewrite E.
    - assert (snd (MetadataVFSMountService_SyncSourceMount s None w) = w) as -> by
        (unfold MetadataVFSMountService_SyncSourceMount; by destruct (_ || _)).
      split; [done|by intros ? ? _ _].
    - destruct (disable_sound sourceID w Hs) as [H1 H2]. split; [done|]. intros a Ha Ea Hne. apply H2; [done..|]. intros E. apply Hne. by symmetry.
    - split; [by apply all_sources_sound|]. intros a _ _ Hne. by destruct Hne. }
  destruct (IH _ Hs1) as (Hv' & Ht' & Hx' & Hk'). split_and!; [done..|]. intros a Ha Ea [Hop Hops]%Forall_cons_1.
  apply Hk'; [by apply Hk|done|done].
Qed.
End Operations.

(** ** The service as what the first start and the administration of sources
    synchronise mounts through *)
Section Interface.
Context `{DatabaseLaws} `{JM : JsonMapDecoder} (s : MetadataVFSMountService).

#[local] Hint Extern 5 (_ ∈ _) => set_solver : core.
Ltac nodes_tac := unfold normalized, VFSNodeRepository_FindByPath, VFSNodeRepository_FindByID, VFSNodeRepository_Update,
  VFSNodeRepository_Create, VFSMountRepository_FindByMountPath, VFSMountRepository_FindByNodeID, VFSMountRepository_Update,
  VFSMountRepository_List in *; cbv zeta; frame_tac.
Lemma within_held existing desired : within [TNode; TMount] (held s existing desired).
Proof. unfold held, mountNodeReusableForSource. nodes_tac. Qed.
Lemma within_mount_nodes sourceID now segments : forall current,
  within [TNode; TMount] (ensure_mount_nodes s sourceID now current segments).
Proof.
  induction segments as [|x rest IH]; intros current; cbn [ensure_mount_nodes]; [apply within_ret|].
  destruct (String.eqb x ""); [apply IH|]. apply within_bind; [|intros ?; apply IH].
  unfold ensure_mount_node. cbv zeta. apply within_bind_or; [nodes_tac|intros ?; nodes_tac|]. intros n.
  destruct (negb _); [apply within_throw|]. apply within_bind; [apply within_held|intros taken; nodes_tac].
Qed.
Lemma within_disable keep now ms : within [TNode; TMount] (disable_mounts s keep now ms).
Proof.
  induction ms as [|m rest IH]; cbn [disable_mounts]; [apply within_ret|]. destruct (String.eqb _ keep); [exact IH|].
  apply within_bind; [nodes_tac|intros ids]. apply within_bind; [unfold markMountNodeStale; nodes_tac|intros _].
  apply within_bind; [exact IH|intros more; apply within_ret].
Qed.
Lemma within_disable_other sourceID keep now : within [TNode; TMount] (disableOtherSourceMounts s sourceID keep now).
Proof. apply within_bind; [nodes_tac|intros ms; apply within_disable]. Qed.
Lemma within_mount_tx {A} (m : M GoErr World A) : within [TNode; TMount] m -> within [TNode; TMount] (withinMountTx s m).
Proof. intros Hm. unfold withinMountTx. destruct (ms_transactor s); [by apply within_transaction; [apply normalize_db_error|]|done]. Qed.
Lemma within_sync source : within [TNode; TMount] (MetadataVFSMountService_SyncSourceMount s source).
Proof.
  unfold MetadataVFSMountService_SyncSourceMount. destruct (_ || _); [apply within_throw|]. destruct source as [source|]; [|apply within_throw].
  destruct (N.eqb _ 0); [apply within_throw|]. apply within_bind; [apply within_lift|intros mountPath].
  apply within_bind; [apply within_lift|intros rootPath]. apply within_mount_tx. unfold sync_mount.
  apply within_bind; [apply within_time|intros now]. apply within_bind; [unfold ensureMountPathReusable; nodes_tac|intros _].
  apply within_bind.
  - unfold ensureSourceMountNode. apply within_bind.
    + unfold ensureMountRoot. apply within_bind_or; [nodes_tac|intros e|intros n; apply within_ret].
      destruct (negb _); [apply within_throw|]. apply within_map_err, within_upsert_path. set_solver.
    + intros root. cbv zeta. destruct (String.eqb mountPath "/"); [nodes_tac|apply within_mount_nodes].
  - intros node. cbv zeta. apply within_bind; [unfold VFSMountRepository_UpsertByMountPath; nodes_tac|intros m].
    apply within_bind; [unfold attach_mount; nodes_tac|intros r]. apply within_bind; [apply within_disable_other|intros ids; apply within_ret].
Qed.
Lemma within_disable_source sourceID : within [TNode; TMount] (MetadataVFSMountService_DisableSourceMount s sourceID).
Proof.
  unfold MetadataVFSMountService_DisableSourceMount. destruct (negb _); [apply within_throw|]. destruct (N.eqb _ 0); [apply within_throw|].
  apply within_mount_tx. apply within_bind; [apply within_time|intros now].
  apply within_bind; [apply within_disable_other|intros ids; apply within_ret].
Qed.
End Interface.
#[export] Instance MetadataVFSMountService_syncer `{Database} `{JM : JsonMapDecoder} (s : MetadataVFSMountService) :
    MetadataSourceMountSyncer :=
  {| SyncSourceMount source := (do! MetadataVFSMountService_SyncSourceMount s (Some source) ;; ret tt);
     DisableSourceMount := MetadataVFSMountService_DisableSourceMount s |}.
#[export] Instance MetadataVFSMountService_laws `{DatabaseLaws} `{JM : JsonMapDecoder} (s : MetadataVFSMountService) :
    @MetadataSourceMountSyncerLaws _ (MetadataVFSMountService_syncer s).
Proof.
  split; intros x w; [|apply within_disable_source]. apply wp_bind. eapply wp_mono; [apply within_sync|].
  intros [r|e] w' F; exact F.
Qed.

(** ** Concrete runs *)
#[local] Existing Instances Mem.database Mem.laws.
Module MountExample.
#[export] Instance objects : JsonMapDecoder := fun _ => Some [("root_path", JStr "/r"); ("base_path", JStr "/srv"); ("token", JStr "t")].
Definition mount_service : MetadataVFSMountService :=
  {| ms_nodeRepo := true; ms_mountRepo := true; ms_sourceRepo := true; ms_transactor := true |}.
Definition source_at (id : N) (path : string) : StorageSource :=
  { StorageExample.source with src_ID := id; src_MountPath := path; src_IsEnabled := true }.
Definition empty : World := mem_world Mem.init.
(** A source is mounted at ["/m"], then at ["/n/m"]. *)
Definition history : list mount_op := [OpSync (Some (source_at 1 "/m")); OpSync (Some (source_at 1 "/n/m"))].
Definition after (ops : list mount_op) : World := fold_left (fun w op => run_mount_op mount_service op w) ops empty.
Definition shown (w : World) : list (string * string * option N * string) * list (string * N * bool) :=
  (map (fun n => (vn_Path n, vn_Kind n, vn_SourceID n, vn_SyncState n)) (tbl TNode w),
   map (fun m => (vm_MountPath m, vm_SourceID m, vm_IsEnabled m)) (tbl TMount w)).
Lemma empty_valid : valid empty.
Proof. intros []; reflexivity. Qed.
Lemma empty_tree : tree (tbl TNode empty).
Proof. by intros n ?%elem_of_nil. Qed.
Lemma empty_exclusive : exclusive (tbl TMount empty).
Proof. by intros a b ?%elem_of_nil. Qed.
End MountExample.
Import MountExample.

Example remounted : shown (after history) =
  ([("/", VFSNodeKindRoot, None, "indexed"); ("/m", VFSNodeKindMount, Some 1%N, "stale");
    ("/n", VFSNodeKindVirtualDir, None, "indexed"); ("/n/m", VFSNodeKindMount, Some 1%N, "indexed")],
   [("/m", 1%N, false); ("/n/m", 1%N, true)]).
Proof. vm_compute. reflexivity. Qed.

Lemma mount_sync_effect_witness :
  is_ok (fst (MetadataVFSMountService_SyncSourceMount mount_service (Some (source_at 1 "/n/m")) empty)) = true /\
  exists m n, mount_made (source_at 1 "/n/m") "/n/m" "/pub" m n
    (snd (MetadataVFSMountService_SyncSourceMount mount_service (Some (source_at 1 "/n/m")) empty)).
Proof.
  assert (is_ok (fst (MetadataVFSMountService_SyncSourceMount mount_service (Some (source_at 1 "/n/m")) empty)) = true) as Hok
    by (vm_compute; reflexivity).
  split; [exact Hok|]. pose proof (mount_sync_effect mount_service (source_at 1 "/n/m") empty empty_valid empty_tree) as H.
  destruct (MetadataVFSMountService_SyncSourceMount mount_service (Some (source_at 1 "/n/m")) empty) as [[r|e] w']; [|discriminate Hok].
  destruct H as (_ & mountPath & rootPath & Em & Er & n & _ & Hm & _). injection Em as <-. injection Er as <-.
  exists (msr_Mount r), n. exact Hm.
Defined.

Lemma mounts_exclusive_witness : exclusive (tbl TMount (after history)).
Proof.
  exact (proj1 (proj2 (proj2 (mounts_exclusive mount_service eq_refl history empty empty_valid empty_tree empty_exclusive)))).
Defined.

(** Mounting a source below the mount of another takes the node of the outer
    mount for a directory on the way: it is no longer the node of a mount,
    and names no source, while its mount is still on. *)
Theorem nested_mount_unmounts :
  shown (after [OpSync (Some (source_at 1 "/m")); OpSync (Some (source_at 2 "/m/in"))]) =
    ([("/", VFSNodeKindRoot, None, "indexed"); ("/m", VFSNodeKindVirtualDir, None, "indexed");
      ("/m/in", VFSNodeKindMount, Some 2%N, "indexed")],
     [("/m", 1%N, true); ("/m/in", 2%N, true)]).
Proof. vm_compute. reflexivity. Qed.
