(* ===== verification/RssRules.v ===== *)
(** * RSS: rules ([rss_service.go], the functions without state)

    Which items a subscription takes, where its downloads go, the key that
    recognises an item, when a source is due and what an error means.  The
    engine of package [regexp] is a parameter: the matches, with their
    groups, of an expression in a text. *)
From S2P Require Import Prelude Ints GoStrings Runes Errors Entities Paths Auditing Journal Auth MetaTree Notifications.
From stdpp Require Import base list strings pretty.
From Stdlib Require Import ZArith Lia Ascii.

Local Open Scope string_scope.
Local Open Scope list_scope.

(** ** Constants *)
Definition RSSItemStatusNew := "new".
Definition RSSItemStatusUnsupported := "unsupported".
Definition RSSItemStatusIgnored := "ignored".
Definition RSSItemStatusMatched := "matched".
Definition RSSItemStatusEnqueued := "enqueued".
Definition RSSItemStatusRetryPending := "retry_pending".
Definition RSSItemStatusCompleted := "completed".
Definition RSSItemStatusNeedsAttention := "needs_attention".
Definition RSSSourceHealthOK := "ok".
Definition RSSSourceHealthDegraded := "degraded".
Definition RSSSourceHealthCircuitOpen := "circuit_open".
Definition RSSRefreshStatusSuccess := "success".
Definition RSSRefreshStatusFailed := "failed".
Definition RSSRetryReasonDownloaderUnavailable := "downloader_unavailable".
Definition RSSRetryReasonTorrentFetchFailed := "torrent_fetch_failed".
Definition RSSRetryReasonTaskFailed := "task_failed".
Definition defaultRSSRefreshIntervalSeconds : Z := 1800.
Definition defaultRSSItemMaxRetryCount : Z := 3.
Definition RSSLinkTypeMagnet := "magnet".
Definition RSSLinkTypeTorrent := "torrent".
Definition RSSLinkTypeHTTP := "http".
Definition RSSLinkTypeUnsupported := "unsupported".

Record RSSFetchedItem := {
  fi_Title : string; fi_Link : string; fi_GUID : string; fi_PublishedAt : option Z; fi_Enclosures : list string
}.

(** The zero value of an item. *)
Definition zero_parsed : RSSAnimeParsed :=
  {| rap_AnimeTitle := ""; rap_Season := ""; rap_Episode := ""; rap_SubtitleGroup := ""; rap_Resolution := "" |}.
Definition zero_item : RSSItem :=
  {| rit_ID := 0; rit_UserID := 0; rit_SourceID := 0; rit_Title := ""; rit_Link := ""; rit_PublishedAt := None; rit_GUID := "";
     rit_DedupKey := ""; rit_DownloadURL := ""; rit_LinkType := ""; rit_Parsed := zero_parsed; rit_Status := "";
     rit_MatchedSubscriptionID := None; rit_TaskID := None; rit_ResultVFSNodeID := 0; rit_ErrorMessage := None;
     rit_RetryCount := 0; rit_MaxRetryCount := 0; rit_LastAttemptAt := None; rit_NextRetryAt := None; rit_RetryReason := None;
     rit_CreatedAt := 0; rit_UpdatedAt := 0 |}.

(** ** Text *)
Definition trimStringList (values : list string) : list string :=
  List.filter (fun s => negb (String.eqb s "")) (map trim_space values).
Fixpoint firstNonEmpty (values : list string) : string :=
  match values with
  | [] => ""
  | value :: rest => if negb (String.eqb (trim_space value) "") then trim_space value else firstNonEmpty rest
  end.
Definition hasRSSWindowsDrivePrefix (value : string) : bool :=
  match trim_space value with
  | String ch (String colon _) => Ascii.eqb colon ":" && (byte_between 65 90 ch || byte_between 97 122 ch)
  | _ => false
  end.
Definition is_digit (a : ascii) : bool := byte_between 48 57 a.
Definition isASCIIAlphaNum (value : ascii) : bool := is_digit value || byte_between 97 122 value || byte_between 65 90 value.

(** *** Path segments *)
Definition sanitize_rune (r : string) : string :=
  if String.eqb r "/" || String.eqb r "\" || is_control r then " "
  else if existsb (String.eqb r) ["<"; ">"; ":"; String "034" ""; "|"; "?"; "*"] then " "
  else r.
(** The loop [for strings.Contains(collapsed, "..")]. *)
Fixpoint collapse_dots (fuel : nat) (s : string) : string :=
  match fuel with
  | O => s
  | S fuel' => if contains s ".." then collapse_dots fuel' (replace_pair "." "." "." s) else s
  end.
Definition sanitizeRSSPathSegment (value : string) : string :=
  let built := concat_runes (map sanitize_rune (runes (trim_space value))) in
  let collapsed := join_with " " (fields built) in
  let collapsed := trim_set [" "; "."] collapsed in
  let collapsed := collapse_dots (String.length collapsed) collapsed in
  let collapsed := trim_set [" "; "."] collapsed in
  if String.eqb collapsed "." || String.eqb collapsed ".." then "" else collapsed.

Fixpoint sanitize_segments (segments : list string) : result GoErr (list string) :=
  match segments with
  | [] => Ok []
  | segment :: rest =>
      let cleaned := sanitizeRSSPathSegment segment in
      if String.eqb cleaned "" then sanitize_segments rest
      else if String.eqb cleaned "." || String.eqb cleaned ".." || contains cleaned ".." then Err ErrPathInvalid
      else match sanitize_segments rest with Ok out => Ok (cleaned :: out) | Err e => Err e end
  end.
Definition sanitizeRSSRelativePath (raw : string) : result GoErr string :=
  let trimmed := trim_space raw in
  if String.eqb trimmed "" then Ok ""
  else if contains trimmed "\" || contains trimmed ".." then Err ErrPathInvalid
  else match sanitize_segments (split_on slash trimmed) with
       | Ok out => Ok (join_with "/" out)
       | Err e => Err e
       end.

(** ** Regular expressions *)
(** [FindAllStringSubmatchIndex]: for every match its groups, the whole
    match first, with the offsets where they begin and end; nothing for an
    expression that does not compile. *)
Class Regexp := re_find_all : string -> string -> option (list (list (option (nat * nat)))).
(** The matches of an expression of at least one character lie in the text. *)
Class RegexpLaws `{Regexp} (expr : string) : Prop := re_match_law : forall text matches m,
  re_find_all expr text = Some matches -> m ∈ matches ->
  exists from to groups, m = Some (from, to) :: groups /\ from < to <= String.length text.

Section Matching.
Context `{RE : Regexp}.

Definition re_matches (expr text : string) : list (list (option (nat * nat))) :=
  match re_find_all expr text with Some l => l | None => [] end.
(** [MatchString]. *)
Definition re_match (expr text : string) : option bool :=
  match re_find_all expr text with Some [] => Some false | Some _ => Some true | None => None end.
Definition slice (text : string) (from to : nat) : string := take_bytes (to - from) (drop_bytes from text).
Definition group (text : string) (m : list (option (nat * nat))) (i : nat) : string :=
  match m !! i with Some (Some (from, to)) => slice text from to | _ => "" end.
Definition whole (m : list (option (nat * nat))) : nat * nat :=
  match m with Some loc :: _ => loc | _ => (0, 0) end.

(** *** Numbers in titles *)
Definition normalizeRSSNumber (value : string) : string :=
  let trimmed := trim_left_byte "0" (trim_space value) in
  if String.eqb trimmed "" then "0" else trimmed.
(** [^[0-9]{1,2}$]. *)
Definition isShortNumericRSSKeyword (pattern : string) : bool :=
  match trim_space pattern with
  | String a EmptyString => is_digit a
  | String a (String b EmptyString) => is_digit a && is_digit b
  | _ => false
  end.
Definition rssDateLikePattern : string := "[0-9]{4}[-/.年][0-9]{1,2}[-/.月][0-9]{1,2}(?:日)?".
Definition rssMonthDayLikePattern : string := "(?:^|[^0-9])[0-9]{1,2}[-/.月][0-9]{1,2}(?:日)?(?:$|[^0-9])".
Definition isRSSNumericRunInRegexp (title : string) (start fin : nat) (expr : string) : bool :=
  existsb (fun m => let '(from, to) := whole m in Nat.leb from start && Nat.leb fin to) (re_matches expr title).
Definition byte_at (s : string) (i : nat) : option ascii := String.get i s.
Definition hasRSSVersionSuffix (title : string) (index : nat) : bool :=
  match byte_at title index, byte_at title (S index) with
  | Some v, Some d => (Ascii.eqb v "v" || Ascii.eqb v "V") && is_digit d
  | _, _ => false
  end.
Definition isRSSNumericRunMetadata (title : string) (start fin : nat) : bool :=
  isRSSNumericRunInRegexp title start fin rssDateLikePattern ||
  isRSSNumericRunInRegexp title start fin rssMonthDayLikePattern ||
  (Nat.ltb 0 start && match byte_at title (start - 1) with Some a => isASCIIAlphaNum a | None => false end) ||
  match byte_at title fin with Some next => isASCIIAlphaNum next && negb (hasRSSVersionSuffix title fin) | None => false end.
(** [regexp.QuoteMeta] leaves digits. *)
Definition matchExplicitRSSEpisodeNumber (title normalizedNumber : string) : bool :=
  existsb (fun expr => match re_match expr title with Some b => b | None => false end)
    ["(?i)\bS[0-9]{1,2}E0*" +:+ normalizedNumber +:+ "\b";
     "(?i)\bEP(?:ISODE)?\.?\s*0*" +:+ normalizedNumber +:+ "\b";
     "(?i)\bE0*" +:+ normalizedNumber +:+ "\b";
     "第\s*0*" +:+ normalizedNumber +:+ "\s*(?:集|话|話|回)"].
(** The matches of [[0-9]+]: the longest runs of digits. *)
Fixpoint digit_runs (pos : nat) (s : string) : list (nat * nat) :=
  match s with
  | EmptyString => []
  | String a s' =>
      if is_digit a then
        match digit_runs (S pos) s' with
        | (from, to) :: rest => if Nat.eqb from (S pos) then (pos, to) :: rest else (pos, S pos) :: (from, to) :: rest
        | [] => [(pos, S pos)]
        end
      else digit_runs (S pos) s'
  end.
Definition matchShortNumericRSSKeyword (title pattern : string) : bool :=
  let want := normalizeRSSNumber pattern in
  if String.eqb want "" then false
  else if matchExplicitRSSEpisodeNumber title want then true
  else existsb (fun '(from, to) =>
         let token := slice title from to in
         negb (Nat.ltb 3 (String.length token) || negb (String.eqb (normalizeRSSNumber token) want)) &&
         negb (isRSSNumericRunMetadata title from to)) (digit_runs 0 title).

(** *** Patterns *)
Definition matchRSSPattern (title metadata pattern : string) (useRegex caseSensitive : bool) : option bool :=
  if String.eqb pattern "" then Some true
  else if useRegex then
    re_match (if caseSensitive then pattern else "(?i)" +:+ pattern) (trim_space (title +:+ " " +:+ metadata))
  else if isShortNumericRSSKeyword pattern then Some (matchShortNumericRSSKeyword title pattern)
  else
    let fold s := if caseSensitive then s else to_lower s in
    Some (contains (fold title) (fold pattern) || contains (fold metadata) (fold pattern)).
Definition is_match (m : option bool) : bool := match m with Some b => b | None => false end.
Definition matchAllRSSPatterns (title metadata : string) (patterns : list string) (useRegex caseSensitive : bool) : bool :=
  forallb (fun pattern => is_match (matchRSSPattern title metadata pattern useRegex caseSensitive)) (trimStringList patterns).
Definition matchAnyRSSPattern (title metadata : string) (patterns : list string) (useRegex caseSensitive : bool) : bool :=
  existsb (fun pattern => is_match (matchRSSPattern title metadata pattern useRegex caseSensitive)) (trimStringList patterns).
Definition item_metadata (item : RSSItem) : string := trim_space (rit_Link item +:+ " " +:+ rit_DownloadURL item).
Definition rssSubscriptionMatchesItem (subscription : RSSSubscription) (item : RSSItem) : bool :=
  let title := trim_space (rit_Title item) in
  let metadata := item_metadata item in
  if negb (matchAllRSSPatterns title metadata (rsub_MustContain subscription) (rsub_UseRegex subscription)
             (rsub_CaseSensitive subscription)) then false
  else if matchAnyRSSPattern title metadata (rsub_MustNotContain subscription) (rsub_UseRegex subscription)
            (rsub_CaseSensitive subscription) then false
  else true.
(** [ErrRSSRegexInvalid] is wrapped with the text of the compiler, which is
    left out. *)
Definition validateRSSRulePatterns (mustContain mustNotContain : list string) (useRegex : bool) : result GoErr unit :=
  if negb useRegex then Ok tt
  else if forallb (fun pattern => match re_find_all pattern "" with Some _ => true | None => false end)
            (trimStringList mustContain ++ trimStringList mustNotContain) then Ok tt
  else Err ErrRSSRegexInvalid.

(** *** The preview of a subscription *)
Record RSSSubscriptionPreviewItem := {
  pi_ItemID : N; pi_Title : string; pi_DownloadURL : string; pi_CurrentStatus : string; pi_Matched : list string;
  pi_Missing : list string; pi_Excluded : list string; pi_Result : string
}.
Definition evaluateRSSSubscriptionPreview (subscription : RSSSubscription) (item : RSSItem) : RSSSubscriptionPreviewItem :=
  let title := trim_space (rit_Title item) in
  let metadata := item_metadata item in
  let matches pattern :=
    is_match (matchRSSPattern title metadata pattern (rsub_UseRegex subscription) (rsub_CaseSensitive subscription)) in
  let wanted := trimStringList (rsub_MustContain subscription) in
  let matched := List.filter matches wanted in
  let missing := List.filter (fun pattern => negb (matches pattern)) wanted in
  let excluded := List.filter matches (trimStringList (rsub_MustNotContain subscription)) in
  {| pi_ItemID := rit_ID item; pi_Title := rit_Title item; pi_DownloadURL := rit_DownloadURL item;
     pi_CurrentStatus := rit_Status item; pi_Matched := matched; pi_Missing := missing; pi_Excluded := excluded;
     pi_Result := match excluded, missing with
                  | _ :: _, _ => "excluded"
                  | [], _ :: _ => "missing"
                  | [], [] => "matched"
                  end |}.
End Matching.

(** ** Titles *)
Section Titles.
Context `{RE : Regexp}.

Definition rssResolutionPattern : string := "(?i)(?:2160|1440|1080|720|480)p|[48]k".
Definition rssSxxEyyPattern : string := "(?i)\bS([0-9]{1,2})\s*E([0-9]{1,4}(?:\.[0-9]+)?)(?:v[0-9]+)?\b".
Definition rssSeasonWordPattern : string := "(?i)\b(?:Season\s*([0-9]{1,2})|([0-9]{1,2})(?:st|nd|rd|th)\s+Season)\b".
Definition rssChineseSeasonPattern : string := "第\s*([0-9]{1,2})\s*季".
Definition rssChineseEpisodePattern : string := "第\s*([0-9]{1,4}(?:\.[0-9]+)?)\s*(?:集|话|話|回)".
Definition rssEpisodeWordPattern : string := "(?i)\b(?:EP|Episode)\.?\s*([0-9]{1,4}(?:\.[0-9]+)?)(?:v[0-9]+)?\b".
Definition rssDashEpisodePattern : string := "(?i)(?:^|\s)[-–—]\s*([0-9]{1,4}(?:\.[0-9]+)?)(?:v[0-9]+)?(?:\b|[^0-9])".
Definition rssBracketTokenPattern : string := "[\[【]([^\]】]+)[\]】]".

Definition first_match (expr text : string) : option (list (option (nat * nat))) := head (re_matches expr text).
(** [FindString]. *)
Definition find_string (expr text : string) : string :=
  match first_match expr text with Some m => group text m 0 | None => "" end.

Definition to_upper_byte (a : ascii) : ascii := if byte_between 97 122 a then ascii_of_N (N_of_ascii a - 32) else a.
Fixpoint to_upper (s : string) : string :=
  match s with EmptyString => "" | String a s' => String (to_upper_byte a) (to_upper s') end.
Definition normalizeRSSResolution (value : string) : string :=
  let m := find_string rssResolutionPattern (trim_space value) in
  if String.eqb m "" then ""
  else
    let lower := to_lower m in
    if has_suffix lower "p" then trim_suffix lower "p" +:+ "p" else to_upper lower.

(** [(?i)v[0-9]+$] replaced by nothing. *)
Definition normalizeRSSEpisodeValue (value : string) : string :=
  let trimmed := trim_space value in
  let cut := match first_match "(?i)v[0-9]+$" trimmed with Some m => take_bytes (fst (whole m)) trimmed | None => trimmed end in
  trim_space cut.
(** [^[0-9]{1,4}(?:\.[0-9]+)?$]: digits, or digits, a dot and digits. *)
Definition episode_shape (s : string) : bool :=
  let digits t := negb (String.eqb t "") && forallb is_digit (String.list_ascii_of_string t) in
  match split_on "." s with
  | [a] => digits a && Nat.leb (String.length a) 4
  | [a; b] => digits a && Nat.leb (String.length a) 4 && digits b
  | _ => false
  end.
Definition isRSSEpisodeToken (token : string) : bool :=
  let trimmed := normalizeRSSEpisodeValue token in
  if String.eqb trimmed "" then false
  else if negb (episode_shape trimmed) then false
  else
    let integerPart := match split_on "." trimmed with a :: _ => a | [] => "" end in
    if Nat.eqb (String.length integerPart) 4 && String.leb "1900" integerPart && String.leb integerPart "2100" then false
    else if negb (String.eqb (normalizeRSSResolution (trimmed +:+ "p")) "") &&
            existsb (String.eqb trimmed) ["480"; "720"; "1080"; "1440"; "2160"] then false
    else true.
Definition isRSSMetadataToken (token : string) : bool :=
  let trimmed := trim_space token in
  if String.eqb trimmed "" then false
  else
    let lower := to_lower trimmed in
    if negb (String.eqb (normalizeRSSResolution trimmed) "") then true
    else existsb (contains lower)
      ["web-dl"; "webrip"; "baha"; "aac"; "avc"; "hevc"; "x264"; "x265"; "h264"; "h265"; "mp4"; "mkv"; "chs"; "cht"; "gb";
       "big5"; "繁"; "简"; "字幕"; "内嵌"; "內嵌"; "招募"; "sc"; "tc"].
Definition formatRSSSeason (value : string) : string :=
  let normalized := normalizeRSSNumber value in
  if String.eqb normalized "" then ""
  else if Nat.eqb (String.length normalized) 1 then "S0" +:+ normalized else "S" +:+ normalized.

Definition stripRSSSubtitleGroup (title : string) : string * string :=
  let trimmed := trim_space title in
  let inside open_ close_ :=
    let rest := trim_prefix trimmed open_ in
    match cut_at close_ rest with
    | None => (trimmed, "")
    | Some (before, found) =>
        let group_ := trim_space before in
        if String.eqb group_ "" || isRSSMetadataToken group_ then (trimmed, "")
        else (trim_space (trim_prefix found close_), group_)
    end in
  if String.eqb trimmed "" then ("", "")
  else if has_prefix trimmed "[" then inside "[" "]"
  else if has_prefix trimmed "【" then inside "【" "】"
  else (trimmed, "").

(** One round of the loop of [stripRSSReleaseDecorations]: what is left, if
    a decoration was removed. *)
Definition strip_decoration (out : string) : option string :=
  if negb (has_prefix out "★") then None
  else match cut_at "★" (trim_prefix out "★") with
       | None => None
       | Some (before, found) =>
           if negb (contains before "新番") && negb (contains before "月") then None
           else Some (trim_space (trim_prefix found "★"))
       end.
Fixpoint strip_decorations (fuel : nat) (out : string) : string :=
  match fuel with
  | O => out
  | S fuel' => match strip_decoration out with Some out => strip_decorations fuel' out | None => out end
  end.
Definition stripRSSReleaseDecorations (title : string) : string :=
  let out := trim_space title in strip_decorations (S (String.length out)) out.

Definition parseRSSSeasonEpisode (title : string) : string * string :=
  match first_match rssSxxEyyPattern title with
  | Some m => (formatRSSSeason (group title m 1), normalizeRSSEpisodeValue (group title m 2))
  | None =>
      let season :=
        match first_match rssSeasonWordPattern title with
        | Some m => if negb (String.eqb (group title m 1) "") then formatRSSSeason (group title m 1)
                    else formatRSSSeason (group title m 2)
        | None => ""
        end in
      let season :=
        if negb (String.eqb season "") then season
        else match first_match rssChineseSeasonPattern title with Some m => formatRSSSeason (group title m 1) | None => "" end in
      let episodes :=
        omap (fun expr => m ← first_match expr title;
                          if isRSSEpisodeToken (group title m 1) then Some (group title m 1) else None)
          [rssChineseEpisodePattern; rssEpisodeWordPattern; rssDashEpisodePattern] ++
        List.filter isRSSEpisodeToken (map (fun m => group title m 1) (re_matches rssBracketTokenPattern title)) in
      (season, match episodes with token :: _ => normalizeRSSEpisodeValue token | [] => "" end)
  end.

(** One round of the loop of [trimRSSMetadataSuffix]: what is left, if
    something was cut off. *)
Definition cut_parenthesis (out : string) : option string :=
  if negb (has_suffix out ")") then None
  else match cut_at_last "(" out with
       | None => None
       | Some (before, found) =>
           let token := trim_space (trim_suffix (trim_prefix found "(") ")") in
           if isRSSMetadataToken token || isRSSEpisodeToken token then Some (trim_space before) else None
       end.
Definition cut_bracket (out : string) : option string :=
  match last (re_matches rssBracketTokenPattern out) with
  | None => None
  | Some m =>
      let '(from, to) := whole m in
      if negb (String.eqb (trim_space (drop_bytes to out)) "") then None
      else
        let token := trim_space (group out m 1) in
        if isRSSMetadataToken token || isRSSEpisodeToken token then Some (trim_space (take_bytes from out)) else None
  end.
Definition cut_suffix (out : string) : option string :=
  match cut_parenthesis out with
  | Some out => match cut_bracket out with Some out => Some out | None => Some out end
  | None => cut_bracket out
  end.
Fixpoint cut_suffixes (fuel : nat) (out : string) : string :=
  match fuel with
  | O => out
  | S fuel' => match cut_suffix out with Some out => cut_suffixes fuel' out | None => out end
  end.
Definition trimRSSMetadataSuffix (title : string) : string :=
  let out := trim_space title in cut_suffixes (S (String.length out)) out.

Fixpoint title_before_episode (trimmed previous : string) (ms : list (list (option (nat * nat)))) : option string :=
  match ms with
  | [] => None
  | m :: rest =>
      let token := group trimmed m 1 in
      if negb (isRSSEpisodeToken token) then title_before_episode trimmed (trim_space token) rest
      else if negb (String.eqb previous "") && negb (isRSSMetadataToken previous) then Some previous
      else if Nat.ltb 0 (fst (whole m)) then Some (take_bytes (fst (whole m)) trimmed)
      else title_before_episode trimmed (trim_space token) rest
  end.
Definition extractRSSAnimeTitle (title : string) : string :=
  let trimmed := trim_space title in
  if String.eqb trimmed "" then ""
  else
    let starts :=
      omap (fun expr => m ← first_match expr trimmed;
                        if Nat.ltb 0 (fst (whole m)) then Some (take_bytes (fst (whole m)) trimmed) else None)
        [rssSxxEyyPattern; rssDashEpisodePattern; rssChineseEpisodePattern; rssEpisodeWordPattern] in
    match starts with
    | before :: _ => before
    | [] =>
        match title_before_episode trimmed "" (re_matches rssBracketTokenPattern trimmed) with
        | Some found => found
        | None => trimRSSMetadataSuffix trimmed
        end
    end.
Definition strip_pair (open_ close_ out : string) : string :=
  if has_prefix out open_ && has_suffix out close_ && Nat.ltb (String.length open_ + String.length close_) (String.length out)
  then trim_space (trim_suffix (trim_prefix out open_) close_) else out.
Definition cleanupRSSAnimeTitle (title : string) : string :=
  let out := trimRSSMetadataSuffix (trim_space title) in
  let out := trim_set [" "; String "009" ""; String "013" ""; String "010" ""; "-"; "–"; "—"; "_"] out in
  let out := trim_space out in
  strip_pair "【" "】" (strip_pair "[" "]" out).

Definition parseRSSAnimeTitle (title : string) : RSSAnimeParsed :=
  let original := trim_space title in
  let '(withoutGroup, subtitleGroup) := stripRSSSubtitleGroup original in
  let working := stripRSSReleaseDecorations withoutGroup in
  let '(season, episode) := parseRSSSeasonEpisode original in
  let animeTitle := cleanupRSSAnimeTitle (extractRSSAnimeTitle working) in
  let animeTitle := if String.eqb animeTitle "" then cleanupRSSAnimeTitle working else animeTitle in
  let animeTitle := if String.eqb animeTitle "" then original else animeTitle in
  {| rap_AnimeTitle := animeTitle; rap_Season := season; rap_Episode := episode; rap_SubtitleGroup := subtitleGroup;
     rap_Resolution := normalizeRSSResolution (find_string rssResolutionPattern original) |}.
End Titles.

(** ** Templates *)
Definition rssAllowedTemplateTokens : list string :=
  ["anime_title"; "season"; "episode"; "subtitle_group"; "resolution"; "title"].
(** [skip] counts the bytes of a placeholder that is passed over. *)
Fixpoint valid_placeholders (skip : nat) (template : string) : bool :=
  match template with
  | EmptyString => true
  | String a rest =>
      match skip with
      | S skip' => valid_placeholders skip' rest
      | O =>
          if Ascii.eqb a "{" then
            match cut_at "}" rest with
            | None => false
            | Some (token, _) => existsb (String.eqb token) rssAllowedTemplateTokens && valid_placeholders (S (String.length token)) rest
            end
          else if Ascii.eqb a "}" then false
          else valid_placeholders 0 rest
      end
  end.
Definition validateRSSTemplatePlaceholders (template : string) : result GoErr unit :=
  if valid_placeholders 0 template then Ok tt else Err ErrPathInvalid.

(** The matches of [\{([a-z_]+)\}], replaced by a function of the token. *)
Definition token_byte (a : ascii) : bool := byte_between 97 122 a || Ascii.eqb a "_".
Fixpoint token_prefix (s : string) : string * string :=
  match s with
  | String a s' => if token_byte a then let '(token, rest) := token_prefix s' in (String a token, rest) else ("", s)
  | EmptyString => ("", "")
  end.
Definition placeholder (s : string) : option string :=
  let '(token, rest) := token_prefix s in
  if negb (String.eqb token "") && has_prefix rest "}" then Some token else None.
Fixpoint replace_placeholders (value : string -> string) (skip : nat) (template : string) : string :=
  match template with
  | EmptyString => ""
  | String a rest =>
      match skip with
      | S skip' => replace_placeholders value skip' rest
      | O =>
          match (if Ascii.eqb a "{" then placeholder rest else None) with
          | Some token => value token +:+ replace_placeholders value (S (String.length token)) rest
          | None => String a (replace_placeholders value 0 rest)
          end
      end
  end.

Section Templates.
Context `{RE : Regexp}.

Definition item_parsed (item : RSSItem) : RSSAnimeParsed :=
  let parsed := rit_Parsed item in
  if String.eqb (rap_AnimeTitle parsed) "" && String.eqb (rap_Season parsed) "" && String.eqb (rap_Episode parsed) "" &&
     String.eqb (rap_SubtitleGroup parsed) "" && String.eqb (rap_Resolution parsed) "" &&
     negb (String.eqb (trim_space (rit_Title item)) "")
  then parseRSSAnimeTitle (rit_Title item) else parsed.
Definition template_value (item : RSSItem) (token : string) : string :=
  let parsed := item_parsed item in
  if String.eqb token "anime_title" then firstNonEmpty [rap_AnimeTitle parsed; rit_Title item]
  else if String.eqb token "season" then rap_Season parsed
  else if String.eqb token "episode" then rap_Episode parsed
  else if String.eqb token "subtitle_group" then rap_SubtitleGroup parsed
  else if String.eqb token "resolution" then rap_Resolution parsed
  else if String.eqb token "title" then rit_Title item
  else "".
Definition renderRSSTemplate (template : string) (item : RSSItem) : string :=
  replace_placeholders (fun token => sanitizeRSSPathSegment (template_value item token)) 0 template.

Definition renderRSSDirectoryTemplate (template : string) (item : RSSItem) : result GoErr string :=
  let trimmed := trim_space template in
  if String.eqb trimmed "" then Ok ""
  else if contains trimmed "\" || has_prefix trimmed "/" || contains trimmed ".." || hasRSSWindowsDrivePrefix trimmed
       then Err ErrPathInvalid
  else match validateRSSTemplatePlaceholders trimmed with
       | Err e => Err e
       | Ok _ => sanitizeRSSRelativePath (renderRSSTemplate trimmed item)
       end.
Definition validateRSSDirectoryTemplate (template : string) : result GoErr unit :=
  let trimmed := trim_space template in
  if String.eqb trimmed "" then Ok tt
  else if contains trimmed "\" || has_prefix trimmed "/" || contains trimmed ".." || hasRSSWindowsDrivePrefix trimmed
       then Err ErrPathInvalid
  else match validateRSSTemplatePlaceholders trimmed with
       | Err e => Err e
       | Ok _ => match renderRSSDirectoryTemplate trimmed zero_item with Ok _ => Ok tt | Err e => Err e end
       end.
Definition validateRSSFilenameTemplate (template : string) : result GoErr unit :=
  let trimmed := trim_space template in
  if String.eqb trimmed "" then Ok tt
  else if contains trimmed "\" || contains trimmed "/" || contains trimmed ".." || hasRSSWindowsDrivePrefix trimmed
       then Err ErrPathInvalid
  else match validateRSSTemplatePlaceholders trimmed with
       | Err e => Err e
       | Ok _ =>
           let rendered := renderRSSTemplate trimmed zero_item in
           if String.eqb (trim_space rendered) "" then Ok tt
           else
             let segment := sanitizeRSSPathSegment rendered in
             if String.eqb segment "" || contains segment ".." then Err ErrPathInvalid else Ok tt
       end.

(** [task_service.go]: the name a download is given. *)
Definition maxTaskTargetFilenameRunes : nat := 240.
Definition truncateTaskFilename (filename : string) (maxRunes : nat) : string :=
  if Nat.eqb maxRunes 0 then ""
  else
    let all := runes (trim_space filename) in
    if Nat.leb (length all) maxRunes then concat_runes all else trim_space (concat_runes (take maxRunes all)).
Definition normalizeTaskTargetFilename (input : string) : result GoErr string :=
  let trimmed := trim_space input in
  if String.eqb trimmed "" then Ok ""
  else if contains trimmed "/" || contains trimmed "\" || contains trimmed ".." || hasRSSWindowsDrivePrefix trimmed
       then Err ErrFileNameInvalid
  else
    let cleaned := sanitizeRSSPathSegment trimmed in
    if String.eqb cleaned "" || contains cleaned ".." || negb (is_ok (validateFileName cleaned)) then Err ErrFileNameInvalid
    else Ok (truncateTaskFilename cleaned maxTaskTargetFilenameRunes).

Definition renderRSSTargetVirtualParentPath (subscription : RSSSubscription) (item : RSSItem) : result GoErr string :=
  match normalizeVirtualPath (trim_space (rsub_TargetVirtualParentPath subscription)) with
  | Err e => Err e
  | Ok base =>
      match renderRSSDirectoryTemplate (rsub_DirectoryTemplate subscription) item with
      | Err e => Err e
      | Ok relativeDir =>
          if String.eqb relativeDir "" then Ok base
          else match normalizeVirtualPath (joinVirtualPath base relativeDir) with
               | Err e => Err e
               | Ok normalized => if negb (isSubPath base normalized) then Err ErrPathInvalid else Ok normalized
               end
      end
  end.
Definition renderRSSFilenameTemplate (subscription : RSSSubscription) (item : RSSItem) : result GoErr string :=
  let trimmed := trim_space (rsub_FilenameTemplate subscription) in
  if String.eqb trimmed "" then Ok ""
  else match validateRSSFilenameTemplate trimmed with
       | Err e => Err e
       | Ok _ => match normalizeTaskTargetFilename (renderRSSTemplate trimmed item) with
                 | Ok targetFilename => Ok targetFilename
                 | Err _ => Err ErrPathInvalid
                 end
       end.
End Templates.

(** ** Links and keys *)
(** [url.Parse]: the path of what it accepts. *)
Class UrlPath := url_path : string -> string.

(** [path.Ext]. *)
Definition path_ext (p : string) : string :=
  match cut_at_last "." (snd (split_last p)) with Some (_, found) => found | None => "" end.

Section Links.
Context `{UP : UrlParser} {UPA : UrlPath}.

(** [download_router.go] *)
Definition ClassifyDownloadLink (rawLink : string) : string :=
  let trimmed := trim_space rawLink in
  if String.eqb trimmed "" then RSSLinkTypeUnsupported
  else if has_prefix (to_lower trimmed) "magnet:?" then RSSLinkTypeMagnet
  else match url_parse trimmed with
       | None => RSSLinkTypeUnsupported
       | Some (scheme, _) =>
           if String.eqb scheme "" then RSSLinkTypeUnsupported
           else
             let scheme := to_lower scheme in
             if negb (String.eqb scheme "http") && negb (String.eqb scheme "https") then RSSLinkTypeUnsupported
             else
               let p := url_path trimmed in
               if equal_fold (path_ext p) ".torrent" || has_suffix (to_lower p) ".torrent" then RSSLinkTypeTorrent
               else RSSLinkTypeHTTP
       end.
Definition is_bt_link (linkType : string) : bool :=
  String.eqb linkType RSSLinkTypeMagnet || String.eqb linkType RSSLinkTypeTorrent.
Definition IsBTRSSDownloadLink (rawLink : string) : bool := is_bt_link (ClassifyDownloadLink rawLink).

Definition resolveRSSDownloadLink (item : RSSFetchedItem) : string * string :=
  let candidates := map trim_space (fi_Link item :: fi_Enclosures item) in
  match List.find (fun trimmed => is_bt_link (ClassifyDownloadLink trimmed)) candidates with
  | Some trimmed => (trimmed, ClassifyDownloadLink trimmed)
  | None =>
      match List.find (fun trimmed => negb (String.eqb trimmed "")) candidates with
      | Some trimmed => (trimmed, RSSLinkTypeUnsupported)
      | None => ("", RSSLinkTypeUnsupported)
      end
  end.

Record RSSSourceUpsertRequest := { sr_Name : string; sr_URL : string; sr_IsEnabled : option bool; sr_RefreshIntervalSeconds : Z }.
Definition normalizeRSSSourceInput (req : RSSSourceUpsertRequest) : result GoErr (string * string * Z) :=
  let name := trim_space (sr_Name req) in
  if String.eqb name "" then Err ErrConfigInvalid
  else
    let rawURL := trim_space (sr_URL req) in
    match url_parse rawURL with
    | None => Err ErrConfigInvalid
    | Some (scheme, host) =>
        if String.eqb scheme "" || String.eqb host "" then Err ErrConfigInvalid
        else if negb (String.eqb scheme "http") && negb (String.eqb scheme "https") then Err ErrConfigInvalid
        else
          let interval := sr_RefreshIntervalSeconds req in
          let interval := if Z.leb interval 0 then defaultRSSRefreshIntervalSeconds else interval in
          Ok (name, rawURL, if Z.ltb interval 60 then 60%Z else interval)
    end.
End Links.

Definition nul : string := String "000" "".
Definition boundedRSSDedupKey (kind raw : string) : string :=
  let kind := trim_set [":"] (to_lower (trim_space kind)) in
  (if String.eqb kind "" then "hash" else kind) +:+ ":" +:+ hashToken raw.
Definition buildRSSDedupKey (sourceID : N) (item : RSSFetchedItem) : string :=
  let guid := trim_space (fi_GUID item) in
  if negb (String.eqb guid "") then
    let rawKey := "guid:" +:+ guid in
    if Nat.leb (String.length rawKey) 128 then rawKey
    else boundedRSSDedupKey "guid" (pretty sourceID +:+ nul +:+ guid)
  else
    "hash:" +:+ hashToken (pretty sourceID +:+ nul +:+ trim_space (fi_Link item) +:+ nul +:+ trim_space (fi_Title item)).

(** ** When a source is due *)
Definition normalizeRSSRefreshInterval (interval : Z) : Z :=
  if Z.leb interval 0 then defaultRSSRefreshIntervalSeconds else if Z.ltb interval 60 then 60%Z else interval.
Definition rssSourceHealthForFailures (failures : Z) : string :=
  if Z.leb 5 failures then RSSSourceHealthCircuitOpen
  else if Z.leb 3 failures then RSSSourceHealthDegraded
  else RSSSourceHealthOK.
Definition normalizeRSSSourceHealth (health : string) : string :=
  if String.eqb (trim_space health) "" then RSSSourceHealthOK else trim_space health.
(** Durations and times are in nanoseconds; the product of a duration wraps. *)
Definition rssSourceFailureBackoff (source : RSSSource) : Z :=
  let interval := int_mul (normalizeRSSRefreshInterval (rs_RefreshIntervalSeconds source)) second in
  let failures := rs_ConsecutiveFailures source in
  if Z.leb 6 failures then (60 * minute)%Z
  else if Z.leb 5 failures then (30 * minute)%Z
  else if Z.leb 3 failures then (if Z.ltb interval (30 * minute) then 30 * minute else interval)%Z
  else interval.
Definition sourceRefreshDue (source : RSSSource) (now : Z) : bool :=
  if negb (rs_IsEnabled source) then false
  else match rs_NextRefreshAt source, rs_LastRefreshedAt source with
       | Some next, _ => Z.leb next now
       | None, None => true
       | None, Some last =>
           let interval := rs_RefreshIntervalSeconds source in
           let interval := if Z.leb interval 0 then defaultRSSRefreshIntervalSeconds else interval in
           Z.leb (last + int_mul interval second) now
       end.
(** [stats] is the text of [encodeRSSRefreshStats]. *)
Definition applyRSSSourceRefreshSuccess (source : RSSSource) (stats : string) (now : Z) : RSSSource :=
  { source with rs_HealthStatus := RSSSourceHealthOK; rs_ConsecutiveFailures := 0%Z; rs_LastSuccessAt := Some now;
    rs_LastRefreshStatus := RSSRefreshStatusSuccess; rs_LastRefreshStatsJSON := stats;
    rs_NextRefreshAt := Some (now + int_mul (normalizeRSSRefreshInterval (rs_RefreshIntervalSeconds source)) second)%Z }.
Definition applyRSSSourceRefreshFailure (source : RSSSource) (stats : string) (now : Z) : RSSSource :=
  let source := { source with rs_ConsecutiveFailures := int_add (rs_ConsecutiveFailures source) 1;
                  rs_LastRefreshStatus := RSSRefreshStatusFailed; rs_LastRefreshStatsJSON := stats } in
  { source with rs_HealthStatus := rssSourceHealthForFailures (rs_ConsecutiveFailures source);
    rs_NextRefreshAt := Some (now + rssSourceFailureBackoff source)%Z }.

(** ** Retries *)
Definition ensureRSSItemRetryDefaults (item : RSSItem) : RSSItem :=
  if Z.leb (rit_MaxRetryCount item) 0 then { item with rit_MaxRetryCount := defaultRSSItemMaxRetryCount } else item.
Definition any_is (err : GoErr) (sentinels : list GoErr) : bool := existsb (err_is err) sentinels.
Definition any_in (lower : string) (texts : list string) : bool := existsb (contains lower) texts.
Definition deterministicErrors : list GoErr :=
  [ErrDownloadLinkUnsupported; ErrPathInvalid; ErrNoBackingStorage; ErrNameConflict; ErrMetadataVFSCommitFailed;
   ErrSourceReadOnly; ErrACLDenied; ErrPermissionDenied; ErrConfigInvalid; ErrRSSRegexInvalid].
(** The reason, and whether another attempt is made. *)
Definition classifyRSSRetryError (err : GoErr) : string * bool :=
  if any_is err deterministicErrors then ("deterministic_error", false)
  else if err_is err ErrSourceDriverUnsupported then (RSSRetryReasonDownloaderUnavailable, true)
  else if err_is err ErrDownloaderAuthFailed then (RSSRetryReasonDownloaderUnavailable, false)
  else if err_is err ErrDownloaderUnavailable then (RSSRetryReasonDownloaderUnavailable, true)
  else
    let lower := to_lower (err_text err) in
    if contains lower (err_text ErrMetadataVFSCommitFailed) then ("deterministic_error", false)
    else if any_in lower ["status 401"; "status 403"; "unauthorized"; "forbidden"] then (RSSRetryReasonDownloaderUnavailable, false)
    else if any_in lower ["permission denied"; "read-only"; "unsupported link"; "invalid path"] then ("deterministic_error", false)
    else if any_in lower ["canceled"; "cancelled"] then (RSSRetryReasonTaskFailed, false)
    else if contains lower "torrent" then (RSSRetryReasonTorrentFetchFailed, true)
    else if any_in lower ["unavailable"; "timeout"; "temporary"; "connection refused"; "network"]
         then (RSSRetryReasonDownloaderUnavailable, true)
    else (RSSRetryReasonTaskFailed, true).
Definition rssItemRetryBackoff (retryCount : Z) : Z :=
  if Z.leb retryCount 0 then (5 * minute)%Z else if Z.eqb retryCount 1 then (30 * minute)%Z else (120 * minute)%Z.
Definition taskTerminalErrorMessage (task : DownloadTask) : string :=
  let given := match dt_ErrorMessage task with Some m => trim_space m | None => "" end in
  if negb (String.eqb given "") then given
  else if String.eqb (dt_Status task) "canceled" then "download canceled"
  else "download failed".

Definition rssItemIsCompleted (item : RSSItem) : bool := String.eqb (rit_Status item) RSSItemStatusCompleted.
Definition rssItemAllowsAutomaticProcessing (item : RSSItem) : bool :=
  existsb (String.eqb (rit_Status item)) [""; RSSItemStatusNew; RSSItemStatusIgnored; RSSItemStatusMatched].

(** *** The codes of a batch and of an import *)
Definition rssImportErrorCode (err : GoErr) (notFoundCode : string) : string :=
  if err_is err ErrNotFound then notFoundCode
  else if err_is err ErrConfigInvalid then "CONFIG_INVALID"
  else if err_is err ErrPathInvalid then "PATH_INVALID"
  else if err_is err ErrNoBackingStorage then "NO_BACKING_STORAGE"
  else if err_is err ErrNameConflict then "NAME_CONFLICT"
  else if err_is err ErrSourceReadOnly then "SOURCE_READ_ONLY"
  else if err_is err ErrACLDenied || err_is err ErrPermissionDenied then "PERMISSION_DENIED"
  else if err_is err ErrRSSRegexInvalid then "RSS_REGEX_INVALID"
  else if err_is err ErrSourceDriverUnsupported then "DOWNLOADER_UNAVAILABLE"
  else if err_is err ErrDownloaderAuthFailed then "DOWNLOADER_AUTH_FAILED"
  else if err_is err ErrDownloaderUnavailable then "DOWNLOADER_UNAVAILABLE"
  else "INTERNAL_ERROR".
Definition rssSubscriptionBatchErrorCode (err : GoErr) : string := rssImportErrorCode err "RSS_SUBSCRIPTION_NOT_FOUND".
Definition rssItemBatchErrorCode (err : GoErr) : string :=
  if err_is err ErrNotFound then "RSS_ITEM_NOT_FOUND"
  else if err_is err ErrConfigInvalid then "CONFIG_INVALID"
  else if err_is err ErrPathInvalid then "PATH_INVALID"
  else if err_is err ErrNoBackingStorage then "NO_BACKING_STORAGE"
  else if err_is err ErrNameConflict then "NAME_CONFLICT"
  else if err_is err ErrSourceReadOnly then "SOURCE_READ_ONLY"
  else if err_is err ErrACLDenied || err_is err ErrPermissionDenied then "PERMISSION_DENIED"
  else if err_is err ErrDownloadLinkUnsupported then "DOWNLOAD_LINK_UNSUPPORTED"
  else if err_is err ErrRSSRegexInvalid then "RSS_REGEX_INVALID"
  else if err_is err ErrSourceDriverUnsupported then "DOWNLOADER_UNAVAILABLE"
  else if err_is err ErrDownloaderAuthFailed then "DOWNLOADER_AUTH_FAILED"
  else if err_is err ErrDownloaderUnavailable then "DOWNLOADER_UNAVAILABLE"
  else if err_is err ErrTaskInvalidState then "TASK_INVALID_STATE"
  else "INTERNAL_ERROR".
