(* ===== verification/RssRuleProps.v ===== *)
(** * RSS rules: proofs

    Names and paths made from titles stay inside the directory a
    subscription names, the keys of items are bounded, the loops end. *)
From S2P Require Import Prelude Ints GoStrings Runes Errors Entities Paths Journal Auth Notifications RssRules.
From stdpp Require Import base list strings sets pretty.
From Stdlib Require Import ZArith Lia Ascii NArith.

Local Open Scope string_scope.
Local Open Scope list_scope.

(** ** Runes, fields, dots *)

(** What a rune is made of: one ASCII byte, or bytes from 128. *)
Definition high (a : ascii) : bool := byte_between 128 255 a.
Definition rune_like (r : string) : Prop :=
  (exists a, r = String a "" /\ byte_between 0 127 a = true) \/ (r <> "" /\ every_byte high r = true).
Lemma high_not a : byte_between 0 127 a = false -> high a = true.
Proof.
  unfold high, byte_between. intros H. pose proof (N_ascii_bounded a). apply andb_true_iff.
  apply andb_false_iff in H as [H|H]; rewrite !N.leb_le; apply N.leb_gt in H; lia.
Qed.
Lemma byte_between_high lo hi a : (128 <= lo)%N -> byte_between lo hi a = true -> high a = true.
Proof.
  intros Hlo. unfold high, byte_between. rewrite !andb_true_iff, !N.leb_le. pose proof (N_ascii_bounded a). lia.
Qed.
(** [runes] by cases: the next rune and the rest. *)
Lemma runes_cases a s : exists r rest, runes (String a s) = r :: runes rest /\ rune_like r /\
  String.length rest <= String.length s /\
  (String a s = r +:+ rest \/ (rest = s /\ high a = true /\ r = replacement_rune)).
Proof.
  destruct (byte_between 0 127 a) eqn:Ha.
  { exists (String a ""), s. cbn. unfold rune_head. rewrite Ha. split_and!; [done| |lia|by left]. left. eauto. }
  pose proof (high_not _ Ha) as Hh.
  assert (exists r rest, replacement_rune :: runes s = r :: runes rest /\ rune_like r /\
    String.length rest <= String.length s /\ (String a s = r +:+ rest \/ (rest = s /\ high a = true /\ r = replacement_rune)))
    as Hbad.
  { exists replacement_rune, s. split_and!; [done| |lia|by right]. right. split; [done|by vm_compute]. }
  cbn [runes]. destruct (rune_head a) as [n second] eqn:E.
  assert (forall b, second b = true -> high b = true) as Hsec.
  { unfold rune_head in E. rewrite Ha in E. repeat case_match; simplify_eq; intros b;
      by apply byte_between_high. }
  assert (forall b, continuation b = true -> high b = true) as Hcont by (intros b; by apply byte_between_high).
  assert (n <> 1) as Hn by (unfold rune_head in E; rewrite Ha in E; repeat case_match; simplify_eq; done).
  destruct n as [|[|[|[|[|n]]]]]; try done; destruct s as [|b [|c [|d s]]]; try done;
    repeat match goal with |- context [if ?x then _ else _] => destruct x eqn:?; try done end;
    repeat match goal with H : _ && _ = true |- _ => apply andb_true_iff in H as [? ?] end;
    eexists _, _; (split; [reflexivity|]); (split; [|split; [cbn; lia|by left]]); right; (split; [done|]); cbn;
    rewrite ?andb_true_iff; auto 10.
Qed.
Lemma runes_ind (Q : string -> list string -> Prop) : Q "" [] ->
  (forall a s r rest, rune_like r -> (String a s = r +:+ rest \/ (rest = s /\ high a = true /\ r = replacement_rune)) ->
    Q rest (runes rest) -> Q (String a s) (r :: runes rest)) -> forall s, Q s (runes s).
Proof.
  intros Hnil Hcons s. remember (String.length s) as n eqn:Hn. assert (String.length s <= n) as Hle by lia. clear Hn.
  revert s Hle; induction n as [|n IH]; intros [|a s] Hle; cbn in Hle; try done; try lia.
  destruct (runes_cases a s) as (r & rest & -> & Hr & Hlen & Hs). apply Hcons; [done..|]. apply IH. lia.
Qed.
Lemma runes_like s : Forall rune_like (runes s).
Proof. apply (runes_ind (fun _ l => Forall rune_like l)); [done|]. intros; by constructor. Qed.

(** The bytes of a segment: no separators, no reserved characters, no
    ASCII control characters. *)
Definition segment_byte (a : ascii) : bool :=
  negb (existsb (Ascii.eqb a) ["/"; "\"; "<"; ">"; ":"; "034"; "|"; "?"; "*"; "127"]%char) && negb (byte_between 0 31 a).
Lemma sanitize_rune_bytes r : rune_like r -> every_byte segment_byte (sanitize_rune r) = true.
Proof.
  intros [(a & -> & Ha)|[Hne Hr]].
  - destruct a as [[] [] [] [] [] [] [] []]; try (vm_compute in Ha; discriminate); vm_compute; reflexivity.
  - unfold sanitize_rune. repeat case_match; try by vm_compute.
    eapply every_byte_weaken; [|exact Hr]. clear. intros a Ha.
    destruct a as [[] [] [] [] [] [] [] []]; try (vm_compute in Ha; discriminate); vm_compute; reflexivity.
Qed.
Lemma sanitized_bytes s : every_byte segment_byte (concat_runes (map sanitize_rune (runes s))) = true.
Proof.
  apply every_byte_concat, List.Forall_map. eapply Forall_impl; [apply runes_like|]. apply sanitize_rune_bytes.
Qed.

Lemma fields_bytes P fuel word s : every_byte P word = true -> every_byte P s = true ->
  Forall (fun w => every_byte P w = true) (fields_fuel fuel word s).
Proof.
  revert word s; induction fuel as [|fuel IH]; intros word s Hw Hs; cbn [fields_fuel].
  - case_match; by repeat constructor.
  - destruct s as [|a s]; [case_match; by repeat constructor|]. cbv zeta.
    destruct (first_space space_runes (String a s)) as [rest|] eqn:E.
    + assert (Forall (fun w => every_byte P w = true) (fields_fuel fuel "" rest)) as Hrest.
      { apply IH; [done|]. apply first_space_Some in E as (r & _ & E). rewrite E, every_byte_app in Hs.
        by apply andb_true_iff in Hs as [_ ?]. }
      case_match; [done|]. by constructor.
    + cbn [every_byte] in Hs. apply andb_true_iff in Hs as [Ha Hs]. apply IH; [|done]. rewrite every_byte_app, Hw. cbn. by rewrite Ha.
Qed.

(** *** The loop on ".." *)
Lemma replace_pair_cons a b new x y s : replace_pair a b new (String x (String y s)) =
  if Ascii.eqb x a && Ascii.eqb y b then new +:+ replace_pair a b new s else String x (replace_pair a b new (String y s)).
Proof. reflexivity. Qed.
Lemma length_replace_pair a b c s : String.length (replace_pair a b (String c "") s) <= String.length s.
Proof.
  remember (String.length s) as n eqn:Hn. assert (String.length s <= n) as Hle by lia. rewrite Hn. clear Hn.
  revert s Hle; induction n as [|n IH]; intros [|x [|y s]] Hle; cbn [String.length] in Hle; try (cbn; lia).
  rewrite replace_pair_cons. case_match; cbn [String.append String.length].
  - pose proof (IH s ltac:(lia)). lia.
  - pose proof (IH (String y s) ltac:(cbn; lia)). cbn [String.length] in *. lia.
Qed.
Lemma replace_dots_shorter s : contains s ".." = true ->
  String.length (replace_pair "." "." "." s) < String.length s.
Proof.
  induction s as [|x s IH]; [done|]. destruct s as [|y s]; [by destruct x as [[] [] [] [] [] [] [] []]|].
  intros H. rewrite replace_pair_cons. destruct (Ascii.eqb x "." && Ascii.eqb y ".") eqn:E.
  - pose proof (length_replace_pair "." "." "." s). cbn. lia.
  - assert (contains (String y s) ".." = true) as Hys.
    { change (has_prefix (String x (String y s)) ".." || contains (String y s) ".." = true) in H.
      apply orb_true_iff in H as [[r [= -> ->]]%has_prefix_spec|H]; [done|exact H]. }
    specialize (IH Hys). cbn [String.length] in *. lia.
Qed.
Lemma collapse_dots_ends fuel s : String.length s <= fuel -> contains (collapse_dots fuel s) ".." = false.
Proof.
  revert s; induction fuel as [|fuel IH]; intros s Hs; cbn.
  - by destruct s; cbn in Hs; [|lia].
  - destruct (contains s "..") eqn:E; [|done]. apply IH. pose proof (replace_dots_shorter s E). lia.
Qed.
Lemma collapse_dots_more fuel s : String.length s <= fuel -> collapse_dots fuel s = collapse_dots (String.length s) s.
Proof.
  remember (String.length s) as n eqn:Hn. assert (String.length s <= n) as Hle by lia. clear Hn. intros Hf.
  revert s fuel Hle Hf; induction n as [|n IH]; intros s fuel Hle Hf.
  - destruct s; cbn in Hle; [|lia]. by destruct fuel.
  - destruct fuel as [|fuel]; [lia|]. cbn. destruct (contains s "..") eqn:E; [|done].
    pose proof (replace_dots_shorter s E). apply IH; lia.
Qed.
Lemma replace_pair_bytes P c s : P c = true -> every_byte P s = true -> every_byte P (replace_pair c c (String c "") s) = true.
Proof.
  intros Hc. remember (String.length s) as n eqn:Hn. assert (String.length s <= n) as Hle by lia. clear Hn.
  revert s Hle; induction n as [|n IH]; intros [|x [|y s]] Hle Hs; cbn in Hle; try done; try lia.
  cbn [every_byte] in Hs. apply andb_true_iff in Hs as [Hx [Hy Hs]%andb_true_iff]. rewrite replace_pair_cons.
  case_match; cbn [every_byte String.append].
  - rewrite Hc. apply IH; [lia|done].
  - rewrite Hx. apply IH; [cbn; lia|]. cbn. by rewrite Hy.
Qed.
Lemma collapse_dots_bytes P fuel s : P "."%char = true -> every_byte P s = true -> every_byte P (collapse_dots fuel s) = true.
Proof.
  intros Hd. revert s; induction fuel as [|fuel IH]; intros s Hs; cbn; [done|]. case_match; [|done].
  apply IH. by apply replace_pair_bytes.
Qed.

(** ** Segments *)
Definition bare (c : ascii) (s : string) : Prop :=
  has_prefix s (String c "") = false /\ has_suffix s (String c "") = false.
Definition safe_segment (s : string) : Prop :=
  every_byte segment_byte s = true /\ contains s ".." = false /\ bare " " s /\ bare "." s.
Lemma sanitize_safe value : safe_segment (sanitizeRSSPathSegment value).
Proof.
  unfold sanitizeRSSPathSegment. cbv zeta.
  set (built := concat_runes _). set (joined := join_with " " (fields built)).
  set (once := trim_set _ joined). set (collapsed := collapse_dots _ once).
  assert (every_byte segment_byte joined = true) as Hj.
  { apply every_byte_join; [done|]. apply fields_bytes; [done|]. apply sanitized_bytes. }
  assert (every_byte segment_byte collapsed = true) as Hc.
  { apply collapse_dots_bytes; [done|]. by eapply every_byte_part, Hj; apply trim_set_part. }
  assert (safe_segment (trim_set [" "; "."] collapsed)) as Hs; [|case_match; [by repeat split|done]].
  split_and!; [|eapply part_lacks; [apply trim_set_part|by apply collapse_dots_ends]|..].
  - by eapply every_byte_part, Hc; apply trim_set_part.
  - apply trim_set_ends; [by repeat constructor|set_solver].
  - apply trim_set_ends; [by repeat constructor|set_solver].
Qed.
Lemma safe_good s : safe_segment s -> s <> "" -> good_seg s = true.
Proof.
  intros (Hb & Hd & _ & [Hp _]) Hne. unfold good_seg, plain_seg. rewrite Hd, !andb_true_iff, !negb_true_iff, !String.eqb_neq.
  split_and!; [done|by intros ->|by intros ->|by apply (every_byte_no _ segment_byte)|done].
Qed.

(** ** Dots that white space and slashes keep apart *)
Lemma dots_behind r s : has_byte "." r = false -> contains (r +:+ s) ".." = contains s "..".
Proof.
  induction r as [|a r IH]; [done|]. rewrite has_byte_cons. intros [Ha Hr]%orb_false_iff.
  change (has_prefix (String a (r +:+ s)) ".." || contains (r +:+ s) ".." = contains s ".."). rewrite IH by done.
  destruct (has_prefix _ _) eqn:E; [|done]. apply has_prefix_spec in E as [x [= -> _]]. done.
Qed.
Lemma dots_before s r : has_byte "." r = false -> contains (s +:+ r) ".." = contains s "..".
Proof.
  intros Hr. induction s as [|a s IH].
  - cbn [String.append]. rewrite <- (append_nil_r r), dots_behind by done. done.
  - change (has_prefix (String a (s +:+ r)) ".." || contains (s +:+ r) ".." = has_prefix (String a s) ".." || contains s "..").
    rewrite IH. f_equal. apply eq_true_iff_eq. rewrite !has_prefix_spec. split; intros [x [= -> Hx]].
    + destruct s as [|b s]; cbn in Hx; [|by simplify_eq; exists s].
      by rewrite Hx in Hr.
    + exists (x +:+ r). rewrite Hx. done.
Qed.
Lemma spaces_no_dot s : spaces s -> has_byte "." s = false.
Proof. intros Hs. apply every_byte_not. apply spaces_every; [by vm_compute; repeat constructor|done]. Qed.
Lemma trim_space_dots s : contains (trim_space s) ".." = contains s "..".
Proof.
  destruct (trim_left_fuel_split (String.length s) s) as (a & Ha & Hsa). destruct (trim_right_split (trim_left s)) as (w & Hw & Hsw).
  unfold trim_space. apply spaces_no_dot in Hsa, Hsw. transitivity (contains (trim_left s) "..").
  - rewrite Hw at 2. by rewrite dots_before.
  - rewrite Ha at 2. by rewrite dots_behind.
Qed.

(** ** Relative paths *)
Fixpoint count_byte (c : ascii) (s : string) : nat :=
  match s with EmptyString => 0 | String a s' => (if Ascii.eqb a c then 1 else 0) + count_byte c s' end.
Lemma length_split_on c s : length (split_on c s) = S (count_byte c s).
Proof.
  induction s as [|a s IH]; [done|]. cbn. destruct (Ascii.eqb a c); cbn; [by rewrite IH|].
  destruct (split_on c s); cbn in *; congruence.
Qed.
Lemma count_byte_app c s t : count_byte c (s +:+ t) = count_byte c s + count_byte c t.
Proof. induction s as [|a s IH]; cbn; [done|]. rewrite IH. lia. Qed.
Lemma count_byte_no c s : has_byte c s = false -> count_byte c s = 0.
Proof.
  induction s as [|a s IH]; [done|]. rewrite has_byte_cons, Ascii.eqb_sym. intros [Ha Hs]%orb_false_iff. cbn. by rewrite Ha, IH.
Qed.
Lemma count_byte_part c s t : contains s t = true -> count_byte c t <= count_byte c s.
Proof. intros (a & b & ->)%contains_spec. rewrite !count_byte_app. lia. Qed.

Definition segment_ok (s : string) : Prop := safe_segment s /\ good_seg s = true.
Lemma sanitize_segments_ok segments : exists out, sanitize_segments segments = Ok out /\ Forall segment_ok out /\
  length out <= length segments.
Proof.
  induction segments as [|s rest (out & Hout & Hok & Hlen)]; [by exists []|]. cbn [sanitize_segments].
  pose proof (sanitize_safe s) as Hs. destruct (String.eqb_spec (sanitizeRSSPathSegment s) "") as [E|E].
  - exists out. split_and!; [done..|]. cbn. lia.
  - pose proof (safe_good _ Hs E) as Hg. destruct (plain_seg_spec (sanitizeRSSPathSegment s)) as [Hp _].
    destruct (Hp (good_plain _ Hg)) as (_ & Hd & Hdd & _). apply String.eqb_neq in Hd, Hdd.
    assert (contains (sanitizeRSSPathSegment s) ".." = false) as Hc by apply Hs. rewrite Hd, Hdd, Hc, Hout.
    exists (sanitizeRSSPathSegment s :: out). split; [done|]. split; [|cbn; lia]. by constructor.
Qed.
Lemma segments_good out : Forall segment_ok out -> good_segs out = true.
Proof. intros H. apply forallb_forall. intros s Hs. rewrite List.Forall_forall in H. by apply H. Qed.

(** A text without backslash and ".." is made a relative path. *)
Lemma sanitize_relative raw : has_byte "\" raw = false -> contains raw ".." = false ->
  exists out, sanitizeRSSRelativePath raw = Ok (join_with "/" out) /\ Forall segment_ok out /\
    length out <= S (count_byte slash raw).
Proof.
  intros Hb Hd. unfold sanitizeRSSRelativePath. destruct (String.eqb_spec (trim_space raw) "") as [E|E].
  { exists []. split_and!; [done..|cbn; lia]. }
  pose proof (trim_space_part raw) as Hpart. assert (contains (trim_space raw) "\" = false) as -> by by eapply part_lacks.
  rewrite trim_space_dots, Hd. cbn [orb].
  destruct (sanitize_segments_ok (split_on slash (trim_space raw))) as (out & -> & Hok & Hlen).
  exists out. split_and!; [done..|]. rewrite length_split_on in Hlen. pose proof (count_byte_part slash _ _ Hpart). lia.
Qed.

Lemma join_with_render a l : join_with "/" (a :: l) = a +:+ render_tail l.
Proof.
  revert a; induction l as [|b l IH]; intros a; [by cbn; rewrite append_nil_r|].
  change (a +:+ "/" +:+ join_with "/" (b :: l) = a +:+ "/" +:+ (b +:+ render_tail l)). by rewrite IH.
Qed.
Lemma join_relative lb out : good_segs lb = true -> good_segs out = true -> out <> [] ->
  join_with "/" out <> "" /\ joinVirtualPath (render lb) (join_with "/" out) = render (lb ++ out).
Proof.
  intros Hb Ho Hne. destruct out as [|a l]; [done|]. rewrite join_with_render.
  apply good_segs_plain in Ho. cbn [forallb] in Ho. apply andb_true_iff in Ho as [Ha Hl].
  apply plain_seg_spec in Ha as (Hn & _ & _ & Hs). split; [by destruct a|].
  assert (trim_prefix (a +:+ render_tail l) "/" = a +:+ render_tail l) as Ht.
  { apply trim_prefix_no, not_true_is_false. intros [r Hr]%has_prefix_spec. destruct a as [|x a]; [done|].
    by cbn in Hr; simplify_eq. }
  unfold joinVirtualPath. rewrite Ht. destruct lb as [|b lb]; [done|].
  assert (String.eqb (render (b :: lb)) "/" = false) as ->.
  { apply String.eqb_neq. change "/" with (render []). intros E. apply render_inj in E; [done|by apply good_segs_plain|done]. }
  change (render (b :: lb)) with (render_tail (b :: lb)). change ((b :: lb) ++ a :: l) with (b :: (lb ++ a :: l)).
  change (render (b :: (lb ++ a :: l))) with (render_tail ((b :: lb) ++ a :: l)). by rewrite render_tail_app.
Qed.

(** ** Templates *)
Section Templates.
Context `{RE : Regexp}.

Lemma replace_ext f g skip t : (forall token, f token = g token) -> replace_placeholders f skip t = replace_placeholders g skip t.
Proof.
  intros H. revert skip; induction t as [|a t IH]; intros skip; [done|]. cbn [replace_placeholders].
  destruct skip; [|apply IH]. case_match; [by rewrite H, IH | by rewrite IH].
Qed.
Lemma replace_bytes P f skip t : (forall token, every_byte P (f token) = true) -> every_byte P t = true ->
  every_byte P (replace_placeholders f skip t) = true.
Proof.
  intros Hf. revert skip; induction t as [|a t IH]; intros skip; [done|]. cbn [every_byte]. intros [Ha Ht]%andb_true_iff.
  cbn [replace_placeholders]. destruct skip; [|by apply IH]. case_match; [by rewrite every_byte_app, Hf, IH|].
  cbn [every_byte]. by rewrite Ha, IH.
Qed.
Lemma replace_slashes f skip t : (forall token, has_byte slash (f token) = false) ->
  count_byte slash (replace_placeholders f skip t) <= count_byte slash t.
Proof.
  intros Hf. revert skip; induction t as [|a t IH]; intros skip; [done|]. cbn [replace_placeholders count_byte].
  destruct skip as [|skip]; [|specialize (IH skip); lia]. case_match.
  - rewrite count_byte_app, (count_byte_no slash) by done. specialize (IH (S (String.length s))). lia.
  - cbn [count_byte]. specialize (IH 0). lia.
Qed.
(** Values that keep their dots to themselves: two dots of the text stand
    together in the template once its placeholders are left out. *)
Definition inner_dots (v : string) : Prop := contains v ".." = false /\ bare "." v.
Lemma inner_dots_app v s : inner_dots v -> v <> "" -> contains (v +:+ s) ".." = contains s "..".
Proof.
  intros (Hd & _ & He) Hne. revert Hd He Hne. induction v as [|a v IH]; [done|]. intros Hd He _.
  change (contains (String a v) "..") with (has_prefix (String a v) ".." || contains v "..") in Hd.
  change (has_suffix (String a v) ".") with (String.eqb (String a v) "." || has_suffix v ".") in He.
  apply orb_false_iff in Hd as [Hd1 Hd2]. apply orb_false_iff in He as [He1 He2].
  change (has_prefix (String a (v +:+ s)) ".." || contains (v +:+ s) ".." = contains s "..").
  assert (has_prefix (String a (v +:+ s)) ".." = false) as ->.
  { apply not_true_is_false. intros [r [= -> Hr]]%has_prefix_spec. destruct v as [|b v]; [done|].
    cbn in Hr. injection Hr as -> Hr. by apply not_true_iff_false in Hd1. }
  destruct v as [|b v]; [done|]. by apply IH.
Qed.
Lemma replace_dot_first f skip t : (forall token, inner_dots (f token)) ->
  has_prefix (replace_placeholders f skip t) "." = true ->
  has_prefix (replace_placeholders (fun _ => "") skip t) "." = true.
Proof.
  intros Hf. revert skip; induction t as [|a t IH]; intros skip; [done|]. cbn [replace_placeholders].
  destruct skip; [|apply IH]. case_match eqn:E; [|by intros [r [= -> _]]%has_prefix_spec; exact (has_prefix_app "." _)].
  destruct (Hf s) as (_ & Hp & _). cbn [String.append]. destruct (f s) as [|b v]; [apply IH|].
  intros [r Hr]%has_prefix_spec. cbn in Hr. injection Hr as -> _. done.
Qed.
Lemma replace_dots f skip t : (forall token, inner_dots (f token)) ->
  contains (replace_placeholders f skip t) ".." = true ->
  contains (replace_placeholders (fun _ => "") skip t) ".." = true.
Proof.
  intros Hf. revert skip; induction t as [|a t IH]; intros skip; [done|]. cbn [replace_placeholders].
  destruct skip; [|apply IH]. case_match eqn:E.
  - cbn [String.append]. destruct (decide (f s = "")) as [->|Hne]; [apply IH|]. rewrite inner_dots_app by done. apply IH.
  - set (whole := replace_placeholders f 0 t). set (bare_ := replace_placeholders _ 0 t).
    change (has_prefix (String a whole) ".." || contains whole ".." = true ->
            has_prefix (String a bare_) ".." || contains bare_ ".." = true).
    intros [[r [= -> Hr]]%has_prefix_spec|H]%orb_true_iff; apply orb_true_iff; [left|right; by apply IH].
    assert (has_prefix bare_ "." = true) as [x Hx]%has_prefix_spec.
    { apply (replace_dot_first f); [done|]. fold whole. rewrite Hr. exact (has_prefix_app "." r). }
    rewrite Hx. exact (has_prefix_app ".." x).
Qed.

Lemma rendered_values item token : inner_dots (sanitizeRSSPathSegment (template_value item token)).
Proof. destruct (sanitize_safe (template_value item token)) as (_ & Hd & _ & Hb). by split. Qed.
Lemma rendered_bytes item token : every_byte segment_byte (sanitizeRSSPathSegment (template_value item token)) = true.
Proof. apply sanitize_safe. Qed.
Lemma render_zero t : renderRSSTemplate t zero_item = replace_placeholders (fun _ => "") 0 t.
Proof.
  apply replace_ext. intros token. assert (template_value zero_item token = "") as ->; [|by vm_compute].
  unfold template_value. change (item_parsed zero_item) with zero_parsed. by repeat case_match.
Qed.
(** A template whose empty rendering has no ".." has none in any. *)
Lemma render_clean t item : has_byte "\" t = false -> contains (renderRSSTemplate t zero_item) ".." = false ->
  has_byte "\" (renderRSSTemplate t item) = false /\ contains (renderRSSTemplate t item) ".." = false /\
  count_byte slash (renderRSSTemplate t item) <= count_byte slash t.
Proof.
  intros Hb Hz. rewrite render_zero in Hz. split_and!.
  - apply every_byte_not. apply replace_bytes; [|by apply every_byte_not]. intros token.
    eapply every_byte_weaken; [|apply rendered_bytes]. intros a Ha. apply negb_true_iff, Ascii.eqb_neq. by intros <-.
  - apply not_true_is_false. intros H. apply replace_dots in H; [congruence|]. apply rendered_values.
  - apply replace_slashes. intros token. by apply (every_byte_no _ segment_byte); [|apply rendered_bytes].
Qed.
End Templates.

(** ** The loops *)
Lemma part_shorter s t : contains s t = true -> String.length t <= String.length s.
Proof. intros (a & b & ->)%contains_spec. rewrite !length_append. lia. Qed.
Lemma trim_space_shorter s : String.length (trim_space s) <= String.length s.
Proof. apply part_shorter, trim_space_part. Qed.
Lemma cut_at_split p s before found : cut_at p s = Some (before, found) -> s = before +:+ found /\ has_prefix found p = true.
Proof.
  revert before; induction s as [|a s IH]; intros before; cbn [cut_at].
  - case_match; [|done]. intros [= <- <-]. done.
  - case_match; [by intros [= <- <-]|]. destruct (cut_at p s) as [[b f]|]; [|done]. intros [= <- <-].
    destruct (IH b eq_refl) as [-> ?]. done.
Qed.
Lemma cut_at_last_split p s before found : cut_at_last p s = Some (before, found) ->
  s = before +:+ found /\ has_prefix found p = true.
Proof.
  revert before; induction s as [|a s IH]; intros before; cbn [cut_at_last].
  - case_match; [|done]. by intros [= <- <-].
  - destruct (cut_at_last p s) as [[b f]|]; [|case_match; [|done]; by intros [= <- <-]]. intros [= <- <-].
    destruct (IH b eq_refl) as [-> ?]. done.
Qed.
Lemma length_trim_prefix s p : has_prefix s p = true -> String.length s = String.length p + String.length (trim_prefix s p).
Proof. intros [r ->]%has_prefix_spec. by rewrite trim_prefix_app, length_append. Qed.
(** A loop whose rounds shorten the text. *)
Section Loop.
Context (round : string -> option string) (loop : nat -> string -> string).
Hypothesis loop_eq : forall fuel s, loop (S fuel) s = match round s with Some s' => loop fuel s' | None => s end.
Hypothesis shorter : forall s s', round s = Some s' -> String.length s' < String.length s.
Lemma loop_ends fuel s : String.length s < fuel -> round (loop fuel s) = None.
Proof.
  revert s; induction fuel as [|fuel IH]; intros s Hs; [lia|]. rewrite loop_eq. destruct (round s) as [s'|] eqn:E; [|done].
  apply IH. apply shorter in E. lia.
Qed.
End Loop.
Lemma strip_shorter s s' : strip_decoration s = Some s' -> String.length s' < String.length s.
Proof.
  unfold strip_decoration. destruct (has_prefix s "★") eqn:Hp; cbn [negb]; [|done].
  destruct (cut_at _ _) as [[before found]|] eqn:E; [|done]. case_match; [done|]. intros [= <-].
  apply cut_at_split in E as [E Hf]. pose proof (trim_space_shorter (trim_prefix found "★")).
  apply length_trim_prefix in Hp, Hf. apply (f_equal String.length) in E. rewrite length_append in E. cbn [String.length] in *. lia.
Qed.

Section Suffixes.
Context `{RE : Regexp} `{!RegexpLaws rssBracketTokenPattern}.

Lemma parenthesis_shorter s s' : cut_parenthesis s = Some s' -> String.length s' < String.length s.
Proof.
  unfold cut_parenthesis. case_match; [done|]. destruct (cut_at_last _ _) as [[before found]|] eqn:E; [|done].
  case_match; [|done]. intros [= <-]. apply cut_at_last_split in E as [E Hf]. pose proof (trim_space_shorter before).
  apply length_trim_prefix in Hf. apply (f_equal String.length) in E. rewrite length_append in E. cbn [String.length] in *. lia.
Qed.
Lemma length_take_bytes n s : String.length (take_bytes n s) <= n.
Proof. revert s; induction n as [|n IH]; intros [|a s]; cbn; [lia..|]. specialize (IH s). lia. Qed.
Lemma bracket_shorter s s' : cut_bracket s = Some s' -> String.length s' < String.length s.
Proof.
  unfold cut_bracket. destruct (last _) as [m|] eqn:E; [|done]. unfold re_matches in E.
  destruct (re_find_all _ _) as [ms|] eqn:Hms; [|done]. apply last_Some_elem_of in E.
  destruct (re_match_law _ _ _ Hms E) as (from & to & groups & -> & Hb). cbn [whole]. case_match; [done|].
  case_match; [|done]. intros [= <-]. pose proof (trim_space_shorter (take_bytes from s)).
  pose proof (length_take_bytes from s). lia.
Qed.
Lemma suffix_shorter s s' : cut_suffix s = Some s' -> String.length s' < String.length s.
Proof.
  unfold cut_suffix. destruct (cut_parenthesis s) as [t|] eqn:Hp; [|apply bracket_shorter]. apply parenthesis_shorter in Hp.
  destruct (cut_bracket t) as [u|] eqn:Hb; intros [= <-]; [|done]. apply bracket_shorter in Hb. lia.
Qed.
End Suffixes.

(** ** The rules of names and paths *)
Section Targets.
Context `{RE : Regexp}.

Lemma directory_ok template item : validateRSSDirectoryTemplate template = Ok tt ->
  exists out, renderRSSDirectoryTemplate template item = Ok (join_with "/" out) /\ Forall segment_ok out /\
    length out <= S (count_byte slash template).
Proof.
  unfold validateRSSDirectoryTemplate, renderRSSDirectoryTemplate. rewrite trim_space_twice.
  destruct (String.eqb_spec (trim_space template) "") as [|Hne]; [by exists []; split_and!; [..|cbn; lia]|].
  destruct (contains (trim_space template) "\") eqn:Hb; [done|]. cbn [orb].
  destruct (_ || _ || _); [done|]. destruct (validateRSSTemplatePlaceholders _); [|done].
  destruct (contains (renderRSSTemplate (trim_space template) zero_item) "..") eqn:Hz.
  { unfold sanitizeRSSRelativePath at 1. rewrite trim_space_dots, Hz, orb_true_r.
    destruct (String.eqb_spec (trim_space (renderRSSTemplate (trim_space template) zero_item)) "") as [E|]; [|done].
    rewrite <- trim_space_dots, E in Hz. done. }
  intros _. destruct (render_clean (trim_space template) item Hb Hz) as (Hb' & Hd' & Hc).
  destruct (sanitize_relative _ Hb' Hd') as (out & -> & Hok & Hlen). exists out. split_and!; [done..|].
  pose proof (count_byte_part slash _ _ (trim_space_part template)). lia.
Qed.

(** A name that is cut to a number of runes. *)
Lemma replacement_high : every_byte high replacement_rune = true.
Proof. by vm_compute. Qed.
Lemma high_no_dot r : every_byte high r = true -> has_byte "." r = false.
Proof. by apply every_byte_no. Qed.
Lemma take_runes_dot s n : has_prefix (concat_runes (take n (runes s))) "." = true -> has_prefix s "." = true.
Proof.
  destruct s as [|a s]; [by destruct n|]. destruct n as [|n]; [done|].
  destruct (runes_cases a s) as (r & rest & -> & Hr & _ & Hs). intros [x Hx]%has_prefix_spec.
  change (r +:+ concat_runes (take n (runes rest)) = String "." x) in Hx.
  destruct Hs as [Hs|(-> & _ & ->)]; [|done]. rewrite Hs.
  destruct Hr as [(b & -> & _)|[Hne Hr]]; [cbn in Hx; injection Hx as -> _; exact (has_prefix_app "." rest)|].
  destruct r as [|b r]; [done|]. cbn in Hx. injection Hx as -> _. done.
Qed.
Lemma take_runes_dots s n : contains s ".." = false -> contains (concat_runes (take n (runes s))) ".." = false.
Proof.
  revert n. apply (runes_ind (fun s l => forall n, contains s ".." = false -> contains (concat_runes (take n l)) ".." = false)).
  { by intros [|n]. }
  clear s. intros a s r rest Hr Hs IH [|n] Hd; [done|].
  change (contains (r +:+ concat_runes (take n (runes rest))) ".." = false).
  assert (contains rest ".." = false) as Hrest.
  { destruct Hs as [E|(-> & _ & _)]; [|by eapply part_lacks, Hd; apply (contains_suffix (String a ""))].
    rewrite E in Hd. by eapply part_lacks, Hd; apply contains_suffix. }
  specialize (IH n Hrest). destruct Hr as [(b & -> & _)|[_ Hr]]; [|by rewrite dots_behind by by apply high_no_dot].
  set (X := concat_runes (take n (runes rest))) in *.
  change (has_prefix (String b X) ".." || contains X ".." = false). rewrite IH, orb_false_r.
  apply not_true_is_false. intros [x [= -> Hx]]%has_prefix_spec.
  assert (has_prefix rest "." = true) as [y ->]%has_prefix_spec.
  { apply (take_runes_dot rest n). fold X. rewrite Hx. exact (has_prefix_app "." x). }
  destruct Hs as [E|(_ & Ha & E)]; [|done]. rewrite E in Hd. cbn [String.append] in Hd.
  change (has_prefix (".." +:+ y) ".." || contains ("." +:+ y) ".." = false) in Hd. by rewrite has_prefix_app in Hd.
Qed.
Lemma take_runes_bytes P s n : (forall a, high a = true -> P a = true) -> every_byte P s = true ->
  every_byte P (concat_runes (take n (runes s))) = true.
Proof.
  intros HP. revert n. apply (runes_ind (fun s l => forall n, every_byte P s = true -> every_byte P (concat_runes (take n l)) = true)).
  { by intros [|n]. }
  clear s. intros a s r rest Hr Hs IH [|n] Hb; [done|].
  change (every_byte P (r +:+ concat_runes (take n (runes rest))) = true). rewrite every_byte_app.
  destruct Hs as [E|(-> & _ & ->)].
  - rewrite E, every_byte_app in Hb. apply andb_true_iff in Hb as [-> Hb]. by apply IH.
  - cbn [every_byte] in Hb. apply andb_true_iff in Hb as [_ Hb]. rewrite IH by done.
    by rewrite (every_byte_weaken high P) by (done || apply replacement_high).
Qed.
Lemma take_all_runes s : concat_runes (runes s) = concat_runes (take (length (runes s)) (runes s)).
Proof. by rewrite take_ge. Qed.
Definition safe_name (name : string) : Prop := every_byte segment_byte name = true /\ contains name ".." = false.
Lemma safe_part s t : contains s t = true -> safe_name s -> safe_name t.
Proof. intros Hp [Hb Hd]. split; [by eapply every_byte_part|by eapply part_lacks]. Qed.
Lemma safe_runes s n : safe_name s -> safe_name (concat_runes (take n (runes s))).
Proof.
  intros [Hb Hd]. split; [|by apply take_runes_dots]. apply take_runes_bytes; [|done]. clear.
  intros a Ha. destruct a as [[] [] [] [] [] [] [] []]; try (vm_compute in Ha; discriminate); vm_compute; reflexivity.
Qed.
Lemma filename_safe input name : normalizeTaskTargetFilename input = Ok name -> safe_name name.
Proof.
  unfold normalizeTaskTargetFilename. case_match; [by intros [= <-]|]. case_match; [done|].
  destruct (sanitize_safe (trim_space input)) as (Hb & Hd & _). case_match; [done|]. intros [= <-].
  unfold truncateTaskFilename. cbn [Nat.eqb maxTaskTargetFilenameRunes].
  assert (safe_name (trim_space (sanitizeRSSPathSegment (trim_space input)))) as Hs by (eapply safe_part; [apply trim_space_part|done]).
  case_match; [rewrite take_all_runes; by apply safe_runes|]. eapply safe_part; [apply trim_space_part|]. by apply safe_runes.
Qed.

(** The directory of an item's download. *)
Lemma target_renders subscription item base :
  normalizeVirtualPath (trim_space (rsub_TargetVirtualParentPath subscription)) = Ok base ->
  validateRSSDirectoryTemplate (rsub_DirectoryTemplate subscription) = Ok tt ->
  exists out, renderRSSTargetVirtualParentPath subscription item = Ok (render (segs base ++ out)) /\
    isSubPath base (render (segs base ++ out)) = true /\
    Forall segment_ok out /\ length out <= S (count_byte slash (rsub_DirectoryTemplate subscription)).
Proof.
  intros Hbase Hdir. destruct (directory_ok _ item Hdir) as (out & Hrender & Hok & Hlen). exists out.
  pose proof (segments_good _ Hok) as Hout. assert (normalizeVirtualPath base = Ok base) as [Heq Hg]%normalize_Ok.
  { apply canonical_normalize. by eapply normalize_canonical. }
  assert (good_segs (segs base ++ out) = true) as Hall by (by rewrite good_segs_app, Hg, Hout).
  assert (isSubPath base (render (segs base ++ out)) = true) as Hsub.
  { rewrite Heq at 1. apply isSubPath_render; [done..|]. by exists out. }
  split_and!; [|done..]. unfold renderRSSTargetVirtualParentPath. rewrite Hbase, Hrender.
  destruct (decide (out = [])) as [->|Hne]; [by rewrite app_nil_r, <- Heq|].
  destruct (join_relative _ _ Hg Hout Hne) as [Hj Hjoin]. apply String.eqb_neq in Hj. rewrite Hj.
  rewrite <- Heq in Hjoin. rewrite Hjoin, normalize_render by done. by rewrite Hsub.
Qed.
(** C27: The directory and the name an item's download is stored under.
    When the subscription's target, without the white space at its ends, is a
    valid path and its directory template was accepted, the template renders
    for every item, whatever its title: the result lies at or below that
    trimmed target (not the stored one, where the two differ), at most as many
    levels deep as the template has, and each added level is a sanitised
    name.  A name the filename template renders to holds no separator and
    no "..". *)
Theorem rss_target_confined subscription item base :
  normalizeVirtualPath (trim_space (rsub_TargetVirtualParentPath subscription)) = Ok base ->
  validateRSSDirectoryTemplate (rsub_DirectoryTemplate subscription) = Ok tt ->
  (exists out, renderRSSTargetVirtualParentPath subscription item = Ok (render (segs base ++ out)) /\
    isSubPath base (render (segs base ++ out)) = true /\
    Forall segment_ok out /\ length out <= S (count_byte slash (rsub_DirectoryTemplate subscription))) /\
  (forall name, renderRSSFilenameTemplate subscription item = Ok name -> safe_name name).
Proof.
  intros Hbase Hdir. split; [by apply target_renders|].
  intros name. unfold renderRSSFilenameTemplate. case_match; [by intros [= <-]|]. case_match; [|done].
  destruct (normalizeTaskTargetFilename _) eqn:E; [|done]. intros [= <-]. by eapply filename_safe.
Qed.
End Targets.

(** ** Titles *)
Section Loops.
Context `{RE : Regexp} `{!RegexpLaws rssBracketTokenPattern}.

(** C29: The loops over a title end: the one that halves ".." within as
    many rounds as the text has bytes, and any further round would change
    nothing; those that strip decorations and metadata, when no decoration
    and no metadata is left at the edge they work on. *)
Theorem title_loops_end title :
  (forall fuel, String.length title <= fuel -> collapse_dots fuel title = collapse_dots (String.length title) title) /\
  contains (collapse_dots (String.length title) title) ".." = false /\
  strip_decoration (stripRSSReleaseDecorations title) = None /\
  cut_suffix (trimRSSMetadataSuffix title) = None.
Proof.
  split_and!; [intros; by apply collapse_dots_more|by apply collapse_dots_ends|..].
  - apply (loop_ends strip_decoration strip_decorations); [done|apply strip_shorter|lia].
  - apply (loop_ends cut_suffix cut_suffixes); [done|apply suffix_shorter|lia].
Qed.
End Loops.

(** What a title becomes as the name of a directory or file: no
    separator, reserved or ASCII control character, no "..", no space or
    dot at either end; it is empty or one segment of a path. *)
Theorem segment_sanitized value :
  safe_segment (sanitizeRSSPathSegment value) /\
  (sanitizeRSSPathSegment value = "" \/ good_seg (sanitizeRSSPathSegment value) = true).
Proof.
  pose proof (sanitize_safe value) as Hs. split; [done|]. destruct (decide (sanitizeRSSPathSegment value = "")); [by left|].
  right. by apply safe_good.
Qed.

(** ** The preview *)
Lemma filter_nil_forallb {A} (f : A -> bool) l : List.filter (fun x => negb (f x)) l = [] <-> forallb f l = true.
Proof.
  induction l as [|x l IH]; cbn; [done|]. destruct (f x); cbn; [exact IH|]. done.
Qed.
Lemma filter_nil_existsb {A} (f : A -> bool) l : List.filter f l = [] <-> existsb f l = false.
Proof. induction l as [|x l IH]; cbn; [done|]. destruct (f x); cbn; [done|exact IH]. Qed.

(** The verdict of a preview and that of the matcher. *)
Lemma preview_core (f : string -> bool) wanted unwanted :
  let missing := List.filter (fun pattern => negb (f pattern)) wanted in
  let excluded := List.filter f unwanted in
  let verdict := match excluded, missing with _ :: _, _ => "excluded" | [], _ :: _ => "missing" | [], [] => "matched" end in
  let taken := if negb (forallb f wanted) then false else if existsb f unwanted then false else true in
  verdict = "matched" <-> taken = true.
Proof.
  cbv zeta. pose proof (filter_nil_forallb f wanted) as Hm. pose proof (filter_nil_existsb f unwanted) as He.
  destruct (List.filter f unwanted) as [|x l]; destruct (List.filter (fun p => negb (f p)) wanted) as [|y k];
    destruct (forallb f wanted), (existsb f unwanted); cbn; intuition (try congruence; try discriminate).
Qed.

(** ** Keys of items *)
Lemma fold_round_length l st : length st = 8 -> length (fold_left Sha256.round l st) = 8.
Proof.
  revert st; induction l as [|x l IH]; intros st Hst; [done|]. cbn [fold_left]. apply IH.
  by do 9 (destruct st as [|? st]; try discriminate Hst).
Qed.
Lemma fold_compress_length l st : length st = 8 -> length (fold_left Sha256.compress l st) = 8.
Proof.
  revert st; induction l as [|x l IH]; intros st Hst; [done|]. cbn [fold_left]. apply IH.
  unfold Sha256.compress. rewrite length_map, length_combine, fold_round_length, Hst by done. done.
Qed.
Lemma hash_length raw : String.length (hashToken raw) = 64.
Proof.
  assert (forall l, String.length (hex_encode l) = 2 * length l) as Hhex.
  { induction l as [|x l IH]; cbn; [done|]. rewrite IH. lia. }
  unfold hashToken, Sha256.sum. rewrite Hhex.
  set (digest := fold_left _ _ _). assert (length digest = 8) as Hd by by apply fold_compress_length.
  do 9 (destruct digest as [|? digest]; try discriminate Hd). done.
Qed.
Definition short_guid (item : RSSFetchedItem) : Prop :=
  trim_space (fi_GUID item) <> "" /\ String.length (trim_space (fi_GUID item)) <= 123.

(** The key that recognises an item fits the column's 128 bytes.  An
    item with a GUID of at most 123 bytes is recognised by that GUID and
    nothing else: two such items have one key exactly when their GUIDs are
    equal, and no item without a GUID shares it. *)
Theorem dedup_key_bounds sourceID item :
  String.length (buildRSSDedupKey sourceID item) <= 128 /\
  (short_guid item -> forall sourceID' item',
    (short_guid item' ->
     buildRSSDedupKey sourceID item = buildRSSDedupKey sourceID' item' <-> trim_space (fi_GUID item) = trim_space (fi_GUID item')) /\
    (trim_space (fi_GUID item') = "" -> buildRSSDedupKey sourceID item <> buildRSSDedupKey sourceID' item')).
Proof.
  assert (forall id it, short_guid it -> buildRSSDedupKey id it = "guid:" +:+ trim_space (fi_GUID it)) as Hshort.
  { intros id it [Hne Hlen]. unfold buildRSSDedupKey. apply String.eqb_neq in Hne. rewrite Hne. cbn [negb].
    rewrite length_append. change (String.length "guid:") with 5. by rewrite leb_correct by lia. }
  split.
  - unfold buildRSSDedupKey. case_match; [case_match eqn:E|].
    + by apply Nat.leb_le in E.
    + unfold boundedRSSDedupKey. rewrite !length_append, hash_length. vm_compute. lia.
    + rewrite length_append, hash_length. cbn. lia.
  - intros Hs id it. rewrite (Hshort _ _ Hs). split.
    + intros Hs'. rewrite (Hshort _ _ Hs'). split; [by intros E%append_inj_l|by intros ->].
    + intros Hn. unfold buildRSSDedupKey. rewrite Hn. cbn. discriminate.
Qed.

(** ** Instances *)
Module RssRuleExamples.

(** An engine that finds the first token in square brackets. *)
Definition first_bracket (text : string) : list (list (option (nat * nat))) :=
  match cut_at "[" text with
  | None => []
  | Some (before, found) =>
      match cut_at "]" found with
      | None => []
      | Some (inner, _) =>
          let from := String.length before in
          let to := from + String.length inner in
          [[Some (from, S to); Some (S from, to)]]
      end
  end.
#[export] Instance engine : Regexp := fun expr text =>
  Some (if String.eqb expr rssBracketTokenPattern then first_bracket text else []).
#[export] Instance engine_laws : RegexpLaws rssBracketTokenPattern.
Proof.
  intros text matches m Hm. unfold re_find_all, engine in Hm. rewrite String.eqb_refl in Hm. injection Hm as <-.
  unfold first_bracket. destruct (cut_at "[" text) as [[before found]|] eqn:E; [|set_solver].
  destruct (cut_at "]" found) as [[inner rest]|] eqn:E'; [|set_solver].
  apply cut_at_split in E as [-> Hf]. apply cut_at_split in E' as [E' Hr].
  intros ->%list_elem_of_singleton. eexists _, _, _. split; [done|].
  apply length_trim_prefix in Hr. apply (f_equal String.length) in E'. rewrite length_append in *. cbn [String.length] in *. lia.
Qed.

Definition subscription (directory filename : string) : RSSSubscription :=
  {| rsub_ID := 1; rsub_UserID := 1; rsub_SourceID := 1; rsub_Name := "s"; rsub_IsEnabled := true; rsub_MustContain := [];
     rsub_MustNotContain := []; rsub_UseRegex := false; rsub_CaseSensitive := false; rsub_TargetVFSParentNodeID := 1;
     rsub_TargetVirtualParentPath := "/anime"; rsub_DirectoryTemplate := directory; rsub_FilenameTemplate := filename;
     rsub_ResolvedSourceID := 1; rsub_ResolvedInnerParentPath := "/"; rsub_CreatedAt := 0; rsub_UpdatedAt := 0 |}.
Definition titled (title season : string) : RSSItem :=
  { zero_item with rit_Title := title;
    rit_Parsed := { zero_parsed with rap_AnimeTitle := title; rap_Season := season; rap_Episode := "01" } }.

Example ascending_title :
  renderRSSTargetVirtualParentPath (subscription "{anime_title}/Season {season}" "") (titled "../../etc/passwd" "") =
  Ok "/anime/etc passwd/Season".
Proof. vm_compute. reflexivity. Qed.
Definition fetched (guid : string) : RSSFetchedItem :=
  {| fi_Title := "t"; fi_Link := "l"; fi_GUID := guid; fi_PublishedAt := None; fi_Enclosures := [] |}.
(** *** What the code does besides *)
(** A filename template that is accepted, and fails for an item without a
    season. *)
Definition filename_template : string := "[x] {anime_title}.{season}.{episode}".
Lemma filename_template_may_fail :
  validateRSSFilenameTemplate filename_template = Ok tt /\
  renderRSSFilenameTemplate (subscription "" filename_template) (titled "Title" "") = Err ErrPathInvalid /\
  renderRSSFilenameTemplate (subscription "" filename_template) (titled "Title" "S01") = Ok "[x] Title.S01.01".
Proof. vm_compute. auto. Qed.
(** A source that is refreshed every two hours is polled every half hour
    after five failures. *)
Definition failing (failures : Z) : RSSSource :=
  {| rs_ID := 1; rs_UserID := 1; rs_Name := "s"; rs_URL := "u"; rs_IsEnabled := true; rs_RefreshIntervalSeconds := 7200;
     rs_LastRefreshedAt := None; rs_LastError := None; rs_HealthStatus := ""; rs_ConsecutiveFailures := failures;
     rs_LastSuccessAt := None; rs_NextRefreshAt := None; rs_LastRefreshStatus := ""; rs_LastRefreshStatsJSON := "";
     rs_CreatedAt := 0; rs_UpdatedAt := 0 |}.
Lemma circuit_open_polls_sooner :
  rssSourceFailureBackoff (failing 4) = (120 * minute)%Z /\ rssSourceFailureBackoff (failing 5) = (30 * minute)%Z /\
  rssSourceHealthForFailures 5 = RSSSourceHealthCircuitOpen.
Proof. vm_compute. auto. Qed.
(** An error is final as a value and retried as the text of a task. *)
Lemma error_text_is_retried :
  snd (classifyRSSRetryError ErrPathInvalid) = false /\ snd (classifyRSSRetryError (ErrText (err_text ErrPathInvalid))) = true /\
  snd (classifyRSSRetryError ErrSourceReadOnly) = false /\
  snd (classifyRSSRetryError (ErrText (err_text ErrSourceReadOnly))) = true /\
  snd (classifyRSSRetryError ErrACLDenied) = false /\ snd (classifyRSSRetryError (ErrText (err_text ErrACLDenied))) = true.
Proof. vm_compute. auto 10. Qed.
End RssRuleExamples.
Import RssRuleExamples.

Lemma rss_target_confined_witness :
  exists out, renderRSSTargetVirtualParentPath (subscription "{anime_title}/Season {season}" "") (titled "../../etc/passwd" "") =
    Ok (render (segs "/anime" ++ out)) /\ length out <= 2.
Proof.
  destruct (rss_target_confined (subscription "{anime_title}/Season {season}" "") (titled "../../etc/passwd" "") "/anime")
    as [(out & Hr & _ & _ & Hl) _]; [vm_compute; reflexivity..|].
  exists out. split; [exact Hr|exact Hl].
Defined.
Lemma title_loops_end_witness : cut_suffix (trimRSSMetadataSuffix "Title [01]") = None.
Proof. exact (proj2 (proj2 (proj2 (title_loops_end "Title [01]")))). Defined.
Lemma dedup_key_bounds_witness :
  short_guid (fetched "g") /\ buildRSSDedupKey 1 (fetched "g") <> buildRSSDedupKey 1 (fetched "").
Proof.
  assert (short_guid (fetched "g")) as Hs by (split; [discriminate|vm_compute; lia]).
  split; [exact Hs|]. exact (proj2 (proj2 (dedup_key_bounds 1 (fetched "g")) Hs 1%N (fetched "")) eq_refl).
Defined.
