(* ===== verification/Tasks.v ===== *)
(** * Download tasks: the repository ([task_repo_impl.go])

    The table of tasks, and what other services know of a task; the
    service is in [TaskService]. *)
From S2P Require Import Prelude GoStrings Entities Tables Db Auditing Repos.
From stdpp Require Import base list strings.
From Stdlib Require Import ZArith.

Local Open Scope string_scope.
Local Open Scope list_scope.
Local Open Scope go_scope.

(** ** [task_service.go] *)
Definition isTerminalTaskStatus (status : string) : bool :=
  existsb (String.eqb status) ["completed"; "failed"; "canceled"].

(** ** [TaskRepository] *)
Definition normalizeDownloaderType (value : string) : string := if String.eqb value "" then "aria2" else value.
(** Both conversions, of an entity and of a row. *)
Definition taskModelFromEntity (task : DownloadTask) : DownloadTask := { task with dt_DownloaderType ::= normalizeDownloaderType }.

Section Repository.
Context `{Database}.

Definition TaskRepository_Create (task : DownloadTask) : M GoErr World DownloadTask :=
  row <-! stmt (db_insert TTask (taskModelFromEntity task)) ;;
  ret (taskModelFromEntity row).
Definition task_columns (task t : DownloadTask) : DownloadTask :=
  { (taskModelFromEntity task) with dt_ID := dt_ID t; dt_CreatedAt := dt_CreatedAt t }.
Definition TaskRepository_Update (task : DownloadTask) : M GoErr World unit :=
  must_affect (stmt (db_update TTask (fun t => N.eqb (dt_ID t) (dt_ID task)) (task_columns task))).
Definition TaskRepository_FindByID (id : N) : M GoErr World DownloadTask :=
  row <-! first TTask (fun t => N.eqb (dt_ID t) id) ord_any ;;
  ret (taskModelFromEntity row).
Definition TaskRepository_List : M GoErr World (list DownloadTask) :=
  rows <-! stmt (db_select TTask (fun _ => true) (ord_desc dt_UpdatedAt) None) ;;
  ret (map taskModelFromEntity rows).
End Repository.
