(* ===== verification/Rss.v ===== *)
(** * RSS: sources and items ([rss_service.go], [rss_repo_impl.go])

    The repository, the requests on sources and items, the refresh that
    stores the entries of a feed and enqueues those a subscription takes,
    and the worker that follows the download tasks and retries.  Creating a
    task, the notifications and fetching a feed are interfaces.  A lock that
    another request may hold is asked of [RSSLocks]. *)
From S2P Require Import Prelude Ints GoStrings Runes Errors Entities Paths Permission Tables Db Auditing Repos Journal Users Auth Notifications Commits Tasks RssRules.
From stdpp Require Import base list strings sets pretty.
From Stdlib Require Import ZArith Lia Ascii.

Local Open Scope string_scope.
Local Open Scope list_scope.
Local Open Scope go_scope.

(** ** [RSSRepository] *)
Record RSSSourceFilter := { sf_UserID : N; sf_IncludeAll : bool; sf_Enabled : option bool }.
Record RSSSubscriptionFilter := { uf_UserID : N; uf_IncludeAll : bool; uf_SourceID : N; uf_Enabled : option bool }.
Record RSSItemFilter := {
  if_UserID : N; if_IncludeAll : bool; if_SourceID : N; if_SubscriptionID : N; if_TaskID : N; if_Status : string; if_Limit : Z
}.
#[export] Instance eta_RSSItemFilter : Eta RSSItemFilter := fun r =>
  {| if_UserID := if_UserID r; if_IncludeAll := if_IncludeAll r; if_SourceID := if_SourceID r;
     if_SubscriptionID := if_SubscriptionID r; if_TaskID := if_TaskID r; if_Status := if_Status r; if_Limit := if_Limit r |}.
Definition all_items : RSSItemFilter :=
  {| if_UserID := 0; if_IncludeAll := true; if_SourceID := 0; if_SubscriptionID := 0; if_TaskID := 0; if_Status := ""; if_Limit := 0 |}.

Definition opt_is (wanted : option bool) (b : bool) : bool := match wanted with None => true | Some x => Bool.eqb b x end.
Definition zero_or (wanted value : N) : bool := N.eqb wanted 0 || N.eqb value wanted.
Definition opt_zero_or (wanted : N) (value : option N) : bool :=
  N.eqb wanted 0 || match value with Some v => N.eqb v wanted | None => false end.

Section Repository.
Context `{Database}.

Definition newest {R} (created : R -> Z) (id : R -> N) : Order R := ord_then (ord_desc created) (ord_desc (fun r => Z.of_N (id r))).

Definition rssSourceModelFromEntity (source : RSSSource) : RSSSource := { source with rs_LastRefreshStatsJSON ::= jsonObject }.
Definition RSSRepository_CreateSource (source : RSSSource) : M GoErr World RSSSource :=
  stmt (db_insert TRssSource (rssSourceModelFromEntity source)).
Definition rss_source_columns (source s : RSSSource) : RSSSource :=
  { (rssSourceModelFromEntity source) with rs_ID := rs_ID s; rs_CreatedAt := rs_CreatedAt s }.
Definition RSSRepository_UpdateSource (source : RSSSource) : M GoErr World unit :=
  must_affect (stmt (db_update TRssSource (fun s => N.eqb (rs_ID s) (rs_ID source)) (rss_source_columns source))).
Definition RSSRepository_DeleteSource (id : N) : M GoErr World unit :=
  WithinTx (
    do! must_affect (stmt (db_delete TRssSource (fun s => N.eqb (rs_ID s) id))) ;;
    do! stmt (db_delete TRssSubscription (fun s => N.eqb (rsub_SourceID s) id)) ;;
    do! stmt (db_delete TRssItem (fun i => N.eqb (rit_SourceID i) id)) ;;
    ret tt).
Definition RSSRepository_FindSourceByID (id : N) : M GoErr World RSSSource :=
  first TRssSource (fun s => N.eqb (rs_ID s) id) ord_any.
Definition rss_source_filter (filter : RSSSourceFilter) (s : RSSSource) : bool :=
  (sf_IncludeAll filter || N.eqb (rs_UserID s) (sf_UserID filter)) && opt_is (sf_Enabled filter) (rs_IsEnabled s).
Definition RSSRepository_ListSources (filter : RSSSourceFilter) : M GoErr World (list RSSSource) :=
  stmt (db_select TRssSource (rss_source_filter filter) (newest rs_CreatedAt rs_ID) None).

(** An insert stores what is given; the column is written once more. *)
Definition RSSRepository_CreateSubscription (subscription : RSSSubscription) : M GoErr World RSSSubscription :=
  model <-! stmt (db_insert TRssSubscription subscription) ;;
  if negb (rsub_IsEnabled subscription) then
    do! stmt (db_update_at TRssSubscription (fun s => N.eqb (rsub_ID s) (rsub_ID model))
          (fun _ s => { s with rsub_IsEnabled := false })) ;;
    ret { model with rsub_IsEnabled := false }
  else ret model.
Definition rss_subscription_columns (subscription s : RSSSubscription) : RSSSubscription :=
  { subscription with rsub_ID := rsub_ID s; rsub_CreatedAt := rsub_CreatedAt s }.
Definition RSSRepository_UpdateSubscription (subscription : RSSSubscription) : M GoErr World unit :=
  must_affect (stmt (db_update TRssSubscription (fun s => N.eqb (rsub_ID s) (rsub_ID subscription))
    (rss_subscription_columns subscription))).
Definition RSSRepository_DeleteSubscription (id : N) : M GoErr World unit :=
  must_affect (stmt (db_delete TRssSubscription (fun s => N.eqb (rsub_ID s) id))).
Definition RSSRepository_FindSubscriptionByID (id : N) : M GoErr World RSSSubscription :=
  first TRssSubscription (fun s => N.eqb (rsub_ID s) id) ord_any.
Definition rss_subscription_filter (filter : RSSSubscriptionFilter) (s : RSSSubscription) : bool :=
  (uf_IncludeAll filter || N.eqb (rsub_UserID s) (uf_UserID filter)) && zero_or (uf_SourceID filter) (rsub_SourceID s) &&
  opt_is (uf_Enabled filter) (rsub_IsEnabled s).
Definition RSSRepository_ListSubscriptions (filter : RSSSubscriptionFilter) : M GoErr World (list RSSSubscription) :=
  stmt (db_select TRssSubscription (rss_subscription_filter filter) (newest rsub_CreatedAt rsub_ID) None).

Definition RSSRepository_CreateItem (item : RSSItem) : M GoErr World RSSItem := stmt (db_insert TRssItem item).
Definition rss_item_columns (item i : RSSItem) : RSSItem := { item with rit_ID := rit_ID i; rit_CreatedAt := rit_CreatedAt i }.
Definition RSSRepository_UpdateItem (item : RSSItem) : M GoErr World unit :=
  must_affect (stmt (db_update TRssItem (fun i => N.eqb (rit_ID i) (rit_ID item)) (rss_item_columns item))).
Definition RSSRepository_FindItemByID (id : N) : M GoErr World RSSItem := first TRssItem (fun i => N.eqb (rit_ID i) id) ord_any.
Definition RSSRepository_FindItemByDedupKey (sourceID : N) (dedupKey : string) : M GoErr World RSSItem :=
  first TRssItem (fun i => N.eqb (rit_SourceID i) sourceID && String.eqb (rit_DedupKey i) dedupKey) ord_any.
Definition rss_item_filter (filter : RSSItemFilter) (i : RSSItem) : bool :=
  (if_IncludeAll filter || N.eqb (rit_UserID i) (if_UserID filter)) && zero_or (if_SourceID filter) (rit_SourceID i) &&
  opt_zero_or (if_SubscriptionID filter) (rit_MatchedSubscriptionID i) && opt_zero_or (if_TaskID filter) (rit_TaskID i) &&
  (String.eqb (if_Status filter) "" || String.eqb (rit_Status i) (if_Status filter)).
(** PostgreSQL puts null first in a descending order. *)
Definition published_desc : Order RSSItem := ord_nulls_first (fun i => Z.opp <$> rit_PublishedAt i).
Definition RSSRepository_ListItems (filter : RSSItemFilter) : M GoErr World (list RSSItem) :=
  stmt (db_select TRssItem (rss_item_filter filter) (ord_then published_desc (newest rit_CreatedAt rit_ID))
    (if Z.ltb 0 (if_Limit filter) then Some (Z.to_nat (if_Limit filter)) else None)).
End Repository.

(** ** Interfaces *)
Record CreateTaskRequest := {
  ctr_Type : string; ctr_URL : string; ctr_SourceID : N; ctr_SavePath : string; ctr_TargetVirtualParentPath : string;
  ctr_TargetFilename : string
}.
(** [Create]: the ID of the task. *)
Class RSSTaskCreator `{Database} := CreateTask : Ctx -> CreateTaskRequest -> M GoErr World N.
Class RSSNotifier `{Database} := RSSNotify : NotificationEventInput -> M GoErr World unit.
Class RSSFetcher `{Database} := Fetch : string -> M GoErr World (list RSSFetchedItem).
(** Whether the lock of a source or of an item is free, when a request asks
    for it. *)
Class RSSLocks `{Database} := { source_free : N -> World -> bool; item_free : N -> World -> bool }.

(** ** Refresh statistics *)
Record rssRefreshStats := {
  st_SourceID : N; st_Fetched : Z; st_Created : Z; st_Updated : Z; st_Matched : Z; st_Enqueued : Z; st_Unsupported : Z; st_Failed : Z
}.
#[export] Instance eta_rssRefreshStats : Eta rssRefreshStats := fun r =>
  {| st_SourceID := st_SourceID r; st_Fetched := st_Fetched r; st_Created := st_Created r; st_Updated := st_Updated r;
     st_Matched := st_Matched r; st_Enqueued := st_Enqueued r; st_Unsupported := st_Unsupported r; st_Failed := st_Failed r |}.
Definition zero_stats (sourceID : N) : rssRefreshStats :=
  {| st_SourceID := sourceID; st_Fetched := 0; st_Created := 0; st_Updated := 0; st_Matched := 0; st_Enqueued := 0;
     st_Unsupported := 0; st_Failed := 0 |}.
Definition succ_int (n : Z) : Z := int_add n 1.
(** The members of a struct in the order of its fields. *)
Definition encodeRSSRefreshStats (stats : rssRefreshStats) : string :=
  let member '(name, n) := quote name +:+ ":" +:+ json_marshal (JNum n) in
  "{" +:+ join_comma (map member
    [("source_id", Z.of_N (st_SourceID stats)); ("fetched", st_Fetched stats); ("created", st_Created stats);
     ("updated", st_Updated stats); ("matched", st_Matched stats); ("enqueued", st_Enqueued stats);
     ("unsupported", st_Unsupported stats); ("failed", st_Failed stats)]) +:+ "}".

(** ** Requests and views *)
Record RSSManualDownloadRequest := { md_SubscriptionID : N }.
Record RSSItemBatchIgnoreRequest := { bi_ItemIDs : list N }.
Record RSSItemBatchRetryRequest := { br_ItemIDs : list N; br_SubscriptionID : N }.
(** [toRSSSourceView]; the statistics stay the text they are decoded from. *)
Record RSSSourceView := {
  rsv_ID : N; rsv_UserID : N; rsv_Name : string; rsv_URL : string; rsv_IsEnabled : bool; rsv_RefreshIntervalSeconds : Z;
  rsv_LastRefreshedAt : option string; rsv_LastError : option string; rsv_HealthStatus : string;
  rsv_ConsecutiveFailures : Z; rsv_LastSuccessAt : option string; rsv_NextRefreshAt : option string;
  rsv_LastRefreshStatus : string; rsv_LastRefreshStats : string; rsv_CreatedAt : string; rsv_UpdatedAt : string
}.
Record RSSItemView := {
  riv_ID : N; riv_UserID : N; riv_SourceID : N; riv_Title : string; riv_Link : string; riv_PublishedAt : option string;
  riv_GUID : string; riv_DownloadURL : string; riv_LinkType : string; riv_Parsed : RSSAnimeParsed; riv_Status : string;
  riv_MatchedSubscriptionID : option N; riv_TaskID : option N; riv_ResultVFSNodeID : N; riv_ErrorMessage : option string;
  riv_RetryCount : Z; riv_MaxRetryCount : Z; riv_LastAttemptAt : option string; riv_NextRetryAt : option string;
  riv_RetryReason : option string; riv_CreatedAt : string; riv_UpdatedAt : string
}.
Record RSSItemBatchActionResult := {
  ba_ItemID : N; ba_Success : bool; ba_Item : option RSSItemView; ba_ErrorCode : option string; ba_ErrorMessage : option string
}.
Record RSSItemBatchActionResponse := { bar_Items : list RSSItemBatchActionResult; bar_Succeeded : Z; bar_Failed : Z }.
Record RSSRefreshAllItemView := { ra_Source : N; ra_Result : string; ra_Error : option string; ra_Stats : option rssRefreshStats }.
Record RSSRefreshAllResponse := { rar_Items : list RSSRefreshAllItemView; rar_Refreshed : Z; rar_Skipped : Z; rar_Failed : Z }.

Section Views.
Context `{TF : TimeFormat}.
Definition toRSSSourceView (source : RSSSource) : RSSSourceView :=
  {| rsv_ID := rs_ID source; rsv_UserID := rs_UserID source; rsv_Name := rs_Name source; rsv_URL := rs_URL source;
     rsv_IsEnabled := rs_IsEnabled source; rsv_RefreshIntervalSeconds := rs_RefreshIntervalSeconds source;
     rsv_LastRefreshedAt := option_map rfc3339 (rs_LastRefreshedAt source); rsv_LastError := rs_LastError source;
     rsv_HealthStatus := if String.eqb (rs_HealthStatus source) "" then RSSSourceHealthOK else rs_HealthStatus source;
     rsv_ConsecutiveFailures := rs_ConsecutiveFailures source; rsv_LastSuccessAt := option_map rfc3339 (rs_LastSuccessAt source);
     rsv_NextRefreshAt := option_map rfc3339 (rs_NextRefreshAt source); rsv_LastRefreshStatus := rs_LastRefreshStatus source;
     rsv_LastRefreshStats := rs_LastRefreshStatsJSON source; rsv_CreatedAt := rfc3339 (rs_CreatedAt source);
     rsv_UpdatedAt := rfc3339 (rs_UpdatedAt source) |}.
Definition toRSSItemView (item : RSSItem) : RSSItemView :=
  {| riv_ID := rit_ID item; riv_UserID := rit_UserID item; riv_SourceID := rit_SourceID item; riv_Title := rit_Title item;
     riv_Link := rit_Link item; riv_PublishedAt := option_map rfc3339 (rit_PublishedAt item); riv_GUID := rit_GUID item;
     riv_DownloadURL := rit_DownloadURL item; riv_LinkType := rit_LinkType item; riv_Parsed := rit_Parsed item;
     riv_Status := rit_Status item; riv_MatchedSubscriptionID := rit_MatchedSubscriptionID item; riv_TaskID := rit_TaskID item;
     riv_ResultVFSNodeID := rit_ResultVFSNodeID item; riv_ErrorMessage := rit_ErrorMessage item;
     riv_RetryCount := rit_RetryCount item;
     riv_MaxRetryCount := if Z.leb (rit_MaxRetryCount item) 0 then defaultRSSItemMaxRetryCount else rit_MaxRetryCount item;
     riv_LastAttemptAt := option_map rfc3339 (rit_LastAttemptAt item);
     riv_NextRetryAt := option_map rfc3339 (rit_NextRetryAt item); riv_RetryReason := rit_RetryReason item;
     riv_CreatedAt := rfc3339 (rit_CreatedAt item); riv_UpdatedAt := rfc3339 (rit_UpdatedAt item) |}.
End Views.

(** ** The service *)
(** Which collaborators are present, and the limit of the retry worker. *)
Record RSSService := {
  rss_userRepo : bool; rss_taskCreator : bool; rss_taskReader : bool; rss_notifier : bool; rss_fetcher : bool;
  rss_retryWorkerLimit : Z
}.

Definition currentRSSAuth (ctx : Ctx) : result GoErr RequestAuth :=
  match RequestAuthFromContext ctx with Some auth => Ok auth | None => Err ErrPermissionDenied end.
Definition manages_rss (auth : RequestAuth) : bool := HasCapability (ra_Capabilities auth) CapabilityRSSManage.
Definition authorizeRSSOwner (ctx : Ctx) (ownerID : N) : result GoErr unit :=
  match currentRSSAuth ctx with
  | Err e => Err e
  | Ok auth => if N.eqb (ra_UserID auth) ownerID || manages_rss auth then Ok tt else Err ErrPermissionDenied
  end.

Section Service.
Context `{Database} {TC : RSSTaskCreator} {NO : RSSNotifier} {FE : RSSFetcher} {LO : RSSLocks} {RE : Regexp} {UP : UrlParser}
  {UPA : UrlPath} {TF : TimeFormat} (s : RSSService).

(** [_ = m], or an error that is only logged: whether it succeeded. *)
Definition succeeds {A} (m : M GoErr World A) : M GoErr World bool :=
  _a <-! m or _e => ret false ;; ret true.
Definition ignore_error {A} (m : M GoErr World A) : M GoErr World unit :=
  do! succeeds m ;; ret tt.

(** *** Identities and notifications *)
Definition contextForRSSOwner (ctx : Ctx) (userID : N) : M GoErr World Ctx :=
  if match RequestAuthFromContext ctx with Some auth => N.eqb (ra_UserID auth) userID | None => false end then ret ctx
  else
    let auth := {| ra_UserID := userID; ra_Username := ""; ra_RoleKey := ""; ra_Status := ""; ra_Capabilities := [] |} in
    if rss_userRepo s && negb (N.eqb userID 0) then
      user <-! UserRepository_FindByID userID or _e => ret (WithRequestAuth ctx auth) ;;
      ret (WithRequestAuth ctx
        {| ra_UserID := userID; ra_Username := u_Username user; ra_RoleKey := u_RoleKey user; ra_Status := u_Status user;
           ra_Capabilities := match ResolveCapabilities (u_RoleKey user) with Ok c => c | Err _ => [] end |})
    else ret (WithRequestAuth ctx auth).

Definition emitRSSNotification (input : NotificationEventInput) : M GoErr World unit :=
  if rss_notifier s then ignore_error (RSSNotify input) else ret tt.
Definition JOptStr (o : option string) : Json := match o with Some t => JStr t | None => JNull end.
Definition notifyRSSSourceFailure (source : RSSSource) (refreshErr : GoErr) (previousHealth : string) : M GoErr World unit :=
  let currentHealth := normalizeRSSSourceHealth (rs_HealthStatus source) in
  if negb (String.eqb currentHealth RSSSourceHealthDegraded) && negb (String.eqb currentHealth RSSSourceHealthCircuitOpen) then ret tt
  else if String.eqb previousHealth currentHealth then ret tt
  else emitRSSNotification
    {| ni_UserID := rs_UserID source; ni_EventType := NotificationEventRSSSourceFailure; ni_Severity := NotificationSeverityWarning;
       ni_Title := "RSS source refresh failures";
       ni_Message := "RSS source " +:+ rs_Name source +:+ " entered " +:+ currentHealth +:+ " after " +:+
                     pretty (rs_ConsecutiveFailures source) +:+ " consecutive failures";
       ni_Payload := [("source_id", JUint (rs_ID source)); ("user_id", JUint (rs_UserID source)); ("name", JStr (rs_Name source));
                      ("url", JStr (rs_URL source)); ("health_status", JStr currentHealth);
                      ("consecutive_failures", JNum (rs_ConsecutiveFailures source)); ("error", JStr (err_text refreshErr))] |}.
Definition notifyRSSItemNeedsAttention (item : RSSItem) (itemErr : GoErr) : M GoErr World unit :=
  let message := err_text itemErr in
  emitRSSNotification
    {| ni_UserID := rit_UserID item; ni_EventType := NotificationEventRSSItemNeedsAttention; ni_Severity := NotificationSeverityError;
       ni_Title := "RSS item needs attention"; ni_Message := message;
       ni_Payload := [("item_id", JUint (rit_ID item)); ("user_id", JUint (rit_UserID item)); ("source_id", JUint (rit_SourceID item));
                      ("title", JStr (rit_Title item)); ("status", JStr (rit_Status item));
                      ("matched_subscription_id", JOptUint (rit_MatchedSubscriptionID item)); ("task_id", JOptUint (rit_TaskID item));
                      ("retry_count", JNum (rit_RetryCount item)); ("max_retry_count", JNum (rit_MaxRetryCount item));
                      ("retry_reason", JOptStr (rit_RetryReason item)); ("error", JStr message)] |}.
Definition notifyRSSDownloadCompleted (item : RSSItem) (task : DownloadTask) : M GoErr World unit :=
  emitRSSNotification
    {| ni_UserID := rit_UserID item; ni_EventType := NotificationEventRSSDownloadCompleted; ni_Severity := NotificationSeverityInfo;
       ni_Title := "RSS download completed"; ni_Message := "RSS download completed: " +:+ rit_Title item;
       ni_Payload := [("item_id", JUint (rit_ID item)); ("user_id", JUint (rit_UserID item)); ("source_id", JUint (rit_SourceID item));
                      ("title", JStr (rit_Title item)); ("matched_subscription_id", JOptUint (rit_MatchedSubscriptionID item));
                      ("task_id", JOptUint (rit_TaskID item)); ("download_task_id", JUint (dt_ID task));
                      ("display_name", JStr (dt_DisplayName task));
                      ("target_virtual_parent_path", JStr (dt_TargetVirtualParentPath task));
                      ("save_virtual_path", JStr (dt_SaveVirtualPath task)); ("downloader_type", JStr (dt_DownloaderType task))] |}.

(** *** Items *)
Definition itemHasActiveTask (item : RSSItem) : M GoErr World bool :=
  match rit_TaskID item with
  | None => ret false
  | Some id =>
      if negb (rss_taskReader s) then ret (String.eqb (rit_Status item) RSSItemStatusEnqueued)
      else
        task <-! TaskRepository_FindByID id or err => ret (negb (err_is err ErrNotFound)) ;;
        ret (negb (isTerminalTaskStatus (dt_Status task)))
  end.

Definition settled (item : RSSItem) (now : Z) : RSSItem :=
  { item with rit_Status := RSSItemStatusCompleted; rit_ErrorMessage := None; rit_RetryReason := None; rit_NextRetryAt := None;
    rit_UpdatedAt := now }.
Definition is_none {A} (o : option A) : bool := match o with None => true | Some _ => false end.
Definition is_settled (item : RSSItem) : bool :=
  String.eqb (rit_Status item) RSSItemStatusCompleted && is_none (rit_ErrorMessage item) && is_none (rit_RetryReason item) &&
  is_none (rit_NextRetryAt item).
(** Whether the item has a result, which is kept. *)
Definition preserveRSSItemCompletedResult (item : RSSItem) (now : Z) : M GoErr World bool :=
  if N.eqb (rit_ResultVFSNodeID item) 0 then ret false
  else if is_settled item then ret true
  else do! ignore_error (RSSRepository_UpdateItem (settled item now)) ;; ret true.

(** An item after a failure: another attempt, or attention. *)
Definition given_subscription (subscriptionID : N) (item : RSSItem) : RSSItem :=
  if N.eqb subscriptionID 0 then item else { item with rit_MatchedSubscriptionID := Some subscriptionID }.
Definition failed_item (item : RSSItem) (subscriptionID : N) (err : GoErr) (now : Z) (countAttempt : bool) : RSSItem :=
  let item := ensureRSSItemRetryDefaults item in
  let item := if countAttempt then { item with rit_RetryCount ::= succ_int } else item in
  let item := given_subscription subscriptionID { item with rit_ErrorMessage := Some (err_text err) } in
  let '(reason, retryable) := classifyRSSRetryError err in
  let item :=
    if retryable && Z.ltb (rit_RetryCount item) (rit_MaxRetryCount item) then
      { item with rit_Status := RSSItemStatusRetryPending; rit_RetryReason := Some reason;
        rit_NextRetryAt := Some (now + rssItemRetryBackoff (rit_RetryCount item))%Z }
    else { item with rit_Status := RSSItemStatusNeedsAttention; rit_RetryReason := Some reason; rit_NextRetryAt := None } in
  { item with rit_UpdatedAt := now }.
(** Stores the item, and gives notice if it newly needs attention. *)
Definition store_failed (previousStatus : string) (item : RSSItem) (err : GoErr) : M GoErr World unit :=
  updated <-! succeeds (RSSRepository_UpdateItem item) ;;
  if negb updated then ret tt
  else if String.eqb (rit_Status item) RSSItemStatusNeedsAttention && negb (String.eqb previousStatus RSSItemStatusNeedsAttention)
       then notifyRSSItemNeedsAttention item err
  else ret tt.
Definition markItemRetryOrAttention (item : RSSItem) (subscriptionID : N) (err : GoErr) (now : Z) (countAttempt : bool)
    : M GoErr World unit :=
  preserved <-! preserveRSSItemCompletedResult item now ;;
  if preserved then ret tt
  else store_failed (rit_Status item) (failed_item item subscriptionID err now countAttempt) err.
(** The caller's copy of the item, afterwards. *)
Definition marked_item (item : RSSItem) (subscriptionID : N) (err : GoErr) (now : Z) (countAttempt : bool) : RSSItem :=
  if N.eqb (rit_ResultVFSNodeID item) 0 then failed_item item subscriptionID err now countAttempt
  else if is_settled item then item else settled item now.
Definition manually_failed (item : RSSItem) (subscriptionID : N) (err : GoErr) (now : Z) : RSSItem :=
  let item := given_subscription subscriptionID
    { (ensureRSSItemRetryDefaults item) with rit_Status := RSSItemStatusNeedsAttention; rit_ErrorMessage := Some (err_text err) } in
  { item with rit_LastAttemptAt := Some now; rit_RetryReason := Some (fst (classifyRSSRetryError err)); rit_NextRetryAt := None;
    rit_UpdatedAt := now }.
Definition markItemManualDownloadFailure (item : RSSItem) (subscriptionID : N) (err : GoErr) (now : Z) : M GoErr World unit :=
  store_failed (rit_Status item) (manually_failed item subscriptionID err now) err.

(** *** Enqueueing *)
Definition attempt_started (item : RSSItem) (subscription : RSSSubscription) (now : Z) (countRetry : bool) : RSSItem :=
  let item := ensureRSSItemRetryDefaults item in
  let item := if countRetry then { item with rit_RetryCount ::= succ_int } else item in
  { item with rit_Status := RSSItemStatusMatched; rit_MatchedSubscriptionID := Some (rsub_ID subscription);
    rit_ErrorMessage := None; rit_LastAttemptAt := Some now; rit_NextRetryAt := None; rit_RetryReason := None;
    rit_UpdatedAt := now }.
Definition enqueued (item : RSSItem) (taskID : N) (now : Z) : RSSItem :=
  { item with rit_Status := RSSItemStatusEnqueued; rit_TaskID := Some taskID; rit_ErrorMessage := None;
    rit_NextRetryAt := None; rit_RetryReason := None; rit_UpdatedAt := now }.
Definition task_request (item : RSSItem) (targetVirtualParentPath targetFilename : string) : CreateTaskRequest :=
  {| ctr_Type := "download"; ctr_URL := rit_DownloadURL item; ctr_SourceID := 0; ctr_SavePath := "";
     ctr_TargetVirtualParentPath := targetVirtualParentPath; ctr_TargetFilename := targetFilename |}.
(** The attempt itself, on the stored item. *)
Definition attempt_item (ctx : Ctx) (item : RSSItem) (subscription : RSSSubscription) (countRetry : bool) : M GoErr World unit :=
  active <-! itemHasActiveTask item ;;
  if active then ret tt
  else if rssItemIsCompleted item then ret tt
  else if negb (IsBTRSSDownloadLink (rit_DownloadURL item)) then throw ErrDownloadLinkUnsupported
  else if negb (rss_taskCreator s) then throw ErrSourceDriverUnsupported
  else
    now <-! time_now ;;
    let item := attempt_started item subscription now countRetry in
    do! RSSRepository_UpdateItem item ;;
    targetVirtualParentPath <-! lift_result (renderRSSTargetVirtualParentPath subscription item) ;;
    targetFilename <-! lift_result (renderRSSFilenameTemplate subscription item) ;;
    taskCtx <-! contextForRSSOwner ctx (rsub_UserID subscription) ;;
    taskID <-! CreateTask taskCtx (task_request item targetVirtualParentPath targetFilename) ;;
    now <-! time_now ;;
    RSSRepository_UpdateItem (enqueued item taskID now).
(** Where the item is not found, the source goes on with the caller's copy
    and changes it in place, and here the caller's copy stays: as no row has
    its ID, the write fails, and only the copy that is answered differs. *)
Definition enqueueItemWithAttempt (ctx : Ctx) (item : RSSItem) (subscription : RSSSubscription) (countRetry : bool)
    : M GoErr World unit :=
  locked <-! gets (item_free (rit_ID item)) ;;
  if negb locked then throw ErrTaskInvalidState
  else
    current <-! RSSRepository_FindItemByID (rit_ID item) or err =>
      (if negb (err_is err ErrNotFound) then throw err else attempt_item ctx item subscription countRetry) ;;
    attempt_item ctx current subscription countRetry.
Definition enqueueItem (ctx : Ctx) (item : RSSItem) (subscription : RSSSubscription) : M GoErr World unit :=
  enqueueItemWithAttempt ctx item subscription false.

(** The item is the caller's copy, which is returned with the marks it
    gets: what the attempt stored is not seen. *)
Definition process_match (ctx : Ctx) (item : RSSItem) (subscription : RSSSubscription) (stats : rssRefreshStats)
    : M GoErr World (RSSItem * rssRefreshStats) :=
  let stats := { stats with st_Matched ::= succ_int } in
  _u <-! enqueueItem ctx item subscription or err =>
    (now <-! time_now ;;
     do! markItemRetryOrAttention item (rsub_ID subscription) err now false ;;
     ret (marked_item item (rsub_ID subscription) err now false, { stats with st_Failed ::= succ_int })) ;;
  ret (item, { stats with st_Enqueued ::= succ_int }).
Definition takes (subscription : RSSSubscription) (item : RSSItem) : bool :=
  rsub_IsEnabled subscription && N.eqb (rsub_SourceID subscription) (rit_SourceID item) &&
  rssSubscriptionMatchesItem subscription item.
Definition skipped_item (item : RSSItem) (now : Z) : RSSItem :=
  { item with rit_Status := RSSItemStatusIgnored; rit_ErrorMessage := None; rit_UpdatedAt := now }.
Definition processItem (ctx : Ctx) (item : RSSItem) (subscriptions : list RSSSubscription) (stats : rssRefreshStats)
    : M GoErr World (RSSItem * rssRefreshStats) :=
  active <-! itemHasActiveTask item ;;
  if active then ret (item, stats)
  else if rssItemIsCompleted item then ret (item, stats)
  else match List.find (fun subscription => takes subscription item) subscriptions with
       | Some subscription => process_match ctx item subscription stats
       | None =>
           if String.eqb (rit_Status item) RSSItemStatusIgnored then ret (item, stats)
           else
             now <-! time_now ;;
             let item := skipped_item item now in
             do! ignore_error (RSSRepository_UpdateItem item) ;;
             ret (item, stats)
       end.

(** *** Refresh *)
Definition new_item (source : RSSSource) (fetched : RSSFetchedItem) (link : string * string) (status dedupKey : string) (now : Z)
    : RSSItem :=
  { zero_item with rit_UserID := rs_UserID source; rit_SourceID := rs_ID source; rit_Title := trim_space (fi_Title fetched);
    rit_Link := trim_space (fi_Link fetched); rit_PublishedAt := fi_PublishedAt fetched; rit_GUID := trim_space (fi_GUID fetched);
    rit_DedupKey := dedupKey; rit_DownloadURL := fst link; rit_LinkType := snd link;
    rit_Parsed := parseRSSAnimeTitle (fi_Title fetched); rit_Status := status;
    rit_MaxRetryCount := defaultRSSItemMaxRetryCount; rit_CreatedAt := now; rit_UpdatedAt := now }.
Definition seen_again (existing : RSSItem) (fetched : RSSFetchedItem) (link : string * string) (status : string) (now : Z) : RSSItem :=
  let existing := ensureRSSItemRetryDefaults
    { existing with rit_Title := trim_space (fi_Title fetched); rit_Link := trim_space (fi_Link fetched);
      rit_PublishedAt := fi_PublishedAt fetched; rit_GUID := trim_space (fi_GUID fetched); rit_DownloadURL := fst link;
      rit_LinkType := snd link; rit_Parsed := parseRSSAnimeTitle (fi_Title fetched) } in
  let existing :=
    if existsb (String.eqb (rit_Status existing)) [RSSItemStatusNew; RSSItemStatusIgnored; RSSItemStatusUnsupported]
    then { existing with rit_Status := status } else existing in
  { existing with rit_UpdatedAt := now }.
(** The item, and whether it is new. *)
Definition upsertFetchedItem (source : RSSSource) (fetched : RSSFetchedItem) : M GoErr World (RSSItem * bool) :=
  let link := resolveRSSDownloadLink fetched in
  let status := if String.eqb (snd link) RSSLinkTypeUnsupported then RSSItemStatusUnsupported else RSSItemStatusNew in
  let dedupKey := buildRSSDedupKey (rs_ID source) fetched in
  existing <-! RSSRepository_FindItemByDedupKey (rs_ID source) dedupKey or err =>
    (if negb (err_is err ErrNotFound) then throw err
     else
       now <-! time_now ;;
       item <-! RSSRepository_CreateItem (new_item source fetched link status dedupKey now) ;;
       ret (item, true)) ;;
  now <-! time_now ;;
  let existing := seen_again existing fetched link status now in
  do! RSSRepository_UpdateItem existing ;;
  ret (existing, false).

Definition refresh_item (ctx : Ctx) (source : RSSSource) (subscriptions : list RSSSubscription) (stats : rssRefreshStats)
    (fetched : RSSFetchedItem) : M GoErr World rssRefreshStats :=
  r <-! upsertFetchedItem source fetched ;;
  let '(item, created) := r in
  let stats := if created then { stats with st_Created ::= succ_int } else { stats with st_Updated ::= succ_int } in
  if String.eqb (rit_LinkType item) RSSLinkTypeUnsupported then ret { stats with st_Unsupported ::= succ_int }
  else
    active <-! itemHasActiveTask item ;;
    if active then ret stats
    else if negb (rssItemAllowsAutomaticProcessing item) then ret stats
    else
      r <-! processItem ctx item subscriptions stats ;;
      ret (snd r).
Fixpoint refresh_items (ctx : Ctx) (source : RSSSource) (subscriptions : list RSSSubscription) (stats : rssRefreshStats)
    (items : list RSSFetchedItem) : M GoErr World rssRefreshStats :=
  match items with
  | [] => ret stats
  | fetched :: rest =>
      stats <-! refresh_item ctx source subscriptions stats fetched ;;
      refresh_items ctx source subscriptions stats rest
  end.
Definition enabled_of (sourceID : N) : RSSSubscriptionFilter :=
  {| uf_UserID := 0; uf_IncludeAll := true; uf_SourceID := sourceID; uf_Enabled := Some true |}.
Definition refresh_failed (source : RSSSource) (err : GoErr) (now : Z) : M GoErr World unit :=
  let previousHealth := normalizeRSSSourceHealth (rs_HealthStatus source) in
  let stats := encodeRSSRefreshStats { (zero_stats (rs_ID source)) with st_Failed := 1%Z } in
  let source := applyRSSSourceRefreshFailure
    { source with rs_LastRefreshedAt := Some now; rs_UpdatedAt := now; rs_LastError := Some (err_text err) } stats now in
  do! ignore_error (RSSRepository_UpdateSource source) ;;
  notifyRSSSourceFailure source err previousHealth.
Definition refreshSourceEntity (ctx : Ctx) (source : RSSSource) : M GoErr World rssRefreshStats :=
  if negb (rss_fetcher s) then throw ErrSourceDriverUnsupported
  else
    locked <-! gets (source_free (rs_ID source)) ;;
    if negb locked then throw ErrTaskInvalidState
    else
      items <-! Fetch (rs_URL source) or err =>
        (now <-! time_now ;;
         do! refresh_failed source err now ;;
         throw err) ;;
      now <-! time_now ;;
      let source := { source with rs_LastRefreshedAt := Some now; rs_UpdatedAt := now; rs_LastError := None } in
      subscriptions <-! RSSRepository_ListSubscriptions (enabled_of (rs_ID source)) ;;
      stats <-! refresh_items ctx source subscriptions
        { (zero_stats (rs_ID source)) with st_Fetched := Z.of_nat (length items) } items ;;
      do! RSSRepository_UpdateSource (applyRSSSourceRefreshSuccess source (encodeRSSRefreshStats stats) now) ;;
      ret stats.

(** *** Requests on sources *)
Definition find_owned_source (ctx : Ctx) (id : N) : M GoErr World RSSSource :=
  source <-! RSSRepository_FindSourceByID id ;;
  do! lift_result (authorizeRSSOwner ctx (rs_UserID source)) ;;
  ret source.
Definition RSSService_ListSources (ctx : Ctx) : M GoErr World (list RSSSourceView) :=
  auth <-! lift_result (currentRSSAuth ctx) ;;
  items <-! RSSRepository_ListSources {| sf_UserID := ra_UserID auth; sf_IncludeAll := manages_rss auth; sf_Enabled := None |} ;;
  ret (map toRSSSourceView items).
Definition new_source (userID : N) (name rawURL : string) (interval : Z) (enabled : bool) (now : Z) : RSSSource :=
  {| rs_ID := 0; rs_UserID := userID; rs_Name := name; rs_URL := rawURL; rs_IsEnabled := enabled;
     rs_RefreshIntervalSeconds := interval; rs_LastRefreshedAt := None; rs_LastError := None;
     rs_HealthStatus := RSSSourceHealthOK; rs_ConsecutiveFailures := 0; rs_LastSuccessAt := None; rs_NextRefreshAt := Some now;
     rs_LastRefreshStatus := ""; rs_LastRefreshStatsJSON := ""; rs_CreatedAt := now; rs_UpdatedAt := now |}.
Definition RSSService_CreateSource (ctx : Ctx) (req : RSSSourceUpsertRequest) : M GoErr World RSSSourceView :=
  auth <-! lift_result (currentRSSAuth ctx) ;;
  input <-! lift_result (normalizeRSSSourceInput req) ;;
  let '(name, rawURL, interval) := input in
  now <-! time_now ;;
  source <-! RSSRepository_CreateSource
    (new_source (ra_UserID auth) name rawURL interval (boolDefault (sr_IsEnabled req) true) now) ;;
  ret (toRSSSourceView source).
Definition RSSService_GetSource (ctx : Ctx) (id : N) : M GoErr World RSSSourceView :=
  source <-! find_owned_source ctx id ;;
  ret (toRSSSourceView source).
(** A source that is switched on and has no next refresh is due. *)
Definition switch_source (source : RSSSource) (isEnabled : option bool) : M GoErr World RSSSource :=
  match isEnabled with
  | None => ret source
  | Some enabled =>
      let source := { source with rs_IsEnabled := enabled } in
      if enabled && is_none (rs_NextRefreshAt source) then
        next <-! time_now ;; ret { source with rs_NextRefreshAt := Some next }
      else ret source
  end.
Definition RSSService_UpdateSource (ctx : Ctx) (id : N) (req : RSSSourceUpsertRequest) : M GoErr World RSSSourceView :=
  source <-! find_owned_source ctx id ;;
  input <-! lift_result (normalizeRSSSourceInput req) ;;
  let '(name, rawURL, interval) := input in
  source <-! switch_source { source with rs_Name := name; rs_URL := rawURL } (sr_IsEnabled req) ;;
  now <-! time_now ;;
  let source := { source with rs_RefreshIntervalSeconds := interval; rs_UpdatedAt := now } in
  do! RSSRepository_UpdateSource source ;;
  ret (toRSSSourceView source).
Definition RSSService_DeleteSource (ctx : Ctx) (id : N) : M GoErr World unit :=
  do! find_owned_source ctx id ;;
  RSSRepository_DeleteSource id.
Definition RSSService_RefreshSource (ctx : Ctx) (id : N) : M GoErr World rssRefreshStats :=
  source <-! find_owned_source ctx id ;;
  refreshSourceEntity ctx source.

Definition enabled_sources : RSSSourceFilter := {| sf_UserID := 0; sf_IncludeAll := true; sf_Enabled := Some true |}.
Definition add_refreshed (resp : RSSRefreshAllResponse) (view : RSSRefreshAllItemView) (refreshed skipped failed : Z)
    : RSSRefreshAllResponse :=
  {| rar_Items := rar_Items resp ++ [view]; rar_Refreshed := int_add (rar_Refreshed resp) refreshed;
     rar_Skipped := int_add (rar_Skipped resp) skipped; rar_Failed := int_add (rar_Failed resp) failed |}.
Fixpoint refresh_all (ctx : Ctx) (sources : list RSSSource) (resp : RSSRefreshAllResponse) : M GoErr World RSSRefreshAllResponse :=
  match sources with
  | [] => ret resp
  | source :: rest =>
      let view result error stats := {| ra_Source := rs_ID source; ra_Result := result; ra_Error := error; ra_Stats := stats |} in
      stats <-! refreshSourceEntity ctx source or refreshErr =>
        (if err_is refreshErr ErrTaskInvalidState
         then refresh_all ctx rest (add_refreshed resp (view "skipped" None None) 0 1 0)
         else refresh_all ctx rest
                (add_refreshed resp (view RSSRefreshStatusFailed (Some (err_text refreshErr)) None) 0 0 1)) ;;
      refresh_all ctx rest (add_refreshed resp (view RSSRefreshStatusSuccess None (Some stats)) 1 0 0)
  end.
Definition RSSService_RefreshAllSources (ctx : Ctx) : M GoErr World RSSRefreshAllResponse :=
  do! lift_result (currentRSSAuth ctx) ;;
  sources <-! RSSRepository_ListSources enabled_sources ;;
  refresh_all ctx sources {| rar_Items := []; rar_Refreshed := 0; rar_Skipped := 0; rar_Failed := 0 |}.
Fixpoint refresh_due (ctx : Ctx) (now : Z) (sources : list RSSSource) (joined : option GoErr) : M GoErr World (option GoErr) :=
  match sources with
  | [] => ret joined
  | source :: rest =>
      if negb (sourceRefreshDue source now) then refresh_due ctx now rest joined
      else
        _stats <-! refreshSourceEntity ctx source or refreshErr => refresh_due ctx now rest (join_error joined refreshErr) ;;
        refresh_due ctx now rest joined
  end.
Definition returned_error (joined : option GoErr) : M GoErr World unit :=
  match joined with Some e => throw e | None => ret tt end.
Definition RSSService_RefreshDueSources (ctx : Ctx) : M GoErr World unit :=
  sources <-! RSSRepository_ListSources enabled_sources ;;
  now <-! time_now ;;
  joined <-! refresh_due ctx now sources None ;;
  returned_error joined.

(** *** Requests on items *)
Definition find_owned_item (ctx : Ctx) (id : N) : M GoErr World RSSItem :=
  item <-! RSSRepository_FindItemByID id ;;
  do! lift_result (authorizeRSSOwner ctx (rit_UserID item)) ;;
  ret item.
(** The item as it is stored now, if it can be read. *)
Definition reread (item : RSSItem) : M GoErr World RSSItem :=
  current <-! RSSRepository_FindItemByID (rit_ID item) or _e => ret item ;;
  ret current.
Definition unsupported_item (item : RSSItem) (now : Z) : RSSItem :=
  { item with rit_Status := RSSItemStatusNeedsAttention; rit_ErrorMessage := Some "download link unsupported";
    rit_RetryReason := None; rit_NextRetryAt := None; rit_UpdatedAt := now }.
Definition RSSService_ReprocessItem (ctx : Ctx) (id : N) : M GoErr World RSSItemView :=
  item <-! find_owned_item ctx id ;;
  if rssItemIsCompleted item then ret (toRSSItemView item)
  else if String.eqb (rit_LinkType item) RSSLinkTypeUnsupported then
    now <-! time_now ;;
    let item := unsupported_item item now in
    do! RSSRepository_UpdateItem item ;;
    ret (toRSSItemView item)
  else
    active <-! itemHasActiveTask item ;;
    if active then ret (toRSSItemView item)
    else
      subscriptions <-! RSSRepository_ListSubscriptions (enabled_of (rit_SourceID item)) ;;
      r <-! processItem ctx item subscriptions (zero_stats (rit_SourceID item)) ;;
      item <-! reread (fst r) ;;
      ret (toRSSItemView item).

(** The subscription a retry or a manual download uses. *)
Definition requested_subscription (ctx : Ctx) (item : RSSItem) (requestedID : N) : M GoErr World RSSSubscription :=
  let subscriptionID :=
    if N.eqb requestedID 0 then match rit_MatchedSubscriptionID item with Some id => id | None => requestedID end
    else requestedID in
  if N.eqb subscriptionID 0 then throw ErrPathInvalid
  else
    subscription <-! RSSRepository_FindSubscriptionByID subscriptionID ;;
    if negb (N.eqb (rsub_SourceID subscription) (rit_SourceID item)) then throw ErrPathInvalid
    else
      do! lift_result (authorizeRSSOwner ctx (rsub_UserID subscription)) ;;
      ret subscription.
Definition subscriptionForItemRetry (ctx : Ctx) (item : RSSItem) (requestedID : N) : M GoErr World RSSSubscription :=
  if negb (IsBTRSSDownloadLink (rit_DownloadURL item)) then throw ErrDownloadLinkUnsupported
  else requested_subscription ctx item requestedID.
(** The caller's copy of the item is returned: it is marked where the item
    cannot be read again. *)
Definition retryItemWithSubscription (ctx : Ctx) (item : RSSItem) (subscription : RSSSubscription) (manual : bool)
    : M GoErr World RSSItem :=
  waits <-! (match (if manual then None else rit_NextRetryAt item) with
             | None => ret false
             | Some next => now <-! time_now ;; ret (Z.ltb now next)
             end) ;;
  if waits then ret item
  else
    let mark item err now := markItemRetryOrAttention item (rsub_ID subscription) err now false in
    _u <-! enqueueItemWithAttempt ctx item subscription true or err =>
      (current <-! RSSRepository_FindItemByID (rit_ID item) or _e =>
         (now <-! time_now ;;
          do! mark item err now ;;
          ret (marked_item item (rsub_ID subscription) err now false)) ;;
       now <-! time_now ;;
       do! mark current err now ;;
       ret item) ;;
    ret item.
Definition RSSService_RetryItem (ctx : Ctx) (id : N) (req : RSSManualDownloadRequest) : M GoErr World RSSItemView :=
  item <-! find_owned_item ctx id ;;
  active <-! itemHasActiveTask item ;;
  if active then ret (toRSSItemView item)
  else if rssItemIsCompleted item then ret (toRSSItemView item)
  else
    subscription <-! subscriptionForItemRetry ctx item (md_SubscriptionID req) ;;
    item <-! retryItemWithSubscription ctx item subscription true ;;
    item <-! reread item ;;
    ret (toRSSItemView item).
Definition RSSService_DownloadItem (ctx : Ctx) (id : N) (req : RSSManualDownloadRequest) : M GoErr World RSSItemView :=
  item <-! find_owned_item ctx id ;;
  active <-! itemHasActiveTask item ;;
  if active then ret (toRSSItemView item)
  else if rssItemIsCompleted item then ret (toRSSItemView item)
  else if negb (IsBTRSSDownloadLink (rit_DownloadURL item)) then throw ErrDownloadLinkUnsupported
  else
    subscription <-! requested_subscription ctx item (md_SubscriptionID req) ;;
    _u <-! enqueueItem ctx item subscription or err =>
      (item <-! reread item ;;
       now <-! time_now ;;
       do! markItemManualDownloadFailure item (rsub_ID subscription) err now ;;
       throw err) ;;
    item <-! reread item ;;
    ret (toRSSItemView item).

Definition ignored_item (item : RSSItem) (now : Z) : RSSItem :=
  { item with rit_Status := RSSItemStatusIgnored; rit_ErrorMessage := None; rit_RetryReason := None; rit_NextRetryAt := None;
    rit_UpdatedAt := now }.
Definition ignoreRSSItem (ctx : Ctx) (itemID : N) : M GoErr World RSSItem :=
  item <-! find_owned_item ctx itemID ;;
  locked <-! gets (item_free (rit_ID item)) ;;
  if negb locked then throw ErrTaskInvalidState
  else
    item <-! find_owned_item ctx (rit_ID item) ;;
    active <-! itemHasActiveTask item ;;
    if active || rssItemIsCompleted item then throw ErrTaskInvalidState
    else
      now <-! time_now ;;
      let item := ignored_item item now in
      do! RSSRepository_UpdateItem item ;;
      ret item.

Definition batch_failed (itemID : N) (err : GoErr) (resp : RSSItemBatchActionResponse) : RSSItemBatchActionResponse :=
  {| bar_Items := bar_Items resp ++ [{| ba_ItemID := itemID; ba_Success := false; ba_Item := None;
       ba_ErrorCode := Some (rssItemBatchErrorCode err); ba_ErrorMessage := Some (err_text err) |}];
     bar_Succeeded := bar_Succeeded resp; bar_Failed := succ_int (bar_Failed resp) |}.
Definition batch_done (itemID : N) (view : RSSItemView) (resp : RSSItemBatchActionResponse) : RSSItemBatchActionResponse :=
  {| bar_Items := bar_Items resp ++ [{| ba_ItemID := itemID; ba_Success := true; ba_Item := Some view; ba_ErrorCode := None;
       ba_ErrorMessage := None |}];
     bar_Succeeded := succ_int (bar_Succeeded resp); bar_Failed := bar_Failed resp |}.
Fixpoint batch (action : N -> M GoErr World RSSItemView) (itemIDs : list N) (resp : RSSItemBatchActionResponse)
    : M GoErr World RSSItemBatchActionResponse :=
  match itemIDs with
  | [] => ret resp
  | itemID :: rest =>
      view <-! action itemID or err => batch action rest (batch_failed itemID err resp) ;;
      batch action rest (batch_done itemID view resp)
  end.
Definition run_batch (ctx : Ctx) (itemIDs : list N) (action : N -> M GoErr World RSSItemView)
    : M GoErr World RSSItemBatchActionResponse :=
  do! lift_result (currentRSSAuth ctx) ;;
  match itemIDs with
  | [] => throw ErrConfigInvalid
  | _ => batch action itemIDs {| bar_Items := []; bar_Succeeded := 0; bar_Failed := 0 |}
  end.
Definition RSSService_BatchIgnoreItems (ctx : Ctx) (req : RSSItemBatchIgnoreRequest) : M GoErr World RSSItemBatchActionResponse :=
  run_batch ctx (bi_ItemIDs req) (fun itemID => item <-! ignoreRSSItem ctx itemID ;; ret (toRSSItemView item)).
Definition RSSService_BatchRetryItems (ctx : Ctx) (req : RSSItemBatchRetryRequest) : M GoErr World RSSItemBatchActionResponse :=
  run_batch ctx (br_ItemIDs req)
    (fun itemID => RSSService_RetryItem ctx itemID {| md_SubscriptionID := br_SubscriptionID req |}).
Definition RSSService_ListItems (ctx : Ctx) (filter : RSSItemFilter) : M GoErr World (list RSSItemView) :=
  auth <-! lift_result (currentRSSAuth ctx) ;;
  items <-! RSSRepository_ListItems { filter with if_UserID := ra_UserID auth; if_IncludeAll := manages_rss auth } ;;
  ret (map toRSSItemView items).

(** *** The run of a subscription over the stored items *)
Definition find_owned_subscription (ctx : Ctx) (id : N) : M GoErr World RSSSubscription :=
  subscription <-! RSSRepository_FindSubscriptionByID id ;;
  do! lift_result (authorizeRSSOwner ctx (rsub_UserID subscription)) ;;
  ret subscription.
Definition of_source (sourceID : N) : RSSItemFilter := { all_items with if_SourceID := sourceID }.
Definition run_item (ctx : Ctx) (subscription : RSSSubscription) (item : RSSItem) (stats : rssRefreshStats)
    : M GoErr World rssRefreshStats :=
  active <-! itemHasActiveTask item ;;
  if active || String.eqb (rit_LinkType item) RSSLinkTypeUnsupported then ret stats
  else if negb (rssItemAllowsAutomaticProcessing item) then ret stats
  else
    r <-! processItem ctx item [subscription] stats ;;
    ret (snd r).
Fixpoint run_items (ctx : Ctx) (subscription : RSSSubscription) (items : list RSSItem) (stats : rssRefreshStats)
    : M GoErr World rssRefreshStats :=
  match items with
  | [] => ret stats
  | item :: rest => stats <-! run_item ctx subscription item stats ;; run_items ctx subscription rest stats
  end.
Definition RSSService_RunSubscription (ctx : Ctx) (id : N) : M GoErr World rssRefreshStats :=
  subscription <-! find_owned_subscription ctx id ;;
  items <-! RSSRepository_ListItems (of_source (rsub_SourceID subscription)) ;;
  run_items ctx subscription items (zero_stats (rsub_SourceID subscription)).

(** *** Following the tasks *)
Definition completed_item (item : RSSItem) (task : DownloadTask) (now : Z) : RSSItem :=
  { (settled item now) with rit_ResultVFSNodeID := dt_ResultVFSNodeID task }.
Definition applyRSSItemTaskBacklink (item : RSSItem) (task : DownloadTask) (now : Z) : M GoErr World unit :=
  let mark err := markItemRetryOrAttention item (uintValue (rit_MatchedSubscriptionID item)) err now false in
  let completed := String.eqb (dt_Status task) "completed" in
  preserved <-! (if completed then ret false else preserveRSSItemCompletedResult item now) ;;
  if preserved then ret tt
  else if completed then
    if N.eqb (dt_ResultVFSNodeID task) 0 then mark ErrMetadataVFSCommitFailed
    else
      let item := completed_item item task now in
      do! RSSRepository_UpdateItem item ;;
      notifyRSSDownloadCompleted item task
  else if existsb (String.eqb (dt_Status task)) ["failed"; "canceled"] then mark (ErrText (taskTerminalErrorMessage task))
  else ret tt.

(** Loops that go on after an error: the errors so far, and how many items
    were processed. *)
Fixpoint apply_backlinks (task : DownloadTask) (now : Z) (items : list RSSItem) (joined : option GoErr)
    : M GoErr World (option GoErr) :=
  match items with
  | [] => ret joined
  | item :: rest =>
      _u <-! applyRSSItemTaskBacklink item task now or err => apply_backlinks task now rest (join_error joined err) ;;
      apply_backlinks task now rest joined
  end.
Definition reconcileSingleTaskBacklink (task : DownloadTask) : M GoErr World unit :=
  if negb (isTerminalTaskStatus (dt_Status task)) then ret tt
  else
    items <-! RSSRepository_ListItems { all_items with if_TaskID := dt_ID task } ;;
    now <-! time_now ;;
    joined <-! apply_backlinks task now items None ;;
    returned_error joined.
Definition RSSService_OnTaskTerminalStatus (task : DownloadTask) : M GoErr World unit :=
  if negb (isTerminalTaskStatus (dt_Status task)) then ret tt else reconcileSingleTaskBacklink task.

Definition Progress : Type := Z * option GoErr.
(** What becomes of one item. *)
Definition reconcile_item (now : Z) (item : RSSItem) (taskID : N) (p : Progress) : M GoErr World Progress :=
  let '(processed, joined) := p in
  task <-! TaskRepository_FindByID taskID or err =>
    (if err_is err ErrNotFound then
       do! markItemRetryOrAttention item (uintValue (rit_MatchedSubscriptionID item)) (ErrText "download task not found") now false ;;
       ret (succ_int processed, joined)
     else ret (processed, join_error joined err)) ;;
  _u <-! applyRSSItemTaskBacklink item task now or err => ret (processed, join_error joined err) ;;
  ret (if isTerminalTaskStatus (dt_Status task) then succ_int processed else processed, joined).
Fixpoint reconcile_items (now limit : Z) (items : list RSSItem) (p : Progress) : M GoErr World Progress :=
  match items with
  | [] => ret p
  | item :: rest =>
      if Z.leb limit (fst p) then ret p
      else match rit_TaskID item with
           | None => reconcile_items now limit rest p
           | Some taskID => p <-! reconcile_item now item taskID p ;; reconcile_items now limit rest p
           end
  end.
Fixpoint reconcile_statuses (now limit : Z) (statuses : list string) (p : Progress) : M GoErr World Progress :=
  match statuses with
  | [] => ret p
  | status :: rest =>
      items <-! RSSRepository_ListItems { all_items with if_Status := status } or err =>
        reconcile_statuses now limit rest (fst p, join_error (snd p) err) ;;
      p <-! reconcile_items now limit items p ;;
      reconcile_statuses now limit rest p
  end.
Definition reconcileTaskBacklinks (limit : Z) (processed : Z) : M GoErr World Progress :=
  if negb (rss_taskReader s) || Z.leb limit 0 then ret (processed, None)
  else
    now <-! time_now ;;
    reconcile_statuses now limit [RSSItemStatusEnqueued; RSSItemStatusRetryPending; RSSItemStatusNeedsAttention] (processed, None).

(** *** Retries *)
Definition reconcileRetryItemCompletedTask (item : RSSItem) (now : Z) : M GoErr World bool :=
  match (if rss_taskReader s then rit_TaskID item else None) with
  | None => ret false
  | Some id =>
      task <-! TaskRepository_FindByID id or err => (if err_is err ErrNotFound then ret false else throw err) ;;
      if negb (String.eqb (dt_Status task) "completed") || N.eqb (dt_ResultVFSNodeID task) 0 then ret false
      else do! applyRSSItemTaskBacklink item task now ;; ret true
  end.
Definition attention_item (item : RSSItem) (err : GoErr) (now : Z) : RSSItem :=
  { item with rit_Status := RSSItemStatusNeedsAttention; rit_ErrorMessage := Some (err_text err); rit_RetryReason := None;
    rit_NextRetryAt := None; rit_UpdatedAt := now }.
Definition no_subscription (item : RSSItem) (err : GoErr) (now : Z) (p : Progress) : M GoErr World Progress :=
  let '(processed, joined) := p in
  let item := attention_item item err now in
  _u <-! RSSRepository_UpdateItem item or updateErr => ret (succ_int processed, join_error joined updateErr) ;;
  do! notifyRSSItemNeedsAttention item err ;;
  ret (succ_int processed, joined).
Definition retry_item (ctx : Ctx) (now : Z) (item : RSSItem) (p : Progress) : M GoErr World Progress :=
  let '(processed, joined) := p in
  if match rit_NextRetryAt item with Some next => Z.ltb now next | None => false end then ret p
  else
    active <-! itemHasActiveTask item ;;
    if active then ret p
    else
      preserved <-! preserveRSSItemCompletedResult item now ;;
      if preserved then ret (succ_int processed, joined)
      else
        reconciled <-! reconcileRetryItemCompletedTask item now or err => ret (processed, join_error joined err) ;;
        if reconciled then ret (succ_int processed, joined)
        else
          itemCtx <-! contextForRSSOwner ctx (rit_UserID item) ;;
          subscription <-! subscriptionForItemRetry itemCtx item 0 or err => no_subscription item err now p ;;
          _u <-! retryItemWithSubscription itemCtx item subscription false or err => ret (succ_int processed, join_error joined err) ;;
          ret (succ_int processed, joined).
Fixpoint retry_items (ctx : Ctx) (now limit : Z) (items : list RSSItem) (p : Progress) : M GoErr World Progress :=
  match items with
  | [] => ret p
  | item :: rest =>
      if Z.leb limit (fst p) then ret p
      else p <-! retry_item ctx now item p ;; retry_items ctx now limit rest p
  end.
(** [limit] is what the round has left, and is compared with the count of
    the whole round. *)
Definition retryDueItems (ctx : Ctx) (limit processed : Z) : M GoErr World Progress :=
  if Z.leb limit 0 then ret (processed, None)
  else
    items <-! RSSRepository_ListItems { all_items with if_Status := RSSItemStatusRetryPending } or err => ret (processed, Some err) ;;
    now <-! time_now ;;
    retry_items ctx now limit items (processed, None).
Definition join_errors (joined err : option GoErr) : option GoErr :=
  match err with Some e => join_error joined e | None => joined end.
Definition RSSService_RunRetryCycle (ctx : Ctx) (limit : Z) : M GoErr World Progress :=
  let limit := if Z.leb limit 0 then rss_retryWorkerLimit s else limit in
  r <-! reconcileTaskBacklinks limit 0 ;;
  let '(processed, err) := r in
  let joined := join_errors None err in
  if Z.leb limit processed then ret (processed, joined)
  else
    r <-! retryDueItems ctx (limit - processed) processed ;;
    ret (fst r, join_errors joined (snd r)).
End Service.
