(* ===== verification/RssProps.v ===== *)
(** * RSS: what becomes of an item

    Whatever requests and rounds of the worker run, an item keeps its
    identity, completes at most once and for good ([rss_items_settle]); an
    attempt creates at most one task, for the owner of the subscription and
    below its target ([enqueue_effect]). *)
From S2P Require Import Prelude Ints GoStrings Runes Errors Entities Paths Permission Tables Db Auditing Repos Journal Users Auth Notifications Commits Tasks RssRules RssRuleProps Rss.
From stdpp Require Import base list strings sets pretty.
From Stdlib Require Import ZArith Lia Ascii.

Local Open Scope string_scope.
Local Open Scope list_scope.
Local Open Scope go_scope.

(** ** One item *)
Definition done_item (i : RSSItem) : Prop := rit_ResultVFSNodeID i <> 0%N.
(** An item is completed exactly if it has a result; one that waits for
    another attempt has one left, a time and a reason. *)
Definition item_ok (i : RSSItem) : Prop :=
  (rit_Status i = RSSItemStatusCompleted <-> done_item i) /\
  (rit_Status i = RSSItemStatusRetryPending ->
     (rit_RetryCount i < rit_MaxRetryCount i)%Z /\ rit_NextRetryAt i <> None /\ rit_RetryReason i <> None).
Definition same_item (i j : RSSItem) : Prop :=
  rit_ID i = rit_ID j /\ rit_UserID i = rit_UserID j /\ rit_SourceID i = rit_SourceID j /\ rit_DedupKey i = rit_DedupKey j.
Definition item_step (i j : RSSItem) : Prop := same_item i j /\ (done_item i -> done_item j).
(** [c] is a copy of [i], as far as the result goes. *)
Definition core (i c : RSSItem) : Prop := same_item i c /\ (done_item i <-> done_item c).

#[export] Instance same_item_equivalence : Equivalence same_item.
Proof. unfold same_item. split; [done|intros i j (? & ? & ? & ?)|intros i j k (? & ? & ? & ?) (? & ? & ? & ?)]; split_and!; congruence. Qed.
#[export] Instance core_equivalence : Equivalence core.
Proof.
  split; [split; done|..].
  - intros i j [? ?]. split; [by symmetry|tauto].
  - intros i j k [? ?] [? ?]. split; [by etransitivity|tauto].
Qed.
Lemma core_step i c : core i c -> item_step i c.
Proof. unfold core, item_step. tauto. Qed.
Lemma item_step_refl i : item_step i i.
Proof. split; done. Qed.
Lemma item_step_trans i j k : item_step i j -> item_step j k -> item_step i k.
Proof. intros [H1 H2] [H3 H4]. split; [by etransitivity|auto]. Qed.

(** What the changes of an item do. *)
Definition not_done (i : RSSItem) : Prop := rit_ResultVFSNodeID i = 0%N.
Lemma ok_not_completed i : item_ok i -> rssItemIsCompleted i = false -> not_done i.
Proof.
  intros [Hc _] Hs%String.eqb_neq. destruct (N.eq_dec (rit_ResultVFSNodeID i) 0) as [|Hd]; [done|]. by apply Hc in Hd.
Qed.
Lemma ok_plain i : not_done i -> rit_Status i <> RSSItemStatusCompleted -> rit_Status i <> RSSItemStatusRetryPending -> item_ok i.
Proof. intros Hr Hs Hp. split; [|done]. unfold done_item. rewrite Hr. done. Qed.
Lemma defaults_fields i : same_item (ensureRSSItemRetryDefaults i) i /\
  rit_ResultVFSNodeID (ensureRSSItemRetryDefaults i) = rit_ResultVFSNodeID i /\
  rit_Status (ensureRSSItemRetryDefaults i) = rit_Status i /\ rit_DownloadURL (ensureRSSItemRetryDefaults i) = rit_DownloadURL i.
Proof. unfold ensureRSSItemRetryDefaults. by destruct (Z.leb _ _). Qed.

Lemma settled_ok i now : done_item i -> item_ok (settled i now) /\ core i (settled i now).
Proof. intros Hd. split; [|done]. split; [|done]. done. Qed.
Lemma completed_ok i task now : dt_ResultVFSNodeID task <> 0%N -> item_ok (completed_item i task now) /\ item_step i (completed_item i task now).
Proof. intros Hd. split; split; done. Qed.

Lemma given_fields id i : same_item (given_subscription id i) i /\
  rit_ResultVFSNodeID (given_subscription id i) = rit_ResultVFSNodeID i /\ rit_Status (given_subscription id i) = rit_Status i.
Proof. unfold given_subscription. by destruct (N.eqb _ _). Qed.
Lemma same_core i j : same_item i j -> rit_ResultVFSNodeID i = rit_ResultVFSNodeID j -> core i j.
Proof. intros Hs E. split; [done|]. unfold done_item. by rewrite E. Qed.

Lemma failed_ok i id err now count : not_done i ->
  item_ok (failed_item i id err now count) /\ core i (failed_item i id err now count).
Proof.
  intros Hn. unfold failed_item. destruct (defaults_fields i) as (Hs & Er & _ & _).
  set (i1 := if count then _ else _). assert (same_item i i1 /\ rit_ResultVFSNodeID i1 = 0%N) as [Hs1 Er1].
  { unfold i1. destruct count; cbn; rewrite Er; split; done || by symmetry. }
  destruct (classifyRSSRetryError err) as [reason retryable]. clearbody i1.
  set (i2 := given_subscription id _).
  assert (same_item i i2 /\ rit_ResultVFSNodeID i2 = 0%N) as [Hs2 Er2].
  { destruct (given_fields id { i1 with rit_ErrorMessage := Some (err_text err) }) as (H1 & H2 & _).
    split; [|by rewrite <- Er1; apply H2]. transitivity i1; [done|]. symmetry. exact H1. }
  clearbody i2. destruct (retryable && _) eqn:E.
  - apply andb_true_iff in E as [_ Hlt%Z.ltb_lt]. split; [|by apply same_core; cbn; [|congruence]].
    split; cbn; [unfold done_item; cbn; by rewrite Er2|done].
  - split; [|by apply same_core; cbn; [|congruence]]. by apply ok_plain.
Qed.
Lemma manually_failed_ok i id err now : not_done i ->
  item_ok (manually_failed i id err now) /\ core i (manually_failed i id err now).
Proof.
  intros Hn. unfold manually_failed. destruct (defaults_fields i) as (Hs & Er & _).
  set (i1 := given_subscription id _).
  assert (same_item i i1 /\ rit_ResultVFSNodeID i1 = 0%N /\ rit_Status i1 = RSSItemStatusNeedsAttention) as (Hs1 & Er1 & Es1).
  { unfold i1. match goal with |- context [given_subscription id ?x] => destruct (given_fields id x) as (H1 & -> & ->) end.
    cbn. split_and!; [|congruence|done]. etransitivity; [by symmetry|]. symmetry. exact H1. }
  clearbody i1. split; [|by apply same_core; cbn; [|congruence]]. by apply ok_plain; [|cbn; rewrite Es1..].
Qed.
Lemma started_ok i sub now count : not_done i ->
  item_ok (attempt_started i sub now count) /\ core i (attempt_started i sub now count).
Proof.
  intros Hn. unfold attempt_started. destruct (defaults_fields i) as (Hs & Er & _).
  assert (rit_ResultVFSNodeID (ensureRSSItemRetryDefaults i) = 0%N) by congruence.
  destruct count; (split; [by apply ok_plain|apply same_core; cbn; [by symmetry|congruence]]).
Qed.
Lemma marked_ok i id err now count : item_ok i -> item_ok (marked_item i id err now count) /\ core i (marked_item i id err now count).
Proof.
  intros Ho. unfold marked_item. destruct (N.eqb_spec (rit_ResultVFSNodeID i) 0); [by apply failed_ok|].
  destruct (is_settled i); [by split|by apply settled_ok].
Qed.
Lemma enqueued_ok i task now : not_done i -> item_ok (enqueued i task now) /\ core i (enqueued i task now).
Proof. intros Hn. split; [by apply ok_plain|by apply same_core]. Qed.
Lemma ignored_ok i now : not_done i -> item_ok (ignored_item i now) /\ core i (ignored_item i now).
Proof. intros Hn. split; [by apply ok_plain|by apply same_core]. Qed.
Lemma unsupported_ok i now : not_done i -> item_ok (unsupported_item i now) /\ core i (unsupported_item i now).
Proof. intros Hn. split; [by apply ok_plain|by apply same_core]. Qed.
Lemma attention_ok i err now : not_done i -> item_ok (attention_item i err now) /\ core i (attention_item i err now).
Proof. intros Hn. split; [by apply ok_plain|by apply same_core]. Qed.
Lemma skipped_ok i now : not_done i -> item_ok (skipped_item i now) /\ core i (skipped_item i now).
Proof. intros Hn. split; [by apply ok_plain|by apply same_core]. Qed.
Lemma link_status (b : bool) : let s := if b then RSSItemStatusUnsupported else RSSItemStatusNew in
  s <> RSSItemStatusCompleted /\ s <> RSSItemStatusRetryPending.
Proof. by destruct b. Qed.

(** ** What the collaborators leave alone *)
Definition beside_items : list Table :=
  [TUser; TToken; TRule; TSource; TConfig; TNode; TObject; TOperation; TAudit; TUpload; TMount; TTag; TNodeTag; TChannel;
   TNotification; TShare; TTrash; TRssSource; TRssSubscription; TTask].
Class RSSTaskCreatorLaws `{DatabaseLaws} {TC : RSSTaskCreator} : Prop :=
  create_task_law : forall ctx req, within beside_items (CreateTask ctx req).
Class RSSNotifierLaws `{DatabaseLaws} {NO : RSSNotifier} : Prop := notify_law : forall input, within beside_items (RSSNotify input).
Class RSSFetcherLaws `{DatabaseLaws} {FE : RSSFetcher} : Prop := fetch_law : forall url, within beside_items (Fetch url).

Section Items.
Context `{DatabaseLaws} {TC : RSSTaskCreator} {NO : RSSNotifier} {FE : RSSFetcher} {LO : RSSLocks} {RE : Regexp} {UP : UrlParser}
  {UPA : UrlPath} {TF : TimeFormat} {TCL : RSSTaskCreatorLaws} {NOL : RSSNotifierLaws} {FEL : RSSFetcherLaws} (s : RSSService).
Implicit Types w : World.

Lemma seen_again_ok i fetched link status now : item_ok i -> status <> RSSItemStatusCompleted -> status <> RSSItemStatusRetryPending ->
  item_ok (seen_again i fetched link status now) /\ core i (seen_again i fetched link status now).
Proof.
  intros [Hc Hp] H1 H2. unfold seen_again. set (i0 := { i with rit_Title := _; rit_Link := _; rit_PublishedAt := _; rit_GUID := _;
    rit_DownloadURL := _; rit_LinkType := _; rit_Parsed := _ }).
  assert (item_ok (ensureRSSItemRetryDefaults i0) /\ core i (ensureRSSItemRetryDefaults i0)) as [[Hc' Hp'] Hcore].
  { unfold ensureRSSItemRetryDefaults. destruct (Z.leb_spec (rit_MaxRetryCount i0) 0); [|done].
    split; [|done]. split; [done|]. cbn in *. intros Hs. destruct (Hp Hs) as (? & ? & ?). split_and!; [|done..].
    unfold defaultRSSItemMaxRetryCount. lia. }
  destruct (existsb _ _) eqn:E; [|done].
  assert (not_done (ensureRSSItemRetryDefaults i0)) as Hn.
  { apply ok_not_completed; [done|]. unfold rssItemIsCompleted. cbn in E. rewrite !orb_false_r in E.
    rewrite !orb_true_iff, !String.eqb_eq in E. apply String.eqb_neq. intros Es. rewrite Es in E. naive_solver. }
  split; [by apply ok_plain|]. etransitivity; [exact Hcore|]. done.
Qed.
Lemma new_item_ok source fetched link status key now : status <> RSSItemStatusCompleted -> status <> RSSItemStatusRetryPending ->
  item_ok (new_item source fetched link status key now).
Proof. intros. by apply ok_plain. Qed.

(** ** The table of items *)
Definition items w : list RSSItem := tbl TRssItem w.
Definition good w : Prop := valid w /\ Forall item_ok (items w).
(** Every item is still there; the results of those with an ID in [K] may
    be new. *)
Definition moves (K : N -> Prop) w w' : Prop :=
  good w' /\ forall i, i ∈ items w -> exists i', i' ∈ items w' /\ item_step i i' /\ (~ K (rit_ID i) -> core i i').
Definition none (_ : N) : Prop := False.
(** A copy of a stored item. *)
Definition copy (c : RSSItem) w : Prop := item_ok c /\ exists i, i ∈ items w /\ core i c.

Lemma step_kept (K : N -> Prop) i : item_step i i /\ (~ K (rit_ID i) -> core i i).
Proof. split; [apply item_step_refl|reflexivity]. Qed.
Lemma moves_refl K w : good w -> moves K w w.
Proof. intros Hg. split; [done|]. intros i Hi. exists i. split; [done|apply step_kept]. Qed.
Lemma moves_trans K w1 w2 w3 : moves K w1 w2 -> moves K w2 w3 -> moves K w1 w3.
Proof.
  intros [_ H1] [Hg H2]. split; [done|]. intros i Hi. destruct (H1 i Hi) as (j & Hj & Hs & Hc).
  destruct (H2 j Hj) as (k & Hk & Hs' & Hc'). exists k. split; [done|]. split; [by eapply item_step_trans|].
  intros Hn. etransitivity; [by apply Hc|]. apply Hc'. destruct Hs as [[<- _] _]. done.
Qed.
Lemma moves_mono (K K' : N -> Prop) w w' : (forall i, K i -> K' i) -> moves K w w' -> moves K' w w'.
Proof. intros HK [Hg Hm]. split; [done|]. intros i Hi. destruct (Hm i Hi) as (j & Hj & Hs & Hc). exists j. split; [done|]. split; [done|]. auto. Qed.
Lemma moves_none K w w' : moves none w w' -> moves K w w'.
Proof. by apply moves_mono. Qed.
Lemma moves_good K w w' : moves K w w' -> good w'.
Proof. by intros []. Qed.
Lemma frames_moves ts K w w' : good w -> frames ts w w' -> TRssItem ∉ ts -> moves K w w'.
Proof.
  intros [Hv Ho] Hf Ht. assert (items w' = items w) as E by exact (frames_tbl ts w w' TRssItem Hf Ht).
  assert (good w') as Hg by (split; [by apply Hf|by rewrite E]).
  split; [done|]. intros i Hi. exists i. rewrite E. split; [done|apply step_kept].
Qed.
Lemma same_moves K w w' : good w -> same w w' -> moves K w w'.
Proof. intros Hg Hs. apply (frames_moves []); [done|by apply same_frames|set_solver]. Qed.
Lemma copy_moves K c w w' : copy c w -> moves K w w' -> ~ K (rit_ID c) -> copy c w'.
Proof.
  intros [Ho (i & Hi & Hc)] [_ Hm] Hn. split; [done|]. destruct (Hm i Hi) as (j & Hj & _ & Hij). exists j. split; [done|].
  etransitivity; [|exact Hc]. symmetry. apply Hij. by rewrite (proj1 (proj1 Hc)).
Qed.
Lemma copy_stored i w : good w -> i ∈ items w -> copy i w.
Proof. intros [_ Ho] Hi. rewrite Forall_forall in Ho. split; [auto|]. by exists i. Qed.
Lemma copy_core c d w : copy c w -> item_ok d -> core c d -> copy d w.
Proof. intros [_ (i & Hi & Hc)] Hd Hcd. split; [done|]. exists i. split; [done|by etransitivity]. Qed.

(** Rows with one ID, or one key in a source, are one row. *)
Lemma same_id_same_row w i j : valid w -> i ∈ items w -> j ∈ items w -> rit_ID i = rit_ID j -> i = j.
Proof.
  intros Hv Hi Hj E. destruct (no_conflicts_elem TRssItem _ i j (Hv TRssItem) Hi Hj) as [|Hc]; [done|].
  cbn in Hc. unfold RSSItemModel_conflict in Hc. by rewrite E, N.eqb_refl in Hc.
Qed.
Lemma copy_row c i w : good w -> copy c w -> i ∈ items w -> rit_ID i = rit_ID c -> core i c.
Proof. intros [Hv _] [_ (j & Hj & Hc)] Hi E. rewrite (same_id_same_row w i j); [done..|]. rewrite E. symmetry. apply Hc. Qed.
Lemma item_ids_nodup l : no_conflicts TRssItem l = true -> NoDup (map rit_ID l).
Proof.
  induction l as [|n l IH]; intros Hl; [constructor|]. cbn in Hl. apply andb_true_iff in Hl as [Hn Hl].
  constructor; [|by apply IH]. intros (x & E & Hx)%list_elem_of_fmap. rewrite forallb_forall in Hn.
  apply list_elem_of_In, Hn in Hx. unfold RSSItemModel_conflict in Hx. by rewrite E, N.eqb_refl in Hx.
Qed.

Lemma sublist_limited {A} n (l : list A) : limited n l `sublist_of` l.
Proof. destruct n; [apply sublist_take|done]. Qed.

(** ** The repository *)
Lemma wp_within {A} ts (m : M GoErr World A) (Q : result GoErr A -> World -> Prop) w :
  good w -> within ts m -> TRssItem ∉ ts -> (forall r w', moves none w w' -> Q r w') -> wp m Q w.
Proof. intros Hg Hm Ht HQ. eapply wp_mono; [apply Hm|]. intros r w' Hf. apply HQ. exact (frames_moves ts none w w' Hg Hf Ht). Qed.

Lemma wp_write K x (Q : result GoErr unit -> World -> Prop) w :
  good w -> item_ok x -> (exists i, i ∈ items w /\ item_step i x /\ (K (rit_ID i) \/ core i x)) ->
  (forall e w', moves K w w' -> Q (Err e) w') -> (forall w', moves K w w' -> copy x w' -> Q (Ok tt) w') ->
  wp (RSSRepository_UpdateItem x) Q w.
Proof.
  intros Hg Hx (i & Hi & Hs & HK) He Hk. apply (wp_update_found TRssItem).
  - intros e w' Hsm _. apply He. by apply same_moves.
  - intros w' Hsm _. apply He. by apply same_moves.
  - intros now w' l _ Hn Hp. set (new := fun j => touch TRssItem now (rss_item_columns x j)).
    assert (forall j, j ∈ items w -> N.eqb (rit_ID j) (rit_ID x) = true -> j = i) as Hone.
    { intros j Hj E%N.eqb_eq. apply (same_id_same_row w); [apply Hg|done..|]. rewrite E. symmetry. apply Hs. }
    assert (rit_ID i = rit_ID x) as Ei by apply Hs.
    assert (new i ∈ items w') as Hni.
    { unfold items. rewrite (proj1 Hp). apply elem_of_set_where. left. exists i. split_and!; [done|by apply N.eqb_eq|done]. }
    assert (core x (new i)) as Hc by (split; [split; [done|by split_and!]|done]).
    assert (moves K w w') as Hm.
    { split.
      - split; [by eapply put_valid; [exact Hp|exact Hn|apply Hg]|]. apply Forall_forall. intros y Hy.
        unfold items in Hy. rewrite (proj1 Hp) in Hy. apply elem_of_set_where in Hy as [(j & Hj & Ej & ->)|[Hy _]].
        + exact Hx.
        + destruct Hg as [_ Ho]. rewrite Forall_forall in Ho. by apply Ho.
      - intros j Hj. destruct (N.eqb (rit_ID j) (rit_ID x)) eqn:Ej.
        + rewrite (Hone j) by done. exists (new i). split; [done|]. split; [by eapply item_step_trans; [|apply core_step]|].
          intros Hnk. destruct HK as [|HK]; [done|]. by etransitivity.
        + exists j. split; [|by apply step_kept]. unfold items. rewrite (proj1 Hp). apply elem_of_set_where. by right. }
    apply Hk; [done|]. split; [done|]. exists (new i). split; [done|by symmetry].
Qed.
Lemma wp_UpdateItem x (Q : result GoErr unit -> World -> Prop) w :
  good w -> copy x w -> (forall e w', moves none w w' -> Q (Err e) w') -> (forall w', moves none w w' -> copy x w' -> Q (Ok tt) w') ->
  wp (RSSRepository_UpdateItem x) Q w.
Proof. intros Hg [Hx (i & Hi & Hc)]. apply wp_write; [done..|]. exists i. split; [done|]. split; [by apply core_step|by right]. Qed.

Lemma wp_CreateItem x (Q : result GoErr RSSItem -> World -> Prop) w :
  good w -> item_ok x -> (forall e w', moves none w w' -> Q (Err e) w') ->
  (forall i w', moves none w w' -> copy i w' -> Q (Ok i) w') -> wp (RSSRepository_CreateItem x) Q w.
Proof.
  intros Hg Hx He Hk. apply (wp_insert TRssItem).
  - intros e w' Hs _. apply He. by apply same_moves.
  - intros id now w' i _ Ha Hp. assert (items w' = items w ++ [i]) as E by apply Hp.
    assert (good w') as Hg'.
    { split; [eapply put_valid; [exact Hp|by apply absent_no_conflicts; [apply Hg|]|apply Hg]|].
      rewrite E. apply Forall_app. split; [apply Hg|]. constructor; [exact Hx|done]. }
    apply Hk.
    + split; [done|]. intros j Hj. exists j. rewrite E. split; [apply elem_of_app; by left|apply step_kept].
    + apply copy_stored; [done|]. rewrite E. apply elem_of_app. right. by apply list_elem_of_singleton.
Qed.

Lemma wp_first_item p (Q : result GoErr RSSItem -> World -> Prop) w :
  good w -> (forall e w', moves none w w' -> Q (Err e) w') ->
  (forall i w', moves none w w' -> copy i w' -> i ∈ items w -> p i = true -> Q (Ok i) w') -> wp (first TRssItem p ord_any) Q w.
Proof.
  intros Hg He Hk. apply (wp_first TRssItem).
  - intros e w' Hs _. apply He. by apply same_moves.
  - intros w' Hs _. apply He. by apply same_moves.
  - intros i w' Hs Hi Hp _. pose proof (same_moves none w w' Hg Hs) as Hm. apply Hk; [done| |done..].
    apply (copy_moves none i w); [by apply copy_stored|done|by intros []].
Qed.
Lemma wp_ListItems filter (Q : result GoErr (list RSSItem) -> World -> Prop) w :
  good w -> (forall e w', moves none w w' -> Q (Err e) w') ->
  (forall l w', moves none w w' -> (forall i, i ∈ l -> copy i w') -> NoDup (map rit_ID l) -> Q (Ok l) w') ->
  wp (RSSRepository_ListItems filter) Q w.
Proof.
  intros Hg He Hk. apply (wp_select TRssItem).
  - intros e w' Hs _. apply He. by apply same_moves.
  - intros all w' Hs Hp _. pose proof (same_moves none w w' Hg Hs) as Hm. apply Hk; [done|..].
    + intros i Hi%limited_subset. rewrite Hp in Hi. apply elem_of_sel in Hi as [Hi _].
      apply (copy_moves none i w); [by apply copy_stored|done|by intros []].
    + eapply sublist_NoDup; [|apply (fmap_sublist rit_ID), (sublist_limited _ all)].
      change (NoDup (map rit_ID all)). rewrite Hp. apply item_ids_nodup, no_conflicts_sel, Hg.
Qed.
(** ** Steps *)
Ltac has_good := match goal with
  | Hg : good ?w |- good ?w => exact Hg
  | Hm : moves _ _ ?w |- good ?w => exact (moves_good _ _ _ Hm)
  end.
(** Along the moves among the hypotheses. *)
Ltac solve_moves := solve
  [ assumption
  | apply moves_none; assumption
  | apply moves_refl; has_good
  | match goal with
    | Hm : moves ?K ?v ?w' |- moves ?K ?w ?w' => apply (moves_trans K w v w'); [solve_moves|exact Hm]
    | Hm : moves none ?v ?w' |- moves ?K ?w ?w' => apply (moves_trans K w v w'); [solve_moves|exact (moves_none K v w' Hm)]
    end ].
Ltac solve_copy := solve
  [ assumption
  | match goal with
    | Hm : moves none ?v ?w' |- copy ?c ?w' => apply (copy_moves none c v w'); [solve_copy|exact Hm|by intros []]
    end ].
Ltac copy_of c := apply (copy_core c); [solve_copy|..].

(** A computation that keeps every item and every result. *)
Definition steady {A} (m : M GoErr World A) w : Prop := wp m (fun _ w' => moves none w w') w.
Lemma wp_steady {A} (m : M GoErr World A) (Q : result GoErr A -> World -> Prop) w :
  steady m w -> (forall r w', moves none w w' -> Q r w') -> wp m Q w.
Proof. intros Hm HQ. exact (wp_mono m _ Q w Hm HQ). Qed.
Lemma steady_within {A} ts (m : M GoErr World A) w : good w -> within ts m -> TRssItem ∉ ts -> steady m w.
Proof. intros Hg Hm Ht. by apply (wp_within ts). Qed.
Lemma steady_trans {A} (m : M GoErr World A) w0 w : moves none w0 w -> steady m w -> wp m (fun _ w' => moves none w0 w') w.
Proof. intros Hm Hs. apply (wp_steady m _ w Hs). intros r w' Hm'. exact (moves_trans none w0 w w' Hm Hm'). Qed.
Ltac quiet := eapply (wp_within beside_items); [has_good|auto with frame|set_solver|].

Lemma wp_ignore {A} (m : M GoErr World A) (Q : result GoErr unit -> World -> Prop) w :
  wp m (fun _ w' => Q (Ok tt) w') w -> wp (ignore_error m) Q w.
Proof. intros Hm. apply wp_bind, wp_bind_or. eapply wp_mono; [exact Hm|]. by intros [a|e] w'. Qed.

Lemma within_ignore {A} ts (m : M GoErr World A) : within ts m -> within ts (ignore_error m).
Proof. intros Hm. unfold ignore_error, succeeds. repeat first [exact Hm | frame_step]. Qed.
Lemma within_emit input : within beside_items (emitRSSNotification s input).
Proof. unfold emitRSSNotification. destruct (rss_notifier s); [apply within_ignore, notify_law|auto with frame]. Qed.
Lemma within_active ts i : within ts (itemHasActiveTask s i).
Proof. unfold itemHasActiveTask, TaskRepository_FindByID. frame_tac. Qed.
Lemma within_owner ts ctx id : within ts (contextForRSSOwner s ctx id).
Proof. unfold contextForRSSOwner, UserRepository_FindByID. frame_tac. Qed.
Lemma within_subscriptions ts filter : within ts (RSSRepository_ListSubscriptions filter).
Proof. unfold RSSRepository_ListSubscriptions. auto with frame. Qed.
Lemma within_update_source source : within beside_items (RSSRepository_UpdateSource source).
Proof. unfold RSSRepository_UpdateSource. frame_tac. Qed.
#[local] Hint Resolve within_emit within_active within_owner within_subscriptions within_update_source : frame.

(** ** Failures *)
Lemma wp_preserve i now (Q : result GoErr bool -> World -> Prop) w : good w -> copy i w ->
  (forall w', moves none w w' -> Q (Ok true) w') -> (forall w', moves none w w' -> not_done i -> Q (Ok false) w') ->
  wp (preserveRSSItemCompletedResult i now) Q w.
Proof.
  intros Hg Hc Ht Hf. unfold preserveRSSItemCompletedResult. destruct (N.eqb_spec (rit_ResultVFSNodeID i) 0) as [E|E].
  { apply wp_ret, Hf; [by apply moves_refl|done]. }
  destruct (is_settled i); [apply wp_ret, Ht; by apply moves_refl|]. apply wp_bind, wp_ignore.
  destruct (settled_ok i now E). apply wp_UpdateItem; [done|by eapply copy_core|..]; intros; by apply wp_ret, Ht.
Qed.
Lemma steady_store prev x err w : good w -> copy x w -> steady (store_failed s prev x err) w.
Proof.
  intros Hg Hc. apply wp_bind, wp_bind_or, wp_UpdateItem; [done..| |].
  - intros e w1 Hm. by apply wp_ret.
  - intros w1 Hm _. apply wp_ret. cbn [negb]. destruct (_ && _); [|by apply wp_ret].
    apply steady_trans; [done|]. apply (steady_within beside_items); [has_good|apply within_emit|set_solver].
Qed.
Lemma steady_mark i id err now count w : good w -> copy i w -> steady (markItemRetryOrAttention s i id err now count) w.
Proof.
  intros Hg Hc. apply wp_bind, wp_preserve; [done..| |]; intros w1 Hm; [by apply wp_ret|]. intros Hn.
  destruct (failed_ok i id err now count Hn). apply steady_trans; [done|]. apply steady_store; [has_good|].
  by copy_of i.
Qed.
Lemma steady_mark_manual i id err now w : good w -> copy i w -> not_done i -> steady (markItemManualDownloadFailure s i id err now) w.
Proof.
  intros Hg Hc Hn. destruct (manually_failed_ok i id err now Hn). apply steady_store; [done|]. by eapply copy_core.
Qed.

(** ** Attempts *)
Lemma not_done_core i c : core i c -> not_done c -> not_done i.
Proof. intros [_ Hd] Hn. unfold not_done, done_item in *. destruct (N.eq_dec (rit_ResultVFSNodeID i) 0); [done|tauto]. Qed.
Lemma steady_attempt ctx i sub count w : good w -> copy i w -> steady (attempt_item s ctx i sub count) w.
Proof.
  intros Hg Hc. apply wp_bind. quiet. intros [[]|e] w1 Hm1; [by apply wp_ret| |done].
  destruct (rssItemIsCompleted i) eqn:E; [by apply wp_ret|]. pose proof (ok_not_completed i (proj1 Hc) E) as Hn.
  destruct (negb _); [by apply wp_throw|]. destruct (negb _); [by apply wp_throw|].
  apply wp_bind. quiet. intros [now|e] w2 Hm2; [|solve_moves]. cbv zeta. set (i1 := attempt_started i sub now count).
  destruct (started_ok i sub now count Hn) as [Ho1 Hc1].
  apply wp_bind, wp_UpdateItem; [has_good|by copy_of i|intros; solve_moves|]. intros w3 Hm3 Hi1.
  apply wp_bind, wp_lift_result. destruct (renderRSSTargetVirtualParentPath sub i1) as [path|]; [|solve_moves].
  apply wp_bind, wp_lift_result. destruct (renderRSSFilenameTemplate sub i1) as [name|]; [|solve_moves].
  apply wp_bind. quiet. intros [taskCtx|e] w4 Hm4; [|solve_moves].
  apply wp_bind. eapply (wp_within beside_items); [has_good|apply create_task_law|set_solver|]. intros [id|e] w5 Hm5; [|solve_moves].
  apply wp_bind. quiet. intros [now'|e] w6 Hm6; [|solve_moves].
  destruct (enqueued_ok i1 id now') as [Ho2 Hc2]; [by apply (not_done_core i1 i); [symmetry|]|].
  apply wp_UpdateItem; [has_good|by copy_of i1|intros; solve_moves..].
Qed.
Lemma steady_enqueue ctx i sub count w : good w -> copy i w -> steady (enqueueItemWithAttempt s ctx i sub count) w.
Proof.
  intros Hg Hc. apply wp_bind, wp_gets. destruct (negb _); [apply wp_throw; solve_moves|].
  apply wp_bind_or, wp_first_item; [done|..].
  - intros e w1 Hm. destruct (negb _); [by apply wp_throw|]. apply steady_trans; [done|]. apply steady_attempt; [has_good|solve_copy].
  - intros j w1 Hm Hj _ _. apply steady_trans; [done|]. by apply steady_attempt; [has_good|].
Qed.
(** The copy that comes back is one of the stored item. *)
Lemma wp_process_match ctx i sub stats (Q : result GoErr (RSSItem * rssRefreshStats) -> World -> Prop) w : good w -> copy i w ->
  (forall e w', moves none w w' -> Q (Err e) w') -> (forall j st w', moves none w w' -> copy j w' -> Q (Ok (j, st)) w') ->
  wp (process_match s ctx i sub stats) Q w.
Proof.
  intros Hg Hc He Hk. apply wp_bind_or, (wp_steady _ _ _ (steady_enqueue ctx i sub false w Hg Hc)).
  intros [u|e] w1 Hm; [apply wp_ret, Hk; [done|solve_copy]|].
  apply wp_bind. quiet. intros [now|e'] w2 Hm2; [|apply He; solve_moves]. apply wp_bind, wp_steady.
  - apply steady_mark; [has_good|solve_copy].
  - intros [u|e'] w3 Hm3; [apply wp_ret, Hk|apply He]; try solve_moves.
    destruct (marked_ok i (rsub_ID sub) e now false (proj1 Hc)). by copy_of i.
Qed.
Lemma wp_process ctx i subs stats (Q : result GoErr (RSSItem * rssRefreshStats) -> World -> Prop) w : good w -> copy i w ->
  (forall e w', moves none w w' -> Q (Err e) w') -> (forall j st w', moves none w w' -> copy j w' -> Q (Ok (j, st)) w') ->
  wp (processItem s ctx i subs stats) Q w.
Proof.
  intros Hg Hc He Hk. apply wp_bind. quiet. intros [[]|e] w1 Hm; [apply wp_ret, Hk; [done|solve_copy]| |by apply He].
  destruct (rssItemIsCompleted i) eqn:E; [apply wp_ret, Hk; [done|solve_copy]|]. pose proof (ok_not_completed i (proj1 Hc) E) as Hn.
  destruct (List.find _ subs).
  { apply wp_process_match; [has_good|solve_copy|intros; apply He; solve_moves|intros; apply Hk; [solve_moves|done]]. }
  destruct (String.eqb _ _); [apply wp_ret, Hk; [done|solve_copy]|]. apply wp_bind. quiet. intros [now|e] w2 Hm2; [|apply He; solve_moves].
  cbv zeta. destruct (skipped_ok i now Hn). apply wp_bind, wp_ignore, wp_UpdateItem; [has_good|by copy_of i|..];
    intros; apply wp_ret, Hk; try solve_moves; by copy_of i.
Qed.

(** ** Refreshing *)
Lemma wp_upsert_item source fetched (Q : result GoErr (RSSItem * bool) -> World -> Prop) w : good w ->
  (forall e w', moves none w w' -> Q (Err e) w') -> (forall i b w', moves none w w' -> copy i w' -> Q (Ok (i, b)) w') ->
  wp (upsertFetchedItem source fetched) Q w.
Proof.
  intros Hg He Hk. unfold upsertFetchedItem. cbv zeta. set (link := resolveRSSDownloadLink fetched).
  destruct (link_status (String.eqb (snd link) RSSLinkTypeUnsupported)) as [H1 H2]. set (status := if String.eqb _ _ then _ else _) in *.
  apply wp_bind_or, wp_first_item; [done|..].
  - intros e w1 Hm. destruct (negb _); [apply wp_throw; auto|]. apply wp_bind. quiet. intros [now|e'] w2 Hm2; [|apply He; solve_moves].
    apply wp_bind, wp_CreateItem; [has_good|by apply new_item_ok|intros; apply He; solve_moves|].
    intros i w3 Hm3 Hi. apply wp_ret, Hk; [solve_moves|done].
  - intros i w1 Hm Hi _ _. apply wp_bind. quiet. intros [now|e'] w2 Hm2; [|apply He; solve_moves].
    destruct (seen_again_ok i fetched link status now) as [Ho Hc]; [apply Hi|done..|].
    apply wp_bind, wp_UpdateItem; [has_good|by copy_of i|intros; apply He; solve_moves|].
    intros w3 Hm3 Hj. apply wp_ret, Hk; [solve_moves|done].
Qed.
Lemma steady_refresh_item ctx source subs stats fetched w : good w -> steady (refresh_item s ctx source subs stats fetched) w.
Proof.
  intros Hg. apply wp_bind, wp_upsert_item; [done..|]. intros i b w1 Hm Hi. destruct (String.eqb _ _); [by apply wp_ret|].
  apply wp_bind. quiet. intros [[]|e] w2 Hm2; [apply wp_ret; solve_moves| |solve_moves].
  destruct (negb _); [apply wp_ret; solve_moves|]. apply wp_bind, wp_process; [has_good|solve_copy|intros; solve_moves|].
  intros j st w3 Hm3 _. apply wp_ret. solve_moves.
Qed.
Lemma steady_refresh_items ctx source subs fetched stats w : good w -> steady (refresh_items s ctx source subs stats fetched) w.
Proof.
  revert stats w. induction fetched as [|f rest IH]; intros stats w Hg; [apply wp_ret; solve_moves|].
  apply wp_bind, (wp_steady _ _ _ (steady_refresh_item ctx source subs stats f w Hg)). intros [stats'|e] w1 Hm; [|done].
  apply steady_trans; [done|]. apply IH. has_good.
Qed.
Lemma within_source_failure source err health : within beside_items (notifyRSSSourceFailure s source err health).
Proof. unfold notifyRSSSourceFailure. frame_tac. Qed.
Lemma within_refresh_failed source err now : within beside_items (refresh_failed s source err now).
Proof. apply within_bind; [apply within_ignore; auto with frame|intros _; apply within_source_failure]. Qed.
Lemma steady_refresh ctx source w : good w -> steady (refreshSourceEntity s ctx source) w.
Proof.
  intros Hg. unfold refreshSourceEntity. destruct (negb _); [apply wp_throw; solve_moves|].
  apply wp_bind, wp_gets. destruct (negb _); [apply wp_throw; solve_moves|]. apply wp_bind_or.
  eapply (wp_within beside_items); [done|apply fetch_law|set_solver|]. intros [fetched|e] w1 Hm.
  - apply wp_bind. quiet. intros [now|e] w2 Hm2; [|solve_moves]. cbv zeta. apply wp_bind. quiet. intros [subs|e] w3 Hm3; [|solve_moves].
    apply wp_bind, wp_steady; [apply steady_refresh_items; has_good|]. intros [stats|e] w4 Hm4; [|solve_moves].
    apply wp_bind. quiet. intros [u|e] w5 Hm5; [apply wp_ret|]; solve_moves.
  - apply wp_bind. quiet. intros [now|e'] w2 Hm2; [|solve_moves]. apply wp_bind.
    eapply (wp_within beside_items); [has_good|apply within_refresh_failed|set_solver|]. intros [u|e'] w3 Hm3; [apply wp_throw|]; solve_moves.
Qed.
Lemma steady_refresh_all ctx sources resp w : good w -> steady (refresh_all s ctx sources resp) w.
Proof.
  revert resp w. induction sources as [|source rest IH]; intros resp w Hg; [apply wp_ret; solve_moves|].
  apply wp_bind_or, (wp_steady _ _ _ (steady_refresh ctx source w Hg)). intros [stats|e] w1 Hm; [|destruct (err_is _ _)];
    (apply steady_trans; [done|apply IH; has_good]).
Qed.
Lemma steady_refresh_due ctx now sources joined w : good w -> steady (refresh_due s ctx now sources joined) w.
Proof.
  revert joined w. induction sources as [|source rest IH]; intros joined w Hg; [apply wp_ret; solve_moves|].
  cbn [refresh_due]. destruct (negb _); [by apply IH|].
  apply wp_bind_or, (wp_steady _ _ _ (steady_refresh ctx source w Hg)). intros [stats|e] w1 Hm;
    (apply steady_trans; [done|apply IH; has_good]).
Qed.

(** *** The run of a subscription *)
Lemma steady_run_item ctx sub i stats w : good w -> copy i w -> steady (run_item s ctx sub i stats) w.
Proof.
  intros Hg Hc. apply wp_bind. quiet. intros [b|e] w1 Hm; [|done]. destruct (b || _); [by apply wp_ret|].
  destruct (negb _); [by apply wp_ret|]. apply wp_bind, wp_process; [has_good|solve_copy|intros; solve_moves|].
  intros j st w2 Hm2 _. apply wp_ret. solve_moves.
Qed.
Lemma steady_run_items ctx sub l stats w : good w -> (forall i, i ∈ l -> copy i w) -> steady (run_items s ctx sub l stats) w.
Proof.
  revert stats w. induction l as [|i l IH]; intros stats w Hg Hl; [apply wp_ret; solve_moves|].
  apply wp_bind, (wp_steady _ _ _ (steady_run_item ctx sub i stats w Hg (Hl i (list_elem_of_here i l)))).
  intros [stats'|e] w1 Hm; [|done]. apply steady_trans; [done|]. apply IH; [has_good|]. intros j Hj.
  assert (copy j w) by (apply Hl; by right). solve_copy.
Qed.
Lemma within_owned_subscription ts ctx id : within ts (find_owned_subscription ctx id).
Proof. unfold find_owned_subscription, RSSRepository_FindSubscriptionByID. frame_tac. Qed.
#[local] Hint Resolve within_owned_subscription : frame.
Lemma steady_run_subscription ctx id w : good w -> steady (RSSService_RunSubscription s ctx id) w.
Proof.
  intros Hg. apply wp_bind. quiet. intros [sub|e] w1 Hm; [|done]. apply wp_bind, wp_ListItems; [has_good|intros; solve_moves|].
  intros l w2 Hm2 Hl _. assert (moves none w w2) by solve_moves. apply steady_trans; [done|]. by apply steady_run_items; [has_good|].
Qed.

(** ** Following the tasks *)
(** Only the result of the item [i] may be new. *)
Definition settles {A} (i : RSSItem) (m : M GoErr World A) w : Prop := wp m (fun _ w' => moves (eq (rit_ID i)) w w') w.
Lemma wp_settles {A} i (m : M GoErr World A) (Q : result GoErr A -> World -> Prop) w :
  settles i m w -> (forall r w', moves (eq (rit_ID i)) w w' -> Q r w') -> wp m Q w.
Proof. intros Hm HQ. exact (wp_mono m _ Q w Hm HQ). Qed.
Lemma settles_trans {A} i (m : M GoErr World A) w0 w : moves none w0 w -> settles i m w ->
  wp m (fun _ w' => moves (eq (rit_ID i)) w0 w') w.
Proof. intros Hm Hs. apply (wp_settles i m _ w Hs). intros r w' Hm'. solve_moves. Qed.
Lemma steady_settles {A} i (m : M GoErr World A) w : steady m w -> settles i m w.
Proof. intros Hs. apply (wp_steady m _ w Hs). intros r w' Hm. by apply moves_none. Qed.

Lemma settles_backlink i task now w : good w -> copy i w -> settles i (applyRSSItemTaskBacklink s i task now) w.
Proof.
  intros Hg Hc. unfold applyRSSItemTaskBacklink. cbv zeta. destruct (String.eqb (dt_Status task) "completed").
  - apply wp_bind, wp_ret. cbv iota. destruct (N.eqb_spec (dt_ResultVFSNodeID task) 0) as [E|E].
    { by apply steady_settles, steady_mark. }
    destruct (completed_ok i task now E) as [Ho Hs]. destruct Hc as [_ (j & Hj & Hcore)].
    apply wp_bind, (wp_write (eq (rit_ID i))); [done..| |intros; done|].
    + exists j. split; [done|]. split; [by eapply item_step_trans; [apply core_step|]|]. left. symmetry. apply Hcore.
    + intros w1 Hm _. eapply (wp_within beside_items); [has_good|apply within_emit|set_solver|]. intros r w2 Hm2. solve_moves.
  - apply wp_bind, wp_preserve; [done..| |]; intros w1 Hm; [by apply wp_ret, moves_none|]. intros _.
    destruct (existsb _ _); [|by apply wp_ret, moves_none]. apply settles_trans; [done|].
    apply steady_settles, steady_mark; [has_good|solve_copy].
Qed.

(** Loops over copies of different items. *)
Definition any (_ : N) : Prop := True.
Definition copies (l : list RSSItem) w : Prop := (forall i, i ∈ l -> copy i w) /\ NoDup (map rit_ID l).
Definition active_on {A} (m : M GoErr World A) w : Prop := wp m (fun _ w' => moves any w w') w.
Lemma active_trans {A} K (m : M GoErr World A) w0 w : moves K w0 w -> active_on m w -> wp m (fun _ w' => moves any w0 w') w.
Proof.
  intros Hm Hs. unfold active_on in Hs. eapply wp_mono; [exact Hs|]. intros r w' Hm'. eapply moves_trans; [|exact Hm'].
  by eapply moves_mono; [|exact Hm].
Qed.
Lemma copies_rest i l w w' : copies (i :: l) w -> moves (eq (rit_ID i)) w w' -> copies l w'.
Proof.
  intros [Hc Hn] Hm. apply NoDup_cons in Hn as [Hni Hn]. split; [|done]. intros j Hj.
  apply (copy_moves (eq (rit_ID i)) j w); [apply Hc; by right|done|]. intros E. apply Hni. rewrite E. by apply list_elem_of_fmap_2.
Qed.
Lemma active_backlinks task now l joined w : good w -> copies l w -> active_on (apply_backlinks s task now l joined) w.
Proof.
  revert joined w. induction l as [|i l IH]; intros joined w Hg Hl; [apply wp_ret; solve_moves|].
  apply wp_bind_or, (wp_settles i); [apply settles_backlink; [done|apply Hl; by left]|].
  intros [u|e] w1 Hm; (apply (active_trans (eq (rit_ID i))); [done|]; apply IH; [has_good|by apply (copies_rest i l w)]).
Qed.
Lemma active_single task w : good w -> active_on (reconcileSingleTaskBacklink s task) w.
Proof.
  intros Hg. unfold reconcileSingleTaskBacklink. destruct (negb _); [apply wp_ret; solve_moves|].
  apply wp_bind, wp_ListItems; [done|intros; solve_moves|]. intros l w1 Hm Hl Hn. apply wp_bind. quiet. intros [now|e] w2 Hm2; [|solve_moves].
  apply wp_bind. eapply wp_mono; [apply active_backlinks; [has_good|]|].
  - split; [|done]. intros i Hi. specialize (Hl i Hi). solve_copy.
  - intros [joined|e] w3 Hm3; [destruct joined; (apply wp_ret || apply wp_throw)|]; solve_moves.
Qed.

Lemma within_find_task ts id : within ts (TaskRepository_FindByID id).
Proof. unfold TaskRepository_FindByID. frame_tac. Qed.
#[local] Hint Resolve within_find_task : frame.
Lemma settles_reconcile now i taskID p w : good w -> copy i w -> settles i (reconcile_item s now i taskID p) w.
Proof.
  intros Hg Hc. destruct p as [processed joined]. unfold reconcile_item. apply wp_bind_or. quiet. intros [task|e] w1 Hm.
  - apply wp_bind_or, (wp_settles i); [apply settles_backlink; [has_good|solve_copy]|].
    intros [u|e] w2 Hm2; apply wp_ret; solve_moves.
  - destruct (err_is e ErrNotFound); [|by apply wp_ret, moves_none]. apply wp_bind, wp_steady; [apply steady_mark; [has_good|solve_copy]|].
    intros [u|e'] w2 Hm2; [apply wp_ret|]; solve_moves.
Qed.
Lemma active_reconcile_items now limit l p w : good w -> copies l w -> active_on (reconcile_items s now limit l p) w.
Proof.
  revert p w. induction l as [|i l IH]; intros p w Hg Hl; [apply wp_ret; solve_moves|]. cbn [reconcile_items].
  destruct (Z.leb _ _); [apply wp_ret; solve_moves|]. destruct (rit_TaskID i) as [taskID|].
  - apply wp_bind, (wp_settles i); [apply settles_reconcile; [done|apply Hl; by left]|].
    intros [p'|e] w1 Hm; [|by eapply moves_mono; [|exact Hm]].
    apply (active_trans (eq (rit_ID i))); [done|]; apply IH; [has_good|by apply (copies_rest i l w)].
  - apply IH; [done|]. apply (copies_rest i l w w); [done|by apply moves_refl].
Qed.
Lemma active_statuses now limit statuses p w : good w -> active_on (reconcile_statuses s now limit statuses p) w.
Proof.
  revert p w. induction statuses as [|status rest IH]; intros p w Hg; [apply wp_ret; solve_moves|].
  apply wp_bind_or, wp_ListItems; [done|..].
  - intros e w1 Hm. apply (active_trans none); [done|]. apply IH. has_good.
  - intros l w1 Hm Hl Hn. apply wp_bind. eapply wp_mono; [apply active_reconcile_items; [has_good|by split]|].
    intros [p'|e] w2 Hm2; [|solve_moves]. apply (active_trans any); [solve_moves|]. apply IH. has_good.
Qed.
Lemma active_reconcile limit processed w : good w -> active_on (reconcileTaskBacklinks s limit processed) w.
Proof.
  intros Hg. unfold reconcileTaskBacklinks. destruct (_ || _); [apply wp_ret; solve_moves|]. apply wp_bind. quiet.
  intros [now|e] w1 Hm; [|solve_moves]. apply (active_trans none); [done|]. apply active_statuses. has_good.
Qed.

(** ** Retries and requests *)
Lemma wp_reread i (Q : result GoErr RSSItem -> World -> Prop) w : good w -> copy i w ->
  (forall j w', moves none w w' -> copy j w' -> core j i -> Q (Ok j) w') -> wp (reread i) Q w.
Proof.
  intros Hg Hc Hk. apply wp_bind_or, wp_first_item; [done|..].
  - intros e w1 Hm. apply wp_ret, Hk; [done|solve_copy|reflexivity].
  - intros j w1 Hm Hj Hin E%N.eqb_eq. apply wp_ret, Hk; [done..|]. by apply (copy_row i j w).
Qed.
Lemma within_requested ts ctx i id : within ts (requested_subscription ctx i id).
Proof. unfold requested_subscription, RSSRepository_FindSubscriptionByID. frame_tac. Qed.
Lemma within_for_retry ts ctx i id : within ts (subscriptionForItemRetry ctx i id).
Proof. unfold subscriptionForItemRetry. destruct (negb _); [auto with frame|apply within_requested]. Qed.
#[local] Hint Resolve within_requested within_for_retry : frame.
Lemma wp_retry ctx i sub manual (Q : result GoErr RSSItem -> World -> Prop) w : good w -> copy i w ->
  (forall e w', moves none w w' -> Q (Err e) w') -> (forall j w', moves none w w' -> copy j w' -> Q (Ok j) w') ->
  wp (retryItemWithSubscription s ctx i sub manual) Q w.
Proof.
  intros Hg Hc He Hk. apply wp_bind. eapply (wp_within beside_items); [done|frame_tac|set_solver|].
  intros [[]|e] w1 Hm; [apply wp_ret, Hk; [done|solve_copy]| |by apply He].
  apply wp_bind_or, wp_steady; [apply (steady_enqueue ctx i sub true); [has_good|solve_copy]|].
  intros [u|err] w2 Hm2; [apply wp_ret, Hk; [solve_moves|solve_copy]|].
  apply wp_bind_or, wp_first_item; [has_good|..].
  - intros e w3 Hm3. apply wp_bind. quiet. intros [now|e'] w4 Hm4; [|apply He; solve_moves].
    apply wp_bind, wp_steady; [apply steady_mark; [has_good|solve_copy]|]. intros [u|e'] w5 Hm5; [apply wp_ret, Hk|apply He]; try solve_moves.
    destruct (marked_ok i (rsub_ID sub) err now false (proj1 Hc)). by copy_of i.
  - intros j w3 Hm3 Hj _ _. apply wp_bind. quiet. intros [now|e'] w4 Hm4; [|apply He; solve_moves].
    apply wp_bind, wp_steady; [apply steady_mark; [has_good|solve_copy]|]. intros [u|e'] w5 Hm5; [apply wp_ret, Hk|apply He]; try solve_moves.
    solve_copy.
Qed.

Lemma steady_no_subscription i err now p w : good w -> copy i w -> not_done i -> steady (no_subscription s i err now p) w.
Proof.
  intros Hg Hc Hn. destruct p as [processed joined], (attention_ok i err now Hn). apply wp_bind_or, wp_UpdateItem; [done|by copy_of i|..].
  - intros e w1 Hm. by apply wp_ret.
  - intros w1 Hm _. apply wp_bind. eapply (wp_within beside_items); [has_good|apply within_emit|set_solver|].
    intros [u|e] w2 Hm2; [apply wp_ret|]; solve_moves.
Qed.
(** The result is only new where nothing else is done. *)
Lemma wp_completed_task i now (Q : result GoErr bool -> World -> Prop) w : good w -> copy i w ->
  (forall r w', r <> Ok false -> moves (eq (rit_ID i)) w w' -> Q r w') -> (forall w', moves none w w' -> Q (Ok false) w') ->
  wp (reconcileRetryItemCompletedTask s i now) Q w.
Proof.
  intros Hg Hc Hk Hf. unfold reconcileRetryItemCompletedTask.
  destruct (if rss_taskReader s then _ else _) as [id|]; [|apply wp_ret, Hf; solve_moves].
  apply wp_bind_or. quiet. intros [task|e] w1 Hm.
  - destruct (_ || _); [by apply wp_ret, Hf|]. apply wp_bind, (wp_settles i); [apply settles_backlink; [has_good|solve_copy]|].
    intros [u|e] w2 Hm2; [apply wp_ret|]; (apply Hk; [done|solve_moves]).
  - destruct (err_is _ _); [by apply wp_ret, Hf|]. apply wp_throw, Hk; [done|solve_moves].
Qed.
Lemma settles_retry_item ctx now i p w : good w -> copy i w -> settles i (retry_item s ctx now i p) w.
Proof.
  intros Hg Hc. destruct p as [processed joined]. unfold retry_item.
  destruct (match rit_NextRetryAt i with Some _ => _ | None => _ end); [apply wp_ret; solve_moves|].
  apply wp_bind. quiet. intros [[]|e] w1 Hm1; [apply wp_ret; solve_moves| |solve_moves].
  apply wp_bind, wp_preserve; [has_good|solve_copy|intros; apply wp_ret; solve_moves|]. intros w2 Hm2 Hn.
  apply wp_bind_or, wp_completed_task; [has_good|solve_copy|..].
  { intros [[]|e] w3 Hr Hm3; [apply wp_ret; solve_moves|done|apply wp_ret; solve_moves]. }
  intros w3 Hm3. apply wp_bind. quiet. intros [itemCtx|e] w4 Hm4; [|solve_moves].
  apply wp_bind_or. quiet. intros [sub|e] w5 Hm5.
  - apply wp_bind_or, wp_retry; [has_good|solve_copy|intros; apply wp_ret; solve_moves|intros; apply wp_ret; solve_moves].
  - apply (wp_steady (no_subscription s i e now (processed, joined))); [apply steady_no_subscription; [has_good|solve_copy|done]|].
    intros r w6 Hm6. solve_moves.
Qed.
Lemma active_retry_items ctx now limit l p w : good w -> copies l w -> active_on (retry_items s ctx now limit l p) w.
Proof.
  revert p w. induction l as [|i l IH]; intros p w Hg Hl; [apply wp_ret; solve_moves|]. cbn [retry_items].
  destruct (Z.leb _ _); [apply wp_ret; solve_moves|].
  apply wp_bind, (wp_settles i); [apply settles_retry_item; [done|apply Hl; by left]|].
  intros [p'|e] w1 Hm; [|by eapply moves_mono; [|exact Hm]].
  apply (active_trans (eq (rit_ID i))); [done|]; apply IH; [has_good|by apply (copies_rest i l w)].
Qed.
Lemma active_due ctx limit processed w : good w -> active_on (retryDueItems s ctx limit processed) w.
Proof.
  intros Hg. unfold retryDueItems. destruct (Z.leb _ _); [apply wp_ret; solve_moves|].
  apply wp_bind_or, wp_ListItems; [done|intros; apply wp_ret; solve_moves|]. intros l w1 Hm Hl Hn.
  apply wp_bind. quiet. intros [now|e] w2 Hm2; [|solve_moves]. apply (active_trans none); [solve_moves|].
  apply active_retry_items; [has_good|]. split; [|done]. intros i Hi. specialize (Hl i Hi). solve_copy.
Qed.
Lemma active_cycle ctx limit w : good w -> active_on (RSSService_RunRetryCycle s ctx limit) w.
Proof.
  intros Hg. unfold RSSService_RunRetryCycle. cbv zeta. apply wp_bind.
  eapply wp_mono; [by apply active_reconcile|]. intros [[processed err]|e] w1 Hm; [|done].
  destruct (Z.leb _ processed); [by apply wp_ret|]. apply wp_bind. eapply wp_mono; [apply active_due; has_good|].
  intros [r|e] w2 Hm2; [apply wp_ret|]; solve_moves.
Qed.

Lemma wp_owned_item ctx id (Q : result GoErr RSSItem -> World -> Prop) w : good w -> (forall e w', moves none w w' -> Q (Err e) w') ->
  (forall i w', moves none w w' -> copy i w' -> Q (Ok i) w') -> wp (find_owned_item ctx id) Q w.
Proof.
  intros Hg He Hk. apply wp_bind, wp_first_item; [done|done|]. intros i w1 Hm Hc _ _. apply wp_bind, wp_lift_result.
  destruct (authorizeRSSOwner _ _); [by apply wp_ret, Hk|by apply He].
Qed.
Lemma within_owned_source ts ctx id : within ts (find_owned_source ctx id).
Proof. unfold find_owned_source, RSSRepository_FindSourceByID. frame_tac. Qed.
#[local] Hint Resolve within_owned_source : frame.

Lemma steady_view i w0 w : good w0 -> moves none w0 w -> copy i w ->
  wp (item <-! reread i ;; ret (toRSSItemView item)) (fun _ w' => moves none w0 w') w.
Proof. intros Hg Hm Hc. apply wp_bind, wp_reread; [has_good|done|]. intros j w1 Hm1 _ _. apply wp_ret. solve_moves. Qed.
Lemma steady_reprocess ctx id w : good w -> steady (RSSService_ReprocessItem s ctx id) w.
Proof.
  intros Hg. apply wp_bind, wp_owned_item; [done..|]. intros i w1 Hm Hc.
  destruct (rssItemIsCompleted i) eqn:E; [by apply wp_ret|]. pose proof (ok_not_completed i (proj1 Hc) E) as Hn.
  destruct (String.eqb _ _).
  - apply wp_bind. quiet. intros [now|e] w2 Hm2; [|solve_moves]. cbv zeta. destruct (unsupported_ok i now Hn).
    apply wp_bind, wp_UpdateItem; [has_good|by copy_of i|intros; solve_moves|intros; apply wp_ret; solve_moves].
  - apply wp_bind. quiet. intros [[]|e] w2 Hm2; [apply wp_ret; solve_moves| |solve_moves].
    apply wp_bind. quiet. intros [subs|e] w3 Hm3; [|solve_moves].
    apply wp_bind, wp_process; [has_good|solve_copy|intros; solve_moves|]. intros j st w4 Hm4 Hj.
    apply steady_view; [done|solve_moves|done].
Qed.
Lemma steady_retry_request ctx id req w : good w -> steady (RSSService_RetryItem s ctx id req) w.
Proof.
  intros Hg. apply wp_bind, wp_owned_item; [done..|]. intros i w1 Hm Hc.
  apply wp_bind. quiet. intros [[]|e] w2 Hm2; [apply wp_ret; solve_moves| |solve_moves].
  destruct (rssItemIsCompleted i); [apply wp_ret; solve_moves|].
  apply wp_bind. quiet. intros [sub|e] w3 Hm3; [|solve_moves].
  apply wp_bind, wp_retry; [has_good|solve_copy|intros; solve_moves|]. intros j w4 Hm4 Hj.
  apply steady_view; [done|solve_moves|done].
Qed.
Lemma steady_download ctx id req w : good w -> steady (RSSService_DownloadItem s ctx id req) w.
Proof.
  intros Hg. apply wp_bind, wp_owned_item; [done..|]. intros i w1 Hm Hc.
  apply wp_bind. quiet. intros [[]|e] w2 Hm2; [apply wp_ret; solve_moves| |solve_moves].
  destruct (rssItemIsCompleted i) eqn:E; [apply wp_ret; solve_moves|]. pose proof (ok_not_completed i (proj1 Hc) E) as Hn.
  destruct (negb _); [apply wp_throw; solve_moves|].
  apply wp_bind. quiet. intros [sub|e] w3 Hm3; [|solve_moves].
  apply wp_bind_or, wp_steady; [apply (steady_enqueue ctx i sub false); [has_good|solve_copy]|]. intros [u|e] w4 Hm4.
  { apply steady_view; [done|solve_moves|solve_copy]. }
  apply wp_bind, wp_reread; [has_good|solve_copy|]. intros j w5 Hm5 Hj Hji. apply wp_bind. quiet. intros [now|e'] w6 Hm6; [|solve_moves].
  apply wp_bind, wp_steady; [apply steady_mark_manual; [has_good|solve_copy|by apply (not_done_core j i)]|].
  intros [u|e'] w7 Hm7; [apply wp_throw|]; solve_moves.
Qed.
Lemma steady_ignore ctx id w : good w -> steady (ignoreRSSItem s ctx id) w.
Proof.
  intros Hg. apply wp_bind, wp_owned_item; [done..|]. intros i w1 Hm Hc. apply wp_bind, wp_gets. destruct (negb _); [by apply wp_throw|].
  apply wp_bind, wp_owned_item; [has_good|intros; solve_moves|]. intros j w2 Hm2 Hj.
  apply wp_bind. quiet. intros [active|e] w3 Hm3; [|solve_moves].
  destruct (active || _) eqn:E; [apply wp_throw; solve_moves|]. apply orb_false_iff in E as [_ E].
  pose proof (ok_not_completed j (proj1 Hj) E) as Hn. apply wp_bind. quiet. intros [now|e] w4 Hm4; [|solve_moves]. cbv zeta.
  destruct (ignored_ok j now Hn). apply wp_bind, wp_UpdateItem; [has_good|by copy_of j|intros; solve_moves|intros; apply wp_ret; solve_moves].
Qed.
Lemma steady_batch action ids resp w : (forall id w, good w -> steady (action id) w) -> good w -> steady (batch action ids resp) w.
Proof.
  intros Ha. revert resp w. induction ids as [|id ids IH]; intros resp w Hg; [apply wp_ret; solve_moves|].
  apply wp_bind_or, (wp_steady _ _ _ (Ha id w Hg)). intros [v|e] w1 Hm; (apply steady_trans; [done|apply IH; has_good]).
Qed.
Lemma steady_run_batch ctx ids action w : (forall id w, good w -> steady (action id) w) -> good w -> steady (run_batch ctx ids action) w.
Proof.
  intros Ha Hg. apply wp_bind, wp_lift_result. destruct (currentRSSAuth ctx); [|solve_moves].
  destruct ids; [apply wp_throw; solve_moves|by apply steady_batch].
Qed.

(** ** Sequences of operations *)
(** The requests and rounds that touch items, and anything that leaves their
    table alone: the requests on subscriptions, on tasks, on nodes. *)
Inductive RssOp : Type :=
| OpListSources (ctx : Ctx) | OpCreateSource (ctx : Ctx) (req : RSSSourceUpsertRequest) | OpGetSource (ctx : Ctx) (id : N)
| OpUpdateSource (ctx : Ctx) (id : N) (req : RSSSourceUpsertRequest) | OpDeleteSource (ctx : Ctx) (id : N)
| OpRefreshSource (ctx : Ctx) (id : N) | OpRefreshAllSources (ctx : Ctx) | OpRefreshDueSources (ctx : Ctx)
| OpListItems (ctx : Ctx) (filter : RSSItemFilter) | OpReprocessItem (ctx : Ctx) (id : N)
| OpRetryItem (ctx : Ctx) (id : N) (req : RSSManualDownloadRequest) | OpDownloadItem (ctx : Ctx) (id : N) (req : RSSManualDownloadRequest)
| OpBatchIgnoreItems (ctx : Ctx) (req : RSSItemBatchIgnoreRequest) | OpBatchRetryItems (ctx : Ctx) (req : RSSItemBatchRetryRequest)
| OpRunSubscription (ctx : Ctx) (id : N) | OpTaskTerminalStatus (task : DownloadTask) | OpRunRetryCycle (ctx : Ctx) (limit : Z)
| OpElsewhere (A : Type) (m : M GoErr World A) (Hm : within beside_items m).
Definition run_op (op : RssOp) (w : World) : World :=
  match op with
  | OpListSources ctx => snd (RSSService_ListSources ctx w)
  | OpCreateSource ctx req => snd (RSSService_CreateSource ctx req w)
  | OpGetSource ctx id => snd (RSSService_GetSource ctx id w)
  | OpUpdateSource ctx id req => snd (RSSService_UpdateSource ctx id req w)
  | OpDeleteSource ctx id => snd (RSSService_DeleteSource ctx id w)
  | OpRefreshSource ctx id => snd (RSSService_RefreshSource s ctx id w)
  | OpRefreshAllSources ctx => snd (RSSService_RefreshAllSources s ctx w)
  | OpRefreshDueSources ctx => snd (RSSService_RefreshDueSources s ctx w)
  | OpListItems ctx filter => snd (RSSService_ListItems ctx filter w)
  | OpReprocessItem ctx id => snd (RSSService_ReprocessItem s ctx id w)
  | OpRetryItem ctx id req => snd (RSSService_RetryItem s ctx id req w)
  | OpDownloadItem ctx id req => snd (RSSService_DownloadItem s ctx id req w)
  | OpBatchIgnoreItems ctx req => snd (RSSService_BatchIgnoreItems s ctx req w)
  | OpBatchRetryItems ctx req => snd (RSSService_BatchRetryItems s ctx req w)
  | OpTaskTerminalStatus task => snd (RSSService_OnTaskTerminalStatus s task w)
  | OpRunSubscription ctx id => snd (RSSService_RunSubscription s ctx id w)
  | OpRunRetryCycle ctx limit => snd (RSSService_RunRetryCycle s ctx limit w)
  | OpElsewhere _ m _ => snd (m w)
  end.
Definition run_ops (ops : list RssOp) (w : World) : World := fold_left (fun w op => run_op op w) ops w.
Definition deletes_source (id : N) (op : RssOp) : Prop := exists ctx, op = OpDeleteSource ctx id.
(** Every item is still there, unless an operation deleted its source. *)
Definition lives (ops : list RssOp) w w' : Prop :=
  good w' /\ forall i, i ∈ items w -> (exists i', i' ∈ items w' /\ item_step i i') \/ Exists (deletes_source (rit_SourceID i)) ops.

Lemma moves_lives K op w w' : moves K w w' -> lives [op] w w'.
Proof. intros [Hg Hm]. split; [done|]. intros i Hi. left. destruct (Hm i Hi) as (j & Hj & Hs & _). by exists j. Qed.
Lemma lives_trans op ops w1 w2 w3 : lives [op] w1 w2 -> lives ops w2 w3 -> lives (op :: ops) w1 w3.
Proof.
  intros [_ H1] [Hg H2]. split; [done|]. intros i Hi. destruct (H1 i Hi) as [(j & Hj & Hs)|Hd].
  - destruct (H2 j Hj) as [(k & Hk & Hs')|Hd].
    + left. exists k. split; [done|by eapply item_step_trans].
    + right. right. destruct Hs as [(_ & _ & -> & _) _]. done.
  - right. apply Exists_cons in Hd as [Hd|Hd]; [by left|by apply Exists_nil in Hd].
Qed.
Lemma lives_refl op w : good w -> lives [op] w w.
Proof. intros Hg. apply (moves_lives none). by apply moves_refl. Qed.
Lemma delete_lives ctx id w : good w -> wp (RSSService_DeleteSource ctx id) (fun _ w' => lives [OpDeleteSource ctx id] w w') w.
Proof.
  intros Hg. apply wp_bind. quiet. intros [u|e] w1 Hm; [|by apply (moves_lives none)].
  assert (forall w2, (forall t, tbl t w2 = tbl t w1) -> lives [OpDeleteSource ctx id] w w2) as Hback.
  { intros w2 E. destruct Hm as [[Hv Ho] Hm]. split; [split; [intros t; by rewrite E|unfold items; by rewrite E]|].
    intros i Hi. left. destruct (Hm i Hi) as (j & Hj & Hs & _). exists j. unfold items. by rewrite E. }
  assert (good w1) as Hg1 by has_good. apply wp_transaction; [apply normalize_db_error|].
  apply wp_bind, (wp_delete_found TRssSource); [intros e w2 _ _ w3 Hs _ _; by apply Hback|intros w2 _ _ w3 Hs _ _; by apply Hback|].
  intros w2 _ Hp. pose proof (put_frames _ _ _ _ Hp (fun Hv => no_conflicts_sel _ _ _ (Hv TRssSource))) as Hf2.
  apply wp_bind, (wp_delete TRssSubscription); [intros e w3 _ _ w4 Hs _ _; by apply Hback|].
  intros w3 Hp3. pose proof (put_frames _ _ _ _ Hp3 (fun Hv => no_conflicts_sel _ _ _ (Hv TRssSubscription))) as Hf3.
  apply wp_bind, (wp_delete TRssItem); [intros e w4 _ _ w5 Hs _ _; by apply Hback|].
  intros w4 Hp4. apply wp_ret. split; [|intros; by apply Hback]. intros w5 Hs5.
  assert (items w3 = items w1) as E by (unfold items; rewrite (frames_tbl _ _ _ TRssItem Hf3), (frames_tbl _ _ _ TRssItem Hf2); set_solver).
  assert (items w5 = sel (fun i => negb (N.eqb (rit_SourceID i) id)) (items w1)) as E5.
  { unfold items. rewrite (proj1 Hs5), (proj1 Hp4). fold (items w3) (items w1). by rewrite E. }
  assert (good w5) as Hg5.
  { split.
    - eapply same_valid; [exact Hs5|]. eapply put_valid; [exact Hp4|apply no_conflicts_sel|]; apply Hf3, Hf2, Hg1.
    - apply Forall_forall. rewrite E5. intros i [Hi _]%elem_of_sel. destruct Hg1 as [_ Ho]. rewrite Forall_forall in Ho. auto. }
  split; [done|]. intros i Hi. destruct Hm as [_ Hm]. destruct (Hm i Hi) as (j & Hj & Hs & _).
  destruct (N.eqb_spec (rit_SourceID j) id) as [Ej|Ej].
  - right. left. exists ctx. destruct Hs as [(_ & _ & -> & _) _]. by rewrite Ej.
  - left. exists j. split; [|done]. rewrite E5. apply elem_of_sel. split; [done|]. by apply N.eqb_neq in Ej as ->.
Qed.

Lemma within_source_requests ctx :
  within beside_items (RSSService_ListSources ctx) /\
  (forall req, within beside_items (RSSService_CreateSource ctx req)) /\
  (forall id, within beside_items (RSSService_GetSource ctx id)) /\
  (forall id req, within beside_items (RSSService_UpdateSource ctx id req)) /\
  forall filter, within beside_items (RSSService_ListItems ctx filter).
Proof.
  split_and!; intros.
  - unfold RSSService_ListSources, RSSRepository_ListSources. frame_tac.
  - unfold RSSService_CreateSource, RSSRepository_CreateSource. frame_tac.
  - unfold RSSService_GetSource. frame_tac.
  - unfold RSSService_UpdateSource, switch_source. frame_tac.
  - unfold RSSService_ListItems, RSSRepository_ListItems. frame_tac.
Qed.
Lemma op_lives op w : good w -> lives [op] w (run_op op w).
Proof.
  intros Hg.
  assert (forall A (m : M GoErr World A), within beside_items m -> lives [op] w (snd (m w))) as Hw.
  { intros A m Hm. apply (moves_lives none), (frames_moves beside_items); [done|exact (Hm w)|set_solver]. }
  assert (forall A (m : M GoErr World A), steady m w -> lives [op] w (snd (m w))) as Hs.
  { intros A m Hm. exact (moves_lives none _ _ _ Hm). }
  assert (forall A (m : M GoErr World A), active_on m w -> lives [op] w (snd (m w))) as Ha.
  { intros A m Hm. exact (moves_lives any _ _ _ Hm). }
  destruct op as [ctx|ctx req|ctx id|ctx id req|ctx id|ctx id|ctx|ctx|ctx filter|ctx id|ctx id req|ctx id req|ctx req|ctx req|ctx id|task|ctx limit|A m Hm].
  - apply Hw, within_source_requests.
  - apply Hw, within_source_requests.
  - apply Hw, within_source_requests.
  - apply Hw, within_source_requests.
  - by apply delete_lives.
  - apply Hs, wp_bind. quiet. intros [source|e] w1 Hm; [|done]. apply steady_trans; [done|]. apply steady_refresh. has_good.
  - apply Hs, wp_bind, wp_lift_result. destruct (currentRSSAuth ctx); [|solve_moves]. apply wp_bind.
    eapply (wp_within beside_items); [done|unfold RSSRepository_ListSources; auto with frame|set_solver|].
    intros [l|e] w1 Hm; [|done]. apply steady_trans; [done|]. apply steady_refresh_all. has_good.
  - apply Hs, wp_bind. eapply (wp_within beside_items); [done|unfold RSSRepository_ListSources; auto with frame|set_solver|].
    intros [l|e] w1 Hm; [|done]. apply wp_bind. quiet. intros [now|e] w2 Hm2; [|solve_moves].
    apply wp_bind, wp_steady; [apply steady_refresh_due; has_good|]. intros [[e|]|e] w3 Hm3; (apply wp_ret || apply wp_throw || idtac); solve_moves.
  - apply Hw, within_source_requests.
  - by apply Hs, steady_reprocess.
  - by apply Hs, steady_retry_request.
  - by apply Hs, steady_download.
  - apply Hs, steady_run_batch; [|done]. intros id w1 Hg1. apply wp_bind, wp_steady; [by apply steady_ignore|].
    intros [i|e] w2 Hm; [apply wp_ret|]; done.
  - apply Hs, steady_run_batch; [|done]. intros id w1 Hg1. by apply steady_retry_request.
  - by apply Hs, steady_run_subscription.
  - apply Ha. unfold RSSService_OnTaskTerminalStatus. destruct (negb _); [apply wp_ret; solve_moves|by apply active_single].
  - by apply Ha, active_cycle.
  - by apply Hw.
Qed.

(** C19: Over any sequence of requests on sources and items, of runs of
    subscriptions, of rounds of the worker and of notices of ended tasks,
    failing ones included, and of anything else that leaves the table of
    items alone, valid tables with well-formed items stay so: an item has a
    result exactly if it is completed, and one that waits for another
    attempt has one left, a time and a reason; no two items of a source
    have one key.  An item that was there keeps its user, source and key,
    and stays completed once it is, unless its source was deleted.  Of the
    collaborators (the creation of tasks, the notifications, the fetching
    of feeds) it is assumed that they leave the items alone. *)
Theorem rss_items_settle (ops : list RssOp) w : valid w -> Forall item_ok (items w) ->
  let w' := run_ops ops w in
  valid w' /\ Forall item_ok (items w') /\
  (forall i j, i ∈ items w' -> j ∈ items w' -> rit_SourceID i = rit_SourceID j -> rit_DedupKey i = rit_DedupKey j -> i = j) /\
  forall i, i ∈ items w ->
    (exists i', i' ∈ items w' /\ same_item i i' /\ (rssItemIsCompleted i = true -> rssItemIsCompleted i' = true)) \/
    Exists (deletes_source (rit_SourceID i)) ops.
Proof.
  intros Hv Ho. assert (good w) as Hg by done. cbv zeta.
  assert (lives ops w (run_ops ops w)) as [[Hv' Ho'] Hl].
  { clear Hv Ho. revert w Hg. induction ops as [|op ops IH]; intros w Hg.
    - split; [done|]. intros i Hi. left. exists i. split; [done|apply item_step_refl].
    - pose proof (op_lives op w Hg) as H1. apply (lives_trans op ops w (run_op op w)); [done|]. apply IH, H1. }
  split; [done|]. split; [done|]. split.
  - intros i j Hi Hj E1 E2. destruct (no_conflicts_elem TRssItem _ i j (Hv' TRssItem) Hi Hj) as [|Hc]; [done|].
    cbn in Hc. unfold RSSItemModel_conflict in Hc. by rewrite E1, E2, N.eqb_refl, String.eqb_refl, orb_true_r in Hc.
  - intros i Hi. destruct (Hl i Hi) as [(j & Hj & Hs & Hd)|]; [left|by right]. exists j. split; [done|]. split; [done|].
    rewrite Forall_forall in Ho, Ho'. unfold rssItemIsCompleted. rewrite !String.eqb_eq. intros E.
    apply (Ho' j Hj), Hd, (Ho i Hi), E.
Qed.

(** ** What an attempt does *)
Definition others (c : RSSItem) w w' : Prop := forall j, rit_ID j <> rit_ID c -> j ∈ items w' <-> j ∈ items w.
(** The row [x] is stored as. *)
Definition untimed (i : RSSItem) : RSSItem := { i with rit_CreatedAt := 0%Z; rit_UpdatedAt := 0%Z }.
Definition written (x y : RSSItem) : Prop := untimed y = untimed x.
Lemma written_field {F} (f : RSSItem -> F) x y : (forall i, f (untimed i) = f i) -> written x y -> f y = f x.
Proof. intros Hf E. by rewrite <- (Hf y), <- (Hf x), E. Qed.
Lemma written_same x y : written x y -> same_item x y.
Proof.
  intros E. unfold same_item. by rewrite (written_field rit_ID x y), (written_field rit_UserID x y), (written_field rit_SourceID x y),
    (written_field rit_DedupKey x y).
Qed.
Lemma wp_update_item_row x c (Q : result GoErr unit -> World -> Prop) w : valid w -> c ∈ items w -> rit_ID x = rit_ID c ->
  (forall e w', frames [] w w' -> Q (Err e) w') ->
  (forall y w', frames [TRssItem] w w' -> others c w w' -> y ∈ items w' -> written x y -> Q (Ok tt) w') ->
  wp (RSSRepository_UpdateItem x) Q w.
Proof.
  intros Hv Hc Ei He Hk. apply (wp_update_found TRssItem).
  - intros e w' Hs _. apply He. by apply same_frames.
  - intros w' Hs _. apply He. by apply same_frames.
  - intros now w' l _ Hn Hp. apply (Hk (touch TRssItem now (rss_item_columns x c))).
    + by apply (put_frames TRssItem l).
    + intros j Hj. unfold items. rewrite (proj1 Hp). unfold l. rewrite elem_of_set_where. split.
      * intros [(k & Hk' & Ek%N.eqb_eq & ->)|[? _]]; [|done]. cbn in Hj. congruence.
      * intros Hin. right. split; [done|]. apply N.eqb_neq. congruence.
    + unfold items. rewrite (proj1 Hp). apply elem_of_set_where. left. exists c. split_and!; [done|apply N.eqb_eq; congruence|done].
    + unfold written, untimed. cbn. unfold rss_item_columns. destruct x; cbn in *. by subst.
Qed.
Lemma wp_owner ctx id (Q : result GoErr Ctx -> World -> Prop) w :
  (forall ctx' auth w', frames [] w w' -> RequestAuthFromContext ctx' = Some auth -> ra_UserID auth = id -> Q (Ok ctx') w') ->
  wp (contextForRSSOwner s ctx id) Q w.
Proof.
  intros HQ. unfold contextForRSSOwner. destruct (match RequestAuthFromContext ctx with Some _ => _ | None => _ end) eqn:E.
  - destruct (RequestAuthFromContext ctx) as [auth|] eqn:Ea; [|done]. apply N.eqb_eq in E.
    apply wp_ret. by apply (HQ ctx auth); [apply frames_refl|..].
  - destruct (_ && _); [|apply wp_ret; eapply HQ; [apply frames_refl|done..]].
    apply wp_bind_or. eapply wp_mono; [exact (within_first [] TUser _ _ w)|]. intros [u|e] w' Hf; apply wp_ret; by eapply HQ.
Qed.
Lemma target_below sub i path : renderRSSTargetVirtualParentPath sub i = Ok path ->
  exists base, normalizeVirtualPath (trim_space (rsub_TargetVirtualParentPath sub)) = Ok base /\ isSubPath base path = true.
Proof.
  unfold renderRSSTargetVirtualParentPath. destruct (normalizeVirtualPath (trim_space _)) as [base|] eqn:Eb; [|done].
  destruct (renderRSSDirectoryTemplate _ _) as [dir|]; [|done]. intros E. exists base. split; [done|]. revert E.
  destruct (String.eqb dir ""); [intros [= <-]; by apply isSubPath_refl, (normalize_canonical _ _ Eb)|].
  destruct (normalizeVirtualPath (joinVirtualPath _ _)) as [p|]; [|done]. by destruct (isSubPath base p) eqn:Es; [intros [= <-]|].
Qed.

(** The request a task is created with, and the item afterwards. *)
Definition asked_for (sub : RSSSubscription) (c : RSSItem) (ctx : Ctx) (req : CreateTaskRequest) : Prop :=
  (exists auth, RequestAuthFromContext ctx = Some auth /\ ra_UserID auth = rsub_UserID sub) /\
  ctr_URL req = rit_DownloadURL c /\ IsBTRSSDownloadLink (ctr_URL req) = true /\ ctr_SourceID req = 0%N /\ ctr_SavePath req = "" /\
  exists base, normalizeVirtualPath (trim_space (rsub_TargetVirtualParentPath sub)) = Ok base /\
    isSubPath base (ctr_TargetVirtualParentPath req) = true.
Definition enqueued_as (sub : RSSSubscription) (count : bool) (taskID : N) (c y : RSSItem) : Prop :=
  same_item c y /\ rit_Status y = RSSItemStatusEnqueued /\ rit_TaskID y = Some taskID /\
  rit_MatchedSubscriptionID y = Some (rsub_ID sub) /\ rit_ErrorMessage y = None /\ rit_RetryReason y = None /\
  rit_NextRetryAt y = None /\ rit_RetryCount y = (if count then int_add (rit_RetryCount c) 1 else rit_RetryCount c) /\
  rit_ResultVFSNodeID y = rit_ResultVFSNodeID c.
Definition started_as (sub : RSSSubscription) (c y : RSSItem) : Prop :=
  same_item c y /\ rit_Status y = RSSItemStatusMatched /\ rit_TaskID y = rit_TaskID c /\
  rit_MatchedSubscriptionID y = Some (rsub_ID sub).

Lemma started_fields c sub now count : let x := attempt_started c sub now count in
  same_item c x /\ rit_ID x = rit_ID c /\ rit_DownloadURL x = rit_DownloadURL c /\ rit_TaskID x = rit_TaskID c /\
  rit_RetryCount x = (if count then int_add (rit_RetryCount c) 1 else rit_RetryCount c) /\
  rit_ResultVFSNodeID x = rit_ResultVFSNodeID c.
Proof. unfold attempt_started, ensureRSSItemRetryDefaults. destruct (Z.leb _ _), count; repeat split. Qed.
Lemma written_started c sub now count y : written (attempt_started c sub now count) y -> started_as sub c y.
Proof.
  intros E. destruct (started_fields c sub now count) as (Hs & _ & _ & Et & _). split; [etransitivity; [exact Hs|by apply written_same]|].
  rewrite <- Et. split; [|split].
  - exact (written_field rit_Status _ _ (fun _ => eq_refl) E).
  - exact (written_field rit_TaskID _ _ (fun _ => eq_refl) E).
  - exact (written_field rit_MatchedSubscriptionID _ _ (fun _ => eq_refl) E).
Qed.
Lemma written_enqueued c sub now count id now' y : written (enqueued (attempt_started c sub now count) id now') y ->
  enqueued_as sub count id c y.
Proof.
  intros E. destruct (started_fields c sub now count) as (Hs & _ & _ & _ & Er & Ed).
  split; [etransitivity; [exact Hs|by apply (written_same (enqueued (attempt_started c sub now count) id now'))]|].
  rewrite <- Er, <- Ed. split_and!.
  - exact (written_field rit_Status _ _ (fun _ => eq_refl) E).
  - exact (written_field rit_TaskID _ _ (fun _ => eq_refl) E).
  - exact (written_field rit_MatchedSubscriptionID _ _ (fun _ => eq_refl) E).
  - exact (written_field rit_ErrorMessage _ _ (fun _ => eq_refl) E).
  - exact (written_field rit_RetryReason _ _ (fun _ => eq_refl) E).
  - exact (written_field rit_NextRetryAt _ _ (fun _ => eq_refl) E).
  - exact (written_field rit_RetryCount _ _ (fun _ => eq_refl) E).
  - exact (written_field rit_ResultVFSNodeID _ _ (fun _ => eq_refl) E).
Qed.

Lemma enqueued_id x id now : rit_ID (enqueued x id now) = rit_ID x.
Proof. reflexivity. Qed.
(** Whether a task of the item may run: it is stored and has not ended, or
    cannot be read; without a reader of tasks, the item is enqueued. *)
Definition may_run (c : RSSItem) w : Prop := exists id, rit_TaskID c = Some id /\
  if rss_taskReader s then
    (exists t, t ∈ tbl TTask w /\ dt_ID t = id /\ isTerminalTaskStatus (dt_Status t) = false) \/
    (exists e w1, frames [] w w1 /\ fst (TaskRepository_FindByID id w1) = Err e /\ err_is e ErrNotFound = false)
  else rit_Status c = RSSItemStatusEnqueued.
Definition none_runs (c : RSSItem) w : Prop := forall id, rit_TaskID c = Some id ->
  if rss_taskReader s then forall t, t ∈ tbl TTask w -> dt_ID t = id -> isTerminalTaskStatus (dt_Status t) = true
  else rit_Status c <> RSSItemStatusEnqueued.
Lemma one_task_row w t u : valid w -> t ∈ tbl TTask w -> u ∈ tbl TTask w -> dt_ID t = dt_ID u -> t = u.
Proof.
  intros Hv Ht Hu E. destruct (no_conflicts_elem TTask _ t u (Hv TTask) Ht Hu) as [|Hc]; [done|].
  cbn in Hc. by rewrite E, N.eqb_refl in Hc.
Qed.
Lemma wp_active c w0 w : frames [] w0 w -> valid w0 ->
  wp (itemHasActiveTask s c) (fun r w1 => frames [] w0 w1 /\
    match r with Ok true => may_run c w0 | Ok false => none_runs c w0 | Err _ => False end) w.
Proof.
  intros Hf Hv. assert (tbl TTask w = tbl TTask w0) as E by (apply (frames_tbl [] w0 w TTask Hf); set_solver).
  unfold itemHasActiveTask, may_run, none_runs. destruct (rit_TaskID c) as [id|]; [|by apply wp_ret].
  destruct (rss_taskReader s); cbn [negb].
  - apply wp_bind_or. pose proof (within_find_task [] id w) as Hf1. unfold wp in Hf1.
    assert (wp (TaskRepository_FindByID id) (fun r _ => match r with
      | Ok t => exists u, u ∈ tbl TTask w /\ dt_ID u = id /\ dt_Status u = dt_Status t
      | Err e => err_is e ErrNotFound = true -> forall u, u ∈ tbl TTask w -> dt_ID u <> id end) w) as Hr.
    { apply wp_bind, (wp_first TTask).
      - intros e w1 _ Hd Hn. by rewrite (db_error_is_not_found _ Hd) in Hn.
      - intros w1 _ Hno _ u Hu. specialize (Hno u Hu). by apply N.eqb_neq in Hno.
      - intros t w1 _ Ht Ep%N.eqb_eq _. apply wp_ret. by exists t. }
    unfold wp in Hr |- *. destruct (TaskRepository_FindByID id w) as [[t|e] w1] eqn:Ef; cbn [fst snd] in *.
    + destruct Hr as (u & Hu & Eu & Es). rewrite E in Hu. split; [solve_frames|].
      destruct (isTerminalTaskStatus (dt_Status t)) eqn:Et; cbn.
      * intros id' [= <-] t' Ht' Et'. assert (t' = u) as -> by (apply (one_task_row w0); [done..|congruence]). by rewrite Es.
      * exists id. split; [done|]. left. exists u. rewrite Es. by split_and!.
    + split; [solve_frames|]. destruct (err_is e ErrNotFound) eqn:En; cbn.
      * intros id' [= <-] t' Ht' Et'. rewrite <- E in Ht'. by destruct (Hr eq_refl t' Ht').
      * exists id. split; [done|]. right. exists e, w. by rewrite Ef.
  - apply wp_ret. split; [done|]. destruct (String.eqb_spec (rit_Status c) RSSItemStatusEnqueued); [by exists id|by intros].
Qed.

(** One call of [CreateTask] answers [answer]; before it and after it no
    table but that of the items changes. *)
Definition one_task (sub : RSSSubscription) (c : RSSItem) (answer : result GoErr N) w w' : Prop :=
  rssItemIsCompleted c = false /\ none_runs c w /\
  exists ctx' req w1 w2, frames [TRssItem] w w1 /\ CreateTask ctx' req w1 = (answer, w2) /\ frames [TRssItem] w2 w' /\
    asked_for sub c ctx' req.
Definition attempt_outcome sub (count : bool) (c : RSSItem) w (r : result GoErr unit) w' : Prop :=
  others c w w' /\ valid w' /\
  match r with
  | Ok _ =>
      (frames [] w w' /\ (rssItemIsCompleted c = true \/ may_run c w)) \/
      exists id y, one_task sub c (Ok id) w w' /\ y ∈ items w' /\ enqueued_as sub count id c y
  | Err _ =>
      frames [] w w' \/
      exists y, y ∈ items w' /\ started_as sub c y /\ (frames [TRssItem] w w' \/ exists answer, one_task sub c answer w w')
  end.
Lemma outcome_same sub count c w (r : result GoErr unit) w' : valid w -> frames [] w w' ->
  (forall u, r = Ok u -> rssItemIsCompleted c = true \/ may_run c w) -> attempt_outcome sub count c w r w'.
Proof.
  intros Hv Hf Hr. assert (items w' = items w) as E by (apply (frames_tbl [] w w' TRssItem Hf); set_solver).
  split; [intros j _; by rewrite E|]. split; [by apply Hf|]. destruct r as [u|e]; left; [|done]. split; [done|by apply (Hr u)].
Qed.
Lemma attempt_spec ctx sub count c w0 w : valid w0 -> frames [] w0 w -> c ∈ items w0 ->
  wp (attempt_item s ctx c sub count) (attempt_outcome sub count c w0) w.
Proof.
  intros Hv Hf Hc. assert (forall w1, frames [] w0 w1 -> items w1 = items w0) as Hq.
  { intros w1 Hf1. apply (frames_tbl [] w0 w1 TRssItem Hf1). set_solver. }
  assert (forall e w1, frames [] w0 w1 -> attempt_outcome sub count c w0 (Err e) w1) as Hsame by (intros; by apply outcome_same).
  apply wp_bind. eapply wp_mono; [apply (wp_active c w0 w); done|].
  intros [[]|e] w1 [Hf1 Hact]; [apply wp_ret, outcome_same; auto| |by apply Hsame].
  destruct (rssItemIsCompleted c) eqn:E; [apply wp_ret, outcome_same; auto|].
  destruct (IsBTRSSDownloadLink (rit_DownloadURL c)) eqn:Ebt; [|by apply wp_throw, Hsame].
  destruct (rss_taskCreator s); [|by apply wp_throw, Hsame]. cbn [negb].
  apply wp_bind, wp_time_now. set (w2 := { w1 with w_reads ::= S }). set (now := the_time w1).
  assert (frames [] w0 w2) as Hf2 by solve_frames. set (x := attempt_started c sub now count).
  destruct (started_fields c sub now count) as (_ & Ei & Eu & _). fold x in Eu.
  assert (c ∈ items w2) as Hc2 by (by rewrite (Hq w2)).
  apply wp_bind, (wp_update_item_row x c); [by apply Hf2|done|done|intros; apply Hsame; solve_frames|].
  intros y w3 Hf3 Ho Hy Hw. assert (frames [TRssItem] w0 w3) as Hf03 by solve_frames.
  assert (rit_ID y = rit_ID c) as Ey by (rewrite <- Ei; symmetry; apply (written_same _ _ Hw)).
  assert (forall ts e w4, frames ts w3 w4 -> TRssItem ∉ ts ->
            frames [TRssItem] w0 w4 \/ (exists answer, one_task sub c answer w0 w4) -> attempt_outcome sub count c w0 (Err e) w4) as Hfail.
  { intros ts e w4 Hf4 Ht Hone. assert (items w4 = items w3) as E4 by exact (frames_tbl ts w3 w4 TRssItem Hf4 Ht).
    split; [intros j Hj; by rewrite E4, (Ho j Hj), (Hq w2)|]. split; [by apply Hf4, Hf03|].
    right. exists y. rewrite E4. split; [done|]. split; [by apply (written_started c sub now count)|done]. }
  assert (forall e w4, frames [] w3 w4 -> attempt_outcome sub count c w0 (Err e) w4) as Hearly.
  { intros e w4 Hf4. apply (Hfail []); [done|set_solver|left; solve_frames]. }
  apply wp_bind, wp_lift_result. destruct (renderRSSTargetVirtualParentPath sub x) as [path|e] eqn:Ep; [|apply Hearly, frames_refl].
  apply wp_bind, wp_lift_result. destruct (renderRSSFilenameTemplate sub x) as [name|e]; [|apply Hearly, frames_refl].
  apply wp_bind, wp_owner. intros ctx' auth w4 Hf4 Hau Hid. apply wp_bind. set (req := task_request x path name).
  pose proof (create_task_law ctx' req w4) as Hf5. unfold wp in Hf5 |- *.
  assert (forall answer w5 w6, CreateTask ctx' req w4 = (answer, w5) -> frames [TRssItem] w5 w6 -> one_task sub c answer w0 w6) as Hone.
  { intros answer w5 w6 Ect Hf6. split; [done|]. split; [exact Hact|]. exists ctx', req, w4, w5. split; [solve_frames|].
    split; [done|]. split; [done|]. split; [by exists auth|].
    split_and!; [exact Eu|by rewrite <- Eu in Ebt|done|done|by apply (target_below sub x)]. }
  destruct (CreateTask ctx' req w4) as [[id|e] w5] eqn:Ect; cbn [fst snd] in Hf5 |- *;
    (assert (frames beside_items w3 w5) as Hf35 by solve_frames).
  2: { apply (Hfail beside_items); [done|set_solver|]. right. exists (Err e). by apply (Hone _ w5); [|apply frames_refl]. }
  change (wp (now0 <-! time_now ;; RSSRepository_UpdateItem (enqueued x id now0)) (attempt_outcome sub count c w0) w5).
  apply wp_bind, wp_time_now. set (w6 := { w5 with w_reads ::= S }). assert (frames beside_items w3 w6) as Hf6 by solve_frames.
  assert (items w6 = items w3) as E6 by (apply (frames_tbl beside_items w3 w6 TRssItem Hf6); set_solver).
  apply (wp_update_item_row _ y); [by apply Hf6, Hf03|by rewrite E6|rewrite enqueued_id, Ey; exact Ei|..].
  { intros e w7 Hf7. apply (Hfail beside_items); [solve_frames|set_solver|]. right. exists (Ok id). apply (Hone _ w5); [done|solve_frames]. }
  intros z w7 Hf7 Ho7 Hz Hwz. split; [|split; [by apply Hf7, Hf6, Hf03|]].
  { intros j Hj. rewrite (Ho7 j) by (rewrite Ey; exact Hj). by rewrite E6, (Ho j Hj), (Hq w2). }
  right. exists id, z. split; [apply (Hone _ w5); [done|solve_frames]|]. split; [done|exact (written_enqueued c sub now count id _ z Hwz)].
Qed.

(** C20: What an attempt to download a stored item does, on valid tables
    and if creating a task leaves the items alone.  If it succeeds, either
    no table changed, because the item is completed or has a task that may
    run: one that is stored and has not ended, or cannot be read (without a
    reader of tasks, the item is enqueued).  Or no task of the item runs,
    and exactly one is asked for: besides this one call no table but that of
    the items changes; it is asked for in the name of the owner of the
    subscription, with the item's link, a torrent or a magnet, and a
    directory at or below the subscription's target, trimmed of spaces; and
    the item is enqueued with that task.  If it fails, no table changed, or
    the item is matched to the subscription with the task it had, and no
    task or this one was asked for.  Other items stay as they are. *)
Theorem enqueue_effect ctx (item c : RSSItem) sub (count : bool) w :
  valid w -> c ∈ items w -> rit_ID item = rit_ID c ->
  wp (enqueueItemWithAttempt s ctx item sub count) (attempt_outcome sub count c w) w.
Proof.
  intros Hv Hc Ei. assert (forall e w', frames [] w w' -> attempt_outcome sub count c w (Err e) w') as Hsame by (intros; by apply outcome_same).
  apply wp_bind, wp_gets. destruct (negb _); [apply wp_throw, Hsame, frames_refl|].
  apply wp_bind_or, (wp_first TRssItem).
  - intros e w' Hs Hd. rewrite (db_error_is_not_found _ Hd). by apply wp_throw, Hsame, same_frames.
  - intros w' _ Hno. specialize (Hno c Hc). apply N.eqb_neq in Hno. congruence.
  - intros j w1 Hs Hj E%N.eqb_eq _. assert (j = c) as -> by (apply (same_id_same_row w); [done..|congruence]).
    apply attempt_spec; [done|by apply same_frames|done].
Qed.
End Items.

(** ** Instances *)
#[local] Existing Instances Mem.database Mem.laws.
Module RssExamples.
Import RssRuleExamples.
#[export] Instance format : TimeFormat := fun z => pretty z.
#[export] Instance url : UrlParser := fun _ => None.
#[export] Instance url_path_id : UrlPath := fun p => p.
Definition task (id : N) (status : string) (result : N) : DownloadTask :=
  {| dt_ID := id; dt_UserID := 1; dt_Type := "download"; dt_DownloaderType := "aria2"; dt_Status := status; dt_SourceID := 1;
     dt_SavePath := "/"; dt_TargetVFSParentNodeID := 1; dt_TargetVirtualParentPath := "/anime"; dt_TargetFilename := "";
     dt_SaveVirtualPath := "/anime"; dt_ResolvedSourceID := 1; dt_ResolvedInnerSavePath := "/"; dt_ResultVFSNodeID := result;
     dt_StagingDir := ""; dt_DisplayName := "d"; dt_SourceURL := "u"; dt_ExternalID := "x"; dt_Progress := SpecFloat.S754_zero false;
     dt_DownloadedBytes := 0; dt_TotalBytes := None; dt_SpeedBytes := 0; dt_ETASeconds := None; dt_ErrorMessage := None;
     dt_FinishedAt := None; dt_CreatedAt := 1; dt_UpdatedAt := 1 |}.
(** Tasks are stored, notices dropped, and a feed has one entry. *)
#[export] Instance creator : RSSTaskCreator :=
  fun ctx req => row <-! TaskRepository_Create { (task 0 "pending" 0) with dt_SourceURL := ctr_URL req } ;; ret (dt_ID row).
#[export] Instance creator_laws : RSSTaskCreatorLaws.
Proof. intros ctx req. unfold CreateTask, creator, TaskRepository_Create. frame_tac. Qed.
#[export] Instance notifier : RSSNotifier := fun _ => ret tt.
#[export] Instance notifier_laws : RSSNotifierLaws.
Proof. intros input. apply within_ret. Qed.
Definition magnet : string := "magnet:?xt=urn:btih:0123456789abcdef0123456789abcdef01234567".
Definition entry : RSSFetchedItem :=
  {| fi_Title := "Title - 01"; fi_Link := magnet; fi_GUID := "g"; fi_PublishedAt := None; fi_Enclosures := [] |}.
#[export] Instance feed : RSSFetcher := fun _ => ret [entry].
#[export] Instance feed_laws : RSSFetcherLaws.
Proof. intros url. apply within_ret. Qed.
#[export] Instance free : RSSLocks := {| source_free := fun _ _ => true; item_free := fun _ _ => true |}.

Definition service : RSSService :=
  {| rss_userRepo := false; rss_taskCreator := true; rss_taskReader := true; rss_notifier := true; rss_fetcher := true;
     rss_retryWorkerLimit := 20 |}.
Definition source : RSSSource := { (failing 0) with rs_URL := "https://h/feed" }.
Definition item (id : N) (status : string) (taskID : option N) : RSSItem :=
  { zero_item with rit_ID := id; rit_UserID := 1%N; rit_SourceID := 1%N; rit_Title := "Title - 01"; rit_DedupKey := pretty id;
    rit_DownloadURL := magnet; rit_LinkType := "magnet"; rit_Status := status; rit_MatchedSubscriptionID := Some 1%N;
    rit_TaskID := taskID; rit_MaxRetryCount := defaultRSSItemMaxRetryCount }.
Definition world (items : list RSSItem) (tasks : list DownloadTask) : World :=
  mem_world (Mem.set_rows TRssSource [source] (Mem.set_rows TRssSubscription [subscription "" ""]
    (Mem.set_rows TRssItem items (Mem.set_rows TTask tasks { Mem.init with Mem.m_serial := 20%N })))).
Definition admin : Ctx := {| ctx_auth := Some {| ra_UserID := 1; ra_Username := "a"; ra_RoleKey := "admin"; ra_Status := "active";
  ra_Capabilities := [CapabilityRSSManage] |}; ctx_request := None |}.
Definition summary (w : World) : list (N * string * option N * N) :=
  map (fun i => (rit_ID i, rit_Status i, rit_TaskID i, rit_ResultVFSNodeID i)) (items w).
Definition at_time (t : Z) (w : World) : World := { w with w_clock := fun _ => t }.
Definition cycle (t : Z) (w : World) : World := run_op service (OpRunRetryCycle admin 0) (at_time t w).
Definition at_minutes (minutes : list nat) (w : World) : World := fold_left (fun w n => cycle (Z.of_nat n * minute) w) minutes w.
Definition due (i : RSSItem) : RSSItem := { i with rit_NextRetryAt := Some 7%Z }.
(** The [n]th statement from now fails. *)
Definition faulty (n : nat) (w : World) : World :=
  { w with w_db := { (w_db w) with Mem.m_faults := repeat None n ++ [Some (DbOther "lost")] } }.
Definition seen (i : RSSItem) : RSSItem := { i with rit_DedupKey := buildRSSDedupKey 1 entry }.
Definition other : CreateTaskRequest :=
  {| ctr_Type := "download"; ctr_URL := "https://h/f"; ctr_SourceID := 1; ctr_SavePath := "/"; ctr_TargetVirtualParentPath := "";
     ctr_TargetFilename := "" |}.
Definition from_item : RSSManualDownloadRequest := {| md_SubscriptionID := 0 |}.

(** *** What the code does besides *)
(** The worker, which runs every minute, marks an item whose download
    failed anew in each round, and so puts its next attempt five minutes
    ahead: it is never retried.  An item without a task is. *)
Lemma failed_download_never_retried :
  let w := at_minutes (seq 1 12) (world [item 5 "enqueued" (Some 3%N)] [task 3 "failed" 0]) in
  summary w = [(5, "retry_pending", Some 3, 0)]%N /\ map rit_NextRetryAt (items w) = [Some (17 * minute)%Z] /\
  map rit_RetryCount (items w) = [0%Z] /\ length (tbl TTask w) = 1 /\
  summary (at_minutes [1] (world [due (item 5 "retry_pending" None)] [])) = [(5, "enqueued", Some 21, 0)]%N.
Proof. vm_compute. auto. Qed.
(** Of a round of two, one is left after a backlink, and is not used. *)
Lemma retry_limit_counted_twice :
  let w := world [item 4 "enqueued" (Some 3%N); due (item 5 "retry_pending" None)] [task 3 "completed" 9] in
  summary (run_op service (OpRunRetryCycle admin 2) w) = [(4, "completed", Some 3, 9); (5, "retry_pending", None, 0)]%N /\
  summary (run_op service (OpRunRetryCycle admin 3) w) = [(4, "completed", Some 3, 9); (5, "enqueued", Some 21, 0)]%N.
Proof. vm_compute. auto. Qed.
(** An item a user ignored is downloaded by the next refresh. *)
Lemma ignored_item_downloaded :
  let w := run_op service (OpBatchIgnoreItems admin {| bi_ItemIDs := [5%N] |}) (world [seen (item 5 "new" None)] []) in
  summary w = [(5, "ignored", None, 0)]%N /\
  summary (run_op service (OpRefreshSource admin 1) w) = [(5, "enqueued", Some 21, 0)]%N.
Proof. vm_compute. auto. Qed.
(** When the write after the creation of a task is lost, the task is not
    the item's, and the next attempt creates another. *)
Lemma lost_task_created_again :
  let w := run_op service (OpRetryItem admin 5 from_item) (faulty 5 (world [item 5 "needs_attention" None] [])) in
  summary w = [(5, "retry_pending", None, 0)]%N /\ map dt_ID (tbl TTask w) = [21]%N /\
  map dt_ID (tbl TTask (run_op service (OpRetryItem admin 5 from_item) w)) = [21; 22]%N.
Proof. vm_compute. auto. Qed.
End RssExamples.
Import RssRuleExamples RssExamples.

Lemma rss_items_settle_witness :
  let w := world [item 5 "enqueued" (Some 3%N); item 6 "needs_attention" None; item 7 "new" None] [task 3 "completed" 9] in
  let ops := [OpRunRetryCycle admin 0; OpRefreshSource admin 1; OpRetryItem admin 6 from_item; OpReprocessItem admin 5;
    OpElsewhere _ (CreateTask admin other) (create_task_law admin other); OpRunSubscription admin 1] in
  summary (run_ops service ops w) = [(5, "completed", Some 3, 9); (6, "enqueued", Some 23, 0); (7, "enqueued", Some 25, 0);
    (21, "enqueued", Some 22, 0)]%N /\
  valid (run_ops service ops w) /\ Forall item_ok (items (run_ops service ops w)).
Proof.
  intros w ops. split; [vm_compute; reflexivity|].
  destruct (rss_items_settle service ops w) as (Hv & Ho & _); [by intros []| |split; [exact Hv|exact Ho]].
  repeat constructor; (intros; discriminate) || (intros E; exfalso; by apply E).
Defined.
Lemma enqueue_effect_witness :
  let c := item 6 "needs_attention" None in
  let r := enqueueItemWithAttempt service admin c (subscription "" "") true (world [c] []) in
  fst r = Ok tt /\ summary (snd r) = [(6, "enqueued", Some 21, 0)]%N /\
  attempt_outcome service (subscription "" "") true c (world [c] []) (fst r) (snd r).
Proof.
  intros c r. split; [vm_compute; reflexivity|]. split; [vm_compute; reflexivity|].
  apply (enqueue_effect service admin c c (subscription "" "") true (world [c] [])); [by intros []|by left|reflexivity].
Defined.
