(* ===== verification/RssSubs.v ===== *)
(** * RSS: subscriptions, import and export ([rss_service.go])

    The requests on subscriptions, which validate the target of a
    subscription on the storage it resolves to, and the import and export of
    sources and subscriptions.  They work on a [Host], as the check of a
    local target writes to its disk. *)
From S2P Require Import Prelude Ints GoStrings Runes Errors Entities Paths Mounts Permission Tables Db Auditing Repos Acl AclService Journal Users Auth Notifications Storage Files Uploads Commits Tasks RssRules Rss.
From stdpp Require Import base list strings gmap sets pretty.
From Stdlib Require Import ZArith Lia Ascii.

Local Open Scope string_scope.
Local Open Scope list_scope.
Local Open Scope go_scope.

(** ** Requests and views *)
Record RSSSubscriptionUpsertRequest := {
  uq_SourceID : N; uq_Name : string; uq_IsEnabled : option bool; uq_MustContain : list string; uq_MustNotContain : list string;
  uq_UseRegex : bool; uq_CaseSensitive : bool; uq_TargetVirtualParentPath : string; uq_DirectoryTemplate : string;
  uq_FilenameTemplate : string
}.
Record RSSSubscriptionCloneRequest := { cq_Name : string; cq_IsEnabled : option bool }.
Record RSSSubscriptionBatchStateRequest := { bq_SubscriptionIDs : list N; bq_IsEnabled : option bool }.
Record RSSSubscriptionPreviewRequest := {
  pq_SourceID : N; pq_MustContain : list string; pq_MustNotContain : list string; pq_UseRegex : bool; pq_CaseSensitive : bool
}.
Record RSSSubscriptionView := {
  uv_ID : N; uv_UserID : N; uv_SourceID : N; uv_Name : string; uv_IsEnabled : bool; uv_MustContain : list string;
  uv_MustNotContain : list string; uv_UseRegex : bool; uv_CaseSensitive : bool; uv_TargetVFSParentNodeID : N;
  uv_TargetVirtualParentPath : string; uv_DirectoryTemplate : string; uv_FilenameTemplate : string; uv_ResolvedSourceID : N;
  uv_ResolvedInnerParentPath : string; uv_CreatedAt : string; uv_UpdatedAt : string
}.
Record RSSSubscriptionBatchStateResult := {
  bs_SubscriptionID : N; bs_Success : bool; bs_Subscription : option RSSSubscriptionView; bs_ErrorCode : option string;
  bs_ErrorMessage : option string
}.
Record RSSSubscriptionBatchStateResponse := {
  bsr_Items : list RSSSubscriptionBatchStateResult; bsr_Succeeded : Z; bsr_Failed : Z
}.
Record RSSSubscriptionPreviewResponse := {
  pr_SubscriptionID : N; pr_SourceID : N; pr_Items : list RSSSubscriptionPreviewItem; pr_Matched : Z; pr_Missing : Z; pr_Excluded : Z
}.
Record RSSQBitHealthResponse := { qh_Enabled : bool; qh_Status : string; qh_Error : option string }.

(** *** Import and export *)
Record RSSExportSource := { xs_Name : string; xs_URL : string; xs_IsEnabled : bool; xs_RefreshIntervalSeconds : Z }.
Record RSSExportSubscription := {
  xu_SourceURL : string; xu_Name : string; xu_IsEnabled : bool; xu_MustContain : list string; xu_MustNotContain : list string;
  xu_UseRegex : bool; xu_CaseSensitive : bool; xu_TargetVirtualParentPath : string; xu_DirectoryTemplate : string;
  xu_FilenameTemplate : string
}.
Record RSSExportResponse := {
  xr_Version : Z; xr_ExportedAt : string; xr_Sources : list RSSExportSource; xr_Subscriptions : list RSSExportSubscription
}.
Record RSSImportSource := { ms_Name : string; ms_URL : string; ms_IsEnabled : option bool; ms_RefreshIntervalSeconds : Z }.
Record RSSImportSubscription := {
  mu_SourceURL : string; mu_SourceRef : string; mu_Name : string; mu_IsEnabled : option bool; mu_MustContain : list string;
  mu_MustNotContain : list string; mu_UseRegex : bool; mu_CaseSensitive : bool; mu_TargetVirtualParentPath : string;
  mu_DirectoryTemplate : string; mu_FilenameTemplate : string
}.
Record RSSImportRequest := {
  mr_DryRun : bool; mr_Sources : list RSSImportSource; mr_Subscriptions : list RSSImportSubscription
}.
Record RSSImportItemResult := {
  mi_Index : Z; mi_Action : string; mi_Success : bool; mi_ID : N; mi_SourceURL : string; mi_Name : string;
  mi_ErrorCode : option string; mi_ErrorMessage : option string
}.
#[export] Instance eta_RSSImportItemResult : Eta RSSImportItemResult := fun r =>
  {| mi_Index := mi_Index r; mi_Action := mi_Action r; mi_Success := mi_Success r; mi_ID := mi_ID r;
     mi_SourceURL := mi_SourceURL r; mi_Name := mi_Name r; mi_ErrorCode := mi_ErrorCode r; mi_ErrorMessage := mi_ErrorMessage r |}.
Record RSSImportSectionResult := {
  mt_Items : list RSSImportItemResult; mt_Created : Z; mt_Reused : Z; mt_Skipped : Z; mt_Failed : Z
}.
#[export] Instance eta_RSSImportSectionResult : Eta RSSImportSectionResult := fun r =>
  {| mt_Items := mt_Items r; mt_Created := mt_Created r; mt_Reused := mt_Reused r; mt_Skipped := mt_Skipped r; mt_Failed := mt_Failed r |}.
Record RSSImportResponse := {
  mp_DryRun : bool; mp_Sources : RSSImportSectionResult; mp_Subscriptions : RSSImportSectionResult
}.
Definition rssExportVersion : Z := 1.
Definition rssImportActionCreate : string := "create".
Definition rssImportActionReuse : string := "reuse".
Definition rssImportActionSkip : string := "skip".
Definition rssImportActionFailed : string := "failed".

Definition no_results : RSSImportSectionResult :=
  {| mt_Items := []; mt_Created := 0; mt_Reused := 0; mt_Skipped := 0; mt_Failed := 0 |}.
Definition appendRSSImportResult (section : RSSImportSectionResult) (result : RSSImportItemResult) : RSSImportSectionResult :=
  let result :=
    if String.eqb (mi_Action result) "" then
      { result with mi_Action := if mi_Success result then rssImportActionSkip else rssImportActionFailed }
    else result in
  let section := { section with mt_Items ::= (fun l => l ++ [result]) } in
  let failed := { section with mt_Failed ::= succ_int } in
  if String.eqb (mi_Action result) rssImportActionCreate then
    if mi_Success result then { section with mt_Created ::= succ_int } else failed
  else if String.eqb (mi_Action result) rssImportActionReuse then
    if mi_Success result then { section with mt_Reused ::= succ_int } else failed
  else if String.eqb (mi_Action result) rssImportActionSkip then
    if mi_Success result then { section with mt_Skipped ::= succ_int } else failed
  else failed.
Definition fillRSSImportError (result : RSSImportItemResult) (err : GoErr) (notFoundCode : string) : RSSImportItemResult :=
  { result with mi_Action := rssImportActionFailed; mi_Success := false; mi_ErrorCode := Some (rssImportErrorCode err notFoundCode);
    mi_ErrorMessage := Some (err_text err) }.
Definition import_done (result : RSSImportItemResult) (action : string) (id : N) : RSSImportItemResult :=
  { result with mi_Action := action; mi_Success := true; mi_ID := id }.
Definition import_result (index : Z) (sourceURL name : string) : RSSImportItemResult :=
  {| mi_Index := index; mi_Action := ""; mi_Success := false; mi_ID := 0; mi_SourceURL := sourceURL; mi_Name := name;
     mi_ErrorCode := None; mi_ErrorMessage := None |}.

Section Views.
Context `{TF : TimeFormat}.
Definition toRSSSubscriptionView (subscription : RSSSubscription) : RSSSubscriptionView :=
  {| uv_ID := rsub_ID subscription; uv_UserID := rsub_UserID subscription; uv_SourceID := rsub_SourceID subscription;
     uv_Name := rsub_Name subscription; uv_IsEnabled := rsub_IsEnabled subscription; uv_MustContain := rsub_MustContain subscription;
     uv_MustNotContain := rsub_MustNotContain subscription; uv_UseRegex := rsub_UseRegex subscription;
     uv_CaseSensitive := rsub_CaseSensitive subscription; uv_TargetVFSParentNodeID := rsub_TargetVFSParentNodeID subscription;
     uv_TargetVirtualParentPath := rsub_TargetVirtualParentPath subscription; uv_DirectoryTemplate := rsub_DirectoryTemplate subscription;
     uv_FilenameTemplate := rsub_FilenameTemplate subscription; uv_ResolvedSourceID := rsub_ResolvedSourceID subscription;
     uv_ResolvedInnerParentPath := rsub_ResolvedInnerParentPath subscription; uv_CreatedAt := rfc3339 (rsub_CreatedAt subscription);
     uv_UpdatedAt := rfc3339 (rsub_UpdatedAt subscription) |}.
End Views.

(** ** Targets *)
Record resolvedRSSSubscriptionTarget := {
  rg_targetVFSParentNodeID : N; rg_targetVirtualParentPath : string; rg_directoryTemplate : string; rg_filenameTemplate : string;
  rg_resolvedSourceID : N; rg_resolvedInnerParentPath : string
}.
#[export] Instance eta_resolvedRSSSubscriptionTarget : Eta resolvedRSSSubscriptionTarget := fun r =>
  {| rg_targetVFSParentNodeID := rg_targetVFSParentNodeID r; rg_targetVirtualParentPath := rg_targetVirtualParentPath r;
     rg_directoryTemplate := rg_directoryTemplate r; rg_filenameTemplate := rg_filenameTemplate r;
     rg_resolvedSourceID := rg_resolvedSourceID r; rg_resolvedInnerParentPath := rg_resolvedInnerParentPath r |}.

(** The closest directory that exists must accept a file.  The parents get
    shorter, and the length of the path is fuel enough. *)
Fixpoint probe_parents `{Database} (fuel : nat) (probePath : string) : M GoErr Host unit :=
  match fuel with
  | O => throw ErrPathInvalid
  | S fuel =>
      info <-! on_disk (Stat probePath) or statErr =>
        (match statErr with
         | OsNotExist =>
             let parent := path_dir probePath in
             if String.eqb parent probePath || String.eqb parent "." then throw ErrPathInvalid else probe_parents fuel parent
         | _ => throw (normalizeLocalWriteError statErr)
         end) ;;
      if negb (fsi_IsDir info) then throw ErrPathInvalid
      else
        writable <-! os (probeLocalDirectoryWritable probePath) ;;
        if negb writable then throw ErrSourceReadOnly else ret tt
  end.
Definition ensureLocalTargetWritable `{Database} `{JD : JsonDecoder} (source : StorageSource) (innerParentPath : string)
    : M GoErr Host unit :=
  physical <-! lift_result (resolvePhysicalPath source innerParentPath) ;;
  probe_parents (S (String.length (snd physical))) (snd physical).

(** ** The service *)
Class QBitHealthChecker `{Database} := QBitHealthOf : M GoErr World unit.

Section Service.
Context `{Database} {TC : RSSTaskCreator} {NO : RSSNotifier} {FE : RSSFetcher} {LO : RSSLocks} {RE : Regexp} {UP : UrlParser}
  {UPA : UrlPath} {TF : TimeFormat} {JD : JsonDecoder} {MR : MetadataReader} {WT : WritableTargetResolver} {HC : QBitHealthChecker}
  (s : RSSService).
(** The collaborators used here: which are present, and the authorizer. *)
Context (vfsResolver metadataReader healthChecker : bool) (aclAuthorizer : option ACLAuthorizer).

Definition rss_nodeID (virtualPath : string) : M GoErr World N :=
  if metadataReader then resolveMetadataVFSNodeID virtualPath else ret 0%N.
Definition validateWritableTarget (ctx : Ctx) (targetVirtualParentPath : string) : M GoErr Host resolvedRSSSubscriptionTarget :=
  virtualParentPath <-! lift_result (normalizeVirtualPath (trim_space targetVirtualParentPath)) ;;
  if negb vfsResolver then throw ErrSourceDriverUnsupported
  else
    resolved <-! on_world (ResolveWritableTarget ctx (joinVirtualPath virtualParentPath ".yunxia-rss-probe")) ;;
    match rp_Source resolved with
    | None => throw ErrNoBackingStorage
    | Some source =>
        split <-! lift_result (splitParentName (rp_InnerPath resolved)) ;;
        let '(innerParentPath, _) := split in
        do! on_world (match aclAuthorizer with
                      | None => ret tt
                      | Some a => AuthorizePath a ctx (src_ID source) innerParentPath ACLActionWrite
                      end) ;;
        do! (if String.eqb (src_DriverType source) "local" then ensureLocalTargetWritable source innerParentPath else ret tt) ;;
        nodeID <-! on_world (rss_nodeID virtualParentPath) ;;
        ret {| rg_targetVFSParentNodeID := nodeID; rg_targetVirtualParentPath := virtualParentPath; rg_directoryTemplate := "";
               rg_filenameTemplate := ""; rg_resolvedSourceID := src_ID source; rg_resolvedInnerParentPath := innerParentPath |}
    end.
Definition normalizeSubscriptionRequest (ctx : Ctx) (req : RSSSubscriptionUpsertRequest)
    : M GoErr Host resolvedRSSSubscriptionTarget :=
  if String.eqb (trim_space (uq_Name req)) "" then throw ErrConfigInvalid
  else
    do! lift_result (validateRSSRulePatterns (uq_MustContain req) (uq_MustNotContain req) (uq_UseRegex req)) ;;
    let directoryTemplate := trim_space (uq_DirectoryTemplate req) in
    do! lift_result (validateRSSDirectoryTemplate directoryTemplate) ;;
    let filenameTemplate := trim_space (uq_FilenameTemplate req) in
    do! lift_result (validateRSSFilenameTemplate filenameTemplate) ;;
    resolved <-! validateWritableTarget ctx (uq_TargetVirtualParentPath req) ;;
    ret { resolved with rg_directoryTemplate := directoryTemplate; rg_filenameTemplate := filenameTemplate }.

(** *** Subscriptions *)
Definition RSSService_ListSubscriptions (ctx : Ctx) (sourceID : N) : M GoErr World (list RSSSubscriptionView) :=
  auth <-! lift_result (currentRSSAuth ctx) ;;
  items <-! RSSRepository_ListSubscriptions
    {| uf_UserID := ra_UserID auth; uf_IncludeAll := manages_rss auth; uf_SourceID := sourceID; uf_Enabled := None |} ;;
  ret (map toRSSSubscriptionView items).
Definition new_subscription (userID : N) (req : RSSSubscriptionUpsertRequest) (resolved : resolvedRSSSubscriptionTarget) (now : Z)
    : RSSSubscription :=
  {| rsub_ID := 0; rsub_UserID := userID; rsub_SourceID := uq_SourceID req; rsub_Name := trim_space (uq_Name req);
     rsub_IsEnabled := boolDefault (uq_IsEnabled req) true; rsub_MustContain := trimStringList (uq_MustContain req);
     rsub_MustNotContain := trimStringList (uq_MustNotContain req); rsub_UseRegex := uq_UseRegex req;
     rsub_CaseSensitive := uq_CaseSensitive req; rsub_TargetVFSParentNodeID := rg_targetVFSParentNodeID resolved;
     rsub_TargetVirtualParentPath := rg_targetVirtualParentPath resolved; rsub_DirectoryTemplate := rg_directoryTemplate resolved;
     rsub_FilenameTemplate := rg_filenameTemplate resolved; rsub_ResolvedSourceID := rg_resolvedSourceID resolved;
     rsub_ResolvedInnerParentPath := rg_resolvedInnerParentPath resolved; rsub_CreatedAt := now; rsub_UpdatedAt := now |}.
Definition RSSService_CreateSubscription (ctx : Ctx) (req : RSSSubscriptionUpsertRequest) : M GoErr Host RSSSubscriptionView :=
  auth <-! lift_result (currentRSSAuth ctx) ;;
  do! on_world (find_owned_source ctx (uq_SourceID req)) ;;
  resolved <-! normalizeSubscriptionRequest ctx req ;;
  now <-! on_world time_now ;;
  subscription <-! on_world (RSSRepository_CreateSubscription (new_subscription (ra_UserID auth) req resolved now)) ;;
  ret (toRSSSubscriptionView subscription).

(** The first "Copy" that is not in use; one of a number of names one more
    than those in use is free. *)
Fixpoint free_copy (fuel : nat) (base : string) (used : gset string) (index : Z) : string :=
  let next := base +:+ " Copy " +:+ pretty index in
  match fuel with
  | O => next
  | S fuel => if decide (next ∈ used) then free_copy fuel base used (index + 1) else next
  end.
Definition clone_base (original : RSSSubscription) : string :=
  if String.eqb (trim_space (rsub_Name original)) "" then "Subscription" else trim_space (rsub_Name original).
Definition names_used (original : RSSSubscription) (existing : list RSSSubscription) : gset string :=
  list_to_set (map (fun u => trim_space (rsub_Name u)) (sel (fun u => N.eqb (rsub_UserID u) (rsub_UserID original)) existing)).
Definition clone_name (original : RSSSubscription) (existing : list RSSSubscription) : string :=
  let base := clone_base original in
  let used := names_used original existing in
  if decide (base +:+ " Copy" ∈ used) then free_copy (size used) base used 2 else base +:+ " Copy".
Definition defaultRSSSubscriptionCloneName (original : RSSSubscription) : M GoErr World string :=
  existing <-! RSSRepository_ListSubscriptions
    {| uf_UserID := 0; uf_IncludeAll := true; uf_SourceID := rsub_SourceID original; uf_Enabled := None |}
    or _e => ret (clone_base original +:+ " Copy") ;;
  ret (clone_name original existing).
Definition RSSService_CloneSubscription (ctx : Ctx) (id : N) (req : RSSSubscriptionCloneRequest) : M GoErr World RSSSubscriptionView :=
  original <-! find_owned_subscription ctx id ;;
  name <-! (if String.eqb (trim_space (cq_Name req)) "" then defaultRSSSubscriptionCloneName original else ret (trim_space (cq_Name req))) ;;
  now <-! time_now ;;
  clone <-! RSSRepository_CreateSubscription
    { original with rsub_ID := 0%N; rsub_Name := name; rsub_IsEnabled ::= boolDefault (cq_IsEnabled req); rsub_CreatedAt := now;
      rsub_UpdatedAt := now } ;;
  ret (toRSSSubscriptionView clone).
Definition RSSService_GetSubscription (ctx : Ctx) (id : N) : M GoErr World RSSSubscriptionView :=
  subscription <-! find_owned_subscription ctx id ;;
  ret (toRSSSubscriptionView subscription).
Definition changed_subscription (subscription : RSSSubscription) (req : RSSSubscriptionUpsertRequest)
    (resolved : resolvedRSSSubscriptionTarget) (now : Z) : RSSSubscription :=
  { (new_subscription (rsub_UserID subscription) req resolved now) with rsub_ID := rsub_ID subscription;
    rsub_IsEnabled := boolDefault (uq_IsEnabled req) (rsub_IsEnabled subscription); rsub_CreatedAt := rsub_CreatedAt subscription }.
Definition RSSService_UpdateSubscription (ctx : Ctx) (id : N) (req : RSSSubscriptionUpsertRequest) : M GoErr Host RSSSubscriptionView :=
  subscription <-! on_world (find_owned_subscription ctx id) ;;
  do! on_world (find_owned_source ctx (uq_SourceID req)) ;;
  resolved <-! normalizeSubscriptionRequest ctx req ;;
  now <-! on_world time_now ;;
  let subscription := changed_subscription subscription req resolved now in
  do! on_world (RSSRepository_UpdateSubscription subscription) ;;
  ret (toRSSSubscriptionView subscription).
Definition RSSService_DeleteSubscription (ctx : Ctx) (id : N) : M GoErr World unit :=
  do! find_owned_subscription ctx id ;;
  RSSRepository_DeleteSubscription id.

Definition set_state (ctx : Ctx) (enabled : bool) (now : Z) (id : N) : M GoErr World RSSSubscription :=
  subscription <-! find_owned_subscription ctx id ;;
  let subscription := { subscription with rsub_IsEnabled := enabled; rsub_UpdatedAt := now } in
  do! RSSRepository_UpdateSubscription subscription ;;
  ret subscription.
Definition state_failed (id : N) (err : GoErr) (resp : RSSSubscriptionBatchStateResponse) : RSSSubscriptionBatchStateResponse :=
  {| bsr_Items := bsr_Items resp ++ [{| bs_SubscriptionID := id; bs_Success := false; bs_Subscription := None;
       bs_ErrorCode := Some (rssSubscriptionBatchErrorCode err); bs_ErrorMessage := Some (err_text err) |}];
     bsr_Succeeded := bsr_Succeeded resp; bsr_Failed := succ_int (bsr_Failed resp) |}.
Definition state_done (id : N) (subscription : RSSSubscription) (resp : RSSSubscriptionBatchStateResponse)
    : RSSSubscriptionBatchStateResponse :=
  {| bsr_Items := bsr_Items resp ++ [{| bs_SubscriptionID := id; bs_Success := true;
       bs_Subscription := Some (toRSSSubscriptionView subscription); bs_ErrorCode := None; bs_ErrorMessage := None |}];
     bsr_Succeeded := succ_int (bsr_Succeeded resp); bsr_Failed := bsr_Failed resp |}.
Fixpoint batch_states (ctx : Ctx) (enabled : bool) (now : Z) (ids : list N) (resp : RSSSubscriptionBatchStateResponse)
    : M GoErr World RSSSubscriptionBatchStateResponse :=
  match ids with
  | [] => ret resp
  | id :: rest =>
      subscription <-! set_state ctx enabled now id or err => batch_states ctx enabled now rest (state_failed id err resp) ;;
      batch_states ctx enabled now rest (state_done id subscription resp)
  end.
Definition RSSService_BatchUpdateSubscriptionState (ctx : Ctx) (req : RSSSubscriptionBatchStateRequest)
    : M GoErr World RSSSubscriptionBatchStateResponse :=
  do! lift_result (currentRSSAuth ctx) ;;
  match bq_SubscriptionIDs req, bq_IsEnabled req with
  | [], _ | _, None => throw ErrConfigInvalid
  | ids, Some enabled =>
      now <-! time_now ;;
      batch_states ctx enabled now ids {| bsr_Items := []; bsr_Succeeded := 0; bsr_Failed := 0 |}
  end.

(** *** Previews *)
Definition count_result (result : string) (previews : list RSSSubscriptionPreviewItem) : Z :=
  Z.of_nat (length (sel (fun p => String.eqb (pi_Result p) result) previews)).
Definition previewRSSSubscription (subscription : RSSSubscription) : M GoErr World RSSSubscriptionPreviewResponse :=
  items <-! RSSRepository_ListItems (of_source (rsub_SourceID subscription)) ;;
  let previews := map (evaluateRSSSubscriptionPreview subscription) items in
  let matched := count_result "matched" previews in
  let excluded := count_result "excluded" previews in
  ret {| pr_SubscriptionID := rsub_ID subscription; pr_SourceID := rsub_SourceID subscription; pr_Items := previews;
         pr_Matched := matched; pr_Missing := Z.of_nat (length previews) - matched - excluded; pr_Excluded := excluded |}.
Definition RSSService_PreviewSubscription (ctx : Ctx) (id : N) : M GoErr World RSSSubscriptionPreviewResponse :=
  subscription <-! find_owned_subscription ctx id ;;
  previewRSSSubscription subscription.
Definition draft_subscription (source : RSSSource) (req : RSSSubscriptionPreviewRequest) : RSSSubscription :=
  {| rsub_ID := 0; rsub_UserID := rs_UserID source; rsub_SourceID := rs_ID source; rsub_Name := ""; rsub_IsEnabled := true;
     rsub_MustContain := trimStringList (pq_MustContain req); rsub_MustNotContain := trimStringList (pq_MustNotContain req);
     rsub_UseRegex := pq_UseRegex req; rsub_CaseSensitive := pq_CaseSensitive req; rsub_TargetVFSParentNodeID := 0;
     rsub_TargetVirtualParentPath := ""; rsub_DirectoryTemplate := ""; rsub_FilenameTemplate := ""; rsub_ResolvedSourceID := 0;
     rsub_ResolvedInnerParentPath := ""; rsub_CreatedAt := 0; rsub_UpdatedAt := 0 |}.
Definition RSSService_PreviewSubscriptionRules (ctx : Ctx) (req : RSSSubscriptionPreviewRequest)
    : M GoErr World RSSSubscriptionPreviewResponse :=
  source <-! find_owned_source ctx (pq_SourceID req) ;;
  do! lift_result (validateRSSRulePatterns (pq_MustContain req) (pq_MustNotContain req) (pq_UseRegex req)) ;;
  previewRSSSubscription (draft_subscription source req).
Definition RSSService_QBitHealth (ctx : Ctx) : M GoErr World RSSQBitHealthResponse :=
  do! lift_result (currentRSSAuth ctx) ;;
  if negb healthChecker then ret {| qh_Enabled := false; qh_Status := "disabled"; qh_Error := None |}
  else
    _u <-! QBitHealthOf or err => ret {| qh_Enabled := true; qh_Status := "unavailable"; qh_Error := Some (err_text err) |} ;;
    ret {| qh_Enabled := true; qh_Status := "ok"; qh_Error := None |}.

(** *** Export and import *)
Definition export_source (source : RSSSource) : RSSExportSource :=
  {| xs_Name := rs_Name source; xs_URL := rs_URL source; xs_IsEnabled := rs_IsEnabled source;
     xs_RefreshIntervalSeconds := rs_RefreshIntervalSeconds source |}.
Definition export_subscription (sourceURL : string) (subscription : RSSSubscription) : RSSExportSubscription :=
  {| xu_SourceURL := sourceURL; xu_Name := rsub_Name subscription; xu_IsEnabled := rsub_IsEnabled subscription;
     xu_MustContain := rsub_MustContain subscription; xu_MustNotContain := rsub_MustNotContain subscription;
     xu_UseRegex := rsub_UseRegex subscription; xu_CaseSensitive := rsub_CaseSensitive subscription;
     xu_TargetVirtualParentPath := rsub_TargetVirtualParentPath subscription; xu_DirectoryTemplate := rsub_DirectoryTemplate subscription;
     xu_FilenameTemplate := rsub_FilenameTemplate subscription |}.
(** Of the sources with an ID, which is one at most. *)
Definition source_url (sources : list RSSSource) (id : N) : string :=
  match List.find (fun source => N.eqb (rs_ID source) id) sources with Some source => rs_URL source | None => "" end.
Definition export_subscriptions (sources : list RSSSource) (subscriptions : list RSSSubscription) : list RSSExportSubscription :=
  omap (fun subscription =>
    let sourceURL := source_url sources (rsub_SourceID subscription) in
    if String.eqb sourceURL "" then None else Some (export_subscription sourceURL subscription)) subscriptions.
Definition RSSService_ExportConfig (ctx : Ctx) : M GoErr World RSSExportResponse :=
  auth <-! lift_result (currentRSSAuth ctx) ;;
  sources <-! RSSRepository_ListSources {| sf_UserID := ra_UserID auth; sf_IncludeAll := manages_rss auth; sf_Enabled := None |} ;;
  subscriptions <-! RSSRepository_ListSubscriptions
    {| uf_UserID := ra_UserID auth; uf_IncludeAll := manages_rss auth; uf_SourceID := 0; uf_Enabled := None |} ;;
  now <-! time_now ;;
  ret {| xr_Version := rssExportVersion; xr_ExportedAt := rfc3339 now; xr_Sources := map export_source sources;
         xr_Subscriptions := export_subscriptions sources subscriptions |}.

(** The sources by their address: the last one listed counts. *)
Definition SourceMap : Type := gmap string RSSSource.
Definition by_url (sources : list RSSSource) : SourceMap :=
  fold_left (fun m source => <[trim_space (rs_URL source) := source]> m) sources ∅.
Definition dry_source (userID : N) (name rawURL : string) (interval : Z) (enabled : bool) : RSSSource :=
  {| rs_ID := 0; rs_UserID := userID; rs_Name := name; rs_URL := rawURL; rs_IsEnabled := enabled;
     rs_RefreshIntervalSeconds := interval; rs_LastRefreshedAt := None; rs_LastError := None; rs_HealthStatus := "";
     rs_ConsecutiveFailures := 0; rs_LastSuccessAt := None; rs_NextRefreshAt := None; rs_LastRefreshStatus := "";
     rs_LastRefreshStatsJSON := ""; rs_CreatedAt := 0; rs_UpdatedAt := 0 |}.
Definition source_request (source : RSSImportSource) : RSSSourceUpsertRequest :=
  {| sr_Name := ms_Name source; sr_URL := ms_URL source; sr_IsEnabled := ms_IsEnabled source;
     sr_RefreshIntervalSeconds := ms_RefreshIntervalSeconds source |}.
Definition import_source (userID : N) (dryRun : bool) (now index : Z) (req : RSSImportSource) (known : SourceMap)
    : M GoErr World (SourceMap * RSSImportItemResult) :=
  let result := import_result index (trim_space (ms_URL req)) (trim_space (ms_Name req)) in
  input <-! lift_result (normalizeRSSSourceInput (source_request req))
    or err => ret (known, fillRSSImportError result err "RSS_SOURCE_NOT_FOUND") ;;
  let '(name, rawURL, interval) := input in
  let result := import_result index rawURL name in
  match known !! rawURL with
  | Some existing => ret (known, import_done result rssImportActionReuse (rs_ID existing))
  | None =>
      let enabled := boolDefault (ms_IsEnabled req) true in
      if dryRun then
        ret (<[rawURL := dry_source userID name rawURL interval enabled]> known, import_done result rssImportActionCreate 0)
      else
        source <-! RSSRepository_CreateSource (new_source userID name rawURL interval enabled now)
          or err => ret (known, fillRSSImportError result err "RSS_SOURCE_NOT_FOUND") ;;
        ret (<[rawURL := source]> known, import_done result rssImportActionCreate (rs_ID source))
  end.
Fixpoint import_sources (userID : N) (dryRun : bool) (now index : Z) (reqs : list RSSImportSource) (known : SourceMap)
    (section : RSSImportSectionResult) : M GoErr World (SourceMap * RSSImportSectionResult) :=
  match reqs with
  | [] => ret (known, section)
  | req :: rest =>
      r <-! import_source userID dryRun now index req known ;;
      import_sources userID dryRun now (index + 1) rest (fst r) (appendRSSImportResult section (snd r))
  end.
Definition import_request (sourceID : N) (req : RSSImportSubscription) : RSSSubscriptionUpsertRequest :=
  {| uq_SourceID := sourceID; uq_Name := mu_Name req; uq_IsEnabled := mu_IsEnabled req; uq_MustContain := mu_MustContain req;
     uq_MustNotContain := mu_MustNotContain req; uq_UseRegex := mu_UseRegex req; uq_CaseSensitive := mu_CaseSensitive req;
     uq_TargetVirtualParentPath := mu_TargetVirtualParentPath req; uq_DirectoryTemplate := mu_DirectoryTemplate req;
     uq_FilenameTemplate := mu_FilenameTemplate req |}.
Definition import_subscription (ctx : Ctx) (userID : N) (dryRun : bool) (now index : Z) (req : RSSImportSubscription)
    (known : SourceMap) : M GoErr Host RSSImportItemResult :=
  let sourceURL := firstNonEmpty [mu_SourceURL req; mu_SourceRef req] in
  let result := import_result index sourceURL (trim_space (mu_Name req)) in
  match known !! sourceURL with
  | None => ret (fillRSSImportError result ErrNotFound "RSS_SOURCE_NOT_FOUND")
  | Some source =>
      let upsertReq := import_request (rs_ID source) req in
      resolved <-! normalizeSubscriptionRequest ctx upsertReq
        or err => ret (fillRSSImportError result err "RSS_SUBSCRIPTION_NOT_FOUND") ;;
      if dryRun then ret (import_done result rssImportActionCreate 0)
      else
        subscription <-! on_world (RSSRepository_CreateSubscription (new_subscription userID upsertReq resolved now))
          or err => ret (fillRSSImportError result err "RSS_SUBSCRIPTION_NOT_FOUND") ;;
        ret (import_done result rssImportActionCreate (rsub_ID subscription))
  end.
Fixpoint import_subscriptions (ctx : Ctx) (userID : N) (dryRun : bool) (now index : Z) (reqs : list RSSImportSubscription)
    (known : SourceMap) (section : RSSImportSectionResult) : M GoErr Host RSSImportSectionResult :=
  match reqs with
  | [] => ret section
  | req :: rest =>
      result <-! import_subscription ctx userID dryRun now index req known ;;
      import_subscriptions ctx userID dryRun now (index + 1) rest known (appendRSSImportResult section result)
  end.
Definition own_sources (userID : N) : RSSSourceFilter := {| sf_UserID := userID; sf_IncludeAll := false; sf_Enabled := None |}.
Definition RSSService_ImportConfig (ctx : Ctx) (req : RSSImportRequest) : M GoErr Host RSSImportResponse :=
  auth <-! lift_result (currentRSSAuth ctx) ;;
  existing <-! on_world (RSSRepository_ListSources (own_sources (ra_UserID auth))) ;;
  now <-! on_world time_now ;;
  r <-! on_world (import_sources (ra_UserID auth) (mr_DryRun req) now 0 (mr_Sources req) (by_url existing) no_results) ;;
  subscriptions <-! import_subscriptions ctx (ra_UserID auth) (mr_DryRun req) now 0 (mr_Subscriptions req) (fst r) no_results ;;
  ret {| mp_DryRun := mr_DryRun req; mp_Sources := snd r; mp_Subscriptions := subscriptions |}.
End Service.
