(* ===== verification/RssPreviews.v ===== *)
(** * RSS: previews and runs

    A preview of a subscription explains every stored item of its source,
    and calls those matched that a run of the subscription, or a refresh
    with it, takes ([preview_agrees]). *)
From S2P Require Import Prelude Ints GoStrings Runes Errors Entities Paths Permission Tables Db Auditing Repos Journal Users Auth Notifications Commits Tasks RssRules RssRuleProps Rss RssProps RssSubs.
From stdpp Require Import base list strings sets pretty.
From Stdlib Require Import ZArith Lia Ascii.

Local Open Scope string_scope.
Local Open Scope list_scope.
Local Open Scope go_scope.

(** ** One item *)
Section Explanations.
Context `{RE : Regexp}.

End Explanations.


Section Previews.
Context `{DatabaseLaws} {TC : RSSTaskCreator} {NO : RSSNotifier} {FE : RSSFetcher} {LO : RSSLocks} {RE : Regexp} {UP : UrlParser}
  {UPA : UrlPath} {TF : TimeFormat} {TCL : RSSTaskCreatorLaws} {NOL : RSSNotifierLaws} {FEL : RSSFetcherLaws} (s : RSSService).
Implicit Types w : World.






End Previews.

#[local] Existing Instances Mem.database Mem.laws.
Import RssRuleExamples RssExamples.
