(* ===== verification/RssSubProps.v ===== *)
(** * RSS: what is stored about subscriptions

    Every request keeps the subscriptions valid, so that the target of each
    renders for every item ([subscriptions_stay_valid]); an import answers
    for each entry, and a dry run stores nothing ([import_accounts]). *)
From S2P Require Import Prelude Ints GoStrings Runes Errors Entities Paths Mounts Permission Tables Db Auditing Repos Acl AclService Journal Users Auth Notifications MetaTree Storage Files Uploads UploadProps Commits Tasks RssRules RssRuleProps Rss RssProps RssSubs.
From stdpp Require Import base list strings gmap sets pretty.
From Stdlib Require Import ZArith Lia Ascii.

Local Open Scope string_scope.
Local Open Scope list_scope.
Local Open Scope go_scope.

(** ** Text *)
Lemma contains_cons a s p : contains s p = true -> contains (String a s) p = true.
Proof. intros (u & v & ->)%contains_spec. apply contains_spec. by exists (String a u), v. Qed.
Lemma split_on_parts c s :
  (exists w ws, split_on c s = w :: ws /\ has_prefix s w = true) /\ Forall (fun x => contains s x = true) (split_on c s).
Proof.
  induction s as [|a s [(w & ws & E & Hp) IH]]; cbn [split_on]; [split; [by exists "", []|by constructor]|].
  assert (Forall (fun x => contains (String a s) x = true) (split_on c s)) as Hall.
  { eapply Forall_impl; [exact IH|]. intros x. apply contains_cons. }
  destruct (Ascii.eqb a c).
  - split; [by exists "", (split_on c s)|]. constructor; [|done]. apply contains_spec. by exists "", (String a s).
  - rewrite E in Hall |- *. apply Forall_cons in Hall as [_ Hws]. apply has_prefix_spec in Hp as [r ->].
    split; [exists (String a w), ws; split; [done|apply has_prefix_spec; by exists r]|].
    constructor; [|done]. apply contains_spec. by exists "", r.
Qed.
(** A rooted path without ".." is valid, whatever else it holds. *)
Lemma clean_segs_subset p x : x ∈ clean_segs true p -> x ∈ split_on slash p.
Proof.
  unfold clean_segs. rewrite list_elem_of_In, <- in_rev, <- list_elem_of_In.
  assert (forall l st, x ∈ fold_left (clean_step true) l st -> x ∈ l \/ x ∈ st) as Hf.
  { induction l as [|a l IH]; intros st; cbn; [by right|]. intros [Hx|Hx]%IH; [left; by right|].
    revert Hx. unfold clean_step. repeat case_match; intros Hx; rewrite ?elem_of_cons in *; naive_solver. }
  intros Hx%Hf. destruct Hx as [|Hx]; [done|]. by apply elem_of_nil in Hx.
Qed.
Lemma normalize_no_dots p : has_prefix p "/" = true -> contains p ".." = false -> exists q, normalizeVirtualPath p = Ok q.
Proof.
  intros Hp Hd. rewrite normalize_unfold, Hp, orb_true_r, good_segs_split, clean_segs_plain. cbn [andb].
  destruct (existsb _ _) eqn:E; [|by eexists]. apply existsb_exists in E as (x & Hx & Hc).
  apply list_elem_of_In, clean_segs_subset in Hx. destruct (split_on_parts slash p) as [_ Hall].
  rewrite Forall_forall in Hall. apply Hall in Hx. by rewrite (part_lacks _ _ _ Hx Hd) in Hc.
Qed.
Lemma rooted_not_space p : has_prefix p "/" = true -> first_space space_runes p = None.
Proof. intros [r ->]%has_prefix_spec. reflexivity. Qed.
Lemma canonical_trim p : canonical p -> exists base, normalizeVirtualPath (trim_space p) = Ok base.
Proof.
  intros (l & Hl & ->). set (p := render l). assert (has_prefix p "/" = true) as Hp by apply render_rooted.
  assert (trim_left p = p) as E by (apply trim_left_none, rooted_not_space, Hp).
  destruct (trim_right_split p) as (w & Hw & Hs). apply normalize_no_dots.
  - unfold trim_space. rewrite E. destruct (trim_right p) as [|a q] eqn:Eq.
    + exfalso. cbn in Hw. rewrite <- Hw in Hs. apply all_space_spec in Hs. unfold all_space in Hs. rewrite E in Hs. by destruct p.
    + apply has_prefix_spec in Hp as [r Hr]. rewrite Hw in Hr. injection Hr as -> _. by apply (has_prefix_app "/").
  - apply (part_lacks p); [apply trim_space_part|]. unfold p. rewrite contains_dots.
    rewrite good_segs_split in Hl. apply andb_true_iff in Hl as [_ Hl]. by apply negb_true_iff in Hl.
Qed.
Lemma trim_list_twice l : trimStringList (trimStringList l) = trimStringList l.
Proof.
  unfold trimStringList. induction l as [|x l IH]; [done|]. cbn [map List.filter].
  destruct (negb (String.eqb (trim_space x) "")) eqn:E; [|done]. cbn [map List.filter]. by rewrite trim_space_twice, E, IH.
Qed.

(** ** The parents of a path get shorter *)
Definition weight (l : list string) : nat := list_sum (map (fun x => S (String.length x)) l).
Lemma weight_cons x l : weight (x :: l) = S (String.length x) + weight l.
Proof. done. Qed.
Lemma weight_split c s : weight (split_on c s) = S (String.length s).
Proof.
  induction s as [|a s IH]; [done|]. cbn [split_on String.length]. destruct (Ascii.eqb a c); [by rewrite weight_cons, IH|].
  destruct (split_on c s) as [|w ws] eqn:E; [by destruct (split_on_not_nil c s)|]. rewrite weight_cons in IH |- *. cbn in *. lia.
Qed.
Lemma weight_step rooted st x : weight (clean_step rooted st x) <= weight st + S (String.length x).
Proof.
  unfold clean_step. destruct (String.eqb_spec x ""), (String.eqb_spec x "."), (String.eqb_spec x ".."); subst; repeat case_match; subst; rewrite ?weight_cons; cbn [String.length]; lia.
Qed.
Lemma weight_walk rooted l st : weight (fold_left (clean_step rooted) l st) <= weight st + weight l.
Proof.
  revert st; induction l as [|x l IH]; intros st; cbn [fold_left]; [lia|]. etransitivity; [apply IH|].
  pose proof (weight_step rooted st x). rewrite weight_cons. lia.
Qed.
Lemma weight_snoc l x : weight (l ++ [x]) = weight l + S (String.length x).
Proof. induction l as [|y l IH]; [cbn; unfold weight; cbn; lia|]. cbn [app]. rewrite !weight_cons, IH. lia. Qed.
Lemma weight_rev l : weight (rev l) = weight l.
Proof. induction l as [|x l IH]; [done|]. cbn [rev]. rewrite weight_snoc, weight_cons, IH. lia. Qed.
Lemma render_tail_length l : String.length (render_tail l) = weight l.
Proof.
  induction l as [|x l IH]; [done|]. rewrite weight_cons, <- IH. change (render_tail (x :: l)) with ("/" +:+ x +:+ render_tail l).
  rewrite !length_append. done.
Qed.
Lemma path_clean_length p : p <> "" -> String.length (path_clean p) <= String.length p.
Proof.
  intros Hp. assert (1 <= String.length p) as H1 by (destruct p; [done|cbn; lia]).
  assert (forall rooted l, weight (rev (fold_left (clean_step rooted) l [])) <= weight l) as Hw.
  { intros rooted l. rewrite weight_rev. apply weight_walk. }
  unfold path_clean. apply String.eqb_neq in Hp as ->. destruct (has_prefix p "/") eqn:Er.
  - apply has_prefix_spec in Er as [r ->]. unfold clean_segs. change (split_on slash ("/" +:+ r)) with ("" :: split_on slash r).
    specialize (Hw true (split_on slash r)). rewrite weight_split in Hw. change (fold_left (clean_step true) ("" :: split_on slash r) [])
      with (fold_left (clean_step true) (split_on slash r) []). revert Hw. generalize (rev (fold_left (clean_step true) (split_on slash r) [])).
    intros l Hw. assert (String.length ("/" +:+ r) = S (String.length r)) as -> by done.
    destruct l as [|x l]; [cbn; lia|]. change (render (x :: l)) with (render_tail (x :: l)). by rewrite render_tail_length.
  - unfold clean_segs. specialize (Hw false (split_on slash p)). rewrite weight_split in Hw. destruct (rev _) as [|x l]; [cbn; lia|].
    rewrite length_append, render_tail_length. rewrite weight_cons in Hw. lia.
Qed.
Lemma path_clean_trailing r : r <> "" -> path_clean (r +:+ "/") = path_clean r.
Proof.
  intros Hr. assert (forall s, split_on slash (s +:+ "/") = split_on slash s ++ [""]) as Hs.
  { induction s as [|a s IH]; [done|]. cbn [String.append split_on]. rewrite IH. destruct (Ascii.eqb a slash); [done|].
    destruct (split_on slash s) eqn:E; [by destruct (split_on_not_nil slash s)|done]. }
  assert (forall b, clean_segs b (r +:+ "/") = clean_segs b r) as Hc.
  { intros b. unfold clean_segs. by rewrite Hs, fold_left_app. }
  assert (forall a t, has_prefix (String a t) "/" = Ascii.eqb "/" a) as Hp.
  { intros a t. apply eq_true_iff_eq. rewrite has_prefix_spec, Ascii.eqb_eq. split; [by intros [x [= -> _]]|by intros <-; exists t]. }
  unfold path_clean. rewrite !Hc. destruct r as [|a r]; [done|]. change (String a r +:+ "/") with (String a (r +:+ "/")). by rewrite !Hp.
Qed.
Lemma split_last_dir p : p = fst (split_last p) +:+ snd (split_last p) /\
  (fst (split_last p) = "" \/ exists d, fst (split_last p) = d +:+ "/").
Proof.
  induction p as [|a p [IH1 IH2]]; [by split; [|left]|]. cbn [split_last]. destruct (split_last p) as [d f]. cbn in IH1, IH2.
  destruct (String.eqb_spec d "") as [->|Hd].
  - destruct (Ascii.eqb_spec a slash) as [->|]; cbn; rewrite IH1 at 1; (split; [done|]); [right; by exists ""|by left].
  - cbn. split; [by rewrite IH1 at 1|]. right. destruct IH2 as [|[d' ->]]; [done|]. by exists (String a d').
Qed.
Lemma path_dir_shorter p : path_dir p <> p -> path_dir p <> "." -> String.length (path_dir p) < String.length p.
Proof.
  destruct (split_last_dir p) as [E Hd]. unfold path_dir. destruct Hd as [->|[d Ed]]; [done|].
  rewrite Ed in *. intros Hne _. assert (String.length p = S (String.length d) + String.length (snd (split_last p))) as Hl.
  { rewrite E at 1. rewrite !length_append. cbn. lia. }
  destruct (decide (d = "")) as [->|Hn].
  - cbn in Hl. change (path_clean ("" +:+ "/")) with "/" in Hne |- *. cbn. destruct (snd (split_last p)); [by rewrite E in Hne|cbn in Hl; lia].
  - rewrite path_clean_trailing by done. pose proof (path_clean_length d Hn). lia.
Qed.
(** The fuel of [probe_parents] is enough. *)
Lemma probe_fuel `{Database} fuel p h : String.length p < fuel -> probe_parents fuel p h = probe_parents (S (String.length p)) p h.
Proof.
  revert p h. assert (forall n fuel p h, String.length p < n -> String.length p < fuel -> probe_parents fuel p h = probe_parents n p h) as Hall.
  { induction n as [|n IH]; intros [|fuel'] p h Hn Hf; try lia. cbn [probe_parents]. unfold bind_or.
    destruct (on_disk (Stat p) h) as [[info|e] h']; [done|]. destruct e; try done.
    destruct (String.eqb_spec (path_dir p) p); [done|]. destruct (String.eqb_spec (path_dir p) "."); [done|]. cbn [orb].
    pose proof (path_dir_shorter p). apply IH; lia || (assert (String.length (path_dir p) < String.length p) by auto; lia). }
  intros p h Hp. apply Hall; [lia|done].
Qed.

(** ** The name of a copy is free *)
Lemma free_copy_free base used n i : (0 <= i)%Z ->
  free_copy n base used i ∉ used \/ forall k, (0 <= k < Z.of_nat n)%Z -> base +:+ " Copy " +:+ pretty (i + k)%Z ∈ used.
Proof.
  revert i; induction n as [|n IH]; intros i Hi; [by right; lia|]. cbn [free_copy]. destruct (decide _) as [Hin|]; [|by left].
  destruct (IH (i + 1)%Z) as [Hf|Hall]; [lia|by left|]. right. intros k Hk.
  destruct (decide (k = 0%Z)) as [->|]; [by rewrite Z.add_0_r|]. replace (i + k)%Z with (i + 1 + (k - 1))%Z by lia. apply Hall. lia.
Qed.
Lemma clone_name_free original existing : clone_name original existing ∉ names_used original existing.
Proof.
  unfold clone_name. set (used := names_used original existing). set (base := clone_base original). clearbody used base.
  destruct (decide _) as [Hc|]; [|done]. destruct (free_copy_free base used (size used) 2) as [|Hall]; [lia|done|]. exfalso.
  set (f := fun k => base +:+ " Copy " +:+ pretty (2 + Z.of_nat k)%Z).
  set (names := (base +:+ " Copy") :: map f (seq 0 (size used))).
  assert (NoDup names) as Hnd.
  { constructor.
    - intros (k & E & _)%list_elem_of_fmap. unfold f in E. apply append_inj_l in E. discriminate.
    - apply NoDup_fmap_2_strong; [|apply NoDup_seq]. intros x y _ _ E. unfold f in E.
      apply append_inj_l, (append_inj_l " Copy ") in E. apply (inj pretty) in E. lia. }
  assert (size (list_to_set names : gset string) = S (size used)) as Hsize.
  { rewrite size_list_to_set by done. unfold names. cbn. by rewrite length_map, length_seq. }
  assert ((list_to_set names : gset string) ⊆ used) as Hsub%subseteq_size; [|lia].
  intros x [->|(k & -> & Hk)%list_elem_of_fmap]%elem_of_list_to_set%elem_of_cons; [done|].
  apply elem_of_seq in Hk. apply Hall. lia.
Qed.

(** ** A subscription *)
Section Valid.
Context {RE : Regexp}.
(** What a request is checked for, of what is stored. *)
Definition sub_ok (u : RSSSubscription) : Prop :=
  rsub_Name u <> "" /\
  validateRSSRulePatterns (rsub_MustContain u) (rsub_MustNotContain u) (rsub_UseRegex u) = Ok tt /\
  validateRSSDirectoryTemplate (rsub_DirectoryTemplate u) = Ok tt /\
  validateRSSFilenameTemplate (rsub_FilenameTemplate u) = Ok tt /\
  canonical (rsub_TargetVirtualParentPath u).
Lemma sub_ok_same u v : rsub_Name v <> "" -> sub_ok u ->
  (rsub_MustContain v, rsub_MustNotContain v, rsub_UseRegex v, rsub_DirectoryTemplate v, rsub_FilenameTemplate v,
   rsub_TargetVirtualParentPath v) =
  (rsub_MustContain u, rsub_MustNotContain u, rsub_UseRegex u, rsub_DirectoryTemplate u, rsub_FilenameTemplate u,
   rsub_TargetVirtualParentPath u) -> sub_ok v.
Proof. intros Hn (_ & H1 & H2 & H3 & H4) [= E1 E2 E3 E4 E5 E6]. unfold sub_ok. by rewrite E1, E2, E3, E4, E5, E6. Qed.
(** What a normalized request comes to. *)
Definition request_ok (req : RSSSubscriptionUpsertRequest) (resolved : resolvedRSSSubscriptionTarget) : Prop :=
  trim_space (uq_Name req) <> "" /\
  validateRSSRulePatterns (uq_MustContain req) (uq_MustNotContain req) (uq_UseRegex req) = Ok tt /\
  validateRSSDirectoryTemplate (rg_directoryTemplate resolved) = Ok tt /\
  validateRSSFilenameTemplate (rg_filenameTemplate resolved) = Ok tt /\
  canonical (rg_targetVirtualParentPath resolved).
Lemma new_ok userID req resolved now : request_ok req resolved -> sub_ok (new_subscription userID req resolved now).
Proof.
  intros (Hn & Hp & Hd & Hf & Ht). split_and!; [done| |done..]. cbn.
  unfold validateRSSRulePatterns in *. by rewrite !trim_list_twice.
Qed.
Lemma changed_ok u req resolved now : request_ok req resolved -> sub_ok (changed_subscription u req resolved now).
Proof. intros Hr. destruct Hr as [Hn Hr]. by apply (sub_ok_same (new_subscription (rsub_UserID u) req resolved now)); [|apply new_ok|]. Qed.
(** Its directory renders for every item, below the target. *)
Lemma sub_ok_renders u item : sub_ok u -> exists base path,
  normalizeVirtualPath (trim_space (rsub_TargetVirtualParentPath u)) = Ok base /\
  renderRSSTargetVirtualParentPath u item = Ok path /\ isSubPath base path = true.
Proof.
  intros (_ & _ & Hd & _ & Ht). destruct (canonical_trim _ Ht) as [base Hb].
  destruct (target_renders u item base Hb Hd) as (out & Hr & Hs & _). by exists base, (render (segs base ++ out)).
Qed.
End Valid.

(** ** What the collaborators leave alone *)
Definition beside_subscriptions : list Table :=
  [TUser; TToken; TRule; TSource; TConfig; TNode; TObject; TOperation; TAudit; TUpload; TMount; TTag; TNodeTag; TChannel;
   TNotification; TShare; TTrash; TRssSource; TRssItem; TTask].
Class RSSKeepSubscriptions `{DatabaseLaws} {TC : RSSTaskCreator} {NO : RSSNotifier} : Prop := {
  create_keeps : forall ctx req, within beside_subscriptions (CreateTask ctx req);
  notify_keeps : forall input, within beside_subscriptions (RSSNotify input)
}.
Class QBitHealthLaws `{DatabaseLaws} {HC : QBitHealthChecker} : Prop := health_law : within [] QBitHealthOf.

Section Requests.
Context `{DatabaseLaws} {TC : RSSTaskCreator} {NO : RSSNotifier} {FE : RSSFetcher} {LO : RSSLocks} {RE : Regexp} {UP : UrlParser}
  {UPA : UrlPath} {TF : TimeFormat} {JD : JsonDecoder} {MR : MetadataReader} {MRL : MetadataReaderLaws} {WT : WritableTargetResolver}
  {WTL : WritableTargetLaws} {HC : QBitHealthChecker} {HCL : QBitHealthLaws} {KS : RSSKeepSubscriptions} (s : RSSService)
  (vfsResolver metadataReader healthChecker : bool) (aclAuthorizer : option ACLAuthorizer).
Implicit Types w : World.

(** *** The check of a target *)
Lemma within_rss_node ts p : within ts (rss_nodeID metadataReader p).
Proof.
  unfold rss_nodeID, resolveMetadataVFSNodeID. destruct metadataReader; [|apply within_ret].
  destruct (String.eqb _ ""); [apply within_ret|]. destruct (normalizeVirtualPath p); [|apply within_ret].
  apply within_bind_or; [eapply within_mono; [apply reads_path|set_solver]|intros ?; apply within_ret..].
Qed.
Notation validate := (validateWritableTarget vfsResolver metadataReader aclAuthorizer).
Notation normalize := (normalizeSubscriptionRequest vfsResolver metadataReader aclAuthorizer).
Lemma validate_target ctx p : returns (validate ctx p) (fun r => canonical (rg_targetVirtualParentPath r)).
Proof.
  unfold validateWritableTarget. apply (returns_bind _ _ canonical).
  { apply returns_lift. intros q. apply normalize_canonical. }
  intros q Hq. destruct (negb vfsResolver); [apply returns_throw|].
  apply (returns_bind _ _ (fun _ => True)); [apply returns_any|]. intros r _. destruct (rp_Source r); [|apply returns_throw].
  apply (returns_bind _ _ (fun _ => True)); [apply returns_any|]. intros [parent name] _.
  do 3 (apply (returns_bind _ _ (fun _ => True)); [apply returns_any|]; intros ? _). by apply returns_ret.
Qed.
Lemma normalize_request ctx req : returns (normalize ctx req) (request_ok req).
Proof.
  unfold normalizeSubscriptionRequest. destruct (String.eqb_spec (trim_space (uq_Name req)) ""); [apply returns_throw|].
  apply (returns_bind _ _ (fun _ => validateRSSRulePatterns (uq_MustContain req) (uq_MustNotContain req) (uq_UseRegex req) = Ok tt)).
  { apply returns_lift. by intros []. }
  intros _ Hp. apply (returns_bind _ _ (fun _ => validateRSSDirectoryTemplate (trim_space (uq_DirectoryTemplate req)) = Ok tt)).
  { apply returns_lift. by intros []. }
  intros _ Hd. apply (returns_bind _ _ (fun _ => validateRSSFilenameTemplate (trim_space (uq_FilenameTemplate req)) = Ok tt)).
  { apply returns_lift. by intros []. }
  intros _ Hf. eapply returns_bind; [apply validate_target|]. intros r Hr. by apply returns_ret.
Qed.

Section Target.
Context (dir : string) (I : World -> Prop) (Iquiet : forall w w', I w -> frames [] w w' -> I w').
Notation keeps_ m := (hkeeps dir I (fun _ => True) m).
Lemma winv_reads {A} (m : M GoErr World A) : within [] m -> winv I m.
Proof. by apply winv_within. Qed.
Lemma keeps_probe fuel p : p <> "" -> keeps_ (probe_parents fuel p).
Proof.
  revert p; induction fuel as [|fuel IH]; intros p Hp; cbn [probe_parents]; [apply hkeeps_throw|].
  hframe_tac; [|by apply dwithin_probe]. apply IH. unfold path_dir. apply clean_not_nil.
Qed.
Lemma keeps_local source p : keeps_ (ensureLocalTargetWritable source p).
Proof.
  unfold ensureLocalTargetWritable. apply hkeeps_bind_lift. intros [b t] E. by apply keeps_probe, (physical_nonempty source p b).
Qed.
Lemma keeps_validate ctx p : keeps_ (validate ctx p).
Proof.
  unfold validateWritableTarget. hframe_tac.
  - apply winv_reads, resolver_law.
  - apply winv_reads, authorize_path_within.
  - apply keeps_local.
  - apply winv_reads, within_rss_node.
Qed.
Lemma keeps_normalize ctx req : keeps_ (normalize ctx req).
Proof. unfold normalizeSubscriptionRequest. hframe_tac. apply keeps_validate. Qed.
End Target.

(** *** Runs change no subscription *)
Notation beside m := (within beside_subscriptions m).
Lemma within_emit_rss input : beside (emitRSSNotification s input).
Proof. unfold emitRSSNotification. destruct (rss_notifier s); [apply within_ignore, notify_keeps|auto with frame]. Qed.
Lemma within_write_item i : beside (RSSRepository_UpdateItem i).
Proof. unfold RSSRepository_UpdateItem. frame_tac. Qed.
Lemma within_create ctx req : beside (CreateTask ctx req).
Proof. apply create_keeps. Qed.
#[local] Hint Resolve within_emit_rss within_write_item within_active within_owner within_create : frame.
#[local] Hint Extern 1 (within _ (ignore_error _)) => apply within_ignore : frame.
Lemma within_store_failed prev i err : beside (store_failed s prev i err).
Proof. unfold store_failed, succeeds, notifyRSSItemNeedsAttention. frame_tac. Qed.
#[local] Hint Resolve within_store_failed : frame.
Lemma within_mark i id err now count : beside (markItemRetryOrAttention s i id err now count).
Proof. unfold markItemRetryOrAttention, preserveRSSItemCompletedResult. frame_tac. Qed.
Lemma within_attempt ctx i sub count : beside (attempt_item s ctx i sub count).
Proof. unfold attempt_item. frame_tac. Qed.
#[local] Hint Resolve within_mark within_attempt : frame.
Lemma within_free id : beside (gets (item_free id)).
Proof. intros w. apply frames_refl. Qed.
#[local] Hint Resolve within_free : frame.
Lemma within_enqueue ctx i sub : beside (enqueueItem s ctx i sub).
Proof. unfold enqueueItem, enqueueItemWithAttempt, RSSRepository_FindItemByID. frame_tac. Qed.
#[local] Hint Resolve within_enqueue : frame.
Lemma within_process ctx i subs stats : beside (processItem s ctx i subs stats).
Proof. unfold processItem, process_match. frame_tac. Qed.
#[local] Hint Resolve within_process : frame.
Lemma within_run_items ctx sub items stats : beside (run_items s ctx sub items stats).
Proof.
  revert stats; induction items as [|i items IH]; intros stats; [apply within_ret|]. cbn [run_items]. unfold run_item. frame_tac.
Qed.

(** *** The stored subscriptions *)
Definition subscriptions w : list RSSSubscription := tbl TRssSubscription w.
Definition all_ok w : Prop := Forall sub_ok (subscriptions w).
Lemma ok_frames ts w w' : TRssSubscription ∉ ts -> all_ok w -> frames ts w w' -> all_ok w'.
Proof. intros Ht Ho Hf. unfold all_ok, subscriptions. by rewrite (frames_tbl ts w w' TRssSubscription Hf Ht). Qed.
Lemma winv_beside {A} (m : M GoErr World A) : beside m -> winv all_ok m.
Proof. apply winv_within. intros w w'. apply ok_frames. set_solver. Qed.
Lemma winv_quiet_ok {A} (m : M GoErr World A) : within [] m -> winv all_ok m.
Proof. apply winv_within. intros w w'. apply ok_frames. set_solver. Qed.
Lemma ok_same w w' : all_ok w -> same w w' -> all_ok w'.
Proof. intros Ho Hs. by apply (ok_frames [] w); [set_solver|..|apply same_frames]. Qed.

Lemma winv_create_sub u : sub_ok u -> winv all_ok (RSSRepository_CreateSubscription u).
Proof.
  intros Hu w Ho. apply wp_bind, (wp_insert TRssSubscription); [intros e w' Hs _; by apply (ok_same w)|].
  intros id now w' r _ _ Hp. assert (all_ok w') as Ho'.
  { unfold all_ok, subscriptions. rewrite (proj1 Hp). apply Forall_app. split; [exact Ho|]. constructor; [exact Hu|constructor]. }
  destruct (negb (rsub_IsEnabled u)); [|exact Ho'].
  apply wp_bind, (wp_update_at TRssSubscription); [intros e w'' Hs _; by apply (ok_same w')|].
  intros now' w'' l _ Hp'. apply wp_ret. unfold all_ok, subscriptions. rewrite (proj1 Hp'). apply Forall_forall.
  intros y [(x & Hx & _ & ->)|[Hy _]]%elem_of_set_where; unfold all_ok in Ho'; rewrite Forall_forall in Ho'; [|by apply Ho'].
  apply (sub_ok_same x); [exact (proj1 (Ho' x Hx))|exact (Ho' x Hx)|done].
Qed.
Lemma winv_update_sub u : sub_ok u -> winv all_ok (RSSRepository_UpdateSubscription u).
Proof.
  intros Hu w Ho. apply (wp_update_found TRssSubscription); [intros e w' Hs _; by apply (ok_same w)|intros w' Hs _; by apply (ok_same w)|].
  intros now w' l _ _ Hp. unfold all_ok, subscriptions. rewrite (proj1 Hp). apply Forall_forall.
  intros y [(x & Hx & _ & ->)|[Hy _]]%elem_of_set_where; [exact (sub_ok_same u _ (proj1 Hu) Hu eq_refl)|].
  unfold all_ok in Ho. rewrite Forall_forall in Ho. by apply Ho.
Qed.
Lemma winv_delete_sub id : winv all_ok (RSSRepository_DeleteSubscription id).
Proof.
  intros w Ho. apply (wp_delete_found TRssSubscription); [intros e w' Hs _; by apply (ok_same w)|intros w' Hs _; by apply (ok_same w)|].
  intros w' _ Hp. unfold all_ok, subscriptions. rewrite (proj1 Hp). unfold all_ok in Ho. rewrite !Forall_forall in *.
  intros y [Hy _]%elem_of_sel. by apply Ho.
Qed.
Lemma winv_bind_owned {B} ctx id (k : RSSSubscription -> M GoErr World B) :
  (forall u, sub_ok u -> winv all_ok (k u)) -> winv all_ok (bind (find_owned_subscription ctx id) k).
Proof.
  apply (winv_bind_post all_ok sub_ok). intros w Ho. apply wp_bind, (wp_first TRssSubscription).
  - intros e w' Hs _. split; [by apply (ok_same w)|done].
  - intros w' Hs _. split; [by apply (ok_same w)|done].
  - intros u w' Hs Hu _ _. apply wp_bind, wp_lift_result. destruct (authorizeRSSOwner ctx (rsub_UserID u)); (split; [by apply (ok_same w)|]); [|done].
    unfold all_ok in Ho. rewrite Forall_forall in Ho. by apply Ho.
Qed.

(** *** Names of copies *)
Lemma returns_clone_name original : returns (defaultRSSSubscriptionCloneName original) (fun name => name <> "").
Proof.
  assert (forall a b : string, a <> "" -> a +:+ b <> "") as Happ by (intros [|c a] b Ha; [done|discriminate]).
  assert (clone_base original <> "") as Hb by (unfold clone_base; by destruct (String.eqb_spec (trim_space (rsub_Name original)) "")).
  unfold defaultRSSSubscriptionCloneName. apply (returns_bind_or _ _ _ (fun _ => True)); [apply returns_any| |].
  - intros e. apply returns_ret. by apply Happ.
  - intros l _. apply returns_ret. unfold clone_name. destruct (decide _); [|by apply Happ].
    generalize (size (names_used original l)) 2%Z. intros n. induction n as [|n IH]; intros i; cbn [free_copy]; [by apply Happ|].
    destruct (decide _); [apply IH|by apply Happ].
Qed.

(** *** The requests *)
#[local] Hint Resolve within_owned_source within_subscriptions : frame.
Lemma winv_clone ctx id req : winv all_ok (RSSService_CloneSubscription ctx id req).
Proof.
  apply winv_bind_owned. intros u Hu. apply (winv_bind_post all_ok (fun name => name <> "")).
  - intros w Ho. apply wp_conj.
    + apply (winv_quiet_ok (if String.eqb (trim_space (cq_Name req)) "" then _ else _)); [|done].
      unfold defaultRSSSubscriptionCloneName. frame_tac.
    + destruct (String.eqb_spec (trim_space (cq_Name req)) ""); [apply returns_clone_name|by apply wp_ret].
  - intros name Hn. apply winv_bind; [apply winv_quiet_ok; auto with frame|]. intros now.
    apply winv_bind; [|intros ?; apply winv_ret]. by apply winv_create_sub, (sub_ok_same u).
Qed.
Lemma winv_set_state ctx enabled now id : winv all_ok (set_state ctx enabled now id).
Proof.
  apply winv_bind_owned. intros u Hu. apply winv_bind; [|intros ?; apply winv_ret].
  apply winv_update_sub, (sub_ok_same u); [exact (proj1 Hu)|done|done].
Qed.
Lemma winv_batch ctx enabled now ids resp : winv all_ok (batch_states ctx enabled now ids resp).
Proof.
  revert resp; induction ids as [|id ids IH]; intros resp; cbn [batch_states]; [apply winv_ret|].
  apply winv_bind_or; [apply winv_set_state|auto..].
Qed.

Section Host.
Context (dir : string).
Notation keeps_ m := (hkeeps dir all_ok (fun _ => True) m).
Lemma keeps_read {A} (m : M GoErr World A) : within [] m -> keeps_ (on_world m).
Proof. intros Hm. by apply hkeeps_world, winv_quiet_ok. Qed.
Lemma ok_reads w w' : all_ok w -> frames [] w w' -> all_ok w'.
Proof. apply ok_frames. set_solver. Qed.
Lemma keeps_create ctx req : keeps_ (RSSService_CreateSubscription vfsResolver metadataReader aclAuthorizer ctx req).
Proof.
  unfold RSSService_CreateSubscription. apply hkeeps_bind_lift. intros auth _.
  apply hkeeps_bind; [apply keeps_read; auto with frame|]. intros _.
  eapply hkeeps_bind_returns; [exact (keeps_normalize dir all_ok ok_reads ctx req)|apply normalize_request|]. intros r Hr.
  apply hkeeps_bind; [apply keeps_read; auto with frame|]. intros now.
  apply hkeeps_bind; [by apply hkeeps_world, winv_create_sub, new_ok|]. intros ?. apply hkeeps_ret.
Qed.
Lemma keeps_update ctx id req : keeps_ (RSSService_UpdateSubscription vfsResolver metadataReader aclAuthorizer ctx id req).
Proof.
  unfold RSSService_UpdateSubscription. apply hkeeps_bind.
  { apply keeps_read. unfold find_owned_subscription, RSSRepository_FindSubscriptionByID. frame_tac. }
  intros u. apply hkeeps_bind; [apply keeps_read; auto with frame|]. intros _.
  eapply hkeeps_bind_returns; [exact (keeps_normalize dir all_ok ok_reads ctx req)|apply normalize_request|]. intros r Hr.
  apply hkeeps_bind; [apply keeps_read; auto with frame|]. intros now. cbv zeta.
  apply hkeeps_bind; [by apply hkeeps_world, winv_update_sub, changed_ok|]. intros ?. apply hkeeps_ret.
Qed.
Lemma keeps_import_subscription ctx userID dryRun now index req known :
  keeps_ (import_subscription vfsResolver metadataReader aclAuthorizer ctx userID dryRun now index req known).
Proof.
  unfold import_subscription. destruct (known !! _) as [source|]; [|apply hkeeps_ret]. cbv zeta.
  eapply hkeeps_bind_or_returns; [exact (keeps_normalize dir all_ok ok_reads _ _)|apply normalize_request|intros e; apply hkeeps_ret|].
  intros r Hr. destruct dryRun; [apply hkeeps_ret|].
  apply hkeeps_bind_or; [by apply hkeeps_world, winv_create_sub, new_ok|intros ?; apply hkeeps_ret..].
Qed.
Lemma keeps_import_subscriptions ctx userID dryRun now reqs : forall index known section,
  keeps_ (import_subscriptions vfsResolver metadataReader aclAuthorizer ctx userID dryRun now index reqs known section).
Proof.
  induction reqs as [|req reqs IH]; intros index known section; cbn [import_subscriptions]; [apply hkeeps_ret|].
  apply hkeeps_bind; [apply keeps_import_subscription|]. intros r. apply IH.
Qed.
End Host.

Lemma within_import_source userID (dryRun : bool) now index req known :
  within (if dryRun then [] else [TRssSource]) (import_source userID dryRun now index req known).
Proof.
  unfold import_source. apply within_bind_or; [apply within_lift|intros e; apply within_ret|]. intros [[name rawURL] interval].
  destruct (known !! rawURL); [apply within_ret|]. destruct dryRun; [apply within_ret|]. unfold RSSRepository_CreateSource. frame_tac.
Qed.
Lemma within_import_sources userID (dryRun : bool) now reqs : forall index known section,
  within (if dryRun then [] else [TRssSource]) (import_sources userID dryRun now index reqs known section).
Proof.
  induction reqs as [|req reqs IH]; intros index known section; cbn [import_sources]; [apply within_ret|].
  apply within_bind; [apply within_import_source|]. intros r. apply IH.
Qed.
Lemma keeps_import_config dir ctx req : hkeeps dir all_ok (fun _ => True) (RSSService_ImportConfig vfsResolver metadataReader aclAuthorizer ctx req).
Proof.
  unfold RSSService_ImportConfig. apply hkeeps_bind_lift. intros auth _.
  apply hkeeps_bind; [apply keeps_read; unfold RSSRepository_ListSources; auto with frame|]. intros existing.
  apply hkeeps_bind; [apply keeps_read; auto with frame|]. intros now.
  apply hkeeps_bind.
  { apply hkeeps_world, winv_beside. eapply within_mono; [apply within_import_sources|]. destruct (mr_DryRun req); set_solver. }
  intros r. apply hkeeps_bind; [apply keeps_import_subscriptions|]. intros ?. apply hkeeps_ret.
Qed.

(** ** Any sequence of requests *)
Inductive SubOp : Type :=
| OpListSubscriptions (ctx : Ctx) (sourceID : N) | OpCreateSubscription (ctx : Ctx) (req : RSSSubscriptionUpsertRequest)
| OpCloneSubscription (ctx : Ctx) (id : N) (req : RSSSubscriptionCloneRequest) | OpGetSubscription (ctx : Ctx) (id : N)
| OpUpdateSubscription (ctx : Ctx) (id : N) (req : RSSSubscriptionUpsertRequest) | OpDeleteSubscription (ctx : Ctx) (id : N)
| OpBatchState (ctx : Ctx) (req : RSSSubscriptionBatchStateRequest) | OpRunSubscription (ctx : Ctx) (id : N)
| OpPreviewSubscription (ctx : Ctx) (id : N) | OpPreviewRules (ctx : Ctx) (req : RSSSubscriptionPreviewRequest)
| OpQBitHealth (ctx : Ctx) | OpExportConfig (ctx : Ctx) | OpImportConfig (ctx : Ctx) (req : RSSImportRequest).
Definition end_of {E A} (m : M E Host A) (h : Host) : Host := snd (m h).
Definition run_sub_op (op : SubOp) : Host -> Host :=
  match op with
  | OpListSubscriptions ctx sourceID => end_of (on_world (RSSService_ListSubscriptions ctx sourceID))
  | OpCreateSubscription ctx req => end_of (RSSService_CreateSubscription vfsResolver metadataReader aclAuthorizer ctx req)
  | OpCloneSubscription ctx id req => end_of (on_world (RSSService_CloneSubscription ctx id req))
  | OpGetSubscription ctx id => end_of (on_world (RSSService_GetSubscription ctx id))
  | OpUpdateSubscription ctx id req => end_of (RSSService_UpdateSubscription vfsResolver metadataReader aclAuthorizer ctx id req)
  | OpDeleteSubscription ctx id => end_of (on_world (RSSService_DeleteSubscription ctx id))
  | OpBatchState ctx req => end_of (on_world (RSSService_BatchUpdateSubscriptionState ctx req))
  | OpRunSubscription ctx id => end_of (on_world (RSSService_RunSubscription s ctx id))
  | OpPreviewSubscription ctx id => end_of (on_world (RSSService_PreviewSubscription ctx id))
  | OpPreviewRules ctx req => end_of (on_world (RSSService_PreviewSubscriptionRules ctx req))
  | OpQBitHealth ctx => end_of (on_world (RSSService_QBitHealth healthChecker ctx))
  | OpExportConfig ctx => end_of (on_world (RSSService_ExportConfig ctx))
  | OpImportConfig ctx req => end_of (RSSService_ImportConfig vfsResolver metadataReader aclAuthorizer ctx req)
  end.
Definition run_sub_ops (ops : list SubOp) (h : Host) : Host := fold_left (fun h op => run_sub_op op h) ops h.

Lemma within_find_owned ctx id : within [] (find_owned_subscription ctx id).
Proof. unfold find_owned_subscription, RSSRepository_FindSubscriptionByID. frame_tac. Qed.
#[local] Hint Resolve within_find_owned : frame.
Lemma within_list_items filter : within [] (RSSRepository_ListItems filter).
Proof. unfold RSSRepository_ListItems. frame_tac. Qed.
#[local] Hint Resolve within_list_items : frame.
Lemma op_keeps dir op : forall h, dk_dir (h_disk h) = dir -> all_ok (h_world h) ->
  dk_dir (h_disk (run_sub_op op h)) = dir /\ all_ok (h_world (run_sub_op op h)).
Proof.
  intros h Hd Ho.
  assert (forall A (m : M GoErr Host A), hkeeps dir all_ok (fun _ => True) m ->
    dk_dir (h_disk (end_of m h)) = dir /\ all_ok (h_world (end_of m h))) as Hk.
  { intros A m Hm. destruct (Hm h Hd Ho) as [Hw Hf]. split; [|exact Hw]. unfold end_of. by rewrite (proj1 (proj2 Hf)). }
  assert (forall A (m : M GoErr World A), winv all_ok m ->
    dk_dir (h_disk (end_of (on_world m) h)) = dir /\ all_ok (h_world (end_of (on_world m) h))) as Hw.
  { intros A m Hm. by apply Hk, hkeeps_world. }
  assert (forall A (m : M GoErr World A), within [] m ->
    dk_dir (h_disk (end_of (on_world m) h)) = dir /\ all_ok (h_world (end_of (on_world m) h))) as Hr.
  { intros A m Hm. by apply Hw, winv_quiet_ok. }
  destruct op; cbn [run_sub_op].
  - apply Hr. unfold RSSService_ListSubscriptions. frame_tac.
  - apply Hk, keeps_create.
  - apply Hw, winv_clone.
  - apply Hr. unfold RSSService_GetSubscription. frame_tac.
  - apply Hk, keeps_update.
  - apply Hw. unfold RSSService_DeleteSubscription. apply winv_bind_owned. intros u _. apply winv_delete_sub.
  - apply Hw. unfold RSSService_BatchUpdateSubscriptionState. apply winv_bind_lift. intros auth _.
    destruct (bq_SubscriptionIDs req); [apply winv_throw|]. destruct (bq_IsEnabled req); [|apply winv_throw].
    apply winv_bind; [apply winv_quiet_ok; auto with frame|]. intros now. apply winv_batch.
  - apply Hw. unfold RSSService_RunSubscription. apply winv_bind_owned. intros u _.
    apply winv_bind; [apply winv_quiet_ok; auto with frame|]. intros l. apply winv_beside, within_run_items.
  - apply Hr. unfold RSSService_PreviewSubscription, previewRSSSubscription. frame_tac.
  - apply Hr. unfold RSSService_PreviewSubscriptionRules, previewRSSSubscription. frame_tac.
  - apply Hr. unfold RSSService_QBitHealth. frame_tac.
  - apply Hr. unfold RSSService_ExportConfig, RSSRepository_ListSources. frame_tac.
  - apply Hk, keeps_import_config.
Qed.

(** C25: Over any sequence of requests on subscriptions and imports, failing
    ones included, every stored subscription stays valid: it has a name, its
    patterns compile, its templates are acceptable and its target is in
    canonical form.  So for every item, whatever its title, the target
    renders to a directory at or below the subscription's target without the
    white space at its ends (for a stored target that ends in white space
    that is another directory than the stored one): no item can fail on it. *)
Theorem subscriptions_stay_valid (ops : list SubOp) (h : Host) :
  Forall sub_ok (subscriptions (h_world h)) ->
  let w := h_world (run_sub_ops ops h) in
  Forall sub_ok (subscriptions w) /\
  forall u item, u ∈ subscriptions w -> exists base path,
    normalizeVirtualPath (trim_space (rsub_TargetVirtualParentPath u)) = Ok base /\
    renderRSSTargetVirtualParentPath u item = Ok path /\ isSubPath base path = true.
Proof.
  intros Ho w. assert (all_ok w) as Hw.
  { subst w. unfold run_sub_ops. revert h Ho. induction ops as [|op ops IH]; intros h Ho; [done|]. cbn [fold_left].
    apply IH. by apply (op_keeps _ op h eq_refl). }
  split; [exact Hw|]. intros u item Hu. apply sub_ok_renders. unfold all_ok in Hw. rewrite Forall_forall in Hw. by apply Hw.
Qed.

(** ** Computations that do not fail *)
Definition gives {E S A} (m : M E S A) (P : A -> Prop) : Prop :=
  forall s, wp m (fun r _ => match r with Ok a => P a | Err _ => False end) s.
Lemma gives_ret {E S A} (a : A) (P : A -> Prop) : P a -> gives (ret a : M E S A) P.
Proof. by intros HP x. Qed.
Lemma gives_bind {E S A B} (m : M E S A) (k : A -> M E S B) (P : A -> Prop) (Q : B -> Prop) :
  gives m P -> (forall a, P a -> gives (k a) Q) -> gives (bind m k) Q.
Proof. intros Hm Hk x. apply wp_bind. eapply wp_mono; [apply Hm|]. intros [a|e] y HP; [by apply Hk|done]. Qed.
Lemma gives_bind_or {E E' S A B} (m : M E S A) (f : E -> M E' S B) (k : A -> M E' S B) (Q : B -> Prop) :
  (forall e, gives (f e) Q) -> (forall a, gives (k a) Q) -> gives (bind_or m f k) Q.
Proof.
  intros Hf Hk x. apply wp_bind_or. eapply wp_mono; [apply returns_any|]. intros [a|e] y _; [apply Hk|apply Hf].
Qed.
Lemma gives_mono {E S A} (m : M E S A) (P Q : A -> Prop) : gives m P -> (forall a, P a -> Q a) -> gives m Q.
Proof. intros Hm HQ x. eapply wp_mono; [apply Hm|]. intros [a|e] y; auto. Qed.

(** ** What an import answers *)
(** The answers with an action; the addresses of the new sources. *)
Definition with_action (a : string) (l : list RSSImportItemResult) : list RSSImportItemResult :=
  sel (fun r => String.eqb (mi_Action r) a) l.
Definition counted (a : string) (l : list RSSImportItemResult) : Z := Z.of_nat (length (with_action a l)).
Definition created_urls (l : list RSSImportItemResult) : list string := map mi_SourceURL (with_action rssImportActionCreate l).
Definition result_ok (r : RSSImportItemResult) : Prop :=
  (mi_Success r = true /\ (mi_Action r = rssImportActionCreate \/ mi_Action r = rssImportActionReuse) /\ mi_ErrorCode r = None) \/
  (mi_Success r = false /\ mi_Action r = rssImportActionFailed /\ mi_ErrorCode r <> None).
Definition tallied (section : RSSImportSectionResult) : Prop :=
  mt_Created section = counted rssImportActionCreate (mt_Items section) /\
  mt_Reused section = counted rssImportActionReuse (mt_Items section) /\ mt_Skipped section = 0%Z /\
  mt_Failed section = counted rssImportActionFailed (mt_Items section) /\ Forall result_ok (mt_Items section).
Definition indices (from n : nat) : list Z := map Z.of_nat (seq from n).
(** One answer for each of [n] entries, in their order, and the counts. *)
Definition answered (n : nat) (section : RSSImportSectionResult) : Prop :=
  tallied section /\ map mi_Index (mt_Items section) = indices 0 n.
Definition countable (n : nat) : Prop := (Z.of_nat n < 2 ^ 63)%Z.

Lemma counted_snoc a l r : counted a (l ++ [r]) = (counted a l + (if String.eqb (mi_Action r) a then 1 else 0))%Z.
Proof.
  unfold counted, with_action, sel. rewrite List.filter_app, length_app. cbn. destruct (String.eqb (mi_Action r) a); cbn; lia.
Qed.
Lemma counted_bound a l : (0 <= counted a l <= Z.of_nat (length l))%Z.
Proof. unfold counted, with_action. pose proof (List.filter_length_le (fun r => String.eqb (mi_Action r) a) l). unfold sel. lia. Qed.
Lemma append_result section r : tallied section -> result_ok r -> countable (S (length (mt_Items section))) ->
  tallied (appendRSSImportResult section r) /\ mt_Items (appendRSSImportResult section r) = mt_Items section ++ [r].
Proof.
  intros (Hc & Hr & Hs & Hf & Hall) Hok Hn.
  assert (Forall result_ok (mt_Items section ++ [r])) as Hall' by (apply Forall_app; split; [done|by constructor]).
  pose proof (counted_bound rssImportActionCreate (mt_Items section)). pose proof (counted_bound rssImportActionReuse (mt_Items section)).
  pose proof (counted_bound rssImportActionFailed (mt_Items section)). unfold countable in Hn.
  assert (forall z, (0 <= z <= Z.of_nat (length (mt_Items section)))%Z -> succ_int z = (z + 1)%Z) as Hsucc.
  { intros z Hz. unfold succ_int, int_add. apply wrap64_id. unfold is_int, max_int. lia. }
  destruct r as [i a ok id url name code message]. unfold appendRSSImportResult, tallied.
  destruct Hok as [(Es & Ea & _)|(Es & Ea & _)]; cbn in Es, Ea; subst ok; [destruct Ea as [Ea|Ea]|]; subst a; cbn;
    (split; [|done]); rewrite !counted_snoc, ?Hc, ?Hr, ?Hf, ?Hs; cbn; rewrite ?Z.add_0_r, ?Hsucc by done; by split_and!.
Qed.

Lemma import_source_result userID dryRun now index req known :
  gives (import_source userID dryRun now index req known) (fun p => result_ok (snd p) /\ mi_Index (snd p) = index /\
    (forall u, known !! u <> None -> fst p !! u <> None) /\
    (mi_Action (snd p) = rssImportActionCreate -> known !! mi_SourceURL (snd p) = None /\ fst p !! mi_SourceURL (snd p) <> None)).
Proof.
  unfold import_source. apply gives_bind_or.
  - intros e. apply gives_ret. split_and!; [by right|done|done|by intros].
  - intros [[name rawURL] interval]. destruct (known !! rawURL) as [existing|] eqn:E.
    + apply gives_ret. split_and!; [left; split_and!; [done|by right|done]|done|done|by intros].
    + assert (forall x u, known !! u <> None -> <[rawURL := x]> known !! u <> None) as Hins.
      { intros x u Hu. unfold SourceMap in *. destruct (decide (u = rawURL)) as [->|Hne].
        - rewrite (lookup_insert_eq known). done.
        - rewrite (lookup_insert_ne known) by done. done. }
      assert (forall x id, result_ok (import_done (import_result index rawURL name) rssImportActionCreate id) /\
        (forall u, known !! u <> None -> <[rawURL := x]> known !! u <> None) /\ <[rawURL := x]> known !! rawURL <> None) as Hnew.
      { intros x id. split; [left; split_and!; [done|by left|done]|]. split; [apply Hins|]. unfold SourceMap in *. rewrite (lookup_insert_eq known). done. }
      destruct dryRun.
      * apply gives_ret. destruct (Hnew (dry_source userID name rawURL interval (boolDefault (ms_IsEnabled req) true)) 0%N) as (H1 & H2 & H3).
        by split_and!.
      * apply gives_bind_or.
        -- intros e. apply gives_ret. split_and!; [by right|done|done|by intros].
        -- intros source. apply gives_ret. destruct (Hnew source (rs_ID source)) as (H1 & H2 & H3). by split_and!.
Qed.

(** What the entries from some index on come to. *)
Definition imported (from n : nat) (section section' : RSSImportSectionResult) (more : list RSSImportItemResult) : Prop :=
  tallied section' /\ mt_Items section' = mt_Items section ++ more /\ map mi_Index more = indices from n.
Lemma imported_nil from section : tallied section -> imported from 0 section section [].
Proof. intros Ht. split; [done|]. split; [by rewrite app_nil_r|done]. Qed.
Lemma imported_step from n section r section' more :
  tallied section -> result_ok r -> mi_Index r = Z.of_nat from -> length (mt_Items section) = from ->
  countable (from + S n) ->
  (tallied (appendRSSImportResult section r) -> length (mt_Items (appendRSSImportResult section r)) = S from ->
   imported (S from) n (appendRSSImportResult section r) section' more) ->
  imported from (S n) section section' (r :: more).
Proof.
  intros Ht Hr Hi Hl Hn Hk. destruct (append_result section r) as [Ht' E]; [done..|rewrite Hl; unfold countable in *; lia|].
  destruct Hk as (H1 & H2 & H3); [done|rewrite E, length_app, Hl; cbn; lia|]. split; [done|]. split.
  - by rewrite H2, E, <- app_assoc.
  - unfold indices. cbn. by rewrite H3, Hi.
Qed.
Lemma import_sources_result userID dryRun now reqs : forall (from : nat) known section,
  tallied section -> length (mt_Items section) = from -> countable (from + length reqs) ->
  gives (import_sources userID dryRun now (Z.of_nat from) reqs known section) (fun p => exists more,
    imported from (length reqs) section (snd p) more /\
    NoDup (created_urls more) /\ forall u, u ∈ created_urls more -> known !! u = None).
Proof.
  induction reqs as [|req reqs IH]; intros from known section Ht Hl Hn; cbn [import_sources].
  - apply gives_ret. exists []. split; [by apply imported_nil|]. split; [constructor|]. intros u Hu. by apply elem_of_nil in Hu.
  - eapply gives_bind; [apply import_source_result|]. intros [known' r] (Hr & Hi & Hm & Hc). cbn in Hr, Hi, Hm, Hc.
    cbn [fst snd]. replace (Z.of_nat from + 1)%Z with (Z.of_nat (S from)) by lia. cbn [length] in Hn |- *.
    destruct (append_result section r) as [Ht' E]; [done..|rewrite Hl; unfold countable in *; lia|].
    eapply gives_mono; [apply IH; [exact Ht'|rewrite E, length_app, Hl; cbn; lia|by replace (S from + length reqs) with (from + S (length reqs)) by lia]|].
    intros [known'' section'] (more & Him & Hnd & Hnone). exists (r :: more). split; [by apply (imported_step from)|].
    unfold created_urls, with_action, sel. cbn [List.filter]. destruct (String.eqb_spec (mi_Action r) rssImportActionCreate) as [Ea|Ea].
    + destruct (Hc Ea) as [Hfree Hin]. cbn [map]. split.
      * constructor; [|exact Hnd]. intros Hx. by apply Hnone in Hx.
      * intros u [->|Hx]%elem_of_cons; [done|]. apply Hnone in Hx. destruct (known !! u) eqn:Eu; [|done]. exfalso.
        apply (Hm u); [by rewrite Eu|done].
    + split; [done|]. intros u Hx. apply Hnone in Hx. destruct (known !! u) eqn:Eu; [|done]. exfalso. apply (Hm u); [by rewrite Eu|done].
Qed.

Lemma import_subscription_result ctx userID dryRun now index req known :
  gives (import_subscription vfsResolver metadataReader aclAuthorizer ctx userID dryRun now index req known)
    (fun r => result_ok r /\ mi_Index r = index).
Proof.
  unfold import_subscription. destruct (known !! _) as [source|]; [|apply gives_ret; by split; [right|]].
  apply gives_bind_or; [intros e; apply gives_ret; by split; [right|]|]. intros resolved.
  assert (forall id, result_ok (import_done (import_result index (firstNonEmpty [mu_SourceURL req; mu_SourceRef req])
    (trim_space (mu_Name req))) rssImportActionCreate id)) as Hdone by (intros id; left; split_and!; [done|by left|done]).
  destruct dryRun; [by apply gives_ret|].
  apply gives_bind_or; [intros e; apply gives_ret; by split; [right|]|]. intros sub. by apply gives_ret.
Qed.
Lemma import_subscriptions_result ctx userID dryRun now reqs : forall (from : nat) known section,
  tallied section -> length (mt_Items section) = from -> countable (from + length reqs) ->
  gives (import_subscriptions vfsResolver metadataReader aclAuthorizer ctx userID dryRun now (Z.of_nat from) reqs known section)
    (fun section' => exists more, imported from (length reqs) section section' more).
Proof.
  induction reqs as [|req reqs IH]; intros from known section Ht Hl Hn; cbn [import_subscriptions].
  - apply gives_ret. exists []. by apply imported_nil.
  - eapply gives_bind; [apply import_subscription_result|]. intros r (Hr & Hi). cbn [length] in Hn |- *.
    replace (Z.of_nat from + 1)%Z with (Z.of_nat (S from)) by lia.
    destruct (append_result section r) as [Ht' E]; [done..|rewrite Hl; unfold countable in *; lia|].
    eapply gives_mono; [apply IH; [exact Ht'|rewrite E, length_app, Hl; cbn; lia|by replace (S from + length reqs) with (from + S (length reqs)) by lia]|].
    intros section' (more & Him). exists (r :: more). by apply (imported_step from).
Qed.
Lemma imported_all n section more : imported 0 n no_results section more -> answered n section /\ mt_Items section = more.
Proof. intros (Ht & E & Hi). cbn in E. split; [|done]. split; [done|]. by rewrite E. Qed.
Lemma no_results_tallied : tallied no_results.
Proof. by split_and!. Qed.

(** *** A dry run *)
Lemma keeps_dry_import dir w0 ctx userID now reqs : forall index known section,
  hkeeps dir (frames [] w0) (fun _ => True)
    (import_subscriptions vfsResolver metadataReader aclAuthorizer ctx userID true now index reqs known section).
Proof.
  assert (forall w w', frames [] w0 w -> frames [] w w' -> frames [] w0 w') as Hq by (intros w w'; apply frames_trans).
  induction reqs as [|req reqs IH]; intros index known section; cbn [import_subscriptions]; [apply hkeeps_ret|].
  apply hkeeps_bind; [|intros r; apply IH]. unfold import_subscription. destruct (known !! _); [|apply hkeeps_ret].
  apply hkeeps_bind_or; [exact (keeps_normalize dir (frames [] w0) Hq _ _)|intros ?; apply hkeeps_ret..].
Qed.
Lemma by_url_known l x : x ∈ l -> by_url l !! trim_space (rs_URL x) <> None.
Proof.
  unfold by_url, SourceMap. intros Hx. set (u := trim_space (rs_URL x)).
  assert (forall k (m : gmap string RSSSource), m !! u <> None \/ x ∈ k ->
    fold_left (fun m source => <[trim_space (rs_URL source) := source]> m) k m !! u <> None) as Hk; [|apply Hk; by right].
  induction k as [|y k IH]; intros m Hm; cbn [fold_left]; [destruct Hm as [Hm|Hm]; [done|by apply elem_of_nil in Hm]|].
  apply IH. rewrite elem_of_cons in Hm. destruct (decide (u = trim_space (rs_URL y))) as [E|Hne].
  - left. by rewrite <- E, (lookup_insert_eq m).
  - rewrite (lookup_insert_ne m) by done. destruct Hm as [Hm|[->|Hm]]; [by left|done|by right].
Qed.

(** What an answer says, of the state before and after. *)
Definition import_outcome ctx (req : RSSImportRequest) w (r : result GoErr RSSImportResponse) w' : Prop :=
  match r with
  | Err _ => forall t, tbl t w' = tbl t w
  | Ok resp =>
      mp_DryRun resp = mr_DryRun req /\
      answered (length (mr_Sources req)) (mp_Sources resp) /\
      answered (length (mr_Subscriptions req)) (mp_Subscriptions resp) /\
      NoDup (created_urls (mt_Items (mp_Sources resp))) /\
      (forall auth x, currentRSSAuth ctx = Ok auth -> x ∈ tbl TRssSource w -> rs_UserID x = ra_UserID auth ->
         trim_space (rs_URL x) ∉ created_urls (mt_Items (mp_Sources resp))) /\
      (mr_DryRun req = true -> forall t, tbl t w' = tbl t w)
  end.

(** C26: An import answers for every entry, whatever each came to: the
    sources and the subscriptions are answered in their order, each as
    created or reused without an error or as failed with one, and the counts
    are those of the answers.  No two sources are created with one address,
    nor one with the address of a source the user has.  A dry run, and an
    import that is refused as a whole, leave every table as it was. *)
Theorem import_accounts ctx (req : RSSImportRequest) (h : Host) :
  countable (length (mr_Sources req)) -> countable (length (mr_Subscriptions req)) ->
  let '(r, h') := RSSService_ImportConfig vfsResolver metadataReader aclAuthorizer ctx req h in
  import_outcome ctx req (h_world h) r (h_world h').
Proof.
  intros Hs Hu. set (w := h_world h).
  assert (wp (RSSService_ImportConfig vfsResolver metadataReader aclAuthorizer ctx req)
    (fun r h' => import_outcome ctx req w r (h_world h')) h) as Hw; [|unfold wp in Hw; by destruct (RSSService_ImportConfig _ _ _ _ _ _)].
  assert (forall w', frames [] w w' -> forall t, tbl t w' = tbl t w) as Hsame.
  { intros w' Hf t. apply (frames_tbl [] w w' t Hf). set_solver. }
  apply wp_bind, wp_lift_result. destruct (currentRSSAuth ctx) as [auth|e] eqn:Ea; [|done].
  apply wp_bind, wp_zoom. apply (wp_select TRssSource).
  { intros e w1 Hs1 _. exact (Hsame w1 (same_frames [] _ _ Hs1)). }
  intros existing w1 Hs1 Hp _. pose proof (same_frames [] _ _ Hs1) as Hf1. fold w in Hp, Hf1.
  apply wp_bind, wp_zoom, wp_time_now. cbn [h_world].
  match goal with |- wp _ _ ?x => set (h2 := x) end.
  assert (frames [] w (h_world h2)) as Hf2 by (eapply frames_trans; [exact Hf1|apply tick_frames]). clearbody h2.
  apply wp_bind, wp_zoom. eapply wp_mono.
  { apply wp_conj; [apply within_import_sources|apply (import_sources_result _ _ _ _ 0 _ no_results no_results_tallied); [done|exact Hs]]. }
  intros [[known section]|e] w3 [Hf3 Hr3]; [|done]. destruct Hr3 as (more & Him & Hnd & Hnone). cbn [fst snd] in *.
  destruct (imported_all _ _ _ Him) as [Hans Hitems].
  assert (mr_DryRun req = true -> frames [] w w3) as Hdry3.
  { intros E. rewrite E in Hf3. by eapply frames_trans. }
  apply wp_bind. match goal with |- wp _ _ ?x => set (h3 := x) end.
  eapply wp_mono.
  { apply wp_conj; [apply (import_subscriptions_result _ _ _ _ _ 0 known no_results no_results_tallied); [done|exact Hu]|].
    instantiate (1 := fun _ h4 => mr_DryRun req = true -> frames [] w (h_world h4)).
    destruct (mr_DryRun req) eqn:Ed.
    - eapply wp_mono; [apply (keeps_dry_import (dk_dir (h_disk h3)) w); [done|by apply Hdry3]|]. intros r h4 [Hf4 _] _. exact Hf4.
    - eapply wp_mono; [apply returns_any|]. done. }
  intros [section'|e] h4 [Hr4 Hdry4]; [|done]. destruct Hr4 as (more' & Him'). apply wp_ret.
  split_and!; [done|exact Hans|by eapply imported_all|cbn [mp_Sources]; by rewrite Hitems|..].
  - intros auth' x E Hx Hux. injection (eq_trans (eq_sym Ea) E) as <-. cbn [mp_Sources]. rewrite Hitems. intros Hin. apply Hnone in Hin.
    apply (by_url_known existing x); [|exact Hin]. change (limited None existing) with existing. rewrite Hp. apply elem_of_sel. split; [exact Hx|].
    unfold rss_source_filter, own_sources. cbn. by apply N.eqb_eq in Hux as ->.
  - intros E. apply Hsame. by apply Hdry4.
Qed.
End Requests.

(** ** A concrete system *)
#[local] Existing Instances Mem.database Mem.laws StorageExample.decoder UploadExample.reader UploadExample.reader_laws.
Module RssSubExamples.
Import RssRuleExamples RssExamples.
(** Every path lies on one local disk. *)
#[export] Instance one_disk : WritableTargetResolver := fun _ p =>
  ret {| rp_VirtualPath := p; rp_MatchedMountPath := "/"; rp_InnerPath := p; rp_Source := Some StorageExample.source;
         rp_IsRealMount := true; rp_IsPureVirtual := false |}.
#[export] Instance one_disk_laws : WritableTargetLaws.
Proof. intros ctx p. apply within_ret. Qed.
#[export] Instance healthy : QBitHealthChecker := ret tt.
#[export] Instance healthy_laws : QBitHealthLaws.
Proof. apply within_ret. Qed.
#[export] Instance creator_keeps : RSSKeepSubscriptions.
Proof.
  split; intros.
  - unfold CreateTask, creator, TaskRepository_Create. frame_tac.
  - apply within_ret.
Qed.

Definition start : Host := {| h_world := world [] []; h_disk := UploadExample.disk |}.
Definition wish (name target directory : string) : RSSSubscriptionUpsertRequest :=
  {| uq_SourceID := 1; uq_Name := name; uq_IsEnabled := None; uq_MustContain := [" a "; ""]; uq_MustNotContain := []; uq_UseRegex := false;
     uq_CaseSensitive := false; uq_TargetVirtualParentPath := target; uq_DirectoryTemplate := directory; uq_FilenameTemplate := "" |}.
Definition entry_of (url name : string) : RSSImportSource :=
  {| ms_Name := name; ms_URL := url; ms_IsEnabled := None; ms_RefreshIntervalSeconds := 0 |}.
Definition wish_of (url name target : string) : RSSImportSubscription :=
  {| mu_SourceURL := url; mu_SourceRef := ""; mu_Name := name; mu_IsEnabled := None; mu_MustContain := []; mu_MustNotContain := [];
     mu_UseRegex := false; mu_CaseSensitive := false; mu_TargetVirtualParentPath := target; mu_DirectoryTemplate := "";
     mu_FilenameTemplate := "" |}.
Definition config (dry : bool) : RSSImportRequest :=
  {| mr_DryRun := dry; mr_Sources := [entry_of "https://h/feed" "old"; entry_of "https://h/new" "new"; entry_of "https://h/new" "again"];
     mr_Subscriptions := [wish_of "https://h/feed" "a" "/anime"; wish_of "https://h/none" "b" "/anime"; wish_of "https://h/feed" "c" "x"] |}.
#[export] Instance every_url : UrlParser := fun _ => Some ("https", "h").
Definition run (op : SubOp) (h : Host) : Host := run_sub_op service true true true None op h.
Definition named (h : Host) : list (string * string) :=
  map (fun u => (rsub_Name u, rsub_TargetVirtualParentPath u)) (subscriptions (h_world h)).
Definition import_now (dry : bool) (h : Host) : result GoErr RSSImportResponse := fst (RSSService_ImportConfig true true None admin (config dry) h).

(** *** What the code does besides *)
(** The target is checked as it was asked for, and used without the white
    space at its end: downloads go to another directory than the one that
    was checked. *)
Lemma target_checked_elsewhere :
  let h := run (OpCreateSubscription admin (wish "x" "/a /" "")) start in
  map rsub_TargetVirtualParentPath (subscriptions (h_world h)) = ["/anime"; "/a "] /\
  map rsub_ResolvedInnerParentPath (subscriptions (h_world h)) = ["/"; "/a "] /\
  map (fun u => renderRSSTargetVirtualParentPath u (titled "t" "")) (subscriptions (h_world h)) = [Ok "/anime"; Ok "/a"].
Proof. vm_compute. auto. Qed.
End RssSubExamples.
Import RssRuleExamples RssExamples RssSubExamples.

Lemma subscriptions_stay_valid_witness :
  let ops := [OpCreateSubscription admin (wish "x" "/a" "{anime_title}"); OpCreateSubscription admin (wish "y" "b" "");
    OpCloneSubscription admin 1 {| cq_Name := ""; cq_IsEnabled := None |}; OpImportConfig admin (config false); OpRunSubscription admin 1] in
  let h := run_sub_ops service true true true None ops start in
  named h = [("s", "/anime"); ("x", "/a"); ("s Copy", "/anime"); ("a", "/anime")] /\ Forall sub_ok (subscriptions (h_world h)).
Proof.
  intros ops h. split; [vm_compute; reflexivity|].
  apply (subscriptions_stay_valid service true true true None ops start).
  constructor; [|constructor]. split; [discriminate|]. split; [reflexivity|]. split; [reflexivity|]. split; [reflexivity|].
  exists ["anime"]. split; reflexivity.
Defined.
Lemma import_accounts_witness :
  let '(r, h) := RSSService_ImportConfig true true None admin (config true) start in
  named h = named start /\ import_outcome admin (config true) (h_world start) r (h_world h).
Proof.
  pose proof (import_accounts true true None admin (config true) start) as Hi.
  destruct (RSSService_ImportConfig true true None admin (config true) start) as [r h] eqn:E. split.
  - assert (h = snd (RSSService_ImportConfig true true None admin (config true) start)) as -> by (rewrite E; reflexivity).
    vm_compute. reflexivity.
  - apply Hi; vm_compute; reflexivity.
Defined.
