(* ===== verification/TaskService.v ===== *)
(** * Download tasks: the service ([task_service.go])

    A task downloads a link into a staging directory, through the downloader
    of its kind of link or the source's own, and is imported into its source
    when the download is completed.  The downloaders and the drivers of
    remote sources are interfaces, as is the observer of tasks that end.

    [TaskProps] says what tasks become, and who reaches them. *)
From S2P Require Import Prelude Ints GoStrings Runes Errors Entities Paths Mounts Permission Tables Db Auditing Repos Journal Acl AclService Users Auth MetaTree Notifications Storage Files Uploads Commits Tasks RssRules Rss.
From stdpp Require Import base list strings gmap pretty.
From Stdlib Require Import ZArith Lia Ascii SpecFloat.

Local Open Scope string_scope.
Local Open Scope list_scope.
Local Open Scope go_scope.

(** ** [task_dto.go] *)
Record DownloadTaskView := {
  dv_ID : N; dv_Type : string; dv_DownloaderType : string; dv_Status : string; dv_SourceID : N; dv_SavePath : string;
  dv_TargetVFSParentNodeID : N; dv_TargetVirtualParentPath : string; dv_TargetFilename : string; dv_SaveVirtualPath : string;
  dv_ResolvedSourceID : N; dv_ResolvedInnerSavePath : string; dv_ResultVFSNodeID : N; dv_DisplayName : string;
  dv_SourceURL : string; dv_Progress : spec_float; dv_DownloadedBytes : Z; dv_TotalBytes : option Z; dv_SpeedBytes : Z;
  dv_ETASeconds : option Z; dv_ErrorMessage : option string; dv_CreatedAt : string; dv_UpdatedAt : string;
  dv_FinishedAt : option string
}.
Record CancelTaskResponse := { ct_ID : N; ct_Canceled : bool; ct_DeleteFile : bool }.
Record TaskActionResponse := { ta_ID : N; ta_Status : string }.

(** ** Downloaders *)
Record DownloadStatus := {
  ds_Status : string; ds_CompletedBytes : Z; ds_TotalBytes : option Z; ds_DownloadSpeed : Z; ds_ETASeconds : option Z;
  ds_ProgressPercent : option spec_float; ds_DisplayName : string; ds_ErrorMessage : option string
}.
Record NativeDownloadRequest := { nr_URL : string; nr_TargetDirPath : string; nr_TargetFilename : string }.
Record NativeDownloadTask := { nt_ExternalID : string; nt_DisplayName : string; nt_ProgressPercent : option spec_float }.
Record NativeDownloadStatus := {
  ns_Status : string; ns_CompletedBytes : Z; ns_TotalBytes : option Z; ns_DownloadSpeed : Z; ns_ETASeconds : option Z;
  ns_ProgressPercent : option spec_float; ns_DisplayName : string; ns_ErrorMessage : option string
}.

Section Interfaces.
Context `{Database}.
(** The downloaders of the router, by type: they keep what they download
    on the disk. *)
Class Downloaders := {
  downloaders : string -> bool;
  AddURI : string -> string -> string -> M GoErr Host string;
  TellStatus : string -> string -> M GoErr Host DownloadStatus;
  PauseDownload : string -> string -> M GoErr Host unit;
  ResumeDownload : string -> string -> M GoErr Host unit;
  RemoveDownload : string -> string -> M GoErr Host unit
}.
(** The sources that download by themselves, by the type of their driver. *)
Class NativeDownloadDrivers := {
  nativeDownloadDrivers : string -> bool;
  CreateNativeDownload : string -> StorageSource -> NativeDownloadRequest -> M GoErr World (option NativeDownloadTask);
  GetNativeDownloadStatus : string -> StorageSource -> string -> M GoErr World (option NativeDownloadStatus);
  CancelNativeDownload : string -> StorageSource -> string -> bool -> M GoErr World unit;
  PauseNativeDownload : string -> StorageSource -> string -> M GoErr World unit;
  ResumeNativeDownload : string -> StorageSource -> string -> M GoErr World unit
}.
Class TaskTerminalStatusObserver := OnTaskTerminalStatus : Ctx -> DownloadTask -> M GoErr World unit.
End Interfaces.

Definition DownloaderTypeAria2 : string := "aria2".
Definition DownloaderTypeQBittorrent : string := "qbittorrent".
Definition DownloaderTypePikPakNative : string := "pikpak_native".

(** *** Numbers: [float64] *)
Definition float64_of_int (z : Z) : spec_float := binary_normalize 53 1024 z 0 false.
Definition float_100 : spec_float := float64_of_int 100.
Definition progress_of (completed total : Z) : spec_float :=
  SFdiv 53 1024 (SFmul 53 1024 (float64_of_int completed) float_100) (float64_of_int total).
Definition clampTaskProgressPercent (progress : spec_float) : spec_float :=
  if SFltb progress (S754_zero false) then S754_zero false else if SFltb float_100 progress then float_100 else progress.

Definition downloadStatusFromNative (status : option NativeDownloadStatus) : DownloadStatus :=
  match status with
  | None =>
      {| ds_Status := "pending"; ds_CompletedBytes := 0; ds_TotalBytes := None; ds_DownloadSpeed := 0; ds_ETASeconds := None;
         ds_ProgressPercent := None; ds_DisplayName := ""; ds_ErrorMessage := None |}
  | Some status =>
      let progress := option_map clampTaskProgressPercent (ns_ProgressPercent status) in
      let progress :=
        match progress with
        | None => if String.eqb (ns_Status status) "completed" then Some float_100 else None
        | Some _ => progress
        end in
      {| ds_Status := ns_Status status; ds_CompletedBytes := ns_CompletedBytes status; ds_TotalBytes := ns_TotalBytes status;
         ds_DownloadSpeed := ns_DownloadSpeed status; ds_ETASeconds := ns_ETASeconds status; ds_ProgressPercent := progress;
         ds_DisplayName := ns_DisplayName status; ds_ErrorMessage := ns_ErrorMessage status |}
  end.

(** ** Names and paths *)
Definition letter_byte (a : ascii) : bool := byte_between 97 122 a || byte_between 65 90 a.
Definition digit_byte (a : ascii) : bool := byte_between 48 57 a.
Definition isSafeTaskFilenameExtension (extension : string) : bool :=
  if Nat.ltb (String.length extension) 2 || Nat.ltb 16 (String.length extension) then false
  else
    let rest := match extension with String _ rest => rest | EmptyString => "" end in
    every_byte (fun a => letter_byte a || digit_byte a) rest && negb (every_byte (fun a => negb (letter_byte a)) rest).
Definition taskFilenameHasExplicitExtension (filename : string) : bool := isSafeTaskFilenameExtension (path_ext filename).
Definition taskTargetFilenameWithOriginalExtension (targetFilename originalRelativePath : string) : string :=
  let filename := truncateTaskFilename (trim_space targetFilename) maxTaskTargetFilenameRunes in
  if String.eqb filename "" || taskFilenameHasExplicitExtension filename then filename
  else
    let extension := path_ext (path_base originalRelativePath) in
    if negb (isSafeTaskFilenameExtension extension) then filename
    else
      let baseLimit := maxTaskTargetFilenameRunes - length (runes extension) in
      truncateTaskFilename filename (if Nat.ltb baseLimit 1 then maxTaskTargetFilenameRunes else baseLimit) +:+ extension.

Record stagedTaskFile := { sf_localPath : string; sf_relativePath : string }.
Definition taskImportRelativePath (task : DownloadTask) (file : stagedTaskFile) (fileCount : nat) : string :=
  if negb (Nat.eqb fileCount 1) || String.eqb (trim_space (dt_TargetFilename task)) "" then sf_relativePath file
  else taskTargetFilenameWithOriginalExtension (dt_TargetFilename task) (sf_relativePath file).
Definition staged_file (stagingDir : string) (names : list string) : stagedTaskFile :=
  {| sf_localPath := fold_left path_join names stagingDir; sf_relativePath := join_with "/" names |}.
(** The directory itself, were it a file, is not listed. *)
Definition is_staged (names : list string) : bool :=
  match rev names with [] => false | name :: _ => negb (has_suffix name ".aria2") end.
Definition listStagedTaskFiles (stagingDir : string) : M OsErr Disk (list stagedTaskFile) :=
  files <-! WalkFiles stagingDir ;;
  ret (map (staged_file stagingDir) (List.filter is_staged files)).

Definition taskResolvedSourceID (task : DownloadTask) : N :=
  if negb (N.eqb (dt_ResolvedSourceID task) 0) then dt_ResolvedSourceID task else dt_SourceID task.
Definition task_base_path (task : DownloadTask) : string :=
  if String.eqb (trim_space (dt_ResolvedInnerSavePath task)) "" then dt_SavePath task else dt_ResolvedInnerSavePath task.
Definition taskImportedMetadataVirtualParentPath (task : DownloadTask) (source : StorageSource) (innerParentPath : string) : string :=
  let merged := mergeMountAndInnerPath (src_MountPath source) innerParentPath in
  let virtualBase := or_else (trim_space (dt_TargetVirtualParentPath task)) (trim_space (dt_SaveVirtualPath task)) in
  if String.eqb virtualBase "" then merged
  else
    let baseInner := or_else (trim_space (dt_ResolvedInnerSavePath task)) (dt_SavePath task) in
    match normalizeVirtualPath virtualBase, normalizeVirtualPath innerParentPath, normalizeVirtualPath baseInner with
    | Ok normalizedVirtualBase, Ok normalizedInnerParent, Ok normalizedBaseInner =>
        if negb (isSubPath normalizedBaseInner normalizedInnerParent) then merged
        else if String.eqb normalizedInnerParent normalizedBaseInner then normalizedVirtualBase
        else joinVirtualPath normalizedVirtualBase (trim_prefix (trim_prefix normalizedInnerParent normalizedBaseInner) "/")
    | _, _, _ => merged
    end.
Definition taskCommitTargetPathSnapshot (task : DownloadTask) (virtualParentPath objectPath : string) : string :=
  let parent := or_else (trim_space virtualParentPath) (trim_space (dt_SaveVirtualPath task)) in
  if String.eqb parent "" then objectPath
  else if String.eqb (trim_space objectPath) "" then parent
  else match splitParentName objectPath with
       | Ok (_, filename) => if String.eqb filename "" then parent else joinVirtualPath parent filename
       | Err _ => parent
       end.

Definition taskCreateErrorCode (err : GoErr) : string :=
  if err_is err ErrNotFound then "SOURCE_NOT_FOUND" else taskErrorCode err.

Section Links.
Context `{UP : UrlParser} {UPA : UrlPath}.
Definition guessTaskDisplayName (rawURL : string) : string :=
  match url_parse rawURL with
  | None => rawURL
  | Some _ =>
      let name := path_base (url_path rawURL) in
      if String.eqb name "." || String.eqb name "/" || String.eqb name "" then rawURL else name
  end.
Definition taskTargetProbeName (req : CreateTaskRequest) : string :=
  if negb (String.eqb (trim_space (ctr_TargetFilename req)) "") then ctr_TargetFilename req
  else
    let probeName := guessTaskDisplayName (ctr_URL req) in
    if is_ok (validateFileName probeName) then probeName else "download".
(** The names a single file may have been stored under, the likely first. *)
Definition add_candidate (candidates : list string) (value : string) : list string :=
  let value := trim_space value in
  if String.eqb value "" || String.eqb value "." || contains value "/" || contains value "\" then candidates
  else if existsb (String.eqb value) candidates then candidates
  else candidates ++ [value].
Definition completedTaskSingleFileCandidateRelativePaths (task : DownloadTask) : list string :=
  let displayName := trim_space (dt_DisplayName task) in
  let candidates :=
    if negb (String.eqb (trim_space (dt_TargetFilename task)) "") then
      add_candidate (add_candidate [] (taskTargetFilenameWithOriginalExtension (dt_TargetFilename task) displayName))
        (dt_TargetFilename task)
    else [] in
  let candidates := add_candidate candidates displayName in
  if negb (String.eqb (dt_DownloaderType task) DownloaderTypePikPakNative)
  then add_candidate candidates (guessTaskDisplayName (dt_SourceURL task)) else candidates.
Definition completedTaskResultFilename (task : DownloadTask) : result GoErr string :=
  match List.find (fun candidate => is_ok (validateFileName candidate)) (completedTaskSingleFileCandidateRelativePaths task) with
  | Some candidate => Ok candidate
  | None => Err ErrMetadataVFSCommitFailed
  end.
Definition router_get `{Downloaders} (downloaderType : string) : result GoErr string :=
  if downloaders downloaderType then Ok downloaderType else Err ErrSourceDriverUnsupported.
Definition router_select `{Downloaders} (rawURI : string) : result GoErr string :=
  let kind := ClassifyDownloadLink rawURI in
  if String.eqb kind RSSLinkTypeHTTP then router_get DownloaderTypeAria2
  else if String.eqb kind RSSLinkTypeMagnet || String.eqb kind RSSLinkTypeTorrent then router_get DownloaderTypeQBittorrent
  else Err ErrDownloadLinkUnsupported.
End Links.
Definition completedTaskResultSize (task : DownloadTask) : Z :=
  match dt_TotalBytes task with
  | Some total => if Z.ltb 0 total then total else if Z.ltb 0 (dt_DownloadedBytes task) then dt_DownloadedBytes task else 0%Z
  | None => if Z.ltb 0 (dt_DownloadedBytes task) then dt_DownloadedBytes task else 0%Z
  end.

(** ** The service *)
Record TaskService := {
  ts_stagingRoot : string; ts_stagingRoots : gmap string string; ts_aclAuthorizer : option ACLAuthorizer; ts_vfsResolver : bool;
  ts_metadataReader : bool; ts_metadataCommitter : bool; ts_operationJournal : bool; ts_terminalStatusObserver : bool;
  ts_auditRecorder : bool
}.
Record resolvedTaskTarget := {
  tt_source : StorageSource; tt_savePath : string; tt_targetVFSParentNodeID : N; tt_targetVirtualParentPath : string;
  tt_saveVirtualPath : string; tt_resolvedSourceID : N; tt_resolvedInnerSavePath : string
}.

(** A task is worked on in place: what was set stays set when a later step
    fails. *)
Record TaskRun `{Database} := { tk_host : Host; tk_task : DownloadTask }.
#[export] Instance eta_TaskRun `{Database} : Eta TaskRun := fun r => {| tk_host := tk_host r; tk_task := tk_task r |}.
Section Runs.
Context `{Database}.
Definition on_host {E A} (m : M E Host A) : M E TaskRun A := zoom tk_host (fun h r => { r with tk_host := h }) m.
Definition the_task {E} : M E TaskRun DownloadTask := gets tk_task.
Definition change_task {E} (f : DownloadTask -> DownloadTask) : M E TaskRun unit := modify (fun r => { r with tk_task ::= f }).
(** A run on a task: what it returned, and the task afterwards. *)
Definition with_task {A} (task : DownloadTask) (m : M GoErr TaskRun A) : M GoErr Host (result GoErr A * DownloadTask) := fun h =>
  let '(r, run) := m {| tk_host := h; tk_task := task |} in (Ok (r, tk_task run), tk_host run).
End Runs.

Definition set_result (nodeID : N) (task : DownloadTask) : DownloadTask :=
  if N.ltb 0 nodeID then { task with dt_ResultVFSNodeID := nodeID } else task.
Definition set_first_result (nodeID : N) (task : DownloadTask) : DownloadTask :=
  if N.ltb 0 nodeID && N.eqb (dt_ResultVFSNodeID task) 0 then { task with dt_ResultVFSNodeID := nodeID } else task.
Definition unstaged (task : DownloadTask) : DownloadTask := { task with dt_StagingDir := "" }.

Section Service.
Context `{Database} {MR : MetadataReader} {MC : MetadataVFSCommitter} {DL : Downloaders} {ND : NativeDownloadDrivers}
  {ID : ImportDrivers} {OB : TaskTerminalStatusObserver} {WT : WritableTargetResolver} {UL : UuidLibrary} {UP : UrlParser}
  {UPA : UrlPath} {TF : TimeFormat} {JD : JsonDecoder} {MT : MimeTypes}.
Context (s : TaskService).

Definition taskAuditView (task : DownloadTask) : list (string * Json) :=
  [("id", JUint (dt_ID task)); ("user_id", JUint (dt_UserID task)); ("type", JStr (dt_Type task));
   ("downloader_type", JStr (dt_DownloaderType task)); ("status", JStr (dt_Status task)); ("source_id", JUint (dt_SourceID task));
   ("save_path", JStr (dt_SavePath task)); ("target_vfs_parent_node_id", JUint (dt_TargetVFSParentNodeID task));
   ("target_virtual_parent_path", JStr (dt_TargetVirtualParentPath task)); ("target_filename", JStr (dt_TargetFilename task));
   ("save_virtual_path", JStr (dt_SaveVirtualPath task)); ("resolved_source_id", JUint (dt_ResolvedSourceID task));
   ("resolved_inner_save_path", JStr (dt_ResolvedInnerSavePath task)); ("result_vfs_node_id", JUint (dt_ResultVFSNodeID task));
   ("display_name", JStr (dt_DisplayName task)); ("source_url", JStr (dt_SourceURL task))].
Definition toTaskView (task : DownloadTask) : DownloadTaskView :=
  let over := isTerminalTaskStatus (dt_Status task) in
  let blank := match dt_ErrorMessage task with None => true | Some m => String.eqb (trim_space m) "" end in
  let errorMessage :=
    if String.eqb (dt_Status task) "completed" then None
    else if String.eqb (dt_Status task) "failed" && blank then Some "download failed"
    else if String.eqb (dt_Status task) "canceled" && blank then Some "download canceled"
    else dt_ErrorMessage task in
  {| dv_ID := dt_ID task; dv_Type := dt_Type task; dv_DownloaderType := dt_DownloaderType task; dv_Status := dt_Status task;
     dv_SourceID := dt_SourceID task; dv_SavePath := dt_SavePath task; dv_TargetVFSParentNodeID := dt_TargetVFSParentNodeID task;
     dv_TargetVirtualParentPath := dt_TargetVirtualParentPath task; dv_TargetFilename := dt_TargetFilename task;
     dv_SaveVirtualPath := dt_SaveVirtualPath task; dv_ResolvedSourceID := dt_ResolvedSourceID task;
     dv_ResolvedInnerSavePath := dt_ResolvedInnerSavePath task; dv_ResultVFSNodeID := dt_ResultVFSNodeID task;
     dv_DisplayName := dt_DisplayName task; dv_SourceURL := dt_SourceURL task; dv_Progress := dt_Progress task;
     dv_DownloadedBytes := dt_DownloadedBytes task; dv_TotalBytes := dt_TotalBytes task;
     dv_SpeedBytes := if over then 0%Z else dt_SpeedBytes task; dv_ETASeconds := if over then None else dt_ETASeconds task;
     dv_ErrorMessage := errorMessage; dv_CreatedAt := rfc3339 (dt_CreatedAt task); dv_UpdatedAt := rfc3339 (dt_UpdatedAt task);
     dv_FinishedAt := option_map rfc3339 (dt_FinishedAt task) |}.

Definition task_audit (ctx : Ctx) (e : Event) : M GoErr Host unit := on_world (recordServiceAudit ctx (ts_auditRecorder s) e).
(** Record an event, and return an error. *)
Definition refuse_task {A} (ctx : Ctx) (e : Event) (err : GoErr) : M GoErr Host A := do! task_audit ctx e ;; throw err.

Definition authorizeTaskPath (ctx : Ctx) (sourceID : N) (savePath : string) (action : ACLAction) : M GoErr World unit :=
  match ts_aclAuthorizer s with
  | None => ret tt
  | Some a => AuthorizePath a ctx sourceID savePath action
  end.
Definition currentTaskUserID (ctx : Ctx) : N :=
  match RequestAuthFromContext ctx with Some auth => ra_UserID auth | None => 0%N end.
Definition authorizeTaskOwnership (ctx : Ctx) (task : DownloadTask) (manage : bool) : result GoErr unit :=
  match RequestAuthFromContext ctx with
  | None => Err ErrPermissionDenied
  | Some auth =>
      if (if manage then CanManageTask (ra_UserID auth) (dt_UserID task) (ra_Capabilities auth)
          else CanReadTask (ra_UserID auth) (dt_UserID task) (ra_Capabilities auth))
      then Ok tt else Err ErrPermissionDenied
  end.
Definition task_nodeID (virtualPath : string) : M GoErr World N :=
  if ts_metadataReader s then resolveMetadataVFSNodeID virtualPath else ret 0%N.

(** *** The downloader of a task *)
Definition native_resolve (sourceID : N) : M GoErr World StorageSource :=
  if N.eqb sourceID 0 then throw ErrSourceDriverUnsupported
  else
    source <-! SourceRepository_FindByID sourceID ;;
    if negb (nativeDownloadDrivers (src_DriverType source)) then throw ErrSourceDriverUnsupported else ret source.
Inductive Downloader : Type := RouterDownloader (downloaderType : string) | NativeDownloader (sourceID : N).
Definition downloaderForTask (task : DownloadTask) : result GoErr Downloader :=
  let downloaderType := normalizeDownloaderType (dt_DownloaderType task) in
  if String.eqb downloaderType DownloaderTypePikPakNative then Ok (NativeDownloader (taskResolvedSourceID task))
  else match router_get downloaderType with Ok t => Ok (RouterDownloader t) | Err e => Err e end.
Definition native_call {A} (sourceID : N) (f : string -> StorageSource -> M GoErr World A) : M GoErr Host A :=
  on_world (source <-! native_resolve sourceID ;; f (src_DriverType source) source).
Definition downloader_status (d : Downloader) (externalID : string) : M GoErr Host DownloadStatus :=
  match d with
  | RouterDownloader t => TellStatus t externalID
  | NativeDownloader id =>
      status <-! native_call id (fun t source => GetNativeDownloadStatus t source externalID) ;;
      ret (downloadStatusFromNative status)
  end.
Definition downloader_pause (d : Downloader) (externalID : string) : M GoErr Host unit :=
  match d with
  | RouterDownloader t => PauseDownload t externalID
  | NativeDownloader id => native_call id (fun t source => PauseNativeDownload t source externalID)
  end.
Definition downloader_resume (d : Downloader) (externalID : string) : M GoErr Host unit :=
  match d with
  | RouterDownloader t => ResumeDownload t externalID
  | NativeDownloader id => native_call id (fun t source => ResumeNativeDownload t source externalID)
  end.
Definition downloader_remove (d : Downloader) (externalID : string) : M GoErr Host unit :=
  match d with
  | RouterDownloader t => RemoveDownload t externalID
  | NativeDownloader id => native_call id (fun t source => CancelNativeDownload t source externalID false)
  end.

Definition newTaskStagingDir (downloaderType : string) : M GoErr World string :=
  let typedRoot := trim_space (default "" (ts_stagingRoots s !! downloaderType)) in
  uuid <-! NewString ;;
  ret (path_join (if String.eqb typedRoot "" then ts_stagingRoot s else typedRoot) ("task_" +:+ stringsNoDash uuid)).

(** A call whose failure does not matter. *)
Definition ignoring {A S} (m : M GoErr S A) : M GoErr S unit := _a <-! m or _e => ret tt ;; ret tt.
Definition discard_dir (dir : string) : M GoErr Host unit := _u <-! on_disk (RemoveAll dir) or _e => ret tt ;; ret tt.

Definition notifyTaskTerminalStatus (ctx : Ctx) (task : DownloadTask) : M GoErr World unit :=
  if negb (ts_terminalStatusObserver s) || negb (isTerminalTaskStatus (dt_Status task)) then ret tt
  else ignoring (OnTaskTerminalStatus ctx task).

(** *** The file of a completed task, in the metadata tree *)
Definition recordTaskMetadataCommitFailure (task : DownloadTask) (source : StorageSource)
    (objectPath virtualParentPath : string) (err : GoErr) : M GoErr World unit :=
  if negb (ts_operationJournal s) then ret tt
  else
    ignoring (RecordFailure true
      {| ri_OperationType := "task_commit"; ri_SourceNodeID := None;
         ri_TargetParentNodeID := optionalUintPtr (dt_TargetVFSParentNodeID task); ri_ResultNodeID := None;
         ri_SourcePathSnapshot := objectPath;
         ri_TargetPathSnapshot := taskCommitTargetPathSnapshot task virtualParentPath objectPath;
         ri_SourceIDSnapshot := Some (src_ID source); ri_DriverTypeSnapshot := src_DriverType source;
         ri_Payload := Some [("phase", PString "metadata_commit"); ("task_id", PScalar (JUint (dt_ID task)));
                             ("downloader_type", PString (dt_DownloaderType task)); ("status", PString (dt_Status task))];
         ri_PayloadJSON := ""; ri_ErrorCode := "METADATA_VFS_COMMIT_FAILED"; ri_Error := Some err;
         ri_CreatedBy := optionalUintPtr (dt_UserID task); ri_NextRetryAt := None |}).
(** Record a failed commit, and return an error. *)
Definition commit_failed {A} (task : DownloadTask) (source : StorageSource) (objectPath virtualParentPath : string)
    (err returned : GoErr) : M GoErr World A :=
  do! recordTaskMetadataCommitFailure task source objectPath virtualParentPath err ;; throw returned.

Definition task_commit (task : DownloadTask) (source : StorageSource) (innerParentPath filename targetPath : string)
    (size : Z) (mimeType : string) : MetadataVFSFileObjectCommitRequest :=
  {| mc_Source := Some source; mc_SourceID := 0; mc_DriverType := "";
     mc_VirtualParentPath := taskImportedMetadataVirtualParentPath task source innerParentPath;
     mc_ResolvedInnerParentPath := innerParentPath; mc_Filename := filename; mc_ObjectPath := targetPath;
     mc_LocatorType := ""; mc_LocatorJSON := ""; mc_Size := size; mc_MimeType := mimeType; mc_ETag := "";
     mc_Checksum := ""; mc_ActorID := Some (dt_UserID task) |}.
Definition commitTaskMetadataFileObject (task : DownloadTask) (source : StorageSource) (targetPath : string) (size : Z)
    (mimeType : string) : M GoErr World N :=
  if negb (ts_metadataCommitter s) then ret 0%N
  else
    split <-! lift_result (splitParentName targetPath) ;;
    let '(innerParentPath, filename) := split in
    let failed err := commit_failed task source targetPath (taskImportedMetadataVirtualParentPath task source innerParentPath)
                        err ErrMetadataVFSCommitFailed in
    result <-! CommitFileObject (task_commit task source innerParentPath filename targetPath size mimeType)
      or err => failed err ;;
    match result with
    | Some {| cr_Node := Some node |} => ret (vn_ID node)
    | _ => failed ErrMetadataVFSCommitFailed
    end.
Definition commitTaskImportedMetadataFile (task : DownloadTask) (source : StorageSource) (targetPath : string) (info : FileInfo)
    : M GoErr World N :=
  commitTaskMetadataFileObject task source targetPath (fsi_Size info) (detectContentType (path_base targetPath)).

Definition resolveExistingTaskResultNode (task : DownloadTask) (source : StorageSource) (targetPath : string)
    : M GoErr World (option N) :=
  if negb (ts_metadataReader s) then ret None
  else
    match splitParentName targetPath with
    | Err _ => ret None
    | Ok (innerParentPath, filename) =>
        if String.eqb filename "" then ret None
        else
          let virtualParentPath := taskImportedMetadataVirtualParentPath task source innerParentPath in
          if String.eqb (trim_space virtualParentPath) "" then ret None
          else
            node <-! ResolveNode (joinVirtualPath virtualParentPath filename) or _err => ret None ;;
            match node with
            | Some node =>
                ret (if metadataVFSNodeUnavailable node || negb (String.eqb (vn_Kind node) VFSNodeKindFile) then None
                     else match vn_SourceID node with
                          | Some id => if N.eqb id (src_ID source) then Some (vn_ID node) else None
                          | None => None
                          end)
            | None => ret None
            end
    end.

(** *** A file that is in its place already: its node, if it is *)
Definition recoverCompletedTaskResult (task : DownloadTask) (source : StorageSource) (targetPath : string)
    : M GoErr Host (option N) :=
  if String.eqb (trim_space targetPath) "" || negb (String.eqb (src_DriverType source) "local") then ret None
  else
    physical <-! lift_result (resolvePhysicalPath source targetPath) ;;
    info <-! on_disk (Stat (snd physical)) or err =>
      (match err with OsNotExist => ret None | _ => throw (os_error err) end) ;;
    if fsi_IsDir info then ret None
    else
      existing <-! on_world (resolveExistingTaskResultNode task source targetPath) ;;
      match existing with
      | Some nodeID => ret (Some nodeID)
      | None =>
          nodeID <-! on_world (commitTaskImportedMetadataFile task source targetPath info) or err => (
            existing <-! on_world (resolveExistingTaskResultNode task source targetPath) ;;
            match existing with Some existingID => ret (Some existingID) | None => throw err end) ;;
          ret (Some nodeID)
      end.

Fixpoint first_existing_candidate (task : DownloadTask) (source : StorageSource) (baseTargetPath : string)
    (candidates : list string) : M GoErr Host (option N) :=
  match candidates with
  | [] => ret None
  | relativePath :: rest =>
      let targetPath := joinVirtualPath baseTargetPath relativePath in
      physical <-! lift_result (resolvePhysicalPath source targetPath) ;;
      info <-! on_disk (Stat (snd physical)) or err =>
        (match err with
         | OsNotExist => first_existing_candidate task source baseTargetPath rest
         | _ => throw (os_error err)
         end) ;;
      if fsi_IsDir info then first_existing_candidate task source baseTargetPath rest
      else
        nodeID <-! on_world (commitTaskImportedMetadataFile task source targetPath info) ;;
        ret (Some nodeID)
  end.
Definition completedLocalTaskTargetExists (task : DownloadTask) : M GoErr Host (option N) :=
  source <-! on_world (SourceRepository_FindByID (taskResolvedSourceID task)) ;;
  if negb (String.eqb (src_DriverType source) "local") then ret None
  else
    baseTargetPath <-! lift_result (normalizeVirtualPath (task_base_path task)) ;;
    first_existing_candidate task source baseTargetPath (completedTaskSingleFileCandidateRelativePaths task).

(** *** Importing what was downloaded *)
Definition commitCompletedTaskWithoutStaging : M GoErr TaskRun unit :=
  task <-! the_task ;;
  if N.ltb 0 (dt_ResultVFSNodeID task) || negb (ts_metadataCommitter s) then ret tt
  else
    source <-! on_host (on_world (SourceRepository_FindByID (taskResolvedSourceID task))) ;;
    if String.eqb (src_DriverType source) "local" then
      imported <-! on_host (completedLocalTaskTargetExists task) ;;
      match imported with
      | Some nodeID => change_task (fun task => { task with dt_ResultVFSNodeID := nodeID })
      | None => throw ErrFileNotFound
      end
    else if negb (String.eqb (dt_DownloaderType task) DownloaderTypePikPakNative) then
      on_host (on_world (commit_failed task source "" (dt_SaveVirtualPath task) ErrMetadataVFSCommitFailed
        ErrMetadataVFSCommitFailed))
    else
      baseTargetPath <-! lift_result (normalizeVirtualPath (task_base_path task)) ;;
      filename <-! lift_result (completedTaskResultFilename task) or err =>
        on_host (on_world (commit_failed task source "" (dt_SaveVirtualPath task) err err)) ;;
      let targetPath := joinVirtualPath baseTargetPath filename in
      nodeID <-! on_host (on_world (commitTaskMetadataFileObject task source targetPath (completedTaskResultSize task)
                                      (detectContentType filename))) ;;
      if N.eqb nodeID 0 then
        on_host (on_world (commit_failed task source targetPath
          (taskImportedMetadataVirtualParentPath task source baseTargetPath) ErrMetadataVFSCommitFailed ErrMetadataVFSCommitFailed))
      else change_task (fun task => { task with dt_ResultVFSNodeID := nodeID }).

Definition importLocalStagedFile (source : StorageSource) (targetPath localPath : string) : M GoErr Host unit :=
  physical <-! lift_result (resolvePhysicalPath source targetPath) ;;
  let physicalPath := snd physical in
  _info <-! on_disk (Stat physicalPath) or err =>
    (match err with
     | OsNotExist =>
         do! os (OsMkdirAll (path_dir physicalPath)) ;;
         _u <-! on_disk (OsRename localPath physicalPath) or _err => (
           do! os (copyFile localPath physicalPath) ;;
           os (Remove localPath)) ;;
         ret tt
     | _ => throw (os_error err)
     end) ;;
  throw ErrFileAlreadyExists.
Definition importStagedFile (source : StorageSource) (targetPath localPath : string) : M GoErr Host unit :=
  if String.eqb (src_DriverType source) "local" then importLocalStagedFile source targetPath localPath
  else
    do! require_import_driver (src_DriverType source) ;;
    map_err normalizeImportDriverError (ImportFile (src_DriverType source) source targetPath localPath).

(** One file: stored and committed, or found to be stored. *)
Definition import_recovered (source : StorageSource) (targetPath : string) (err : GoErr) (done : M GoErr Host unit)
    : M GoErr TaskRun unit :=
  task <-! the_task ;;
  recovered <-! on_host (recoverCompletedTaskResult task source targetPath) ;;
  match recovered with
  | Some nodeID => do! on_host done ;; change_task (set_first_result nodeID)
  | None => throw err
  end.
Definition import_file (source : StorageSource) (baseTargetPath : string) (fileCount : nat) (file : stagedTaskFile)
    : M GoErr TaskRun unit :=
  task <-! the_task ;;
  let targetPath := joinVirtualPath baseTargetPath (taskImportRelativePath task file fileCount) in
  info <-! on_host (os (Stat (sf_localPath file))) ;;
  _u <-! on_host (importStagedFile source targetPath (sf_localPath file)) or err =>
    (if err_is err ErrFileAlreadyExists
     then import_recovered source targetPath err (_u <-! on_disk (Remove (sf_localPath file)) or _e => ret tt ;; ret tt)
     else throw err) ;;
  nodeID <-! on_host (on_world (commitTaskImportedMetadataFile task source targetPath info)) or err =>
    import_recovered source targetPath err (ret tt) ;;
  change_task (set_first_result nodeID).
Fixpoint import_files (source : StorageSource) (baseTargetPath : string) (fileCount : nat) (files : list stagedTaskFile)
    : M GoErr TaskRun unit :=
  match files with
  | [] => ret tt
  | file :: rest => do! import_file source baseTargetPath fileCount file ;; import_files source baseTargetPath fileCount rest
  end.

(** There is nothing in the staging directory: the file may be in place. *)
Definition import_nothing (err : GoErr) (discard : M GoErr Host unit) : M GoErr TaskRun unit :=
  task <-! the_task ;;
  imported <-! on_host (completedLocalTaskTargetExists task) ;;
  match imported with
  | Some nodeID => do! on_host discard ;; change_task (fun task => set_result nodeID (unstaged task))
  | None => throw err
  end.
Definition importCompletedTask : M GoErr TaskRun unit :=
  task <-! the_task ;;
  if String.eqb (trim_space (dt_StagingDir task)) "" then commitCompletedTaskWithoutStaging
  else
    files <-! on_host (on_disk (listStagedTaskFiles (dt_StagingDir task))) or err =>
      (match err with OsNotExist => import_nothing (os_error err) (ret tt) | _ => throw (os_error err) end) ;;
    match files with
    | [] => import_nothing ErrFileNotFound (discard_dir (dt_StagingDir task))
    | _ =>
        source <-! on_host (on_world (SourceRepository_FindByID (taskResolvedSourceID task))) ;;
        baseTargetPath <-! lift_result (normalizeVirtualPath (task_base_path task)) ;;
        do! import_files source baseTargetPath (length files) files ;;
        task <-! the_task ;;
        if ts_metadataCommitter s && N.eqb (dt_ResultVFSNodeID task) 0 then
          on_host (on_world (commit_failed task source "" (dt_SaveVirtualPath task) ErrMetadataVFSCommitFailed
            ErrMetadataVFSCommitFailed))
        else
          do! on_host (os (RemoveAll (dt_StagingDir task))) ;;
          change_task unstaged
    end.

(** *** Following the downloader *)
Definition told (status : DownloadStatus) (task : DownloadTask) : DownloadTask :=
  { task with
    dt_Status := ds_Status status; dt_DownloadedBytes := ds_CompletedBytes status; dt_TotalBytes := ds_TotalBytes status;
    dt_SpeedBytes := ds_DownloadSpeed status; dt_ETASeconds := ds_ETASeconds status; dt_ErrorMessage := ds_ErrorMessage status;
    dt_DisplayName ::= (fun name => if String.eqb (ds_DisplayName status) "" then name else ds_DisplayName status);
    dt_Progress ::= (fun progress =>
      match ds_ProgressPercent status, ds_TotalBytes status with
      | Some percent, _ => clampTaskProgressPercent percent
      | None, Some total => if Z.ltb 0 total then progress_of (ds_CompletedBytes status) total else progress
      | None, None => progress
      end) }.
Definition blank_message (message : option string) : bool :=
  match message with None => true | Some m => String.eqb (trim_space m) "" end.
Definition stopped (task : DownloadTask) : DownloadTask := { task with dt_SpeedBytes := 0%Z; dt_ETASeconds := None }.
(** It failed, or was cancelled, at the downloader. *)
Definition ended_task (message : string) (now : Z) (task : DownloadTask) : DownloadTask :=
  { (stopped task) with
    dt_ErrorMessage ::= (fun m => if blank_message m then Some message else m); dt_FinishedAt := Some now }.
Definition full_progress (task : DownloadTask) : DownloadTask :=
  { task with dt_Progress ::= fun progress => if SFltb progress float_100 then float_100 else progress }.
Definition import_over (now : Z) (task : DownloadTask) : DownloadTask :=
  { task with dt_ErrorMessage := None; dt_FinishedAt := Some now }.
Definition import_failed (err : GoErr) (now : Z) (task : DownloadTask) : DownloadTask :=
  { task with dt_Status := "failed"; dt_ErrorMessage := Some (err_text err); dt_FinishedAt := Some now }.
Definition run_now : M GoErr TaskRun Z := on_host (on_world time_now).

(** What a status of the downloader makes of the task; a completed one is
    imported. *)
Definition settle_status (status : DownloadStatus) : M GoErr TaskRun unit :=
  do! change_task (told status) ;;
  if String.eqb (ds_Status status) "failed" then now <-! run_now ;; change_task (ended_task "download failed" now)
  else if String.eqb (ds_Status status) "canceled" then
    now <-! run_now ;; change_task (ended_task "download canceled by downloader" now)
  else if String.eqb (ds_Status status) "completed" then
    do! change_task (fun task => full_progress (stopped task)) ;;
    _u <-! importCompletedTask or err => (now <-! run_now ;; change_task (import_failed err now)) ;;
    now <-! run_now ;;
    change_task (import_over now)
  else ret tt.
Definition store_task (ctx : Ctx) : M GoErr TaskRun unit :=
  now <-! run_now ;;
  do! change_task (fun task => { task with dt_UpdatedAt := now }) ;;
  task <-! the_task ;;
  do! on_host (on_world (TaskRepository_Update task)) ;;
  on_host (on_world (notifyTaskTerminalStatus ctx task)).
Definition refreshTask (ctx : Ctx) : M GoErr TaskRun unit :=
  task <-! the_task ;;
  if String.eqb (dt_ExternalID task) "" || isTerminalTaskStatus (dt_Status task) then ret tt
  else
    downloader <-! lift_result (downloaderForTask task) ;;
    status <-! on_host (downloader_status downloader (dt_ExternalID task)) ;;
    do! settle_status status ;;
    store_task ctx.

(** *** Listing *)
Definition zero_auth : RequestAuth := {| ra_UserID := 0; ra_Username := ""; ra_RoleKey := ""; ra_Status := ""; ra_Capabilities := [] |}.
Fixpoint list_tasks (ctx : Ctx) (auth : RequestAuth) (items : list DownloadTask) : M GoErr Host (list DownloadTaskView) :=
  match items with
  | [] => ret []
  | item :: rest =>
      if negb (CanReadTask (ra_UserID auth) (dt_UserID item) (ra_Capabilities auth)) then list_tasks ctx auth rest
      else
        refreshed <-! with_task item (refreshTask ctx) ;;
        views <-! list_tasks ctx auth rest ;;
        ret (toTaskView (snd refreshed) :: views)
  end.
Definition TaskService_List (ctx : Ctx) : M GoErr Host (list DownloadTaskView) :=
  items <-! on_world TaskRepository_List ;;
  list_tasks ctx (default zero_auth (RequestAuthFromContext ctx)) items.
Definition TaskService_Get (ctx : Ctx) (id : N) : M GoErr Host DownloadTaskView :=
  task <-! on_world (TaskRepository_FindByID id) ;;
  do! lift_result (authorizeTaskOwnership ctx task false) ;;
  refreshed <-! with_task task (refreshTask ctx) ;;
  ret (toTaskView (snd refreshed)).
Fixpoint sync_tasks (ctx : Ctx) (items : list DownloadTask) (syncErr : option GoErr) : M GoErr Host (option GoErr) :=
  match items with
  | [] => ret syncErr
  | item :: rest =>
      if isTerminalTaskStatus (dt_Status item) then sync_tasks ctx rest syncErr
      else
        refreshed <-! with_task item (refreshTask ctx) ;;
        sync_tasks ctx rest (match fst refreshed with Ok _ => syncErr | Err err => join_error syncErr err end)
  end.
Definition TaskService_SyncAll (ctx : Ctx) : M GoErr Host unit :=
  items <-! on_world TaskRepository_List ;;
  syncErr <-! sync_tasks ctx items None ;;
  lift_result (match syncErr with None => Ok tt | Some err => Err err end).

(** *** Creating *)
Definition resolveCreateTarget (ctx : Ctx) (req : CreateTaskRequest) : M GoErr World resolvedTaskTarget :=
  if negb (String.eqb (trim_space (ctr_TargetVirtualParentPath req)) "") then
    virtualParentPath <-! lift_result (normalizeVirtualPath (ctr_TargetVirtualParentPath req)) ;;
    let probeName := taskTargetProbeName req in
    resolved <-! (if ts_vfsResolver s then ResolveWritableTarget ctx (joinVirtualPath virtualParentPath probeName)
                  else throw ErrSourceDriverUnsupported) ;;
    match rp_Source resolved with
    | None => throw ErrNoBackingStorage
    | Some source =>
        split <-! lift_result (splitParentName (rp_InnerPath resolved)) ;;
        let '(resolvedInnerParentPath, _) := split in
        nodeID <-! task_nodeID virtualParentPath ;;
        ret {| tt_source := source; tt_savePath := resolvedInnerParentPath; tt_targetVFSParentNodeID := nodeID;
               tt_targetVirtualParentPath := virtualParentPath; tt_saveVirtualPath := virtualParentPath;
               tt_resolvedSourceID := src_ID source; tt_resolvedInnerSavePath := resolvedInnerParentPath |}
    end
  else if N.eqb (ctr_SourceID req) 0 || String.eqb (trim_space (ctr_SavePath req)) "" then throw ErrPathInvalid
  else
    source <-! SourceRepository_FindByID (ctr_SourceID req) ;;
    savePath <-! lift_result (normalizeVirtualPath (ctr_SavePath req)) ;;
    let merged := mergeMountAndInnerPath (src_MountPath source) savePath in
    let saveVirtualPath := if String.eqb merged "" then savePath else merged in
    nodeID <-! task_nodeID saveVirtualPath ;;
    ret {| tt_source := source; tt_savePath := savePath; tt_targetVFSParentNodeID := nodeID; tt_targetVirtualParentPath := "";
           tt_saveVirtualPath := saveVirtualPath; tt_resolvedSourceID := src_ID source; tt_resolvedInnerSavePath := savePath |}.

(** The task of a request. *)
Definition new_task (userID : N) (req : CreateTaskRequest) (target : resolvedTaskTarget)
    (downloaderType stagingDir displayName externalID : string) (progress : spec_float) (now : Z) : DownloadTask :=
  {| dt_ID := 0; dt_UserID := userID; dt_Type := ctr_Type req; dt_DownloaderType := downloaderType; dt_Status := "pending";
     dt_SourceID := src_ID (tt_source target); dt_SavePath := tt_savePath target;
     dt_TargetVFSParentNodeID := tt_targetVFSParentNodeID target;
     dt_TargetVirtualParentPath := tt_targetVirtualParentPath target; dt_TargetFilename := ctr_TargetFilename req;
     dt_SaveVirtualPath := tt_saveVirtualPath target; dt_ResolvedSourceID := tt_resolvedSourceID target;
     dt_ResolvedInnerSavePath := tt_resolvedInnerSavePath target; dt_ResultVFSNodeID := 0; dt_StagingDir := stagingDir;
     dt_DisplayName := displayName; dt_SourceURL := ctr_URL req; dt_ExternalID := externalID; dt_Progress := progress;
     dt_DownloadedBytes := 0; dt_TotalBytes := None; dt_SpeedBytes := 0; dt_ETASeconds := None; dt_ErrorMessage := None;
     dt_FinishedAt := None; dt_CreatedAt := now; dt_UpdatedAt := now |}.
Definition task_create_event (result code : string) (target : resolvedTaskTarget) : Event :=
  { (event "task" "create" result code "") with ev_SourceID := Some (src_ID (tt_source target));
    ev_VirtualPath := tt_saveVirtualPath target }.
(** The answer to a task that was created. *)
Definition task_created (ctx : Ctx) (target : resolvedTaskTarget) (task : DownloadTask) : M GoErr Host DownloadTaskView :=
  do! task_audit ctx
    { (task_create_event ResultSuccess "" target) with ev_ResourceID := encodeUintID (dt_ID task);
      ev_After := taskAuditView task } ;;
  ret (toTaskView task).

(** [None] where the source does not download by itself. *)
Definition tryCreateNativeDownloadTask (ctx : Ctx) (req : CreateTaskRequest) (target : resolvedTaskTarget)
    : M GoErr Host (option DownloadTaskView) :=
  let source := tt_source target in
  let driver := src_DriverType source in
  let refused {A} err : M GoErr Host A := refuse_task ctx (task_create_event ResultFailed (taskCreateErrorCode err) target) err in
  if String.eqb (ClassifyDownloadLink (ctr_URL req)) RSSLinkTypeUnsupported || negb (nativeDownloadDrivers driver) then ret None
  else
    nativeTask <-! on_world (CreateNativeDownload driver source
        {| nr_URL := ctr_URL req; nr_TargetDirPath := tt_savePath target; nr_TargetFilename := ctr_TargetFilename req |})
      or err =>
        (if err_is err ErrSourceOperationUnsupported || err_is err ErrDownloadLinkUnsupported then ret None else refused err) ;;
    match nativeTask with
    | None => refused ErrCloudProviderUnavailable
    | Some nativeTask =>
        let externalID := trim_space (nt_ExternalID nativeTask) in
        if String.eqb externalID "" then refused ErrCloudProviderUnavailable
        else
          now <-! on_world time_now ;;
          let progress := match nt_ProgressPercent nativeTask with
                          | Some progress => clampTaskProgressPercent progress
                          | None => S754_zero false
                          end in
          let task := new_task (currentTaskUserID ctx) req target DownloaderTypePikPakNative ""
                        (trim_space (nt_DisplayName nativeTask)) externalID progress now in
          task <-! on_world (TaskRepository_Create task) or err => (
            do! ignoring (on_world (CancelNativeDownload driver source externalID false)) ;;
            refuse_task ctx (task_create_event ResultFailed "INTERNAL_ERROR" target) err) ;;
          view <-! task_created ctx target task ;;
          ret (Some view)
    end.

(** A task of one of the downloaders. *)
Definition create_staged_task (ctx : Ctx) (req : CreateTaskRequest) (target : resolvedTaskTarget) : M GoErr Host DownloadTaskView :=
  let refused {A} err : M GoErr Host A := refuse_task ctx (task_create_event ResultFailed (taskCreateErrorCode err) target) err in
  do! (if String.eqb (src_DriverType (tt_source target)) "local" then ret tt
       else _u <-! require_import_driver (src_DriverType (tt_source target)) or err => refused err ;; ret tt) ;;
  downloaderType <-! lift_result (router_select (ctr_URL req)) or err => refused err ;;
  stagingDir <-! on_world (newTaskStagingDir downloaderType) ;;
  _u <-! os (OsMkdirAll stagingDir) or err => refused err ;;
  let failed {A} err : M GoErr Host A :=
    do! discard_dir stagingDir ;; refuse_task ctx (task_create_event ResultFailed "INTERNAL_ERROR" target) err in
  externalID <-! AddURI downloaderType (ctr_URL req) stagingDir or err => failed err ;;
  now <-! on_world time_now ;;
  let task := new_task (currentTaskUserID ctx) req target downloaderType stagingDir (guessTaskDisplayName (ctr_URL req))
                externalID (S754_zero false) now in
  task <-! on_world (TaskRepository_Create task) or err => failed err ;;
  task_created ctx target task.

Definition TaskService_Create (ctx : Ctx) (req : CreateTaskRequest) : M GoErr Host DownloadTaskView :=
  let of_request code := { (event "task" "create" ResultFailed code "") with ev_SourceID := Some (ctr_SourceID req) } in
  targetFilename <-! lift_result (normalizeTaskTargetFilename (ctr_TargetFilename req)) or err =>
    refuse_task ctx (of_request "FILE_NAME_INVALID") err ;;
  let req := {| ctr_Type := ctr_Type req; ctr_URL := ctr_URL req; ctr_SourceID := ctr_SourceID req;
                ctr_SavePath := ctr_SavePath req; ctr_TargetVirtualParentPath := ctr_TargetVirtualParentPath req;
                ctr_TargetFilename := targetFilename |} in
  target <-! on_world (resolveCreateTarget ctx req) or err => refuse_task ctx (of_request (taskCreateErrorCode err)) err ;;
  _u <-! on_world (authorizeTaskPath ctx (src_ID (tt_source target)) (tt_savePath target) ACLActionWrite) or err =>
    refuse_task ctx (task_create_event ResultDenied "ACL_DENIED" target) err ;;
  native <-! tryCreateNativeDownloadTask ctx req target ;;
  match native with
  | Some view => ret view
  | None => create_staged_task ctx req target
  end.

(** *** Cancelling, pausing, resuming *)
Definition task_event (action result code : string) (id : N) : Event := event "task" action result code (encodeUintID id).
Definition task_event_before (action result code : string) (id : N) (before : list (string * Json)) : Event :=
  { (task_event action result code id) with ev_Before := before }.
(** The task a request manages. *)
Definition managed_task (ctx : Ctx) (action : string) (id : N) : M GoErr Host DownloadTask :=
  task <-! on_world (TaskRepository_FindByID id) or err =>
    refuse_task ctx (task_event action ResultFailed "TASK_NOT_FOUND" id) err ;;
  _u <-! lift_result (authorizeTaskOwnership ctx task true) or err =>
    refuse_task ctx (task_event_before action ResultDenied "PERMISSION_DENIED" id (taskAuditView task)) err ;;
  ret task.

Definition canceled_task (now : Z) (task : DownloadTask) : DownloadTask :=
  { (stopped task) with dt_Status := "canceled"; dt_ErrorMessage := Some "download canceled by user";
    dt_FinishedAt := Some now; dt_UpdatedAt := now }.
Definition cancelNativeDownloadTask (task : DownloadTask) (deleteFile : bool) : M GoErr World unit :=
  source <-! SourceRepository_FindByID (taskResolvedSourceID task) ;;
  if negb (nativeDownloadDrivers (src_DriverType source)) then throw ErrSourceDriverUnsupported
  else CancelNativeDownload (src_DriverType source) source (dt_ExternalID task) deleteFile.
Definition remove_download (task : DownloadTask) (deleteFile : bool) : M GoErr Host unit :=
  if String.eqb (dt_ExternalID task) "" then ret tt
  else if String.eqb (dt_DownloaderType task) DownloaderTypePikPakNative
  then ignoring (on_world (cancelNativeDownloadTask task deleteFile))
  else match downloaderForTask task with
       | Err _ => ret tt
       | Ok downloader => ignoring (downloader_remove downloader (dt_ExternalID task))
       end.
Definition TaskService_Cancel (ctx : Ctx) (id : N) (deleteFile : bool) : M GoErr Host CancelTaskResponse :=
  task <-! managed_task ctx "cancel" id ;;
  let before := taskAuditView task in
  if isTerminalTaskStatus (dt_Status task) then
    do! task_audit ctx
      { (task_event_before "cancel" ResultSuccess "" id before) with ev_After := before;
        ev_Detail := [("delete_file", JBool deleteFile); ("idempotent", JBool true)] } ;;
    ret {| ct_ID := id; ct_Canceled := String.eqb (dt_Status task) "canceled"; ct_DeleteFile := deleteFile |}
  else
    now <-! on_world time_now ;;
    let task := canceled_task now task in
    _u <-! on_world (TaskRepository_Update task) or err =>
      refuse_task ctx (task_event_before "cancel" ResultFailed "INTERNAL_ERROR" id before) err ;;
    do! remove_download task deleteFile ;;
    do! on_world (notifyTaskTerminalStatus ctx task) ;;
    do! task_audit ctx
      { (task_event_before "cancel" ResultSuccess "" id before) with ev_After := taskAuditView task;
        ev_Detail := [("delete_file", JBool deleteFile)] } ;;
    ret {| ct_ID := id; ct_Canceled := true; ct_DeleteFile := deleteFile |}.

(** A task goes from one of the statuses [from] to [to], once its
    downloader has done so. *)
Definition switch_task (ctx : Ctx) (action : string) (from : list string) (to : string)
    (run : Downloader -> string -> M GoErr Host unit) (id : N) : M GoErr Host TaskActionResponse :=
  task <-! managed_task ctx action id ;;
  let before := taskAuditView task in
  let refused {A} code err : M GoErr Host A := refuse_task ctx (task_event_before action ResultFailed code id before) err in
  downloader <-! lift_result (downloaderForTask task) or err => refused "SOURCE_DRIVER_UNSUPPORTED" err ;;
  if negb (existsb (String.eqb (dt_Status task)) from) then refused "TASK_INVALID_STATE" ErrTaskInvalidState
  else
    _u <-! run downloader (dt_ExternalID task) or err => refused (taskErrorCode err) err ;;
    now <-! on_world time_now ;;
    let task := { task with dt_Status := to; dt_UpdatedAt := now } in
    _u <-! on_world (TaskRepository_Update task) or err => refused "INTERNAL_ERROR" err ;;
    do! task_audit ctx { (task_event_before action ResultSuccess "" id before) with ev_After := taskAuditView task } ;;
    ret {| ta_ID := dt_ID task; ta_Status := dt_Status task |}.
Definition TaskService_Pause (ctx : Ctx) (id : N) : M GoErr Host TaskActionResponse :=
  switch_task ctx "pause" ["pending"; "running"] "paused" downloader_pause id.
Definition TaskService_Resume (ctx : Ctx) (id : N) : M GoErr Host TaskActionResponse :=
  switch_task ctx "resume" ["paused"] "running" downloader_resume id.
End Service.
