(* ===== verification/TaskProps.v ===== *)
(** * Download tasks: what becomes of them

    A task that is over stays as it is, whoever asks for what
    ([ended_tasks_final]); no one but its owner, and those allowed to,
    reaches a task ([tasks_isolated]); a task that is completed has been
    imported ([completed_tasks_imported]). *)
From S2P Require Import Prelude Ints GoStrings Runes Errors Entities Paths Mounts Permission Tables Db Auditing Repos MetaRepos Acl AclService Journal Users Auth Notifications MetaTree Storage Files Uploads UploadProps Commits CommitProps Tasks RssRules Rss TaskService.
From stdpp Require Import base list strings gmap sets pretty.
From Stdlib Require Import ZArith Lia Ascii SpecFloat.

Local Open Scope string_scope.
Local Open Scope list_scope.
Local Open Scope go_scope.

(** ** What the collaborators leave alone *)
Definition beside_tasks : list Table :=
  [TUser; TToken; TRule; TSource; TConfig; TNode; TObject; TOperation; TAudit; TUpload; TMount; TTag; TNodeTag; TChannel;
   TNotification; TShare; TTrash; TRssSource; TRssSubscription; TRssItem].
Section Laws.
Context `{DatabaseLaws}.
Implicit Types w : World.
#[export] Instance frames_preorder ts : PreOrder (frames ts).
Proof. split; [exact (frames_refl ts)|exact (frames_trans ts)]. Qed.
(** No node of the tree has the ID 0, which stands for none. *)
Definition identified w : Prop := forall n, n ∈ tbl TNode w -> vn_ID n <> 0%N.
Definition calmly w w' : Prop := frames beside_tasks w w' /\ keeping identified w w'.
#[export] Instance calmly_preorder : PreOrder calmly.
Proof.
  unfold calmly. split; [intros w; split; reflexivity|]. intros w w' w'' [H1 K1] [H2 K2]. split; [etransitivity; [exact H1|exact H2]|etransitivity; [exact K1|exact K2]].
Qed.
Definition beside (h h' : Host) : Prop := calmly (h_world h) (h_world h').
#[export] Instance beside_preorder : PreOrder beside.
Proof. unfold beside. split; [intros h; reflexivity|intros h h' h''; apply transitivity]. Qed.
Notation calm m := (steps calmly m).
Class DownloadersLaws {DL : Downloaders} : Prop := {
  add_law : forall t uri dir, steps beside (AddURI t uri dir);
  status_law : forall t id, steps beside (TellStatus t id);
  pause_law : forall t id, steps beside (PauseDownload t id);
  resume_law : forall t id, steps beside (ResumeDownload t id);
  remove_law : forall t id, steps beside (RemoveDownload t id)
}.
Class NativeDownloadLaws {ND : NativeDownloadDrivers} : Prop := {
  native_create_law : forall t src req, calm (CreateNativeDownload t src req);
  native_status_law : forall t src id, calm (GetNativeDownloadStatus t src id);
  native_cancel_law : forall t src id del, calm (CancelNativeDownload t src id del);
  native_pause_law : forall t src id, calm (PauseNativeDownload t src id);
  native_resume_law : forall t src id, calm (ResumeNativeDownload t src id)
}.
Class TaskObserverLaws {OB : TaskTerminalStatusObserver} : Prop :=
  observer_law : forall ctx task, calm (OnTaskTerminalStatus ctx task).
(** The node of a commit is one of the tree. *)
Definition has_node (r : option MetadataVFSFileObjectCommitResult) : Prop :=
  match r with Some {| cr_Node := Some node |} => vn_ID node <> 0%N | _ => True end.
Class CommittedNodeLaws {MC : MetadataVFSCommitter} : Prop :=
  committed_node_law : forall req, yields identified (CommitFileObject req) has_node.

Lemma calm_within {A} ts (m : M GoErr World A) : within ts m -> TNode ∉ ts -> ts ⊆ beside_tasks -> calm m.
Proof.
  intros Hm Ht Hs w. eapply wp_mono; [apply Hm|]. intros r w' Hf. split; [exact (frames_mono _ _ _ _ Hf Hs)|].
  intros Hi n. rewrite (frames_tbl ts w w' TNode Hf Ht). apply Hi.
Qed.
Lemma frames_calmly w w' : frames [] w w' -> calmly w w'.
Proof.
  intros Hf. split; [eapply frames_mono; [exact Hf|set_solver]|]. intros Hi n. rewrite (frames_tbl [] w w' TNode Hf ltac:(set_solver)). apply Hi.
Qed.
Lemma same_calmly w w' : same w w' -> calmly w w'.
Proof. intros Hs. by apply frames_calmly, same_frames. Qed.
Lemma calm_reads {A} (m : M GoErr World A) : within [] m -> calm m.
Proof. intros Hm. apply (calm_within [] m Hm); set_solver. Qed.
End Laws.
Notation calm m := (steps calmly m).

Section Tasks.
Context `{DatabaseLaws} {MR : MetadataReader} {MRL : MetadataReaderLaws} {MC : MetadataVFSCommitter} {MCL : MetadataVFSCommitterLaws}
  {CNL : CommittedNodeLaws}
  {DL : Downloaders} {DLL : DownloadersLaws} {ND : NativeDownloadDrivers} {NDL : NativeDownloadLaws} {ID : ImportDrivers}
  {IDL : ImportDriverLaws} {OB : TaskTerminalStatusObserver} {OBL : TaskObserverLaws} {WT : WritableTargetResolver}
  {WTL : WritableTargetLaws} {UL : UuidLibrary} {ULL : UuidLaws} {UP : UrlParser} {UPA : UrlPath} {TF : TimeFormat}
  {JD : JsonDecoder} {MT : MimeTypes} (s : TaskService).
Implicit Types w : World.
Implicit Types h : Host.

(** *** In the world *)
Create HintDb calm.
Ltac calm_step := first [ steps_step | lazymatch goal with |- steps calmly _ => solve [eauto with calm] end ].
Ltac calm_tac := repeat calm_step.
Lemma calm_ignoring {A} (m : M GoErr World A) : calm m -> calm (ignoring m).
Proof. intros Hm. apply (steps_bind_or _); [done|intros ?; apply (steps_ret _)..]. Qed.
Lemma calm_record task source o p err : calm (recordTaskMetadataCommitFailure s task source o p err).
Proof.
  unfold recordTaskMetadataCommitFailure. destruct (negb _); [apply (steps_ret _)|]. apply calm_ignoring, (calm_within [TOperation]); [|set_solver..].
  unfold RecordFailure, record, with_repo, VFSOperationRepository_Create. frame_tac.
Qed.
#[local] Hint Resolve calm_record : calm.
Lemma calm_failed {A} task source o p err r : calm (commit_failed s task source o p err r : M GoErr World A).
Proof. unfold commit_failed. calm_tac. Qed.
Lemma calm_commit req : calm (CommitFileObject req).
Proof.
  intros w. eapply wp_mono; [apply wp_conj; [apply committer_law|exact (steps_yields _ _ _ (committed_node_law req) w)]|].
  intros r w' [Hf Hi]. split; [|done]. eapply frames_mono; [exact Hf|set_solver].
Qed.
#[local] Hint Resolve calm_failed calm_commit : calm.
Lemma calm_commit_object task source path size mime : calm (commitTaskMetadataFileObject s task source path size mime).
Proof. unfold commitTaskMetadataFileObject. calm_tac. Qed.
Lemma calm_commit_file task source path info : calm (commitTaskImportedMetadataFile s task source path info).
Proof. apply calm_commit_object. Qed.
Lemma calm_node p : calm (ResolveNode p).
Proof. apply calm_reads, reads_path. Qed.
#[local] Hint Resolve calm_commit_object calm_commit_file calm_node : calm.
Lemma calm_existing task source path : calm (resolveExistingTaskResultNode s task source path).
Proof. unfold resolveExistingTaskResultNode. calm_tac. Qed.
Lemma calm_source id : calm (SourceRepository_FindByID id).
Proof. apply calm_reads. unfold SourceRepository_FindByID. frame_tac. Qed.
#[local] Hint Resolve calm_existing calm_source : calm.
Lemma calm_native id : calm (native_resolve id).
Proof. unfold native_resolve. calm_tac. Qed.
Lemma calm_notify ctx task : calm (notifyTaskTerminalStatus s ctx task).
Proof. unfold notifyTaskTerminalStatus. destruct (_ || _); [apply (steps_ret _)|apply calm_ignoring, observer_law]. Qed.
Lemma calm_authorize ctx id p action : calm (authorizeTaskPath s ctx id p action).
Proof. apply calm_reads. unfold authorizeTaskPath. destruct (ts_aclAuthorizer s); [apply authorize_path_within|apply within_ret]. Qed.
Lemma calm_nodeID p : calm (task_nodeID s p).
Proof. unfold task_nodeID, resolveMetadataVFSNodeID. calm_tac. Qed.
Lemma calm_resolver ctx p : calm (ResolveWritableTarget ctx p).
Proof. apply calm_reads, resolver_law. Qed.
#[local] Hint Resolve calm_native calm_notify calm_authorize calm_nodeID calm_resolver : calm.
Lemma calm_target ctx req : calm (resolveCreateTarget s ctx req).
Proof. unfold resolveCreateTarget. calm_tac. Qed.
Lemma calm_uuid : calm NewString.
Proof. apply calm_reads. intros w. eapply wp_mono; [apply uuid_law|]. intros r w' Hs. by apply same_frames. Qed.
Lemma calm_time : calm (time_now : M GoErr World Z).
Proof. apply calm_reads, within_time. Qed.
#[local] Hint Resolve calm_uuid calm_time calm_target : calm.
Lemma calm_staging t : calm (newTaskStagingDir s t).
Proof. unfold newTaskStagingDir. calm_tac. Qed.
Lemma calm_audit ctx e : calm (recordServiceAudit ctx (ts_auditRecorder s) e).
Proof. apply (calm_within [TAudit]); [apply within_audit; set_solver|set_solver..]. Qed.
#[local] Hint Resolve calm_staging calm_audit native_create_law native_status_law native_cancel_law
  native_pause_law native_resume_law : calm.

(** *** In the host *)
Notation aside m := (steps beside m).
Lemma aside_world {A} (m : M GoErr World A) : calm m -> aside (on_world m).
Proof. by apply steps_zoom. Qed.
Lemma aside_disk {A} (m : M OsErr Disk A) : aside (on_disk m).
Proof. apply (steps_zoom (fun _ _ => True)); [|by intros d]. by intros h d _. Qed.
Lemma aside_os {A} (m : M OsErr Disk A) : aside (os m).
Proof. apply (steps_map_err _), aside_disk. Qed.
Lemma aside_ignoring {A} (m : M GoErr Host A) : aside m -> aside (ignoring m).
Proof. intros Hm. apply (steps_bind_or _); [done|intros ?; apply (steps_ret _)..]. Qed.
Lemma aside_import t src target path : aside (ImportFile t src target path).
Proof.
  intros h. eapply wp_mono; [apply import_law|]. intros r h' (Hf & _). split; [eapply frames_mono; [exact Hf|set_solver]|].
  intros Hi n. rewrite (frames_tbl _ _ _ TNode Hf ltac:(set_solver)). apply Hi.
Qed.
Ltac aside_step :=
  first [ steps_step
        | lazymatch goal with
          | |- steps beside (on_world _) => apply aside_world; calm_tac
          | |- steps beside (on_disk _) => apply aside_disk
          | |- steps beside (os _) => apply aside_os
          | |- steps beside (ignoring _) => apply aside_ignoring
          | |- steps beside _ => solve [eauto with aside]
          end ].
Ltac aside_tac := repeat aside_step.
Create HintDb aside.
#[local] Hint Resolve aside_import add_law status_law pause_law resume_law remove_law : aside.

Lemma aside_native_call {A} id (f : string -> StorageSource -> M GoErr World A) : (forall t src, calm (f t src)) -> aside (native_call id f).
Proof. intros Hf. apply aside_world, (steps_bind _); [apply calm_native|intros src; apply Hf]. Qed.
Lemma aside_status d id : aside (downloader_status d id).
Proof. destruct d; cbn; [apply status_law|]. apply (steps_bind _); [apply aside_native_call; intros; apply native_status_law|aside_tac]. Qed.
Lemma aside_pause d id : aside (downloader_pause d id).
Proof. destruct d; cbn; [apply pause_law|apply aside_native_call; intros; apply native_pause_law]. Qed.
Lemma aside_resume d id : aside (downloader_resume d id).
Proof. destruct d; cbn; [apply resume_law|apply aside_native_call; intros; apply native_resume_law]. Qed.
Lemma aside_remove d id : aside (downloader_remove d id).
Proof. destruct d; cbn; [apply remove_law|apply aside_native_call; intros; apply native_cancel_law]. Qed.
#[local] Hint Resolve aside_status aside_pause aside_resume aside_remove : aside.
Lemma aside_audit ctx e : aside (task_audit s ctx e).
Proof. apply aside_world, calm_audit. Qed.
#[local] Hint Resolve aside_audit : aside.
Lemma aside_refuse {A} ctx e err : aside (refuse_task s ctx e err : M GoErr Host A).
Proof. unfold refuse_task. aside_tac. Qed.
Lemma aside_discard dir : aside (discard_dir dir).
Proof. unfold discard_dir. aside_tac. Qed.
#[local] Hint Resolve aside_refuse aside_discard : aside.
Lemma aside_recover task source path : aside (recoverCompletedTaskResult s task source path).
Proof. unfold recoverCompletedTaskResult. aside_tac. Qed.
Lemma aside_candidate task source base candidates : aside (first_existing_candidate s task source base candidates).
Proof. induction candidates as [|c rest IH]; cbn [first_existing_candidate]; aside_tac; apply IH. Qed.
#[local] Hint Resolve aside_recover aside_candidate : aside.
Lemma aside_exists task : aside (completedLocalTaskTargetExists s task).
Proof. unfold completedLocalTaskTargetExists. aside_tac. Qed.
Lemma aside_import_local source path file : aside (importLocalStagedFile source path file).
Proof. unfold importLocalStagedFile. aside_tac. Qed.
#[local] Hint Resolve aside_exists aside_import_local : aside.
Lemma aside_import_staged source path file : aside (importStagedFile source path file).
Proof. unfold importStagedFile, require_import_driver. aside_tac. Qed.
#[local] Hint Resolve aside_import_staged : aside.

(** *** On a task *)
Definition on_task (r r' : TaskRun) : Prop := beside (tk_host r) (tk_host r') /\ dt_ID (tk_task r') = dt_ID (tk_task r).
#[local] Instance on_task_preorder : PreOrder on_task.
Proof.
  unfold on_task. split; [by intros r|]. intros r r' r'' [H1 E1] [H2 E2]. split; [by etransitivity|congruence].
Qed.
Notation apart m := (steps on_task m).
Lemma apart_host {E A} (m : M E Host A) : aside m -> apart (on_host m).
Proof. intros Hm. apply (steps_zoom beside on_task); [|done]. intros r h Hb. by split. Qed.
Lemma apart_task {E} : apart (the_task : M E TaskRun DownloadTask).
Proof. apply (steps_gets _). Qed.
Lemma apart_change {E} f : (forall t, dt_ID (f t) = dt_ID t) -> apart (change_task f : M E TaskRun unit).
Proof. intros Hf. apply (steps_modify on_task). intros r. split; [reflexivity|apply Hf]. Qed.
Lemma apart_now : apart run_now.
Proof. apply apart_host, aside_world, calm_time. Qed.
Lemma set_first_id id t : dt_ID (set_first_result id t) = dt_ID t.
Proof. unfold set_first_result. by destruct (_ && _). Qed.
Lemma set_result_id id t : dt_ID (set_result id t) = dt_ID t.
Proof. unfold set_result. by destruct (N.ltb _ _). Qed.
#[local] Hint Resolve apart_task apart_now set_first_id set_result_id : aside.
Ltac apart_step :=
  first [ steps_step
        | lazymatch goal with
          | |- steps on_task (on_host _) => apply apart_host; aside_tac
          | |- steps on_task (change_task _) => apply apart_change; intros ?; first [reflexivity | solve [eauto with aside]]
          | |- steps on_task _ => solve [eauto with aside]
          end ].
Ltac apart_tac := repeat apart_step.
Lemma apart_unstaged : apart (commitCompletedTaskWithoutStaging s).
Proof. unfold commitCompletedTaskWithoutStaging. apart_tac. Qed.
Lemma apart_recovered source path err done_ : aside done_ -> apart (import_recovered s source path err done_).
Proof. intros Hd. unfold import_recovered. apart_tac. Qed.
#[local] Hint Resolve apart_unstaged apart_recovered : aside.
Lemma apart_file source base n file : apart (import_file s source base n file).
Proof. unfold import_file. apart_tac; apply apart_recovered; aside_tac. Qed.
#[local] Hint Resolve apart_file : aside.
Lemma apart_files source base n files : apart (import_files s source base n files).
Proof. induction files as [|f rest IH]; cbn [import_files]; apart_tac; apply IH. Qed.
Lemma apart_nothing err discard : aside discard -> apart (import_nothing s err discard).
Proof. intros Hd. unfold import_nothing. apart_tac. unfold set_result. by destruct (N.ltb _ _). Qed.
#[local] Hint Resolve apart_files apart_nothing : aside.
Lemma apart_import : apart (importCompletedTask s).
Proof. unfold importCompletedTask. apart_tac; apply apart_nothing; aside_tac. Qed.
#[local] Hint Resolve apart_import : aside.
Lemma apart_settle status : apart (settle_status s status).
Proof. unfold settle_status. apart_tac. Qed.

(** ** Requests *)
Inductive TaskRequest : Type :=
| RqList | RqGet (id : N) | RqSync | RqCreate (req : CreateTaskRequest) | RqCancel (id : N) (deleteFile : bool)
| RqPause (id : N) | RqResume (id : N).
Inductive TaskAnswer : Type :=
| AnsViews (views : list DownloadTaskView) | AnsDone | AnsCancel (c : CancelTaskResponse) | AnsAction (a : TaskActionResponse).
Definition answer {A} (m : M GoErr Host A) (f : A -> TaskAnswer) : M GoErr Host TaskAnswer := a <-! m ;; ret (f a).
Definition serve (ctx : Ctx) (rq : TaskRequest) : M GoErr Host TaskAnswer :=
  match rq with
  | RqList => answer (TaskService_List s ctx) AnsViews
  | RqGet id => answer (TaskService_Get s ctx id) (fun v => AnsViews [v])
  | RqSync => answer (TaskService_SyncAll s ctx) (fun _ => AnsDone)
  | RqCreate req => answer (TaskService_Create s ctx req) (fun v => AnsViews [v])
  | RqCancel id deleteFile => answer (TaskService_Cancel s ctx id deleteFile) AnsCancel
  | RqPause id => answer (TaskService_Pause s ctx id) AnsAction
  | RqResume id => answer (TaskService_Resume s ctx id) AnsAction
  end.
Definition serve_all (rqs : list (Ctx * TaskRequest)) h : Host := fold_left (fun h cr => snd (serve (fst cr) (snd cr) h)) rqs h.
(** The tasks an answer is about. *)
Definition answer_ids (a : TaskAnswer) : list N :=
  match a with AnsViews vs => map dv_ID vs | AnsDone => [] | AnsCancel c => [ct_ID c] | AnsAction a => [ta_ID a] end.

Definition tasks w : list DownloadTask := tbl TTask w.
Definition over (t : DownloadTask) : Prop := isTerminalTaskStatus (dt_Status t) = true.
(** Who may see, or manage, a task. *)
Definition reaches (ctx : Ctx) (t : DownloadTask) : bool :=
  let auth := default zero_auth (RequestAuthFromContext ctx) in
  CanReadTask (ra_UserID auth) (dt_UserID t) (ra_Capabilities auth) ||
  CanManageTask (ra_UserID auth) (dt_UserID t) (ra_Capabilities auth).

#[local] Notation any := anything.
(** What a request keeps: an invariant [I] of the world which other tables
    do not matter to, and which holds after an update of a task the request
    may touch, and after a new one. *)
Section Keeps.
Context (I : World -> Prop) (good allowed : DownloadTask -> Prop) (shown : N -> Prop) (ctx : Ctx).
Definition seen (task : DownloadTask) : Prop := exists w t, I w /\ t ∈ tasks w /\ task = taskModelFromEntity t.
Context (Hbeside : forall w w', calmly w w' -> I w -> I w').
Context (Hgood : forall task now, good task -> good { task with dt_UpdatedAt := now }).
Context (Hplain : forall task, dt_Status task <> "completed" -> good task).
Context (Hsettle : forall status run, I (h_world (tk_host run)) ->
  wp (settle_status s status) (fun r run' => match r with Ok _ => good (tk_task run') | Err _ => True end) run).
Context (Hupdate : forall task task', seen task -> allowed task -> ~ over task -> dt_ID task' = dt_ID task -> good task' ->
  winv I (TaskRepository_Update task')).
Context (Hcreate : forall task, dt_ID task = 0%N -> dt_Status task = "pending" ->
  yields I (TaskRepository_Create task) (fun t => shown (dt_ID t))).
Context (Hshown : forall task, seen task -> allowed task -> shown (dt_ID task)).

Definition in_host h : Prop := I (h_world h).
Notation ensures m Q := (yields in_host m Q).
Lemma ens_aside {A} (m : M GoErr Host A) : aside m -> ensures m any.
Proof.
  intros Hm h HI. eapply wp_mono; [apply Hm|]. intros r h' Hf. split; [exact (Hbeside _ _ Hf HI)|by destruct r].
Qed.
Lemma ens_refuse {A} e err (Q : A -> Prop) : ensures (refuse_task s ctx e err) Q.
Proof. apply (yields_bind _ _ _ any); [apply ens_aside, aside_audit|intros _ _; apply yields_throw]. Qed.
Lemma ens_world {A} (m : M GoErr World A) (Q : A -> Prop) : yields I m Q -> ensures (on_world m) Q.
Proof. intros Hm h HI. apply wp_zoom. by apply Hm. Qed.
Lemma ens_find id : ensures (on_world (TaskRepository_FindByID id)) (fun task => seen task /\ dt_ID task = id).
Proof.
  apply ens_world. intros w HI. unfold TaskRepository_FindByID. apply wp_bind, (wp_first TTask).
  - intros e w' Hs _. split; [|done]. exact (Hbeside _ _ (same_calmly _ _ Hs) HI).
  - intros w' Hs _. split; [|done]. exact (Hbeside _ _ (same_calmly _ _ Hs) HI).
  - intros t w' Hs Ht Hid _. apply wp_ret. split; [exact (Hbeside _ _ (same_calmly _ _ Hs) HI)|].
    split; [by exists w, t|by apply N.eqb_eq in Hid].
Qed.
Lemma ens_list : ensures (on_world TaskRepository_List) (Forall seen).
Proof.
  apply ens_world. intros w HI. unfold TaskRepository_List. apply wp_bind, (wp_select TTask).
  - intros e w' Hs _. split; [|done]. exact (Hbeside _ _ (same_calmly _ _ Hs) HI).
  - intros all w' Hs Hp _. apply wp_ret. split; [exact (Hbeside _ _ (same_calmly _ _ Hs) HI)|].
    apply Forall_forall. intros task (t & -> & Ht)%list_elem_of_fmap. exists w, t. split; [done|]. split; [|done].
    cbn [limited] in Ht. rewrite Hp in Ht. by apply elem_of_sel in Ht as [? _].
Qed.

(** *** A refresh *)
Lemma wp_with_task {A} task (m : M GoErr TaskRun A) (Q : result GoErr (result GoErr A * DownloadTask) -> Host -> Prop) h :
  wp m (fun r run => Q (Ok (r, tk_task run)) (tk_host run)) {| tk_host := h; tk_task := task |} -> wp (with_task task m) Q h.
Proof. unfold wp, with_task. by destruct (m _). Qed.
Lemma ens_refresh task : seen task -> allowed task -> ensures (with_task task (refreshTask s ctx)) (fun r => dt_ID (snd r) = dt_ID task).
Proof.
  intros Hseen Hall h HI. apply wp_with_task. unfold refreshTask. apply wp_bind, wp_gets. cbn [tk_task].
  destruct (_ || _) eqn:Eo; [by apply wp_ret|]. apply orb_false_iff in Eo as [_ Eo].
  apply wp_bind, wp_lift_result. destruct (downloaderForTask _) as [d|e]; [|done].
  apply wp_bind. eapply wp_mono; [apply (apart_host _ (aside_status d _))|]. intros [status|e] r1 [Hb1 E1]; [|split; [by eapply Hbeside|done]].
  apply wp_bind. eapply wp_mono; [apply wp_conj; [apply apart_settle|apply Hsettle; by eapply Hbeside]|].
  intros [u|e] r2 [[Hb2 E2] Hg]; [|split; [eapply (Hbeside (h_world h)); [by etransitivity|done]|cbn in *; congruence]].
  assert (I (h_world (tk_host r2))) as HI2 by (eapply (Hbeside (h_world h)); [by etransitivity|done]).
  assert (dt_ID (tk_task r2) = dt_ID task) as Eid by (cbn in *; congruence).
  unfold store_task. apply wp_bind, wp_zoom, wp_zoom, wp_time_now. apply wp_bind, wp_modify, wp_bind, wp_gets, wp_bind, wp_zoom, wp_zoom.
  cbn [tk_host tk_task h_world]. eapply wp_mono.
  { apply (Hupdate task); [done|done|unfold over; by rewrite Eo|exact Eid|apply Hgood, Hg|]. eapply Hbeside; [|exact HI2]. apply frames_calmly, tick_frames. }
  intros [u'|e] w3 HI3; [|by split]. apply wp_zoom, wp_zoom. eapply wp_mono; [apply calm_notify|]. intros r w4 Hf.
  cbn [tk_host tk_task h_world] in *. split; [by eapply Hbeside|]. by destruct r.
Qed.

(** *** Every request *)
Context (Hreach : forall task, reaches ctx task = true -> allowed task).
Lemma ownership_reaches task manage : authorizeTaskOwnership ctx task manage = Ok tt -> reaches ctx task = true.
Proof.
  unfold authorizeTaskOwnership, reaches. destruct (RequestAuthFromContext ctx) as [auth|]; [|done]. cbn [default].
  destruct manage; [destruct (CanManageTask _ _ _)|destruct (CanReadTask _ _ _)]; rewrite ?orb_true_r; done.
Qed.
Lemma ens_list_tasks items : Forall seen items ->
  ensures (list_tasks s ctx (default zero_auth (RequestAuthFromContext ctx)) items) (Forall (fun v => shown (dv_ID v))).
Proof.
  induction 1 as [|item rest Hi Hr IH]; cbn [list_tasks]; [by apply yields_ret|].
  destruct (CanReadTask _ _ _) eqn:Ec; cbn [negb]; [|exact IH].
  assert (allowed item) as Ha by (apply Hreach; unfold reaches; by rewrite Ec).
  eapply yields_bind; [by apply ens_refresh|]. intros [r task] Et. cbn [snd] in *.
  eapply yields_bind; [exact IH|]. intros views Hv. apply yields_ret. constructor; [|done]. cbn. rewrite Et. by apply Hshown.
Qed.
Lemma ens_sync items joined : Forall seen items -> (forall task, allowed task) -> ensures (sync_tasks s ctx items joined) any.
Proof.
  intros Hitems Hall. revert joined. induction Hitems as [|item rest Hi Hr IH]; intros joined; cbn [sync_tasks]; [by apply yields_ret|].
  destruct (isTerminalTaskStatus _); [apply IH|]. eapply yields_bind; [by apply ens_refresh|]. intros r _. apply IH.
Qed.
Lemma ens_created target task : shown (dt_ID task) -> ensures (task_created s ctx target task) (fun v => shown (dv_ID v)).
Proof. intros Ht. apply (yields_bind _ _ _ any); [apply ens_aside, aside_audit|]. intros _ _. by apply yields_ret. Qed.
Lemma ens_new task : dt_ID task = 0%N -> dt_Status task = "pending" ->
  ensures (on_world (TaskRepository_Create task)) (fun t => shown (dt_ID t)).
Proof. intros E1 E2. by apply ens_world, Hcreate. Qed.
Lemma ens_try req target : ensures (tryCreateNativeDownloadTask s ctx req target)
  (fun v => match v with Some v => shown (dv_ID v) | None => True end).
Proof.
  unfold tryCreateNativeDownloadTask. cbv zeta. destruct (_ || _); [by apply yields_ret|].
  apply (yields_bind_or _ _ _ _ any); [apply ens_aside, aside_world, native_create_law| |].
  { intros e. destruct (_ || _); [by apply yields_ret|apply ens_refuse]. }
  intros [nt|] _; [|apply ens_refuse]. destruct (String.eqb _ ""); [apply ens_refuse|].
  apply (yields_bind _ _ _ any); [apply ens_aside, aside_world, calm_time|]. intros now _.
  eapply yields_bind_or; [by apply ens_new| |].
  - intros e. apply (yields_bind _ _ _ any); [|intros _ _; apply ens_refuse].
    apply ens_aside, aside_ignoring, aside_world, native_cancel_law.
  - intros task Ht. eapply yields_bind; [by apply ens_created|]. intros v Hv. by apply yields_ret.
Qed.
Lemma ens_staged req target : ensures (create_staged_task s ctx req target) (fun v => shown (dv_ID v)).
Proof.
  unfold create_staged_task. cbv zeta. apply (yields_bind _ _ _ any).
  { destruct (String.eqb _ _); [by apply yields_ret|].
    apply (yields_bind_or _ _ _ _ any); [apply ens_aside; unfold require_import_driver; aside_tac|intros e; apply ens_refuse|intros u _; by apply yields_ret]. }
  intros _ _. apply (yields_bind_or _ _ _ _ any); [apply ens_aside, (steps_lift _)|intros e; apply ens_refuse|]. intros t _.
  apply (yields_bind _ _ _ any); [apply ens_aside, aside_world, calm_staging|]. intros dir _.
  apply (yields_bind_or _ _ _ _ any); [apply ens_aside, aside_os|intros e; apply ens_refuse|]. intros _ _.
  assert (forall (A : Type) (Q : A -> Prop) ev err, ensures (do! discard_dir dir ;; refuse_task s ctx ev err) Q) as Hfailed.
  { intros A Q ev err. apply (yields_bind _ _ _ any); [apply ens_aside, aside_discard|]. intros _ _. apply ens_refuse. }
  apply (yields_bind_or _ _ _ _ any); [apply ens_aside, add_law|intros e; apply Hfailed|]. intros id _.
  apply (yields_bind _ _ _ any); [apply ens_aside, aside_world, calm_time|]. intros now _.
  eapply yields_bind_or; [by apply ens_new|intros e; apply Hfailed|]. intros task Ht. by apply ens_created.
Qed.
Lemma ens_create req : ensures (TaskService_Create s ctx req) (fun v => shown (dv_ID v)).
Proof.
  unfold TaskService_Create. cbv zeta. apply (yields_bind_or _ _ _ _ any); [apply ens_aside, (steps_lift _)|intros e; apply ens_refuse|].
  intros name _. apply (yields_bind_or _ _ _ _ any); [apply ens_aside, aside_world, calm_target|intros e; apply ens_refuse|].
  intros target _. apply (yields_bind_or _ _ _ _ any); [apply ens_aside, aside_world, calm_authorize|intros e; apply ens_refuse|].
  intros _ _. eapply yields_bind; [apply ens_try|]. intros [v|] Hv; [by apply yields_ret|apply ens_staged].
Qed.
Lemma ens_managed action id : ensures (managed_task s ctx action id) (fun task => (seen task /\ dt_ID task = id) /\ allowed task).
Proof.
  unfold managed_task. eapply yields_bind_or; [apply ens_find|intros e; apply ens_refuse|]. intros task Ht.
  eapply (yields_bind_or _ _ _ _ (fun _ => authorizeTaskOwnership ctx task true = Ok tt)); [apply yields_lift; by intros []|intros e; apply ens_refuse|].
  intros _ Ho. apply yields_ret. split; [done|]. by eapply Hreach, ownership_reaches.
Qed.
Lemma ens_update task task' : seen task -> allowed task -> ~ over task -> dt_ID task' = dt_ID task -> good task' ->
  ensures (on_world (TaskRepository_Update task')) any.
Proof.
  intros H1 H2 H3 H4 H5. apply ens_world. intros w HI. eapply wp_mono; [by apply (Hupdate task task')|].
  intros r w' HI'. split; [done|by destruct r].
Qed.
Lemma ens_cancel id del : ensures (TaskService_Cancel s ctx id del) (fun c => shown (ct_ID c)).
Proof.
  unfold TaskService_Cancel. eapply yields_bind; [apply ens_managed|]. intros task [[Hs Eid] Ha]. cbv zeta.
  assert (shown id) as Hid by (rewrite <- Eid; by apply Hshown).
  destruct (isTerminalTaskStatus _) eqn:Eo; [apply (yields_bind _ _ _ any); [apply ens_aside, aside_audit|by intros _ _; apply yields_ret]|].
  apply (yields_bind _ _ _ any); [apply ens_aside, aside_world, calm_time|]. intros now _.
  apply (yields_bind_or _ _ _ _ any); [|intros e; apply ens_refuse|].
  { apply (ens_update task); [done|done|unfold over; by rewrite Eo|done|by apply Hplain]. }
  intros _ _. apply (yields_bind _ _ _ any).
  { apply ens_aside. unfold remove_download, cancelNativeDownloadTask. aside_tac. }
  intros _ _. apply (yields_bind _ _ _ any); [apply ens_aside, aside_world, calm_notify|]. intros _ _.
  apply (yields_bind _ _ _ any); [apply ens_aside, aside_audit|]. intros _ _. by apply yields_ret.
Qed.
Lemma ens_switch action from to run id : (forall d e, aside (run d e)) -> to <> "completed" ->
  (forall t, existsb (String.eqb t) from = true -> isTerminalTaskStatus t = false) ->
  ensures (switch_task s ctx action from to run id) (fun a => shown (ta_ID a)).
Proof.
  intros Hrun Hto Hfrom. unfold switch_task. eapply yields_bind; [apply ens_managed|]. intros task [[Hs Eid] Ha]. cbv zeta.
  apply (yields_bind_or _ _ _ _ any); [apply ens_aside, (steps_lift _)|intros e; apply ens_refuse|]. intros d _.
  destruct (existsb _ _) eqn:Ef; cbn [negb]; [|apply ens_refuse].
  apply (yields_bind_or _ _ _ _ any); [apply ens_aside, Hrun|intros e; apply ens_refuse|]. intros _ _.
  apply (yields_bind _ _ _ any); [apply ens_aside, aside_world, calm_time|]. intros now _.
  apply (yields_bind_or _ _ _ _ any); [|intros e; apply ens_refuse|].
  { apply (ens_update task); [done|done|unfold over; by rewrite (Hfrom _ Ef)|done|by apply Hplain]. }
  intros _ _. apply (yields_bind _ _ _ any); [apply ens_aside, aside_audit|]. intros _ _. apply yields_ret. by apply (Hshown task).
Qed.
Lemma ens_serve rq : (rq = RqSync -> forall task, allowed task) -> ensures (serve ctx rq) (fun a => Forall shown (answer_ids a)).
Proof.
  intros Hsync. destruct rq as [|id| |req|id del|id|id]; cbn [serve]; unfold answer.
  - eapply yields_bind; [|intros views Hv; apply yields_ret; cbn; by apply Forall_fmap].
    unfold TaskService_List. eapply yields_bind; [apply ens_list|]. intros items Hi. by apply ens_list_tasks.
  - eapply (yields_bind _ _ _ (fun v => shown (dv_ID v))); [|intros v Hv; apply yields_ret; by repeat constructor].
    unfold TaskService_Get. eapply yields_bind; [apply ens_find|]. intros task [Hs Eid].
    apply (yields_bind _ _ _ (fun _ => authorizeTaskOwnership ctx task false = Ok tt)); [apply yields_lift; by intros []|]. intros _ Ho.
    assert (allowed task) as Ha by by eapply Hreach, ownership_reaches.
    eapply yields_bind; [by apply ens_refresh|]. intros [r task'] Et. apply yields_ret. cbn in *. rewrite Et. by apply Hshown.
  - apply (yields_bind _ _ _ any); [|intros _ _; by apply yields_ret].
    unfold TaskService_SyncAll. eapply yields_bind; [apply ens_list|]. intros items Hi.
    apply (yields_bind _ _ _ any); [apply ens_sync; auto|]. intros e _. by apply yields_lift.
  - eapply yields_bind; [apply ens_create|]. intros v Hv. apply yields_ret. by repeat constructor.
  - eapply yields_bind; [apply ens_cancel|]. intros c Hc. apply yields_ret. by repeat constructor.
  - eapply yields_bind; [apply ens_switch; [apply aside_pause|done|]|intros a Ha; apply yields_ret; by repeat constructor].
    cbn. intros t. rewrite !orb_true_iff, !String.eqb_eq. by intros [->|[->|?]].
  - eapply yields_bind; [apply ens_switch; [apply aside_resume|done|]|intros a Ha; apply yields_ret; by repeat constructor].
    cbn. intros t. rewrite orb_true_iff, String.eqb_eq. by intros [->|?].
Qed.
End Keeps.

(** ** A stored task *)
Definition stands (t : DownloadTask) w : Prop := valid w /\ t ∈ tasks w.
Lemma stands_calm t w w' : calmly w w' -> stands t w -> stands t w'.
Proof.
  intros [Hf _] [Hv Ht]. split; [by apply (proj1 (proj2 Hf))|]. unfold tasks. by rewrite (frames_tbl beside_tasks w w' TTask Hf ltac:(set_solver)).
Qed.
Lemma same_task w a b : valid w -> a ∈ tasks w -> b ∈ tasks w -> dt_ID a = dt_ID b -> a = b.
Proof.
  intros Hv Ha Hb E. destruct (no_conflicts_elem TTask _ _ _ (Hv TTask) Ha Hb) as [|Hc]; [done|]. cbn in Hc. by rewrite E, N.eqb_refl in Hc.
Qed.
(** What was read of a task in a world where [t] stands is another task, or
    says what [t] does. *)
Lemma seen_task t task : seen (stands t) task -> dt_ID task = dt_ID t -> task = taskModelFromEntity t.
Proof. intros (w & x & [Hv Ht] & Hx & ->) E. by rewrite (same_task w x t Hv Hx Ht E). Qed.
Lemma update_other t task : dt_ID task <> dt_ID t -> winv (stands t) (TaskRepository_Update task).
Proof.
  intros Hne w HI. destruct HI as [Hv Ht]. apply (wp_update_found TTask).
  - intros e w' Hs _. by apply (stands_calm t w); [apply same_calmly|].
  - intros w' Hs _. by apply (stands_calm t w); [apply same_calmly|].
  - intros now w' l _ Hn Hp. split; [by apply (put_valid TTask l w)|]. unfold tasks. rewrite (proj1 Hp). apply elem_of_set_where.
    right. split; [done|]. apply N.eqb_neq. congruence.
Qed.
Lemma create_other t task : yields (stands t) (TaskRepository_Create task) (fun new => dt_ID new <> dt_ID t).
Proof.
  intros w HI. pose proof HI as [Hv Ht]. apply wp_bind, (wp_insert TTask).
  - intros e w' Hs _. split; [|done]. by apply (stands_calm t w); [apply same_calmly|].
  - intros id now w' r' _ Ha Hp. apply wp_ret. split; [split|].
    + apply (put_valid TTask _ w w' Hp); [|done]. by apply absent_no_conflicts.
    + unfold tasks. rewrite (proj1 Hp). apply elem_of_app. by left.
    + unfold absent in Ha. rewrite forallb_forall in Ha. specialize (Ha t (proj1 (list_elem_of_In _ _) Ht)).
      cbn in Ha |- *. apply negb_true_iff, N.eqb_neq in Ha. congruence.
Qed.
(** A request that may not touch a task leaves it as it is, and does not
    show it. *)
Lemma serve_stands t (allowed : DownloadTask -> Prop) (shown : N -> Prop) ctx rq :
  (forall task, seen (stands t) task -> allowed task -> ~ over task -> dt_ID task <> dt_ID t) ->
  (forall task, seen (stands t) task -> allowed task -> shown (dt_ID task)) ->
  (forall id, id <> dt_ID t -> shown id) ->
  (forall task, reaches ctx task = true -> allowed task) -> (rq = RqSync -> forall task, allowed task) ->
  yields (in_host (stands t)) (serve ctx rq) (fun a => Forall shown (answer_ids a)).
Proof.
  intros Hother Hshown Hnew Hreach Hsync. apply (ens_serve (stands t) any allowed shown ctx); try done.
  - intros w w'. apply stands_calm.
  - intros status run _. unfold wp. by destruct (fst _).
  - intros task task' Hs Ha Ho E _. apply update_other. rewrite E. by apply Hother.
  - intros task _ _. eapply yields_mono; [apply create_other|]. intros new. apply Hnew.
Qed.

(** C21: a task that is over, completed, failed or canceled, stays as it is,
    in every column, whatever requests follow and whatever fails. *)
Theorem ended_tasks_final rqs h t : valid (h_world h) -> t ∈ tasks (h_world h) -> over t ->
  t ∈ tasks (h_world (serve_all rqs h)).
Proof.
  intros Hv Ht Ho. apply (fun H : stands t (h_world (serve_all rqs h)) => proj2 H).
  assert (stands t (h_world h)) as HI by done. clear Hv Ht. revert h HI.
  induction rqs as [|[ctx rq] rqs IH]; intros h HI; [done|]. apply IH. cbn [fst snd].
  eapply (serve_stands t any any ctx rq); try done. intros task Hs _ Hno E. apply Hno. by rewrite (seen_task t task Hs E).
Qed.

(** C24: a request by someone who may neither see nor manage a task, but
    for a synchronisation, leaves the task as it is and answers nothing
    about it. *)
Theorem tasks_isolated ctx rq h t : valid (h_world h) -> t ∈ tasks (h_world h) -> reaches ctx t = false -> rq <> RqSync ->
  let '(r, h') := serve ctx rq h in
  t ∈ tasks (h_world h') /\ match r with Ok a => dt_ID t ∉ answer_ids a | Err _ => True end.
Proof.
  intros Hv Ht Hr Hrq. pose proof (serve_stands t (fun task => reaches ctx task = true) (fun id => id <> dt_ID t) ctx rq) as Hs.
  assert (forall task, seen (stands t) task -> reaches ctx task = true -> dt_ID task <> dt_ID t) as Hne.
  { intros task Hseen Ha E. rewrite (seen_task t task Hseen E) in Ha. change (reaches ctx (taskModelFromEntity t)) with (reaches ctx t) in Ha. congruence. }
  specialize (Hs ltac:(auto) Hne ltac:(done) ltac:(done) ltac:(done) h (conj Hv Ht)). unfold wp in Hs.
  destruct (serve ctx rq h) as [[a|e] h']; cbn [fst snd] in Hs; destruct Hs as [[_ Ht'] Ha]; (split; [done|]); [|done].
  intros Hin. rewrite Forall_forall in Ha. by apply (Ha _ Hin).
Qed.

(** ** A completed task *)
Definition imported (t : DownloadTask) : Prop := dt_ResultVFSNodeID t <> 0%N /\ trim_space (dt_StagingDir t) = "".
Definition recorded w : Prop := identified w /\ Forall (fun t => dt_Status t = "completed" -> imported t) (tasks w).

Section Imported.
Context (Hcommitter : ts_metadataCommitter s = true).
Definition host_ok h : Prop := identified (h_world h).
Definition some_node (r : option N) : Prop := match r with Some id => id <> 0%N | None => True end.
Lemma calm_identified {A} (m : M GoErr World A) : calm m -> yields identified m anything.
Proof. intros Hm. apply yields_steps. eapply steps_mono; [|exact Hm]. by intros w w' [_ Hk]. Qed.
Lemma on_world_ok {A} (m : M GoErr World A) (Q : A -> Prop) : yields identified m Q -> yields host_ok (on_world m) Q.
Proof. intros Hm h Hh. apply wp_zoom. by apply Hm. Qed.
Lemma aside_ok {E A} (m : M E Host A) : aside m -> yields host_ok m anything.
Proof. intros Hm. apply yields_steps. eapply steps_mono; [|exact Hm]. by intros h h' [_ Hk]. Qed.
Lemma refused_any {A} task source o p err r (Q : A -> Prop) : yields identified (commit_failed s task source o p err r) Q.
Proof. apply (yields_bind _ _ _ anything); [apply calm_identified, calm_record|intros _ _; apply yields_throw]. Qed.
Lemma object_node task source path size mime :
  yields identified (commitTaskMetadataFileObject s task source path size mime) (fun id => id <> 0%N).
Proof.
  unfold commitTaskMetadataFileObject. rewrite Hcommitter. cbn [negb].
  apply (yields_bind _ _ _ anything); [by apply yields_lift|]. intros [parent name] _.
  eapply yields_bind_or; [apply committed_node_law|intros e; apply refused_any|].
  intros [[[node|] ?]|] Hn; [by apply yields_ret|apply refused_any..].
Qed.
Lemma candidate_node task source base candidates : yields host_ok (first_existing_candidate s task source base candidates) some_node.
Proof.
  induction candidates as [|c rest IH]; cbn [first_existing_candidate]; [by apply yields_ret|].
  apply (yields_bind _ _ _ anything); [by apply yields_lift|]. intros physical _.
  apply (yields_bind_or _ _ _ _ anything); [apply aside_ok, aside_disk| |].
  - intros []; try apply yields_throw. exact IH.
  - intros info _. destruct (fsi_IsDir info); [exact IH|].
    eapply yields_bind; [apply on_world_ok, object_node|]. intros id Hid. by apply yields_ret.
Qed.
Lemma exists_node task : yields host_ok (completedLocalTaskTargetExists s task) some_node.
Proof.
  unfold completedLocalTaskTargetExists. apply (yields_bind _ _ _ anything); [apply on_world_ok, calm_identified, calm_source|].
  intros source _. destruct (negb _); [by apply yields_ret|].
  apply (yields_bind _ _ _ anything); [by apply yields_lift|]. intros base _. apply candidate_node.
Qed.

(** *** Work on a task that ends with its import *)
Definition at_task (task : DownloadTask) (run : TaskRun) : Prop := host_ok (tk_host run) /\ tk_task run = task.
Definition finishes (task : DownloadTask) (m : M GoErr TaskRun unit) : Prop := forall run, at_task task run ->
  wp m (fun r run' => match r with Ok _ => imported (tk_task run') | Err _ => True end) run.
Lemma run_host {E A} task (m : M E Host A) (Q : A -> Prop) : yields host_ok m Q -> yields (at_task task) (on_host m) Q.
Proof. intros Hm run [Hr Et]. apply wp_zoom. eapply wp_mono; [by apply Hm|]. by intros r h [Hh HQ]. Qed.
Lemma run_aside {E A} task (m : M E Host A) : aside m -> yields (at_task task) (on_host m) anything.
Proof. intros Hm. by apply run_host, aside_ok. Qed.
Lemma finishes_bind {A} task (m : M GoErr TaskRun A) k (P : A -> Prop) :
  yields (at_task task) m P -> (forall a, P a -> finishes task (k a)) -> finishes task (bind m k).
Proof. intros Hm Hk run Hr. apply wp_bind. eapply wp_mono; [by apply Hm|]. intros [a|e] run' [Hr' HP]; [by apply Hk|done]. Qed.
Lemma finishes_bind_or {E A} task (m : M E TaskRun A) f k (P : A -> Prop) :
  yields (at_task task) m P -> (forall e, finishes task (f e)) -> (forall a, P a -> finishes task (k a)) -> finishes task (bind_or m f k).
Proof.
  intros Hm Hf Hk run Hr. apply wp_bind_or. eapply wp_mono; [by apply Hm|]. intros [a|e] run' [Hr' HP]; [by apply Hk|by apply Hf].
Qed.
Lemma finishes_task task k : finishes task (k task) -> finishes task (bind the_task k).
Proof. intros Hk run Hr. apply wp_bind, wp_gets. rewrite (proj2 Hr). by apply Hk. Qed.
Lemma finishes_apart {A} task (m : M GoErr TaskRun A) k : apart m -> (forall a task', finishes task' (k a)) -> finishes task (bind m k).
Proof.
  intros Hm Hk run [Hr _]. apply wp_bind. eapply wp_mono; [apply Hm|]. intros [a|e] run' [[_ Hi] _]; [|done].
  apply (Hk a (tk_task run')). split; [by apply Hi|done].
Qed.
Lemma finishes_throw task e : finishes task (throw e).
Proof. by intros run. Qed.
Lemma finishes_change task f : imported (f task) -> finishes task (change_task f).
Proof. intros Hf run [_ Et]. apply wp_modify. cbn. by rewrite Et. Qed.
Lemma finishes_refused task task' source o p err r : finishes task (on_host (on_world (commit_failed s task' source o p err r))).
Proof.
  intros run [Hr _]. apply wp_zoom, wp_zoom. eapply wp_mono; [apply (refused_any _ _ _ _ _ _ (fun _ : unit => False)); exact Hr|].
  intros [u|e] w' [_ []]; done.
Qed.
Lemma finishes_nothing task err discard : aside discard -> finishes task (import_nothing s err discard).
Proof.
  intros Hd. apply finishes_task. eapply finishes_bind; [apply run_host, exists_node|]. intros [id|] Hid; [|apply finishes_throw].
  apply (finishes_bind _ _ _ anything); [by apply run_aside|]. intros _ _. apply finishes_change.
  unfold set_result. destruct (N.ltb_spec 0 id); [done|]. cbn in Hid. lia.
Qed.
Lemma finishes_unstaged task : trim_space (dt_StagingDir task) = "" -> finishes task (commitCompletedTaskWithoutStaging s).
Proof.
  intros Hs. apply finishes_task. rewrite Hcommitter, orb_false_r. destruct (N.ltb_spec 0 (dt_ResultVFSNodeID task)).
  { intros run [_ Et]. apply wp_ret. rewrite Et. split; [lia|done]. }
  apply (finishes_bind _ _ _ anything); [apply run_aside, aside_world, calm_source|]. intros source _.
  assert (forall id, id <> 0%N -> finishes task (change_task (fun task => { task with dt_ResultVFSNodeID := id }))) as Hset.
  { intros id Hid. by apply finishes_change. }
  destruct (String.eqb _ "local").
  { eapply finishes_bind; [apply run_host, exists_node|]. intros [id|] Hid; [by apply Hset|apply finishes_throw]. }
  destruct (negb _); [apply finishes_refused|].
  apply (finishes_bind _ _ _ anything); [by apply yields_lift|]. intros base _.
  apply (finishes_bind_or _ _ _ _ anything); [by apply yields_lift|intros e; apply finishes_refused|]. intros name _.
  eapply finishes_bind; [apply run_host, on_world_ok, object_node|]. intros id Hid. cbv zeta.
  destruct (N.eqb id 0); [apply finishes_refused|by apply Hset].
Qed.
Lemma finishes_import task : finishes task (importCompletedTask s).
Proof.
  apply finishes_task. destruct (String.eqb_spec (trim_space (dt_StagingDir task)) ""); [by apply finishes_unstaged|].
  apply (finishes_bind_or _ _ _ _ anything); [apply run_aside, aside_disk| |].
  { intros []; try apply finishes_throw. apply finishes_nothing. aside_tac. }
  intros [|file files] _; [apply finishes_nothing, aside_discard|].
  apply (finishes_bind _ _ _ anything); [apply run_aside, aside_world, calm_source|]. intros source _.
  apply (finishes_bind _ _ _ anything); [by apply yields_lift|]. intros base _.
  apply finishes_apart; [apply apart_files|]. intros _ task'. apply finishes_task. rewrite Hcommitter. cbn [andb].
  destruct (N.eqb_spec (dt_ResultVFSNodeID task') 0); [apply finishes_refused|].
  apply (finishes_bind _ _ _ anything); [apply run_aside, aside_os|]. intros _ _. by apply finishes_change.
Qed.
Lemma settle_imported status run : identified (h_world (tk_host run)) ->
  wp (settle_status s status) (fun r run' => match r with Ok _ => dt_Status (tk_task run') = "completed" -> imported (tk_task run') | Err _ => True end) run.
Proof.
  intros Hr. unfold settle_status. apply wp_bind, wp_modify.
  destruct (String.eqb_spec (ds_Status status) "failed") as [E|_].
  { apply wp_bind, wp_zoom, wp_zoom, wp_time_now, wp_modify. cbn. by rewrite E. }
  destruct (String.eqb_spec (ds_Status status) "canceled") as [E|_].
  { apply wp_bind, wp_zoom, wp_zoom, wp_time_now, wp_modify. cbn. by rewrite E. }
  destruct (String.eqb_spec (ds_Status status) "completed") as [E|Hne]; [|by apply wp_ret].
  apply wp_bind, wp_modify, wp_bind_or. eapply wp_mono; [eapply finishes_import; split; [exact Hr|reflexivity]|].
  intros [u|e] run' Hi; apply wp_bind, wp_zoom, wp_zoom, wp_time_now, wp_modify; cbn; [by intros _|done].
Qed.

(** *** What is stored *)
Lemma recorded_calm w w' : calmly w w' -> recorded w -> recorded w'.
Proof.
  intros [Hf Hk] [Hi Ht]. split; [by apply Hk|]. unfold tasks. by rewrite (frames_tbl beside_tasks w w' TTask Hf ltac:(set_solver)).
Qed.
Lemma recorded_put l w w' : put TTask l w w' -> Forall (fun t => dt_Status t = "completed" -> imported t) l -> recorded w -> recorded w'.
Proof.
  intros Hp Hl [Hi _]. split; [|unfold tasks; by rewrite (proj1 Hp)]. intros n. rewrite (proj1 (proj2 Hp) TNode) by done. apply Hi.
Qed.
Lemma update_recorded task : (dt_Status task = "completed" -> imported task) -> winv recorded (TaskRepository_Update task).
Proof.
  intros Ht w Hw. apply (wp_update_found TTask).
  - intros e w' Hs _. by apply (recorded_calm w); [apply same_calmly|].
  - intros w' Hs _. by apply (recorded_calm w); [apply same_calmly|].
  - intros now w' l _ _ Hp. apply (recorded_put l w); [done| |done]. apply Forall_forall. intros x.
    intros [(y & _ & _ & ->)|[Hx _]]%elem_of_set_where; [exact Ht|]. by apply (proj1 (Forall_forall _ _) (proj2 Hw)).
Qed.
Lemma create_recorded task : dt_Status task = "pending" -> yields recorded (TaskRepository_Create task) anything.
Proof.
  intros Hp w Hw. apply wp_bind, (wp_insert TTask).
  - intros e w' Hs _. split; [|done]. by apply (recorded_calm w); [apply same_calmly|].
  - intros id now w' r' _ _ Hput. apply wp_ret. split; [|done]. apply (recorded_put _ w _ Hput); [|done].
    apply Forall_app. split; [apply Hw|]. constructor; [|done]. unfold r'. cbn. by rewrite Hp.
Qed.

(** C22: for a service that commits to the metadata tree, where no node has
    the ID 0: if every completed task has a result, the ID of a node and not
    the 0 that stands for none, and no staging directory recorded for it,
    this stays so, whatever requests are made and whatever fails: a task is
    recorded as completed only then.  The result may be the node of a file
    that was at the target already, in place of which the download is
    dropped; and that the staging directory is gone from the disk is not
    stated, for its removal may fail unseen. *)
Theorem completed_tasks_imported rqs h : recorded (h_world h) -> recorded (h_world (serve_all rqs h)).
Proof.
  revert h. induction rqs as [|[ctx rq] rqs IH]; intros h Hw; [done|]. apply IH. cbn [fst snd].
  eapply (ens_serve recorded (fun t => dt_Status t = "completed" -> imported t) anything anything ctx); try done.
  - apply recorded_calm.
  - intros status run [Hi _]. by apply settle_imported.
  - intros task task' _ _ _ _. apply update_recorded.
  - intros task _. apply create_recorded.
Qed.
End Imported.
End Tasks.

(** ** The commits of the metadata tree give nodes *)
Section Commits.
Context `{DatabaseLaws} `{JV : JsonValueDecoder} `{MT : MimeTypes} (s : MetadataVFSCommitService).
Notation found m := (yields identified m (fun n : VFSNode => vn_ID n <> 0%N)).
#[local] Notation any := anything.
Lemma identified_same w w' : same w w' -> identified w -> identified w'.
Proof. intros Hs. exact (proj2 (same_calmly w w' Hs)). Qed.
Lemma node_by_path p : found (VFSNodeRepository_FindByPath p).
Proof.
  intros w Hi. apply (wp_first TNode).
  - intros e w' Hs _. split; [by eapply identified_same|done].
  - intros w' Hs _. split; [by eapply identified_same|done].
  - intros n w' Hs Hn _ _. split; [by eapply identified_same|by apply Hi].
Qed.
Lemma node_upserted node : found (VFSNodeRepository_UpsertByPath node).
Proof.
  unfold VFSNodeRepository_UpsertByPath. apply (yields_bind _ _ _ any); [|intros _ _; apply node_by_path].
  intros w Hi. apply (wp_upsert TNode).
  - intros e w' Hs _. split; [by eapply identified_same|done].
  - intros id now now' w' r' l _ _ Hp. split; [|done]. intros n. rewrite (proj1 Hp).
    intros [(y & Hy & _ & ->)|[Hn _]]%elem_of_set_where; [exact (Hi y Hy)|exact (Hi n Hn)].
  - intros id now w' r' _ Hid _ Hp. split; [|done]. intros n. rewrite (proj1 Hp), elem_of_app, list_elem_of_singleton.
    intros [Hn| ->]; [by apply Hi|]. unfold r'. cbn. unfold or_zero_N. by destruct (N.eqb_spec (vn_ID node) 0).
Qed.
Lemma node_updated node : yields identified (VFSNodeRepository_Update node) any.
Proof.
  intros w Hi. apply (wp_update_found TNode).
  - intros e w' Hs _. split; [by eapply identified_same|done].
  - intros w' Hs _. split; [by eapply identified_same|done].
  - intros now w' l _ _ Hp. split; [|done]. intros n. rewrite (proj1 Hp).
    intros [(y & Hy & _ & ->)|[Hn _]]%elem_of_set_where; [exact (Hi y Hy)|exact (Hi n Hn)].
Qed.
Lemma within_identified {A} ts (m : M GoErr World A) : within ts m -> TNode ∉ ts -> yields identified m any.
Proof.
  intros Hm Ht w Hi. eapply wp_mono; [apply Hm|]. intros r w' Hf. split; [|by destruct r].
  intros n. rewrite (frames_tbl ts w w' TNode Hf Ht). apply Hi.
Qed.
Lemma directories_found source sourceID now actor segments : forall current, vn_ID current <> 0%N ->
  found (ensure_directories source sourceID now actor current segments).
Proof.
  induction segments as [|x rest IH]; intros current Hc; cbn [ensure_directories]; [by apply yields_ret|].
  destruct (String.eqb x ""); [by apply IH|]. eapply yields_bind; [|exact IH]. unfold ensure_directory. cbv zeta.
  eapply yields_bind_or; [apply node_by_path| |].
  - intros e. destruct (negb _); [apply yields_throw|apply yields_map_err, node_upserted].
  - intros n Hn. destruct (negb _); [apply yields_throw|]. match goal with |- yields _ (if ?b then _ else _) _ => destruct b end; [apply yields_throw|].
    destruct (metadataCommitDirectoryNeedsUpdate _ _ _ _ _); [|by apply yields_ret].
    apply (yields_bind _ _ _ any); [apply yields_map_err, node_updated|]. intros _ _. by apply yields_ret.
Qed.
Lemma transaction_yields {A} (fn : M GoErr World A) (Q : A -> Prop) : yields identified fn Q -> yields identified (withinCommitTx s fn) Q.
Proof.
  intros Hfn. unfold withinCommitTx. destruct (cs_transactor s); [|done]. intros w Hi.
  apply wp_transaction; [apply normalize_db_error|]. eapply wp_mono; [by apply Hfn|].
  assert (forall w', (forall t, tbl t w' = tbl t w) -> identified w') as Hback by (intros w' E n; rewrite E; apply Hi).
  intros [a|e] w' [Hi' HQ]; [split|]; intros; (split; [|done]); [by eapply identified_same|by apply Hback..].
Qed.
Lemma committed_node req : yields identified (MetadataVFSCommitService_CommitFileObject s req) has_node.
Proof.
  unfold MetadataVFSCommitService_CommitFileObject. destruct (_ || _); [apply yields_throw|]. cbv zeta.
  apply (yields_bind _ _ _ any); [by apply yields_lift|]. intros _ _.
  apply (yields_bind _ _ _ any); [by apply yields_lift|]. intros [sid dt] _.
  do 3 (apply (yields_bind _ _ _ any); [by apply yields_lift|]; intros ? _).
  apply (yields_bind _ _ _ any); [by apply yields_lift|]. intros [lt lj] _.
  apply (yields_bind _ _ _ (fun r => has_node (Some r))); [|intros r Hr; by apply yields_ret]. apply transaction_yields.
  apply (yields_bind _ _ _ any); [apply (within_identified []); [apply within_time|set_solver]|]. intros now _.
  apply (yields_bind _ _ _ any).
  { eapply yields_mono; [|done]. unfold ensureCommitParentPath, ensureCommitRoot.
    eapply yields_bind; [apply yields_map_err, node_upserted|]. intros root Hr.
    destruct (String.eqb _ "/"); [by apply yields_ret|by apply directories_found]. }
  intros p _.
  assert (forall existing, yields identified
    (object <-! normalized (StorageObjectRepository_UpsertByLocator (commit_object req sid dt lt lj now)) ;;
     node <-! normalized (VFSNodeRepository_UpsertByPath
       (commit_node req sid p (joinVirtualPath (vn_Path p) (mc_Filename req)) object existing now)) ;;
     ret {| cr_Node := Some node; cr_Object := Some object |}) (fun r => has_node (Some r))) as Hstore.
  { intros existing. apply (yields_bind _ _ _ any).
    - apply (within_identified [TObject]); [|set_solver]. unfold normalized, StorageObjectRepository_UpsertByLocator, StorageObjectRepository_FindByLocator.
      cbv zeta. frame_tac.
    - intros object _. eapply yields_bind; [apply yields_map_err, node_upserted|]. intros node Hn. by apply yields_ret. }
  apply (yields_bind_or _ _ _ _ any); [eapply yields_mono; [apply node_by_path|done]| |].
  - intros e. destruct (negb _); [apply yields_throw|apply Hstore].
  - intros n _. destruct (negb _); [apply yields_throw|apply Hstore].
Qed.
End Commits.
#[export] Instance MetadataVFSCommitService_nodes `{DatabaseLaws} `{JV : JsonValueDecoder} `{MT : MimeTypes}
    (s : MetadataVFSCommitService) : @CommittedNodeLaws _ (MetadataVFSCommitService_committer s).
Proof. intros req. apply committed_node. Qed.

(** ** A concrete system *)
#[local] Existing Instances Mem.database Mem.laws UsersExample.format AuthExample.uuid AuthExample.uuid_laws
  StorageExample.decoder UploadExample.mime_types UploadExample.reader UploadExample.reader_laws UploadExample.no_imports
  UploadExample.no_imports_laws UploadExample.resolver UploadExample.resolver_laws CommitExample.values.
Module TaskExamples.
(** A downloader that has completed what it calls ["g"]. *)
Definition told_of (id : string) : DownloadStatus :=
  {| ds_Status := if String.eqb id "g" then "completed" else "running"; ds_CompletedBytes := 4; ds_TotalBytes := Some 8%Z;
     ds_DownloadSpeed := 2; ds_ETASeconds := Some 2%Z; ds_ProgressPercent := None; ds_DisplayName := "f.mkv"; ds_ErrorMessage := None |}.
#[export] Instance aria2 : Downloaders := {|
  downloaders := fun t => String.eqb t DownloaderTypeAria2; AddURI := fun _ _ _ => ret "x"; TellStatus := fun _ id => ret (told_of id);
  PauseDownload := fun _ _ => ret tt; ResumeDownload := fun _ _ => ret tt; RemoveDownload := fun _ _ => ret tt |}.
#[export] Instance aria2_laws : DownloadersLaws.
Proof. split; intros; apply (steps_ret _). Qed.
#[export] Instance no_native : NativeDownloadDrivers := {|
  nativeDownloadDrivers := fun _ => false; CreateNativeDownload := fun _ _ _ => ret None; GetNativeDownloadStatus := fun _ _ _ => ret None;
  CancelNativeDownload := fun _ _ _ _ => ret tt; PauseNativeDownload := fun _ _ _ => ret tt; ResumeNativeDownload := fun _ _ _ => ret tt |}.
#[export] Instance no_native_laws : NativeDownloadLaws.
Proof. split; intros; apply (steps_ret _). Qed.
#[export] Instance nobody : TaskTerminalStatusObserver := fun _ _ => ret tt.
#[export] Instance nobody_laws : TaskObserverLaws.
Proof. intros ctx task. apply (steps_ret _). Qed.
#[export] Instance no_urls : UrlParser := fun _ => None.
#[export] Instance paths : UrlPath := fun p => p.
#[export] Instance commits : MetadataVFSCommitter := MetadataVFSCommitService_committer CommitExample.service.
#[export] Instance commits_laws : MetadataVFSCommitterLaws := MetadataVFSCommitService_laws CommitExample.service.
#[export] Instance commits_nodes : CommittedNodeLaws := MetadataVFSCommitService_nodes CommitExample.service.

Definition service : TaskService :=
  {| ts_stagingRoot := "/stage"; ts_stagingRoots := ∅; ts_aclAuthorizer := None; ts_vfsResolver := true; ts_metadataReader := true;
     ts_metadataCommitter := true; ts_operationJournal := true; ts_terminalStatusObserver := true; ts_auditRecorder := true |}.
Definition task (id user : N) (status externalID stagingDir : string) : DownloadTask :=
  {| dt_ID := id; dt_UserID := user; dt_Type := "download"; dt_DownloaderType := "aria2"; dt_Status := status; dt_SourceID := 1;
     dt_SavePath := "/"; dt_TargetVFSParentNodeID := 1; dt_TargetVirtualParentPath := ""; dt_TargetFilename := "";
     dt_SaveVirtualPath := "/m"; dt_ResolvedSourceID := 1; dt_ResolvedInnerSavePath := "/"; dt_ResultVFSNodeID := 0;
     dt_StagingDir := stagingDir; dt_DisplayName := "d"; dt_SourceURL := "u"; dt_ExternalID := externalID; dt_Progress := S754_zero false;
     dt_DownloadedBytes := 0; dt_TotalBytes := None; dt_SpeedBytes := 0; dt_ETASeconds := None; dt_ErrorMessage := None;
     dt_FinishedAt := None; dt_CreatedAt := 1; dt_UpdatedAt := 1 |}.
Definition canceled : DownloadTask := task 1 3 "canceled" "x" "".
Definition finished : DownloadTask := task 2 3 "running" "g" "/stage/t".
Definition others : DownloadTask := task 3 4 "running" "x" "/stage/u".
Definition world : World :=
  mem_world (Mem.set_rows TTask [canceled; finished; others] (Mem.set_rows TSource [StorageExample.source]
    (Mem.set_rows TNode [CommitExample.node 1 0 "" "/" VFSNodeKindRoot None] { Mem.init with Mem.m_serial := 9%N }))).
(** The download is staged; [mine] is what the source has under its name. *)
Definition disk (mine : option string) : Disk :=
  { UploadExample.disk with dk_nodes ::= (fun nodes =>
      let nodes := <[["stage"; "t"; "f.mkv"] := NFile "film" 7]> (<[["stage"; "t"] := NDir]> (<[["stage"] := NDir]> nodes)) in
      match mine with Some data => <[["srv"; "data"; "pub"; "f.mkv"] := NFile data 5]> nodes | None => nodes end) }.
Definition host (mine : option string) : Host := {| h_world := world; h_disk := disk mine |}.
Definition bob : Ctx := UploadExample.bob.
Definition eve : Ctx := UploadExample.eve.
Definition statuses (h : Host) : list (N * string * N * string) :=
  map (fun t => (dt_ID t, dt_Status t, dt_ResultVFSNodeID t, dt_StagingDir t)) (tasks (h_world h)).
Definition requests : list (Ctx * TaskRequest) :=
  [(eve, RqCancel 1 false); (bob, RqResume 1); (bob, RqCancel 1 true); (bob, RqSync); (bob, RqList); (eve, RqPause 3)].
Lemma tasks_valid : valid world.
Proof. intros []; reflexivity. Qed.
Lemma tasks_stored : tasks world = [canceled; finished; others].
Proof. vm_compute. reflexivity. Qed.

(** *** What the code does besides *)
(** A synchronisation works on the tasks as it listed them: a cancellation
    that comes after that is undone. *)
Lemma cancel_undone :
  let listed := match fst (on_world TaskRepository_List (host None)) with Ok items => items | Err _ => [] end in
  let h := snd (serve service eve (RqCancel 3 false) (host None)) in
  let h' := snd (sync_tasks service bob listed None h) in
  map dt_Status (tasks (h_world h)) = ["canceled"; "running"; "canceled"] /\
  map dt_Status (tasks (h_world h')) = ["canceled"; "completed"; "running"].
Proof. vm_compute. auto. Qed.
(** A file that has the name of a download already is taken for it,
    whatever it holds: the download is dropped, and reported as completed. *)
Lemma download_dropped :
  let h := snd (serve service bob RqSync (host (Some "mine"))) in
  map dt_Status (tasks (h_world h)) = ["canceled"; "completed"; "running"] /\
  dk_nodes (h_disk h) !! ["srv"; "data"; "pub"; "f.mkv"] = Some (NFile "mine" 5) /\
  dk_nodes (h_disk h) !! ["stage"; "t"; "f.mkv"] = None.
Proof. vm_compute. auto. Qed.
End TaskExamples.
Import TaskExamples.

Lemma ended_tasks_final_witness :
  let h := serve_all service requests (host None) in
  map dt_Status (tasks (h_world h)) = ["canceled"; "completed"; "paused"] /\ canceled ∈ tasks (h_world h).
Proof.
  intros h. split; [vm_compute; reflexivity|].
  apply (ended_tasks_final service requests (host None) canceled tasks_valid); [|reflexivity].
  change (h_world (host None)) with world. rewrite tasks_stored. left.
Defined.
Lemma tasks_isolated_witness :
  reaches bob others = false /\
  let '(r, h') := serve service bob (RqPause 3) (host None) in
  others ∈ tasks (h_world h') /\ match r with Ok a => dt_ID others ∉ answer_ids a | Err _ => True end.
Proof.
  split; [vm_compute; reflexivity|].
  apply (tasks_isolated service bob (RqPause 3) (host None) others tasks_valid); [|vm_compute; reflexivity|discriminate].
  change (h_world (host None)) with world. rewrite tasks_stored. right. right. left.
Defined.
Lemma completed_tasks_imported_witness :
  let h := serve_all service requests (host None) in
  map (fun t => (dt_Status t, dt_ResultVFSNodeID t)) (tasks (h_world h)) = [("canceled", 0); ("completed", 15); ("paused", 0)]%N /\
  recorded (h_world h).
Proof.
  intros h. split; [vm_compute; reflexivity|]. apply (completed_tasks_imported service eq_refl requests (host None)).
  split.
  - intros n Hn. assert (tbl TNode world = [CommitExample.node 1 0 "" "/" VFSNodeKindRoot None]) as E by (vm_compute; reflexivity).
    change (n ∈ tbl TNode world) in Hn. rewrite E, list_elem_of_singleton in Hn. subst n. discriminate.
  - change (h_world (host None)) with world. rewrite tasks_stored. repeat constructor; discriminate.
Defined.
