(* ===== verification/TaskImports.v ===== *)
(** * Download tasks: importing a file into a local source

    What was downloaded is renamed into its place, or copied where that
    fails.  Whatever fails, no file but the one that is imported is replaced
    or lost; after a success the file is in its place, whole, and no longer
    where it was ([import_never_overwrites]). *)
From S2P Require Import Prelude GoStrings Entities Paths Tables Db Auditing Journal Storage Files Walks DiskProps Uploads UploadProps TaskService.
From stdpp Require Import base list strings gmap.
From Stdlib Require Import ZArith Lia Ascii.

Local Open Scope string_scope.
Local Open Scope list_scope.
Local Open Scope go_scope.

(** ** The calls of an import, on a file at [L] and a place [T] for it *)
Section TreeSpecs.
Context (dir : string) (faults : nat -> option DiskFault).
Notation dspec m n Q := (tspec dir faults (fun d : Disk => d) m n Q).
Context (local target : string) (data : string) (mtime : Z).
Notation L := (locate dir local).
Notation T := (locate dir target).
(** What stays: every node but those at [L] and [T]. *)
Definition rest_of (n n' : Tree) : Prop := forall k node, k <> L -> k <> T -> n !! k = Some node -> n' !! k = Some node.
Definition placed (n : Tree) : Prop := exists t, n !! T = Some (NFile data t).
Lemma rest_trans n1 n2 n3 : rest_of n1 n2 -> rest_of n2 n3 -> rest_of n1 n3.
Proof. unfold rest_of. auto. Qed.
Lemma extended_rest n n' : extended n n' -> rest_of n n'.
Proof. unfold extended, rest_of. auto. Qed.
Lemma insert_rest n node : rest_of n (<[T := node]> n).
Proof. intros k x _ Hk Hx. by rewrite lookup_insert_ne. Qed.
Lemma delete_rest n : rest_of n (delete L n).
Proof. intros k x Hk _ Hx. by rewrite lookup_delete_ne. Qed.

Lemma tspec_Rename n : n !! L = Some (NFile data mtime) ->
  dspec (OsRename local target) n (fun r n' =>
    match r with Ok _ => rest_of n n' /\ (T <> L -> n' !! L = None) /\ placed n' | Err _ => n' = n end).
Proof.
  intros HL d Hd. pose proof Hd as (_ & Ed & _).
  match goal with |- wp _ ?Q _ => change (wp (call local undone (fun k (_ : Z) => rename_node k (locate (dk_dir d) target))) Q d) end.
  rewrite Ed. clear Ed. revert d Hd. apply tspec_call; [done|done|]. intros now. unfold rename_node.
  rewrite (proj2 (node_at_ok n L _) HL). destruct (node_at n (removelast T)) as [[]|e]; cbn; [|done|done].
  assert (rest_of n (<[T := NFile data mtime]> (delete L n)) /\ (T <> L -> <[T := NFile data mtime]> (delete L n) !! L = None) /\
    placed (<[T := NFile data mtime]> (delete L n))) as Hok.
  { split; [eapply rest_trans; [apply delete_rest|apply insert_rest]|]. split.
    - intros Hne. rewrite lookup_insert_ne by done. apply lookup_delete_eq.
    - exists mtime. apply lookup_insert_eq. }
  by destruct (n !! T) as [[]|] eqn:ET.
Qed.
Lemma tspec_Remove n : dspec (Remove local) n (fun r n' =>
  match r with Ok _ => n' = delete L n | Err _ => n' = n end).
Proof.
  apply tspec_call; [done|done|]. intros now. cbn. destruct (node_at n L); [|done]. by destruct (_ || _).
Qed.
(** A copy: the file is in its place, and where it was. *)
Definition copied (n : Tree) (r : result OsErr unit) (n' : Tree) : Prop :=
  rest_of n n' /\ n' !! L = Some (NFile data mtime) /\ (r = Ok tt -> placed n').
Lemma tspec_copyFile n : n !! L = Some (NFile data mtime) -> T <> L -> dspec (copyFile local target) n (copied n).
Proof.
  intros HL Hne. unfold copyFile.
  eapply tspec_bind; [apply tspec_look| |]; [intros e n1 [-> _]; split; [by intros k|by split]|]. intros _ n1 [-> _].
  eapply tspec_bind; [apply tspec_MkdirAll| |].
  { intros e n1 H1. split; [by apply extended_rest|]. by split; [apply H1|]. }
  intros u n1 H1. cbn in H1. assert (n1 !! L = Some (NFile data mtime)) as HL1 by by apply H1.
  apply extended_rest in H1. clear HL.
  eapply (tspec_bind _ _ _ _ _ n1 (fun r n2 => match r with Ok _ => exists now, n2 = <[T := NFile "" now]> n1 | Err _ => n2 = n1 end)).
  { apply tspec_call; [done|done|]. intros now. destruct (create_file n1 T now) as [n'|e] eqn:E; [|done].
    apply create_spec in E as (-> & _). by exists now. }
  { by intros e n2 ->. }
  intros _ n2 [now ->]. set (n2 := <[T := NFile "" now]> n1).
  assert (n2 !! L = Some (NFile data mtime)) as HL2 by (unfold n2; by rewrite lookup_insert_ne).
  assert (rest_of n n2) as H2 by (eapply rest_trans; [exact H1|apply insert_rest]).
  eapply tspec_bind.
  { unfold Copy. eapply (tspec_bind _ _ _ _ _ n2 (fun r n3 => n3 = n2 /\ forall x, r = Ok x -> x = data)).
    - eapply tspec_mono; [apply tspec_look|]. intros r n3 [-> Hr]. split; [done|]. intros x Hx.
      destruct (Hr x Hx) as (node & Hnode & E). rewrite HL2 in Hnode. injection Hnode as <-. by injection E.
    - intros e n3 [-> _]. instantiate (1 := fun r n3 => exists w, n3 = <[T := w]> n1 /\ (r = Ok tt -> exists t, w = NFile data t)).
      by exists (NFile "" now).
    - intros x n3 [-> Hx]. rewrite (Hx x eq_refl).
      assert (forall text t, append_data n2 T text t = <[T := NFile text t]> n1) as Happ.
      { intros text t. unfold append_data, n2. rewrite lookup_insert_eq. by rewrite insert_insert_eq. }
      apply tspec_call; intros; cbn; rewrite ?Happ; eexists; split; try done. by eexists. }
  - intros e n3 (w & -> & _). split; [|by split; [rewrite lookup_insert_ne|]].
    eapply rest_trans; [exact H1|apply insert_rest].
  - intros [] n3 (w & -> & Hw). destruct (Hw eq_refl) as [t ->]. clear Hw.
    assert (forall t', copied n (Ok tt) (<[T := NFile data t']> n1)) as Hdone.
    { intros t'. split; [eapply rest_trans; [exact H1|apply insert_rest]|]. split; [by rewrite lookup_insert_ne|].
      intros _. exists t'. apply lookup_insert_eq. }
    eapply tspec_bind_or; [by apply tspec_quiet|intros e n4 ->; apply tspec_ret, Hdone|]. intros info n4 E4. cbn in E4. subst n4.
    eapply (tspec_bind_or _ _ _ _ _ _ _ (fun _ n5 => exists t', n5 = <[T := NFile data t']> n1)).
    + apply tspec_call; [intros _; by eexists|intros; by eexists|]. intros now'. unfold node_at. rewrite lookup_insert_eq. cbn.
      eexists. by rewrite insert_insert_eq.
    + intros e n5 [t' ->]. apply tspec_ret, Hdone.
    + intros u3 n5 [t' ->]. apply tspec_ret, Hdone.
Qed.
End TreeSpecs.

(** ** The import of a file *)
Section LocalImport.
Context `{Database} {JD : JsonDecoder}.

(** What an import makes of a disk: nothing but the imported file is lost
    or changed; after a success it is in its place, where nothing was. *)
Definition import_effect (dir local target : string) (data : string) (n : Tree) (r : result GoErr unit) (n' : Tree) : Prop :=
  let L := locate dir local in let T := locate dir target in
  (forall k node, k <> L -> n !! k = Some node -> n' !! k = Some node) /\
  (n' !! L = n !! L \/ n' !! L = None /\ exists t, n' !! T = Some (NFile data t)) /\
  (r = Ok tt -> n !! T = None /\ n' !! L = None /\ exists t, n' !! T = Some (NFile data t)).

Lemma tspec_import source targetPath base target local data mtime dir faults n :
  (forall i f, faults i = Some f -> df_err f <> OsNotExist) ->
  resolvePhysicalPath source targetPath = Ok (base, target) -> n !! locate dir local = Some (NFile data mtime) ->
  tspec dir faults h_disk (importLocalStagedFile source targetPath local) n (import_effect dir local target data n).
Proof.
  intros Hhonest Hp HL. set (L := locate dir local) in *. set (T := locate dir target).
  assert (forall e, import_effect dir local target data n (Err e) n) as Hsame.
  { intros e. split; [done|]. by split; [left|]. }
  unfold importLocalStagedFile. rewrite Hp.
  eapply (tspec_bind _ _ _ _ _ n (fun r n1 => r = Ok (base, target) /\ n1 = n)); [by intros h Hh; exists n|by intros e n1 []|].
  intros a n1 [[= ->] ->]. cbn [snd].
  eapply tspec_bind_or; [apply tspec_disk, tspec_Stat; [done|by eapply physical_nonempty]| |intros info n1 [-> _]; by apply tspec_throw].
  intros e n1 [-> He]. destruct e; try by apply tspec_throw. specialize (He eq_refl).
  assert (T <> L) as Hne by (intros E; fold T in He; rewrite E in He; congruence).
  assert (forall n2 n3, extended n n2 -> rest_of dir local target n2 n3 -> forall k node, k <> L -> n !! k = Some node -> n3 !! k = Some node) as Hrest.
  { intros n2 n3 H2 H3 k node Hk Hn. apply H3; [done| |by apply H2]. intros ->. unfold T in He. congruence. }
  eapply (tspec_bind _ _ _ _ _ n (fun _ n2 => extended n n2)).
  { eapply tspec_os; [apply tspec_MkdirAll|done..]. }
  { intros e n2 H2. split; [by intros k node _; apply H2|]. split; [left|done]. fold L; rewrite HL. by apply H2. }
  intros u n2 H2. cbn in H2. assert (n2 !! L = Some (NFile data mtime)) as HL2 by by apply H2.
  eapply tspec_bind_or; [apply tspec_disk, (tspec_Rename _ _ local target data mtime); exact HL2| |].
  - intros e n3 ->. eapply (tspec_bind _ _ _ _ _ n2).
    { eapply (tspec_os _ _ _ _ _ (fun r => copied dir local target data mtime n2 (match r with Ok u => Ok u | Err e => Err OsExist end)));
        [by apply tspec_copyFile|..]; [intros e3 n3 (H3 & H4 & _); by split_and!|done]. }
    { intros e3 n3 (H3 & H4 & _). split; [by apply (Hrest n2)|]. split; [left; etransitivity; [exact H4|symmetry; exact HL]|done]. }
    intros [] n3 (H3 & H4 & H5). destruct (H5 eq_refl) as [t Ht]. fold T in Ht.
    eapply tspec_os; [apply tspec_Remove|..].
    + intros e4 n4 ->. split; [by apply (Hrest n2)|]. split; [left; etransitivity; [exact H4|symmetry; exact HL]|done].
    + intros [] n4 ->. fold L.
      assert (delete L n3 !! L = None /\ exists t, delete L n3 !! T = Some (NFile data t)) as Hdone.
      { split; [apply lookup_delete_eq|]. exists t. by rewrite lookup_delete_ne. }
      split; [|split; [by right|by intros _]]. apply (Hrest n2); [done|]. intros k node H6 H7 H8.
      rewrite lookup_delete_ne by done. by apply H3.
  - intros u' n3 (H3 & H4 & t & Ht). apply tspec_ret. fold L T in H4, Ht.
    split; [by apply (Hrest n2)|]. split; [right|intros _]; [by split; [apply H4|exists t]|].
    split; [done|]. by split; [apply H4|exists t].
Qed.

(** C23: an import into a local source replaces no file and loses none,
    whatever fails on the way: every other node of the disk stays as it is,
    the imported file stays until it is in its place, whole; and it is
    imported only to where nothing was. *)
Theorem import_never_overwrites source targetPath base target local data mtime h :
  (forall i f, dk_faults (h_disk h) i = Some f -> df_err f <> OsNotExist) ->
  resolvePhysicalPath source targetPath = Ok (base, target) ->
  dk_nodes (h_disk h) !! locate (dk_dir (h_disk h)) local = Some (NFile data mtime) ->
  let '(r, h') := importLocalStagedFile source targetPath local h in
  import_effect (dk_dir (h_disk h)) local target data (dk_nodes (h_disk h)) r (dk_nodes (h_disk h')).
Proof.
  intros Hf Hp HL. apply run_wp. eapply wp_mono.
  { by eapply (tspec_import source targetPath base target local data mtime _ (dk_faults (h_disk h)) (dk_nodes (h_disk h))). }
  intros r h' (n' & (_ & _ & <-) & HQ). exact HQ.
Qed.
End LocalImport.

(** ** A concrete import *)
#[local] Existing Instances Mem.database Mem.laws StorageExample.decoder.
Module ImportExample.
Definition staged : list string := ["stage"; "t"; "f.mkv"].
(** A disk on which the calls [faulty] fail, once they wrote two bytes. *)
Definition disk (faulty : list nat) : Disk :=
  { UploadExample.disk with
    dk_nodes ::= (fun nodes => <[staged := NFile "film" 7]> (<[["stage"; "t"] := NDir]> (<[["stage"] := NDir]> nodes)));
    dk_faults := (fun i => if decide (i ∈ faulty)
                           then Some {| df_err := OsText "lost"; df_done := 2; df_left := fun _ => false |} else None) }.
Definition host (faulty : list nat) : Host := {| h_world := UploadExample.world; h_disk := disk faulty |}.
Definition import (faulty : list nat) : result GoErr unit * Host :=
  importLocalStagedFile StorageExample.source "/new/f.mkv" "/stage/t/f.mkv" (host faulty).
Definition stored : list string := ["srv"; "data"; "pub"; "new"; "f.mkv"].
Definition outcome (faulty : list nat) : result GoErr unit * option Node * option Node :=
  let '(r, h) := import faulty in (r, dk_nodes (h_disk h) !! stored, dk_nodes (h_disk h) !! staged).
(** Renamed; copied where that fails; and a copy that fails halfway, which
    leaves its beginning in place. *)
Lemma outcomes :
  outcome [] = (Ok tt, Some (NFile "film" 7), None) /\ outcome [2] = (Ok tt, Some (NFile "film" 7), None) /\
  outcome [2; 7] = (Err (ErrText "lost"), Some (NFile "fi" 7), Some (NFile "film" 7)).
Proof. vm_compute. auto. Qed.
End ImportExample.
Import ImportExample.

Lemma import_never_overwrites_witness :
  fst (import [2]) = Ok tt /\
  let '(r, h') := import [2] in import_effect "/var/app" "/stage/t/f.mkv" "/srv/data/pub/new/f.mkv" "film" (dk_nodes (disk [2])) r (dk_nodes (h_disk h')).
Proof.
  split; [vm_compute; reflexivity|].
  apply (import_never_overwrites StorageExample.source "/new/f.mkv" "/srv/data/pub" "/srv/data/pub/new/f.mkv" "/stage/t/f.mkv" "film" 7 (host [2])).
  - intros i f. cbn. destruct (decide _); [|discriminate]. intros [= <-]. discriminate.
  - vm_compute. reflexivity.
  - vm_compute. reflexivity.
Defined.
