(* ===== verification/Shares.v ===== *)
(** * Shares: the service

    [share_service.go], [share_repo_impl.go] and [share_dto.go]: links that
    make a file or a directory public, with an optional password and an
    optional expiry, and their public opening.  The metadata tree is used
    through [MetadataReader], [MetadataLister] and [MetadataRefresher].

    [ShareProps] says what a link gives, and to whom. *)
From S2P Require Import Prelude Ints GoStrings Entities Paths Permission Tables Db Auditing Repos Journal Acl AclService Users Auth MetaTree Storage.
From stdpp Require Import base list strings sets sorting.
From Stdlib Require Import ZArith Lia Ascii.

Local Open Scope string_scope.
Local Open Scope list_scope.
Local Open Scope go_scope.

(** ** The rest of the metadata tree's interface *)
Class MetadataLister `{Database} := ListChildren : string -> M GoErr World VFSListResponse.
Class MetadataRefresher `{Database} := RefreshPath : string -> M GoErr World unit.

(** ** [share_dto.go] *)
Record CreateShareRequest := {
  cs_VFSNodeID : N; cs_TargetVFSNodeID : N; cs_SourceID : N; cs_Path : string; cs_ExpiresIn : Z; cs_Password : string
}.
Record UpdateShareRequest := { us_ExpiresIn : option Z; us_Password : option string }.
Record ShareView := {
  sv_ID : N; sv_SourceID : N; sv_Path : string; sv_TargetVFSNodeID : N; sv_TargetVirtualPath : string;
  sv_ResolvedSourceID : N; sv_ResolvedInnerPath : string; sv_Name : string; sv_IsDir : bool; sv_Link : string;
  sv_HasPassword : bool; sv_ExpiresAt : option string; sv_CreatedAt : string
}.
#[export] Instance eta_ShareView : Eta ShareView := fun r =>
  {| sv_ID := sv_ID r; sv_SourceID := sv_SourceID r; sv_Path := sv_Path r; sv_TargetVFSNodeID := sv_TargetVFSNodeID r;
     sv_TargetVirtualPath := sv_TargetVirtualPath r; sv_ResolvedSourceID := sv_ResolvedSourceID r;
     sv_ResolvedInnerPath := sv_ResolvedInnerPath r; sv_Name := sv_Name r; sv_IsDir := sv_IsDir r; sv_Link := sv_Link r;
     sv_HasPassword := sv_HasPassword r; sv_ExpiresAt := sv_ExpiresAt r; sv_CreatedAt := sv_CreatedAt r |}.
Record PublicShareEntry := {
  pe_Name : string; pe_Path : string; pe_ParentPath : string; pe_IsDir : bool; pe_PreviewType : string; pe_Size : Z;
  pe_MimeType : string; pe_Extension : string; pe_ModifiedAt : string; pe_CreatedAt : string; pe_CanPreview : bool;
  pe_CanDownload : bool; pe_ThumbnailURL : option string
}.
Record PublicShareCurrentDir := { cd_Name : string; cd_Path : string; cd_ParentPath : string; cd_IsRoot : bool }.
Record PublicShareBreadcrumb := { bc_Name : string; bc_Path : string }.
Record PublicSharePagination := { pg_Page : Z; pg_PageSize : Z; pg_Total : Z; pg_TotalPages : Z }.
Record PublicShareOpenResponse := {
  so_Share : ShareView; so_CurrentPath : string; so_CurrentDir : PublicShareCurrentDir;
  so_Breadcrumbs : list PublicShareBreadcrumb; so_Pagination : PublicSharePagination; so_Items : list PublicShareEntry
}.
Record DeleteShareResponse := { ds_ID : N; ds_Deleted : bool }.
Record ShareOpenResult := { or_RedirectURL : string; or_Data : option PublicShareOpenResponse }.

(** [Source] is set by every resolution. *)
Record shareTargetResolution := {
  tr_Node : option VFSNode; tr_Source : StorageSource; tr_VirtualPath : string; tr_InnerPath : string;
  tr_Name : string; tr_IsDir : bool; tr_NodeFirst : bool
}.

(** ** Paths of a share *)
Definition isWithinShareRoot (rootPath targetPath : string) : bool :=
  if String.eqb rootPath "/" then has_prefix targetPath "/"
  else if String.eqb targetPath rootPath then true
  else has_prefix targetPath (trim_suffix rootPath "/" +:+ "/").

Definition normalizeShareRelativePath (input : string) : result GoErr string :=
  if String.eqb input "" then Ok "/"
  else if negb (has_prefix input "/") then Err ErrPathInvalid
  else if existsb (String.eqb "..") (split_on slash (trim_prefix input "/")) then Err ErrPathInvalid
  else normalizeVirtualPath input.

Definition resolveShareTargetPath (shareRootPath requestedPath : string) : result GoErr (string * string) :=
  match normalizeVirtualPath shareRootPath with
  | Err e => Err e
  | Ok rootPath =>
      match normalizeShareRelativePath requestedPath with
      | Err e => Err e
      | Ok relativePath =>
          if String.eqb relativePath "/" then Ok (rootPath, relativePath)
          else
            let actualPath := path_join rootPath (trim_prefix relativePath "/") in
            let actualPath := if String.eqb rootPath "/" then relativePath else actualPath in
            if negb (isWithinShareRoot rootPath actualPath) then Err ErrPathInvalid
            else Ok (actualPath, relativePath)
      end
  end.

Definition shareInnerPathForSource (source : StorageSource) (virtualPath : string) : result GoErr string :=
  match normalizeVirtualPath virtualPath with
  | Err e => Err e
  | Ok normalizedPath =>
      match normalizeMountPath (src_MountPath source) with
      | Err e => Err e
      | Ok mountPath =>
          if negb (isSubPath mountPath normalizedPath) then Err ErrFileNotFound
          else if String.eqb mountPath "/" then Ok normalizedPath
          else
            let innerPath := trim_prefix normalizedPath mountPath in
            if String.eqb innerPath "" then Ok "/"
            else normalizeVirtualPath (if negb (has_prefix innerPath "/") then "/" +:+ innerPath else innerPath)
      end
  end.

Definition publicShareRelativePath (shareRootPath actualPath : string) : string :=
  let shareRootPath := trim_suffix shareRootPath "/" in
  let shareRootPath := if String.eqb shareRootPath "" then "/" else shareRootPath in
  if String.eqb shareRootPath "/" then actualPath
  else
    let relative := trim_prefix actualPath shareRootPath in
    if String.eqb relative "" then "/"
    else if negb (has_prefix relative "/") then "/" +:+ relative else relative.
Definition publicShareParentPath (relativePath : string) : string :=
  let parent := path_dir relativePath in if String.eqb parent "." then "/" else parent.

(** ** Entries *)
Definition isHiddenPublicShareEntryName (name : string) : bool := has_prefix name ".trash" || has_prefix name ".system".
Definition isUnavailablePublicShareVFSItem (item : VFSItem) : bool :=
  existsb (String.eqb (vi_SyncState item))
    [VFSNodeSyncStateMissing; VFSNodeSyncStateError; VFSNodeSyncStatePending; VFSNodeSyncStateSyncing;
     VFSNodeSyncStateConflict].
Definition publicSharePreviewTypeFromParts (isDir : bool) (mimeType : string) : string :=
  if isDir then "directory"
  else if has_prefix mimeType "image/" then "image"
  else if has_prefix mimeType "video/" then "video"
  else if has_prefix mimeType "audio/" then "audio"
  else if String.eqb mimeType "application/pdf" then "pdf"
  else if has_suffix mimeType "json" then "json"
  else if has_prefix mimeType "text/" then "text"
  else "binary".
Definition publicSharePreviewType (item : FileItem) : string :=
  if fi_IsDir item then "directory" else publicSharePreviewTypeFromParts false (fi_MimeType item).

Definition public_entry (shareRootPath : string) (item : FileItem) : PublicShareEntry :=
  let relativePath := publicShareRelativePath shareRootPath (fi_Path item) in
  {| pe_Name := fi_Name item; pe_Path := relativePath; pe_ParentPath := publicShareParentPath relativePath;
     pe_IsDir := fi_IsDir item; pe_PreviewType := publicSharePreviewType item; pe_Size := fi_Size item;
     pe_MimeType := fi_MimeType item; pe_Extension := fi_Extension item; pe_ModifiedAt := fi_ModifiedAt item;
     pe_CreatedAt := fi_CreatedAt item; pe_CanPreview := fi_CanPreview item; pe_CanDownload := fi_CanDownload item;
     pe_ThumbnailURL := fi_ThumbnailURL item |}.
Definition toPublicShareEntries (items : list FileItem) (shareRootPath : string) : list PublicShareEntry :=
  map (public_entry shareRootPath) (sel (fun item => negb (isHiddenPublicShareEntryName (fi_Name item))) items).

Definition public_vfs_entry (shareRootPath : string) (item : VFSItem) : PublicShareEntry :=
  let isDir := String.eqb (vi_EntryKind item) VirtualEntryKindDirectory in
  let relativePath := publicShareRelativePath shareRootPath (vi_Path item) in
  {| pe_Name := vi_Name item; pe_Path := relativePath; pe_ParentPath := publicShareParentPath relativePath;
     pe_IsDir := isDir; pe_PreviewType := publicSharePreviewTypeFromParts isDir (vi_MimeType item);
     pe_Size := vi_Size item; pe_MimeType := vi_MimeType item; pe_Extension := vi_Extension item;
     pe_ModifiedAt := vi_ModifiedAt item; pe_CreatedAt := vi_CreatedAt item; pe_CanPreview := vi_CanPreview item;
     pe_CanDownload := vi_CanDownload item; pe_ThumbnailURL := None |}.
Definition toPublicShareEntriesFromVFSItems (items : list VFSItem) (shareRootPath : string) : list PublicShareEntry :=
  map (public_vfs_entry shareRootPath)
    (sel (fun item => negb (isHiddenPublicShareEntryName (vi_Name item) || isUnavailablePublicShareVFSItem item)) items).

(** [strings.Compare] and [compareInt64]. *)
Definition compare_string (a b : string) : Z := if String.eqb a b then 0 else if String.ltb a b then -1 else 1.
Definition compareInt64 (left right : Z) : Z := if Z.ltb left right then -1 else if Z.ltb right left then 1 else 0.
Definition share_entry_less (sortBy : string) (desc : bool) (a b : PublicShareEntry) : bool :=
  if negb (Bool.eqb (pe_IsDir a) (pe_IsDir b)) then pe_IsDir a
  else
    let by_name := compare_string (to_lower (pe_Name a)) (to_lower (pe_Name b)) in
    let cmp :=
      if String.eqb sortBy "size" then compareInt64 (pe_Size a) (pe_Size b)
      else if String.eqb sortBy "name" then by_name
      else compare_string (pe_ModifiedAt a) (pe_ModifiedAt b) in
    let cmp := if Z.eqb cmp 0 then by_name else cmp in
    let cmp := if Z.eqb cmp 0 then compare_string (pe_Path a) (pe_Path b) else cmp in
    if desc then Z.ltb 0 cmp else Z.ltb cmp 0.
Definition sortPublicShareEntries (entries : list PublicShareEntry) (sortBy sortOrder : string) : list PublicShareEntry :=
  let sortBy := if String.eqb sortBy "" then "name" else sortBy in
  stable_sort (share_entry_less sortBy (equal_fold sortOrder "desc")) entries.

Definition buildPublicShareCurrentDir (rootName currentPath : string) : PublicShareCurrentDir :=
  if String.eqb currentPath "/" then {| cd_Name := rootName; cd_Path := "/"; cd_ParentPath := "/"; cd_IsRoot := true |}
  else {| cd_Name := path_base currentPath; cd_Path := currentPath; cd_ParentPath := publicShareParentPath currentPath;
          cd_IsRoot := false |}.
Fixpoint breadcrumbs (current : string) (segments : list string) : list PublicShareBreadcrumb :=
  match segments with
  | [] => []
  | segment :: rest =>
      if String.eqb segment "" then breadcrumbs current rest
      else
        let current := current +:+ "/" +:+ segment in
        {| bc_Name := segment; bc_Path := current |} :: breadcrumbs current rest
  end.
Definition buildPublicShareBreadcrumbs (rootName currentPath : string) : list PublicShareBreadcrumb :=
  {| bc_Name := rootName; bc_Path := "/" |} ::
  (if String.eqb currentPath "/" then [] else breadcrumbs "" (split_on slash (trim_prefix currentPath "/"))).

(** ** [url.Values.Encode] *)
Definition upper_hex (n : N) : ascii := ascii_of_N (if (n <? 10)%N then 48 + n else 55 + n).
Definition url_unreserved (c : ascii) : bool :=
  let n := N_of_ascii c in
  ((48 <=? n) && (n <=? 57) || (65 <=? n) && (n <=? 90) || (97 <=? n) && (n <=? 122) ||
   (n =? 45) || (n =? 95) || (n =? 46) || (n =? 126))%N.
Fixpoint query_escape (s : string) : string :=
  match s with
  | EmptyString => ""
  | String c s' =>
      if url_unreserved c then String c (query_escape s')
      else if Ascii.eqb c " " then String "+" (query_escape s')
      else let n := N_of_ascii c in
           String "%" (String (upper_hex (n / 16)) (String (upper_hex (n mod 16)) (query_escape s')))
  end.
(** The keys in increasing order. *)
Definition download_url (virtualPath disposition fileToken : string) : string :=
  "/api/v2/fs/download?access_token=" +:+ query_escape fileToken +:+ "&disposition=" +:+ query_escape disposition +:+
  "&path=" +:+ query_escape virtualPath.
Example download_url_ex : download_url "/a b/ü" "inline" "x.y" =
  "/api/v2/fs/download?access_token=x.y&disposition=inline&path=%2Fa+b%2F%C3%BC".
Proof. vm_compute. reflexivity. Qed.

(** ** The repository *)
Section Repository.
Context `{Database}.

Definition share_by_id (id : N) (s : ShareLink) : bool := N.eqb (sl_ID s) id.
Definition share_by_token (token : string) (s : ShareLink) : bool := String.eqb (sl_Token s) token.
Definition share_id_order : Order ShareLink := ord_asc (fun s => Z.of_N (sl_ID s)).
Definition share_order : Order ShareLink := ord_then (ord_desc sl_CreatedAt) (ord_desc (fun s => Z.of_N (sl_ID s))).

Definition ShareRepository_Create (share : ShareLink) : M GoErr World ShareLink := stmt (db_insert TShare share).
Definition ShareRepository_FindByID (id : N) : M GoErr World ShareLink := first TShare (share_by_id id) share_id_order.
Definition ShareRepository_FindByToken (token : string) : M GoErr World ShareLink :=
  first TShare (share_by_token token) share_id_order.
Definition ShareRepository_ListAll : M GoErr World (list ShareLink) :=
  stmt (db_select TShare (fun _ => true) share_order None).
Definition ShareRepository_ListByUser (userID : N) : M GoErr World (list ShareLink) :=
  stmt (db_select TShare (fun s => N.eqb (sl_UserID s) userID) share_order None).
(** The map names every column but [id] and [created_at]; [updated_at] is
    the caller's. *)
Definition share_columns (share s : ShareLink) : ShareLink := { share with sl_ID := sl_ID s; sl_CreatedAt := sl_CreatedAt s }.
(** The share as read back. *)
Definition ShareRepository_Update (share : ShareLink) : M GoErr World ShareLink :=
  do! must_affect (stmt (db_update_at TShare (share_by_id (sl_ID share)) (fun _ => share_columns share))) ;;
  ShareRepository_FindByID (sl_ID share).
Definition ShareRepository_Delete (id : N) : M GoErr World unit :=
  must_affect (stmt (db_delete TShare (share_by_id id))).
End Repository.

Definition shareAuditView (share : ShareLink) : list (string * Json) :=
  [("id", JUint (sl_ID share)); ("user_id", JUint (sl_UserID share)); ("source_id", JUint (sl_SourceID share));
   ("path", JStr (sl_Path share)); ("target_vfs_node_id", JUint (sl_TargetVFSNodeID share));
   ("target_virtual_path", JStr (sl_TargetVirtualPath share)); ("resolved_source_id", JUint (sl_ResolvedSourceID share));
   ("resolved_inner_path", JStr (sl_ResolvedInnerPath share)); ("name", JStr (sl_Name share));
   ("is_dir", JBool (sl_IsDir share)); ("has_password", JBool (bool_decide (sl_PasswordHash share <> None)));
   ("expires_at", match sl_ExpiresAt share with Some t => JNum t | None => JNull end)].

(** ** The service *)

(** What the service was built with. *)
Record ShareService := {
  sh_aclAuthorizer : option ACLAuthorizer; sh_metadataReader : bool; sh_metadataRefresh : bool;
  sh_auditRecorder : bool; sh_tokenSecret : string
}.

(** [&entity.VFSNode{ID: id}]. *)
Definition node_with_id (id : N) : VFSNode :=
  {| vn_ID := id; vn_ParentID := None; vn_Name := ""; vn_Path := ""; vn_Kind := ""; vn_MountID := None;
     vn_ObjectID := None; vn_SourceID := None; vn_ProviderItemID := None; vn_ProviderParentID := None; vn_Size := 0;
     vn_MimeType := ""; vn_ETag := ""; vn_Checksum := ""; vn_SyncState := ""; vn_IsDeleted := false;
     vn_CreatedBy := None; vn_UpdatedBy := None; vn_CreatedAt := 0; vn_UpdatedAt := 0; vn_IndexedAt := None;
     vn_LastSeenAt := None |}.

Section Service.
Context `{MR : MetadataReader} {ML : MetadataLister} {MF : MetadataRefresher} {PH : PasswordHasher} `{TF : TimeFormat}
  `{TN : TimeFormatNano} `{JD : JsonDecoder} `{MT : MimeTypes} `{JL : JwtLibrary FileAccessClaims} {UL : UuidLibrary}
  {LF : LocalFileSystem} {FD : FileDrivers}.
Context (s : ShareService).

Definition available_node (node : option VFSNode) : option VFSNode :=
  match node with Some n => if metadataVFSNodeUnavailable n then None else Some n | None => None end.

(** The error of a step the service goes on after; a panic unwinds. *)
Definition error_of (m : M GoErr World unit) : M GoErr World (option GoErr) :=
  _u <-! m or err => (match err with ErrPanic _ => throw err | _ => ret (Some err) end) ;; ret None.

(** ** Refreshing the tree *)
Definition refreshShareMetadataPath (virtualPath : string) : M GoErr World unit :=
  if negb (sh_metadataReader s) || negb (sh_metadataRefresh s) then ret tt
  else
    node <-! ResolveNode virtualPath or _e => ret tt ;;
    match node with
    | None => throw (ErrPanic "nil pointer dereference")
    | Some node =>
        match vn_SourceID node with
        | None => ret tt
        | Some _ =>
            _u <-! RefreshPath (vn_Path node)
              or err => (if err_is err ErrVFSSyncConflict then ret tt else throw err) ;;
            ret tt
        end
    end.

Fixpoint refresh_ancestors (current : string) (segments : list string) : M GoErr World unit :=
  match segments with
  | [] => ret tt
  | segment :: rest =>
      let current := joinVirtualPath current segment in
      do! refreshShareMetadataPath current ;; refresh_ancestors current rest
  end.
Definition refreshShareTargetMetadata (targetVirtualPath : string) : M GoErr World unit :=
  if negb (sh_metadataRefresh s) then ret tt
  else
    let segments := split_on slash (trim_byte slash (trim_space targetVirtualPath)) in
    if Nat.leb (length segments) 1 then refreshShareMetadataPath "/"
    else refresh_ancestors "/" (removelast segments).

(** ** Resolving targets *)
Definition shareTargetSourceByID (sourceID : N) : M GoErr World StorageSource :=
  map_err (fun err => if err_is err ErrNotFound then ErrFileNotFound else err) (SourceRepository_FindByID sourceID).

Definition share_file_error (err : FileErr) : GoErr :=
  match err with FileNotExist => ErrFileNotFound | _ => file_error err end.

Definition inspectTarget (source : StorageSource) (pathValue : string) : M GoErr World (string * string * bool) :=
  virtualPath <-! lift_result (normalizeVirtualPath pathValue) ;;
  if negb (String.eqb (src_DriverType source) "local") then
    if negb (drivers (src_DriverType source)) then throw ErrSourceDriverUnsupported
    else
      entry <-! map_err share_file_error (drv_Stat (src_DriverType source) source virtualPath) ;;
      ret (virtualPath, se_Name entry, se_IsDir entry)
  else
    physical <-! lift_result (resolvePhysicalPath source virtualPath) ;;
    info <-! map_err share_file_error (os_Stat (snd physical)) ;;
    ret (virtualPath, fsi_Name info, fsi_IsDir info).

Definition shareTargetFromNode (node : VFSNode) : M GoErr World shareTargetResolution :=
  match vn_SourceID node with
  | None => throw ErrFileNotFound
  | Some sourceID =>
      if metadataVFSNodeUnavailable node then throw ErrFileNotFound
      else
        source <-! shareTargetSourceByID sourceID ;;
        innerPath <-! lift_result (shareInnerPathForSource source (vn_Path node)) ;;
        let name := if String.eqb (vn_Name node) "" && negb (String.eqb (vn_Path node) "/")
                    then path_base (vn_Path node) else vn_Name node in
        ret {| tr_Node := Some node; tr_Source := source; tr_VirtualPath := vn_Path node; tr_InnerPath := innerPath;
               tr_Name := name; tr_IsDir := metadataVFSNodeIsDirectory node; tr_NodeFirst := true |}
  end.

Definition share_source_id (share : ShareLink) : N :=
  if N.eqb (sl_ResolvedSourceID share) 0 then sl_SourceID share else sl_ResolvedSourceID share.
Definition share_inner_path (share : ShareLink) : string :=
  if String.eqb (trim_space (sl_ResolvedInnerPath share)) "" then sl_Path share else sl_ResolvedInnerPath share.

Definition resolveLegacyShareTarget (share : ShareLink) : M GoErr World shareTargetResolution :=
  source <-! shareTargetSourceByID (share_source_id share) ;;
  inspected <-! inspectTarget source (share_inner_path share) ;;
  let '(virtualPath, name, isDir) := inspected in
  let targetVirtualPath := sl_TargetVirtualPath share in
  let targetVirtualPath := if String.eqb (trim_space targetVirtualPath) ""
                           then mergeMountAndInnerPath (src_MountPath source) virtualPath else targetVirtualPath in
  let targetVirtualPath := if String.eqb (trim_space targetVirtualPath) "" then virtualPath else targetVirtualPath in
  ret {| tr_Node := None; tr_Source := source; tr_VirtualPath := targetVirtualPath; tr_InnerPath := virtualPath;
         tr_Name := name; tr_IsDir := isDir; tr_NodeFirst := false |}.

Definition resolveShareTargetNode (share : ShareLink) : M GoErr World (option VFSNode) :=
  if negb (sh_metadataReader s) then ret None
  else if negb (N.eqb (sl_TargetVFSNodeID share) 0) then
    node <-! ResolveNodeByID (sl_TargetVFSNodeID share) or _e => throw ErrFileNotFound ;;
    match available_node node with Some n => ret (Some n) | None => throw ErrFileNotFound end
  else
    targetVirtualPath <-! (if String.eqb (trim_space (sl_TargetVirtualPath share)) "" then
                             source <-! shareTargetSourceByID (sl_SourceID share) ;;
                             ret (mergeMountAndInnerPath (src_MountPath source) (sl_Path share))
                           else ret (sl_TargetVirtualPath share)) ;;
    if String.eqb (trim_space targetVirtualPath) "" then throw ErrPathInvalid
    else
      normalizedPath <-! lift_result (normalizeVirtualPath targetVirtualPath) ;;
      do! refreshShareTargetMetadata normalizedPath ;;
      node <-! ResolveNode normalizedPath or _e => ret None ;;
      match available_node node with Some n => ret (Some n) | None => throw ErrFileNotFound end.

Definition resolveShareTarget (share : ShareLink) : M GoErr World shareTargetResolution :=
  node <-! resolveShareTargetNode share ;;
  match node with
  | Some node => shareTargetFromNode node
  | None => resolveLegacyShareTarget share
  end.

Definition resolveSharePathTarget (root : shareTargetResolution) (targetVirtualPath : string)
    : M GoErr World shareTargetResolution :=
  normalizedPath <-! lift_result (normalizeVirtualPath targetVirtualPath) ;;
  if negb (isWithinShareRoot (tr_VirtualPath root) normalizedPath) then throw ErrPathInvalid
  else if tr_NodeFirst root && sh_metadataReader s then
    do! error_of (refreshShareMetadataPath (shown_parent normalizedPath)) ;;
    node <-! ResolveNode normalizedPath or _e => throw ErrFileNotFound ;;
    match available_node node with Some n => shareTargetFromNode n | None => throw ErrFileNotFound end
  else
    innerPath <-! lift_result (shareInnerPathForSource (tr_Source root) normalizedPath) ;;
    inspected <-! inspectTarget (tr_Source root) innerPath ;;
    let '(virtualPath, name, isDir) := inspected in
    ret {| tr_Node := None; tr_Source := tr_Source root; tr_VirtualPath := normalizedPath; tr_InnerPath := virtualPath;
           tr_Name := name; tr_IsDir := isDir; tr_NodeFirst := false |}.

Definition resolveShareTargetVFSNodeID (targetVirtualPath : string) : M GoErr World N :=
  if negb (sh_metadataReader s) then ret 0%N
  else
    normalizedPath <-! lift_result (normalizeVirtualPath targetVirtualPath) ;;
    refreshErr <-! error_of (refreshShareTargetMetadata normalizedPath) ;;
    node <-! ResolveNode normalizedPath
      or err => throw (ErrJoin ErrMetadataVFSCommitFailed match refreshErr with Some e => e | None => err end) ;;
    match node with Some node => ret (vn_ID node) | None => throw (ErrPanic "nil pointer dereference") end.

(** ** Who may share, read and manage *)
Definition authorizeShareTarget (ctx : Ctx) (target : shareTargetResolution) : M GoErr World unit :=
  match sh_aclAuthorizer s with
  | None => ret tt
  | Some a =>
      match tr_Node target with
      | Some node =>
          AuthorizeVirtualPath a ctx (src_ID (tr_Source target)) (tr_VirtualPath target) (vn_ID node) ACLActionShare
      | None => AuthorizePath a ctx (src_ID (tr_Source target)) (tr_InnerPath target) ACLActionShare
      end
  end.

Definition authorizeShareOwnership (ctx : Ctx) (share : ShareLink) (manage : bool) : result GoErr unit :=
  match RequestAuthFromContext ctx with
  | None => Err ErrPermissionDenied
  | Some auth =>
      let allowed := if manage then CanManageShare (ra_UserID auth) (sl_UserID share) (ra_Capabilities auth)
                     else CanReadShare (ra_UserID auth) (sl_UserID share) (ra_Capabilities auth) in
      if negb allowed then Err ErrPermissionDenied else Ok tt
  end.

(** ** Views *)
Definition toShareView (share : ShareLink) : ShareView :=
  {| sv_ID := sl_ID share; sv_SourceID := sl_SourceID share; sv_Path := sl_Path share;
     sv_TargetVFSNodeID := sl_TargetVFSNodeID share; sv_TargetVirtualPath := sl_TargetVirtualPath share;
     sv_ResolvedSourceID := sl_ResolvedSourceID share; sv_ResolvedInnerPath := sl_ResolvedInnerPath share;
     sv_Name := sl_Name share; sv_IsDir := sl_IsDir share; sv_Link := path_join "/s" (sl_Token share);
     sv_HasPassword := bool_decide (sl_PasswordHash share <> None); sv_ExpiresAt := option_map rfc3339 (sl_ExpiresAt share);
     sv_CreatedAt := rfc3339 (sl_CreatedAt share) |}.
Definition toShareViewWithTarget (share : ShareLink) (target : shareTargetResolution) : ShareView :=
  let view := toShareView share in
  { view with sv_SourceID := src_ID (tr_Source target); sv_Path := tr_InnerPath target;
    sv_TargetVFSNodeID := match tr_Node target with Some node => vn_ID node | None => sl_TargetVFSNodeID share end;
    sv_TargetVirtualPath := tr_VirtualPath target; sv_ResolvedSourceID := src_ID (tr_Source target);
    sv_ResolvedInnerPath := tr_InnerPath target;
    sv_Name := if String.eqb (tr_Name target) "" then sv_Name view else tr_Name target; sv_IsDir := tr_IsDir target }.

(** ** Managing shares *)
Definition ShareService_List (ctx : Ctx) : M GoErr World (list ShareView) :=
  match RequestAuthFromContext ctx with
  | None => throw ErrPermissionDenied
  | Some auth =>
      items <-! (if HasCapability (ra_Capabilities auth) CapabilityShareReadAll then ShareRepository_ListAll
                 else ShareRepository_ListByUser (ra_UserID auth)) ;;
      ret (map toShareView items)
  end.

Definition ShareService_Get (ctx : Ctx) (id : N) : M GoErr World ShareView :=
  share <-! ShareRepository_FindByID id ;;
  do! lift_result (authorizeShareOwnership ctx share false) ;;
  ret (toShareView share).

Definition createShareRequestNodeID (req : CreateShareRequest) : N :=
  if N.eqb (cs_VFSNodeID req) 0 then cs_TargetVFSNodeID req else cs_VFSNodeID req.

Definition resolveCreateShareTarget (req : CreateShareRequest) : M GoErr World shareTargetResolution :=
  let nodeID := createShareRequestNodeID req in
  if negb (N.eqb nodeID 0) then
    if negb (sh_metadataReader s) then throw ErrFileNotFound
    else
      node <-! ResolveNodeByID nodeID or _e => throw ErrFileNotFound ;;
      match available_node node with Some n => shareTargetFromNode n | None => throw ErrFileNotFound end
  else if N.eqb (cs_SourceID req) 0 || String.eqb (trim_space (cs_Path req)) "" then throw ErrPathInvalid
  else
    source <-! SourceRepository_FindByID (cs_SourceID req) ;;
    inspected <-! inspectTarget source (cs_Path req) ;;
    let '(innerPath, name, isDir) := inspected in
    let targetVirtualPath := mergeMountAndInnerPath (src_MountPath source) innerPath in
    let targetVirtualPath := if String.eqb targetVirtualPath "" then innerPath else targetVirtualPath in
    targetVFSNodeID <-! resolveShareTargetVFSNodeID targetVirtualPath ;;
    let known := negb (N.eqb targetVFSNodeID 0) in
    ret {| tr_Node := if known then Some (node_with_id targetVFSNodeID) else None; tr_Source := source;
           tr_VirtualPath := targetVirtualPath; tr_InnerPath := innerPath; tr_Name := name; tr_IsDir := isDir;
           tr_NodeFirst := known |}.

(** [now.Add(time.Duration(seconds) * time.Second)]: the product wraps. *)
Definition expiry (now seconds : Z) : Z := (now + int_mul seconds second)%Z.

Definition share_create_event (result code id : string) (target : shareTargetResolution) : Event :=
  { (event "share" "create" result code id) with ev_SourceID := Some (src_ID (tr_Source target));
    ev_VirtualPath := tr_VirtualPath target }.
Definition refused_create {A} (ctx : Ctx) (result code id : string) (target : shareTargetResolution) (err : GoErr)
    : M GoErr World A :=
  refuse (sh_auditRecorder s) ctx (share_create_event result code id target) err.

Definition new_share (userID : N) (target : shareTargetResolution) (token : string) (passwordHash : option string)
    (expiresAt : option Z) (now : Z) : ShareLink :=
  {| sl_ID := 0; sl_UserID := userID; sl_SourceID := src_ID (tr_Source target); sl_Path := tr_InnerPath target;
     sl_TargetVFSNodeID := match tr_Node target with Some node => vn_ID node | None => 0 end;
     sl_TargetVirtualPath := tr_VirtualPath target; sl_ResolvedSourceID := src_ID (tr_Source target);
     sl_ResolvedInnerPath := tr_InnerPath target; sl_Name := tr_Name target; sl_IsDir := tr_IsDir target;
     sl_Token := token; sl_PasswordHash := passwordHash; sl_ExpiresAt := expiresAt; sl_CreatedAt := now;
     sl_UpdatedAt := now |}.

Definition ShareService_Create (ctx : Ctx) (req : CreateShareRequest) : M GoErr World ShareView :=
  target <-! resolveCreateShareTarget req or err =>
    refuse (sh_auditRecorder s) ctx
      { (event "share" "create" ResultFailed (shareErrorCode err) "")
        with ev_SourceID := nullableUint (cs_SourceID req) } err ;;
  _auth <-! authorizeShareTarget ctx target or err =>
    refused_create ctx ResultDenied "PERMISSION_DENIED" "" target err ;;
  auth <-! lift_result (currentRequestAuth ctx) or err =>
    refused_create ctx ResultDenied "PERMISSION_DENIED" "" target err ;;
  passwordHash <-! (if String.eqb (cs_Password req) "" then ret None
                    else
                      hashed <-! Hash (cs_Password req)
                        or err => refused_create ctx ResultFailed "INTERNAL_ERROR" "" target err ;;
                      ret (Some hashed)) ;;
  now <-! time_now ;;
  let expiresAt := if Z.ltb 0 (cs_ExpiresIn req) then Some (expiry now (cs_ExpiresIn req)) else None in
  token <-! NewString ;;
  share <-! ShareRepository_Create (new_share (ra_UserID auth) target token passwordHash expiresAt now) or err =>
    refused_create ctx ResultFailed "INTERNAL_ERROR" "" target err ;;
  do! recordServiceAudit ctx (sh_auditRecorder s)
    { (share_create_event ResultSuccess "" (encodeUintID (sl_ID share)) target) with ev_After := shareAuditView share } ;;
  ret (toShareView share).

Definition share_event (action result code : string) (id : N) (share : ShareLink) : Event :=
  { (event "share" action result code (encodeUintID id)) with ev_SourceID := Some (sl_SourceID share);
    ev_VirtualPath := sl_TargetVirtualPath share; ev_Before := shareAuditView share }.

Definition ShareService_Update (ctx : Ctx) (id : N) (req : UpdateShareRequest) : M GoErr World ShareView :=
  share <-! ShareRepository_FindByID id or err =>
    refuse (sh_auditRecorder s) ctx (event "share" "update" ResultFailed "SHARE_NOT_FOUND" (encodeUintID id)) err ;;
  _auth <-! lift_result (authorizeShareOwnership ctx share true) or err =>
    refuse (sh_auditRecorder s) ctx (share_event "update" ResultDenied "PERMISSION_DENIED" id share) err ;;
  passwordHash <-! match us_Password req with
                   | None => ret (sl_PasswordHash share)
                   | Some password =>
                       if String.eqb password "" then ret None
                       else
                         hashed <-! Hash password or err =>
                           refuse (sh_auditRecorder s) ctx (share_event "update" ResultFailed "INTERNAL_ERROR" id share) err ;;
                         ret (Some hashed)
                   end ;;
  expiresAt <-! match us_ExpiresIn req with
                | None => ret (sl_ExpiresAt share)
                | Some seconds => if Z.ltb 0 seconds then now <-! time_now ;; ret (Some (expiry now seconds)) else ret None
                end ;;
  let changed := bool_decide (us_Password req <> None) || bool_decide (us_ExpiresIn req <> None) in
  after <-! (if changed then
               now <-! time_now ;;
               updated <-! ShareRepository_Update
                   { share with sl_PasswordHash := passwordHash; sl_ExpiresAt := expiresAt; sl_UpdatedAt := now }
                 or err => refuse (sh_auditRecorder s) ctx (share_event "update" ResultFailed "INTERNAL_ERROR" id share) err ;;
               ret updated
             else ret share) ;;
  do! recordServiceAudit ctx (sh_auditRecorder s)
    { (share_event "update" ResultSuccess "" id after) with ev_Before := shareAuditView share;
      ev_After := shareAuditView after } ;;
  ret (toShareView after).

Definition ShareService_Delete (ctx : Ctx) (id : N) : M GoErr World DeleteShareResponse :=
  share <-! ShareRepository_FindByID id or err =>
    refuse (sh_auditRecorder s) ctx (event "share" "delete" ResultFailed "SHARE_NOT_FOUND" (encodeUintID id)) err ;;
  _auth <-! lift_result (authorizeShareOwnership ctx share true) or err =>
    refuse (sh_auditRecorder s) ctx (share_event "delete" ResultDenied "PERMISSION_DENIED" id share) err ;;
  _u <-! ShareRepository_Delete id or err =>
    refuse (sh_auditRecorder s) ctx (share_event "delete" ResultFailed "INTERNAL_ERROR" id share) err ;;
  do! recordServiceAudit ctx (sh_auditRecorder s) (share_event "delete" ResultSuccess "" id share) ;;
  ret {| ds_ID := id; ds_Deleted := true |}.

(** ** Opening a share *)
Definition ensureShareAccessible (share : ShareLink) (password : string) : M GoErr World unit :=
  expired <-! match sl_ExpiresAt share with
              | Some expiresAt => now <-! time_now ;; ret (Z.ltb expiresAt now)
              | None => ret false
              end ;;
  if (expired : bool) then throw ErrShareExpired
  else match sl_PasswordHash share with
       | None => ret tt
       | Some hash =>
           if String.eqb password "" then throw ErrSharePasswordRequired
           else if negb (Compare hash password) then throw ErrSharePasswordInvalid else ret tt
       end.

(** [t.Sub(u)] saturates. *)
Definition time_sub (t u : Z) : Z := Z.max (- 2 ^ 63) (Z.min max_int (t - u)).
Definition buildShareDownloadURL (sourceID : N) (filePath virtualPath disposition : string) (expiresAt : option Z)
    : M GoErr World string :=
  let disposition := if String.eqb disposition "" then "attachment" else disposition in
  tokenTTL <-! match expiresAt with
               | None => ret (5 * minute)%Z
               | Some t =>
                   now <-! time_now ;;
                   let remaining := time_sub t now in
                   if Z.leb remaining 0 then throw ErrShareExpired
                   else ret (if Z.ltb remaining (5 * minute) then remaining else (5 * minute)%Z)
               end ;;
  normalizedFilePath <-! lift_result (normalizeVirtualPath filePath) ;;
  normalizedVirtualPath <-! lift_result (normalizeVirtualPath virtualPath) ;;
  token <-! FileAccess_Issue (sh_tokenSecret s) sourceID normalizedFilePath "share" disposition tokenTTL ;;
  ret (download_url normalizedVirtualPath disposition (fst token)).

(** The directory entries of a local source with their information. *)
Fixpoint local_items (sourceID : N) (physicalPath actualPath : string) (names : list string)
    : M GoErr World (list FileItem) :=
  match names with
  | [] => ret []
  | name :: rest =>
      if hidden_name name then local_items sourceID physicalPath actualPath rest
      else
        info <-! map_err file_error (os_Info physicalPath name) ;;
        let itemPath := if String.eqb actualPath "/" then "/" +:+ name else path_join actualPath name in
        items <-! local_items sourceID physicalPath actualPath rest ;;
        ret (buildFileItem sourceID itemPath info :: items)
  end.

Definition listPublicDirectory (root current : shareTargetResolution) (sortBy sortOrder : string) (page pageSize : Z)
    : M GoErr World (list PublicShareEntry * Z * Z) :=
  if tr_NodeFirst current && sh_metadataReader s then
    do! error_of (refreshShareMetadataPath (tr_VirtualPath current)) ;;
    resp <-! ListChildren (tr_VirtualPath current) ;;
    let entriesView := toPublicShareEntriesFromVFSItems (vl_Items resp) (tr_VirtualPath root) in
    lift_result (paginateItems (sortPublicShareEntries entriesView sortBy sortOrder) page pageSize)
  else
    let source := tr_Source current in
    let actualPath := tr_InnerPath current in
    items <-! (if negb (String.eqb (src_DriverType source) "local") then
                 if negb (drivers (src_DriverType source)) then throw ErrSourceDriverUnsupported
                 else
                   entries <-! map_err share_file_error (drv_List (src_DriverType source) source actualPath) ;;
                   ret (map (buildStorageEntryItem (src_ID source))
                          (sel (fun entry => negb (isHiddenStorageEntry entry)) entries))
               else
                 physical <-! lift_result (resolvePhysicalPath source actualPath) ;;
                 names <-! map_err share_file_error (os_ReadDir (snd physical)) ;;
                 local_items (src_ID source) (snd physical) actualPath names) ;;
    let entriesView := toPublicShareEntries (sortFileItems items sortBy sortOrder) (tr_InnerPath root) in
    lift_result (paginateItems entriesView page pageSize).

Definition redirect_to (target : shareTargetResolution) (disposition : string) (expiresAt : option Z)
    : M GoErr World ShareOpenResult :=
  url <-! buildShareDownloadURL (src_ID (tr_Source target)) (tr_InnerPath target) (tr_VirtualPath target) disposition
            expiresAt ;;
  ret {| or_RedirectURL := url; or_Data := None |}.

Definition ShareService_Open (token password relativePath disposition sortBy sortOrder : string) (page pageSize : Z)
    : M GoErr World ShareOpenResult :=
  share <-! ShareRepository_FindByToken token ;;
  do! ensureShareAccessible share password ;;
  rootTarget <-! resolveShareTarget share ;;
  if negb (tr_IsDir rootTarget) then redirect_to rootTarget disposition (sl_ExpiresAt share)
  else
    paths <-! lift_result (resolveShareTargetPath (tr_VirtualPath rootTarget) relativePath) ;;
    let '(actualPath, currentPath) := paths in
    currentTarget <-! resolveSharePathTarget rootTarget actualPath ;;
    if negb (tr_IsDir currentTarget) then redirect_to currentTarget disposition (sl_ExpiresAt share)
    else
      listed <-! listPublicDirectory rootTarget currentTarget sortBy sortOrder page pageSize ;;
      let '(items, total, totalPages) := listed in
      ret {| or_RedirectURL := "";
             or_Data := Some
               {| so_Share := toShareViewWithTarget share rootTarget; so_CurrentPath := currentPath;
                  so_CurrentDir := buildPublicShareCurrentDir (tr_Name rootTarget) currentPath;
                  so_Breadcrumbs := buildPublicShareBreadcrumbs (tr_Name rootTarget) currentPath;
                  so_Pagination := {| pg_Page := pageValue page; pg_PageSize := pageSizeValue pageSize;
                                      pg_Total := total; pg_TotalPages := totalPages |};
                  so_Items := items |} |}.
End Service.
