(* ===== verification/ShareProps.v ===== *)
(** * Shares: what a link gives

    The paths of a share, the operations on the share table, and the public
    opening.  [share_open_confined]: a link that opens is a stored one, not
    expired and with its password given, and serves what has its target's
    virtual path or one below it, where that lies now, for at most five
    minutes and no longer than the link.
    [shares_isolated]: only the owner of a share, or a manager of all
    shares, changes it. *)
From S2P Require Import Prelude Ints GoStrings Entities Paths Permission Tables Db Auditing Repos MetaRepos Journal Acl AclService Users Auth MetaTree MetaTreeSpec MetaTreeProps Storage Shares.
From stdpp Require Import base list strings sets sorting pretty.
From Stdlib Require Import ZArith Lia Ascii.

Local Open Scope string_scope.
Local Open Scope list_scope.
Local Open Scope go_scope.

(** ** Paths *)
Lemma normalize_good p q : normalizeVirtualPath p = Ok q -> exists l, good_segs l = true /\ q = render l /\ segs p = l.
Proof. intros [-> Hg]%normalize_Ok. eauto. Qed.

Lemma trim_suffix_cons c x t : trim_suffix (String c x) t = if String.eqb (String c x) t then "" else String c (trim_suffix x t).
Proof. done. Qed.
Lemma trim_suffix_slash b x : has_byte slash x = false -> x <> "" -> trim_suffix (b +:+ x) "/" = b +:+ x.
Proof.
  intros Hs Hne. induction b as [|c b IH]; cbn [String.append].
  - clear Hne. induction x as [|c x IH]; [done|]. rewrite has_byte_cons in Hs. apply orb_false_iff in Hs as [Hc Hs].
    rewrite trim_suffix_cons, IH by done. destruct (String.eqb_spec (String c x) "/") as [E|]; [|done].
    by injection E as -> _.
  - rewrite trim_suffix_cons, IH. destruct (String.eqb_spec (String c (b +:+ x)) "/") as [E|]; [|done].
    by injection E as _ [_ ->]%append_eq_nil.
Qed.

Lemma trim_suffix_render l : good_segs l = true -> l <> [] -> trim_suffix (render l) "/" = render l.
Proof.
  intros Hr%good_segs_plain Hne. destruct (snoc_or_nil l) as [->|(l' & x & ->)]; [done|].
  rewrite forallb_app in Hr. apply andb_true_iff in Hr as [_ Hx]. cbn in Hx. rewrite andb_true_r in Hx.
  apply plain_seg_spec in Hx as (Hne' & _ & _ & Hs'). rewrite render_snoc.
  change (String slash x) with ("/" +:+ x). rewrite <- append_assoc. by apply trim_suffix_slash.
Qed.
Lemma split_render l : forallb plain_seg l = true -> l <> [] -> split_on slash (trim_prefix (render l) "/") = l.
Proof.
  intros Hl Hne. destruct (split_render_tail l Hl) as [E|]; [|done]. rewrite trim_slash_render.
  destruct l as [|x l]; [done|]. change (render_tail (x :: l)) with (String slash (x +:+ render_tail l)) in E.
  change (split_on slash (String slash (x +:+ render_tail l))) with ("" :: split_on slash (x +:+ render_tail l)) in E.
  by injection E.
Qed.

Lemma within_render lr k : good_segs lr = true -> good_segs (lr ++ k) = true ->
  isWithinShareRoot (render lr) (render (lr ++ k)) = true.
Proof.
  intros Hr Hk. pose proof (proj2 (isSubPath_render lr (lr ++ k) Hr Hk) (ex_intro _ k eq_refl)) as Hs.
  unfold isSubPath in Hs. rewrite !normalize_render in Hs by done. unfold isWithinShareRoot.
  destruct (String.eqb_spec (render lr) "/") as [E|E]; [apply render_rooted|].
  destruct (String.eqb (render (lr ++ k)) (render lr)); [done|]. cbn in Hs.
  rewrite trim_suffix_render; [done..|]. by intros ->.
Qed.

Lemma relative_spec req rel : normalizeShareRelativePath req = Ok rel ->
  exists lk, good_segs lk = true /\ rel = render lk /\ lk = segs req.
Proof.
  unfold normalizeShareRelativePath. destruct (String.eqb_spec req "") as [->|]; [intros [= <-]; by exists []|].
  destruct (negb _); [done|]. destruct (existsb _ _); [done|]. intros (l & Hl & -> & Hs)%normalize_good. eauto.
Qed.

(** A requested path is the root's followed by the relative one. *)
Lemma target_path_spec root req actual rel : resolveShareTargetPath root req = Ok (actual, rel) ->
  normalizeVirtualPath root = Ok (render (segs root)) /\ good_segs (segs root ++ segs req) = true /\
  actual = render (segs root ++ segs req) /\ rel = render (segs req).
Proof.
  unfold resolveShareTargetPath. destruct (normalizeVirtualPath root) as [r|] eqn:Er; [|done].
  apply normalize_good in Er as (lr & Hr & -> & ->).
  destruct (normalizeShareRelativePath req) as [q|] eqn:Eq; [|done]. apply relative_spec in Eq as (lk & Hk & -> & <-).
  intros E. split; [done|]. rewrite good_segs_app, Hr, Hk. split; [done|].
  destruct (String.eqb_spec (render lk) "/") as [E'|E'].
  - apply (render_inj lk []) in E' as ->; [|by apply good_segs_plain|done]. injection E as <- <-. by rewrite app_nil_r.
  - rewrite join_clean in E by (by apply good_segs_plain).
    destruct (String.eqb_spec (render lr) "/") as [E2|E2].
    + apply (render_inj lr []) in E2 as ->; [|by apply good_segs_plain|done]. cbn [app] in *.
      destruct (negb _); [done|]. by injection E as <- <-.
    + destruct (negb _); [done|]. by injection E as <- <-.
Qed.

(** The inner path of a virtual path below the mount of its source. *)
Lemma inner_path_spec source vp inner : shareInnerPathForSource source vp = Ok inner ->
  exists lm li, good_segs (lm ++ li) = true /\ normalizeMountPath (src_MountPath source) = Ok (render lm) /\
    normalizeVirtualPath vp = Ok (render (lm ++ li)) /\ inner = render li.
Proof.
  unfold shareInnerPathForSource, normalizeMountPath. destruct (normalizeVirtualPath vp) as [p|] eqn:Ep; [|done].
  apply normalize_good in Ep as (lp & Hp & -> & _).
  destruct (normalizeVirtualPath (src_MountPath source)) as [m|] eqn:Em; [|done].
  apply normalize_good in Em as (lm & Hm & -> & _).
  destruct (isSubPath (render lm) (render lp)) eqn:Es; [|done]. apply isSubPath_render in Es as [li ->]; [|done..].
  pose proof Hp as Hp'. rewrite good_segs_app in Hp'. apply andb_true_iff in Hp' as [_ Hi].
  intros E. exists lm, li. split_and!; [done..|]. cbn [negb] in E.
  destruct (String.eqb_spec (render lm) "/") as [E'|E'].
  { apply (render_inj lm []) in E' as ->; [|by apply good_segs_plain|done]. by injection E as <-. }
  pose proof (trim_mount_render lm li Hm Hi) as Ht. unfold trim_mount in Ht.
  destruct (String.eqb (trim_prefix (render (lm ++ li)) (render lm)) ""); [by injection E as <-|].
  rewrite Ht, normalize_render in E by done. by injection E as <-.
Qed.

Lemma normalize_relative lk : good_segs lk = true -> normalizeShareRelativePath (render lk) = Ok (render lk).
Proof.
  intros Hk. unfold normalizeShareRelativePath. rewrite render_rooted, normalize_render by done.
  destruct (String.eqb_spec (render lk) "") as [E|_]; [by destruct lk|]. cbn [negb].
  destruct (existsb _ _) eqn:E; [|done]. exfalso. apply existsb_exists in E as (x & Hx & <-%String.eqb_eq).
  destruct lk as [|y k]; [by destruct Hx|]. apply good_segs_plain in Hk. rewrite split_render in Hx by done.
  rewrite forallb_forall in Hk. by apply Hk in Hx.
Qed.

Lemma target_path_render lr lk : good_segs lr = true -> good_segs lk = true ->
  resolveShareTargetPath (render lr) (render lk) = Ok (render (lr ++ lk), render lk).
Proof.
  intros Hr Hk. unfold resolveShareTargetPath. rewrite normalize_render, normalize_relative by done.
  destruct (String.eqb_spec (render lk) "/") as [E|_].
  { apply (render_inj lk []) in E as ->; [|by apply good_segs_plain|done]. by rewrite app_nil_r. }
  rewrite join_clean by (by apply good_segs_plain).
  destruct (String.eqb_spec (render lr) "/") as [E|_].
  - apply (render_inj lr []) in E as ->; [|by apply good_segs_plain|done]. cbn [app].
    by rewrite (within_render [] lk eq_refl Hk : isWithinShareRoot (render []) (render lk) = true).
  - rewrite within_render by (rewrite ?good_segs_app, ?Hr; done). done.
Qed.

Lemma relative_render lr k : good_segs lr = true -> good_segs k = true ->
  publicShareRelativePath (render lr) (render (lr ++ k)) = render k.
Proof.
  intros Hr Hk. unfold publicShareRelativePath. destruct lr as [|y l]; [done|].
  assert (trim_suffix (render (y :: l)) "/" = render (y :: l)) as -> by (by apply trim_suffix_render).
  pose proof (trim_mount_render (y :: l) k Hr Hk) as Ht. unfold trim_mount in Ht.
  destruct (String.eqb_spec (render (y :: l)) "") as [E|_]; [done|].
  destruct (String.eqb_spec (render (y :: l)) "/") as [E|_]; [|done].
  by apply (render_inj (y :: l) []) in E; [|apply good_segs_plain|].
Qed.

Lemma inner_path_render source lm li : good_segs lm = true -> good_segs li = true ->
  normalizeMountPath (src_MountPath source) = Ok (render lm) ->
  shareInnerPathForSource source (render (lm ++ li)) = Ok (render li).
Proof.
  intros Hm Hi E. assert (good_segs (lm ++ li) = true) as Hg by (by rewrite good_segs_app, Hm).
  unfold shareInnerPathForSource. rewrite E, normalize_render by done.
  rewrite (proj2 (isSubPath_render lm (lm ++ li) Hm Hg)) by eauto. cbn [negb].
  pose proof (trim_mount_render lm li Hm Hi) as Ht. unfold trim_mount in Ht.
  destruct (String.eqb_spec (render lm) "/") as [E2|_].
  { by apply (render_inj lm []) in E2 as ->; [|apply good_segs_plain|]. }
  destruct (String.eqb _ ""); [by rewrite <- Ht|]. by rewrite Ht, normalize_render.
Qed.

(** The paths of a share agree with each other.  An entry of a shared
    directory is shown under a path relative to the root, and the link
    opened with that path leads back to the entry; a file of a source is
    given back, from the virtual path it has under the source's mount, as
    the path it has in the source. *)
Theorem share_paths_roundtrip root p (Hroot : canonical root) (Hp : canonical p) (Hsub : isSubPath root p = true) :
  resolveShareTargetPath root (publicShareRelativePath root p) = Ok (p, publicShareRelativePath root p) /\
  forall source inner, normalizeMountPath (src_MountPath source) = Ok root -> canonical inner ->
    shareInnerPathForSource source (mergeMountAndInnerPath root inner) = Ok inner.
Proof.
  destruct Hroot as (lr & Hr & ->), Hp as (lp & Hp & ->). apply isSubPath_render in Hsub as [k ->]; [|done..].
  rewrite good_segs_app, Hr in Hp. cbn in Hp. rewrite relative_render by done. split.
  - by apply target_path_render.
  - intros source inner Hm (li & Hi & ->). rewrite merge_render by done. by apply inner_path_render.
Qed.

(** ** What the service relies on *)

(** The tables a refresh of the tree may write, through the drivers too. *)
Definition tree_tables : list Table := [TNode; TObject; TSource].

Section Laws.
Context `{MR : MetadataReader} {ML : MetadataLister} {MF : MetadataRefresher}.
(** A node is the one at the path, or with the id, that was asked for. *)
Class MetadataPathLaws : Prop := {
  resolve_path_law : forall p, returns (ResolveNode p)
    (fun node => match node with Some n => normalizeVirtualPath p = Ok (vn_Path n) | None => True end);
  resolve_id_law : forall id, returns (ResolveNodeByID id)
    (fun node => match node with Some n => vn_ID n = id | None => True end)
}.
Class MetadataTreeLaws : Prop := {
  list_law : forall p w, wp (ListChildren p) (fun _ w' => frames [] w w') w;
  refresh_law : forall p w, wp (RefreshPath p) (fun _ w' => frames tree_tables w w') w
}.
End Laws.

(** The tree itself keeps to them. *)
#[export] Instance MetadataVFSService_lister `{Database} `{TF : TimeFormat} `{MT : MimeTypes} (s : MetadataVFSService)
  : MetadataLister := MetadataVFSService_ListChildren s.
Section TreeLaws.
Context `{DatabaseLaws} {TF : TimeFormat} {MT : MimeTypes} (v : MetadataVFSService).

Lemma first_returns t p o : returns (first t p o) (fun r => p r = true).
Proof.
  intros w. eapply wp_first; [by intros e w' _ _|by intros w' _ _|]. by intros r w' _ _ Hp _.
Qed.

#[export] Instance MetadataVFSService_path_laws : @MetadataPathLaws _ (MetadataVFSService_reader v).
Proof.
  split; intros p.
  - eapply returns_bind; [|intros n Hn; apply returns_ret; exact Hn]. unfold MetadataVFSService_ResolveNode.
    destruct (negb _); [apply returns_throw|]. eapply returns_bind; [apply returns_lift; intros q Hq; exact Hq|].
    intros q ->. apply returns_map_err. eapply returns_mono; [apply (first_returns TNode)|].
    intros n [E%String.eqb_eq _]%andb_true_iff. by rewrite E.
  - eapply returns_bind; [|intros n Hn; apply returns_ret; exact Hn]. unfold MetadataVFSService_ResolveNodeByID.
    destruct (negb _); [apply returns_throw|]. eapply returns_bind; [apply returns_map_err, (first_returns TNode)|].
    intros n E%N.eqb_eq. destruct (vn_IsDeleted n); [apply returns_throw|by apply returns_ret].
Qed.
End TreeLaws.

(** ** Resolving a share *)
Section Resolution.
Context `{DatabaseLaws} {MR : MetadataReader} {RL : MetadataReaderLaws} {PLs : MetadataPathLaws} {ML : MetadataLister}
  {MF : MetadataRefresher} {TL : MetadataTreeLaws} {PH : PasswordHasher} {TF : TimeFormat} {TN : TimeFormatNano}
  {JD : JsonDecoder} {MT : MimeTypes} {JL : JwtLibrary FileAccessClaims} {UL : UuidLibrary} {ULs : UuidLaws}
  {LF : LocalFileSystem} {LFL : LocalFileSystemLaws} {FD : FileDrivers} {FDL : FileDriversLaws}.
Context (s : ShareService).
Implicit Types w : World.

(** A target whose virtual path is its inner path below the mount of its
    source. *)
Definition placed (t : shareTargetResolution) : Prop :=
  exists m, normalizeMountPath (src_MountPath (tr_Source t)) = Ok m /\
    is_ok (normalizeVirtualPath (tr_VirtualPath t)) = true /\ canonical (tr_InnerPath t) /\
    segs (tr_VirtualPath t) = segs m ++ segs (tr_InnerPath t).

(** The virtual path of a share: the stored one, or else the path of the
    share below the mount of its source. *)
Definition share_virtual_path (share : ShareLink) (p : string) : Prop :=
  if String.eqb (trim_space (sl_TargetVirtualPath share)) ""
  then exists src, src_ID src = sl_SourceID share /\ p = mergeMountAndInnerPath (src_MountPath src) (sl_Path share)
  else p = sl_TargetVirtualPath share.
(** The target of a share: the node it was made for, wherever it is now; or
    the node at its path; or, where the tree does not know it, its file. *)
Inductive root_of (share : ShareLink) (t : shareTargetResolution) : Prop :=
| root_node node : tr_Node t = Some node -> tr_NodeFirst t = true -> sh_metadataReader s = true ->
    metadataVFSNodeUnavailable node = false -> vn_SourceID node = Some (src_ID (tr_Source t)) ->
    tr_VirtualPath t = vn_Path node -> placed t ->
    (if N.eqb (sl_TargetVFSNodeID share) 0
     then exists p, share_virtual_path share p /\ normalizeVirtualPath p = Ok (vn_Path node)
     else vn_ID node = sl_TargetVFSNodeID share) -> root_of share t
| root_file : tr_Node t = None -> tr_NodeFirst t = false ->
    (sh_metadataReader s = true -> sl_TargetVFSNodeID share = 0%N) -> src_ID (tr_Source t) = share_source_id share ->
    normalizeVirtualPath (share_inner_path share) = Ok (tr_InnerPath t) ->
    (String.eqb (trim_space (sl_TargetVirtualPath share)) "" = false -> tr_VirtualPath t = sl_TargetVirtualPath share) ->
    root_of share t.

Definition node_target (node : VFSNode) (t : shareTargetResolution) : Prop :=
  tr_Node t = Some node /\ tr_NodeFirst t = true /\ metadataVFSNodeUnavailable node = false /\
  vn_SourceID node = Some (src_ID (tr_Source t)) /\ tr_VirtualPath t = vn_Path node /\ placed t.

Lemma source_returns id : returns (shareTargetSourceByID id) (fun src => src_ID src = id).
Proof.
  apply returns_map_err. eapply returns_mono; [apply (first_returns TSource)|]. by intros src E%N.eqb_eq.
Qed.
Lemma inspect_returns source p : returns (inspectTarget source p) (fun r => normalizeVirtualPath p = Ok (fst (fst r))).
Proof.
  eapply returns_bind; [apply returns_lift; intros q Hq; exact Hq|]. intros q Hq.
  destruct (negb _); [destruct (negb _); [apply returns_throw|]|].
  - eapply returns_bind; [apply returns_any|]. intros entry _. by apply returns_ret.
  - eapply returns_bind; [apply returns_any|]. intros phys _. eapply returns_bind; [apply returns_any|]. intros i _.
    by apply returns_ret.
Qed.
Lemma placed_inner t : shareInnerPathForSource (tr_Source t) (tr_VirtualPath t) = Ok (tr_InnerPath t) -> placed t.
Proof.
  intros (lm & li & Hg & Hm & Hp & Hi)%inner_path_spec. exists (render lm). rewrite Hm, Hp. split_and!; [done..| |].
  - rewrite Hi. exists li. rewrite good_segs_app in Hg. by apply andb_true_iff in Hg as [_ ?].
  - apply normalize_good in Hp as (l & Hl & E & Es). pose proof Hg as Hg'. rewrite good_segs_app in Hg'.
    apply andb_true_iff in Hg' as [Gm Gi]. rewrite Es, Hi, !segs_render by done.
    symmetry. by apply render_inj; [apply good_segs_plain..|].
Qed.
Lemma node_returns node : returns (shareTargetFromNode node) (node_target node).
Proof.
  unfold shareTargetFromNode. destruct (vn_SourceID node) as [sid|] eqn:Es; [|apply returns_throw].
  destruct (metadataVFSNodeUnavailable node) eqn:Eu; [apply returns_throw|].
  eapply returns_bind; [apply source_returns|]. intros src Hsrc.
  eapply returns_bind; [apply returns_lift; intros i Hi; exact Hi|]. intros inner Hi. apply returns_ret.
  unfold node_target. cbn. split_and!; [done..|congruence|done|]. by apply placed_inner.
Qed.

Lemma available_some node n : available_node node = Some n -> node = Some n.
Proof. destruct node as [x|]; [|done]. cbn. destruct (metadataVFSNodeUnavailable x); [done|]. by intros [= ->]. Qed.

Lemma share_node_returns share : returns (resolveShareTargetNode s share) (fun node =>
  match node with
  | Some n => sh_metadataReader s = true /\
      if N.eqb (sl_TargetVFSNodeID share) 0
      then exists p, share_virtual_path share p /\ normalizeVirtualPath p = Ok (vn_Path n)
      else vn_ID n = sl_TargetVFSNodeID share
  | None => sh_metadataReader s = true -> sl_TargetVFSNodeID share = 0%N
  end).
Proof.
  unfold resolveShareTargetNode. destruct (sh_metadataReader s); cbn [negb]; [|by apply returns_ret].
  destruct (N.eqb_spec (sl_TargetVFSNodeID share) 0) as [E|E]; cbn [negb].
  - eapply returns_bind with (P := share_virtual_path share).
    { unfold share_virtual_path. destruct (String.eqb _ ""); [|by apply returns_ret].
      eapply returns_bind; [apply source_returns|]. intros src Es. apply returns_ret. by exists src. }
    intros p Hp. destruct (String.eqb (trim_space p) ""); [apply returns_throw|].
    eapply returns_bind; [apply returns_lift; intros q Hq; exact Hq|]. intros q Hq.
    eapply returns_bind; [apply returns_any|]. intros _ _.
    eapply returns_bind_or; [apply resolve_path_law|intros _; by apply returns_ret|]. intros node Hn.
    destruct (available_node node) as [n|] eqn:Ea; [|apply returns_throw]. apply returns_ret. split; [done|].
    exists p. split; [done|]. apply available_some in Ea as ->. rewrite Hq. apply normalize_canonical in Hq.
    by rewrite canonical_normalize in Hn.
  - eapply returns_bind_or; [apply resolve_id_law|intros _; apply returns_throw|]. intros node Hn.
    destruct (available_node node) as [n|] eqn:Ea; [|apply returns_throw]. apply returns_ret. split; [done|].
    by apply available_some in Ea as ->.
Qed.

Lemma resolve_share_returns share : returns (resolveShareTarget s share) (root_of share).
Proof.
  eapply returns_bind; [apply share_node_returns|]. intros [node|] Hn.
  - destruct Hn as [Hr Hn]. eapply returns_mono; [apply node_returns|]. intros t (H1 & H2 & H3 & H4 & H5 & H6).
    by eapply root_node.
  - eapply returns_bind; [apply source_returns|]. intros src Hs. eapply returns_bind; [apply inspect_returns|].
    intros [[vp name] isDir] Hi. apply returns_ret. apply root_file; [done..|]. intros Hb. cbn. by rewrite Hb, Hb.
Qed.

(** A target at the virtual path that lies [req] below a root.  One that was
    not found by its node keeps the source.  On one source, where the root is
    placed, the inner path lies [req] below the root's as well. *)
Definition below (root : shareTargetResolution) (req : string) (t : shareTargetResolution) : Prop :=
  placed t /\ segs (tr_VirtualPath t) = segs (tr_VirtualPath root) ++ segs req /\
  (tr_NodeFirst root = false -> tr_Source t = tr_Source root) /\
  (placed root -> tr_Source t = tr_Source root -> segs (tr_InnerPath t) = segs (tr_InnerPath root) ++ segs req).
Lemma below_placed root req t : placed t -> segs (tr_VirtualPath t) = segs (tr_VirtualPath root) ++ segs req ->
  (tr_NodeFirst root = false -> tr_Source t = tr_Source root) -> below root req t.
Proof.
  intros Ht Ev Es. split_and!; [done..|]. intros (m & Hm & _ & _ & Er) E. destruct Ht as (m' & Hm' & _ & _ & Et).
  rewrite E, Hm in Hm'. injection Hm' as <-. rewrite Er, Et in Ev. rewrite <- app_assoc in Ev. by apply app_inv_head in Ev.
Qed.

Lemma path_target_returns root req actual rel : (tr_NodeFirst root = true -> sh_metadataReader s = true) -> resolveShareTargetPath (tr_VirtualPath root) req = Ok (actual, rel) ->
  returns (resolveSharePathTarget s root actual) (below root req).
Proof.
  intros Hfirst (Hr & Hg & -> & _)%target_path_spec. set (l := segs (tr_VirtualPath root) ++ segs req) in *.
  unfold resolveSharePathTarget. rewrite normalize_render by done.
  eapply returns_bind; [apply returns_ret with (P := fun p => p = render l); done|]. intros p ->.
  destruct (negb _); [apply returns_throw|]. destruct (_ && _) eqn:Ef.
  - apply andb_true_iff in Ef as [Ef _]. eapply returns_bind; [apply returns_any|]. intros _ _.
    eapply returns_bind_or; [apply resolve_path_law|intros _; apply returns_throw|]. intros node Hn.
    destruct (available_node node) as [n|] eqn:Ea; [|apply returns_throw]. apply available_some in Ea as ->.
    rewrite normalize_render in Hn by done. injection Hn as Hn.
    eapply returns_mono; [apply node_returns|]. intros t (_ & _ & _ & _ & Ev & Hp).
    apply below_placed; [done|by rewrite Ev, <- Hn, segs_render|congruence].
  - eapply returns_bind; [apply returns_lift; intros i Hi; exact Hi|]. intros inner Hi.
    eapply returns_bind; [apply inspect_returns|]. intros [[vp name] isDir] Hv. apply returns_ret.
    cbn in Hv. assert (vp = inner) as ->.
    { apply inner_path_spec in Hi as (lm & li & Hgl & _ & _ & ->). rewrite good_segs_app in Hgl.
      apply andb_true_iff in Hgl as [_ Hli]. rewrite normalize_render in Hv by done. by injection Hv. }
    apply below_placed; [by apply placed_inner|exact (segs_render l Hg)|done].
Qed.

(** ** The tables the service touches *)
Lemma reads_within {A} ts (m : M GoErr World A) : (forall w, wp m (fun _ w' => frames [] w w') w) -> within ts m.
Proof. intros Hm. apply (within_mono [] ts); [exact Hm|set_solver]. Qed.
Lemma uuid_within ts : within ts NewString.
Proof. intros w. eapply wp_mono; [apply uuid_law|]. intros r w' Hs. by apply same_frames. Qed.
Lemma stat_within ts p : within ts (map_err share_file_error (os_Stat p)).
Proof. intros w. apply wp_map_err. eapply wp_mono; [apply stat_law|]. intros [a|e] w' Hf; (eapply frames_mono; [exact Hf|set_solver]). Qed.
Lemma read_dir_within ts p : within ts (map_err share_file_error (os_ReadDir p)).
Proof. intros w. apply wp_map_err. eapply wp_mono; [apply read_dir_law|]. intros [a|e] w' Hf; (eapply frames_mono; [exact Hf|set_solver]). Qed.
Lemma info_within ts p n : within ts (map_err file_error (os_Info p n)).
Proof. intros w. apply wp_map_err. eapply wp_mono; [apply info_law|]. intros [a|e] w' Hf; (eapply frames_mono; [exact Hf|set_solver]). Qed.
Lemma drv_stat_within ts k src p : TSource ∈ ts -> within ts (map_err share_file_error (drv_Stat k src p)).
Proof. intros Ht w. apply wp_map_err. eapply wp_mono; [apply drv_stat_law|]. intros [a|e] w' Hf; (eapply frames_mono; [exact Hf|set_solver]). Qed.
Lemma drv_list_within ts k src p : TSource ∈ ts -> within ts (map_err share_file_error (drv_List k src p)).
Proof. intros Ht w. apply wp_map_err. eapply wp_mono; [apply drv_list_law|]. intros [a|e] w' Hf; (eapply frames_mono; [exact Hf|set_solver]). Qed.
Lemma refresh_within ts p : tree_tables ⊆ ts -> within ts (RefreshPath p).
Proof. intros Hs. apply (within_mono tree_tables ts); [exact (refresh_law p)|exact Hs]. Qed.
#[local] Hint Resolve uuid_within stat_within read_dir_within info_within : frame.
#[local] Hint Extern 2 (within _ (ResolveNode _)) => apply reads_within, read_path_law : frame.
#[local] Hint Extern 2 (within _ (ResolveNodeByID _)) => apply reads_within, read_id_law : frame.
#[local] Hint Extern 2 (within _ (ListChildren _)) => apply reads_within, list_law : frame.
#[local] Hint Extern 2 (within _ (map_err _ (drv_Stat _ _ _))) => apply drv_stat_within; set_solver : frame.
#[local] Hint Extern 2 (within _ (map_err _ (drv_List _ _ _))) => apply drv_list_within; set_solver : frame.
#[local] Hint Extern 2 (within _ (RefreshPath _)) => apply refresh_within; set_solver : frame.

Section Within.
Context (ts : list Table) (Hts : tree_tables ⊆ ts).
Ltac here_tac := repeat first [solve [auto with frame] | frame_step].

Lemma inspect_within source p : within ts (inspectTarget source p).
Proof. unfold inspectTarget. here_tac. Qed.
Lemma refresh_path_within p : within ts (refreshShareMetadataPath s p).
Proof. unfold refreshShareMetadataPath. here_tac. Qed.
Lemma error_of_within m : within ts m -> within ts (error_of m).
Proof. intros Hm. unfold error_of. apply within_bind_or; [done|intros e; here_tac|intros; here_tac]. Qed.
Hint Resolve inspect_within refresh_path_within error_of_within : frame.
Lemma ancestors_within l current : within ts (refresh_ancestors s current l).
Proof. revert current. induction l as [|x l IH]; intros current; cbn; here_tac. Qed.
Hint Resolve ancestors_within : frame.
Lemma refresh_target_within p : within ts (refreshShareTargetMetadata s p).
Proof. unfold refreshShareTargetMetadata. here_tac. Qed.
Hint Resolve refresh_target_within : frame.
Lemma source_within id : within ts (shareTargetSourceByID id).
Proof. unfold shareTargetSourceByID, SourceRepository_FindByID. here_tac. Qed.
Hint Resolve source_within : frame.
Lemma node_within n : within ts (shareTargetFromNode n).
Proof. unfold shareTargetFromNode. here_tac. Qed.
Hint Resolve node_within : frame.
Lemma resolve_share_within share : within ts (resolveShareTarget s share).
Proof. unfold resolveShareTarget, resolveShareTargetNode, resolveLegacyShareTarget. here_tac. Qed.
Lemma path_target_within root p : within ts (resolveSharePathTarget s root p).
Proof. unfold resolveSharePathTarget. here_tac. Qed.
Lemma local_items_within id phys actual names : within ts (local_items id phys actual names).
Proof. induction names as [|n names IH]; cbn; here_tac. Qed.
Hint Resolve local_items_within : frame.
Lemma list_within root t sortBy sortOrder page size : within ts (listPublicDirectory s root t sortBy sortOrder page size).
Proof. unfold listPublicDirectory. here_tac. Qed.
Lemma create_target_within req : within ts (resolveCreateShareTarget s req).
Proof. unfold resolveCreateShareTarget, resolveShareTargetVFSNodeID, SourceRepository_FindByID. here_tac. Qed.
End Within.

(** ** Access *)

(** Why a link is refused at a time, if it is. *)
Definition refusal (share : ShareLink) (password : string) (now : Z) : option GoErr :=
  if match sl_ExpiresAt share with Some t => Z.ltb t now | None => false end then Some ErrShareExpired
  else match sl_PasswordHash share with
       | None => None
       | Some hash =>
           if String.eqb password "" then Some ErrSharePasswordRequired
           else if Compare hash password then None else Some ErrSharePasswordInvalid
       end.

Lemma wp_accessible share password (Q : result GoErr unit -> World -> Prop) w :
  (forall w', frames [] w w' ->
     Q match refusal share password (the_time w) with Some e => Err e | None => Ok tt end w') ->
  wp (ensureShareAccessible share password) Q w.
Proof.
  intros HQ. unfold ensureShareAccessible, refusal in *. apply wp_bind.
  destruct (sl_ExpiresAt share) as [t|]; [apply wp_bind, wp_time_now|]; apply wp_ret.
  - specialize (HQ { w with w_reads ::= S } (tick_frames _ _)).
    destruct (Z.ltb t _); [exact HQ|]. destruct (sl_PasswordHash share); [|exact HQ].
    destruct (String.eqb password ""); [exact HQ|]. destruct (Compare _ _); exact HQ.
  - specialize (HQ w (frames_refl _ _)). destruct (sl_PasswordHash share); [|exact HQ].
    destruct (String.eqb password ""); [exact HQ|]. destruct (Compare _ _); exact HQ.
Qed.

(** A link for the file of a target: its token names the source and the
    inner path, and is good for at most five minutes, and at most for what
    was left of the share at an earlier time of the same request. *)
Definition link_for (share : ShareLink) (t : shareTargetResolution) (disposition : string) w (url : string) : Prop :=
  exists filePath virtualPath token id i j ttl,
    let now := w_clock w j in
    let d := if String.eqb disposition "" then "attachment" else disposition in
    normalizeVirtualPath (tr_InnerPath t) = Ok filePath /\ normalizeVirtualPath (tr_VirtualPath t) = Ok virtualPath /\
    url = download_url virtualPath d token /\
    SignedString (sh_tokenSecret s)
      {| fac_SourceID := src_ID (tr_Source t); fac_Path := filePath; fac_Purpose := "share"; fac_Disposition := d;
         fac_TokenType := "file_access" |}
      {| rcl_ExpiresAt := NumericDate (now + ttl); rcl_IssuedAt := NumericDate now; rcl_NotBefore := NumericDate now;
         rcl_Subject := ""; rcl_ID := id |} = Ok token /\
    w_reads w <= i <= j /\ (0 < ttl <= 5 * minute)%Z /\
    (forall exp, sl_ExpiresAt share = Some exp -> (ttl <= exp - w_clock w i)%Z).

Lemma wp_redirect share t disposition w0 w (Q : result GoErr ShareOpenResult -> World -> Prop) :
  frames tree_tables w0 w ->
  (forall e w', frames tree_tables w0 w' -> Q (Err e) w') ->
  (forall url w', frames tree_tables w0 w' -> link_for share t disposition w0 url ->
     Q (Ok {| or_RedirectURL := url; or_Data := None |}) w') ->
  wp (redirect_to s t disposition (sl_ExpiresAt share)) Q w.
Proof.
  intros Hf He HQ. unfold redirect_to, buildShareDownloadURL. apply wp_bind.
  set (d := if String.eqb disposition "" then "attachment" else disposition).
  assert (forall ttl i w1, frames tree_tables w0 w1 -> w_reads w0 <= i <= w_reads w1 -> (0 < ttl <= 5 * minute)%Z ->
    (forall exp, sl_ExpiresAt share = Some exp -> (ttl <= exp - w_clock w0 i)%Z) ->
    wp (normalizedFilePath <-! lift_result (normalizeVirtualPath (tr_InnerPath t)) ;;
        normalizedVirtualPath <-! lift_result (normalizeVirtualPath (tr_VirtualPath t)) ;;
        token <-! FileAccess_Issue (sh_tokenSecret s) (src_ID (tr_Source t)) normalizedFilePath "share" d ttl ;;
        ret (download_url normalizedVirtualPath d (fst token)))
       (fun r w' => match r with
                    | Ok url => wp (ret {| or_RedirectURL := url; or_Data := None |}) Q w'
                    | Err e => Q (Err e) w' end) w1) as Hissue.
  { intros ttl i w1 Hf1 Hi Ht Hexp. apply wp_bind, wp_lift_result.
    destruct (normalizeVirtualPath (tr_InnerPath t)) as [fp|] eqn:Ep; [|by apply He].
    apply wp_bind, wp_lift_result. destruct (normalizeVirtualPath (tr_VirtualPath t)) as [vp|] eqn:Ev; [|by apply He].
    apply wp_bind. unfold FileAccess_Issue. apply wp_bind, wp_time_now, wp_bind.
    assert (frames tree_tables w0 { w1 with w_reads ::= S }) as Hf2 by (eapply frames_trans; [done|apply tick_frames]).
    eapply wp_mono; [apply uuid_law|]. intros [id|e] w2 Hs; [|apply He; by eapply frames_same].
    apply wp_bind, wp_lift_result. destruct (SignedString _ _ _) as [tok|] eqn:Es; [|apply He; by eapply frames_same].
    do 3 apply wp_ret. apply HQ; [by eapply frames_same|].
    exists fp, vp, tok, id, i, (w_reads w1), ttl. unfold the_time in Es. rewrite (proj1 (proj2 (proj2 Hf1))) in Es.
    cbn. split_and!; done || tauto || lia. }
  destruct (sl_ExpiresAt share) as [exp|] eqn:Ee; apply wp_bind.
  - apply wp_bind, wp_time_now. set (w1 := { w with w_reads ::= S }).
    assert (frames tree_tables w0 w1) as Hf1 by (eapply frames_trans; [done|apply tick_frames]).
    destruct (Z.leb_spec (time_sub exp (the_time w)) 0) as [|Hpos]; [by apply wp_throw, He|]. apply wp_ret.
    unfold time_sub, max_int in *. assert (the_time w = w_clock w0 (w_reads w)) as Et.
    { unfold the_time. by rewrite (proj1 (proj2 (proj2 Hf))). }
    destruct Hf as (_ & _ & _ & Hr). apply (Hissue _ (w_reads w) w1); [done|cbn; lia| |].
    + unfold minute in *. destruct (Z.ltb_spec (Z.max (- 2 ^ 63) (Z.min (2 ^ 63 - 1) (exp - the_time w))) (5 * (60 * 1000000000))); lia.
    + intros ? [= <-]. rewrite <- Et. unfold minute.
      destruct (Z.ltb_spec (Z.max (- 2 ^ 63) (Z.min (2 ^ 63 - 1) (exp - the_time w))) (5 * (60 * 1000000000))); lia.
  - apply wp_ret. apply (Hissue _ (w_reads w) w); [done| |unfold minute; lia|done]. destruct Hf as (_ & _ & _ & Hr). lia.
Qed.

(** ** Listings *)
Definition shown (entries : list PublicShareEntry) : Prop :=
  forall e, e ∈ entries -> isHiddenPublicShareEntryName (pe_Name e) = false.

Lemma page_subset {A} (l items : list A) page size total pages :
  paginateItems l page size = Ok (items, total, pages) -> forall x, x ∈ items -> x ∈ l.
Proof.
  unfold paginateItems. destruct (Z.leb _ _); [intros [= <- _ _] x Hx; by apply elem_of_nil in Hx|].
  destruct (_ && _); [|done]. intros [= <- _ _] x Hx.
  match type of Hx with _ ∈ take ?n ?k =>
    assert (x ∈ k) as Hk by (rewrite <- (take_drop n k); apply elem_of_app; by left) end.
  match type of Hk with _ ∈ drop ?n _ => rewrite <- (take_drop n l); apply elem_of_app; by right end.
Qed.
Lemma page_shown l page size : shown l ->
  returns (lift_result (paginateItems l page size) : M GoErr World _) (fun r => shown (fst (fst r))).
Proof.
  intros Hl. apply returns_lift. intros [[items total] pages] E e He. apply Hl. by eapply page_subset.
Qed.
Lemma listing_shown root t sortBy sortOrder page size :
  returns (listPublicDirectory s root t sortBy sortOrder page size) (fun r => shown (fst (fst r))).
Proof.
  unfold listPublicDirectory. destruct (_ && _).
  - eapply returns_bind; [apply returns_any|]. intros _ _. eapply returns_bind; [apply returns_any|]. intros resp _.
    apply page_shown. intros e He. unfold sortPublicShareEntries in He. rewrite stable_sort_perm in He.
    apply list_elem_of_fmap in He as (item & -> & [_ Hp]%elem_of_sel). by apply negb_true_iff, orb_false_iff in Hp as [Hp _].
  - eapply returns_bind; [apply returns_any|]. intros items _. apply page_shown. intros e He.
    apply list_elem_of_fmap in He as (item & -> & [_ Hp]%elem_of_sel). by apply negb_true_iff in Hp.
Qed.

(** What a link that was let through gives. *)
Definition opened (share : ShareLink) (req disposition : string) w (r : ShareOpenResult) : Prop :=
  exists root t, root_of share root /\
    (tr_IsDir root = false /\ t = root \/ tr_IsDir root = true /\ below root req t) /\
    match or_Data r with
    | None => tr_IsDir t = false /\ link_for share t disposition w (or_RedirectURL r)
    | Some d => tr_IsDir t = true /\ or_RedirectURL r = "" /\ shown (so_Items d)
    end.

Lemma wp_open share req disposition sortBy sortOrder page size w0 w : frames tree_tables w0 w ->
  wp (rootTarget <-! resolveShareTarget s share ;;
      if negb (tr_IsDir rootTarget) then redirect_to s rootTarget disposition (sl_ExpiresAt share)
      else
        paths <-! lift_result (resolveShareTargetPath (tr_VirtualPath rootTarget) req) ;;
        let '(actualPath, currentPath) := paths in
        currentTarget <-! resolveSharePathTarget s rootTarget actualPath ;;
        if negb (tr_IsDir currentTarget) then redirect_to s currentTarget disposition (sl_ExpiresAt share)
        else
          listed <-! listPublicDirectory s rootTarget currentTarget sortBy sortOrder page size ;;
          let '(items, total, totalPages) := listed in
          ret {| or_RedirectURL := "";
                 or_Data := Some
                   {| so_Share := toShareViewWithTarget share rootTarget; so_CurrentPath := currentPath;
                      so_CurrentDir := buildPublicShareCurrentDir (tr_Name rootTarget) currentPath;
                      so_Breadcrumbs := buildPublicShareBreadcrumbs (tr_Name rootTarget) currentPath;
                      so_Pagination := {| pg_Page := pageValue page; pg_PageSize := pageSizeValue size;
                                          pg_Total := total; pg_TotalPages := totalPages |};
                      so_Items := items |} |})
     (fun r w' => frames tree_tables w0 w' /\ match r with Ok r => opened share req disposition w0 r | Err _ => True end) w.
Proof.
  intros Hf. assert (forall (e : GoErr) w', frames tree_tables w0 w' -> frames tree_tables w0 w' /\ True) as He by done.
  apply wp_bind. eapply wp_step; [exact Hf|by apply resolve_share_within|apply resolve_share_returns|done|].
  intros root w1 _ Hf1 Hroot. destruct (tr_IsDir root) eqn:Ed; cbn [negb].
  2:{ eapply wp_redirect; [exact Hf1|done|]. intros url w2 Hf2 Hl. split; [done|]. exists root, root. cbn. auto. }
  apply wp_bind, wp_lift_result. destruct (resolveShareTargetPath _ _) as [[actual rel]|] eqn:Ep; [|done].
  apply wp_bind. eapply wp_step; [exact Hf1|by apply path_target_within|eapply path_target_returns; [by destruct Hroot as [? _ _ ?|_ ? _ _ _ _]; [|congruence]|exact Ep]|done|].
  intros t w2 _ Hf2 Ht. destruct (tr_IsDir t) eqn:Edt; cbn [negb].
  2:{ eapply wp_redirect; [exact Hf2|done|]. intros url w3 Hf3 Hl. split; [done|]. exists root, t. cbn. auto. }
  apply wp_bind. eapply wp_step; [exact Hf2|by apply list_within|apply listing_shown|done|].
  intros [[items total] pages] w3 _ Hf3 Hs. apply wp_ret. split; [done|]. exists root, t. cbn. auto.
Qed.

Lemma open_spec token password req disposition sortBy sortOrder page size w :
  wp (ShareService_Open s token password req disposition sortBy sortOrder page size) (fun r w' => frames tree_tables w w' /\
    match r with
    | Ok r => exists share, share ∈ tbl TShare w /\ sl_Token share = token /\ refusal share password (the_time w) = None /\
                opened share req disposition w r
    | Err _ => True
    end) w.
Proof.
  unfold ShareService_Open. apply wp_bind, (wp_first TShare).
  - intros e w' Hs _. split; [by apply same_frames|done].
  - intros w' Hs _. split; [by apply same_frames|done].
  - intros share w1 Hs Hin Ht%String.eqb_eq _. apply wp_bind, wp_accessible. intros w2 Hf2.
    assert (the_time w1 = the_time w) as -> by (destruct Hs as (_ & E1 & E2); unfold the_time; by rewrite E1, E2).
    assert (frames tree_tables w w2) as Hf.
    { eapply frames_trans; [by apply same_frames|]. eapply frames_mono; [exact Hf2|set_solver]. }
    destruct (refusal share password (the_time w)) eqn:Er; [done|].
    eapply wp_mono; [by apply wp_open|]. intros [r|e] w3 [Hf3 Ho]; [|done]. split; [done|]. by exists share.
Qed.


Lemma same_token_share w a b : valid w -> a ∈ tbl TShare w -> b ∈ tbl TShare w -> sl_Token a = sl_Token b -> a = b.
Proof.
  intros Hv Ha Hb E. destruct (no_conflicts_elem TShare _ a b (Hv TShare) Ha Hb) as [->|Hc]; [done|].
  cbn in Hc. unfold ShareLinkModel_conflict in Hc. by rewrite E, String.eqb_refl, orb_true_r in Hc.
Qed.

(** A link is refused for what is wrong with it, before anything is
    looked up for it: an unknown token is not found, an expired share has
    expired, a share with a password wants it, and takes no other.  Only
    the database may answer instead, and nothing changes. *)
Theorem share_open_refused token password req disposition sortBy sortOrder page size w (Hvalid : valid w) :
  let '(res, w') := ShareService_Open s token password req disposition sortBy sortOrder page size w in
  (forall share err, share ∈ tbl TShare w -> sl_Token share = token -> refusal share password (the_time w) = Some err ->
     frames [] w w' /\ exists e, res = Err e /\ (e = err \/ db_error e)) /\
  ((forall share, share ∈ tbl TShare w -> sl_Token share <> token) ->
     frames [] w w' /\ exists e, res = Err e /\ (e = ErrNotFound \/ db_error e)).
Proof.
  apply run_wp. unfold ShareService_Open. apply wp_bind, (wp_first TShare).
  - intros e w' Hs Hd. split; [intros share err _ _ _|intros _]; (split; [by apply same_frames|]; exists e; auto).
  - intros w' Hs Hn. split; [|intros _; split; [by apply same_frames|]; exists ErrNotFound; auto].
    intros share err Hin Ht _. specialize (Hn share Hin). unfold share_by_token in Hn. by rewrite Ht, String.eqb_refl in Hn.
  - intros share w1 Hs Hin Ht%String.eqb_eq _. apply wp_bind, wp_accessible. intros w2 Hf2.
    assert (the_time w1 = the_time w) as -> by (destruct Hs as (_ & E1 & E2); unfold the_time; by rewrite E1, E2).
    destruct (refusal share password (the_time w)) as [e|] eqn:Er.
    + split; [|intros Hn; by destruct (Hn share Hin)]. intros share' err Hin' Ht' Er'.
      assert (share' = share) as -> by (apply (same_token_share w); [done..|congruence]).
      split; [eapply frames_trans; [by apply same_frames|done]|]. exists e. split; [done|]. left. congruence.
    + eapply wp_mono; [apply (wp_open _ _ _ _ _ _ _ w2 w2), frames_refl|]. intros r w3 _.
      split; [|intros Hn; by destruct (Hn share Hin)]. intros share' err Hin' Ht' Er'. exfalso.
      assert (share' = share) as -> by (apply (same_token_share w); [done..|congruence]). congruence.
Qed.

(** ** Managing shares *)
Context {PHL : PasswordHasherLaws}.

(** The tables a request on shares may write, the shares apart. *)
Definition beside_tables : list Table := TAudit :: tree_tables.
Definition share_tables : list Table := TShare :: beside_tables.

Lemma wp_beside {A} (m : M GoErr World A) (Q : result GoErr A -> World -> Prop) w0 w :
  frames beside_tables w0 w -> within beside_tables m -> (forall r w', frames beside_tables w0 w' -> Q r w') -> wp m Q w.
Proof. intros Hf Hm HQ. eapply wp_mono; [apply Hm|]. intros r w' Hf'. apply HQ. by eapply frames_trans. Qed.
Lemma reads_beside {A} (m : M GoErr World A) : within [] m -> within beside_tables m.
Proof. intros Hm. apply (within_mono [] beside_tables); [exact Hm|set_solver]. Qed.
Lemma audit_beside ctx ev : within beside_tables (recordServiceAudit ctx (sh_auditRecorder s) ev).
Proof. apply within_audit. set_solver. Qed.
Lemma refuse_beside {A} ctx ev err : within beside_tables (refuse (sh_auditRecorder s) ctx ev err : M GoErr World A).
Proof. apply within_refuse. set_solver. Qed.
Lemma target_beside req : within beside_tables (resolveCreateShareTarget s req).
Proof. apply create_target_within. set_solver. Qed.
Lemma authorize_beside ctx t : within beside_tables (authorizeShareTarget s ctx t).
Proof.
  apply reads_beside. unfold authorizeShareTarget. destruct (sh_aclAuthorizer s); [|apply within_ret].
  destruct (tr_Node t); [apply authorize_virtual_within|apply authorize_path_within].
Qed.
Lemma same_beside w0 w w' : frames beside_tables w0 w -> same w w' -> frames beside_tables w0 w'.
Proof. intros Hf Hs. by eapply frames_same. Qed.
Lemma beside_shares w w' : frames beside_tables w w' -> tbl TShare w' = tbl TShare w.
Proof. intros Hf. apply (frames_tbl _ _ _ TShare Hf). set_solver. Qed.

Lemma share_put_frames l w0 w1 w2 w3 : frames beside_tables w0 w1 -> put TShare l w1 w2 ->
  (valid w1 -> no_conflicts TShare l = true) -> frames [TAudit] w2 w3 -> frames share_tables w0 w3.
Proof.
  intros H1 Hp Hn H2. apply (frames_put beside_tables TShare [TAudit] share_tables l w0 w1 w2 w3 H1 Hp Hn H2); set_solver.
Qed.
Lemma beside_share_frames w w' : frames beside_tables w w' -> frames share_tables w w'.
Proof. intros Hf. apply (frames_mono beside_tables share_tables w w' Hf). set_solver. Qed.
Lemma tree_beside_frames w w' : frames tree_tables w w' -> frames beside_tables w w'.
Proof. intros Hf. apply (frames_mono tree_tables beside_tables w w' Hf). set_solver. Qed.

(** What the request decides before it writes: the hash and the expiry. *)
Definition hash_of (password : string) (h : option string) : Prop :=
  if String.eqb password "" then h = None else exists hash, h = Some hash /\ Compare hash password = true.
Definition expires (seconds now : Z) (e : option Z) : Prop :=
  e = if Z.ltb 0 seconds then Some (expiry now seconds) else None.

(** The created row, and who may create it. *)
Definition share_created ctx (req : CreateShareRequest) (view : ShareView) w w' : Prop :=
  exists auth target w1 token h e now id now' row,
    ctx_auth ctx = Some auth /\ frames tree_tables w w1 /\ is_ok (fst (authorizeShareTarget s ctx target w1)) = true /\
    hash_of (cs_Password req) h /\ expires (cs_ExpiresIn req) now e /\
    row = stamp TShare id now' (new_share (ra_UserID auth) target token h e now) /\
    tbl TShare w' = tbl TShare w ++ [row] /\ view = toShareView row.

Lemma wp_hash password w (Q : result GoErr string -> World -> Prop) :
  (forall e w', same w w' -> Q (Err e) w') ->
  (forall h w', same w w' -> Compare h password = true -> Q (Ok h) w') -> wp (Hash password) Q w.
Proof. intros He HQ. eapply wp_mono; [apply hash_law|]. intros [h|e] w' [Hs Hh]; auto. Qed.

(** A failure branch that audits. *)
Definition only_beside {A} w (r : result GoErr A) w' : Prop := frames beside_tables w w' /\ is_ok r = false.
Lemma wp_refused {A} ctx ev err w0 w (Q : result GoErr A -> World -> Prop) : frames beside_tables w0 w ->
  (forall r w', only_beside w0 r w' -> Q r w') -> wp (refuse (sh_auditRecorder s) ctx ev err) Q w.
Proof.
  intros Hf HQ. apply wp_bind. eapply wp_beside; [exact Hf|apply audit_beside|]. intros [u|e] w' Hf'; [|by apply HQ].
  by apply wp_throw, HQ.
Qed.

Lemma wp_Create ctx req w :
  wp (ShareService_Create s ctx req) (fun r w' =>
    (match r with
     | Ok view => share_created ctx req view w w'
     | Err _ => frames beside_tables w w'
     end) /\ frames share_tables w w') w.
Proof.
  set (Q := fun (r : result GoErr ShareView) w' => _). assert (forall r w', only_beside w r w' -> Q r w') as Hbad.
  { intros [v|e] w' [Hf He]; [discriminate He|]. split; [exact Hf|by apply beside_share_frames]. }
  assert (forall ctx ev err w', frames beside_tables w w' -> wp (refuse (sh_auditRecorder s) ctx ev err) Q w') as Href
    by (intros ctx' ev err w' Hf; exact (wp_refused ctx' ev err w w' Q Hf Hbad)).
  unfold ShareService_Create. apply wp_bind_or. eapply wp_mono; [apply (create_target_within tree_tables); set_solver|].
  intros [target|err] w1 Hf1; [|apply Href, tree_beside_frames, Hf1].
  apply wp_bind_or. destruct (authorizeShareTarget s ctx target w1) as [[[]|err] w2] eqn:Ea;
    pose proof (authorize_beside ctx target w1) as Hf2; unfold wp in Hf2; rewrite Ea in Hf2; cbn in Hf2;
    assert (frames beside_tables w w2) as Hf by (exact (frames_trans _ _ _ _ (tree_beside_frames _ _ Hf1) Hf2));
    unfold wp at 1; rewrite Ea; cbn [fst snd]; [|by apply Href].
  apply wp_bind_or, wp_lift_result. unfold currentRequestAuth, RequestAuthFromContext.
  destruct (ctx_auth ctx) as [auth|] eqn:Ec; [|by apply Href].
  apply wp_bind.
  assert (forall h w3, frames beside_tables w w3 -> hash_of (cs_Password req) h -> wp
    (now <-! time_now ;;
     let expiresAt := if Z.ltb 0 (cs_ExpiresIn req) then Some (expiry now (cs_ExpiresIn req)) else None in
     token <-! NewString ;;
     share <-! ShareRepository_Create (new_share (ra_UserID auth) target token h expiresAt now) or err =>
       refused_create s ctx ResultFailed "INTERNAL_ERROR" "" target err ;;
     do! recordServiceAudit ctx (sh_auditRecorder s)
       { (share_create_event ResultSuccess "" (encodeUintID (sl_ID share)) target) with ev_After := shareAuditView share } ;;
     ret (toShareView share)) Q w3) as Hrest.
  { intros h w3 Hf3 Hh. apply wp_bind, wp_time_now. set (w4 := { w3 with w_reads ::= S }).
    assert (frames beside_tables w w4) as Hf4 by (eapply frames_trans; [exact Hf3|apply tick_frames]).
    apply wp_bind. eapply wp_mono; [apply uuid_law|]. intros [token|e] w5 Hs5;
      [|apply Hbad; split; [by eapply same_beside|done]].
    pose proof (same_beside _ _ _ Hf4 Hs5) as Hf5. apply wp_bind_or, (wp_insert TShare).
    - intros e w6 Hs6 _. apply Href. by eapply same_beside.
    - intros id now' w6 row _ Hab Hp. apply wp_bind, wp_audit. intros w7 Hf7. apply wp_ret. split.
      + exists auth, target, w1, token, h, (if Z.ltb 0 (cs_ExpiresIn req) then Some (expiry (the_time w3) (cs_ExpiresIn req)) else None),
          (the_time w3), id, now', row.
        do 2 (split; [assumption|]). split; [by rewrite Ea|]. split; [exact Hh|]. do 2 (split; [reflexivity|]).
        split; [|reflexivity]. rewrite (frames_tbl _ _ _ TShare Hf7) by set_solver.
        rewrite (proj1 Hp). by rewrite (beside_shares _ _ Hf5).
      + eapply share_put_frames; [exact Hf5|exact Hp| |exact Hf7]. intros Hv. by apply absent_no_conflicts. }
  unfold hash_of in Hrest. destruct (String.eqb (cs_Password req) ""); [apply wp_ret; by apply Hrest|].
  apply wp_bind_or, wp_hash.
  - intros e w3 Hs3. eapply wp_refused; [by eapply same_beside|]. intros [v|e'] w4 [Hf4 He]; [discriminate He|].
    by apply Hbad.
  - intros h w3 Hs3 Hh. apply wp_ret, Hrest; [by eapply same_beside|by exists h].
Qed.

(** A share is created only for a target that is there and that the
    access rules let the user share.  The new row belongs to the user, leads
    to that target, keeps a hash of the password, where one was given, and
    expires after the seconds that were asked for; nothing else is shared.
    A refusal stores no share. *)
Theorem share_create_effect ctx req w :
  let '(res, w') := ShareService_Create s ctx req w in
  (match res with
   | Ok view => share_created ctx req view w w'
   | Err _ => tbl TShare w' = tbl TShare w
   end) /\ frames share_tables w w'.
Proof.
  apply run_wp. eapply wp_mono; [apply wp_Create|]. intros [v|e] w' [H1 H2]; [done|]. split; [by apply beside_shares|done].
Qed.

(** ** Who changes a share *)
Definition manages ctx (share : ShareLink) : bool := is_ok (authorizeShareOwnership ctx share true).
Definition reads ctx (share : ShareLink) : bool := is_ok (authorizeShareOwnership ctx share false).

(** The share with another password, expiry and update time. *)
Definition retouched (a b : ShareLink) : Prop :=
  b = { a with sl_PasswordHash := sl_PasswordHash b; sl_ExpiresAt := sl_ExpiresAt b; sl_UpdatedAt := sl_UpdatedAt b }.
Definition belongs ctx (share : ShareLink) : Prop := exists auth, ctx_auth ctx = Some auth /\ sl_UserID share = ra_UserID auth.

Record share_step ctx w w' : Prop := {
  step_frames : frames share_tables w w';
  step_kept : forall a, a ∈ tbl TShare w -> manages ctx a = false -> a ∈ tbl TShare w';
  step_origin : forall b, b ∈ tbl TShare w' -> b ∈ tbl TShare w \/ belongs ctx b \/
    exists a, a ∈ tbl TShare w /\ manages ctx a = true /\ retouched a b
}.

Lemma quiet_share_step ctx w w' : frames beside_tables w w' -> share_step ctx w w'.
Proof. intros Hf. split; [by apply beside_share_frames| |]; rewrite (beside_shares _ _ Hf); auto. Qed.
Lemma only_beside_step {A} ctx w (r : result GoErr A) w' : only_beside w r w' -> share_step ctx w w'.
Proof. intros [Hf _]. by apply quiet_share_step. Qed.

Lemma wp_share id (Q : result GoErr ShareLink -> World -> Prop) w :
  (forall e w', same w w' -> Q (Err e) w') ->
  (forall a w', same w w' -> a ∈ tbl TShare w -> sl_ID a = id -> Q (Ok a) w') -> wp (ShareRepository_FindByID id) Q w.
Proof.
  intros He HQ. apply (wp_first TShare); [by intros e w' Hs _; apply He|by intros w' Hs _; apply He|].
  intros a w' Hs Ha E%N.eqb_eq _. by apply HQ.
Qed.
Lemma same_id_share w a b : valid w -> a ∈ tbl TShare w -> b ∈ tbl TShare w -> sl_ID a = sl_ID b -> a = b.
Proof.
  intros Hv Ha Hb E. destruct (no_conflicts_elem TShare _ a b (Hv TShare) Ha Hb) as [->|Hc]; [done|].
  cbn in Hc. unfold ShareLinkModel_conflict in Hc. by rewrite E, N.eqb_refl in Hc.
Qed.

(** An update and a delete of a share the user manages. *)
Lemma updated_step ctx w w1 w2 w3 a b : valid w -> a ∈ tbl TShare w -> manages ctx a = true -> retouched a b ->
  frames beside_tables w w1 -> put TShare (set_where (share_by_id (sl_ID a)) (share_columns b) (tbl TShare w1)) w1 w2 ->
  no_conflicts TShare (set_where (share_by_id (sl_ID a)) (share_columns b) (tbl TShare w1)) = true ->
  frames [TAudit] w2 w3 -> share_step ctx w w3.
Proof.
  intros Hv Ha Hm Hr Hf Hp Hn Hf3. rewrite (beside_shares _ _ Hf) in Hp, Hn.
  assert (tbl TShare w3 = set_where (share_by_id (sl_ID a)) (share_columns b) (tbl TShare w)) as El.
  { rewrite (frames_tbl _ _ _ TShare Hf3) by set_solver. apply Hp. }
  assert (forall c, c ∈ tbl TShare w -> share_by_id (sl_ID a) c = true -> c = a) as Hone.
  { intros c Hc E%N.eqb_eq. by apply (same_id_share w). }
  assert (share_columns b a = b) as Eb by (rewrite Hr; by destruct a).
  split; [eapply share_put_frames; [exact Hf|exact Hp|intros _; exact Hn|exact Hf3]| |]; rewrite El.
  - intros c Hc Hmc. apply elem_of_set_where. right. split; [done|]. apply not_true_is_false. intros E.
    apply Hone in E as ->; [congruence|done].
  - intros c [(x & Hx & Hid & ->)|[Hc _]]%elem_of_set_where; [|by left]. apply Hone in Hid as ->; [|done].
    rewrite Eb. right. right. by exists a.
Qed.
Lemma deleted_step ctx w w1 w2 w3 a : valid w -> a ∈ tbl TShare w -> manages ctx a = true ->
  frames beside_tables w w1 -> put TShare (sel (fun x => negb (share_by_id (sl_ID a) x)) (tbl TShare w1)) w1 w2 ->
  frames [TAudit] w2 w3 -> share_step ctx w w3.
Proof.
  intros Hv Ha Hm Hf Hp Hf3. split.
  - eapply share_put_frames; [exact Hf|exact Hp|intros Hv1; by apply no_conflicts_sel|exact Hf3].
  - rewrite (frames_tbl _ _ _ TShare Hf3) by set_solver. rewrite (proj1 Hp), (beside_shares _ _ Hf).
    intros c Hc Hmc. apply elem_of_sel. split; [done|]. apply negb_true_iff, not_true_is_false. intros E%N.eqb_eq.
    by rewrite (same_id_share w c a), Hm in Hmc.
  - rewrite (frames_tbl _ _ _ TShare Hf3) by set_solver. rewrite (proj1 Hp), (beside_shares _ _ Hf).
    intros b [Hb _]%elem_of_sel. by left.
Qed.

(** The shares a view may be of. *)
Definition reachable ctx w (v : ShareView) : Prop :=
  exists a, a ∈ tbl TShare w /\ (reads ctx a = true \/ manages ctx a = true) /\ v = toShareView a.
Definition share_post ctx w (r : result GoErr (list ShareView)) w' : Prop :=
  share_step ctx w w' /\ match r with Ok views => forall v, v ∈ views -> reachable ctx w' v | Err _ => True end.
Definition one_post ctx w (r : result GoErr ShareView) w' : Prop :=
  share_step ctx w w' /\ match r with Ok v => reachable ctx w' v | Err _ => True end.

Lemma retouched_manages ctx a b : retouched a b -> manages ctx b = manages ctx a.
Proof. intros ->. done. Qed.

Lemma wp_Update ctx id req w : valid w -> wp (ShareService_Update s ctx id req) (one_post ctx w) w.
Proof.
  intros Hv. assert (forall r w', only_beside w r w' -> one_post ctx w r w') as Hbad.
  { intros [v|e] w' Ho; [by destruct Ho|]. split; [by eapply only_beside_step|done]. }
  unfold ShareService_Update. apply wp_bind_or, wp_share.
  { intros e w1 Hs. eapply wp_refused; [by apply same_frames|done]. }
  intros a w1 Hs1 Ha <-. pose proof (same_frames beside_tables _ _ Hs1) as Hf1. apply wp_bind_or, wp_lift_result.
  destruct (authorizeShareOwnership ctx a true) as [[]|e] eqn:Eo; [|eapply wp_refused; [by apply same_frames|done]].
  assert (manages ctx a = true) as Hm by (unfold manages; by rewrite Eo).
  apply wp_bind. eapply wp_mono with (Q := fun r w2 => frames beside_tables w w2 /\ True).
  { destruct (us_Password req) as [p|]; [|apply wp_ret; split; [by apply same_frames|done]].
    destruct (String.eqb p ""); [apply wp_ret; split; [by apply same_frames|done]|].
    apply wp_bind_or, wp_hash.
    - intros e w2 Hs2. eapply wp_refused; [exact (same_beside _ _ _ Hf1 Hs2)|].
      intros r w3 [Hf _]. done.
    - intros h w2 Hs2 _. apply wp_ret. split; [exact (same_beside _ _ _ Hf1 Hs2)|done]. }
  intros [h|e] w2 [Hf2 _]; [|apply Hbad; by split].
  apply wp_bind. eapply wp_mono with (Q := fun r w3 => frames beside_tables w w3 /\ True).
  { assert (forall e : option Z, wp (ret e : M GoErr World _) (fun _ w3 => frames beside_tables w w3 /\ True) w2) as Hret
      by (intros e; apply wp_ret; by split).
    destruct (us_ExpiresIn req) as [n|]; [|apply Hret]. destruct (Z.ltb 0 n); [|apply Hret].
    apply wp_bind, wp_time_now, wp_ret. split; [eapply frames_trans; [exact Hf2|apply tick_frames]|done]. }
  intros [e|e] w3 [Hf3 _]; [|apply Hbad; by split].
  apply wp_bind. destruct (_ || _).
  2:{ apply wp_ret, wp_bind. eapply wp_beside; [exact Hf3|apply audit_beside|]. intros [[]|err] w4 Hf4; [|apply Hbad; by split].
      apply wp_ret. split; [by apply quiet_share_step|]. exists a. rewrite (beside_shares _ _ Hf4). auto. }
  apply wp_bind, wp_time_now. set (w4 := { w3 with w_reads ::= S }).
  assert (frames beside_tables w w4) as Hf4 by (eapply frames_trans; [exact Hf3|apply tick_frames]).
  set (b := { { { a with sl_PasswordHash := h } with sl_ExpiresAt := e } with sl_UpdatedAt := _ }).
  assert (retouched a b) as Hr by done. clearbody b.
  apply wp_bind_or, wp_bind, (wp_update_at_found TShare).
  - intros err w5 Hs5 _. eapply wp_refused; [by eapply same_beside|]. intros [v|e'] w6 [Hf6 He]; [done|]. apply Hbad. by split.
  - intros w5 Hs5 _. eapply wp_refused; [by eapply same_beside|]. intros [v|e'] w6 [Hf6 He]; [done|]. apply Hbad. by split.
  - intros now w5 l _ Hn Hp. assert (sl_ID b = sl_ID a) as Eid by by rewrite Hr.
    assert (forall w6, frames [TAudit] w5 w6 -> share_step ctx w w6) as Hstep.
    { intros w6 Hf6. apply (updated_step ctx w w4 w5 w6 a b); [done..| |by rewrite <- Eid|done]. unfold l in Hp. by rewrite Eid in Hp. }
    apply wp_share.
    + intros err w6 Hs6. apply wp_bind, wp_audit. intros w7 Hf7. apply wp_throw. split; [|done].
      apply Hstep. eapply frames_trans; [by apply same_frames|done].
    + intros c w6 Hs6 Hc Ec. apply wp_ret, wp_bind, wp_audit. intros w7 Hf7. apply wp_ret.
      assert (tbl TShare w7 = tbl TShare w5) as E7 by (apply (frames_tbl [TAudit] w5 w7); [|set_solver];
        eapply frames_trans; [by apply same_frames|done]).
      split; [apply Hstep; eapply frames_trans; [by apply same_frames|done]|]. exists c. rewrite E7. split; [done|]. split; [|done].
      right. rewrite (proj1 Hp) in Hc. unfold l in Hc. rewrite (beside_shares _ _ Hf4) in Hc.
      apply elem_of_set_where in Hc as [(x & Hx & E%N.eqb_eq & ->)|[Hc E]].
      * assert (x = a) as -> by (apply (same_id_share w); [done..|congruence]).
        rewrite <- Hm. apply (retouched_manages ctx). rewrite Hr. by destruct a.
      * unfold share_by_id in E. by rewrite Ec, N.eqb_refl in E.
Qed.

Lemma wp_Delete ctx id w : valid w -> wp (ShareService_Delete s ctx id) (fun _ w' => share_step ctx w w') w.
Proof.
  intros Hv. assert (forall (r : result GoErr DeleteShareResponse) w', only_beside w r w' -> share_step ctx w w') as Hbad
    by (intros; by eapply only_beside_step).
  unfold ShareService_Delete. apply wp_bind_or, wp_share.
  { intros e w1 Hs. eapply wp_refused; [by apply same_frames|exact Hbad]. }
  intros a w1 Hs1 Ha <-. pose proof (same_frames beside_tables _ _ Hs1) as Hf1. apply wp_bind_or, wp_lift_result.
  destruct (authorizeShareOwnership ctx a true) as [[]|e] eqn:Eo; [|eapply wp_refused; [by apply same_frames|exact Hbad]].
  assert (manages ctx a = true) as Hm by (unfold manages; by rewrite Eo).
  apply wp_bind_or, (wp_delete_found TShare).
  - intros err w2 Hs2 _. eapply wp_refused; [exact (same_beside _ _ _ Hf1 Hs2)|exact Hbad].
  - intros w2 Hs2 _. eapply wp_refused; [exact (same_beside _ _ _ Hf1 Hs2)|exact Hbad].
  - intros w2 _ Hp. apply wp_bind, wp_audit. intros w3 Hf3. apply wp_ret.
    apply (deleted_step ctx w w1 w2 w3 a); [done..|by apply same_frames|done|done].
Qed.

Lemma Create_step ctx req w : wp (ShareService_Create s ctx req) (one_post ctx w) w.
Proof.
  eapply wp_mono; [apply wp_Create|]. intros [v|e] w' [Hc Hf].
  2:{ split; [by apply quiet_share_step|done]. }
  destruct Hc as (auth & t & w1 & token & h & e & now & id & now' & row & Hctx & _ & _ & _ & _ & -> & El & ->).
  assert (sl_UserID (stamp TShare id now' (new_share (ra_UserID auth) t token h e now)) = ra_UserID auth) as Eu by done.
  split.
  - split; [done| |]; rewrite El.
    + intros a Ha _. apply elem_of_app. by left.
    + intros b [Hb|Hb%list_elem_of_singleton]%elem_of_app; [by left|]. right. left. exists auth. by subst b.
  - eexists. rewrite El. split; [apply elem_of_app; right; by apply list_elem_of_singleton|]. split; [|reflexivity].
    right. unfold manages, authorizeShareOwnership, RequestAuthFromContext, CanManageShare. by rewrite Hctx, Eu, N.eqb_refl.
Qed.

Inductive share_op : Type :=
| OpListShares
| OpGetShare (id : N)
| OpCreateShare (req : CreateShareRequest)
| OpUpdateShare (id : N) (req : UpdateShareRequest)
| OpDeleteShare (id : N)
| OpOpenShare (token password req disposition sortBy sortOrder : string) (page size : Z).

(** A request, with the views of shares it answers; opening is public. *)
Definition run_share_op (request : Ctx * share_op) : M GoErr World (list ShareView) :=
  let '(ctx, op) := request in
  match op with
  | OpListShares => ShareService_List ctx
  | OpGetShare id => v <-! ShareService_Get ctx id ;; ret [v]
  | OpCreateShare req => v <-! ShareService_Create s ctx req ;; ret [v]
  | OpUpdateShare id req => v <-! ShareService_Update s ctx id req ;; ret [v]
  | OpDeleteShare id => do! ShareService_Delete s ctx id ;; ret []
  | OpOpenShare token password req disposition sortBy sortOrder page size =>
      do! ShareService_Open s token password req disposition sortBy sortOrder page size ;; ret []
  end.

Lemma one_answer ctx w m : wp m (one_post ctx w) w -> wp (v <-! m ;; ret [v]) (share_post ctx w) w.
Proof.
  intros Hm. apply wp_bind. eapply wp_mono; [exact Hm|]. intros [v|e] w' [H1 H2]; [|by split]. apply wp_ret. split; [done|].
  by intros v' ->%list_elem_of_singleton.
Qed.
Lemma no_answer {A} ctx w (m : M GoErr World A) : wp m (fun _ w' => share_step ctx w w') w ->
  wp (do! m ;; ret []) (share_post ctx w) w.
Proof.
  intros Hm. apply wp_bind. eapply wp_mono; [exact Hm|]. intros [v|e] w' Hs; (split; [done|]); [|done].
  intros v' Hv. by apply elem_of_nil in Hv.
Qed.
Lemma wp_List ctx w : wp (ShareService_List ctx) (share_post ctx w) w.
Proof.
  unfold ShareService_List, RequestAuthFromContext.
  destruct (ctx_auth ctx) as [auth|] eqn:Ec; [|by apply wp_throw; split; [apply quiet_share_step, frames_refl|]].
  assert (forall p, (forall a, p a = true -> reads ctx a = true) ->
    wp (items <-! stmt (db_select TShare p share_order None) ;; ret (map toShareView items)) (share_post ctx w) w) as Hl.
  { intros p Hp. apply wp_bind, (wp_select TShare).
    - intros e w' Hs _. split; [by apply quiet_share_step, same_frames|done].
    - intros all w' Hs Hall _. apply wp_ret. split; [by apply quiet_share_step, same_frames|].
      intros v (a & -> & Ha)%list_elem_of_fmap. change (a ∈ all) in Ha. rewrite Hall in Ha. apply elem_of_sel in Ha as [Ha Hpa].
      exists a. rewrite (proj1 Hs). auto. }
  assert (forall a, CanReadShare (ra_UserID auth) (sl_UserID a) (ra_Capabilities auth) = true -> reads ctx a = true) as Hr.
  { intros a E. unfold reads, authorizeShareOwnership, RequestAuthFromContext. by rewrite Ec, E. }
  destruct (HasCapability _ _) eqn:Ecap; apply Hl; intros a Ha; apply Hr; unfold CanReadShare.
  - by rewrite Ecap, orb_true_r.
  - apply N.eqb_eq in Ha as ->. by rewrite N.eqb_refl.
Qed.
Lemma wp_Get ctx id w : wp (ShareService_Get ctx id) (one_post ctx w) w.
Proof.
  apply wp_bind, wp_share; [intros e w' Hs; by split; [apply quiet_share_step, same_frames|]|].
  intros a w' Hs Ha _. assert (share_step ctx w w') by (by apply quiet_share_step, same_frames).
  apply wp_bind, wp_lift_result. destruct (authorizeShareOwnership ctx a false) as [[]|e] eqn:E; [|by split].
  apply wp_ret. split; [done|]. exists a. rewrite (proj1 Hs). split_and!; [done| |done]. left. unfold reads. by rewrite E.
Qed.

Lemma run_share_op_ok request w : valid w -> wp (run_share_op request) (share_post (fst request) w) w.
Proof.
  intros Hv. destruct request as [ctx []]; cbn [run_share_op fst].
  - apply wp_List.
  - apply one_answer, wp_Get.
  - apply one_answer, Create_step.
  - by apply one_answer, wp_Update.
  - by apply no_answer, wp_Delete.
  - apply no_answer. eapply wp_mono; [apply open_spec|]. intros r w' [Hf _]. by apply quiet_share_step, tree_beside_frames.
Qed.

(** C30: whatever requests are made on shares, successful or not, a share
    changes only by requests of its owner or of a user who may manage all
    shares; a share there is was there before, with the same owner, target
    and token, or belongs to a user who made one of the requests; and a
    request is answered with the shares it may read or manage only. *)
Theorem shares_isolated requests w (Hvalid : valid w) :
  let w' := fold_left (fun w request => snd (run_share_op request w)) requests w in
  (forall a, a ∈ tbl TShare w -> Forall (fun request => manages (fst request) a = false) requests -> a ∈ tbl TShare w') /\
  (forall b, b ∈ tbl TShare w' -> (exists a, a ∈ tbl TShare w /\ retouched a b) \/
                                  (exists request, request ∈ requests /\ belongs (fst request) b)) /\
  (forall request views v, fst (run_share_op request w') = Ok views -> v ∈ views ->
     reachable (fst request) (snd (run_share_op request w')) v).
Proof.
  cbn zeta. revert w Hvalid. induction requests as [|request requests IH]; intros w Hv; cbn [fold_left].
  - split_and!; [done|intros b Hb; left; exists b; split; [done|by destruct b]|].
    intros request views v E Hin. destruct (run_share_op_ok request w Hv) as [_ Hr]. rewrite E in Hr. by apply Hr.
  - destruct (run_share_op_ok request w Hv) as [Hs _]. set (w1 := snd (run_share_op request w)) in *. clearbody w1.
    destruct Hs as [Hf Hk Ho]. destruct (IH w1) as (I1 & I2 & I3); [by apply Hf|]. split_and!; [| |exact I3].
    + intros a Ha [Hm Hms]%Forall_cons. apply I1; auto.
    + intros b Hb. destruct (I2 b Hb) as [(c & Hc & Hr)|(q & Hq & Hbq)]; [|right; exists q; split; [by right|done]].
      destruct (Ho c Hc) as [Hc'|[Hb'|(a & Ha & _ & Hra)]].
      * left. by exists c.
      * right. exists request. split; [by left|]. destruct Hb' as (auth & E1 & E2). exists auth. split; [done|]. by rewrite Hr.
      * left. exists a. split; [done|]. by rewrite Hr, Hra.
Qed.
End Resolution.

Lemma list_children_within `{DatabaseLaws} {TF : TimeFormat} {MT : MimeTypes} svc p : within [] (MetadataVFSService_ListChildren svc p).
Proof.
  apply within_bind; [|intros n].
  - unfold MetadataVFSService_ResolveNode, normalized, VFSNodeRepository_FindByPath. frame_tac.
  - unfold normalized, VFSNodeRepository_ListChildren. frame_tac.
Qed.

(** ** A concrete system *)
#[local] Existing Instances Mem.database Mem.laws UsersExample.hasher UsersExample.hasher_laws UsersExample.format
  AuthExample.uuid AuthExample.uuid_laws StorageExample.decoder.
Module ShareExample.
#[export] Instance mime_types : MimeTypes := fun _ => "text/plain".
#[export] Instance nano : TimeFormatNano := fun z => pretty z.
#[export] Instance signer : JwtLibrary FileAccessClaims := {|
  SignedString := fun secret c r => Ok (secret +:+ pretty (fac_SourceID c) +:+ fac_Path c +:+ "@" +:+ pretty (rcl_ExpiresAt r));
  ParseWithClaims := fun _ _ _ => Err (JwtInvalid "") |}.
Definition svc : MetadataVFSService :=
  {| mv_nodeRepo := true; mv_objectRepo := true; mv_sourceRepo := true; mv_tagRepo := true; mv_transactor := true |}.
#[export] Instance reader : MetadataReader := MetadataVFSService_reader svc.
#[export] Instance reader_laws : MetadataReaderLaws := MetaTreeProps.MetadataVFSService_reader_laws svc.
#[export] Instance path_laws : MetadataPathLaws := MetadataVFSService_path_laws svc.
#[export] Instance lister : MetadataLister := MetadataVFSService_lister svc.
#[export] Instance refresher : MetadataRefresher := fun _ => ret tt.
#[export] Instance tree_laws : MetadataTreeLaws.
Proof. split; [apply list_children_within|intros; apply frames_refl]. Qed.
(** A disk with a directory and a file. *)
#[export] Instance disk : LocalFileSystem := {|
  os_Stat := fun p => if has_suffix p "/docs" then ret {| fsi_Name := "docs"; fsi_IsDir := true; fsi_Size := 0; fsi_ModTime := 1 |}
             else if has_suffix p "/a.txt" then ret {| fsi_Name := "a.txt"; fsi_IsDir := false; fsi_Size := 3; fsi_ModTime := 1 |}
             else throw FileNotExist;
  os_ReadDir := fun _ => ret ["a.txt"; ".trash"];
  os_Info := fun _ n => ret {| fsi_Name := n; fsi_IsDir := false; fsi_Size := 3; fsi_ModTime := 1 |} |}.
#[export] Instance disk_laws : LocalFileSystemLaws.
Proof. split; intros; cbn; [repeat case_match|..]; apply frames_refl. Qed.
#[export] Instance no_drivers : FileDrivers := {|
  drivers := fun _ => false; drv_List := fun _ _ _ => throw FileNotExist; drv_Stat := fun _ _ _ => throw FileNotExist |}.
#[export] Instance no_drivers_laws : FileDriversLaws.
Proof. split; intros; apply frames_refl. Qed.

Definition service : ShareService :=
  {| sh_aclAuthorizer := None; sh_metadataReader := true; sh_metadataRefresh := true; sh_auditRecorder := true;
     sh_tokenSecret := "s" |}.
Definition node (id parent : N) (name path kind : string) : VFSNode :=
  { (node_with_id id) with vn_ParentID := nullableUint parent; vn_Name := name; vn_Path := path; vn_Kind := kind;
    vn_SourceID := Some 1%N; vn_SyncState := VFSNodeSyncStateIndexed }.
Definition share (id user : N) (token : string) : ShareLink :=
  {| sl_ID := id; sl_UserID := user; sl_SourceID := 1; sl_Path := "/docs"; sl_TargetVFSNodeID := 0;
     sl_TargetVirtualPath := "/m/docs"; sl_ResolvedSourceID := 1; sl_ResolvedInnerPath := "/docs"; sl_Name := "docs";
     sl_IsDir := true; sl_Token := token; sl_PasswordHash := Some "h:pw"; sl_ExpiresAt := Some 2000%Z; sl_CreatedAt := 1;
     sl_UpdatedAt := 1 |}.
Definition world_with (source : StorageSource) : World :=
  mem_world (Mem.set_rows TShare [share 1 3 "t"; share 2 4 "u"]
    (Mem.set_rows TNode [node 1 0 "" "/" VFSNodeKindRoot; node 2 1 "m" "/m" VFSNodeKindMount;
                         node 3 2 "docs" "/m/docs" VFSNodeKindDir; node 4 3 "a.txt" "/m/docs/a.txt" VFSNodeKindFile]
      (Mem.set_rows TSource [source] { Mem.init with Mem.m_serial := 9%N }))).
Definition world : World := world_with StorageExample.source.
Lemma share_world_valid : valid world.
Proof. intros []; reflexivity. Qed.
Definition bob : Ctx := UsersExample.as_role 3 RoleUser.
Definition request : CreateShareRequest :=
  {| cs_VFSNodeID := 0; cs_TargetVFSNodeID := 4; cs_SourceID := 0; cs_Path := ""; cs_ExpiresIn := 60; cs_Password := "pw" |}.
Definition stored : list ShareLink := [share 1 3 "t"; share 2 4 "u"].
Lemma world_shares : tbl TShare world = stored.
Proof. vm_compute. reflexivity. Qed.
Notation open password req := (ShareService_Open service "t" password req "" "" "" 1%Z 0%Z) (only parsing).
End ShareExample.
Import ShareExample.


Lemma share_paths_roundtrip_witness :
  resolveShareTargetPath "/m/docs" (publicShareRelativePath "/m/docs" "/m/docs/x/y") = Ok ("/m/docs/x/y", "/x/y") /\
  shareInnerPathForSource StorageExample.source (mergeMountAndInnerPath "/m" "/docs") = Ok "/docs".
Proof.
  assert (forall l, good_segs l = true -> canonical (render l)) as Hc by (intros l Hl; by exists l).
  split.
  - apply (share_paths_roundtrip "/m/docs" "/m/docs/x/y"); [apply (Hc ["m"; "docs"])|apply (Hc ["m"; "docs"; "x"; "y"])|]; reflexivity.
  - apply (share_paths_roundtrip "/m" "/m"); [apply (Hc ["m"])|apply (Hc ["m"])|..|apply (Hc ["docs"])]; reflexivity.
Defined.


Lemma share_open_refused_witness :
  exists e, fst (open "wrong" "/" world) = Err e /\ (e = ErrSharePasswordInvalid \/ db_error e).
Proof.
  pose proof (share_open_refused service "t" "wrong" "/" "" "" "" 1 0 world share_world_valid) as H.
  destruct (ShareService_Open _ _ _ _ _ _ _ _ _ _) as [res w']. destruct H as [H _].
  destruct (H (share 1 3 "t") ErrSharePasswordInvalid) as (_ & e & He & Hc); [rewrite world_shares; by left|reflexivity|vm_compute; reflexivity|].
  exists e. split; [exact He|exact Hc].
Defined.

Lemma share_create_effect_witness :
  let run := ShareService_Create service bob request world in
  is_ok (fst run) = true /\ exists row, tbl TShare (snd run) = tbl TShare world ++ [row] /\ sl_UserID row = 3%N.
Proof.
  intros run. assert (is_ok (fst run) = true) as Hok by (vm_compute; reflexivity). split; [exact Hok|].
  pose proof (share_create_effect service bob request world) as H. fold run in H. destruct run as [[view|e] w']; [|discriminate Hok].
  destruct H as [(auth & t & w1 & token & h & e & now & id & now' & row & Hc & _ & _ & _ & _ & Hrow & El & _) _].
  exists row. split; [exact El|]. injection Hc as <-. by rewrite Hrow.
Defined.

Lemma shares_isolated_witness :
  let requests := [(bob, OpUpdateShare 2 {| us_ExpiresIn := Some 9%Z; us_Password := None |}); (bob, OpDeleteShare 1);
                   (bob, OpCreateShare request); (bob, OpDeleteShare 2)] in
  let w' := fold_left (fun w request => snd (run_share_op service request w)) requests world in
  map sl_ID (tbl TShare w') = [2; 12]%N /\ share 2 4 "u" ∈ tbl TShare w'.
Proof.
  intros requests w'. split; [vm_compute; reflexivity|].
  destruct (shares_isolated service requests world share_world_valid) as [H _]. apply H; [rewrite world_shares; by right; left|].
  repeat constructor.
Defined.

(** A product of seconds that overflows gives a share that has expired. *)
Theorem share_expiry_wraps now : (expiry now 9223372037 < now)%Z.
Proof. unfold expiry. change (int_mul 9223372037 second) with (-9223372036709551616)%Z. lia. Qed.

(** The disk is mounted at ["/m"] when ["/docs"] is shared as ["/m/docs"],
    and at the root later, so that the tree no longer has ["/m/docs"].  The
    target is then the directory ["/docs"] of the disk still, but what the
    link lists and serves is another directory of the disk, ["/m/docs"]. *)
Definition remounted : World :=
  mem_world (Mem.set_rows TNode [] (w_db (world_with { StorageExample.source with src_MountPath := "/" }))).
Theorem remounted_share_escapes :
  fst (open "pw" "/a.txt" remounted) =
    Ok {| or_RedirectURL := "/api/v2/fs/download?access_token=s1%2Fm%2Fdocs%2Fa.txt%400&disposition=attachment&path=%2Fm%2Fdocs%2Fa.txt";
          or_Data := None |} /\
  match fst (open "pw" "/" remounted) with
  | Ok r => match or_Data r with
            | Some d => sv_Path (so_Share d) = "/docs" /\ map pe_Path (so_Items d) = ["/m/docs/a.txt"]
            | None => False
            end
  | Err _ => False
  end.
Proof. split; vm_compute; [|split]; reflexivity. Qed.
