(* ===== verification/MetaSync.v ===== *)
(** * Synchronising the metadata tree ([metadata_vfs_sync_service.go])

    A refresh lists a directory at its source and brings its children in the
    tree into line: what is listed is indexed with its object, what is no
    longer there is marked as missing, names that are listed twice and
    entries that changed their identity become conflicts, and mounts and
    virtual directories stay.  Directories of local sources are listed from
    the disk, others by their driver.

    A run keeps its statistics beside the world: they are not undone with
    the transaction.

    [MetaSyncProps] says what a refresh does to the tree. *)
From S2P Require Import Prelude Ints GoStrings Errors Entities Paths Mounts Tables Db Auditing Repos MetaRepos Journal Acl AclService Users MetaTree Storage Files Uploads Commits MountSync Shares.
From stdpp Require Import base list strings gmap.
From Stdlib Require Import ZArith Lia Ascii.

Local Open Scope string_scope.
Local Open Scope list_scope.
Local Open Scope go_scope.

(** ** [domain/storage/driver.go] *)
Record RemoteListRequest := {
  rl_ParentPath : string; rl_ParentLocatorJSON : string; rl_ParentProviderItemID : string; rl_MountRootLocatorJSON : string
}.
Record RemoteEntry := {
  re_Name : string; re_Path : string; re_IsDir : bool; re_Size : Z; re_ETag : string; re_Checksum : string;
  re_MimeType : string; re_ModifiedAt : Z; re_ProviderItemID : string; re_ProviderParentID : string;
  re_LocatorType : string; re_LocatorJSON : string
}.

(** ** The service's data *)
Record MetadataVFSRefreshResult := {
  rr_Path : string; rr_NodeID : N; rr_Seen : Z; rr_Indexed : Z; rr_Updated : Z; rr_Missing : Z; rr_Conflicts : Z;
  rr_Errors : Z; rr_SyncState : string; rr_Error : string
}.
#[export] Instance eta_MetadataVFSRefreshResult : Eta MetadataVFSRefreshResult := fun r =>
  {| rr_Path := rr_Path r; rr_NodeID := rr_NodeID r; rr_Seen := rr_Seen r; rr_Indexed := rr_Indexed r;
     rr_Updated := rr_Updated r; rr_Missing := rr_Missing r; rr_Conflicts := rr_Conflicts r; rr_Errors := rr_Errors r;
     rr_SyncState := rr_SyncState r; rr_Error := rr_Error r |}.
Record MetadataVFSSyncService := {
  sy_nodeRepo : bool; sy_objectRepo : bool; sy_sourceRepo : bool; sy_mountRepo : bool; sy_transactor : bool
}.

(** ** Entries *)
Definition remoteEntryName (entry : RemoteEntry) : string :=
  if negb (String.eqb (re_Name entry) "") then re_Name entry
  else if String.eqb (re_Path entry) "" || String.eqb (re_Path entry) "/" then ""
  else path_base (re_Path entry).
Definition normalizeRemoteEntryPath (parentPath : string) (entry : RemoteEntry) (name : string) : string :=
  let below_parent :=
    match normalizeVirtualPath parentPath with
    | Ok normalized => joinVirtualPath normalized name
    | Err _ => "/" +:+ trim_prefix name "/"
    end in
  if negb (String.eqb (re_Path entry) "") then
    match normalizeVirtualPath (re_Path entry) with Ok normalized => normalized | Err _ => below_parent end
  else below_parent.
Definition metadataVFSRemoteEntryKind (entry : RemoteEntry) : string :=
  if re_IsDir entry then VFSNodeKindDir else VFSNodeKindFile.
Definition remoteEntrySize (entry : RemoteEntry) : Z :=
  if re_IsDir entry then 0%Z else if Z.ltb (re_Size entry) 0 then 0%Z else re_Size entry.
Definition remoteEntryMimeType `{MimeTypes} (entry : RemoteEntry) : string :=
  if re_IsDir entry then "inode/directory"
  else if negb (String.eqb (re_MimeType entry) "") then re_MimeType entry
  else
    let extension := to_lower (path_ext (remoteEntryName entry)) in
    if String.eqb extension "" then "application/octet-stream"
    else
      let mimeType := mime_type_by_extension extension in
      if String.eqb mimeType "" then "application/octet-stream" else mimeType.

Definition stringPtrOrNil (value : string) : option string := if String.eqb value "" then None else Some value.
(** The members of a map that are set. *)
Definition string_members (members : list (string * option string)) : Json :=
  JObj (omap (fun m => match snd m with Some value => Some (fst m, JStr value) | None => None end) members).
Definition metadataVFSRemoteEntryLocator (source : StorageSource) (entry : RemoteEntry) (entryPath : string) : string * string :=
  let locatorType := trim_space (re_LocatorType entry) in
  let locatorJSON := trim_space (re_LocatorJSON entry) in
  if negb (String.eqb locatorType "") && negb (String.eqb locatorJSON "") then (locatorType, locatorJSON)
  else
    let locatorType :=
      if negb (String.eqb locatorType "") then locatorType
      else if negb (String.eqb (re_ProviderItemID entry) "") then "provider_file_id"
      else if String.eqb (src_DriverType source) "local" then "local_path"
      else "provider_path" in
    (locatorType, json_marshal (string_members
      [("file_id", stringPtrOrNil (re_ProviderItemID entry)); ("parent_id", stringPtrOrNil (re_ProviderParentID entry));
       ("path", stringPtrOrNil entryPath)])).
Definition providerParentIDForEntry (parent : VFSNode) (entry : RemoteEntry) : option string :=
  if negb (String.eqb (re_ProviderParentID entry) "") then stringPtrOrNil (re_ProviderParentID entry)
  else vn_ProviderItemID parent.
Definition metadataVFSRemoteIdentityConflicts (existing : option VFSNode) (entry : RemoteEntry) : bool :=
  match option_bind _ _ vn_ProviderItemID existing with
  | None => false
  | Some id => negb (String.eqb (re_ProviderItemID entry) "") && negb (String.eqb id (re_ProviderItemID entry))
  end.
Definition control_kind (node : VFSNode) : bool :=
  String.eqb (vn_Kind node) VFSNodeKindMount || String.eqb (vn_Kind node) VFSNodeKindVirtualDir.
Definition metadataVFSChildIsControlNode (node : option VFSNode) : bool :=
  match node with Some node => control_kind node | None => false end.
Definition sameStringPtr (left right : option string) : bool := bool_decide (left = right).
Definition metadataVFSNodeChangedByRemote (existing next : VFSNode) : bool :=
  negb (String.eqb (vn_Kind existing) (vn_Kind next)) || negb (sameUintPtr (vn_ObjectID existing) (vn_ObjectID next)) ||
  negb (sameUintPtr (vn_SourceID existing) (vn_SourceID next)) ||
  negb (sameStringPtr (vn_ProviderItemID existing) (vn_ProviderItemID next)) ||
  negb (sameStringPtr (vn_ProviderParentID existing) (vn_ProviderParentID next)) ||
  negb (Z.eqb (vn_Size existing) (vn_Size next)) || negb (String.eqb (vn_MimeType existing) (vn_MimeType next)) ||
  negb (String.eqb (vn_ETag existing) (vn_ETag next)) || negb (String.eqb (vn_Checksum existing) (vn_Checksum next)) ||
  negb (String.eqb (vn_SyncState existing) (vn_SyncState next)) || negb (Bool.eqb (vn_IsDeleted existing) (vn_IsDeleted next)).

(** Errors of the services are passed on, of the file system translated. *)
Definition provider_errors : list GoErr :=
  [ErrSourceDriverUnsupported; ErrSourceOperationUnsupported; ErrCloudAuthFailed; ErrCloudTokenInvalid;
   ErrCloudCaptchaRequired; ErrCloudCaptchaExpired; ErrCloudRateLimited; ErrCloudRegionBlocked; ErrCloudProviderUnavailable].
Definition normalizeMetadataVFSSyncProviderError (err : FileErr) : GoErr :=
  let unavailable := ErrWrap (err_text (file_error err)) ErrCloudProviderUnavailable in
  match err with
  | FileErrOther e => if existsb (err_is e) provider_errors then e else unavailable
  | FileNotExist => ErrFileNotFound
  | FileInvalid => ErrPathInvalid
  | FileExist => unavailable
  end.

(** ** Listing *)
Section Indexers.
Context `{Database}.
Class RemoteIndexers := {
  indexers : string -> bool;
  ListRemoteChildren : string -> StorageSource -> RemoteListRequest -> M FileErr World (list RemoteEntry)
}.
Context {LF : LocalFileSystem} {FD : FileDrivers} `{JD : JsonDecoder} {TN : TimeFormatNano} {MT : MimeTypes}.

Definition local_entry (name entryPath : string) (info : FileInfo) : RemoteEntry :=
  let bare :=
    {| re_Name := name; re_Path := entryPath; re_IsDir := fsi_IsDir info; re_Size := 0; re_ETag := "";
       re_Checksum := ""; re_MimeType := ""; re_ModifiedAt := fsi_ModTime info; re_ProviderItemID := "";
       re_ProviderParentID := ""; re_LocatorType := ""; re_LocatorJSON := "" |} in
  if fsi_IsDir info then bare
  else
    {| re_Name := name; re_Path := entryPath; re_IsDir := false; re_Size := fsi_Size info;
       re_ETag := buildEtag info; re_Checksum := ""; re_MimeType := remoteEntryMimeType bare;
       re_ModifiedAt := fsi_ModTime info; re_ProviderItemID := ""; re_ProviderParentID := ""; re_LocatorType := "";
       re_LocatorJSON := "" |}.
Fixpoint local_entries (physicalPath parentPath : string) (names : list string) : M FileErr World (list RemoteEntry) :=
  match names with
  | [] => ret []
  | name :: rest =>
      let entryPath := joinVirtualPath parentPath name in
      if isHiddenVirtualPath entryPath then local_entries physicalPath parentPath rest
      else
        info <-! os_Info physicalPath name ;;
        items <-! local_entries physicalPath parentPath rest ;;
        ret (local_entry name entryPath info :: items)
  end.
Definition localFilesystemRemoteIndexer (source : StorageSource) (req : RemoteListRequest) : M FileErr World (list RemoteEntry) :=
  physical <-! map_err FileErrOther (lift_result (resolvePhysicalPath source (rl_ParentPath req))) ;;
  names <-! os_ReadDir (snd physical) ;;
  local_entries (snd physical) (rl_ParentPath req) names.

Definition remote_entry (entry : StorageEntry) : RemoteEntry :=
  {| re_Name := se_Name entry; re_Path := se_Path entry; re_IsDir := se_IsDir entry; re_Size := se_Size entry;
     re_ETag := se_ETag entry; re_Checksum := se_Checksum entry; re_MimeType := se_MimeType entry;
     re_ModifiedAt := se_ModifiedAt entry; re_ProviderItemID := se_ProviderItemID entry;
     re_ProviderParentID := se_ProviderParentID entry; re_LocatorType := se_LocatorType entry;
     re_LocatorJSON := se_LocatorJSON entry |}.
Definition fileDriverRemoteIndexer (driverType : string) (source : StorageSource) (req : RemoteListRequest)
    : M FileErr World (list RemoteEntry) :=
  entries <-! drv_List driverType source (rl_ParentPath req) ;;
  ret (map remote_entry entries).

(** What [NewMetadataVFSSyncService] registers: the disk for local sources,
    and the drivers. *)
Definition registered_indexers : RemoteIndexers := {|
  indexers := fun driverType => String.eqb driverType "local" || drivers driverType;
  ListRemoteChildren := fun driverType =>
    if drivers driverType then fileDriverRemoteIndexer driverType else localFilesystemRemoteIndexer
|}.
End Indexers.

(** Go leaves the order of [range] over a map open. *)
Class MapOrder := range_order : list string -> list string.

(** ** A refresh: the world, and its statistics *)
Record SyncRun `{Database} := { sr_world : World; sr_result : MetadataVFSRefreshResult }.
#[export] Instance eta_SyncRun `{Database} : Eta SyncRun := fun r => {| sr_world := sr_world r; sr_result := sr_result r |}.

Section Runs.
Context `{Database}.
Definition on_sync {E A} (m : M E World A) : M E SyncRun A := zoom sr_world (fun w r => { r with sr_world := w }) m.
Definition note (f : MetadataVFSRefreshResult -> MetadataVFSRefreshResult) : M GoErr SyncRun unit :=
  modify (fun r => { r with sr_result ::= f }).
Definition with_error (err : GoErr) (result : MetadataVFSRefreshResult) : MetadataVFSRefreshResult :=
  { result with rr_Errors ::= Z.add 1; rr_Error := err_text err }.
(** An error that is counted. *)
Definition sync_failed {A} (err : GoErr) : M GoErr SyncRun A := do! note (with_error err) ;; throw err.
Definition counted {A} (m : M GoErr World A) : M GoErr SyncRun A := a <-! on_sync m or err => sync_failed err ;; ret a.
Definition one_conflict (result : MetadataVFSRefreshResult) : MetadataVFSRefreshResult := { result with rr_Conflicts ::= Z.add 1 }.
Definition one_seen (result : MetadataVFSRefreshResult) : MetadataVFSRefreshResult := { result with rr_Seen ::= Z.add 1 }.
Definition one_missing (result : MetadataVFSRefreshResult) : MetadataVFSRefreshResult := { result with rr_Missing ::= Z.add 1 }.
End Runs.

Section Service.
Context `{Database} {RI : RemoteIndexers} {MO : MapOrder} {MT : MimeTypes}.
Context (s : MetadataVFSSyncService).

Definition withinSyncTx {A} (fn : M GoErr World A) : M GoErr World A := if sy_transactor s then WithinTx fn else fn.
(** The same around a part of a refresh. *)
Definition within_run_tx {A} (fn : M GoErr SyncRun A) : M GoErr SyncRun A := fun run =>
  let '(res, run1) := fn run in
  let '(res, w) := withinSyncTx (fun _ => (res, sr_world run1)) (sr_world run) in
  (res, { run1 with sr_world := w }).

(** *** What to list *)
Definition findMountForSyncTarget (target : VFSNode) : M GoErr World VFSMount :=
  if negb (sy_mountRepo s) then throw ErrNotFound
  else
    match vn_MountID target with
    | Some id => VFSMountRepository_FindByID id
    | None =>
        if String.eqb (vn_Kind target) VFSNodeKindMount then VFSMountRepository_FindByNodeID (vn_ID target)
        else throw ErrNotFound
    end.
(** The path of the target below the mount. *)
Definition sync_parent_path (target : VFSNode) (mountPath : string) : result GoErr string :=
  if negb (String.eqb mountPath "") then
    match normalizeVirtualPath mountPath with
    | Err e => Err e
    | Ok normalizedMountPath =>
        if negb (isSubPath normalizedMountPath (vn_Path target)) then Err ErrPathInvalid
        else
          let parentPath := trim_prefix (vn_Path target) normalizedMountPath in
          let parentPath := if String.eqb parentPath "" then "/" else parentPath in
          Ok (if negb (has_prefix parentPath "/") then "/" +:+ parentPath else parentPath)
    end
  else if negb (String.eqb (vn_Kind target) VFSNodeKindMount) then normalizeVirtualPath (vn_Path target)
  else Ok "/".
Definition buildRemoteListRequest (target : VFSNode) (source : StorageSource) : M GoErr World RemoteListRequest :=
  mount <-! (if sy_mountRepo s then
               mount <-! findMountForSyncTarget target
                 or err => (if err_is err ErrNotFound then ret None else throw (normalizeMetadataVFSError err)) ;;
               ret (Some mount)
             else ret None) ;;
  let '(mountPath, rootLocatorJSON) :=
    match mount with
    | Some mount => (vm_MountPath mount, vm_RootLocatorJSON mount)
    | None => (if String.eqb (vn_Kind target) VFSNodeKindMount then vn_Path target else "", "")
    end in
  let mountPath := if String.eqb mountPath "" then src_MountPath source else mountPath in
  parentPath <-! lift_result (sync_parent_path target mountPath) ;;
  ret {| rl_ParentPath := parentPath;
         rl_ParentLocatorJSON :=
           match vn_ProviderItemID target, vn_ProviderParentID target with
           | None, None => ""
           | itemID, parentID => json_marshal (string_members [("provider_item_id", itemID); ("provider_parent_id", parentID)])
           end;
         rl_ParentProviderItemID := default "" (vn_ProviderItemID target); rl_MountRootLocatorJSON := rootLocatorJSON |}.

(** *** Writing what was listed *)
Definition remote_object (source : StorageSource) (entry : RemoteEntry) (entryPath mimeType : string) (now : Z) : StorageObject :=
  let '(locatorType, locatorJSON) := metadataVFSRemoteEntryLocator source entry entryPath in
  {| so_ID := 0; so_SourceID := src_ID source; so_DriverType := src_DriverType source; so_LocatorType := locatorType;
     so_LocatorJSON := locatorJSON; so_Size := remoteEntrySize entry; so_ETag := re_ETag entry;
     so_Checksum := re_Checksum entry; so_MimeType := mimeType; so_Status := StorageObjectStatusAvailable;
     so_CreatedAt := now; so_UpdatedAt := now |}.
Definition upsertRemoteObject (source : StorageSource) (entry : RemoteEntry) (entryPath mimeType : string) (now : Z)
    : M GoErr World StorageObject :=
  normalized (StorageObjectRepository_UpsertByLocator (remote_object source entry entryPath mimeType now)).

(** The node of an entry. *)
Definition remote_node (target : VFSNode) (entry : RemoteEntry) (objectID : option N) (syncState : string)
    (existing : option VFSNode) (now : Z) : VFSNode :=
  let name := remoteEntryName entry in
  {| vn_ID := match existing with Some e => vn_ID e | None => 0%N end; vn_ParentID := Some (vn_ID target); vn_Name := name;
     vn_Path := joinVirtualPath (vn_Path target) name; vn_Kind := metadataVFSRemoteEntryKind entry;
     vn_MountID := vn_MountID target; vn_ObjectID := objectID; vn_SourceID := vn_SourceID target;
     vn_ProviderItemID := stringPtrOrNil (re_ProviderItemID entry);
     vn_ProviderParentID := providerParentIDForEntry target entry; vn_Size := remoteEntrySize entry;
     vn_MimeType := remoteEntryMimeType entry; vn_ETag := re_ETag entry; vn_Checksum := re_Checksum entry;
     vn_SyncState := syncState; vn_IsDeleted := false;
     vn_CreatedBy := match existing with Some e => vn_CreatedBy e | None => None end; vn_UpdatedBy := None;
     vn_CreatedAt := match existing with Some e => vn_CreatedAt e | None => now end; vn_UpdatedAt := now;
     vn_IndexedAt := Some now; vn_LastSeenAt := Some now |}.
Definition upsertRemoteChild (target : VFSNode) (source : StorageSource) (req : RemoteListRequest) (entry : RemoteEntry)
    (existing : option VFSNode) (now : Z) : M GoErr World (VFSNode * bool * bool) :=
  let entryPath := normalizeRemoteEntryPath (rl_ParentPath req) entry (remoteEntryName entry) in
  objectID <-! (if re_IsDir entry then ret None
                else
                  object <-! upsertRemoteObject source entry entryPath (remoteEntryMimeType entry) now ;;
                  ret (Some (so_ID object))) ;;
  let node := remote_node target entry objectID VFSNodeSyncStateIndexed existing now in
  let created := match existing with None => true | Some _ => false end in
  let changed := match existing with None => true | Some existing => metadataVFSNodeChangedByRemote existing node end in
  node <-! normalized (VFSNodeRepository_UpsertByPath node) ;;
  ret (node, created, changed).
Definition upsertConflictChild (target : VFSNode) (entry : RemoteEntry) (now : Z) : M GoErr World unit :=
  let name := remoteEntryName entry in
  match validateFileName name with
  | Err _ => ret tt
  | Ok _ =>
      existing <-! (existing <-! VFSNodeRepository_FindByPath (joinVirtualPath (vn_Path target) name)
                      or err => (if negb (err_is err ErrNotFound) then throw (normalizeMetadataVFSError err) else ret None) ;;
                    ret (Some existing)) ;;
      do! normalized (VFSNodeRepository_UpsertByPath (remote_node target entry None VFSNodeSyncStateConflict existing now)) ;;
      ret tt
  end.
Definition markObjectMissing (objectID : N) (now : Z) : M GoErr World unit :=
  object <-! StorageObjectRepository_FindByID objectID
    or err => (if err_is err ErrNotFound then ret tt else throw (normalizeMetadataVFSError err)) ;;
  normalized (StorageObjectRepository_Update { object with so_Status := StorageObjectStatusMissing; so_UpdatedAt := now }).
Definition marked (state : string) (now : Z) (node : VFSNode) : VFSNode :=
  { node with vn_SyncState := state; vn_UpdatedAt := now }.
Definition markChildConflict (child : VFSNode) (now : Z) : M GoErr World unit :=
  normalized (VFSNodeRepository_Update (marked VFSNodeSyncStateConflict now child)).
Definition synced (state : string) (now : Z) (target : VFSNode) : VFSNode :=
  { (marked state now target) with vn_IndexedAt := Some now; vn_LastSeenAt := Some now }.
Definition markTargetSyncState (target : VFSNode) (state : string) : M GoErr World unit :=
  withinSyncTx (
    now <-! time_now ;;
    normalized (VFSNodeRepository_Update
      (if String.eqb state VFSNodeSyncStateIndexed || String.eqb state VFSNodeSyncStateConflict then synced state now target
       else marked state now target))).

(** *** The children in line with the entries *)
Definition valid_name (name : string) : bool := match validateFileName name with Ok _ => true | Err _ => false end.
Definition valid_names (entries : list RemoteEntry) : list string := sel valid_name (map remoteEntryName entries).
Definition name_count (name : string) (entries : list RemoteEntry) : nat :=
  length (sel (String.eqb name) (valid_names entries)).
Definition first_entry (name : string) (entries : list RemoteEntry) : option RemoteEntry :=
  List.find (fun entry => String.eqb (remoteEntryName entry) name) entries.
Definition children_by_name (children : list VFSNode) : gmap string VFSNode :=
  fold_left (fun known child => <[vn_Name child := child]> known) children ∅.

(** The names listed more than once. *)
Fixpoint upsert_conflicts (target : VFSNode) (entries : list RemoteEntry) (now : Z) (names : list string)
    (seenNames : gset string) : M GoErr SyncRun (gset string) :=
  match names with
  | [] => ret seenNames
  | name :: rest =>
      if Nat.leb (name_count name entries) 1 then upsert_conflicts target entries now rest seenNames
      else
        do! match first_entry name entries with
            | Some entry => counted (upsertConflictChild target entry now)
            | None => ret tt
            end ;;
        do! note one_conflict ;;
        upsert_conflicts target entries now rest ({[name]} ∪ seenNames)
  end.

Definition Known : Type := gset string * gmap string VFSNode.
Definition child_counts (created changed : bool) (result : MetadataVFSRefreshResult) : MetadataVFSRefreshResult :=
  if created then { result with rr_Indexed ::= Z.add 1 }
  else if changed then { result with rr_Updated ::= Z.add 1 } else result.
Definition apply_entry (target : VFSNode) (source : StorageSource) (req : RemoteListRequest) (entries : list RemoteEntry)
    (now : Z) (entry : RemoteEntry) (known : Known) : M GoErr SyncRun Known :=
  let '(seenNames, childrenByName) := known in
  let name := remoteEntryName entry in
  if bool_decide (name ∈ seenNames) || Nat.eqb (name_count name entries) 0 then ret known
  else
    let seenNames := {[name]} ∪ seenNames in
    do! note one_seen ;;
    let existing := childrenByName !! name in
    if metadataVFSChildIsControlNode existing then ret (seenNames, childrenByName)
    else
      let mark_conflict := match existing with Some child => counted (markChildConflict child now) | None => ret tt end in
      if metadataVFSRemoteIdentityConflicts existing entry then
        do! mark_conflict ;;
        do! note one_conflict ;;
        ret (seenNames, childrenByName)
      else
        stored <-! on_sync (upsertRemoteChild target source req entry existing now) or err =>
          (if err_is err ErrNameConflict then
             do! note one_conflict ;;
             do! mark_conflict ;;
             ret (seenNames, childrenByName)
           else sync_failed err) ;;
        let '(child, created, changed) := stored in
        do! note (child_counts created changed) ;;
        ret (seenNames, <[name := child]> childrenByName).
Fixpoint apply_entries (target : VFSNode) (source : StorageSource) (req : RemoteListRequest) (entries : list RemoteEntry)
    (now : Z) (rest : list RemoteEntry) (known : Known) : M GoErr SyncRun Known :=
  match rest with
  | [] => ret known
  | entry :: rest =>
      known <-! apply_entry target source req entries now entry known ;;
      apply_entries target source req entries now rest known
  end.

(** The children that were not listed. *)
Fixpoint mark_missing (now : Z) (seenNames : gset string) (children : list VFSNode) : M GoErr SyncRun unit :=
  match children with
  | [] => ret tt
  | child :: rest =>
      if bool_decide (vn_Name child ∈ seenNames) || control_kind child then mark_missing now seenNames rest
      else
        do! counted (normalized (VFSNodeRepository_Update (marked VFSNodeSyncStateMissing now child))) ;;
        do! match vn_ObjectID child with
            | Some objectID => counted (markObjectMissing objectID now)
            | None => ret tt
            end ;;
        do! note one_missing ;;
        mark_missing now seenNames rest
  end.

Definition apply_all (target : VFSNode) (source : StorageSource) (req : RemoteListRequest) (entries : list RemoteEntry)
    (now : Z) : M GoErr SyncRun unit :=
  children <-! counted (normalized (VFSNodeRepository_ListChildren (Some (vn_ID target)) no_node_filter)) ;;
  let invalid := length (sel (fun name => negb (valid_name name)) (map remoteEntryName entries)) in
  do! note (fun result => { result with rr_Conflicts ::= Z.add (Z.of_nat invalid) }) ;;
  seenNames <-! upsert_conflicts target entries now (range_order (remove_dups (valid_names entries))) ∅ ;;
  known <-! apply_entries target source req entries now entries (seenNames, children_by_name children) ;;
  do! mark_missing now (fst known) children ;;
  result <-! gets sr_result ;;
  let state := if Z.ltb 0 (rr_Conflicts result) then VFSNodeSyncStateConflict else VFSNodeSyncStateIndexed in
  do! counted (normalized (VFSNodeRepository_Update (synced state now target))) ;;
  note (fun result => { result with rr_SyncState := state }).
Definition applyRemoteEntries (target : VFSNode) (source : StorageSource) (req : RemoteListRequest)
    (entries : list RemoteEntry) : M GoErr SyncRun unit :=
  now <-! on_sync time_now ;;
  within_run_tx (apply_all target source req entries now).

(** *** Refreshing *)
(** The source could not be listed. *)
Definition unavailable (target : VFSNode) (stableErr : GoErr) : M GoErr SyncRun unit :=
  _u <-! on_sync (markTargetSyncState target VFSNodeSyncStateError) or markErr => sync_failed markErr ;;
  do! note (fun result => { (with_error stableErr result) with rr_SyncState := VFSNodeSyncStateError }) ;;
  throw stableErr.
Definition refresh_node (target : VFSNode) : M GoErr SyncRun unit :=
  if negb (sy_nodeRepo s && sy_objectRepo s && sy_sourceRepo s) then sync_failed ErrSourceDriverUnsupported
  else if vn_IsDeleted target then sync_failed ErrFileNotFound
  else if negb (metadataVFSNodeIsDirectory target) then sync_failed ErrPathInvalid
  else
    match vn_SourceID target with
    | None => sync_failed ErrNoBackingStorage
    | Some sourceID =>
        source <-! counted (normalized (SourceRepository_FindByID sourceID)) ;;
        if negb (indexers (src_DriverType source)) then unavailable target ErrSourceDriverUnsupported
        else
          req <-! counted (buildRemoteListRequest target source) ;;
          entries <-! on_sync (ListRemoteChildren (src_DriverType source) source req)
            or err => unavailable target (normalizeMetadataVFSSyncProviderError err) ;;
          do! applyRemoteEntries target source req entries ;;
          result <-! gets sr_result ;;
          if Z.ltb 0 (rr_Conflicts result) then
            do! note (fun result => { result with rr_Error := err_text ErrVFSSyncConflict }) ;;
            throw ErrVFSSyncConflict
          else ret tt
    end.

(** The statistics, and the error if there was one. *)
Definition started (target : VFSNode) : MetadataVFSRefreshResult :=
  {| rr_Path := vn_Path target; rr_NodeID := vn_ID target; rr_Seen := 0; rr_Indexed := 0; rr_Updated := 0; rr_Missing := 0;
     rr_Conflicts := 0; rr_Errors := 0; rr_SyncState := vn_SyncState target; rr_Error := "" |}.
Definition MetadataVFSSyncService_RefreshNode (target : VFSNode)
    : M GoErr World (MetadataVFSRefreshResult * result GoErr unit) := fun w =>
  let '(res, run) := refresh_node target {| sr_world := w; sr_result := started target |} in
  (Ok (sr_result run, res), sr_world run).
Definition MetadataVFSSyncService_RefreshPath (targetPath : string)
    : M GoErr World (MetadataVFSRefreshResult * result GoErr unit) :=
  if negb (sy_nodeRepo s) then throw ErrSourceDriverUnsupported
  else
    normalizedPath <-! lift_result (normalizeVirtualPath targetPath) ;;
    node <-! normalized (VFSNodeRepository_FindByPath normalizedPath) ;;
    MetadataVFSSyncService_RefreshNode node.
(** What the shares use of it. *)
#[export] Instance MetadataVFSSyncService_refresher : MetadataRefresher := fun targetPath =>
  refreshed <-! MetadataVFSSyncService_RefreshPath targetPath ;;
  lift_result (snd refreshed).
End Service.
