(* ===== verification/MetaSyncProps.v ===== *)
(** * Refreshes: what the tree holds afterwards

    A refresh keeps the tree of nodes and touches only the directory and its
    children; when it succeeds, the children are what was listed, but for
    mounts and virtual directories, and what was not listed is marked as
    missing.  [MetaSyncRefresh] has the theorem, and a run. *)
From S2P Require Import Prelude Ints GoStrings Errors Entities Paths Mounts Tables Db Auditing Repos MetaRepos Journal Acl AclService MetaTree MetaTreeSpec Storage Files Uploads UploadProps Commits CommitProps MountSync MountProps Shares ShareProps MetaSync.
From stdpp Require Import base list strings gmap sets.
From Stdlib Require Import ZArith Lia Ascii.

Local Open Scope string_scope.
Local Open Scope list_scope.
Local Open Scope go_scope.

Notation live n := (vn_IsDeleted n = false) (only parsing).
#[local] Notation tree := MetaTreeSpec.tree.
#[local] Notation nodes w := (tbl TNode w).
#[local] Notation objects w := (tbl TObject w).
#[local] Notation marked := MetaSync.marked.
#[local] Notation synced := MetaSync.synced.

(** ** Children *)
Definition child_path (target : VFSNode) (name : string) : string := joinVirtualPath (vn_Path target) name.
Definition is_child (target n : VFSNode) : Prop := live n /\ vn_ParentID n = Some (vn_ID target).

(** Where an entry may go: its name is that of an element of a path, and as
    a file it takes the place of no directory, unless that is empty, or a
    mount or a virtual directory and the name is listed once. *)
Definition fitting (l : list VFSNode) (target : VFSNode) (entries : list RemoteEntry) (e : RemoteEntry) : Prop :=
  let name := remoteEntryName e in
  valid_name name = true ->
  good_seg name = true /\
  (re_IsDir e = false -> forall n, n ∈ l -> at_path (child_path target name) n -> metadataVFSNodeIsDirectory n = true ->
     leaf l n \/ control_kind n = true /\ name_count name entries = 1).

(** Paths of the directory and its children. *)
Definition near (target : VFSNode) (p : string) : Prop :=
  p = vn_Path target \/ exists name, plain_seg name = true /\ p = child_path target name.

Lemma in_valid_names name entries : name ∈ valid_names entries <->
  valid_name name = true /\ exists e, e ∈ entries /\ remoteEntryName e = name.
Proof.
  unfold valid_names. rewrite elem_of_sel, list_elem_of_fmap. split.
  - intros [(e & -> & He) Hv]. eauto.
  - intros (Hv & e & He & <-). split; [by exists e|done].
Qed.
Lemma name_count_pos name entries : name_count name entries <> 0 <-> name ∈ valid_names entries.
Proof.
  unfold name_count. split.
  - intros Hn. destruct (sel (String.eqb name) (valid_names entries)) as [|x l] eqn:E; [done|].
    assert (x ∈ x :: l) as Hx by left. rewrite <- E, elem_of_sel in Hx. destruct Hx as [Hx <-%String.eqb_eq]. done.
  - intros Hin E%length_zero_iff_nil. assert (name ∈ sel (String.eqb name) (valid_names entries)) as Hx.
    { apply elem_of_sel. by rewrite String.eqb_refl. } rewrite E in Hx. by apply not_elem_of_nil in Hx.
Qed.
Lemma first_entry_some name entries : name ∈ valid_names entries ->
  exists e, first_entry name entries = Some e /\ e ∈ entries /\ remoteEntryName e = name.
Proof.
  intros (_ & e & He & En)%in_valid_names. unfold first_entry.
  destruct (List.find _ entries) as [x|] eqn:E.
  - apply find_some in E as [Hx Ex%String.eqb_eq]. exists x. by rewrite list_elem_of_In.
  - apply list_elem_of_In, (find_none _ _ E) in He. cbn in He. by rewrite En, String.eqb_refl in He.
Qed.

Lemma children_by_name_spec children name :
  match children_by_name children !! name with
  | Some c => c ∈ children /\ vn_Name c = name
  | None => forall c, c ∈ children -> vn_Name c <> name
  end.
Proof.
  unfold children_by_name. induction children as [|c children IH] using rev_ind.
  { cbn. rewrite lookup_empty. by intros c ?%not_elem_of_nil. }
  rewrite fold_left_app. cbn. destruct (decide (vn_Name c = name)) as [<-|Hne].
  - rewrite lookup_insert_eq. split; [|done]. apply elem_of_app. right. by apply list_elem_of_singleton.
  - rewrite lookup_insert_ne by done. destruct (_ !! name) as [x|].
    + destruct IH as [Hx <-]. split; [|done]. apply elem_of_app. by left.
    + intros y [Hy| ->%list_elem_of_singleton]%elem_of_app; [by apply IH|done].
Qed.

(** ** Paths below the directory *)
Section Paths.
Context (target : VFSNode) (Ht : canonical (vn_Path target)).
Lemma child_path_inj a b : plain_seg a = true -> plain_seg b = true -> child_path target a = child_path target b -> a = b.
Proof using Ht.
  intros Ha Hb. unfold child_path. rewrite !join_segs by done. pose proof Ht as [Hg _]%canonical_segs.
  intros E%render_inj; [|rewrite forallb_app, good_segs_plain by done; cbn; by rewrite ?Ha, ?Hb..].
  apply app_inv_head in E. congruence.
Qed.
Lemma child_path_other a : plain_seg a = true -> child_path target a <> vn_Path target.
Proof using Ht.
  intros Ha. unfold child_path. rewrite join_segs by done. pose proof Ht as [Hg Ep]%canonical_segs.
  intros E. rewrite Ep in E at 2. apply render_inj in E; [|rewrite forallb_app, good_segs_plain by done; cbn; by rewrite Ha|by apply good_segs_plain].
  apply (f_equal length) in E. rewrite length_app in E. cbn in E. lia.
Qed.
Lemma child_path_not_root a : plain_seg a = true -> child_path target a <> "/".
Proof using Ht.
  intros Ha. unfold child_path. rewrite join_segs by done. pose proof Ht as [Hg _]%canonical_segs. intros E.
  apply (render_inj _ []) in E; [by destruct (segs (vn_Path target))| |done].
  rewrite forallb_app, good_segs_plain by done. cbn. by rewrite Ha.
Qed.
Lemma child_path_canonical a : good_seg a = true -> canonical (child_path target a).
Proof using Ht.
  intros Ha. unfold child_path. rewrite join_segs by (done || by apply good_plain). pose proof Ht as [Hg _]%canonical_segs.
  exists (segs (vn_Path target) ++ [a]). rewrite good_segs_app, Hg. cbn. by rewrite Ha.
Qed.
End Paths.

Lemma tree_child l target n : tree l -> distinct l -> target ∈ l -> live target -> n ∈ l -> is_child target n ->
  plain_seg (vn_Name n) = true /\ vn_Path n = child_path target (vn_Name n).
Proof.
  intros Ht [Hids _] Htg Ltg Hn [Ln Epar]. destruct (Ht n Hn Ln) as [_ [(_ & E & _)|(_ & p & Hp & Lp & _ & Hch)]]; [congruence|].
  destruct Hch as (E & Hx & Ep). rewrite Epar in E. injection E as E. by rewrite (Hids target p).
Qed.
Lemma tree_at_child l target n name : tree l -> distinct l -> target ∈ l -> live target -> plain_seg name = true ->
  n ∈ l -> at_path (child_path target name) n -> is_child target n /\ vn_Name n = name.
Proof.
  intros Ht [_ Hpaths] Htg Ltg Hx Hn [Ln Ep]. pose proof (proj1 (Ht target Htg Ltg)) as Hc.
  destruct (Ht n Hn Ln) as [Hcn [(Er & _)|(_ & p & Hp & Lp & _ & Hch)]].
  - exfalso. rewrite Ep in Er. by apply (child_path_not_root target Hc name).
  - pose proof (proj1 (Ht p Hp Lp)) as Hcp. pose proof (child_segs p n Hcp Hcn Hch) as E. destruct Hch as (Epar & _ & _).
    rewrite Ep in E. unfold child_path in E. rewrite join_segs in E by done.
    assert (forallb plain_seg (segs (vn_Path target) ++ [name]) = true) as Hpl.
    { rewrite forallb_app. cbn. rewrite Hx. apply canonical_segs in Hc as [Hg _]. by rewrite good_segs_plain. }
    unfold segs in E at 1. rewrite clean_segs_render in E by done. apply app_inj_tail in E as [E ->].
    assert (p = target) as ->; [|by split].
    apply Hpaths; [done..|]. apply canonical_segs in Hcp as [_ ->], Hc as [_ ->]. by rewrite E.
Qed.

(** ** Steps of a refresh *)
Section Steps.
Context `{DatabaseLaws} {MT : MimeTypes}.

Definition ids_kept (l l' : list StorageObject) : Prop := forall o, o ∈ l -> exists o', o' ∈ l' /\ so_ID o' = so_ID o.
(** The tree is kept, but for nodes at paths in [P]; no object goes. *)
Definition step (P : string -> Prop) (w w' : World) : Prop :=
  frames [TNode; TObject] w w' /\ tree (nodes w') /\ changed P (nodes w) (nodes w') /\ ids_kept (objects w) (objects w').

Lemma ids_kept_refl l : ids_kept l l.
Proof. intros o Ho. by exists o. Qed.
Lemma step_same P w w' : tree (nodes w) -> same w w' -> step P w w'.
Proof.
  intros Ht Hs. split; [by apply same_frames|]. rewrite !(proj1 Hs).
  split_and!; [done|apply changed_refl|apply ids_kept_refl].
Qed.
Lemma step_refl P w : tree (nodes w) -> step P w w.
Proof. intros Ht. apply step_same; [done|apply same_refl]. Qed.
Lemma step_trans P w1 w2 w3 : step P w1 w2 -> step P w2 w3 -> step P w1 w3.
Proof.
  intros (F1 & _ & C1 & I1) (F2 & T2 & C2 & I2).
  split_and!; [by eapply frames_trans|done|by eapply changed_trans|].
  intros o Ho. destruct (I1 o Ho) as (o1 & Ho1 & <-). destruct (I2 o1 Ho1) as (o2 & Ho2 & <-). by exists o2.
Qed.
Lemma step_mono (P P' : string -> Prop) w w' : (forall p, P p -> P' p) -> step P w w' -> step P' w w'.
Proof. intros HP (F & T & C & I). split_and!; [done..| |done]. by eapply changed_mono. Qed.
Lemma step_valid P w w' : step P w w' -> valid w -> valid w'.
Proof. intros (F & _). apply F. Qed.
Lemma step_of_kept P w w' : kept P w w' -> step P w w'.
Proof.
  intros (F & T & C). split_and!; [eapply frames_mono; [exact F|set_solver]|done|done|].
  rewrite (frames_tbl _ _ _ TObject F) by set_solver. apply ids_kept_refl.
Qed.
Lemma step_objects P w w' : tree (nodes w) -> frames [TObject] w w' -> ids_kept (objects w) (objects w') -> step P w w'.
Proof.
  intros Ht F I. split; [eapply frames_mono; [exact F|set_solver]|]. rewrite (frames_tbl _ _ _ TNode F) by set_solver.
  split_and!; [done|apply changed_refl|done].
Qed.
(** A node elsewhere stays. *)
Lemma step_stays P w w' n : step P w w' -> n ∈ nodes w -> ~ P (vn_Path n) -> n ∈ nodes w'.
Proof. intros (_ & _ & [_ C] & _) Hn HP. by destruct (C n Hn) as [?|[_ ?]]. Qed.
Lemma step_came P w w' n : step P w w' -> n ∈ nodes w' -> ~ P (vn_Path n) -> n ∈ nodes w.
Proof. intros (_ & _ & [C _] & _) Hn HP. by destruct (C n Hn) as [?|[_ ?]]. Qed.

(** A node at the path is still there, by its ID. *)
Definition id_kept (p : string) (w w' : World) : Prop :=
  forall y, y ∈ nodes w -> at_path p y -> exists y', y' ∈ nodes w' /\ at_path p y' /\ vn_ID y = vn_ID y'.
Lemma id_kept_nodes p w w' : tbl TNode w' = tbl TNode w -> id_kept p w w'.
Proof. intros E y Hy Ha. exists y. by rewrite E. Qed.
Lemma id_kept_wrote node x w w' : wrote node x w w' -> id_kept (vn_Path node) w w'.
Proof.
  intros (_ & Hrow & (Hx & _) & Hid) y Hy Ha. exists x. split; [done|]. split; [by rewrite Hrow|]. apply Hid; [done|]. by rewrite Hrow.
Qed.
Lemma wp_upsert_child target node (Q : result GoErr VFSNode -> World -> Prop) w : valid w -> tree (nodes w) ->
  target ∈ nodes w -> live target -> metadataVFSNodeIsDirectory target = true ->
  vn_ParentID node = Some (vn_ID target) -> good_seg (vn_Name node) = true ->
  vn_Path node = child_path target (vn_Name node) -> vn_Kind node <> VFSNodeKindRoot ->
  (forall y, y ∈ nodes w -> at_path (vn_Path node) y -> stays_dir (nodes w) y node) ->
  (forall e w', step (eq (vn_Path node)) w w' -> id_kept (vn_Path node) w w' -> Q (Err e) w') ->
  (forall x w', step (eq (vn_Path node)) w w' -> wrote node x w w' -> Q (Ok x) w') ->
  wp (normalized (VFSNodeRepository_UpsertByPath node)) Q w.
Proof.
  intros Hv Ht Htg Ltg Dtg Epar Hname Epath Hkind Hdir He Hk.
  assert (forall x w', wrote node x w w' -> step (eq (vn_Path node)) w w') as Hstep.
  { intros x w' Hw. apply step_of_kept. destruct (kept_write_leaf (eq (vn_Path node)) w w' node x) as [? _]; [done| |done| |exact Hdir|done|done].
    - rewrite Epath. apply child_path_canonical; [by apply (Ht target)|done].
    - right. split; [done|]. exists target. split_and!; [done..|]. split_and!; [done|by apply good_plain|done]. }
  apply wp_map_err, wp_upsert_node; [done|..].
  - intros e w' [Hs|[x Hw]]; apply He; [by apply step_same|by apply id_kept_nodes, Hs|by eapply Hstep|by eapply id_kept_wrote].
  - intros x w' Hw. apply Hk; [by eapply Hstep|done].
Qed.

(** A node that stays where it is, and what it is. *)
Definition alike (node y : VFSNode) : Prop :=
  vn_ID node = vn_ID y /\ vn_Path node = vn_Path y /\ vn_ParentID node = vn_ParentID y /\ vn_Name node = vn_Name y /\
  vn_Kind node = vn_Kind y /\ vn_IsDeleted node = vn_IsDeleted y.
Lemma wp_update_alike node y (Q : result GoErr unit -> World -> Prop) w : valid w -> tree (nodes w) ->
  y ∈ nodes w -> live y -> alike node y ->
  (forall e w', step (eq (vn_Path y)) w w' -> Q (Err e) w') ->
  (forall w', step (eq (vn_Path y)) w w' -> held_as node (nodes w') -> Q (Ok tt) w') ->
  wp (normalized (VFSNodeRepository_Update node)) Q w.
Proof.
  intros Hv Ht Hy Ly (Ei & Ep & Epar & En & Ek & Ed) He Hk.
  apply wp_map_err, (wp_update_row node y (eq (vn_Path y))); [done..| | | |].
  - by apply (fits_same _ y).
  - unfold metadataVFSNodeIsDirectory. by rewrite Ek.
  - intros e w' Hs. by apply He, step_same.
  - intros w' Hkept. by apply Hk, step_of_kept.
Qed.

Definition nowhere (_ : string) : Prop := False.
Lemma nowhere_step P w w' : step nowhere w w' -> step P w w'.
Proof. apply step_mono. intros p []. Qed.
Lemma wp_upsert_remote_object source entry path mime now (Q : result GoErr StorageObject -> World -> Prop) w :
  valid w -> tree (nodes w) -> (forall e w', step nowhere w w' -> tbl TNode w' = tbl TNode w -> Q (Err e) w') ->
  (forall o w', step nowhere w w' -> tbl TNode w' = tbl TNode w -> o ∈ objects w' -> Q (Ok o) w') ->
  wp (upsertRemoteObject source entry path mime now) Q w.
Proof.
  intros Hv Ht He Hk. apply wp_map_err. set (object := remote_object source entry path mime now).
  assert (forall o w', stored_object object o w w' -> step nowhere w w') as Hstep.
  { intros o w' (F & _ & Ho & Hids & Hrest). apply step_objects; [done|done|]. intros o' Ho'.
    destruct (same_locator o o') eqn:E; [exists o; split; [done|symmetry; by apply Hids]|exists o'; split; [by apply Hrest|done]]. }
  apply wp_upsert_object; [done|..].
  - intros e w' [Hs|[o Hst]]; apply He; [by apply step_same|apply Hs|by eapply Hstep|].
    destruct Hst as (F & _). apply (frames_tbl _ _ _ _ F). set_solver.
  - intros o w' Hst. apply Hk; [by eapply Hstep| |by destruct Hst as (_ & _ & ? & _)].
    destruct Hst as (F & _). apply (frames_tbl _ _ _ _ F). set_solver.
Qed.
Lemma wp_mark_object objectID now (Q : result GoErr unit -> World -> Prop) w : valid w -> tree (nodes w) ->
  (forall r w', step nowhere w w' -> Q r w') -> wp (markObjectMissing objectID now) Q w.
Proof.
  intros Hv Ht Hk. unfold markObjectMissing. apply wp_bind_or, (wp_first TObject).
  - intros e w1 Hs _. destruct (err_is e ErrNotFound); (apply wp_ret || apply wp_throw); by apply Hk, step_same.
  - intros w1 Hs _. by apply wp_ret, Hk, step_same.
  - intros o w1 Hs Ho _ _. apply wp_map_err, (wp_update_found TObject).
    + intros e w2 Hs2 _. apply Hk, step_same; [done|by eapply same_trans].
    + intros w2 Hs2 _. apply Hk, step_same; [done|by eapply same_trans].
    + intros t w2 l _ Hn Hp. apply Hk. eapply step_trans; [by apply step_same|].
      apply step_objects; [by rewrite (proj1 Hs)|by apply (put_frames TObject l)|].
      intros o' Ho'. rewrite (proj1 Hp). destruct (N.eqb (so_ID o') (so_ID o)) eqn:E.
      * eexists. split; [apply elem_of_set_where; left; exists o'; split; [exact Ho'|split; [exact E|reflexivity]]|reflexivity].
      * exists o'. split; [|done]. apply elem_of_set_where. by right.
Qed.
End Steps.

(** A map is gone through once. *)
Class MapOrderLaws {MO : MapOrder} : Prop := range_perm : forall names, range_order names ≡ₚ names.

(** ** A run *)
Section Runs.
Context `{DatabaseLaws}.
Definition run_of (w : World) (run : SyncRun) : SyncRun := { run with sr_world := w }.
Lemma wp_on_sync {E A} (m : M E World A) (Q : result E A -> SyncRun -> Prop) run :
  wp m (fun r w => Q r (run_of w run)) (sr_world run) -> wp (on_sync m) Q run.
Proof. intros Hm. apply wp_zoom. exact Hm. Qed.
Lemma wp_note f (Q : result GoErr unit -> SyncRun -> Prop) run : Q (Ok tt) { run with sr_result ::= f } -> wp (note f) Q run.
Proof. intros HQ. by apply wp_modify. Qed.
Lemma wp_sync_failed {A} err (Q : result GoErr A -> SyncRun -> Prop) run :
  Q (Err err) { run with sr_result ::= with_error err } -> wp (sync_failed err) Q run.
Proof. intros HQ. by apply wp_bind, wp_note, wp_throw. Qed.
Lemma wp_counted {A} (m : M GoErr World A) (Q : result GoErr A -> SyncRun -> Prop) run :
  wp m (fun r w => match r with
                   | Ok a => Q (Ok a) (run_of w run)
                   | Err e => Q (Err e) { (run_of w run) with sr_result ::= with_error e }
                   end) (sr_world run) -> wp (counted m) Q run.
Proof.
  intros Hm. apply wp_bind_or, wp_on_sync. eapply wp_mono; [exact Hm|]. intros [a|e] w HQ; [by apply wp_ret|].
  by apply wp_sync_failed.
Qed.
End Runs.
#[local] Notation world run := (sr_world run).
#[local] Notation conflicts run := (rr_Conflicts (sr_result run)).
#[local] Notation seen run := (rr_Seen (sr_result run)).

Section Apply.
Context `{DatabaseLaws} {RI : RemoteIndexers} {MO : MapOrder} {MT : MimeTypes}.
Context (target : VFSNode) (source : StorageSource) (req : RemoteListRequest) (entries : list RemoteEntry) (now : Z) (w0 : World).
Context (Hv0 : valid w0) (Ht0 : tree (nodes w0)) (Htg : target ∈ nodes w0) (Ltg : live target)
  (Dtg : metadataVFSNodeIsDirectory target = true) (Hfit : Forall (fitting (nodes w0) target entries) entries).

Definition at_names (names : gset string) (p : string) : Prop :=
  exists name, name ∈ names /\ good_seg name = true /\ p = child_path target name.
Definition reached (names : gset string) (w : World) : Prop := step (at_names names) w0 w.

Lemma sync_target_canonical : canonical (vn_Path target).
Proof. by apply (Ht0 target). Qed.
#[local] Hint Resolve sync_target_canonical good_plain : core.
Lemma at_names_near names p : at_names names p -> near target p.
Proof. intros (name & _ & Hg & ->). right. exists name. by auto. Qed.
Lemma not_at_names names name : name ∉ names -> good_seg name = true -> ~ at_names names (child_path target name).
Proof. intros Hn Hg (x & Hx & Hgx & E). apply child_path_inj in E; [by subst|by auto..]. Qed.
Lemma target_not_at names : ~ at_names names (vn_Path target).
Proof. intros (x & _ & Hg & E). symmetry in E. by apply child_path_other in E; [|auto..]. Qed.
Lemma reached_target names w : reached names w -> target ∈ nodes w.
Proof. intros Hr. by apply (step_stays _ _ _ _ Hr), target_not_at. Qed.
Lemma reached_refl : reached ∅ w0.
Proof. by apply step_refl. Qed.
Lemma reached_step names w name w' : reached names w -> good_seg name = true -> step (eq (child_path target name)) w w' ->
  reached ({[name]} ∪ names) w'.
Proof.
  intros Hr Hg Hs. eapply step_trans; (eapply step_mono; [|eassumption]).
  - intros p (x & Hx & ?). exists x. split; [set_solver|done].
  - intros p <-. exists name. split; [set_solver|done].
Qed.
Lemma reached_more names names' w : reached names w -> names ⊆ names' -> reached names' w.
Proof. intros Hr Hs. eapply step_mono; [|exact Hr]. intros p (x & Hx & ?). exists x. split; [set_solver|done]. Qed.
Lemma reached_near names w : reached names w -> step (near target) w0 w.
Proof. apply step_mono, at_names_near. Qed.
Lemma reached_valid names w : reached names w -> valid w.
Proof. intros Hr. by eapply step_valid. Qed.
Lemma reached_tree names w : reached names w -> tree (nodes w).
Proof. by intros (_ & ? & _). Qed.
(** Before a name is its turn, what is at its path is what was there. *)
Lemma reached_there names w name y : reached names w -> name ∉ names -> good_seg name = true ->
  at_path (child_path target name) y -> y ∈ nodes w <-> y ∈ nodes w0.
Proof.
  intros Hr Hn Hg [_ Ey]. split; intros Hy; [eapply step_came|eapply step_stays]; [exact Hr|done| |exact Hr|done|];
    rewrite Ey; by apply not_at_names.
Qed.

Lemma fits e : e ∈ entries -> valid_name (remoteEntryName e) = true -> good_seg (remoteEntryName e) = true /\
  (re_IsDir e = false -> forall n, n ∈ nodes w0 -> at_path (child_path target (remoteEntryName e)) n ->
     metadataVFSNodeIsDirectory n = true ->
     leaf (nodes w0) n \/ control_kind n = true /\ name_count (remoteEntryName e) entries = 1).
Proof. intros He. rewrite Forall_forall in Hfit. by apply Hfit. Qed.

(** What lies in no child that was there still lies in none. *)
Lemma child_id y name : y ∈ nodes w0 -> good_seg name = true -> at_path (child_path target name) y -> vn_ID y <> vn_ID target.
Proof.
  intros Hy Hg [_ Ep] E. destruct (valid_distinct _ (Hv0 TNode)) as [Hids _]. rewrite (Hids y target) in Ep by done.
  symmetry in Ep. by apply child_path_other in Ep; [|auto..].
Qed.
Lemma reached_no_child names w id : reached names w -> id <> vn_ID target ->
  (forall n, n ∈ nodes w0 -> live n -> vn_ParentID n <> Some id) -> forall n, n ∈ nodes w -> live n -> vn_ParentID n <> Some id.
Proof.
  intros Hr Hid Hno n Hn Ln. pose proof Hr as (_ & Ht & [Hc _] & _). destruct (Hc n Hn) as [?|[_ (name & _ & Hg & Ep)]]; [by apply Hno|].
  assert (valid w) as Hv by by eapply reached_valid.
  destruct (tree_at_child (nodes w) target n name Ht (valid_distinct _ (Hv TNode)) (reached_target _ _ Hr) Ltg (good_plain _ Hg) Hn (conj Ln Ep))
    as [[_ E] _]. congruence.
Qed.

(** *** Names listed more than once *)
Lemma remote_node_fields e objectID state existing :
  let node := remote_node target e objectID state existing now in
  vn_Path node = child_path target (remoteEntryName e) /\ vn_Name node = remoteEntryName e /\
  vn_ParentID node = Some (vn_ID target) /\ vn_Kind node <> VFSNodeKindRoot /\
  (re_IsDir e = true -> metadataVFSNodeIsDirectory node = true).
Proof.
  split_and!; [done|done|done|..]; cbn; unfold metadataVFSNodeIsDirectory; cbn; unfold metadataVFSRemoteEntryKind;
    by destruct (re_IsDir e).
Qed.
(** An entry's node goes to its path. *)
Lemma wp_put_entry names w e objectID state existing (Q : result GoErr VFSNode -> World -> Prop) :
  let node := remote_node target e objectID state existing now in
  reached names w -> e ∈ entries -> valid_name (remoteEntryName e) = true -> remoteEntryName e ∉ names ->
  (forall n, n ∈ nodes w0 -> at_path (child_path target (remoteEntryName e)) n -> control_kind n = true ->
     name_count (remoteEntryName e) entries <> 1) ->
  (forall err w', step (eq (child_path target (remoteEntryName e))) w w' ->
     id_kept (child_path target (remoteEntryName e)) w w' -> Q (Err err) w') ->
  (forall x w', step (eq (child_path target (remoteEntryName e))) w w' -> wrote node x w w' -> Q (Ok x) w') ->
  wp (normalized (VFSNodeRepository_UpsertByPath node)) Q w.
Proof.
  intros node Hr He Hval Hn Hone Herr Hok. destruct (fits e He Hval) as [Hg Hfile].
  destruct (remote_node_fields e objectID state existing) as (Ep & En & Epar & Ek & Hd). fold node in Ep, En, Epar, Ek, Hd.
  apply (wp_upsert_child target); [by eapply reached_valid|by eapply reached_tree|by eapply reached_target|done|done|
    done|by rewrite En|by rewrite En|done| |by rewrite Ep|by rewrite Ep].
  rewrite Ep. intros y Hy Ha Hdy. destruct (re_IsDir e); [left; by apply Hd|right].
  apply (proj1 (reached_there names w _ y Hr Hn Hg Ha)) in Hy. destruct (Hfile eq_refl y Hy Ha Hdy) as [Hleaf|[Hc H1]]; [|by destruct (Hone y)].
  exact (reached_no_child names w (vn_ID y) Hr (child_id y _ Hy Hg Ha) Hleaf).
Qed.
Lemma wp_conflict_child names w e (Q : result GoErr unit -> World -> Prop) :
  reached names w -> e ∈ entries -> valid_name (remoteEntryName e) = true -> remoteEntryName e ∉ names ->
  1 < name_count (remoteEntryName e) entries ->
  (forall r w', step (eq (child_path target (remoteEntryName e))) w w' -> Q r w') ->
  wp (upsertConflictChild target e now) Q w.
Proof.
  intros Hr He Hval Hn Hmany Hk. unfold upsertConflictChild. unfold valid_name in Hval.
  destruct (validateFileName _) as [[]|] eqn:Ev; [|done]. assert (tree (nodes w)) as Ht by by eapply reached_tree.
  assert (forall existing w1, same w w1 ->
            wp (do! normalized (VFSNodeRepository_UpsertByPath (remote_node target e None VFSNodeSyncStateConflict existing now)) ;;
                ret tt) Q w1) as Hput.
  { intros existing w1 Hs. assert (reached names w1) as Hr1 by (eapply step_trans; [exact Hr|by apply step_same]).
    assert (forall w2, step (eq (child_path target (remoteEntryName e))) w1 w2 ->
              step (eq (child_path target (remoteEntryName e))) w w2) as Hback.
    { intros w2. apply step_trans. by apply step_same. }
    apply wp_bind, (wp_put_entry names); [done|done|by unfold valid_name; rewrite Ev|done|intros; lia|..].
    - intros err w2 Hs2 _. by apply Hk, Hback.
    - intros x w2 Hs2 _. by apply wp_ret, Hk, Hback. }
  apply wp_bind, wp_bind_or, wp_find_path.
  - intros err w1 Hs Hd. rewrite (db_error_is_not_found _ Hd). by apply wp_throw, Hk, step_same.
  - intros w1 Hs _. by apply wp_ret, Hput.
  - intros y w1 Hs _ _. by apply wp_ret, Hput.
Qed.
(** A failed run keeps the tree, all the same. *)
Definition failed_run (Q : GoErr -> SyncRun -> Prop) : Prop := forall e run, step (near target) w0 (world run) -> Q e run.
Lemma failed_at names name w w' : reached names w -> good_seg name = true -> step (eq (child_path target name)) w w' ->
  step (near target) w0 w'.
Proof. intros Hr Hg Hs. by eapply reached_near, reached_step. Qed.

Lemma wp_upsert_conflicts names : forall sn (Q : result GoErr (gset string) -> SyncRun -> Prop) run,
  reached sn (world run) -> NoDup names -> (forall n, n ∈ names -> n ∈ valid_names entries /\ n ∉ sn) ->
  failed_run (fun e => Q (Err e)) ->
  (forall sn' run', reached sn' (world run') -> seen run' = seen run -> (conflicts run <= conflicts run')%Z ->
     (conflicts run' = conflicts run -> sn' = sn /\ forall n, n ∈ names -> name_count n entries <= 1) ->
     Q (Ok sn') run') ->
  wp (upsert_conflicts target entries now names sn) Q run.
Proof.
  induction names as [|name names IH]; intros sn Q run Hr Hnd Hin He Hk; cbn [upsert_conflicts].
  { apply wp_ret, Hk; [done|done|lia|]. intros _. split; [done|]. by intros n ?%not_elem_of_nil. }
  apply NoDup_cons in Hnd as [Hnot Hnd]. destruct (Hin name) as [Hvn Hns]; [left|].
  assert (forall n, n ∈ names -> n ∈ valid_names entries /\ n ∉ {[name]} ∪ sn) as Hin'.
  { intros n Hn. destruct (Hin n) as [? ?]; [by right|]. split; [done|]. intros [->%elem_of_singleton|?]%elem_of_union; done. }
  destruct (Nat.leb_spec (name_count name entries) 1) as [Hle|Hmany].
  - apply IH; [done|done|intros n Hn; apply Hin; by right|done|]. intros sn' run' Hr' Es Hc Hz. apply Hk; [done..|].
    intros E. destruct (Hz E) as [-> Hall]. split; [done|]. intros n [->|Hn]%elem_of_cons; auto.
  - destruct (first_entry_some name entries Hvn) as (e & Ee & Hein & <-). rewrite Ee.
    apply in_valid_names in Hvn as [Hval _]. pose proof (proj1 (fits e Hein Hval)) as Hg.
    apply wp_bind, wp_counted, (wp_conflict_child sn); [done|done|done|done|lia|]. intros [[]|err] w' Hs.
    + apply wp_bind, wp_note. apply IH; [by eapply reached_step|done|done|done|].
      intros sn' run' Hr' Es Hc Hz. cbn in Es, Hc, Hz. apply Hk; [done|done|lia|]. intros E. exfalso. lia.
    + apply He. by eapply failed_at.
Qed.
(** *** The entries one by one *)
(** The node [n] is what the entry [e] says, with the identity of the node
    that was there. *)
Definition indexed_as (e : RemoteEntry) (n : VFSNode) (w : World) : Prop :=
  at_path (child_path target (remoteEntryName e)) n /\ vn_Name n = remoteEntryName e /\
  vn_ParentID n = Some (vn_ID target) /\ vn_Kind n = metadataVFSRemoteEntryKind e /\ vn_Size n = remoteEntrySize e /\
  vn_ETag n = re_ETag e /\ vn_SourceID n = vn_SourceID target /\ vn_MountID n = vn_MountID target /\
  vn_SyncState n = VFSNodeSyncStateIndexed /\
  (forall y, y ∈ nodes w0 -> at_path (child_path target (remoteEntryName e)) y -> vn_ID y = vn_ID n) /\
  if re_IsDir e then vn_ObjectID n = None else exists o, o ∈ objects w /\ vn_ObjectID n = Some (so_ID o).
(** A mount or a virtual directory stays; anything else is indexed. *)
Definition mirrored (w : World) (e : RemoteEntry) : Prop :=
  (exists c, c ∈ nodes w0 /\ c ∈ nodes w /\ at_path (child_path target (remoteEntryName e)) c /\ control_kind c = true) \/
  exists n, n ∈ nodes w /\ indexed_as e n w.
Lemma mirrored_step P w w' e : step P w w' -> ~ P (child_path target (remoteEntryName e)) -> mirrored w e -> mirrored w' e.
Proof.
  intros Hs HP [(c & Hc0 & Hc & Ha & Hk)|(n & Hn & Hi)].
  - left. exists c. split_and!; [done| |done|done]. apply (step_stays _ _ _ _ Hs Hc). by rewrite (proj2 Ha).
  - right. exists n. pose proof Hi as (Ha & A). split; [apply (step_stays _ _ _ _ Hs Hn); by rewrite (proj2 Ha)|].
    split; [done|]. destruct A as (? & ? & ? & ? & ? & ? & ? & ? & ? & Ho). split_and!; [done..|].
    destruct (re_IsDir e); [done|]. destruct Ho as (o & Hin & ->). destruct Hs as (_ & _ & _ & Hids).
    destruct (Hids o Hin) as (o' & Ho' & <-). by exists o'.
Qed.

(** The children the directory had. *)
Definition children_of (children : list VFSNode) : Prop := forall n, n ∈ children <-> n ∈ nodes w0 /\ is_child target n.
(** What is known of the children agrees with them, but for the names that
    had their turn. *)
Definition knows (children : list VFSNode) (known : Known) : Prop :=
  forall name, name ∉ fst known -> snd known !! name = children_by_name children !! name.
Lemma knows_existing children known name : children_of children -> knows children known -> name ∉ fst known ->
  good_seg name = true ->
  match snd known !! name with
  | Some c => c ∈ nodes w0 /\ at_path (child_path target name) c /\
              forall y, y ∈ nodes w0 -> at_path (child_path target name) y -> y = c
  | None => forall y, y ∈ nodes w0 -> ~ at_path (child_path target name) y
  end.
Proof.
  intros Hch Hkn Hn Hg. rewrite (Hkn name Hn). pose proof (children_by_name_spec children name) as Hsp.
  pose proof (valid_distinct _ (Hv0 TNode)) as Hd. destruct (_ !! name) as [c|].
  - destruct Hsp as [[Hc Hcc]%Hch <-]. destruct (tree_child _ target c Ht0 Hd Htg Ltg Hc Hcc) as [_ Ep].
    assert (at_path (child_path target (vn_Name c)) c) as Ha by (split; [exact (proj1 Hcc)|done]).
    split_and!; [done|done|]. intros y Hy Hay. by eapply at_path_unique.
  - intros y Hy Ha. destruct (tree_at_child _ target y name Ht0 Hd Htg Ltg (good_plain _ Hg) Hy Ha) as [Hcy En].
    apply (Hsp y); [by apply Hch|done].
Qed.

(** The turn of an entry. *)
Definition skipped (e : RemoteEntry) (known : Known) : bool :=
  bool_decide (remoteEntryName e ∈ fst known) || Nat.eqb (name_count (remoteEntryName e) entries) 0.
Definition turn_done (e : RemoteEntry) (run run' : SyncRun) : Prop :=
  step (eq (child_path target (remoteEntryName e))) (world run) (world run') /\
  seen run' = (seen run + 1)%Z /\ (conflicts run <= conflicts run')%Z /\
  (conflicts run' = conflicts run -> mirrored (world run') e).

Lemma count_valid e : Nat.eqb (name_count (remoteEntryName e) entries) 0 = false -> valid_name (remoteEntryName e) = true.
Proof. intros E%Nat.eqb_neq. by apply name_count_pos, in_valid_names in E as [? _]. Qed.

(** A child is marked, though its row may have been written already. *)
Lemma wp_mark_conflict names w c y (Q : result GoErr unit -> World -> Prop) name :
  reached names w -> good_seg name = true -> c ∈ nodes w0 -> at_path (child_path target name) c ->
  y ∈ nodes w -> at_path (child_path target name) y -> vn_ID c = vn_ID y ->
  (forall r w', step (eq (child_path target name)) w w' -> Q r w') -> wp (markChildConflict c now) Q w.
Proof.
  intros Hr Hg Hc Ha Hy Hay Ei Hk. pose proof (valid_distinct _ (Hv0 TNode)) as Hd.
  assert (tree (nodes w)) as Ht by by eapply reached_tree.
  destruct (tree_at_child _ target c name Ht0 Hd Htg Ltg (good_plain _ Hg) Hc Ha) as [[Lc Epar] En].
  assert (vn_Kind c <> VFSNodeKindRoot) as Hkind.
  { destruct (Ht0 c Hc Lc) as [_ [(Er & _)|[? _]]]; [|done]. rewrite (proj2 Ha) in Er. by apply child_path_not_root in Er; [|auto..]. }
  apply wp_map_err, (wp_update_row_leaf _ y (eq (child_path target name)));
    [by eapply reached_valid|done|by rewrite (proj2 Hay)|done|exact (proj1 Hay)|by rewrite (proj1 Hay)|done|..].
  - by rewrite (proj2 Hay), <- (proj2 Ha).
  - right. split; [done|]. exists target. split_and!; [by eapply reached_target|done|done|]. split_and!; [done|cbn; rewrite En; by apply good_plain|].
    cbn. by rewrite (proj2 Ha), En.
  - intros _. destruct (metadataVFSNodeIsDirectory c) eqn:Edc; [by left|right]. unfold leaf. rewrite <- Ei.
    apply (reached_no_child names w); [done|by eapply child_id|]. intros n Hn Ln E.
    destruct (Ht0 n Hn Ln) as [_ [(_ & E' & _)|(_ & p & Hp & _ & Dp & Ep & _)]]; [congruence|].
    rewrite E in Ep. injection Ep as Ep. rewrite (proj1 Hd p c) in Dp by done. congruence.
  - intros e w' Hs. by apply Hk, step_same.
  - intros w' Hkept _. by apply Hk, step_of_kept.
Qed.
Lemma wp_remote_child names w e existing (Q : result GoErr (VFSNode * bool * bool) -> World -> Prop) :
  reached names w -> e ∈ entries -> valid_name (remoteEntryName e) = true -> remoteEntryName e ∉ names ->
  (forall y, y ∈ nodes w0 -> at_path (child_path target (remoteEntryName e)) y -> control_kind y = false) ->
  (forall err w', step (eq (child_path target (remoteEntryName e))) w w' ->
     id_kept (child_path target (remoteEntryName e)) w w' -> Q (Err err) w') ->
  (forall x created changed w', step (eq (child_path target (remoteEntryName e))) w w' -> x ∈ nodes w' ->
     indexed_as e x w' -> Q (Ok (x, created, changed)) w') ->
  wp (upsertRemoteChild target source req e existing now) Q w.
Proof.
  intros Hr He Hval Hn Hctl Herr Hk. unfold upsertRemoteChild. cbv zeta.
  set (path := child_path target (remoteEntryName e)) in *.
  assert (forall objectID created changed w1, step nowhere w w1 -> tbl TNode w1 = tbl TNode w ->
            (if re_IsDir e then objectID = None else exists o, o ∈ objects w1 /\ objectID = Some (so_ID o)) ->
            wp (node <-! normalized (VFSNodeRepository_UpsertByPath
                           (remote_node target e objectID VFSNodeSyncStateIndexed existing now)) ;;
                ret (node, created, changed)) Q w1) as Hput.
  { intros objectID created changed w1 Hs1 En Hobj. pose proof (nowhere_step (eq path) _ _ Hs1) as Hs.
    assert (reached names w1) as Hr1 by (eapply step_trans; [exact Hr|by apply nowhere_step]).
    apply wp_bind, (wp_put_entry names); [done|done|done|done| | |].
    - intros y Hy Ha Hc. by rewrite (Hctl y Hy Ha) in Hc.
    - intros err w2 Hs2 Hids. apply Herr; [by eapply step_trans|]. intros y Hy. apply Hids. by rewrite En.
    - intros x w2 Hs2 (_ & Hrow & (Hx & _) & Hids). apply wp_ret, Hk; [by eapply step_trans|done|].
      assert (at_path path x) as Hax by by rewrite Hrow.
      split; [done|]. repeat (split; [by rewrite Hrow|]). split.
      + intros y Hy Ha. apply Hids; [|by rewrite (proj2 Hax)]. apply (reached_there names w1 (remoteEntryName e)); [done|done| |done|done].
        by apply (fits e He Hval).
      + replace (vn_ObjectID x) with objectID by (by rewrite Hrow). destruct (re_IsDir e); [done|].
        destruct Hobj as (o & Ho & ->). destruct Hs2 as (_ & _ & _ & Hkept). destruct (Hkept o Ho) as (o' & Ho' & <-). by exists o'. }
  assert (valid w) as Hv by by eapply reached_valid. assert (tree (nodes w)) as Ht by by eapply reached_tree.
  apply wp_bind. destruct (re_IsDir e).
  - apply wp_ret, Hput; [by apply step_refl|done|done].
  - apply wp_bind, wp_upsert_remote_object; [done|done|..].
    + intros err w1 Hs En. apply Herr; [by apply nowhere_step|by apply id_kept_nodes].
    + intros o w1 Hs En Ho. apply wp_ret, Hput; [done|done|by exists o].
Qed.

Lemma conflict_turn e run run' : step (eq (child_path target (remoteEntryName e))) (world run) (world run') ->
  seen run' = (seen run + 1)%Z -> conflicts run' = (conflicts run + 1)%Z -> turn_done e run run'.
Proof. intros Hs Es Ec. split_and!; [done..|lia|]. intros E. exfalso. lia. Qed.

Lemma wp_apply_entry children e known (Q : result GoErr Known -> SyncRun -> Prop) run :
  children_of children -> knows children known -> reached (fst known) (world run) -> e ∈ entries ->
  failed_run (fun err => Q (Err err)) ->
  (skipped e known = true -> Q (Ok known) run) ->
  (forall known' run', skipped e known = false -> fst known' = {[remoteEntryName e]} ∪ fst known ->
     knows children known' -> turn_done e run run' -> Q (Ok known') run') ->
  wp (apply_entry target source req entries now e known) Q run.
Proof.
  intros Hch Hkn Hr He Herr Hskip Hk. destruct known as [sn known]. unfold apply_entry. cbv zeta.
  fold (skipped e (sn, known)). set (name := remoteEntryName e) in *.
  change (bool_decide (name ∈ sn) || Nat.eqb (name_count name entries) 0) with (skipped e (sn, known)).
  destruct (skipped e (sn, known)) eqn:Esk; [by apply wp_ret, Hskip|].
  pose proof Esk as [Hn%bool_decide_eq_false Hval%count_valid]%orb_false_iff. cbn [fst] in Hn.
  pose proof (proj1 (fits e He Hval)) as Hg. fold name in Hn, Hg.
  pose proof (knows_existing children (sn, known) name Hch Hkn Hn Hg) as Hex. cbn [snd] in Hex.
  assert (knows children ({[name]} ∪ sn, known)) as Hkn'. { intros x Hx. apply Hkn. cbn in *. set_solver. }
  assert (forall run', step (eq (child_path target name)) (world run) (world run') -> step (near target) w0 (world run')) as Hnear
    by by intros run'; apply (failed_at sn).
  set (run1 := { run with sr_result ::= one_seen }).
  assert (seen run1 = (seen run + 1)%Z /\ conflicts run1 = conflicts run) as [Es1 Ec1] by (cbn; lia).
  assert (world run1 = world run) as Ew1 by done.
  apply wp_bind, wp_note. fold run1. destruct (metadataVFSChildIsControlNode (known !! name)) eqn:Ectl.
  { apply wp_ret, Hk; [done|done|done|]. split_and!; [by apply step_refl, (reached_tree sn)|done|lia|].
    intros _. left. destruct (known !! name) as [c|]; [|done]. destruct Hex as (Hc & Ha & _). exists c.
    split_and!; [done| |done|done]. by apply (reached_there sn (world run) name). }
  assert (forall y, y ∈ nodes w0 -> at_path (child_path target name) y -> control_kind y = false) as Hctl.
  { intros y Hy Ha. destruct (known !! name) as [c|]; [|by destruct (Hex y)]. destruct Hex as (_ & _ & Huniq). by rewrite (Huniq y). }
  assert (forall names (Q' : result GoErr unit -> SyncRun -> Prop) run2, reached names (world run2) ->
            id_kept (child_path target name) (world run) (world run2) ->
            (forall err run', step (eq (child_path target name)) (world run2) (world run') -> Q' (Err err) run') ->
            (forall w', step (eq (child_path target name)) (world run2) w' -> Q' (Ok tt) (run_of w' run2)) ->
            wp (match known !! name with Some child => counted (markChildConflict child now) | None => ret tt end) Q' run2) as Hmark.
  { intros names Q' run2 Hr2 Hids He2 Hk2. destruct (known !! name) as [c|].
    - destruct Hex as (Hc & Ha & _). destruct (Hids c) as (y & Hy & Hay & Ei); [by apply (reached_there sn (world run) name)|done|].
      apply wp_counted, (wp_mark_conflict names _ c y _ name); [done..|]. intros [[]|err] w' Hs; [by apply Hk2|by apply He2].
    - apply wp_ret. replace run2 with (run_of (world run2) run2) at 1 by by destruct run2.
      apply Hk2, step_refl, (reached_tree names), Hr2. }
  destruct (metadataVFSRemoteIdentityConflicts (known !! name) e).
  { apply wp_bind, (Hmark sn); [done|by apply id_kept_nodes|intros err run' Hs; by apply Herr, Hnear|].
    intros w' Hs. apply wp_bind, wp_note, wp_ret, Hk; [done..|]. apply conflict_turn; [done|done|cbn; lia]. }
  apply wp_bind_or, wp_on_sync, (wp_remote_child sn); [done|done|done|done|done|..].
  - intros err w' Hs Hids. destruct (err_is err ErrNameConflict); [|by apply wp_sync_failed, Herr, Hnear].
    assert (reached ({[name]} ∪ sn) w') as Hr' by by eapply reached_step.
    apply wp_bind, wp_note, wp_bind, (Hmark ({[name]} ∪ sn)); [done|done|..].
    + intros err' run' Hs'. apply Herr, Hnear. by eapply step_trans.
    + intros w'' Hs'. apply wp_ret, Hk; [done..|]. apply conflict_turn; [by eapply step_trans|done|cbn; lia].
  - intros x created changed w' Hs Hx Hi. apply wp_bind, wp_note, wp_ret, Hk; [done|done| |].
    + intros z Hz. cbn in *. rewrite lookup_insert_ne by set_solver. apply Hkn. cbn. set_solver.
    + split_and!; [done|by destruct created, changed|by destruct created, changed|]. intros _. right. by exists x.
Qed.

(** The loop over the entries.  A name that had its turn is left alone. *)
Definition names_of (rest : list RemoteEntry) (n : string) : Prop := exists e, e ∈ rest /\ remoteEntryName e = n /\ valid_name n = true.
Definition turns_done (rest : list RemoteEntry) (sn : gset string) (run : SyncRun) (sn' : gset string) (run' : SyncRun) : Prop :=
  reached sn' (world run') /\ (forall n, n ∈ sn' <-> n ∈ sn \/ names_of rest n) /\ (conflicts run <= conflicts run')%Z /\
  (forall e, remoteEntryName e ∈ sn -> good_seg (remoteEntryName e) = true -> mirrored (world run) e -> mirrored (world run') e) /\
  (conflicts run' = conflicts run -> NoDup (map remoteEntryName rest) ->
   (forall e, e ∈ rest -> valid_name (remoteEntryName e) = true /\ remoteEntryName e ∉ sn) ->
   Forall (mirrored (world run')) rest /\ seen run' = (seen run + Z.of_nat (length rest))%Z).
Lemma skipped_spec e known : e ∈ entries -> skipped e known = true -> remoteEntryName e ∈ fst known \/ valid_name (remoteEntryName e) = false.
Proof.
  intros He [?%bool_decide_eq_true|Hc%Nat.eqb_eq]%orb_true_iff; [by left|right]. apply not_true_is_false. intros Hv.
  by apply (proj2 (name_count_pos (remoteEntryName e) entries)); [apply in_valid_names; eauto|].
Qed.
Lemma skipped_turns e rest sn run sn' run' : e ∈ entries -> (remoteEntryName e ∈ sn \/ valid_name (remoteEntryName e) = false) ->
  turns_done rest sn run sn' run' -> turns_done (e :: rest) sn run sn' run'.
Proof.
  intros He Hs (Hr & Hn & Hc & Hkeep & Hall). split_and!; [done| |done|done|].
  - intros n. rewrite Hn. split; [intros [?|(x & Hx & ?)]; [by left|right; exists x; split; [by right|done]]|].
    intros [?|(x & [->|Hx]%elem_of_cons & <- & Hv)]; [by left| |right; by exists x]. destruct Hs as [?|?]; [by left|congruence].
  - intros E _ Hin. exfalso. destruct (Hin e) as [Hv Hnot]; [left|]. destruct Hs; [done|congruence].
Qed.
Lemma turn_turns e rest sn run run1 sn' run' : e ∈ entries -> remoteEntryName e ∉ sn -> valid_name (remoteEntryName e) = true ->
  turn_done e run run1 -> turns_done rest ({[remoteEntryName e]} ∪ sn) run1 sn' run' -> turns_done (e :: rest) sn run sn' run'.
Proof.
  intros He Hnot Hv (Hs1 & Es1 & Hc1 & Hm1) (Hr & Hn & Hc & Hkeep & Hall). pose proof (proj1 (fits e He Hv)) as Hg.
  split_and!; [done| |lia| |].
  - intros n. rewrite Hn, elem_of_union, elem_of_singleton. split.
    + intros [[->|?]|(x & Hx & ?)]; [right; exists e; split; [left|done]|by left|right; exists x; split; [by right|done]].
    + intros [?|(x & [->|Hx]%elem_of_cons & <- & Hvx)]; [by left; right|by left; left|right; by exists x].
  - intros x Hx Hgx Hmx. apply Hkeep; [set_solver|done|]. apply (mirrored_step _ _ _ _ Hs1); [|done].
    intros E%child_path_inj; [|by auto..]. congruence.
  - intros E Hnd Hin. apply NoDup_cons in Hnd as [Hne Hnd].
    destruct Hall as [Hrest Es]; [lia|done| |].
    { intros x Hx. destruct (Hin x) as [Hvx Hnx]; [by right|]. split; [done|]. intros [E'%elem_of_singleton|?]%elem_of_union; [|done].
      apply Hne, list_elem_of_fmap. by exists x. }
    split; [|cbn [length]; lia]. constructor; [|done]. apply Hkeep; [set_solver|done|]. apply Hm1. lia.
Qed.
Lemma wp_apply_entries children rest : forall known (Q : result GoErr Known -> SyncRun -> Prop) run,
  children_of children -> knows children known -> reached (fst known) (world run) -> (forall e, e ∈ rest -> e ∈ entries) ->
  failed_run (fun err => Q (Err err)) ->
  (forall known' run', turns_done rest (fst known) run (fst known') run' -> Q (Ok known') run') ->
  wp (apply_entries target source req entries now rest known) Q run.
Proof.
  induction rest as [|e rest IH]; intros known Q run Hch Hkn Hr Hin Herr Hk; cbn [apply_entries].
  - apply wp_ret, Hk. split_and!; [done| |lia|done|].
    + intros n. split; [by left|]. by intros [?|(x & ?%not_elem_of_nil & _)].
    + intros _ _ _. split; [constructor|cbn; lia].
  - assert (e ∈ entries) as He by (apply Hin; left).
    assert (forall x, x ∈ rest -> x ∈ entries) as Hin' by (intros x Hx; apply Hin; by right).
    apply wp_bind, (wp_apply_entry children); [done|done|done|done|done|..].
    + intros Esk. apply IH; [done..|]. intros known' run' Ht. apply Hk, skipped_turns; [done|by apply skipped_spec|done].
    + intros known1 run1 Esk Efst Hkn1 Ht1. pose proof Esk as [Hn%bool_decide_eq_false Hval%count_valid]%orb_false_iff.
      apply IH; [done|done| |done|done|].
      * rewrite Efst. eapply reached_step; [exact Hr|by apply (fits e He Hval)|apply Ht1].
      * intros known' run' Ht. rewrite Efst in Ht. apply Hk. by apply (turn_turns e rest (fst known) run run1).
Qed.

(** *** The children that were not listed *)
Definition absent_child (sn : gset string) (c : VFSNode) : Prop := vn_Name c ∉ sn /\ control_kind c = false.
Definition absent_paths (sn : gset string) (rest : list VFSNode) (p : string) : Prop :=
  exists c, c ∈ rest /\ absent_child sn c /\ p = vn_Path c.
Definition went_missing (c : VFSNode) (w : World) : Prop := held_as (marked VFSNodeSyncStateMissing now c) (nodes w).
Lemma went_missing_step P c w w' : step P w w' -> ~ P (vn_Path c) -> went_missing c w -> went_missing c w'.
Proof.
  intros Hs HP (x & Hx & Hrow). exists x. split; [|done]. apply (step_stays _ _ _ _ Hs Hx). apply is_row_fields in Hrow as (_ & _ & _ & -> & _).
  done.
Qed.
Lemma child_near c : c ∈ nodes w0 -> is_child target c -> near target (vn_Path c).
Proof.
  intros Hc Hch. destruct (tree_child _ target c Ht0 (valid_distinct _ (Hv0 TNode)) Htg Ltg Hc Hch) as [Hp ->]. right. by exists (vn_Name c).
Qed.

Lemma wp_mark_missing sn rest : forall (Q : result GoErr unit -> SyncRun -> Prop) run,
  step (near target) w0 (world run) ->
  (forall c, c ∈ rest -> absent_child sn c -> c ∈ nodes (world run) /\ live c /\ near target (vn_Path c)) ->
  NoDup (map vn_Path rest) ->
  failed_run (fun err => Q (Err err)) ->
  (forall run', step (absent_paths sn rest) (world run) (world run') -> conflicts run' = conflicts run -> seen run' = seen run ->
     (forall c, c ∈ rest -> absent_child sn c -> went_missing c (world run')) -> Q (Ok tt) run') ->
  wp (mark_missing now sn rest) Q run.
Proof.
  induction rest as [|c rest IH]; intros Q run Hs0 Hin Hnd Herr Hk; cbn [mark_missing].
  { apply wp_ret, Hk; [by apply step_refl, Hs0|done|done|]. by intros c ?%not_elem_of_nil. }
  apply NoDup_cons in Hnd as [Hne Hnd].
  assert (forall P w w', step (absent_paths sn rest) w w' -> (forall p, absent_paths sn rest p -> P p) -> step P w w') as Hmono
    by by intros P w w' Hs HP; eapply step_mono.
  assert (forall p, absent_paths sn rest p -> absent_paths sn (c :: rest) p) as Hmore.
  { intros p (x & Hx & ?). exists x. split; [by right|done]. }
  destruct (bool_decide (vn_Name c ∈ sn) || control_kind c) eqn:Eskip.
  - apply IH; [done|intros x Hx; apply Hin; by right|done|done|]. intros run' Hs Ec Es Hm. apply Hk; [by eapply Hmono|done|done|].
    intros x [->|Hx]%elem_of_cons Hab; [|by apply Hm]. exfalso. destruct Hab as [Hn Hc']. rewrite Hc', orb_false_r in Eskip.
    by apply bool_decide_eq_true in Eskip.
  - apply orb_false_iff in Eskip as [Hn%bool_decide_eq_false Hctl]. destruct (Hin c) as (Hc & Lc & Hnear); [left|by split|].
    assert (valid (world run)) as Hv by by eapply step_valid. assert (tree (nodes (world run))) as Ht by apply Hs0.
    assert (forall w', step (eq (vn_Path c)) (world run) w' -> step (near target) w0 w') as Hnear'.
    { intros w' Hs. eapply step_trans; [exact Hs0|]. eapply step_mono; [|exact Hs]. by intros p <-. }
    assert (forall run1, step (eq (vn_Path c)) (world run) (world run1) -> went_missing c (world run1) ->
              conflicts run1 = conflicts run -> seen run1 = seen run ->
              wp (do! note one_missing ;; mark_missing now sn rest) Q run1) as Hrest.
    { intros run1 Hs1 Hm1 Ec1 Es1. apply wp_bind, wp_note, IH; [by apply Hnear'| |done|done|].
      - intros x Hx Hab. destruct (Hin x) as (Hxn & Lx & Hnx); [by right|done|]. split_and!; [|done|done].
        apply (step_stays _ _ _ _ Hs1 Hxn). intros E. apply Hne, list_elem_of_fmap. exists x. by rewrite E.
      - intros run' Hs Ec Es Hm. apply Hk; [|by rewrite Ec|by rewrite Es|].
        + eapply step_trans; [|by eapply Hmono]. eapply step_mono; [|exact Hs1]. intros p <-. exists c. by split_and!; [left|split|].
        + intros x [->|Hx]%elem_of_cons Hab; [|by apply Hm]. apply (went_missing_step _ _ _ _ Hs); [|done].
          intros (y & Hy & _ & E). apply Hne, list_elem_of_fmap. by exists y. }
    apply wp_bind, wp_counted, (wp_update_alike _ c); [done|done|done|done|done|..].
    + intros e w' Hs. apply Herr. by apply Hnear'.
    + intros w1 Hs1 Hm1. apply wp_bind. destruct (vn_ObjectID c) as [objectID|]; [|by apply wp_ret, Hrest].
      apply wp_counted, wp_mark_object; [by eapply step_valid|apply Hs1|]. intros r w2 Hs2.
      assert (step (eq (vn_Path c)) (world run) w2) as Hs12 by (eapply step_trans; [exact Hs1|by apply nowhere_step]).
      destruct r as [[]|e]; [|apply Herr; by apply Hnear']. apply Hrest; [done| |done|done].
      apply (went_missing_step _ _ _ _ Hs2); [by intros []|done].
Qed.

(** *** All of it *)
(** The children are what was listed, and what was not is missing. *)
Definition refreshed (w' : World) : Prop :=
  (forall e, e ∈ entries -> valid_name (remoteEntryName e) = true) /\ NoDup (map remoteEntryName entries) /\
  Forall (mirrored w') entries /\
  forall c, c ∈ nodes w0 -> is_child target c -> vn_Name c ∉ map remoteEntryName entries ->
    if control_kind c then c ∈ nodes w' else went_missing c w'.

Lemma single_names l : (forall n, n ∈ l -> length (sel (String.eqb n) l) <= 1) -> NoDup l.
Proof.
  induction l as [|x l IH]; intros Hc; constructor.
  - intros Hx. specialize (Hc x (list_elem_of_here x l)). cbn in Hc. rewrite String.eqb_refl in Hc. cbn in Hc.
    assert (x ∈ sel (String.eqb x) l) as Hin by (apply elem_of_sel; by rewrite String.eqb_refl). unfold sel in Hin.
    destruct (List.filter (String.eqb x) l) as [|y m]; [by apply not_elem_of_nil in Hin|]. cbn in Hc. lia.
  - apply IH. intros n Hn. specialize (Hc n). cbn in Hc. assert (n ∈ x :: l) as Hnl by by right. specialize (Hc Hnl).
    unfold sel. destruct (String.eqb n x); cbn in Hc; lia.
Qed.
Lemma all_valid : length (sel (fun name => negb (valid_name name)) (map remoteEntryName entries)) = 0 ->
  (forall e, e ∈ entries -> valid_name (remoteEntryName e) = true) /\ valid_names entries = map remoteEntryName entries.
Proof.
  intros E%length_zero_iff_nil.
  assert (forall n, n ∈ map remoteEntryName entries -> valid_name n = true) as Hv.
  { intros n Hn. destruct (valid_name n) eqn:En; [done|]. exfalso.
    assert (n ∈ sel (fun name => negb (valid_name name)) (map remoteEntryName entries)) as Hx by (apply elem_of_sel; by rewrite En).
    rewrite E in Hx. by apply not_elem_of_nil in Hx. }
  split; [intros e He; apply Hv, list_elem_of_fmap; by exists e|].
  unfold valid_names, sel. clear E. induction (map remoteEntryName entries) as [|n l IH]; [done|]. cbn.
  rewrite (Hv n) by left. f_equal. apply IH. intros m Hm. apply Hv. by right.
Qed.
Lemma children_no_dup children all : all ≡ₚ sel (fun n => opt_eqb (vn_ParentID n) (Some (vn_ID target)) && applyVFSNodeListFilter no_node_filter n) (nodes w0) ->
  children = all -> children_of children /\ NoDup (map vn_Path children).
Proof.
  intros Hp ->.
  assert (forall n, n ∈ all <-> n ∈ nodes w0 /\ is_child target n) as Hch.
  { intros n. rewrite Hp, elem_of_sel. unfold is_child, applyVFSNodeListFilter, opt_eqb. cbn.
    rewrite !andb_true_iff, negb_true_iff. destruct (vn_ParentID n) as [p|]; [rewrite N.eqb_eq|]; naive_solver. }
  split; [done|]. assert (NoDup all) as Hnd.
  { rewrite Hp. apply NoDup_ListNoDup, List.NoDup_filter, NoDup_ListNoDup. eapply NoDup_fmap_1. exact (no_conflicts_ids _ (Hv0 TNode)). }
  apply NoDup_fmap_2_strong; [|done]. intros a b [Ha [La _]]%Hch [Hb [Lb _]]%Hch E.
  by apply (at_path_unique w0 (vn_Path a)).
Qed.

Lemma absent_not_at sn c : c ∈ nodes w0 -> is_child target c -> vn_Name c ∉ sn -> ~ at_names sn (vn_Path c).
Proof.
  intros Hc Hch Hn (x & Hx & Hg & E). destruct (tree_child _ target c Ht0 (valid_distinct _ (Hv0 TNode)) Htg Ltg Hc Hch) as [Hp Ep].
  rewrite Ep in E. apply child_path_inj in E; [congruence|auto..].
Qed.
Lemma child_not_target c : c ∈ nodes w0 -> is_child target c -> vn_Path c <> vn_Path target.
Proof.
  intros Hc Hch. destruct (tree_child _ target c Ht0 (valid_distinct _ (Hv0 TNode)) Htg Ltg Hc Hch) as [Hp ->].
  apply child_path_other; auto.
Qed.
(** An entry's place is that of no child of another name. *)
Lemma entry_not_absent sn rest e : (forall c, c ∈ rest -> c ∈ nodes w0 /\ is_child target c) -> good_seg (remoteEntryName e) = true ->
  remoteEntryName e ∈ sn -> ~ absent_paths sn rest (child_path target (remoteEntryName e)).
Proof.
  intros Hrest Hg Hin (c & Hc & [Hn _] & E). destruct (Hrest c Hc) as [Hc0 Hch].
  destruct (tree_child _ target c Ht0 (valid_distinct _ (Hv0 TNode)) Htg Ltg Hc0 Hch) as [Hp Ep]. rewrite Ep in E.
  apply child_path_inj in E; [congruence|auto..].
Qed.

(** What the loops leave, when no conflict was counted. *)
Lemma refreshed_after children (sn1 sn2 : gset string) w1 w2 w3 : children_of children -> NoDup (map vn_Path children) ->
  reached sn2 w1 -> (forall n, n ∈ sn2 <-> n ∈ sn1 \/ names_of entries n) -> sn1 = ∅ ->
  (forall e, e ∈ entries -> valid_name (remoteEntryName e) = true) -> NoDup (map remoteEntryName entries) ->
  Forall (mirrored w1) entries -> step (absent_paths sn2 children) w1 w2 ->
  (forall c, c ∈ children -> absent_child sn2 c -> went_missing c w2) -> step (eq (vn_Path target)) w2 w3 -> refreshed w3.
Proof.
  intros Hch Hnd Hr1 Hsn -> Hval Hnames Hm Hs2 Hmiss Hs3. split_and!; [done|done|..].
  - rewrite Forall_forall in Hm |- *. intros e He. pose proof (proj1 (fits e He (Hval e He))) as Hg.
    eapply mirrored_step; [exact Hs3| |].
    { intros E. symmetry in E. by apply child_path_other in E; [|auto..]. }
    eapply mirrored_step; [exact Hs2| |by apply Hm]. apply entry_not_absent; [intros c; apply Hch|done|].
    apply Hsn. right. exists e. by split_and!; [|done|apply Hval].
  - intros c Hc Hcc Hnot. assert (vn_Name c ∉ sn2) as Hn.
    { rewrite Hsn. intros [?%not_elem_of_empty|(e & He & E & _)]; [done|]. apply Hnot, list_elem_of_fmap. by exists e. }
    assert (c ∈ children) as Hin by by apply Hch. assert (vn_Path target <> vn_Path c) as Hne by (intros E; by apply (child_not_target c)).
    destruct (control_kind c) eqn:Ek.
    + apply (step_stays _ _ _ _ Hs3); [|done]. apply (step_stays _ _ _ _ Hs2).
      * apply (step_stays _ _ _ _ Hr1 Hc). by apply absent_not_at.
      * intros (y & Hy & [_ Hyk] & E). pose proof (proj1 (Hch y) Hy) as [Hy0 [Ly _]].
        rewrite (at_path_unique w0 (vn_Path c) y c) in Hyk; [congruence|done|done|done|by split|by split; [exact (proj1 Hcc)|]].
    + apply (went_missing_step _ _ _ _ Hs3); [done|]. apply Hmiss; [done|by split].
Qed.

Lemma wp_apply_all {MOL : MapOrderLaws} (Q : result GoErr unit -> SyncRun -> Prop) run :
  world run = w0 -> conflicts run = 0%Z -> seen run = 0%Z ->
  failed_run (fun err => Q (Err err)) ->
  (forall run', step (near target) w0 (world run') -> (0 <= conflicts run')%Z ->
     (conflicts run' = 0%Z -> refreshed (world run') /\ seen run' = Z.of_nat (length entries)) -> Q (Ok tt) run') ->
  wp (apply_all target source req entries now) Q run.
Proof.
  intros Ew Ec0 Es0 Herr Hk. unfold apply_all, VFSNodeRepository_ListChildren. apply wp_bind, wp_counted, wp_map_err, (wp_select TNode).
  { intros e w' Hs _. apply Herr. apply step_same; rewrite Ew in *; [done|]. done. }
  intros all w1 Hs Hp _. rewrite Ew in Hs, Hp. cbn [limited].
  destruct (children_no_dup all all Hp eq_refl) as [Hch Hnd].
  set (invalid := length _). apply wp_bind, wp_note.
  assert (reached ∅ w1) as Hr1 by by apply step_same.
  apply wp_bind, wp_upsert_conflicts; [exact Hr1| | |done|].
  { rewrite range_perm. apply NoDup_remove_dups. }
  { intros n. rewrite range_perm, elem_of_remove_dups. intros Hn. split; [done|set_solver]. }
  intros sn2 run2 Hr2 Es2 Hc2 Hz2. cbn in Es2, Hc2, Hz2. rewrite Ec0 in Hc2, Hz2. rewrite Es0 in Es2.
  apply wp_bind, (wp_apply_entries all); [done|by intros n _|done|done|done|].
  intros known' run3 (Hr3 & Hsn3 & Hc3 & _ & Hall3). cbn [fst] in Hsn3, Hall3.
  apply wp_bind, wp_mark_missing; [by eapply reached_near| |done|done|].
  { intros c Hc [Hn _]. apply Hch in Hc as [Hc0 Hcc]. split_and!; [|apply Hcc|by apply child_near].
    apply (step_stays _ _ _ _ Hr3 Hc0). by apply absent_not_at. }
  intros run4 Hs4 Ec4 Es4 Hm4.
  assert (step (near target) w0 (world run4)) as Hn4.
  { eapply step_trans; [by eapply reached_near|]. eapply step_mono; [|exact Hs4]. intros p (c & Hc & _ & ->). apply Hch in Hc as [? ?]. by apply child_near. }
  assert (target ∈ nodes (world run4)) as Htg4.
  { apply (step_stays _ _ _ _ Hs4); [by eapply reached_target|]. intros (c & Hc & _ & E). apply Hch in Hc as [? ?]. by apply (child_not_target c). }
  apply wp_bind, wp_gets, wp_bind, wp_counted, (wp_update_alike _ target); [by eapply step_valid|apply Hn4|done|done|done|..].
  - intros e w' Hs5. apply Herr. eapply step_trans; [exact Hn4|]. eapply step_mono; [|exact Hs5]. intros p <-. by left.
  - intros w5 Hs5 _. apply wp_note, Hk; cbn.
    + eapply step_trans; [exact Hn4|]. eapply step_mono; [|exact Hs5]. intros p <-. by left.
    + lia.
    + intros Hzero. destruct Hz2 as [-> Hcount]; [lia|]. destruct all_valid as [Hval Evn]; [fold invalid; lia|].
      assert (NoDup (map remoteEntryName entries)) as Hnames.
      { rewrite <- Evn. apply single_names. intros n Hn. apply Hcount. by rewrite range_perm, elem_of_remove_dups. }
      destruct Hall3 as [Hm3 Es3]; [lia|done|intros e He; split; [by apply Hval|set_solver]|].
      split; [by eapply (refreshed_after all ∅ (fst known') (world run3) (world run4))|lia].
Qed.
End Apply.

(** ** The refresh *)
Section Refresh.
Context `{DatabaseLaws} {RI : RemoteIndexers} {MO : MapOrder} {MOL : MapOrderLaws} {MT : MimeTypes} (s : MetadataVFSSyncService).
(** Listing may write back the configuration of the source. *)
Class RemoteIndexersLaws : Prop :=
  list_remote_law : forall t source req w, wp (ListRemoteChildren t source req) (fun _ w' => frames [TSource] w w') w.

Lemma step_quiet P w w' : tree (nodes w) -> frames [] w w' -> step P w w'.
Proof.
  intros Ht F. split; [eapply frames_mono; [exact F|set_solver]|].
  rewrite !(frames_tbl _ _ _ _ F) by set_solver. split_and!; [done|apply changed_refl|apply ids_kept_refl].
Qed.
Lemma wp_equation {E A} (m : M E World A) (Q : result E A -> World -> Prop) w : (forall r w', m w = (r, w') -> Q r w') -> wp m Q w.
Proof. intros HQ. unfold wp. destruct (m w) as [r w'] eqn:E'. by apply HQ. Qed.

Lemma wp_within_run {A} (fn : M GoErr SyncRun A) (Q : result GoErr A -> SyncRun -> Prop) run : valid (world run) ->
  wp fn (fun res run1 => frames [TNode; TObject] (world run) (world run1) /\
    match res with
    | Ok a => forall w2, same (world run1) w2 -> Q (Ok a) (run_of w2 run1)
    | Err e => sy_transactor s = false -> Q (Err e) run1
    end) run ->
  (forall e run2, sy_transactor s = true -> frames [] (world run) (world run2) -> Q (Err e) run2) ->
  wp (within_run_tx s fn) Q run.
Proof.
  intros Hv Hfn Hback. unfold wp, within_run_tx in *. destruct (fn run) as [res run1]. cbn [fst snd] in Hfn |- *. destruct Hfn as [F Hres].
  assert (forall w2, (forall t, tbl t w2 = tbl t (world run)) -> w_clock w2 = w_clock (world run1) -> w_reads w2 = w_reads (world run1) ->
            frames [] (world run) w2) as Hf2.
  { intros w2 E Ec Er. destruct F as (_ & _ & Fc & Fr). split_and!; [done| |congruence|lia]. intros _ t. rewrite E. apply Hv. }
  unfold withinSyncTx. destruct (sy_transactor s).
  - pose proof (wp_transaction normalizeGormError (fun _ => (res, world run1)) (fun r w2 => Q r (run_of w2 run1)) (world run)) as Htx.
    unfold wp in Htx. unfold WithinTx. destruct (transaction _ _ _) as [r w2]. apply Htx; [apply normalize_db_error|].
    cbn [fst snd]. destruct res as [a|e]; [split; [exact Hres|intros e]|]; intros w3 E Ec Er; try intros _; apply Hback; cbn; auto.
  - cbn [fst snd]. destruct res as [a|e]; [exact (Hres (world run1) (same_refl _))|]. destruct run1. by apply Hres.
Qed.

Section Target.
Context (target : VFSNode) (w : World).
Context (Hv : valid w) (Ht : tree (nodes w)) (Htg : target ∈ nodes w) (Ltg : live target).

(** Before the children are written, only the target may have changed. *)
Definition untouched (w' : World) : Prop := frames [TSource] w w'.
Definition only_target (w' : World) : Prop :=
  changed (eq (vn_Path target)) (nodes w) (nodes w') /\ tbl TObject w' = tbl TObject w.
(** What the source of the target lists there. *)
Definition listing (source : StorageSource) (req : RemoteListRequest) (entries : list RemoteEntry) : Prop :=
  source ∈ tbl TSource w /\ vn_SourceID target = Some (src_ID source) /\
  exists w1 w2 w3, frames [] w w1 /\ buildRemoteListRequest s target source w1 = (Ok req, w2) /\
    ListRemoteChildren (src_DriverType source) source req w2 = (Ok entries, w3).
(** What a refresh leaves. *)
Definition refresh_post (res : result GoErr unit) (run' : SyncRun) : Prop :=
  valid (world run') /\ tree (nodes (world run')) /\ changed (near target) (nodes w) (nodes (world run')) /\
  match res with
  | Ok _ => exists source req entries now,
      listing source req entries /\
      refreshed target entries now w (world run') /\ seen run' = Z.of_nat (length entries)
  | Err e => sy_transactor s = true -> e <> ErrVFSSyncConflict -> only_target (world run')
  end.
Lemma untouched_nodes w' t : untouched w' -> t <> TSource -> tbl t w' = tbl t w.
Proof. intros F Hne. apply (frames_tbl _ _ _ _ F). set_solver. Qed.
Lemma failed_untouched e run' : untouched (world run') -> refresh_post (Err e) run'.
Proof.
  intros F. split; [by apply F|]. unfold only_target. rewrite !(untouched_nodes _ _ F) by done.
  split_and!; [done|apply changed_refl|]. intros _ _. split; [apply changed_refl|done].
Qed.
Lemma failed_target e run' w1 : untouched w1 -> step (eq (vn_Path target)) w1 (world run') -> objects (world run') = objects w1 ->
  refresh_post (Err e) run'.
Proof.
  intros F (F1 & T1 & C1 & _) Eo. unfold refresh_post, only_target. rewrite Eo, (untouched_nodes _ TObject F) by done.
  rewrite (untouched_nodes _ TNode F) in C1 by done. split_and!; [by apply F1, F|done| |done].
  eapply changed_mono; [|exact C1]. intros p <-. by left.
Qed.

Lemma kept_quiet P w1 w2 : tree (nodes w1) -> frames [] w1 w2 -> kept P w1 w2.
Proof.
  intros T F. split; [eapply frames_mono; [exact F|set_solver]|]. rewrite (frames_tbl _ _ _ _ F) by set_solver.
  split; [done|apply changed_refl].
Qed.
Lemma wp_mark_target state w1 : untouched w1 ->
  wp (markTargetSyncState s target state) (fun _ w2 => kept (eq (vn_Path target)) w1 w2) w1.
Proof.
  intros F. assert (valid w1) as Hv1 by by apply F. assert (tree (nodes w1)) as Ht1 by by rewrite (untouched_nodes _ _ F).
  assert (target ∈ nodes w1) as Htg1 by by rewrite (untouched_nodes _ _ F).
  unfold markTargetSyncState, withinSyncTx. match goal with |- context [WithinTx ?m] => set (body := m) end.
  assert (wp body (fun _ w2 => kept (eq (vn_Path target)) w1 w2) w1) as Hbody.
  { apply wp_bind, wp_time_now. set (w1' := { w1 with w_reads ::= S }). assert (frames [] w1 w1') as F1 by apply tick_frames.
    assert (forall w2, kept (eq (vn_Path target)) w1' w2 -> kept (eq (vn_Path target)) w1 w2) as Hfrom.
    { intros w2 K. eapply kept_trans; [by apply kept_quiet|exact K]. }
    apply wp_map_err. match goal with |- context [VFSNodeRepository_Update ?n] => set (node := n) end.
    assert (alike node target) as (Ei & Ep & Epar & En & Ek & Ed) by by unfold node; destruct (_ || _).
    apply (wp_update_row node target (eq (vn_Path target))); [by apply F1|done|done|done|done|done|done|done| | | |].
    - by apply (fits_same _ target).
    - unfold metadataVFSNodeIsDirectory. by rewrite Ek.
    - intros e w2 Hs. by apply Hfrom, kept_same.
    - intros w2 K _. by apply Hfrom. }
  destruct (sy_transactor s); [|exact Hbody].
  apply wp_transaction; [apply normalize_db_error|]. eapply wp_mono; [exact Hbody|]. intros res w2 K.
  assert (forall w3, (forall t, tbl t w3 = tbl t w1) -> w_clock w3 = w_clock w2 -> w_reads w3 = w_reads w2 -> kept (eq (vn_Path target)) w1 w3) as Hback.
  { intros w3 E Ec Er. apply kept_quiet; [done|]. destruct K as ((_ & _ & Kc & Kr) & _).
    split_and!; [done| |congruence|lia]. intros _ t. rewrite E. apply Hv1. }
  destruct res as [[]|e]; [split; [|intros e]|]; [intros w3 Hs; eapply kept_trans; [exact K|]; apply kept_same; [apply K|done]|..];
    intros w3 E Ec Er; try intros _; by apply Hback.
Qed.
Lemma wp_unavailable err (Q : result GoErr unit -> SyncRun -> Prop) run : untouched (world run) ->
  (forall e run', refresh_post (Err e) run' -> Q (Err e) run') -> wp (unavailable s target err) Q run.
Proof.
  intros F Hk. assert (forall e run', kept (eq (vn_Path target)) (world run) (world run') -> refresh_post (Err e) run') as Hpost.
  { intros e run' K. apply (failed_target e run' (world run)); [done|by apply step_of_kept|].
    destruct K as (Fk & _). apply (frames_tbl _ _ _ _ Fk). set_solver. }
  apply wp_bind_or, wp_on_sync. eapply wp_mono; [by apply wp_mark_target|]. intros [[]|e] w2 K.
  - apply wp_bind, wp_note, wp_throw, Hk, Hpost. exact K.
  - apply wp_sync_failed, Hk, Hpost. exact K.
Qed.

Lemma build_within t src : within [] (buildRemoteListRequest s t src).
Proof.
  unfold buildRemoteListRequest, findMountForSyncTarget, VFSMountRepository_FindByID, VFSMountRepository_FindByNodeID. frame_tac.
Qed.
Lemma find_source_within id : within [] (normalized (SourceRepository_FindByID id)).
Proof. unfold normalized, SourceRepository_FindByID. frame_tac. Qed.

Lemma source_found id w1 : wp (normalized (SourceRepository_FindByID id))
  (fun res _ => match res with Ok source => source ∈ tbl TSource w1 /\ src_ID source = id | Err _ => True end) w1.
Proof.
  apply wp_map_err. unfold SourceRepository_FindByID. apply (wp_first TSource); [done|done|].
  intros r w2 _ Hin Hid _. split; [done|]. by apply N.eqb_eq in Hid.
Qed.
Lemma refreshed_from entries now w1 w2 w' : tbl TNode w2 = tbl TNode w1 -> refreshed target entries now w1 w' -> refreshed target entries now w2 w'.
Proof. intros E. unfold refreshed, mirrored, indexed_as. by rewrite E. Qed.
Lemma wp_apply_remote source req entries (Q : result GoErr unit -> SyncRun -> Prop) run :
  untouched (world run) -> conflicts run = 0%Z -> seen run = 0%Z -> metadataVFSNodeIsDirectory target = true ->
  Forall (fitting (nodes w) target entries) entries ->
  (forall e run', refresh_post (Err e) run' -> Q (Err e) run') ->
  (forall run', valid (world run') -> tree (nodes (world run')) -> changed (near target) (nodes w) (nodes (world run')) ->
     (0 <= conflicts run')%Z ->
     (conflicts run' = 0%Z -> exists now, refreshed target entries now w (world run') /\ seen run' = Z.of_nat (length entries)) ->
     Q (Ok tt) run') ->
  wp (applyRemoteEntries s target source req entries) Q run.
Proof.
  intros F Ec Es Dtg Hfit Herr Hk. unfold applyRemoteEntries. apply wp_bind, wp_on_sync, wp_time_now.
  set (w1 := { (world run) with w_reads ::= S }). assert (untouched w1) as F1 by (eapply frames_trans; [exact F|apply tick_frames]).
  set (now := the_time (world run)).
  assert (tbl TNode w1 = tbl TNode w) as En by by apply untouched_nodes.
  assert (valid w1) as Hv1 by by apply F1.
  assert (forall w2, step (near target) w1 w2 -> valid w2 /\ tree (nodes w2) /\ changed (near target) (nodes w) (nodes w2)) as Hstep.
  { intros w2 (F2 & T2 & C2 & _). rewrite En in C2. split_and!; [by apply F2|done|done]. }
  apply wp_within_run; [exact Hv1| |].
  - apply (wp_apply_all target source req entries now w1); [done|by rewrite En|by rewrite En|done|done|by rewrite En|done|done|done|done|..].
    + intros e run2 Hs. split; [apply Hs|]. intros Htx. apply Herr. destruct (Hstep _ Hs) as (? & ? & ?). split_and!; [done..|congruence].
    + intros run2 Hs Hc Hzero. split; [apply Hs|]. intros w3 Hs3.
      assert (step (near target) w1 w3) as Hs13 by (eapply step_trans; [exact Hs|apply step_same; [apply Hs|done]]).
      destruct (Hstep _ Hs13) as (? & ? & ?). apply Hk; [done..|]. intros E. destruct (Hzero E) as [Hr Eseen]. exists now. split; [|done].
      apply (refreshed_from _ _ w1); [done|]. cbn. destruct Hr as (Hval & Hnd & Hm & Hmiss).
      split_and!; [done|done| |].
      * eapply Forall_impl; [exact Hm|]. intros e Hme. eapply (mirrored_step _ _ nowhere); [by apply step_same; [apply Hs|]|by intros []|done].
      * intros c Hcin Hcc Hnot. specialize (Hmiss c Hcin Hcc Hnot). destruct (control_kind c); [by rewrite (proj1 Hs3)|].
        eapply (went_missing_step _ nowhere); [by apply step_same; [apply Hs|]|by intros []|done].
  - intros e run2 _ F2. apply Herr, failed_untouched. eapply frames_trans; [exact F1|]. eapply frames_mono; [exact F2|set_solver].
Qed.

(** A listing that fits the tree. *)
Definition listings_fit : Prop := forall source req entries,
  listing source req entries -> Forall (fitting (nodes w) target entries) entries.
Lemma wp_refresh_node {RIL : RemoteIndexersLaws} : listings_fit ->
  wp (refresh_node s target) refresh_post {| sr_world := w; sr_result := started target |}.
Proof.
  intros Hlist. assert (forall e run', untouched (world run') -> refresh_post (Err e) run') as Hfail by apply failed_untouched.
  assert (forall w1 w2, untouched w1 -> frames [] w1 w2 -> untouched w2) as Hread.
  { intros w1 w2 F F2. eapply frames_trans; [exact F|]. eapply frames_mono; [exact F2|set_solver]. }
  assert (untouched w) as F0 by apply frames_refl.
  unfold refresh_node. destruct (negb _); [by apply wp_sync_failed, Hfail|].
  rewrite Ltg.
  destruct (metadataVFSNodeIsDirectory target) eqn:Dtg; cbn [negb]; [|by apply wp_sync_failed, Hfail].
  destruct (vn_SourceID target) as [sourceID|] eqn:Esid; [|by apply wp_sync_failed, Hfail].
  apply wp_bind, wp_counted. eapply wp_mono; [apply wp_conj; [apply find_source_within|apply source_found]|].
  intros [source|e] w1 [F1 Hsrc]; [|by apply Hfail, (Hread w)]. destruct Hsrc as [Hsin Hsid].
  destruct (negb _); [by apply wp_unavailable; [apply (Hread w)|]|].
  apply wp_bind, wp_counted, wp_equation. intros built w2 Ebuilt. cbn in Ebuilt.
  assert (frames [] w1 w2) as F2 by (pose proof (build_within target source w1) as Fb; unfold wp in Fb; by rewrite Ebuilt in Fb).
  destruct built as [req|e]; [|by apply Hfail, (Hread w1); [apply (Hread w)|]].
  assert (untouched w2) as Fw2 by (apply (Hread w1); [by apply (Hread w)|done]).
  apply wp_bind_or, wp_on_sync, wp_equation. intros res w3 Elist. cbn in Elist.
  assert (untouched w3) as F3.
  { eapply frames_trans; [exact Fw2|]. pose proof (list_remote_law (src_DriverType source) source req w2) as HL. unfold wp in HL.
    rewrite Elist in HL. exact HL. }
  destruct res as [entries|err]; [|by apply wp_unavailable].
  assert (listing source req entries) as Hl by (split_and!; [done|by rewrite Esid, Hsid|by exists w1, w2, w3]).
  apply wp_bind, wp_apply_remote; [done|done|done|done|by apply (Hlist source req)|done|].
  intros run' Hv' Ht' Hc' Hpos Hzero. apply wp_bind, wp_gets. destruct (Z.ltb_spec 0 (conflicts run')).
  - apply wp_bind, wp_note, wp_throw. by split_and!.
  - apply wp_ret. split_and!; [done..|]. destruct Hzero as (now & Hr & Es); [lia|].
    by exists source, req, entries, now.
Qed.
End Target.
End Refresh.
