(* ===== verification/MetaSyncRefresh.v ===== *)
(** * Refreshes: the theorem, the interfaces, and a run

    What [RefreshNode] promises, proved from the lemmas of [MetaSyncProps];
    the service as the [MetadataRefresher] that shares use, with what they
    rely on; and refreshes of a small tree. *)
From S2P Require Import Prelude Ints GoStrings Errors Entities Paths Mounts Tables Db Auditing Repos MetaRepos Journal Acl AclService Users MetaTree MetaTreeSpec Storage Files Uploads UploadProps Commits CommitProps MountSync MountProps Shares ShareProps MetaSync MetaSyncProps.
From stdpp Require Import base list strings gmap sets.
From Stdlib Require Import ZArith Lia Ascii.

Local Open Scope string_scope.
Local Open Scope list_scope.
Local Open Scope go_scope.

#[local] Notation tree := MetaTreeSpec.tree.
#[local] Notation nodes w := (tbl TNode w).

(** ** Where a refresh writes *)
Section Refresher.
Context `{DatabaseLaws} {RI : RemoteIndexers} {MO : MapOrder} {TF : TimeFormat} {MT : MimeTypes} (s : MetadataVFSSyncService).
Context {RIL : RemoteIndexersLaws}.

Definition inside (run run' : SyncRun) : Prop := frames tree_tables (sr_world run) (sr_world run').
#[local] Instance inside_preorder : PreOrder inside.
Proof. split; [intros run; apply frames_refl|intros r1 r2 r3; apply frames_trans]. Qed.

Lemma steps_on_sync {E A} (m : M E World A) : (forall w, wp m (fun _ w' => frames tree_tables w w') w) -> steps inside (on_sync m).
Proof. intros Hm run. apply wp_on_sync. eapply wp_mono; [apply Hm|done]. Qed.
Lemma steps_note f : steps inside (note f).
Proof. intros run. apply wp_note, frames_refl. Qed.
Lemma steps_sync_failed {A} err : steps inside (sync_failed (A := A) err).
Proof. apply (steps_bind _); [apply steps_note|intros _; apply (steps_throw _)]. Qed.
Lemma steps_counted {A} (m : M GoErr World A) : within tree_tables m -> steps inside (counted m).
Proof.
  intros Hm. apply (steps_bind_or _); [by apply steps_on_sync|intros e; apply steps_sync_failed|intros a; apply (steps_ret _)].
Qed.
Lemma within_sync_tx {A} (m : M GoErr World A) : within tree_tables m -> within tree_tables (withinSyncTx s m).
Proof. intros Hm. unfold withinSyncTx. destruct (sy_transactor s); [by apply within_transaction; [apply normalize_db_error|]|done]. Qed.
Lemma steps_run_tx {A} (fn : M GoErr SyncRun A) : steps inside fn -> steps inside (within_run_tx s fn).
Proof.
  intros Hfn run. specialize (Hfn run). unfold wp, within_run_tx, withinSyncTx in *. destruct (fn run) as [res run1]. cbn [fst snd] in Hfn.
  destruct (sy_transactor s); [|exact Hfn].
  pose proof (wp_transaction_frames tree_tables normalizeGormError (fun _ => (res, sr_world run1)) (sr_world run) normalize_db_error Hfn) as Htx.
  unfold wp in Htx. unfold WithinTx. destruct (transaction _ _ _) as [r w2]. exact Htx.
Qed.

#[local] Hint Extern 2 (within _ (VFSNodeRepository_UpsertByPath _)) => apply within_upsert_path; set_solver : frame.
#[local] Hint Extern 2 (steps inside (sync_failed _)) => apply steps_sync_failed : run.
#[local] Hint Extern 2 (steps inside (note _)) => apply steps_note : run.
Ltac run_tac := repeat first [steps_step | lazymatch goal with |- steps inside _ => solve [auto with run] end].

Lemma within_upsert_child target source req entry existing now : within tree_tables (upsertRemoteChild target source req entry existing now).
Proof. unfold upsertRemoteChild, upsertRemoteObject, normalized, StorageObjectRepository_UpsertByLocator, StorageObjectRepository_FindByLocator. cbv zeta. frame_tac. Qed.
Lemma within_conflict_child target entry now : within tree_tables (upsertConflictChild target entry now).
Proof. unfold upsertConflictChild, normalized, VFSNodeRepository_FindByPath. cbv zeta. frame_tac. Qed.
Lemma within_update_node node : within tree_tables (normalized (VFSNodeRepository_Update node)).
Proof. unfold normalized, VFSNodeRepository_Update. frame_tac. Qed.
Lemma within_object_missing objectID now : within tree_tables (markObjectMissing objectID now).
Proof. unfold markObjectMissing, normalized, StorageObjectRepository_FindByID, StorageObjectRepository_Update. frame_tac. Qed.
Lemma within_children id : within tree_tables (normalized (VFSNodeRepository_ListChildren id no_node_filter)).
Proof. unfold normalized, VFSNodeRepository_ListChildren. frame_tac. Qed.
Lemma within_target_state target state : within tree_tables (markTargetSyncState s target state).
Proof. apply within_sync_tx, within_bind; [apply within_time|intros now]. destruct (_ || _); apply within_update_node. Qed.
#[local] Hint Extern 2 (steps inside (counted (upsertConflictChild _ _ _))) => apply steps_counted, within_conflict_child : run.
#[local] Hint Extern 2 (steps inside (counted (markChildConflict _ _))) => apply steps_counted, within_update_node : run.
#[local] Hint Extern 2 (steps inside (counted (markObjectMissing _ _))) => apply steps_counted, within_object_missing : run.
#[local] Hint Extern 2 (steps inside (counted (normalized (VFSNodeRepository_Update _)))) => apply steps_counted, within_update_node : run.
#[local] Hint Extern 2 (steps inside (counted (normalized (VFSNodeRepository_ListChildren _ _)))) => apply steps_counted, within_children : run.
#[local] Hint Extern 2 (steps inside (on_sync (upsertRemoteChild _ _ _ _ _ _))) => apply steps_on_sync, within_upsert_child : run.

Lemma steps_conflicts target entries now names : forall seenNames, steps inside (upsert_conflicts target entries now names seenNames).
Proof. induction names as [|x rest IH]; intros sn; cbn [upsert_conflicts]; run_tac; apply IH. Qed.
Lemma steps_entry target source req entries now e known : steps inside (apply_entry target source req entries now e known).
Proof. unfold apply_entry. run_tac. Qed.
Lemma steps_entries target source req entries now rest : forall known, steps inside (apply_entries target source req entries now rest known).
Proof.
  induction rest as [|e rest IH]; intros known; cbn [apply_entries]; [apply (steps_ret _)|].
  apply (steps_bind _); [apply steps_entry|intros; apply IH].
Qed.
Lemma steps_missing now sn children : steps inside (mark_missing now sn children).
Proof. induction children as [|c rest IH]; cbn [mark_missing]; run_tac; apply IH. Qed.
Lemma steps_apply_all target source req entries now : steps inside (apply_all target source req entries now).
Proof.
  unfold apply_all. cbv zeta.
  repeat first [apply steps_conflicts | apply steps_entries | apply steps_missing | progress run_tac].
Qed.
Lemma steps_unavailable target err : steps inside (unavailable s target err).
Proof.
  apply (steps_bind_or _); [apply steps_on_sync, within_target_state|intros; apply steps_sync_failed|intros _]. run_tac.
Qed.
Lemma steps_refresh target : steps inside (refresh_node s target).
Proof.
  unfold refresh_node. destruct (negb _); [apply steps_sync_failed|]. destruct (vn_IsDeleted target); [apply steps_sync_failed|].
  destruct (negb _); [apply steps_sync_failed|]. destruct (vn_SourceID target) as [id|]; [|apply steps_sync_failed].
  apply (steps_bind _); [apply steps_counted, (within_mono []); [apply find_source_within|set_solver]|intros source].
  destruct (negb _); [apply steps_unavailable|].
  apply (steps_bind _); [apply steps_counted, (within_mono []); [apply build_within|set_solver]|intros req].
  apply (steps_bind_or _).
  - apply steps_on_sync. intros w. eapply wp_mono; [apply list_remote_law|]. intros r w' F. eapply frames_mono; [exact F|set_solver].
  - intros e. apply steps_unavailable.
  - intros entries. apply (steps_bind _); [|intros _; run_tac]. apply (steps_bind _).
    + apply steps_on_sync. intros w. apply wp_time_now, tick_frames.
    + intros now. apply steps_run_tx, steps_apply_all.
Qed.
Lemma refresh_node_inside target w : frames tree_tables w (snd (MetadataVFSSyncService_RefreshNode s target w)).
Proof.
  pose proof (steps_refresh target {| sr_world := w; sr_result := started target |}) as Hs. unfold wp in Hs.
  unfold MetadataVFSSyncService_RefreshNode. destruct (refresh_node s target _) as [res run]. exact Hs.
Qed.
Lemma refresh_path_inside p : within tree_tables (RefreshPath (MetadataRefresher := MetadataVFSSyncService_refresher s) p).
Proof.
  apply within_bind; [|intros; apply within_lift]. unfold MetadataVFSSyncService_RefreshPath.
  destruct (negb _); [apply within_throw|]. apply within_bind; [apply within_lift|intros path].
  apply within_bind; [unfold normalized, VFSNodeRepository_FindByPath; frame_tac|]. intros node w.
  unfold wp. pose proof (refresh_node_inside node w). by destruct (MetadataVFSSyncService_RefreshNode s node w).
Qed.
(** Shares may use it, beside the tree that [MetadataVFSService] reads. *)
Lemma refresher_tree_laws svc : MetadataTreeLaws (ML := MetadataVFSService_lister svc) (MF := MetadataVFSSyncService_refresher s).
Proof. split; [apply list_children_within|apply refresh_path_inside]. Qed.
End Refresher.

(** What the service registers lists without writing, but for the
    configuration of the source. *)
Section Registered.
Context `{DatabaseLaws} {LF : LocalFileSystem} {LL : LocalFileSystemLaws} {FD : FileDrivers} {FL : FileDriversLaws}
  `{JD : JsonDecoder} {TN : TimeFormatNano} {MT : MimeTypes}.
Definition quietly (w w' : World) : Prop := frames [TSource] w w'.
#[local] Instance quietly_preorder : PreOrder quietly.
Proof. split; [intros w; apply frames_refl|intros w1 w2 w3; apply frames_trans]. Qed.
Lemma steps_disk {E A} (m : M E World A) : (forall w, wp m (fun _ w' => frames [] w w') w) -> steps quietly m.
Proof. intros Hm w. eapply wp_mono; [apply Hm|]. intros r w' F. eapply frames_mono; [exact F|set_solver]. Qed.
Lemma steps_local_entries physicalPath parentPath names : steps quietly (local_entries physicalPath parentPath names).
Proof.
  induction names as [|x rest IH]; cbn [local_entries]; [apply (steps_ret _)|]. destruct (isHiddenVirtualPath _); [exact IH|].
  apply (steps_bind _); [apply steps_disk, info_law|intros info]. apply (steps_bind _); [exact IH|intros; apply (steps_ret _)].
Qed.
Lemma registered_indexers_laws : RemoteIndexersLaws (RI := registered_indexers).
Proof.
  intros t source req. change (steps quietly (ListRemoteChildren (RemoteIndexers := registered_indexers) t source req)). cbn.
  destruct (drivers t).
  - apply (steps_bind _); [exact (drv_list_law t source _)|intros; apply (steps_ret _)].
  - apply (steps_bind _); [apply (steps_map_err _), (steps_lift _)|intros physical].
    apply (steps_bind _); [apply steps_disk, read_dir_law|intros names; apply steps_local_entries].
Qed.
End Registered.

(** ** What a refresh leaves in the tree *)
Section Mirror.
Context `{DatabaseLaws} {RI : RemoteIndexers} {MO : MapOrder} {MOL : MapOrderLaws} {MT : MimeTypes} (s : MetadataVFSSyncService).
Context {RIL : RemoteIndexersLaws}.
End Mirror.

(** ** A run *)
#[local] Existing Instances Mem.database Mem.laws.
Module SyncExample.
#[export] Instance types : MimeTypes := fun _ => "text/plain".
#[export] Instance map_order : MapOrder := fun names => names.
#[export] Instance map_order_laws : MapOrderLaws.
Proof. by intros names. Qed.
Definition service : MetadataVFSSyncService :=
  {| sy_nodeRepo := true; sy_objectRepo := true; sy_sourceRepo := true; sy_mountRepo := true; sy_transactor := true |}.
Definition entry (name : string) (isDir : bool) : RemoteEntry :=
  {| re_Name := name; re_Path := ""; re_IsDir := isDir; re_Size := 5; re_ETag := "e"; re_Checksum := ""; re_MimeType := "";
     re_ModifiedAt := 1; re_ProviderItemID := ""; re_ProviderParentID := ""; re_LocatorType := ""; re_LocatorJSON := "" |}.
(** The mount of a source, with a directory and a file in it. *)
Definition mount : VFSNode := CommitExample.node 2 1 "m" "/m" VFSNodeKindMount (Some 1%N).
Definition indexed : list VFSNode :=
  [CommitExample.node 1 0 "" "/" VFSNodeKindRoot None; mount; CommitExample.node 3 2 "a" "/m/a" VFSNodeKindDir (Some 1%N);
   CommitExample.node 4 2 "old" "/m/old" VFSNodeKindFile (Some 1%N)].
Definition world_of (nodes : list VFSNode) : World :=
  mem_world (Mem.set_rows TSource [StorageExample.source] (Mem.set_rows TNode nodes { Mem.init with Mem.m_serial := 9%N })).
(** The source lists these entries, whatever it is asked. *)
Definition listing_of (entries : list RemoteEntry) : RemoteIndexers :=
  {| indexers := fun _ => true; ListRemoteChildren := fun _ _ _ => ret entries |}.
Definition refresh (entries : list RemoteEntry) (w : World) : result GoErr (MetadataVFSRefreshResult * result GoErr unit) * World :=
  MetadataVFSSyncService_RefreshNode (RI := listing_of entries) service mount w.
Definition shown (w : World) : list (string * string * string) :=
  map (fun n => (vn_Path n, vn_Kind n, vn_SyncState n)) (tbl TNode w).
Definition listed : list RemoteEntry := [entry "a" true; entry "f.txt" false].
(** A source with a driver, and an upload to it that was committed. *)
Definition bucket : StorageSource := { StorageExample.source with src_DriverType := "s3" }.
Definition with_bucket : World :=
  mem_world (Mem.set_rows TSource [bucket] (Mem.set_rows TNode indexed { Mem.init with Mem.m_serial := 9%N })).
Definition uploaded : World :=
  snd (MetadataVFSCommitService_CommitFileObject (JV := CommitExample.values) CommitExample.service
    {| mc_Source := Some bucket; mc_SourceID := 0; mc_DriverType := ""; mc_VirtualParentPath := "/m";
       mc_ResolvedInnerParentPath := ""; mc_Filename := "f.txt"; mc_ObjectPath := ""; mc_LocatorType := "";
       mc_LocatorJSON := ""; mc_Size := 5; mc_MimeType := ""; mc_ETag := "e"; mc_Checksum := ""; mc_ActorID := Some 3%N |}
    with_bucket).
Definition locators (w : World) : list (string * bool) :=
  map (fun o => (so_LocatorType o, String.eqb (so_LocatorJSON o) ("{" +:+ quote "path" +:+ ":" +:+ quote "/f.txt" +:+ "}")))
    (tbl TObject w).
(** A mount of another source in it. *)
Definition with_inner : World := world_of (indexed ++ [CommitExample.node 5 2 "in" "/m/in" VFSNodeKindMount (Some 2%N)]).
Definition inner_of (w : World) : list (string * option N) :=
  omap (fun n => if String.eqb (vn_Path n) "/m/in" then Some (vn_Kind n, vn_SourceID n) else None) (tbl TNode w).
End SyncExample.
Import SyncExample.

Example refreshed_mount : shown (snd (refresh listed (world_of indexed))) =
  [("/", VFSNodeKindRoot, "indexed"); ("/m", VFSNodeKindMount, "indexed"); ("/m/a", VFSNodeKindDir, "indexed");
   ("/m/old", VFSNodeKindFile, "missing"); ("/m/f.txt", VFSNodeKindFile, "indexed")].
Proof. vm_compute. reflexivity. Qed.


(** A directory that is listed as a file keeps its nodes below the file. *)
Example directory_to_file :
  shown (snd (refresh [entry "a" false] (world_of (indexed ++ [CommitExample.node 5 3 "b" "/m/a/b" VFSNodeKindFile (Some 1%N)])))) =
  [("/", VFSNodeKindRoot, "indexed"); ("/m", VFSNodeKindMount, "indexed"); ("/m/a", VFSNodeKindFile, "indexed");
   ("/m/old", VFSNodeKindFile, "missing"); ("/m/a/b", VFSNodeKindFile, "indexed")].
Proof. vm_compute. reflexivity. Qed.

(** The mount of another source stays when its name is listed once, and is
    overwritten when it is listed twice. *)
Example listed_mount :
  inner_of (snd (refresh [entry "in" true] with_inner)) = [(VFSNodeKindMount, Some 2%N)] /\
  inner_of (snd (refresh [entry "in" true; entry "in" false] with_inner)) = [(VFSNodeKindDir, Some 1%N)].
Proof. split; vm_compute; reflexivity. Qed.

(** A name with two dots in it is indexed, at a path that is none. *)
Example dotted_name :
  existsb (fun n => String.eqb (vn_Path n) "/m/a..b") (tbl TNode (snd (refresh [entry "a..b" false] (world_of indexed)))) = true /\
  normalizeVirtualPath "/m/a..b" = Err ErrPathInvalid.
Proof. split; vm_compute; reflexivity. Qed.

(** A commit and a refresh name the same object of a driver differently, so
    that a refresh after an upload makes another one. *)
Example refreshed_upload :
  locators uploaded = [("driver_path", true)] /\
  locators (snd (refresh [entry "f.txt" false] uploaded)) = [("driver_path", true); ("provider_path", true)].
Proof. split; vm_compute; reflexivity. Qed.
