(* ===== verification/FileService.v ===== *)
(** * Files on sources: the service ([file_service.go])

    Listing, searching, making, renaming, moving, copying and deleting
    files of a source, and handing out their addresses.  Files of local
    sources are on the disk of the host; those of other sources are reached
    through their driver.  A deleted file is moved below [/.trash] of its
    source and recorded, unless it is deleted for good.

    FileProps and FileEffects say what the requests do to the disk. *)
From S2P Require Import Prelude Ints GoStrings Errors Entities Paths Mounts Permission Tables Db Auditing Repos MetaRepos Journal Acl AclService Users Auth MetaTree Storage Files Uploads MountSync Shares Walks.
From stdpp Require Import base list strings gmap pretty.
From Stdlib Require Import ZArith Lia Ascii.

Local Open Scope string_scope.
Local Open Scope list_scope.
Local Open Scope go_scope.

(** ** [file_dto.go] *)
Record FileListQuery := { fq_SourceID : N; fq_Path : string; fq_Page : Z; fq_PageSize : Z; fq_SortBy : string; fq_SortOrder : string }.
Record FileListResponse := { fl_Items : list FileItem; fl_CurrentPath : string; fl_CurrentSourceID : N }.
Record FileSearchQuery := { sq_SourceID : N; sq_Keyword : string; sq_PathPrefix : string; sq_Page : Z; sq_PageSize : Z }.
Record FileSearchResponse := {
  sr_Items : list FileItem; sr_Keyword : string; sr_CurrentSourceID : N; sr_PathPrefix : option string
}.
Record MkdirRequest := { mk_SourceID : N; mk_ParentPath : string; mk_Name : string }.
Record RenameRequest := { rq_SourceID : N; rq_Path : string; rq_NewName : string }.
Record MoveCopyRequest := { mv_SourceID : N; mv_Path : string; mv_TargetPath : string }.
Record DeleteFileRequest := { dq_SourceID : N; dq_Path : string; dq_DeleteMode : string }.
Record AccessURLRequest := {
  au_SourceID : N; au_Path : string; au_Purpose : string; au_Disposition : string; au_ExpiresIn : Z
}.
Record AccessURLResponse := { ar_URL : string; ar_Method : string; ar_ExpiresAt : string }.

(** ** What drivers do with files ([domain/storage/driver.go]) *)
Section Interfaces.
Context `{Database}.
Class FileDriverOps := {
  drv_SearchByName : string -> StorageSource -> string -> string -> M FileErr World (list StorageEntry);
  drv_Mkdir : string -> StorageSource -> string -> string -> M FileErr World StorageEntry;
  drv_Rename : string -> StorageSource -> string -> string -> M FileErr World StorageEntry;
  drv_Move : string -> StorageSource -> string -> string -> M FileErr World unit;
  drv_Copy : string -> StorageSource -> string -> string -> M FileErr World unit;
  drv_Delete : string -> StorageSource -> string -> M FileErr World unit;
  drv_PresignDownload : string -> StorageSource -> string -> string -> Z -> M FileErr World string
}.
(** What they can do, where they say so. *)
Class CapabilityProviders := drv_Capabilities : string -> StorageSource -> M GoErr World (option StorageCapabilities).
Class ObjectReaders := {
  objectReaders : string -> bool;
  PresignObjectDownload : string -> StorageSource -> StorageObject -> string -> Z -> M FileErr World string
}.
End Interfaces.
(** [Format] with the layout 20060102-150405. *)
Class TrashStamp := trash_stamp : Z -> string.

(** ** Helpers *)

(** The path of an entry of a directory. *)
Definition child_virtual (parent name : string) : string :=
  if String.eqb parent "/" then "/" +:+ name else path_join parent name.
Definition mimeFromName `{MimeTypes} (name : string) : string := mime_of (to_lower (path_ext name)).
Definition normalizeObjectReadError (err : FileErr) : GoErr :=
  match err with
  | FileNotExist => ErrFileNotFound
  | FileInvalid => ErrFileIsDirectory
  | _ => file_error err
  end.
(** Errors of a driver that writes; what is in the way has its own error. *)
Definition drv_write_error (conflict : GoErr) (err : FileErr) : GoErr :=
  match err with
  | FileNotExist => ErrFileNotFound
  | FileExist => conflict
  | FileInvalid => ErrPathInvalid
  | FileErrOther e => e
  end.
(** Errors of a driver that deletes. *)
Definition drv_delete_error (err : FileErr) : GoErr :=
  match err with FileNotExist => ErrFileNotFound | FileInvalid => ErrPathInvalid | _ => file_error err end.
Definition drv_missing_error (err : FileErr) : GoErr :=
  match err with FileNotExist => ErrFileNotFound | _ => file_error err end.

Definition storageObjectLocatorString `{JsonMapDecoder} (locatorJSON key : string) : option string :=
  match json_map locatorJSON with
  | None => None
  | Some payload =>
      match List.find (fun m => String.eqb (fst m) key) payload with
      | Some (_, JStr value) => if String.eqb (trim_space value) "" then None else Some (trim_space value)
      | _ => None
      end
  end.
Definition storageObjectLocatorPath `{JsonMapDecoder} (object : StorageObject) : string :=
  let locatorType := trim_space (so_LocatorType object) in
  if String.eqb locatorType "local_path" || String.eqb locatorType "driver_path" || String.eqb locatorType "provider_path"
  then default "" (storageObjectLocatorString (so_LocatorJSON object) "path")
  else "".
Definition storageObjectInnerPath `{JsonMapDecoder} (source : StorageSource) (node : VFSNode) (object : StorageObject)
    : result GoErr string :=
  let locatorPath := storageObjectLocatorPath object in
  if negb (String.eqb locatorPath "") then normalizeVirtualPath locatorPath
  else
    let below_mount :=
      if String.eqb (trim_space (src_MountPath source)) "" then None
      else match normalizeMountPath (src_MountPath source) with
           | Err _ => None
           | Ok mountPath => if isSubPath mountPath (vn_Path node) then Some mountPath else None
           end in
    match below_mount with
    | Some mountPath =>
        let inner := trim_prefix (vn_Path node) mountPath in
        let inner := if String.eqb inner "" then "/" else inner in
        normalizeVirtualPath (if negb (has_prefix inner "/") then "/" +:+ inner else inner)
    | None => normalizeVirtualPath (vn_Path node)
    end.

(** The directory of the trash an entry is moved to, and its path there. *)
Definition buildTrashPaths `{TrashStamp} (virtualPath : string) (deletedAt : Z) : string * string :=
  let trimmed := trim_prefix virtualPath "/" in
  let parentRelative := path_dir trimmed in
  let trashParent := path_join "/.trash" (trash_stamp deletedAt) in
  let trashParent :=
    if negb (String.eqb parentRelative ".") && negb (String.eqb parentRelative "/")
    then path_join trashParent parentRelative else trashParent in
  let trashVirtual :=
    if String.eqb trashParent "/" then "/" +:+ path_base virtualPath else path_join trashParent (path_base virtualPath) in
  (trashParent, trashVirtual).
Definition trash_days : Z := 30 * 24 * 60 * minute.

(** [url.Values.Encode] sorts by key. *)
Definition file_download_url (sourceID : N) (path disposition fileToken : string) : string :=
  "/api/v1/files/download?access_token=" +:+ query_escape fileToken +:+ "&disposition=" +:+ query_escape disposition +:+
  "&path=" +:+ query_escape path +:+ "&source_id=" +:+ query_escape (pretty sourceID).

(** ** [trash_item_repo_impl.go] *)
Section TrashRepository.
Context `{Database}.
Definition trash_order : Order TrashItem := ord_then (ord_desc ti_DeletedAt) (ord_desc (fun i => Z.of_N (ti_ID i))).
Definition TrashItemRepository_Create (item : TrashItem) : M GoErr World TrashItem := stmt (db_insert TTrash item).
Definition TrashItemRepository_FindByID (id : N) : M GoErr World TrashItem :=
  first TTrash (fun i => N.eqb (ti_ID i) id) ord_any.
Definition TrashItemRepository_ListBySourceID (sourceID : N) : M GoErr World (list TrashItem) :=
  stmt (db_select TTrash (fun i => N.eqb (ti_SourceID i) sourceID) trash_order None).
Definition TrashItemRepository_Delete (id : N) : M GoErr World unit :=
  must_affect (stmt (db_delete TTrash (fun i => N.eqb (ti_ID i) id))).
End TrashRepository.

(** ** The service *)
Record FileService := {
  fs_aclAuthorizer : option ACLAuthorizer; fs_metadataReader : bool; fs_storageObjectRepo : bool; fs_trashItemRepo : bool;
  fs_auditRecorder : bool; fs_fileAccessSecret : string; fs_authTokens : JWTTokenService
}.
(** An open file, by its physical path. *)
Record OpenFile := { of_Path : string; of_Info : FileInfo; of_MIMEType : string }.
Record VFSObjectDownload := { od_RedirectURL : string; od_File : option OpenFile; od_SourceID : N; od_InnerPath : string }.

Section Service.
Context `{MR : MetadataReader} `{TF : TimeFormat} `{TN : TimeFormatNano} `{JD : JsonDecoder} `{JM : JsonMapDecoder} `{MT : MimeTypes}
  `{JL : JwtLibrary FileAccessClaims} {UL : UuidLibrary} {FD : FileDrivers} {FO : FileDriverOps} {CP : CapabilityProviders}
  {OR : ObjectReaders} {PL : PathLimit} {TS : TrashStamp}.
Context (s : FileService).

Definition file_authorizePath (ctx : Ctx) (sourceID : N) (pathValue : string) (action : ACLAction) : M GoErr World unit :=
  match fs_aclAuthorizer s with None => ret tt | Some a => AuthorizePath a ctx sourceID pathValue action end.
Definition filterReadableFileItems (ctx : Ctx) (sourceID : N) (items : list FileItem) : M GoErr World (list FileItem) :=
  match fs_aclAuthorizer s with None => ret items | Some a => FilterFileItems a ctx sourceID items end.
Definition authorizeVirtualNode (ctx : Ctx) (sourceID : N) (node : VFSNode) (action : ACLAction) : M GoErr World unit :=
  match fs_aclAuthorizer s with
  | None => ret tt
  | Some a => AuthorizeVirtualPath a ctx sourceID (vn_Path node) (vn_ID node) action
  end.
Definition canWriteLocalDir (dir : string) : M GoErr Host bool := os (probeLocalDirectoryWritable dir).
(** A call with the error of a service. *)
Definition os_or {A} (f : OsErr -> GoErr) (m : M OsErr Disk A) : M GoErr Host A := map_err f (on_disk m).
(** [if _, err := os.Stat(path); err == nil]: any error means there is
    nothing. *)
Definition stat_exists (path : string) : M GoErr Host bool := _i <-! on_disk (Stat path) or _e => ret false ;; ret true.
(** A driver's call on a world. *)
Definition drv {A} (f : FileErr -> GoErr) (m : M FileErr World A) : M GoErr Host A := map_err f (on_world m).
Definition file_getDriver (driverType : string) : M GoErr Host unit :=
  if drivers driverType then ret tt else throw ErrSourceDriverUnsupported.

(** *** Audited requests *)
Definition file_event (action result code : string) (sourceID : N) (virtualPath : string) : Event :=
  { (event "file" action result code "") with ev_SourceID := Some sourceID; ev_VirtualPath := virtualPath }.
Definition refuse_file {A} (ctx : Ctx) (action result code : string) (sourceID : N) (virtualPath : string) (err : GoErr)
    : M GoErr Host A :=
  on_world (refuse (fs_auditRecorder s) ctx (file_event action result code sourceID virtualPath) err).
Definition file_done (ctx : Ctx) (e : Event) : M GoErr Host unit :=
  on_world (recordServiceAudit ctx (fs_auditRecorder s) e).
(** The source of a request, and whether the request is granted. *)
Definition file_source (ctx : Ctx) (action : string) (sourceID : N) : M GoErr Host StorageSource :=
  source <-! on_world (SourceRepository_FindByID sourceID)
    or err => refuse_file ctx action ResultFailed "SOURCE_NOT_FOUND" sourceID "" err ;;
  ret source.
Definition shown_path (source : StorageSource) (innerPath : string) : string :=
  mergeMountAndInnerPath (src_MountPath source) innerPath.
Definition file_granted (ctx : Ctx) (action : string) (source : StorageSource) (path : string) (wanted : ACLAction)
    : M GoErr Host unit :=
  _u <-! on_world (file_authorizePath ctx (src_ID source) path wanted)
    or err => refuse_file ctx action ResultDenied "ACL_DENIED" (src_ID source) (shown_path source path) err ;;
  ret tt.
(** The work of a request; what failed is recorded, but for a panic, which
    unwinds. *)
Definition file_tried {A} (ctx : Ctx) (action : string) (source : StorageSource) (path : string) (m : M GoErr Host A)
    : M GoErr Host A :=
  a <-! m or err =>
    match err with
    | ErrPanic _ => throw err
    | _ => refuse_file ctx action ResultFailed (mapFileErrorCode err) (src_ID source) (shown_path source path) err
    end ;;
  ret a.
Definition at_virtual (source : StorageSource) (innerPath : string) : list (string * Json) :=
  [("virtual_path", JStr (shown_path source innerPath))].
Definition item_view (source : StorageSource) (item : FileItem) (innerPath : string) : list (string * Json) :=
  [("virtual_path", JStr (shown_path source innerPath)); ("name", JStr (fi_Name item)); ("is_dir", JBool (fi_IsDir item))].
(** [buildFileItem] of what [os.Stat] returned; it has no file info when
    that failed. *)
Definition stat_item (sourceID : N) (virtualPath : string) (info : option FileInfo) : M GoErr Host FileItem :=
  match info with
  | Some info => ret (buildFileItem sourceID virtualPath info)
  | None => throw (ErrPanic "nil pointer dereference")
  end.
Definition stat_or_nil (path : string) : M GoErr Host (option FileInfo) :=
  info <-! on_disk (Stat path) or _e => ret None ;; ret (Some info).

(** *** Making a directory *)
Definition mkdirLocal (source : StorageSource) (req : MkdirRequest) : M GoErr Host FileItem :=
  do! lift_result (validateFileName (mk_Name req)) ;;
  parentPath <-! lift_result (normalizeVirtualPath (mk_ParentPath req)) ;;
  parent <-! lift_result (resolvePhysicalPath source parentPath) ;;
  info <-! on_disk (Stat (snd parent)) or _e => throw ErrFileNotFound ;;
  if negb (fsi_IsDir info) then throw ErrPathInvalid
  else
    writable <-! canWriteLocalDir (snd parent) ;;
    if negb writable then throw ErrSourceReadOnly
    else
      let targetVirtual := child_virtual parentPath (mk_Name req) in
      target <-! lift_result (resolvePhysicalPath source targetVirtual) ;;
      exists_ <-! stat_exists (snd target) ;;
      if (exists_ : bool) then throw ErrFileAlreadyExists
      else
        do! os_or normalizeLocalWriteError (OsMkdir (snd target)) ;;
        targetInfo <-! stat_or_nil (snd target) ;;
        stat_item (src_ID source) targetVirtual targetInfo.
Definition mkdirWithDriver (source : StorageSource) (req : MkdirRequest) : M GoErr Host FileItem :=
  do! file_getDriver (src_DriverType source) ;;
  do! lift_result (validateFileName (mk_Name req)) ;;
  parentPath <-! lift_result (normalizeVirtualPath (mk_ParentPath req)) ;;
  entry <-! drv (drv_write_error ErrFileAlreadyExists) (drv_Mkdir (src_DriverType source) source parentPath (mk_Name req)) ;;
  ret (buildStorageEntryItem (src_ID source) entry).
Definition is_local (source : StorageSource) : bool := String.eqb (src_DriverType source) "local".
Definition FileService_Mkdir (ctx : Ctx) (req : MkdirRequest) : M GoErr Host FileItem :=
  source <-! file_source ctx "mkdir" (mk_SourceID req) ;;
  do! file_granted ctx "mkdir" source (mk_ParentPath req) ACLActionWrite ;;
  item <-! file_tried ctx "mkdir" source (mk_ParentPath req)
             (if is_local source then mkdirLocal source req else mkdirWithDriver source req) ;;
  do! file_done ctx { (file_event "mkdir" ResultSuccess "" (src_ID source) (shown_path source (fi_Path item)))
        with ev_After := item_view source item (fi_Path item) } ;;
  ret item.

(** *** Renaming *)
Definition renameLocal (source : StorageSource) (req : RenameRequest) : M GoErr Host (string * string * FileItem) :=
  do! lift_result (validateFileName (rq_NewName req)) ;;
  virtualPath <-! lift_result (normalizeVirtualPath (rq_Path req)) ;;
  physical <-! lift_result (resolvePhysicalPath source virtualPath) ;;
  _i <-! on_disk (Stat (snd physical)) or _e => throw ErrFileNotFound ;;
  let parentVirtual := shown_parent virtualPath in
  parent <-! lift_result (resolvePhysicalPath source parentVirtual) ;;
  writable <-! canWriteLocalDir (snd parent) ;;
  if negb writable then throw ErrSourceReadOnly
  else
    let newVirtual := child_virtual parentVirtual (rq_NewName req) in
    new <-! lift_result (resolvePhysicalPath source newVirtual) ;;
    exists_ <-! stat_exists (snd new) ;;
    if (exists_ : bool) then throw ErrFileAlreadyExists
    else
      do! os_or normalizeLocalWriteError (OsRename (snd physical) (snd new)) ;;
      info <-! stat_or_nil (snd new) ;;
      item <-! stat_item (src_ID source) newVirtual info ;;
      ret (virtualPath, newVirtual, item).
Definition renameWithDriver (source : StorageSource) (req : RenameRequest) : M GoErr Host (string * string * FileItem) :=
  do! file_getDriver (src_DriverType source) ;;
  do! lift_result (validateFileName (rq_NewName req)) ;;
  virtualPath <-! lift_result (normalizeVirtualPath (rq_Path req)) ;;
  entry <-! drv (drv_write_error ErrFileAlreadyExists) (drv_Rename (src_DriverType source) source virtualPath (rq_NewName req)) ;;
  ret (virtualPath, child_virtual (shown_parent virtualPath) (rq_NewName req), buildStorageEntryItem (src_ID source) entry).
Definition FileService_Rename (ctx : Ctx) (req : RenameRequest) : M GoErr Host (string * string * FileItem) :=
  source <-! file_source ctx "rename" (rq_SourceID req) ;;
  do! file_granted ctx "rename" source (rq_Path req) ACLActionWrite ;;
  renamed <-! file_tried ctx "rename" source (rq_Path req)
                (if is_local source then renameLocal source req else renameWithDriver source req) ;;
  let '(oldPath, newPath, item) := renamed in
  do! file_done ctx { (file_event "rename" ResultSuccess "" (src_ID source) (shown_path source newPath))
        with ev_Before := at_virtual source oldPath; ev_After := item_view source item newPath } ;;
  ret renamed.

(** *** Moving and copying *)
Definition moveLocal (source : StorageSource) (req : MoveCopyRequest) : M GoErr Host (string * string) :=
  virtualPath <-! lift_result (normalizeVirtualPath (mv_Path req)) ;;
  targetPath <-! lift_result (normalizeVirtualPath (mv_TargetPath req)) ;;
  physical <-! lift_result (resolvePhysicalPath source virtualPath) ;;
  info <-! on_disk (Stat (snd physical)) or _e => throw ErrFileNotFound ;;
  parent <-! lift_result (resolvePhysicalPath source (shown_parent virtualPath)) ;;
  writable <-! canWriteLocalDir (snd parent) ;;
  if negb writable then throw ErrSourceReadOnly
  else
    target <-! lift_result (resolvePhysicalPath source targetPath) ;;
    targetInfo <-! on_disk (Stat (snd target)) or _e => throw ErrPathInvalid ;;
    if negb (fsi_IsDir targetInfo) then throw ErrPathInvalid
    else
      writable <-! canWriteLocalDir (snd target) ;;
      if negb writable then throw ErrSourceReadOnly
      else
        let newVirtual := child_virtual targetPath (fsi_Name info) in
        new <-! lift_result (resolvePhysicalPath source newVirtual) ;;
        exists_ <-! stat_exists (snd new) ;;
        if (exists_ : bool) then throw ErrFileMoveConflict
        else
          do! os_or normalizeLocalWriteError (OsRename (snd physical) (snd new)) ;;
          ret (virtualPath, newVirtual).
Definition copyLocal (source : StorageSource) (req : MoveCopyRequest) : M GoErr Host (string * string) :=
  virtualPath <-! lift_result (normalizeVirtualPath (mv_Path req)) ;;
  targetPath <-! lift_result (normalizeVirtualPath (mv_TargetPath req)) ;;
  physical <-! lift_result (resolvePhysicalPath source virtualPath) ;;
  info <-! on_disk (Stat (snd physical)) or _e => throw ErrFileNotFound ;;
  target <-! lift_result (resolvePhysicalPath source targetPath) ;;
  targetInfo <-! on_disk (Stat (snd target)) or _e => throw ErrPathInvalid ;;
  if negb (fsi_IsDir targetInfo) then throw ErrPathInvalid
  else
    writable <-! canWriteLocalDir (snd target) ;;
    if negb writable then throw ErrSourceReadOnly
    else
      let newVirtual := child_virtual targetPath (fsi_Name info) in
      new <-! lift_result (resolvePhysicalPath source newVirtual) ;;
      exists_ <-! stat_exists (snd new) ;;
      if (exists_ : bool) then throw ErrFileCopyConflict
      else
        do! os_or normalizeLocalWriteError
              (if fsi_IsDir info then copyDirectory (snd physical) (snd new) else copyFile (snd physical) (snd new)) ;;
        ret (virtualPath, newVirtual).
Definition drv_transfer (conflict : GoErr) (call : string -> StorageSource -> string -> string -> M FileErr World unit)
    (source : StorageSource) (req : MoveCopyRequest) : M GoErr Host (string * string) :=
  do! file_getDriver (src_DriverType source) ;;
  virtualPath <-! lift_result (normalizeVirtualPath (mv_Path req)) ;;
  targetPath <-! lift_result (normalizeVirtualPath (mv_TargetPath req)) ;;
  do! drv (drv_write_error conflict) (call (src_DriverType source) source virtualPath targetPath) ;;
  ret (virtualPath, child_virtual targetPath (path_base virtualPath)).
Definition moveWithDriver := drv_transfer ErrFileMoveConflict drv_Move.
Definition copyWithDriver := drv_transfer ErrFileCopyConflict drv_Copy.
Definition file_transferred (ctx : Ctx) (action : string) (source : StorageSource) (paths : string * string)
    : M GoErr Host (string * string) :=
  do! file_done ctx { (file_event action ResultSuccess "" (src_ID source) (shown_path source (snd paths)))
        with ev_Before := at_virtual source (fst paths); ev_After := at_virtual source (snd paths) } ;;
  ret paths.
Definition FileService_Move (ctx : Ctx) (req : MoveCopyRequest) : M GoErr Host (string * string) :=
  source <-! file_source ctx "move" (mv_SourceID req) ;;
  do! file_granted ctx "move" source (mv_Path req) ACLActionWrite ;;
  do! file_granted ctx "move" source (mv_TargetPath req) ACLActionWrite ;;
  paths <-! file_tried ctx "move" source (mv_Path req)
              (if is_local source then moveLocal source req else moveWithDriver source req) ;;
  file_transferred ctx "move" source paths.
Definition FileService_Copy (ctx : Ctx) (req : MoveCopyRequest) : M GoErr Host (string * string) :=
  source <-! file_source ctx "copy" (mv_SourceID req) ;;
  do! file_granted ctx "copy" source (mv_Path req) ACLActionRead ;;
  do! file_granted ctx "copy" source (mv_TargetPath req) ACLActionWrite ;;
  paths <-! file_tried ctx "copy" source (mv_Path req)
              (if is_local source then copyLocal source req else copyWithDriver source req) ;;
  file_transferred ctx "copy" source paths.

(** *** Deleting *)
Definition recordTrashItem (source : StorageSource) (originalPath trashPath name : string) (isDir : bool) (size deletedAt : Z)
    : M GoErr World unit :=
  if negb (fs_trashItemRepo s) then ret tt
  else
    let merged := shown_path source originalPath in
    do! TrashItemRepository_Create
          {| ti_ID := 0; ti_SourceID := src_ID source; ti_OriginalPath := originalPath;
             ti_OriginalVirtualPath := if String.eqb merged "" then originalPath else merged; ti_TrashPath := trashPath;
             ti_Name := name; ti_IsDir := isDir; ti_Size := size; ti_DeletedAt := deletedAt;
             ti_ExpiresAt := (deletedAt + trash_days)%Z; ti_CreatedAt := 0; ti_UpdatedAt := 0 |} ;;
    ret tt.
Definition ignored {A} (m : M OsErr Disk A) : M GoErr Host unit := _a <-! on_disk m or _e => ret tt ;; ret tt.
Definition trashLocal (source : StorageSource) (virtualPath physicalPath : string) (info : FileInfo) : M GoErr Host Z :=
  deletedAt <-! on_world time_now ;;
  size <-! os (localEntrySize physicalPath info) ;;
  let trashVirtual := snd (buildTrashPaths virtualPath deletedAt) in
  trash <-! lift_result (resolvePhysicalPath source trashVirtual) ;;
  do! os_or normalizeLocalWriteError (OsMkdirAll (path_dir (snd trash))) ;;
  do! os_or normalizeLocalWriteError (OsRename physicalPath (snd trash)) ;;
  _u <-! on_world (recordTrashItem source virtualPath trashVirtual (fsi_Name info) (fsi_IsDir info) size deletedAt) or err =>
    (do! ignored (OsMkdirAll (path_dir physicalPath)) ;;
     do! ignored (OsRename (snd trash) physicalPath) ;;
     throw err) ;;
  ret deletedAt.
Definition deleteLocal (source : StorageSource) (req : DeleteFileRequest) : M GoErr Host Z :=
  virtualPath <-! lift_result (normalizeVirtualPath (dq_Path req)) ;;
  physical <-! lift_result (resolvePhysicalPath source virtualPath) ;;
  info <-! on_disk (Stat (snd physical)) or _e => throw ErrFileNotFound ;;
  parent <-! lift_result (resolvePhysicalPath source (shown_parent virtualPath)) ;;
  writable <-! canWriteLocalDir (snd parent) ;;
  if negb writable then throw ErrSourceReadOnly
  else if String.eqb (dq_DeleteMode req) "permanent" then
    do! os_or normalizeLocalWriteError (RemoveAll (snd physical)) ;;
    on_world time_now
  else trashLocal source virtualPath (snd physical) info.

Definition ensureDriverDirectory (source : StorageSource) (parentPath name : string) : M GoErr Host unit :=
  _e <-! on_world (drv_Mkdir (src_DriverType source) source parentPath name) or err =>
    (match err with
     | FileExist => ret tt
     | FileInvalid => if String.eqb name ".trash" && String.eqb parentPath "/" then ret tt else throw (file_error err)
     | _ => throw (file_error err)
     end) ;;
  ret tt.
Fixpoint ensure_driver_path (source : StorageSource) (parentPath : string) (segments : list string) : M GoErr Host unit :=
  match segments with
  | [] => ret tt
  | segment :: rest =>
      if String.eqb segment "" then ensure_driver_path source parentPath rest
      else
        do! ensureDriverDirectory source parentPath segment ;;
        let parentPath := path_join parentPath segment in
        ensure_driver_path source (if String.eqb parentPath "." then "/" else parentPath) rest
  end.
Definition ensureDriverPath (source : StorageSource) (targetPath : string) : M GoErr Host unit :=
  targetPath <-! lift_result (normalizeVirtualPath targetPath) ;;
  if String.eqb targetPath "/" then ret tt
  else ensure_driver_path source "/" (split_on slash (trim_prefix targetPath "/")).
Definition moving_back {A} (m : M GoErr Host A) : M GoErr Host unit := _a <-! m or _e => ret tt ;; ret tt.
Definition trashWithDriver (source : StorageSource) (virtualPath : string) : M GoErr Host Z :=
  let t := src_DriverType source in
  entry <-! drv drv_missing_error (drv_Stat t source virtualPath) ;;
  deletedAt <-! on_world time_now ;;
  let '(trashParent, trashVirtual) := buildTrashPaths virtualPath deletedAt in
  do! ensureDriverPath source trashParent ;;
  do! drv (drv_write_error ErrFileAlreadyExists) (drv_Move t source virtualPath trashParent) ;;
  _u <-! on_world (recordTrashItem source virtualPath trashVirtual (se_Name entry) (se_IsDir entry) (se_Size entry) deletedAt)
    or err =>
    (do! moving_back (ensureDriverPath source (shown_parent virtualPath)) ;;
     do! moving_back (drv file_error (drv_Move t source trashVirtual (shown_parent virtualPath))) ;;
     throw err) ;;
  ret deletedAt.
Definition deleteWithDriver (source : StorageSource) (req : DeleteFileRequest) : M GoErr Host Z :=
  let t := src_DriverType source in
  do! file_getDriver t ;;
  virtualPath <-! lift_result (normalizeVirtualPath (dq_Path req)) ;;
  let mode := if String.eqb (dq_DeleteMode req) "" then "trash" else dq_DeleteMode req in
  capabilities <-! on_world (drv_Capabilities t source) ;;
  let providerTrash := match capabilities with Some c => sc_CanProviderTrash c | None => false end in
  if String.eqb mode "trash" && providerTrash then
    do! drv drv_delete_error (drv_Delete t source virtualPath) ;;
    on_world time_now
  else if String.eqb mode "permanent" then
    if providerTrash then throw ErrSourceOperationUnsupported
    else
      do! drv drv_missing_error (drv_Delete t source virtualPath) ;;
      on_world time_now
  else if negb (String.eqb mode "trash") then throw ErrSourceDriverUnsupported
  else trashWithDriver source virtualPath.
Definition FileService_Delete (ctx : Ctx) (req : DeleteFileRequest) : M GoErr Host Z :=
  source <-! file_source ctx "delete" (dq_SourceID req) ;;
  do! file_granted ctx "delete" source (dq_Path req) ACLActionDelete ;;
  deletedAt <-! file_tried ctx "delete" source (dq_Path req)
                  (if is_local source then deleteLocal source req else deleteWithDriver source req) ;;
  do! file_done ctx { (file_event "delete" ResultSuccess "" (src_ID source) (shown_path source (dq_Path req)))
        with ev_Before := at_virtual source (dq_Path req);
             ev_Detail := [("delete_mode", JStr (dq_DeleteMode req)); ("deleted_at", JStr (rfc3339 deletedAt))] } ;;
  ret deletedAt.

(** *** Listing *)
Definition file_list_error (e : OsErr) : GoErr := match e with OsNotExist => ErrFileNotFound | _ => os_error e end.
Fixpoint directory_items (sourceID : N) (virtualPath physicalPath : string) (parentWritable : bool)
    (entries : list (string * bool)) : M GoErr Host (list FileItem) :=
  match entries with
  | [] => ret []
  | (name, _) :: rest =>
      if hidden_name name then directory_items sourceID virtualPath physicalPath parentWritable rest
      else
        info <-! os (Stat (path_join physicalPath name)) ;;
        let item := buildFileItem sourceID (child_virtual virtualPath name) info in
        items <-! directory_items sourceID virtualPath physicalPath parentWritable rest ;;
        ret ({ item with fi_CanDelete := fi_CanDelete item && parentWritable } :: items)
  end.
Definition driver_items (source : StorageSource) (entries : list StorageEntry) : M GoErr Host (list FileItem) :=
  capabilities <-! on_world (drv_Capabilities (src_DriverType source) source) ;;
  ret (map (fun entry => applyFileItemCapabilities (buildStorageEntryItem (src_ID source) entry) capabilities)
         (sel (fun entry => negb (isHiddenStorageEntry entry)) entries)).
Definition listLocal (source : StorageSource) (path : string) : M GoErr Host (string * list FileItem) :=
  virtualPath <-! lift_result (normalizeVirtualPath path) ;;
  physical <-! lift_result (resolvePhysicalPath source virtualPath) ;;
  entries <-! os_or file_list_error (ReadDir (snd physical)) ;;
  parentWritable <-! canWriteLocalDir (snd physical) ;;
  items <-! directory_items (src_ID source) virtualPath (snd physical) parentWritable entries ;;
  ret (virtualPath, items).
Definition listWithDriver (source : StorageSource) (path : string) : M GoErr Host (string * list FileItem) :=
  do! file_getDriver (src_DriverType source) ;;
  virtualPath <-! lift_result (normalizeVirtualPath path) ;;
  entries <-! drv normalizeObjectReadError (drv_List (src_DriverType source) source virtualPath) ;;
  items <-! driver_items source entries ;;
  ret (virtualPath, items).
(** A page of what may be read: its number and size, and how many items and
    pages there are. *)
Definition Paging : Type := Z * Z * Z * Z.
Definition file_page (page pageSize : Z) (items : list FileItem) : M GoErr Host (list FileItem * Paging) :=
  paged <-! lift_result (paginateItems items page pageSize) ;;
  let '(pageItems, total, totalPages) := paged in
  ret (pageItems, (pageValue page, pageSizeValue pageSize, total, totalPages)).
Definition FileService_List (ctx : Ctx) (query : FileListQuery) : M GoErr Host (FileListResponse * Paging) :=
  source <-! on_world (SourceRepository_FindByID (fq_SourceID query)) ;;
  listed <-! (if is_local source then listLocal source (fq_Path query) else listWithDriver source (fq_Path query)) ;;
  let '(virtualPath, items) := listed in
  items <-! on_world (filterReadableFileItems ctx (src_ID source) (sortFileItems items (fq_SortBy query) (fq_SortOrder query))) ;;
  paged <-! file_page (fq_Page query) (fq_PageSize query) items ;;
  ret ({| fl_Items := fst paged; fl_CurrentPath := virtualPath; fl_CurrentSourceID := src_ID source |}, snd paged).

Definition statLocal (source : StorageSource) (filePath : string) : M GoErr Host FileItem :=
  virtualPath <-! lift_result (normalizeVirtualPath filePath) ;;
  physical <-! lift_result (resolvePhysicalPath source virtualPath) ;;
  info <-! os_or file_list_error (Stat (snd physical)) ;;
  ret (buildFileItem (src_ID source) virtualPath info).
Definition statWithDriver (source : StorageSource) (filePath : string) : M GoErr Host FileItem :=
  do! file_getDriver (src_DriverType source) ;;
  virtualPath <-! lift_result (normalizeVirtualPath filePath) ;;
  entry <-! drv normalizeObjectReadError (drv_Stat (src_DriverType source) source virtualPath) ;;
  capabilities <-! on_world (drv_Capabilities (src_DriverType source) source) ;;
  ret (applyFileItemCapabilities (buildStorageEntryItem (src_ID source) entry) capabilities).
Definition FileService_Stat (ctx : Ctx) (sourceID : N) (filePath : string) : M GoErr Host FileItem :=
  source <-! on_world (SourceRepository_FindByID sourceID) ;;
  do! on_world (file_authorizePath ctx (src_ID source) filePath ACLActionRead) ;;
  if is_local source then statLocal source filePath else statWithDriver source filePath.

(** *** Searching *)

(** Hidden directories are skipped; what has the keyword in its name is
    collected. *)
Definition search_entry (sourceID : N) (pathPrefix keyword : string) : Visitor (list FileItem) :=
  fun current relative dir items =>
    match relative with
    | [] => ret (items, false)
    | _ =>
        let name := default "" (last relative) in
        if hidden_name name then ret (items, dir)
        else if negb (contains (to_lower name) keyword) then ret (items, false)
        else
          info <-! Stat current ;;
          ret (items ++ [buildFileItem sourceID (child_virtual pathPrefix (relative_path relative)) info], false)
    end.
Definition searchLocal (source : StorageSource) (pathPrefix keyword : string) : M GoErr Host (list FileItem) :=
  base <-! lift_result (resolvePhysicalPath source pathPrefix) ;;
  os (WalkDir (search_entry (src_ID source) pathPrefix (to_lower keyword)) (snd base) []).
Definition searchWithDriver (source : StorageSource) (pathPrefix keyword : string) : M GoErr Host (list FileItem) :=
  entries <-! drv normalizeObjectReadError (drv_SearchByName (src_DriverType source) source pathPrefix keyword) ;;
  driver_items source entries.
Definition search_prefix (query : FileSearchQuery) : result GoErr string :=
  if String.eqb (sq_PathPrefix query) "" then Ok "/" else normalizeVirtualPath (sq_PathPrefix query).
Definition FileService_Search (ctx : Ctx) (query : FileSearchQuery) : M GoErr Host (FileSearchResponse * Paging) :=
  source <-! on_world (SourceRepository_FindByID (sq_SourceID query)) ;;
  do! (if is_local source then ret tt else file_getDriver (src_DriverType source)) ;;
  pathPrefix <-! lift_result (search_prefix query) ;;
  items <-! (if is_local source then searchLocal source pathPrefix (sq_Keyword query)
             else searchWithDriver source pathPrefix (sq_Keyword query)) ;;
  items <-! on_world (filterReadableFileItems ctx (src_ID source) (sortFileItems items "name" "asc")) ;;
  paged <-! file_page (sq_Page query) (sq_PageSize query) items ;;
  ret ({| sr_Items := fst paged; sr_Keyword := sq_Keyword query; sr_CurrentSourceID := src_ID source;
          sr_PathPrefix := if String.eqb (sq_PathPrefix query) "" then None else Some pathPrefix |}, snd paged).

(** *** Addresses *)
Definition openLocal (source : StorageSource) (innerPath : string) : M GoErr Host OpenFile :=
  physical <-! lift_result (resolvePhysicalPath source innerPath) ;;
  do! os_or file_list_error (Open (snd physical)) ;;
  info <-! os (Stat (snd physical)) ;;
  if fsi_IsDir info then throw ErrFileIsDirectory
  else ret {| of_Path := snd physical; of_Info := info; of_MIMEType := mimeFromName (fsi_Name info) |}.
Definition openLocalStorageObject (source : StorageSource) (object : StorageObject) (innerPath : string) : M GoErr Host OpenFile :=
  file <-! openLocal source innerPath ;;
  let mimeType := trim_space (so_MimeType object) in
  ret (if String.eqb mimeType "" then file else {| of_Path := of_Path file; of_Info := of_Info file; of_MIMEType := mimeType |}).
Definition five_minutes : Z := 5 * minute.
Definition attachment_unless (disposition : string) : string := if String.eqb disposition "" then "attachment" else disposition.
Definition object_reader_unsupported (err : FileErr) : bool :=
  err_is (file_error err) ErrSourceOperationUnsupported || err_is (file_error err) ErrSourceDriverUnsupported.
Definition presignStorageObject (source : StorageSource) (object : StorageObject) (fallbackPath disposition : string)
    : M GoErr Host string :=
  let t := src_DriverType source in
  let disposition := attachment_unless disposition in
  let with_driver :=
    do! file_getDriver t ;;
    drv normalizeObjectReadError (drv_PresignDownload t source fallbackPath disposition five_minutes) in
  if objectReaders t then
    url <-! on_world (PresignObjectDownload t source object disposition five_minutes) or err =>
      (if object_reader_unsupported err then with_driver else throw (normalizeObjectReadError err)) ;;
    ret url
  else with_driver.

(** Whether a path is that of a node with an object, and its download. *)
Definition Matched (A : Type) : Type := option A.
Definition download_object (ctx : Ctx) (node : VFSNode) (disposition : string) : M GoErr Host VFSObjectDownload :=
  if metadataVFSNodeIsDirectory node then throw ErrFileIsDirectory
  else
    match (if metadataVFSNodeUnavailable node then None else vn_ObjectID node) with
    | None => throw ErrFileNotFound
    | Some objectID =>
        object <-! on_world (StorageObjectRepository_FindByID objectID)
          or err => throw (if err_is err ErrNotFound then ErrFileNotFound else err) ;;
        if negb (String.eqb (so_Status object) StorageObjectStatusAvailable) then throw ErrFileNotFound
        else
          source <-! on_world (SourceRepository_FindByID (so_SourceID object)) ;;
          innerPath <-! lift_result (storageObjectInnerPath source node object) ;;
          do! on_world (authorizeVirtualNode ctx (src_ID source) node ACLActionRead) ;;
          if is_local source then
            file <-! openLocalStorageObject source object innerPath ;;
            ret {| od_RedirectURL := ""; od_File := Some file; od_SourceID := src_ID source; od_InnerPath := innerPath |}
          else
            redirectURL <-! presignStorageObject source object innerPath disposition ;;
            ret {| od_RedirectURL := redirectURL; od_File := None; od_SourceID := src_ID source; od_InnerPath := innerPath |}
    end.
Definition ResolveVFSObjectDownload (ctx : Ctx) (virtualPath disposition : string) : M GoErr Host (Matched VFSObjectDownload) :=
  if negb (fs_metadataReader s && fs_storageObjectRepo s) then ret None
  else
    normalizedPath <-! lift_result (normalizeVirtualPath virtualPath) ;;
    node <-! on_world (ResolveNode normalizedPath)
      or err => (if err_is err ErrFileNotFound then ret None else throw err) ;;
    match node with
    | None => ret None
    | Some node => download <-! download_object ctx node disposition ;; ret (Some download)
    end.
Definition resolveLegacyVFSObjectDownload (ctx : Ctx) (source : StorageSource) (filePath disposition : string)
    : M GoErr Host (Matched VFSObjectDownload) :=
  normalizedPath <-! lift_result (normalizeVirtualPath filePath) ;;
  let virtualPath := shown_path source normalizedPath in
  if String.eqb virtualPath "" then ret None else ResolveVFSObjectDownload ctx virtualPath disposition.

(** [time.Duration(seconds) * time.Second]: the product wraps. *)
Definition seconds_of (expiresIn : Z) : Z := int_mul (if Z.leb expiresIn 0 then 300 else expiresIn) second.
Definition issue_url (sourceID : N) (path : string) (req : AccessURLRequest) : M GoErr Host AccessURLResponse :=
  issued <-! on_world (FileAccess_Issue (fs_fileAccessSecret s) sourceID path (au_Purpose req) (au_Disposition req)
                         (seconds_of (au_ExpiresIn req))) ;;
  ret {| ar_URL := file_download_url sourceID path (au_Disposition req) (fst issued); ar_Method := "GET";
         ar_ExpiresAt := rfc3339 (snd issued) |}.
Definition accessLegacyURLByMetadataVFSObject (ctx : Ctx) (source : StorageSource) (req : AccessURLRequest)
    : M GoErr Host (Matched AccessURLResponse) :=
  normalizedPath <-! lift_result (normalizeVirtualPath (au_Path req)) ;;
  download <-! resolveLegacyVFSObjectDownload ctx source normalizedPath (au_Disposition req) ;;
  match download with
  | None => ret None
  | Some _ => url <-! issue_url (src_ID source) normalizedPath req ;; ret (Some url)
  end.
Definition AccessURLByVFSObject (ctx : Ctx) (virtualPath : string) (req : AccessURLRequest)
    : M GoErr Host (Matched AccessURLResponse) :=
  download <-! ResolveVFSObjectDownload ctx virtualPath (au_Disposition req) ;;
  match download with
  | None => ret None
  | Some download => url <-! issue_url (od_SourceID download) (od_InnerPath download) req ;; ret (Some url)
  end.
Definition accessURLWithDriver (source : StorageSource) (req : AccessURLRequest) : M GoErr Host AccessURLResponse :=
  do! file_getDriver (src_DriverType source) ;;
  virtualPath <-! lift_result (normalizeVirtualPath (au_Path req)) ;;
  do! drv normalizeObjectReadError
        (drv_PresignDownload (src_DriverType source) source virtualPath (au_Disposition req) (seconds_of (au_ExpiresIn req))) ;;
  issue_url (src_ID source) virtualPath req.
Definition accessLocalURL (source : StorageSource) (req : AccessURLRequest) : M GoErr Host AccessURLResponse :=
  virtualPath <-! lift_result (normalizeVirtualPath (au_Path req)) ;;
  physical <-! lift_result (resolvePhysicalPath source virtualPath) ;;
  info <-! on_disk (Stat (snd physical)) or _e => throw ErrFileNotFound ;;
  if fsi_IsDir info then throw ErrFileIsDirectory else issue_url (src_ID source) virtualPath req.
Definition FileService_AccessURL (ctx : Ctx) (req : AccessURLRequest) : M GoErr Host AccessURLResponse :=
  source <-! on_world (SourceRepository_FindByID (au_SourceID req)) ;;
  do! on_world (file_authorizePath ctx (src_ID source) (au_Path req) ACLActionRead) ;;
  matched <-! accessLegacyURLByMetadataVFSObject ctx source req ;;
  match matched with
  | Some url => ret url
  | None => if is_local source then accessLocalURL source req else accessURLWithDriver source req
  end.

Definition FileService_ResolveDownload (ctx : Ctx) (sourceID : N) (filePath : string) : M GoErr Host OpenFile :=
  source <-! on_world (SourceRepository_FindByID sourceID) ;;
  do! on_world (file_authorizePath ctx (src_ID source) filePath ACLActionRead) ;;
  matched <-! resolveLegacyVFSObjectDownload ctx source filePath "" ;;
  match matched with
  | Some download => match od_File download with Some file => ret file | None => throw ErrSourceDriverUnsupported end
  | None =>
      if negb (is_local source) then throw ErrSourceDriverUnsupported
      else
        virtualPath <-! lift_result (normalizeVirtualPath filePath) ;;
        openLocal source virtualPath
  end.
Definition FileService_ResolveDownloadRedirect (ctx : Ctx) (sourceID : N) (filePath disposition : string) : M GoErr Host string :=
  source <-! on_world (SourceRepository_FindByID sourceID) ;;
  do! on_world (file_authorizePath ctx (src_ID source) filePath ACLActionRead) ;;
  matched <-! resolveLegacyVFSObjectDownload ctx source filePath disposition ;;
  match matched with
  | Some download => ret (od_RedirectURL download)
  | None =>
      if is_local source then ret ""
      else
        do! file_getDriver (src_DriverType source) ;;
        virtualPath <-! lift_result (normalizeVirtualPath filePath) ;;
        drv normalizeObjectReadError
          (drv_PresignDownload (src_DriverType source) source virtualPath (attachment_unless disposition) five_minutes)
  end.
End Service.

(** *** Who asks for a download *)
Inductive BearerErr : Type := BearerToken (e : JwtErr) | BearerRefused (e : GoErr).
Section Bearer.
Context `{Database} `{JC : JwtLibrary Claims} `{JL : JwtLibrary FileAccessClaims} (s : FileService).
Definition ValidateFileAccessToken (raw : string) : M JwtErr World FileAccessClaims := FileAccess_Validate (fs_fileAccessSecret s) raw.
Definition AuthenticateBearerToken (raw : string) : M BearerErr World RequestAuth :=
  if String.eqb raw "" then throw (BearerRefused ErrInvalidCredentials)
  else
    let token := trim_space (trim_prefix raw "Bearer ") in
    claims <-! map_err BearerToken (ValidateAccessToken (fs_authTokens s) token) ;;
    user <-! map_err BearerRefused (UserRepository_FindByID (cl_UserID claims)) ;;
    if negb (Z.eqb (u_TokenVersion user) (cl_TokenVersion claims)) || String.eqb (u_Status user) StatusLocked
    then throw (BearerRefused ErrInvalidCredentials)
    else
      capabilities <-! lift_result (ResolveCapabilities (u_RoleKey user)) or _e => throw (BearerRefused ErrInvalidCredentials) ;;
      ret {| ra_UserID := u_ID user; ra_Username := ""; ra_RoleKey := u_RoleKey user; ra_Status := u_Status user;
             ra_Capabilities := capabilities |}.
End Bearer.
