(* ===== verification/Trash.v ===== *)
(** * The trash ([trash_service.go])

    Listing what was deleted, putting it back, and deleting it for good.
    Entries of local sources are on the disk of the host, below [/.trash] of
    their source; those of other sources are reached through their driver.

    FileProps and FileEffects say what this does to the disk. *)
From S2P Require Import Prelude Ints GoStrings Errors Entities Paths Mounts Tables Db Auditing Repos Journal Acl AclService Users Auth MetaTree Storage Files Uploads MountSync Walks FileService.
From stdpp Require Import base list strings gmap.
From Stdlib Require Import ZArith Lia Ascii.

Local Open Scope string_scope.
Local Open Scope list_scope.
Local Open Scope go_scope.

(** ** [trash_dto.go] *)
Record TrashListQuery := { tq_SourceID : N; tq_Page : Z; tq_PageSize : Z }.
Record TrashItemView := {
  tv_ID : N; tv_SourceID : N; tv_OriginalPath : string; tv_OriginalVirtualPath : string; tv_TrashPath : string;
  tv_Name : string; tv_Size : Z; tv_DeletedAt : string; tv_ExpiresAt : string
}.
Record TrashListResponse := { tl_Items : list TrashItemView }.
Record TrashRestoreResponse := {
  rs_ItemID : N; rs_Restored : bool; rs_RestoredPath : string; rs_RestoredVirtualPath : string
}.
Record TrashDeleteResponse := {
  td_ID : option N; td_Deleted : bool; td_SourceID : option N; td_Cleared : bool; td_DeletedCount : Z
}.

Definition toTrashItemView `{TimeFormat} (item : TrashItem) : TrashItemView :=
  {| tv_ID := ti_ID item; tv_SourceID := ti_SourceID item; tv_OriginalPath := ti_OriginalPath item;
     tv_OriginalVirtualPath := ti_OriginalVirtualPath item; tv_TrashPath := ti_TrashPath item; tv_Name := ti_Name item;
     tv_Size := ti_Size item; tv_DeletedAt := rfc3339 (ti_DeletedAt item); tv_ExpiresAt := rfc3339 (ti_ExpiresAt item) |}.

(** ** The service *)
Record TrashService := { ts_aclAuthorizer : option ACLAuthorizer; ts_auditRecorder : bool }.

Section Service.
Context `{MR : MetadataReader} `{TF : TimeFormat} `{JD : JsonDecoder} {FD : FileDrivers} {FO : FileDriverOps}.
Context (s : TrashService).

Definition trash_authorized (ctx : Ctx) (item : TrashItem) (action : ACLAction) : M GoErr World unit :=
  match ts_aclAuthorizer s with
  | None => ret tt
  | Some a => AuthorizePath a ctx (ti_SourceID item) (ti_OriginalPath item) action
  end.
Definition authorizeTrashRestore (ctx : Ctx) (item : TrashItem) : M GoErr World unit := trash_authorized ctx item ACLActionWrite.
Definition authorizeTrashDelete (ctx : Ctx) (item : TrashItem) : M GoErr World unit := trash_authorized ctx item ACLActionDelete.
(** Whether it is allowed; errors but a denial are passed on. *)
Definition unless_denied (m : M GoErr World unit) : M GoErr World bool :=
  _u <-! m or err => (if err_is err ErrACLDenied then ret false else throw err) ;; ret true.
Definition canViewTrashItem (ctx : Ctx) (item : TrashItem) : M GoErr World bool :=
  restorable <-! unless_denied (trash_authorized ctx item ACLActionWrite) ;;
  if (restorable : bool) then ret true else unless_denied (trash_authorized ctx item ACLActionDelete).

(** *** Listing *)
Fixpoint visible_items (ctx : Ctx) (items : list TrashItem) : M GoErr World (list TrashItemView) :=
  match items with
  | [] => ret []
  | item :: rest =>
      visible <-! canViewTrashItem ctx item ;;
      views <-! visible_items ctx rest ;;
      ret (if (visible : bool) then toTrashItemView item :: views else views)
  end.
Definition TrashService_List (ctx : Ctx) (query : TrashListQuery) : M GoErr World TrashListResponse :=
  do! SourceRepository_FindByID (tq_SourceID query) ;;
  items <-! TrashItemRepository_ListBySourceID (tq_SourceID query) ;;
  views <-! visible_items ctx items ;;
  paged <-! lift_result (paginateItems views (tq_Page query) (tq_PageSize query)) ;;
  ret {| tl_Items := fst (fst paged) |}.

(** *** Restoring *)
Definition restore_error (e : OsErr) : GoErr := match e with OsExist => ErrFileAlreadyExists | _ => os_error e end.
Definition restoreLocalTrash (source : StorageSource) (item : TrashItem) : M GoErr Host unit :=
  original <-! lift_result (resolvePhysicalPath source (ti_OriginalPath item)) ;;
  trash <-! lift_result (resolvePhysicalPath source (ti_TrashPath item)) ;;
  free <-! (_i <-! on_disk (Stat (snd original))
              or e => match e with OsNotExist => ret true | _ => throw (os_error e) end ;; ret false) ;;
  if negb free then throw ErrFileAlreadyExists
  else
    do! os (OsMkdirAll (path_dir (snd original))) ;;
    do! os_or file_list_error (Stat (snd trash)) ;;
    os_or restore_error (OsRename (snd trash) (snd original)).
Definition restoreDriverTrash (source : StorageSource) (item : TrashItem) : M GoErr Host unit :=
  let t := src_DriverType source in
  let originalParent := shown_parent (ti_OriginalPath item) in
  do! ensureDriverPath source originalParent ;;
  free <-! (_e <-! on_world (drv_Stat t source (ti_OriginalPath item))
              or err => match err with FileNotExist => ret true | _ => throw (file_error err) end ;; ret false) ;;
  if negb free then throw ErrFileAlreadyExists
  else drv (drv_write_error ErrFileAlreadyExists) (drv_Move t source (ti_TrashPath item) originalParent).

Definition restore_event (result code : string) (id : N) : Event := event "file" "restore" result code (encodeUintID id).
Definition item_event (result code : string) (id : N) (item : TrashItem) : Event :=
  { (restore_event result code id) with ev_SourceID := Some (ti_SourceID item); ev_VirtualPath := ti_OriginalVirtualPath item }.
Definition refuse_restore {A} (ctx : Ctx) (e : Event) (err : GoErr) : M GoErr Host A :=
  on_world (refuse (ts_auditRecorder s) ctx e err).
Definition trash_at (item : TrashItem) : list (string * Json) := [("trash_path", JStr (ti_TrashPath item))].
Definition restore_storage (source : StorageSource) (item : TrashItem) : M GoErr Host unit :=
  if is_local source then restoreLocalTrash source item
  else
    do! file_getDriver (src_DriverType source) ;;
    restoreDriverTrash source item.
Definition TrashService_Restore (ctx : Ctx) (id : N) : M GoErr Host TrashRestoreResponse :=
  item <-! on_world (TrashItemRepository_FindByID id)
    or err => refuse_restore ctx (restore_event ResultFailed "TRASH_ITEM_NOT_FOUND" id) err ;;
  _u <-! on_world (authorizeTrashRestore ctx item)
    or err => refuse_restore ctx { (item_event ResultDenied "ACL_DENIED" id item) with ev_Before := trash_at item } err ;;
  source <-! on_world (SourceRepository_FindByID (ti_SourceID item))
    or err => refuse_restore ctx (item_event ResultFailed "SOURCE_NOT_FOUND" id item) err ;;
  _u <-! restore_storage source item
    or err => refuse_restore ctx (item_event ResultFailed (mapFileErrorCode err) id item) err ;;
  _u <-! on_world (TrashItemRepository_Delete (ti_ID item))
    or err => refuse_restore ctx (item_event ResultFailed "INTERNAL_ERROR" id item) err ;;
  do! on_world (recordServiceAudit ctx (ts_auditRecorder s)
        { (item_event ResultSuccess "" id item) with ev_Before := trash_at item;
          ev_After := [("virtual_path", JStr (ti_OriginalVirtualPath item))] }) ;;
  ret {| rs_ItemID := ti_ID item; rs_Restored := true; rs_RestoredPath := ti_OriginalPath item;
         rs_RestoredVirtualPath := ti_OriginalVirtualPath item |}.

(** *** Deleting for good *)
Definition deleteTrashItemStorage (item : TrashItem) : M GoErr Host unit :=
  source <-! on_world (SourceRepository_FindByID (ti_SourceID item)) ;;
  if is_local source then
    trash <-! lift_result (resolvePhysicalPath source (ti_TrashPath item)) ;;
    _u <-! on_disk (RemoveAll (snd trash)) or e => match e with OsNotExist => ret tt | _ => throw (os_error e) end ;;
    ret tt
  else
    do! file_getDriver (src_DriverType source) ;;
    _u <-! on_world (drv_Delete (src_DriverType source) source (ti_TrashPath item))
      or err => match err with FileNotExist => ret tt | _ => throw (file_error err) end ;;
    ret tt.
Definition TrashService_Delete (ctx : Ctx) (id : N) : M GoErr Host TrashDeleteResponse :=
  item <-! on_world (TrashItemRepository_FindByID id) ;;
  do! on_world (authorizeTrashDelete ctx item) ;;
  do! deleteTrashItemStorage item ;;
  do! on_world (TrashItemRepository_Delete (ti_ID item)) ;;
  ret {| td_ID := Some (ti_ID item); td_Deleted := true; td_SourceID := None; td_Cleared := false; td_DeletedCount := 0 |}.

(** What may not be deleted stays. *)
Fixpoint clear_items (ctx : Ctx) (items : list TrashItem) : M GoErr Host Z :=
  match items with
  | [] => ret 0%Z
  | item :: rest =>
      allowed <-! on_world (unless_denied (authorizeTrashDelete ctx item)) ;;
      if negb allowed then clear_items ctx rest
      else
        do! deleteTrashItemStorage item ;;
        do! on_world (TrashItemRepository_Delete (ti_ID item)) ;;
        deletedCount <-! clear_items ctx rest ;;
        ret (1 + deletedCount)%Z
  end.
Definition TrashService_ClearSource (ctx : Ctx) (sourceID : N) : M GoErr Host TrashDeleteResponse :=
  do! on_world (SourceRepository_FindByID sourceID) ;;
  items <-! on_world (TrashItemRepository_ListBySourceID sourceID) ;;
  deletedCount <-! clear_items ctx items ;;
  ret {| td_ID := None; td_Deleted := false; td_SourceID := Some sourceID; td_Cleared := true; td_DeletedCount := deletedCount |}.
End Service.
