(* ===== verification/FileProps.v ===== *)
(** * Files on sources: what requests do to the disk

    Whatever fails, requests about files and about the trash write only
    below the directories of local sources ([files_confined]).  FileEffects
    says what they do there. *)
From S2P Require Import Prelude Ints GoStrings Errors Entities Paths Mounts Permission Tables Db Auditing Repos MetaRepos Journal Acl AclService Users Auth MetaTree Storage Files Uploads UploadProps MountSync Shares Walks DiskProps WalkProps FileService Trash.
From stdpp Require Import base list strings gmap pretty.
From Stdlib Require Import ZArith Lia Ascii.

Local Open Scope string_scope.
Local Open Scope list_scope.
Local Open Scope go_scope.

(** ** What the interfaces promise

    A driver may write back the configuration of its source; the sources on
    local disks are among those there were. *)
Section Laws.
Context `{Database}.
Definition sources_kept {E A} (m : M E World A) : Prop := forall w, wp m (fun _ w' => local_kept w w') w.
Class FileDriverOpsLaws {FD : FileDrivers} {FO : FileDriverOps} {CP : CapabilityProviders} {OR : ObjectReaders} : Prop := {
  list_kept : forall t s p, sources_kept (drv_List t s p);
  stat_kept : forall t s p, sources_kept (drv_Stat t s p);
  search_kept : forall t s p k, sources_kept (drv_SearchByName t s p k);
  mkdir_kept : forall t s p n, sources_kept (drv_Mkdir t s p n);
  rename_kept : forall t s p n, sources_kept (drv_Rename t s p n);
  move_kept : forall t s p n, sources_kept (drv_Move t s p n);
  copy_kept : forall t s p n, sources_kept (drv_Copy t s p n);
  delete_kept : forall t s p, sources_kept (drv_Delete t s p);
  presign_kept : forall t s p d ttl, sources_kept (drv_PresignDownload t s p d ttl);
  capabilities_kept : forall t s, sources_kept (drv_Capabilities t s);
  presign_object_kept : forall t s o d ttl, sources_kept (PresignObjectDownload t s o d ttl)
}.
End Laws.

(** ** Confinement *)
Section Confined.
Context `{DatabaseLaws} {MR : MetadataReader} {MRL : MetadataReaderLaws} {TF : TimeFormat} {TN : TimeFormatNano} {JD : JsonDecoder} {JM : JsonMapDecoder}
  {MT : MimeTypes} {JL : JwtLibrary FileAccessClaims} {UL : UuidLibrary} {ULaws : UuidLaws} {FD : FileDrivers} {FO : FileDriverOps}
  {CP : CapabilityProviders} {OR : ObjectReaders} {FOL : FileDriverOpsLaws} {PL : PathLimit} {TS : TrashStamp}.
Context (s : FileService) (t : TrashService) (dir : string) (w0 : World) (P : list string -> Prop).
Notation I := (local_kept w0).
Notation keeps_ m := (hkeeps dir I P m).
Context (HP : forall source, source ∈ tbl TSource w0 -> UploadProps.is_local source -> source_in dir P source).

Lemma local_kept_trans w w' : local_kept w0 w -> local_kept w w' -> local_kept w0 w'.
Proof. intros H1 H2 r Hr Hl. apply H1; auto. Qed.
Lemma keeps_kept {E A} (m : M E World A) : sources_kept m -> keeps_ (on_world m).
Proof.
  intros Hm h _ HI. apply wp_zoom. eapply wp_mono; [apply Hm|]. intros r w Hw. split; [by eapply local_kept_trans|apply dframe_refl].
Qed.
Lemma keeps_drv {A} f (m : M FileErr World A) : sources_kept m -> keeps_ (drv f m).
Proof. intros Hm. by apply hkeeps_map_err, keeps_kept. Qed.
Lemma winv_in {A} ts (m : M GoErr World A) : TSource ∉ ts -> within ts m -> winv I m.
Proof.
  intros Hts. apply winv_within. intros w w' HI Hf. eapply local_kept_trans; [exact HI|]. intros r Hr _. by rewrite (frames_tbl _ _ _ _ Hf) in Hr.
Qed.
Lemma keeps_in {A} ts (m : M GoErr World A) : TSource ∉ ts -> within ts m -> keeps_ (on_world m).
Proof. intros Hts Hm. by eapply hkeeps_world, winv_in. Qed.

(** *** The database *)
Lemma winv_time : winv I time_now.
Proof. apply (winv_in []); [set_solver|apply within_time]. Qed.
Lemma within_trash_create item : within [TTrash] (TrashItemRepository_Create item).
Proof. unfold TrashItemRepository_Create. frame_tac. Qed.
Lemma keeps_refuse_file {A} ctx action result code id p err : keeps_ (refuse_file s ctx action result code id p err : M GoErr Host A).
Proof. apply (keeps_in [TAudit]); [set_solver|]. frame_tac. Qed.
Lemma keeps_file_done ctx e : keeps_ (file_done s ctx e).
Proof. apply (keeps_in [TAudit]); [set_solver|]. frame_tac. Qed.
Lemma keeps_authorize ctx id p action : keeps_ (on_world (file_authorizePath s ctx id p action)).
Proof.
  apply (keeps_in []); [set_solver|]. unfold file_authorizePath. destruct (fs_aclAuthorizer s); [apply authorize_path_within|apply within_ret].
Qed.
Lemma keeps_authorize_node ctx id node action : keeps_ (on_world (authorizeVirtualNode s ctx id node action)).
Proof.
  apply (keeps_in []); [set_solver|]. unfold authorizeVirtualNode. destruct (fs_aclAuthorizer s); [apply authorize_virtual_within|apply within_ret].
Qed.
Lemma keeps_filter ctx id items : keeps_ (on_world (filterReadableFileItems s ctx id items)).
Proof.
  apply (keeps_in []); [set_solver|]. unfold filterReadableFileItems. destruct (fs_aclAuthorizer s); [apply filter_items_within|apply within_ret].
Qed.
Lemma keeps_granted ctx action source p wanted : keeps_ (file_granted s ctx action source p wanted).
Proof. apply hkeeps_bind_or; [apply keeps_authorize|intros e; apply keeps_refuse_file|intros u; apply hkeeps_ret]. Qed.
Lemma keeps_tried {A} ctx action source p (m : M GoErr Host A) : keeps_ m -> keeps_ (file_tried s ctx action source p m).
Proof.
  intros Hm. apply hkeeps_bind_or; [done|intros e|intros a; apply hkeeps_ret]. destruct e; (apply keeps_refuse_file || apply hkeeps_throw).
Qed.
Lemma keeps_record source o p n b size now : winv I (recordTrashItem s source o p n b size now).
Proof.
  apply (winv_in [TTrash]); [set_solver|]. unfold recordTrashItem. destruct (negb _); [apply within_ret|].
  apply within_bind; [apply within_trash_create|intros; apply within_ret].
Qed.
(** A source that is found is one of those there were, if it is local. *)
Lemma source_found_in id h : dk_dir (h_disk h) = dir -> I (h_world h) ->
  wp (on_world (SourceRepository_FindByID id))
     (fun r h' => hstep I P h h' /\ match r with Ok source => is_local source = true -> source_in dir P source | Err _ => True end) h.
Proof.
  intros _ HI. apply wp_zoom. assert (forall w', same (h_world h) w' -> hstep I P h { h with h_world := w' }) as Hs.
  { intros w' Hs. split; [|apply dframe_refl]. eapply local_kept_trans; [exact HI|]. intros r Hr _. by rewrite <- (proj1 Hs). }
  apply (wp_first TSource); [intros e w' Hw _; split; [by apply Hs|done]|intros w' Hw _; split; [by apply Hs|done]|].
  intros r w' Hw Hr _ _. split; [by apply Hs|]. intros Hl%String.eqb_eq. apply HP; [by apply HI|done].
Qed.
Lemma keeps_source {B} id (k : StorageSource -> M GoErr Host B) :
  (forall source, (is_local source = true -> source_in dir P source) -> keeps_ (k source)) ->
  keeps_ (bind (on_world (SourceRepository_FindByID id)) k).
Proof. apply hkeeps_bind_post, source_found_in. Qed.
Lemma refuse_never {A} ctx action result code id p err :
  returns (refuse_file s ctx action result code id p err : M GoErr Host A) (fun _ => False).
Proof. intros h. apply wp_zoom. apply wp_bind. apply (returns_any (recordServiceAudit _ _ _)). Qed.
Lemma keeps_file_source {B} ctx action id (k : StorageSource -> M GoErr Host B) :
  (forall source, (is_local source = true -> source_in dir P source) -> keeps_ (k source)) ->
  keeps_ (bind (file_source s ctx action id) k).
Proof.
  intros Hk. apply (hkeeps_bind_post _ _ _ (fun source => is_local source = true -> source_in dir P source)); [|done].
  intros h Hd HI. unfold file_source. apply wp_bind_or. eapply wp_mono; [by apply source_found_in|]. intros [source|e] h' [Hs Hf].
  - by apply wp_ret.
  - pose proof Hs as [HI' (_ & Hd' & _)]. eapply wp_mono; [apply wp_conj; [apply keeps_refuse_file; [by rewrite Hd'|done]|apply refuse_never]|].
    intros [a|e'] h'' [[HI'' Hf''] Hno]; [done|]. split; [|done]. split; [done|]. eapply dframe_trans; [apply Hs|done].
Qed.

(** *** The disk of a local source *)
Section InSource.
Context (source : StorageSource) (Hin : source_in dir P source).
(** A physical path, and what is below it. *)
Definition ours (path : string) : Prop := path <> "" /\ forall k, locate dir path `prefix_of` k -> P k.
Lemma physical_ours v b path : resolvePhysicalPath source v = Ok (b, path) -> ours path.
Proof.
  intros Hr. pose proof (resolve_physical_located dir _ _ _ _ Hr) as (q & _ & _ & _ & Hne & Hl & _). split; [done|].
  intros k Hk. eapply Hin; [exact Hr|]. rewrite Hl in Hk. etrans; [|exact Hk]. by apply prefix_app_r.
Qed.
Lemma keeps_physical {B} v (k : string * string -> M GoErr Host B) :
  (forall b path, ours path -> keeps_ (k (b, path))) -> keeps_ (bind (lift_result (resolvePhysicalPath source v)) k).
Proof. intros Hk. apply hkeeps_bind_lift. intros [b path] Hr. by eapply Hk, physical_ours. Qed.
Lemma keeps_writable path : ours path -> keeps_ (canWriteLocalDir path).
Proof. intros [Hne Hk]. by apply hkeeps_os, dwithin_probe. Qed.
Lemma keeps_os_or {A} f (m : M OsErr Disk A) : dwithin dir P m -> keeps_ (os_or f m).
Proof. intros Hm. by apply hkeeps_map_err, hkeeps_disk. Qed.
Lemma keeps_stat_exists path : keeps_ (stat_exists path).
Proof. unfold stat_exists. hframe_tac. Qed.
Lemma keeps_ignored {A} (m : M OsErr Disk A) : dwithin dir P m -> keeps_ (ignored m).
Proof. intros Hm. unfold ignored. hframe_tac. exact Hm. Qed.
Lemma ours_rename old new : ours old -> ours new -> dwithin dir P (OsRename old new).
Proof. intros [_ Ho] [_ Hn]. by apply dwithin_Rename. Qed.
Lemma ours_parents path : ours path -> dwithin dir P (OsMkdirAll (path_dir path)).
Proof. intros [Hne Hk]. by apply dwithin_MkdirAll_dir. Qed.
Lemma ours_itself path : ours path -> P (locate dir path).
Proof. intros [_ Hk]. by apply Hk. Qed.

Ltac local_step :=
  first
    [ lazymatch goal with
      | |- hkeeps _ _ _ (bind (lift_result (resolvePhysicalPath _ _)) _) => apply keeps_physical; intros ? ? ?; cbn [snd]
      | |- hkeeps _ _ _ (canWriteLocalDir _) => apply keeps_writable; assumption
      | |- hkeeps _ _ _ (os_or _ _) => apply keeps_os_or
      | |- hkeeps _ _ _ (stat_exists _) => apply keeps_stat_exists
      | |- hkeeps _ _ _ (ignored _) => apply keeps_ignored
      | |- dwithin _ _ (OsRename _ _) => apply ours_rename; assumption
      | |- dwithin _ _ (OsMkdirAll (path_dir _)) => apply ours_parents; assumption
      | |- dwithin _ _ (OsMkdir _) => apply dwithin_Mkdir, ours_itself; assumption
      | |- dwithin _ _ (Open _) => apply dwithin_Open
      | |- dwithin _ _ (ReadDir _) => apply dwithin_quiet; intros ? ? ?; destruct (node_at _ _) as [[]|]; reflexivity
      end
    | hframe_step ].
Ltac local_tac := repeat local_step.

Lemma keeps_stat_or_nil path : keeps_ (stat_or_nil path).
Proof. unfold stat_or_nil. local_tac. Qed.
Lemma keeps_stat_item id p info : keeps_ (stat_item id p info).
Proof. unfold stat_item. local_tac. Qed.
Lemma keeps_mkdir_local req : keeps_ (mkdirLocal source req).
Proof. unfold mkdirLocal. local_tac; [apply keeps_stat_or_nil|apply keeps_stat_item]. Qed.
Lemma keeps_rename_local req : keeps_ (renameLocal source req).
Proof. unfold renameLocal. local_tac; [apply keeps_stat_or_nil|apply keeps_stat_item]. Qed.
Lemma keeps_move_local req : keeps_ (moveLocal source req).
Proof. unfold moveLocal. local_tac. Qed.
Lemma keeps_copy_local req : keeps_ (copyLocal source req).
Proof.
  unfold copyLocal. local_tac. match goal with H : ours ?new |- dwithin _ _ (if ?b then copyDirectory _ ?new else _) => destruct H, b end; [by apply dwithin_copyDirectory|by apply dwithin_copyFile_below].
Qed.
Lemma dwithin_size path info : dwithin dir P (localEntrySize path info).
Proof.
  unfold localEntrySize. destruct (negb _); [apply dwithin_ret|]. apply dwithin_WalkDir. intros current relative b a _. unfold add_size.
  destruct b; [apply dwithin_ret|]. apply dwithin_bind; [apply dwithin_Stat|intros i; apply dwithin_ret].
Qed.
Lemma keeps_delete_local req : keeps_ (deleteLocal s source req).
Proof.
  unfold deleteLocal, trashLocal. local_tac; try (apply winv_time || apply keeps_record || apply dwithin_size).
  match goal with H : ours ?p |- dwithin _ _ (RemoveAll ?p) => destruct H as [_ H] end. by apply dwithin_RemoveAll.
Qed.
Lemma keeps_items id v path b entries : keeps_ (directory_items id v path b entries).
Proof. induction entries as [|[name d] rest IH]; cbn [directory_items]; local_tac; exact IH. Qed.
Lemma keeps_list_local p : keeps_ (listLocal source p).
Proof. unfold listLocal. local_tac. apply keeps_items. Qed.
Lemma keeps_stat_local p : keeps_ (statLocal source p).
Proof. unfold statLocal. local_tac. Qed.
Lemma keeps_search_local p k : keeps_ (searchLocal source p k).
Proof.
  unfold searchLocal. local_tac. apply dwithin_WalkDir. intros current relative d items _. unfold search_entry.
  destruct relative; [apply dwithin_ret|]. destruct (hidden_name _); [apply dwithin_ret|]. destruct (negb _); [apply dwithin_ret|].
  apply dwithin_bind; [apply dwithin_Stat|intros; apply dwithin_ret].
Qed.
Lemma keeps_open_local p : keeps_ (openLocal source p).
Proof. unfold openLocal. local_tac. Qed.
Lemma keeps_restore_local item : keeps_ (restoreLocalTrash source item).
Proof. unfold restoreLocalTrash. local_tac. Qed.
End InSource.

(** *** The drivers of other sources *)
Lemma keeps_get_driver ty : keeps_ (file_getDriver ty).
Proof. unfold file_getDriver. hframe_tac. Qed.
Ltac kept_tac :=
  first [ apply list_kept | apply stat_kept | apply search_kept | apply mkdir_kept | apply rename_kept | apply move_kept | apply copy_kept
        | apply delete_kept | apply presign_kept | apply capabilities_kept | apply presign_object_kept ].
Ltac driver_step :=
  first
    [ lazymatch goal with
      | |- hkeeps _ _ _ (file_getDriver _) => apply keeps_get_driver
      | |- hkeeps _ _ _ (drv _ _) => apply keeps_drv; try kept_tac
      | |- winv _ time_now => apply winv_time
      | |- winv _ (recordTrashItem _ _ _ _ _ _ _ _) => apply keeps_record
      | |- hkeeps _ _ _ (on_world _) => apply keeps_kept; kept_tac
      end
    | hframe_step ].
Ltac driver_tac := repeat driver_step.
Lemma keeps_mkdir_driver source req : keeps_ (mkdirWithDriver source req).
Proof. unfold mkdirWithDriver. driver_tac. Qed.
Lemma keeps_rename_driver source req : keeps_ (renameWithDriver source req).
Proof. unfold renameWithDriver. driver_tac. Qed.
Lemma keeps_transfer conflict call source req : (forall ty s a b, sources_kept (call ty s a b)) -> keeps_ (drv_transfer conflict call source req).
Proof. intros Hc. unfold drv_transfer. driver_tac. apply Hc. Qed.
Lemma keeps_ensure_directory source parent name : keeps_ (ensureDriverDirectory source parent name).
Proof. unfold ensureDriverDirectory. driver_tac. Qed.
Lemma keeps_ensure_segments source parent segments : keeps_ (ensure_driver_path source parent segments).
Proof.
  revert parent. induction segments as [|segment rest IH]; intros parent; cbn [ensure_driver_path]; driver_tac; try apply IH.
  apply keeps_ensure_directory.
Qed.
Lemma keeps_ensure_path source p : keeps_ (ensureDriverPath source p).
Proof. unfold ensureDriverPath. driver_tac. apply keeps_ensure_segments. Qed.
Lemma keeps_moving_back {A} (m : M GoErr Host A) : keeps_ m -> keeps_ (moving_back m).
Proof. intros Hm. unfold moving_back. driver_tac. exact Hm. Qed.
Lemma keeps_delete_driver source req : keeps_ (deleteWithDriver s source req).
Proof.
  unfold deleteWithDriver, trashWithDriver. driver_tac; try apply keeps_ensure_path.
  - apply keeps_moving_back, keeps_ensure_path.
  - apply keeps_moving_back. driver_tac.
Qed.
Lemma keeps_driver_items source entries : keeps_ (driver_items source entries).
Proof. unfold driver_items. driver_tac. Qed.
Lemma keeps_list_driver source p : keeps_ (listWithDriver source p).
Proof. unfold listWithDriver. driver_tac. apply keeps_driver_items. Qed.
Lemma keeps_stat_driver source p : keeps_ (statWithDriver source p).
Proof. unfold statWithDriver. driver_tac. Qed.
Lemma keeps_search_driver source p k : keeps_ (searchWithDriver source p k).
Proof. unfold searchWithDriver. driver_tac. apply keeps_driver_items. Qed.

(** *** Requests *)
Ltac request_step :=
  first
    [ lazymatch goal with
      | |- hkeeps _ _ _ (bind (file_source _ _ _ _) _) => apply keeps_file_source; intros ? ?
      | |- hkeeps _ _ _ (bind (on_world (SourceRepository_FindByID _)) _) => apply keeps_source; intros ? ?
      | |- hkeeps _ _ _ (file_granted _ _ _ _ _ _) => apply keeps_granted
      | |- hkeeps _ _ _ (file_tried _ _ _ _ _ _) => apply keeps_tried
      | |- hkeeps _ _ _ (file_done _ _ _) => apply keeps_file_done
      | |- hkeeps _ _ _ (on_world (filterReadableFileItems _ _ _ _)) => apply keeps_filter
      | |- hkeeps _ _ _ (on_world (file_authorizePath _ _ _ _ _)) => apply keeps_authorize
      | |- hkeeps _ _ _ (on_world (authorizeVirtualNode _ _ _ _ _)) => apply keeps_authorize_node
      | |- hkeeps _ _ _ (file_page _ _ _) => unfold file_page
      | |- hkeeps _ _ _ (file_transferred _ _ _ _ _) => unfold file_transferred
      | |- hkeeps _ _ _ (drv_transfer _ _ _ _) => apply keeps_transfer; intros ? ? ? ?; kept_tac
      end
    | driver_step ].
Ltac request_tac := repeat request_step.
Lemma keeps_Mkdir ctx req : keeps_ (FileService_Mkdir s ctx req).
Proof. unfold FileService_Mkdir. request_tac; [by eapply keeps_mkdir_local; auto|apply keeps_mkdir_driver]. Qed.
Lemma keeps_Rename ctx req : keeps_ (FileService_Rename s ctx req).
Proof. unfold FileService_Rename. request_tac; [by eapply keeps_rename_local; auto|apply keeps_rename_driver]. Qed.
Lemma keeps_Move ctx req : keeps_ (FileService_Move s ctx req).
Proof. unfold FileService_Move, moveWithDriver. request_tac. by eapply keeps_move_local; auto. Qed.
Lemma keeps_Copy ctx req : keeps_ (FileService_Copy s ctx req).
Proof. unfold FileService_Copy, copyWithDriver. request_tac. by eapply keeps_copy_local; auto. Qed.
Lemma keeps_Delete ctx req : keeps_ (FileService_Delete s ctx req).
Proof. unfold FileService_Delete. request_tac; [by eapply keeps_delete_local; auto|apply keeps_delete_driver]. Qed.
Lemma keeps_List ctx query : keeps_ (FileService_List s ctx query).
Proof. unfold FileService_List. request_tac; [by eapply keeps_list_local; auto|apply keeps_list_driver]. Qed.
Lemma keeps_Stat ctx id p : keeps_ (FileService_Stat s ctx id p).
Proof. unfold FileService_Stat. request_tac; [by eapply keeps_stat_local; auto|apply keeps_stat_driver]. Qed.
Lemma keeps_Search ctx query : keeps_ (FileService_Search s ctx query).
Proof. unfold FileService_Search. request_tac; [by eapply keeps_search_local; auto|apply keeps_search_driver]. Qed.

(** *** The trash *)
Lemma keeps_trash_authorized ctx item action : winv I (trash_authorized t ctx item action).
Proof.
  apply (winv_in []); [set_solver|]. unfold trash_authorized. destruct (ts_aclAuthorizer t); [apply authorize_path_within|apply within_ret].
Qed.
Lemma keeps_find_item id : winv I (TrashItemRepository_FindByID id).
Proof. apply (winv_in []); [set_solver|]. apply (within_first [] TTrash). Qed.
Lemma keeps_delete_item id : winv I (TrashItemRepository_Delete id).
Proof. apply (winv_in [TTrash]); [set_solver|]. unfold TrashItemRepository_Delete. frame_tac. Qed.
Lemma keeps_refuse_restore {A} ctx e err : keeps_ (refuse_restore t ctx e err : M GoErr Host A).
Proof. apply (keeps_in [TAudit]); [set_solver|]. frame_tac. Qed.
Lemma keeps_restore_driver source item : keeps_ (restoreDriverTrash source item).
Proof. unfold restoreDriverTrash. driver_tac. apply keeps_ensure_path. Qed.
Lemma keeps_restore_storage source item : (is_local source = true -> source_in dir P source) -> keeps_ (restore_storage source item).
Proof. intros Hin. unfold restore_storage. request_tac; [by apply keeps_restore_local; auto|apply keeps_restore_driver]. Qed.
Lemma keeps_Restore ctx id : keeps_ (TrashService_Restore t ctx id).
Proof.
  unfold TrashService_Restore. apply hkeeps_bind_or; [apply hkeeps_world, keeps_find_item|intros e; apply keeps_refuse_restore|intros item].
  apply hkeeps_bind_or; [apply hkeeps_world, keeps_trash_authorized|intros e; apply keeps_refuse_restore|intros _].
  apply (hkeeps_bind_or_post _ _ _ (fun source => is_local source = true -> source_in dir P source)); [apply source_found_in|intros e; apply keeps_refuse_restore|].
  intros source Hin. apply hkeeps_bind_or; [by apply keeps_restore_storage|intros e; apply keeps_refuse_restore|intros _].
  apply hkeeps_bind_or; [apply hkeeps_world, keeps_delete_item|intros e; apply keeps_refuse_restore|intros _].
  apply hkeeps_bind; [apply (keeps_in [TAudit]); [set_solver|]; frame_tac|intros _; apply hkeeps_ret].
Qed.
Lemma keeps_delete_storage item : keeps_ (deleteTrashItemStorage item).
Proof.
  unfold deleteTrashItemStorage. request_tac. destruct a as [b path]. cbn [snd].
  destruct (physical_ours source (H1 eq_refl) _ _ _ H2) as [Hne Hk]. by apply dwithin_RemoveAll.
Qed.
Lemma keeps_TrashDelete ctx id : keeps_ (TrashService_Delete t ctx id).
Proof.
  unfold TrashService_Delete. request_tac; [apply keeps_find_item|apply keeps_trash_authorized|apply keeps_delete_storage|apply keeps_delete_item].
Qed.
Lemma keeps_clear_items ctx items : keeps_ (clear_items t ctx items).
Proof.
  induction items as [|item rest IH]; cbn [clear_items]; request_tac; try apply IH.
  - unfold unless_denied. hframe_tac. apply keeps_trash_authorized.
  - apply keeps_delete_storage.
  - apply keeps_delete_item.
Qed.
Lemma keeps_ClearSource ctx id : keeps_ (TrashService_ClearSource t ctx id).
Proof.
  unfold TrashService_ClearSource. request_tac; [|apply keeps_clear_items]. apply (winv_in []); [set_solver|].
  unfold TrashItemRepository_ListBySourceID. frame_tac.
Qed.
Lemma keeps_TrashList ctx query : keeps_ (on_world (TrashService_List t ctx query)).
Proof.
  apply (keeps_in []); [set_solver|]. unfold TrashService_List, SourceRepository_FindByID, TrashItemRepository_ListBySourceID.
  apply within_bind; [frame_tac|intros _]. apply within_bind; [frame_tac|intros items].
  apply within_bind; [|intros views; frame_tac]. induction items as [|item rest IH]; cbn [visible_items]; [frame_tac|].
  assert (forall action, within [] (unless_denied (trash_authorized t ctx item action))) as Hd.
  { intros action. apply within_bind_or; [|intros e; frame_tac|intros _; frame_tac].
    unfold trash_authorized. destruct (ts_aclAuthorizer t); [apply authorize_path_within|frame_tac]. }
  apply within_bind; [unfold canViewTrashItem; apply within_bind; [apply Hd|intros []; [frame_tac|apply Hd]]|intros b].
  apply within_bind; [exact IH|intros l; frame_tac].
Qed.

(** *** Downloads *)
Lemma keeps_issue id p req : keeps_ (issue_url s id p req).
Proof.
  unfold issue_url. request_tac. apply (winv_in []); [set_solver|]. unfold FileAccess_Issue.
  apply within_bind; [apply within_time|intros now]. apply within_bind; [|intros u; frame_tac].
  intros w. eapply wp_mono; [apply uuid_law|]. intros r w' Hs. by apply same_frames.
Qed.
Lemma keeps_presign source object p d : keeps_ (presignStorageObject source object p d).
Proof. unfold presignStorageObject. request_tac. Qed.
Lemma keeps_open_object source object p : source_in dir P source -> keeps_ (openLocalStorageObject source object p).
Proof. intros Hin. unfold openLocalStorageObject. request_tac. by apply keeps_open_local. Qed.
Lemma keeps_object ctx node d : keeps_ (download_object s ctx node d).
Proof.
  unfold download_object. request_tac; try apply (winv_in [] _ ltac:(set_solver)), (within_first [] TObject).
  - by apply keeps_open_object; auto.
  - apply keeps_presign.
Qed.
Lemma keeps_vfs_download ctx p d : keeps_ (ResolveVFSObjectDownload s ctx p d).
Proof.
  unfold ResolveVFSObjectDownload. request_tac; [|apply keeps_object]. apply (winv_in []); [set_solver|apply reads_path].
Qed.
Lemma keeps_legacy_download ctx source p d : keeps_ (resolveLegacyVFSObjectDownload s ctx source p d).
Proof. unfold resolveLegacyVFSObjectDownload. request_tac. apply keeps_vfs_download. Qed.
Lemma keeps_AccessURL ctx req : keeps_ (FileService_AccessURL s ctx req).
Proof.
  unfold FileService_AccessURL, accessLegacyURLByMetadataVFSObject, accessLocalURL, accessURLWithDriver. request_tac;
    try apply keeps_issue; apply keeps_legacy_download.
Qed.
Lemma keeps_Download ctx id p : keeps_ (FileService_ResolveDownload s ctx id p).
Proof.
  unfold FileService_ResolveDownload. request_tac; [apply keeps_legacy_download|]. apply keeps_open_local.
  apply H1. by apply negb_false_iff.
Qed.
Lemma keeps_Redirect ctx id p d : keeps_ (FileService_ResolveDownloadRedirect s ctx id p d).
Proof. unfold FileService_ResolveDownloadRedirect. request_tac. apply keeps_legacy_download. Qed.
Lemma keeps_VFSAccess ctx p req : keeps_ (AccessURLByVFSObject s ctx p req).
Proof. unfold AccessURLByVFSObject. request_tac; [apply keeps_vfs_download|apply keeps_issue]. Qed.
End Confined.

(** ** Requests *)
Inductive FileRequest : Type :=
| RqList (ctx : Ctx) (query : FileListQuery)
| RqStat (ctx : Ctx) (sourceID : N) (filePath : string)
| RqSearch (ctx : Ctx) (query : FileSearchQuery)
| RqMkdir (ctx : Ctx) (req : MkdirRequest)
| RqRename (ctx : Ctx) (req : RenameRequest)
| RqMove (ctx : Ctx) (req : MoveCopyRequest)
| RqCopy (ctx : Ctx) (req : MoveCopyRequest)
| RqDelete (ctx : Ctx) (req : DeleteFileRequest)
| RqAccessURL (ctx : Ctx) (req : AccessURLRequest)
| RqVFSAccessURL (ctx : Ctx) (virtualPath : string) (req : AccessURLRequest)
| RqDownload (ctx : Ctx) (sourceID : N) (filePath : string)
| RqVFSDownload (ctx : Ctx) (virtualPath disposition : string)
| RqRedirect (ctx : Ctx) (sourceID : N) (filePath disposition : string)
| RqTrashList (ctx : Ctx) (query : TrashListQuery)
| RqRestore (ctx : Ctx) (id : N)
| RqTrashDelete (ctx : Ctx) (id : N)
| RqTrashClear (ctx : Ctx) (sourceID : N).

Section Requests.
Context `{DatabaseLaws} {MR : MetadataReader} {MRL : MetadataReaderLaws} {TF : TimeFormat} {TN : TimeFormatNano} {JD : JsonDecoder} {JM : JsonMapDecoder}
  {MT : MimeTypes} {JL : JwtLibrary FileAccessClaims} {UL : UuidLibrary} {ULaws : UuidLaws} {FD : FileDrivers} {FO : FileDriverOps}
  {CP : CapabilityProviders} {OR : ObjectReaders} {FOL : FileDriverOpsLaws} {PL : PathLimit} {TS : TrashStamp}.
Context (s : FileService) (t : TrashService).

Definition run_request (rq : FileRequest) (h : Host) : Host :=
  match rq with
  | RqList ctx query => snd (FileService_List s ctx query h)
  | RqStat ctx id p => snd (FileService_Stat s ctx id p h)
  | RqSearch ctx query => snd (FileService_Search s ctx query h)
  | RqMkdir ctx req => snd (FileService_Mkdir s ctx req h)
  | RqRename ctx req => snd (FileService_Rename s ctx req h)
  | RqMove ctx req => snd (FileService_Move s ctx req h)
  | RqCopy ctx req => snd (FileService_Copy s ctx req h)
  | RqDelete ctx req => snd (FileService_Delete s ctx req h)
  | RqAccessURL ctx req => snd (FileService_AccessURL s ctx req h)
  | RqVFSAccessURL ctx p req => snd (AccessURLByVFSObject s ctx p req h)
  | RqDownload ctx id p => snd (FileService_ResolveDownload s ctx id p h)
  | RqVFSDownload ctx p d => snd (ResolveVFSObjectDownload s ctx p d h)
  | RqRedirect ctx id p d => snd (FileService_ResolveDownloadRedirect s ctx id p d h)
  | RqTrashList ctx query => snd ((on_world (TrashService_List t ctx query) : M GoErr Host _) h)
  | RqRestore ctx id => snd (TrashService_Restore t ctx id h)
  | RqTrashDelete ctx id => snd (TrashService_Delete t ctx id h)
  | RqTrashClear ctx id => snd (TrashService_ClearSource t ctx id h)
  end.
Definition run_requests (rqs : list FileRequest) (h : Host) : Host := fold_left (fun h rq => run_request rq h) rqs h.

(** Where they may write. *)
Definition source_area (h : Host) (k : list string) : Prop :=
  exists source v b p, source ∈ tbl TSource (h_world h) /\ UploadProps.is_local source /\
    resolvePhysicalPath source v = Ok (b, p) /\ locate (dk_dir (h_disk h)) b `prefix_of` k.

Lemma request_keeps rq dir w0 P h :
  (forall source, source ∈ tbl TSource w0 -> UploadProps.is_local source -> source_in dir P source) ->
  dk_dir (h_disk h) = dir -> local_kept w0 (h_world h) -> hstep (local_kept w0) P h (run_request rq h).
Proof.
  intros HP Hd HI. enough (forall A (m : M GoErr Host A), hkeeps dir (local_kept w0) P m -> hstep (local_kept w0) P h (snd (m h))) as Hgo.
  { destruct rq; cbn [run_request]; apply Hgo;
      [by apply keeps_List|by apply keeps_Stat|by apply keeps_Search|by apply keeps_Mkdir|by apply keeps_Rename|by apply keeps_Move
      |by apply keeps_Copy|by apply keeps_Delete|by apply keeps_AccessURL|by apply keeps_VFSAccess|by apply keeps_Download
      |by apply keeps_vfs_download|by apply keeps_Redirect|by apply keeps_TrashList|by apply keeps_Restore
      |by apply keeps_TrashDelete|by apply keeps_ClearSource]. }
  intros A m Hm. exact (Hm h Hd HI).
Qed.
Lemma requests_keep rqs dir w0 P h :
  (forall source, source ∈ tbl TSource w0 -> UploadProps.is_local source -> source_in dir P source) ->
  dk_dir (h_disk h) = dir -> local_kept w0 (h_world h) -> hstep (local_kept w0) P h (run_requests rqs h).
Proof.
  intros HP. unfold run_requests. revert h. induction rqs as [|rq rqs IH]; intros h Hd HI; cbn [fold_left]; [by split; [|apply dframe_refl]|].
  destruct (request_keeps rq dir w0 P h HP Hd HI) as [HI' Hf].
  destruct (IH (run_request rq h)) as [HI'' Hf']; [by rewrite (proj1 (proj2 Hf))|done|]. split; [done|by eapply dframe_trans].
Qed.

(** C12: whatever requests about files and the trash come, and whatever
    fails, they change the disk only at and below the directories of local
    sources, but for new directories on the way there; the disk stays a
    tree. *)
Theorem files_confined rqs h k (Hk : ~ source_area h k) :
  let node := dk_nodes (h_disk h) !! k in
  let node' := dk_nodes (h_disk (run_requests rqs h)) !! k in
  (node' = node \/ (node = None /\ node' = Some NDir /\ exists k', k `prefix_of` k' /\ source_area h k')) /\
  (tree (dk_nodes (h_disk h)) -> tree (dk_nodes (h_disk (run_requests rqs h)))).
Proof.
  cbv zeta. destruct (requests_keep rqs (dk_dir (h_disk h)) (h_world h) (source_area h) h) as [_ ((Hkeep & Htree) & _)]; [|done|by intros r|].
  - intros source Hin Hloc v b p k' Hr Hpre. by exists source, v, b, p.
  - split; [|done]. destruct (Hkeep k); [done|auto].
Qed.
End Requests.

(** ** A concrete system *)
#[local] Existing Instances Mem.database Mem.laws UsersExample.format AuthExample.uuid AuthExample.uuid_laws StorageExample.decoder
  UploadExample.mime_types UploadExample.nano UploadExample.reader UploadExample.reader_laws.
Module FileExample.
#[export] Instance objects : JsonMapDecoder := fun _ => None.
#[export] Instance signer : JwtLibrary FileAccessClaims := {|
  SignedString := fun secret c r => Ok (secret +:+ fac_Path c +:+ "@" +:+ pretty (rcl_ExpiresAt r));
  ParseWithClaims := fun _ _ _ => Err (JwtInvalid "") |}.
#[export] Instance no_drivers : FileDrivers := {|
  drivers := fun _ => false; drv_List := fun _ _ _ => throw FileNotExist; drv_Stat := fun _ _ _ => throw FileNotExist |}.
#[export] Instance no_operations : FileDriverOps := {|
  drv_SearchByName := fun _ _ _ _ => throw FileNotExist; drv_Mkdir := fun _ _ _ _ => throw FileNotExist;
  drv_Rename := fun _ _ _ _ => throw FileNotExist; drv_Move := fun _ _ _ _ => throw FileNotExist;
  drv_Copy := fun _ _ _ _ => throw FileNotExist; drv_Delete := fun _ _ _ => throw FileNotExist;
  drv_PresignDownload := fun _ _ _ _ _ => throw FileNotExist |}.
#[export] Instance no_capabilities : CapabilityProviders := fun _ _ => ret None.
#[export] Instance no_readers : ObjectReaders := {|
  objectReaders := fun _ => false; PresignObjectDownload := fun _ _ _ _ _ => throw FileNotExist |}.
#[export] Instance no_operations_laws : FileDriverOpsLaws.
Proof. split; intros; by intros w r. Qed.
#[export] Instance limit : PathLimit := 16.
#[export] Instance stamp : TrashStamp := fun t => "t" +:+ pretty (Z.to_N t).

Definition service : FileService :=
  {| fs_aclAuthorizer := None; fs_metadataReader := true; fs_storageObjectRepo := true; fs_trashItemRepo := true;
     fs_auditRecorder := true; fs_fileAccessSecret := "s"; fs_authTokens := AuthExample.tokens |}.
Definition trash : TrashService := {| ts_aclAuthorizer := None; ts_auditRecorder := true |}.
Definition world : World := mem_world (Mem.set_rows TSource [StorageExample.source] { Mem.init with Mem.m_serial := 9%N }).
Notation pub l := (["srv"; "data"; "pub"] ++ l)%list.
Definition disk : Disk :=
  { UploadExample.disk with dk_nodes := <[pub ["docs"; "a.txt"] := NFile "hello" 7]> (<[pub ["docs"] := NDir]> (<[pub ["b.txt"] := NFile "bye" 8]> (dk_nodes UploadExample.disk))) }.
Definition host : Host := {| h_world := world; h_disk := disk |}.
Definition bob : Ctx := UploadExample.bob.

Lemma file_world_valid : valid world.
Proof. intros []; reflexivity. Qed.
Lemma file_sources : tbl TSource world = [StorageExample.source].
Proof. vm_compute. reflexivity. Qed.
Lemma file_disk_tree : tree (dk_nodes disk).
Proof.
  change (tree (<[pub ["docs"; "a.txt"] := NFile "hello" 7]> (<[pub ["docs"] := NDir]> (<[pub ["b.txt"] := NFile "bye" 8]> (dk_nodes UploadExample.disk))))).
  do 3 (apply tree_insert; [|done|reflexivity|first [by left | right; discriminate]]). apply UploadExample.disk_tree.
Qed.

Definition at_path (p target : string) : MoveCopyRequest := {| mv_SourceID := 1; mv_Path := p; mv_TargetPath := target |}.
Definition requests : list FileRequest :=
  [RqMkdir bob {| mk_SourceID := 1; mk_ParentPath := "/"; mk_Name := "new" |}; RqCopy bob (at_path "/docs" "/new");
   RqMove bob (at_path "/b.txt" "/docs"); RqRename bob {| rq_SourceID := 1; rq_Path := "/docs/b.txt"; rq_NewName := "c.txt" |};
   RqRename bob {| rq_SourceID := 1; rq_Path := "/docs"; rq_NewName := "../../../etc" |};
   RqDelete bob {| dq_SourceID := 1; dq_Path := "/new"; dq_DeleteMode := "" |}; RqTrashList bob {| tq_SourceID := 1; tq_Page := 1; tq_PageSize := 9 |};
   RqRestore bob 15; RqDelete bob {| dq_SourceID := 1; dq_Path := "/docs/../../x"; dq_DeleteMode := "permanent" |}].
Notation run_all := (run_requests service trash requests host) (only parsing).
End FileExample.
Import FileExample.

Lemma outside_area k : ~ ["srv"; "data"; "pub"] `prefix_of` k -> ~ source_area host k.
Proof.
  intros Hk (source & v & b & p & Hin & _ & Hr & [l ->]). apply Hk. change (tbl TSource (h_world host)) with (tbl TSource world) in Hin.
  rewrite file_sources, <- UploadExample.stored_sources in Hin. rewrite (UploadExample.example_base _ _ _ _ Hin Hr). by exists l.
Qed.
Lemma files_done : map (fun k => dk_nodes (h_disk run_all) !! k)
    [pub ["docs"; "c.txt"]; pub ["b.txt"]; pub ["new"; "docs"; "a.txt"]; pub [".trash"; "t1005"; "new"]; ["etc"]] =
  [Some (NFile "bye" 8); None; Some (NFile "hello" 7); None; None].
Proof. vm_compute. reflexivity. Qed.
Lemma files_confined_witness :
  map (fun k => dk_nodes (h_disk run_all) !! k)
    [pub ["docs"; "c.txt"]; pub ["b.txt"]; pub ["new"; "docs"; "a.txt"]; pub [".trash"; "t1005"; "new"]; ["etc"]] =
  [Some (NFile "bye" 8); None; Some (NFile "hello" 7); None; None] /\
  dk_nodes (h_disk run_all) !! ["etc"] = dk_nodes (h_disk host) !! ["etc"] /\ tree (dk_nodes (h_disk run_all)).
Proof.
  split; [exact files_done|]. destruct (files_confined service trash requests host ["etc"]) as [[E|(_ & _ & k' & [l ->] & Ha)] Ht].
  - apply outside_area. intros [l E]. discriminate E.
  - split; [exact E|exact (Ht file_disk_tree)].
  - exfalso. revert Ha. apply outside_area. intros [l' E]. discriminate E.
Defined.
