(* ===== verification/FileEffects.v ===== *)
(** * Files on local sources: what requests are for

    On a disk that does not fail, making, renaming, moving, copying and
    deleting a file of a local source does to the tree of the disk what it
    is for, or leaves it as it was ([file_requests_refine]); what went to
    the trash comes back where it was ([trash_roundtrip]). *)
From S2P Require Import Prelude Ints GoStrings Errors Entities Paths Mounts Permission Tables Db Auditing Repos MetaRepos Journal Acl AclService Users Auth MetaTree Tags Storage Files Uploads UploadProps MountSync Shares Walks DiskProps WalkProps FileService Trash FileProps.
From stdpp Require Import base list strings gmap pretty.
From Stdlib Require Import ZArith Lia Ascii.

Local Open Scope string_scope.
Local Open Scope list_scope.
Local Open Scope go_scope.

(** ** Virtual paths *)
Lemma good_last l x : good_segs (l ++ [x]) = true <-> good_segs l = true /\ plain_seg x = true /\ contains x ".." = false.
Proof.
  rewrite good_segs_app. unfold good_segs at 2, good_seg. cbn. rewrite !andb_true_iff, negb_true_iff. tauto.
Qed.
Lemma child_render l x : good_segs l = true -> plain_seg x = true -> child_virtual (render l) x = render (l ++ [x]).
Proof.
  intros Hl%good_segs_plain Hx. assert (forallb plain_seg (l ++ [x]) = true) as Hlx by (rewrite forallb_app, Hl; cbn; by rewrite Hx).
  unfold child_virtual. destruct (String.eqb_spec (render l) "/") as [E|E].
  - apply (render_inj l []) in E as ->; [|done..]. cbn. by rewrite append_nil_r.
  - unfold path_join. apply plain_seg_spec in Hx as (Hne & _). rewrite (proj2 (String.eqb_neq x _) Hne).
    destruct l as [|a l]; [done|]. change (String.eqb (render (a :: l)) "") with false. cbv iota.
    assert (render (a :: l) +:+ "/" +:+ x = render ((a :: l) ++ [x])) as -> by by rewrite render_snoc.
    by rewrite path_clean_rooted, clean_segs_render by (done || apply render_rooted).
Qed.
Lemma parent_render l x : good_segs (l ++ [x]) = true -> shown_parent (render (l ++ [x])) = render l.
Proof.
  intros (Hl & Hx & _)%good_last. unfold shown_parent. rewrite path_dir_snoc by (done || by apply good_segs_plain).
  destruct (String.eqb_spec (render l) ".") as [E|]; [|done]. pose proof (render_rooted l) as Hr. by rewrite E in Hr.
Qed.
Lemma base_ends p x : ends_in p x -> plain_seg x = true -> path_base p = x.
Proof.
  intros (d & -> & Hd) (Hne & _ & _ & Hx)%plain_seg_spec. unfold path_base. rewrite trim_right_byte_id by done.
  rewrite (proj2 (String.eqb_neq (d +:+ x) "")) by by intros [_ ->]%append_eq_nil.
  assert (snd (split_last (d +:+ x)) = x) as ->.
  { destruct Hd as [->|[d' ->]]; [cbn [String.append]; by rewrite split_last_no|].
    rewrite append_assoc. change ("/" +:+ x) with (String slash x). by rewrite split_last_app. }
  by rewrite (proj2 (String.eqb_neq x "") Hne).
Qed.

(** ** Physical paths *)
Section Located.
Context {JD : JsonDecoder} (dir : string) (source : StorageSource).

Lemma resolve_base v v' b b' p p' : resolvePhysicalPath source v = Ok (b, p) -> resolvePhysicalPath source v' = Ok (b', p') -> b = b'.
Proof. unfold resolvePhysicalPath. repeat case_match; congruence. Qed.
(** The node a virtual path of the source stands for. *)
Definition located (v : string) (k : list string) : Prop :=
  exists b p, resolvePhysicalPath source v = Ok (b, p) /\ locate dir p = k.
Lemma located_fun v k k' : located v k -> located v k' -> k = k'.
Proof. intros (b & p & E & <-) (b' & p' & E' & <-). congruence. Qed.

(** The directory of its trash. *)
Definition trash_dir (trash : list string) : Prop :=
  exists v b p, resolvePhysicalPath source v = Ok (b, p) /\ trash = locate dir b ++ [".trash"].
Lemma trash_dir_base v b p trash : resolvePhysicalPath source v = Ok (b, p) -> trash_dir trash -> trash = locate dir b ++ [".trash"].
Proof. intros Hp (v' & b' & p' & Hp' & ->). by rewrite (resolve_base _ _ _ _ _ _ Hp Hp'). Qed.

(** A virtual path has the form of its elements. *)
Lemma physical_spec v b p : resolvePhysicalPath source v = Ok (b, p) ->
  exists q, normalizeVirtualPath v = Ok (render q) /\ good_segs q = true /\ p <> "" /\ locate dir p = locate dir b ++ q /\
    forall l x, q = l ++ [x] -> ends_in p x.
Proof.
  intros Hr. destruct (resolve_physical_located dir _ _ _ _ Hr) as (q & H1 & H2 & _ & H4 & H5 & H6). exists q. split_and!; [done..|].
  intros l x E. by apply (H6 l x E).
Qed.
Lemma physical_render q b p : good_segs q = true -> resolvePhysicalPath source (render q) = Ok (b, p) ->
  p <> "" /\ locate dir p = locate dir b ++ q /\ forall l x, q = l ++ [x] -> ends_in p x.
Proof.
  intros Hq Hr. destruct (physical_spec _ _ _ Hr) as (q' & E & Hq' & Hrest). rewrite normalize_render in E by done. injection E as E.
  apply render_inj in E as ->; [done|by apply good_segs_plain..].
Qed.
(** A name in a directory. *)
Lemma physical_child l x b p b' p' : good_segs l = true -> plain_seg x = true ->
  resolvePhysicalPath source (render l) = Ok (b, p) -> resolvePhysicalPath source (render (l ++ [x])) = Ok (b', p') ->
  good_segs (l ++ [x]) = true /\ p' <> "" /\ locate dir p' = locate dir p ++ [x] /\ ends_in p' x.
Proof.
  intros Hl Hx Hp Hp'. pose proof (resolve_base _ _ _ _ _ _ Hp Hp') as <-.
  assert (good_segs (l ++ [x]) = true) as Hg.
  { destruct (physical_spec _ _ _ Hp') as (q & E & Hq & _). rewrite normalize_snoc in E by done.
    apply good_last. destruct (contains x ".."); [done|]. by split. }
  destruct (physical_render _ _ _ Hl Hp) as (_ & E & _). destruct (physical_render _ _ _ Hg Hp') as (Hne & E' & He).
  split_and!; [done..| |by eapply He]. by rewrite E', E, app_assoc.
Qed.
End Located.

(** ** Trees *)
Definition same_outside (trash : list string) (n n' : Tree) : Prop := forall k, ~ trash `prefix_of` k -> n' !! k = n !! k.
(** New directories above [k], and nothing else. *)
Definition made (n : Tree) (k : list string) (n' : Tree) : Prop :=
  n' !! k = Some NDir /\ tree n' /\ forall k', n' !! k' = n !! k' \/ n !! k' = None /\ n' !! k' = Some NDir /\ k' `prefix_of` k.
(** What was at [from] is at [to], in the trash. *)
Definition trashed (n : Tree) (from to trash : list string) (n' : Tree) : Prop :=
  (forall r, n' !! (to ++ r) = n !! (from ++ r)) /\
  forall k, ~ trash `prefix_of` k -> n' !! k = if below from k then None else n !! k.
Definition trash_path `{TrashStamp} (deletedAt : Z) (q : list string) : list string := ".trash" :: trash_stamp deletedAt :: q.

Lemma above_there n k k' : tree n -> is_Some (n !! k) -> k' `prefix_of` k -> is_Some (n !! k').
Proof.
  intros Ht Hk [q ->]. destruct (decide (q = [])) as [->|Hq]; [by rewrite app_nil_r in Hk|]. eexists. by eapply dirs_above.
Qed.
Lemma parent_there n k : tree n -> is_Some (n !! k) -> k <> [] -> n !! removelast k = Some NDir.
Proof. intros Ht Hk Hne. destruct (snoc_or_nil k) as [->|(l & x & ->)]; [done|]. rewrite removelast_last. by eapply dirs_above. Qed.
Lemma made_unchanged n k n' k' : made n k n' -> is_Some (n !! k') \/ ~ k' `prefix_of` k -> n' !! k' = n !! k'.
Proof. intros (_ & _ & Hm) Hk. destruct (Hm k') as [|(E & _ & Hp)]; [done|]. destruct Hk as [[? ?]|]; [congruence|done]. Qed.
Lemma made_nothing n k n' : tree n -> n !! k = Some NDir -> made n k n' -> n' = n.
Proof.
  intros Ht Hk Hm. apply map_eq. intros k'. destruct Hm as (_ & _ & Hm). destruct (Hm k') as [|(E & _ & Hp)]; [done|].
  destruct (above_there n k k' Ht) as [? ?]; [by eexists|done|congruence].
Qed.
Lemma removelast_prefix (k : list string) : removelast k `prefix_of` k.
Proof. destruct (snoc_or_nil k) as [->|(l & x & ->)]; [done|]. rewrite removelast_last. by apply prefix_app_r. Qed.
(** Directories made in the trash. *)
Lemma made_in_trash n b q t n1 (S := b ++ q) (T := b ++ ".trash" :: t :: q) : tree n -> is_Some (n !! S) ->
  made n (removelast T) n1 -> same_outside (b ++ [".trash"]) n n1.
Proof.
  intros Ht HS Hm k Hk. apply (made_unchanged _ _ _ _ Hm). destruct (decide (k `prefix_of` removelast T)) as [Hp|]; [left|by right].
  apply (above_there n S); [done..|]. assert (k `prefix_of` b) as Hb; [|etrans; [exact Hb|by apply prefix_app_r]].
  assert (b ++ [".trash"] `prefix_of` T) as HT by (exists (t :: q); unfold T; by rewrite <- app_assoc).
  assert (k `prefix_of` T) as HkT by (etrans; [exact Hp|apply removelast_prefix]).
  destruct (prefix_weak_total k (b ++ [".trash"]) T) as [Hkb|]; [done..| |done].
  destruct (decide (k = b ++ [".trash"])) as [->|Hne]; [by destruct Hk|].
  apply removelast_below in Hkb; [|done]. by rewrite removelast_last in Hkb.
Qed.
(** Moved away, after directories above the target were made. *)
Lemma trashed_rename n b q t n1 n2 (S := b ++ q) (T := b ++ ".trash" :: t :: q) : tree n -> is_Some (n !! S) ->
  made n (removelast T) n1 -> relocated n1 S T n2 -> ~ S `prefix_of` T -> trashed n S T (b ++ [".trash"]) n2.
Proof.
  intros Ht HS Hm [Hin Hout] Hap. split.
  - intros r. rewrite Hin. apply (made_unchanged _ _ _ _ Hm). right. intros Hp. apply Hap.
    etrans; [|etrans; [exact Hp|apply removelast_prefix]]. by apply prefix_app_r.
  - intros k Hk. rewrite Hout; [destruct (below S k); [done|]; by eapply made_in_trash|].
    intros Hp. apply Hk. etrans; [|exact Hp]. exists (t :: q). unfold T. by rewrite <- app_assoc.
Qed.
(** And back again. *)
Section Back.
Context (n n2 n3 n4 : Tree) (S T trash : list string) (Ht : tree n) (HS : is_Some (n !! S)) (HT : trash `prefix_of` T) (HTS : ~ T `prefix_of` S).
Context (Hin : forall r, n2 !! (T ++ r) = n !! (S ++ r)) (Hout : forall k, ~ trash `prefix_of` k -> n2 !! k = if below S k then None else n !! k).
Context (Hm : n3 = n2 \/ made n2 (removelast S) n3).

Lemma back_outside k : ~ trash `prefix_of` k -> ~ S `prefix_of` k -> n3 !! k = n !! k.
Proof.
  intros Hk HSk. assert (n2 !! k = n !! k) as H2 by (rewrite Hout by done; by rewrite (proj2 (below_false S k))).
  rewrite <- H2. destruct Hm as [->|Hm']; [done|]. apply (made_unchanged _ _ _ _ Hm').
  destruct (decide (k `prefix_of` removelast S)) as [Hp|]; [left|by right]. rewrite H2. apply (above_there n S); [done..|].
  etrans; [exact Hp|apply removelast_prefix].
Qed.
Lemma put_back : relocated n3 T S n4 -> same_outside trash n n4.
Proof.
  intros [Hin4 Hout4] k Hk. assert (forall r, n3 !! (T ++ r) = n2 !! (T ++ r)) as H3T.
  { intros r. destruct Hm as [->|Hm']; [done|]. apply (made_unchanged _ _ _ _ Hm'). right. intros Hp. apply HTS.
    etrans; [by apply (prefix_app_r T T r)|]. etrans; [exact Hp|apply removelast_prefix]. }
  destruct (decide (S `prefix_of` k)) as [[r ->]|HSk]; [by rewrite Hin4, H3T, Hin|].
  rewrite Hout4 by done. rewrite (proj2 (below_false T k)) by (intros Hp; apply Hk; by etrans). by apply back_outside.
Qed.
(** Nothing is in the way. *)
Lemma may_go_back : S <> [] -> ~ trash `prefix_of` S -> is_Some (n3 !! T) /\ n3 !! removelast S = Some NDir /\ n3 !! S = None.
Proof.
  intros Hne HtS.
  assert (is_Some (n2 !! T)) as H2T by (specialize (Hin []); rewrite !app_nil_r in Hin; by rewrite Hin).
  assert (n2 !! S = None) as H2S by (rewrite Hout by done; by rewrite (proj2 (below_spec S S))).
  assert (~ S `prefix_of` removelast S) as Hself.
  { intros Hp. destruct (snoc_or_nil S) as [E|(l & x & E)]; [done|]. rewrite E, removelast_last in Hp. by apply prefix_snoc_self in Hp. }
  split_and!.
  - destruct Hm as [->|Hm']; [done|]. by rewrite (made_unchanged _ _ _ _ Hm' (or_introl H2T)).
  - rewrite back_outside; [by apply parent_there| |done]. intros Hp. apply HtS. etrans; [exact Hp|apply removelast_prefix].
  - destruct Hm as [->|Hm']; [done|]. rewrite (made_unchanged _ _ _ _ Hm'); [done|]. by right.
Qed.
End Back.

(** ** What requests do to a tree *)
Section Effects.
Context {JD : JsonDecoder} (dir : string) (source : StorageSource) (n : Tree).
Notation at_ := (located dir source).

Definition mkdir_done (req : MkdirRequest) (item : FileItem) (n' : Tree) : Prop :=
  exists l k, let x := mk_Name req in
    normalizeVirtualPath (mk_ParentPath req) = Ok (render l) /\ at_ (render l) k /\ n !! k = Some NDir /\
    fi_Path item = render (l ++ [x]) /\ at_ (fi_Path item) (k ++ [x]) /\ n !! (k ++ [x]) = None /\ n' = <[k ++ [x] := NDir]> n.
(** What is at [old] is at [new], under another name in the same directory. *)
Definition rename_done (req : RenameRequest) (reply : string * string * FileItem) (n' : Tree) : Prop :=
  let '(old, new, item) := reply in
  exists l x k, let y := rq_NewName req in
    normalizeVirtualPath (rq_Path req) = Ok old /\ old = render (l ++ [x]) /\ new = render (l ++ [y]) /\ fi_Path item = new /\
    at_ old (k ++ [x]) /\ at_ new (k ++ [y]) /\ is_Some (n !! (k ++ [x])) /\ n !! (k ++ [y]) = None /\
    relocated n (k ++ [x]) (k ++ [y]) n'.
(** Under the same name in the directory [target]; what [how] says of the
    nodes at the two places. *)
Definition transfer_done (how : list string -> list string -> Tree -> Prop) (req : MoveCopyRequest) (reply : string * string) (n' : Tree) : Prop :=
  let '(old, new) := reply in
  exists l x k ld d,
    normalizeVirtualPath (mv_Path req) = Ok old /\ old = render (l ++ [x]) /\
    normalizeVirtualPath (mv_TargetPath req) = Ok (render ld) /\ new = render (ld ++ [x]) /\
    at_ old (k ++ [x]) /\ at_ (render ld) d /\ at_ new (d ++ [x]) /\
    is_Some (n !! (k ++ [x])) /\ n !! d = Some NDir /\ n !! (d ++ [x]) = None /\ ~ k ++ [x] `prefix_of` d /\
    how (k ++ [x]) (d ++ [x]) n'.
Definition move_done := transfer_done (relocated n).
Definition copy_done := transfer_done (fun from to => cloned n from to n).
Definition remove_done (req : DeleteFileRequest) (n' : Tree) : Prop :=
  exists p k, normalizeVirtualPath (dq_Path req) = Ok p /\ at_ p k /\ k <> [] /\ is_Some (n !! k) /\
    forall k', n' !! k' = if below k k' then None else n !! k'.
(** It is in the trash; outside of the trash, nothing else changed. *)
Definition trash_done `{TrashStamp} (req : DeleteFileRequest) (deletedAt : Z) (n' : Tree) : Prop :=
  exists l x k trash to, let q := l ++ [x] in
    good_segs q = true /\ normalizeVirtualPath (dq_Path req) = Ok (render q) /\ at_ (render q) k /\ is_Some (n !! k) /\
    trash_dir dir source trash /\ at_ (render (trash_path deletedAt q)) to /\ trash `prefix_of` to /\ ~ k `prefix_of` to /\
    trashed n k to trash n'.
(** What is at the trash path of an item is at its original path, where
    nothing was; directories on the way there are made. *)
Definition restore_done (item : TrashItem) (n' : Tree) : Prop :=
  exists b original b' trash n1 (from := locate dir trash) (to := locate dir original),
    resolvePhysicalPath source (ti_OriginalPath item) = Ok (b, original) /\
    resolvePhysicalPath source (ti_TrashPath item) = Ok (b', trash) /\
    n !! to = None /\ made n (locate dir (path_dir original)) n1 /\ is_Some (n1 !! from) /\ relocated n1 from to n'.
End Effects.

(** ** Steps that leave the tree as it is *)
Section Rules.
Context `{Database} (dir : string).
Notation hspec m n Q := (tspec dir sound h_disk m n Q).

Definition quiet {E A} (m : M E Host A) : Prop := forall n, hspec m n (fun _ n' => n' = n).
Lemma quiet_world {E A} (m : M E World A) : quiet (on_world m).
Proof. intros n h Hh. apply wp_zoom. unfold wp. by exists n. Qed.
Lemma quiet_ret {E A} (a : A) : quiet (ret a : M E Host A).
Proof. intros n. by apply tspec_ret. Qed.
Lemma quiet_throw {E A} e : quiet (throw e : M E Host A).
Proof. intros n. by apply tspec_throw. Qed.
Lemma quiet_lift {A} (r : result GoErr A) : quiet (lift_result r : M GoErr Host A).
Proof. intros n h Hh. by exists n. Qed.
Lemma quiet_bind {E A B} (m : M E Host A) (k : A -> M E Host B) : quiet m -> (forall a, quiet (k a)) -> quiet (bind m k).
Proof. intros Hm Hk n. eapply tspec_bind; [apply Hm|done|]. intros a n' ->. apply Hk. Qed.
Lemma quiet_bind_or {E E' A B} (m : M E Host A) (f : E -> M E' Host B) (k : A -> M E' Host B) :
  quiet m -> (forall e, quiet (f e)) -> (forall a, quiet (k a)) -> quiet (bind_or m f k).
Proof. intros Hm Hf Hk n. eapply tspec_bind_or; [apply Hm|intros e n' ->; apply Hf|intros a n' ->; apply Hk]. Qed.
Lemma quiet_map_err {E E' A} (f : E -> E') (m : M E Host A) : quiet m -> quiet (map_err f m).
Proof. intros Hm n. eapply tspec_map_err; [apply Hm|done..]. Qed.
Lemma quiet_disk {A} (m : M OsErr Disk A) : (forall n, tspec dir sound (fun d => d) m n (fun _ n' => n' = n)) -> quiet (on_disk m).
Proof. intros Hm n. by apply tspec_disk. Qed.

(** ** All or nothing *)
Definition all_or_nothing {A} (n : Tree) (P : A -> Tree -> Prop) (r : result GoErr A) (n' : Tree) : Prop :=
  match r with Ok a => tree n' /\ P a n' | Err _ => n' = n end.
Section Atomic.
Context {A B : Type} (n : Tree) (P : B -> Tree -> Prop).
Notation aon m := (hspec m n (all_or_nothing n P)).
Lemma aon_lift (r : result GoErr A) (k : A -> M GoErr Host B) : (forall a, r = Ok a -> aon (k a)) -> aon (bind (lift_result r) k).
Proof. intros Hk. destruct r as [a|e]; [by apply Hk|]. intros h Hh. by exists n. Qed.
Lemma aon_quiet (m : M GoErr Host A) (k : A -> M GoErr Host B) : quiet m -> (forall a, aon (k a)) -> aon (bind m k).
Proof. intros Hm Hk. eapply tspec_bind; [apply Hm|done|]. intros a n' ->. apply Hk. Qed.
Lemma aon_throw e : aon (throw e).
Proof. by apply tspec_throw. Qed.
Lemma aon_if (b : bool) (k1 k2 : M GoErr Host B) : (b = true -> aon k1) -> (b = false -> aon k2) -> aon (if b then k1 else k2).
Proof. destruct b; auto. Qed.
Lemma aon_stat path (f : OsErr -> GoErr) (k : FileInfo -> M GoErr Host B) : path <> "" ->
  (forall node now, n !! locate dir path = Some node -> aon (k (info_of path node now))) ->
  aon (bind_or (on_disk (Stat path)) (fun e => throw (f e)) k).
Proof.
  intros Hp Hk. eapply tspec_bind_or; [by apply tspec_disk, sspec_Stat|intros e n' [-> _]; by apply tspec_throw|].
  intros info n' [-> (node & now & Hn & ->)]. by apply Hk.
Qed.
Lemma aon_free path (k : bool -> M GoErr Host B) : path <> "" ->
  (n !! locate dir path = None -> aon (k false)) -> aon (k true) -> aon (bind (stat_exists path) k).
Proof.
  intros Hp Hf Ht. eapply (tspec_bind _ _ _ _ _ _ (fun r n' => n' = n /\ exists b, r = Ok b /\ (b = false -> n !! locate dir path = None))).
  - eapply tspec_bind_or; [by apply tspec_disk, sspec_Stat|..].
    + intros e n' [-> Hn]. apply tspec_ret. split; [done|]. by exists false.
    + intros info n' [-> _]. apply tspec_ret. split; [done|]. by exists true.
  - by intros e n' [_ (b & ? & _)].
  - intros [] n' [-> (b & [= <-] & Hb)]; auto.
Qed.
Lemma aon_writable path (k : bool -> M GoErr Host B) : path <> "" -> tree n -> (forall b, aon (k b)) -> aon (bind (canWriteLocalDir path) k).
Proof.
  intros Hp Ht Hk. eapply (tspec_bind _ _ _ _ _ _ (fun _ n' => n' = n)); [eapply tspec_os; [by apply sspec_probe|done..]|done|].
  intros b n' ->. apply Hk.
Qed.
(** The one step that changes the tree; what follows does not, and does not
    fail. *)
Lemma aon_act f (m : M OsErr Disk A) (k : A -> M GoErr Host B) (Q : A -> Tree -> Prop) :
  tspec dir sound (fun d => d) m n (fun r n' => match r with Ok a => Q a n' | Err _ => n' = n end) ->
  (forall a n', Q a n' -> hspec (k a) n' (fun r n2 => n2 = n' /\ exists b, r = Ok b /\ tree n' /\ P b n')) ->
  aon (bind (os_or f m) k).
Proof.
  intros Hm Hk. eapply (tspec_bind _ _ _ _ _ _ (fun r n' => match r with Ok a => Q a n' | Err _ => n' = n end)).
  - eapply tspec_map_err; [apply tspec_disk, Hm|done..].
  - done.
  - intros a n' HQ. eapply tspec_mono; [by apply Hk|]. by intros r n2 (-> & b & -> & Ht & HP).
Qed.
End Atomic.
End Rules.

(** ** The operations on local sources *)
Section LocalOps.
Context `{DatabaseLaws} {TF : TimeFormat} {TN : TimeFormatNano} {JD : JsonDecoder} {MT : MimeTypes} {PL : PathLimit} {TS : TrashStamp}.
Context (dir : string) (source : StorageSource) (n : Tree) (Ht : tree n).
Notation hspec m n Q := (tspec dir sound h_disk m n Q).
Notation aon m P := (hspec m n (all_or_nothing n P)).

(** What is there is found again. *)
Lemma hspec_stat_or_nil {A} path node n' (k : option FileInfo -> M GoErr Host A) (P : A -> Prop) :
  path <> "" -> n' !! locate dir path = Some node ->
  (forall info, hspec (k (Some info)) n' (fun r n2 => n2 = n' /\ exists a, r = Ok a /\ P a)) ->
  hspec (bind (stat_or_nil path) k) n' (fun r n2 => n2 = n' /\ exists a, r = Ok a /\ P a).
Proof.
  intros Hp Hn Hk. unfold stat_or_nil.
  eapply (tspec_bind _ _ _ _ _ _ (fun r n2 => n2 = n' /\ exists i, r = Ok (Some i))).
  - eapply tspec_bind_or; [by apply tspec_disk, sspec_Stat|intros e n2 [-> Hno]; congruence|].
    intros info n2 [-> _]. apply tspec_ret. split; [done|]. by exists info.
  - by intros e n2 [_ [i ?]].
  - intros a n2 [-> [i [= ->]]]. apply Hk.
Qed.
Lemma mkdir_local_spec req : aon (mkdirLocal source req) (mkdir_done dir source n req).
Proof.
  unfold mkdirLocal. apply aon_lift. intros [] Hname. apply validateFileName_ok in Hname as [Hx _].
  apply aon_lift. intros parent Hparent. pose proof (normalize_canonical _ _ Hparent) as (l & Hl & ->).
  apply aon_lift. intros [b p] Hp. destruct (physical_render dir _ _ _ _ Hl Hp) as (Hpne & _). cbn [snd].
  apply aon_stat; [done|]. intros node now Hnode. apply aon_if; [intros _; apply aon_throw|intros Hdir].
  apply aon_writable; [done..|]. intros w. apply aon_if; [intros _; apply aon_throw|intros _]. cbv zeta.
  rewrite child_render by done. apply aon_lift. intros [b' p'] Hp'. cbn [snd].
  destruct (physical_child dir _ _ _ _ _ _ _ Hl Hx Hp Hp') as (Hg & Hpne' & Hloc & _).
  apply aon_free; [done| |apply aon_throw]. intros Hnone. cbv iota.
  eapply aon_act; [by apply sspec_Mkdir|]. intros u n' (Hup & _ & -> & Ht').
  eapply (hspec_stat_or_nil _ NDir); [done|apply lookup_insert_eq|]. intros info. apply tspec_ret. split; [done|]. eexists. split; [done|].
  split; [done|]. rewrite Hloc in *. exists l, (locate dir p). cbv zeta. rewrite removelast_last in Hup. split_and!; try done; by eexists _, _.
Qed.
Lemma rename_local_spec req : aon (renameLocal source req) (rename_done dir source n req).
Proof.
  unfold renameLocal. apply aon_lift. intros [] Hname. apply validateFileName_ok in Hname as [Hy _].
  apply aon_lift. intros old Hold. pose proof (normalize_canonical _ _ Hold) as (q & Hq & ->).
  apply aon_lift. intros [b p] Hp. destruct (physical_render dir _ _ _ _ Hq Hp) as (Hpne & HS & _). cbn [snd].
  apply aon_stat; [done|]. intros node now Hnode. cbv zeta. apply aon_lift. intros [bp pp] Hpp. cbn [snd].
  assert (pp <> "") as Hppne by (by destruct (physical_spec dir _ _ _ _ Hpp) as (? & _ & _ & ? & _)).
  apply aon_writable; [done..|]. intros w. apply aon_if; [intros _; apply aon_throw|intros _].
  apply aon_lift. intros [b' p'] Hp'. cbn [snd].
  assert (p' <> "") as Hpne' by (by destruct (physical_spec dir _ _ _ _ Hp') as (? & _ & _ & ? & _)).
  apply aon_free; [done| |apply aon_throw]. intros Hnone. cbv iota.
  eapply aon_act; [by apply sspec_Rename|]. intros u n' (Hok & Hrel & Ht' & Hap).
  pose proof (renamable_apart _ _ _ Hok Hap Hnone) as Hapart. clear Hap.
  destruct (snoc_or_nil q) as [->|(l & x & ->)].
  { (* the directory of the source is not renamed *)
    exfalso. change (shown_parent (render [])) with (render []) in *. rewrite child_render in Hp' by done.
    destruct (physical_child dir _ [] _ _ _ _ _ eq_refl Hy Hp Hp') as (_ & _ & Hloc & _). apply Hapart. rewrite Hloc. by apply prefix_app_r. }
  rewrite parent_render in * by done. apply good_last in Hq as Hq'. destruct Hq' as (Hl & Hx & _).
  rewrite child_render in * by done.
  destruct (physical_child dir _ _ _ _ _ _ _ Hl Hx Hpp Hp) as (_ & _ & Hfrom & _).
  destruct (physical_child dir _ _ _ _ _ _ _ Hl Hy Hpp Hp') as (_ & _ & Hto & _).
  rewrite Hfrom, Hto in *. destruct Hrel as [Hin Hout].
  eapply (hspec_stat_or_nil _ node); [done|rewrite Hto; specialize (Hin []); by rewrite !app_nil_r, Hnode in Hin|]. intros info.
  eapply (tspec_bind _ _ _ _ _ _ (fun r n2 => n2 = n' /\ exists item, r = Ok item /\ fi_Path item = render (l ++ [rq_NewName req])));
    [apply tspec_ret; split; [done|by eexists]|by intros e n2 (_ & i & ? & _)|].
  intros item n2 (-> & item' & [= <-] & Hpath). apply tspec_ret. split; [done|]. eexists. split; [done|]. split; [done|].
  exists l, x, (locate dir pp). cbv zeta. split_and!; try done; by eexists _, _ || by eexists.
Qed.

(** The two places of a move or a copy. *)
Lemma transfer_places l x ld b p bd pd b' p' node now :
  good_segs (l ++ [x]) = true -> good_segs ld = true -> resolvePhysicalPath source (render (l ++ [x])) = Ok (b, p) ->
  resolvePhysicalPath source (render ld) = Ok (bd, pd) ->
  resolvePhysicalPath source (child_virtual (render ld) (fsi_Name (info_of p node now))) = Ok (b', p') ->
  child_virtual (render ld) (fsi_Name (info_of p node now)) = render (ld ++ [x]) /\
  (exists k, locate dir p = k ++ [x]) /\ p' <> "" /\ locate dir p' = locate dir pd ++ [x] /\ ends_in p' x /\ plain_seg x = true.
Proof.
  intros Hq Hd Hp Hpd Hp'. apply good_last in Hq as Hq'. destruct Hq' as (Hl & Hx & _).
  destruct (physical_render dir _ _ _ _ Hq Hp) as (_ & HS & He).
  assert (fsi_Name (info_of p node now) = x) as Hname by (destruct node; cbn; (apply base_ends; [by eapply He|done])).
  rewrite Hname in *. rewrite child_render in * by done.
  destruct (physical_child dir _ _ _ _ _ _ _ Hd Hx Hpd Hp') as (_ & Hne & Hloc & Hends). split_and!; [done| |done..].
  exists (locate dir b ++ l). by rewrite HS, app_assoc.
Qed.
(** The directory of the source itself is above every target. *)
Lemma root_above ld b p bd pd : good_segs ld = true -> resolvePhysicalPath source (render []) = Ok (b, p) ->
  resolvePhysicalPath source (render ld) = Ok (bd, pd) -> locate dir p `prefix_of` locate dir pd.
Proof.
  intros Hd Hp Hpd. destruct (physical_render dir _ _ _ _ Hd Hpd) as (_ & E & _). destruct (physical_render dir _ [] _ _ eq_refl Hp) as (_ & E' & _).
  rewrite E, E', app_nil_r, (resolve_base _ _ _ _ _ _ _ Hp Hpd). by apply prefix_app_r.
Qed.
Lemma move_local_spec req : aon (moveLocal source req) (move_done dir source n req).
Proof.
  unfold moveLocal. apply aon_lift. intros old Hold. pose proof (normalize_canonical _ _ Hold) as (q & Hq & ->).
  apply aon_lift. intros target Htarget. pose proof (normalize_canonical _ _ Htarget) as (ld & Hd & ->).
  apply aon_lift. intros [b p] Hp. destruct (physical_render dir _ _ _ _ Hq Hp) as (Hpne & _). cbn [snd].
  apply aon_stat; [done|]. intros node now Hnode. apply aon_lift. intros [bp pp] Hpp. cbn [snd].
  assert (pp <> "") as Hppne by (by destruct (physical_spec dir _ _ _ _ Hpp) as (? & _ & _ & ? & _)).
  apply aon_writable; [done..|]. intros w. apply aon_if; [intros _; apply aon_throw|intros _].
  apply aon_lift. intros [bd pd] Hpd. destruct (physical_render dir _ _ _ _ Hd Hpd) as (Hpdne & _). cbn [snd].
  apply aon_stat; [done|]. intros dnode dnow Hdnode. apply aon_if; [intros _; apply aon_throw|intros Hdir].
  apply aon_writable; [done..|]. intros w'. apply aon_if; [intros _; apply aon_throw|intros _]. cbv zeta.
  apply aon_lift. intros [b' p'] Hp'. cbn [snd].
  assert (p' <> "") as Hpne' by (by destruct (physical_spec dir _ _ _ _ Hp') as (? & _ & _ & ? & _)).
  apply aon_free; [done| |apply aon_throw]. intros Hnone. cbv iota.
  eapply aon_act; [by apply sspec_Rename|]. intros u n' (Hok & Hrel & Ht' & Hap).
  pose proof (renamable_apart _ _ _ Hok Hap Hnone) as Hapart. clear Hap.
  assert (dnode = NDir) as -> by (by destruct dnode).
  destruct (snoc_or_nil q) as [->|(l & x & ->)].
  { exfalso. destruct (physical_spec dir _ _ _ _ Hp') as (q' & _ & _ & _ & E & _). apply Hapart.
    destruct (physical_render dir _ [] _ _ eq_refl Hp) as (_ & E' & _). rewrite E, E', app_nil_r, (resolve_base _ _ _ _ _ _ _ Hp Hp').
    by apply prefix_app_r. }
  destruct (transfer_places l x ld b p bd pd b' p' node now) as (Enew & [k Ek] & _ & Eto & _ & _); [done..|].
  rewrite Enew in *. rewrite Ek, Eto in *. apply tspec_ret. split; [done|]. eexists. split; [done|]. split; [done|].
  exists l, x, k, ld, (locate dir pd). split_and!; try done; try by eexists _, _; try by eexists.
  intros Hk. apply Hapart. etrans; [exact Hk|]. by apply prefix_app_r.
Qed.
Lemma copy_local_spec req : named n -> shallow n ->
  (forall old target k d, normalizeVirtualPath (mv_Path req) = Ok old -> normalizeVirtualPath (mv_TargetPath req) = Ok target ->
     located dir source old k -> located dir source target d -> n !! k = Some NDir -> ~ k `prefix_of` d) ->
  aon (copyLocal source req) (copy_done dir source n req).
Proof.
  intros Hnamed Hshallow Hapart. unfold copyLocal. apply aon_lift. intros old Hold. pose proof (normalize_canonical _ _ Hold) as (q & Hq & ->).
  apply aon_lift. intros target Htarget. pose proof (normalize_canonical _ _ Htarget) as (ld & Hd & ->).
  apply aon_lift. intros [b p] Hp. destruct (physical_render dir _ _ _ _ Hq Hp) as (Hpne & _). cbn [snd].
  apply aon_stat; [done|]. intros node now Hnode.
  apply aon_lift. intros [bd pd] Hpd. destruct (physical_render dir _ _ _ _ Hd Hpd) as (Hpdne & _). cbn [snd].
  apply aon_stat; [done|]. intros dnode dnow Hdnode. apply aon_if; [intros _; apply aon_throw|intros Hdir].
  assert (dnode = NDir) as -> by (by destruct dnode).
  assert (~ locate dir p `prefix_of` locate dir pd) as Hnot.
  { destruct node as [|data mtime]; [eapply Hapart; [done..|by eexists _, _|by eexists _, _|done]|].
    intros [r E]. rewrite E in Hdnode. destruct (decide (r = [])) as [->|Hr]; [rewrite app_nil_r in Hdnode; congruence|].
    by rewrite (tree_below_file n _ r data mtime) in Hdnode. }
  apply aon_writable; [done..|]. intros w. apply aon_if; [intros _; apply aon_throw|intros _]. cbv zeta.
  apply aon_lift. intros [b' p'] Hp'. cbn [snd].
  assert (p' <> "") as Hpne' by (by destruct (physical_spec dir _ _ _ _ Hp') as (? & _ & _ & ? & _)).
  apply aon_free; [done| |apply aon_throw]. intros Hnone. cbv iota.
  destruct (snoc_or_nil q) as [->|(l & x & ->)]; [exfalso; by eapply Hnot, root_above|].
  destruct (transfer_places l x ld b p bd pd b' p' node now) as (Enew & [k Ek] & _ & Eto & Hends & Hx); [done..|].
  assert (n !! removelast (locate dir p') = Some NDir) as Hup by by rewrite Eto, removelast_last.
  assert (~ locate dir p `prefix_of` locate dir p') as Hnot'.
  { intros Hk. apply Hnot. rewrite <- (removelast_last (locate dir pd) x), <- Eto. apply removelast_below; [done|]. intros E. congruence. }
  eapply (aon_act _ _ _ _ _ _ (fun _ n' => tree n' /\ cloned n (locate dir p) (locate dir p') n n')).
  - destruct node as [|data mtime]; cbn [info_of fsi_IsDir].
    + eapply tspec_mono; [by apply (sspec_copyDirectory dir p p' x n)|]. by intros r n' (-> & ? & ?).
    + eapply tspec_mono; [by apply (sspec_copyFile dir p p' n data mtime x)|]. intros r n' (-> & -> & ?). split; [done|]. by apply cloned_file.
  - intros u n' [Ht' Hc]. apply tspec_ret. split; [done|]. eexists. split; [done|]. split; [done|]. rewrite Enew in *. rewrite Ek, Eto in *.
    exists l, x, k, ld, (locate dir pd). split_and!; try done; by eexists _, _ || by eexists.
Qed.
End LocalOps.

(** ** The trash *)
Class TrashStampLaws {TS : TrashStamp} : Prop := stamp_law : forall t, good_seg (trash_stamp t) = true.

Lemma tail_snoc l x : l <> [] -> tail_of (l ++ [x]) = tail_of l +:+ String slash x.
Proof.
  destruct l as [|y l]; [done|]. intros _. cbn [app tail_of]. rewrite render_tail_app, append_assoc. cbn [render_tail].
  by rewrite append_nil_r.
Qed.
Lemma path_dir_tail l x : forallb plain_seg (l ++ [x]) = true -> path_dir (tail_of (l ++ [x])) = if decide (l = []) then "." else tail_of l.
Proof.
  rewrite forallb_app, andb_true_iff. intros [Hl [(_ & _ & _ & Hx)%plain_seg_spec _]%andb_true_iff]. unfold path_dir.
  destruct (decide (l = [])) as [->|Hne]; [cbn; by rewrite append_nil_r, split_last_no|].
  rewrite tail_snoc, split_last_app by done. cbn [fst]. destruct l as [|y l]; [done|].
  assert (has_prefix (tail_of (y :: l) +:+ "/") "/" = false) as Hp.
  { apply andb_true_iff in Hl as [(H1 & _ & _ & H4)%plain_seg_spec _]. cbn [tail_of]. rewrite append_assoc. by apply has_prefix_head. }
  unfold path_clean. rewrite Hp, (proj2 (String.eqb_neq _ _)) by by intros [_ ?]%append_eq_nil.
  unfold clean_segs. change (tail_of (y :: l) +:+ "/") with (tail_of (y :: l) +:+ String slash ""). rewrite split_on_sep, split_tail, fold_left_app, (fold_push false (y :: l)), app_nil_r by done. cbn [split_on fold_left].
  change (clean_step false (rev (y :: l)) "") with (rev (y :: l)). by rewrite rev_involutive.
Qed.
Lemma trash_paths {TS : TrashStamp} {TSL : TrashStampLaws} q t : good_segs q = true ->
  good_segs (trash_path t q) = true /\ snd (buildTrashPaths (render q) t) = render (trash_path t q).
Proof.
  intros Hq. pose proof (stamp_law t) as Hs. assert (good_segs (trash_path t q) = true) as Hg by (cbn; by rewrite Hs).
  split; [done|]. pose proof (good_segs_plain _ Hg) as Hp. unfold trash_path in *. set (st := trash_stamp t) in *.
  assert (plain_seg st = true) as Hst by by apply good_plain.
  assert (path_join "/.trash" st = render [".trash"; st]) as Hjoin.
  { pose proof (join_clean [".trash"] [st] eq_refl) as Hj. cbn [forallb] in Hj. rewrite Hst in Hj. specialize (Hj eq_refl).
    rewrite trim_slash_tail in Hj. cbn [tail_of render_tail] in Hj. by rewrite append_nil_r in Hj. }
  unfold buildTrashPaths. fold st. rewrite Hjoin, trim_slash_tail. cbn [snd].
  destruct (snoc_or_nil q) as [->|(l & x & ->)].
  - change (path_clean (render [".trash"; st] +:+ String slash (String slash "")) = render [".trash"; st]).
    rewrite path_clean_rooted by done. unfold clean_segs. rewrite split_on_sep, fold_left_app. cbn [split_on fold_left].
    change (clean_step true (clean_step true ?a "") "") with a.
    exact (f_equal render (clean_segs_render [".trash"; st] Hp)).
  - apply good_last in Hq as (Hl%good_segs_plain & Hx & _).
    assert (forallb plain_seg ([".trash"; st] ++ l) = true) as Hpl by (rewrite forallb_app; cbn; by rewrite Hst, Hl).
    assert (forallb plain_seg (l ++ [x]) = true) as Hlx by (rewrite forallb_app, Hl; cbn; by rewrite Hx).
    rewrite path_dir_tail, path_base_snoc by done.
    assert ((if negb (String.eqb (if decide (l = []) then "." else tail_of l) ".") &&
                negb (String.eqb (if decide (l = []) then "." else tail_of l) "/")
             then path_join (render [".trash"; st]) (if decide (l = []) then "." else tail_of l)
             else render [".trash"; st]) = render ([".trash"; st] ++ l)) as ->.
    { destruct (decide (l = [])) as [->|Hne]; [done|]. pose proof (split_tail l Hne Hl) as E.
      destruct (String.eqb_spec (tail_of l) ".") as [E1|_]; [rewrite E1 in E; by subst l|].
      destruct (String.eqb_spec (tail_of l) "/") as [E1|_]; [rewrite E1 in E; by subst l|]. cbn [negb andb].
      rewrite <- trim_slash_tail. apply join_clean; [|done]. cbn. by rewrite Hst. }
    destruct (String.eqb_spec (render ([".trash"; st] ++ l)) "/") as [E|_]; [by apply (render_inj _ []) in E|].
    pose proof (join_clean ([".trash"; st] ++ l) [x] Hpl) as Hj. cbn [forallb] in Hj. rewrite Hx in Hj. specialize (Hj eq_refl).
    rewrite trim_slash_tail in Hj. cbn [tail_of render_tail] in Hj. rewrite append_nil_r in Hj. rewrite Hj. by rewrite <- app_assoc.
Qed.

Section LocalTrash.
Context `{DatabaseLaws} {TF : TimeFormat} {TN : TimeFormatNano} {JD : JsonDecoder} {MT : MimeTypes} {PL : PathLimit} {TS : TrashStamp}
  {TSL : TrashStampLaws}.
Context (s : FileService) (dir : string) (source : StorageSource) (n : Tree) (Ht : tree n).
Notation hspec m n Q := (tspec dir sound h_disk m n Q).

(** What a deletion does, and what one that fails leaves. *)
Definition deleted (req : DeleteFileRequest) (r : result GoErr Z) (n' : Tree) : Prop :=
  tree n' /\
  if String.eqb (dq_DeleteMode req) "permanent"
  then match r with Ok _ => remove_done dir source n req n' | Err _ => n' = n end
  else match r with
       | Ok t => trash_done dir source n req t n'
       | Err _ => n' = n \/ exists trash, trash_dir dir source trash /\ same_outside trash n n'
       end.

Lemma hspec_lift {A B} (r : result GoErr A) (k : A -> M GoErr Host B) n1 Q : (forall e, Q (Err e) n1) ->
  (forall a, r = Ok a -> hspec (k a) n1 Q) -> hspec (bind (lift_result r) k) n1 Q.
Proof. intros He Hk. destruct r as [a|e]; [by apply Hk|]. intros h Hh. exists n1. split; [exact Hh|apply He]. Qed.
Lemma hspec_ignored {A} (m : M OsErr Disk A) n1 (P : Tree -> Prop) :
  tspec dir sound (fun d => d) m n1 (fun _ n' => P n') -> hspec (ignored m) n1 (fun r n' => r = Ok tt /\ P n').
Proof.
  intros Hm. eapply tspec_bind_or; [by apply tspec_disk|intros e n' HP; by apply tspec_ret|intros a n' HP; by apply tspec_ret].
Qed.
(** The trash of a source, and where a path of it goes there. *)
Lemma trash_located b q t bt pt p : good_segs q = true ->
  resolvePhysicalPath source (render q) = Ok (b, p) -> resolvePhysicalPath source (render (trash_path t q)) = Ok (bt, pt) ->
  p <> "" /\ pt <> "" /\ locate dir p = locate dir b ++ q /\ locate dir pt = locate dir b ++ trash_path t q /\
  removelast (locate dir pt) = locate dir (path_dir pt).
Proof.
  intros Hq Hp Hpt. pose proof (resolve_base _ _ _ _ _ _ _ Hp Hpt) as <-. destruct (trash_paths q t Hq) as [Hg _].
  destruct (physical_render dir _ _ _ _ Hq Hp) as (H1 & H2 & _). destruct (physical_render dir _ _ _ _ Hg Hpt) as (H3 & H4 & H5).
  split_and!; [done..|]. destruct (snoc_or_nil (trash_path t q)) as [|(l & x & E)]; [done|]. apply good_segs_plain in Hg. rewrite E in Hg.
  rewrite forallb_app in Hg. apply andb_true_iff in Hg as [_ [Hx _]%andb_true_iff].
  by rewrite (locate_dir dir pt x (H5 _ _ E) Hx), removelast_last.
Qed.
(** Undoing a deletion that cannot be recorded. *)
Lemma hspec_undo {A} p pt e n2 (S := locate dir p) (T := locate dir pt) trash : tree n2 -> is_Some (n !! S) -> S <> [] -> p <> "" -> pt <> "" ->
  locate dir (path_dir p) = removelast S -> trash `prefix_of` T -> ~ T `prefix_of` S -> trashed n S T trash n2 ->
  hspec (do! ignored (OsMkdirAll (path_dir p)) ;; do! ignored (OsRename pt p) ;; (throw e : M GoErr Host A)) n2
    (fun r n' => tree n' /\ r = Err e /\ same_outside trash n n').
Proof.
  intros Ht2 HS Hne Hp Hpt Hdir HT HTS [Hin Hout].
  eapply (tspec_bind _ _ _ _ _ _ (fun r n3 => r = Ok tt /\ tree n3 /\ (n3 = n2 \/ made n2 (removelast S) n3))); [|by intros e' n' []|].
  { apply hspec_ignored. eapply tspec_mono; [apply sspec_MkdirAll; [apply clean_not_nil|done]|]. rewrite Hdir.
    intros [u|e'] n3; [|by intros ->; auto]. intros Hm. split; [apply Hm|by right]. }
  intros u n3 (_ & Ht3 & Hm). fold T S in HT, HTS.
  eapply (tspec_bind _ _ _ _ _ _ (fun r n4 => r = Ok tt /\ n4 = snd (rename_node T S n3))); [|by intros e' n' []|].
  { apply hspec_ignored. eapply tspec_mono; [by apply sspec_rename_node|]. intros r n4 E. fold T S in E. by rewrite <- E. }
  intros u' n4 [_ ->]. apply tspec_throw. pose proof (rename_spec n3 T S Ht3) as Hr. destruct (rename_node T S n3) as [[[]|e'] n4] eqn:E; cbn [snd].
  - destruct Hr as (_ & Hr & Ht4 & _). split; [done|]. split; [done|]. by eapply (put_back n n2 n3 n4 S T trash).
  - subst n4. split; [done|]. split; [done|]. destruct (decide (trash `prefix_of` S)) as [HtS|HtS].
    + intros k Hk. eapply (back_outside n n2 n3 S trash); [done..|]. intros HSk. apply Hk. by etrans.
    + destruct (may_go_back n n2 n3 S T trash) as (H1 & H2 & H3); [done..|].
      destruct (rename_succeeds n3 T S) as [n5 E5]; [done..|]. congruence.
Qed.
Lemma trash_local_spec q b p info : good_segs q = true -> resolvePhysicalPath source (render q) = Ok (b, p) -> is_Some (n !! locate dir p) ->
  hspec (trashLocal s source (render q) p info) n (fun r n' => tree n' /\ match r with
    | Ok t => exists trash to, trash_dir dir source trash /\ located dir source (render (trash_path t q)) to /\ trash `prefix_of` to /\
                ~ locate dir p `prefix_of` to /\ trashed n (locate dir p) to trash n'
    | Err _ => n' = n \/ exists trash, trash_dir dir source trash /\ same_outside trash n n'
    end).
Proof.
  intros Hq Hp HS. unfold trashLocal.
  assert (forall n', n' = n -> tree n' /\ (n' = n \/ exists trash, trash_dir dir source trash /\ same_outside trash n n')) as Hsame by (intros ? ->; split; [done|by left]).
  eapply tspec_bind; [apply (quiet_world dir)|intros e n' ->; by apply Hsame|]. intros t n' ->.
  eapply (tspec_bind _ _ _ _ _ _ (fun _ n' => n' = n)); [eapply tspec_os; [apply tspec_entry_size|done..]|intros e n' ->; by apply Hsame|].
  intros size n' ->. cbv zeta. destruct (trash_paths q t Hq) as [Hg ->].
  eapply (tspec_bind _ _ _ _ _ _ (fun r n' => n' = n /\ r = resolvePhysicalPath source (render (trash_path t q))));
    [intros h Hh; by exists n|intros e n' [-> _]; by apply Hsame|]. intros [bt pt] n' [-> Hpt]. cbn [snd]. symmetry in Hpt.
  destruct (trash_located _ _ _ _ _ _ Hq Hp Hpt) as (Hpne & Hptne & HSq & HTq & Hdir). set (S := locate dir p) in *. set (T := locate dir pt) in *.
  assert (trash_dir dir source (locate dir b ++ [".trash"])) as Hthere by by exists (render q), b, p.
  assert (locate dir b ++ [".trash"] `prefix_of` T) as HtT by (rewrite HTq; exists (trash_stamp t :: q); by rewrite <- app_assoc).
  eapply (tspec_bind _ _ _ _ _ _ (fun r n' => match r with Ok _ => made n (removelast T) n' | Err _ => n' = n end));
    [|intros e n' ->; by apply Hsame|].
  { eapply tspec_map_err; [apply tspec_disk, sspec_MkdirAll; [apply clean_not_nil|done]|done|]. intros a n' Hm. by rewrite Hdir. }
  intros u n1 Hm. pose proof Hm as (_ & Ht1 & _).
  eapply (tspec_bind _ _ _ _ _ _ (fun r n' => match r with
    | Ok _ => relocated n1 S T n' /\ tree n' /\ ~ S `prefix_of` T | Err _ => n' = n1 end)).
  { eapply tspec_map_err; [apply tspec_disk, (sspec_Rename dir p pt n1); [done|done]|done|]. intros a n' (_ & Hr & Ht2 & Hpre).
    split; [done|]. split; [done|]. intros HST. apply Hpre, (f_equal length) in HST. fold S T in HST. rewrite HSq, HTq, !length_app in HST. cbn in HST. lia. }
  { intros e n' ->. split; [done|]. right. eexists. split; [exact Hthere|]. rewrite HSq, HTq in *. by eapply made_in_trash. }
  intros u' n2 (Hr & Ht2 & Hap).
  assert (trashed n S T (locate dir b ++ [".trash"]) n2) as Htd.
  { rewrite HSq, HTq in *. by eapply (trashed_rename n (locate dir b) q (trash_stamp t) n1 n2). }
  destruct (snoc_or_nil q) as [Eq|(l & x & Eq)]; [destruct Hap; rewrite HSq, HTq, Eq, app_nil_r; by apply prefix_app_r|].
  assert (locate dir (path_dir p) = locate dir b ++ l) as Hql.
  { destruct (physical_render dir _ _ _ _ Hq Hp) as (_ & E & He). rewrite Eq in *. apply good_last in Hq as (_ & Hx & _).
    rewrite (locate_dir dir p x (He _ _ eq_refl) Hx), app_assoc in E. by apply app_inj_tail in E as [E _]. }
  eapply tspec_bind_or; [apply (quiet_world dir)| |].
  - intros e n3 ->. eapply tspec_mono; [apply (hspec_undo p pt e n2 (locate dir b ++ [".trash"])); try done|].
    + fold S. rewrite HSq, Eq. by destruct (locate dir b), l.
    + fold S. by rewrite HSq, Hql, Eq, app_assoc, removelast_last.
    + fold S T. intros HTS%prefix_length. rewrite HSq, HTq, !length_app in HTS. cbn in HTS. lia.
    + intros r n4 (H1 & -> & H3). split; [done|]. right. by eexists.
  - intros v n3 ->. apply tspec_ret. split; [done|]. exists (locate dir b ++ [".trash"]), T. split_and!; try done. by eexists _, _.
Qed.
Lemma hspec_time n1 (Q : result GoErr Z -> Tree -> Prop) : (forall t, Q (Ok t) n1) -> hspec (on_world time_now) n1 Q.
Proof. intros HQ h Hh. apply wp_zoom. apply wp_time_now. by exists n1. Qed.
Lemma deleted_nothing req e : deleted req (Err e) n.
Proof. split; [done|]. case_match; [done|by left]. Qed.
Lemma delete_local_spec req : hspec (deleteLocal s source req) n (deleted req).
Proof.
  unfold deleteLocal. apply hspec_lift; [intros; apply deleted_nothing|]. intros v Hv. pose proof (normalize_canonical _ _ Hv) as (q & Hq & ->).
  apply hspec_lift; [intros; apply deleted_nothing|]. intros [b p] Hp. destruct (physical_render dir _ _ _ _ Hq Hp) as (Hpne & HS & He). cbn [snd].
  eapply tspec_bind_or; [by apply tspec_disk, sspec_Stat|intros e n' [-> _]; apply tspec_throw, deleted_nothing|].
  intros info n' [-> (node & now & Hnode & ->)].
  apply hspec_lift; [intros; apply deleted_nothing|]. intros [bp pp] Hpp. cbn [snd].
  assert (pp <> "") as Hppne by (by destruct (physical_spec dir _ _ _ _ Hpp) as (? & _ & _ & ? & _)).
  eapply (tspec_bind _ _ _ _ _ _ (fun _ n' => n' = n)); [eapply tspec_os; [by apply sspec_probe|done..]|intros e n' ->; apply deleted_nothing|].
  intros w n' ->. destruct (negb w); [apply tspec_throw, deleted_nothing|]. destruct (String.eqb (dq_DeleteMode req) "permanent") eqn:Em.
  - eapply (tspec_bind _ _ _ _ _ _ (fun r n' => match r with
      | Ok _ => locate dir p <> [] /\ tree n' /\ forall k', n' !! k' = if below (locate dir p) k' then None else n !! k' | Err _ => n' = n end)).
    { eapply tspec_map_err; [by apply tspec_disk, sspec_RemoveAll|done..]. }
    { intros e n' ->. apply deleted_nothing. }
    intros u n' (Hne & Ht' & Hn'). apply hspec_time. intros t. split; [done|]. rewrite Em. exists (render q), (locate dir p).
    split_and!; try done. by exists b, p.
  - eapply tspec_mono; [by apply (trash_local_spec q b p)|]. intros [t|e] n' [Ht' Hr]; (split; [done|rewrite Em; try done]).
    destruct Hr as (trash & to & H1 & H2 & H3 & H4 & H5). destruct (snoc_or_nil q) as [->|(l & x & ->)].
    { exfalso. apply H4. rewrite HS, app_nil_r. destruct H2 as (b' & p' & Hp' & <-). destruct (trash_paths [] t eq_refl) as [Hg _].
      destruct (physical_render dir _ _ _ _ Hg Hp') as (_ & E & _). rewrite E, (resolve_base _ _ _ _ _ _ _ Hp Hp'). by apply prefix_app_r. }
    exists l, x, (locate dir p), trash, to. split_and!; try done. by exists b, p.
Qed.

(** What restoring does; one that fails may leave new directories on the
    way to where the file was. *)
Definition restored (item : TrashItem) (r : result GoErr unit) (n' : Tree) : Prop :=
  tree n' /\
  match r with
  | Ok _ => restore_done dir source n item n'
  | Err _ => n' = n \/ exists b original, resolvePhysicalPath source (ti_OriginalPath item) = Ok (b, original) /\
      made n (locate dir (path_dir original)) n'
  end.
Lemma restored_nothing item e : restored item (Err e) n.
Proof. split; [done|by left]. Qed.
Lemma restore_local_spec item : hspec (restoreLocalTrash source item) n (restored item).
Proof.
  unfold restoreLocalTrash. apply hspec_lift; [intros; apply restored_nothing|]. intros [b original] Ho. cbn [snd].
  assert (original <> "") as Hone by (by destruct (physical_spec dir _ _ _ _ Ho) as (? & _ & _ & ? & _)).
  apply hspec_lift; [intros; apply restored_nothing|]. intros [b' trash] Htr. cbn [snd].
  assert (trash <> "") as Htne by (by destruct (physical_spec dir _ _ _ _ Htr) as (? & _ & _ & ? & _)).
  eapply (tspec_bind _ _ _ _ _ _ (fun r n' => n' = n /\ forall free, r = Ok free -> free = true -> n !! locate dir original = None)).
  { eapply tspec_bind_or; [by apply tspec_disk, sspec_Stat| |].
    - intros e n' [-> Hn]. destruct e; first [by apply tspec_throw|by apply tspec_ret].
    - intros info n' [-> _]. apply tspec_ret. split; [done|]. by intros free [= <-]. }
  { intros e n' [-> _]. apply restored_nothing. }
  intros free n' [-> Hfree]. specialize (Hfree free eq_refl). destruct free; [|apply tspec_throw, restored_nothing]. specialize (Hfree eq_refl). cbn [negb].
  eapply (tspec_bind _ _ _ _ _ _ (fun r n' => match r with Ok _ => made n (locate dir (path_dir original)) n' | Err _ => n' = n end)).
  { eapply tspec_os; [apply sspec_MkdirAll; [apply clean_not_nil|done]|done..]. }
  { intros e n' ->. apply restored_nothing. }
  intros u n1 Hm. pose proof Hm as (_ & Ht1 & _).
  assert (forall e, restored item (Err e) n1) as Hmade by (intros e; split; [done|right; by exists b, original]).
  eapply (tspec_bind _ _ _ _ _ _ (fun _ n' => n' = n1)); [eapply tspec_map_err; [apply tspec_disk; by apply tspec_quiet|done..]|intros e n' ->; apply Hmade|].
  intros info n' ->. eapply tspec_map_err; [by apply tspec_disk, sspec_Rename|intros e n' ->; apply Hmade|].
  intros [] n2 ([Hfrom _] & Hr & Ht2 & _). split; [done|]. by exists b, original, b', trash, n1.
Qed.
End LocalTrash.

(** ** The requests *)
Section Services.
Context `{DatabaseLaws} {MR : MetadataReader} {MRL : MetadataReaderLaws} {TF : TimeFormat} {TN : TimeFormatNano} {JD : JsonDecoder} {JM : JsonMapDecoder}
  {MT : MimeTypes} {JL : JwtLibrary FileAccessClaims} {UL : UuidLibrary} {FD : FileDrivers} {FO : FileDriverOps}
  {CP : CapabilityProviders} {OR : ObjectReaders} {PL : PathLimit} {TS : TrashStamp} {TSL : TrashStampLaws}.
Context (s : FileService) (tr : TrashService) (dir : string).
Notation hspec m n Q := (tspec dir sound h_disk m n Q).

(** What a request does, and what one that fails leaves, whatever the
    error. *)
Definition outcome {A} (P : A -> Tree -> Prop) (R : Tree -> Prop) (r : result GoErr A) (n' : Tree) : Prop :=
  match r with Ok a => P a n' | Err _ => R n' end.
Lemma hspec_refuse {A} ctx action result code id p err n (P : A -> Tree -> Prop) (R : Tree -> Prop) : R n ->
  hspec (refuse_file s ctx action result code id p err) n (outcome P R).
Proof. intros HR h Hh. apply wp_zoom, wp_bind, wp_audit. intros w' _. by exists n. Qed.
Lemma hspec_granted {A} ctx action source p wanted (k : unit -> M GoErr Host A) n (P : A -> Tree -> Prop) (R : Tree -> Prop) : R n ->
  hspec (k tt) n (outcome P R) -> hspec (bind (file_granted s ctx action source p wanted) k) n (outcome P R).
Proof.
  intros HR Hk. eapply (tspec_bind _ _ _ _ _ _ (outcome (fun _ n' => n' = n) (fun n' => n' = n))); [|by intros e n' ->|by intros [] n' ->].
  eapply tspec_bind_or; [apply (quiet_world dir)|intros e n' ->; by apply hspec_refuse|intros u n' ->; by apply tspec_ret].
Qed.
Lemma hspec_tried {A B} ctx action source p (m : M GoErr Host A) (k : A -> M GoErr Host B) n (P : B -> Tree -> Prop) (P' : A -> Tree -> Prop) (R : Tree -> Prop) :
  hspec m n (outcome P' R) -> (forall a n', P' a n' -> hspec (k a) n' (outcome P R)) ->
  hspec (bind (file_tried s ctx action source p m) k) n (outcome P R).
Proof.
  intros Hm Hk. eapply (tspec_bind _ _ _ _ _ _ (outcome P' R)); [|done|exact Hk].
  eapply tspec_bind_or; [exact Hm| |intros a n' HP; by apply tspec_ret].
  intros e n' HR. destruct e; first [by apply tspec_throw|by apply hspec_refuse].
Qed.
Lemma hspec_done {A} ctx e (a : A) n (P : A -> Tree -> Prop) (R : Tree -> Prop) : P a n ->
  hspec (do! file_done s ctx e ;; ret a) n (outcome P R).
Proof.
  intros HP. eapply (tspec_bind _ _ _ _ _ _ (outcome (fun _ n' => n' = n) (fun _ => False))); [|done|intros u n' ->; by apply tspec_ret].
  intros h Hh. apply wp_zoom, wp_audit. intros w' _. by exists n.
Qed.

(** The source of a request is one there is. *)
Definition on_source (P : StorageSource -> Prop) (w : World) (id : N) : Prop :=
  exists source, source ∈ tbl TSource w /\ src_ID source = id /\ P source.
Lemma wp_source {B} id (k : StorageSource -> M GoErr Host B) n Q h : holds dir sound n (h_disk h) -> (forall e, Q (Err e) n) ->
  (forall source, source ∈ tbl TSource (h_world h) -> src_ID source = id -> hspec (k source) n Q) ->
  wp (bind (on_world (SourceRepository_FindByID id)) k) (fun r h' => exists n', holds dir sound n' (h_disk h') /\ Q r n') h.
Proof.
  intros Hh He Hk. apply wp_bind, wp_zoom, (wp_first TSource); [intros e w' _ _; by exists n|intros w' _ _; by exists n|].
  intros r w' _ Hr Hid%N.eqb_eq _. by apply (Hk r).
Qed.
(** *** Other sources: the disk is not touched *)
Ltac quiet_step :=
  lazymatch goal with
  | |- quiet _ (bind _ _) => apply quiet_bind; [|intros ?]
  | |- quiet _ (bind_or _ _ _) => apply quiet_bind_or; [|intros ?|intros ?]
  | |- quiet _ (ret _) => apply quiet_ret
  | |- quiet _ (throw _) => apply quiet_throw
  | |- quiet _ (lift_result _) => apply quiet_lift
  | |- quiet _ (on_world _) => apply quiet_world
  | |- quiet _ (drv _ _) => apply quiet_map_err, quiet_world
  | |- quiet _ (let '(_, _) := ?p in _) => destruct p
  | |- quiet _ (if ?b then _ else _) => destruct b
  | |- quiet _ (match ?e with _ => _ end) => destruct e
  end.
Ltac quiet_tac := repeat quiet_step.
Lemma quiet_driver t : quiet dir (file_getDriver t).
Proof. unfold file_getDriver. quiet_tac. Qed.
Lemma quiet_mkdir source req : quiet dir (mkdirWithDriver source req).
Proof. unfold mkdirWithDriver. quiet_tac. apply quiet_driver. Qed.
Lemma quiet_rename source req : quiet dir (renameWithDriver source req).
Proof. unfold renameWithDriver. quiet_tac. apply quiet_driver. Qed.
Lemma quiet_transfer conflict call source req : quiet dir (drv_transfer conflict call source req).
Proof. unfold drv_transfer. quiet_tac. apply quiet_driver. Qed.
Lemma quiet_ensure_path source p : quiet dir (ensureDriverPath source p).
Proof.
  unfold ensureDriverPath. quiet_tac. generalize "/" at 1 as parent. intros parent. revert parent. generalize (split_on slash (trim_prefix a "/")) as segments. intros segments. induction segments as [|segment rest IH]; intros parent;
    cbn [ensure_driver_path]; quiet_tac; try apply IH. unfold ensureDriverDirectory. quiet_tac.
Qed.
Lemma quiet_moving_back {A} (m : M GoErr Host A) : quiet dir m -> quiet dir (moving_back m).
Proof. intros Hm. unfold moving_back. by quiet_tac. Qed.
Lemma quiet_delete source req : quiet dir (deleteWithDriver s source req).
Proof.
  unfold deleteWithDriver, trashWithDriver. quiet_tac; first [apply quiet_driver|apply quiet_ensure_path|apply quiet_moving_back]; [apply quiet_ensure_path|quiet_tac].
Qed.
Lemma quiet_restore source item : quiet dir (restoreDriverTrash source item).
Proof. unfold restoreDriverTrash. quiet_tac. apply quiet_ensure_path. Qed.
(** *** What each is for *)
Inductive FileCommand : Type :=
| CmdMkdir (req : MkdirRequest) | CmdRename (req : RenameRequest) | CmdMove (req : MoveCopyRequest) | CmdCopy (req : MoveCopyRequest)
| CmdDelete (req : DeleteFileRequest) | CmdRestore (id : N).
Inductive FileReply : Type :=
| RpItem (item : FileItem) | RpRenamed (old new : string) (item : FileItem) | RpPaths (old new : string) | RpDeleted (deletedAt : Z)
| RpRestored.
Definition run_command (ctx : Ctx) (c : FileCommand) : M GoErr Host FileReply :=
  match c with
  | CmdMkdir req => item <-! FileService_Mkdir s ctx req ;; ret (RpItem item)
  | CmdRename req => r <-! FileService_Rename s ctx req ;; ret (RpRenamed (fst (fst r)) (snd (fst r)) (snd r))
  | CmdMove req => r <-! FileService_Move s ctx req ;; ret (RpPaths (fst r) (snd r))
  | CmdCopy req => r <-! FileService_Copy s ctx req ;; ret (RpPaths (fst r) (snd r))
  | CmdDelete req => t <-! FileService_Delete s ctx req ;; ret (RpDeleted t)
  | CmdRestore id => do! TrashService_Restore tr ctx id ;; ret RpRestored
  end.
(** The source a request is about. *)
Definition command_source (w : World) (c : FileCommand) (source : StorageSource) : Prop :=
  source ∈ tbl TSource w /\
  match c with
  | CmdMkdir req => src_ID source = mk_SourceID req
  | CmdRename req => src_ID source = rq_SourceID req
  | CmdMove req | CmdCopy req => src_ID source = mv_SourceID req
  | CmdDelete req => src_ID source = dq_SourceID req
  | CmdRestore id => exists item, item ∈ tbl TTrash w /\ ti_ID item = id /\ src_ID source = ti_SourceID item
  end.
Definition command_done (w : World) (n : Tree) (source : StorageSource) (c : FileCommand) (reply : FileReply) (n' : Tree) : Prop :=
  match c, reply with
  | CmdMkdir req, RpItem item => mkdir_done dir source n req item n'
  | CmdRename req, RpRenamed old new item => rename_done dir source n req (old, new, item) n'
  | CmdMove req, RpPaths old new => move_done dir source n req (old, new) n'
  | CmdCopy req, RpPaths old new => copy_done dir source n req (old, new) n'
  | CmdDelete req, RpDeleted t =>
      if String.eqb (dq_DeleteMode req) "permanent" then remove_done dir source n req n' else trash_done dir source n req t n'
  | CmdRestore id, RpRestored => exists item, item ∈ tbl TTrash w /\ ti_ID item = id /\ restore_done dir source n item n'
  | _, _ => False
  end.
(** What a request that fails may leave behind: changes in the trash;
    empty directories above the place of what was not restored; or what was
    restored, when its record cannot be deleted. *)
Definition command_leaves (w : World) (n : Tree) (source : StorageSource) (c : FileCommand) (n' : Tree) : Prop :=
  match c with
  | CmdDelete req => dq_DeleteMode req <> "permanent" /\ exists trash, trash_dir dir source trash /\ same_outside trash n n'
  | CmdRestore id => exists item, item ∈ tbl TTrash w /\ ti_ID item = id /\
      (restore_done dir source n item n' \/ exists b original, resolvePhysicalPath source (ti_OriginalPath item) = Ok (b, original) /\
         made n (locate dir (path_dir original)) n')
  | _ => False
  end.
(** Copies are within bounds, and not into themselves. *)
Definition command_ready (w : World) (n : Tree) (c : FileCommand) : Prop :=
  match c with
  | CmdCopy req => named n /\ shallow n /\ forall source old target k d, command_source w c source ->
      normalizeVirtualPath (mv_Path req) = Ok old -> normalizeVirtualPath (mv_TargetPath req) = Ok target ->
      located dir source old k -> located dir source target d -> n !! k = Some NDir -> ~ k `prefix_of` d
  | _ => True
  end.
Definition done_on (w : World) (n : Tree) (c : FileCommand) (source : StorageSource) (reply : FileReply) (n' : Tree) : Prop :=
  tree n' /\ if is_local source then command_done w n source c reply n' else n' = n.
Definition left_on (w : World) (n : Tree) (c : FileCommand) (n' : Tree) : Prop :=
  tree n' /\ (n' = n \/ exists source, command_source w c source /\ is_local source = true /\ command_leaves w n source c n').
Definition refines (w : World) (n : Tree) (c : FileCommand) : result GoErr FileReply -> Tree -> Prop :=
  outcome (fun reply n' => exists source, command_source w c source /\ done_on w n c source reply n') (left_on w n c).
Section Command.
Context (w : World) (n : Tree) (Ht : tree n) (c : FileCommand).
Lemma nothing_left : left_on w n c n.
Proof. split; [done|by left]. Qed.
Lemma hspec_either {A} (f : A -> FileReply) source (local remote : M GoErr Host A) : command_source w c source ->
  (is_local source = true -> hspec local n (fun r n' => tree n' /\
     match r with Ok a => command_done w n source c (f a) n' | Err _ => n' = n \/ command_leaves w n source c n' end)) ->
  quiet dir remote ->
  hspec (if is_local source then local else remote) n (outcome (fun a => done_on w n c source (f a)) (left_on w n c)).
Proof.
  intros Hs Hl Hr. unfold done_on. destruct (is_local source) eqn:El.
  - eapply tspec_mono; [by apply Hl|]. intros [a|e] n' [Ht' He]; (split; [done|]); [done|]. destruct He as [->|He]; [by left|].
    right. by exists source.
  - eapply tspec_mono; [apply Hr|]. intros [a|e] n' ->; [by split|apply nothing_left].
Qed.
Lemma wp_reply {A} (f : A -> FileReply) (m : M GoErr Host A) P R h :
  wp m (fun r h' => exists n', holds dir sound n' (h_disk h') /\ outcome (fun a => P (f a)) R r n') h ->
  wp (bind m (fun a => ret (f a))) (fun r h' => exists n', holds dir sound n' (h_disk h') /\ outcome P R r n') h.
Proof. intros Hm. apply wp_bind. eapply wp_mono; [exact Hm|]. intros [a|e] h' (n' & Hh & HP); by exists n'. Qed.
Lemma wp_file_source {B} ctx action id (k : StorageSource -> M GoErr Host B) (P : B -> Tree -> Prop) (R : Tree -> Prop) h :
  holds dir sound n (h_disk h) -> R n ->
  (forall source, source ∈ tbl TSource (h_world h) -> src_ID source = id -> hspec (k source) n (outcome P R)) ->
  wp (bind (file_source s ctx action id) k) (fun r h' => exists n', holds dir sound n' (h_disk h') /\ outcome P R r n') h.
Proof.
  intros Hh HR Hk. apply wp_bind. unfold file_source. apply wp_bind_or, wp_zoom.
  assert (forall e w', wp (refuse_file s ctx action ResultFailed "SOURCE_NOT_FOUND" id "" e : M GoErr Host StorageSource)
    (fun r h' => match r with Ok a => wp (k a) (fun r h' => exists n', holds dir sound n' (h_disk h') /\ outcome P R r n') h'
                 | Err _ => exists n', holds dir sound n' (h_disk h') /\ R n' end) { h with h_world := w' }) as Hrefuse.
  { intros e w'. apply wp_zoom, wp_bind, wp_audit. intros w2 _. by exists n. }
  apply (wp_first TSource); [intros e w' _ _; apply Hrefuse|intros w' _ _; apply Hrefuse|].
  intros r w' _ Hr Hid%N.eqb_eq _. apply wp_ret. by apply (Hk r).
Qed.
(** A request that works on a source, and is recorded. *)
Definition replies {A} (f : A -> FileReply) (a : A) (n' : Tree) : Prop :=
  exists source, command_source w c source /\ done_on w n c source (f a) n'.
Lemma hspec_worked {A} (f : A -> FileReply) ctx action source p (local remote : M GoErr Host A) (k : A -> M GoErr Host A) :
  command_source w c source ->
  (is_local source = true -> hspec local n (fun r n' => tree n' /\
     match r with Ok a => command_done w n source c (f a) n' | Err _ => n' = n \/ command_leaves w n source c n' end)) ->
  quiet dir remote -> (forall a n', replies f a n' -> hspec (k a) n' (outcome (replies f) (left_on w n c))) ->
  hspec (bind (file_tried s ctx action source p (if is_local source then local else remote)) k) n (outcome (replies f) (left_on w n c)).
Proof.
  intros Hs Hl Hr Hk. eapply hspec_tried; [by apply (hspec_either f)|]. intros a n' Hd. apply Hk. by exists source.
Qed.
Lemma aon_effect {A} (f : A -> FileReply) source (m : M GoErr Host A) P : hspec m n (all_or_nothing n P) ->
  (forall a n', P a n' -> command_done w n source c (f a) n') ->
  hspec m n (fun r n' => tree n' /\
     match r with Ok a => command_done w n source c (f a) n' | Err _ => n' = n \/ command_leaves w n source c n' end).
Proof.
  intros Hm HP. eapply tspec_mono; [exact Hm|]. intros [a|e] n'; cbn; [intros [? ?]; auto|]. intros ->. split; [done|by left].
Qed.
End Command.

Definition refined (ctx : Ctx) (c : FileCommand) : Prop := forall h n, tree n -> holds dir sound n (h_disk h) -> command_ready (h_world h) n c ->
  wp (run_command ctx c) (fun r h' => exists n', holds dir sound n' (h_disk h') /\ refines (h_world h) n c r n') h.
Ltac refine_request Hs :=
  intros h n Ht Hh Hready; apply wp_reply; eapply wp_file_source; [exact Hh|by apply nothing_left|]; intros source Hin Hid;
  match type of Hready with command_ready _ _ ?c => assert (command_source (h_world h) c source) as Hs by exact (conj Hin Hid) end;
  repeat (apply hspec_granted; [by apply nothing_left|]).
Lemma refine_mkdir ctx req : refined ctx (CmdMkdir req).
Proof.
  refine_request Hs. apply (hspec_worked _ _ Ht _ RpItem); [exact Hs| |apply quiet_mkdir|intros item n' Hd; by apply hspec_done].
  intros _. eapply aon_effect; [done|by apply mkdir_local_spec|done].
Qed.
Lemma refine_rename ctx req : refined ctx (CmdRename req).
Proof.
  refine_request Hs. apply (hspec_worked _ _ Ht _ (fun r => RpRenamed (fst (fst r)) (snd (fst r)) (snd r))); [exact Hs| |apply quiet_rename|].
  - intros _. eapply aon_effect; [done|by apply rename_local_spec|]. by intros [[old new] item] n'.
  - intros [[old new] item] n' Hd. by apply hspec_done.
Qed.
Lemma refine_move ctx req : refined ctx (CmdMove req).
Proof.
  refine_request Hs. apply (hspec_worked _ _ Ht _ (fun r => RpPaths (fst r) (snd r))); [exact Hs| |apply quiet_transfer|].
  - intros _. eapply aon_effect; [done|by apply move_local_spec|]. by intros [old new] n'.
  - intros paths n' Hd. by apply hspec_done.
Qed.
Lemma refine_copy ctx req : refined ctx (CmdCopy req).
Proof.
  refine_request Hs. apply (hspec_worked _ _ Ht _ (fun r => RpPaths (fst r) (snd r))); [exact Hs| |apply quiet_transfer|].
  - intros _. destruct Hready as (Hn & Hsh & Hapart). eapply aon_effect; [done|apply copy_local_spec; [done..|]|by intros [old new] n'].
    intros. by eapply Hapart.
  - intros paths n' Hd. by apply hspec_done.
Qed.
Lemma refine_delete ctx req : refined ctx (CmdDelete req).
Proof.
  refine_request Hs. apply (hspec_worked _ _ Ht _ RpDeleted); [exact Hs| |apply quiet_delete|intros t n' Hd; by apply hspec_done].
  intros _. eapply tspec_mono; [by apply delete_local_spec|]. intros r n' [Ht' Hd]. split; [done|]. cbn.
  destruct (String.eqb_spec (dq_DeleteMode req) "permanent") as [Em|Em], r as [t|e]; try done; [by left|]. destruct Hd as [->|Hd]; [by left|by right].
Qed.
Lemma hspec_refuse_restore {A} ctx e err n (P : A -> Tree -> Prop) (R : Tree -> Prop) : R n ->
  hspec (refuse_restore tr ctx e err) n (outcome P R).
Proof. intros HR h Hh. apply wp_zoom, wp_bind, wp_audit. intros w' _. by exists n. Qed.
Lemma refine_restore ctx id : refined ctx (CmdRestore id).
Proof.
  intros h n Ht Hh _. set (w := h_world h). set (c := CmdRestore id). apply (wp_reply (fun _ => RpRestored)).
  set (Q := fun r h' => exists n', holds dir sound n' (h_disk h') /\ outcome (replies w n c (fun _ : TrashRestoreResponse => RpRestored)) (left_on w n c) r n').
  assert (forall n' h' e err, left_on w n c n' -> holds dir sound n' (h_disk h') -> wp (refuse_restore tr ctx e err) Q h') as Hrefuse
    by (intros n' h' e err Hl Hh'; by apply (hspec_refuse_restore _ _ _ n')).
  pose proof (nothing_left w n Ht c) as Hn. change (wp (TrashService_Restore tr ctx id) Q h). unfold TrashService_Restore.
  apply wp_bind_or, wp_zoom, (wp_first TTrash); [intros e w' _ _; by apply (Hrefuse n)|intros w' _ _; by apply (Hrefuse n)|].
  intros item w1 Hw1 Hitem Hiid%N.eqb_eq _. apply wp_bind_or, wp_zoom.
  assert (within [] (authorizeTrashRestore tr ctx item)) as Hauth.
  { unfold authorizeTrashRestore, trash_authorized. destruct (ts_aclAuthorizer tr); [apply authorize_path_within|apply within_ret]. }
  eapply wp_mono; [apply Hauth|].
  intros [u|e] w2 Hw2; [|by apply (Hrefuse n)]. apply wp_bind_or, wp_zoom.
  apply (wp_first TSource); [intros e w' _ _; by apply (Hrefuse n)|intros w' _ _; by apply (Hrefuse n)|]. intros source w3 _ Hsource Hid%N.eqb_eq _.
  assert (command_source w c source) as Hs.
  { change (source ∈ tbl TSource w2) in Hsource. rewrite (frames_tbl _ _ _ TSource Hw2), (proj1 Hw1) in Hsource by set_solver. split; [done|by exists item]. }
  apply wp_bind_or. eapply wp_mono.
  { apply (hspec_either w n Ht c (fun _ => RpRestored) source (restoreLocalTrash source item)
      (do! file_getDriver (src_DriverType source) ;; restoreDriverTrash source item) Hs); [|quiet_tac; [apply quiet_driver|apply quiet_restore]|exact Hh].
    intros _. eapply tspec_mono; [by apply restore_local_spec|]. intros [v|e] n' [Ht' Hd]; (split; [done|]); [by exists item|].
    destruct Hd as [->|Hd]; [by left|right]. exists item. auto. }
  intros [v|e] h4 (n4 & Hh4 & Hd); [|by apply (Hrefuse n4)]. apply wp_bind_or, wp_zoom. eapply wp_mono; [instantiate (1 := fun _ _ => True); exact I|].
  intros [v'|e] w5 _; [apply wp_bind, wp_zoom, wp_audit; intros w6 _; apply wp_ret; exists n4; split; [done|]; by exists source|].
  apply (Hrefuse n4); [|done]. destruct Hd as [Ht4 Hd]. split; [done|]. destruct (is_local source) eqn:El; [right|by left].
  exists source. split; [done|]. split; [done|]. destruct Hd as (item' & H1 & H2 & H3). exists item'. auto.
Qed.
End Services.

(** ** There and back *)

(** What requests that succeed do to the world. *)
Section WorldOnly.
Context `{DatabaseLaws}.
Definition wok {E A} (m : M E Host A) (w : World) (Q : A -> World -> Prop) : Prop :=
  forall h, h_world h = w -> wp m (fun r h' => match r with Ok a => Q a (h_world h') | Err _ => True end) h.
Definition fails {E A} (m : M E Host A) : Prop := returns m (fun _ => False).
Lemma wok_ret {E A} (a : A) w (Q : A -> World -> Prop) : Q a w -> wok (ret a : M E Host A) w Q.
Proof. by intros HQ h <-. Qed.
Lemma wok_fails {E A} (m : M E Host A) w Q : fails m -> wok m w Q.
Proof. intros Hm h _. eapply wp_mono; [apply Hm|]. by intros [a|e] h'. Qed.
Lemma wok_mono {E A} (m : M E Host A) w (P Q : A -> World -> Prop) : wok m w P -> (forall a w', P a w' -> Q a w') -> wok m w Q.
Proof. intros Hm HQ h Hw. eapply wp_mono; [by apply Hm|]. intros [a|e] h'; [apply HQ|done]. Qed.
Lemma wok_bind {E A B} (m : M E Host A) (k : A -> M E Host B) w P Q :
  wok m w P -> (forall a w', P a w' -> wok (k a) w' Q) -> wok (bind m k) w Q.
Proof. intros Hm Hk h Hw. apply wp_bind. eapply wp_mono; [by apply Hm|]. intros [a|e] h' HP; [by eapply Hk|done]. Qed.
Lemma wok_bind_or {E E' A B} (m : M E Host A) (f : E -> M E' Host B) (k : A -> M E' Host B) w P Q :
  wok m w P -> (forall e, fails (f e)) -> (forall a w', P a w' -> wok (k a) w' Q) -> wok (bind_or m f k) w Q.
Proof.
  intros Hm Hf Hk h Hw. apply wp_bind_or. eapply wp_mono; [by apply Hm|]. intros [a|e] h' HP; [by eapply Hk|]. exact (wok_fails _ _ Q (Hf e) h' eq_refl).
Qed.
Lemma wok_map_err {E E' A} (f : E -> E') (m : M E Host A) w Q : wok m w Q -> wok (map_err f m) w Q.
Proof. intros Hm h Hw. apply wp_map_err. eapply wp_mono; [by apply Hm|]. by intros [a|e] h'. Qed.
Lemma wok_disk {E A} (m : M E Disk A) w : wok (on_disk m) w (fun _ w' => w' = w).
Proof. intros h <-. apply wp_zoom. eapply wp_mono; [instantiate (1 := fun _ _ => True); exact I|]. by intros [a|e] d _. Qed.
Lemma wok_lift {A} (r : result GoErr A) w : wok (lift_result r : M GoErr Host A) w (fun a w' => w' = w /\ r = Ok a).
Proof. intros h <-. by destruct r. Qed.
Lemma wok_world {E A} (m : M E World A) w (Q : A -> World -> Prop) :
  wp m (fun r w' => match r with Ok a => Q a w' | Err _ => True end) w -> wok (on_world m) w Q.
Proof. intros Hm h <-. apply wp_zoom. eapply wp_mono; [exact Hm|]. by intros [a|e] w'. Qed.
Lemma wok_within {A} ts (m : M GoErr World A) w : within ts m -> wok (on_world m) w (fun _ w' => frames ts w w').
Proof. intros Hm. apply wok_world. eapply wp_mono; [apply Hm|]. by intros [a|e] w'. Qed.
Lemma fails_throw {E A} (e : E) : fails (throw e : M E Host A).
Proof. by intros h. Qed.
Lemma fails_bind {E A B} (m : M E Host A) (k : A -> M E Host B) : (forall a, fails (k a)) -> fails (bind m k).
Proof.
  intros Hk h. apply wp_bind. eapply wp_mono; [instantiate (1 := fun _ _ => True); exact I|]. intros [a|e] h' _; [apply Hk|done].
Qed.
Lemma fails_refuse {A} recorder ctx e err : fails (on_world (refuse recorder ctx e err) : M GoErr Host A).
Proof. intros h. apply wp_zoom, wp_bind, wp_audit. by intros w' _. Qed.
End WorldOnly.

Section Records.
Context `{DatabaseLaws} {MR : MetadataReader} {MRL : MetadataReaderLaws} {TF : TimeFormat} {TN : TimeFormatNano} {JD : JsonDecoder}
  {JM : JsonMapDecoder} {MT : MimeTypes} {JL : JwtLibrary FileAccessClaims} {UL : UuidLibrary} {FD : FileDrivers} {FO : FileDriverOps}
  {CP : CapabilityProviders} {OR : ObjectReaders} {PL : PathLimit} {TS : TrashStamp} {TSL : TrashStampLaws}.
Context (s : FileService) (tr : TrashService).

(** What is deleted is recorded in the trash. *)
Definition recorded (sourceID : N) (v : string) (t : Z) (w w' : World) : Prop :=
  exists item, frames [TTrash; TAudit] w w' /\ tbl TTrash w' = tbl TTrash w ++ [item] /\ ti_SourceID item = sourceID /\
    ti_OriginalPath item = v /\ ti_TrashPath item = snd (buildTrashPaths v t) /\ ti_DeletedAt item = t.
Lemma recorded_steps sourceID v t w w1 w2 w3 : frames [TAudit] w w1 -> recorded sourceID v t w1 w2 -> frames [TAudit] w2 w3 -> recorded sourceID v t w w3.
Proof.
  intros H1 (item & H2 & Ht & Hrest) H3. exists item. split; [|split; [|done]].
  - eapply frames_trans; [eapply frames_mono; [exact H1|set_solver]|]. eapply frames_trans; [exact H2|]. eapply frames_mono; [exact H3|set_solver].
  - rewrite (frames_tbl _ _ _ _ H3), Ht, (frames_tbl _ _ _ _ H1) by set_solver. done.
Qed.
Lemma trash_recorded source v p info w : fs_trashItemRepo s = true ->
  wok (trashLocal s source v p info) w (fun t w' => recorded (src_ID source) v t w w').
Proof.
  intros Hrepo. unfold trashLocal. eapply wok_bind.
  { apply wok_world, (wp_time_now (fun r w' => match r with Ok _ => w' = { w with w_reads ::= S } | Err _ => True end)). done. }
  intros t w1 ->. set (w1 := { w with w_reads ::= S }). pose proof (tick_frames [TAudit] w : frames [TAudit] w w1) as Hf.
  eapply wok_bind; [apply wok_map_err, wok_disk|]. intros size w2 ->. cbv zeta. eapply wok_bind; [apply wok_lift|]. intros [bt pt] w2 [-> _].
  eapply wok_bind; [apply wok_map_err, wok_disk|]. intros u w2 ->. eapply wok_bind; [apply wok_map_err, wok_disk|]. intros u' w2 ->.
  eapply (wok_bind_or _ _ _ _ (fun _ w2 => recorded (src_ID source) v t w1 w2)).
  - apply wok_world. unfold recordTrashItem. rewrite Hrepo. cbn [negb]. cbv zeta. apply wp_bind. unfold TrashItemRepository_Create.
    apply (wp_insert TTrash); [done|]. intros id now w2 r' _ Ha Hp. apply wp_ret. exists r'. split_and!; try done; [|apply Hp].
    eapply frames_mono; [eapply put_frames; [exact Hp|]|set_solver]. intros Hv. apply absent_no_conflicts; [apply Hv|done].
  - intros e. apply fails_bind. intros _. apply fails_bind. intros _. apply fails_throw.
  - intros u2 w2 Hr. apply wok_ret. eapply recorded_steps; [exact Hf|exact Hr|apply frames_refl].
Qed.
Lemma delete_local_recorded source req w : fs_trashItemRepo s = true -> dq_DeleteMode req <> "permanent" ->
  wok (deleteLocal s source req) w (fun t w' => exists v, normalizeVirtualPath (dq_Path req) = Ok v /\ recorded (src_ID source) v t w w').
Proof.
  intros Hrepo Hmode%String.eqb_neq. unfold deleteLocal. eapply wok_bind; [apply wok_lift|]. intros v w1 [-> Hv].
  eapply wok_bind; [apply wok_lift|]. intros [b p] w1 [-> _]. eapply wok_bind_or; [apply wok_disk|intros e; apply fails_throw|]. intros info w1 ->.
  eapply wok_bind; [apply wok_lift|]. intros [bp pp] w1 [-> _]. eapply wok_bind; [apply wok_map_err, wok_disk|]. intros b' w1 ->.
  destruct (negb b'); [apply wok_fails, fails_throw|]. rewrite Hmode. eapply wok_mono; [by apply trash_recorded|]. eauto.
Qed.
Lemma delete_recorded ctx req w : fs_trashItemRepo s = true -> dq_DeleteMode req <> "permanent" ->
  (forall source, source ∈ tbl TSource w -> src_ID source = dq_SourceID req -> is_local source = true) ->
  wok (FileService_Delete s ctx req) w (fun t w' => exists v, normalizeVirtualPath (dq_Path req) = Ok v /\ recorded (dq_SourceID req) v t w w').
Proof.
  intros Hrepo Hmode Hlocal. unfold FileService_Delete.
  eapply (wok_bind _ _ _ (fun source w' => frames [TAudit] w w' /\ source ∈ tbl TSource w /\ src_ID source = dq_SourceID req)).
  { eapply (wok_bind_or _ _ _ _ (fun source w' => frames [TAudit] w w' /\ source ∈ tbl TSource w /\ src_ID source = dq_SourceID req));
      [|intros e; apply fails_refuse|intros source w' HP; by apply wok_ret].
    apply wok_world, (wp_first TSource); [done..|]. intros r w' Hs Hr Hid%N.eqb_eq _. split; [by apply same_frames|done]. }
  intros source w1 (Hf1 & Hin & Hid). specialize (Hlocal source Hin Hid). rewrite Hlocal.
  eapply (wok_bind _ _ _ (fun _ w' => frames [] w1 w')).
  { eapply wok_bind_or; [|intros e; apply fails_refuse|intros u w' HP; apply wok_ret; exact HP]. apply wok_within. unfold file_authorizePath.
    destruct (fs_aclAuthorizer s); [apply authorize_path_within|apply within_ret]. }
  intros _ w2 Hf2. eapply wok_bind.
  { eapply wok_bind_or; [by apply delete_local_recorded|intros e; destruct e; (apply fails_throw || apply fails_refuse)|intros t w' HP; apply wok_ret; exact HP]. }
  intros t w3 (v & Hv & Hr). eapply wok_bind; [apply (wok_within [TAudit]); frame_tac|]. intros u4 w4 Hf4. apply wok_ret.
  exists v. split; [done|]. rewrite <- Hid. eapply recorded_steps; [|exact Hr|exact Hf4].
  eapply frames_trans; [exact Hf1|]. eapply frames_mono; [exact Hf2|set_solver].
Qed.
Lemma restore_recorded ctx id w :
  (forall item source, item ∈ tbl TTrash w -> ti_ID item = id -> source ∈ tbl TSource w -> src_ID source = ti_SourceID item -> is_local source = true) ->
  wok (TrashService_Restore tr ctx id) w (fun _ w' => tbl TTrash w' = sel (fun i => negb (N.eqb (ti_ID i) id)) (tbl TTrash w)).
Proof.
  intros Hlocal. unfold TrashService_Restore.
  eapply (wok_bind_or _ _ _ _ (fun item w' => frames [] w w' /\ item ∈ tbl TTrash w /\ ti_ID item = id)); [|intros e; apply fails_refuse|].
  { apply wok_world, (wp_first TTrash); [done..|]. intros r w' Hs Hr Hid%N.eqb_eq _. split; [by apply same_frames|done]. }
  intros item w1 (Hf1 & Hitem & Hid).
  eapply (wok_bind_or _ _ _ _ (fun _ w' => frames [] w1 w')); [|intros e; apply fails_refuse|].
  { apply wok_within. unfold authorizeTrashRestore, trash_authorized. destruct (ts_aclAuthorizer tr); [apply authorize_path_within|apply within_ret]. }
  intros u w2 Hf2. pose proof (frames_trans _ _ _ _ Hf1 Hf2) as Hf12.
  eapply (wok_bind_or _ _ _ _ (fun source w' => frames [] w w' /\ source ∈ tbl TSource w /\ src_ID source = ti_SourceID item)); [|intros e; apply fails_refuse|].
  { apply wok_world, (wp_first TSource); [done..|]. intros r w' Hs Hr Hsid%N.eqb_eq _.
    split; [eapply frames_trans; [exact Hf12|by apply same_frames]|]. by rewrite (frames_tbl _ _ _ _ Hf12) in Hr by set_solver. }
  intros source w3 (Hf3 & Hin & Hsid). unfold restore_storage. rewrite (Hlocal item source) by done.
  eapply (wok_bind_or _ _ _ _ (fun _ w' => w' = w3)); [|intros e; apply fails_refuse|].
  { unfold restoreLocalTrash. eapply wok_bind; [apply wok_lift|]. intros o w' [-> _]. eapply wok_bind; [apply wok_lift|]. intros tp w' [-> _].
    eapply (wok_bind _ _ _ (fun _ w' => w' = w3)).
    { intros h Hh. apply wp_bind_or, wp_zoom. eapply wp_mono; [instantiate (1 := fun _ _ => True); exact I|]. intros [i|e] d _; [by apply wp_ret|].
      destruct e; by (apply wp_ret || apply wp_throw). }
    intros free w' ->. destruct (negb free); [apply wok_fails, fails_throw|]. eapply wok_bind; [apply wok_map_err, wok_disk|]. intros u' w' ->.
    eapply wok_bind; [apply wok_map_err, wok_disk|]. intros u'' w' ->. apply wok_map_err, wok_disk. }
  intros u' w' ->. eapply (wok_bind_or _ _ _ _ (fun _ w' => tbl TTrash w' = sel (fun i => negb (N.eqb (ti_ID i) id)) (tbl TTrash w))); [|intros e; apply fails_refuse|].
  { apply wok_world, (wp_delete_found TTrash); [done..|]. intros w' _ Hp. rewrite (proj1 Hp), (frames_tbl _ _ _ _ Hf3), Hid by set_solver. done. }
  intros u'' w4 Ht4. eapply wok_bind; [apply (wok_within [TAudit]); frame_tac|]. intros u5 w5 Hf5. apply wok_ret.
  by rewrite (frames_tbl _ _ _ _ Hf5) by set_solver.
Qed.

(** What went into the trash comes out of it as it was. *)
Lemma restored_after_trash dir source n req t n1 item n2 : tree n -> tree n1 -> trash_done dir source n req t n1 ->
  normalizeVirtualPath (dq_Path req) = Ok (ti_OriginalPath item) -> ti_TrashPath item = snd (buildTrashPaths (ti_OriginalPath item) t) ->
  restore_done dir source n1 item n2 -> exists trash, trash_dir dir source trash /\ same_outside trash n n2.
Proof.
  intros Ht Ht1 (l & x & S & trash & T & Hq & Hv & HS & Hsome & Htrash & HT & HtT & HST & [Hin Hout]) Hv' Htp
    (b & original & b' & tp & n1' & Ho & Htr & Hnone & Hm & _ & Hrel).
  cbv zeta in *. rewrite Hv in Hv'. injection Hv' as Hv'. rewrite <- Hv' in *. destruct (trash_paths (l ++ [x]) t Hq) as [_ Etp].
  rewrite Htp, Etp in Htr. destruct (trash_located dir source b (l ++ [x]) t b' tp original Hq Ho Htr) as (Hone & Htne & HSl & HTl & _).
  assert (S = locate dir original) as -> by (apply (located_fun dir source _ _ _ HS); by exists b, original).
  assert (T = locate dir tp) as -> by (apply (located_fun dir source _ _ _ HT); by exists b', tp).
  exists trash. split; [done|]. apply (put_back n n1 n1' n2 (locate dir original) (locate dir tp) trash); try done.
  - intros Hp%prefix_length. rewrite HSl, HTl, !length_app in Hp. cbn in Hp. rewrite ?length_app in Hp. lia.
  - right. destruct (physical_render dir _ _ _ _ Hq Ho) as (_ & _ & He). apply good_last in Hq as (_ & Hx & _).
    pose proof (locate_dir dir original x (He _ _ eq_refl) Hx) as Ed. by rewrite Ed, removelast_last.
Qed.
End Records.

Section Refinement.
Context `{DatabaseLaws} {MR : MetadataReader} {MRL : MetadataReaderLaws} {TF : TimeFormat} {TN : TimeFormatNano} {JD : JsonDecoder}
  {JM : JsonMapDecoder} {MT : MimeTypes} {JL : JwtLibrary FileAccessClaims} {UL : UuidLibrary} {FD : FileDrivers} {FO : FileDriverOps}
  {CP : CapabilityProviders} {OR : ObjectReaders} {PL : PathLimit} {TS : TrashStamp} {TSL : TrashStampLaws}.
Context (s : FileService) (tr : TrashService).

(** C2: on a disk that does not fail, a request that makes, renames, moves,
    copies, deletes or restores a file of a local source and succeeds does
    to the tree of the disk exactly what it is for: a new directory in its
    parent, the same nodes under another name or in another directory, a
    copy of the whole subtree beside the original, everything below a node
    gone, or moved below the trash of the source, or back to where it was,
    with the directories that are missing above it.  Where a node is put
    outside of the trash there was none before, and nothing else outside of
    the trash changes; in the trash, a deletion may take the place of what
    an earlier one put there.  For copies this is stated of a tree whose
    nodes have names and whose directories lie less deep than the limit on
    paths, and when the target of the copy is not the copied directory
    or a directory below it.  A request that fails changes nothing, with two
    exceptions: a deletion that is not permanent may leave changes in the
    trash; a restoration may leave directories above the place, or, when its
    record cannot be deleted, what it restored.  Requests for other sources
    do not touch the disk. *)
Theorem file_requests_refine ctx c h (dir := dk_dir (h_disk h)) (n := dk_nodes (h_disk h))
    (Hsound : dk_faults (h_disk h) = sound) (Ht : tree n) (Hready : command_ready dir (h_world h) n c) :
  let '(r, h') := run_command s tr ctx c h in refines dir (h_world h) n c r (dk_nodes (h_disk h')).
Proof.
  assert (refined s tr dir ctx c) as Hr.
  { destruct c; [apply refine_mkdir|apply refine_rename|apply refine_move|apply refine_copy|apply refine_delete|apply refine_restore]. }
  specialize (Hr h n Ht). apply run_wp. eapply wp_mono; [by apply Hr|]. intros r h' (n' & (_ & _ & <-) & HQ). exact HQ.
Qed.
(** C4: what is moved to the trash can be brought back.  On a disk that
    does not fail, a deletion from a local source that succeeds records one
    item; when that item is restored, by anyone, its record is gone, and
    outside of the trash of the source the tree of the disk is as it was
    before the deletion. *)
Theorem trash_roundtrip ctx req h t h1 (dir := dk_dir (h_disk h)) (n := dk_nodes (h_disk h))
    (Hsound : dk_faults (h_disk h) = sound) (Ht : tree n) (Hv : valid (h_world h))
    (Hrepo : fs_trashItemRepo s = true) (Hmode : dq_DeleteMode req <> "permanent")
    (Hlocal : forall source, source ∈ tbl TSource (h_world h) -> src_ID source = dq_SourceID req -> is_local source = true)
    (Hdelete : FileService_Delete s ctx req h = (Ok t, h1)) :
  exists item, tbl TTrash (h_world h1) = tbl TTrash (h_world h) ++ [item] /\ ti_DeletedAt item = t /\
    forall ctx' r h2, TrashService_Restore tr ctx' (ti_ID item) h1 = (Ok r, h2) ->
      tbl TTrash (h_world h2) = tbl TTrash (h_world h) /\
      exists source trash, source ∈ tbl TSource (h_world h) /\ src_ID source = dq_SourceID req /\ trash_dir dir source trash /\
        same_outside trash n (dk_nodes (h_disk h2)).
Proof.
  assert (holds dir sound n (h_disk h)) as Hh by done.
  pose proof (delete_recorded s ctx req (h_world h) Hrepo Hmode Hlocal h eq_refl) as Hrec. unfold wp in Hrec. rewrite Hdelete in Hrec. cbn [fst snd] in Hrec.
  destruct Hrec as (v & Hvirtual & item & Hf & Htbl & Hsid & Hop & Htp & Hat).
  pose proof (refine_delete s tr dir ctx req h n Ht Hh I) as Hr. unfold wp, run_command, bind in Hr. rewrite Hdelete in Hr.
  destruct Hr as (n1 & Hh1 & source & [Hin Hid] & Ht1 & Hd). rewrite (Hlocal source Hin Hid) in Hd. cbn in Hd.
  rewrite (proj2 (String.eqb_neq _ _) Hmode) in Hd.
  exists item. split; [done|]. split; [done|]. intros ctx' r h2 Hrestore.
  pose proof (proj1 (proj2 Hf) Hv) as Hv1. assert (item ∈ tbl TTrash (h_world h1)) as Hitem by (rewrite Htbl; apply elem_of_app; right; by apply list_elem_of_singleton).
  assert (forall i, i ∈ tbl TTrash (h_world h1) -> ti_ID i = ti_ID item -> i = item) as Huniq.
  { intros i Hi E. destruct (no_conflicts_elem TTrash _ i item (Hv1 TTrash) Hi Hitem) as [|Hn]; [done|]. cbn in Hn. by rewrite E, N.eqb_refl in Hn. }
  assert (tbl TSource (h_world h1) = tbl TSource (h_world h)) as Hsrc by (apply (frames_tbl _ _ _ _ Hf); set_solver).
  assert (forall so, so ∈ tbl TSource (h_world h1) -> src_ID so = ti_SourceID item -> so = source) as Hsame.
  { intros so Hso E. rewrite Hsrc in Hso. destruct (no_conflicts_elem TSource _ so source (Hv TSource) Hso Hin) as [|Hn]; [done|].
    cbn in Hn. unfold StorageSourceModel_conflict in Hn. by rewrite E, Hsid, Hid, N.eqb_refl in Hn. }
  split.
  - pose proof (restore_recorded tr ctx' (ti_ID item) (h_world h1)) as Hw. unfold wok, wp in Hw. specialize (fun Hl => Hw Hl h1 eq_refl).
    rewrite Hrestore in Hw. cbn [fst snd] in Hw. rewrite Hw; [|intros i so Hi Ei Hso Eso; rewrite (Huniq i Hi Ei) in Eso; rewrite (Hsame so Hso Eso); by apply Hlocal].
    rewrite Htbl, sel_snoc by by rewrite N.eqb_refl. apply sel_all. intros i Hi. apply negb_true_iff, N.eqb_neq. intros E.
    pose proof (Hv1 TTrash) as Hn. rewrite Htbl, no_conflicts_snoc in Hn. apply andb_true_iff in Hn as [_ Hn]. rewrite forallb_forall in Hn.
    apply list_elem_of_In, Hn in Hi. cbn in Hi. by rewrite E, N.eqb_refl in Hi.
  - pose proof (refine_restore s tr dir ctx' (ti_ID item) h1 n1 Ht1 Hh1 I) as Hr. unfold wp, run_command, bind in Hr. rewrite Hrestore in Hr.
    destruct Hr as (n2 & (_ & _ & <-) & so & [Hso (i & Hi & Ei & Eso)] & _ & Hd2). rewrite (Huniq i Hi Ei) in Eso. rewrite (Hsame so Hso Eso) in *.
    rewrite (Hlocal source Hin Hid) in Hd2. destruct Hd2 as (i' & Hi' & Ei' & Heff). rewrite (Huniq i' Hi' Ei') in Heff.
    destruct (restored_after_trash dir source n req t n1 item (dk_nodes (h_disk h2)) Ht Ht1 Hd) as (trash & H1 & H2); try (rewrite Hop; done); [done|].
    by exists source, trash.
Qed.
End Refinement.

(** ** A concrete system *)
#[local] Existing Instances Mem.database Mem.laws UsersExample.format AuthExample.uuid AuthExample.uuid_laws StorageExample.decoder
  UploadExample.mime_types UploadExample.nano UploadExample.reader UploadExample.reader_laws.
Import FileExample.
#[local] Instance stamp_laws : TrashStampLaws.
Proof.
  intros t. unfold trash_stamp, stamp, good_seg. assert (has_byte "." ("t" +:+ pretty (Z.to_N t)) = false) as Hd.
  { rewrite has_byte_app. apply pretty_no_byte. intros x. assert (x mod 10 < 10)%N as Hx by by apply N.mod_lt. revert Hx.
    generalize (x mod 10)%N. intros y Hy. assert (y ∈ [0; 1; 2; 3; 4; 5; 6; 7; 8; 9])%N as Hin by (rewrite !elem_of_cons; lia). clear Hy.
    rewrite !elem_of_cons, elem_of_nil in Hin. by repeat destruct Hin as [->|Hin]. }
  rewrite (contains_no_byte "." _ ".." Hd), andb_true_r by done. apply plain_seg_spec. split_and!; [done..|]. rewrite has_byte_app, pretty_no_slash. done.
Qed.
Definition delete_docs (mode : string) : DeleteFileRequest := {| dq_SourceID := 1; dq_Path := "/docs"; dq_DeleteMode := mode |}.
Lemma file_requests_refine_witness :
  let run := run_command service trash bob (CmdDelete (delete_docs "trash")) host in
  fst run = Ok (RpDeleted 1000) /\ refines (dk_dir disk) world (dk_nodes disk) (CmdDelete (delete_docs "trash")) (fst run) (dk_nodes (h_disk (snd run))).
Proof.
  pose proof (file_requests_refine service trash bob (CmdDelete (delete_docs "trash")) host eq_refl file_disk_tree I) as Hr.
  destruct (run_command service trash bob (CmdDelete (delete_docs "trash")) host) as [r h'] eqn:E. split; [|exact Hr].
  apply (f_equal fst) in E. cbn [fst] in E |- *. rewrite <- E. vm_compute. reflexivity.
Defined.
Notation deleted_host := (snd (FileService_Delete service bob (delete_docs "") host)) (only parsing).
Notation restored_host := (snd (TrashService_Restore trash bob 10 deleted_host)) (only parsing).
Lemma docs_back : map (fun h => dk_nodes (h_disk h) !! pub ["docs"; "a.txt"]) [deleted_host; restored_host] = [None; Some (NFile "hello" 7)].
Proof. vm_compute. reflexivity. Qed.
Lemma docs_deleted : fst (FileService_Delete service bob (delete_docs "") host) = Ok 1000%Z /\ map ti_ID (tbl TTrash (h_world deleted_host)) = [10%N].
Proof. split; vm_compute; reflexivity. Qed.
Lemma docs_restored : exists r, fst (TrashService_Restore trash bob 10 deleted_host) = Ok r.
Proof. eexists. vm_compute. reflexivity. Qed.
Lemma trash_roundtrip_witness :
  map (fun h => dk_nodes (h_disk h) !! pub ["docs"; "a.txt"]) [deleted_host; restored_host] = [None; Some (NFile "hello" 7)] /\
  tbl TTrash (h_world restored_host) = [] /\
  exists dir, same_outside dir (dk_nodes disk) (dk_nodes (h_disk restored_host)).
Proof.
  destruct docs_deleted as [E1 E2]. destruct docs_restored as [r Er]. split; [exact docs_back|].
  destruct (trash_roundtrip service trash bob (delete_docs "") host 1000%Z deleted_host eq_refl file_disk_tree file_world_valid eq_refl) as (item & Ht & _ & Hr).
  - discriminate.
  - intros source Hin _. change (tbl TSource (h_world host)) with (tbl TSource world) in Hin. rewrite file_sources in Hin.
    apply list_elem_of_singleton in Hin as ->. reflexivity.
  - rewrite <- E1. apply surjective_pairing.
  - assert (ti_ID item = 10%N) as Eid by (rewrite Ht in E2; injection E2 as E2; exact E2). rewrite Eid in Hr.
    destruct (Hr bob r restored_host) as (Hgone & source & dir & _ & _ & _ & Hsame); [rewrite <- Er; apply surjective_pairing|].
    split; [exact Hgone|]. exists dir. exact Hsame.
Defined.

(** ** Where the code falls short *)
Module FileFindings.
(** Two deletions of the same path within a second. *)
#[local] Instance same_second : TrashStamp := fun _ => "20260101-120000".
Definition delete_b : FileRequest := RqDelete bob {| dq_SourceID := 1; dq_Path := "/b.txt"; dq_DeleteMode := "" |}.
Notation deleted_twice := (run_requests service trash [delete_b; RqMove bob (at_path "/docs/a.txt" "/");
  RqRename bob {| rq_SourceID := 1; rq_Path := "/a.txt"; rq_NewName := "b.txt" |}; delete_b] host) (only parsing).
Lemma first_copy_lost :
  dk_nodes disk !! pub ["b.txt"] = Some (NFile "bye" 8) /\
  map ti_TrashPath (tbl TTrash (h_world deleted_twice)) = ["/.trash/20260101-120000/b.txt"; "/.trash/20260101-120000/b.txt"] /\
  dk_nodes (h_disk deleted_twice) !! pub [".trash"; "20260101-120000"; "b.txt"] = Some (NFile "hello" 7) /\
  List.filter (fun kv => match snd kv with NFile text _ => String.eqb text "bye" | NDir => false end) (map_to_list (dk_nodes (h_disk deleted_twice))) = [].
Proof. split_and!; vm_compute; reflexivity. Qed.
(** A directory is copied into itself until the path is too long. *)
Notation copied_into_itself := (run_command service trash bob (CmdCopy (at_path "/docs" "/docs")) host) (only parsing).
Lemma copy_into_itself :
  fst copied_into_itself = Err (os_error name_too_long) /\
  dk_nodes (h_disk (snd copied_into_itself)) !! pub ["docs"; "docs"; "docs"; "docs"; "docs"] = Some NDir.
Proof. split; vm_compute; reflexivity. Qed.
(** The directory of a source is deleted like any other. *)
Notation root_deleted := (run_command service trash bob (CmdDelete {| dq_SourceID := 1; dq_Path := "/"; dq_DeleteMode := "permanent" |}) host)
  (only parsing).
Lemma source_deleted : fst root_deleted = Ok (RpDeleted 1000) /\ dk_nodes (h_disk (snd root_deleted)) !! pub [] = None.
Proof. split; vm_compute; reflexivity. Qed.
End FileFindings.
